(* ===== verification/_CoqProject ===== *)
-Q . S2P
Prelude.v
GoStrings.v
GoText.v
Rlp.v
EthCrypto.v
EthTx.v
CoinSelect.v
BitcoinPlan.v
Authorization.v
ApprovalDb.v
EthRpc.v
Workflow.v
SettlementWorkflow.v
BigFloat.v
Policy.v
KeyLifecycle.v
Sweep.v
Settlement.v
GoPath.v
KeyShare.v
ShareStore.v
Committee.v
PartyManager.v
PeerChannel.v
PartyServer.v
RealTss.v
NetGuard.v
Webhooks.v
Float64.v
PolicyEngine.v
Sanctions.v
Wire.v
Solana.v
SolanaService.v
Protobuf.v
Cosmos.v
CosmosService.v
Calendar.v
Billing.v
BillingPeriods.v
BillingCollect.v
BillingLedger.v
BitcoinService.v
KeySigner.v
Hsm.v
ChainSigners.v
SignerService.v
Offsite.v
Backup.v
Recovery.v
