(* ===== verification/Prelude.v ===== *)
(** * OpenFireblocks, a custody and settlement platform: verification library

    ** The program

    OpenFireblocks holds customers' keys as threshold shares and moves money
    with them.  A customer's request passes through these parts, each a Go
    service or a package of one:

    - the policy service ([services/policy]) says whether a key may sign a
      request, and whether people must approve it first;
    - the Temporal worker ([services/temporal-worker]) runs the durable
      workflows: it collects approvals, asks for signatures, broadcasts and
      monitors; it also creates, rotates and retires keys and moves balances
      off retired ones;
    - the approval record (the tables and triggers of migration 023) is the
      second, independent account of who approved what;
    - the parties ([services/mpc-party]) hold the shares and run the threshold
      protocol, each checking an authorisation before it joins a ceremony;
    - the signer ([services/mpc-signer]) builds what is signed, on Ethereum,
      Bitcoin, Solana and Cosmos, relays it to their nodes, and signs by itself
      with a single key in memory or in a hardware module;
    - the settlement service ([services/settlement]) puts signed transactions on
      a chain and follows them;
    - the policy service's engine ([services/policy-service]) screens a
      transaction against spending rules and sanctions lists;
    - webhooks ([services/webhooks]) tell customers of events, and billing
      ([services/billing]) measures, invoices and collects;
    - backup ([services/backup]) dumps the database and Vault, copies the dumps
      off-site, restores them, and promotes the standby of another region.

    ** How the library is laid out

    Each file has one module of the same name (the first three and [Workflow]
    apart), its data as records and inductive types with the source's names,
    and one definition per function.

    - [Prelude]: Go's outcomes (value, error, panic) and their monad, machine
      integers kept at their width, byte strings, slicing that panics out of
      range, big-endian integers, the tactics and hints of the library.
    - [GoStrings], [GoText]: what the sources use of [encoding/hex], [strings],
      [fmt], [strconv], [encoding/base64] and [math/big].
    - [Rlp]: [internal/ethtypes/rlp.go] and the reader of [decode.go].
    - [EthCrypto]: [internal/ethcrypto/ethcrypto.go] and [sign.go].
    - [EthTx]: [internal/ethtypes/transaction.go] and the rest of [decode.go].
    - [CoinSelect]: [chains/bitcoin_coinselect.go].
    - [BitcoinPlan]: [chains/bitcoin_threshold.go].
    - [Authorization]: [services/mpc-party/authorizer.go] and the worker's
      [activities/ceremony_authorization.go]; the class [SignerFor] is what the
      party relies on, with an instance per signing scheme.
    - [ApprovalDb]: [activities/approvals.go] over the tables and triggers of
      [infrastructure/database/migrations/023_approvals_segregation_of_duties.sql],
      as a transition system of everything a writer can do.
    - [EthRpc]: [internal/ethrpc/ethrpc.go].
    - [Workflow]: the monad of workflow runs (commands issued and outcome, given
      a history of answers).
    - [SettlementWorkflow]: [workflows/transaction_settlement.go],
      [workflows/approval.go] and [activities/activities.go]; the class
      [ApprovalRecord] is what the workflow relies on in the database, with the
      instance [database_record] discharged by [ApprovalDb].
    - [BigFloat], [Policy]: [services/policy] ([policy.go], [db.go],
      [httperr.go]).
    - [KeyLifecycle]: [workflows/dkg_ceremony.go], [provision_key.go] and
      [activities/key_rotation.go].
    - [Sweep]: [workflows/balance_migration.go] and
      [activities/balance_migration.go]; the class [SweepActivities] ties the
      workflow's history to the activities.
    - [Settlement]: [services/settlement] ([settlement.go], [db.go]); the record
      [ChainClient] is the interface of a chain, and [step] interleaves requests
      with the goroutines that follow transactions.
    - [GoPath]: what the sources use of [path/filepath].
    - [KeyShare]: [services/mpc-party/curve.go] and [cosmos_address.go].
    - [ShareStore]: [file_seal.go] over a file system in which any operation can
      fail, and [vault_seal.go]; the class [ShareKeeping] is what a party relies
      on, with an instance for the store the environment selects.
    - [Committee]: the identities of committees in [tss_party.go] and
      [tss_resharing.go], epochs included.
    - [PartyManager]: the key generations, signings and refreshes of
      [tss_party.go], [tss_signing.go], [tss_resharing.go] and [tss_flush.go].
      The shared ceremony objects are a store addressed by position; [step]
      interleaves requests with the turns of the goroutines they start.
    - [PeerChannel]: [peer_identity.go], [preparams.go] and the sender's retry
      loop of [tss_handlers.go].
    - [PartyServer]: the handlers of [tss_handlers.go] and the routes of
      [main.go]; [run] interleaves calls with the turns of goroutines.
    - [RealTss]: the worker's [activities/real_tss.go], composed with the
      workflows above it and the party server below it.
    - [NetGuard], [Webhooks]: [services/webhooks], the guard of the addresses it
      calls and its registrations, deliveries and retries.
    - [Float64], [PolicyEngine], [Sanctions]: [services/policy-service], binary64
      arithmetic of its limits, the decision with the Rego rules, and the
      sanctions lists with their age.
    - [Wire], [Solana], [SolanaService]: [chains/solana.go], [solana_transfer.go],
      [solana_spl.go], [solana_rpc.go] and the Solana routes.
    - [Protobuf], [Cosmos], [CosmosService]: [chains/cosmos.go], [cosmos_tx.go],
      [cosmos_lcd.go] and the Cosmos routes.
    - [Calendar], [Billing], [BillingPeriods], [BillingCollect],
      [BillingLedger]: [services/billing]; dates, plans, usage and invoices over
      their tables; sweeps and requests interleaved; the collection pass against
      the interfaces of its store and of the payment processor; and a ledger of
      what the processor took.
    - [BitcoinService]: [chains/bitcoin_rpc.go] and the Bitcoin routes, over
      [CoinSelect] and [BitcoinPlan].
    - [KeySigner]: [keys/keys.go] and [pkcs11_config.go]; the record [KeySigner]
      is the Go interface and the class [Signs] what it promises, with an
      instance for the software key.
    - [Hsm]: [keys/pkcs11.go] over a class [Cryptoki] of the vendor's calls, of
      which nothing is assumed; a second instance of [Signs]; [reach] is the
      worlds reached by opening, using and closing signers.
    - [ChainSigners]: [chains/ethereum.go], [bitcoin.go], [keysigned.go] and
      [router.go], proved against [Signs].
    - [SignerService]: [signer.go], [keysource.go], [vault.go], [audit.go] and
      the routes of [main.go], with either signer behind the interface.
    - [Offsite]: [services/backup/offsite.go] and [offsite_checksums.go], the
      sealed chunks of a copy and the fetch that checks them.
    - [Backup]: [postgres_backup.go], [vault_backup.go],
      [filesystem_storage.go], [backup_manager.go] and their routes, in a monad of
      actions over files, databases, Vault and the bucket, in which file
      operations can fail; the copy is that of [Offsite].
    - [Recovery]: [failover_postgres.go] and [disaster_recovery.go], over
      [Backup].

    ** What the theorems show

    - Dual control, end to end.  Counting approval signals implements the plain
      rule on first votes; the approval record, whatever its writers do,
      approves only with enough distinct people other than the initiator, in
      time; together no transaction that needs approval is signed, broadcast or
      monitored without them, but by a workflow started before there was such a
      record.  The record is append-only.
    - What is signed is what was asked.  Signing hashes bind every field;
      assembled transactions read back as the transaction signed, from the
      expected sender; Bitcoin plans spend and pay exactly what the request says
      and their assembled form passed the script engine; what is broadcast is
      what was signed.
    - Money arithmetic.  Coin selection balances, pays its fee rate for its real
      size, creates no dust, is the shortest covering prefix and does not depend
      on order; a sweep moves the whole balance less its fee; amount limits are
      numeric up to the precision of [big.Float].
    - Authorisation.  A party joins a ceremony exactly when it holds a fresh
      authorisation for it; one authorisation serves one ceremony, as long as no
      field has a line break; configuration fails closed; and the worker's authorisations are accepted.
    - Parties.  A party with an authoriser changes nothing without an
      authorisation for that very operation and signs only what one names; a
      message is handed to tss-lib only from the party its certificate names,
      unless that check is switched off; no interleaving changes
      the public key of a key it holds; a signing is by exactly the holders
      asked for.  Sealing is atomic and loads what was sealed; a restart
      restores a key, refreshed or not; a retirement reported is complete.
    - Ceremonies.  The worker's requests are understood by the parties; a key is
      activated only when all its parties reported it; a signature is reported
      only when the committee agrees.  A slow peer is reached, and a ceremony
      that completes at its parties is reported within as many rounds.
    - Keys.  A key becomes active only with a completed ceremony's address;
      a rotation issues a prefix of its plan; retiring shares accounts for every
      party.
    - Records.  Settlement records are never lost, keep their payment and their
      owner, read back as stored, and are followed to a final status within 121
      ticks; policies stay with their owner and are listed as created.
    - Chains.  A Solana message reads back, in the layout of a validator, as the
      request; a Cosmos transaction reads by the schemas as the send, with the
      signature over the document a node rebuilds; a Bitcoin transaction handed
      to the node after prepare, sign and finalise pays what was asked and
      nobody else; what is offered for signing can be paid.
    - Single keys.  A signer in hardware is opened only on a key the token says
      stays in it, keeps that key however often its session is lost (but for a
      failed self-test, a finding), and its library is finalised only by its
      last holder; a bare signature is normalised exactly when it is one by the
      key; on Ethereum and Cosmos, signing with a key's text and with its holder
      agree; what /sign answers is the request, field by field, and its records
      are written, and a key that signs is enough; hardware and
      software keys exclude each other, and Vault's key is found again.
    - Screening and events.  An approved transaction is within the limits and
      was screened, a designated address is refused, a stopped feed is noticed;
      an event goes to endpoints of its own customer only.
    - Billing.  No instant is billed twice and none is skipped, whatever runs
      beside; amounts are exact; whatever fails, an invoice is paid for at most
      once with a card, and only within the delay of the processor's search; a
      collection pass accounts for every invoice.
    - Backups.  A run reported as done has left everything it names, on disk and
      off-site; restoring it puts back the database and every secret, up to the
      numbers JSON rounds; an object
      that decrypts is one that was made, whole, and a fetch writes only what it
      checked; a standby is promoted only within the allowed lag, and a failover
      ends and says truly what became of the database (a name it does not know
      counts as done, a finding).  Drills and the
      health check take the oldest backup for the latest, and incremental
      backups cannot be restored (findings).
    - Errors.  A digest of the wrong length leaves a key's mutex locked, and the
      second refresh of a key fails; which inputs make the RLP reader and [SigningHash] panic, what a
      failed policy check answers, and that results of workflows say how far
      they got.

    ** Bounds, fuel and machine integers

    Go's int64, uint64 and uint32 arithmetic wraps where the code can reach the
    bound ([i64], [u64], [u32]); a theorem that needs no overflow says so in its
    hypotheses.  Fuel is used in few places: the RLP item loop (the length of
    the input plus one, each item taking at least a byte, [splitList_total]); the
    base-256 digits of an integer (its bit length) and the squarings of a power of
    five; the readers of varints, short vectors and message fields (the bytes
    their formats allow, or the length of the input); a sender's retries (one for
    every retry interval before its deadline and two more,
    [postTSSEnvelope_returns]); the chunks of a file (its length, as every turn
    takes some); the depth of Vault's tree; the polls for a promotion (its
    timeout, [failover_ends_and_reports]); and the polling of the parties, where the number
    of rounds is an argument and [dkg_completes] says how many are enough.  Every other recursion is structural: on the input, on the events
    received, on the ticks of a timer.  A byte slice is shorter than 2^63 bytes;
    that is a hypothesis where decoding needs it.

    ** What is a parameter

    Code that is not in the repository: Keccak-256 and secp256k1 (with
    recovery), Ed25519, ECDSA P-256 and SHA-256; btcd's address, script,
    serialisation and sighash code; the JSON and PEM decoders; HTTP exchanges;
    the clock, the environment and random ids; Postgres's uuid cast, timestamp
    rounding, column types and row order; the payment processor; the vendor's
    PKCS#11 library; base58, bech32 and RIPEMD-160; Vault's
    key-value store; the immutable ledger; AES-GCM; [pg_dump] and [pg_restore], the
    standby's answers and the object store; file faults and random bytes; the order in which Go
    ranges over a map; and tss-lib, whose protocol parties answer with any
    sequence of messages, errors and results on the curve they were made for.

    ** What is not modelled

    The parties' TLS configuration ([mtls.go], [certreload.go]) and that of the
    other services; compliance reports, the marketplace and the Vault
    helpers ([vault-unseal], [vault-pki-init]), which move rows and
    configuration; connection setup, logging, metrics and [main] functions; the
    copies of the Ethereum packages under other services; the API
    gateway, applications and SDKs, which are clients in other languages.  The
    average confirmation time is an exact rational where the code has a
    [float64], and updates of the settlement metrics are atomic here.  Handlers
    of a party are atomic; of its mutexes only the one [StartSigning] leaves
    locked is modelled, with the requests that then wait, while goroutines are
    taken not to wait for it.  Retries
    and timeouts of activities are inside their answers. *)

From stdpp Require Import base list numbers strings gmap.
From Stdlib Require Import ZArith Lia.

Open Scope Z_scope.

(** ** Outcomes of Go calls

    A Go function that returns [(T, error)] either yields a value, yields an
    error, or panics (slice bounds, explicit [panic]).  The three are kept
    apart: a panic is not an error a caller can handle. *)

Inductive result (E A : Type) : Type :=
| Ok (a : A)
| Err (e : E)
| Panic.
Arguments Ok {E A} a.
Arguments Err {E A} e.
Arguments Panic {E A}.

Definition result_bind {E A B} (f : A -> result E B) (c : result E A) : result E B :=
  match c with
  | Ok a => f a
  | Err e => Err e
  | Panic => Panic
  end.

(** The error of a callee, wrapped by the caller ([fmt.Errorf("...: %w", err)]). *)
Definition map_err {E F A} (f : E -> F) (c : result E A) : result F A :=
  match c with
  | Ok a => Ok a
  | Err e => Err (f e)
  | Panic => Panic
  end.

Declare Scope go_scope.
Delimit Scope go_scope with go.

Notation "'let!' x ':=' c 'in' k" := (result_bind (fun x => k) c)
  (at level 10, x binder, c at level 100, k at level 200) : go_scope.
Notation "'check!' b 'else' e ; k" := (if b then k else Err e)
  (at level 10, b at level 100, e at level 100, k at level 200) : go_scope.
Notation "'refuse!' b 'with' e ; k" := (if b then Err e else k)
  (at level 10, b at level 100, e at level 100, k at level 200) : go_scope.
Open Scope go_scope.

Definition is_ok {E A} (c : result E A) : bool :=
  match c with Ok _ => true | _ => false end.

(** ** Tactics of the development *)

(** Case analysis on the scrutinee of some [match] or [if]. *)
Ltac split_match :=
  match goal with
  | |- context [ match ?x with _ => _ end ] => destruct x eqn:?
  | H : context [ match ?x with _ => _ end ] |- _ => destruct x eqn:?
  end.

(** Turn boolean tests of the code into propositions. *)
Ltac b2p :=
  repeat match goal with
  | H : _ && _ = true |- _ => apply andb_true_iff in H; destruct H
  | H : _ || _ = false |- _ => apply orb_false_iff in H; destruct H
  | H : negb _ = true |- _ => apply negb_true_iff in H
  | H : negb _ = false |- _ => apply negb_false_iff in H
  | H : (_ <? _) = true |- _ => apply Z.ltb_lt in H
  | H : (_ <? _) = false |- _ => apply Z.ltb_ge in H
  | H : (_ <=? _) = true |- _ => apply Z.leb_le in H
  | H : (_ <=? _) = false |- _ => apply Z.leb_gt in H
  | H : (_ =? _) = true |- _ => apply Z.eqb_eq in H
  | H : (_ =? _) = false |- _ => apply Z.eqb_neq in H
  | H : String.eqb _ _ = true |- _ => apply String.eqb_eq in H
  | H : String.eqb _ _ = false |- _ => apply String.eqb_neq in H
  | H : bool_decide _ = true |- _ => apply bool_decide_eq_true in H
  | H : bool_decide _ = false |- _ => apply bool_decide_eq_false in H
  end.

(** Decompose a hypothesis saying that a monadic computation succeeded. *)
Ltac inv_ok :=
  repeat first
    [ progress simplify_eq/=
    | match goal with
      | H : result_bind _ ?c = Ok _ |- _ =>
          destruct c eqn:?; cbn [result_bind] in H; [ | discriminate H | discriminate H ]
      | H : map_err _ ?c = Ok _ |- _ =>
          destruct c eqn:?; cbn [map_err] in H; [ | discriminate H | discriminate H ]
      | H : (if ?b then _ else Err _) = Ok _ |- _ => destruct b eqn:?; [ | discriminate H ]
      | H : (if ?b then Err _ else _) = Ok _ |- _ => destruct b eqn:?; [ discriminate H | ]
      end ].

(** Walk past the guards of an accepted computation, one [refuse!] at a time,
    without unfolding what comes after them. *)
Ltac pass_guards H :=
  repeat match type of H with
  | (if ?b then Err _ else _) = Ok _ => destruct b eqn:?; [ discriminate H | ]
  | (if ?b then _ else Err _) = Ok _ => destruct b eqn:?; [ | discriminate H ]
  end.

(** ** Machine integers *)

Definition two64 : Z := 18446744073709551616.
Definition two63 : Z := 9223372036854775808.

Definition u8 (z : Z) : Z := z mod 256.
Definition u32 (z : Z) : Z := z mod 4294967296.
Definition u64 (z : Z) : Z := z mod two64.
(** Two's complement reading of a 64-bit pattern. *)
Definition i64 (z : Z) : Z := (z + two63) mod two64 - two63.

Definition in_u64 (z : Z) : Prop := 0 <= z < two64.
Definition in_i64 (z : Z) : Prop := - two63 <= z < two63.

Lemma u8_id z : 0 <= z < 256 -> u8 z = z.
Proof. intros; unfold u8; rewrite Z.mod_small; lia. Qed.

Lemma u8_range z : 0 <= u8 z < 256.
Proof. apply Z.mod_pos_bound; lia. Qed.

Lemma u64_id z : in_u64 z -> u64 z = z.
Proof. intros; unfold u64; rewrite Z.mod_small; auto. Qed.

Lemma u64_range z : in_u64 (u64 z).
Proof. unfold in_u64, u64, two64; apply Z.mod_pos_bound; lia. Qed.

Lemma i64_id z : in_i64 z -> i64 z = z.
Proof. unfold in_i64, i64, two63, two64; intros; rewrite Z.mod_small; lia. Qed.

Lemma i64_range z : in_i64 (i64 z).
Proof.
  unfold in_i64, i64, two63, two64.
  pose proof (Z.mod_pos_bound (z + 9223372036854775808) 18446744073709551616); lia.
Qed.

(** ** Byte strings

    A byte is an integer in [0, 256); a Go byte slice is a list of them. *)

Abbreviation bytes := (list Z).

Definition byte_ok (b : Z) : Prop := 0 <= b < 256.
Definition bytes_ok (bs : bytes) : Prop := Forall byte_ok bs.

(** A literal byte string is one. *)
Ltac solve_bytes := repeat (constructor; [ unfold byte_ok; lia | ]); constructor.

(** Go's [len]. *)
Definition len {A} (l : list A) : Z := Z.of_nat (length l).

Lemma len_nonneg {A} (l : list A) : 0 <= len l.
Proof. unfold len; lia. Qed.

Lemma len_nil {A} : len (@nil A) = 0.
Proof. reflexivity. Qed.

Lemma len_cons {A} (x : A) l : len (x :: l) = 1 + len l.
Proof. unfold len; cbn [length]; lia. Qed.

Lemma len_app {A} (l k : list A) : len (l ++ k) = len l + len k.
Proof. unfold len; rewrite length_app; lia. Qed.

Lemma len_zero {A} (l : list A) : len l = 0 -> l = [].
Proof. destruct l; [ done | rewrite len_cons; pose proof (len_nonneg l); lia ]. Qed.

(** [b[lo:hi]] on a slice: out-of-order or out-of-range bounds panic. *)
Definition slice {E A} (l : list A) (lo hi : Z) : result E (list A) :=
  if (0 <=? lo) && (lo <=? hi) && (hi <=? len l)
  then Ok (take (Z.to_nat (hi - lo)) (drop (Z.to_nat lo) l))
  else Panic.

Lemma slice_app {E A} (p q r : list A) lo hi :
  lo = len p -> hi = len p + len q ->
  @slice E A (p ++ q ++ r) lo hi = Ok q.
Proof.
  intros -> ->; unfold slice.
  pose proof (len_nonneg p); pose proof (len_nonneg q); pose proof (len_nonneg r).
  rewrite !len_app.
  replace (0 <=? len p) with true by (symmetry; apply Z.leb_le; lia).
  replace (len p <=? len p + len q) with true by (symmetry; apply Z.leb_le; lia).
  replace (len p + len q <=? len p + (len q + len r)) with true
    by (symmetry; apply Z.leb_le; lia).
  cbn [andb]; f_equal.
  replace (Z.to_nat (len p + len q - len p)) with (length q) by (unfold len; lia).
  replace (Z.to_nat (len p)) with (length p) by (unfold len; lia).
  rewrite drop_app_length, take_app_length; reflexivity.
Qed.

Lemma slice_ok_inv {E A} (l s : list A) lo hi :
  @slice E A l lo hi = Ok s ->
  exists p r, l = p ++ s ++ r /\ len p = lo /\ len s = hi - lo.
Proof.
  unfold slice; intros H; destruct (_ && _) eqn:Hb; [ | discriminate ].
  b2p; simplify_eq.
  exists (take (Z.to_nat lo) l), (drop (Z.to_nat (hi - lo)) (drop (Z.to_nat lo) l)).
  rewrite !take_drop; split; [ done | ].
  unfold len in *; rewrite !length_take, !length_drop; lia.
Qed.

(** Indexing; out of range it panics. *)
Definition index {E A} (l : list A) (i : Z) : result E A :=
  if 0 <=? i then
    match l !! Z.to_nat i with Some a => Ok a | None => Panic end
  else Panic.

Lemma index_0 {E A} (x : A) l : @index E A (x :: l) 0 = Ok x.
Proof. reflexivity. Qed.

(** ** Big-endian numbers ([math/big]'s [SetBytes] and [Bytes]) *)

Definition be_val (bs : bytes) : Z := fold_left (fun v b => v * 256 + b) bs 0.

(** Digits of [v] in base 256, most significant first, in front of [acc]. *)
Fixpoint be_digits (fuel : nat) (v : Z) (acc : bytes) : bytes :=
  match fuel with
  | O => acc
  | S f => if v <=? 0 then acc else be_digits f (Z.shiftr v 8) (u8 v :: acc)
  end.

(** [big.Int.Bytes]: the minimal big-endian bytes of the absolute value. *)
Definition big_bytes (v : Z) : bytes :=
  be_digits (Z.to_nat (Z.log2 (Z.abs v) + 1)) (Z.abs v) [].

(** No leading zero byte. *)
Definition minimal (bs : bytes) : Prop :=
  match bs with [] => True | b :: _ => b <> 0 end.

Lemma be_val_acc bs a :
  fold_left (fun v b => v * 256 + b) bs a = a * 256 ^ len bs + be_val bs.
Proof.
  unfold be_val; revert a; induction bs as [ | b bs IH ]; intros a; cbn [fold_left].
  - rewrite (@len_nil Z); lia.
  - rewrite (IH (a * 256 + b)), (IH (0 * 256 + b)), len_cons, Z.pow_add_r
      by (pose proof (len_nonneg bs); lia); lia.
Qed.

Lemma be_val_cons b bs : be_val (b :: bs) = b * 256 ^ len bs + be_val bs.
Proof. unfold be_val at 1; cbn [fold_left]; rewrite be_val_acc; f_equal; lia. Qed.

Lemma be_val_app p q : be_val (p ++ q) = be_val p * 256 ^ len q + be_val q.
Proof. unfold be_val at 1; rewrite fold_left_app; apply be_val_acc. Qed.

Lemma be_val_bound bs : bytes_ok bs -> 0 <= be_val bs < 256 ^ len bs.
Proof.
  unfold bytes_ok; induction 1 as [ | b bs Hb Hbs IH ]; [ rewrite (@len_nil Z); cbn; lia | ].
  unfold byte_ok in Hb.
  rewrite be_val_cons, len_cons, Z.pow_add_r by (pose proof (len_nonneg bs); lia); nia.
Qed.

Lemma shiftr8 v : Z.shiftr v 8 = v / 256.
Proof. rewrite Z.shiftr_div_pow2 by lia; reflexivity. Qed.

Lemma be_digits_val fuel v acc :
  0 <= v < 256 ^ Z.of_nat fuel ->
  be_val (be_digits fuel v acc) = v * 256 ^ len acc + be_val acc.
Proof.
  revert v acc; induction fuel as [ | f IH ]; intros v acc Hv; cbn [be_digits].
  - cbn in Hv; replace v with 0 by lia; lia.
  - destruct (v <=? 0) eqn:E; b2p; [ replace v with 0 by lia; lia | ].
    rewrite Nat2Z.inj_succ, Z.pow_succ_r in Hv by lia.
    rewrite shiftr8, IH.
    + rewrite be_val_cons, len_cons, Z.pow_add_r by (pose proof (len_nonneg acc); lia).
      unfold u8; pose proof (Z.div_mod v 256); nia.
    + split; [ apply Z.div_pos; lia | apply Z.div_lt_upper_bound; lia ].
Qed.

Lemma be_digits_ok fuel v acc : bytes_ok acc -> bytes_ok (be_digits fuel v acc).
Proof.
  revert v acc; induction fuel as [ | f IH ]; intros v acc Hacc; cbn [be_digits]; [ done | ].
  destruct (v <=? 0); [ done | apply IH; constructor; [ apply u8_range | done ] ].
Qed.

Lemma be_digits_minimal fuel v acc :
  0 <= v < 256 ^ Z.of_nat fuel -> (v = 0 -> minimal acc) ->
  minimal (be_digits fuel v acc).
Proof.
  revert v acc; induction fuel as [ | f IH ]; intros v acc Hv Hacc; cbn [be_digits].
  - cbn in Hv; apply Hacc; lia.
  - destruct (v <=? 0) eqn:E; b2p; [ apply Hacc; lia | ].
    rewrite Nat2Z.inj_succ, Z.pow_succ_r in Hv by lia.
    rewrite shiftr8; apply IH.
    + split; [ apply Z.div_pos; lia | apply Z.div_lt_upper_bound; lia ].
    + intros Hz; cbn; unfold u8; pose proof (Z.div_mod v 256); lia.
Qed.

Lemma be_digits_len_le fuel v acc : len (be_digits fuel v acc) <= Z.of_nat fuel + len acc.
Proof.
  revert v acc; induction fuel as [ | f IH ]; intros v acc; cbn [be_digits]; [ lia | ].
  destruct (v <=? 0); [ lia | ].
  specialize (IH (Z.shiftr v 8) (u8 v :: acc)); rewrite len_cons in IH; lia.
Qed.

Lemma big_bytes_fuel v : 0 <= Z.abs v < 256 ^ Z.of_nat (Z.to_nat (Z.log2 (Z.abs v) + 1)).
Proof.
  pose proof (Z.log2_nonneg (Z.abs v)); rewrite Z2Nat.id by lia.
  split; [ lia | ].
  destruct (decide (v = 0)) as [ -> | Hv ]; [ cbn; lia | ].
  eapply Z.lt_le_trans; [ apply Z.log2_spec; lia | ].
  change 256 with (2 ^ 8); rewrite <- Z.pow_mul_r by lia; apply Z.pow_le_mono_r; lia.
Qed.

Lemma be_val_big_bytes v : 0 <= v -> be_val (big_bytes v) = v.
Proof.
  intros; unfold big_bytes; rewrite be_digits_val by apply big_bytes_fuel.
  rewrite (@len_nil Z); cbn; lia.
Qed.

Lemma big_bytes_ok v : bytes_ok (big_bytes v).
Proof. apply be_digits_ok; constructor. Qed.

Lemma big_bytes_minimal v : minimal (big_bytes v).
Proof. apply be_digits_minimal; [ apply big_bytes_fuel | done ]. Qed.

(** A minimal encoding is determined by its value. *)
Lemma be_val_zero_minimal bs : bytes_ok bs -> minimal bs -> be_val bs = 0 -> bs = [].
Proof.
  destruct bs as [ | b bs ]; [ done | ]; intros Hok Hmin Hz; inversion Hok; subst.
  cbn in Hmin; rewrite be_val_cons in Hz.
  pose proof (be_val_bound bs ltac:(assumption)).
  unfold byte_ok in *; nia.
Qed.

Lemma be_val_inj_len p q :
  bytes_ok p -> bytes_ok q -> len p = len q -> be_val p = be_val q -> p = q.
Proof.
  unfold bytes_ok; intros Hp; revert q; induction Hp as [ | b p Hb Hp IH ]; intros q Hq Hl Hv.
  - symmetry; apply len_zero; rewrite <- Hl; reflexivity.
  - destruct q as [ | c q ]; [ rewrite len_cons, (@len_nil Z) in Hl; pose proof (len_nonneg p); lia | ].
    inversion Hq; subst; rewrite !len_cons in Hl; rewrite !be_val_cons in Hv.
    assert (len p = len q) as E by lia; rewrite E in Hv.
    pose proof (be_val_bound p Hp) as B1; pose proof (be_val_bound q ltac:(assumption)) as B2.
    rewrite E in B1; assert (b = c) by nia; subst c.
    f_equal; apply IH; auto; lia.
Qed.

Lemma be_val_lower b bs :
  bytes_ok (b :: bs) -> b <> 0 -> 256 ^ len bs <= be_val (b :: bs).
Proof.
  inversion 1; subst; intros; rewrite be_val_cons.
  pose proof (be_val_bound bs ltac:(assumption)); unfold byte_ok in *; nia.
Qed.

Lemma be_val_len_le p q :
  bytes_ok p -> bytes_ok q -> minimal p -> be_val p <= be_val q -> len p <= len q.
Proof.
  intros Hp Hq Hm Hle; destruct p as [ | b p ]; [ rewrite (@len_nil Z); apply len_nonneg | ].
  pose proof (be_val_lower b p Hp Hm); pose proof (be_val_bound q Hq).
  rewrite len_cons; destruct (Z_lt_le_dec (len p) (len q)); [ lia | ].
  assert (256 ^ len q <= 256 ^ len p) by (apply Z.pow_le_mono_r; lia); lia.
Qed.

Lemma be_val_inj p q :
  bytes_ok p -> bytes_ok q -> minimal p -> minimal q -> be_val p = be_val q -> p = q.
Proof.
  intros Hp Hq Mp Mq E; apply be_val_inj_len; auto.
  apply Z.le_antisymm; apply be_val_len_le; auto; lia.
Qed.

Lemma big_bytes_be_val bs : bytes_ok bs -> minimal bs -> big_bytes (be_val bs) = bs.
Proof.
  intros Hok Hm; apply be_val_inj; auto using big_bytes_ok, big_bytes_minimal.
  apply be_val_big_bytes, be_val_bound; auto.
Qed.

Lemma big_bytes_inj v w : 0 <= v -> 0 <= w -> big_bytes v = big_bytes w -> v = w.
Proof. intros Hv Hw E; rewrite <- (be_val_big_bytes v Hv), E; apply be_val_big_bytes, Hw. Qed.

(** [big.Int.FillBytes] on a buffer of [n] bytes: left-padded; panics when
    the value does not fit. *)
Definition fill_bytes {E} (n : nat) (v : Z) : result E bytes :=
  let b := big_bytes v in
  if len b <=? Z.of_nat n then Ok (replicate (n - length b) 0 ++ b) else Panic.

Lemma be_val_replicate0 n : be_val (replicate n 0) = 0.
Proof. induction n as [ | n IH ]; [ done | ]; cbn [replicate]; rewrite be_val_cons; lia. Qed.

Lemma fill_bytes_length {E} n v b : @fill_bytes E n v = Ok b -> length b = n.
Proof.
  unfold fill_bytes, len; intros H; destruct (_ <=? _) eqn:L; [ | done ]; b2p; simplify_eq.
  rewrite length_app, length_replicate; lia.
Qed.

Lemma fill_bytes_spec {E} n v b :
  0 <= v -> @fill_bytes E n v = Ok b -> length b = n /\ be_val b = v /\ bytes_ok b.
Proof.
  intros Hv H; split; [ apply (fill_bytes_length _ _ _ H) | ].
  unfold fill_bytes, len in *; destruct (_ <=? _) eqn:L; [ | done ]; b2p; simplify_eq; split.
  - rewrite be_val_app, be_val_replicate0, be_val_big_bytes; lia.
  - apply Forall_app; split; [ | apply big_bytes_ok ].
    apply Forall_replicate; unfold byte_ok; lia.
Qed.

Lemma fill_bytes_fits {E} n v :
  0 <= v < 256 ^ Z.of_nat n -> exists b, @fill_bytes E n v = Ok b.
Proof.
  intros Hv; unfold fill_bytes.
  destruct (len (big_bytes v) <=? Z.of_nat n) eqn:L; [ eauto | exfalso; b2p ].
  destruct (big_bytes v) as [ | b bs ] eqn:B; [ rewrite (@len_nil Z) in L; lia | ].
  pose proof (be_val_lower b bs) as H; rewrite <- B in H.
  pose proof (big_bytes_minimal v) as M; rewrite B in M; cbn in M.
  specialize (H (big_bytes_ok v) M); rewrite be_val_big_bytes in H by lia.
  rewrite len_cons in L.
  assert (256 ^ Z.of_nat n <= 256 ^ len bs) by (apply Z.pow_le_mono_r; lia); lia.
Qed.

(** ** Hints shared by the components *)

Create HintDb go.
#[export] Hint Resolve len_nonneg u8_range u64_range i64_range big_bytes_ok
  big_bytes_minimal : go.
Create Rewrite HintDb len.
#[export] Hint Rewrite @len_cons @len_app : len.
