(* ===== verification/GoStrings.v ===== *)
(** * Strings as the Go sources use them

    Go strings are byte strings; [String.string] is one too (a character is
    eight bits).  This file holds what the modelled sources use of
    [encoding/hex], [strings], [fmt] and [regexp] on them: hexadecimal
    encoding and decoding, [TrimPrefix], [EqualFold], [TrimSpace], [Join] and
    decimal rendering, with the round trips and injectivity facts the
    components need.  Case is folded for the letters of ASCII, and every other
    byte stands for itself; Go folds the letters of Unicode too.  What the
    sources compare this way (addresses, keys and hashes in hex, chain ids,
    country codes, currency codes) is ASCII. *)

From Stdlib Require Import ZArith Lia Ascii String.
From stdpp Require Import base list numbers strings gmap pretty.
From S2P Require Import Prelude.

Open Scope Z_scope.

Lemma sapp_nil t : EmptyString +:+ t = t.
Proof. reflexivity. Qed.

Lemma sapp_cons c s t : String c s +:+ t = String c (s +:+ t).
Proof. reflexivity. Qed.

(** ** Characters and bytes *)

Definition chr (c : ascii) : Z := Z.of_N (N_of_ascii c).
Definition asc (z : Z) : ascii := ascii_of_N (Z.to_N z).

Lemma chr_range c : 0 <= chr c < 256.
Proof. unfold chr; pose proof (N_ascii_bounded c); lia. Qed.

Lemma asc_chr c : asc (chr c) = c.
Proof. unfold asc, chr; rewrite N2Z.id; apply ascii_N_embedding. Qed.

Lemma chr_asc z : 0 <= z < 256 -> chr (asc z) = z.
Proof. intros; unfold asc, chr; rewrite N_ascii_embedding; lia. Qed.

Lemma chr_inj c d : chr c = chr d -> c = d.
Proof. intros E; rewrite <- (asc_chr c), E; apply asc_chr. Qed.

(** [[]byte(s)] *)
Fixpoint to_bytes (s : string) : bytes :=
  match s with
  | EmptyString => []
  | String c s => chr c :: to_bytes s
  end.

(** [string(b)] *)
Fixpoint of_bytes (b : bytes) : string :=
  match b with
  | [] => EmptyString
  | z :: b => String (asc z) (of_bytes b)
  end.

Lemma of_to_bytes s : of_bytes (to_bytes s) = s.
Proof. induction s as [ | c s IH ]; cbn; rewrite ?asc_chr, ?IH; done. Qed.

Lemma to_of_bytes b : bytes_ok b -> to_bytes (of_bytes b) = b.
Proof. unfold bytes_ok; induction 1; cbn; rewrite ?chr_asc; [ done | congruence | done ]. Qed.

Lemma to_bytes_ok s : bytes_ok (to_bytes s).
Proof. induction s; constructor; auto; apply chr_range. Qed.

Lemma to_bytes_inj s t : to_bytes s = to_bytes t -> s = t.
Proof. intros E; rewrite <- (of_to_bytes s), E; apply of_to_bytes. Qed.

Lemma to_bytes_app s t : to_bytes (s +:+ t) = to_bytes s ++ to_bytes t.
Proof.
  induction s as [ | c s IH ]; [ done | ].
  rewrite sapp_cons; cbn [to_bytes app]; congruence.
Qed.

Definition slen (s : string) : Z := Z.of_nat (String.length s).

Lemma slen_to_bytes s : slen s = len (to_bytes s).
Proof.
  unfold slen; induction s as [ | c s IH ]; [ done | ].
  cbn [to_bytes String.length]; rewrite len_cons; lia.
Qed.

(** ** [encoding/hex] *)

Definition hex_digit (n : Z) : ascii :=
  if n <? 10 then asc (48 + n) else asc (87 + n).

Definition hex_value (c : ascii) : option Z :=
  let z := chr c in
  if (48 <=? z) && (z <=? 57) then Some (z - 48)
  else if (97 <=? z) && (z <=? 102) then Some (z - 87)
  else if (65 <=? z) && (z <=? 70) then Some (z - 55)
  else None.

(** [hex.EncodeToString] *)
Fixpoint hex_encode (b : bytes) : string :=
  match b with
  | [] => EmptyString
  | z :: b => String (hex_digit (z / 16)) (String (hex_digit (z mod 16)) (hex_encode b))
  end.

(** [hex.DecodeString]: pairs of digits of either case; an odd length or any
    other character is an error. *)
Fixpoint hex_decode (s : string) : option bytes :=
  match s with
  | EmptyString => Some []
  | String _ EmptyString => None
  | String a (String b s) =>
      match hex_value a, hex_value b with
      | Some x, Some y =>
          match hex_decode s with
          | Some r => Some (x * 16 + y :: r)
          | None => None
          end
      | _, _ => None
      end
  end.

Lemma chr_hex_digit n :
  0 <= n < 16 -> chr (hex_digit n) = if n <? 10 then 48 + n else 87 + n.
Proof. intros; unfold hex_digit; destruct (n <? 10) eqn:E; b2p; rewrite chr_asc; lia. Qed.

Lemma hex_value_digit n : 0 <= n < 16 -> hex_value (hex_digit n) = Some n.
Proof.
  intros H; unfold hex_value; rewrite chr_hex_digit by done.
  destruct (n <? 10) eqn:E; b2p.
  - replace (48 <=? 48 + n) with true by lia; replace (48 + n <=? 57) with true by lia.
    cbn [andb]; f_equal; lia.
  - replace (87 + n <=? 57) with false by lia; rewrite andb_false_r.
    replace (97 <=? 87 + n) with true by lia; replace (87 + n <=? 102) with true by lia.
    cbn [andb]; f_equal; lia.
Qed.

Lemma hex_value_range c n : hex_value c = Some n -> 0 <= n < 16.
Proof. unfold hex_value; intros; repeat split_match; simplify_eq; b2p; lia. Qed.

Lemma hex_decode_encode b : bytes_ok b -> hex_decode (hex_encode b) = Some b.
Proof.
  unfold bytes_ok; induction 1 as [ | z b Hz _ IH ]; [ done | ].
  unfold byte_ok in Hz; cbn [hex_encode hex_decode].
  assert (0 <= z / 16 < 16) by (split; [ apply Z.div_pos | apply Z.div_lt_upper_bound ]; lia).
  assert (0 <= z mod 16 < 16) by (apply Z.mod_pos_bound; lia).
  rewrite !hex_value_digit, IH by done; do 2 f_equal.
  rewrite (Z.div_mod z 16) at 3 by lia; lia.
Qed.

Lemma hex_encode_inj b c :
  bytes_ok b -> bytes_ok c -> hex_encode b = hex_encode c -> b = c.
Proof.
  intros Hb Hc E; apply (f_equal hex_decode) in E.
  rewrite !hex_decode_encode in E by done; congruence.
Qed.

Lemma hex_encode_length b : String.length (hex_encode b) = (2 * length b)%nat.
Proof. induction b as [ | z b IH ]; cbn [hex_encode String.length length]; lia. Qed.

(** Induction on a string two characters at a time, as [hex_decode] reads it. *)
Lemma string_pair_ind (P : string -> Prop) :
  P EmptyString -> (forall a, P (String a EmptyString)) ->
  (forall a b s, P s -> P (String a (String b s))) -> forall s, P s.
Proof.
  intros H0 H1 H2.
  assert (forall n s, (String.length s <= n)%nat -> P s) as H; [ | intros s; eapply H; done ].
  induction n as [ | n IH ]; intros [ | a [ | b s ] ] L; auto; cbn in L; try lia.
  apply H2, IH; lia.
Qed.

Lemma hex_decode_spec s b :
  hex_decode s = Some b -> bytes_ok b /\ String.length s = (2 * length b)%nat.
Proof.
  revert b; induction s as [ | a | a c s IH ] using string_pair_ind; intros r H;
    cbn [hex_decode] in H; [ simplify_eq; split; [ constructor | done ] | done | ].
  destruct (hex_value a) eqn:Ha, (hex_value c) eqn:Hc, (hex_decode s) eqn:Hs; simplify_eq.
  destruct (IH _ eq_refl) as [ Hok Hl ].
  apply hex_value_range in Ha; apply hex_value_range in Hc.
  split; [ constructor; [ unfold byte_ok; lia | done ] | cbn [String.length length]; lia ].
Qed.

(** ** ASCII case folding

    [strings.EqualFold] and [strings.ToLower] fold Unicode; on the strings
    compared here (hexadecimal digests, transaction hashes, addresses) only
    the letters A-Z have another case, and that part is modelled. *)

Definition lower_ascii (c : ascii) : ascii :=
  let z := chr c in if (65 <=? z) && (z <=? 90) then asc (z + 32) else c.

Fixpoint to_lower (s : string) : string :=
  match s with
  | EmptyString => EmptyString
  | String c s => String (lower_ascii c) (to_lower s)
  end.

Definition equal_fold (s t : string) : bool := String.eqb (to_lower s) (to_lower t).

Lemma lower_ascii_idem c : lower_ascii (lower_ascii c) = lower_ascii c.
Proof.
  unfold lower_ascii; destruct ((65 <=? chr c) && (chr c <=? 90)) eqn:E; [ | rewrite E; done ].
  b2p; rewrite chr_asc by lia.
  replace (chr c + 32 <=? 90) with false by lia; rewrite andb_false_r; done.
Qed.

Lemma to_lower_idem s : to_lower (to_lower s) = to_lower s.
Proof. induction s; cbn; rewrite ?lower_ascii_idem; congruence. Qed.

Lemma hex_value_lower c : hex_value (lower_ascii c) = hex_value c.
Proof.
  unfold lower_ascii; destruct ((65 <=? chr c) && (chr c <=? 90)) eqn:E; [ | done ]; b2p.
  unfold hex_value; rewrite chr_asc by lia.
  replace (chr c + 32 <=? 57) with false by lia; rewrite andb_false_r.
  replace (97 <=? chr c + 32) with true by lia.
  replace (chr c + 32 <=? 70) with false by lia; rewrite !andb_false_r.
  replace (chr c <=? 57) with false by lia; rewrite andb_false_r.
  replace (97 <=? chr c) with false by lia; replace (65 <=? chr c) with true by lia.
  cbn [andb]; replace (chr c + 32 <=? 102) with (chr c <=? 70) by lia.
  destruct (chr c <=? 70); [ f_equal; lia | done ].
Qed.

Lemma hex_decode_lower s : hex_decode (to_lower s) = hex_decode s.
Proof.
  induction s as [ | a | a b s IH ] using string_pair_ind; [ done | done | ].
  cbn [to_lower hex_decode]; rewrite !hex_value_lower, IH; done.
Qed.

Lemma equal_fold_refl s : equal_fold s s = true.
Proof. apply String.eqb_refl. Qed.

(** Strings that differ only in case decode to the same bytes. *)
Lemma equal_fold_hex s t : equal_fold s t = true -> hex_decode s = hex_decode t.
Proof.
  unfold equal_fold; intros H%String.eqb_eq.
  rewrite <- (hex_decode_lower s), H; apply hex_decode_lower.
Qed.

(** ** [strings.TrimPrefix], [HasPrefix], [TrimSpace] *)

Fixpoint strip_prefix (p s : string) : option string :=
  match p, s with
  | EmptyString, _ => Some s
  | String a p, String b s => if Ascii.eqb a b then strip_prefix p s else None
  | String _ _, EmptyString => None
  end.

Definition trim_prefix (p s : string) : string :=
  match strip_prefix p s with Some r => r | None => s end.

Definition has_prefix (p s : string) : bool :=
  match strip_prefix p s with Some _ => true | None => false end.

Lemma strip_prefix_app p s : strip_prefix p (p +:+ s) = Some s.
Proof.
  induction p as [ | c p IH ]; [ done | ].
  rewrite sapp_cons; cbn; rewrite Ascii.eqb_refl; done.
Qed.

Lemma strip_prefix_spec p s r : strip_prefix p s = Some r -> s = p +:+ r.
Proof.
  revert s; induction p as [ | c p IH ]; intros s H; cbn in H; [ simplify_eq; done | ].
  destruct s as [ | d s ]; [ done | ]; destruct (Ascii.eqb_spec c d); [ | done ].
  subst; rewrite sapp_cons; f_equal; apply IH, H.
Qed.

(** The ASCII white space [strings.TrimSpace] removes. *)
Definition is_space (c : ascii) : bool :=
  let z := chr c in (z =? 32) || ((9 <=? z) && (z <=? 13)).

Fixpoint trim_left (s : string) : string :=
  match s with
  | EmptyString => EmptyString
  | String c t => if is_space c then trim_left t else s
  end.

Definition trim_space (s : string) : string :=
  of_bytes (rev (to_bytes (trim_left (of_bytes (rev (to_bytes (trim_left s))))))).

(** ** Decimal rendering ([fmt.Sprintf("%d", n)]) *)

Definition show_int (n : Z) : string := pretty n.

Lemma show_int_inj m n : show_int m = show_int n -> m = n.
Proof. apply (inj pretty). Qed.

(** ** Newline-separated records ([strings.Join(fields, "\n")]) *)

Definition newline : ascii := "010"%char.

Fixpoint count_newlines (s : string) : nat :=
  match s with
  | EmptyString => 0
  | String c s => (if Ascii.eqb c newline then 1 else 0) + count_newlines s
  end.

Fixpoint join_lines (l : list string) : string :=
  match l with
  | [] => EmptyString
  | [ s ] => s
  | s :: l => s +:+ String newline (join_lines l)
  end.

Lemma join_lines_cons s t l :
  join_lines (s :: t :: l) = s +:+ String newline (join_lines (t :: l)).
Proof. reflexivity. Qed.

Lemma count_newlines_cons c s :
  count_newlines (String c s) = ((if Ascii.eqb c newline then 1 else 0) + count_newlines s)%nat.
Proof. reflexivity. Qed.

Lemma count_newlines_app s t :
  count_newlines (s +:+ t) = (count_newlines s + count_newlines t)%nat.
Proof.
  induction s as [ | c s IH ]; [ done | ].
  rewrite sapp_cons; cbn [count_newlines]; rewrite IH; lia.
Qed.

Lemma count_newlines_join l :
  count_newlines (join_lines l) = (sum_list (count_newlines <$> l) + (length l - 1))%nat.
Proof.
  induction l as [ | s [ | t l ] IH ]; [ done | cbn; lia | ].
  rewrite join_lines_cons, count_newlines_app, count_newlines_cons, Ascii.eqb_refl, IH.
  cbn; lia.
Qed.

(** A newline-free prefix is determined by the first newline. *)
Lemma app_newline_inj s t u v :
  count_newlines s = 0%nat -> count_newlines t = 0%nat ->
  s +:+ String newline u = t +:+ String newline v -> s = t /\ u = v.
Proof.
  revert t; induction s as [ | c s IH ]; intros [ | d t ] Hs Ht E;
    rewrite ?sapp_nil, ?sapp_cons in E; cbn in Hs, Ht.
  - simplify_eq; done.
  - simplify_eq; rewrite Ascii.eqb_refl in Ht; lia.
  - simplify_eq; rewrite Ascii.eqb_refl in Hs; lia.
  - destruct (Ascii.eqb c newline), (Ascii.eqb d newline); try lia; simplify_eq.
    destruct (IH t) as [ -> -> ]; auto.
Qed.

Lemma join_lines_inj_free l k :
  length l = length k -> Forall (fun s => count_newlines s = 0%nat) l ->
  Forall (fun s => count_newlines s = 0%nat) k -> join_lines l = join_lines k -> l = k.
Proof.
  intros L Hl; revert k L; induction Hl as [ | s l Hs Hl IH ]; intros k L Hk E.
  - destruct k; done.
  - destruct k as [ | t k ]; [ done | ]; inversion Hk; subst.
    destruct l as [ | s' l ], k as [ | t' k ]; try done; [ cbn in E; subst; done | ].
    rewrite !join_lines_cons in E; apply app_newline_inj in E as [ -> E ]; auto.
    f_equal; apply IH; auto.
Qed.

(** It is enough that one side has no newline in a field: a record with as
    many fields and the same text then has none either. *)
Lemma join_lines_inj l k :
  length l = length k -> Forall (fun s => count_newlines s = 0%nat) l ->
  join_lines l = join_lines k -> l = k.
Proof.
  intros L Hl E; apply join_lines_inj_free; auto.
  pose proof (f_equal count_newlines E) as C; rewrite !count_newlines_join, L in C.
  assert (sum_list (count_newlines <$> l) = 0%nat) as Z
    by (clear -Hl; induction Hl as [ | s l Hs _ IH ]; cbn; [ done | rewrite Hs; apply IH ]).
  assert (sum_list (count_newlines <$> k) = 0%nat) as Zk by lia; clear -Zk.
  induction k as [ | s k IH ]; constructor; cbn in Zk; [ lia | apply IH; lia ].
Qed.

#[export] Hint Resolve chr_range to_bytes_ok : go.
