(* ===== verification/GoText.v ===== *)
(** * Text encodings the services read and write

    Base64 as [encoding/base64.StdEncoding] has it (padded, line breaks
    skipped on input), and the decimal integers [fmt.Sscanf("%d")] and
    [strconv] read.  The facts: decoding undoes encoding, and a rendered
    integer reads back as itself. *)

From Stdlib Require Import ZArith Lia Ascii String.
From stdpp Require Import base list numbers strings pretty.
From S2P Require Import Prelude GoStrings.

Open Scope Z_scope.

Module Base64.

#[local] Ltac Zify.zify_post_hook ::= Z.div_mod_to_equations.

Definition digit (n : Z) : ascii :=
  asc (if n <? 26 then 65 + n
       else if n <? 52 then 97 + (n - 26)
       else if n <? 62 then 48 + (n - 52)
       else if n =? 62 then 43 else 47).

Definition value (c : ascii) : option Z :=
  let n := chr c in
  if (65 <=? n) && (n <=? 90) then Some (n - 65)
  else if (97 <=? n) && (n <=? 122) then Some (n - 97 + 26)
  else if (48 <=? n) && (n <=? 57) then Some (n - 48 + 52)
  else if n =? 43 then Some 62
  else if n =? 47 then Some 63
  else None.

Definition pad : ascii := "="%char.

(** [EncodeToString] *)
Fixpoint encode (b : bytes) : string :=
  match b with
  | [] => EmptyString
  | [ x ] => String (digit (x / 4)) (String (digit (x mod 4 * 16)) (String pad (String pad EmptyString)))
  | [ x; y ] =>
      String (digit (x / 4)) (String (digit (x mod 4 * 16 + y / 16))
        (String (digit (y mod 16 * 4)) (String pad EmptyString)))
  | x :: y :: z :: b =>
      String (digit (x / 4)) (String (digit (x mod 4 * 16 + y / 16))
        (String (digit (y mod 16 * 4 + z / 64)) (String (digit (z mod 64)) (encode b))))
  end.

Definition is_break (c : ascii) : bool := (chr c =? 10) || (chr c =? 13).

Fixpoint skip_breaks (s : string) : string :=
  match s with
  | EmptyString => EmptyString
  | String c s => if is_break c then skip_breaks s else String c (skip_breaks s)
  end.

(** Quanta of four characters; padding only in the last one. *)
Fixpoint decode_quanta (s : string) : option bytes :=
  match s with
  | EmptyString => Some []
  | String a (String b (String c (String d s))) =>
      match value a, value b with
      | Some a, Some b =>
          let x := a * 4 + b / 16 in
          if Ascii.eqb c pad then
            if Ascii.eqb d pad && match s with EmptyString => true | _ => false end
            then Some [ x ] else None
          else
            match value c with
            | None => None
            | Some c =>
                let y := b mod 16 * 16 + c / 4 in
                if Ascii.eqb d pad then
                  match s with EmptyString => Some [ x; y ] | _ => None end
                else
                  match value d with
                  | None => None
                  | Some d => option_map (fun r => x :: y :: c mod 4 * 64 + d :: r) (decode_quanta s)
                  end
            end
      | _, _ => None
      end
  | _ => None
  end.

(** [DecodeString] *)
Definition decode (s : string) : option bytes := decode_quanta (skip_breaks s).

Lemma digit_facts n :
  0 <= n < 64 ->
  value (digit n) = Some n /\ Ascii.eqb (digit n) pad = false /\ is_break (digit n) = false.
Proof.
  intros H; assert (forallb (fun n => bool_decide (value (digit n) = Some n) &&
    negb (Ascii.eqb (digit n) pad) && negb (is_break (digit n))) (seqZ 0 64) = true) as F
    by (vm_compute; reflexivity).
  rewrite forallb_forall in F; specialize (F n ltac:(apply list_elem_of_In, elem_of_seqZ; lia)).
  rewrite !andb_true_iff, !negb_true_iff, bool_decide_eq_true in F; tauto.
Qed.

Lemma value_digit n : 0 <= n < 64 -> value (digit n) = Some n.
Proof. apply digit_facts. Qed.

Lemma digit_not_pad n : 0 <= n < 64 -> Ascii.eqb (digit n) pad = false.
Proof. apply digit_facts. Qed.

Lemma digit_not_break n : 0 <= n < 64 -> is_break (digit n) = false.
Proof. apply digit_facts. Qed.

(** Induction three bytes at a time. *)
Lemma triple_ind (P : bytes -> Prop) :
  P [] -> (forall x, P [ x ]) -> (forall x y, P [ x; y ]) ->
  (forall x y z b, P b -> P (x :: y :: z :: b)) -> forall b, P b.
Proof.
  intros H0 H1 H2 H3; fix IH 1.
  intros [ | x [ | y [ | z b ] ] ]; [ exact H0 | apply H1 | apply H2 | apply H3, IH ].
Qed.

Lemma decode_quantum a b c d s :
  0 <= a < 64 -> 0 <= b < 64 -> 0 <= c < 64 -> 0 <= d < 64 ->
  decode_quanta (String (digit a) (String (digit b) (String (digit c) (String (digit d) s))))
  = option_map (fun r => a * 4 + b / 16 :: b mod 16 * 16 + c / 4 :: c mod 4 * 64 + d :: r) (decode_quanta s).
Proof.
  intros; cbn [decode_quanta]; rewrite !value_digit, !digit_not_pad by lia; done.
Qed.

Lemma decode_encode b : bytes_ok b -> decode (encode b) = Some b.
Proof.
  unfold decode, bytes_ok, byte_ok; induction b as [ | x | x y | x y z b IH ] using triple_ind; intros H;
    rewrite ?Forall_cons in H.
  - reflexivity.
  - cbn [encode skip_breaks]; rewrite !digit_not_break by lia; cbn [decode_quanta is_break].
    change (is_break pad) with false; cbn; rewrite !value_digit by lia.
    do 2 f_equal; lia.
  - cbn [encode skip_breaks]; rewrite !digit_not_break by lia; change (is_break pad) with false.
    cbn [decode_quanta]; rewrite !value_digit, digit_not_pad by lia; cbn; do 2 f_equal; [ lia | f_equal; lia ].
  - destruct H as (Hx & Hy & Hz & Hb); cbn [encode skip_breaks]; rewrite !digit_not_break by lia.
    rewrite decode_quantum by lia; rewrite IH by done; cbn; do 4 (f_equal; try lia).
Qed.

End Base64.

(** ** Decimal integers *)

Definition digit_value (c : ascii) : option Z :=
  let n := chr c in if (48 <=? n) && (n <=? 57) then Some (n - 48) else None.

(** The longest run of digits at the front, as a number, and how many. *)
Fixpoint scan_digits (acc : Z) (count : nat) (s : string) : Z * nat * string :=
  match s with
  | EmptyString => (acc, count, EmptyString)
  | String c r =>
      match digit_value c with
      | Some d => scan_digits (acc * 10 + d) (S count) r
      | None => (acc, count, s)
      end
  end.

(** A signed decimal at the front of [s] with what follows it: [None] when
    there is no digit. *)
Definition scan_int (s : string) : option (Z * string) :=
  let '(neg, r) :=
    match s with
    | String c t => if Ascii.eqb c "-" then (true, t) else if Ascii.eqb c "+" then (false, t) else (false, s)
    | EmptyString => (false, s)
    end in
  let '(v, count, rest) := scan_digits 0 0 r in
  match count with
  | O => None
  | _ => Some (if neg : bool then - v else v, rest)
  end.

(** What [Sscanf] skips: white space, but a line break is an error. *)
Fixpoint skip_blanks (s : string) : option string :=
  match s with
  | EmptyString => Some EmptyString
  | String c t => if Ascii.eqb c newline then None else if is_space c then skip_blanks t else Some s
  end.

(** [fmt.Sscanf(s, "%d", &i)] into an [int]: what follows the digits is
    ignored, out of 64 bits is an error. *)
Definition sscanf_int (s : string) : option Z :=
  match skip_blanks s with
  | None => None
  | Some s =>
      match scan_int s with
      | Some (v, _) => if (- two63 <=? v) && (v <? two63) then Some v else None
      | None => None
      end
  end.

(** [strconv.Atoi] / [strconv.ParseInt(s, 10, 64)]: the whole string. *)
Definition parse_int (s : string) : option Z :=
  match scan_int s with
  | Some (v, EmptyString) => if (- two63 <=? v) && (v <? two63) then Some v else None
  | _ => None
  end.

(** [strconv.ParseUint(s, 10, 64)] *)
Definition parse_uint (s : string) : option Z :=
  match scan_digits 0 0 s with
  | (v, S _, EmptyString) => if v <? two64 then Some v else None
  | _ => None
  end.

(** A rendered integer contains no line break. *)
Lemma pretty_N_char_not_newline n : Ascii.eqb (pretty_N_char n) newline = false.
Proof. unfold pretty_N_char; destruct n as [ | [ [ [ [] | [] | ] | [ [] | [] | ] | ] | [ [ [] | [] | ] | [ [] | [] | ] | ] | ] ]; reflexivity. Qed.

Lemma count_newlines_pretty_N_go x s :
  count_newlines (pretty_N_go x s) = count_newlines s.
Proof.
  revert s; induction (N.lt_wf_0 x) as [ x _ IH ]; intros s.
  destruct (decide (x = 0)%N) as [ -> | Hx ]; [ rewrite pretty_N_go_0; done | ].
  rewrite pretty_N_go_step by lia; rewrite IH by (apply N.div_lt; lia).
  rewrite count_newlines_cons, pretty_N_char_not_newline; done.
Qed.

Lemma count_newlines_show_int n : count_newlines (show_int n) = 0%nat.
Proof.
  assert (forall m : N, count_newlines (pretty m) = 0%nat) as G.
  { intros m; unfold pretty, pretty_N; case_decide; [ done | apply count_newlines_pretty_N_go ]. }
  unfold show_int, pretty, pretty_Z; destruct n; [ reflexivity | apply G | ].
  rewrite count_newlines_app; apply (G (N.pos p)).
Qed.

(** [big.Int.SetString(s, 16)]: an optional sign and at least one hex digit. *)
Fixpoint parse_hex_digits (acc : Z) (s : string) : option Z :=
  match s with
  | EmptyString => Some acc
  | String c s =>
      match hex_value c with Some d => parse_hex_digits (acc * 16 + d) s | None => None end
  end.

Definition big_of_hex (s : string) : option Z :=
  match s with
  | EmptyString => None
  | String c r =>
      if Ascii.eqb c "-" then
        match r with EmptyString => None | _ => option_map Z.opp (parse_hex_digits 0 r) end
      else if Ascii.eqb c "+" then
        match r with EmptyString => None | _ => parse_hex_digits 0 r end
      else parse_hex_digits 0 s
  end.

(** [big.Int.Uint64]: the low 64 bits of the magnitude. *)
Definition big_uint64 (v : Z) : Z := Z.abs v mod two64.

(** [big.Int.SetString(s, 10)] *)
Definition big_of_dec (s : string) : option Z :=
  match scan_int s with
  | Some (v, EmptyString) => Some v
  | _ => None
  end.

Lemma digit_value_pretty x : (x < 10)%N -> digit_value (pretty_N_char x) = Some (Z.of_N x).
Proof.
  intros H; assert (forallb (fun n => bool_decide (digit_value (pretty_N_char (N.of_nat n)) = Some (Z.of_nat n)))
    (seq 0 10) = true) as F by (vm_compute; reflexivity).
  rewrite forallb_forall in F; specialize (F (N.to_nat x)); rewrite bool_decide_eq_true in F.
  rewrite N2Nat.id, N_nat_Z in F; apply F, in_seq; lia.
Qed.

(** Reading the digits [pretty_N_go] wrote. *)
Lemma scan_pretty_N_go x : forall acc k s, exists d, (0 < x -> 0 < d)%N /\
  scan_digits acc k (pretty_N_go x s) =
  scan_digits (acc * 10 ^ Z.of_N d + Z.of_N x) (k + N.to_nat d) s.
Proof.
  induction (N.lt_wf_0 x) as [ x _ IH ]; intros acc k s.
  destruct (decide (x = 0)%N) as [ -> | Hx ].
  { exists 0%N; split; [ lia | ]; rewrite pretty_N_go_0; cbn; f_equal; lia. }
  rewrite pretty_N_go_step by lia.
  destruct (IH (x / 10)%N ltac:(apply N.div_lt; lia) acc k (String (pretty_N_char (x mod 10)) s)) as (d & _ & ->).
  exists (N.succ d); split; [ lia | ]; cbn [scan_digits].
  rewrite digit_value_pretty by (apply N.mod_lt; lia); f_equal; [ | lia ].
  rewrite N2Z.inj_succ, Z.pow_succ_r by lia; pose proof (N.div_mod x 10 ltac:(lia)); lia.
Qed.

(** A rendered non-negative integer reads back. *)
Lemma big_of_dec_show n : 0 <= n -> big_of_dec (show_int n) = Some n.
Proof.
  intros H; destruct (decide (n = 0)) as [ -> | Hn ]; [ reflexivity | ].
  assert (show_int n = pretty_N_go (Z.to_N n) "") as E.
  { unfold show_int, pretty, pretty_Z; destruct n as [ | p | p ]; [ done | | lia ].
    reflexivity. }
  destruct (scan_pretty_N_go (Z.to_N n) 0 0 "") as (d & Hd & Hs); cbn [scan_digits Nat.add] in Hs.
  assert (exists c r, pretty_N_go (Z.to_N n) "" = String c r /\ digit_value c <> None) as (c & r & Ec & Dc).
  { destruct (pretty_N_go (Z.to_N n) "") as [ | c r ] eqn:Eg; cbn [scan_digits] in Hs; [ injection Hs as Hv _; lia | ].
    exists c, r; split; [ done | ]; intros D; rewrite D in Hs; injection Hs as Hv _ _; lia. }
  unfold big_of_dec, scan_int; rewrite E, Ec.
  assert (Ascii.eqb c "-" = false /\ Ascii.eqb c "+" = false) as [ -> -> ].
  { split; apply Ascii.eqb_neq; intros ->; apply Dc; reflexivity. }
  rewrite <- Ec, Hs; destruct (N.to_nat d) eqn:Nd; [ lia | ]; f_equal; lia.
Qed.

(** ** Runs of digits *)

Lemma sapp_nil_r s : s +:+ EmptyString = s.
Proof. induction s as [ | c s IH ]; [ done | rewrite sapp_cons, IH; done ]. Qed.

Fixpoint all_digits (s : string) : bool :=
  match s with
  | EmptyString => true
  | String c r => match digit_value c with Some _ => all_digits r | None => false end
  end.

Fixpoint span_digits (s : string) : string * string :=
  match s with
  | EmptyString => (EmptyString, EmptyString)
  | String c r =>
      match digit_value c with
      | Some _ => let '(d, rest) := span_digits r in (String c d, rest)
      | None => (EmptyString, s)
      end
  end.

Lemma span_digits_app d r :
  all_digits d = true -> (forall c t, r = String c t -> digit_value c = None) -> span_digits (d +:+ r) = (d, r).
Proof.
  intros D R; induction d as [ | c d IH ]; [ rewrite sapp_nil | rewrite sapp_cons ]; cbn in *.
  - destruct r as [ | c t ]; [ done | cbn; rewrite (R c t eq_refl); done ].
  - destruct (digit_value c); [ rewrite IH by done; done | done ].
Qed.

Lemma span_digits_spec s d r : span_digits s = (d, r) ->
  s = d +:+ r /\ all_digits d = true /\ (forall c t, r = String c t -> digit_value c = None).
Proof.
  revert d r; induction s as [ | c s IH ]; intros d r; cbn.
  - intros [= <- <-]; split_and!; done.
  - destruct (digit_value c) eqn:D.
    + destruct (span_digits s) as [ d' r' ] eqn:Es; intros [= <- <-].
      destruct (IH _ _ eq_refl) as (-> & A & R); rewrite sapp_cons; cbn; rewrite D; done.
    + intros [= <- <-]; split_and!; [ done .. | intros c' t [= <- <-]; done ].
Qed.

Lemma scan_digits_nonneg s : forall acc count v n rest,
  scan_digits acc count s = (v, n, rest) -> 0 <= acc -> 0 <= v.
Proof.
  induction s as [ | c s IH ]; intros acc count v n rest H Ha; cbn in H; [ congruence | ].
  unfold digit_value in H; destruct (_ && _) eqn:D; [ | congruence ]; b2p.
  eapply IH; [ exact H | lia ].
Qed.

Lemma parse_uint_range s n : parse_uint s = Some n -> 0 <= n < two64.
Proof.
  unfold parse_uint; destruct (scan_digits 0 0 s) as [ [ v [ | k ] ] [ | ] ] eqn:E; try done.
  destruct (Z.ltb_spec v two64); [ | done ]; intros [= <-]; split; [ eapply scan_digits_nonneg; [ exact E | lia ] | done ].
Qed.

Lemma scan_all_digits s : forall a k v n, scan_digits a k s = (v, n, EmptyString) -> all_digits s = true.
Proof.
  induction s as [ | c s IH ]; intros a k v n; cbn; [ done | ].
  destruct (digit_value c); [ apply IH | done ].
Qed.

Lemma show_int_digits n : 0 <= n -> all_digits (show_int n) = true.
Proof.
  intros H; destruct (decide (n = 0)) as [ -> | Hn ]; [ reflexivity | ].
  assert (show_int n = pretty_N_go (Z.to_N n) "") as ->.
  { unfold show_int, pretty, pretty_Z; destruct n as [ | p | p ]; [ done | reflexivity | lia ]. }
  destruct (scan_pretty_N_go (Z.to_N n) 0 0 "") as (d & _ & Hs); cbn [scan_digits Nat.add] in Hs.
  eapply scan_all_digits, Hs.
Qed.

Lemma parse_int_show n : 0 <= n < two63 -> parse_int (show_int n) = Some n.
Proof.
  intros H; pose proof (big_of_dec_show n ltac:(lia)) as B; unfold big_of_dec in B; unfold parse_int.
  destruct (scan_int (show_int n)) as [ [ v [ | ? ? ] ] | ]; try done; injection B as ->.
  replace ((- two63 <=? n) && (n <? two63)) with true by (unfold two63 in *; lia); done.
Qed.

(** Digits alone read back as no negative number. *)
Lemma parse_int_digits s v : all_digits s = true -> parse_int s = Some v -> 0 <= v < two63.
Proof.
  intros D; unfold parse_int; destruct (scan_int s) as [ [ w [ | ? ? ] ] | ] eqn:S; try done.
  destruct ((- two63 <=? w) && (w <? two63)) eqn:B; [ | done ]; intros [= <-].
  split; [ | b2p; lia ]; unfold scan_int in S.
  assert (forall a k t, 0 <= a -> 0 <= (scan_digits a k t).1.1) as N.
  { intros a k t; revert a k; induction t as [ | c t IH ]; intros a k Ha; cbn; [ done | ].
    unfold digit_value; destruct ((48 <=? chr c) && (chr c <=? 57)) eqn:E; [ apply IH; clear B; b2p; lia | done ]. }
  destruct s as [ | c t ]; [ done | ]; cbn in D; destruct (digit_value c) as [ d | ] eqn:Dc; [ | done ].
  assert (Ascii.eqb c "-" = false /\ Ascii.eqb c "+" = false) as [ E1 E2 ].
  { split; apply Ascii.eqb_neq; intros ->; discriminate Dc. }
  rewrite E1, E2 in S; specialize (N 0 0%nat (String c t) ltac:(lia)).
  destruct (scan_digits 0 0 (String c t)) as [ [ x [ | k ] ] rest ]; [ done | injection S as <- _; exact N ].
Qed.
