(* ===== verification/Rlp.v ===== *)
(** * RLP, the byte format of Ethereum transactions

    Models [services/mpc-signer/internal/ethtypes/rlp.go] (the encoder) and
    the reader half of [decode.go] ([splitList], [readAny], [readItem],
    [readLong], [beUint]).  The settlement and temporal-worker services carry
    copies of both files that differ only in an import path.

    The theorems are the two directions of the format: what the encoder emits
    the reader reads back, and what the reader accepts is what the encoder
    emits, apart from one non-canonical form of a single small byte.  Reading
    is total: the item loop terminates within its fuel, and the only panic is
    the one [readLong]'s 64-bit sum can reach. *)

From Stdlib Require Import ZArith Lia.
From stdpp Require Import base list numbers.
From S2P Require Import Prelude.

Open Scope Z_scope.

Module Rlp.

(** ** Encoding (rlp.go) *)

(** [bigEndian]: a uint64 with no leading zero bytes; at most eight rounds. *)
Definition bigEndian (v : Z) : bytes := be_digits 8 v [].

Definition rlpLengthPrefix (length offset : Z) : bytes :=
  if length <=? 55 then [ u8 (offset + u8 length) ]
  else
    let lenBytes := bigEndian (u64 length) in
    u8 (u8 (offset + 55) + u8 (len lenBytes)) :: lenBytes.

Definition rlpString (b : bytes) : bytes :=
  match b with
  | [ x ] => if x <? 128 then [ x ] else rlpLengthPrefix (len b) 128 ++ b
  | _ => rlpLengthPrefix (len b) 128 ++ b
  end.

Definition rlpList (payload : bytes) : bytes :=
  rlpLengthPrefix (len payload) 192 ++ payload.

Definition rlpUint (v : Z) : bytes := rlpString (bigEndian v).

(** [rlpBig]: [nil] encodes as the empty string; a negative integer panics. *)
Definition rlpBig {E} (v : option Z) : result E bytes :=
  match v with
  | None => Ok (rlpString [])
  | Some v => if v <? 0 then Panic else Ok (rlpString (big_bytes v))
  end.

#[global] Arguments rlpBig {E} v : simpl never.

(** [concat]: the items of a list payload, joined. *)
Definition concat (items : list bytes) : bytes :=
  fold_left (fun out item => out ++ item) items [].

(** ** Reading (decode.go) *)

Inductive RlpErr : Type :=
| UnexpectedEnd
| ExpectedListFoundByte
| ExpectedListFoundString
| ExpectedStringFoundList
| StringRunsPast
| ListRunsPast
| ImplausibleLenOfLen (n : Z)
| LengthFieldRunsPast
| LeadingZeroLength
| ShouldUseShortForm (n : Z)
| ItemRunsPast
| TrailingBytes (n : Z)
| OutOfFuel. (* of the model's loop; [splitList_total] shows it is never returned *)

Definition beUint (b : bytes) : Z :=
  fold_left (fun v c => Z.lor (u64 (Z.shiftl v 8)) c) b 0.

Definition readLong (b : bytes) (lenOfLen : Z) : result RlpErr (bytes * bytes) :=
  refuse! (lenOfLen =? 0) || (8 <? lenOfLen) with ImplausibleLenOfLen lenOfLen;
  refuse! len b <? 1 + lenOfLen with LengthFieldRunsPast;
  let! lengthBytes := slice b 1 (1 + lenOfLen) in
  let! first := index lengthBytes 0 in
  refuse! first =? 0 with LeadingZeroLength;
  let n := beUint lengthBytes in
  refuse! n <=? 55 with ShouldUseShortForm n;
  let start := u64 (1 + lenOfLen) in
  refuse! len b <? u64 (start + n) with ItemRunsPast;
  let! payload := slice b start (u64 (start + n)) in
  let! rest := slice b (u64 (start + n)) (len b) in
  Ok (payload, rest).

Definition readItem (b : bytes) (wantList : bool) : result RlpErr (bytes * bytes) :=
  match b with
  | [] => Err UnexpectedEnd
  | prefix :: _ =>
      if prefix <? 128 then
        refuse! wantList with ExpectedListFoundByte;
        let! payload := slice b 0 1 in
        let! rest := slice b 1 (len b) in
        Ok (payload, rest)
      else if prefix <=? 183 then
        refuse! wantList with ExpectedListFoundString;
        let n := u8 (prefix - 128) in
        refuse! len b <? 1 + n with StringRunsPast;
        let! payload := slice b 1 (1 + n) in
        let! rest := slice b (1 + n) (len b) in
        Ok (payload, rest)
      else if prefix <=? 191 then
        refuse! wantList with ExpectedListFoundString;
        readLong b (u8 (prefix - 183))
      else if prefix <=? 247 then
        refuse! negb wantList with ExpectedStringFoundList;
        let n := u8 (prefix - 192) in
        refuse! len b <? 1 + n with ListRunsPast;
        let! payload := slice b 1 (1 + n) in
        let! rest := slice b (1 + n) (len b) in
        Ok (payload, rest)
      else
        refuse! negb wantList with ExpectedStringFoundList;
        readLong b (u8 (prefix - 247))
  end.

Definition readAny (b : bytes) : result RlpErr (bytes * bytes) :=
  match b with
  | [] => Err UnexpectedEnd
  | prefix :: _ => readItem b (192 <=? prefix)
  end.

(** The item loop of [splitList].  Each item takes at least one byte, so
    [length payload] rounds suffice. *)
Fixpoint readItems (fuel : nat) (payload : bytes) : result RlpErr (list bytes) :=
  match payload with
  | [] => Ok []
  | _ =>
      match fuel with
      | O => Err OutOfFuel
      | S f =>
          let! pr := readAny payload in
          let! items := readItems f (snd pr) in
          Ok (fst pr :: items)
      end
  end.

Definition splitList (b : bytes) : result RlpErr (list bytes) :=
  let! pr := readItem b true in
  refuse! negb (len (snd pr) =? 0) with TrailingBytes (len (snd pr));
  readItems (length (fst pr)) (fst pr).

(** ** Facts about the integer codecs *)

Lemma beUint_step v c : byte_ok c -> Z.lor (u64 (Z.shiftl v 8)) c = u64 (v * 256) + c.
Proof.
  intros Hc; unfold byte_ok in Hc; rewrite Z.shiftl_mul_pow2 by lia.
  change (2 ^ 8) with 256; unfold u64, two64.
  replace (v * 256 mod 18446744073709551616)
    with (256 * (v mod 72057594037927936))
    by (rewrite <- Z.mul_mod_distr_l; f_equal; lia).
  set (k := v mod _); symmetry; apply Z.add_nocarry_lor.
  apply Z.bits_inj'; intros n Hn; rewrite Z.land_spec, Z.bits_0.
  change 256 with (2 ^ 8); rewrite Z.mul_comm, <- Z.shiftl_mul_pow2 by lia.
  rewrite Z.shiftl_spec by lia.
  destruct (Z_lt_le_dec n 8); [ rewrite Z.testbit_neg_r by lia; done | ].
  assert (Z.log2 c < n) by (pose proof (Z.log2_le_mono c 255); cbn in *; lia).
  rewrite (Z.bits_above_log2 c n) by lia; apply andb_false_r.
Qed.

Lemma beUint_spec b : bytes_ok b -> beUint b = u64 (be_val b).
Proof.
  intros H; unfold beUint, be_val.
  assert (forall a, in_u64 a ->
    fold_left (fun v c => Z.lor (u64 (Z.shiftl v 8)) c) b a
    = u64 (fold_left (fun v c => v * 256 + c) b a)) as G.
  2: { apply G; unfold in_u64, two64; lia. }
  unfold bytes_ok in H; induction H as [ | c b Hc _ IH ]; intros a Ha; cbn [fold_left].
  { rewrite u64_id; done. }
  rewrite beUint_step by done; unfold byte_ok in Hc.
  assert (u64 (a * 256) + c = u64 (a * 256 + c)) as E.
  { unfold u64, two64.
    replace (a * 256 mod 18446744073709551616) with (256 * (a mod 72057594037927936))
      by (rewrite <- Z.mul_mod_distr_l; f_equal; lia).
    rewrite (Z.div_mod a 72057594037927936) at 2 by lia.
    pose proof (Z.mod_pos_bound a 72057594037927936).
    apply (Z.mod_unique_pos _ _ (a / 72057594037927936)); lia. }
  rewrite E, IH by apply u64_range; rewrite !be_val_acc; unfold u64.
  rewrite <- Z.add_mod_idemp_l, Z.mul_mod_idemp_l, Z.add_mod_idemp_l
    by (unfold two64; lia); done.
Qed.

Lemma bigEndian_val v : in_u64 v -> be_val (bigEndian v) = v.
Proof.
  intros H; unfold bigEndian; rewrite be_digits_val; [ rewrite (@len_nil Z); cbn; lia | ].
  unfold in_u64, two64 in H; cbn; lia.
Qed.

Lemma bigEndian_ok v : bytes_ok (bigEndian v).
Proof. apply be_digits_ok; constructor. Qed.

Lemma bigEndian_minimal v : in_u64 v -> minimal (bigEndian v).
Proof.
  intros H; apply be_digits_minimal; [ | done ].
  unfold in_u64, two64 in H; cbn; lia.
Qed.

(** The encoder's own loop computes [math/big]'s bytes. *)
Lemma bigEndian_big_bytes v : in_u64 v -> bigEndian v = big_bytes v.
Proof.
  intros H; apply be_val_inj; auto using bigEndian_ok, bigEndian_minimal with go.
  rewrite bigEndian_val, be_val_big_bytes; [ done | apply H | done ].
Qed.

Lemma beUint_bigEndian v : in_u64 v -> beUint (bigEndian v) = v.
Proof.
  intros H; rewrite beUint_spec, bigEndian_val, u64_id; auto using bigEndian_ok.
Qed.

Lemma bigEndian_len v : len (bigEndian v) <= 8.
Proof. pose proof (be_digits_len_le 8 v []) as H; rewrite (@len_nil Z) in H; exact H. Qed.

Lemma bigEndian_nonempty v : 0 < v -> exists b bs, bigEndian v = b :: bs.
Proof.
  intros H; destruct (bigEndian v) as [ | b bs ] eqn:E; [ | eauto ].
  exfalso; revert E; unfold bigEndian; cbn [be_digits].
  replace (v <=? 0) with false by lia; intros E; apply (f_equal len) in E.
  assert (forall f w x acc, 1 <= len (be_digits f w (x :: acc))) as G.
  { induction f as [ | f IH ]; intros w x acc; cbn [be_digits];
      [ rewrite len_cons; pose proof (len_nonneg acc); lia | ].
    destruct (w <=? 0); [ rewrite len_cons; pose proof (len_nonneg acc); lia | apply IH ]. }
  match type of E with len (?t) = _ => fold (be_digits 7 (Z.shiftr v 8) [u8 v]) in E end.
  pose proof (G 7%nat (Z.shiftr v 8) (u8 v) []); rewrite E, (@len_nil Z) in *; lia.
Qed.

(** [concat] is list concatenation. *)
Lemma concat_cons x l : concat (x :: l) = x ++ concat l.
Proof.
  unfold concat; cbn [fold_left].
  assert (forall k a, fold_left (fun out item : bytes => out ++ item) k a
                      = a ++ fold_left (fun out item => out ++ item) k []) as G.
  { induction k as [ | y k IH ]; intros a; cbn [fold_left]; [ rewrite app_nil_r; done | ].
    rewrite (IH (a ++ y)), (IH ([] ++ y)), app_assoc; done. }
  apply (G l ([] ++ x)).
Qed.

Lemma concat_nil : concat [] = [].
Proof. reflexivity. Qed.

(** ** Slicing a string that starts with one known byte *)

Lemma slice_head {E A} (x : A) l : @slice E A (x :: l) 0 1 = Ok [ x ].
Proof. apply (slice_app [] [ x ] l); rewrite ?len_cons, ?(@len_nil A); done. Qed.

Lemma slice_tail {E A} (p l : list A) lo hi :
  lo = len p -> hi = len (p ++ l) -> @slice E A (p ++ l) lo hi = Ok l.
Proof.
  intros -> ->; rewrite <- (app_nil_r l) at 1.
  apply (slice_app p l []); rewrite ?len_app; lia.
Qed.

Lemma slice_after {E A} (x : A) p l :
  @slice E A (x :: p ++ l) 1 (1 + len p) = Ok p.
Proof. apply (slice_app [ x ] p l); rewrite len_cons, (@len_nil A); lia. Qed.

Lemma slice_rest {E A} (x : A) p l :
  @slice E A (x :: p ++ l) (1 + len p) (len (x :: p ++ l)) = Ok l.
Proof. apply (slice_tail (x :: p) l); [ rewrite len_cons; done | done ]. Qed.

(** ** The length prefix *)

Lemma prefix_short n off :
  0 <= n <= 55 -> 0 <= off <= 192 -> rlpLengthPrefix n off = [ off + n ].
Proof.
  intros; unfold rlpLengthPrefix; replace (n <=? 55) with true by lia.
  rewrite (u8_id n), u8_id by lia; done.
Qed.

Lemma prefix_long n off :
  55 < n < two64 -> 0 <= off <= 192 ->
  rlpLengthPrefix n off = (off + 55 + len (bigEndian n)) :: bigEndian n.
Proof.
  intros; unfold rlpLengthPrefix; replace (n <=? 55) with false by lia.
  rewrite u64_id by (unfold in_u64; lia).
  pose proof (bigEndian_len n); pose proof (len_nonneg (bigEndian n)).
  rewrite (u8_id (off + 55)), (u8_id (len _)), u8_id by lia; done.
Qed.

Lemma bigEndian_len_pos n : 0 < n -> 1 <= len (bigEndian n).
Proof.
  intros H; destruct (bigEndian_nonempty n H) as (b & bs & ->).
  rewrite len_cons; pose proof (len_nonneg bs); lia.
Qed.

(** ** Reading back what was written *)

Lemma readLong_written x n payload rest :
  n = len payload -> 55 < n < two63 ->
  readLong (x :: bigEndian n ++ payload ++ rest) (len (bigEndian n)) = Ok (payload, rest).
Proof.
  intros -> Hn; set (n := len payload) in *; unfold readLong.
  assert (in_u64 n) as Hu by (unfold in_u64, two63, two64 in *; lia).
  pose proof (bigEndian_len n); pose proof (bigEndian_len_pos n ltac:(lia)).
  pose proof (len_nonneg rest); pose proof (len_nonneg payload).
  replace (len (bigEndian n) =? 0) with false by lia.
  replace (8 <? len (bigEndian n)) with false by lia; cbn [orb].
  rewrite len_cons, !len_app; fold n.
  replace (_ <? 1 + len (bigEndian n)) with false by lia.
  rewrite slice_after; cbn [result_bind].
  destruct (bigEndian_nonempty n ltac:(lia)) as (b & bs & E).
  assert (b <> 0) as Hb by (pose proof (bigEndian_minimal n Hu) as M; rewrite E in M; exact M).
  rewrite E at 1; cbn [index Z.leb Z.to_nat lookup list_lookup result_bind].
  change (index (b :: bs) 0) with (@Ok RlpErr Z b); cbn [result_bind].
  replace (b =? 0) with false by lia.
  rewrite beUint_bigEndian by done; replace (n <=? 55) with false by lia.
  assert (u64 (1 + len (bigEndian n)) = 1 + len (bigEndian n)) as ->
    by (apply u64_id; unfold in_u64, two64; lia).
  assert (u64 (1 + len (bigEndian n) + n) = 1 + len (bigEndian n) + n) as ->
    by (apply u64_id; unfold in_u64, two63, two64 in *; lia).
  replace (_ <? 1 + len (bigEndian n) + n) with false by lia.
  set (k := 1 + len (bigEndian n)).
  rewrite (slice_app (x :: bigEndian n) payload rest k (k + n))
    by (unfold k; rewrite ?len_cons; fold n; lia); cbn [result_bind]; unfold k.
  rewrite app_comm_cons, app_assoc.
  rewrite (slice_tail ((x :: bigEndian n) ++ payload) rest); [ done | | ];
    rewrite ?len_app, ?len_cons; fold n; lia.
Qed.

(** The two short forms share their reading. *)
Lemma readItem_short x p rest w :
  0 <= len p <= 55 ->
  (x = 128 + len p /\ w = false) \/ (x = 192 + len p /\ w = true) ->
  readItem (x :: p ++ rest) w = Ok (p, rest).
Proof.
  intros Hp Hx; pose proof (len_nonneg rest); unfold readItem.
  assert ((len (x :: p ++ rest) <? 1 + len p) = false) as L
    by (rewrite len_cons, len_app; lia).
  destruct Hx as [ [ -> -> ] | [ -> -> ] ].
  - replace (128 + len p <? 128) with false by lia.
    replace (128 + len p <=? 183) with true by lia.
    replace (u8 (128 + len p - 128)) with (len p) by (rewrite u8_id; lia).
    rewrite L, slice_after; cbn [result_bind]; rewrite slice_rest; done.
  - replace (192 + len p <? 128) with false by lia.
    replace (192 + len p <=? 183) with false by lia.
    replace (192 + len p <=? 191) with false by lia.
    replace (192 + len p <=? 247) with true by lia.
    replace (u8 (192 + len p - 192)) with (len p) by (rewrite u8_id; lia).
    cbn [negb]; rewrite L, slice_after; cbn [result_bind]; rewrite slice_rest; done.
Qed.

Lemma readItem_long x p rest w :
  55 < len p < two63 ->
  (x = 183 + len (bigEndian (len p)) /\ w = false)
  \/ (x = 247 + len (bigEndian (len p)) /\ w = true) ->
  readItem (x :: bigEndian (len p) ++ p ++ rest) w = Ok (p, rest).
Proof.
  intros Hp Hx; unfold readItem.
  pose proof (bigEndian_len (len p)); pose proof (bigEndian_len_pos (len p) ltac:(lia)).
  pose proof (readLong_written x (len p) p rest eq_refl Hp) as R.
  set (k := len (bigEndian (len p))) in *.
  destruct Hx as [ [ -> -> ] | [ -> -> ] ].
  - replace (183 + k <? 128) with false by lia; replace (183 + k <=? 183) with false by lia.
    replace (183 + k <=? 191) with true by lia.
    replace (u8 (183 + k - 183)) with k by (rewrite u8_id; lia); exact R.
  - replace (247 + k <? 128) with false by lia; replace (247 + k <=? 183) with false by lia.
    replace (247 + k <=? 191) with false by lia; replace (247 + k <=? 247) with false by lia.
    replace (u8 (247 + k - 247)) with k by (rewrite u8_id; lia); exact R.
Qed.

Lemma rlpString_cases b :
  (exists x, b = [ x ] /\ x < 128 /\ rlpString b = [ x ])
  \/ rlpString b = rlpLengthPrefix (len b) 128 ++ b.
Proof.
  destruct b as [ | x [ | y b ] ]; [ right; done | | right; done ].
  unfold rlpString; destruct (x <? 128) eqn:E; b2p; [ left; eauto | right; done ].
Qed.

Lemma readItem_rlpString b rest :
  bytes_ok b -> len b < two63 -> readItem (rlpString b ++ rest) false = Ok (b, rest).
Proof.
  intros Hok Hl; pose proof (len_nonneg b).
  destruct (rlpString_cases b) as [ (x & -> & Hx & ->) | -> ].
  - unfold readItem; cbn [app]; replace (x <? 128) with true by lia.
    rewrite slice_head; cbn [result_bind].
    rewrite (slice_tail [ x ] rest); done.
  - destruct (Z_le_gt_dec (len b) 55).
    + rewrite prefix_short by lia; cbn [app]; apply readItem_short; lia.
    + rewrite prefix_long by (unfold two63, two64 in *; lia).
      rewrite <- app_comm_cons, <- app_comm_cons, <- app_assoc.
      apply readItem_long; lia.
Qed.

Lemma readItem_rlpList p rest :
  len p < two63 -> readItem (rlpList p ++ rest) true = Ok (p, rest).
Proof.
  intros Hl; pose proof (len_nonneg p); unfold rlpList.
  destruct (Z_le_gt_dec (len p) 55).
  - rewrite prefix_short by lia; cbn [app]; apply readItem_short; lia.
  - rewrite prefix_long by (unfold two63, two64 in *; lia).
    rewrite <- app_comm_cons, <- app_comm_cons, <- app_assoc.
    apply readItem_long; lia.
Qed.

(** What a list payload is made of. *)
Inductive item : Type :=
| Str (b : bytes)
| Lst (payload : bytes).

Definition item_payload (i : item) : bytes :=
  match i with Str b => b | Lst p => p end.

Definition encode_item (i : item) : bytes :=
  match i with Str b => rlpString b | Lst p => rlpList p end.

Definition item_ok (i : item) : Prop :=
  bytes_ok (item_payload i) /\ len (item_payload i) < two63.

Lemma prefix_head n off : exists x l, rlpLengthPrefix n off = x :: l.
Proof. unfold rlpLengthPrefix; destruct (n <=? 55); eauto. Qed.

Lemma encode_item_nonempty i : exists x l, encode_item i = x :: l.
Proof.
  destruct i as [ b | p ]; cbn [encode_item].
  - destruct (rlpString_cases b) as [ (x & -> & _ & ->) | -> ]; [ eauto | ].
    destruct (prefix_head (len b) 128) as (x & l & ->); rewrite <- app_comm_cons; eauto.
  - unfold rlpList; destruct (prefix_head (len p) 192) as (x & l & ->).
    rewrite <- app_comm_cons; eauto.
Qed.

Lemma readAny_readItem x l : readAny (x :: l) = readItem (x :: l) (192 <=? x).
Proof. reflexivity. Qed.

Lemma rlpString_head b x l :
  bytes_ok b -> len b < two63 -> rlpString b = x :: l -> x < 192.
Proof.
  intros Hok Hl E; pose proof (len_nonneg b).
  destruct (rlpString_cases b) as [ (y & -> & Hy & Hr) | Hr ]; rewrite Hr in E.
  - simplify_eq; lia.
  - destruct (Z_le_gt_dec (len b) 55).
    + rewrite prefix_short in E by lia; simplify_eq/=; lia.
    + rewrite prefix_long in E by (unfold two63, two64 in *; lia).
      pose proof (bigEndian_len (len b)); simplify_eq/=; lia.
Qed.

Lemma rlpList_head p x l : len p < two63 -> rlpList p = x :: l -> 192 <= x < 256.
Proof.
  intros Hl E; pose proof (len_nonneg p); unfold rlpList in E.
  destruct (Z_le_gt_dec (len p) 55).
  - rewrite prefix_short in E by lia; simplify_eq/=; lia.
  - rewrite prefix_long in E by (unfold two63, two64 in *; lia).
    pose proof (bigEndian_len (len p)); pose proof (bigEndian_len_pos (len p)).
    simplify_eq/=; lia.
Qed.

Lemma readAny_encoded i rest :
  item_ok i -> readAny (encode_item i ++ rest) = Ok (item_payload i, rest).
Proof.
  intros [ Hok Hl ]; destruct (encode_item_nonempty i) as (x & l & E).
  assert (readAny (encode_item i ++ rest)
          = readItem (encode_item i ++ rest) (192 <=? x)) as -> by (rewrite E; done).
  destruct i as [ b | p ]; cbn [encode_item item_payload] in *.
  - apply rlpString_head in E; auto; replace (192 <=? x) with false by lia.
    apply readItem_rlpString; auto.
  - apply rlpList_head in E; auto; replace (192 <=? x) with true by lia.
    apply readItem_rlpList; auto.
Qed.

Lemma readItems_nonempty f x l :
  readItems (S f) (x :: l)
  = let! pr := readAny (x :: l) in let! items := readItems f (snd pr) in Ok (fst pr :: items).
Proof. reflexivity. Qed.

Lemma readItems_encoded items fuel :
  Forall item_ok items -> (length items <= fuel)%nat ->
  readItems fuel (concat (encode_item <$> items)) = Ok (item_payload <$> items).
Proof.
  intros H; revert fuel; induction H as [ | i items Hi _ IH ]; intros fuel Hf;
    cbn [fmap list_fmap]; [ destruct fuel; done | ].
  rewrite concat_cons; destruct fuel as [ | f ]; [ cbn in Hf; lia | ].
  pose proof (readAny_encoded i (concat (encode_item <$> items)) Hi) as R.
  destruct (encode_item_nonempty i) as (x & l & E); rewrite E in R |- *.
  rewrite <- app_comm_cons in R |- *; rewrite readItems_nonempty, R; cbn [result_bind fst snd].
  rewrite IH by (cbn in Hf; lia); done.
Qed.

Lemma concat_length_ge items :
  (length items <= length (concat (encode_item <$> items)))%nat.
Proof.
  induction items as [ | i items IH ]; [ cbn; lia | ]; cbn [fmap list_fmap].
  rewrite concat_cons, length_app.
  destruct (encode_item_nonempty i) as (x & l & ->); cbn [length]; lia.
Qed.

(** A list written by the encoder splits into the payloads of its items. *)
Lemma splitList_encoded items :
  Forall item_ok items -> len (concat (encode_item <$> items)) < two63 ->
  splitList (rlpList (concat (encode_item <$> items))) = Ok (item_payload <$> items).
Proof.
  intros Hi Hl; unfold splitList.
  pose proof (readItem_rlpList (concat (encode_item <$> items)) [] Hl) as R.
  rewrite app_nil_r in R; rewrite R; cbn [result_bind fst snd].
  apply readItems_encoded; [ done | apply concat_length_ge ].
Qed.

(** ** What the reader accepts *)

Lemma slice_range_ok {E A} (l : list A) lo hi :
  0 <= lo <= hi -> hi <= len l -> exists s, @slice E A l lo hi = Ok s.
Proof.
  intros; unfold slice; replace (0 <=? lo) with true by lia.
  replace (lo <=? hi) with true by lia; replace (hi <=? len l) with true by lia; eauto.
Qed.

Lemma slice_cons_from1 {E} (x : Z) l hi s :
  @slice E Z (x :: l) 1 hi = Ok s -> exists r, l = s ++ r /\ len s = hi - 1.
Proof.
  intros H; apply slice_ok_inv in H as (p & r & E1 & E2 & E3).
  destruct p as [ | y [ | z p ] ]; rewrite ?len_cons, ?(@len_nil Z) in E2; try lia.
  - cbn in E1; simplify_eq; exists r; split; [ done | lia ].
  - pose proof (len_nonneg p); lia.
Qed.

(** Taking [l[lo:hi]] and [l[hi:]] of a successful header read. *)
Lemma slice_split {E} (p r l : bytes) lo hi :
  @slice E Z l lo hi = Ok p -> @slice E Z l hi (len l) = Ok r -> 
  exists h, l = h ++ p ++ r /\ len h = lo.
Proof.
  intros H1 H2; apply slice_ok_inv in H1 as (h1 & r1 & E1 & L1 & L2).
  apply slice_ok_inv in H2 as (h2 & r2 & E2 & L3 & L4).
  exists h1; split; [ | done ]; subst l.
  rewrite !len_app in *.
  assert (len r2 = 0) as Z by (apply (f_equal len) in E2; rewrite !len_app in E2; lia).
  apply len_zero in Z; subst r2; rewrite app_nil_r in E2.
  rewrite app_assoc in E2; apply app_inj_1 in E2 as [ _ <- ]; [ done | ].
  unfold len in *; rewrite length_app; lia.
Qed.

(** A length field of at most eight bytes is read exactly. *)
Lemma be_val_field lb : bytes_ok lb -> len lb <= 8 -> in_u64 (be_val lb).
Proof.
  intros Hok Hl; pose proof (be_val_bound lb Hok).
  assert (256 ^ len lb <= 256 ^ 8) by (apply Z.pow_le_mono_r; lia).
  change (256 ^ 8) with two64 in *; unfold in_u64; lia.
Qed.

Lemma beUint_field lb : bytes_ok lb -> len lb <= 8 -> beUint lb = be_val lb.
Proof. intros; rewrite beUint_spec, u64_id; auto using be_val_field. Qed.

(** A 64-bit sum that is not below one of its terms did not wrap. *)
Lemma u64_sum_no_wrap a n : in_u64 a -> in_u64 n -> a <= u64 (a + n) -> u64 (a + n) = a + n.
Proof.
  intros Ha Hn H; unfold in_u64 in *; apply u64_id; split; [ lia | ].
  destruct (Z_lt_le_dec (a + n) two64); [ done | exfalso ].
  assert (u64 (a + n) = a + n - two64) as E; [ | lia ].
  unfold u64; symmetry; apply (Z.mod_unique_pos _ _ 1); lia.
Qed.

(** The checks a successful [readLong] has passed. *)
Lemma readLong_checks b k p r :
  readLong b k = Ok (p, r) ->
  exists lb n, slice (E := RlpErr) b 1 (1 + k) = Ok lb /\ n = beUint lb /\
    1 <= k <= 8 /\ (exists f l, lb = f :: l /\ f <> 0) /\ 55 < n /\
    slice (E := RlpErr) b (1 + k) (u64 (1 + k + n)) = Ok p /\
    slice (E := RlpErr) b (u64 (1 + k + n)) (len b) = Ok r.
Proof.
  unfold readLong; intros H.
  destruct ((k =? 0) || (8 <? k)) eqn:Hk; [ done | ].
  destruct (len b <? 1 + k) eqn:Hlen; [ done | ].
  destruct (slice b 1 (1 + k)) as [ lb | | ] eqn:Hs; [ | done | done ]; cbn [result_bind] in H.
  destruct (index lb 0) as [ f | | ] eqn:Hf; [ | done | done ]; cbn [result_bind] in H.
  destruct (f =? 0) eqn:Hf0; [ done | ]; destruct (beUint lb <=? 55) eqn:Hn; [ done | ].
  destruct (len b <? u64 (u64 (1 + k) + beUint lb)) eqn:Hlen2; [ done | ]; b2p.
  pose proof Hs as Hs'; apply slice_ok_inv in Hs' as (h & t & _ & _ & L).
  pose proof (len_nonneg lb).
  assert (u64 (1 + k) = 1 + k) as Ek by (apply u64_id; unfold in_u64, two64; lia).
  rewrite Ek in H.
  destruct (slice b (1 + k) _) as [ p1 | | ] eqn:Hp; [ | done | done ]; cbn [result_bind] in H.
  destruct (slice b _ (len b)) as [ r' | | ] eqn:Hr; [ | done | done ].
  cbn [result_bind] in H; injection H as -> ->.
  exists lb, (beUint lb); split_and!; auto; try lia.
  destruct lb as [ | y lb ]; [ done | ]; rewrite index_0 in Hf; simplify_eq; eauto.
Qed.

Lemma readLong_ok_inv x b k p r :
  bytes_ok b -> readLong (x :: b) k = Ok (p, r) ->
  b = bigEndian (len p) ++ p ++ r /\ k = len (bigEndian (len p)) /\ 55 < len p < two64.
Proof.
  intros Hok H; apply readLong_checks in H as
    (lb & n & Hs & -> & Hk & (f & l & El & Hf) & Hn & Hp & Hr).
  apply slice_cons_from1 in Hs as (tl & -> & Llb); apply Forall_app in Hok as [ Hlb _ ].
  assert (minimal lb) as Hmin by (subst lb; exact Hf).
  pose proof (be_val_field lb Hlb ltac:(lia)) as Hu.
  rewrite beUint_field in * by (done || lia).
  assert (len p = be_val lb) as Lp.
  { pose proof Hp as Hp'; apply slice_ok_inv in Hp' as (h & t & _ & _ & L).
    pose proof (len_nonneg p); rewrite u64_sum_no_wrap in L; [ lia | | done | lia ].
    unfold in_u64, two64; lia. }
  assert (bigEndian (len p) = lb) as EB.
  { rewrite Lp; apply be_val_inj; auto using bigEndian_ok, bigEndian_minimal, bigEndian_val. }
  destruct (slice_split p r _ _ _ Hp Hr) as ([ | y h ] & E2 & L2);
    [ rewrite (@len_nil Z) in L2; lia | ].
  rewrite <- app_comm_cons in E2; injection E2 as -> E2; rewrite len_cons in L2.
  apply app_inj_1 in E2 as [ -> -> ]; [ | unfold len in *; lia ].
  rewrite EB; unfold in_u64 in Hu; split_and!; auto; lia.
Qed.

(** The three fixed-length forms. *)
Lemma read_short_inv (x : Z) (b : bytes) n p r :
  0 <= n ->
  (let! payload := slice (E := RlpErr) (x :: b) 1 (1 + n) in
   let! rest := slice (x :: b) (1 + n) (len (x :: b)) in Ok (payload, rest)) = Ok (p, r) ->
  b = p ++ r /\ len p = n.
Proof.
  intros Hn H.
  destruct (slice (x :: b) 1 (1 + n)) as [ p1 | | ] eqn:Hp; [ | done | done ]; cbn [result_bind] in H.
  destruct (slice (x :: b) (1 + n) _) as [ r1 | | ] eqn:Hr; [ | done | done ].
  cbn [result_bind] in H; injection H as -> ->.
  destruct (slice_split p r _ _ _ Hp Hr) as ([ | y [ | z h ] ] & E & L);
    rewrite ?len_cons, ?(@len_nil Z) in L; [ lia | | pose proof (len_nonneg h); lia ].
  apply slice_ok_inv in Hp as (_ & _ & _ & _ & Lp).
  rewrite <- app_comm_cons in E; cbn [app] in E; injection E as -> ->; split; [ done | lia ].
Qed.

Definition noncanonical_byte (b p r : bytes) : Prop :=
  exists x, 0 <= x < 128 /\ p = [ x ] /\ b = 129 :: x :: r.

Lemma rlpString_multi p : (forall x, p = [ x ] -> 128 <= x) ->
  rlpString p = rlpLengthPrefix (len p) 128 ++ p.
Proof.
  intros H; destruct (rlpString_cases p) as [ (x & -> & Hx & _) | ]; [ | done ].
  specialize (H x eq_refl); lia.
Qed.

Lemma small_byte_dec (p : bytes) :
  (exists y, p = [ y ] /\ y < 128) \/ (forall y, p = [ y ] -> 128 <= y).
Proof.
  destruct p as [ | y [ | z p ] ]; [ right; done | | right; done ].
  destruct (Z_lt_le_dec y 128); [ left; eauto | right; intros z E; simplify_eq; done ].
Qed.

Lemma readItem_ok_inv b w p r :
  bytes_ok b -> readItem b w = Ok (p, r) ->
  if w then b = rlpList p ++ r else b = rlpString p ++ r \/ noncanonical_byte b p r.
Proof.
  intros Hok; destruct b as [ | x b ]; [ done | ]; inversion Hok as [ | ? ? Hx Hb ]; subst.
  unfold byte_ok in Hx; unfold readItem; intros H.
  destruct (x <? 128) eqn:X1; b2p.
  { destruct w; [ done | ]; rewrite slice_head in H; cbn [result_bind] in H.
    rewrite (slice_tail [ x ] b) in H by done; simplify_eq/=.
    left; replace (x <? 128) with true by lia; done. }
  destruct (x <=? 183) eqn:X2; b2p.
  { destruct w; [ done | ]; rewrite u8_id in H by lia.
    destruct (len (x :: b) <? _); [ done | ]; apply read_short_inv in H as [ -> Lp ]; [ | lia ].
    destruct (small_byte_dec p) as [ (y & -> & Hy) | Hn ].
    - right; exists y; inversion Hb as [ | ? ? Hy0 ]; subst; unfold byte_ok in Hy0.
      rewrite len_cons, (@len_nil Z) in Lp; replace x with 129 by lia; split_and!; auto; lia.
    - left; rewrite rlpString_multi, prefix_short; [ cbn [app]; f_equal; lia | lia | lia | ].
      exact Hn. }
  destruct (x <=? 191) eqn:X3; b2p.
  { destruct w; [ done | ]; rewrite u8_id in H by lia.
    apply readLong_ok_inv in H as (-> & Hk & Lp); [ | done ].
    left; rewrite rlpString_multi, prefix_long; [ | done | lia | ].
    - rewrite <- !app_comm_cons, <- app_assoc; f_equal; lia.
    - intros y ->; rewrite len_cons, (@len_nil Z) in Lp; lia. }
  unfold rlpList; destruct (x <=? 247) eqn:X4; b2p.
  - destruct w; cbn [negb] in H; [ | done ]; rewrite u8_id in H by lia.
    destruct (len (x :: b) <? _); [ done | ]; apply read_short_inv in H as [ -> Lp ]; [ | lia ].
    rewrite prefix_short by lia; cbn [app]; f_equal; lia.
  - destruct w; cbn [negb] in H; [ | done ]; rewrite u8_id in H by lia.
    apply readLong_ok_inv in H as (-> & Hk & Lp); [ | done ].
    rewrite prefix_long by lia; rewrite <- !app_comm_cons, <- app_assoc; f_equal; lia.
Qed.

(** ** The one panic *)

(** The length field of a long header whose declared end wraps around 64 bits. *)
Definition wrapping_header (b : bytes) (k : Z) : Prop :=
  exists x lb tl, b = x :: lb ++ tl /\ len lb = k /\ two64 <= 1 + k + be_val lb.

Lemma wrapping_minimal k lb :
  bytes_ok lb -> 1 <= k <= 8 -> len lb = k -> two64 <= 1 + k + be_val lb ->
  k = 8 /\ exists f l, lb = f :: l /\ f <> 0.
Proof.
  intros Hok Hk Hl Hw; pose proof (be_val_bound lb Hok) as Hb.
  assert (k = 8) as ->.
  { destruct (Z_lt_le_dec k 8); [ exfalso | lia ].
    assert (256 ^ len lb <= 256 ^ 7) by (apply Z.pow_le_mono_r; lia).
    change (256 ^ 7) with 72057594037927936 in *; unfold two64 in *; lia. }
  split; [ done | ]; destruct lb as [ | f l ]; [ rewrite (@len_nil Z) in Hl; lia | ].
  exists f, l; split; [ done | intros -> ]; inversion Hok; subst.
  rewrite be_val_cons in Hw; pose proof (be_val_bound l ltac:(assumption)).
  rewrite len_cons in Hl; replace (len l) with 7 in * by lia.
  change (256 ^ 7) with 72057594037927936 in *; unfold two64 in *; lia.
Qed.

Lemma slice_panic_inv {E A} (l : list A) lo hi :
  0 <= lo -> hi <= len l -> @slice E A l lo hi = Panic -> hi < lo.
Proof.
  unfold slice; intros; destruct (_ && _) eqn:Hb; [ done | ].
  apply andb_false_iff in Hb as [ Hb | Hb ]; [ apply andb_false_iff in Hb as [ Hb | Hb ] | ];
    b2p; lia.
Qed.

Lemma slice_reversed {E A} (l : list A) lo hi : hi < lo -> @slice E A l lo hi = Panic.
Proof.
  intros; unfold slice; replace (lo <=? hi) with false by lia; rewrite andb_false_r; done.
Qed.

Lemma slice_not_err {E A} (l : list A) lo hi e : @slice E A l lo hi <> Err e.
Proof. unfold slice; destruct (_ && _); discriminate. Qed.

(** The head of a long item: prefix byte, length field, the rest. *)
Lemma long_header (b : bytes) k :
  1 <= k -> 1 + k <= len b ->
  exists x lb tl, b = x :: lb ++ tl /\ len lb = k /\ slice (E := RlpErr) b 1 (1 + k) = Ok lb.
Proof.
  intros Hk Hl; destruct (slice_range_ok (E := RlpErr) b 1 (1 + k)) as [ lb Hs ]; [ lia | lia | ].
  destruct b as [ | x b ]; [ rewrite (@len_nil Z) in Hl; lia | ].
  pose proof (slice_cons_from1 _ _ _ _ Hs) as (tl & -> & L).
  exists x, lb, tl; split_and!; auto; lia.
Qed.

Lemma readLong_panic_inv b k :
  0 <= k -> bytes_ok b -> readLong b k = Panic -> wrapping_header b k /\ 1 <= k <= 8.
Proof.
  intros Hk0 Hok; unfold readLong; intros H.
  destruct ((k =? 0) || (8 <? k)) eqn:Hk; [ done | ]; destruct (len b <? 1 + k) eqn:Hl; [ done | ].
  b2p; destruct (long_header b k) as (x & lb & tl & -> & L & Hs); [ lia | lia | ].
  assert (bytes_ok lb) as Hlb by (inversion Hok as [ | ? ? _ Hb ]; apply Forall_app in Hb; tauto).
  rewrite Hs in H; cbn [result_bind] in H.
  destruct lb as [ | f l ]; [ rewrite (@len_nil Z) in L; lia | rewrite index_0 in H ].
  cbn [result_bind] in H; set (lb := f :: l) in *; set (b := x :: lb ++ tl) in *.
  destruct (f =? 0); [ done | ]; destruct (beUint lb <=? 55); [ done | ].
  assert (u64 (1 + k) = 1 + k) as Ek by (apply u64_id; unfold in_u64, two64; lia).
  rewrite Ek in H; destruct (len b <? u64 (1 + k + beUint lb)) eqn:Hl2; [ done | ]; b2p.
  rewrite (beUint_field lb) in * by (done || lia).
  pose proof (be_val_field lb Hlb ltac:(lia)) as Hu.
  pose proof (u64_range (1 + k + be_val lb)) as [ Hu0 _ ].
  destruct (slice b (1 + k) (u64 (1 + k + be_val lb))) as [ p1 | e | ] eqn:Hp; cbn [result_bind] in H.
  - destruct (slice_range_ok (E := RlpErr) b (u64 (1 + k + be_val lb)) (len b)) as [ s Hs2 ];
      [ lia | lia | rewrite Hs2 in H; done ].
  - done.
  - apply slice_panic_inv in Hp; [ | lia | lia ].
    split; [ exists x, lb, tl; split_and!; auto | lia ].
    destruct (Z_lt_le_dec (1 + k + be_val lb) two64); [ exfalso | lia ].
    rewrite u64_id in Hp; unfold in_u64 in *; lia.
Qed.

Lemma readLong_wrapping x lb tl :
  bytes_ok lb -> len lb = 8 -> two64 <= 9 + be_val lb ->
  readLong (x :: lb ++ tl) 8 = Panic.
Proof.
  intros Hlb L Hw.
  destruct (wrapping_minimal 8 lb Hlb ltac:(lia) L ltac:(lia)) as (_ & f & l & -> & Hf).
  pose proof (len_nonneg tl); pose proof (be_val_field _ Hlb ltac:(lia)) as Hu.
  unfold readLong; cbn [Z.eqb Z.ltb Z.compare Pos.compare Pos.compare_cont orb].
  rewrite len_cons, len_app, L; replace (_ <? 1 + 8) with false by lia.
  rewrite <- L, slice_after; cbn [result_bind]; rewrite L, index_0; cbn [result_bind].
  replace (f =? 0) with false by lia; rewrite beUint_field by (done || lia).
  set (n := be_val (f :: l)) in *; unfold in_u64 in Hu.
  replace (n <=? 55) with false by (unfold two64 in *; lia).
  change (u64 (1 + 8)) with 9.
  assert (u64 (9 + n) = 9 + n - two64) as ->
    by (unfold u64; symmetry; apply (Z.mod_unique_pos _ _ 1); unfold two64 in *; lia).
  replace (_ <? 9 + n - two64) with false by lia.
  rewrite (slice_reversed _ 9 (9 + n - two64)) by lia; done.
Qed.

Lemma read_short_no_panic (x : Z) (b : bytes) n :
  0 <= n -> (len (x :: b) <? 1 + n) = false ->
  exists pr, (let! payload := slice (E := RlpErr) (x :: b) 1 (1 + n) in
   let! rest := slice (x :: b) (1 + n) (len (x :: b)) in Ok (payload, rest)) = Ok pr.
Proof.
  intros Hn Hl; b2p.
  destruct (slice_range_ok (E := RlpErr) (x :: b) 1 (1 + n)) as [ p -> ]; [ lia | lia | ].
  destruct (slice_range_ok (E := RlpErr) (x :: b) (1 + n) (len (x :: b))) as [ r Hr ]; [ lia | lia | ].
  cbn [result_bind]; rewrite Hr; cbn [result_bind]; eauto.
Qed.

(** ** Termination of the item loop *)

Lemma slice_bind_not_fuel {A B} (l : list A) lo hi (k : list A -> result RlpErr B) :
  (forall s, k s <> Err OutOfFuel) -> result_bind k (slice l lo hi) <> Err OutOfFuel.
Proof. unfold slice; intros; destruct (_ && _); cbn; [ auto | discriminate ]. Qed.

Lemma readItem_not_fuel b w : readItem b w <> Err OutOfFuel.
Proof.
  assert (forall k, readLong b k <> Err OutOfFuel) as L.
  { intros k; unfold readLong; destruct (_ || _); [ done | ]; destruct (len b <? 1 + k); [ done | ].
    apply slice_bind_not_fuel; intros lb.
    destruct (index lb 0) as [ f | e | ] eqn:I; cbn [result_bind]; [ | | done ].
    - repeat (destruct (_ <? _) || destruct (_ =? _) || destruct (_ <=? _)); try done;
        apply slice_bind_not_fuel; intros p; apply slice_bind_not_fuel; done.
    - unfold index in I; destruct (0 <=? 0); [ destruct (lb !! Z.to_nat 0) | ]; done. }
  destruct b as [ | x b ]; [ done | ]; unfold readItem.
  repeat (destruct (_ <? _) || destruct (_ <=? _)); destruct w; cbn [negb]; auto; try done;
    try (destruct (_ <? _); [ done | ]);
    apply slice_bind_not_fuel; intros p; apply slice_bind_not_fuel; done.
Qed.

(** An accepted item consumes at least its prefix byte. *)
Lemma readAny_shrinks b p r :
  bytes_ok b -> readAny b = Ok (p, r) -> (length r < length b)%nat /\ bytes_ok r.
Proof.
  intros Hok; destruct b as [ | x b ]; [ done | ]; rewrite readAny_readItem; intros H.
  apply readItem_ok_inv in H; [ | done ].
  assert (forall i, x :: b = encode_item i ++ r ->
    (length r < length (x :: b))%nat /\ bytes_ok r) as G.
  { intros i E; rewrite E in Hok |- *; apply Forall_app in Hok as [ _ Hr ]; split; [ | done ].
    destruct (encode_item_nonempty i) as (y & l & ->); rewrite length_app; cbn; lia. }
  destruct (192 <=? x); [ apply (G (Lst p)); done | ].
  destruct H as [ H | (y & _ & _ & E) ]; [ apply (G (Str p)); done | ].
  rewrite E in Hok |- *; inversion Hok as [ | ? ? _ Hb ]; inversion Hb; subst.
  split; [ cbn; lia | done ].
Qed.

Lemma readItems_total fuel p :
  bytes_ok p -> (length p <= fuel)%nat -> readItems fuel p <> Err OutOfFuel.
Proof.
  revert p; induction fuel as [ | f IH ]; intros p Hok Hl.
  - destruct p; [ done | cbn in Hl; lia ].
  - destruct p as [ | x p ]; [ done | ]; rewrite readItems_nonempty.
    destruct (readAny (x :: p)) as [ [ q r ] | e | ] eqn:R; cbn [result_bind fst snd]; [ | | done ].
    + destruct (readAny_shrinks _ _ _ Hok R) as [ Hs Hr ].
      specialize (IH r Hr ltac:(cbn in *; lia)).
      destruct (readItems f r) as [ | e | ]; cbn [result_bind]; done.
    + rewrite readAny_readItem in R; intros E; injection E as ->.
      apply (readItem_not_fuel _ _ R).
Qed.

(** ** Properties *)

(** The reader accepts exactly what the encoder writes, with the payload
    and the remaining input it was written with: an RLP string, an RLP list,
    and, beyond the encoder, the two-byte form [0x81 x] of a single byte
    [x < 0x80], which the encoder never emits. *)
Theorem readAny_accepts_iff b p r :
  bytes_ok b -> len b < two63 ->
  (readAny b = Ok (p, r) <->
   b = rlpString p ++ r \/ b = rlpList p ++ r \/ noncanonical_byte b p r).
Proof.
  intros Hok Hl; split.
  - destruct b as [ | x b ]; [ done | ]; rewrite readAny_readItem; intros H.
    apply readItem_ok_inv in H; [ | done ]; destruct (192 <=? x); tauto.
  - intros [ -> | [ -> | (x & Hx & -> & ->) ] ].
    + apply Forall_app in Hok as [ Hs Hr ]; rewrite len_app in Hl; pose proof (len_nonneg r).
      apply (readAny_encoded (Str p)); split; cbn [item_payload].
      * destruct (rlpString_cases p) as [ (x & -> & _ & E) | E ]; rewrite E in Hs; [ done | ].
        apply Forall_app in Hs; tauto.
      * destruct (rlpString_cases p) as [ (x & -> & _ & E) | E ]; rewrite E in Hl; [ lia | ].
        rewrite len_app in Hl; pose proof (len_nonneg (rlpLengthPrefix (len p) 128)); lia.
    + apply Forall_app in Hok as [ Hs Hr ]; apply Forall_app in Hs as [ _ Hs ].
      unfold rlpList in Hl; rewrite !len_app in Hl; pose proof (len_nonneg r).
      pose proof (len_nonneg (rlpLengthPrefix (len p) 192)).
      apply (readAny_encoded (Lst p)); split; cbn [item_payload]; [ done | lia ].
    + rewrite readAny_readItem; change (192 <=? 129) with false.
      apply (readItem_short 129 [ x ] r false); rewrite len_cons, (@len_nil Z); lia.
Qed.

(** The reader panics on exactly one family of inputs: an eight-byte
    length field within nine of 2^64, whose declared end wraps around 64 bits
    and passes the bounds check. *)
Theorem readItem_panics_iff b w :
  bytes_ok b ->
  (readItem b w = Panic <->
   exists lb tl, b = (if w then 255 else 191) :: lb ++ tl
                 /\ len lb = 8 /\ two64 - 9 <= be_val lb).
Proof.
  intros Hok; split.
  - destruct b as [ | x b ]; [ done | ]; inversion Hok as [ | ? ? Hx Hb ]; subst.
    unfold byte_ok in Hx; unfold readItem; intros H.
    assert (forall k, readLong (x :: b) (u8 k) = Panic ->
      u8 k = 8 /\ exists lb tl, b = lb ++ tl /\ len lb = 8 /\ two64 - 9 <= be_val lb) as G.
    { intros k Hk; pose proof (u8_range k); apply readLong_panic_inv in Hk
        as [ (y & lb & tl & E & L & Hw) Hk8 ]; [ | lia | done ].
      injection E as -> ->; apply Forall_app in Hb as [ Hlb _ ].
      destruct (wrapping_minimal _ _ Hlb Hk8 L Hw) as [ E8 _ ].
      rewrite E8 in *; split; [ done | exists lb, tl; split_and!; auto; lia ]. }
    destruct w; cbn [negb] in H; repeat match type of H with
    | (if ?c then _ else _) = _ => destruct c eqn:?; try done
    end; b2p.
    all: try (apply G in H as [ E8 (lb & tl & -> & L & Hv) ]; rewrite u8_id in E8 by lia;
              exists lb, tl; split_and!; auto; f_equal; lia).
    all: exfalso; match type of H with
    | context [ slice _ 0 1 ] => 
        rewrite slice_head in H; cbn [result_bind] in H; rewrite (slice_tail [ x ] b) in H; done
    | context [ slice _ 1 (1 + u8 ?n) ] =>
        destruct (read_short_no_panic x b (u8 n)) as [ pr E ];
          [ pose proof (u8_range n); lia | lia | rewrite E in H; done ]
    end.
  - intros (lb & tl & -> & L & Hv); inversion Hok as [ | ? ? _ Hb ]; subst.
    apply Forall_app in Hb as [ Hlb _ ].
    destruct w; apply (readLong_wrapping _ lb tl Hlb L); lia.
Qed.

(** Splitting a list always finishes: the loop over the items never
    runs out of the rounds it is given, whatever the input. *)
Theorem splitList_total b : bytes_ok b -> splitList b <> Err OutOfFuel.
Proof.
  intros Hok; unfold splitList; intros H.
  destruct (readItem b true) as [ [ p r ] | e | ] eqn:R; cbn [result_bind fst snd] in H.
  - destruct (negb _); [ done | ]; revert H; apply readItems_total; [ | done ].
    apply readItem_ok_inv in R; [ | done ]; cbn in R; subst b.
    apply Forall_app in Hok as [ Hok _ ]; apply Forall_app in Hok; tauto.
  - apply (readItem_not_fuel b true); congruence.
  - done.
Qed.

(** ** Concrete inputs *)

(** ["dog"] followed by one byte. *)
Lemma readAny_accepts_iff_witness :
  readAny [ 131; 100; 111; 103; 1 ] = Ok ([ 100; 111; 103 ], [ 1 ]) /\
  ([ 131; 100; 111; 103; 1 ] = rlpString [ 100; 111; 103 ] ++ [ 1 ] \/
   [ 131; 100; 111; 103; 1 ] = rlpList [ 100; 111; 103 ] ++ [ 1 ] \/
   noncanonical_byte [ 131; 100; 111; 103; 1 ] [ 100; 111; 103 ] [ 1 ]).
Proof.
  assert (readAny [ 131; 100; 111; 103; 1 ] = Ok ([ 100; 111; 103 ], [ 1 ])) as E by reflexivity.
  split; [ exact E | ]; revert E; apply readAny_accepts_iff.
  - repeat constructor; discriminate.
  - reflexivity.
Defined.

Lemma readItem_panics_iff_witness :
  readItem (255 :: replicate 7 255 ++ [ 250 ]) true = Panic.
Proof.
  apply readItem_panics_iff.
  - repeat constructor; discriminate.
  - exists (replicate 7 255 ++ [ 250 ]), []; split_and!; [ reflexivity | reflexivity | discriminate ].
Defined.

Lemma splitList_total_witness : splitList [ 194; 1; 2 ] <> Err OutOfFuel.
Proof. apply splitList_total; repeat constructor; discriminate. Defined.


End Rlp.
