(* ===== verification/EthCrypto.v ===== *)
(** * Ethereum key, address and signature encodings

    Models [services/mpc-signer/internal/ethcrypto] ([ethcrypto.go] and
    [sign.go]); mpc-party, settlement and temporal-worker carry copies.

    The curve arithmetic (btcec), Keccak and the compact-signature recovery
    are not part of the repository: they are parameters of the sections
    below.  What the repository adds, and what is proved here, is the byte
    layout around them. *)

From Stdlib Require Import ZArith Lia Ascii String.
From stdpp Require Import base list numbers strings.
From S2P Require Import Prelude GoStrings.

Open Scope Z_scope.

Module EthCrypto.

(** [SignatureLength] *)
Definition SignatureLength : Z := 65.

(** The order of the secp256k1 group, [S256().Params().N]. *)
Definition curveN : Z :=
  0xFFFFFFFFFFFFFFFFFFFFFFFFFFFFFFFEBAAEDCE6AF48A03BBFD25E8CD0364141.

Inductive CryptoErr : Type :=
| AddressLength (n : Z)
| AddressNotHex
| DigestLength (n : Z)
| SigLength (n : Z)
| BadRecoveryId (v : Z)
| RecoverFailed
| CompactLength (n : Z)
| KeyNotHex
| KeyLength (n : Z)
| KeyOutOfRange.

(** ** Public keys *)

Definition MarshalPubkey (x y : Z) : result CryptoErr bytes :=
  let! xb := fill_bytes 32 x in
  let! yb := fill_bytes 32 y in
  Ok (4 :: xb ++ yb).

Definition CompressPubkey (x y : Z) : result CryptoErr bytes :=
  let! xb := fill_bytes 32 x in
  Ok ((if Z.odd y then 3 else 2) :: xb).

Record PublicKey := { pubX : option Z; pubY : option Z }.
Record PrivateKey := { privD : Z; privX : Z; privY : Z }.

Definition FromECDSA (priv : option PrivateKey) : result CryptoErr bytes :=
  match priv with
  | None => Ok []
  | Some k => fill_bytes 32 (privD k)
  end.

Definition FromECDSAPub (pub : option PublicKey) : result CryptoErr bytes :=
  match pub with
  | Some {| pubX := Some x; pubY := Some y |} => MarshalPubkey x y
  | _ => Ok []
  end.

(** ** Parsing addresses and private keys *)

Definition strip0x (s : string) : string :=
  match s with
  | String a (String b r) =>
      if Ascii.eqb a "0" && (Ascii.eqb b "x" || Ascii.eqb b "X") then r else s
  | _ => s
  end.

Definition ParseAddress (s : string) : result CryptoErr bytes :=
  let s := strip0x s in
  refuse! negb (slen s =? 40) with AddressLength (slen s);
  match hex_decode s with
  | None => Err AddressNotHex
  | Some raw => Ok raw
  end.

Definition IsHexAddress (s : string) : bool := is_ok (ParseAddress s).

(** [equalAddress] of transaction.go: addresses compared as bytes, so that
    EIP-55 case does not matter. *)
Definition equalAddress (a b : string) : bool :=
  match ParseAddress a, ParseAddress b with
  | Ok ab, Ok bb => if len ab =? len bb then bool_decide (ab = bb) else false
  | _, _ => false
  end.

Section Curve.
(** Base-point multiplication of the curve library. *)
Variable scalarBaseMult : bytes -> Z * Z.

Definition privFromD (d : Z) : PrivateKey :=
  let '(x, y) := scalarBaseMult (big_bytes d) in
  {| privD := d; privX := x; privY := y |}.

Definition HexToECDSA (s : string) : result CryptoErr PrivateKey :=
  match hex_decode s with
  | None => Err KeyNotHex
  | Some raw =>
      refuse! negb (len raw =? 32) with KeyLength (len raw);
      let d := be_val raw in
      refuse! (d =? 0) || (curveN <=? d) with KeyOutOfRange;
      Ok (privFromD d)
  end.
End Curve.

Section Hashing.
(** Legacy Keccak-256 of [golang.org/x/crypto/sha3]. *)
Variable keccak : bytes -> bytes.

(** [Keccak256] writes its arguments in order and hashes the whole. *)
Definition Keccak256 (data : list bytes) : bytes :=
  keccak (fold_left (fun h b => h ++ b) data []).

Definition AddressBytes (x y : Z) : result CryptoErr bytes :=
  let! m := MarshalPubkey x y in
  let! body := slice m 1 (len m) in
  let h := Keccak256 [ body ] in
  slice h 12 (len h).

(** The loop of [ChecksumAddress]: [hash[i]] is read only for a letter. *)
Fixpoint checksum_loop (lower hash : bytes) : result CryptoErr bytes :=
  match lower with
  | [] => Ok []
  | c :: lower =>
      let! c' :=
        (if (97 <=? c) && (c <=? 102) then
           let! h := index hash 0 in Ok (if 56 <=? h then c - 32 else c)
         else Ok c) in
      let! out := checksum_loop lower (tail hash) in
      Ok (c' :: out)
  end.

Definition ChecksumAddress (addr : bytes) : result CryptoErr string :=
  let lower := to_bytes (hex_encode addr) in
  let hash := to_bytes (hex_encode (Keccak256 [ lower ])) in
  let! out := checksum_loop lower hash in
  Ok (of_bytes (48 :: 120 :: out)).

Definition Address (x y : Z) : result CryptoErr string :=
  let! a := AddressBytes x y in ChecksumAddress a.

Definition PubkeyToAddress (x y : Z) : result CryptoErr string := Address x y.

(** ** Signatures *)

(** [btcecdsa.SignCompact(key, digest, false)] *)
Variable signCompact : Z -> bytes -> bytes.
(** [btcecdsa.RecoverCompact(compact, digest)] *)
Variable recoverCompact : bytes -> bytes -> option (Z * Z).

Definition Sign (digest : bytes) (priv : PrivateKey) : result CryptoErr bytes :=
  refuse! negb (len digest =? 32) with DigestLength (len digest);
  let! key := fill_bytes 32 (privD priv) in
  let compact := signCompact (be_val key) digest in
  refuse! negb (len compact =? SignatureLength) with CompactLength (len compact);
  let! rs := slice compact 1 65 in
  let! v := index compact 0 in
  Ok (rs ++ [ u8 (v - 27) ]).

(** The recovery byte with the 27/28 spelling folded into 0/1. *)
Definition recoveryId (b : Z) : Z := if 27 <=? b then u8 (b - 27) else b.

Definition SigToPub (digest sig : bytes) : result CryptoErr (Z * Z) :=
  refuse! negb (len digest =? 32) with DigestLength (len digest);
  refuse! negb (len sig =? SignatureLength) with SigLength (len sig);
  let! b := index sig 64 in
  let v := recoveryId b in
  refuse! 1 <? v with BadRecoveryId b;
  let! rs := slice sig 0 64 in
  match recoverCompact (u8 (v + 27) :: rs) digest with
  | None => Err RecoverFailed
  | Some p => Ok p
  end.

Definition RecoverAddress (digest sig : bytes) : result CryptoErr string :=
  let! p := SigToPub digest sig in
  Address (fst p) (snd p).
End Hashing.

Section Verify.
(** btcec: point parsing, scalar loading (value, overflow), the half-order
    test and the verification equation. *)
Variable pubKey : Type.
Variable parsePubKey : bytes -> option pubKey.
Variable setByteSlice : bytes -> Z * bool.
Variable isOverHalfOrder : Z -> bool.
Variable verify : Z -> Z -> bytes -> pubKey -> bool.

Definition VerifySignature (pubkey digest sig : bytes) : bool :=
  if negb (len sig =? 64) || negb (len digest =? 32) then false
  else
    match parsePubKey pubkey with
    | None => false
    | Some pub =>
        let '(r, overflow_r) := setByteSlice (take 32 sig) in
        if overflow_r then false
        else
          let '(s, overflow_s) := setByteSlice (drop 32 sig) in
          if overflow_s then false
          else if isOverHalfOrder s then false
          else verify r s digest pub
    end.
End Verify.

(** ** Lemmas *)

Lemma fill32 v b : 0 <= v -> @fill_bytes CryptoErr 32 v = Ok b -> len b = 32 /\ be_val b = v /\ bytes_ok b.
Proof.
  intros Hv H; apply fill_bytes_spec in H as (L & V & O); [ | done ].
  unfold len; rewrite L; done.
Qed.

Lemma MarshalPubkey_ok x y m :
  0 <= x -> 0 <= y -> MarshalPubkey x y = Ok m ->
  exists xb yb, m = 4 :: xb ++ yb /\ len xb = 32 /\ len yb = 32 /\
    be_val xb = x /\ be_val yb = y /\ bytes_ok xb /\ bytes_ok yb.
Proof.
  unfold MarshalPubkey; intros Hx Hy H; inv_ok.
  match goal with E : fill_bytes 32 x = Ok _ |- _ => apply fill32 in E as (? & ? & ?); [ | done ] end.
  match goal with E : fill_bytes 32 y = Ok _ |- _ => apply fill32 in E as (? & ? & ?); [ | done ] end.
  eexists _, _; split_and!; eauto.
Qed.

Lemma MarshalPubkey_fits x y :
  0 <= x < 256 ^ 32 -> 0 <= y < 256 ^ 32 -> exists m, MarshalPubkey x y = Ok m.
Proof.
  intros Hx Hy; unfold MarshalPubkey.
  destruct (fill_bytes_fits (E := CryptoErr) 32 x Hx) as [ xb -> ].
  destruct (fill_bytes_fits (E := CryptoErr) 32 y Hy) as [ yb -> ]; cbn; eauto.
Qed.

(** Case-changing a hexadecimal digit does not change what it denotes. *)
Lemma hex_value_upper c :
  97 <= chr c <= 102 -> hex_value (asc (chr c - 32)) = hex_value c.
Proof.
  intros H; unfold hex_value; rewrite chr_asc by lia.
  replace (chr c - 32 <=? 57) with false by lia; replace (97 <=? chr c - 32) with false by lia.
  replace (65 <=? chr c - 32) with true by lia; replace (chr c - 32 <=? 70) with true by lia.
  replace (chr c <=? 57) with false by lia; replace (97 <=? chr c) with true by lia.
  replace (chr c <=? 102) with true by lia; rewrite !andb_false_r; cbn [andb]; f_equal; lia.
Qed.

(** Two strings of hexadecimal digits that denote the same thing. *)
Fixpoint same_hex (s t : string) : Prop :=
  match s, t with
  | EmptyString, EmptyString => True
  | String a s, String b t => hex_value a = hex_value b /\ same_hex s t
  | _, _ => False
  end.

Lemma same_hex_length s t : same_hex s t -> String.length s = String.length t.
Proof. revert t; induction s; intros [ | b t ] H; cbn in *; try done; f_equal; apply IHs; tauto. Qed.

Lemma same_hex_decode s t : same_hex s t -> hex_decode s = hex_decode t.
Proof.
  revert t; induction s as [ | a | a b s IH ] using string_pair_ind;
    intros [ | a' [ | b' t ] ] H; cbn [same_hex] in H; try tauto.
  destruct H as (Ha & Hb & H); cbn [hex_decode]; rewrite Ha, Hb, (IH t H); done.
Qed.

Lemma checksum_loop_spec s hash :
  (String.length s <= length hash)%nat ->
  exists out, checksum_loop (to_bytes s) hash = Ok (to_bytes out) /\ same_hex s out.
Proof.
  revert hash; induction s as [ | c s IH ]; intros hash Hl.
  { exists EmptyString; done. }
  destruct hash as [ | h hash ]; [ cbn in Hl; lia | ].
  destruct (IH hash) as (out & E & Hs); [ cbn in Hl; lia | ].
  cbn [to_bytes checksum_loop tail].
  destruct ((97 <=? chr c) && (chr c <=? 102)) eqn:C; [ rewrite index_0 | ];
    cbn [result_bind]; rewrite E; cbn [result_bind]; [ destruct (56 <=? h) | ].
  - b2p; exists (String (asc (chr c - 32)) out); cbn [to_bytes same_hex].
    rewrite chr_asc, hex_value_upper by (pose proof (chr_range c); lia); done.
  - exists (String c out); done.
  - exists (String c out); done.
Qed.

Lemma ChecksumAddress_spec keccak addr :
  (forall b, length (keccak b) = 32%nat) -> (length addr <= 32)%nat ->
  exists out, ChecksumAddress keccak addr = Ok (String "0" (String "x" out))
    /\ same_hex (hex_encode addr) out.
Proof.
  intros Hk Ha; unfold ChecksumAddress.
  destruct (checksum_loop_spec (hex_encode addr)
    (to_bytes (hex_encode (Keccak256 keccak [ to_bytes (hex_encode addr) ]))))
    as (out & -> & Hs).
  { assert (forall t, length (to_bytes t) = String.length t) as ->
      by (induction t; cbn; congruence).
    rewrite !hex_encode_length; unfold Keccak256; rewrite Hk; lia. }
  exists out; cbn [result_bind of_bytes]; rewrite of_to_bytes; done.
Qed.

Lemma ParseAddress_0x t : ParseAddress (String "0" (String "x" t))
  = if negb (slen t =? 40) then Err (AddressLength (slen t))
    else match hex_decode t with None => Err AddressNotHex | Some raw => Ok raw end.
Proof. reflexivity. Qed.

Lemma ParseAddress_ok s raw : ParseAddress s = Ok raw -> len raw = 20 /\ bytes_ok raw.
Proof.
  unfold ParseAddress; intros H; destruct (negb _) eqn:L; [ done | ].
  destruct (hex_decode (strip0x s)) eqn:D; [ | done ]; injection H as ->; b2p.
  apply hex_decode_spec in D as [ O E ]; unfold slen, len in *; split; [ lia | done ].
Qed.

(** A checksummed address parses back to the bytes it was made from. *)
Lemma ParseAddress_Checksum keccak addr :
  (forall b, length (keccak b) = 32%nat) -> bytes_ok addr -> len addr = 20 ->
  exists s, ChecksumAddress keccak addr = Ok s /\ ParseAddress s = Ok addr.
Proof.
  intros Hk Ho Hl; unfold len in Hl.
  destruct (ChecksumAddress_spec keccak addr Hk) as (out & E & Hs); [ lia | ].
  eexists; split; [ exact E | ]; rewrite ParseAddress_0x.
  pose proof (same_hex_length _ _ Hs) as L; rewrite hex_encode_length in L.
  unfold slen; replace (Z.of_nat (String.length out) =? 40) with true by lia; cbn [negb].
  rewrite <- (same_hex_decode _ _ Hs), hex_decode_encode; done.
Qed.

Lemma AddressBytes_ok keccak x y :
  (forall b, length (keccak b) = 32%nat) -> (forall b, bytes_ok (keccak b)) ->
  0 <= x < 256 ^ 32 -> 0 <= y < 256 ^ 32 ->
  exists a, AddressBytes keccak x y = Ok a /\ len a = 20 /\ bytes_ok a.
Proof.
  intros Hk Hb Hx Hy; unfold AddressBytes.
  destruct (MarshalPubkey_fits x y Hx Hy) as [ m Hm ]; rewrite Hm; cbn [result_bind].
  destruct (MarshalPubkey_ok x y m) as (xb & yb & -> & _); [ lia | lia | done | ].
  assert (slice (E := CryptoErr) (4 :: xb ++ yb) 1 (len (4 :: xb ++ yb)) = Ok (xb ++ yb)) as ->.
  { unfold slice; pose proof (len_nonneg (xb ++ yb)); rewrite len_cons.
    replace (1 <=? 1 + len (xb ++ yb)) with true by lia; rewrite Z.leb_refl; cbn [Z.leb andb].
    f_equal; change (Z.to_nat 1) with 1%nat; cbn [drop]; apply take_ge; unfold len; lia. }
  cbn [result_bind]; set (h := Keccak256 _ _).
  assert (len h = 32) as L by (unfold len, h, Keccak256; rewrite Hk; done).
  assert (bytes_ok h) as Hh by apply Hb.
  unfold slice; rewrite L; cbn; eexists; split; [ done | split ].
  - unfold len in *; rewrite length_take, length_drop; lia.
  - apply Forall_take, Forall_drop; done.
Qed.

(** ** Properties *)

(** EIP-55 round trip: whatever the hash, the checksummed rendering of a
    20-byte address parses back to exactly that address. *)
Theorem checksum_address_roundtrip keccak addr :
  (forall b, length (keccak b) = 32%nat) -> bytes_ok addr -> len addr = 20 ->
  exists s, ChecksumAddress keccak addr = Ok s /\ slen s = 42 /\
            ParseAddress s = Ok addr /\ IsHexAddress s = true.
Proof.
  intros Hk Ho Hl; destruct (ParseAddress_Checksum keccak addr Hk Ho Hl) as (s & E & P).
  exists s; unfold IsHexAddress; rewrite P; split_and!; auto.
  unfold len in Hl; destruct (ChecksumAddress_spec keccak addr Hk) as (out & E2 & Hs); [ lia | ].
  rewrite E in E2; injection E2 as ->; apply same_hex_length in Hs.
  rewrite hex_encode_length in Hs; unfold slen; cbn [String.length]; lia.
Qed.

Lemma checksum_address_roundtrip_witness :
  exists s, ChecksumAddress (fun _ => replicate 32 128) (replicate 20 171) = Ok s /\ slen s = 42 /\
            ParseAddress s = Ok (replicate 20 171) /\ IsHexAddress s = true.
Proof.
  apply (checksum_address_roundtrip (fun _ => replicate 32 128)); [ reflexivity | | reflexivity ].
  apply Forall_replicate; unfold byte_ok; lia.
Defined.

(** Private keys: a 32-byte scalar in [1, n-1] survives hex, parsing and
    export unchanged; zero and anything at or above the group order is refused. *)
Theorem private_key_roundtrip mult raw :
  bytes_ok raw -> len raw = 32 ->
  (1 <= be_val raw < curveN ->
     exists k, HexToECDSA mult (hex_encode raw) = Ok k /\ privD k = be_val raw
               /\ FromECDSA (Some k) = Ok raw)
  /\ (~ 1 <= be_val raw < curveN -> HexToECDSA mult (hex_encode raw) = Err KeyOutOfRange).
Proof.
  intros Ho Hl; unfold HexToECDSA; rewrite hex_decode_encode, Hl by done; cbn [Z.eqb negb].
  change (negb (Z.pos 32 =? 32)) with false; pose proof (be_val_bound raw Ho) as B.
  split; intros H.
  - replace ((be_val raw =? 0) || (curveN <=? be_val raw)) with false by lia.
    eexists; split; [ done | ]; unfold privFromD; destruct (mult _) as [ x y ].
    cbn [privD FromECDSA]; split; [ done | ].
    destruct (fill_bytes_fits (E := CryptoErr) 32 (be_val raw)) as [ b Hb ].
    { rewrite Hl in B; exact B. }
    rewrite Hb; destruct (fill32 (be_val raw) b) as (L & V & O); [ lia | done | ].
    f_equal; apply be_val_inj_len; auto; lia.
  - replace ((be_val raw =? 0) || (curveN <=? be_val raw)) with true by lia; done.
Qed.

Lemma private_key_roundtrip_witness :
  exists k, HexToECDSA (fun _ => (0, 0)) (hex_encode (replicate 32 17)) = Ok k
    /\ privD k = be_val (replicate 32 17) /\ FromECDSA (Some k) = Ok (replicate 32 17).
Proof.
  apply (private_key_roundtrip (fun _ => (0, 0)) (replicate 32 17)); [ | reflexivity | ].
  - apply Forall_replicate; unfold byte_ok; lia.
  - vm_compute; split; [ discriminate | reflexivity ].
Defined.

(** A verified signature is the low-S one: of the pair [(r, s)] and
    [(r, n - s)], which satisfy the same equation, at most one is accepted. *)
Theorem verify_rejects_malleated pubKey (parse : bytes -> option pubKey) load half verify pk d r s s' :
  (forall b, load b = (be_val b mod curveN, curveN <=? be_val b)) ->
  (forall v, half v = (curveN / 2 <? v)) ->
  len r = 32 -> len s = 32 -> len s' = 32 -> bytes_ok s -> be_val s' = curveN - be_val s ->
  VerifySignature pubKey parse load half verify pk d (r ++ s) = true ->
  be_val s <= curveN / 2 /\ VerifySignature pubKey parse load half verify pk d (r ++ s') = false.
Proof.
  intros Hload Hhalf Lr Ls Ls' Hs E; unfold VerifySignature; rewrite !len_app, Lr, Ls, Ls'.
  assert (forall q, take 32 (r ++ q) = r /\ drop 32 (r ++ q) = q) as T.
  { intros q; assert (32%nat = length r) as -> by (unfold len in Lr; lia).
    rewrite take_app_length, drop_app_length; done. }
  destruct (T s) as [ -> -> ], (T s') as [ -> -> ]; cbn [negb Z.eqb orb Z.add].
  destruct (negb _ || _); [ done | ]; destruct (parse pk); [ | done ].
  rewrite !Hload; destruct (curveN <=? be_val r); [ done | ].
  destruct (curveN <=? be_val s) eqn:C; [ done | ]; rewrite !Hhalf; b2p.
  destruct (curveN / 2 <? be_val s mod curveN) eqn:Q; [ done | ]; intros _; b2p.
  pose proof (be_val_bound s Hs); rewrite Z.mod_small in Q by lia.
  split; [ done | ]; destruct (curveN <=? be_val s') eqn:C'; [ done | ]; b2p.
  rewrite Z.mod_small by lia.
  replace (curveN / 2 <? be_val s') with true; [ done | ].
  rewrite E; symmetry; apply Z.ltb_lt.
  assert (curveN = 2 * (curveN / 2) + 1) by reflexivity; lia.
Qed.

Lemma verify_rejects_malleated_witness :
  let load b := (be_val b mod curveN, curveN <=? be_val b) in
  let half v := (curveN / 2 <? v) in
  let r := replicate 31 0 ++ [ 9 ] in
  let s := replicate 31 0 ++ [ 5 ] in
  let s' := replicate (32 - length (big_bytes (curveN - 5))) 0 ++ big_bytes (curveN - 5) in
  be_val s <= curveN / 2 /\
  VerifySignature unit (fun _ => Some tt) load half (fun _ _ _ _ => true) []
    (replicate 32 1) (r ++ s') = false.
Proof.
  intros load half r s s'.
  apply (verify_rejects_malleated unit (fun _ => Some tt) load half (fun _ _ _ _ => true) []
           (replicate 32 1) r s s'); try reflexivity.
  solve_bytes.
Defined.

End EthCrypto.
