(* ===== verification/EthTx.v ===== *)
(** * Building, signing and reading back Ethereum transactions

    Models [services/mpc-signer/internal/ethtypes/transaction.go] and the
    transaction half of [decode.go] (copied verbatim into settlement and
    temporal-worker).  The bytes produced here are what a key signs and what
    is broadcast, so the theorems are about those bytes: reading a signed
    transaction back yields the transaction that was signed, and two
    transactions with the same signing hash are the same transaction unless
    Keccak itself collides. *)

From Stdlib Require Import ZArith Lia String.
From stdpp Require Import base list numbers strings.
From S2P Require Import Prelude GoStrings Rlp EthCrypto.
Import Rlp EthCrypto.

Open Scope Z_scope.

Module EthTx.

(** ** Data *)

Definition DynamicFeeTxType : Z := 2.

Record Transaction := {
  ChainID : option Z;
  Nonce : Z;
  Gas : Z;
  GasPrice : option Z;
  MaxFee : option Z;
  Tip : option Z;
  To : option bytes;
  Value : option Z;
  Data : bytes;
}.

Record SignedTransaction := { Raw : bytes; Hash : bytes; From : string }.

Record SignedTxInfo := {
  infoType : Z;
  infoHash : bytes;
  infoNonce : Z;
  infoGas : Z;
  infoValue : Z;
  infoTo : option bytes;
  infoChainID : option Z;
}.

Inductive TxErr : Type :=
| MissingChainID
| BothFeeModels
| NoFeeModel
| IncompleteDynamicFee
| RecipientLength (n : Z)
| NegativeValue
| SignatureLen (n : Z)
| Unrecoverable (e : CryptoErr)
| WrongSigner (from expected : string)
| EmptyTransaction
| UnsupportedType (t : Z)
| FieldCount (want got : Z)
| BadRlp (e : RlpErr).

(** ** Operations *)

Definition is_some {A} (o : option A) : bool := match o with Some _ => true | None => false end.

Definition IsDynamic (t : Transaction) : bool := is_some (MaxFee t) || is_some (Tip t).

Definition validate (t : Transaction) : result TxErr unit :=
  refuse! (match ChainID t with None => true | Some c => c <=? 0 end) with MissingChainID;
  let legacy := is_some (GasPrice t) in
  let dynamic := IsDynamic t in
  refuse! legacy && dynamic with BothFeeModels;
  refuse! negb legacy && negb dynamic with NoFeeModel;
  refuse! dynamic && (negb (is_some (MaxFee t)) || negb (is_some (Tip t))) with IncompleteDynamicFee;
  refuse! (match To t with Some a => negb (len a =? 20) | None => false end)
    with RecipientLength (match To t with Some a => len a | None => 0 end);
  refuse! (match Value t with Some v => v <? 0 | None => false end) with NegativeValue;
  Ok tt.

Definition toField (t : Transaction) : bytes :=
  match To t with None => rlpString [] | Some a => rlpString a end.

(** The bytes [SigningHash] hashes: the type byte and nine fields for
    EIP-1559, nine fields ending in chain id, 0, 0 for EIP-155. *)
Definition signingPayload (t : Transaction) : result TxErr bytes :=
  if IsDynamic t then
    let! chain := rlpBig (ChainID t) in
    let! tip := rlpBig (Tip t) in
    let! maxFee := rlpBig (MaxFee t) in
    let! value := rlpBig (Value t) in
    Ok (DynamicFeeTxType :: rlpList (concat
      [ chain; rlpUint (Nonce t); tip; maxFee; rlpUint (Gas t); toField t; value;
        rlpString (Data t); rlpList [] ]))
  else
    let! gasPrice := rlpBig (GasPrice t) in
    let! value := rlpBig (Value t) in
    let! chain := rlpBig (ChainID t) in
    Ok (rlpList (concat
      [ rlpUint (Nonce t); gasPrice; rlpUint (Gas t); toField t; value;
        rlpString (Data t); chain; rlpUint 0; rlpUint 0 ])).

(** The broadcastable bytes [WithSignature] builds from [r], [s] and the
    recovery id. *)
Definition signedPayload (t : Transaction) (r s recovery : Z) : result TxErr bytes :=
  if IsDynamic t then
    let! chain := rlpBig (ChainID t) in
    let! tip := rlpBig (Tip t) in
    let! maxFee := rlpBig (MaxFee t) in
    let! value := rlpBig (Value t) in
    let! rb := rlpBig (Some r) in
    let! sb := rlpBig (Some s) in
    Ok (DynamicFeeTxType :: rlpList (concat
      [ chain; rlpUint (Nonce t); tip; maxFee; rlpUint (Gas t); toField t; value;
        rlpString (Data t); rlpList []; rlpUint recovery; rb; sb ]))
  else
    (* a nil ChainID would be dereferenced here; [validate] has refused it *)
    let v := u64 (recovery + 35) + default 0 (ChainID t) * 2 in
    let! gasPrice := rlpBig (GasPrice t) in
    let! value := rlpBig (Value t) in
    let! vb := rlpBig (Some v) in
    let! rb := rlpBig (Some r) in
    let! sb := rlpBig (Some s) in
    Ok (rlpList (concat
      [ rlpUint (Nonce t); gasPrice; rlpUint (Gas t); toField t; value;
        rlpString (Data t); vb; rb; sb ])).

Definition addressOrNil (b : bytes) : option bytes :=
  match b with [] => None | _ => Some b end.

Section Keccak.
Variable keccak : bytes -> bytes.
Variable recoverCompact : bytes -> bytes -> option (Z * Z).

Definition SigningHash (t : Transaction) : result TxErr bytes :=
  let! _u := validate t in
  let! payload := signingPayload t in
  Ok (Keccak256 keccak [ payload ]).

Definition WithSignature (t : Transaction) (sig : bytes) (expectedFrom : string)
  : result TxErr SignedTransaction :=
  let! _u := validate t in
  refuse! negb (len sig =? SignatureLength) with SignatureLen (len sig);
  let! digest := SigningHash t in
  let! from := map_err Unrecoverable (RecoverAddress keccak recoverCompact digest sig) in
  refuse! negb (String.eqb expectedFrom EmptyString) && negb (equalAddress from expectedFrom)
    with WrongSigner from expectedFrom;
  let! rb := slice sig 0 32 in
  let! sb := slice sig 32 64 in
  let! b := index sig 64 in
  let recovery := recoveryId b in
  let! raw := signedPayload t (be_val rb) (be_val sb) recovery in
  Ok {| Raw := raw; Hash := Keccak256 keccak [ raw ]; From := from |}.

Definition TransactionHash (raw : bytes) : bytes := Keccak256 keccak [ raw ].

Definition DecodeSignedTransaction (raw : bytes) : result TxErr SignedTxInfo :=
  match raw with
  | [] => Err EmptyTransaction
  | t0 :: tl =>
      let typed := t0 <? 192 in
      refuse! typed && negb (t0 =? DynamicFeeTxType) with UnsupportedType t0;
      let body := if typed then tl else raw in
      let! items := map_err BadRlp (splitList body) in
      if typed && (t0 =? DynamicFeeTxType) then
        match items with
        | [ chain; nonce; _; _; gas; to; value; _; _; _; _; _ ] =>
            Ok {| infoType := t0; infoHash := TransactionHash raw; infoNonce := beUint nonce;
                  infoGas := beUint gas; infoValue := be_val value;
                  infoTo := addressOrNil to; infoChainID := Some (be_val chain) |}
        | _ => Err (FieldCount 12 (len items))
        end
      else
        match items with
        | [ nonce; _; gas; to; value; _; v; _; _ ] =>
            Ok {| infoType := 0; infoHash := TransactionHash raw; infoNonce := beUint nonce;
                  infoGas := beUint gas; infoValue := be_val value;
                  infoTo := addressOrNil to;
                  infoChainID :=
                    if 35 <=? be_val v then Some (Z.shiftr (be_val v - 35) 1) else None |}
        | _ => Err (FieldCount 9 (len items))
        end
  end.
End Keccak.

(** ** Transactions as lists of RLP items *)

Definition toPayload (t : Transaction) : bytes := default [] (To t).

Definition amount (o : option Z) : bytes := big_bytes (default 0 o).

Definition dynamicItems (t : Transaction) (tl : list item) : list item :=
  [ Str (amount (ChainID t)); Str (bigEndian (Nonce t)); Str (amount (Tip t));
    Str (amount (MaxFee t)); Str (bigEndian (Gas t)); Str (toPayload t);
    Str (amount (Value t)); Str (Data t); Lst [] ] ++ tl.

Definition legacyItems (t : Transaction) (tl : list item) : list item :=
  [ Str (bigEndian (Nonce t)); Str (amount (GasPrice t)); Str (bigEndian (Gas t));
    Str (toPayload t); Str (amount (Value t)); Str (Data t) ] ++ tl.

(** The machine-level well-formedness of a transaction value. *)
Definition tx_ok (t : Transaction) : Prop :=
  in_u64 (Nonce t) /\ in_u64 (Gas t) /\ bytes_ok (Data t) /\ bytes_ok (toPayload t).

Lemma rlpBig_ok {E} o b : @rlpBig E o = Ok b -> b = rlpString (amount o) /\ 0 <= default 0 o.
Proof.
  unfold rlpBig, amount; destruct o as [ v | ]; cbn; intros H; [ | simplify_eq; done ].
  destruct (v <? 0) eqn:Hv; [ done | ]; simplify_eq; b2p; done.
Qed.

Lemma toField_payload t : toField t = rlpString (toPayload t).
Proof. unfold toField, toPayload; destruct (To t); done. Qed.

Ltac inv_big :=
  repeat match goal with
  | E : rlpBig _ = Ok _ |- _ => apply rlpBig_ok in E as [ ? ? ]
  end; subst.

Lemma signingPayload_items t p :
  signingPayload t = Ok p ->
  if IsDynamic t then p = 2 :: rlpList (concat (encode_item <$> dynamicItems t []))
  else p = rlpList (concat (encode_item <$>
         legacyItems t [ Str (amount (ChainID t)); Str (bigEndian 0); Str (bigEndian 0) ])).
Proof.
  unfold signingPayload; destruct (IsDynamic t); intros H; inv_ok; inv_big;
    rewrite toField_payload; reflexivity.
Qed.

Lemma signedPayload_items t r s v p :
  signedPayload t r s v = Ok p ->
  if IsDynamic t
  then p = 2 :: rlpList (concat (encode_item <$>
         dynamicItems t [ Str (bigEndian v); Str (big_bytes r); Str (big_bytes s) ]))
  else p = rlpList (concat (encode_item <$>
         legacyItems t [ Str (big_bytes (u64 (v + 35) + default 0 (ChainID t) * 2));
                         Str (big_bytes r); Str (big_bytes s) ])).
Proof.
  unfold signedPayload; destruct (IsDynamic t); intros H; inv_ok; inv_big;
    rewrite toField_payload; reflexivity.
Qed.

(** Every item is at most as long as the list that holds it. *)
Lemma item_payload_le i : len (item_payload i) <= len (encode_item i).
Proof.
  destruct i as [ b | p ]; cbn [item_payload encode_item].
  - destruct (rlpString_cases b) as [ (x & -> & _ & ->) | -> ]; [ done | ].
    rewrite len_app; pose proof (len_nonneg (rlpLengthPrefix (len b) 128)); lia.
  - unfold rlpList; rewrite len_app; pose proof (len_nonneg (rlpLengthPrefix (len p) 192)); lia.
Qed.

Lemma items_ok items :
  Forall (fun i => bytes_ok (item_payload i)) items ->
  len (concat (encode_item <$> items)) < two63 -> Forall item_ok items.
Proof.
  induction 1 as [ | i items Hi _ IH ]; [ constructor | ]; cbn [fmap list_fmap].
  rewrite concat_cons, len_app; intros Hl; pose proof (item_payload_le i).
  pose proof (len_nonneg (concat (encode_item <$> items))); pose proof (len_nonneg (encode_item i)).
  constructor; [ split; [ done | lia ] | apply IH; lia ].
Qed.

Lemma rlpList_small p : len (rlpList p) < two63 -> len p < two63.
Proof. pose proof (item_payload_le (Lst p)) as H; cbn in H; lia. Qed.

Lemma splitList_items items :
  Forall (fun i => bytes_ok (item_payload i)) items ->
  len (rlpList (concat (encode_item <$> items))) < two63 ->
  splitList (rlpList (concat (encode_item <$> items))) = Ok (item_payload <$> items).
Proof.
  intros Hok Hl%rlpList_small.
  apply splitList_encoded; [ apply items_ok | ]; done.
Qed.

Lemma dynamicItems_bytes t tl :
  tx_ok t -> Forall (fun i => bytes_ok (item_payload i)) tl ->
  Forall (fun i => bytes_ok (item_payload i)) (dynamicItems t tl).
Proof.
  intros (_ & _ & Hd & Ht) H; repeat constructor; cbn [item_payload]; auto;
    apply bigEndian_ok || apply big_bytes_ok || constructor.
Qed.

Lemma legacyItems_bytes t tl :
  tx_ok t -> Forall (fun i => bytes_ok (item_payload i)) tl ->
  Forall (fun i => bytes_ok (item_payload i)) (legacyItems t tl).
Proof.
  intros (_ & _ & Hd & Ht) H; repeat constructor; cbn [item_payload]; auto;
    apply bigEndian_ok || apply big_bytes_ok || constructor.
Qed.

(** The nine or twelve fields share their head: splitting two encodings of
    the same form that are equal gives equal payloads. *)
Lemma rlpList_items_inj items items' :
  Forall (fun i => bytes_ok (item_payload i)) items ->
  Forall (fun i => bytes_ok (item_payload i)) items' ->
  len (rlpList (concat (encode_item <$> items))) < two63 ->
  rlpList (concat (encode_item <$> items)) = rlpList (concat (encode_item <$> items')) ->
  item_payload <$> items = item_payload <$> items'.
Proof.
  intros H H' Hl E.
  pose proof (splitList_items items H Hl) as S; rewrite E in Hl, S.
  rewrite (splitList_items items' H' Hl) in S; congruence.
Qed.

(** ** What validation and signing establish *)

Record valid_tx (t : Transaction) : Prop := {
  valid_chain : exists c, ChainID t = Some c /\ 0 < c;
  valid_fees :
    if IsDynamic t
    then GasPrice t = None /\ is_some (MaxFee t) = true /\ is_some (Tip t) = true
    else is_some (GasPrice t) = true /\ MaxFee t = None /\ Tip t = None;
  valid_to : To t = None \/ exists a, To t = Some a /\ len a = 20;
  valid_value : 0 <= default 0 (Value t);
}.

Lemma validate_valid t u : validate t = Ok u -> valid_tx t.
Proof.
  unfold validate; intros H; inv_ok.
  destruct (ChainID t) as [ c | ] eqn:Ec; [ b2p | done ].
  constructor; rewrite ?Ec.
  - exists c; split; [ done | lia ].
  - unfold IsDynamic in *; destruct (GasPrice t), (MaxFee t), (Tip t); cbn in *; done.
  - destruct (To t) as [ a | ]; [ right | left; done ].
    exists a; b2p; done.
  - destruct (Value t) as [ v | ]; cbn; [ b2p; done | done ].
Qed.

Lemma valid_validate t : valid_tx t -> validate t = Ok tt.
Proof.
  intros [ (c & Ec & Hc) Hf Ht Hv ]; unfold validate; rewrite Ec.
  replace (c <=? 0) with false by lia.
  assert (is_some (GasPrice t) = negb (IsDynamic t)) as ->
    by (destruct (IsDynamic t); destruct Hf as (Hg & _); [ rewrite Hg | rewrite Hg ]; done).
  assert (IsDynamic t && (negb (is_some (MaxFee t)) || negb (is_some (Tip t))) = false) as ->
    by (destruct (IsDynamic t); [ destruct Hf as (_ & -> & ->) | ]; done).
  assert ((match To t with Some a => negb (len a =? 20) | None => false end) = false) as ->
    by (destruct Ht as [ -> | (a & -> & ->) ]; done).
  assert ((match Value t with Some v => v <? 0 | None => false end) = false) as ->
    by (destruct (Value t); cbn in Hv; [ lia | done ]).
  destruct (IsDynamic t); done.
Qed.

Lemma addressOrNil_payload t : valid_tx t -> addressOrNil (toPayload t) = To t.
Proof.
  intros [ _ _ [ E | (a & E & L) ] _ ]; unfold toPayload; rewrite E; cbn; [ done | ].
  destruct a; [ rewrite (@len_nil Z) in L; lia | done ].
Qed.

Lemma recoveryId_bound b : byte_ok b -> 0 <= recoveryId b.
Proof. unfold byte_ok, recoveryId; intros; destruct (27 <=? b); [ apply u8_range | lia ]. Qed.

Lemma index_byte {E} sig i b : bytes_ok sig -> @index E Z sig i = Ok b -> byte_ok b.
Proof.
  unfold index; intros Hok H; destruct (0 <=? i); [ | done ].
  destruct (sig !! Z.to_nat i) eqn:L; [ simplify_eq | done ].
  eapply Forall_lookup_1; eauto.
Qed.

(** A signature that recovers to an address carries recovery id 0 or 1. *)
Lemma RecoverAddress_recovery keccak rec digest sig a :
  bytes_ok sig -> RecoverAddress keccak rec digest sig = Ok a ->
  exists b, index (E := TxErr) sig 64 = Ok b /\ 0 <= recoveryId b <= 1.
Proof.
  unfold RecoverAddress, SigToPub; intros Hok H; inv_ok.
  match goal with E : index sig 64 = Ok ?b |- _ => exists b; rename E into Hi end.
  split; [ unfold index in *; destruct (0 <=? 64); [ | done ]; destruct (sig !! _); simplify_eq; done | ].
  pose proof (recoveryId_bound _ (index_byte _ _ _ Hok Hi)); b2p; lia.
Qed.

Lemma WithSignature_ok keccak rec t sig expected st :
  bytes_ok sig -> WithSignature keccak rec t sig expected = Ok st ->
  valid_tx t /\ exists digest r s v,
    SigningHash keccak t = Ok digest /\
    RecoverAddress keccak rec digest sig = Ok (From st) /\
    (expected <> EmptyString -> equalAddress (From st) expected = true) /\
    0 <= v <= 1 /\ signedPayload t r s v = Ok (Raw st) /\
    Hash st = Keccak256 keccak [ Raw st ].
Proof.
  intros Hok H; unfold WithSignature in H; inv_ok.
  split; [ eapply validate_valid; eauto | ].
  match goal with E : RecoverAddress _ _ _ _ = Ok _ |- _ =>
    destruct (RecoverAddress_recovery _ _ _ _ _ Hok E) as (b & Hb & Hv) end.
  match goal with I : index sig 64 = Ok ?b0, S : signedPayload _ ?r ?s (recoveryId ?b0) = Ok _,
                  D : SigningHash _ _ = Ok ?d |- _ =>
    exists d, r, s, (recoveryId b0); assert (b0 = b) as -> by congruence end.
  split_and!; auto; try lia; intros Hne; match goal with E : _ && negb _ = false |- _ => rename E into F end.
  apply andb_false_iff in F as [ F | F ]; b2p; done.
Qed.

(** ** Reading back *)

Lemma decode_dynamic keccak t r s v :
  valid_tx t -> tx_ok t ->
  let raw := 2 :: rlpList (concat (encode_item <$>
    dynamicItems t [ Str (bigEndian v); Str (big_bytes r); Str (big_bytes s) ])) in
  len raw < two63 ->
  DecodeSignedTransaction keccak raw =
    Ok {| infoType := 2; infoHash := TransactionHash keccak raw; infoNonce := Nonce t;
          infoGas := Gas t; infoValue := default 0 (Value t); infoTo := To t;
          infoChainID := ChainID t |}.
Proof.
  intros Hval Hok raw Hl; unfold raw in Hl; rewrite len_cons in Hl.
  unfold DecodeSignedTransaction, raw at 1; change (2 <? 192) with true; cbn [andb].
  change (negb (2 =? DynamicFeeTxType)) with false; cbn iota.
  rewrite splitList_items; [ | apply dynamicItems_bytes; [ done | ] | lia ].
  2: { repeat constructor; cbn; apply bigEndian_ok || apply big_bytes_ok. }
  cbn [map_err result_bind fmap list_fmap dynamicItems app item_payload].
  change (2 =? DynamicFeeTxType) with true; cbn iota.
  rewrite addressOrNil_payload by done; destruct Hok as (Hn & Hg & _ & _).
  rewrite !beUint_bigEndian by done; unfold amount.
  destruct (valid_chain t Hval) as (c & -> & Hc); cbn [from_option].
  change (id c) with c; pose proof (valid_value t Hval) as Hvv.
  rewrite !be_val_big_bytes by lia; done.
Qed.

Lemma decode_legacy keccak t r s v :
  valid_tx t -> tx_ok t -> 0 <= v <= 1 ->
  let raw := rlpList (concat (encode_item <$>
    legacyItems t [ Str (big_bytes (u64 (v + 35) + default 0 (ChainID t) * 2));
                    Str (big_bytes r); Str (big_bytes s) ])) in
  len raw < two63 ->
  DecodeSignedTransaction keccak raw =
    Ok {| infoType := 0; infoHash := TransactionHash keccak raw; infoNonce := Nonce t;
          infoGas := Gas t; infoValue := default 0 (Value t); infoTo := To t;
          infoChainID := ChainID t |}.
Proof.
  intros Hval Hok Hv raw Hl; unfold DecodeSignedTransaction.
  assert (splitList raw = Ok (item_payload <$> legacyItems t
    [ Str (big_bytes (u64 (v + 35) + default 0 (ChainID t) * 2));
      Str (big_bytes r); Str (big_bytes s) ])) as Hs.
  { apply splitList_items; [ apply legacyItems_bytes; [ done | ] | exact Hl ].
    repeat constructor; cbn; apply big_bytes_ok. }
  destruct raw as [ | x l ] eqn:Eraw; [ exfalso | ].
  { unfold raw, rlpList in Eraw; revert Eraw; set (k := concat _).
    destruct (prefix_head (len k) 192) as (x & l & ->); done. }
  pose proof Eraw as Hx; unfold raw in Hx; apply rlpList_head in Hx.
  2: { apply rlpList_small; fold raw; rewrite Eraw; done. }
  replace (x <? 192) with false by lia; cbn [andb]; rewrite Hs.
  cbn [map_err result_bind fmap list_fmap legacyItems app item_payload].
  rewrite addressOrNil_payload by done; destruct Hok as (Hn & Hg & _ & _).
  rewrite !beUint_bigEndian by done; unfold amount.
  destruct (valid_chain t Hval) as (c & -> & Hc); cbn [from_option].
  change (id c) with c; pose proof (valid_value t Hval) as Hvv.
  rewrite (u64_id (v + 35)) by (unfold in_u64, two64; lia).
  rewrite !be_val_big_bytes by lia.
  replace (35 <=? v + 35 + c * 2) with true by lia.
  do 3 f_equal; rewrite Z.shiftr_div_pow2 by lia.
  symmetry; apply (Z.div_unique_pos _ _ _ v); lia.
Qed.

(** ** Comparing two encodings *)

Lemma signingPayload_nonneg t p :
  signingPayload t = Ok p -> 0 <= default 0 (ChainID t) /\ 0 <= default 0 (Value t) /\
  (if IsDynamic t then 0 <= default 0 (Tip t) /\ 0 <= default 0 (MaxFee t)
   else 0 <= default 0 (GasPrice t)).
Proof. unfold signingPayload; destruct (IsDynamic t); intros H; inv_ok; inv_big; auto. Qed.

Lemma amount_inj o o' :
  0 <= default 0 o -> 0 <= default 0 o' -> amount o = amount o' -> default 0 o = default 0 o'.
Proof. apply big_bytes_inj. Qed.

Lemma default_some_inj (o o' : option Z) :
  is_some o = true -> is_some o' = true -> default 0 o = default 0 o' -> o = o'.
Proof. destruct o, o'; cbn; congruence. Qed.

Lemma bigEndian_inj v w : in_u64 v -> in_u64 w -> bigEndian v = bigEndian w -> v = w.
Proof. intros Hv Hw E; rewrite <- (bigEndian_val v Hv), E; apply bigEndian_val, Hw. Qed.

Lemma toPayload_inj t u : valid_tx t -> valid_tx u -> toPayload t = toPayload u -> To t = To u.
Proof. intros Ht Hu E; rewrite <- (addressOrNil_payload t Ht), E; apply addressOrNil_payload, Hu. Qed.

Lemma chain_some t : valid_tx t -> is_some (ChainID t) = true.
Proof. intros [ (c & -> & _) _ _ _ ]; done. Qed.

(** The fields a signature covers. *)
Definition same_tx (t u : Transaction) : Prop :=
  ChainID t = ChainID u /\ Nonce t = Nonce u /\ Gas t = Gas u /\
  GasPrice t = GasPrice u /\ MaxFee t = MaxFee u /\ Tip t = Tip u /\
  To t = To u /\ default 0 (Value t) = default 0 (Value u) /\ Data t = Data u.

Lemma same_tx_intro t u :
  valid_tx t -> valid_tx u -> tx_ok t -> tx_ok u -> IsDynamic t = IsDynamic u ->
  default 0 (ChainID t) = default 0 (ChainID u) -> bigEndian (Nonce t) = bigEndian (Nonce u) ->
  bigEndian (Gas t) = bigEndian (Gas u) -> toPayload t = toPayload u ->
  default 0 (Value t) = default 0 (Value u) -> Data t = Data u ->
  (if IsDynamic t then default 0 (Tip t) = default 0 (Tip u)
                       /\ default 0 (MaxFee t) = default 0 (MaxFee u)
   else default 0 (GasPrice t) = default 0 (GasPrice u)) ->
  same_tx t u.
Proof.
  intros Vt Vu (Nt & Gt & _) (Nu & Gu & _) D C N G T V Da F.
  pose proof (valid_fees t Vt) as Ft; pose proof (valid_fees u Vu) as Fu; rewrite <- D in Fu.
  unfold same_tx; split_and!; auto using bigEndian_inj, toPayload_inj.
  - apply default_some_inj; auto using chain_some.
  - destruct (IsDynamic t); destruct Ft as (Ft & _), Fu as (Fu & _); [ congruence | ].
    apply default_some_inj; auto.
  - destruct (IsDynamic t); destruct Ft as (_ & Ft & _), Fu as (_ & Fu & _); [ | congruence ].
    apply default_some_inj; tauto.
  - destruct (IsDynamic t); destruct Ft as (_ & _ & Ft), Fu as (_ & _ & Fu); [ | congruence ].
    apply default_some_inj; tauto.
Qed.

Lemma signingPayload_inj t u p :
  valid_tx t -> valid_tx u -> tx_ok t -> tx_ok u ->
  signingPayload t = Ok p -> signingPayload u = Ok p -> len p < two63 -> same_tx t u.
Proof.
  intros Vt Vu Ot Ou Pt Pu Hl.
  pose proof (signingPayload_nonneg t p Pt) as (Ct & Qt & Ft).
  pose proof (signingPayload_nonneg u p Pu) as (Cu & Qu & Fu).
  apply signingPayload_items in Pt, Pu.
  destruct (IsDynamic t) eqn:Dt, (IsDynamic u) eqn:Du.
  - rewrite Pt in Pu, Hl; apply (f_equal (@tail Z)) in Pu as E; cbn [tail] in E; rewrite len_cons in Hl.
    apply rlpList_items_inj in E; [ | apply dynamicItems_bytes; auto .. | lia ].
    cbn [fmap list_fmap dynamicItems app item_payload] in E; injection E as E1 E2 E3 E4 E5 E6 E7 E8.
    apply same_tx_intro; rewrite ?Dt, ?Du; auto using amount_inj; split; apply amount_inj; tauto.
  - exfalso; rewrite Pu in Hl; apply rlpList_small in Hl.
    rewrite Pt in Pu; symmetry in Pu; apply rlpList_head in Pu; [ lia | done ].
  - exfalso; rewrite Pt in Hl; apply rlpList_small in Hl.
    rewrite Pu in Pt; symmetry in Pt; apply rlpList_head in Pt; [ lia | done ].
  - rewrite Pt in Pu, Hl.
    apply rlpList_items_inj in Pu; [ | apply legacyItems_bytes; auto .. | done ];
      [ | repeat constructor; cbn; apply big_bytes_ok || apply bigEndian_ok .. ].
    cbn [fmap list_fmap legacyItems app item_payload] in Pu; injection Pu as E1 E2 E3 E4 E5 E6 E7.
    apply same_tx_intro; rewrite ?Dt, ?Du; auto using amount_inj.
Qed.

(** ** Properties *)

Lemma WithSignature_decodes keccak rec t sig expected st :
  tx_ok t -> bytes_ok sig ->
  WithSignature keccak rec t sig expected = Ok st -> len (Raw st) < two63 ->
  DecodeSignedTransaction keccak (Raw st) =
    Ok {| infoType := if IsDynamic t then 2 else 0; infoHash := Hash st;
          infoNonce := Nonce t; infoGas := Gas t; infoValue := default 0 (Value t);
          infoTo := To t; infoChainID := ChainID t |}.
Proof.
  intros Hok Hsig H Hl.
  apply WithSignature_ok in H as (Hval & digest & r & s & v & _ & _ & _ & Hv & Hp & ->); [ | done ].
  apply signedPayload_items in Hp; destruct (IsDynamic t); rewrite Hp in Hl |- *.
  - apply decode_dynamic; done.
  - apply decode_legacy; done.
Qed.

(** ** What the broadcast bytes say *)

(** Numbers on the wire: big-endian, without leading zeros. *)
Definition numbers (fields : list bytes) (values : list Z) : Prop := map be_val fields = values /\ Forall minimal fields.

(** Field by field, in the order of EIP-1559 and of EIP-155: [raw] is
    the transaction [t] with the signature [r], [s] of parity [y]. *)
Definition says (t : Transaction) (r s y : Z) (raw : bytes) : Prop :=
  match MaxFee t, Tip t, GasPrice t, ChainID t with
  | Some fee, Some tip, None, Some chain => exists body c n p f g v yb rb sb, raw = 2 :: body /\
      splitList body = Ok [ c; n; p; f; g; default [] (To t); v; Data t; []; yb; rb; sb ] /\
      numbers [ c; n; p; f; g; v; yb; rb; sb ] [ chain; Nonce t; tip; fee; Gas t; default 0 (Value t); y; r; s ]
  | None, None, Some price, Some chain => exists n p g v w rb sb,
      splitList raw = Ok [ n; p; g; default [] (To t); v; Data t; w; rb; sb ] /\
      numbers [ n; p; g; v; w; rb; sb ] [ Nonce t; price; Gas t; default 0 (Value t); 35 + 2 * chain + y; r; s ]
  | _, _, _, _ => False
  end.

(** The signature's bytes: 32 and 32 big-endian, then the parity, bare or
    offset by 27. *)
Definition signature (sig : bytes) (r s y : Z) : Prop :=
  exists rb sb b, sig = rb ++ sb ++ [ b ] /\ len rb = 32 /\ len sb = 32 /\ r = be_val rb /\ s = be_val sb /\ (y = 0 \/ y = 1) /\ (b = y \/ b = 27 + y).

Lemma numbers_cons v n vs : 0 <= v -> numbers n vs -> numbers (big_bytes v :: n) (v :: vs).
Proof. intros H [ M F ]; split; [ cbn; rewrite be_val_big_bytes, M by done; done | constructor; [ apply big_bytes_minimal | done ] ]. Qed.

Lemma numbers_nil : numbers [] [].
Proof. split; [ done | constructor ]. Qed.

Lemma signedPayload_nonneg t r s y p : signedPayload t r s y = Ok p ->
  0 <= default 0 (Value t) /\ 0 <= r /\ 0 <= s /\ if IsDynamic t then 0 <= default 0 (Tip t) /\ 0 <= default 0 (MaxFee t) else 0 <= default 0 (GasPrice t).
Proof. unfold signedPayload; destruct (IsDynamic t); intros H; inv_ok; inv_big; cbn in *; auto. Qed.

Lemma signedPayload_says t r s y raw : valid_tx t -> tx_ok t -> 0 <= y <= 1 -> signedPayload t r s y = Ok raw -> len raw < two63 -> says t r s y raw.
Proof.
  intros V O Y HP Hl; pose proof (signedPayload_nonneg _ _ _ _ _ HP) as (NV & NR & NS & NF); apply signedPayload_items in HP.
  pose proof (valid_fees t V) as F; destruct (valid_chain t V) as (c & EC & HC); pose proof O as (ON & OG & _ & _).
  pose proof (fun v (H : in_u64 v) => proj1 H) as N64; unfold says; rewrite EC.
  assert (in_u64 y) as OY by (unfold in_u64, two64; lia).
  destruct (IsDynamic t).
  - destruct F as (-> & FM & FT); destruct (MaxFee t) as [ fee | ] eqn:EM, (Tip t) as [ tip | ] eqn:ET; try done; cbn in NF.
    rewrite HP in Hl |- *; rewrite len_cons in Hl; eexists _, _, _, _, _, _, _, _, _, _; split; [ done | ]; split.
    + rewrite splitList_items; [ | apply dynamicItems_bytes; [ done | ] | lia ]; [ | repeat constructor; cbn; apply bigEndian_ok || apply big_bytes_ok ].
      cbn [fmap list_fmap dynamicItems app item_payload]; rewrite !bigEndian_big_bytes by done; unfold amount; rewrite EC, EM, ET; reflexivity.
    + repeat (apply numbers_cons; [ cbn; lia || apply N64; done | ]); apply numbers_nil.
  - destruct F as (FG & -> & ->); destruct (GasPrice t) as [ price | ] eqn:EG; [ | done ]; cbn in NF.
    rewrite HP in Hl |- *; eexists _, _, _, _, _, _, _; split.
    + rewrite splitList_items; [ | apply legacyItems_bytes; [ done | ] | exact Hl ]; [ | repeat constructor; cbn; apply big_bytes_ok ].
      cbn [fmap list_fmap legacyItems app item_payload]; rewrite !bigEndian_big_bytes by done; unfold amount; rewrite EC, EG; cbn [from_option].
      rewrite (u64_id (y + 35)) by (unfold in_u64, two64; lia); replace (y + 35 + id c * 2) with (35 + 2 * c + y) by (unfold id; lia); reflexivity.
    + repeat (apply numbers_cons; [ cbn; lia || apply N64; done | ]); apply numbers_nil.
Qed.

Lemma signature_parts {E} (sig rb sb : bytes) b : len sig = 65 -> slice (E := E) sig 0 32 = Ok rb -> slice (E := E) sig 32 64 = Ok sb -> index (E := E) sig 64 = Ok b ->
  sig = rb ++ sb ++ [ b ] /\ len rb = 32 /\ len sb = 32.
Proof.
  intros L (p & r & E1 & L1 & L2)%slice_ok_inv (p' & r' & E2 & L3 & L4)%slice_ok_inv I.
  destruct p; [ | rewrite len_cons in L1; pose proof (len_nonneg p); lia ]; cbn in E1; assert (rb = p' /\ r = sb ++ r') as [ -> -> ].
  { apply app_inj_1; [ unfold len in *; lia | congruence ]. }
  split; [ | lia ]; subst sig; rewrite !len_app in L; destruct r' as [ | x [ | ] ]; [ rewrite (@len_nil Z) in L; lia | | rewrite !len_cons in L; pose proof (len_nonneg l); lia ].
  unfold index in I; cbn [Z.leb] in I; rewrite lookup_app_r, lookup_app_r in I by (unfold len in *; lia).
  replace (Z.to_nat 64 - length p' - length sb)%nat with 0%nat in I by (unfold len in *; lia); cbn in I; congruence.
Qed.

Lemma recovery_parity b y : byte_ok b -> recoveryId b = y -> 0 <= y <= 1 -> (y = 0 \/ y = 1) /\ (b = y \/ b = 27 + y).
Proof.
  unfold byte_ok, recoveryId; intros B <- H; destruct (27 <=? b) eqn:E; [ | lia ]; unfold u8 in *; rewrite Z.mod_small in H |- * by lia; lia.
Qed.

Lemma WithSignature_says keccak rec t sig expected st : tx_ok t -> bytes_ok sig ->
  WithSignature keccak rec t sig expected = Ok st -> len (Raw st) < two63 -> exists r s y, signature sig r s y /\ says t r s y (Raw st).
Proof.
  intros Hok Hsig H Hl; unfold WithSignature in H; inv_ok; b2p.
  match goal with E : RecoverAddress _ _ _ _ = Ok _ |- _ => destruct (RecoverAddress_recovery _ _ _ _ _ Hsig E) as (b & Hb & Hv) end.
  match goal with I : index sig 64 = Ok ?b0, A : slice sig 0 32 = Ok ?rb, B : slice sig 32 64 = Ok ?sb, V : validate _ = Ok _, P : signedPayload _ _ _ _ = Ok _, L : len sig = _ |- _ =>
    assert (b0 = b) as -> by congruence; exists (be_val rb), (be_val sb), (recoveryId b);
    split; [ | exact (signedPayload_says _ _ _ _ _ (validate_valid _ _ V) Hok Hv P Hl) ];
    destruct (signature_parts sig rb sb b L A B I) as (E & L1 & L2); exists rb, sb, b; split_and!; try done;
    apply (recovery_parity b _ (index_byte _ _ _ Hsig I)); done end.
Qed.


(** A transfer and a 65-byte signature, for the witnesses. *)
Definition sample_tx : Transaction :=
  {| ChainID := Some 11155111; Nonce := 7; Gas := 21000; GasPrice := Some 30000000000;
     MaxFee := None; Tip := None; To := Some (replicate 20 17);
     Value := Some 1000000000000000000; Data := [] |}.
Definition sample_sig : bytes := replicate 64 1 ++ [ 28 ].
Definition sample_keccak (_ : bytes) : bytes := replicate 32 200.
Definition sample_recover (_ _ : bytes) : option (Z * Z) := Some (5, 7).

Lemma sample_tx_ok : tx_ok sample_tx.
Proof.
  unfold tx_ok, in_u64, two64; cbn; split_and!; try lia; [ constructor | ].
  solve_bytes.
Qed.


(** C8.  The signing hash binds the transaction: if two transactions have the
    same signing hash then every field is the same (a nil value counts as
    zero), or the two encodings are a Keccak collision. *)
Theorem signing_hash_binds keccak t u h pt pu :
  tx_ok t -> tx_ok u ->
  signingPayload t = Ok pt -> signingPayload u = Ok pu -> len pt < two63 ->
  SigningHash keccak t = Ok h -> SigningHash keccak u = Ok h ->
  same_tx t u \/ (pt <> pu /\ Keccak256 keccak [ pt ] = Keccak256 keccak [ pu ]).
Proof.
  intros Ot Ou Pt Pu Hl Ht Hu; unfold SigningHash in Ht, Hu.
  destruct (validate t) eqn:Vt; [ | done | done ]; destruct (validate u) eqn:Vu; [ | done | done ].
  cbn [result_bind] in Ht, Hu; rewrite Pt in Ht; rewrite Pu in Hu.
  cbn [result_bind] in Ht, Hu; injection Ht as <-; injection Hu as E.
  destruct (decide (pt = pu)) as [ <- | ]; [ left | right; done ].
  eapply signingPayload_inj; eauto using validate_valid.
Qed.

Lemma signing_hash_binds_witness :
  exists p h, signingPayload sample_tx = Ok p /\ SigningHash sample_keccak sample_tx = Ok h /\
  (same_tx sample_tx sample_tx
   \/ (p <> p /\ Keccak256 sample_keccak [ p ] = Keccak256 sample_keccak [ p ])).
Proof.
  eexists _, _; split_and!; [ vm_compute; reflexivity | vm_compute; reflexivity | ].
  eapply (signing_hash_binds sample_keccak sample_tx sample_tx); try apply sample_tx_ok;
    vm_compute; reflexivity.
Defined.

(** Some fee the caller supplied is negative. *)
Definition negative_fee (t : Transaction) : bool :=
  existsb (fun o => match o with Some v => v <? 0 | None => false end)
    [ GasPrice t; MaxFee t; Tip t ].

Lemma rlpBig_nonneg {E} o : 0 <= default 0 o -> @rlpBig E o = Ok (rlpString (amount o)).
Proof.
  unfold rlpBig, amount; destruct o as [ v | ]; cbn; intros; [ | done ].
  replace (v <? 0) with false by lia; done.
Qed.

Lemma rlpBig_neg {E} v : v < 0 -> @rlpBig E (Some v) = Panic.
Proof. intros; unfold rlpBig; replace (v <? 0) with true by lia; done. Qed.

Lemma fees_some t :
  valid_tx t ->
  (exists g, IsDynamic t = false /\ GasPrice t = Some g /\ MaxFee t = None /\ Tip t = None)
  \/ (exists m p, IsDynamic t = true /\ GasPrice t = None /\ MaxFee t = Some m /\ Tip t = Some p).
Proof.
  intros V; pose proof (valid_fees t V) as F; destruct (IsDynamic t).
  - destruct F as (G & M & T); right; destruct (MaxFee t), (Tip t); try done; eauto 6.
  - destruct F as (G & M & T); left; destruct (GasPrice t); try done; eauto 6.
Qed.

(** Building the payload of a validated transaction either succeeds or hits
    the encoder's panic on a negative fee. *)
Lemma signingPayload_outcome t :
  valid_tx t ->
  signingPayload t = Panic /\ negative_fee t = true
  \/ (exists p, signingPayload t = Ok p) /\ negative_fee t = false.
Proof.
  intros V; pose proof (valid_value t V) as Hv; pose proof (valid_chain t V) as (c & Ec & Hc).
  assert (0 <= default 0 (ChainID t)) as Hch by (rewrite Ec; cbn; lia).
  unfold signingPayload, negative_fee.
  destruct (fees_some t V) as [ (g & -> & -> & -> & ->) | (m & p & -> & -> & -> & ->) ];
    cbn [existsb]; rewrite !(rlpBig_nonneg (ChainID t)), !(rlpBig_nonneg (Value t)) by done;
    cbn [result_bind orb].
  - destruct (Z_lt_le_dec g 0).
    + left; rewrite rlpBig_neg by done; replace (g <? 0) with true by lia; done.
    + right; rewrite rlpBig_nonneg by done; replace (g <? 0) with false by lia.
      cbn [result_bind]; eauto.
  - destruct (Z_lt_le_dec p 0).
    + left; rewrite (rlpBig_neg p) by done; replace (p <? 0) with true by lia.
      destruct (m <? 0); done.
    + rewrite (rlpBig_nonneg (Some p)) by done; cbn [result_bind].
      replace (p <? 0) with false by lia; destruct (Z_lt_le_dec m 0).
      * left; rewrite (rlpBig_neg m) by done; replace (m <? 0) with true by lia; done.
      * right; rewrite (rlpBig_nonneg (Some m)) by done; replace (m <? 0) with false by lia.
        cbn [result_bind]; eauto.
Qed.

(** The outcomes of [SigningHash]: it fails exactly when validation fails
    and with the same error, it panics exactly when a validated transaction
    carries a negative fee, and otherwise it returns a digest. *)
Theorem signing_hash_outcomes keccak t :
  (forall e, SigningHash keccak t = Err e <-> validate t = Err e) /\
  (SigningHash keccak t = Panic <-> validate t = Ok tt /\ negative_fee t = true) /\
  ((exists h, SigningHash keccak t = Ok h) <-> validate t = Ok tt /\ negative_fee t = false).
Proof.
  unfold SigningHash; destruct (validate t) as [ [] | e | ] eqn:V; cbn [result_bind].
  - destruct (signingPayload_outcome t (validate_valid t tt V)) as [ (-> & ->) | ((p & ->) & ->) ];
      cbn [result_bind]; repeat split; intros; destruct_and?; repeat match goal with H : ex _ |- _ => destruct H end; try done; eauto.
  - repeat split; intros; destruct_and?; repeat match goal with H : ex _ |- _ => destruct H end; try done; congruence.
  - exfalso; unfold validate in V; repeat split_match; done.
Qed.

Lemma WithSignature_sender keccak rec t sig expected st :
  bytes_ok sig -> expected <> EmptyString ->
  WithSignature keccak rec t sig expected = Ok st ->
  exists digest addr,
    SigningHash keccak t = Ok digest /\
    RecoverAddress keccak rec digest sig = Ok (From st) /\
    ParseAddress (From st) = Ok addr /\ ParseAddress expected = Ok addr /\ len addr = 20 /\
    Hash st = TransactionHash keccak (Raw st).
Proof.
  intros Hok Hne H; apply WithSignature_ok in H
    as (_ & digest & r & s & v & Hd & Hr & Hq & _ & _ & Hh); [ | done ].
  specialize (Hq Hne); unfold equalAddress in Hq.
  destruct (ParseAddress (From st)) as [ a | | ] eqn:Pa; [ | done | done ].
  destruct (ParseAddress expected) as [ b | | ] eqn:Pb; [ | done | done ].
  destruct (len a =? len b); [ b2p; subst b | done ].
  exists digest, a; split_and!; auto; apply ParseAddress_ok in Pa; tauto.
Qed.

(** C7.  No foreign signature: a transaction is returned only when the
    signature recovers, over this transaction's own signing hash, to the
    address that was expected (compared as 20 bytes). *)
Theorem with_signature_authentic keccak rec t sig expected st :
  bytes_ok sig -> expected <> EmptyString ->
  WithSignature keccak rec t sig expected = Ok st ->
  exists digest addr,
    SigningHash keccak t = Ok digest /\
    RecoverAddress keccak rec digest sig = Ok (From st) /\
    ParseAddress (From st) = Ok addr /\ ParseAddress expected = Ok addr /\ len addr = 20 /\
    Hash st = TransactionHash keccak (Raw st).
Proof. apply WithSignature_sender. Qed.

Lemma with_signature_authentic_witness :
  exists st,
    WithSignature sample_keccak sample_recover sample_tx sample_sig (hex_encode (replicate 20 200)) = Ok st /\
  exists digest addr,
    SigningHash sample_keccak sample_tx = Ok digest /\
    RecoverAddress sample_keccak sample_recover digest sample_sig = Ok (From st) /\
    ParseAddress (From st) = Ok addr /\
    ParseAddress (hex_encode (replicate 20 200)) = Ok addr /\ len addr = 20 /\
    Hash st = TransactionHash sample_keccak (Raw st).
Proof.
  eexists; split; [ vm_compute; reflexivity | ].
  apply (with_signature_authentic sample_keccak sample_recover sample_tx sample_sig
           (hex_encode (replicate 20 200))).
  - solve_bytes.
  - vm_compute; discriminate.
  - vm_compute; reflexivity.
Defined.

(** A list header whose eight-byte length lies within nine of 2^64 makes
    [DecodeSignedTransaction] panic instead of returning an error. *)
Theorem decode_panics_on_wrapping_length keccak lb tl :
  bytes_ok lb -> len lb = 8 -> two64 - 9 <= be_val lb ->
  DecodeSignedTransaction keccak (255 :: lb ++ tl) = Panic /\
  DecodeSignedTransaction keccak (DynamicFeeTxType :: 255 :: lb ++ tl) = Panic.
Proof.
  intros Hok Hl Hv.
  assert (splitList (255 :: lb ++ tl) = Panic) as E.
  { unfold splitList; change (readItem (255 :: lb ++ tl) true) with (readLong (255 :: lb ++ tl) 8).
    rewrite readLong_wrapping; [ done | done | done | lia ]. }
  unfold DecodeSignedTransaction, DynamicFeeTxType.
  change (255 <? 192) with false; change (2 <? 192) with true; change (2 =? 2) with true.
  cbn [andb negb]; rewrite E; split; reflexivity.
Qed.

Lemma decode_panics_on_wrapping_length_witness :
  DecodeSignedTransaction sample_keccak (255 :: replicate 8 255 ++ []) = Panic /\
  DecodeSignedTransaction sample_keccak (DynamicFeeTxType :: 255 :: replicate 8 255 ++ []) = Panic.
Proof.
  apply (decode_panics_on_wrapping_length sample_keccak (replicate 8 255) []).
  - solve_bytes.
  - reflexivity.
  - vm_compute; discriminate.
Defined.

End EthTx.
