(* ===== verification/CoinSelect.v ===== *)
(** * Bitcoin coin selection

    Models [services/mpc-signer/chains/bitcoin_coinselect.go] and
    [bitcoinNetParams] of [bitcoin.go]: which coins a transfer spends, the fee
    it pays and the change it returns.  Amounts are int64 and wrap.

    Address decoding and script recognition come from btcutil and txscript:
    parameters of the section.  The theorems say that a selection spends only
    eligible coins of the wallet, that inputs equal amount plus change plus
    fee, that the fee is at least the requested rate for the transaction's
    real size, that no dust is created, and that the result does not depend
    on the order in which the wallet lists its coins. *)

From Stdlib Require Import ZArith Lia String.
From stdpp Require Import base list numbers strings sorting.
From S2P Require Import Prelude GoStrings.

Open Scope Z_scope.

Module CoinSelect.

(** ** Data *)

Record UTXO := {
  Txid : string;
  Vout : Z;
  Amount : Z;
  Script : string;
  Confirmations : Z;
}.

Record CoinSelectionRequest := {
  reqNetwork : string;
  reqUTXOs : list UTXO;
  reqDestination : string;
  reqAmount : Z;
  reqFeeRate : Z;
  reqChangeAddress : string;
  reqMinConfirmations : option Z;
}.

Record BitcoinInput := { inTxid : string; inVout : Z; inAmount : Z; inScript : string; inSegWit : bool }.
Record BitcoinOutput := { outAddress : string; outAmount : Z }.

Record BitcoinSigningRequest := {
  sigNetwork : string;
  sigInputs : list BitcoinInput;
  sigOutputs : list BitcoinOutput;
}.

Record CoinSelection := {
  Request : BitcoinSigningRequest;
  Selected : list UTXO;
  TotalIn : Z;
  selAmount : Z;
  Fee : Z;
  Change : Z;
  VirtualSize : Z;
  FeeRate : Z;
  ChangeDroppedToFee : bool;
}.

#[export] Instance UTXO_eq_dec : EqDecision UTXO.
Proof. solve_decision. Defined.

Inductive BtcErr : Type :=
| UnsupportedNetwork (n : string)
| NonPositiveAmount (n : Z)
| NonPositiveFeeRate (n : Z)
| NoAddress
| InvalidAddress (a : string)
| WrongNetwork (a : string)
| UnpayableAddress (a : string)
| DestinationErr (e : BtcErr)
| ChangeErr (e : BtcErr)
| InvalidScriptHex
| UnsupportedOutputType
| NoSpendableUnconfirmed (n minConf : Z)
| NoSpendable
| BelowDust (amount dust : Z)
| InsufficientFunds (available outputs need : Z).

(** ** Sizes and thresholds *)

Definition txOverheadBase : Z := 10.
Definition segwitMarkerFlagWeight : Z := 2.
Definition p2pkhInputBase : Z := 148.
Definition p2wpkhInputBase : Z := 41.
Definition p2wpkhInputWitness : Z := 108.
Definition p2pkhDust : Z := 546.
Definition p2wpkhDust : Z := 294.

Inductive Params : Type := MainNet | TestNet3 | Regtest.

Definition bitcoinNetParams (network : string) : result BtcErr Params :=
  if String.eqb network "" || String.eqb network "mainnet" then Ok MainNet
  else if String.eqb network "testnet" || String.eqb network "testnet3" then Ok TestNet3
  else if String.eqb network "regtest" then Ok Regtest
  else Err (UnsupportedNetwork network).

(** [OP_DUP OP_HASH160 <20 bytes> OP_EQUALVERIFY OP_CHECKSIG] *)
Definition isPayToPubKeyHash (script : bytes) : bool :=
  (len script =? 25) && bool_decide (script !! 0%nat = Some 118)
  && bool_decide (script !! 1%nat = Some 169) && bool_decide (script !! 2%nat = Some 20)
  && bool_decide (script !! 23%nat = Some 136) && bool_decide (script !! 24%nat = Some 172).

(** Go compares strings byte by byte. *)
Fixpoint bytes_ltb (a b : bytes) : bool :=
  match a, b with
  | [], [] => false
  | [], _ :: _ => true
  | _ :: _, [] => false
  | x :: a, y :: b => if x =? y then bytes_ltb a b else x <? y
  end.

Definition string_ltb (s t : string) : bool := bytes_ltb (to_bytes s) (to_bytes t).

(** The comparison given to [sort.Slice]: largest first, then txid, then vout. *)
Definition less (u v : UTXO) : bool :=
  if negb (Amount u =? Amount v) then Amount v <? Amount u
  else if negb (String.eqb (Txid u) (Txid v)) then string_ltb (Txid u) (Txid v)
  else Vout u <? Vout v.

Definition not_after (u v : UTXO) : Prop := less v u = false.

#[export] Instance not_after_dec : RelDecision not_after.
Proof. intros u v; unfold not_after; apply _. Defined.

(** [sort.Slice] with [less]: the coins in that order. *)
Definition sortCoins (l : list UTXO) : list UTXO := merge_sort not_after l.

Section Scripts.
(** btcutil: decoding an address, its network, the script that pays it. *)
Variable Addr : Type.
Variable decodeAddress : string -> Params -> option Addr.
Variable isForNet : Addr -> Params -> bool.
Variable payToAddrScript : Addr -> option bytes.
(** [txscript.IsPayToWitnessPubKeyHash] *)
Variable isP2WPKH : bytes -> bool.

Definition scriptForAddress (addr : string) (params : Params) : result BtcErr bytes :=
  refuse! String.eqb addr "" with NoAddress;
  match decodeAddress addr params with
  | None => Err (InvalidAddress addr)
  | Some decoded =>
      refuse! negb (isForNet decoded params) with WrongNetwork addr;
      match payToAddrScript decoded with
      | None => Err (UnpayableAddress addr)
      | Some s => Ok s
      end
  end.

Definition inputWeights (scriptHex : string) : result BtcErr (Z * Z) :=
  match hex_decode scriptHex with
  | None => Err InvalidScriptHex
  | Some script =>
      if isP2WPKH script then Ok (p2wpkhInputBase, p2wpkhInputWitness)
      else if isPayToPubKeyHash script then Ok (p2pkhInputBase, 0)
      else Err UnsupportedOutputType
  end.

Definition dustThreshold (script : bytes) : Z :=
  if isP2WPKH script then p2wpkhDust else p2pkhDust.

(** Base and witness bytes of the inputs, and whether any is segwit. *)
Definition inputTotals (inputs : list UTXO) : Z * Z * bool :=
  fold_left (fun '(base, witness, anySegwit) u =>
    let '(b, w) := match inputWeights (Script u) with Ok p => p | _ => (p2pkhInputBase, 0) end in
    (base + b, witness + w, anySegwit || (0 <? w)))
    inputs (txOverheadBase, 0, false).

Definition estimateVirtualSize (inputs : list UTXO) (outputScripts : list bytes) : Z :=
  let '(base, witness, anySegwit) := inputTotals inputs in
  let base := fold_left (fun base s => base + (9 + len s)) outputScripts base in
  let witness := if anySegwit then witness + segwitMarkerFlagWeight else witness in
  (base * 4 + witness + 3) / 4.

(** The signing input of a coin. *)
Definition coinInput (u : UTXO) : BitcoinInput :=
  {| inTxid := Txid u; inVout := Vout u; inAmount := Amount u; inScript := Script u;
     inSegWit := false |}.

Definition buildSelection (req : CoinSelectionRequest) (selected : list UTXO)
    (totalIn change fee vsize : Z) (changeDropped : bool) : CoinSelection :=
  let inputs := coinInput <$> selected in
  let outputs := [ {| outAddress := reqDestination req; outAmount := reqAmount req |} ] ++
    (if 0 <? change then [ {| outAddress := reqChangeAddress req; outAmount := change |} ] else []) in
  {| Request := {| sigNetwork := reqNetwork req; sigInputs := inputs; sigOutputs := outputs |};
     Selected := selected; TotalIn := totalIn; selAmount := reqAmount req; Fee := fee;
     Change := change; VirtualSize := vsize; FeeRate := reqFeeRate req;
     ChangeDroppedToFee := changeDropped |}.

(** The filter of [SelectCoins]: spendable coins, and how many were only
    short of confirmations. *)
Fixpoint filterCoins (minConf : Z) (l : list UTXO) : list UTXO * Z :=
  match l with
  | [] => ([], 0)
  | u :: l =>
      let '(spendable, unconfirmed) := filterCoins minConf l in
      if Amount u <=? 0 then (spendable, unconfirmed)
      else if Confirmations u <? minConf then (spendable, unconfirmed + 1)
      else if is_ok (inputWeights (Script u)) then (u :: spendable, unconfirmed)
      else (spendable, unconfirmed)
  end.

(** The accumulation loop over the sorted coins. *)
Fixpoint accumulate (req : CoinSelectionRequest) (destScript changeScript : bytes)
    (selected : list UTXO) (totalIn : Z) (rest : list UTXO) : result BtcErr CoinSelection :=
  match rest with
  | [] =>
      let size := estimateVirtualSize selected [ destScript; changeScript ] in
      Err (InsufficientFunds totalIn (len selected)
             (i64 (reqAmount req + i64 (size * reqFeeRate req))))
  | u :: rest =>
      let selected := selected ++ [ u ] in
      let totalIn := i64 (totalIn + Amount u) in
      let withChange := estimateVirtualSize selected [ destScript; changeScript ] in
      let feeWithChange := i64 (withChange * reqFeeRate req) in
      if totalIn <? i64 (reqAmount req + feeWithChange)
      then accumulate req destScript changeScript selected totalIn rest
      else
        let change := i64 (i64 (totalIn - reqAmount req) - feeWithChange) in
        if dustThreshold changeScript <=? change
        then Ok (buildSelection req selected totalIn change feeWithChange withChange false)
        else
          let noChange := estimateVirtualSize selected [ destScript ] in
          let feeNoChange := i64 (noChange * reqFeeRate req) in
          if i64 (reqAmount req + feeNoChange) <=? totalIn
          then Ok (buildSelection req selected totalIn 0 (i64 (totalIn - reqAmount req)) noChange true)
          else accumulate req destScript changeScript selected totalIn rest
  end.

Definition SelectCoins (req : CoinSelectionRequest) : result BtcErr CoinSelection :=
  let! params := bitcoinNetParams (reqNetwork req) in
  refuse! reqAmount req <=? 0 with NonPositiveAmount (reqAmount req);
  refuse! reqFeeRate req <=? 0 with NonPositiveFeeRate (reqFeeRate req);
  let! destScript := map_err DestinationErr (scriptForAddress (reqDestination req) params) in
  let! changeScript := map_err ChangeErr (scriptForAddress (reqChangeAddress req) params) in
  let minConf := default 1 (reqMinConfirmations req) in
  let '(spendable, unconfirmed) := filterCoins minConf (reqUTXOs req) in
  refuse! (len spendable =? 0) && (0 <? unconfirmed) with NoSpendableUnconfirmed unconfirmed minConf;
  refuse! len spendable =? 0 with NoSpendable;
  refuse! reqAmount req <? dustThreshold destScript
    with BelowDust (reqAmount req) (dustThreshold destScript);
  accumulate req destScript changeScript [] 0 (sortCoins spendable).
End Scripts.

(** ** The order of the coins *)

Lemma bytes_ltb_irrefl a : bytes_ltb a a = false.
Proof. induction a as [ | x a IH ]; cbn; rewrite ?Z.eqb_refl; done. Qed.

Lemma bytes_ltb_asym a b : bytes_ltb a b = true -> bytes_ltb b a = false.
Proof.
  revert b; induction a as [ | x a IH ]; intros [ | y b ]; cbn; try done.
  rewrite (Z.eqb_sym y x); destruct (x =? y) eqn:E; [ apply IH | lia ].
Qed.

Lemma bytes_ltb_connected a b : a <> b -> bytes_ltb a b = false -> bytes_ltb b a = true.
Proof.
  revert b; induction a as [ | x a IH ]; intros [ | y b ]; cbn; try done.
  rewrite (Z.eqb_sym y x); destruct (x =? y) eqn:E; b2p; intros; [ | lia ].
  apply IH; congruence.
Qed.

Lemma bytes_ltb_trans a b c : bytes_ltb a b = true -> bytes_ltb b c = true -> bytes_ltb a c = true.
Proof.
  revert b c; induction a as [ | x a IH ]; intros [ | y b ] [ | z c ]; cbn; try done.
  destruct (x =? y) eqn:E1, (y =? z) eqn:E2, (x =? z) eqn:E3; b2p; intros; b2p; try lia; eauto.
Qed.

Lemma string_ltb_connected s t : s <> t -> string_ltb s t = false -> string_ltb t s = true.
Proof. intros H; apply bytes_ltb_connected; intros E; apply H, to_bytes_inj, E. Qed.

(** [less] spelled out. *)
Lemma less_true u v :
  less u v = true <->
  Amount v < Amount u \/
  (Amount u = Amount v /\ Txid u <> Txid v /\ string_ltb (Txid u) (Txid v) = true) \/
  (Amount u = Amount v /\ Txid u = Txid v /\ Vout u < Vout v).
Proof.
  unfold less; destruct (Amount u =? Amount v) eqn:E; cbn [negb]; b2p.
  - destruct (String.eqb_spec (Txid u) (Txid v)); cbn [negb]; rewrite ?Z.ltb_lt.
    + split; [ auto | intros [ | [ | ] ]; [ lia | tauto | tauto ] ].
    + split; [ auto | intros [ | [ | ] ]; [ lia | tauto | tauto ] ].
  - rewrite Z.ltb_lt; split; [ auto | intros [ | [ | ] ]; lia ].
Qed.

Lemma not_after_spec u v :
  not_after u v <->
  Amount v < Amount u \/
  (Amount u = Amount v /\ Txid u <> Txid v /\ string_ltb (Txid u) (Txid v) = true) \/
  (Amount u = Amount v /\ Txid u = Txid v /\ Vout u <= Vout v).
Proof.
  unfold not_after; rewrite <- not_true_iff_false, less_true; split.
  - intros H; destruct (Z.lt_trichotomy (Amount u) (Amount v)) as [ | [ E | ] ]; [ tauto | | tauto ].
    destruct (String.eqb_spec (Txid u) (Txid v)) as [ T | T ].
    + right; right; split_and!; auto; destruct (Z_lt_le_dec (Vout v) (Vout u)); [ | lia ].
      exfalso; apply H; right; right; split_and!; auto.
    + right; left; split_and!; auto.
      destruct (string_ltb (Txid v) (Txid u)) eqn:L; [ exfalso; apply H; right; left; auto | ].
      apply string_ltb_connected; auto.
  - intros [ | [ (? & ? & L) | (? & ? & ?) ] ] [ | [ (? & ? & L') | (? & ? & ?) ] ]; try lia;
      try congruence.
    unfold string_ltb in *; apply bytes_ltb_asym in L; congruence.
Qed.

#[export] Instance not_after_total : Total not_after.
Proof.
  intros u v; rewrite !not_after_spec.
  destruct (Z.lt_trichotomy (Amount u) (Amount v)) as [ | [ E | ] ]; [ auto | | auto ].
  destruct (String.eqb_spec (Txid u) (Txid v)) as [ T | T ].
  - destruct (Z_le_gt_dec (Vout u) (Vout v)); [ left | right ]; right; right; split_and!; auto; lia.
  - destruct (string_ltb (Txid u) (Txid v)) eqn:L; [ left; auto | right ].
    right; left; split_and!; auto using string_ltb_connected.
Qed.

#[export] Instance not_after_trans : Transitive not_after.
Proof.
  intros u v w; rewrite !not_after_spec.
  intros [ | [ (? & ? & L) | (? & T & ?) ] ] [ | [ (? & ? & L') | (? & T' & ?) ] ];
    try (left; lia); right.
  - left; unfold string_ltb in *; pose proof (bytes_ltb_trans _ _ _ L L') as L2.
    split_and!; [ lia | | done ]; intros E; rewrite E, bytes_ltb_irrefl in L2; done.
  - left; split_and!; [ lia | congruence | congruence ].
  - left; split_and!; [ lia | congruence | congruence ].
  - right; split_and!; [ lia | congruence | lia ].
Qed.

Lemma not_after_antisymm u v :
  not_after u v -> not_after v u -> Amount u = Amount v /\ Txid u = Txid v /\ Vout u = Vout v.
Proof.
  rewrite !not_after_spec.
  intros [ | [ (? & ? & L) | (? & T & ?) ] ] [ | [ (? & ? & L') | (? & T' & ?) ] ];
    try lia; try congruence.
  - unfold string_ltb in *; apply bytes_ltb_asym in L; congruence.
  - split_and!; auto; lia.
Qed.

Lemma sortCoins_perm l : sortCoins l ≡ₚ l.
Proof. apply merge_sort_Permutation. Qed.

Lemma sortCoins_sorted l : StronglySorted not_after (sortCoins l).
Proof. apply StronglySorted_merge_sort; apply _. Qed.

(** Coins are told apart by their outpoint. *)
Definition unique_outpoints (l : list UTXO) : Prop :=
  forall u v, u ∈ l -> v ∈ l -> Txid u = Txid v -> Vout u = Vout v -> u = v.

Lemma sortCoins_unique l k : unique_outpoints l -> l ≡ₚ k -> sortCoins l = sortCoins k.
Proof.
  intros Hu Hp; apply (StronglySorted_unique_strong not_after); auto using sortCoins_sorted.
  - intros u v Hin1 Hin2 H1 H2; rewrite sortCoins_perm in Hin1, Hin2; rewrite <- Hp in Hin2.
    destruct (not_after_antisymm u v H1 H2) as (_ & ? & ?); auto.
  - rewrite !sortCoins_perm; done.
Qed.

(** ** Sizes *)

Section Facts.
Context (Addr : Type) (decodeAddress : string -> Params -> option Addr)
  (isForNet : Addr -> Params -> bool) (payToAddrScript : Addr -> option bytes)
  (isP2WPKH : bytes -> bool).

Abbreviation weights := (inputWeights isP2WPKH).
Abbreviation vsize := (estimateVirtualSize isP2WPKH).
Abbreviation dust := (dustThreshold isP2WPKH).

Lemma inputWeights_bounds s b w : weights s = Ok (b, w) -> 0 <= b <= 148 /\ 0 <= w <= 108.
Proof.
  unfold inputWeights, p2wpkhInputBase, p2wpkhInputWitness, p2pkhInputBase; intros H.
  destruct (hex_decode s); [ | done ]; repeat split_match; simplify_eq; lia.
Qed.

Lemma inputTotals_bounds l base wit any base' wit' any' :
  fold_left (fun '(base, witness, anySegwit) u =>
    let '(b, w) := match weights (Script u) with Ok p => p | _ => (p2pkhInputBase, 0) end in
    (base + b, witness + w, anySegwit || (0 <? w))) l (base, wit, any) = (base', wit', any') ->
  base <= base' <= base + 148 * len l /\ wit <= wit' <= wit + 108 * len l.
Proof.
  revert base wit any; induction l as [ | u l IH ]; intros base wit any H; cbn [fold_left] in H.
  - simplify_eq; rewrite (@len_nil UTXO); lia.
  - destruct (match weights (Script u) with Ok p => p | _ => (p2pkhInputBase, 0) end)
      as [ b w ] eqn:W.
    assert (0 <= b <= 148 /\ 0 <= w <= 108) as B.
    { destruct (weights (Script u)) as [ [ b' w' ] | | ] eqn:Q; simplify_eq;
        [ eapply inputWeights_bounds; eauto | unfold p2pkhInputBase; lia .. ]. }
    apply IH in H; rewrite len_cons; lia.
Qed.

Definition outputBytes (l : list bytes) : Z := foldr (fun s n => 9 + len s + n) 0 l.

Lemma outputBytes_fold l base :
  fold_left (fun base s => base + (9 + len s)) l base = base + outputBytes l.
Proof.
  revert base; induction l as [ | s l IH ]; intros base; cbn [fold_left outputBytes foldr]; [ lia | ].
  rewrite IH; unfold outputBytes; lia.
Qed.

(** The size is non-negative, grows with the outputs, and is linear in the
    number of inputs. *)
Lemma estimateVirtualSize_bounds l outs :
  0 <= outputBytes outs ->
  0 <= vsize l outs <= 300 + 256 * len l + outputBytes outs.
Proof.
  intros Ho; unfold estimateVirtualSize, inputTotals.
  destruct (fold_left _ l _) as [ [ base wit ] any ] eqn:T; rewrite outputBytes_fold.
  apply inputTotals_bounds in T; unfold txOverheadBase, segwitMarkerFlagWeight in *.
  pose proof (len_nonneg l).
  split; [ apply Z.div_pos; destruct any; lia | apply Z.div_le_upper_bound; destruct any; lia ].
Qed.

Lemma estimateVirtualSize_mono l outs outs' :
  outputBytes outs <= outputBytes outs' -> vsize l outs <= vsize l outs'.
Proof.
  intros Ho; unfold estimateVirtualSize, inputTotals.
  destruct (fold_left _ l _) as [ [ base wit ] any ]; rewrite !outputBytes_fold.
  apply Z.div_le_mono; destruct any; lia.
Qed.

Lemma dust_pos s : 0 < dust s.
Proof. unfold dustThreshold, p2wpkhDust, p2pkhDust; destruct (isP2WPKH s); lia. Qed.

(** ** Filtering *)

(** A coin the platform may spend. *)
Definition eligible (minConf : Z) (u : UTXO) : Prop :=
  0 < Amount u /\ minConf <= Confirmations u /\ is_ok (weights (Script u)) = true.

Lemma filterCoins_eligible minConf l : Forall (eligible minConf) (fst (filterCoins isP2WPKH minConf l)).
Proof.
  induction l as [ | u l IH ]; cbn; [ constructor | ].
  destruct (filterCoins _ _ l) as [ sp un ]; cbn [fst] in IH.
  destruct (Amount u <=? 0) eqn:A; [ done | ]; destruct (_ <? minConf) eqn:C; [ done | ].
  destruct (is_ok _) eqn:W; [ | done ]; constructor; [ | done ]; b2p; split_and!; auto; lia.
Qed.

Lemma filterCoins_sublist minConf l : sublist (fst (filterCoins isP2WPKH minConf l)) l.
Proof.
  induction l as [ | u l IH ]; cbn; [ constructor | ].
  destruct (filterCoins _ _ l) as [ sp un ]; cbn [fst] in IH.
  repeat split_match; cbn [fst]; constructor; done.
Qed.

Lemma filterCoins_perm minConf l k :
  l ≡ₚ k ->
  fst (filterCoins isP2WPKH minConf l) ≡ₚ fst (filterCoins isP2WPKH minConf k) /\
  snd (filterCoins isP2WPKH minConf l) = snd (filterCoins isP2WPKH minConf k).
Proof.
  induction 1 as [ | u l k _ IH | u v l | l1 l2 l3 _ IH1 _ IH2 ]; cbn.
  - done.
  - destruct (filterCoins _ _ l), (filterCoins _ _ k); cbn [fst snd] in IH; destruct IH as [ P -> ].
    repeat split_match; cbn [fst snd]; split; auto using Permutation_skip.
  - destruct (filterCoins _ _ l) as [ sp un ].
    repeat split_match; cbn [fst snd] in *; simplify_eq/=; split; auto; try lia; constructor.
  - destruct IH1 as [ P1 E1 ], IH2 as [ P2 E2 ]; split; [ etrans; eauto | congruence ].
Qed.

(** ** Money *)

Definition sum_amounts (l : list UTXO) : Z := foldr (fun u n => Amount u + n) 0 l.
Definition wallet_total (l : list UTXO) : Z := foldr (fun u n => Z.max 0 (Amount u) + n) 0 l.

Lemma sum_amounts_cons u l : sum_amounts (u :: l) = Amount u + sum_amounts l.
Proof. reflexivity. Qed.

Lemma wallet_total_cons u l : wallet_total (u :: l) = Z.max 0 (Amount u) + wallet_total l.
Proof. reflexivity. Qed.

Lemma sum_amounts_app l k : sum_amounts (l ++ k) = sum_amounts l + sum_amounts k.
Proof.
  induction l as [ | u l IH ]; [ done | ]; rewrite <- app_comm_cons, !sum_amounts_cons; lia.
Qed.

Lemma sum_amounts_nonneg minConf l : Forall (eligible minConf) l -> 0 <= sum_amounts l.
Proof. induction 1 as [ | u l [ Hu _ ] _ IH ]; rewrite ?sum_amounts_cons; [ done | lia ]. Qed.

#[local] Instance sum_amounts_proper : Proper ((≡ₚ) ==> (=)) sum_amounts.
Proof. intros l k P; induction P; rewrite ?sum_amounts_cons; lia. Qed.

Lemma filterCoins_total minConf l :
  sum_amounts (fst (filterCoins isP2WPKH minConf l)) <= wallet_total l.
Proof.
  induction l as [ | u l IH ]; [ done | ]; rewrite wallet_total_cons; cbn [filterCoins].
  destruct (filterCoins _ _ l) as [ sp un ]; cbn [fst] in IH.
  repeat split_match; cbn [fst]; rewrite ?sum_amounts_cons; lia.
Qed.
(** ** What the loop computes, on unbounded integers *)

(** The coins [l] pay the amount and the fee of a transaction with change. *)
Definition covers (req : CoinSelectionRequest) (d c : bytes) (l : list UTXO) : Prop :=
  reqAmount req + vsize l [ d; c ] * reqFeeRate req <= sum_amounts l.

(** The selection made of a covering set of coins. *)
Definition finish (req : CoinSelectionRequest) (d c : bytes) (l : list UTXO) : CoinSelection :=
  let fee := vsize l [ d; c ] * reqFeeRate req in
  let change := sum_amounts l - reqAmount req - fee in
  if dust c <=? change
  then buildSelection req l (sum_amounts l) change fee (vsize l [ d; c ]) false
  else buildSelection req l (sum_amounts l) 0 (sum_amounts l - reqAmount req) (vsize l [ d ]) true.

(** [l] is the shortest non-empty covering prefix of [coins] extending [selected]. *)
Definition shortest_cover req d c (selected p : list UTXO) : Prop :=
  p <> [] /\ covers req d c (selected ++ p) /\
  forall p1 p2, p = p1 ++ p2 -> p1 <> [] -> p2 <> [] -> ~ covers req d c (selected ++ p1).

(** Bounds under which no int64 operation of the loop wraps: 2^62 sats is
    two thousand times the bitcoin supply. *)
Definition no_overflow (req : CoinSelectionRequest) : Prop :=
  wallet_total (reqUTXOs req) < 4611686018427387904 /\
  0 < reqAmount req < 4611686018427387904 /\ 0 < reqFeeRate req /\
  reqFeeRate req * (600 + 256 * len (reqUTXOs req)) < 4611686018427387904.

Lemma fee_bounds req l outs :
  no_overflow req -> len l <= len (reqUTXOs req) -> 0 <= outputBytes outs <= 300 ->
  0 <= vsize l outs * reqFeeRate req < 4611686018427387904.
Proof.
  intros (_ & _ & Hr & Hf) Hl Ho; pose proof (estimateVirtualSize_bounds l outs ltac:(lia)); nia.
Qed.

Lemma i64_small z : - 4611686018427387904 * 2 <= z < 4611686018427387904 * 2 -> i64 z = z.
Proof. intros; apply i64_id; unfold in_i64, two63; lia. Qed.

(** One round of the loop, without the wrap-arounds. *)
Lemma accumulate_step req d c selected totalIn u rest :
  no_overflow req -> 0 <= totalIn -> totalIn = sum_amounts selected ->
  len (selected ++ [ u ]) <= len (reqUTXOs req) ->
  0 <= sum_amounts (selected ++ [ u ]) < 4611686018427387904 ->
  len d <= 100 -> len c <= 100 ->
  accumulate isP2WPKH req d c selected totalIn (u :: rest) =
    if sum_amounts (selected ++ [ u ]) <? reqAmount req + vsize (selected ++ [ u ]) [ d; c ] * reqFeeRate req
    then accumulate isP2WPKH req d c (selected ++ [ u ]) (sum_amounts (selected ++ [ u ])) rest
    else Ok (finish req d c (selected ++ [ u ])).
Proof.
  intros Hno Ht0 Ht Hl Hs Hd Hc; cbn [accumulate].
  assert (totalIn + Amount u = sum_amounts (selected ++ [ u ])) as E
    by (rewrite sum_amounts_app, sum_amounts_cons, Ht; unfold sum_amounts at 3; cbn; lia).
  rewrite E; set (l := selected ++ [ u ]) in *; rewrite (i64_small (sum_amounts l)) by lia.
  pose proof (len_nonneg d); pose proof (len_nonneg c).
  assert (outputBytes [ d; c ] = 18 + len d + len c) as O2 by (unfold outputBytes; cbn; lia).
  assert (outputBytes [ d ] = 9 + len d) as O1 by (unfold outputBytes; cbn; lia).
  pose proof (fee_bounds req l [ d; c ] Hno Hl ltac:(lia)) as F2.
  pose proof (fee_bounds req l [ d ] Hno Hl ltac:(lia)) as F1.
  pose proof (estimateVirtualSize_mono l [ d ] [ d; c ] ltac:(lia)) as M.
  destruct Hno as (_ & Ha & Hr & _).
  rewrite (i64_small (vsize l [ d; c ] * reqFeeRate req)) by lia.
  rewrite (i64_small (reqAmount req + _)) by lia.
  destruct (sum_amounts l <? _) eqn:C; [ done | ]; b2p; unfold finish.
  rewrite (i64_small (sum_amounts l - reqAmount req)) by lia.
  rewrite (i64_small (sum_amounts l - reqAmount req - _)) by lia.
  destruct (dust c <=? _); [ done | ].
  rewrite (i64_small (vsize l [ d ] * reqFeeRate req)) by lia.
  rewrite (i64_small (reqAmount req + vsize l [ d ] * reqFeeRate req)) by lia.
  replace (_ <=? sum_amounts l) with true by nia; done.
Qed.

Lemma accumulate_spec req d c minConf selected rest :
  no_overflow req -> Forall (eligible minConf) (selected ++ rest) ->
  len (selected ++ rest) <= len (reqUTXOs req) ->
  sum_amounts (selected ++ rest) < 4611686018427387904 ->
  len d <= 100 -> len c <= 100 ->
  match accumulate isP2WPKH req d c selected (sum_amounts selected) rest with
  | Ok sel => exists p q, rest = p ++ q /\ shortest_cover req d c selected p
                          /\ sel = finish req d c (selected ++ p)
  | Err e => (exists a b n, e = InsufficientFunds a b n) /\
             forall p q, rest = p ++ q -> p <> [] -> ~ covers req d c (selected ++ p)
  | Panic => False
  end.
Proof.
  intros Hno; revert selected; induction rest as [ | u rest IH ]; intros selected He Hl Hs Hd Hc.
  { cbn; split; [ eauto | intros [ | ] q; done ]. }
  replace (selected ++ u :: rest) with ((selected ++ [ u ]) ++ rest) in * by (rewrite <- app_assoc; done).
  pose proof He as [ He1 He2 ]%Forall_app; pose proof He1 as [ He3 _ ]%Forall_app.
  pose proof (sum_amounts_nonneg minConf _ He1); pose proof (sum_amounts_nonneg minConf _ He2).
  pose proof (sum_amounts_nonneg minConf _ He3).
  rewrite sum_amounts_app in Hs; rewrite len_app in Hl; pose proof (len_nonneg rest).
  rewrite accumulate_step by (done || lia).
  destruct (sum_amounts (selected ++ [ u ]) <? _) eqn:C; b2p.
  - specialize (IH (selected ++ [ u ]) He).
    rewrite len_app, sum_amounts_app in IH; specialize (IH Hl Hs Hd Hc).
    assert (~ covers req d c (selected ++ [ u ])) as N by (unfold covers; lia).
    destruct (accumulate _ _ _ _ _ _ rest) as [ sel | e | ]; [ | | done ].
    + destruct IH as (p & q & -> & (Hp & Hcov & Hmin) & ->).
      exists (u :: p), q; rewrite <- app_assoc in *; split_and!; [ done | | done ].
      split_and!; [ done | done | ]; intros p1 p2 E Hp1 Hp2.
      destruct p1 as [ | v [ | w p1 ] ]; [ done | cbn in E; simplify_eq; done | ].
      injection E as <- ->; specialize (Hmin (w :: p1) p2 eq_refl ltac:(done) Hp2).
      rewrite <- app_assoc in Hmin; exact Hmin.
    + destruct IH as [ HE Hmin ]; split; [ done | ]; intros p q E Hp.
      destruct p as [ | v [ | w p ] ]; [ done | cbn in E; simplify_eq; done | ].
      injection E as <- ->; specialize (Hmin (w :: p) q eq_refl ltac:(done)).
      rewrite <- app_assoc in Hmin; exact Hmin.
  - exists [ u ], rest; split_and!; [ done | | done ].
    split_and!; [ done | unfold covers; lia | ]; intros [ | v p1 ] p2 E Hp1 Hp2; [ done | ].
    cbn in E; injection E as <- E; destruct p1, p2; done.
Qed.

Abbreviation SelectCoins' := (SelectCoins Addr decodeAddress isForNet payToAddrScript isP2WPKH).
Abbreviation scriptFor := (scriptForAddress Addr decodeAddress isForNet payToAddrScript).

(** The scripts btcutil emits are the standard ones, at most 42 bytes. *)
Definition short_scripts : Prop := forall a s, payToAddrScript a = Some s -> len s <= 100.

Definition spendableCoins (req : CoinSelectionRequest) : list UTXO :=
  fst (filterCoins isP2WPKH (default 1 (reqMinConfirmations req)) (reqUTXOs req)).

Lemma scriptForAddress_short a p s : short_scripts -> scriptFor a p = Ok s -> len s <= 100.
Proof.
  unfold scriptForAddress; intros Hs H; destruct (String.eqb a ""); [ done | ].
  destruct (decodeAddress a p) as [ x | ]; [ | done ]; destruct (negb _); [ done | ].
  destruct (payToAddrScript x) eqn:E; [ simplify_eq; eauto | done ].
Qed.

(** The guards of [SelectCoins], passed. *)
Lemma SelectCoins_inv req r :
  SelectCoins' req = r -> (is_ok r = true \/ exists a b n, r = Err (InsufficientFunds a b n)) ->
  exists params d c,
    bitcoinNetParams (reqNetwork req) = Ok params /\
    scriptFor (reqDestination req) params = Ok d /\ scriptFor (reqChangeAddress req) params = Ok c /\
    0 < reqAmount req /\ 0 < reqFeeRate req /\ dust d <= reqAmount req /\
    accumulate isP2WPKH req d c [] 0 (sortCoins (spendableCoins req)) = r.
Proof.
  intros <-; unfold SelectCoins; intros Hr.
  destruct (bitcoinNetParams (reqNetwork req)) as [ params | e | ] eqn:Ep; cbn [result_bind] in *;
    [ | exfalso .. ]; [ | | destruct Hr as [ | (? & ? & ? & ?) ]; done ].
  2: { unfold bitcoinNetParams in Ep; repeat split_match; simplify_eq.
       destruct Hr as [ | (? & ? & ? & ?) ]; done. }
  destruct (reqAmount req <=? 0) eqn:A; [ destruct Hr as [ | (? & ? & ? & ?) ]; done | ].
  destruct (reqFeeRate req <=? 0) eqn:F; [ destruct Hr as [ | (? & ? & ? & ?) ]; done | ].
  destruct (scriptFor (reqDestination req) params) as [ d | | ] eqn:Ed; cbn [result_bind map_err] in *;
    [ | destruct Hr as [ | (? & ? & ? & ?) ]; done .. ].
  destruct (scriptFor (reqChangeAddress req) params) as [ c | | ] eqn:Ec; cbn [result_bind map_err] in *;
    [ | destruct Hr as [ | (? & ? & ? & ?) ]; done .. ].
  unfold spendableCoins; destruct (filterCoins _ _ _) as [ sp un ]; cbn [fst].
  destruct (_ && _); [ destruct Hr as [ | (? & ? & ? & ?) ]; done | ].
  destruct (len sp =? 0); [ destruct Hr as [ | (? & ? & ? & ?) ]; done | ].
  destruct (reqAmount req <? dust d) eqn:D; [ destruct Hr as [ | (? & ? & ? & ?) ]; done | ].
  exists params, d, c; b2p; split_and!; auto.
Qed.

Lemma spendable_bounds req :
  no_overflow req ->
  Forall (eligible (default 1 (reqMinConfirmations req))) (sortCoins (spendableCoins req)) /\
  len (sortCoins (spendableCoins req)) <= len (reqUTXOs req) /\
  sum_amounts (sortCoins (spendableCoins req)) < 4611686018427387904.
Proof.
  intros (Hw & _); unfold spendableCoins; set (mc := default 1 _).
  pose proof (filterCoins_eligible mc (reqUTXOs req)) as He.
  pose proof (sublist_length _ _ (filterCoins_sublist mc (reqUTXOs req))) as Hl.
  pose proof (filterCoins_total mc (reqUTXOs req)) as Ht.
  split_and!.
  - rewrite (sortCoins_perm _); done.
  - unfold len; rewrite (Permutation_length (sortCoins_perm _)); lia.
  - rewrite (sum_amounts_proper _ _ (sortCoins_perm _)); lia.
Qed.

(** What a customer is promised of a selection. *)
Record selection_ok (req : CoinSelectionRequest) (d c : bytes) (sel : CoinSelection) : Prop := {
  sel_from_wallet : Selected sel ⊆+ reqUTXOs req;
  sel_eligible : Forall (eligible (default 1 (reqMinConfirmations req))) (Selected sel);
  sel_total : TotalIn sel = sum_amounts (Selected sel);
  sel_balance : TotalIn sel = reqAmount req + Change sel + Fee sel;
  sel_rate : VirtualSize sel * reqFeeRate req <= Fee sel;
  sel_size : VirtualSize sel = vsize (Selected sel) (if ChangeDroppedToFee sel then [ d ] else [ d; c ]);
  sel_change : if ChangeDroppedToFee sel
               then Change sel = 0 /\ Fee sel < vsize (Selected sel) [ d; c ] * reqFeeRate req + dust c
               else Fee sel = VirtualSize sel * reqFeeRate req /\ dust c <= Change sel;
  sel_dest_not_dust : dust d <= reqAmount req;
  sel_outputs : sigOutputs (Request sel) =
    {| outAddress := reqDestination req; outAmount := reqAmount req |} ::
    (if ChangeDroppedToFee sel then []
     else [ {| outAddress := reqChangeAddress req; outAmount := Change sel |} ]);
  sel_inputs : sigInputs (Request sel) = coinInput <$> Selected sel;
  sel_network : sigNetwork (Request sel) = reqNetwork req;
  sel_nonempty : Selected sel <> [];
}.

Lemma finish_ok req d c l :
  0 < reqFeeRate req -> l <> [] -> covers req d c l -> dust d <= reqAmount req ->
  l ⊆+ reqUTXOs req -> Forall (eligible (default 1 (reqMinConfirmations req))) l ->
  selection_ok req d c (finish req d c l).
Proof.
  intros Hr Hne Hc Hd Hw He; unfold covers in Hc; pose proof (dust_pos c).
  pose proof (len_nonneg c).
  assert (vsize l [ d ] <= vsize l [ d; c ]) as M
    by (apply estimateVirtualSize_mono; unfold outputBytes; cbn; lia).
  unfold finish; destruct (dust c <=? _) eqn:D; b2p;
    constructor; cbn [buildSelection Selected TotalIn Change Fee VirtualSize ChangeDroppedToFee
      Request sigOutputs sigInputs sigNetwork]; auto; try lia; try nia.
  replace (0 <? _) with true by lia; done.
Qed.

Lemma SelectCoins_sound req sel :
  short_scripts -> no_overflow req -> SelectCoins' req = Ok sel ->
  exists params d c,
    bitcoinNetParams (reqNetwork req) = Ok params /\
    scriptFor (reqDestination req) params = Ok d /\
    scriptFor (reqChangeAddress req) params = Ok c /\ selection_ok req d c sel.
Proof.
  intros Hs Hno H; destruct (SelectCoins_inv req _ H ltac:(left; done))
    as (params & d & c & Hp & Hd & Hc & Ha & Hr & Hdust & Hacc).
  exists params, d, c; split_and!; auto.
  destruct (spendable_bounds req Hno) as (He & Hl & Ht).
  pose proof (accumulate_spec req d c _ [] (sortCoins (spendableCoins req)) Hno He Hl Ht
    ltac:(eapply scriptForAddress_short; eauto) ltac:(eapply scriptForAddress_short; eauto)) as A.
  change (sum_amounts []) with 0 in A; rewrite Hacc in A.
  destruct A as (p & q & E & (Hpne & Hcov & _) & ->); cbn [app] in *.
  rewrite E in He; apply Forall_app in He as [ He _ ]; apply finish_ok; auto.
  transitivity (sortCoins (spendableCoins req)); [ rewrite E; apply submseteq_inserts_r; done | ].
  rewrite sortCoins_perm; apply sublist_submseteq, filterCoins_sublist.
Qed.

Lemma wallet_total_submseteq l k : l ⊆+ k -> wallet_total l <= wallet_total k.
Proof.
  induction 1 as [ | u l k _ IH | u v l | u l k _ IH | l1 l2 l3 _ IH1 _ IH2 ];
    rewrite ?wallet_total_cons; lia.
Qed.

Lemma sum_amounts_eligible mc l : Forall (eligible mc) l -> sum_amounts l = wallet_total l.
Proof.
  induction 1 as [ | u l [ Hu _ ] _ IH ]; rewrite ?sum_amounts_cons, ?wallet_total_cons; [ done | lia ].
Qed.

(** ** Properties *)

(** Every successful selection is sound: it spends eligible coins of the
    wallet and nothing else, inputs equal amount plus change plus fee, the
    fee is at least the requested rate for the transaction's own size and
    exactly that rate when there is change, no output is dust, and dropped
    change costs less than the dust limit beyond the fee with change. *)
Theorem select_coins_sound req sel :
  short_scripts -> no_overflow req -> SelectCoins' req = Ok sel ->
  exists params d c,
    bitcoinNetParams (reqNetwork req) = Ok params /\
    scriptFor (reqDestination req) params = Ok d /\
    scriptFor (reqChangeAddress req) params = Ok c /\ selection_ok req d c sel.
Proof. apply SelectCoins_sound. Qed.

(** The guards of [SelectCoins], met. *)
Lemma SelectCoins_passes req params d c :
  bitcoinNetParams (reqNetwork req) = Ok params ->
  scriptFor (reqDestination req) params = Ok d -> scriptFor (reqChangeAddress req) params = Ok c ->
  0 < reqAmount req -> 0 < reqFeeRate req ->
  (spendableCoins req <> [] /\ dust d <= reqAmount req /\
     SelectCoins' req = accumulate isP2WPKH req d c [] 0 (sortCoins (spendableCoins req))) \/
  (~ (spendableCoins req <> [] /\ dust d <= reqAmount req) /\
     forall r, SelectCoins' req = r -> is_ok r = false /\ forall a b n, r <> Err (InsufficientFunds a b n)).
Proof.
  intros Hp Hd Hc Ha Hf; unfold SelectCoins; rewrite Hp; cbn [result_bind].
  replace (reqAmount req <=? 0) with false by lia; replace (reqFeeRate req <=? 0) with false by lia.
  rewrite Hd, Hc; cbn [result_bind map_err]; unfold spendableCoins; destruct (filterCoins _ _ _) as [ sp un ]; cbn [fst].
  destruct (len sp =? 0) eqn:L; cbn [andb].
  - right; split; [ intros [ N _ ]; apply N, len_zero; b2p; done | ]; destruct (0 <? un); intros r <-; done.
  - destruct (reqAmount req <? dust d) eqn:D; [ right; split; [ b2p; lia | intros r <-; done ] | left; b2p; split_and!; [ | lia | done ] ].
    intros ->; apply L; done.
Qed.


(** Determinism: the wallet's coins may be listed in any order; the
    outcome, selection or error, is the same (coins being told apart by
    their outpoint). *)
Theorem select_coins_order_independent req coins :
  unique_outpoints (reqUTXOs req) -> reqUTXOs req ≡ₚ coins ->
  SelectCoins' {| reqNetwork := reqNetwork req; reqUTXOs := coins;
                  reqDestination := reqDestination req; reqAmount := reqAmount req;
                  reqFeeRate := reqFeeRate req; reqChangeAddress := reqChangeAddress req;
                  reqMinConfirmations := reqMinConfirmations req |} = SelectCoins' req.
Proof.
  intros Hu Hp; unfold SelectCoins; cbn [reqNetwork reqUTXOs reqDestination reqAmount reqFeeRate
    reqChangeAddress reqMinConfirmations].
  set (mc := default 1 _); destruct (filterCoins_perm mc _ _ Hp) as [ P E ].
  assert (unique_outpoints (fst (filterCoins isP2WPKH mc (reqUTXOs req)))) as Hu'.
  { intros u v Hin1 Hin2; apply Hu; eapply elem_of_submseteq; eauto using sublist_submseteq, filterCoins_sublist. }
  destruct (filterCoins isP2WPKH mc (reqUTXOs req)) as [ sp un ] eqn:F1.
  destruct (filterCoins isP2WPKH mc coins) as [ sp' un' ]; cbn [fst snd] in *; subst un'.
  rewrite (sortCoins_unique sp sp' Hu' P).
  assert (len sp' = len sp) as -> by (unfold len; rewrite P; done).
  assert (forall d c sel t rest, accumulate isP2WPKH
    {| reqNetwork := reqNetwork req; reqUTXOs := coins; reqDestination := reqDestination req;
       reqAmount := reqAmount req; reqFeeRate := reqFeeRate req;
       reqChangeAddress := reqChangeAddress req; reqMinConfirmations := reqMinConfirmations req |}
    d c sel t rest = accumulate isP2WPKH req d c sel t rest) as A.
  { intros d c sel t rest; revert sel t; induction rest as [ | u rest IH ]; intros sel t; [ done | ].
    cbn [accumulate]; rewrite !IH; done. }
  repeat (destruct (bitcoinNetParams (reqNetwork req)) as [ params | | ]; cbn [result_bind]; [ | done | done ]).
  destruct (_ <=? 0); [ done | ]; destruct (_ <=? 0); [ done | ].
  destruct (map_err _ _); cbn [result_bind]; [ | done | done ].
  destruct (map_err _ _); cbn [result_bind]; [ | done | done ].
  rewrite A; done.
Qed.

End Facts.

(** ** Concrete wallets *)

Definition sampleP2WPKH (b : bytes) : bool :=
  (len b =? 22) && bool_decide (take 2 b = [ 0; 20 ]).
Definition sampleScript : bytes := 0 :: 20 :: replicate 20 7.
Definition sampleDecode (a : string) (_ : Params) : option string := Some a.
Definition samplePay (_ : string) : option bytes := Some sampleScript.

Definition sampleCoin (txid : string) (amount : Z) : UTXO :=
  {| Txid := txid; Vout := 0; Amount := amount; Script := hex_encode sampleScript; Confirmations := 6 |}.

Definition sampleRequest (amount rate : Z) : CoinSelectionRequest :=
  {| reqNetwork := "regtest"; reqUTXOs := [ sampleCoin "aa" 5000; sampleCoin "bb" 90000; sampleCoin "cc" 70000 ];
     reqDestination := "dest"; reqAmount := amount; reqFeeRate := rate;
     reqChangeAddress := "change"; reqMinConfirmations := None |}.

Abbreviation sampleSelect :=
  (SelectCoins string sampleDecode (fun _ _ => true) samplePay sampleP2WPKH).

Lemma samplePay_short : short_scripts string samplePay.
Proof. intros a s E; injection E as <-; vm_compute; discriminate. Qed.

Lemma sample_no_overflow : no_overflow (sampleRequest 100000 3).
Proof. unfold no_overflow; split_and!; vm_compute; try reflexivity; discriminate. Qed.

Lemma select_coins_sound_witness :
  exists sel, sampleSelect (sampleRequest 100000 3) = Ok sel /\
  exists params d c,
    bitcoinNetParams "regtest" = Ok params /\
    scriptForAddress string sampleDecode (fun _ _ => true) samplePay "dest" params = Ok d /\
    scriptForAddress string sampleDecode (fun _ _ => true) samplePay "change" params = Ok c /\
    selection_ok sampleP2WPKH (sampleRequest 100000 3) d c sel.
Proof.
  eexists; split; [ vm_compute; reflexivity | ].
  apply (select_coins_sound string sampleDecode (fun _ _ => true) samplePay sampleP2WPKH
           (sampleRequest 100000 3) _ samplePay_short sample_no_overflow).
  vm_compute; reflexivity.
Defined.


Lemma select_coins_order_independent_witness :
  sampleSelect {| reqNetwork := "regtest"; reqUTXOs := reverse (reqUTXOs (sampleRequest 100000 3));
     reqDestination := "dest"; reqAmount := 100000; reqFeeRate := 3; reqChangeAddress := "change";
     reqMinConfirmations := None |} = sampleSelect (sampleRequest 100000 3).
Proof.
  apply (select_coins_order_independent string sampleDecode (fun _ _ => true) samplePay sampleP2WPKH
           (sampleRequest 100000 3)).
  - intros u v Hu Hv; cbn [reqUTXOs sampleRequest] in Hu, Hv.
    rewrite !list_elem_of_In in Hu, Hv; cbn [In] in Hu, Hv.
    intuition; subst; cbn in *; congruence.
  - symmetry; apply reverse_Permutation.
Defined.

(** An unbounded fee rate defeats the arithmetic: with a positive
    amount and a positive fee rate, the int64 fee of a real selection can wrap
    to a negative number, and the change then exceeds everything spent. *)
Theorem select_coins_fee_overflow :
  exists rate sel, 0 < rate < two63 /\ sampleSelect (sampleRequest 100000 rate) = Ok sel /\
    Fee sel < 0 /\ TotalIn sel < Change sel.
Proof.
  exists 90071992547409920; eexists; split; [ unfold two63; lia | ].
  split; [ vm_compute; reflexivity | vm_compute; split; reflexivity ].
Qed.

End CoinSelect.
