(* ===== verification/BitcoinPlan.v ===== *)
(** * Bitcoin transactions for a threshold key

    Models [services/mpc-signer/chains/bitcoin_threshold.go]: building the
    unsigned transaction and its digests ([PlanBitcoinTransaction]) and
    putting the committee's signatures back ([AssembleBitcoinTransaction]).

    Transaction hashing, serialisation, the script builder and the script
    engine are btcd's and parameters here.  The theorems: a plan describes
    exactly the request (same outpoints, same payments, one digest per input),
    its implied fee is never negative nor more than what is sent, a selection
    made by [SelectCoins] is never refused for its outputs, and an assembled
    transaction has low-S signatures and passed the script engine. *)

From Stdlib Require Import ZArith Lia Ascii String.
From stdpp Require Import base list numbers strings.
From S2P Require Import Prelude GoStrings GoText EthCrypto CoinSelect.
Import CoinSelect.

Open Scope Z_scope.

Module BitcoinPlan.

(** ** Data *)

Record TxIn (H : Type) := { prevHash : H; prevIndex : Z }.
Arguments prevHash {H} _.
Arguments prevIndex {H} _.
Record TxOut := { outValue : Z; pkScript : bytes }.

Record UnsignedTx (H : Type) := { txIns : list (TxIn H); txOuts : list TxOut }.
Arguments txIns {H} _.
Arguments txOuts {H} _.

Record BitcoinSigningPlan := {
  UnsignedTxHex : string;
  SigHashes : list string;
  PrevScripts : list string;
  Witness : list bool;
  Amounts : list Z;
}.

Record BitcoinInputSignature := { sigR : string; sigS : string }.

Inductive PlanErr : Type :=
| NetErr (e : BtcErr)
| NoInputs
| NoOutputs
| InvalidTxid (i : Z)
| NegativeVout (i : Z)
| NonPositiveOutput (i : Z)
| OutputAddress (i : Z)
| OutputNetwork (i : Z)
| OutputScript (i : Z)
| DustOutput (i : Z)
| OutputsExceedInputs
| ImpliedFeeTooHigh
| InputScriptHex (i : Z)
| InputNoScript (i : Z)
| SegwitNoAmount (i : Z)
| NotWitnessProgram (i : Z)
| SighashFailed (i : Z)
| SerializeFailed
| NoPlan
| SignatureCount (got want : Z)
| BadPubKeyHex
| BadPubKey
| BadUnsignedHex
| DeserializeFailed
| InputCount
| BadR (i : Z)
| BadS (i : Z)
| SigScriptFailed (i : Z)
| PrevScriptHex (i : Z)
| EngineBuild (i : Z)
| EngineRefused (i : Z).

(** [stripHexPrefix] *)
Definition stripHexPrefix (s : string) : string :=
  match s with
  | String a (String b r) =>
      if Ascii.eqb a "0" && (Ascii.eqb b "x" || Ascii.eqb b "X") then r else s
  | _ => s
  end.

(** The scriptCode BIP143 hashes for a P2WPKH program: the legacy script over
    the same 20-byte key hash ([AddData] of 20 bytes is the push opcode 0x14). *)
Definition p2pkhScriptForWitnessProgram (witnessProgram : bytes) : option bytes :=
  match witnessProgram with
  | 0 :: 20 :: keyHash =>
      if len keyHash =? 20 then Some ([ 118; 169; 20 ] ++ keyHash ++ [ 136; 172 ]) else None
  | _ => None
  end.

(** Low-S normalisation. *)
Definition halfOrder : Z := Z.shiftr EthCrypto.curveN 1.
Definition normalizeS (s : Z) : Z := if halfOrder <? s then EthCrypto.curveN - s else s.

Section Planning.
Variable Addr : Type.
Variable decodeAddress : string -> Params -> option Addr.
Variable isForNet : Addr -> Params -> bool.
Variable payToAddrScript : Addr -> option bytes.
Variable isP2WPKH : bytes -> bool.
(** chainhash and wire *)
Variable Hash : Type.
Variable newHashFromStr : string -> option Hash.
Variable serialize : UnsignedTx Hash -> option bytes.
(** [CalcWitnessSigHash(script, sigHashes, SigHashAll, tx, i, amount)] and
    [CalcSignatureHash(script, SigHashAll, tx, i)] *)
Variable witnessSigHash : bytes -> UnsignedTx Hash -> Z -> Z -> option bytes.
Variable legacySigHash : bytes -> UnsignedTx Hash -> Z -> option bytes.

Fixpoint addInputs (i : Z) (ins : list BitcoinInput) : result PlanErr (list (TxIn Hash)) :=
  match ins with
  | [] => Ok []
  | x :: ins =>
      match newHashFromStr (inTxid x) with
      | None => Err (InvalidTxid i)
      | Some h =>
          refuse! inVout x <? 0 with NegativeVout i;
          let! rest := addInputs (i + 1) ins in
          Ok ({| prevHash := h; prevIndex := u32 (inVout x) |} :: rest)
      end
  end.

(** The output loop; [totalOut] is an int64 running sum. *)
Fixpoint addOutputs (params : Params) (i totalOut : Z) (outs : list BitcoinOutput)
  : result PlanErr (list TxOut * Z) :=
  match outs with
  | [] => Ok ([], totalOut)
  | x :: outs =>
      refuse! outAmount x <=? 0 with NonPositiveOutput i;
      match decodeAddress (outAddress x) params with
      | None => Err (OutputAddress i)
      | Some addr =>
          refuse! negb (isForNet addr params) with OutputNetwork i;
          match payToAddrScript addr with
          | None => Err (OutputScript i)
          | Some script =>
              refuse! outAmount x <? dustThreshold isP2WPKH script with DustOutput i;
              let! rest := addOutputs params (i + 1) (i64 (totalOut + outAmount x)) outs in
              Ok ({| outValue := outAmount x; pkScript := script |} :: fst rest, snd rest)
          end
      end
  end.

Definition totalInputs (ins : list BitcoinInput) : Z :=
  fold_left (fun t x => i64 (t + inAmount x)) ins 0.

Definition checkFee (totalIn totalOut : Z) : result PlanErr unit :=
  if 0 <? totalIn then
    let fee := i64 (totalIn - totalOut) in
    refuse! fee <? 0 with OutputsExceedInputs;
    refuse! (0 <? totalOut) && (totalOut <? fee) with ImpliedFeeTooHigh;
    Ok tt
  else Ok tt.

(** The digest of one input. *)
Definition digestInput (tx : UnsignedTx Hash) (i : Z) (x : BitcoinInput)
  : result PlanErr (bytes * bool) :=
  match hex_decode (inScript x) with
  | None => Err (InputScriptHex i)
  | Some prevScript =>
      refuse! len prevScript =? 0 with InputNoScript i;
      if isP2WPKH prevScript then
        refuse! inAmount x <=? 0 with SegwitNoAmount i;
        match p2pkhScriptForWitnessProgram prevScript with
        | None => Err (NotWitnessProgram i)
        | Some script =>
            match witnessSigHash script tx i (inAmount x) with
            | None => Err (SighashFailed i)
            | Some digest => Ok (digest, true)
            end
        end
      else
        match legacySigHash prevScript tx i with
        | None => Err (SighashFailed i)
        | Some digest => Ok (digest, false)
        end
  end.

Fixpoint digestInputs (tx : UnsignedTx Hash) (i : Z) (ins : list BitcoinInput)
  : result PlanErr (list (bytes * bool)) :=
  match ins with
  | [] => Ok []
  | x :: ins =>
      let! d := digestInput tx i x in
      let! rest := digestInputs tx (i + 1) ins in
      Ok (d :: rest)
  end.

Definition PlanBitcoinTransaction (req : BitcoinSigningRequest) : result PlanErr BitcoinSigningPlan :=
  let! params := map_err NetErr (bitcoinNetParams (sigNetwork req)) in
  refuse! len (sigInputs req) =? 0 with NoInputs;
  refuse! len (sigOutputs req) =? 0 with NoOutputs;
  let! ins := addInputs 0 (sigInputs req) in
  let! outs := addOutputs params 0 0 (sigOutputs req) in
  let! _u := checkFee (totalInputs (sigInputs req)) (snd outs) in
  let tx := {| txIns := ins; txOuts := fst outs |} in
  let! digests := digestInputs tx 0 (sigInputs req) in
  match serialize tx with
  | None => Err SerializeFailed
  | Some raw =>
      Ok {| UnsignedTxHex := hex_encode raw;
            SigHashes := (fun d => hex_encode (fst d)) <$> digests;
            PrevScripts := inScript <$> sigInputs req;
            Witness := snd <$> digests;
            Amounts := inAmount <$> sigInputs req |}
  end.
End Planning.

(** ** Assembly *)

(** [wire.MsgTx]: what assembly reads and writes of it.  [msgRest] stands for
    the version and the lock time. *)
Record MsgTxIn (H : Type) := { msgPrev : TxIn H; SignatureScript : bytes; TxWitness : list bytes }.
Arguments msgPrev {H} _.
Arguments SignatureScript {H} _.
Arguments TxWitness {H} _.

Record MsgTx (H R : Type) := { msgIns : list (MsgTxIn H); msgOuts : list TxOut; msgRest : R }.
Arguments msgIns {H R} _.
Arguments msgOuts {H R} _.
Arguments msgRest {H R} _.

(** The assignments [tx.TxIn[i].Witness = w; tx.TxIn[i].SignatureScript = nil]
    and [tx.TxIn[i].SignatureScript = script].  The caller has checked that
    [i] is in range. *)
Definition setWitness {H} (w : list bytes) (t : MsgTxIn H) : MsgTxIn H :=
  {| msgPrev := msgPrev t; SignatureScript := []; TxWitness := w |}.

Definition setScript {H} (script : bytes) (t : MsgTxIn H) : MsgTxIn H :=
  {| msgPrev := msgPrev t; SignatureScript := script; TxWitness := TxWitness t |}.

Definition updateInput {H R} (i : nat) (f : MsgTxIn H -> MsgTxIn H) (tx : MsgTx H R) : MsgTx H R :=
  {| msgIns := alter f i (msgIns tx); msgOuts := msgOuts tx; msgRest := msgRest tx |}.

Section Assembly.
Variable Hash Rest : Type.
Variable PubKey : Type.
Variable parsePubKey : bytes -> option PubKey.
Variable serializeCompressed : PubKey -> bytes.
Variable deserialize : bytes -> option (MsgTx Hash Rest).
Variable serializeTx : MsgTx Hash Rest -> option bytes.
(** DER encoding of [(r, s)] and [NewScriptBuilder().AddData(..).AddData(..).Script()] *)
Variable derSerialize : Z -> Z -> bytes.
Variable pushTwo : bytes -> bytes -> option bytes.
(** [txscript.NewEngine(...)] then [Execute]: [None] when no engine can be built *)
Variable runEngine : bytes -> MsgTx Hash Rest -> Z -> Z -> option bool.

Definition signInput (plan : BitcoinSigningPlan) (pubKey : bytes) (tx : MsgTx Hash Rest) (i : nat)
    (sig : BitcoinInputSignature) : result PlanErr (MsgTx Hash Rest) :=
  match big_of_hex (stripHexPrefix (sigR sig)) with
  | None => Err (BadR (Z.of_nat i))
  | Some r =>
      match big_of_hex (stripHexPrefix (sigS sig)) with
      | None => Err (BadS (Z.of_nat i))
      | Some s =>
          let sigWithHashType := derSerialize r (normalizeS s) ++ [ 1 ] in
          match Witness plan !! i with
          | Some true => Ok (updateInput i (setWitness [ sigWithHashType; pubKey ]) tx)
          | _ =>
              match pushTwo sigWithHashType pubKey with
              | None => Err (SigScriptFailed (Z.of_nat i))
              | Some script => Ok (updateInput i (setScript script) tx)
              end
          end
      end
  end.

Fixpoint signInputs (plan : BitcoinSigningPlan) (pubKey : bytes) (tx : MsgTx Hash Rest) (i : nat)
    (sigs : list BitcoinInputSignature) : result PlanErr (MsgTx Hash Rest) :=
  match sigs with
  | [] => Ok tx
  | sig :: sigs =>
      let! tx := signInput plan pubKey tx i sig in
      signInputs plan pubKey tx (S i) sigs
  end.

Fixpoint checkScripts (plan : BitcoinSigningPlan) (tx : MsgTx Hash Rest) (i : nat) (scripts : list string)
  : result PlanErr unit :=
  match scripts with
  | [] => Ok tt
  | h :: scripts =>
      match hex_decode h with
      | None => Err (PrevScriptHex (Z.of_nat i))
      | Some prevScript =>
          let amount := default 0 (Amounts plan !! i) in
          match runEngine prevScript tx (Z.of_nat i) amount with
          | None => Err (EngineBuild (Z.of_nat i))
          | Some false => Err (EngineRefused (Z.of_nat i))
          | Some true => checkScripts plan tx (S i) scripts
          end
      end
  end.

Definition AssembleBitcoinTransaction (plan : option BitcoinSigningPlan)
    (sigs : list BitcoinInputSignature) (pubKeyHex : string) : result PlanErr bytes :=
  match plan with
  | None => Err NoPlan
  | Some plan =>
      refuse! negb (len sigs =? len (SigHashes plan))
        with SignatureCount (len sigs) (len (SigHashes plan));
      match hex_decode (stripHexPrefix pubKeyHex) with
      | None => Err BadPubKeyHex
      | Some rawPubKey =>
          match parsePubKey rawPubKey with
          | None => Err BadPubKey
          | Some pk =>
              let pubKeyBytes := serializeCompressed pk in
              match hex_decode (UnsignedTxHex plan) with
              | None => Err BadUnsignedHex
              | Some rawTx =>
                  match deserialize rawTx with
                  | None => Err DeserializeFailed
                  | Some tx =>
                      refuse! negb (len (msgIns tx) =? len sigs) with InputCount;
                      let! tx := signInputs plan pubKeyBytes tx 0 sigs in
                      let! _u := checkScripts plan tx 0 (PrevScripts plan) in
                      match serializeTx tx with
                      | None => Err SerializeFailed
                      | Some raw => Ok raw
                      end
                  end
              end
          end
      end
  end.
End Assembly.

(** ** What a plan contains *)

Section Facts.
Context (Addr : Type) (decodeAddress : string -> Params -> option Addr)
  (isForNet : Addr -> Params -> bool) (payToAddrScript : Addr -> option bytes)
  (isP2WPKH : bytes -> bool)
  (Hash : Type) (newHashFromStr : string -> option Hash)
  (serialize : UnsignedTx Hash -> option bytes)
  (witnessSigHash : bytes -> UnsignedTx Hash -> Z -> Z -> option bytes)
  (legacySigHash : bytes -> UnsignedTx Hash -> Z -> option bytes).

Abbreviation Plan := (PlanBitcoinTransaction Addr decodeAddress isForNet payToAddrScript isP2WPKH
  Hash newHashFromStr serialize witnessSigHash legacySigHash).
Abbreviation digest := (digestInput isP2WPKH Hash witnessSigHash legacySigHash).
Abbreviation outputs := (addOutputs Addr decodeAddress isForNet payToAddrScript isP2WPKH).
Abbreviation scriptFor := (scriptForAddress Addr decodeAddress isForNet payToAddrScript).

(** An input of the transaction spends the outpoint of the request. *)
Definition spends (t : TxIn Hash) (x : BitcoinInput) : Prop :=
  newHashFromStr (inTxid x) = Some (prevHash t) /\ 0 <= inVout x /\ prevIndex t = u32 (inVout x).

(** An output pays the requested address, on its network, above dust. *)
Definition pays (params : Params) (t : TxOut) (x : BitcoinOutput) : Prop :=
  outValue t = outAmount x /\ 0 < outAmount x /\
  dustThreshold isP2WPKH (pkScript t) <= outAmount x /\
  exists a, decodeAddress (outAddress x) params = Some a /\ isForNet a params = true
            /\ payToAddrScript a = Some (pkScript t).

Lemma addInputs_ok i ins l :
  addInputs Hash newHashFromStr i ins = Ok l -> Forall2 spends l ins.
Proof.
  revert i l; induction ins as [ | x ins IH ]; intros i l H; cbn in H; [ simplify_eq; constructor | ].
  destruct (newHashFromStr (inTxid x)) as [ h | ] eqn:Eh; [ | done ]; inv_ok; b2p.
  constructor; [ | eauto ]; split_and!; auto.
Qed.

Lemma addOutputs_ok params i t outs l :
  outputs params i t outs = Ok l -> Forall2 (pays params) (fst l) outs.
Proof.
  revert i t l; induction outs as [ | x outs IH ]; intros i t l H; cbn in H; [ simplify_eq; constructor | ].
  destruct (outAmount x <=? 0) eqn:A; [ done | ].
  destruct (decodeAddress (outAddress x) params) as [ a | ] eqn:Ea; [ | done ].
  destruct (negb (isForNet a params)) eqn:En; [ done | ].
  destruct (payToAddrScript a) as [ s | ] eqn:Es; [ | done ].
  destruct (_ <? _) eqn:D; [ done | ]; inv_ok; b2p; cbn [fst].
  constructor; [ | eauto ]; split_and!; eauto.
Qed.

Definition sum_outputs (l : list BitcoinOutput) : Z := foldr (fun x n => outAmount x + n) 0 l.
Definition sum_inputs (l : list BitcoinInput) : Z := foldr (fun x n => inAmount x + n) 0 l.

Lemma sum_outputs_cons x l : sum_outputs (x :: l) = outAmount x + sum_outputs l.
Proof. reflexivity. Qed.

Lemma sum_inputs_cons x l : sum_inputs (x :: l) = inAmount x + sum_inputs l.
Proof. reflexivity. Qed.

Lemma addOutputs_positive params i t outs l :
  outputs params i t outs = Ok l ->
  0 <= sum_outputs outs /\ (len outs <> 0 -> 0 < sum_outputs outs).
Proof.
  intros H; apply addOutputs_ok in H; induction H as [ | a x l0 k (_ & Hp & _) _ IH ]; [ done | ].
  rewrite sum_outputs_cons; lia.
Qed.

(** Without overflow the running sum is the sum. *)
Lemma addOutputs_total params i t outs l :
  outputs params i t outs = Ok l -> 0 <= t -> t + sum_outputs outs < two63 ->
  snd l = t + sum_outputs outs.
Proof.
  revert i t l; induction outs as [ | x outs IH ]; intros i t l H Ht Hs.
  { cbn in H; simplify_eq; cbn; lia. }
  rewrite sum_outputs_cons in Hs |- *; cbn in H.
  destruct (outAmount x <=? 0) eqn:A; [ done | ].
  destruct (decodeAddress (outAddress x) params) as [ a | ]; [ | done ].
  destruct (negb (isForNet a params)); [ done | ].
  destruct (payToAddrScript a) as [ s | ]; [ | done ].
  destruct (_ <? _); [ done | ]; inv_ok; b2p.
  match goal with E : outputs _ _ _ outs = Ok _ |- _ =>
    pose proof (addOutputs_positive _ _ _ _ _ E); apply IH in E end.
  - match goal with E : snd _ = i64 _ + _ |- _ => rewrite i64_id in E by
      (unfold in_i64, two63 in *; lia); cbn [snd]; lia end.
  - rewrite i64_id by (unfold in_i64, two63 in *; lia); lia.
  - rewrite i64_id by (unfold in_i64, two63 in *; lia); lia.
Qed.

Lemma totalInputs_sum ins :
  Forall (fun x => 0 <= inAmount x) ins -> sum_inputs ins < two63 -> totalInputs ins = sum_inputs ins.
Proof.
  unfold totalInputs; intros Hp Hs.
  assert (forall t, 0 <= t -> t + sum_inputs ins < two63 ->
    fold_left (fun t x => i64 (t + inAmount x)) ins t = t + sum_inputs ins) as G.
  { clear Hs; induction Hp as [ | x ins Hx Hp IH ]; intros t Ht Hs; cbn [fold_left];
      [ cbn; lia | rewrite sum_inputs_cons in Hs |- * ].
    assert (0 <= sum_inputs ins)
      by (clear -Hp; induction Hp as [ | y l ? _ ? ]; [ done | rewrite sum_inputs_cons; lia ]).
    rewrite i64_id by (unfold in_i64, two63 in *; lia); rewrite IH; lia. }
  rewrite G; lia.
Qed.

Lemma digestInputs_ok tx i ins l :
  digestInputs isP2WPKH Hash witnessSigHash legacySigHash tx i ins = Ok l ->
  length l = length ins /\
  forall k x, ins !! k = Some x ->
    exists d w, l !! k = Some (d, w) /\ digest tx (i + Z.of_nat k) x = Ok (d, w).
Proof.
  revert i l; induction ins as [ | x ins IH ]; intros i l H; cbn in H; [ simplify_eq; done | ].
  inv_ok; match goal with E : digestInputs _ _ _ _ _ _ ins = Ok _ |- _ => apply IH in E as [ L G ] end.
  split; [ cbn; lia | ]; intros [ | k ] y Hk; cbn in Hk |- *.
  - simplify_eq; match goal with E : digest tx i y = Ok ?d |- _ => destruct d as [ b w ];
      exists b, w; rewrite Z.add_0_r; auto end.
  - destruct (G k y Hk) as (d & w & ? & E); exists d, w; split; [ done | ].
    rewrite <- E; f_equal; lia.
Qed.

Lemma digestInput_witness tx i x d w :
  digest tx i x = Ok (d, w) ->
  exists s, hex_decode (inScript x) = Some s /\ w = isP2WPKH s /\ (w = true -> 0 < inAmount x).
Proof.
  unfold digestInput; intros H; destruct (hex_decode (inScript x)) as [ s | ]; [ | done ].
  exists s; destruct (len s =? 0); [ done | ]; destruct (isP2WPKH s).
  - destruct (inAmount x <=? 0) eqn:A; [ done | ]; b2p.
    destruct (p2pkhScriptForWitnessProgram s); [ | done ].
    destruct (witnessSigHash _ _ _ _); simplify_eq; auto.
  - destruct (legacySigHash _ _ _); simplify_eq; split_and!; done.
Qed.

(** ** Properties of planning *)

Lemma planned_ok req plan :
  Plan req = Ok plan ->
  exists params tx raw,
    bitcoinNetParams (sigNetwork req) = Ok params /\
    serialize tx = Some raw /\ UnsignedTxHex plan = hex_encode raw /\
    Forall2 spends (txIns tx) (sigInputs req) /\ Forall2 (pays params) (txOuts tx) (sigOutputs req) /\
    length (SigHashes plan) = length (sigInputs req) /\
    PrevScripts plan = inScript <$> sigInputs req /\ Amounts plan = inAmount <$> sigInputs req /\
    (forall k x, sigInputs req !! k = Some x ->
       exists d w, digest tx (Z.of_nat k) x = Ok (d, w) /\
         SigHashes plan !! k = Some (hex_encode d) /\ Witness plan !! k = Some w) /\
    (Forall (fun x => 0 <= inAmount x) (sigInputs req) -> sum_inputs (sigInputs req) < two63 ->
     sum_outputs (sigOutputs req) < two63 -> 0 < sum_inputs (sigInputs req) ->
     0 <= sum_inputs (sigInputs req) - sum_outputs (sigOutputs req) <= sum_outputs (sigOutputs req)).
Proof.
  unfold PlanBitcoinTransaction; intros H; inv_ok.
  destruct (serialize _) as [ raw | ] eqn:Es; [ | done ]; injection H as <-; cbn.
  match goal with
  | N : bitcoinNetParams _ = Ok ?p, I : addInputs _ _ _ _ = Ok ?ins, O : outputs _ _ _ _ = Ok ?outs,
    D : digestInputs _ _ _ _ _ _ _ = Ok ?ds, F : checkFee _ _ = Ok _ |- _ =>
      exists p, {| txIns := ins; txOuts := fst outs |}, raw; cbn [txIns txOuts];
      apply addInputs_ok in I; pose proof (addOutputs_positive _ _ _ _ _ O) as P;
      pose proof (addOutputs_total _ _ _ _ _ O) as T; apply addOutputs_ok in O;
      apply digestInputs_ok in D as [ L G ]; rename F into Hfee
  end.
  split_and!; auto.
  - rewrite length_fmap; done.
  - intros k x Hk; destruct (G k x Hk) as (d & w & E1 & E2); exists d, w.
    rewrite !list_lookup_fmap, E1; done.
  - intros Hp Hi Ho Hpos; rewrite (totalInputs_sum _ Hp Hi), T in Hfee by lia; cbn [Z.add] in Hfee.
    unfold checkFee in Hfee; replace (0 <? _) with true in Hfee by lia.
    rewrite i64_id in Hfee by (unfold in_i64, two63 in *; lia); inv_ok; b2p.
    match goal with E : _ && _ = false |- _ => apply andb_false_iff in E as [ E | E ]; b2p; lia end.
Qed.

(** A plan is faithful to its request: the serialised transaction
    spends exactly the requested outpoints and pays exactly the requested
    addresses above dust, there is one digest per input, computed over that
    same transaction and flagged segwit when its script is, and (amounts
    below 2^63 in total) the implied fee is between zero and the amount sent. *)
Theorem plan_faithful req plan :
  Plan req = Ok plan ->
  exists params tx raw,
    bitcoinNetParams (sigNetwork req) = Ok params /\
    serialize tx = Some raw /\ UnsignedTxHex plan = hex_encode raw /\
    Forall2 spends (txIns tx) (sigInputs req) /\ Forall2 (pays params) (txOuts tx) (sigOutputs req) /\
    length (SigHashes plan) = length (sigInputs req) /\
    PrevScripts plan = inScript <$> sigInputs req /\ Amounts plan = inAmount <$> sigInputs req /\
    (forall k x, sigInputs req !! k = Some x ->
       exists d w, digest tx (Z.of_nat k) x = Ok (d, w) /\
         SigHashes plan !! k = Some (hex_encode d) /\ Witness plan !! k = Some w) /\
    (Forall (fun x => 0 <= inAmount x) (sigInputs req) -> sum_inputs (sigInputs req) < two63 ->
     sum_outputs (sigOutputs req) < two63 -> 0 < sum_inputs (sigInputs req) ->
     0 <= sum_inputs (sigInputs req) - sum_outputs (sigOutputs req) <= sum_outputs (sigOutputs req)).
Proof. apply planned_ok. Qed.

(** The output index is truncated to 32 bits after only its sign is
    checked: adding 2^32 to every index gives the very same plan, so the
    digests authorise spending other outputs than those requested. *)
Theorem plan_vout_truncated req :
  Forall (fun x => 0 <= inVout x) (sigInputs req) ->
  Plan {| sigNetwork := sigNetwork req;
          sigInputs := (fun x => {| inTxid := inTxid x; inVout := inVout x + 4294967296;
                                    inAmount := inAmount x; inScript := inScript x;
                                    inSegWit := inSegWit x |}) <$> sigInputs req;
          sigOutputs := sigOutputs req |} = Plan req.
Proof.
  intros Hv; unfold PlanBitcoinTransaction; cbn [sigNetwork sigInputs sigOutputs].
  set (f := fun x : BitcoinInput => _).
  assert (len (f <$> sigInputs req) = len (sigInputs req)) as ->
    by (unfold len; rewrite length_fmap; done).
  assert (forall i, addInputs Hash newHashFromStr i (f <$> sigInputs req)
                    = addInputs Hash newHashFromStr i (sigInputs req)) as ->.
  { induction Hv as [ | x l Hx _ IH ]; intros i; [ done | ]; cbn [fmap list_fmap addInputs].
    unfold f at 1 2 3; cbn [inTxid inVout]; destruct (newHashFromStr (inTxid x)); [ | done ].
    replace (inVout x + 4294967296 <? 0) with (inVout x <? 0) by lia.
    unfold f in IH; rewrite IH; unfold u32.
    replace (inVout x + 4294967296) with (inVout x + 1 * 4294967296) by lia.
    rewrite Z.mod_add by lia; done. }
  assert (totalInputs (f <$> sigInputs req) = totalInputs (sigInputs req)) as ->.
  { unfold totalInputs; generalize 0; clear Hv; induction (sigInputs req) as [ | x l IH ]; intros t;
      [ done | apply IH ]. }
  assert (forall tx i, digestInputs isP2WPKH Hash witnessSigHash legacySigHash tx i (f <$> sigInputs req)
            = digestInputs isP2WPKH Hash witnessSigHash legacySigHash tx i (sigInputs req)) as D.
  { clear Hv; intros tx; induction (sigInputs req) as [ | x l IH ]; intros i; [ done | ].
    cbn [fmap list_fmap digestInputs]; rewrite IH; done. }
  assert (inScript <$> (f <$> sigInputs req) = inScript <$> sigInputs req) as ->
    by (rewrite <- list_fmap_compose; done).
  assert (inAmount <$> (f <$> sigInputs req) = inAmount <$> sigInputs req) as ->
    by (rewrite <- list_fmap_compose; done).
  repeat (destruct (map_err _ _); cbn [result_bind]; [ | done | done ]).
  destruct (len _ =? 0); [ done | ]; destruct (len _ =? 0); [ done | ].
  destruct (addInputs _ _ _ _); cbn [result_bind]; [ | done | done ].
  destruct (addOutputs _ _ _ _ _ _ _ _ _); cbn [result_bind]; [ | done | done ].
  destruct (checkFee _ _); cbn [result_bind]; [ | done | done ].
  rewrite D; done.
Qed.
(** ** Planning what coin selection decided *)

Lemma scriptFor_inv a params s :
  scriptFor a params = Ok s ->
  exists x, decodeAddress a params = Some x /\ isForNet x params = true /\ payToAddrScript x = Some s.
Proof.
  unfold scriptForAddress; intros H; destruct (String.eqb a ""); [ done | ].
  destruct (decodeAddress a params) as [ x | ]; [ | done ].
  destruct (isForNet x params) eqn:N; cbn [negb] in H; [ | done ].
  destruct (payToAddrScript x) eqn:P; [ simplify_eq; eauto | done ].
Qed.

(** An output a selection makes passes every check of the output loop. *)
Lemma addOutputs_step params i t a s amount outs :
  scriptFor a params = Ok s -> 0 < amount -> dustThreshold isP2WPKH s <= amount ->
  outputs params i t ({| outAddress := a; outAmount := amount |} :: outs) =
    let! rest := outputs params (i + 1) (i64 (t + amount)) outs in
    Ok ({| outValue := amount; pkScript := s |} :: fst rest, snd rest).
Proof.
  intros Hs Ha Hd; apply scriptFor_inv in Hs as (x & Hx & Hn & Hp); cbn [addOutputs outAmount outAddress].
  replace (amount <=? 0) with false by lia; rewrite Hx, Hn, Hp; cbn [negb].
  replace (amount <? _) with false by lia; done.
Qed.

Lemma selection_outputs req params d c sel :
  scriptFor (reqDestination req) params = Ok d -> scriptFor (reqChangeAddress req) params = Ok c ->
  selection_ok isP2WPKH req d c sel -> 0 < reqAmount req ->
  exists l, outputs params 0 0 (sigOutputs (Request sel)) = Ok l /\
            sum_outputs (sigOutputs (Request sel)) = reqAmount req + Change sel.
Proof.
  intros Hd Hc Hok Ha; pose proof (dust_pos isP2WPKH c).
  pose proof (sel_change _ _ _ _ _ Hok) as Hch; pose proof (sel_dest_not_dust _ _ _ _ _ Hok).
  rewrite (sel_outputs _ _ _ _ _ Hok), (addOutputs_step _ _ _ _ d) by done.
  destruct (ChangeDroppedToFee sel); destruct Hch as [ H1 H2 ].
  - eexists; split; [ done | cbn; lia ].
  - rewrite (addOutputs_step _ _ _ _ c) by (done || lia); eexists; split; [ done | cbn; lia ].
Qed.

Lemma addInputs_err i ins e :
  addInputs Hash newHashFromStr i ins = Err e -> exists k, e = InvalidTxid k \/ e = NegativeVout k.
Proof.
  revert i; induction ins as [ | x ins IH ]; intros i H; cbn in H; [ done | ].
  destruct (newHashFromStr (inTxid x)); [ | simplify_eq; eauto ].
  destruct (inVout x <? 0); [ simplify_eq; eauto | ].
  destruct (addInputs _ _ _ _) eqn:E; simplify_eq/=; eauto.
Qed.

Lemma addInputs_no_panic i ins : addInputs Hash newHashFromStr i ins <> Panic.
Proof.
  revert i; induction ins as [ | x ins IH ]; intros i H; cbn in H; [ done | ].
  destruct (newHashFromStr (inTxid x)); [ | done ]; destruct (inVout x <? 0); [ done | ].
  destruct (addInputs _ _ _ _) eqn:E; simplify_eq/=; eapply IH; eauto.
Qed.

(** [txscript.IsPayToWitnessPubKeyHash]: a version-0 program of 20 bytes. *)
Definition witness_program_spec : Prop :=
  forall s, isP2WPKH s = true -> exists k, s = 0 :: 20 :: k /\ len k = 20.

(** The only way an eligible coin's digest can fail is in the hash itself. *)
Lemma digest_eligible mc tx i u :
  witness_program_spec -> eligible isP2WPKH mc u ->
  digest tx i (coinInput u) = Err (SighashFailed i) \/ exists d, digest tx i (coinInput u) = Ok d.
Proof.
  intros Hw (Ha & _ & Hs); unfold digestInput, inputWeights in *; cbn [inScript inAmount coinInput].
  destruct (hex_decode (Script u)) as [ s | ]; [ | done ].
  destruct (isP2WPKH s) eqn:W.
  - destruct (Hw s W) as (k & -> & Lk); rewrite !len_cons, Lk; cbn [Z.add Z.eqb].
    change (Z.pos _ =? 0) with false; replace (Amount u <=? 0) with false by lia.
    cbn [p2pkhScriptForWitnessProgram]; rewrite Lk; cbn [Z.eqb Pos.eqb].
    destruct (witnessSigHash _ _ _ _); eauto.
  - destruct (isPayToPubKeyHash s) eqn:P; [ | done ]; unfold isPayToPubKeyHash in P; b2p.
    replace (len s =? 0) with false by lia; destruct (legacySigHash _ _ _); eauto.
Qed.

Lemma digests_eligible mc tx i l :
  witness_program_spec -> Forall (eligible isP2WPKH mc) l ->
  (exists k, digestInputs isP2WPKH Hash witnessSigHash legacySigHash tx i (coinInput <$> l)
             = Err (SighashFailed k))
  \/ exists ds, digestInputs isP2WPKH Hash witnessSigHash legacySigHash tx i (coinInput <$> l) = Ok ds.
Proof.
  intros Hw He; revert i; induction He as [ | u l Hu _ IH ]; intros i; [ right; eexists; done | ].
  cbn [fmap list_fmap digestInputs].
  destruct (digest_eligible mc tx i u Hw Hu) as [ -> | [ d -> ] ]; [ left; eexists; done | ].
  cbn [result_bind]; destruct (IH (i + 1)) as [ [ k -> ] | [ ds -> ] ]; [ left | right ]; eexists; done.
Qed.

Lemma selection_inputs_total req d c sel :
  no_overflow req -> selection_ok isP2WPKH req d c sel ->
  totalInputs (sigInputs (Request sel)) = TotalIn sel /\ 0 <= TotalIn sel < 4611686018427387904.
Proof.
  intros (Hw & _) Hok; pose proof (sel_eligible _ _ _ _ _ Hok) as He.
  pose proof (wallet_total_submseteq _ _ (sel_from_wallet _ _ _ _ _ Hok)) as Hs.
  pose proof (sum_amounts_nonneg isP2WPKH _ _ He).
  rewrite <- (sum_amounts_eligible isP2WPKH _ _ He), <- (sel_total _ _ _ _ _ Hok) in *.
  rewrite (sel_inputs _ _ _ _ _ Hok).
  assert (sum_inputs (coinInput <$> Selected sel) = TotalIn sel) as E.
  { rewrite (sel_total _ _ _ _ _ Hok); clear; induction (Selected sel) as [ | u l IH ]; [ done | ].
    cbn [fmap list_fmap]; rewrite sum_inputs_cons, sum_amounts_cons, IH; done. }
  split; [ | lia ]; rewrite totalInputs_sum; [ done | | unfold two63; lia ].
  clear -He; induction He as [ | u l (Ha & _) _ IH ]; constructor; [ cbn; lia | done ].
Qed.

Lemma selection_nonneg req params d c sel :
  no_overflow req -> selection_ok isP2WPKH req d c sel ->
  scriptFor (reqChangeAddress req) params = Ok c ->
  0 <= VirtualSize sel * reqFeeRate req /\ 0 <= Change sel.
Proof.
  intros Hno Hok Hc; pose proof (dust_pos isP2WPKH c); pose proof (sel_change _ _ _ _ _ Hok) as Q.
  pose proof (len_nonneg d); pose proof (len_nonneg c).
  rewrite (sel_size _ _ _ _ _ Hok); destruct Hno as (_ & _ & Hr & _).
  split; [ | destruct (ChangeDroppedToFee sel); lia ].
  apply Z.mul_nonneg_nonneg; [ | lia ]; apply estimateVirtualSize_bounds.
  destruct (ChangeDroppedToFee sel); cbn; lia.
Qed.

Lemma selection_nonempty req d c sel :
  selection_ok isP2WPKH req d c sel ->
  (len (sigInputs (Request sel)) =? 0) = false /\ (len (sigOutputs (Request sel)) =? 0) = false.
Proof.
  intros Hok; rewrite (sel_inputs _ _ _ _ _ Hok), (sel_outputs _ _ _ _ _ Hok), len_cons.
  pose proof (sel_nonempty _ _ _ _ _ Hok) as Hn; split; apply Z.eqb_neq.
  - unfold len; rewrite length_fmap; destruct (Selected sel); cbn; [ done | lia ].
  - pose proof (len_nonneg (if ChangeDroppedToFee sel then []
      else [ {| outAddress := reqChangeAddress req; outAmount := Change sel |} ])); lia.
Qed.

(** Coin selection and planning agree: a plan made from a selection is
    never refused for its amounts, addresses, dust or scripts.  What can
    still fail is a malformed txid or output index, a fee larger than the
    amount sent, hashing and serialisation. *)
Theorem selection_is_plannable req sel e :
  short_scripts Addr payToAddrScript -> witness_program_spec -> no_overflow req ->
  SelectCoins Addr decodeAddress isForNet payToAddrScript isP2WPKH req = Ok sel ->
  Plan (Request sel) = Err e ->
  (exists i, e = InvalidTxid i \/ e = NegativeVout i \/ e = SighashFailed i)
  \/ e = SerializeFailed
  \/ (e = ImpliedFeeTooHigh /\ reqAmount req + Change sel < Fee sel).
Proof.
  intros Hsh Hw Hno Hsel H.
  destruct (SelectCoins_sound _ _ _ _ _ _ _ Hsh Hno Hsel) as (params & d & c & Hp & Hd & Hc & Hok).
  destruct (selection_inputs_total req d c sel Hno Hok) as [ Hti Hb ].
  assert (0 < reqAmount req) as Ha by apply Hno.
  destruct (selection_outputs req params d c sel Hd Hc Hok Ha) as (outs & Ho & Hso).
  pose proof (sel_balance _ _ _ _ _ Hok) as Hbal; pose proof (sel_rate _ _ _ _ _ Hok) as Hrate.
  destruct (selection_nonneg req params d c sel Hno Hok Hc) as [ Hfee Hchg ].
  pose proof (addOutputs_total _ _ _ _ _ Ho ltac:(lia) ltac:(unfold two63; lia)) as Ht.
  unfold PlanBitcoinTransaction in H; rewrite (sel_network _ _ _ _ _ Hok), Hp in H.
  cbn [map_err result_bind] in H.
  destruct (selection_nonempty req d c sel Hok) as [ Li Lo ]; rewrite Li, Lo in H.
  destruct (addInputs _ _ 0 _) as [ ins | e' | ] eqn:Ei; cbn [result_bind] in H.
  2: { simplify_eq; apply addInputs_err in Ei as [ k [ -> | -> ] ]; eauto. }
  2: { exfalso; eapply addInputs_no_panic; eauto. }
  rewrite Ho in H; cbn [result_bind] in H; rewrite Hti, Ht, Hso in H; cbn [Z.add] in H.
  unfold checkFee in H; destruct (0 <? TotalIn sel) eqn:Hpos; [ | exfalso; b2p; lia ].
  rewrite i64_id in H by (unfold in_i64, two63; lia).
  replace (_ <? 0) with false in H by lia.
  destruct ((0 <? _) && _) eqn:Q; cbn [result_bind] in H;
    [ simplify_eq; b2p; right; right; split; [ done | lia ] | ].
  rewrite (sel_inputs _ _ _ _ _ Hok) in H.
  destruct (digests_eligible _ {| txIns := ins; txOuts := fst outs |} 0 (Selected sel) Hw
    (sel_eligible _ _ _ _ _ Hok)) as [ [ k E ] | [ ds E ] ]; rewrite E in H; cbn [result_bind] in H.
  - simplify_eq; eauto.
  - destruct (serialize _); simplify_eq; eauto.
Qed.

End Facts.

(** ** Assembly *)

Lemma normalizeS_low s : 1 <= s < EthCrypto.curveN -> 1 <= normalizeS s <= halfOrder.
Proof.
  assert (EthCrypto.curveN = 2 * halfOrder + 1) as -> by (vm_compute; reflexivity).
  unfold normalizeS; assert (EthCrypto.curveN = 2 * halfOrder + 1) as -> by (vm_compute; reflexivity).
  generalize halfOrder; intros h; destruct (_ <? _) eqn:E; b2p; lia.
Qed.

Section AssemblyFacts.
Context (Hash Rest PubKey : Type) (parsePubKey : bytes -> option PubKey)
  (serializeCompressed : PubKey -> bytes) (deserialize : bytes -> option (MsgTx Hash Rest))
  (serializeTx : MsgTx Hash Rest -> option bytes) (derSerialize : Z -> Z -> bytes)
  (pushTwo : bytes -> bytes -> option bytes)
  (runEngine : bytes -> MsgTx Hash Rest -> Z -> Z -> option bool).

Abbreviation Assemble := (AssembleBitcoinTransaction Hash Rest PubKey parsePubKey serializeCompressed
  deserialize serializeTx derSerialize pushTwo runEngine).
Abbreviation sign1 := (signInput Hash Rest derSerialize pushTwo).
Abbreviation signs := (signInputs Hash Rest derSerialize pushTwo).

(** What an input looks like once signed: the DER signature of [(r, s)] with
    [s] normalised and the hash type appended, with the key, in the witness
    (and an empty script) or in the script. *)
Definition signed_input (plan : BitcoinSigningPlan) (pubKey : bytes) (i : nat)
    (sig : BitcoinInputSignature) (before after : MsgTxIn Hash) : Prop :=
  exists r s, big_of_hex (stripHexPrefix (sigR sig)) = Some r /\
    big_of_hex (stripHexPrefix (sigS sig)) = Some s /\
    let sg := derSerialize r (normalizeS s) ++ [ 1 ] in
    msgPrev after = msgPrev before /\
    if decide (Witness plan !! i = Some true)
    then TxWitness after = [ sg; pubKey ] /\ SignatureScript after = []
    else TxWitness after = TxWitness before /\ pushTwo sg pubKey = Some (SignatureScript after).

Lemma signInput_ok plan pk tx i sig tx' x :
  sign1 plan pk tx i sig = Ok tx' -> msgIns tx !! i = Some x ->
  msgOuts tx' = msgOuts tx /\ msgRest tx' = msgRest tx /\
  exists y, msgIns tx' = <[ i := y ]> (msgIns tx) /\ signed_input plan pk i sig x y.
Proof.
  unfold signInput, signed_input; intros H Hx.
  destruct (big_of_hex _) as [ r | ]; [ | done ].
  destruct (big_of_hex (stripHexPrefix (sigS sig))) as [ s | ]; [ | done ].
  assert (forall f : MsgTxIn Hash -> MsgTxIn Hash, alter f i (msgIns tx) = <[ i := f x ]> (msgIns tx)) as Al.
  { intros f; apply list_eq; intros j; destruct (decide (i = j)) as [ <- | Hj ].
    - rewrite list_lookup_alter_eq, Hx; cbn; rewrite list_lookup_insert_eq; [ done | ].
      eapply lookup_lt_Some; eauto.
    - rewrite list_lookup_alter_ne, list_lookup_insert_ne; done. }
  destruct (Witness plan !! i) as [ [ | ] | ];
    [ | destruct (pushTwo _ _) as [ scr | ] eqn:P; [ | done ] .. ];
    injection H as <-; cbn [msgOuts msgRest msgIns updateInput]; rewrite Al; (split; [ done | ]);
    (split; [ done | ]); eexists; (split; [ done | ]); exists r, s; do 3 (split; [ done | ]);
    case_decide; cbn; auto; done.
Qed.

Lemma signInputs_ok plan pk sigs : forall tx i tx',
  signs plan pk tx i sigs = Ok tx' -> length (msgIns tx) = (i + length sigs)%nat ->
  msgOuts tx' = msgOuts tx /\ msgRest tx' = msgRest tx /\ length (msgIns tx') = length (msgIns tx) /\
  (forall j, (j < i)%nat -> msgIns tx' !! j = msgIns tx !! j) /\
  (forall k sig, sigs !! k = Some sig -> exists x y,
     msgIns tx !! (i + k)%nat = Some x /\ msgIns tx' !! (i + k)%nat = Some y /\
     signed_input plan pk (i + k) sig x y).
Proof.
  induction sigs as [ | sg sigs IH ]; intros tx i tx' H L; cbn in H, L.
  { simplify_eq; split_and!; done. }
  destruct (lookup_lt_is_Some_2 (msgIns tx) i ltac:(lia)) as [ x Hx ].
  destruct (sign1 plan pk tx i sg) as [ t | | ] eqn:E; [ | done | done ]; cbn in H.
  destruct (signInput_ok _ _ _ _ _ _ _ E Hx) as (Ho & Hr & y & Hi & Hs).
  assert (length (msgIns t) = (S i + length sigs)%nat) as L' by (rewrite Hi, length_insert; lia).
  destruct (IH t (S i) tx' H L') as (Ho' & Hr' & Hl' & Hlt & Hk).
  split_and!; [ congruence | congruence | lia | | ].
  - intros j Hj; rewrite Hlt, Hi, list_lookup_insert_ne by lia; done.
  - intros [ | k ] sig Hs'; cbn in Hs'.
    + simplify_eq; rewrite Nat.add_0_r; exists x, y; split_and!; try done.
      rewrite Hlt, Hi by lia; apply list_lookup_insert_eq; lia.
    + destruct (Hk k sig Hs') as (x' & y' & A & B & C); replace (i + S k)%nat with (S i + k)%nat by lia.
      exists x', y'; split_and!; try done; rewrite Hi, list_lookup_insert_ne in A by lia; done.
Qed.

Lemma checkScripts_ok plan tx scripts : forall i,
  checkScripts Hash Rest runEngine plan tx i scripts = Ok tt ->
  forall k h, scripts !! k = Some h -> exists prev,
    hex_decode h = Some prev /\
    runEngine prev tx (Z.of_nat (i + k)) (default 0 (Amounts plan !! (i + k)%nat)) = Some true.
Proof.
  induction scripts as [ | s0 scripts IH ]; intros i H k h Hk; [ done | ]; cbn in H.
  destruct (hex_decode s0) as [ prev | ] eqn:Eh; [ | done ].
  destruct (runEngine _ _ _ _) as [ [ | ] | ] eqn:Er; try done.
  destruct k as [ | k ]; cbn in Hk.
  - simplify_eq; rewrite Nat.add_0_r; eauto.
  - replace (i + S k)%nat with (S i + k)%nat by lia; eauto.
Qed.

Lemma assembled_ok plan sigs pubKeyHex raw :
  Assemble (Some plan) sigs pubKeyHex = Ok raw ->
  exists pk rawPub rawTx before after,
    hex_decode (stripHexPrefix pubKeyHex) = Some rawPub /\ parsePubKey rawPub = Some pk /\
    hex_decode (UnsignedTxHex plan) = Some rawTx /\ deserialize rawTx = Some before /\
    serializeTx after = Some raw /\
    length sigs = length (SigHashes plan) /\ length sigs = length (msgIns before) /\
    msgOuts after = msgOuts before /\ msgRest after = msgRest before /\
    length (msgIns after) = length (msgIns before) /\
    (forall k sig, sigs !! k = Some sig -> exists x y,
       msgIns before !! k = Some x /\ msgIns after !! k = Some y /\
       signed_input plan (serializeCompressed pk) k sig x y) /\
    (forall k h, PrevScripts plan !! k = Some h -> exists prev, hex_decode h = Some prev /\
       runEngine prev after (Z.of_nat k) (default 0 (Amounts plan !! k)) = Some true).
Proof.
  unfold AssembleBitcoinTransaction; intros H.
  destruct (negb _) eqn:C1; [ done | ].
  destruct (hex_decode (stripHexPrefix pubKeyHex)) as [ rawPub | ]; [ | done ].
  destruct (parsePubKey rawPub) as [ pk | ] eqn:Ep; [ | done ].
  destruct (hex_decode (UnsignedTxHex plan)) as [ rawTx | ]; [ | done ].
  destruct (deserialize rawTx) as [ tx | ] eqn:Ed; [ | done ].
  destruct (negb (len (msgIns tx) =? _)) eqn:C2; [ done | ].
  destruct (signs _ _ _ _ _) as [ tx' | | ] eqn:Es; [ | done | done ]; cbn in H.
  destruct (checkScripts _ _ _ _ _ _ _) as [ [] | | ] eqn:Ec; [ | done | done ]; cbn in H.
  destruct (serializeTx tx') as [ raw' | ] eqn:Er; [ | done ]; injection H as <-.
  apply negb_false_iff, Z.eqb_eq in C1; apply negb_false_iff, Z.eqb_eq in C2; unfold len in *.
  destruct (signInputs_ok _ _ _ _ _ _ Es ltac:(lia)) as (A & B & C & _ & D).
  pose proof (checkScripts_ok _ _ _ _ Ec) as F.
  exists pk, rawPub, rawTx, tx, tx'; split_and!; (done || lia).
Qed.

(** An assembled transaction is the planned one with its inputs
    signed: same outpoints, same outputs, one signature per input, placed
    in the witness exactly for the inputs the plan flags, always over the
    compressed key and with a normalised [s]; and the script engine accepted
    every input of the very bytes returned. *)
Theorem assemble_sound plan sigs pubKeyHex raw :
  Assemble (Some plan) sigs pubKeyHex = Ok raw ->
  exists pk rawPub rawTx before after,
    hex_decode (stripHexPrefix pubKeyHex) = Some rawPub /\ parsePubKey rawPub = Some pk /\
    hex_decode (UnsignedTxHex plan) = Some rawTx /\ deserialize rawTx = Some before /\
    serializeTx after = Some raw /\
    length sigs = length (SigHashes plan) /\ length sigs = length (msgIns before) /\
    msgOuts after = msgOuts before /\ msgRest after = msgRest before /\
    length (msgIns after) = length (msgIns before) /\
    (forall k sig, sigs !! k = Some sig -> exists x y,
       msgIns before !! k = Some x /\ msgIns after !! k = Some y /\
       signed_input plan (serializeCompressed pk) k sig x y) /\
    (forall k h, PrevScripts plan !! k = Some h -> exists prev, hex_decode h = Some prev /\
       runEngine prev after (Z.of_nat k) (default 0 (Amounts plan !! k)) = Some true).
Proof. apply assembled_ok. Qed.
End AssemblyFacts.

(** ** Concrete plans *)

Definition sampleHash (s : string) : option string := Some s.
Definition sampleSerialize (tx : UnsignedTx string) : option bytes := Some [ len (txIns tx); len (txOuts tx) ].
Definition sampleWitnessHash (_ : bytes) (_ : UnsignedTx string) (i amount : Z) : option bytes := Some [ i; 1 ].
Definition sampleLegacyHash (_ : bytes) (_ : UnsignedTx string) (i : Z) : option bytes := Some [ i; 0 ].

Abbreviation samplePlan :=
  (PlanBitcoinTransaction string sampleDecode (fun _ _ => true) samplePay sampleP2WPKH
     string sampleHash sampleSerialize sampleWitnessHash sampleLegacyHash).

Definition sampleInput (txid : string) (amount : Z) : BitcoinInput :=
  {| inTxid := txid; inVout := 1; inAmount := amount; inScript := hex_encode sampleScript; inSegWit := true |}.

Definition sampleSigning : BitcoinSigningRequest :=
  {| sigNetwork := "regtest"; sigInputs := [ sampleInput "aa" 5000; sampleInput "bb" 6000 ];
     sigOutputs := [ {| outAddress := "dest"; outAmount := 10000 |} ] |}.

Definition samplePlanned : BitcoinSigningPlan :=
  {| UnsignedTxHex := "0201"; SigHashes := [ "0001"; "0101" ]%string;
     PrevScripts := [ hex_encode sampleScript; hex_encode sampleScript ];
     Witness := [ true; true ]; Amounts := [ 5000; 6000 ] |}.

Lemma plan_faithful_witness :
  samplePlan sampleSigning = Ok samplePlanned /\
  exists params tx raw,
    bitcoinNetParams "regtest" = Ok params /\ sampleSerialize tx = Some raw /\
    UnsignedTxHex samplePlanned = hex_encode raw /\
    Forall2 (spends string sampleHash) (txIns tx) (sigInputs sampleSigning).
Proof.
  assert (samplePlan sampleSigning = Ok samplePlanned) as E by (vm_compute; reflexivity).
  split; [ exact E | ].
  destruct (plan_faithful _ _ _ _ _ _ _ _ _ _ sampleSigning samplePlanned E)
    as (params & tx & raw & A & B & C & D & _).
  exists params, tx, raw; split_and!; assumption.
Defined.

Lemma plan_vout_truncated_witness :
  samplePlan {| sigNetwork := "regtest";
                sigInputs := (fun x => {| inTxid := inTxid x; inVout := inVout x + 4294967296;
                                inAmount := inAmount x; inScript := inScript x;
                                inSegWit := inSegWit x |}) <$> sigInputs sampleSigning;
                sigOutputs := sigOutputs sampleSigning |} = Ok samplePlanned.
Proof.
  etransitivity; [ apply (plan_vout_truncated _ _ _ _ _ _ _ _ _ _ sampleSigning) | vm_compute; reflexivity ].
  repeat constructor; cbn; discriminate.
Defined.

Lemma sampleP2WPKH_spec : witness_program_spec sampleP2WPKH.
Proof.
  intros s H; unfold sampleP2WPKH in H; b2p; destruct s as [ | a [ | b s ] ]; try done.
  match goal with E : take _ _ = _ |- _ => cbn in E; injection E as -> -> end.
  exists s; split; [ done | ]; rewrite !len_cons in *; lia.
Qed.

(** A selection whose only refusal is the txid the (here refusing) hash parser rejects. *)
Lemma selection_is_plannable_witness :
  exists sel e, sampleSelect (sampleRequest 100000 3) = Ok sel /\
  PlanBitcoinTransaction string sampleDecode (fun _ _ => true) samplePay sampleP2WPKH string
    (fun _ => None) sampleSerialize sampleWitnessHash sampleLegacyHash (Request sel) = Err e /\
  ((exists i, e = InvalidTxid i \/ e = NegativeVout i \/ e = SighashFailed i)
   \/ e = SerializeFailed \/ (e = ImpliedFeeTooHigh /\ 100000 + Change sel < Fee sel)).
Proof.
  eexists; exists (InvalidTxid 0); split; [ vm_compute; reflexivity | split; [ vm_compute; reflexivity | ] ].
  eapply (selection_is_plannable string sampleDecode (fun _ _ => true) samplePay sampleP2WPKH string
    (fun _ => None) sampleSerialize sampleWitnessHash sampleLegacyHash (sampleRequest 100000 3)
    _ _ samplePay_short sampleP2WPKH_spec sample_no_overflow); vm_compute; reflexivity.
Defined.

(** ... and one that is planned. *)
Example selection_planned :
  (let! sel := map_err NetErr (sampleSelect (sampleRequest 100000 3)) in
   let! plan := samplePlan (Request sel) in Ok (Witness plan)) = Ok [ true; true ].
Proof. vm_compute; reflexivity. Qed.

Definition sampleMsgTx : MsgTx string unit :=
  let i := {| msgPrev := {| prevHash := "aa"%string; prevIndex := 1 |}; SignatureScript := []; TxWitness := [] |} in
  {| msgIns := [ i; i ]; msgOuts := []; msgRest := tt |}.

Definition sampleSigs : list BitcoinInputSignature :=
  [ {| sigR := "0x05"; sigS := "07" |}; {| sigR := "0b"; sigS := "0X0d" |} ].

Lemma assemble_sound_witness :
  exists raw (after : MsgTx string unit),
    AssembleBitcoinTransaction string unit bytes Some id (fun _ => Some sampleMsgTx)
      (fun tx => Some (concat (concat (TxWitness <$> msgIns tx)))) (fun r s => [ r; s ])
      (fun a b => Some (a ++ b)) (fun _ tx i _ => Some (i <? len (msgIns tx)))
      (Some samplePlanned) sampleSigs "0x02ff" = Ok raw /\
    raw = [ 5; 7; 1; 2; 255; 11; 13; 1; 2; 255 ] /\
    Some (concat (concat (TxWitness <$> msgIns after))) = Some raw /\ msgOuts after = msgOuts sampleMsgTx.
Proof.
  exists [ 5; 7; 1; 2; 255; 11; 13; 1; 2; 255 ].
  destruct (assemble_sound string unit bytes Some id (fun _ => Some sampleMsgTx)
    (fun tx => Some (concat (concat (TxWitness <$> msgIns tx)))) (fun r s => [ r; s ])
    (fun a b => Some (a ++ b)) (fun _ tx i _ => Some (i <? len (msgIns tx)))
    samplePlanned sampleSigs "0x02ff"
    [ 5; 7; 1; 2; 255; 11; 13; 1; 2; 255 ]) as (pk & rp & rt & before & after & _ & _ & _ & D & S & _ & _ & O & _);
    [ vm_compute; reflexivity | ].
  exists after; split_and!; [ vm_compute; reflexivity | reflexivity | exact S | ].
  injection D as <-; exact O.
Defined.

End BitcoinPlan.
