(* ===== verification/Authorization.v ===== *)
(** * Ceremony authorisation

    Models both halves of the second signature a party can require before it
    joins a ceremony: the verifying half, [services/mpc-party/authorizer.go],
    and the signing half,
    [services/temporal-worker/activities/ceremony_authorization.go].

    Signature schemes, SHA-256, PEM and X.509 parsing, the JSON codec, the
    environment, files and the HTTP transport are parameters.  Time is
    explicit: [now] is nanoseconds since the epoch.  The theorems: what an
    accepted authorisation implies, that a misconfigured key never switches
    the check off, that the signed bytes pin the request, and that what the
    worker signs the party accepts. *)

From Stdlib Require Import ZArith Lia Ascii String.
From stdpp Require Import base list numbers strings.
From S2P Require Import Prelude GoStrings GoText.

Open Scope Z_scope.

Module Authorization.

(** ** Data *)

Record AuthorizationRequest := {
  Operation : string;
  CeremonyID : string;
  MessageHash : string;
  IssuedAt : Z;
}.

Inductive AuthErr : Type :=
| KeyNeitherHexNorBase64
| Ed25519KeySize (got : Z)
| NotDerKey
| NotP256
| UnknownAlgorithm (alg : string)
| EmptyOperationOrCeremony
| TooOld
| InTheFuture
| SignatureNotHex
| BadSignature
| NoAuthorisation
| Unreadable
| WrongOperation
| WrongCeremony
| WrongMessage
(** the signing half *)
| KeyFile
| NotPrivateKey
| WrongCurve
| WrongKeyType
| NotPemHexBase64
| PrivateKeySize (got : Z)
| SignFailed
| MarshalFailed
| BadSignerUrl
| SignerUnreachable
| SignerUnreadable
| SignerRefused (msg : string)
| SignerStatus (code : Z)
| SignerNoSignature.

(** [AuthorizationRequest.canonical], and the worker's own copy of it. *)
Definition canonical (r : AuthorizationRequest) : bytes :=
  to_bytes (join_lines [ "openfireblocks-authorization-v1"%string; Operation r; CeremonyID r;
                         MessageHash r; show_int (IssuedAt r) ]).

Definition canonicalAuthorizationBytes (r : AuthorizationRequest) : bytes :=
  to_bytes (join_lines [ "openfireblocks-authorization-v1"%string; Operation r; CeremonyID r;
                         MessageHash r; show_int (IssuedAt r) ]).

(** A parsed X.509 public key: an ECDSA key with its curve's name, or another kind. *)
Inductive ParsedPublic (K : Type) : Type := EcdsaPublic (curve : string) (k : K) | OtherPublic.
Arguments EcdsaPublic {K} _ _.
Arguments OtherPublic {K}.

Record Authorizer (K : Type) := {
  algorithm : string;
  ed25519Key : bytes;
  p256Key : option K;
  maxAge : Z;
}.
Arguments algorithm {K} _.
Arguments ed25519Key {K} _.
Arguments p256Key {K} _.
Arguments maxAge {K} _.

Definition AuthorizerEd25519 : string := "ed25519".
Definition AuthorizerP256 : string := "ecdsa-p256".

(** ** Time *)

Definition second : Z := 1000000000.

(** Seconds between year 1 and the Unix epoch: [time.Unix] adds them in int64. *)
Definition unixToInternal : Z := 62135596800.

(** [time.Since(time.Unix(sec, 0))]; [time.Sub] saturates. *)
Definition since_unix (now sec : Z) : Z :=
  let t := now + unixToInternal * second in
  let u := i64 (sec + unixToInternal) * second in
  Z.max (- two63) (Z.min (two63 - 1) (t - u)).

(** ** The verifying half *)

(** [decodeKeyBytes]: hex first, base64 otherwise. *)
Definition decodeKeyBytes (s : string) : result AuthErr bytes :=
  let base64 :=
    match Base64.decode s with
    | Some b => Ok b
    | None => Err KeyNeitherHexNorBase64
    end in
  match hex_decode (trim_prefix "0x" s) with
  | Some b => if 0 <? len b then Ok b else base64
  | None => base64
  end.

Section Verifier.
Variable K : Type.
Variable parsePKIX : bytes -> option (ParsedPublic K).
(** [ed25519.Verify] on a 32-byte key; [sha256.Sum256]; [ecdsa.VerifyASN1] *)
Variable ed25519Verify : bytes -> bytes -> bytes -> bool.
Variable sha256 : bytes -> bytes.
Variable verifyASN1 : K -> bytes -> bytes -> bool.
(** [json.Unmarshal] into an [AuthorizationRequest] *)
Variable unmarshal : string -> option AuthorizationRequest.

Definition maxAgeFromEnv (v : string) : Z :=
  let dflt := i64 (5 * 60 * second) in
  if String.eqb v "" then dflt
  else match sscanf_int v with
       | Some seconds => if 0 <? seconds then i64 (seconds * second) else dflt
       | None => dflt
       end.

(** [None] inside [Ok]: not configured. *)
Definition AuthorizerFromEnv (getenv : string -> string) : result AuthErr (option (Authorizer K)) :=
  let raw := trim_space (getenv "CEREMONY_AUTHORIZER_PUBKEY") in
  if String.eqb raw "" then Ok None
  else
    let alg0 := trim_space (getenv "CEREMONY_AUTHORIZER_ALG") in
    let alg := if String.eqb alg0 "" then AuthorizerEd25519 else alg0 in
    let age := maxAgeFromEnv (trim_space (getenv "CEREMONY_AUTHORIZER_MAX_AGE_SECONDS")) in
    if String.eqb alg AuthorizerEd25519 then
      let! key := decodeKeyBytes raw in
      refuse! negb (len key =? 32) with Ed25519KeySize (len key);
      Ok (Some {| algorithm := alg; ed25519Key := key; p256Key := None; maxAge := age |})
    else if String.eqb alg AuthorizerP256 then
      let! der := decodeKeyBytes raw in
      match parsePKIX der with
      | None => Err NotDerKey
      | Some (EcdsaPublic curve pub) =>
          refuse! negb (String.eqb curve "P-256") with NotP256;
          Ok (Some {| algorithm := alg; ed25519Key := []; p256Key := Some pub; maxAge := age |})
      | Some OtherPublic => Err NotP256
      end
    else Err (UnknownAlgorithm alg).

(** The signature check of [Verify].  [ed25519.Verify] panics on a key that
    is not 32 bytes, [ecdsa.VerifyASN1] on a nil key. *)
Definition verifySignature (a : Authorizer K) (message sig : bytes) : result AuthErr unit :=
  if String.eqb (algorithm a) AuthorizerEd25519 then
    if negb (len (ed25519Key a) =? 32) then Panic
    else if ed25519Verify (ed25519Key a) message sig then Ok tt else Err BadSignature
  else if String.eqb (algorithm a) AuthorizerP256 then
    match p256Key a with
    | None => Panic
    | Some k => if verifyASN1 k (sha256 message) sig then Ok tt else Err BadSignature
    end
  else Err (UnknownAlgorithm (algorithm a)).

Definition Verify (a : option (Authorizer K)) (now : Z) (req : AuthorizationRequest)
    (signatureHex : string) : result AuthErr unit :=
  match a with
  | None => Ok tt
  | Some a =>
      refuse! String.eqb (Operation req) "" || String.eqb (CeremonyID req) "" with EmptyOperationOrCeremony;
      let age := since_unix now (IssuedAt req) in
      refuse! maxAge a <? age with TooOld;
      refuse! age <? - (30 * second) with InTheFuture;
      match hex_decode (trim_prefix "0x" signatureHex) with
      | None => Err SignatureNotHex
      | Some sig => verifySignature a (canonical req) sig
      end
  end.

(** [PartyServer.requireAuthorization] *)
Definition requireAuthorization (a : option (Authorizer K)) (now : Z)
    (op ceremonyID messageHash authJSON signature : string) : result AuthErr unit :=
  match a with
  | None => Ok tt
  | Some _ =>
      refuse! String.eqb authJSON "" || String.eqb signature "" with NoAuthorisation;
      match unmarshal authJSON with
      | None => Err Unreadable
      | Some req =>
          refuse! negb (String.eqb (Operation req) op) with WrongOperation;
          refuse! negb (String.eqb (CeremonyID req) ceremonyID) with WrongCeremony;
          refuse! negb (String.eqb messageHash "") && negb (equal_fold (MessageHash req) messageHash)
            with WrongMessage;
          Verify a now req signature
      end
  end.
End Verifier.

(** ** The signing half *)

(** What [x509.ParsePKCS8PrivateKey] returns. *)
Inductive ParsedPrivate (P : Type) : Type :=
| Ed25519Private (k : bytes)
| EcdsaPrivate (curve : string) (k : P)
| OtherPrivate.
Arguments Ed25519Private {P} _.
Arguments EcdsaPrivate {P} _ _.
Arguments OtherPrivate {P}.

(** [localSigner]: [edPriv] is nil ([[]]) for a P-256 key. *)
Record localSigner (P : Type) := { edPriv : bytes; p256Priv : option P }.
Arguments edPriv {P} _.
Arguments p256Priv {P} _.

Record externalSigner := { url : string; token : string }.

(** [ceremonySigner] and its two implementations. *)
Inductive ceremonySigner (P : Type) : Type :=
| External (s : externalSigner)
| Local (s : localSigner P).
Arguments External {P} _.
Arguments Local {P} _.

Record externalSignRequest := { Canonical : string; Purpose : string }.
Record externalSignResponse := { SignatureHex : string; SignerError : string }.

(** The POST the external signer is sent. *)
Record SignerPost := { postUrl : string; bearer : option string; payload : externalSignRequest }.

Section Signer.
Variable P : Type.
Variable pemDecode : bytes -> option bytes.
Variable parsePKCS8 : bytes -> option (ParsedPrivate P).
(** [x509.ParseECPrivateKey]: the curve's name and the key *)
Variable parseEC : bytes -> option (string * P).
Variable newKeyFromSeed : bytes -> bytes.
Variable ed25519Sign : bytes -> bytes -> bytes.
Variable sha256 : bytes -> bytes.
(** [ecdsa.SignASN1] with the entropy of the call *)
Variable signASN1 : P -> bytes -> option bytes.
Variable readFile : string -> option bytes.
(** [json.Marshal] of an [authorizationRequest] *)
Variable marshal : AuthorizationRequest -> option string.
(** whether [http.NewRequestWithContext] accepts the URL *)
Variable validUrl : string -> bool.
(** [client.Do]: a status and the decoded body ([None]: not the JSON expected) *)
Variable post : SignerPost -> option (Z * option externalSignResponse).

Definition fromParsed (k : ParsedPrivate P) : result AuthErr (localSigner P) :=
  match k with
  | Ed25519Private k => Ok {| edPriv := k; p256Priv := None |}
  | EcdsaPrivate curve k =>
      refuse! negb (String.eqb curve "P-256") with WrongCurve;
      Ok {| edPriv := []; p256Priv := Some k |}
  | OtherPrivate => Err WrongKeyType
  end.

Definition newLocalSigner (raw : bytes) : result AuthErr (localSigner P) :=
  match pemDecode raw with
  | Some block =>
      match parsePKCS8 block with
      | Some k => fromParsed k
      | None =>
          match parseEC block with
          | Some (curve, k) => fromParsed (EcdsaPrivate curve k)
          | None => Err NotPrivateKey
          end
      end
  | None =>
      let trimmed := trim_space (of_bytes raw) in
      let base64 := match Base64.decode trimmed with Some b => Ok b | None => Err NotPemHexBase64 end in
      let! decoded :=
        match hex_decode (trim_prefix "0x" trimmed) with
        | Some b => if len b =? 0 then base64 else Ok b
        | None => base64
        end in
      if len decoded =? 32 then Ok {| edPriv := newKeyFromSeed decoded; p256Priv := None |}
      else if len decoded =? 64 then Ok {| edPriv := decoded; p256Priv := None |}
      else Err (PrivateKeySize (len decoded))
  end.

(** [localSigner.sign]; [ed25519.Sign] panics on a key that is not 64 bytes,
    [SignASN1] on a nil key. *)
Definition localSign (s : localSigner P) (msg : bytes) : result AuthErr string :=
  if negb (len (edPriv s) =? 0) then
    if negb (len (edPriv s) =? 64) then Panic
    else Ok (hex_encode (ed25519Sign (edPriv s) msg))
  else
    match p256Priv s with
    | None => Panic
    | Some k =>
        match signASN1 k (sha256 msg) with
        | None => Err SignFailed
        | Some sig => Ok (hex_encode sig)
        end
    end.

(** [externalSigner.sign] *)
Definition externalSign (s : externalSigner) (msg : bytes) : result AuthErr string :=
  refuse! negb (validUrl (url s)) with BadSignerUrl;
  let req := {| postUrl := url s;
                bearer := if String.eqb (token s) "" then None else Some (token s);
                payload := {| Canonical := Base64.encode msg;
                              Purpose := "openfireblocks-ceremony-authorization" |} |} in
  match post req with
  | None => Err SignerUnreachable
  | Some (_, None) => Err SignerUnreadable
  | Some (status, Some out) =>
      if (status <? 200) || (300 <=? status) then
        if negb (String.eqb (SignerError out) "") then Err (SignerRefused (SignerError out))
        else Err (SignerStatus status)
      else
        refuse! String.eqb (SignatureHex out) "" with SignerNoSignature;
        Ok (SignatureHex out)
  end.

Definition sign (s : ceremonySigner P) (msg : bytes) : result AuthErr string :=
  match s with External s => externalSign s msg | Local s => localSign s msg end.

Definition newCeremonyAuthorizer (getenv : string -> string) : result AuthErr (option (ceremonySigner P)) :=
  let u := trim_space (getenv "CEREMONY_AUTHORIZER_SIGNER_URL") in
  if negb (String.eqb u "") then
    Ok (Some (External {| url := u; token := trim_space (getenv "CEREMONY_AUTHORIZER_SIGNER_TOKEN") |}))
  else
    let keyRef := trim_space (getenv "CEREMONY_AUTHORIZER_KEY_FILE") in
    let inline := trim_space (getenv "CEREMONY_AUTHORIZER_KEY") in
    if String.eqb keyRef "" && String.eqb inline "" then Ok None
    else
      let! raw :=
        if String.eqb keyRef "" then Ok (to_bytes inline)
        else match readFile keyRef with Some b => Ok b | None => Err KeyFile end in
      let! signer := newLocalSigner raw in
      Ok (Some (Local signer)).

(** [ceremonyAuthorizer.authorize]: two empty strings when not configured. *)
Definition authorize (c : option (ceremonySigner P)) (now : Z)
    (operation ceremonyID messageHash : string) : result AuthErr (string * string) :=
  match c with
  | None => Ok (""%string, ""%string)
  | Some signer =>
      let req := {| Operation := operation; CeremonyID := ceremonyID; MessageHash := messageHash;
                    IssuedAt := now / second |} in
      let! signature := sign signer (canonicalAuthorizationBytes req) in
      match marshal req with
      | None => Err MarshalFailed
      | Some body => Ok (body, signature)
      end
  end.
End Signer.

(** ** Facts on time and text *)

Lemma since_unix_exact now sec :
  0 <= now < two63 -> 0 <= sec < 4000000000000000000 -> Z.abs (now - sec * second) < two63 ->
  since_unix now sec = now - sec * second.
Proof.
  intros Hn Hs Hd; unfold since_unix, unixToInternal; rewrite i64_id by (unfold in_i64, two63 in *; lia).
  unfold second, two63 in *; lia.
Qed.

(** A hexadecimal text has no [0x] prefix to lose. *)
Lemma hex_digit_not_x n : 0 <= n < 16 -> Ascii.eqb "x" (hex_digit n) = false.
Proof.
  intros H; assert (forallb (fun n => negb (Ascii.eqb "x" (hex_digit n))) (seqZ 0 16) = true) as F
    by reflexivity.
  rewrite forallb_forall in F; specialize (F n ltac:(apply list_elem_of_In, elem_of_seqZ; lia)).
  apply negb_true_iff in F; done.
Qed.

Lemma trim_prefix_hex b : bytes_ok b -> trim_prefix "0x" (hex_encode b) = hex_encode b.
Proof.
  destruct b as [ | x b ]; [ done | ]; intros H; inversion H as [ | ? ? Hx _ ]; subst; unfold byte_ok in Hx.
  unfold trim_prefix; cbn [hex_encode strip_prefix].
  destruct (Ascii.eqb "0" _); [ | done ]; rewrite hex_digit_not_x; [ done | ].
  apply Z.mod_pos_bound; lia.
Qed.

Definition newline_free (r : AuthorizationRequest) : Prop :=
  count_newlines (Operation r) = 0%nat /\ count_newlines (CeremonyID r) = 0%nat /\
  count_newlines (MessageHash r) = 0%nat.

Lemma canonical_inj r s : newline_free r -> canonical r = canonical s -> r = s.
Proof.
  intros (Ho & Hc & Hm) E; apply to_bytes_inj, join_lines_inj in E; [ | done | ].
  - destruct r, s; cbn in E; simplify_eq; f_equal; apply show_int_inj; done.
  - repeat constructor; auto using count_newlines_show_int.
Qed.

(** With a line break in a field the bytes no longer pin the request. *)
Example canonical_collision :
  let nl := String newline EmptyString in
  canonical {| Operation := "sign"; CeremonyID := "a"; MessageHash := "b" +:+ nl +:+ "c"; IssuedAt := 7 |}
  = canonical {| Operation := "sign"; CeremonyID := "a" +:+ nl +:+ "b"; MessageHash := "c"; IssuedAt := 7 |}.
Proof. reflexivity. Qed.

Section Facts.
Context (K : Type) (parsePKIX : bytes -> option (ParsedPublic K))
  (ed25519Verify : bytes -> bytes -> bytes -> bool) (sha256 : bytes -> bytes)
  (verifyASN1 : K -> bytes -> bytes -> bool) (unmarshal : string -> option AuthorizationRequest).

Abbreviation check := (verifySignature K ed25519Verify sha256 verifyASN1).
Abbreviation verify := (Verify K ed25519Verify sha256 verifyASN1).
Abbreviation require := (requireAuthorization K ed25519Verify sha256 verifyASN1 unmarshal).

(** What it takes for a party to join. *)
Record authorised (a : Authorizer K) (now : Z) (op ceremonyID messageHash authJSON signature : string)
    (req : AuthorizationRequest) (sig : bytes) : Prop := {
  auth_supplied : authJSON <> ""%string /\ signature <> ""%string;
  auth_read : unmarshal authJSON = Some req;
  auth_operation : Operation req = op /\ op <> ""%string;
  auth_ceremony : CeremonyID req = ceremonyID /\ ceremonyID <> ""%string;
  auth_message : messageHash = ""%string \/ equal_fold (MessageHash req) messageHash = true;
  auth_fresh : - (30 * second) <= since_unix now (IssuedAt req) <= maxAge a;
  auth_hex : hex_decode (trim_prefix "0x" signature) = Some sig;
  auth_signed : check a (canonical req) sig = Ok tt;
}.

Lemma verify_iff a now req signature :
  verify (Some a) now req signature = Ok tt <->
  Operation req <> ""%string /\ CeremonyID req <> ""%string /\
  - (30 * second) <= since_unix now (IssuedAt req) <= maxAge a /\
  exists sig, hex_decode (trim_prefix "0x" signature) = Some sig /\ check a (canonical req) sig = Ok tt.
Proof.
  unfold Verify; split.
  - intros H; inv_ok; b2p; destruct (hex_decode _) as [ sig | ] eqn:D; [ | done ]; split_and!; eauto; lia.
  - intros (Ho & Hc & [ H1 H2 ] & sig & -> & Hs).
    apply String.eqb_neq in Ho; apply String.eqb_neq in Hc; rewrite Ho, Hc; cbn [orb].
    replace (maxAge a <? _) with false by lia; replace (_ <? - (30 * second)) with false by lia; done.
Qed.

Lemma require_iff a now op ceremonyID messageHash authJSON signature :
  require (Some a) now op ceremonyID messageHash authJSON signature = Ok tt <->
  exists req sig, authorised a now op ceremonyID messageHash authJSON signature req sig.
Proof.
  unfold requireAuthorization; split.
  - intros H; pass_guards H; destruct (unmarshal authJSON) as [ req | ] eqn:U; [ | done ]; pass_guards H.
    apply verify_iff in H as (Ho & Hc & Hf & sig & Hx & Hs); exists req, sig; b2p; subst.
    split; auto.
    match goal with M : _ && _ = false |- _ => apply andb_false_iff in M as [ M | M ] end; b2p; auto.
  - intros (req & sig & [ [ H1 H2 ] Hu [ <- Ho ] [ <- Hc ] Hm Hf Hx Hs ]).
    apply String.eqb_neq in H1; apply String.eqb_neq in H2; rewrite H1, H2; cbn [orb].
    rewrite Hu, !String.eqb_refl; cbn [negb].
    replace (negb (String.eqb messageHash "") && _) with false
      by (destruct Hm as [ -> | -> ]; rewrite ?andb_false_r; done).
    apply verify_iff; eauto 10.
Qed.

(** A party with an authoriser joins a ceremony exactly when it was
    handed an authorisation that names this very operation, ceremony and
    (when there is one) message, is at most [maxAge] old and at most thirty
    seconds ahead, and whose signature verifies over its canonical bytes. *)
Theorem require_authorization_iff a now op ceremonyID messageHash authJSON signature :
  require (Some a) now op ceremonyID messageHash authJSON signature = Ok tt <->
  exists req sig, authorised a now op ceremonyID messageHash authJSON signature req sig.
Proof. apply require_iff. Qed.
Lemma equal_fold_trans_r a b c : equal_fold a b = true -> equal_fold a c = true -> equal_fold b c = true.
Proof. unfold equal_fold; rewrite !String.eqb_eq; congruence. Qed.

(** C15.  An authorisation is good for one ceremony: two acceptances over
    the same signed bytes (of a request without line breaks) are of the same
    operation and ceremony, of the same message up to the case of its hex
    digits, and at most [maxAge] plus thirty seconds apart. *)
Theorem authorization_not_transferable a now1 op1 c1 h1 j1 s1 r1 now2 op2 c2 h2 j2 s2 r2 :
  require (Some a) now1 op1 c1 h1 j1 s1 = Ok tt -> unmarshal j1 = Some r1 ->
  require (Some a) now2 op2 c2 h2 j2 s2 = Ok tt -> unmarshal j2 = Some r2 ->
  newline_free r1 -> canonical r1 = canonical r2 ->
  0 <= now1 < two63 -> 0 <= now2 < two63 -> 0 <= IssuedAt r1 < 9000000000 ->
  op1 = op2 /\ c1 = c2 /\ (h1 = ""%string \/ h2 = ""%string \/ equal_fold h1 h2 = true) /\
  Z.abs (now1 - now2) <= maxAge a + 30 * second.
Proof.
  intros H1 U1 H2 U2 Hn E T1 T2 Ti; apply canonical_inj in E as ->; [ | done ].
  apply require_iff in H1 as (q1 & g1 & A1); apply require_iff in H2 as (q2 & g2 & A2).
  pose proof (auth_read _ _ _ _ _ _ _ _ _ A1) as R1; pose proof (auth_read _ _ _ _ _ _ _ _ _ A2) as R2.
  assert (q1 = r2) as -> by congruence; assert (q2 = r2) as -> by congruence.
  destruct A1 as [ _ _ [ <- _ ] [ <- _ ] M1 F1 _ _ ]; destruct A2 as [ _ _ [ <- _ ] [ <- _ ] M2 F2 _ _ ].
  rewrite since_unix_exact in F1, F2 by (unfold two63, second in *; lia).
  split_and!; [ done | done | | lia ].
  destruct M1 as [ -> | M1 ]; [ auto | ]; destruct M2 as [ -> | M2 ]; [ auto | ].
  right; right; eauto using equal_fold_trans_r.
Qed.

Definition authorizer_wf (a : Authorizer K) : Prop :=
  (algorithm a = AuthorizerEd25519 /\ len (ed25519Key a) = 32) \/
  (algorithm a = AuthorizerP256 /\ exists k, p256Key a = Some k).

Lemma check_no_panic a msg sig : authorizer_wf a -> check a msg sig <> Panic.
Proof.
  unfold verifySignature; intros [ [ -> L ] | [ -> [ k -> ] ] ].
  - rewrite L; cbn; destruct (ed25519Verify _ _ _); done.
  - cbn; destruct (verifyASN1 _ _ _); done.
Qed.

Lemma verify_no_panic a now req signature : authorizer_wf a -> verify (Some a) now req signature <> Panic.
Proof.
  intros Hw; unfold Verify; repeat (destruct (_ : bool); [ done | ]).
  destruct (hex_decode _); [ apply check_no_panic | ]; done.
Qed.

Lemma decodeKeyBytes_no_panic s : decodeKeyBytes s <> Panic.
Proof.
  unfold decodeKeyBytes; destruct (hex_decode _) as [ b | ], (Base64.decode s); try done; case_match; done.
Qed.

(** Configuration fails closed: once a public key is configured the
    party either refuses to start or enforces it with a usable key.  It never
    ends up without an authoriser, and verifying never panics. *)
Theorem authorizer_from_env_fails_closed getenv :
  trim_space (getenv "CEREMONY_AUTHORIZER_PUBKEY"%string) <> ""%string ->
  (exists e, AuthorizerFromEnv K parsePKIX getenv = Err e) \/
  exists a, AuthorizerFromEnv K parsePKIX getenv = Ok (Some a) /\
    forall now req signature, verify (Some a) now req signature <> Panic.
Proof.
  intros Hk; apply String.eqb_neq in Hk; unfold AuthorizerFromEnv; rewrite Hk; cbn [AuthorizerEd25519].
  set (alg := if String.eqb (trim_space (getenv "CEREMONY_AUTHORIZER_ALG"%string)) "" then _ else _).
  pose proof (decodeKeyBytes_no_panic (trim_space (getenv "CEREMONY_AUTHORIZER_PUBKEY"%string))) as Np.
  destruct (String.eqb alg AuthorizerEd25519) eqn:E1; [ | destruct (String.eqb alg AuthorizerP256) eqn:E2 ];
    [ | | eauto ]; destruct (decodeKeyBytes _) as [ key | e | ]; cbn [result_bind]; try done; eauto; b2p.
  - destruct (negb _) eqn:L; [ eauto | right ]; b2p; eexists; split; [ done | ].
    intros; apply verify_no_panic; left; auto.
  - destruct (parsePKIX key) as [ [ curve k | ] | ]; eauto; destruct (negb _) eqn:L; [ eauto | right ].
    eexists; split; [ done | ]; intros; apply verify_no_panic; right; cbn; eauto.
Qed.
End Facts.

(** ** What the worker signs the party accepts *)

(** What a signing side promises to a party: a signature it returns is
    hexadecimal and verifies against the party's key. *)
Class SignerFor {K} (ed25519Verify : bytes -> bytes -> bytes -> bool) (sha256 : bytes -> bytes)
    (verifyASN1 : K -> bytes -> bytes -> bool) (signer : bytes -> result AuthErr string)
    (a : Authorizer K) : Prop :=
  signer_verifies : forall msg sg, bytes_ok msg -> signer msg = Ok sg ->
    sg <> ""%string /\ exists sig, hex_decode (trim_prefix "0x" sg) = Some sig /\
      verifySignature K ed25519Verify sha256 verifyASN1 a msg sig = Ok tt.

Lemma canonical_ok r : bytes_ok (canonical r).
Proof. apply to_bytes_ok. Qed.

Section EndToEnd.
Context (K P : Type) (ed25519Verify : bytes -> bytes -> bytes -> bool) (sha256 : bytes -> bytes)
  (verifyASN1 : K -> bytes -> bytes -> bool) (unmarshal : string -> option AuthorizationRequest)
  (ed25519Sign : bytes -> bytes -> bytes) (signASN1 : P -> bytes -> option bytes)
  (marshal : AuthorizationRequest -> option string) (validUrl : string -> bool)
  (post : SignerPost -> option (Z * option externalSignResponse)).

Abbreviation signWith := (sign P ed25519Sign sha256 signASN1 validUrl post).

Lemma hex_signature sig :
  bytes_ok sig -> sig <> [] ->
  hex_encode sig <> ""%string /\ hex_decode (trim_prefix "0x" (hex_encode sig)) = Some sig.
Proof.
  intros H N; split; [ destruct sig; done | ]; rewrite trim_prefix_hex by done.
  apply hex_decode_encode; done.
Qed.

(** The local key discharges it, for either algorithm, when the party holds
    the matching public key. *)
#[export] Instance local_ed25519_signer priv pub age :
  (forall msg, ed25519Verify pub msg (ed25519Sign priv msg) = true) ->
  (forall msg, bytes_ok (ed25519Sign priv msg) /\ ed25519Sign priv msg <> []) -> len pub = 32 ->
  SignerFor ed25519Verify sha256 verifyASN1 (signWith (Local {| edPriv := priv; p256Priv := None |}))
    {| algorithm := AuthorizerEd25519; ed25519Key := pub; p256Key := None; maxAge := age |}.
Proof.
  intros Hv Hs L msg sg _ E; cbn in E; unfold localSign in E; cbn [edPriv p256Priv] in E.
  destruct (negb (len priv =? 0)); [ | done ]; destruct (negb (len priv =? 64)); [ done | ].
  injection E as <-; destruct (Hs msg) as [ Ho Hn ]; destruct (hex_signature _ Ho Hn) as [ A B ].
  split; [ done | ]; eexists; split; [ exact B | ]; unfold verifySignature; cbn; rewrite L; cbn; rewrite Hv; done.
Qed.

#[export] Instance local_p256_signer priv pub age :
  (forall d sig, signASN1 priv d = Some sig -> verifyASN1 pub d sig = true /\ bytes_ok sig /\ sig <> []) ->
  SignerFor ed25519Verify sha256 verifyASN1 (signWith (Local {| edPriv := []; p256Priv := Some priv |}))
    {| algorithm := AuthorizerP256; ed25519Key := []; p256Key := Some pub; maxAge := age |}.
Proof.
  intros Hs msg sg _ E; cbn in E; unfold localSign in E; cbn in E.
  destruct (signASN1 priv (sha256 msg)) as [ sig | ] eqn:Es; [ | done ]; injection E as <-.
  destruct (Hs _ _ Es) as (Hv & Ho & Hn); destruct (hex_signature _ Ho Hn) as [ A B ].
  split; [ done | ]; eexists; split; [ exact B | ]; unfold verifySignature; cbn; rewrite Hv; done.
Qed.

Lemma worker_authorisation_accepted signer a `{!SignerFor ed25519Verify sha256 verifyASN1 (signWith signer) a}
    now0 now1 op ceremonyID messageHash body signature :
  authorize P ed25519Sign sha256 signASN1 marshal validUrl post (Some signer) now0 op ceremonyID messageHash
    = Ok (body, signature) ->
  (forall r, marshal r = Some body -> unmarshal body = Some r /\ body <> ""%string) ->
  op <> ""%string -> ceremonyID <> ""%string ->
  0 <= now0 < two63 -> 0 <= now1 < two63 ->
  now0 - 30 * second <= now1 -> now1 + second <= now0 + maxAge a ->
  requireAuthorization K ed25519Verify sha256 verifyASN1 unmarshal (Some a) now1 op ceremonyID messageHash
    body signature = Ok tt.
Proof.
  intros H Hj Ho Hc T0 T1 Tlo Thi; unfold authorize in H.
  set (req := {| Operation := op |}) in H.
  destruct (signWith signer _) as [ sg | | ] eqn:Es; cbn [result_bind] in H; [ | done | done ].
  destruct (marshal req) as [ body' | ] eqn:Em; [ | done ]; simplify_eq.
  destruct (Hj _ Em) as [ Hu Hb ].
  destruct (signer_verifies _ _ (to_bytes_ok _) Es) as (Hne & sig & Hx & Hs).
  apply require_iff; exists req, sig; split; auto.
  - right; apply equal_fold_refl.
  - cbn [req IssuedAt]; pose proof (Z.div_mod now0 second ltac:(done)).
    pose proof (Z.mod_pos_bound now0 second ltac:(done)); pose proof (Z.div_pos now0 second).
    unfold second, two63 in *; rewrite since_unix_exact; unfold second, two63; lia.
Qed.

(** The two halves meet: whatever signer the worker uses, if its
    signatures verify under the party's key then the authorisation the
    worker attaches is accepted, for the same operation, ceremony and
    message, from thirty seconds before it was made until a second short of
    [maxAge] after. *)
Theorem authorized_ceremony_accepted signer a `{!SignerFor ed25519Verify sha256 verifyASN1 (signWith signer) a}
    now0 now1 op ceremonyID messageHash body signature :
  authorize P ed25519Sign sha256 signASN1 marshal validUrl post (Some signer) now0 op ceremonyID messageHash
    = Ok (body, signature) ->
  (forall r, marshal r = Some body -> unmarshal body = Some r /\ body <> ""%string) ->
  op <> ""%string -> ceremonyID <> ""%string ->
  0 <= now0 < two63 -> 0 <= now1 < two63 ->
  now0 - 30 * second <= now1 -> now1 + second <= now0 + maxAge a ->
  requireAuthorization K ed25519Verify sha256 verifyASN1 unmarshal (Some a) now1 op ceremonyID messageHash
    body signature = Ok tt.
Proof. apply worker_authorisation_accepted; done. Qed.
End EndToEnd.

(** ** Concrete runs *)

#[export] Instance AuthorizationRequest_eq_dec : EqDecision AuthorizationRequest.
Proof. solve_decision. Defined.

Definition sampleRequest : AuthorizationRequest :=
  {| Operation := "sign"; CeremonyID := "cer-1"; MessageHash := "ab12"; IssuedAt := 1700000000 |}.
Definition sampleMarshal (r : AuthorizationRequest) : option string :=
  if decide (r = sampleRequest) then Some "{..}"%string else None.
Definition sampleUnmarshal (_ : string) : option AuthorizationRequest := Some sampleRequest.
Definition sampleVerify (_ _ sig : bytes) : bool := bool_decide (sig = [ 7 ]).
Definition sampleAuthorizer : Authorizer unit :=
  {| algorithm := AuthorizerEd25519; ed25519Key := replicate 32 1; p256Key := None; maxAge := 300 * second |}.
Definition sampleKey : ceremonySigner unit := Local {| edPriv := replicate 64 2; p256Priv := None |}.

Abbreviation sampleRequire := (requireAuthorization unit sampleVerify id (fun _ _ _ => false) sampleUnmarshal).

Lemma authorization_not_transferable_witness :
  sampleRequire (Some sampleAuthorizer) (1700000010 * second) "sign" "cer-1" "ab12" "{}" "07" = Ok tt /\
  sampleRequire (Some sampleAuthorizer) (1700000020 * second) "sign" "cer-1" "AB12" "{}" "0x07" = Ok tt /\
  equal_fold "ab12" "AB12" = true.
Proof.
  assert (sampleRequire (Some sampleAuthorizer) (1700000010 * second) "sign" "cer-1" "ab12" "{}" "07" = Ok tt)
    as H1 by (vm_compute; reflexivity).
  assert (sampleRequire (Some sampleAuthorizer) (1700000020 * second) "sign" "cer-1" "AB12" "{}" "0x07" = Ok tt)
    as H2 by (vm_compute; reflexivity).
  split; [ exact H1 | split; [ exact H2 | ] ].
  destruct (authorization_not_transferable unit sampleVerify id (fun _ _ _ => false) sampleUnmarshal
    sampleAuthorizer (1700000010 * second) "sign" "cer-1" "ab12" "{}" "07" sampleRequest
    (1700000020 * second) "sign" "cer-1" "AB12" "{}" "0x07" sampleRequest H1 eq_refl H2 eq_refl)
    as (_ & _ & [ E | [ E | E ] ] & _); try discriminate; [ .. | exact E ];
    unfold newline_free, second, two63; cbn; lia || auto.
Defined.

Definition sampleEnv (k : string) : string :=
  if String.eqb k "CEREMONY_AUTHORIZER_PUBKEY" then "  0x0011  "%string else ""%string.

Lemma authorizer_from_env_fails_closed_witness :
  trim_space (sampleEnv "CEREMONY_AUTHORIZER_PUBKEY") <> ""%string /\
  exists e, AuthorizerFromEnv unit (fun _ => None) sampleEnv = Err e.
Proof.
  assert (trim_space (sampleEnv "CEREMONY_AUTHORIZER_PUBKEY") <> ""%string) as H by (vm_compute; discriminate).
  split; [ exact H | ].
  destruct (authorizer_from_env_fails_closed unit (fun _ => None) sampleVerify id (fun _ _ _ => false)
    sampleEnv H) as [ E | (a & E & _) ]; [ exact E | vm_compute in E; discriminate E ].
Defined.

Lemma authorized_ceremony_accepted_witness :
  authorize unit (fun _ _ => [ 7 ]) id (fun _ _ => None) sampleMarshal (fun _ => true) (fun _ => None)
    (Some sampleKey) (1700000000 * second) "sign" "cer-1" "ab12" = Ok ("{..}"%string, "07"%string) /\
  sampleRequire (Some sampleAuthorizer) (1700000200 * second) "sign" "cer-1" "ab12" "{..}" "07" = Ok tt.
Proof.
  assert (authorize unit (fun _ _ => [ 7 ]) id (fun _ _ => None) sampleMarshal (fun _ => true) (fun _ => None)
    (Some sampleKey) (1700000000 * second) "sign" "cer-1" "ab12" = Ok ("{..}"%string, "07"%string)) as H
    by (vm_compute; reflexivity).
  split; [ exact H | ].
  unshelve eapply (authorized_ceremony_accepted unit unit sampleVerify id (fun _ _ _ => false) sampleUnmarshal
    (fun _ _ => [ 7 ]) (fun _ _ => None) sampleMarshal (fun _ => true) (fun _ => None) sampleKey
    sampleAuthorizer (1700000000 * second) (1700000200 * second) "sign" "cer-1" "ab12" "{..}" "07" H);
    try discriminate; try (split; [ discriminate | reflexivity ]).
  - apply local_ed25519_signer; [ reflexivity | | reflexivity ].
    split; [ repeat constructor; discriminate | discriminate ].
  - intros r E; unfold sampleMarshal in E; case_decide; [ subst | discriminate E ].
    split; [ reflexivity | discriminate ].
Defined.


End Authorization.
