(* ===== verification/ApprovalDb.v ===== *)
(** * The approval record

    Models [services/temporal-worker/activities/approvals.go] (opening,
    reading back and closing an approval record) together with the tables and
    triggers those statements run against,
    [infrastructure/database/migrations/023_approvals_segregation_of_duties.sql]:
    the decision guard, the decision's effect on the request and the guard on
    status changes.

    Tables are finite maps keyed by their primary keys; [now] is the
    transaction's [NOW()] in microseconds.  Column widths, row-level security
    and JSON summaries' contents are left out.  The theorems, by induction on
    the steps any writer can take: an approved request has enough distinct
    approvers, none of them its initiator, all before it expired; one rejection
    rejects; and terms and outcomes never change once set. *)

From Stdlib Require Import ZArith Lia Ascii String.
From stdpp Require Import base list numbers strings gmap sets relations.
From S2P Require Import Prelude GoStrings.

Open Scope Z_scope.

Module ApprovalDb.

(** ** Tables *)

(** [approval_requests] *)
Record approval_request := {
  customer_id : string;
  workflow_id : string;
  initiated_by_user_id : option string;
  initiated_by_label : string;
  required_approvals : Z;
  status : string;
  summary : string;
  created_at : Z;
  expires_at : Z;
  decided_at : option Z;
}.

(** [approval_decisions], keyed by [(approval_id, user_id)] *)
Record approval_decision := {
  dec_customer_id : string;
  decision : string;
  dec_created_at : Z;
}.

(** [approval_policies] *)
Record approval_policy := { pol_required : Z; pol_window_minutes : Z }.

Record db := {
  requests : gmap string approval_request;
  decisions : gmap (string * string) approval_decision;
  policies : gmap string approval_policy;
  (** [user_customer_roles], keyed by [(user_id, customer_id)]; [users] by id, with their status *)
  roles : gmap (string * string) string;
  users : gmap string string;
  customers : gset string;
}.

Definition with_requests (d : db) (r : gmap string approval_request) : db :=
  {| requests := r; decisions := decisions d; policies := policies d; roles := roles d;
     users := users d; customers := customers d |}.
Definition with_decisions (d : db) (x : gmap (string * string) approval_decision) : db :=
  {| requests := requests d; decisions := x; policies := policies d; roles := roles d;
     users := users d; customers := customers d |}.
Definition with_policies (d : db) (p : gmap string approval_policy) : db :=
  {| requests := requests d; decisions := decisions d; policies := p; roles := roles d;
     users := users d; customers := customers d |}.
Definition with_people (d : db) (r : gmap (string * string) string) (u : gmap string string)
    (c : gset string) : db :=
  {| requests := requests d; decisions := decisions d; policies := policies d; roles := r;
     users := u; customers := c |}.

Definition with_status (r : approval_request) (st : string) (now : Z) : approval_request :=
  {| customer_id := customer_id r; workflow_id := workflow_id r;
     initiated_by_user_id := initiated_by_user_id r; initiated_by_label := initiated_by_label r;
     required_approvals := required_approvals r; status := st; summary := summary r;
     created_at := created_at r; expires_at := expires_at r; decided_at := Some now |}.

Inductive DbErr : Type :=
| NoDatabase
| BadUuid
| ConstraintViolation
| NoRequestRecorded
| OFB01 | OFB02 | OFB03 | OFB04.

(** [SELECT ... FROM approval_requests WHERE workflow_id = w]: id and row. *)
Definition find_request (d : db) (w : string) : option (string * approval_request) :=
  head (filter (fun kv => workflow_id kv.2 = w) (map_to_list (requests d))).

(** The users whose decision on [a] is an approval; [COUNT(DISTINCT user_id)] is its size. *)
Definition approvers (d : db) (a : string) : gset string :=
  set_map snd (dom (filter (fun kv => kv.1.1 = a /\ decision kv.2 = "approve"%string) (decisions d))).

Definition zsize (s : gset string) : Z := Z.of_nat (size s).

(** ** Triggers *)

(** [approval_request_guard], for an update of the status alone. *)
Definition set_status (d : db) (now : Z) (a : string) (st : string) : result DbErr db :=
  match requests d !! a with
  | None => Ok d
  | Some r =>
      refuse! negb (String.eqb st (status r)) && negb (String.eqb (status r) "pending") with OFB03;
      refuse! String.eqb st "approved" && String.eqb (status r) "pending"
              && (zsize (approvers d a) <? required_approvals r) with OFB01;
      Ok (with_requests d (<[ a := with_status r st now ]> (requests d)))
  end.

(** [approval_decision_guard]: the request a decision is about, if it may be made. *)
Definition decision_guard (d : db) (now : Z) (a customer user : string) : result DbErr approval_request :=
  match requests d !! a with
  | None => Err OFB03
  | Some r =>
      refuse! negb (String.eqb (customer_id r) customer) with OFB03;
      refuse! negb (String.eqb (status r) "pending") with OFB03;
      refuse! expires_at r <=? now with OFB03;
      refuse! bool_decide (initiated_by_user_id r = Some user) with OFB01;
      match roles d !! (user, customer) with
      | None => Err OFB02
      | Some role =>
          refuse! negb (String.eqb role "approver" || String.eqb role "admin") with OFB02;
          refuse! negb (bool_decide (users d !! user = Some "active"%string)) with OFB02;
          Ok r
      end
  end.

(** [approval_decision_apply] *)
Definition decision_apply (d : db) (now : Z) (a dec : string) : result DbErr db :=
  if String.eqb dec "reject" then set_status d now a "rejected"
  else
    match requests d !! a with
    | None => Ok d
    | Some r =>
        if required_approvals r <=? zsize (approvers d a) then set_status d now a "approved" else Ok d
    end.

(** [INSERT INTO approval_decisions]: guard, constraints, then the after-trigger. *)
Definition insert_decision (d : db) (now : Z) (a customer user dec : string) : result DbErr db :=
  let! _r := decision_guard d now a customer user in
  refuse! negb (String.eqb dec "approve" || String.eqb dec "reject") with ConstraintViolation;
  match decisions d !! (a, user) with
  | Some _ => Err ConstraintViolation
  | None =>
      let row := {| dec_customer_id := customer; decision := dec; dec_created_at := now |} in
      decision_apply (with_decisions d (<[ (a, user) := row ]> (decisions d))) now a dec
  end.

(** [approval_policies]: its two CHECKs. *)
Definition upsert_policy (d : db) (customer : string) (p : approval_policy) : result DbErr db :=
  refuse! negb ((1 <=? pol_required p) && (pol_required p <=? 10)) with ConstraintViolation;
  refuse! negb ((5 <=? pol_window_minutes p) && (pol_window_minutes p <=? 10080)) with ConstraintViolation;
  Ok (with_policies d (<[ customer := p ]> (policies d))).

(** ** The activities *)

Record OpenApprovalRequestInput := {
  WorkflowID : string;
  CustomerID : string;
  InitiatedByUserID : string;
  InitiatedByLabel : string;
  Summary : string;
}.

Record OpenApprovalRequestResult := {
  ApprovalID : string;
  RequiredApprovals : Z;
  ExpiresInSeconds : Z;
}.

Record RecordedApprovalStatus := {
  Status : string;
  DistinctApprovals : Z;
  RecordedRequired : Z;
}.

Definition minute : Z := 60000000.
Definition usecond : Z := 1000000.

Section Activities.
(** Postgres's [::uuid] cast *)
Variable uuid : string -> option string.

(** The [INSERT ... SELECT ... ON CONFLICT (workflow_id) DO NOTHING];
    [fresh] is the default [gen_random_uuid()]. *)
Definition insert_request (d : db) (now : Z) (fresh : string) (i : OpenApprovalRequestInput)
  : result DbErr db :=
  match uuid (CustomerID i) with
  | None => Err BadUuid
  | Some customer =>
      let! initiator :=
        if String.eqb (InitiatedByUserID i) "" then Ok None
        else match uuid (InitiatedByUserID i) with Some u => Ok (Some u) | None => Err BadUuid end in
      let label := if String.eqb (InitiatedByLabel i) "" then "api-key"%string else InitiatedByLabel i in
      let pol := default {| pol_required := 2; pol_window_minutes := 60 |} (policies d !! customer) in
      let expires := now + pol_window_minutes pol * minute in
      refuse! negb ((1 <=? pol_required pol) && (pol_required pol <=? 10)) with ConstraintViolation;
      refuse! expires <=? now with ConstraintViolation;
      match find_request d (WorkflowID i) with
      | Some _ => Ok d
      | None =>
          refuse! negb (bool_decide (customer ∈ customers d)) with ConstraintViolation;
          refuse! negb (match initiator with
                        | None => true
                        | Some u => bool_decide (is_Some (users d !! u))
                        end) with ConstraintViolation;
          match requests d !! fresh with
          | Some _ => Err ConstraintViolation
          | None =>
              let row := {| customer_id := customer; workflow_id := WorkflowID i;
                            initiated_by_user_id := initiator; initiated_by_label := label;
                            required_approvals := pol_required pol; status := "pending";
                            summary := Summary i; created_at := now; expires_at := expires;
                            decided_at := None |} in
              Ok (with_requests d (<[ fresh := row ]> (requests d)))
          end
      end
  end.

(** [Activities.OpenApprovalRequest]: insert, then read back in a second
    transaction ([now'], [between] what other writers did meanwhile).
    [None] for the database: the activity refuses. *)
Definition read_opened (d : db) (now : Z) (w : string) : result DbErr OpenApprovalRequestResult :=
  match find_request d w with
  | None => Err NoRequestRecorded
  | Some (a, r) =>
      Ok {| ApprovalID := a; RequiredApprovals := required_approvals r;
            ExpiresInSeconds := Z.quot (Z.max (expires_at r - now) 0) usecond |}
  end.

Definition OpenApprovalRequest (d : option db) (now : Z) (fresh : string) (between : db -> db)
    (now' : Z) (i : OpenApprovalRequestInput) : result DbErr (db * OpenApprovalRequestResult) :=
  match d with
  | None => Err NoDatabase
  | Some d =>
      let! d := insert_request d now fresh i in
      let d := between d in
      let! out := read_opened d now' (WorkflowID i) in
      Ok (d, out)
  end.

(** [Activities.GetRecordedApprovalStatus] *)
Definition GetRecordedApprovalStatus (d : option db) (w : string) : result DbErr RecordedApprovalStatus :=
  match d with
  | None => Err NoDatabase
  | Some d =>
      match find_request d w with
      | None => Err NoRequestRecorded
      | Some (a, r) =>
          let counted := match initiated_by_user_id r with
                         | None => approvers d a
                         | Some u => approvers d a ∖ {[ u ]}
                         end in
          Ok {| Status := status r; DistinctApprovals := zsize counted;
                RecordedRequired := required_approvals r |}
      end
  end.

(** [Activities.CloseApprovalRequest] *)
Definition CloseApprovalRequest (d : option db) (now : Z) (w st : string) : result DbErr (option db) :=
  match d with
  | None => Err NoDatabase
  | Some d =>
      if negb (String.eqb st "expired") && negb (String.eqb st "rejected") then Ok (Some d)
      else
        match find_request d w with
        | Some (a, r) =>
            if String.eqb (status r) "pending"
            then let! d := set_status d now a st in Ok (Some d)
            else Ok (Some d)
        | None => Ok (Some d)
        end
  end.
End Activities.

(** ** Steps *)

Definition statuses : list string := [ "pending"; "approved"; "rejected"; "expired" ]%string.

(** What can happen to the record: a settlement opens one, a person decides,
    a settlement closes one, anyone with access updates a status directly, and
    policies, roles and people change. *)
Inductive db_step (uuid : string -> option string) : db -> db -> Prop :=
| open_step d d' now fresh i :
    insert_request uuid d now fresh i = Ok d' -> db_step uuid d d'
| decide_step d d' now a customer user dec :
    insert_decision d now a customer user dec = Ok d' -> db_step uuid d d'
| close_step d d' now w st :
    CloseApprovalRequest (Some d) now w st = Ok (Some d') -> db_step uuid d d'
| update_step d d' now a st :
    st ∈ statuses -> set_status d now a st = Ok d' -> db_step uuid d d'
| policy_step d d' customer p :
    upsert_policy d customer p = Ok d' -> db_step uuid d d'
| people_step d r u c : db_step uuid d (with_people d r u c).

(** ** The invariant *)

Record request_core (d : db) (a : string) (r : approval_request) : Prop := {
  core_required : 1 <= required_approvals r <= 10;
  core_window : created_at r < expires_at r;
  core_status : status r ∈ statuses;
  core_approved : status r = "approved"%string -> required_approvals r <= zsize (approvers d a);
}.

Record decision_core (d : db) (a u : string) (x : approval_decision) (r : approval_request) : Prop := {
  dec_request : requests d !! a = Some r;
  dec_not_initiator : initiated_by_user_id r <> Some u;
  dec_same_customer : dec_customer_id x = customer_id r;
  dec_in_time : dec_created_at x < expires_at r;
  dec_kind : decision x = "approve"%string \/ decision x = "reject"%string;
}.

Record core (d : db) : Prop := {
  core_requests : forall a r, requests d !! a = Some r -> request_core d a r;
  core_decisions : forall a u x, decisions d !! (a, u) = Some x -> exists r, decision_core d a u x r;
  core_workflows : forall a b r s, requests d !! a = Some r -> requests d !! b = Some s ->
    workflow_id r = workflow_id s -> a = b;
}.

(** The status says what the decisions say. *)
Definition tight (d : db) (a : string) : Prop :=
  forall r, requests d !! a = Some r ->
    (status r = "pending"%string -> zsize (approvers d a) < required_approvals r) /\
    (forall u x, decisions d !! (a, u) = Some x -> decision x = "reject"%string ->
       status r = "rejected"%string).

Definition db_wf (d : db) : Prop := core d /\ forall a, tight d a.

Lemma elem_of_approvers d a u :
  u ∈ approvers d a <-> exists x, decisions d !! (a, u) = Some x /\ decision x = "approve"%string.
Proof.
  unfold approvers; rewrite elem_of_map; split.
  - intros ([ b v ] & -> & H); apply elem_of_dom in H as [ x H ].
    apply map_lookup_filter_Some in H as (H & E & D); cbn in E; subst; eauto.
  - intros (x & H & D); exists (a, u); split; [ done | ]; apply elem_of_dom; exists x.
    apply map_lookup_filter_Some; auto.
Qed.

Lemma approvers_ext d d' a : decisions d = decisions d' -> approvers d a = approvers d' a.
Proof. unfold approvers; intros ->; done. Qed.

Lemma find_request_some d w a r :
  find_request d w = Some (a, r) -> requests d !! a = Some r /\ workflow_id r = w.
Proof.
  unfold find_request; intros H; apply head_Some_elem_of, list_elem_of_filter in H as [ E H ].
  apply elem_of_map_to_list in H; done.
Qed.

Lemma find_request_none d w a r :
  find_request d w = None -> requests d !! a = Some r -> workflow_id r <> w.
Proof.
  unfold find_request; intros H Hr E; apply head_None in H.
  apply elem_of_map_to_list in Hr.
  assert ((a, r) ∈ filter (fun kv => workflow_id kv.2 = w) (map_to_list (requests d))) as C
    by (apply list_elem_of_filter; done).
  rewrite H in C; apply elem_of_nil in C; done.
Qed.

(** The row of a workflow is the one [find_request] finds. *)
Lemma find_request_unique d w a r :
  core d -> requests d !! a = Some r -> workflow_id r = w -> find_request d w = Some (a, r).
Proof.
  intros Hc Hr Hw; destruct (find_request d w) as [ [ b s ] | ] eqn:F.
  - apply find_request_some in F as [ Hs Ws ].
    assert (b = a) as -> by (eapply core_workflows; eauto; congruence); congruence.
  - exfalso; eapply find_request_none; eauto.
Qed.

(** ** Preservation *)

Lemma core_insert_request d a r :
  core d -> request_core d a r ->
  (forall s, requests d !! a = Some s -> expires_at s = expires_at r /\ workflow_id s = workflow_id r /\
     customer_id s = customer_id r /\ initiated_by_user_id s = initiated_by_user_id r) ->
  (forall b s, b <> a -> requests d !! b = Some s -> workflow_id s <> workflow_id r) ->
  core (with_requests d (<[ a := r ]> (requests d))).
Proof.
  intros [ Hr Hd Hw ] Ha Hsame Huniq; split; cbn [requests decisions with_requests].
  - intros b s Hb; apply lookup_insert_Some in Hb as [ [ <- <- ] | [ Hne Hb ] ];
      [ destruct Ha | destruct (Hr b s Hb) ]; split; auto.
  - intros b u x Hx; destruct (Hd b u x Hx) as [ s [ H1 H2 H3 H4 H5 ] ].
    destruct (decide (a = b)) as [ <- | Hne ].
    + exists r; destruct (Hsame s H1) as (E1 & E2 & E3 & E4); split; try congruence; try lia.
      cbn; apply lookup_insert_eq.
    + exists s; split; auto; cbn; rewrite lookup_insert_ne; done.
  - intros b c s t Hb Hc E; apply lookup_insert_Some in Hb as [ [ <- <- ] | [ Hb' Hb ] ];
      apply lookup_insert_Some in Hc as [ [ <- <- ] | [ Hc' Hc ] ]; eauto;
      exfalso; [ eapply (Huniq c) | eapply (Huniq b) ]; eauto; congruence.
Qed.


Lemma with_status_fields r st now :
  required_approvals (with_status r st now) = required_approvals r /\
  status (with_status r st now) = st.
Proof. done. Qed.

Lemma set_status_cases d now a st d' :
  set_status d now a st = Ok d' ->
  (d' = d /\ requests d !! a = None) \/
  exists r, requests d !! a = Some r /\ d' = with_requests d (<[ a := with_status r st now ]> (requests d)) /\
    (st = status r \/ status r = "pending"%string) /\
    (st = "approved"%string -> status r = "pending"%string -> required_approvals r <= zsize (approvers d a)).
Proof.
  unfold set_status; intros H; destruct (requests d !! a) as [ r | ]; [ right | left; simplify_eq; auto ].
  pass_guards H; exists r; injection H as <-; split_and!; auto.
  - destruct (String.eqb_spec st (status r)); [ auto | ].
    destruct (String.eqb_spec (status r) "pending"); cbn in *; auto; done.
  - intros -> E; match goal with G : _ && _ && _ = false |- _ => rewrite E in G; cbn in G; b2p; done end.
Qed.

Lemma set_status_core d now a st d' :
  core d -> st ∈ statuses -> set_status d now a st = Ok d' -> core d'.
Proof.
  intros Hc Hst H; apply set_status_cases in H as [ [ -> _ ] | (r & Hr & -> & Hs & Ha) ]; [ done | ].
  destruct (core_requests _ Hc _ _ Hr) as [ H1 H2 H3 H4 ].
  apply core_insert_request; auto.
  - split; cbn; auto; intros ->; destruct Hs as [ Hs | Hp ]; auto.
  - intros s Hs'; rewrite Hr in Hs'; injection Hs' as <-; done.
  - intros b s Hne Hb E; apply Hne; eapply core_workflows; eauto.
Qed.

(** A status change keeps every request tight that was. *)
Lemma set_status_tight d now a st d' b :
  set_status d now a st = Ok d' -> tight d b -> tight d' b.
Proof.
  intros H Ht; apply set_status_cases in H as [ [ -> _ ] | (r & Hr & -> & Hs & Ha) ]; [ done | ].
  intros s Hb; cbn in Hb; apply lookup_insert_Some in Hb as [ [ <- <- ] | [ Hne Hb ] ].
  - destruct (Ht r Hr) as [ Hp Hx ]; rewrite (approvers_ext _ d) by done; cbn; split.
    + intros ->; apply Hp; destruct Hs; congruence.
    + intros u x Hu E; pose proof (Hx u x Hu E) as Er; destruct Hs as [ -> | Hs ]; congruence.
  - destruct (Ht s Hb) as [ Hp Hx ]; rewrite (approvers_ext _ d) by done; auto.
Qed.

Lemma decision_guard_ok d now a c u r :
  decision_guard d now a c u = Ok r ->
  requests d !! a = Some r /\ customer_id r = c /\ status r = "pending"%string /\ now < expires_at r /\
  initiated_by_user_id r <> Some u /\ users d !! u = Some "active"%string /\
  (roles d !! (u, c) = Some "approver"%string \/ roles d !! (u, c) = Some "admin"%string).
Proof.
  unfold decision_guard; intros H; destruct (requests d !! a) as [ r' | ]; [ | done ].
  pass_guards H; destruct (roles d !! (u, c)) as [ role | ]; [ | done ]; pass_guards H; injection H as ->; b2p.
  repeat match goal with E : bool_decide _ = _ |- _ =>
    first [ apply bool_decide_eq_true in E | apply bool_decide_eq_false in E ] end.
  split_and!; auto.
  match goal with E : _ || _ = true |- _ => apply orb_true_iff in E as [ E | E ]; b2p; subst; auto end.
Qed.

Lemma approvers_insert_other d k x b :
  fst k <> b \/ decision x <> "approve"%string -> decisions d !! k = None ->
  approvers (with_decisions d (<[ k := x ]> (decisions d))) b = approvers d b.
Proof.
  intros Hne Hn; apply set_eq; intros u; rewrite !elem_of_approvers; cbn.
  split; intros (y & Hy & E); exists y; split; auto.
  - apply lookup_insert_Some in Hy as [ [ -> <- ] | [ _ Hy ] ]; [ | done ]; cbn in Hne; tauto.
  - apply lookup_insert_Some; right; split; [ congruence | done ].
Qed.

Lemma approvers_insert_grows d k x b :
  decisions d !! k = None ->
  approvers d b ⊆ approvers (with_decisions d (<[ k := x ]> (decisions d))) b.
Proof.
  intros Hn u; rewrite !elem_of_approvers; cbn; intros (y & Hy & E); exists y; split; auto.
  apply lookup_insert_Some; right; split; [ congruence | done ].
Qed.

Lemma zsize_subseteq X Y : X ⊆ Y -> zsize X <= zsize Y.
Proof. intros H; apply subseteq_size in H; unfold zsize; lia. Qed.


(** A decision row the guard let through leaves the core intact. *)
Lemma core_insert_decision d now a c u dec r :
  core d -> decision_guard d now a c u = Ok r -> decisions d !! (a, u) = None ->
  dec = "approve"%string \/ dec = "reject"%string ->
  core (with_decisions d (<[ (a, u) := {| dec_customer_id := c; decision := dec; dec_created_at := now |} ]>
          (decisions d))).
Proof.
  intros Hc Hg Hn Hk; apply decision_guard_ok in Hg as (Hr & Hcu & _ & Ht & Hi & _ & _).
  destruct Hc as [ H1 H2 H3 ]; split; cbn [requests decisions with_decisions]; [ | | done ].
  - intros b s Hb; destruct (H1 b s Hb) as [ P Q R S ]; split; auto; intros E.
    etransitivity; [ apply S, E | apply zsize_subseteq, approvers_insert_grows, Hn ].
  - intros b v x Hx; apply lookup_insert_Some in Hx as [ [ [= <- <-] <- ] | [ _ Hx ] ].
    + exists r; split; auto.
    + destruct (H2 b v x Hx) as [ s [ A B C D E ] ]; exists s; split; auto.
Qed.

Lemma decision_apply_core d now a dec d' :
  core d -> decision_apply d now a dec = Ok d' -> core d'.
Proof.
  intros Hc; unfold decision_apply; destruct (String.eqb dec "reject").
  - apply set_status_core; [ done | unfold statuses; set_solver ].
  - destruct (requests d !! a) as [ r | ]; [ | intros H; simplify_eq; done ].
    destruct (_ <=? _); [ | intros H; simplify_eq; done ].
    apply set_status_core; [ done | unfold statuses; set_solver ].
Qed.

Lemma set_status_lookup d now a st d' s :
  set_status d now a st = Ok d' -> requests d' !! a = Some s -> status s = st.
Proof.
  intros H Hs; apply set_status_cases in H as [ [ -> Hn ] | (r & Hr & -> & _) ]; [ congruence | ].
  cbn in Hs; rewrite lookup_insert_eq in Hs; injection Hs as <-; done.
Qed.

Lemma set_status_decisions d now a st d' : set_status d now a st = Ok d' -> decisions d' = decisions d.
Proof. intros H; apply set_status_cases in H as [ [ -> _ ] | (r & _ & -> & _) ]; done. Qed.

Lemma insert_decision_inv d now a c u dec d' :
  insert_decision d now a c u dec = Ok d' ->
  exists r, decision_guard d now a c u = Ok r /\ decisions d !! (a, u) = None /\
    (dec = "approve"%string \/ dec = "reject"%string) /\
    decision_apply (with_decisions d (<[ (a, u) := {| dec_customer_id := c; decision := dec;
      dec_created_at := now |} ]> (decisions d))) now a dec = Ok d'.
Proof.
  unfold insert_decision; intros H.
  destruct (decision_guard d now a c u) as [ r | | ]; cbn [result_bind] in H; [ | done | done ].
  pass_guards H; destruct (decisions d !! (a, u)); [ done | ]; exists r; split_and!; auto.
  b2p; match goal with E : _ || _ = true |- _ => apply orb_true_iff in E as [ E | E ] end; b2p; auto.
Qed.

(** A decision leaves other requests alone ... *)
Lemma insert_decision_tight_other d now a c u dec d' b :
  insert_decision d now a c u dec = Ok d' -> b <> a -> tight d b -> tight d' b.
Proof.
  intros H Hne Ht; apply insert_decision_inv in H as (r & Hg & Hn & _ & H).
  set (d1 := with_decisions _ _) in H.
  assert (tight d1 b) as T1.
  { intros s Hs; destruct (Ht s Hs) as [ P Q ]; unfold d1.
    rewrite approvers_insert_other by (cbn; auto); split; [ auto | ].
    intros v x Hv E; cbn in Hv; apply lookup_insert_Some in Hv as [ [ [= <- <-] _ ] | [ _ Hv ] ]; [ done | eauto ]. }
  unfold decision_apply in H; repeat case_match; simplify_eq; eauto using set_status_tight.
Qed.

(** ... and settles its own: rejected at once, approved at the required number. *)
Lemma insert_decision_tight_self d now a c u dec d' :
  insert_decision d now a c u dec = Ok d' -> tight d a -> tight d' a.
Proof.
  intros H Ht s Hs; apply insert_decision_inv in H as (r & Hg & Hn & Hk & H).
  apply decision_guard_ok in Hg as (Hr & _ & Hp & _); destruct (Ht r Hr) as [ _ Hrej ].
  set (d1 := with_decisions _ _) in H.
  assert (forall v x, decisions d1 !! (a, v) = Some x -> decision x = "reject"%string -> dec = "reject"%string) as R.
  { intros v x Hv E; cbn in Hv; apply lookup_insert_Some in Hv as [ [ [= <-] <- ] | [ _ Hv ] ]; [ done | ].
    pose proof (Hrej v x Hv E); congruence. }
  unfold decision_apply in H; destruct (String.eqb_spec dec "reject") as [ -> | Hd ].
  - pose proof (set_status_lookup _ _ _ _ _ _ H Hs) as Es; rewrite Es; split; [ done | auto ].
  - change (requests d1 !! a) with (requests d !! a) in H; rewrite Hr in H.
    destruct (_ <=? _) eqn:L; b2p.
    + pose proof (set_status_lookup _ _ _ _ _ _ H Hs) as Es; rewrite Es.
      split; [ done | ]; intros v x Hv E; rewrite (set_status_decisions _ _ _ _ _ H) in Hv; exfalso; eauto.
    + injection H as <-; change (requests d1 !! a) with (requests d !! a) in Hs.
      rewrite Hr in Hs; injection Hs as <-; split; [ done | ].
      intros v x Hv E; exfalso; eauto.
Qed.

Lemma insert_decision_wf d now a c u dec d' :
  db_wf d -> insert_decision d now a c u dec = Ok d' -> db_wf d'.
Proof.
  intros [ Hc Ht ] H; split.
  - apply insert_decision_inv in H as (r & Hg & Hn & Hk & H).
    eapply decision_apply_core; [ | exact H ]; eapply core_insert_decision; eauto.
  - intros b; destruct (decide (b = a)) as [ -> | Hne ];
      eauto using insert_decision_tight_self, insert_decision_tight_other.
Qed.


Lemma insert_request_cases uuid d now fresh i d' :
  insert_request uuid d now fresh i = Ok d' ->
  (d' = d /\ is_Some (find_request d (WorkflowID i))) \/
  exists r, d' = with_requests d (<[ fresh := r ]> (requests d)) /\ requests d !! fresh = None /\
    find_request d (WorkflowID i) = None /\ workflow_id r = WorkflowID i /\
    status r = "pending"%string /\ 1 <= required_approvals r <= 10 /\ created_at r < expires_at r /\
    created_at r = now.
Proof.
  unfold insert_request; intros H; destruct (uuid (CustomerID i)) as [ c | ]; [ | done ].
  match type of H with result_bind _ ?c = _ => destruct c as [ ini | | ] end;
    cbn [result_bind] in H; [ | done | done ].
  pass_guards H; destruct (find_request d (WorkflowID i)) as [ q | ]; [ left; simplify_eq; eauto | right ].
  pass_guards H; destruct (requests d !! fresh) eqn:F; [ done | ]; injection H as <-.
  b2p; eexists; split_and!; try done; cbn; lia.
Qed.

Lemma insert_request_wf uuid d now fresh i d' :
  db_wf d -> insert_request uuid d now fresh i = Ok d' -> db_wf d'.
Proof.
  intros [ Hc Ht ] H; apply insert_request_cases in H
    as [ [ -> _ ] | (r & -> & Hn & Hf & Hw & Hp & Hq & He & _) ]; [ done | ].
  assert (forall u x, decisions d !! (fresh, u) = Some x -> False) as Nd.
  { intros u x Hx; destruct (core_decisions _ Hc _ _ _ Hx) as (s & [ A _ _ _ _ ]); congruence. }
  split.
  - apply core_insert_request; auto.
    + split; auto; [ rewrite Hp; constructor | congruence ].
    + congruence.
    + intros b s _ Hb; rewrite Hw; eapply find_request_none; eauto.
  - intros b s Hs; cbn in Hs; rewrite (approvers_ext _ d) by done.
    apply lookup_insert_Some in Hs as [ [ <- <- ] | [ _ Hs ] ]; [ | apply Ht, Hs ]; split.
    + intros _; assert (approvers d fresh = ∅) as ->; [ | unfold zsize; rewrite size_empty; lia ].
      apply set_eq; intros u; rewrite elem_of_approvers; split; [ | set_solver ].
      intros (x & Hx & _); exfalso; eauto.
    + intros u x Hx; exfalso; cbn in Hx; eauto.
Qed.

Lemma close_cases d now w st d' :
  CloseApprovalRequest (Some d) now w st = Ok (Some d') ->
  d' = d \/ ((st = "expired"%string \/ st = "rejected"%string) /\ exists a, set_status d now a st = Ok d').
Proof.
  unfold CloseApprovalRequest; destruct (_ && _) eqn:E; intros H; [ simplify_eq; auto | ].
  destruct (find_request d w) as [ [ a r ] | ]; [ | simplify_eq; auto ].
  destruct (String.eqb (status r) "pending"); [ | simplify_eq; auto ].
  destruct (set_status d now a st) as [ d1 | | ] eqn:S; cbn in H; simplify_eq.
  right; split; [ | eauto ]; apply andb_false_iff in E as [ E | E ]; b2p; auto.
Qed.

Lemma set_status_wf d now a st d' :
  db_wf d -> st ∈ statuses -> set_status d now a st = Ok d' -> db_wf d'.
Proof. intros [ Hc Ht ] Hs H; split; eauto using set_status_core, set_status_tight. Qed.

(** Tables other than requests and decisions do not matter to the invariant. *)
Lemma wf_same_record d d' :
  requests d' = requests d -> decisions d' = decisions d -> db_wf d -> db_wf d'.
Proof.
  intros Er Ed [ [ H1 H2 H3 ] Ht ]; split.
  - split; rewrite ?Er, ?Ed; auto.
    + intros a r Hr; destruct (H1 a r Hr); split; auto; rewrite (approvers_ext _ d) by done; done.
    + intros a u x Hx; destruct (H2 a u x Hx) as [ r [ A B C D E ] ]; exists r; split; auto; congruence.
  - intros a r Hr; rewrite Er in Hr; rewrite Ed, (approvers_ext _ d) by done; apply Ht, Hr.
Qed.

Lemma step_wf uuid d d' : db_step uuid d d' -> db_wf d -> db_wf d'.
Proof.
  destruct 1 as [ d d' now fresh i H | d d' now a c u dec H | d d' now w st H | d d' now a st Hs H
    | d d' c p H | d r u c ]; intros Hw.
  - eapply insert_request_wf; eauto.
  - eapply insert_decision_wf; eauto.
  - apply close_cases in H as [ -> | [ Hst [ a H ] ] ]; [ done | ]; eapply set_status_wf; eauto.
    unfold statuses; destruct Hst as [ -> | -> ]; set_solver.
  - eapply set_status_wf; eauto.
  - unfold upsert_policy in H; pass_guards H; injection H as <-; revert Hw; apply wf_same_record; done.
  - revert Hw; apply wf_same_record; done.
Qed.

Lemma reachable_wf uuid d d' : rtc (db_step uuid) d d' -> db_wf d -> db_wf d'.
Proof. induction 1; eauto using step_wf. Qed.

(** ** What never changes *)

Definition same_terms (r r' : approval_request) : Prop :=
  customer_id r' = customer_id r /\ workflow_id r' = workflow_id r /\
  initiated_by_user_id r' = initiated_by_user_id r /\ required_approvals r' = required_approvals r /\
  summary r' = summary r /\ created_at r' = created_at r /\ expires_at r' = expires_at r.

Definition outlived_by (d d' : db) : Prop :=
  decisions d ⊆ decisions d' /\
  forall a r, requests d !! a = Some r -> exists r', requests d' !! a = Some r' /\ same_terms r r' /\
    (status r <> "pending"%string -> status r' = status r).

#[export] Instance outlived_by_preorder : PreOrder outlived_by.
Proof.
  split; [ intros d; split; [ done | ]; intros a r H; exists r; unfold same_terms; auto 10 | ].
  intros d e f [ D1 R1 ] [ D2 R2 ]; split; [ etransitivity; eauto | ]; intros a r H.
  destruct (R1 a r H) as (r1 & H1 & T1 & S1); destruct (R2 a r1 H1) as (r2 & H2 & T2 & S2).
  exists r2; split_and!; auto; [ unfold same_terms in *; intuition congruence | ].
  intros N; rewrite S2; rewrite S1 by done; done.
Qed.

Lemma set_status_outlived d now a st d' : set_status d now a st = Ok d' -> outlived_by d d'.
Proof.
  intros H; apply set_status_cases in H as [ [ -> _ ] | (r & Hr & -> & Hs & _) ]; [ reflexivity | ].
  split; [ done | ]; intros b s Hb; cbn; destruct (decide (a = b)) as [ <- | Hne ].
  - rewrite Hr in Hb; injection Hb as <-; rewrite lookup_insert_eq; eexists; split_and!; [ done | | ].
    + unfold same_terms; cbn; auto 10.
    + cbn; destruct Hs; [ done | tauto ].
  - rewrite lookup_insert_ne by done; exists s; unfold same_terms; auto 10.
Qed.

Lemma step_outlived uuid d d' : db_step uuid d d' -> outlived_by d d'.
Proof.
  destruct 1 as [ d d' now fresh i H | d d' now a c u dec H | d d' now w st H | d d' now a st Hs H
    | d d' c p H | d r u c ].
  - apply insert_request_cases in H as [ [ -> _ ] | (r & -> & Hn & _) ]; [ reflexivity | ].
    split; [ done | ]; intros b s Hb; cbn; rewrite lookup_insert_ne by congruence.
    exists s; unfold same_terms; auto 10.
  - apply insert_decision_inv in H as (r & _ & Hn & _ & H).
    set (d1 := with_decisions _ _) in H; transitivity d1.
    + split; [ apply insert_subseteq, Hn | ]; intros b s Hb; exists s; unfold same_terms; auto 10.
    + unfold decision_apply in H; repeat case_match; simplify_eq; eauto using set_status_outlived; reflexivity.
  - apply close_cases in H as [ -> | [ _ [ a H ] ] ]; [ reflexivity | eauto using set_status_outlived ].
  - eauto using set_status_outlived.
  - unfold upsert_policy in H; pass_guards H; injection H as <-.
    split; [ done | ]; intros a r Hr; exists r; unfold same_terms; auto 10.
  - split; [ done | ]; intros a s Hr; exists s; unfold same_terms; auto 10.
Qed.

Lemma reachable_outlived uuid d d' : rtc (db_step uuid) d d' -> outlived_by d d'.
Proof. induction 1; [ reflexivity | ]; etransitivity; eauto using step_outlived. Qed.


(** ** Properties *)

(** The people who approved [a]: enough of them, none the initiator, each by
    a decision made before the request expired. *)
Definition dual_control (d : db) (a : string) (r : approval_request) (people : gset string) : Prop :=
  required_approvals r <= zsize people /\ 1 <= required_approvals r /\
  forall u, u ∈ people -> initiated_by_user_id r <> Some u /\
    exists x, decisions d !! (a, u) = Some x /\ decision x = "approve"%string /\
      dec_customer_id x = customer_id r /\ dec_created_at x < expires_at r.

Lemma approved_dual_control d a r :
  db_wf d -> requests d !! a = Some r -> status r = "approved"%string ->
  dual_control d a r (approvers d a).
Proof.
  intros [ Hc _ ] Hr Hs; destruct (core_requests _ Hc _ _ Hr) as [ H1 _ _ H4 ].
  split_and!; [ auto | lia | ]; intros u Hu; apply elem_of_approvers in Hu as (x & Hx & E).
  destruct (core_decisions _ Hc _ _ _ Hx) as (s & [ A B C D _ ]); rewrite Hr in A; injection A as <-; eauto 10.
Qed.

(** C4.  Whatever anyone does to the record, through the activities, the
    decision table or a direct status update, an approved request has at
    least its required number of distinct approvers (at least one), none of
    them its initiator, each having decided before it expired; and a request
    with a rejection is rejected. *)
Theorem approved_means_dual_control uuid d0 d a r :
  db_wf d0 -> rtc (db_step uuid) d0 d -> requests d !! a = Some r ->
  (status r = "approved"%string -> dual_control d a r (approvers d a)) /\
  (forall u x, decisions d !! (a, u) = Some x -> decision x = "reject"%string ->
     status r = "rejected"%string).
Proof.
  intros H0 Hs Hr; pose proof (reachable_wf _ _ _ Hs H0) as Hw; split.
  - apply approved_dual_control; done.
  - destruct Hw as [ _ Ht ]; apply (Ht a r Hr).
Qed.

(** The record is append-only: whatever happens, decisions stay, a
    request's terms (tenant, workflow, initiator, number of approvals, summary,
    window) stay, and once it has left pending its status stays. *)
Theorem record_append_only uuid d d' : rtc (db_step uuid) d d' -> outlived_by d d'.
Proof. apply reachable_outlived. Qed.

(** A decision is recorded exactly when its request is this tenant's,
    pending and unexpired, and the person is active, holds the approver or
    admin role, is not the initiator, has not decided yet and says approve or
    reject. *)
Theorem decision_recorded_iff d now a c u dec :
  (exists d', insert_decision d now a c u dec = Ok d') <->
  (exists r, requests d !! a = Some r /\ customer_id r = c /\ status r = "pending"%string /\
     now < expires_at r /\ initiated_by_user_id r <> Some u) /\
  (roles d !! (u, c) = Some "approver"%string \/ roles d !! (u, c) = Some "admin"%string) /\
  users d !! u = Some "active"%string /\ decisions d !! (a, u) = None /\
  (dec = "approve"%string \/ dec = "reject"%string).
Proof.
  split.
  - intros [ d' H ]; apply insert_decision_inv in H as (r & Hg & Hn & Hk & _).
    apply decision_guard_ok in Hg as (A & B & C & D & E & F & G); eauto 10.
  - intros ((r & Hr & <- & Hp & Ht & Hi) & Hrole & Hu & Hn & Hk).
    assert (decision_guard d now a (customer_id r) u = Ok r) as G.
    { unfold decision_guard; rewrite Hr, String.eqb_refl, Hp; cbn [negb String.eqb].
      replace (expires_at r <=? now) with false by lia.
      rewrite (bool_decide_eq_false_2 _ Hi), (bool_decide_eq_true_2 _ Hu).
      destruct Hrole as [ -> | -> ]; done. }
    unfold insert_decision; rewrite G; cbn [result_bind]; rewrite Hn.
    replace (negb (_ || _)) with false by (destruct Hk as [ -> | -> ]; done).
    set (d1 := with_decisions _ _); unfold decision_apply.
    assert (forall st, (st = "approved"%string -> required_approvals r <= zsize (approvers d1 a)) ->
      exists d', set_status d1 now a st = Ok d') as S.
    { intros st Hst; unfold set_status; change (requests d1 !! a) with (requests d !! a); rewrite Hr, Hp.
      rewrite andb_false_r; destruct (String.eqb_spec st "approved"); cbn [andb String.eqb]; [ | eauto ].
      cbn; replace (_ <? _) with false by (specialize (Hst e); lia); eauto. }
    destruct (String.eqb dec "reject"); [ apply S; done | ].
    change (requests d1 !! a) with (requests d !! a); rewrite Hr; destruct (_ <=? _) eqn:L; b2p; eauto.
Qed.

(** Opening is idempotent: however much happens between an attempt and
    its retry, the retry changes nothing and reads back the approval id and
    the number of approvals of the first attempt. *)
Theorem open_idempotent uuid d0 d1 d2 d3 now fresh now2 fresh2 t t' i o1 :
  db_wf d0 -> insert_request uuid d0 now fresh i = Ok d1 ->
  read_opened d1 t (WorkflowID i) = Ok o1 ->
  rtc (db_step uuid) d1 d2 -> insert_request uuid d2 now2 fresh2 i = Ok d3 ->
  d3 = d2 /\ exists o3, read_opened d3 t' (WorkflowID i) = Ok o3 /\
    ApprovalID o3 = ApprovalID o1 /\ RequiredApprovals o3 = RequiredApprovals o1.
Proof.
  intros H0 Hi Ho Hs Hi2; pose proof (insert_request_wf _ _ _ _ _ _ H0 Hi) as W1.
  pose proof (reachable_wf _ _ _ Hs W1) as [ C2 _ ]; apply reachable_outlived in Hs as [ _ Hr ].
  unfold read_opened in Ho |- *; destruct (find_request d1 (WorkflowID i)) as [ [ a r ] | ] eqn:F; [ | done ].
  injection Ho as <-; apply find_request_some in F as [ Ha Hw ].
  destruct (Hr a r Ha) as (r' & Ha' & (T1 & T2 & T3 & T4 & _) & _).
  assert (find_request d2 (WorkflowID i) = Some (a, r')) as F2
    by (apply find_request_unique; auto; congruence).
  apply insert_request_cases in Hi2 as [ [ -> _ ] | (q & _ & _ & Hn & _) ]; [ | congruence ].
  split; [ done | ]; rewrite F2; eexists; split; [ done | ]; cbn; auto.
Qed.


(** ** A concrete request: Alice initiates, Bob and Carol approve *)

Definition sampleDb : db :=
  {| requests := ∅; decisions := ∅; policies := ∅;
     roles := {[ ("bob", "acme") := "approver"; ("carol", "acme") := "admin"; ("alice", "acme") := "admin" ]}%string;
     users := {[ "alice" := "active"; "bob" := "active"; "carol" := "active" ]}%string;
     customers := {[ "acme" ]}%string |}.

Definition sampleInput : OpenApprovalRequestInput :=
  {| WorkflowID := "wf-1"; CustomerID := "acme"; InitiatedByUserID := "alice"; InitiatedByLabel := "";
     Summary := "{}" |}.

Definition or_same (d : db) (r : result DbErr db) : db := match r with Ok d' => d' | _ => d end.
Definition sampleOpened : db := or_same sampleDb (insert_request Some sampleDb 1000 "ap-1" sampleInput).
Definition sampleOnce : db := or_same sampleDb (insert_decision sampleOpened 2000 "ap-1" "acme" "bob" "approve").
Definition sampleTwice : db := or_same sampleDb (insert_decision sampleOnce 3000 "ap-1" "acme" "carol" "approve").

Lemma empty_record_wf p r u c :
  db_wf {| requests := ∅; decisions := ∅; policies := p; roles := r; users := u; customers := c |}.
Proof.
  split; [ split | ]; cbn.
  - intros a q H; rewrite lookup_empty in H; done.
  - intros a v x H; rewrite lookup_empty in H; done.
  - intros a b q s H; rewrite lookup_empty in H; done.
  - intros a q H; cbn in H; rewrite lookup_empty in H; done.
Qed.

(** The initiator is turned away, and one approval of two is not enough. *)
Example sample_guards :
  insert_decision sampleOpened 2000 "ap-1" "acme" "alice" "approve" = Err OFB01 /\
  insert_decision sampleOnce 3000 "ap-1" "acme" "bob" "approve" = Err ConstraintViolation /\
  (status <$> requests sampleOnce !! "ap-1"%string) = Some "pending"%string /\
  (status <$> requests sampleTwice !! "ap-1"%string) = Some "approved"%string.
Proof. vm_compute; auto. Qed.

Lemma sample_steps : rtc (db_step Some) sampleDb sampleOpened /\ rtc (db_step Some) sampleOpened sampleTwice.
Proof.
  split.
  - apply rtc_once, (open_step _ _ _ 1000 "ap-1" sampleInput); vm_compute; reflexivity.
  - eapply rtc_l; [ apply (decide_step _ _ sampleOnce 2000 "ap-1" "acme" "bob" "approve"); vm_compute; reflexivity | ].
    apply rtc_once, (decide_step _ _ _ 3000 "ap-1" "acme" "carol" "approve"); vm_compute; reflexivity.
Qed.

Lemma approved_means_dual_control_witness :
  exists r, requests sampleTwice !! "ap-1"%string = Some r /\ status r = "approved"%string /\
    dual_control sampleTwice "ap-1" r (approvers sampleTwice "ap-1").
Proof.
  destruct (requests sampleTwice !! "ap-1"%string) as [ r | ] eqn:E; [ | vm_compute in E; discriminate E ].
  assert (status r = "approved"%string) as S by (vm_compute in E; injection E as <-; reflexivity).
  exists r; split; [ reflexivity | split; [ exact S | ] ].
  apply (approved_means_dual_control Some sampleDb sampleTwice); auto.
  - apply empty_record_wf.
  - etransitivity; apply sample_steps.
Defined.

Lemma record_append_only_witness : outlived_by sampleOpened sampleTwice.
Proof. apply (record_append_only Some), sample_steps. Defined.

Lemma open_idempotent_witness :
  exists o3, read_opened sampleTwice 9000 "wf-1" = Ok o3 /\ ApprovalID o3 = "ap-1"%string /\ RequiredApprovals o3 = 2.
Proof.
  edestruct (open_idempotent Some sampleDb sampleOpened sampleTwice sampleTwice 1000 "ap-1" 5000 "ap-2" 1000 9000
    sampleInput) as (_ & o3 & H); [ apply empty_record_wf | vm_compute; reflexivity | vm_compute; reflexivity
    | apply sample_steps | vm_compute; reflexivity | exists o3; exact H ].
Defined.


End ApprovalDb.
