(* ===== verification/EthRpc.v ===== *)
(** * Ethereum JSON-RPC

    Models [internal/ethrpc/ethrpc.go] (the copies in [services/settlement]
    and [services/temporal-worker] are the same file): one request and its
    reply, quantities, receipts, and the calls built on them.

    The HTTP exchange is a parameter that returns the status and the parsed
    reply; a JSON value keeps what the client looks at.  The theorems separate
    the three ways a call can fail: the node not reached, the node refusing,
    and the node having no record. *)

From Stdlib Require Import ZArith Lia Ascii String.
From stdpp Require Import base list numbers strings.
From S2P Require Import Prelude GoStrings GoText.

Open Scope Z_scope.

Module EthRpc.

Inductive Json : Type :=
| JNull
| JStr (s : string)
| JObj (fields : list (string * Json))
| JNum (n : Z)
| JBool (b : bool)
| JOther.

Record rpcRequest := { Method : string; Params : list Json }.
Record rpcError := { Code : Z; Message : string }.
(** [Result] is [None] when the reply has no such field. *)
Record rpcResponse := { Result : option Json; Error : option rpcError }.

Inductive RpcErr : Type :=
| BadEndpoint
| Unreachable
| HttpStatus (code : Z)
| NotJsonRpc
| Rejected (e : rpcError)
| NotFound
| UnexpectedValue.

(** [Dial]: the endpoint must be an http(s) URL. *)
Definition Dial (url : string) : result RpcErr string :=
  check! has_prefix "http://" url || has_prefix "https://" url else BadEndpoint;
  Ok url.

(** Decoding the entries of an object into one Go [string] field of a struct:
    keys match up to (ASCII) case, a later entry overrides an earlier one, and
    [null] leaves the field as it is. *)
Fixpoint scan_string (name acc : string) (fields : list (string * Json)) : result RpcErr string :=
  match fields with
  | [] => Ok acc
  | (k, v) :: fields =>
      if equal_fold k name then
        match v with
        | JNull => scan_string name acc fields
        | JStr s => scan_string name s fields
        | _ => Err UnexpectedValue
        end
      else scan_string name acc fields
  end.

Definition string_field (name : string) (fields : list (string * Json)) : result RpcErr string :=
  scan_string name "" fields.

Record Receipt := { Status : Z; BlockNumber : Z; GasUsed : Z; TxHash : string }.

(** [hexUint]: what does not read as a number is zero. *)
Definition hexUint (s : string) : Z :=
  match big_of_hex (trim_prefix "0x" s) with
  | None => 0
  | Some v => big_uint64 v
  end.

Definition decodeReceipt (fields : list (string * Json)) : result RpcErr Receipt :=
  let! status := string_field "status" fields in
  let! block := string_field "blockNumber" fields in
  let! gas := string_field "gasUsed" fields in
  let! hash := string_field "transactionHash" fields in
  Ok {| Status := hexUint status; BlockNumber := hexUint block; GasUsed := hexUint gas; TxHash := hash |}.

Section Client.
(** [c.http.Do] and [json.Unmarshal] of the body *)
Variable exchange : string -> rpcRequest -> option (Z * option rpcResponse).
Variable url : string.

Definition call (method : string) (params : list Json) : result RpcErr Json :=
  match exchange url {| Method := method; Params := params |} with
  | None => Err Unreachable
  | Some (status, body) =>
      refuse! negb (status =? 200) with HttpStatus status;
      match body with
      | None => Err NotJsonRpc
      | Some out =>
          match Error out with
          | Some e => Err (Rejected e)
          | None =>
              match Result out with
              | None | Some JNull => Err NotFound
              | Some v => Ok v
              end
          end
      end
  end.

Definition hexBig (method : string) (params : list Json) : result RpcErr Z :=
  let! raw := call method params in
  match raw with
  | JStr s =>
      match big_of_hex (trim_prefix "0x" s) with
      | Some v => Ok v
      | None => Err UnexpectedValue
      end
  | _ => Err UnexpectedValue
  end.

Definition ChainID : result RpcErr Z := hexBig "eth_chainId" [].
Definition BlockNumberOf : result RpcErr Z :=
  let! v := hexBig "eth_blockNumber" [] in Ok (big_uint64 v).
Definition BalanceAt (address : string) : result RpcErr Z :=
  hexBig "eth_getBalance" [ JStr address; JStr "latest" ].
Definition PendingNonceAt (address : string) : result RpcErr Z :=
  let! v := hexBig "eth_getTransactionCount" [ JStr address; JStr "pending" ] in Ok (big_uint64 v).
Definition SuggestGasPrice : result RpcErr Z := hexBig "eth_gasPrice" [].

Definition EstimateGas (from to data value : string) : result RpcErr Z :=
  let fields := [ ("from"%string, JStr from); ("to"%string, JStr to) ]
    ++ (if String.eqb data "" then [] else [ ("data"%string, JStr data) ])
    ++ (if String.eqb value "" then [] else [ ("value"%string, JStr value) ]) in
  let! v := hexBig "eth_estimateGas" [ JObj fields; JStr "latest" ] in Ok (big_uint64 v).

Definition SendRawTransaction (rawHex : string) : result RpcErr string :=
  let rawHex := if has_prefix "0x" rawHex then rawHex else "0x" +:+ rawHex in
  let! raw := call "eth_sendRawTransaction" [ JStr rawHex ] in
  match raw with JStr hash => Ok hash | _ => Err UnexpectedValue end.

Definition TransactionReceipt (txHash : string) : result RpcErr Receipt :=
  let! raw := call "eth_getTransactionReceipt" [ JStr txHash ] in
  match raw with
  | JObj fields => decodeReceipt fields
  | _ => Err UnexpectedValue
  end.

Definition Call (to data : string) : result RpcErr string :=
  let! raw := call "eth_call" [ JObj [ ("to"%string, JStr to); ("data"%string, JStr data) ]; JStr "latest" ] in
  match raw with JStr out => Ok out | _ => Err UnexpectedValue end.

(** ** What a reply means *)

Lemma scan_string_outcome name fields : forall acc,
  (exists s, scan_string name acc fields = Ok s) \/ scan_string name acc fields = Err UnexpectedValue.
Proof.
  induction fields as [ | [ k v ] fields IH ]; intros acc; cbn; [ eauto | ].
  destruct (equal_fold k name), v; auto.
Qed.

Lemma string_field_null name fields :
  Forall (fun kv => equal_fold kv.1 name = true -> kv.2 = JNull) fields -> string_field name fields = Ok ""%string.
Proof.
  unfold string_field; induction 1 as [ | [ k v ] fields H _ IH ]; cbn [fst snd scan_string] in *; [ done | ].
  destruct (equal_fold k name); [ rewrite H by done | ]; done.
Qed.

Lemma decodeReceipt_outcome fields :
  (exists r, decodeReceipt fields = Ok r) \/ decodeReceipt fields = Err UnexpectedValue.
Proof.
  unfold decodeReceipt, string_field.
  destruct (scan_string_outcome "status" fields "") as [ [ ? -> ] | -> ]; cbn; auto.
  destruct (scan_string_outcome "blockNumber" fields "") as [ [ ? -> ] | -> ]; cbn; auto.
  destruct (scan_string_outcome "gasUsed" fields "") as [ [ ? -> ] | -> ]; cbn; auto.
  destruct (scan_string_outcome "transactionHash" fields "") as [ [ ? -> ] | -> ]; cbn; eauto.
Qed.

(** "Not mined yet" is told apart from an outage and from a refusal:
    a receipt is reported missing exactly when the node answered 200 with no
    error and a null (or no) result. *)
Theorem receipt_pending_iff txHash :
  TransactionReceipt txHash = Err NotFound <->
  exists out, exchange url {| Method := "eth_getTransactionReceipt"; Params := [ JStr txHash ] |}
                = Some (200, Some out) /\ Error out = None /\
              (Result out = None \/ Result out = Some JNull).
Proof.
  unfold TransactionReceipt, call; split.
  - intros H; destruct (exchange _ _) as [ [ st body ] | ]; [ | done ].
    destruct (negb (st =? 200)) eqn:S; [ done | ]; b2p; subst; destruct body as [ out | ]; [ | done ].
    exists out; destruct (Error out); [ done | ].
    destruct (Result out) as [ [ | | fields | | | ] | ]; cbn [result_bind] in H; auto; try done; exfalso.
    destruct (decodeReceipt_outcome fields) as [ [ r Hr ] | Hr ]; rewrite Hr in H; done.
  - intros (out & -> & He & Hr); cbn; rewrite He; destruct Hr as [ -> | -> ]; done.
Qed.

Lemma receipt_not_panic txHash : TransactionReceipt txHash <> Panic.
Proof.
  unfold TransactionReceipt, call; intros H; destruct (exchange _ _) as [ [ st body ] | ]; [ | done ].
  destruct (negb _); [ done | ]; destruct body as [ out | ]; [ | done ]; destruct (Error out); [ done | ].
  destruct (Result out) as [ [ | | fields | | | ] | ]; cbn [result_bind] in H; try done.
  destruct (decodeReceipt_outcome fields) as [ [ r Hr ] | Hr ]; rewrite Hr in H; done.
Qed.
End Client.

End EthRpc.
