(* ===== verification/Workflow.v ===== *)
(** * Durable workflows

    A Temporal workflow is deterministic code that issues commands (start an
    activity, a timer, a child workflow) and goes on with what their results
    are.  A run here is the list of commands issued, in order, together with
    how it ended: with a value, with an error returned to Temporal, or still
    [Waiting] for events.  Activity results come from the run's history, which
    is an argument of each workflow.

    [fst_bind] and [snd_bind] are how the theorems take a run apart. *)

From stdpp Require Import base list strings.
From S2P Require Import Prelude.

Module Workflow.

(** What an activity ends with: an error's text or a value. *)
Definition answer (A : Type) : Type := (string + A)%type.

Inductive Outcome (A : Type) : Type :=
| Done (a : A)
| Failed (e : string)
| Waiting.
Arguments Done {A} _.
Arguments Failed {A} _.
Arguments Waiting {A}.

Definition Run (C A : Type) : Type := (list C * Outcome A)%type.

Section Runs.
Context {C : Type}.

Definition ret {A} (a : A) : Run C A := ([], Done a).
Definition wait {A} : Run C A := ([], Waiting).
Definition issue (c : C) : Run C unit := ([ c ], Done tt).

Definition bind {A B} (m : Run C A) (k : A -> Run C B) : Run C B :=
  match snd m with
  | Done a => (fst m ++ fst (k a), snd (k a))
  | Failed e => (fst m, Failed e)
  | Waiting => (fst m, Waiting)
  end.

(** [ExecuteActivity(...).Get(...)]: the error goes to the caller as a value. *)
Definition exec {A} (c : C) (r : answer A) : Run C (answer A) := ([ c ], Done r).

(** The common [if err != nil { return nil, err }]. *)
Definition or_fail {A} (m : Run C (answer A)) : Run C A :=
  bind m (fun x => match x with inl e => ([], Failed e) | inr a => ret a end).

Lemma fst_bind {A B} (m : Run C A) (k : A -> Run C B) c :
  c ∈ fst (bind m k) <-> c ∈ fst m \/ exists a, snd m = Done a /\ c ∈ fst (k a).
Proof.
  unfold bind; destruct (snd m) as [ a | e | ] eqn:E; cbn; [ rewrite elem_of_app | | ];
    split; intros H; auto; try (destruct H as [ H | (b & Hb & H) ]; [ auto | simplify_eq; auto ]).
  destruct H as [ H | H ]; eauto.
Qed.

Lemma snd_bind {A B} (m : Run C A) (k : A -> Run C B) b :
  snd (bind m k) = Done b <-> exists a, snd m = Done a /\ snd (k a) = Done b.
Proof.
  unfold bind; destruct (snd m) as [ a | e | ]; cbn; split; eauto; try done;
    intros (c & Hc & H); simplify_eq; done.
Qed.

Lemma or_fail_exec {A} c (r : answer A) :
  or_fail (exec c r) = ([ c ], match r with inl e => Failed e | inr a => Done a end).
Proof. destruct r; reflexivity. Qed.
End Runs.

Declare Scope run_scope.
Delimit Scope run_scope with run.
Notation "x <- m ; k" := (bind m (fun x => k))
  (at level 100, m at next level, right associativity) : run_scope.

End Workflow.
