(* ===== verification/SettlementWorkflow.v ===== *)
(** * The settlement workflow

    Models [services/temporal-worker/workflows/types.go], [approval.go] and
    [transaction_settlement.go], and the activities of
    [services/temporal-worker/activities/activities.go].

    A Temporal workflow is a deterministic function of its history: the
    results of its activities, its version markers and the events its
    selectors receive.  [History] is that input, and a run returns the
    commands issued, in order, with the outcome ([Waiting] when the events
    received so far do not let it go on).  The theorems say what a signature
    request in the commands implies, and that counting decisions one signal at
    a time implements the plain rule over the first vote of each person. *)

From Stdlib Require Import ZArith Lia Ascii String.
From stdpp Require Import base list numbers strings gmap sets relations.
From S2P Require Import Prelude GoStrings Workflow EthTx ApprovalDb EthRpc.
Import Workflow.

Open Scope Z_scope.

Module SettlementWorkflow.

Open Scope run_scope.

(** ** Data ([types.go]) *)

Record TransactionRequest := {
  CustomerID : string;
  CustomerTier : string;
  ChainID : Z;
  To : string;
  Data : string;
  Value : string;
  GasLimit : Z;
  GasPrice : string;
  Nonce : Z;
  Country : string;
  InitiatedByUserID : string;
  InitiatedByLabel : string;
}.

Record TransactionResult := {
  RequestID : string;
  TxHash : string;
  Status : string;
  BlockNumber : Z;
  Reason : string;
}.

Record PolicyCheckResult := {
  Approved : bool;
  Denials : list string;
  RequiresApproval : bool;
  ApprovalReasons : list string;
  PolicyReason : string;
}.

Record SignResult := { SignRequestID : string; SignedTx : string; SignedTxHash : string; From : string }.
Record BroadcastResult := { BroadcastTxHash : string }.
Record MonitorResult := { MinedBlock : Z; Confirmations : Z; Success : bool }.

Record ApprovalDecisionSignal := { ApproverUserID : string; Decision : string }.

Record ApprovalState := {
  StateApprovalID : string;
  StateStatus : string;
  StateRequired : Z;
  ApprovedBy : list string;
  RejectedBy : string;
}.

(** ** Counting decisions ([approval.go]) *)

(** [applyDecision]: the state and the people already counted. *)
Definition applyDecision (initiator : string) (st : ApprovalState * gset string)
    (d : ApprovalDecisionSignal) : ApprovalState * gset string :=
  let '(state, seen) := st in
  let u := ApproverUserID d in
  if String.eqb u "" then st
  else if negb (String.eqb initiator "") && String.eqb u initiator then st
  else if bool_decide (u ∈ seen) then st
  else
    let seen' := {[ u ]} ∪ seen in
    if String.eqb (Decision d) "reject" then
      ({| StateApprovalID := StateApprovalID state; StateStatus := "rejected"; StateRequired := StateRequired state;
          ApprovedBy := ApprovedBy state; RejectedBy := u |}, seen')
    else if String.eqb (Decision d) "approve" then
      let by_ := ApprovedBy state ++ [ u ] in
      ({| StateApprovalID := StateApprovalID state;
          StateStatus := if StateRequired state <=? len by_ then "approved"%string else StateStatus state;
          StateRequired := StateRequired state; ApprovedBy := by_; RejectedBy := RejectedBy state |}, seen')
    else (state, seen' ∖ {[ u ]}).

Inductive Event : Type :=
| DecisionSignal (d : ApprovalDecisionSignal)
| TimerFired.

Definition expire (state : ApprovalState) : ApprovalState :=
  {| StateApprovalID := StateApprovalID state; StateStatus := "expired"; StateRequired := StateRequired state;
     ApprovedBy := ApprovedBy state; RejectedBy := RejectedBy state |}.

(** The [for state.Status == "pending"] loop over the events the selector
    delivers; it returns a pending state when they run out. *)
Fixpoint approvalLoop (initiator : string) (events : list Event) (st : ApprovalState * gset string)
  : ApprovalState * gset string :=
  if String.eqb (StateStatus (fst st)) "pending" then
    match events with
    | [] => st
    | DecisionSignal d :: events => approvalLoop initiator events (applyDecision initiator st d)
    | TimerFired :: events => approvalLoop initiator events (expire (fst st), snd st)
    end
  else st.

(** ** Runs *)

Inductive Command : Type :=
| DoCheckPolicy (req : TransactionRequest)
| DoOpenApproval (workflowID : string) (req : TransactionRequest) (reasons : list string)
| DoTimer (duration : Z)
| DoGetRecorded (workflowID : string)
| DoCloseApproval (workflowID status : string)
| DoSign (req : TransactionRequest)
| DoBroadcast (signedTx : string)
| DoMonitor (txHash : string).

Record History := {
  workflowID : string;
  (** [GetVersion("segregation-of-duties", DefaultVersion, 1)] returned 1 *)
  segregated : bool;
  checkPolicy : TransactionRequest -> answer PolicyCheckResult;
  openApproval : string -> TransactionRequest -> list string -> answer ApprovalDb.OpenApprovalRequestResult;
  getRecorded : string -> answer ApprovalDb.RecordedApprovalStatus;
  closeApproval : string -> string -> answer unit;
  signTransaction : TransactionRequest -> answer SignResult;
  broadcastTransaction : string -> answer BroadcastResult;
  monitorTransaction : string -> answer MonitorResult;
  (** the events of the approval selector, and the first of the legacy one *)
  events : list Event;
  legacyApproval : option (option bool);
}.

Abbreviation Run := (Workflow.Run Command).

Definition second : Z := 1000000000.

Definition awaitApprovals (h : History) (req : TransactionRequest) (reasons : list string) : Run string :=
  opened <- or_fail (exec (DoOpenApproval (workflowID h) req reasons) (openApproval h (workflowID h) req reasons));
  let required := if ApprovalDb.RequiredApprovals opened <? 1 then 1 else ApprovalDb.RequiredApprovals opened in
  let state := {| StateApprovalID := ApprovalDb.ApprovalID opened; StateStatus := "pending";
                  StateRequired := required; ApprovedBy := []; RejectedBy := "" |} in
  _t <- issue (DoTimer (i64 (ApprovalDb.ExpiresInSeconds opened * second)));
  let state := fst (approvalLoop (InitiatedByUserID req) (events h) (state, ∅)) in
  if String.eqb (StateStatus state) "pending" then wait
  else
    outcome <-
      (if String.eqb (StateStatus state) "approved" then
         recorded <- or_fail (exec (DoGetRecorded (workflowID h)) (getRecorded h (workflowID h)));
         ret (if negb (String.eqb (ApprovalDb.Status recorded) "approved")
                 || (ApprovalDb.DistinctApprovals recorded <? required)
              then "rejected"%string else "approved"%string)
       else ret (StateStatus state));
    _u <- or_fail (exec (DoCloseApproval (workflowID h) outcome) (closeApproval h (workflowID h) outcome));
    ret outcome.

(** [waitForApproval]: the first of the signal and the one-hour timer. *)
Definition waitForApproval (h : History) : Run bool :=
  _t <- issue (DoTimer (3600 * second));
  match legacyApproval h with
  | None => wait
  | Some None => ret false
  | Some (Some approved) => ret approved
  end.

Definition denied (h : History) (reason : string) : TransactionResult :=
  {| RequestID := workflowID h; TxHash := ""; Status := "denied"; BlockNumber := 0; Reason := reason |}.

(** What the workflow returns: a result, an error's text, or both. *)
Definition Returned : Type := (option TransactionResult * option string)%type.

(** Whether the approval step lets the workflow go on, with the reason if not. *)
Definition approvalStep (h : History) (req : TransactionRequest) (policy : PolicyCheckResult)
  : Run (option string) :=
  if RequiresApproval policy then
    if segregated h then
      outcome <- awaitApprovals h req (ApprovalReasons policy);
      ret (if String.eqb outcome "approved" then None else Some ("approval " +:+ outcome))
    else
      approved <- waitForApproval h;
      ret (if approved : bool then None else Some "manual approval not granted within window"%string)
  else ret None.

Definition TransactionSettlementWorkflow (h : History) (req : TransactionRequest) : Run Returned :=
  policy <- or_fail (exec (DoCheckPolicy req) (checkPolicy h req));
  if negb (Approved policy) then ret (Some (denied h (PolicyReason policy)), None)
  else
    refused <- approvalStep h req policy;
    match refused with
    | Some reason => ret (Some (denied h reason), None)
    | None =>
        signed <- or_fail (exec (DoSign req) (signTransaction h req));
        broadcast <- exec (DoBroadcast (SignedTx signed)) (broadcastTransaction h (SignedTx signed));
        match broadcast with
        | inl e =>
            ret (Some {| RequestID := workflowID h; TxHash := SignedTxHash signed; Status := "signed";
                         BlockNumber := 0; Reason := "signed but broadcast failed: " +:+ e |}, Some e)
        | inr broadcast =>
            monitor <- exec (DoMonitor (BroadcastTxHash broadcast)) (monitorTransaction h (BroadcastTxHash broadcast));
            match monitor with
            | inl e =>
                ret (Some {| RequestID := workflowID h; TxHash := BroadcastTxHash broadcast;
                             Status := "broadcasted"; BlockNumber := 0;
                             Reason := "broadcast ok but monitoring failed: " +:+ e |}, Some e)
            | inr monitor =>
                ret (Some {| RequestID := workflowID h; TxHash := BroadcastTxHash broadcast;
                             Status := if Success monitor then "confirmed"%string else "failed"%string;
                             BlockNumber := MinedBlock monitor; Reason := "settled" |}, None)
            end
        end
    end.

(** ** The activities ([activities.go]) *)

Inductive ActErr : Type :=
| PostUnreachable
| PostStatus (code : Z)
| PostUndecodable
| DialRpc
| DecodeHex
| NotATransaction
| SendFailed (e : EthRpc.RpcErr)
| ContextDone.

(** A JSON body: text and integer members. *)
Inductive Member : Type := MText (s : string) | MInt (n : Z).
Definition Body : Type := list (string * Member).

(** [NewActivities]: the number of confirmations it settles for. *)
Definition requiredConfirmations (confirmations : Z) : Z := if confirmations <=? 0 then 3 else confirmations.

Section Http.
Variable A : Type.
(** [httpClient.Do] and decoding the reply: [None] when it cannot be reached *)
Variable transport : string -> Body -> option (Z * option A).

Definition postJSON (url : string) (body : Body) : result ActErr A :=
  match transport url body with
  | None => Err PostUnreachable
  | Some (status, reply) =>
      refuse! 300 <=? status with PostStatus status;
      match reply with Some a => Ok a | None => Err PostUndecodable end
  end.
End Http.

Definition CheckPolicy (transport : string -> Body -> option (Z * option PolicyCheckResult))
    (policyURL : string) (req : TransactionRequest) : result ActErr PolicyCheckResult :=
  postJSON _ transport (policyURL +:+ "/evaluate")
    [ ("customerId", MText (CustomerID req)); ("customerTier", MText (CustomerTier req));
      ("to", MText (To req)); ("value", MText (Value req)); ("chainId", MInt (ChainID req));
      ("country", MText (Country req)) ]%string.

Definition SignTransaction (transport : string -> Body -> option (Z * option SignResult))
    (mpcSignerURL : string) (req : TransactionRequest) : result ActErr SignResult :=
  postJSON _ transport (mpcSignerURL +:+ "/sign")
    [ ("chainId", MInt (ChainID req)); ("to", MText (To req)); ("data", MText (Data req));
      ("value", MText (Value req)); ("gasLimit", MInt (GasLimit req)); ("gasPrice", MText (GasPrice req));
      ("nonce", MInt (Nonce req)) ]%string.

Section Chain.
Variable keccak : bytes -> bytes.
Variable exchange : string -> EthRpc.rpcRequest -> option (Z * option EthRpc.rpcResponse).

Definition BroadcastTransaction (rpcURL signedTx : string) : result ActErr BroadcastResult :=
  match EthRpc.Dial rpcURL with
  | Ok client =>
      match hex_decode (trim_prefix "0x" signedTx) with
      | None => Err DecodeHex
      | Some raw =>
          match EthTx.DecodeSignedTransaction keccak raw with
          | Ok _ =>
              match EthRpc.SendRawTransaction exchange client ("0x" +:+ hex_encode raw) with
              | Ok _ => Ok {| BroadcastTxHash := "0x" +:+ hex_encode (EthTx.TransactionHash keccak raw) |}
              | Err e => Err (SendFailed e)
              | Panic => Panic
              end
          | Err _ => Err NotATransaction
          | Panic => Panic
          end
      end
  | _ => Err DialRpc
  end.
End Chain.

(** One round of [MonitorTransaction]: the context ended, or what the node
    said about the receipt and the head. *)
Inductive Poll : Type :=
| PollDone
| PollTick (receipt : result EthRpc.RpcErr EthRpc.Receipt) (head : result EthRpc.RpcErr Z).

(** [int64(head) - int64(receipt.BlockNumber) + 1] *)
Definition confirmationsAt (head block : Z) : Z := i64 (i64 (i64 head - i64 block) + 1).

(** The polling loop; [None] when the polls so far do not end it. *)
Fixpoint pollLoop (required : Z) (polls : list Poll) : option (result ActErr MonitorResult) :=
  match polls with
  | [] => None
  | PollDone :: _ => Some (Err ContextDone)
  | PollTick (Ok r) (Ok head) :: polls =>
      let confirmations := confirmationsAt head (EthRpc.BlockNumber r) in
      if required <=? confirmations then
        Some (Ok {| MinedBlock := i64 (EthRpc.BlockNumber r); Confirmations := confirmations;
                    Success := EthRpc.Status r =? 1 |})
      else pollLoop required polls
  | PollTick _ _ :: polls => pollLoop required polls
  end.

Definition MonitorTransaction (rpcURL : string) (required : Z) (polls : list Poll)
  : option (result ActErr MonitorResult) :=
  match EthRpc.Dial rpcURL with
  | Ok _ => pollLoop required polls
  | _ => Some (Err DialRpc)
  end.

(** ** The rule the loop implements *)

(** The votes cast before the window closed: who, and whether in favour.  A
    decision without a name, by the initiator, or that is neither approve nor
    reject is no vote. *)
Definition vote_of (initiator : string) (d : ApprovalDecisionSignal) : option (string * bool) :=
  if String.eqb (ApproverUserID d) "" then None
  else if negb (String.eqb initiator "") && String.eqb (ApproverUserID d) initiator then None
  else if String.eqb (Decision d) "reject" then Some (ApproverUserID d, false)
  else if String.eqb (Decision d) "approve" then Some (ApproverUserID d, true)
  else None.

Fixpoint votes (initiator : string) (events : list Event) : list (string * bool) :=
  match events with
  | [] | TimerFired :: _ => []
  | DecisionSignal d :: events =>
      match vote_of initiator d with
      | Some v => v :: votes initiator events
      | None => votes initiator events
      end
  end.

(** Each person's first vote, of those not heard yet. *)
Fixpoint first_votes (heard : gset string) (vs : list (string * bool)) : list (string * bool) :=
  match vs with
  | [] => []
  | v :: vs =>
      if decide (v.1 ∈ heard) then first_votes heard vs
      else v :: first_votes ({[ v.1 ]} ∪ heard) vs
  end.

Fixpoint in_favour_before_rejection (vs : list (string * bool)) : Z :=
  match vs with
  | (_, true) :: vs => 1 + in_favour_before_rejection vs
  | _ => 0
  end.

Definition closed (events : list Event) : bool :=
  existsb (fun e => match e with TimerFired => true | _ => false end) events.

(** Enough people in favour before anyone is against: approved.  Otherwise one
    person against: rejected.  Otherwise expired once the window closes. *)
Definition tally (required : Z) (vs : list (string * bool)) (over : bool) : string :=
  if required <=? in_favour_before_rejection vs then "approved"
  else if existsb (fun v => negb (snd v)) vs then "rejected"
  else if over then "expired" else "pending".

Lemma in_favour_nonneg vs : 0 <= in_favour_before_rejection vs.
Proof. induction vs as [ | [ p [] ] vs IH ]; cbn; lia. Qed.

Lemma tally_approve required p vs over :
  tally required ((p, true) :: vs) over = tally (required - 1) vs over.
Proof.
  unfold tally; cbn [in_favour_before_rejection existsb snd negb orb].
  replace (required <=? 1 + in_favour_before_rejection vs)
    with (required - 1 <=? in_favour_before_rejection vs) by lia; done.
Qed.

Lemma loop_stops initiator evs st :
  StateStatus (fst st) <> "pending"%string -> approvalLoop initiator evs st = st.
Proof. intros H; apply String.eqb_neq in H; destruct evs; cbn [approvalLoop]; rewrite H; done. Qed.

Lemma loop_cons initiator e evs st :
  StateStatus (fst st) = "pending"%string ->
  approvalLoop initiator (e :: evs) st =
  approvalLoop initiator evs
    match e with DecisionSignal d => applyDecision initiator st d | TimerFired => (expire (fst st), snd st) end.
Proof. intros H; cbn [approvalLoop]; rewrite H, String.eqb_refl; destruct e; done. Qed.

(** What a signal does, by the vote it is. *)
Lemma applyDecision_vote initiator state seen d :
  applyDecision initiator (state, seen) d =
  match vote_of initiator d with
  | None => (state, seen)
  | Some (u, yes) =>
      if decide (u ∈ seen) then (state, seen)
      else if yes : bool then
        ({| StateApprovalID := StateApprovalID state;
            StateStatus := if StateRequired state <=? len (ApprovedBy state) + 1 then "approved"%string
                           else StateStatus state;
            StateRequired := StateRequired state; ApprovedBy := ApprovedBy state ++ [ u ];
            RejectedBy := RejectedBy state |}, {[ u ]} ∪ seen)
      else
        ({| StateApprovalID := StateApprovalID state; StateStatus := "rejected";
            StateRequired := StateRequired state; ApprovedBy := ApprovedBy state; RejectedBy := u |},
         {[ u ]} ∪ seen)
  end.
Proof.
  unfold applyDecision, vote_of; destruct (String.eqb _ ""); [ done | ].
  destruct (negb _ && _); [ done | ]; rewrite len_app, len_cons, (@len_nil string).
  destruct (bool_decide_reflect (ApproverUserID d ∈ seen)) as [ Hs | Hs ].
  - destruct (String.eqb (Decision d) "reject"); [ | destruct (String.eqb _ "approve") ];
      rewrite ?decide_True by done; done.
  - destruct (String.eqb (Decision d) "reject"); [ | destruct (String.eqb _ "approve") ];
      rewrite ?decide_False by done; [ done | done | f_equal; set_solver ].
Qed.

Lemma loop_tally initiator evs : forall state seen,
  StateStatus state = "pending"%string -> len (ApprovedBy state) < StateRequired state ->
  StateStatus (fst (approvalLoop initiator evs (state, seen))) =
  tally (StateRequired state - len (ApprovedBy state)) (first_votes seen (votes initiator evs)) (closed evs).
Proof.
  induction evs as [ | [ d | ] evs IH ]; intros state seen Hp Hk.
  - cbn; rewrite Hp; cbn; unfold tally; cbn; replace (_ <=? 0) with false by lia; done.
  - rewrite loop_cons, applyDecision_vote by done; cbn [votes closed existsb orb].
    destruct (vote_of initiator d) as [ [ u yes ] | ]; [ | apply IH; done ]; cbn [first_votes fst].
    destruct (decide (u ∈ seen)); [ apply IH; done | ]; destruct yes.
    + rewrite tally_approve; destruct (_ <=? _) eqn:E.
      * rewrite loop_stops by done; cbn; unfold tally.
        pose proof (in_favour_nonneg (first_votes ({[ u ]} ∪ seen) (votes initiator evs))).
        replace (_ <=? _) with true by lia; done.
      * rewrite Hp, IH; cbn; rewrite ?len_app, ?len_cons, ?(@len_nil string); [ f_equal; lia | done | lia ].
    + rewrite loop_stops by done; cbn; unfold tally; cbn; replace (_ <=? 0) with false by lia; done.
  - rewrite loop_cons by done; rewrite loop_stops by done; cbn; unfold tally; cbn.
    replace (_ <=? 0) with false by lia; done.
Qed.


(** ** Who was counted *)

(** A person who may be counted and said yes. *)
Definition in_favour (initiator : string) (evs : list Event) (u : string) : Prop :=
  u <> ""%string /\ (initiator <> ""%string -> u <> initiator) /\
  exists d, DecisionSignal d ∈ evs /\ ApproverUserID d = u /\ Decision d = "approve"%string.

Record counted (initiator : string) (evs : list Event) (state : ApprovalState) (seen : gset string) : Prop := {
  counted_once : NoDup (ApprovedBy state);
  counted_seen : forall u, u ∈ ApprovedBy state -> u ∈ seen;
  counted_favour : Forall (in_favour initiator evs) (ApprovedBy state);
  counted_enough : StateStatus state = "approved"%string -> StateRequired state <= len (ApprovedBy state);
}.

Lemma vote_of_yes initiator d u yes :
  vote_of initiator d = Some (u, yes) ->
  u <> ""%string /\ (initiator <> ""%string -> u <> initiator) /\ ApproverUserID d = u /\
  (yes = true -> Decision d = "approve"%string).
Proof.
  unfold vote_of; destruct (String.eqb_spec (ApproverUserID d) ""); [ done | ].
  destruct (negb _ && _) eqn:I; [ done | ].
  assert (initiator <> ""%string -> ApproverUserID d <> initiator) as N.
  { intros Hi E; rewrite E, String.eqb_refl in I; apply String.eqb_neq in Hi; rewrite Hi in I; done. }
  destruct (String.eqb_spec (Decision d) "reject"); [ intros; simplify_eq; split_and!; auto; done | ].
  destruct (String.eqb_spec (Decision d) "approve"); intros; simplify_eq; split_and!; auto.
Qed.

Lemma applyDecision_counted initiator evs d state seen :
  DecisionSignal d ∈ evs -> counted initiator evs state seen ->
  counted initiator evs (fst (applyDecision initiator (state, seen) d))
    (snd (applyDecision initiator (state, seen) d)).
Proof.
  intros Hin C; rewrite applyDecision_vote; destruct (vote_of initiator d) as [ [ u yes ] | ] eqn:V; [ | exact C ].
  apply vote_of_yes in V as (Hne & Hi & Hu & Hy); destruct (decide (u ∈ seen)) as [ | Hs ]; [ exact C | ].
  destruct C as [ C1 C2 C3 C4 ]; destruct yes; split; cbn.
  - apply NoDup_app; split_and!; [ done | | apply NoDup_singleton ].
    intros v Hv Hv'; apply list_elem_of_singleton in Hv' as ->; auto.
  - intros v Hv; apply elem_of_app in Hv as [ Hv | Hv ]; [ set_solver | ].
    apply list_elem_of_singleton in Hv; set_solver.
  - apply Forall_app; split; [ done | ]; repeat constructor; eauto.
  - rewrite len_app, len_cons, (@len_nil string); destruct (_ <=? _) eqn:E; b2p; [ lia | ].
    intros H; specialize (C4 H); lia.
  - done.
  - set_solver.
  - done.
  - done.
Qed.

Lemma loop_counted initiator all : forall evs state seen,
  (forall e, e ∈ evs -> e ∈ all) -> counted initiator all state seen ->
  counted initiator all (fst (approvalLoop initiator evs (state, seen)))
    (snd (approvalLoop initiator evs (state, seen))) /\
  StateRequired (fst (approvalLoop initiator evs (state, seen))) = StateRequired state.
Proof.
  induction evs as [ | e evs IH ]; intros state seen Hin C; cbn [approvalLoop].
  { destruct (String.eqb _ _); done. }
  destruct (String.eqb (StateStatus (fst (state, seen))) "pending"); [ | done ].
  assert (forall e', e' ∈ evs -> e' ∈ all) as Hin' by (intros; apply Hin; set_solver).
  destruct e as [ d | ].
  - pose proof (applyDecision_counted initiator all d state seen ltac:(apply Hin; set_solver) C) as C'.
    assert (StateRequired (fst (applyDecision initiator (state, seen) d)) = StateRequired state) as R
      by (rewrite applyDecision_vote; repeat case_match; done).
    destruct (applyDecision initiator (state, seen) d) as [ state' seen' ]; cbn in C', R; rewrite <- R; auto.
  - cbn; destruct (IH (expire state) seen Hin') as [ A B ]; [ | auto ].
    destruct C as [ C1 C2 C3 C4 ]; split; cbn; auto; done.
Qed.

Lemma initial_counted initiator evs id required :
  counted initiator evs
    {| StateApprovalID := id; StateStatus := "pending"; StateRequired := required; ApprovedBy := [];
       RejectedBy := "" |} ∅.
Proof. split; cbn; [ constructor | set_solver | constructor | done ]. Qed.

(** What an "approved" from [awaitApprovals] rests on. *)
Definition approved_by_people (h : History) (req : TransactionRequest) (reasons : list string) : Prop :=
  exists opened recorded people,
    openApproval h (workflowID h) req reasons = inr opened /\
    getRecorded h (workflowID h) = inr recorded /\
    let required := Z.max 1 (ApprovalDb.RequiredApprovals opened) in
    ApprovalDb.Status recorded = "approved"%string /\ required <= ApprovalDb.DistinctApprovals recorded /\
    NoDup people /\ required <= len people /\ Forall (in_favour (InitiatedByUserID req) (events h)) people.

Lemma awaitApprovals_approved h req reasons :
  snd (awaitApprovals h req reasons) = Done "approved"%string -> approved_by_people h req reasons.
Proof.
  unfold awaitApprovals, approved_by_people; rewrite snd_bind; intros (opened & Ho & H).
  rewrite or_fail_exec in Ho; cbn in Ho; destruct (openApproval _ _ _ _) as [ | o ] eqn:Eo; [ done | ].
  injection Ho as ->; rewrite snd_bind in H; destruct H as ([] & _ & H).
  set (required := if _ <? 1 then _ else _) in H.
  assert (required = Z.max 1 (ApprovalDb.RequiredApprovals opened)) as Er
    by (unfold required; destruct (_ <? 1) eqn:?; b2p; lia).
  set (init := {| StateStatus := "pending" |}) in H.
  destruct (loop_counted (InitiatedByUserID req) (events h) (events h) init ∅ ltac:(done)
    (initial_counted _ _ _ _)) as [ C Rq ].
  destruct (String.eqb (StateStatus _) "pending"); [ done | ].
  rewrite snd_bind in H; destruct H as (outcome & Hout & H).
  rewrite snd_bind in H; destruct H as ([] & _ & H); cbn in H; injection H as ->.
  destruct (String.eqb_spec (StateStatus (fst (approvalLoop (InitiatedByUserID req) (events h) (init, ∅))))
    "approved") as [ Ea | Ea ]; [ | cbn in Hout; congruence ].
  rewrite snd_bind in Hout; destruct Hout as (recorded & Hrec & Hout).
  rewrite or_fail_exec in Hrec; cbn in Hrec; destruct (getRecorded _ _) as [ | rc ] eqn:Eg; [ done | ].
  injection Hrec as ->; cbn in Hout.
  destruct (_ || _) eqn:G in Hout; [ done | ]; b2p.
  destruct C as [ C1 _ C3 C4 ]; specialize (C4 Ea); rewrite Rq in C4; cbn in C4.
  exists opened, recorded, (ApprovedBy (fst (approvalLoop (InitiatedByUserID req) (events h) (init, ∅)))).
  rewrite <- Er; split_and!; auto.
Qed.


(** ** The settlement *)

Definition settles (c : Command) : bool :=
  match c with DoSign _ | DoBroadcast _ | DoMonitor _ => true | _ => false end.

Lemma awaitApprovals_settles_nothing h req reasons c :
  c ∈ fst (awaitApprovals h req reasons) -> settles c = false.
Proof.
  unfold awaitApprovals; rewrite fst_bind; intros [ H | (opened & _ & H) ].
  { rewrite or_fail_exec in H; apply list_elem_of_singleton in H as ->; done. }
  rewrite fst_bind in H; destruct H as [ H | ([] & _ & H) ].
  { apply list_elem_of_singleton in H as ->; done. }
  destruct (String.eqb _ "pending"); [ apply elem_of_nil in H; done | ].
  rewrite fst_bind in H; destruct H as [ H | (outcome & _ & H) ].
  - destruct (String.eqb _ "approved"); [ | apply elem_of_nil in H; done ].
    rewrite fst_bind, or_fail_exec in H; destruct H as [ H | (r & _ & H) ];
      [ apply list_elem_of_singleton in H as ->; done | apply elem_of_nil in H; done ].
  - rewrite fst_bind, or_fail_exec in H; destruct H as [ H | (r & _ & H) ];
      [ apply list_elem_of_singleton in H as ->; done | apply elem_of_nil in H; done ].
Qed.

Lemma approvalStep_settles_nothing h req p c : c ∈ fst (approvalStep h req p) -> settles c = false.
Proof.
  unfold approvalStep; destruct (RequiresApproval p); [ | intros H; apply elem_of_nil in H; done ].
  destruct (segregated h); rewrite fst_bind; intros [ H | (x & _ & H) ];
    try (apply elem_of_nil in H; done); [ eapply awaitApprovals_settles_nothing; eauto | ].
  unfold waitForApproval in H; rewrite fst_bind in H; destruct H as [ H | ([] & _ & H) ].
  - apply list_elem_of_singleton in H as ->; done.
  - destruct (legacyApproval h) as [ [ b | ] | ]; apply elem_of_nil in H; done.
Qed.

(** The approval step was passed. *)
Definition gate_passed (h : History) (req : TransactionRequest) (p : PolicyCheckResult) : Prop :=
  Approved p = true /\ snd (approvalStep h req p) = Done None.

Lemma gate_needs_people h req p :
  gate_passed h req p -> RequiresApproval p = true -> segregated h = true ->
  approved_by_people h req (ApprovalReasons p).
Proof.
  intros [ _ H ] Hr Hs; unfold approvalStep in H; rewrite Hr, Hs, snd_bind in H.
  destruct H as (outcome & Ho & H); cbn in H; apply awaitApprovals_approved.
  destruct (String.eqb_spec outcome "approved"); [ congruence | done ].
Qed.

(** A settling command is only ever issued past the gate, and is one of three. *)
Lemma workflow_settling h req c :
  c ∈ fst (TransactionSettlementWorkflow h req) -> settles c = true ->
  exists p, checkPolicy h req = inr p /\ gate_passed h req p /\
    (c = DoSign req \/
     exists s, signTransaction h req = inr s /\
       (c = DoBroadcast (SignedTx s) \/
        exists b, broadcastTransaction h (SignedTx s) = inr b /\ c = DoMonitor (BroadcastTxHash b))).
Proof.
  unfold TransactionSettlementWorkflow; rewrite fst_bind, or_fail_exec; intros [ H | (p & Hp & H) ] Hc.
  { apply list_elem_of_singleton in H as ->; done. }
  cbn in Hp; destruct (checkPolicy h req) as [ | p' ]; [ done | ]; injection Hp as ->.
  exists p; split; [ done | ]; destruct (Approved p) eqn:Ap; cbn [negb] in H; [ | apply elem_of_nil in H; done ].
  rewrite fst_bind in H; destruct H as [ H | (refused & Hg & H) ].
  { apply approvalStep_settles_nothing in H; congruence. }
  destruct refused; [ apply elem_of_nil in H; done | ]; split; [ split; done | ].
  rewrite fst_bind, or_fail_exec in H; destruct H as [ H | (s & Hs & H) ].
  { apply list_elem_of_singleton in H; auto. }
  cbn in Hs; destruct (signTransaction h req) as [ | s' ]; [ done | ]; injection Hs as ->.
  right; exists s; split; [ done | ].
  rewrite fst_bind in H; destruct H as [ H | (b & Hb & H) ]; [ apply list_elem_of_singleton in H; auto | ].
  cbn in Hb; injection Hb as <-; destruct (broadcastTransaction h (SignedTx s)) as [ | b ];
    [ apply elem_of_nil in H; done | ]; right; exists b; split; [ done | ].
  rewrite fst_bind in H; destruct H as [ H | (m & _ & H) ]; [ apply list_elem_of_singleton in H; auto | ].
  destruct m; apply elem_of_nil in H; done.
Qed.

(** *** Properties *)

(** C10.  Counting signals one at a time, with the set of people already
    heard, gives exactly the rule stated over whole histories: approved when
    the required number of people's first votes are in favour before any is
    against, rejected when one is against first, expired when the window closes
    before either, pending until then. *)
Theorem counting_implements_rule initiator evs id required :
  1 <= required ->
  StateStatus (fst (approvalLoop initiator evs
    ({| StateApprovalID := id; StateStatus := "pending"; StateRequired := required; ApprovedBy := [];
        RejectedBy := "" |}, ∅)))
  = tally required (first_votes ∅ (votes initiator evs)) (closed evs).
Proof.
  intros Hr; rewrite loop_tally by (cbn; done || (unfold len; cbn; lia)).
  cbn [StateRequired ApprovedBy]; rewrite (@len_nil string), Z.sub_0_r; done.
Qed.

(** Nothing is signed, broadcast or monitored unless the policy
    approved the transaction and, when it asks for approval, enough distinct
    people other than the initiator signalled approval and the database agrees
    that it is approved with that many distinct approvals. *)
Theorem no_settlement_without_approval h req c :
  c ∈ fst (TransactionSettlementWorkflow h req) -> settles c = true ->
  exists p, checkPolicy h req = inr p /\ Approved p = true /\
    (RequiresApproval p = true -> segregated h = true -> approved_by_people h req (ApprovalReasons p)).
Proof.
  intros H Hc; apply workflow_settling in H as (p & Hp & Hg & _); [ | done ].
  exists p; split_and!; [ done | apply Hg | eauto using gate_needs_people ].
Qed.

(** What is broadcast is what was signed, what is monitored is what was
    broadcast, and only the requested transaction is ever signed. *)
Theorem settlement_chain_of_custody h req c :
  c ∈ fst (TransactionSettlementWorkflow h req) ->
  match c with
  | DoSign r => r = req
  | DoBroadcast tx => exists s, signTransaction h req = inr s /\ tx = SignedTx s
  | DoMonitor hash => exists s b, signTransaction h req = inr s /\
      broadcastTransaction h (SignedTx s) = inr b /\ hash = BroadcastTxHash b
  | _ => True
  end.
Proof.
  intros H; destruct (settles c) eqn:Hc; [ | destruct c; done ].
  apply workflow_settling in H as (p & _ & _ & [ -> | (s & Hs & [ -> | (b & Hb & ->) ]) ]); eauto 10.
Qed.


(** The result is truthful about how far the settlement got: "denied"
    only with nothing signed; "signed" when broadcasting failed, with the
    signer's hash; "broadcasted" when monitoring failed; "confirmed" or
    "failed" exactly as the monitor found the mined transaction.  An error
    accompanies the two interrupted outcomes and no other. *)
Theorem settlement_status_truthful h req res err :
  snd (TransactionSettlementWorkflow h req) = Done (Some res, err) ->
  RequestID res = workflowID h /\
  ((Status res = "denied"%string /\ err = None /\ TxHash res = ""%string /\
    forall c, c ∈ fst (TransactionSettlementWorkflow h req) -> settles c = false) \/
   exists s, signTransaction h req = inr s /\
     ((Status res = "signed"%string /\ TxHash res = SignedTxHash s /\
       exists e, broadcastTransaction h (SignedTx s) = inl e /\ err = Some e) \/
      exists b, broadcastTransaction h (SignedTx s) = inr b /\ TxHash res = BroadcastTxHash b /\
        ((Status res = "broadcasted"%string /\
          exists e, monitorTransaction h (BroadcastTxHash b) = inl e /\ err = Some e) \/
         exists m, monitorTransaction h (BroadcastTxHash b) = inr m /\ err = None /\
           BlockNumber res = MinedBlock m /\
           Status res = if Success m then "confirmed"%string else "failed"%string))).
Proof.
  intros H; assert (snd (TransactionSettlementWorkflow h req) = Done (Some res, err)) as H' by done.
  unfold TransactionSettlementWorkflow in H; rewrite snd_bind, or_fail_exec in H.
  destruct H as (p & Hp & H); cbn in Hp; destruct (checkPolicy h req) as [ | p' ] eqn:Ep; [ done | ].
  injection Hp as ->.
  assert (forall g, ~ gate_passed h req p -> res = denied h g -> err = None ->
    RequestID res = workflowID h /\ Status res = "denied"%string /\ err = None /\ TxHash res = ""%string /\
    forall c, c ∈ fst (TransactionSettlementWorkflow h req) -> settles c = false) as Deny.
  { intros g Ng -> ->; split_and!; auto; intros c Hc; destruct (settles c) eqn:S; [ | done ].
    apply workflow_settling in Hc as (q & Hq & Hg & _); [ | done ]; rewrite Ep in Hq; simplify_eq; done. }
  destruct (Approved p) eqn:Ap; cbn [negb] in H.
  2: { cbn in H; simplify_eq; destruct (Deny (PolicyReason p)) as [ A B ]; auto; intros [ E _ ]; congruence. }
  rewrite snd_bind in H; destruct H as (refused & Hg & H); destruct refused as [ g | ].
  { cbn in H; simplify_eq; destruct (Deny g) as [ A B ]; auto; intros [ _ E ]; congruence. }
  rewrite snd_bind, or_fail_exec in H; destruct H as (s & Hs & H); cbn in Hs.
  destruct (signTransaction h req) as [ | s' ]; [ done | ]; injection Hs as ->; cbn in H.
  destruct (broadcastTransaction h (SignedTx s)) as [ e | b ] eqn:Eb; cbn in H; [ simplify_eq; cbn; eauto 10 | ].
  destruct (monitorTransaction h (BroadcastTxHash b)) as [ e | m ] eqn:Em; cbn in H; simplify_eq; cbn;
    (split; [ done | ]); right; exists s; (split; [ done | ]); right; exists b; eauto 10.
Qed.

(** ** The database behind the workflow *)

(** What the approval record promises to the workflow: an approval it reports
    is [justified] for that workflow, by that many people. *)
Class ApprovalRecord (recorded : string -> answer ApprovalDb.RecordedApprovalStatus)
    (justified : string -> Z -> Prop) : Prop :=
  recorded_justified : forall w r, recorded w = inr r -> ApprovalDb.Status r = "approved"%string ->
    justified w (ApprovalDb.DistinctApprovals r).

(** Against the interface: a settling command has a justified approval. *)
Lemma settlement_justified h req c justified `{!ApprovalRecord (getRecorded h) justified} p :
  c ∈ fst (TransactionSettlementWorkflow h req) -> settles c = true ->
  checkPolicy h req = inr p -> RequiresApproval p = true -> segregated h = true ->
  exists opened n, openApproval h (workflowID h) req (ApprovalReasons p) = inr opened /\
    Z.max 1 (ApprovalDb.RequiredApprovals opened) <= n /\ justified (workflowID h) n.
Proof.
  intros H Hc Hp Hr Hs; apply workflow_settling in H as (q & Hq & Hg & _); [ | done ].
  rewrite Hp in Hq; simplify_eq; apply gate_needs_people in Hg as (o & r & people & Ho & Hrec & Hst & Hn & _); auto.
  exists o, (ApprovalDb.DistinctApprovals r); split_and!; auto; eapply recorded_justified; eauto.
Qed.

Definition recordedIn (d : ApprovalDb.db) (w : string) : answer ApprovalDb.RecordedApprovalStatus :=
  match ApprovalDb.GetRecordedApprovalStatus (Some d) w with
  | Ok r => inr r
  | _ => inl "no approval request recorded"%string
  end.

(** [n] people approved the request of workflow [w], under dual control. *)
Definition justifiedIn (d : ApprovalDb.db) (w : string) (n : Z) : Prop :=
  exists a r people, ApprovalDb.requests d !! a = Some r /\ ApprovalDb.workflow_id r = w /\
    ApprovalDb.dual_control d a r people /\ n <= ApprovalDb.zsize people.

(** The implementation discharges the interface. *)
#[export] Instance database_record d : ApprovalDb.db_wf d -> ApprovalRecord (recordedIn d) (justifiedIn d).
Proof.
  intros Hw w r H Hs; unfold recordedIn, ApprovalDb.GetRecordedApprovalStatus in H.
  destruct (ApprovalDb.find_request d w) as [ [ a row ] | ] eqn:F; [ | done ]; injection H as <-.
  apply ApprovalDb.find_request_some in F as [ Ha Ew ]; cbn in Hs |- *.
  exists a, row, (ApprovalDb.approvers d a); split_and!; auto.
  - apply ApprovalDb.approved_dual_control; done.
  - destruct (ApprovalDb.initiated_by_user_id row); [ apply ApprovalDb.zsize_subseteq; set_solver | lia ].
Qed.

Lemma gate_legacy h req p :
  gate_passed h req p -> RequiresApproval p = true -> segregated h = false -> legacyApproval h = Some (Some true).
Proof.
  intros [ _ H ] Hr Hs; unfold approvalStep in H; rewrite Hr, Hs, snd_bind in H.
  destruct H as (ok & Ho & H); unfold waitForApproval in Ho; rewrite snd_bind in Ho; destruct Ho as (u & _ & Ho).
  destruct (legacyApproval h) as [ [ b | ] | ]; cbn in Ho, H; [ | | done ]; injection Ho as <-; [ destruct b | ]; done.
Qed.

(** C1.  End to end: with the recorded status read from a database in any
    state its writers can bring it to, a transaction is signed, broadcast or
    monitored only if the policy approved it and, when the policy asks for
    approval, at least the opened number of distinct people (and at least one)
    approved this workflow's request in that database before it expired, none of
    them its initiator.  The one exception is a workflow that was started before
    segregation of duties was introduced: it keeps the version it was started
    with, and there the boolean approval signal was true. *)
Theorem signature_means_dual_control uuid d0 d h req c :
  ApprovalDb.db_wf d0 -> rtc (ApprovalDb.db_step uuid) d0 d -> getRecorded h = recordedIn d ->
  c ∈ fst (TransactionSettlementWorkflow h req) -> settles c = true ->
  exists p, checkPolicy h req = inr p /\ Approved p = true /\
    (RequiresApproval p = false \/
     (segregated h = false /\ legacyApproval h = Some (Some true)) \/
     (segregated h = true /\
      exists opened a r people, openApproval h (workflowID h) req (ApprovalReasons p) = inr opened /\
        ApprovalDb.requests d !! a = Some r /\ ApprovalDb.workflow_id r = workflowID h /\
        ApprovalDb.dual_control d a r people /\
        Z.max 1 (ApprovalDb.RequiredApprovals opened) <= ApprovalDb.zsize people)).
Proof.
  intros H0 Hs Hg Hc Hset; pose proof (ApprovalDb.reachable_wf _ _ _ Hs H0) as Hw.
  assert (ApprovalRecord (getRecorded h) (justifiedIn d)) as I by (rewrite Hg; apply database_record, Hw).
  destruct (workflow_settling h req c Hc Hset) as (p & Hp & Gp & _); exists p; split_and!; [ done | apply Gp | ].
  destruct (RequiresApproval p) eqn:Hr; [ right | by left ].
  destruct (segregated h) eqn:Hv; [ right; split; [ done | ] | left; eauto using gate_legacy ].
  destruct (settlement_justified h req c (justifiedIn d) p) as (o & n & Ho & Hn & a & r & people & A & B & C & D); auto.
  exists o, a, r, people; split_and!; auto; lia.
Qed.


(** ** Broadcasting and monitoring *)

(** Only bytes that decode as a signed transaction reach the node, the
    bytes sent are exactly the bytes decoded, and the hash reported is theirs. *)
Theorem broadcast_sends_decoded keccak exchange rpcURL signedTx out :
  BroadcastTransaction keccak exchange rpcURL signedTx = Ok out ->
  exists raw info reply, hex_decode (trim_prefix "0x" signedTx) = Some raw /\
    EthTx.DecodeSignedTransaction keccak raw = Ok info /\
    EthRpc.call exchange rpcURL "eth_sendRawTransaction" [ EthRpc.JStr ("0x" +:+ hex_encode raw) ]
      = Ok (EthRpc.JStr reply) /\
    BroadcastTxHash out = "0x" +:+ hex_encode (EthTx.TransactionHash keccak raw).
Proof.
  unfold BroadcastTransaction, EthRpc.Dial; intros H.
  destruct (has_prefix _ _ || _) in H; [ | done ].
  destruct (hex_decode _) as [ raw | ]; [ | done ].
  destruct (EthTx.DecodeSignedTransaction keccak raw) as [ info | | ] eqn:D; try done.
  unfold EthRpc.SendRawTransaction in H.
  assert (has_prefix "0x" ("0x" +:+ hex_encode raw) = true) as P
    by (unfold has_prefix; rewrite strip_prefix_app; done).
  rewrite P in H; destruct (EthRpc.call _ _ _ _) as [ [ | reply | | | | ] | | ] eqn:C; cbn in H; try done.
  injection H as <-; exists raw, info, reply; auto.
Qed.

(** A monitor result comes from one poll in which the node showed the
    receipt with at least the required confirmations, and it is a success
    exactly when that receipt's status is 1; polls that fail or fall short
    never end the loop. *)
Theorem monitor_result_confirmed required polls m :
  pollLoop required polls = Some (Ok m) ->
  exists before r head after, polls = before ++ PollTick (Ok r) (Ok head) :: after /\
    required <= Confirmations m /\ Confirmations m = confirmationsAt head (EthRpc.BlockNumber r) /\
    (Success m = true <-> EthRpc.Status r = 1) /\ pollLoop required before = None.
Proof.
  induction polls as [ | [ | receipt head ] polls IH ]; intros H; cbn in H; [ done | done | ].
  assert (pollLoop required polls = Some (Ok m) -> (forall r hd, receipt = Ok r -> head = Ok hd ->
      confirmationsAt hd (EthRpc.BlockNumber r) < required) ->
    exists before r head0 after, PollTick receipt head :: polls = before ++ PollTick (Ok r) (Ok head0) :: after /\
      required <= Confirmations m /\ Confirmations m = confirmationsAt head0 (EthRpc.BlockNumber r) /\
      (Success m = true <-> EthRpc.Status r = 1) /\ pollLoop required before = None) as Skip.
  { intros Hl Hs; destruct (IH Hl) as (before & r & hd & after & -> & A & B & C & D).
    exists (PollTick receipt head :: before), r, hd, after; split_and!; auto; cbn.
    destruct receipt as [ r' | | ], head as [ hd' | | ]; auto.
    replace (_ <=? _) with false by (specialize (Hs r' hd' eq_refl eq_refl); lia); done. }
  destruct receipt as [ r | | ], head as [ hd | | ]; try (apply Skip; [ done | intros; done ]).
  destruct (_ <=? _) eqn:E; b2p.
  - injection H as <-; exists [], r, hd, polls; cbn; split_and!; auto; split; intros; b2p; auto; lia.
  - apply Skip; [ done | intros; simplify_eq; lia ].
Qed.

(** A receipt whose block number is null or missing is
    taken as mined in block zero: once the chain is long enough it counts as
    confirmed in the first poll, although it is in no block. *)
Theorem receipt_without_block_confirms exchange url txHash fields r required head polls :
  EthRpc.call exchange url "eth_getTransactionReceipt" [ EthRpc.JStr txHash ] = Ok (EthRpc.JObj fields) ->
  Forall (fun kv => equal_fold kv.1 "blockNumber" = true -> kv.2 = EthRpc.JNull) fields ->
  EthRpc.TransactionReceipt exchange url txHash = Ok r ->
  0 <= head -> required <= head + 1 < two63 ->
  pollLoop required (PollTick (EthRpc.TransactionReceipt exchange url txHash) (Ok head) :: polls)
  = Some (Ok {| MinedBlock := 0; Confirmations := head + 1; Success := EthRpc.Status r =? 1 |}).
Proof.
  intros Hc Hf Hr H0 Hh; assert (EthRpc.BlockNumber r = 0) as B.
  { unfold EthRpc.TransactionReceipt in Hr; rewrite Hc in Hr; cbn [result_bind] in Hr.
    unfold EthRpc.decodeReceipt in Hr.
    destruct (EthRpc.string_field "status" fields); cbn [result_bind] in Hr; [ | done | done ].
    rewrite (EthRpc.string_field_null _ _ Hf) in Hr; cbn [result_bind] in Hr.
    destruct (EthRpc.string_field "gasUsed" fields); cbn [result_bind] in Hr; [ | done | done ].
    destruct (EthRpc.string_field "transactionHash" fields); cbn [result_bind] in Hr; [ | done | done ].
    injection Hr as <-; reflexivity. }
  rewrite Hr; cbn [pollLoop]; rewrite B.
  assert (confirmationsAt head 0 = head + 1) as E.
  { assert (in_i64 head /\ in_i64 0 /\ in_i64 (head + 1)) as (I1 & I2 & I3) by (unfold in_i64, two63 in *; lia).
    unfold confirmationsAt; rewrite (i64_id head), (i64_id 0), Z.sub_0_r, (i64_id head), i64_id; done. }
  rewrite E; replace (_ <=? _) with true by lia; done.
Qed.


(** ** A concrete settlement: Alice's transfer, approved by Bob and Carol *)

Definition sampleTransfer : TransactionRequest :=
  {| CustomerID := "acme"; CustomerTier := "gold"; ChainID := 1; To := "0x00"; Data := ""; Value := "5";
     GasLimit := 21000; GasPrice := "1"; Nonce := 0; Country := "ZA"; InitiatedByUserID := "alice";
     InitiatedByLabel := "" |}.

Definition sampleEvents : list Event :=
  [ DecisionSignal {| ApproverUserID := "alice"; Decision := "approve" |};
    DecisionSignal {| ApproverUserID := "bob"; Decision := "approve" |};
    DecisionSignal {| ApproverUserID := "bob"; Decision := "approve" |};
    DecisionSignal {| ApproverUserID := "carol"; Decision := "approve" |} ].

Definition sampleHistory : History :=
  {| workflowID := "wf-1"; segregated := true;
     checkPolicy := fun _ => inr {| Approved := true; Denials := []; RequiresApproval := true;
                                    ApprovalReasons := []; PolicyReason := "" |};
     openApproval := fun w _ _ =>
       match ApprovalDb.read_opened ApprovalDb.sampleOpened 1000 w with
       | Ok o => inr o | _ => inl ""%string end;
     getRecorded := recordedIn ApprovalDb.sampleTwice;
     closeApproval := fun _ _ => inr tt;
     signTransaction := fun _ => inr {| SignRequestID := "1"; SignedTx := "0xaa"; SignedTxHash := "0x01"; From := "" |};
     broadcastTransaction := fun _ => inr {| BroadcastTxHash := "0x02" |};
     monitorTransaction := fun _ => inr {| MinedBlock := 9; Confirmations := 3; Success := true |};
     events := sampleEvents; legacyApproval := None |}.

Definition sampleCommands : list Command :=
  [ DoCheckPolicy sampleTransfer; DoOpenApproval "wf-1" sampleTransfer []; DoTimer (3600 * second);
    DoGetRecorded "wf-1"; DoCloseApproval "wf-1" "approved"; DoSign sampleTransfer; DoBroadcast "0xaa";
    DoMonitor "0x02" ].

Definition sampleResult : TransactionResult :=
  {| RequestID := "wf-1"; TxHash := "0x02"; Status := "confirmed"; BlockNumber := 9; Reason := "settled" |}.

Lemma sample_run :
  TransactionSettlementWorkflow sampleHistory sampleTransfer = (sampleCommands, Done (Some sampleResult, None)).
Proof. vm_compute; reflexivity. Qed.

Lemma sample_signs : DoSign sampleTransfer ∈ fst (TransactionSettlementWorkflow sampleHistory sampleTransfer).
Proof. rewrite sample_run; unfold sampleCommands; cbn; do 5 apply list_elem_of_further; apply list_elem_of_here. Qed.

Lemma counting_implements_rule_witness :
  tally 2 (first_votes ∅ (votes "alice" sampleEvents)) (closed sampleEvents) = "approved"%string.
Proof.
  rewrite <- (counting_implements_rule "alice" sampleEvents "ap-1" 2); [ vm_compute; reflexivity | discriminate ].
Defined.

Lemma no_settlement_without_approval_witness : approved_by_people sampleHistory sampleTransfer [].
Proof.
  destruct (no_settlement_without_approval sampleHistory sampleTransfer (DoSign sampleTransfer) sample_signs eq_refl)
    as (p & Hp & _ & H); injection Hp as <-; apply H; reflexivity.
Defined.

Lemma settlement_chain_of_custody_witness :
  exists s, signTransaction sampleHistory sampleTransfer = inr s /\ "0xaa"%string = SignedTx s.
Proof.
  apply (settlement_chain_of_custody sampleHistory sampleTransfer (DoBroadcast "0xaa")).
  rewrite sample_run; unfold sampleCommands; cbn; do 6 apply list_elem_of_further; apply list_elem_of_here.
Defined.

Lemma settlement_status_truthful_witness :
  snd (TransactionSettlementWorkflow sampleHistory sampleTransfer) = Done (Some sampleResult, None) /\
  RequestID sampleResult = "wf-1"%string.
Proof.
  assert (snd (TransactionSettlementWorkflow sampleHistory sampleTransfer) = Done (Some sampleResult, None)) as H
    by (rewrite sample_run; reflexivity).
  split; [ exact H | apply (settlement_status_truthful sampleHistory sampleTransfer sampleResult None H) ].
Defined.

Lemma signature_means_dual_control_witness :
  exists a r people, ApprovalDb.requests ApprovalDb.sampleTwice !! a = Some r /\
    ApprovalDb.dual_control ApprovalDb.sampleTwice a r people /\ 2 <= ApprovalDb.zsize people.
Proof.
  destruct (signature_means_dual_control Some ApprovalDb.sampleDb ApprovalDb.sampleTwice sampleHistory sampleTransfer
    (DoSign sampleTransfer)
    (ApprovalDb.empty_record_wf _ _ _ _)
    (transitivity (proj1 ApprovalDb.sample_steps) (proj2 ApprovalDb.sample_steps))
    eq_refl sample_signs eq_refl) as (p & Hp & _ & [ F | [ [ F _ ] | [ _ (o & a & r & people & Ho & A & _ & B & C) ] ] ]).
  - vm_compute in Hp; injection Hp as <-; discriminate F.
  - discriminate F.
  - exists a, r, people; split_and!; auto.
    vm_compute in Hp; injection Hp as <-; vm_compute in Ho; injection Ho as <-; exact C.
Defined.

Definition sampleExchange (_ : string) (q : EthRpc.rpcRequest) : option (Z * option EthRpc.rpcResponse) :=
  if String.eqb (EthRpc.Method q) "eth_sendRawTransaction"
  then Some (200, Some {| EthRpc.Result := Some (EthRpc.JStr "0xhash"); EthRpc.Error := None |})
  else Some (200, Some {| EthRpc.Result := Some (EthRpc.JObj [ ("status"%string, EthRpc.JStr "0x1");
                            ("blockNumber"%string, EthRpc.JNull) ]); EthRpc.Error := None |}).

Definition sampleSigned : bytes :=
  match EthTx.WithSignature EthTx.sample_keccak EthTx.sample_recover EthTx.sample_tx EthTx.sample_sig EmptyString with
  | Ok st => EthTx.Raw st
  | _ => []
  end.

Lemma broadcast_sends_decoded_witness :
  exists out raw info, BroadcastTransaction EthTx.sample_keccak sampleExchange "http://node" (hex_encode sampleSigned)
    = Ok out /\ EthTx.DecodeSignedTransaction EthTx.sample_keccak raw = Ok info.
Proof.
  destruct (BroadcastTransaction EthTx.sample_keccak sampleExchange "http://node" (hex_encode sampleSigned))
    as [ out | | ] eqn:E; [ | vm_compute in E; discriminate E | vm_compute in E; discriminate E ].
  destruct (broadcast_sends_decoded EthTx.sample_keccak sampleExchange "http://node" (hex_encode sampleSigned) out E)
    as (raw & info & _ & _ & D & _); exists out, raw, info; auto.
Defined.

Definition samplePolls : list Poll :=
  [ PollTick (Err EthRpc.NotFound) (Ok 10);
    PollTick (Ok {| EthRpc.Status := 0; EthRpc.BlockNumber := 10; EthRpc.GasUsed := 1; EthRpc.TxHash := "" |}) (Ok 11);
    PollTick (Ok {| EthRpc.Status := 0; EthRpc.BlockNumber := 10; EthRpc.GasUsed := 1; EthRpc.TxHash := "" |}) (Ok 12) ].

Lemma monitor_result_confirmed_witness :
  exists r, 3 <= confirmationsAt 12 (EthRpc.BlockNumber r) /\ (false = true <-> EthRpc.Status r = 1).
Proof.
  destruct (monitor_result_confirmed 3 samplePolls {| MinedBlock := 10; Confirmations := 3; Success := false |}
    eq_refl) as (before & r & head & after & E & A & B & C & D).
  destruct before as [ | b0 [ | b1 [ | b2 before ] ] ]; cbn in E.
  - discriminate E.
  - injection E as _ <- <- <-; discriminate B.
  - injection E as _ _ <- <- <-; exists {| EthRpc.Status := 0; EthRpc.BlockNumber := 10; EthRpc.GasUsed := 1; EthRpc.TxHash := "" |}.
    split; [ discriminate | exact C ].
  - apply (f_equal length) in E; rewrite !length_cons in E; rewrite length_app in E; cbn in E; lia.
Defined.

Lemma receipt_without_block_confirms_witness :
  pollLoop 12 [ PollTick (EthRpc.TransactionReceipt sampleExchange "http://node" "0xhash") (Ok 20000000) ]
  = Some (Ok {| MinedBlock := 0; Confirmations := 20000001; Success := true |}).
Proof.
  apply (receipt_without_block_confirms sampleExchange "http://node" "0xhash"
    [ ("status"%string, EthRpc.JStr "0x1"); ("blockNumber"%string, EthRpc.JNull) ]
    {| EthRpc.Status := 1; EthRpc.BlockNumber := 0; EthRpc.GasUsed := 0; EthRpc.TxHash := "" |});
    [ reflexivity | repeat constructor; cbn; try reflexivity; intros E; discriminate E | reflexivity | lia | unfold two63; lia ].
Defined.


End SettlementWorkflow.
