(* ===== verification/BigFloat.v ===== *)
(** * [math/big.Float] as the policy service uses it

    [new(big.Float).SetString(s)] on a plain decimal: precision 64, rounding
    to the nearest with ties to even, the decimal scaling done by dividing by
    a power of five held at precision 128.  A finite non-negative float is a
    dyadic [mant * 2 ^ expo].

    The facts: an integer below 2^64 is read exactly, rounding never reverses
    an order, and a rounded integer is within one part in 2^64. *)

From Stdlib Require Import ZArith Lia Ascii String.
From stdpp Require Import base list numbers strings.
From S2P Require Import Prelude GoStrings GoText.

Open Scope Z_scope.

Module BigFloat.

Record Float := { mant : Z; expo : Z }.

(** Bits of a non-negative integer. *)
Definition bits (m : Z) : Z := if m <=? 0 then 0 else Z.log2 m + 1.

(** Drop [drop] bits, to nearest, ties to even; [sticky]: something non-zero
    lies below the bits of [m]. *)
Definition drop_round (m drop : Z) (sticky : bool) : Z :=
  if drop <=? 0 then m
  else
    let hi := m / 2 ^ drop in
    let lo := m mod 2 ^ drop in
    let half := 2 ^ (drop - 1) in
    if (half <? lo) || ((lo =? half) && (sticky || Z.odd hi)) then hi + 1 else hi.

(** [z.round] at a precision. *)
Definition round (prec m e : Z) (sticky : bool) : Float :=
  let drop := Z.max 0 (bits m - prec) in
  {| mant := drop_round m drop sticky; expo := e + drop |}.

(** [Mul] at a precision. *)
Definition mul (prec : Z) (x y : Float) : Float := round prec (mant x * mant y) (expo x + expo y) false.

(** [Quo] at a precision: enough quotient bits for the rounding bit, the
    remainder as sticky bit. *)
Definition quo (prec : Z) (x y : Float) : Float :=
  let s := Z.max 0 (prec + 2 + bits (mant y) - bits (mant x)) in
  let n := mant x * 2 ^ s in
  round prec (n / mant y) (expo x - expo y - s) (negb (n mod mant y =? 0)).

(** [p.pow5(n)] at a precision: a table up to 27, then square and multiply
    with the square held at 64 bits more. *)
Fixpoint pow5_loop (fuel : nat) (prec : Z) (z f : Float) (n : Z) : Float :=
  match fuel with
  | O => z
  | S fuel =>
      if n =? 0 then z
      else
        let z := if Z.odd n then mul prec z f else z in
        pow5_loop fuel prec z (mul (prec + 64) f f) (n / 2)
  end.

Definition pow5 (prec n : Z) : Float :=
  if n <=? 27 then round prec (5 ^ n) 0 false
  else pow5_loop (Z.to_nat (Z.log2 n) + 2) prec (round prec (5 ^ 27) 0 false)
         {| mant := 5; expo := 0 |} (n - 27).

(** The digits of a plain decimal as one integer, with the number of digits
    after the point: [None] unless [^[0-9]+(\.[0-9]+)?$]. *)
Definition scan_decimal (s : string) : option (Z * Z) :=
  let '(v, count, rest) := scan_digits 0 0 s in
  match count, rest with
  | O, _ => None
  | _, EmptyString => Some (v, 0)
  | _, String c rest =>
      if Ascii.eqb c "." then
        let '(w, fcount, rest) := scan_digits v 0 rest in
        match fcount, rest with
        | O, _ => None
        | _, EmptyString => Some (w, Z.of_nat fcount)
        | _, _ => None
        end
      else None
  end.

(** [new(big.Float).SetString] of a scanned decimal. *)
Definition of_decimal (digits frac : Z) : Float :=
  if digits =? 0 then {| mant := 0; expo := 0 |}
  else if frac =? 0 then round 64 digits 0 false
  else quo 64 {| mant := digits; expo := - frac |} (pow5 128 frac).

(** [x.Cmp(y) <= 0] for non-negative floats. *)
Definition leb (x y : Float) : bool :=
  let e := Z.min (expo x) (expo y) in
  mant x * 2 ^ (expo x - e) <=? mant y * 2 ^ (expo y - e).

(** ** Rounding an integer *)

(** The value of a rounded integer ([expo] is not negative there). *)
Definition int_value (x : Float) : Z := mant x * 2 ^ expo x.

Definition round64 (m : Z) : Z := int_value (round 64 m 0 false).

Lemma bits_spec m : 0 < m -> 2 ^ (bits m - 1) <= m < 2 ^ bits m.
Proof.
  intros H; unfold bits; replace (m <=? 0) with false by lia.
  replace (Z.log2 m + 1 - 1) with (Z.log2 m) by lia; apply Z.log2_spec, H.
Qed.

Lemma bits_nonneg m : 0 <= bits m.
Proof. unfold bits; destruct (_ <=? _); [ lia | ]; pose proof (Z.log2_nonneg m); lia. Qed.

Lemma drop_round_cases m drop sticky :
  0 < drop -> drop_round m drop sticky = m / 2 ^ drop \/ drop_round m drop sticky = m / 2 ^ drop + 1.
Proof.
  intros H; unfold drop_round; replace (drop <=? 0) with false by lia; destruct (_ || _); auto.
Qed.

Lemma round64_small m : 0 <= m < two64 -> round64 m = m.
Proof.
  intros H; unfold round64, int_value, round; cbn [mant expo].
  assert (bits m <= 64) as B.
  { unfold bits; destruct (m <=? 0) eqn:E; [ lia | ]; b2p.
    pose proof (Z.log2_lt_pow2 m 64 ltac:(lia)) as L; change (2 ^ 64) with two64 in L; lia. }
  replace (Z.max 0 (bits m - 64)) with 0 by lia; unfold drop_round; cbn; lia.
Qed.

Lemma pow2_pos k : 0 <= k -> 0 < 2 ^ k.
Proof. intros; apply Z.pow_pos_nonneg; lia. Qed.

Lemma pow2_half k : 0 < k -> 2 ^ k = 2 * 2 ^ (k - 1).
Proof. intros; replace k with (Z.succ (k - 1)) at 1 by lia; apply Z.pow_succ_r; lia. Qed.

(** The error is at most half of the last kept place. *)
Lemma drop_round_error m drop :
  0 < drop -> 0 <= m ->
  Z.abs (drop_round m drop false * 2 ^ drop - m) <= 2 ^ (drop - 1).
Proof.
  intros Hd Hm; unfold drop_round; replace (drop <=? 0) with false by lia.
  pose proof (pow2_pos (drop - 1) ltac:(lia)); pose proof (pow2_half drop Hd).
  pose proof (Z.div_mod m (2 ^ drop) ltac:(lia)); pose proof (Z.mod_pos_bound m (2 ^ drop) ltac:(lia)).
  destruct (_ || _) eqn:E.
  - apply orb_true_iff in E as [ E | E ]; b2p; nia.
  - b2p; nia.
Qed.

Lemma drop_round_mono m n drop :
  0 <= m <= n -> drop_round m drop false <= drop_round n drop false.
Proof.
  intros H; unfold drop_round; destruct (drop <=? 0) eqn:D; b2p; [ lia | ].
  pose proof (pow2_pos drop ltac:(lia)) as P.
  pose proof (Z.div_le_mono m n (2 ^ drop) P ltac:(lia)) as L.
  pose proof (Z.div_mod m (2 ^ drop) ltac:(lia)); pose proof (Z.div_mod n (2 ^ drop) ltac:(lia)).
  destruct (Z.eq_dec (m / 2 ^ drop) (n / 2 ^ drop)) as [ E | E ].
  - rewrite E in *; assert (m mod 2 ^ drop <= n mod 2 ^ drop) as Lm by lia; cbn [orb].
    destruct (_ || _) eqn:X; destruct (_ || _) eqn:Y in |- *; try lia; exfalso.
    apply orb_true_iff in X; apply orb_false_iff in Y as [ Y1 Y2 ]; b2p.
    destruct X as [ X | X ]; b2p; [ lia | ].
    match goal with O : Z.odd _ = true |- _ => rewrite O, andb_true_r in Y2 end; b2p; lia.
  - destruct (_ || _), (_ || _); lia.
Qed.

Lemma round64_exact_or m : 0 <= m ->
  (bits m <= 64 /\ round64 m = m) \/
  (64 < bits m /\ round64 m = drop_round m (bits m - 64) false * 2 ^ (bits m - 64)).
Proof.
  intros H; destruct (Z.le_gt_cases (bits m) 64) as [ L | L ]; [ left | right ]; split; auto;
    unfold round64, int_value, round; cbn [mant expo].
  - replace (Z.max 0 (bits m - 64)) with 0 by lia; unfold drop_round; cbn; lia.
  - replace (Z.max 0 (bits m - 64)) with (bits m - 64) by lia; f_equal.
Qed.

(** A rounded integer keeps its number of bits, up to the next power of two. *)
Lemma round64_range m : 0 < m -> 2 ^ (bits m - 1) <= round64 m <= 2 ^ bits m.
Proof.
  intros H; pose proof (bits_spec m H) as B; destruct (round64_exact_or m ltac:(lia)) as [ [ _ -> ] | [ L -> ] ];
    [ lia | ].
  assert (2 ^ (bits m - 1) = 2 ^ 63 * 2 ^ (bits m - 64)) as E1
    by (rewrite <- Z.pow_add_r by lia; f_equal; lia).
  assert (2 ^ bits m = 2 ^ 64 * 2 ^ (bits m - 64)) as E2
    by (rewrite <- Z.pow_add_r by lia; f_equal; lia).
  pose proof (pow2_pos (bits m - 64) ltac:(lia)) as P; rewrite E1, E2 in *.
  assert (2 ^ 63 <= m / 2 ^ (bits m - 64) < 2 ^ 64) as Q
    by (split; [ apply Z.div_le_lower_bound; lia | apply Z.div_lt_upper_bound; lia ]).
  destruct (drop_round_cases m (bits m - 64) false ltac:(lia)) as [ -> | -> ]; nia.
Qed.

Lemma bits_mono m n : 0 < m <= n -> bits m <= bits n.
Proof.
  intros H; unfold bits; replace (m <=? 0) with false by lia; replace (n <=? 0) with false by lia.
  pose proof (Z.log2_le_mono m n ltac:(lia)); lia.
Qed.

(** Rounding never reverses an order. *)
Lemma round64_mono m n : 0 <= m <= n -> round64 m <= round64 n.
Proof.
  intros H; destruct (Z.eq_dec m 0) as [ -> | Hm ].
  { rewrite (round64_small 0) by (unfold two64; lia).
    destruct (Z.eq_dec n 0) as [ -> | Hn ]; [ rewrite (round64_small 0) by (unfold two64; lia); lia | ].
    pose proof (round64_range n ltac:(lia)); pose proof (bits_nonneg n).
    assert (0 < bits n) by (unfold bits; replace (n <=? 0) with false by lia; pose proof (Z.log2_nonneg n); lia).
    pose proof (pow2_pos (bits n - 1) ltac:(lia)); lia. }
  pose proof (bits_mono m n ltac:(lia)) as B.
  destruct (Z.eq_dec (bits m) (bits n)) as [ E | E ].
  - destruct (round64_exact_or m ltac:(lia)) as [ [ L -> ] | [ L -> ] ],
      (round64_exact_or n ltac:(lia)) as [ [ L' -> ] | [ L' -> ] ]; try lia.
    rewrite E; apply Z.mul_le_mono_nonneg_r; [ apply Z.pow_nonneg; lia | apply drop_round_mono; lia ].
  - pose proof (round64_range m ltac:(lia)); pose proof (round64_range n ltac:(lia)).
    pose proof (Z.pow_le_mono_r 2 (bits m) (bits n - 1) ltac:(lia) ltac:(lia)); lia.
Qed.

(** A rounded integer is within one part in 2^64. *)
Lemma round64_error m : 0 <= m -> two64 * Z.abs (round64 m - m) <= m.
Proof.
  intros H; destruct (round64_exact_or m H) as [ [ _ -> ] | [ L -> ] ]; [ rewrite Z.sub_diag; cbn; lia | ].
  pose proof (drop_round_error m (bits m - 64) ltac:(lia) H) as E.
  assert (0 < m) as Hm by (destruct (Z.eq_dec m 0) as [ -> | ]; [ cbn in L; lia | lia ]).
  pose proof (bits_spec m Hm) as [ B _ ].
  assert (2 ^ (bits m - 1) = two64 * 2 ^ (bits m - 64 - 1)) as E1
    by (change two64 with (2 ^ 64); rewrite <- Z.pow_add_r by lia; f_equal; lia).
  unfold two64 in *; lia.
Qed.

Lemma leb_integers a b :
  0 <= a -> 0 <= b -> leb (of_decimal a 0) (of_decimal b 0) = (round64 a <=? round64 b).
Proof.
  assert (forall n, 0 <= n -> of_decimal n 0 = round 64 n 0 false \/ (n = 0 /\ of_decimal n 0 = {| mant := 0; expo := 0 |})) as D
    by (intros n Hn; unfold of_decimal; destruct (n =? 0) eqn:E; b2p; auto).
  assert (forall n, 0 <= n -> 0 <= expo (of_decimal n 0) /\ int_value (of_decimal n 0) = round64 n) as V.
  { intros n Hn; destruct (D n Hn) as [ -> | [ -> -> ] ]; [ | done ]; split; [ cbn; lia | done ]. }
  intros Ha Hb; destruct (V a Ha) as [ Ea <- ]; destruct (V b Hb) as [ Eb <- ]; unfold leb, int_value.
  generalize dependent (of_decimal a 0); generalize dependent (of_decimal b 0); intros y Ey x Ex.
  set (e := Z.min (expo x) (expo y)).
  assert (0 < 2 ^ e) as P by (apply pow2_pos; lia).
  replace (2 ^ expo x) with (2 ^ (expo x - e) * 2 ^ e) by (rewrite <- Z.pow_add_r by lia; f_equal; lia).
  replace (2 ^ expo y) with (2 ^ (expo y - e) * 2 ^ e) by (rewrite <- Z.pow_add_r by lia; f_equal; lia).
  rewrite !Z.mul_assoc; destruct (mant x * 2 ^ (expo x - e) <=? mant y * 2 ^ (expo y - e)) eqn:C; b2p;
    symmetry; [ apply Z.leb_le | apply Z.leb_gt ]; nia.
Qed.


End BigFloat.
