(* ===== verification/Policy.v ===== *)
(** * Signing policies

    Models [services/policy/policy.go], [db.go] and [httperr.go]: policies and
    their rules, the tenant-scoped storage, the evaluation of a signing request
    against every policy of its key, and the handlers.

    A nil pointer in a JSON array (a rule or an approver that is [null]) is
    [None]; touching one panics.  The JSON codec of the [rules] column, the
    uuid cast and the order of rows with equal timestamps are parameters.  The
    theorems: what an allowed evaluation means, that a database failure never
    allows, how amounts are compared, and that storage keeps tenants apart. *)

From Stdlib Require Import ZArith Lia Ascii String Permutation.
From stdpp Require Import base list numbers strings gmap.
From S2P Require Import Prelude GoStrings GoText BigFloat.

Open Scope Z_scope.

Module Policy.

(** ** Data *)

Record RuleConfig := {
  MaxAmount : option string;
  WhitelistAddresses : list string;
  AllowedHours : list Z;
  MaxRequestsPerDay : Z;
  Blockchains : list string;
}.

Record PolicyRule := {
  RuleID : string;
  Type_ : string;
  RuleDescription : string;
  Enabled : bool;
  Config : RuleConfig;
}.

Record PolicyApprover := {
  ApproverID : string;
  Email : string;
  Role : string;
  IsApproved : bool;
  ApprovedAt : option Z;
}.

Record ApprovalConfig := {
  Required : Z;
  Approvers : list (option PolicyApprover);
  TimeoutMinutes : Z;
}.

Record RateLimitConfig := { MaxPerHour : Z; MaxPerDay : Z; MaxPerMonth : Z }.

(** [Rules] is [None] for a nil slice. *)
Record Policy := {
  PolicyID : string;
  KeyID : string;
  CustomerID : string;
  Name : string;
  Description : string;
  Status : string;
  Rules : option (list (option PolicyRule));
  Approvals : option ApprovalConfig;
  RateLimit : option RateLimitConfig;
  CreatedAt : Z;
  UpdatedAt : Z;
}.

Record CreatePolicyRequest := {
  reqKeyID : string;
  reqName : string;
  reqDescription : string;
  reqRules : option (list (option PolicyRule));
  reqApprovals : option ApprovalConfig;
  reqRateLimit : option RateLimitConfig;
}.

Record PolicyEvaluationRequest := {
  evalKeyID : string;
  DestinationAddress : string;
  Amount : string;
  Blockchain : string;
  Timestamp : option Z;
}.

Record PolicyEvaluationResult := {
  Allowed : bool;
  RequiresApproval : bool;
  ResultApproval : option ApprovalConfig;
  ViolatedRules : list string;
  Reason : string;
}.

Inductive PolErr : Type :=
| NotFound
| InvalidInput
| Internal.

(** ** Rules *)

(** [parseAmount]: the shape is pinned first, then the value read as a [big.Float]. *)
Definition parseAmount (raw : string) : option BigFloat.Float :=
  match BigFloat.scan_decimal raw with
  | None => None
  | Some (digits, frac) => Some (BigFloat.of_decimal digits frac)
  end.

Definition checkAmountLimit (cfg : RuleConfig) (eval : PolicyEvaluationRequest) : bool :=
  match MaxAmount cfg with
  | None => true
  | Some limit =>
      match parseAmount (Amount eval) with
      | None => false
      | Some amount =>
          match parseAmount limit with
          | None => false
          | Some max => BigFloat.leb amount max
          end
      end
  end.

Definition member (s : string) (l : list string) : bool := existsb (fun t => String.eqb t s) l.

Definition checkWhitelist (cfg : RuleConfig) (eval : PolicyEvaluationRequest) : bool :=
  match WhitelistAddresses cfg with
  | [] => true
  | l => member (DestinationAddress eval) l
  end.

(** [hour] is [time.Now().Hour()]. *)
Definition checkTimeWindow (hour : Z) (cfg : RuleConfig) : bool :=
  match AllowedHours cfg with
  | [] => true
  | l => existsb (fun h => h =? hour) l
  end.

Definition checkBlockchain (cfg : RuleConfig) (eval : PolicyEvaluationRequest) : bool :=
  match Blockchains cfg with
  | [] => true
  | l => member (Blockchain eval) l
  end.

Definition evaluateRule (hour : Z) (rule : PolicyRule) (eval : PolicyEvaluationRequest) : bool :=
  if String.eqb (Type_ rule) "amount_limit" then checkAmountLimit (Config rule) eval
  else if String.eqb (Type_ rule) "whitelist" then checkWhitelist (Config rule) eval
  else if String.eqb (Type_ rule) "time_based" then checkTimeWindow hour (Config rule)
  else if String.eqb (Type_ rule) "blockchain" then checkBlockchain (Config rule) eval
  else true.

(** ** Evaluation *)

(** The loop over a policy's rules.  [hours n] is the hour of the day while the
    [n]-th enabled rule of the evaluation is checked: the clock is read for each
    rule. *)
Fixpoint evaluateRules (hours : nat -> Z) (eval : PolicyEvaluationRequest) (rules : list (option PolicyRule))
    (n : nat) (r : PolicyEvaluationResult) : result PolErr (nat * PolicyEvaluationResult) :=
  match rules with
  | [] => Ok (n, r)
  | None :: _ => Panic
  | Some rule :: rules =>
      if negb (Enabled rule) then evaluateRules hours eval rules n r
      else if evaluateRule (hours n) rule eval then evaluateRules hours eval rules (S n) r
      else evaluateRules hours eval rules (S n)
             {| Allowed := false; RequiresApproval := RequiresApproval r; ResultApproval := ResultApproval r;
                ViolatedRules := ViolatedRules r ++ [ RuleDescription rule ]; Reason := Reason r |}
  end.

Definition checkApprovals (p : Policy) (r : PolicyEvaluationResult) : PolicyEvaluationResult :=
  match Approvals p with
  | Some a =>
      if 0 <? Required a
      then {| Allowed := Allowed r; RequiresApproval := true; ResultApproval := Some a;
              ViolatedRules := ViolatedRules r; Reason := Reason r |}
      else r
  | None => r
  end.

(** The loop over the policies. *)
Fixpoint evaluatePolicies (hours : nat -> Z) (eval : PolicyEvaluationRequest) (policies : list Policy)
    (n : nat) (r : PolicyEvaluationResult) : result PolErr PolicyEvaluationResult :=
  match policies with
  | [] => Ok r
  | p :: policies =>
      if negb (String.eqb (Status p) "active") then evaluatePolicies hours eval policies n r
      else
        let! nr := evaluateRules hours eval (default [] (Rules p)) n r in
        evaluatePolicies hours eval policies (fst nr) (checkApprovals p (snd nr))
  end.

(** [fmt.Sprintf("%v", []string)]: the items between brackets, separated by spaces. *)
Fixpoint join_spaces (l : list string) : string :=
  match l with
  | [] => EmptyString
  | [ s ] => s
  | s :: l => s +:+ " " +:+ join_spaces l
  end.

(** [EvaluatePolicy] after the listing. *)
Definition EvaluatePolicy (hours : nat -> Z) (listed : result PolErr (list Policy))
    (eval : PolicyEvaluationRequest) : result PolErr PolicyEvaluationResult :=
  let! policies := listed in
  match policies with
  | [] => Ok {| Allowed := true; RequiresApproval := false; ResultApproval := None; ViolatedRules := [];
                Reason := "" |}
  | _ =>
      let! r := evaluatePolicies hours eval policies 0
                  {| Allowed := true; RequiresApproval := false; ResultApproval := None; ViolatedRules := [];
                     Reason := "" |} in
      Ok (if Allowed r then r
          else {| Allowed := false; RequiresApproval := RequiresApproval r; ResultApproval := ResultApproval r;
                  ViolatedRules := ViolatedRules r;
                  Reason := "Signing blocked by policy rules: [" +:+ join_spaces (ViolatedRules r) +:+ "]" |})
  end.

(** ** Storage ([db.go]) *)

Record policyRules := {
  prRules : option (list (option PolicyRule));
  prApprovals : option ApprovalConfig;
  prRateLimit : option RateLimitConfig;
}.

(** A row of [policies]; [rules] is the JSONB column. *)
Record policyRow := {
  rowCustomer : string;
  rowKey : string;
  rowName : string;
  rowDescription : string;
  rowStatus : string;
  rowRules : string;
  rowCreated : Z;
  rowUpdated : Z;
}.

Record db := {
  up : bool;
  key_pairs : gmap string string;
  policies : gmap string policyRow;
}.

Definition with_policies (d : db) (p : gmap string policyRow) : db :=
  {| up := up d; key_pairs := key_pairs d; policies := p |}.

Section Storage.
(** the [::uuid] cast, the JSON codec of [policyRules], and Postgres's
    rounding of a timestamp *)
Variable uuid : string -> option string.
Variable marshal : policyRules -> option string.
Variable unmarshal : string -> option policyRules.
Variable pgtime : Z -> Z.
(** [ORDER BY created_at DESC] *)
Variable newest_first : list (string * policyRow) -> list (string * policyRow).

Definition resolveCustomerIDForKey (d : db) (keyID : string) : result PolErr string :=
  check! up d else Internal;
  match uuid keyID with
  | None => Err Internal
  | Some k => match key_pairs d !! k with Some c => Ok c | None => Err NotFound end
  end.

Definition resolveCustomerIDForPolicy (d : db) (policyID : string) : result PolErr string :=
  check! up d else Internal;
  match uuid policyID with
  | None => Err Internal
  | Some i => match policies d !! i with Some r => Ok (rowCustomer r) | None => Err NotFound end
  end.

(** What row-level security shows a tenant. *)
Definition visible (customer : string) (r : policyRow) : bool := String.eqb (rowCustomer r) customer.

Definition readRow (customer i : string) (r : policyRow) : result PolErr Policy :=
  match unmarshal (rowRules r) with
  | None => Err Internal
  | Some pr =>
      Ok {| PolicyID := i; KeyID := rowKey r; CustomerID := customer; Name := rowName r;
            Description := rowDescription r; Status := rowStatus r; Rules := prRules pr;
            Approvals := prApprovals pr; RateLimit := prRateLimit pr; CreatedAt := rowCreated r;
            UpdatedAt := rowUpdated r |}
  end.

Definition dbCreatePolicy (d : db) (p : Policy) : result PolErr (db * Policy) :=
  match marshal {| prRules := Rules p; prApprovals := Approvals p; prRateLimit := RateLimit p |} with
  | None => Err Internal
  | Some rules =>
      let! customer := resolveCustomerIDForKey d (KeyID p) in
      match uuid (PolicyID p), uuid (KeyID p) with
      | Some i, Some k =>
          match policies d !! i with
          | Some _ => Err Internal
          | None =>
              let row := {| rowCustomer := customer; rowKey := k; rowName := Name p;
                            rowDescription := Description p; rowStatus := Status p; rowRules := rules;
                            rowCreated := pgtime (CreatedAt p); rowUpdated := pgtime (UpdatedAt p) |} in
              Ok (with_policies d (<[ i := row ]> (policies d)),
                  {| PolicyID := PolicyID p; KeyID := KeyID p; CustomerID := customer; Name := Name p;
                     Description := Description p; Status := Status p; Rules := Rules p;
                     Approvals := Approvals p; RateLimit := RateLimit p; CreatedAt := CreatedAt p;
                     UpdatedAt := UpdatedAt p |})
          end
      | _, _ => Err Internal
      end
  end.

Definition dbGetPolicy (d : db) (policyID : string) : result PolErr Policy :=
  let! customer := resolveCustomerIDForPolicy d policyID in
  match uuid policyID with
  | None => Err Internal
  | Some i =>
      match policies d !! i with
      | Some r => if visible customer r then readRow customer i r else Err NotFound
      | None => Err NotFound
      end
  end.

Fixpoint readRows (customer : string) (rows : list (string * policyRow)) : result PolErr (list Policy) :=
  match rows with
  | [] => Ok []
  | (i, r) :: rows =>
      let! p := readRow customer i r in
      let! rest := readRows customer rows in
      Ok (p :: rest)
  end.

Definition rowsOf (d : db) (customer k : string) : list (string * policyRow) :=
  newest_first (filter (fun kv => rowKey kv.2 = k /\ rowCustomer kv.2 = customer) (map_to_list (policies d))).

Definition ListPoliciesByKey (d : db) (keyID : string) : result PolErr (list Policy) :=
  let! customer := resolveCustomerIDForKey d keyID in
  match uuid keyID with
  | None => Err Internal
  | Some k => readRows customer (rowsOf d customer k)
  end.

Definition dbUpdatePolicy (d : db) (p : Policy) : result PolErr db :=
  match marshal {| prRules := Rules p; prApprovals := Approvals p; prRateLimit := RateLimit p |} with
  | None => Err Internal
  | Some rules =>
      let! customer := resolveCustomerIDForPolicy d (PolicyID p) in
      match uuid (PolicyID p) with
      | None => Err Internal
      | Some i =>
          match policies d !! i with
          | None => Err Internal
          | Some r =>
              refuse! negb (visible customer r) with Internal;
              Ok (with_policies d (<[ i := {| rowCustomer := rowCustomer r; rowKey := rowKey r;
                    rowName := Name p; rowDescription := Description p; rowStatus := Status p;
                    rowRules := rules; rowCreated := rowCreated r; rowUpdated := pgtime (UpdatedAt p) |} ]>
                    (policies d)))
          end
      end
  end.

(** ** The service *)

(** [fresh] is [uuid.New()], [created] and [updated] the two clock readings. *)
Definition CreatePolicy (d : db) (fresh : string) (created updated : Z) (req : CreatePolicyRequest)
  : result PolErr (db * Policy) :=
  refuse! String.eqb (reqKeyID req) "" || String.eqb (reqName req) "" with Internal;
  dbCreatePolicy d
    {| PolicyID := fresh; KeyID := reqKeyID req; CustomerID := ""; Name := reqName req;
       Description := reqDescription req; Status := "active"; Rules := reqRules req;
       Approvals := reqApprovals req; RateLimit := reqRateLimit req; CreatedAt := created;
       UpdatedAt := updated |}.

Definition mergeUpdates (policy updates : Policy) (now : Z) : Policy :=
  {| PolicyID := PolicyID policy; KeyID := KeyID policy; CustomerID := CustomerID policy;
     Name := if String.eqb (Name updates) "" then Name policy else Name updates;
     Description := if String.eqb (Description updates) "" then Description policy else Description updates;
     Status := Status policy;
     Rules := match Rules updates with Some r => Some r | None => Rules policy end;
     Approvals := match Approvals updates with Some a => Some a | None => Approvals policy end;
     RateLimit := match RateLimit updates with Some l => Some l | None => RateLimit policy end;
     CreatedAt := CreatedAt policy; UpdatedAt := now |}.

Definition UpdatePolicy (d : db) (policyID : string) (updates : Policy) (now : Z)
  : result PolErr (db * Policy) :=
  let! policy := map_err (fun _ => Internal) (dbGetPolicy d policyID) in
  let policy := mergeUpdates policy updates now in
  let! d := dbUpdatePolicy d policy in
  Ok (d, policy).

(** The first approver with that id is marked; a nil before it panics. *)
Fixpoint markApproved (approverID : string) (now : Z) (l : list (option PolicyApprover))
  : result PolErr (list (option PolicyApprover)) :=
  match l with
  | [] => Ok []
  | None :: _ => Panic
  | Some a :: l =>
      if String.eqb (ApproverID a) approverID
      then Ok (Some {| ApproverID := ApproverID a; Email := Email a; Role := Role a; IsApproved := true;
                       ApprovedAt := Some now |} :: l)
      else let! l := markApproved approverID now l in Ok (Some a :: l)
  end.

Definition ApprovePolicy (d : db) (policyID approverID : string) (approved now : Z) : result PolErr db :=
  let! policy := map_err (fun _ => Internal) (dbGetPolicy d policyID) in
  match Approvals policy with
  | None => Err Internal
  | Some a =>
      let! l := markApproved approverID approved (Approvers a) in
      dbUpdatePolicy d
        {| PolicyID := PolicyID policy; KeyID := KeyID policy; CustomerID := CustomerID policy;
           Name := Name policy; Description := Description policy; Status := Status policy;
           Rules := Rules policy;
           Approvals := Some {| Required := Required a; Approvers := l; TimeoutMinutes := TimeoutMinutes a |};
           RateLimit := RateLimit policy; CreatedAt := CreatedAt policy; UpdatedAt := now |}
  end.
End Storage.

(** ** Handlers and their errors ([httperr.go]) *)

Definition is_hex (c : ascii) : bool := match hex_value c with Some _ => true | None => false end.

(** [n] hexadecimal digits, then the rest. *)
Fixpoint take_hex (n : nat) (s : string) : option string :=
  match n, s with
  | O, _ => Some s
  | S n, String c s => if is_hex c then take_hex n s else None
  | S _, EmptyString => None
  end.

Definition take_dash (s : string) : option string :=
  match s with String c s => if Ascii.eqb c "-" then Some s else None | EmptyString => None end.

(** Groups of hexadecimal digits of these lengths, separated by dashes. *)
Fixpoint hex_groups (lengths : list nat) (s : string) : bool :=
  match lengths with
  | [] => false
  | [ n ] => match take_hex n s with Some EmptyString => true | _ => false end
  | n :: lengths =>
      match take_hex n s with
      | Some s => match take_dash s with Some s => hex_groups lengths s | None => false end
      | None => false
      end
  end.

Definition uuidPattern (s : string) : bool := hex_groups [ 8; 4; 4; 4; 12 ]%nat s.

Definition requireUUID (value : string) : result PolErr unit :=
  refuse! String.eqb value "" with InvalidInput;
  refuse! negb (uuidPattern value) with InvalidInput;
  Ok tt.

(** [writeError]: the status an error is answered with. *)
Definition writeError (e : PolErr) : Z :=
  match e with InvalidInput => 400 | NotFound => 404 | Internal => 500 end.

(** A reply: a status, and a JSON body on success. *)
Definition Reply (A : Type) : Type := (Z * option A)%type.

Definition reply_or {A} (r : result PolErr A) : result PolErr (Reply A) :=
  match r with
  | Ok a => Ok (200, Some a)
  | Err e => Ok (writeError e, None)
  | Panic => Panic
  end.

(** [HandleEvaluatePolicy]; [body] is [None] when it does not decode. *)
Definition HandleEvaluatePolicy (list_by_key : string -> result PolErr (list Policy)) (hours : nat -> Z)
    (method : string) (body : option PolicyEvaluationRequest) : result PolErr (Reply PolicyEvaluationResult) :=
  if negb (String.eqb method "POST") then Ok (405, None)
  else
    match body with
    | None => Ok (400, None)
    | Some eval =>
        match requireUUID (evalKeyID eval) with
        | Ok _ => reply_or (EvaluatePolicy hours (list_by_key (evalKeyID eval)) eval)
        | Err e => Ok (writeError e, None)
        | Panic => Panic
        end
    end.

Definition HandleListPolicies (list_by_key : string -> result PolErr (list Policy)) (keyID : string)
  : result PolErr (Reply (list Policy)) :=
  match requireUUID keyID with
  | Ok _ => reply_or (list_by_key keyID)
  | Err e => Ok (writeError e, None)
  | Panic => Panic
  end.

Definition HandleGetPolicy (get : string -> result PolErr Policy) (policyID : string)
  : result PolErr (Reply Policy) :=
  if String.eqb policyID "" then Ok (400, None)
  else
    match get policyID with
    | Ok p => Ok (200, Some p)
    | Err _ => Ok (404, None)
    | Panic => Panic
    end.

Definition HandleCreatePolicy (create : CreatePolicyRequest -> result PolErr (db * Policy)) (d : db)
    (method : string) (body : option CreatePolicyRequest) : result PolErr (db * Reply Policy) :=
  if negb (String.eqb method "POST") then Ok (d, (405, None))
  else
    match body with
    | None => Ok (d, (400, None))
    | Some req =>
        match create req with
        | Ok (d', p) => Ok (d', (201, Some p))
        | Err _ => Ok (d, (500, None))
        | Panic => Panic
        end
    end.

(** A policy check that cannot run does not allow: a failure to list the
    policies, of whatever kind, is answered with an error status and never
    with a result. *)
Theorem evaluation_fails_closed list_by_key hours method body eval e :
  body = Some eval -> list_by_key (evalKeyID eval) = Err e ->
  exists code, HandleEvaluatePolicy list_by_key hours method body = Ok (code, None) /\ 400 <= code.
Proof.
  intros -> H; unfold HandleEvaluatePolicy; destruct (negb _); [ eexists; split; [ done | lia ] | ].
  unfold requireUUID; destruct (String.eqb _ _); [ eexists; split; [ done | cbn; lia ] | ].
  destruct (negb _); [ eexists; split; [ done | cbn; lia ] | ].
  rewrite H; cbn; eexists; split; [ done | ]; destruct e; cbn; lia.
Qed.

(** ** Amounts *)

Definition limit_rule (limit : string) : RuleConfig :=
  {| MaxAmount := Some limit; WhitelistAddresses := []; AllowedHours := []; MaxRequestsPerDay := 0;
     Blockchains := [] |}.

Lemma scan_decimal_nonneg s v f : BigFloat.scan_decimal s = Some (v, f) -> 0 <= v.
Proof.
  unfold BigFloat.scan_decimal; destruct (scan_digits 0 0 s) as [ [ w n ] rest ] eqn:E; intros H.
  pose proof (scan_digits_nonneg _ _ _ _ _ _ E ltac:(lia)).
  destruct n; [ done | ]; destruct rest as [ | c rest ]; [ congruence | ].
  destruct (Ascii.eqb c "."); [ | done ].
  destruct (scan_digits w 0 rest) as [ [ u m ] q ] eqn:E2; pose proof (scan_digits_nonneg _ _ _ _ _ _ E2 ltac:(lia)).
  destruct m; [ done | ]; destruct q; congruence.
Qed.

Lemma check_integers cfg eval limit a m :
  MaxAmount cfg = Some limit -> BigFloat.scan_decimal (Amount eval) = Some (a, 0) ->
  BigFloat.scan_decimal limit = Some (m, 0) ->
  checkAmountLimit cfg eval = (BigFloat.round64 a <=? BigFloat.round64 m).
Proof.
  intros Hl Ha Hm; unfold checkAmountLimit, parseAmount; rewrite Hl, Ha, Hm.
  apply BigFloat.leb_integers; eauto using scan_decimal_nonneg.
Qed.

(** The amount limit on whole amounts: below 2^64 it is the numeric
    limit; above, nothing within the limit is refused, and what passes exceeds
    it by less than one part in 2^62. *)
Theorem amount_limit_whole cfg eval limit a m :
  MaxAmount cfg = Some limit -> BigFloat.scan_decimal (Amount eval) = Some (a, 0) ->
  BigFloat.scan_decimal limit = Some (m, 0) ->
  (a < two64 -> m < two64 -> (checkAmountLimit cfg eval = true <-> a <= m)) /\
  (a <= m -> checkAmountLimit cfg eval = true) /\
  (checkAmountLimit cfg eval = true -> (two64 - 1) * a <= (two64 + 1) * m).
Proof.
  intros Hl Ha Hm; rewrite (check_integers _ _ _ _ _ Hl Ha Hm).
  apply scan_decimal_nonneg in Ha; apply scan_decimal_nonneg in Hm; rewrite !Z.leb_le; split_and!.
  - intros La Lm; rewrite !BigFloat.round64_small by lia; done.
  - intros L; apply BigFloat.round64_mono; lia.
  - intros L; pose proof (BigFloat.round64_error a Ha); pose proof (BigFloat.round64_error m Hm).
    unfold two64 in *; lia.
Qed.

(** Above 64 bits the limit is not exact: with a limit of 2^64 base
    units, 2^64 + 1 passes. *)
Theorem amount_limit_rounds :
  exists eval, Amount eval = "18446744073709551617"%string /\
    checkAmountLimit (limit_rule "18446744073709551616") eval = true /\
    BigFloat.scan_decimal (Amount eval) = Some (18446744073709551616 + 1, 0).
Proof.
  exists {| evalKeyID := ""; DestinationAddress := ""; Amount := "18446744073709551617"; Blockchain := "";
            Timestamp := None |}.
  vm_compute; auto.
Qed.


Lemma string_app_empty_r s : s +:+ EmptyString = s.
Proof. induction s as [ | c s IH ]; [ done | rewrite sapp_cons, IH; done ]. Qed.

Fixpoint all_digits (s : string) : bool :=
  match s with
  | EmptyString => true
  | String c s => match digit_value c with Some _ => all_digits s | None => false end
  end.

Definition starts_with_digit (s : string) : bool :=
  match s with String c _ => match digit_value c with Some _ => true | None => false end | EmptyString => false end.

Lemma scan_digits_split s : forall acc count,
  exists v ds rest, scan_digits acc count s = (v, (count + String.length ds)%nat, rest) /\
    s = ds +:+ rest /\ all_digits ds = true /\ starts_with_digit rest = false.
Proof.
  induction s as [ | c s IH ]; intros acc count; cbn [scan_digits].
  { exists acc, EmptyString, EmptyString; cbn; rewrite Nat.add_0_r; done. }
  destruct (digit_value c) as [ d | ] eqn:D.
  - destruct (IH (acc * 10 + d) (S count)) as (v & ds & rest & -> & -> & Hd & Hr).
    exists v, (String c ds), rest; rewrite sapp_cons; cbn; rewrite D; split_and!; auto; do 2 f_equal; lia.
  - exists acc, EmptyString, (String c s); cbn; rewrite D, Nat.add_0_r; done.
Qed.

Lemma scan_digits_app ds : forall acc count rest,
  all_digits ds = true -> starts_with_digit rest = false ->
  exists v, scan_digits acc count (ds +:+ rest) = (v, (count + String.length ds)%nat, rest).
Proof.
  induction ds as [ | c ds IH ]; intros acc count rest Hd Hr; cbn in Hd.
  - rewrite sapp_nil, Nat.add_0_r; destruct rest as [ | c rest ]; cbn in *; [ eauto | ].
    destruct (digit_value c); [ done | eauto ].
  - rewrite sapp_cons; cbn; destruct (digit_value c) as [ d | ]; [ | done ].
    destruct (IH (acc * 10 + d) (S count) rest Hd Hr) as [ v -> ]; exists v; do 2 f_equal; lia.
Qed.

(** An amount is read only if it is a plain decimal: digits, or digits,
    a point and digits.  Nothing signed, infinite, hexadecimal, in scientific
    notation or with separators ever reaches the comparison. *)
Theorem parse_amount_shape s :
  is_Some (parseAmount s) <->
  exists whole, all_digits whole = true /\ whole <> ""%string /\
    (s = whole \/ exists frac, all_digits frac = true /\ frac <> ""%string /\ s = whole +:+ "." +:+ frac).
Proof.
  unfold parseAmount, BigFloat.scan_decimal; split.
  - destruct (scan_digits_split s 0 0) as (v & ds & rest & -> & -> & Hd & Hr); cbn [Nat.add].
    destruct ds as [ | c ds ]; [ intros [? H]; done | ]; cbn [String.length].
    intros H; exists (String c ds); split; [ done | split; [ done | ] ].
    destruct rest as [ | c' rest ]; [ left; apply string_app_empty_r | right ].
    destruct (Ascii.eqb_spec c' "."); [ subst | destruct H; done ].
    destruct (scan_digits_split rest v 0) as (w & ds' & rest' & E & -> & Hd' & Hr'); rewrite E in H.
    destruct ds' as [ | c' ds' ]; [ destruct H; done | ]; cbn in H; destruct rest'; [ | destruct H; done ].
    exists (String c' ds'); rewrite (string_app_empty_r (String c' ds')); split_and!; done.
  - intros (whole & Hd & Hn & H); destruct whole as [ | c whole ]; [ done | ].
    destruct H as [ -> | (frac & Hf & Hfn & ->) ].
    + destruct (scan_digits_app (String c whole) 0 0 EmptyString Hd eq_refl) as [ v E ].
      rewrite string_app_empty_r in E; rewrite E; cbn; eauto.
    + destruct (scan_digits_app (String c whole) 0 0 ("." +:+ frac) Hd eq_refl) as [ v E ]; rewrite E.
      destruct frac as [ | c' frac ]; [ done | ].
      destruct (scan_digits_app (String c' frac) v 0 EmptyString Hf eq_refl) as [ w E' ].
      rewrite string_app_empty_r in E'; change ("." +:+ String c' frac) with (String "." (String c' frac)).
      cbn [Nat.add String.length]; rewrite Ascii.eqb_refl, E'; cbn; eauto.
Qed.


(** ** What an evaluation says *)

Definition active (p : Policy) : bool := String.eqb (Status p) "active".

(** A plain decimal, and a plain whole number with its value. *)
Definition plain_decimal (s : string) : Prop :=
  exists whole, all_digits whole = true /\ whole <> ""%string /\
    (s = whole \/ exists frac, all_digits frac = true /\ frac <> ""%string /\ s = whole +:+ "." +:+ frac).
Definition whole_number (s : string) (v : Z) : Prop := all_digits s = true /\ big_of_dec s = Some v.

(** What the verdict [b] on a rule means, whatever decides it: the hour is that
    at which the rule is checked.  An amount that is not a plain decimal is over
    every limit; whole amounts are compared as numbers, above 2^64 to one part
    in 2^62.  A rule of another type, a frequency rule for one, always passes. *)
Record judged (hour : Z) (eval : PolicyEvaluationRequest) (rule : PolicyRule) (b : bool) : Prop := {
  judged_whitelist : Type_ rule = "whitelist"%string ->
    (b = true <-> WhitelistAddresses (Config rule) = [] \/ DestinationAddress eval ∈ WhitelistAddresses (Config rule));
  judged_hours : Type_ rule = "time_based"%string ->
    (b = true <-> AllowedHours (Config rule) = [] \/ hour ∈ AllowedHours (Config rule));
  judged_chain : Type_ rule = "blockchain"%string ->
    (b = true <-> Blockchains (Config rule) = [] \/ Blockchain eval ∈ Blockchains (Config rule));
  judged_unlimited : Type_ rule = "amount_limit"%string -> MaxAmount (Config rule) = None -> b = true;
  judged_malformed limit : Type_ rule = "amount_limit"%string -> MaxAmount (Config rule) = Some limit ->
    b = true -> plain_decimal (Amount eval) /\ plain_decimal limit;
  judged_amount limit a m : Type_ rule = "amount_limit"%string -> MaxAmount (Config rule) = Some limit ->
    whole_number (Amount eval) a -> whole_number limit m ->
    (a < two64 -> m < two64 -> (b = true <-> a <= m)) /\ (a <= m -> b = true) /\
    (b = true -> (two64 - 1) * a <= (two64 + 1) * m);
  judged_other : Type_ rule ∉ [ "amount_limit"; "whitelist"; "time_based"; "blockchain" ]%string -> b = true;
}.

Lemma member_iff s l : member s l = true <-> s ∈ l.
Proof.
  unfold member; rewrite existsb_exists; setoid_rewrite String.eqb_eq; split.
  - intros (x & I & ->); apply list_elem_of_In, I.
  - intros I; exists s; split; [ apply list_elem_of_In, I | done ].
Qed.

Lemma whole_scanned s v : whole_number s v -> BigFloat.scan_decimal s = Some (v, 0).
Proof.
  intros [ D B ]; unfold BigFloat.scan_decimal; unfold big_of_dec, scan_int in B.
  destruct s as [ | c r ]; [ discriminate B | ].
  assert (Ascii.eqb c "-" = false /\ Ascii.eqb c "+" = false) as [ E1 E2 ].
  { cbn in D; destruct (digit_value c) eqn:V; [ | discriminate D ]; split; apply Ascii.eqb_neq; intros ->; discriminate V. }
  rewrite E1, E2 in B; destruct (scan_digits 0 0 (String c r)) as [ [ w k ] rest ]; destruct k; [ discriminate B | ].
  destruct rest; [ injection B as ->; done | discriminate B ].
Qed.

Lemma listed_or_any {A} (test : A -> bool) (l : list A) (P : Prop) :
  (existsb test l = true <-> P) -> (match l with [] => true | x :: r => existsb test (x :: r) end = true <-> l = [] \/ P).
Proof. intros E; destruct l; [ split; auto | rewrite E; split; [ auto | intros [ X | X ]; done ] ]. Qed.

(** The code's verdict is the one described. *)
Lemma evaluateRule_judged hour rule eval : judged hour eval rule (evaluateRule hour rule eval).
Proof.
  unfold evaluateRule; split.
  - intros ->; cbn; unfold checkWhitelist; apply (listed_or_any (fun t => String.eqb t _)), member_iff.
  - intros ->; cbn; unfold checkTimeWindow; apply (listed_or_any (fun h => h =? hour)); rewrite existsb_exists; setoid_rewrite Z.eqb_eq; split.
    + intros (x & I & ->); apply list_elem_of_In, I.
    + intros I; exists hour; split; [ apply list_elem_of_In, I | done ].
  - intros ->; cbn; unfold checkBlockchain; apply (listed_or_any (fun t => String.eqb t _)), member_iff.
  - intros -> M; cbn; unfold checkAmountLimit; rewrite M; done.
  - intros limit -> M; cbn; unfold checkAmountLimit; rewrite M.
    destruct (parseAmount (Amount eval)) eqn:P1; [ | done ]; destruct (parseAmount limit) eqn:P2; [ | done ]; intros _.
    split; apply parse_amount_shape; eauto.
  - intros limit a m -> M Wa Wm; cbn; apply whole_scanned in Wa; apply whole_scanned in Wm; eapply amount_limit_whole; eauto.
  - intros N; rewrite !(proj2 (String.eqb_neq _ _)) by (intros E; apply N; rewrite E, !elem_of_cons; auto); done.
Qed.

(** The enabled rules of the active policies, in order. *)
Definition enabledIn (rules : list (option PolicyRule)) : list PolicyRule :=
  omap (fun o => match o with Some r => if Enabled r then Some r else None | None => None end) rules.
Definition enabledRules (ps : list Policy) : list PolicyRule :=
  flat_map (fun p => if active p then enabledIn (default [] (Rules p)) else []) ps.

(** The descriptions of the rules that were judged broken. *)
Definition brokenBy (rules : list PolicyRule) (verdicts : list bool) : list string :=
  omap (fun (rb : PolicyRule * bool) => if rb.2 then None else Some (RuleDescription rb.1)) (zip rules verdicts).

#[local] Arguments brokenBy : simpl never.

(** The approval terms the active policies ask for, in the order listed. *)
Definition approvals_asked (ps : list Policy) : list ApprovalConfig :=
  omap (fun p => if active p
                 then match Approvals p with Some a => if 0 <? Required a then Some a else None | None => None end
                 else None) ps.

Fixpoint verdictsFrom (hours : nat -> Z) (eval : PolicyEvaluationRequest) (n : nat) (rules : list PolicyRule) : list bool :=
  match rules with
  | [] => []
  | r :: rules => evaluateRule (hours n) r eval :: verdictsFrom hours eval (S n) rules
  end.

Lemma verdicts_length hours eval n rules : length (verdictsFrom hours eval n rules) = length rules.
Proof. revert n; induction rules; intros n; cbn; auto. Qed.

Lemma verdicts_app hours eval n a b :
  verdictsFrom hours eval n (a ++ b) = verdictsFrom hours eval n a ++ verdictsFrom hours eval (n + length a) b.
Proof.
  revert n; induction a as [ | r a IH ]; intros n; cbn; [ rewrite Nat.add_0_r; done | ].
  rewrite IH; do 2 f_equal; f_equal; lia.
Qed.

Lemma verdicts_judged hours eval n rules k r b :
  rules !! k = Some r -> verdictsFrom hours eval n rules !! k = Some b -> judged (hours (n + k)%nat) eval r b.
Proof.
  revert n k; induction rules as [ | x rules IH ]; intros n [ | k ]; cbn; try done.
  - intros [= <-] [= <-]; rewrite Nat.add_0_r; apply evaluateRule_judged.
  - intros R B; rewrite <- Nat.add_succ_comm; eauto.
Qed.

Lemma broken_app a b va vb : length a = length va -> brokenBy (a ++ b) (va ++ vb) = brokenBy a va ++ brokenBy b vb.
Proof. intros L; unfold brokenBy; rewrite zip_with_app, omap_app by done; done. Qed.

Lemma evaluateRules_spec hours eval rules : forall n r n' r',
  evaluateRules hours eval rules n r = Ok (n', r') ->
  let vs := verdictsFrom hours eval n (enabledIn rules) in
  n' = (n + length (enabledIn rules))%nat /\
  ViolatedRules r' = ViolatedRules r ++ brokenBy (enabledIn rules) vs /\
  Allowed r' = (Allowed r && forallb id vs) /\
  RequiresApproval r' = RequiresApproval r /\ ResultApproval r' = ResultApproval r /\ Reason r' = Reason r.
Proof.
  induction rules as [ | [ rule | ] rules IH ]; intros n r n' r' H; cbn in H; [ | | done ].
  - injection H as <- <-; cbn; rewrite app_nil_r, andb_true_r, Nat.add_0_r; split_and!; done.
  - unfold enabledIn, brokenBy in *; cbn; destruct (Enabled rule); cbn in H |- *; [ | apply IH, H ].
    destruct (evaluateRule (hours n) rule eval); cbn; destruct (IH _ _ _ _ H) as (N & A & B & C & D & E); cbn in *;
      rewrite N, A, B, C, D, E, ?andb_false_r, <- ?app_assoc; split_and!; auto; lia.
Qed.

Lemma evaluatePolicies_spec hours eval ps : forall n r r',
  evaluatePolicies hours eval ps n r = Ok r' ->
  let vs := verdictsFrom hours eval n (enabledRules ps) in
  ViolatedRules r' = ViolatedRules r ++ brokenBy (enabledRules ps) vs /\
  Allowed r' = (Allowed r && forallb id vs) /\
  RequiresApproval r' = (RequiresApproval r || negb (bool_decide (approvals_asked ps = []))) /\
  ResultApproval r' = match last (approvals_asked ps) with Some a => Some a | None => ResultApproval r end /\
  Reason r' = Reason r.
Proof.
  induction ps as [ | p ps IH ]; intros n r r' H; cbn in H.
  { injection H as <-; cbn; unfold brokenBy; cbn; rewrite app_nil_r, andb_true_r, orb_false_r; auto. }
  unfold enabledRules, approvals_asked, active in *; cbn; destruct (String.eqb (Status p) "active"); cbn in H |- *;
    [ | apply IH, H ].
  destruct (evaluateRules hours eval (default [] (Rules p)) n r) as [ [ n1 r1 ] | | ] eqn:E; cbn in H; [ | done | done ].
  apply evaluateRules_spec in E as (N & A & B & C & D & F); apply IH in H as (A' & B' & C' & D' & F'); subst n1.
  rewrite verdicts_app, broken_app, forallb_app, A', B', C', D', F' by (rewrite verdicts_length; done); unfold checkApprovals.
  destruct (Approvals p) as [ a | ]; [ destruct (0 <? Required a) | ]; cbn;
    rewrite A, B, ?C, ?D, F, <- app_assoc, andb_assoc, ?orb_true_r; split_and!; auto.
  rewrite last_cons; destruct (last (omap _ ps)); done.
Qed.

Lemma evaluateRules_total hours eval rules n r :
  Forall is_Some rules -> exists n' r', evaluateRules hours eval rules n r = Ok (n', r').
Proof.
  intros H; revert n r; induction H as [ | o rules [ rule -> ] _ IH ]; intros n r; cbn; [ eauto | ].
  destruct (negb (Enabled rule)); [ auto | ]; destruct (evaluateRule (hours n) rule eval); auto.
Qed.

Lemma evaluatePolicies_total hours eval ps n r :
  Forall (fun p => active p = true -> Forall is_Some (default [] (Rules p))) ps ->
  exists r', evaluatePolicies hours eval ps n r = Ok r'.
Proof.
  intros H; revert n r; induction H as [ | p ps Hp _ IH ]; intros n r; cbn; [ eauto | ]; unfold active in Hp.
  destruct (String.eqb (Status p) "active"); cbn; [ | apply IH ].
  destruct (evaluateRules_total hours eval _ n r (Hp eq_refl)) as (n1 & r1 & ->); apply IH.
Qed.

Lemma all_hold vs rules : length vs = length rules -> (forallb id vs = true <-> brokenBy rules vs = []).
Proof.
  unfold brokenBy; revert rules; induction vs as [ | b vs IH ]; intros [ | r rules ] L; try discriminate L; [ done | ].
  cbn in L |- *; destruct b; cbn; [ apply IH; lia | split; done ].
Qed.

(** C19.  An evaluation over the listed policies says what they say.  Each enabled
    rule of an active policy gets a verdict, which means what [judged] spells
    out for its type; the violated rules are those judged broken, in order; the
    request is allowed when there is none; approval is asked when some active
    policy asks for it, on the terms of the last one listed (the oldest),
    whatever the others ask.  It always returns when no rule is null. *)
Theorem evaluation_spec hours eval ps :
  Forall (fun p => active p = true -> Forall is_Some (default [] (Rules p))) ps ->
  exists r verdicts, EvaluatePolicy hours (Ok ps) eval = Ok r /\
    length verdicts = length (enabledRules ps) /\
    (forall k rule b, enabledRules ps !! k = Some rule -> verdicts !! k = Some b -> judged (hours k) eval rule b) /\
    ViolatedRules r = brokenBy (enabledRules ps) verdicts /\
    (Allowed r = true <-> brokenBy (enabledRules ps) verdicts = []) /\
    (RequiresApproval r = true <-> approvals_asked ps <> []) /\
    ResultApproval r = last (approvals_asked ps).
Proof.
  intros H; destruct ps as [ | p ps ].
  { eexists _, []; split; [ done | ]; cbn; split_and!; done. }
  unfold EvaluatePolicy; cbn [result_bind]; set (vs := verdictsFrom hours eval 0 (enabledRules (p :: ps))).
  destruct (evaluatePolicies_total hours eval (p :: ps) 0 {| Allowed := true; RequiresApproval := false;
    ResultApproval := None; ViolatedRules := []; Reason := "" |} H) as [ r E ].
  rewrite E; cbn [result_bind]; eexists _, vs; split; [ done | ].
  apply evaluatePolicies_spec in E as (A & B & C & D & _); cbn [ViolatedRules Allowed RequiresApproval ResultApproval andb orb app] in A, B, C, D; fold vs in A, B.
  pose proof (all_hold vs (enabledRules (p :: ps)) (verdicts_length _ _ _ _)) as Hold.
  assert (RequiresApproval r = true <-> approvals_asked (p :: ps) <> []) as C'
    by (rewrite C, negb_true_iff, bool_decide_eq_false; done).
  assert (ResultApproval r = last (approvals_asked (p :: ps))) as D' by (rewrite D; destruct (last _); done).
  split; [ apply verdicts_length | ]; split; [ intros k rule b; apply (verdicts_judged hours eval 0) | ].
  rewrite <- Hold, B; destruct (forallb id vs); cbn [ViolatedRules Allowed RequiresApproval ResultApproval]; rewrite ?B; split_and!; done.
Qed.

(** ** Storage *)

Section StorageFacts.
Context (uuid : string -> option string) (marshal : policyRules -> option string)
  (unmarshal : string -> option policyRules) (pgtime : Z -> Z)
  (newest_first : list (string * policyRow) -> list (string * policyRow)).

Abbreviation create := (CreatePolicy uuid marshal pgtime).
Abbreviation update := (UpdatePolicy uuid marshal unmarshal pgtime).
Abbreviation approve := (ApprovePolicy uuid marshal unmarshal pgtime).
Abbreviation listed := (ListPoliciesByKey uuid unmarshal newest_first).

(** Every policy belongs to the customer its key belongs to. *)
Definition owned (d : db) : Prop :=
  forall i r, policies d !! i = Some r -> key_pairs d !! rowKey r = Some (rowCustomer r).

(** Rows only ever keep their owner and key. *)
Definition keeps_owners (d d' : db) : Prop :=
  key_pairs d' = key_pairs d /\ forall i r, policies d !! i = Some r ->
    exists r', policies d' !! i = Some r' /\ rowCustomer r' = rowCustomer r /\ rowKey r' = rowKey r.

Lemma dbCreate_ok d p d' q :
  dbCreatePolicy uuid marshal pgtime d p = Ok (d', q) ->
  exists i k customer rules, uuid (PolicyID p) = Some i /\ uuid (KeyID p) = Some k /\
    up d = true /\ key_pairs d !! k = Some customer /\ policies d !! i = None /\
    marshal {| prRules := Rules p; prApprovals := Approvals p; prRateLimit := RateLimit p |} = Some rules /\
    CustomerID q = customer /\ Rules q = Rules p /\ Approvals q = Approvals p /\ RateLimit q = RateLimit p /\
    Status q = Status p /\ Name q = Name p /\ PolicyID q = PolicyID p /\
    d' = with_policies d (<[ i := {| rowCustomer := customer; rowKey := k; rowName := Name p;
           rowDescription := Description p; rowStatus := Status p; rowRules := rules;
           rowCreated := pgtime (CreatedAt p); rowUpdated := pgtime (UpdatedAt p) |} ]> (policies d)).
Proof.
  unfold dbCreatePolicy, resolveCustomerIDForKey; intros H.
  destruct (marshal _) as [ rules | ]; [ | done ]; destruct (up d) eqn:U; cbn in H; [ | done ].
  destruct (uuid (KeyID p)) as [ k | ]; cbn in H; [ | done ].
  destruct (key_pairs d !! k) as [ c | ] eqn:Ek; cbn in H; [ | done ].
  destruct (uuid (PolicyID p)) as [ i | ]; [ | done ]; destruct (policies d !! i) eqn:Ei; [ done | ].
  injection H as <- <-; exists i, k, c, rules; split_and!; done.
Qed.

Lemma dbUpdate_ok d p d' :
  dbUpdatePolicy uuid marshal pgtime d p = Ok d' ->
  exists i r r', policies d !! i = Some r /\ rowCustomer r' = rowCustomer r /\ rowKey r' = rowKey r /\
    d' = with_policies d (<[ i := r' ]> (policies d)).
Proof.
  unfold dbUpdatePolicy; intros H; destruct (marshal _) as [ rules | ]; [ | done ].
  destruct (resolveCustomerIDForPolicy _ _ _) as [ c | | ]; cbn in H; [ | done | done ].
  destruct (uuid _) as [ i | ]; [ | done ]; destruct (policies d !! i) as [ r | ] eqn:Ei; [ | done ].
  destruct (negb _); [ done | ]; injection H as <-; exists i, r; eexists; split; [ done | ].
  split; [ | split; [ | reflexivity ] ]; done.
Qed.

Lemma insert_keeps_owners d i r r' :
  owned d -> policies d !! i = Some r -> rowCustomer r' = rowCustomer r -> rowKey r' = rowKey r ->
  owned (with_policies d (<[ i := r' ]> (policies d))) /\
  keeps_owners d (with_policies d (<[ i := r' ]> (policies d))).
Proof.
  intros Ho Hi Hc Hk; split.
  - intros j s Hs; cbn in *; apply lookup_insert_Some in Hs as [ [ <- <- ] | [ _ Hs ] ]; [ | eauto ].
    rewrite Hc, Hk; eauto.
  - split; [ done | ]; intros j s Hs; cbn; destruct (decide (i = j)) as [ <- | Hne ].
    + rewrite lookup_insert_eq; exists r'; split_and!; congruence.
    + rewrite lookup_insert_ne by done; eauto.
Qed.

(** The three writes. *)
Inductive policy_write (d d' : db) : Prop :=
| by_create fresh t u req p : create d fresh t u req = Ok (d', p) -> policy_write d d'
| by_update i updates now p : update d i updates now = Ok (d', p) -> policy_write d d'
| by_approve i approver t now : approve d i approver t now = Ok d' -> policy_write d d'.

Lemma write_keeps_owners d d' : owned d -> policy_write d d' -> owned d' /\ keeps_owners d d'.
Proof.
  intros Ho [ fresh t u req p H | i updates now p H | i approver t now H ].
  - unfold CreatePolicy in H; destruct (_ || _); [ done | ].
    apply dbCreate_ok in H as (i & k & c & rules & _ & _ & _ & Hk & Hn & _ & _ & _ & _ & _ & _ & _ & _ & ->).
    split; [ | split; [ done | ] ].
    + intros j s Hs; cbn in *; apply lookup_insert_Some in Hs as [ [ <- <- ] | [ _ Hs ] ]; eauto.
    + intros j s Hs; cbn; rewrite lookup_insert_ne by congruence; eauto.
  - unfold UpdatePolicy in H; destruct (map_err _ _) as [ q | | ]; cbn in H; [ | done | done ].
    destruct (dbUpdatePolicy _ _ _ _ _) as [ d1 | | ] eqn:E; cbn in H; [ | done | done ]; injection H as <- <-.
    apply dbUpdate_ok in E as (j & r & r' & A & B & C & ->); eapply insert_keeps_owners; eauto.
  - unfold ApprovePolicy in H; destruct (map_err _ _) as [ q | | ]; cbn in H; [ | done | done ].
    destruct (Approvals q); [ | done ]; destruct (markApproved _ _ _) as [ l | | ]; cbn in H; [ | done | done ].
    apply dbUpdate_ok in H as (j & r & r' & A & B & C & ->); eapply insert_keeps_owners; eauto.
Qed.

Lemma readRows_ok customer rows ps :
  readRows unmarshal customer rows = Ok ps ->
  Forall2 (fun kv p => PolicyID p = kv.1 /\ KeyID p = rowKey kv.2 /\ CustomerID p = customer /\
    Status p = rowStatus kv.2 /\ Name p = rowName kv.2 /\
    unmarshal (rowRules kv.2) = Some {| prRules := Rules p; prApprovals := Approvals p; prRateLimit := RateLimit p |})
    rows ps.
Proof.
  revert ps; induction rows as [ | [ i r ] rows IH ]; intros ps H; cbn in H; [ simplify_eq; constructor | ].
  unfold readRow in H; destruct (unmarshal (rowRules r)) as [ pr | ] eqn:U; cbn in H; [ | done ].
  destruct (readRows _ _ _) as [ rest | | ]; cbn in H; [ | done | done ]; injection H as <-.
  constructor; [ | auto ]; cbn; split_and!; auto; destruct pr; done.
Qed.

Lemma listed_ok d keyID ps :
  listed d keyID = Ok ps ->
  exists k customer, uuid keyID = Some k /\ key_pairs d !! k = Some customer /\
    readRows unmarshal customer (rowsOf newest_first d customer k) = Ok ps.
Proof.
  unfold ListPoliciesByKey, resolveCustomerIDForKey; intros H.
  destruct (up d); cbn in H; [ | done ]; destruct (uuid keyID) as [ k | ]; cbn in H; [ | done ].
  destruct (key_pairs d !! k) as [ c | ] eqn:E; cbn in H; [ eauto | done ].
Qed.

(** The listing is some order of the rows it is given. *)
Definition some_order : Prop := forall l, Permutation (newest_first l) l.

(** Tenants stay apart: no write moves a policy to another customer or
    key, a new policy belongs to the owner of its key, and a listing shows
    only policies of that key, under that key's owner. *)
Theorem policies_stay_with_their_owner d d' keyID ps :
  some_order -> owned d -> policy_write d d' -> listed d' keyID = Ok ps ->
  owned d' /\ keeps_owners d d' /\
  Forall (fun p => uuid keyID = Some (KeyID p) /\ key_pairs d !! KeyID p = Some (CustomerID p)) ps.
Proof.
  intros Hp Ho Hw Hl; destruct (write_keeps_owners d d' Ho Hw) as [ Ho' [ Hk Hr ] ].
  split_and!; [ done | split; done | ]; apply listed_ok in Hl as (k & c & Hu & Hc & Hl).
  apply readRows_ok in Hl; rewrite Hk in Hc.
  assert (Forall (fun kv : string * policyRow => rowKey kv.2 = k) (rowsOf newest_first d' c k)) as F.
  { unfold some_order in Hp; unfold rowsOf; rewrite Hp; apply Forall_forall; intros kv H; apply list_elem_of_filter in H; tauto. }
  clear -Hl F Hu Hc; induction Hl as [ | kv p rows ps (A & B & C & _) _ IH ]; constructor.
  - inversion F; subst; rewrite B; done.
  - apply IH; inversion F; done.
Qed.

(** What was created is what is enforced: after [CreatePolicy] the
    listing of its key contains the policy, active, with the rules, approval
    terms and limits of the request (given that the JSON codec reads back
    what it wrote). *)
Theorem created_policy_is_listed d d' fresh t u req p ps :
  some_order -> (forall x s, marshal x = Some s -> unmarshal s = Some x) ->
  create d fresh t u req = Ok (d', p) -> listed d' (reqKeyID req) = Ok ps ->
  exists q, q ∈ ps /\ uuid fresh = Some (PolicyID q) /\ Status q = "active"%string /\
    Rules q = reqRules req /\ Approvals q = reqApprovals req /\ RateLimit q = reqRateLimit req /\
    CustomerID q = CustomerID p.
Proof.
  intros Hp Hj H Hl; unfold CreatePolicy in H; destruct (_ || _); [ done | ].
  apply dbCreate_ok in H as (i & k & c & rules & Hi & Hk & _ & Hc & Hn & Hm & Ec & _ & _ & _ & _ & _ & _ & ->).
  cbn in Hi, Hk, Hm; apply listed_ok in Hl as (k' & c' & Hk' & Hc' & Hl); cbn in Hc'.
  rewrite Hk in Hk'; injection Hk' as <-; rewrite Hc in Hc'; injection Hc' as <-.
  apply readRows_ok in Hl; set (row := {| rowCustomer := c |}) in *.
  assert ((i, row) ∈ rowsOf newest_first (with_policies d (<[ i := row ]> (policies d))) c k) as In.
  { unfold some_order in Hp; unfold rowsOf; rewrite Hp; apply list_elem_of_filter; split; [ done | ].
    apply elem_of_map_to_list; cbn; apply lookup_insert_eq. }
  apply list_elem_of_lookup in In as [ n In ].
  destruct (Forall2_lookup_l _ _ _ _ _ Hl In) as (q & Hq & A & _ & B & C & _ & D); cbn in A, B, C, D.
  exists q; rewrite (Hj _ _ Hm) in D; injection D as D1 D2 D3; split_and!; try congruence.
  eapply list_elem_of_lookup_2; eauto.
Qed.
End StorageFacts.

(** ** A concrete key with two policies *)

Definition sampleRule (limit : string) : PolicyRule :=
  {| RuleID := "r"; Type_ := "amount_limit"; RuleDescription := "limit " +:+ limit; Enabled := true;
     Config := limit_rule limit |}.

Definition samplePolicy (required : Z) : Policy :=
  {| PolicyID := "p"; KeyID := "k"; CustomerID := "acme"; Name := "n"; Description := ""; Status := "active";
     Rules := Some [ Some (sampleRule "500") ];
     Approvals := Some {| Required := required; Approvers := []; TimeoutMinutes := 60 |}; RateLimit := None;
     CreatedAt := 0; UpdatedAt := 0 |}.

Definition sampleEval (amount : string) : PolicyEvaluationRequest :=
  {| evalKeyID := "k"; DestinationAddress := ""; Amount := amount; Blockchain := ""; Timestamp := None |}.

(** The stricter policy is listed first; the result carries the laxer terms. *)
Lemma evaluation_spec_witness :
  exists r, EvaluatePolicy (fun _ => 12) (Ok [ samplePolicy 3; samplePolicy 1 ]) (sampleEval "1000") = Ok r /\
    ViolatedRules r = [ "limit 500"; "limit 500" ]%string /\ ~ Allowed r = true /\
    option_map Required (ResultApproval r) = Some 1.
Proof.
  destruct (evaluation_spec (fun _ => 12) (sampleEval "1000") [ samplePolicy 3; samplePolicy 1 ])
    as (r & vs & E & L & J & A & B & _ & D); [ repeat constructor; eauto | ].
  assert (forall k b, vs !! k = Some b -> (k < 2)%nat -> b = false) as V.
  { intros k b V K; destruct b; [ exfalso | done ]; destruct (J k (sampleRule "500") true) as [ _ _ _ _ _ X _ ]; [ destruct k as [ | [ | ] ]; [ reflexivity .. | lia ] | exact V | ].
    destruct (X "500"%string 1000 500 eq_refl eq_refl ltac:(split; reflexivity) ltac:(split; reflexivity)) as (Y & _ & _).
    unfold two64 in Y; destruct (proj1 (Y ltac:(lia) ltac:(lia)) eq_refl); reflexivity. }
  destruct vs as [ | b0 [ | b1 [ | ] ] ]; try discriminate L.
  rewrite (V 0%nat b0 eq_refl ltac:(lia)), (V 1%nat b1 eq_refl ltac:(lia)) in A, B.
  exists r; split; [ exact E | split; [ rewrite A; vm_compute; reflexivity | split ] ].
  - rewrite B; vm_compute; discriminate.
  - rewrite D; reflexivity.
Defined.

Lemma evaluation_fails_closed_witness :
  exists code, HandleEvaluatePolicy (fun _ => Err Internal) (fun _ => 12) "POST" (Some (sampleEval "1")) = Ok (code, None)
    /\ 400 <= code.
Proof. apply (evaluation_fails_closed (fun _ => Err Internal) (fun _ => 12) "POST" _ (sampleEval "1") Internal); reflexivity. Defined.

(** "1000" is over a limit of "500", although it sorts before it. *)
Lemma amount_limit_whole_witness : ~ checkAmountLimit (limit_rule "500") (sampleEval "1000") = true.
Proof.
  intros H; apply (amount_limit_whole (limit_rule "500") (sampleEval "1000") "500" 1000 500) in H;
    [ unfold two64 in H; lia | reflexivity .. ].
Defined.

Definition sampleDb : db := {| up := true; key_pairs := {[ "k" := "acme" ]}%string; policies := ∅ |}.
Definition sampleCreate : CreatePolicyRequest :=
  {| reqKeyID := "k"; reqName := "n"; reqDescription := ""; reqRules := None; reqApprovals := None;
     reqRateLimit := None |}.
Definition sampleMarshal (x : policyRules) : option string :=
  match prRules x, prApprovals x, prRateLimit x with None, None, None => Some "{}"%string | _, _, _ => None end.
Definition sampleUnmarshal (_ : string) : option policyRules :=
  Some {| prRules := None; prApprovals := None; prRateLimit := None |}.

Lemma policies_stay_with_their_owner_witness :
  exists d' p ps, CreatePolicy Some sampleMarshal id sampleDb "p1" 1 2 sampleCreate = Ok (d', p) /\
    ListPoliciesByKey Some sampleUnmarshal id d' "k" = Ok ps /\ owned d'.
Proof.
  destruct (CreatePolicy Some sampleMarshal id sampleDb "p1" 1 2 sampleCreate) as [ [ d' p ] | | ] eqn:E;
    [ | vm_compute in E; discriminate E .. ].
  destruct (ListPoliciesByKey Some sampleUnmarshal id d' "k") as [ ps | | ] eqn:L;
    [ | vm_compute in E; injection E as <- <-; vm_compute in L; discriminate L .. ].
  exists d', p, ps; split; [ reflexivity | split; [ exact L | ] ].
  apply (policies_stay_with_their_owner Some sampleMarshal sampleUnmarshal id id sampleDb d' "k" ps).
  - intros l; reflexivity.
  - intros i r H; vm_compute in H; discriminate H.
  - eapply by_create; exact E.
  - exact L.
Defined.

Lemma created_policy_is_listed_witness :
  exists d' p ps q, CreatePolicy Some sampleMarshal id sampleDb "p1" 1 2 sampleCreate = Ok (d', p) /\
    ListPoliciesByKey Some sampleUnmarshal id d' "k" = Ok ps /\ q ∈ ps /\ Status q = "active"%string.
Proof.
  destruct (CreatePolicy Some sampleMarshal id sampleDb "p1" 1 2 sampleCreate) as [ [ d' p ] | | ] eqn:E;
    [ | vm_compute in E; discriminate E .. ].
  destruct (ListPoliciesByKey Some sampleUnmarshal id d' "k") as [ ps | | ] eqn:L;
    [ | vm_compute in E; injection E as <- <-; vm_compute in L; discriminate L .. ].
  destruct (created_policy_is_listed Some sampleMarshal sampleUnmarshal id id sampleDb d' "p1" 1 2 sampleCreate p ps)
    as (q & A & _ & B & _).
  - intros l; reflexivity.
  - intros [ [ | ] [ | ] [ | ] ] s H; cbn in H; try discriminate H; reflexivity.
  - exact E.
  - exact L.
  - exists d', p, ps, q; auto.
Defined.


End Policy.
