(* ===== verification/KeyLifecycle.v ===== *)
(** * Key lifecycle: ceremonies, provisioning and rotation

    Models [services/temporal-worker/workflows/ceremony_types.go],
    [rotation_types.go], [dkg_ceremony.go] and [provision_key.go], and the
    activities of [services/temporal-worker/activities/key_rotation.go].

    Workflows are runs over a history (see [Workflow]); the tables the
    activities write, Vault and the HTTP exchange with the parties are
    explicit.  The theorems: no key is activated without a completed ceremony,
    with that ceremony's address and public key; the old key is retired only
    after the new one is active and its shares only after the retention window;
    and retiring shares accounts for every party. *)

From Stdlib Require Import ZArith Lia Ascii String.
From stdpp Require Import base list numbers strings gmap.
From S2P Require Import Prelude GoStrings Workflow Authorization.
Import Workflow.

Open Scope Z_scope.

Module KeyLifecycle.

Open Scope run_scope.

(** ** Data *)

Record DKGCeremonyRequest := {
  dkgCustomerID : string;
  dkgCeremonyID : string;
  dkgChainID : string;
  dkgN : Z;
  dkgK : Z;
  dkgPartyIDs : list Z;
  dkgPartyEndpoints : list string;
}.

Record DKGCeremonyResult := {
  CeremonyID : string;
  CeremonyStatus : string;
  ThresholdAddress : string;
  ThresholdPubKey : string;
  CeremonyError : string;
}.

Record ThresholdSigningRequest := {
  signCeremonyID : string;
  signMessage : string;
  signPartyIDs : list Z;
  signPartyEndpoints : list string;
  signChainID : string;
}.

Record ThresholdSigningResult := {
  Signature : string;
  SigningSignedTx : string;
  SigningStatus : string;
  SigningError : string;
}.

Record KeyRotationRequest := {
  NewCeremony : DKGCeremonyRequest;
  OldKeyID : string;
  NewKeyID : string;
  OldCeremonyID : string;
  OldPartyIDs : list Z;
  OldPartyEndpoints : list string;
  ShareRetention : Z;
}.

(** [None]: the zero value of the ceremony result. *)
Record KeyRotationResult := {
  RotatedCeremony : option DKGCeremonyResult;
  OldSharesDeactivated : bool;
  RotationStatus : string;
  RotationError : string;
}.

Record ActivateKeyPairRequest := { actKeyID : string; actAddress : string; actPublicKey : string }.
Record SetKeyPairStatusRequest := { setKeyID : string; setStatus : string }.
Record SetCeremonyStatusRequest := { cerID : string; cerStatus : string; cerErrorMessage : string }.

Record DeactivateSharesRequest := {
  deCeremonyID : string;
  dePartyIDs : list Z;
  dePartyEndpoints : list string;
}.

(** Of an error of the list its party is kept, not its text. *)
Record DeactivateSharesResult := { DeactivatedCount : Z; Errors : list Z }.

Record ProvisionKeyRequest := { Ceremony : DKGCeremonyRequest; KeyID : string }.

Record ProvisionKeyResult := {
  ProvisionedCeremony : option DKGCeremonyResult;
  ProvisionStatus : string;
  ProvisionError : string;
}.

(** ** Workflows *)

Inductive Command : Type :=
| DoRealDKG (req : DKGCeremonyRequest)
| DoRealSigning (req : ThresholdSigningRequest)
| DoActivate (req : ActivateKeyPairRequest)
| DoSetKeyStatus (req : SetKeyPairStatusRequest)
| DoSetCeremony (req : SetCeremonyStatusRequest)
| DoSleep (duration : Z)
| DoDeactivate (req : DeactivateSharesRequest).

Abbreviation Run := (Workflow.Run Command).

Record History := {
  realDKG : DKGCeremonyRequest -> answer DKGCeremonyResult;
  realSigning : ThresholdSigningRequest -> answer ThresholdSigningResult;
  activateKeyPair : ActivateKeyPairRequest -> answer unit;
  setKeyPairStatus : SetKeyPairStatusRequest -> answer unit;
  setCeremonyStatus : SetCeremonyStatusRequest -> answer unit;
  deactivateShares : DeactivateSharesRequest -> answer DeactivateSharesResult;
  (** a child workflow that failed for a reason of its own; a cancelled sleep *)
  childError : option string;
  sleepError : option string;
}.

Definition DKGCeremonyWorkflow (h : History) (req : DKGCeremonyRequest) : Run DKGCeremonyResult :=
  r <- exec (DoRealDKG req) (realDKG h req);
  match r with
  | inl e => ret {| CeremonyID := dkgCeremonyID req; CeremonyStatus := "failed"; ThresholdAddress := "";
                    ThresholdPubKey := ""; CeremonyError := e |}
  | inr result => ret result
  end.

Definition ThresholdSigningWorkflow (h : History) (req : ThresholdSigningRequest) : Run ThresholdSigningResult :=
  r <- exec (DoRealSigning req) (realSigning h req);
  match r with
  | inl e => ret {| Signature := ""; SigningSignedTx := ""; SigningStatus := "failed"; SigningError := e |}
  | inr result => ret result
  end.

(** [ExecuteChildWorkflow(DKGCeremonyWorkflow, req).Get] *)
Definition childDKG (h : History) (req : DKGCeremonyRequest) : Run (answer DKGCeremonyResult) :=
  r <- DKGCeremonyWorkflow h req;
  ret (match childError h with Some e => inl e | None => inr r end).

Definition hour : Z := 3600000000000.

Definition rotationFailed (c : option DKGCeremonyResult) (e : string) : KeyRotationResult :=
  {| RotatedCeremony := c; OldSharesDeactivated := false; RotationStatus := "failed"; RotationError := e |}.

(** An activity that is run only under a condition. *)
Definition exec_if (b : bool) (c : Command) (r : answer unit) : Run (answer unit) :=
  if b then exec c r else ret (inr tt).

(** Step 3 of the rotation: whether shares were deactivated, or why it failed. *)
Definition retireStep (h : History) (req : KeyRotationRequest) : Run (answer bool) :=
  if negb (String.eqb (OldCeremonyID req) "") && (0 <? len (OldPartyIDs req)) then
    let retention := if ShareRetention req <=? 0 then 720 * hour else ShareRetention req in
    _t <- issue (DoSleep retention);
    match sleepError h with
    | Some e => ret (inl ("retention sleep interrupted: " +:+ e))
    | None =>
        let d := {| deCeremonyID := OldCeremonyID req; dePartyIDs := OldPartyIDs req;
                    dePartyEndpoints := OldPartyEndpoints req |} in
        r <- exec (DoDeactivate d) (deactivateShares h d);
        ret (match r with
             | inl e => inl ("deactivate old shares: " +:+ e)
             | inr x => inr (0 <? DeactivatedCount x)
             end)
    end
  else ret (inr false).

Definition KeyRotationWorkflow (h : History) (req : KeyRotationRequest) : Run KeyRotationResult :=
  child <- childDKG h (NewCeremony req);
  match child with
  | inl e => ret (rotationFailed None e)
  | inr c =>
      if negb (String.eqb (CeremonyStatus c) "completed") then ret (rotationFailed (Some c) (CeremonyError c))
      else
        let a := {| actKeyID := NewKeyID req; actAddress := ThresholdAddress c; actPublicKey := ThresholdPubKey c |} in
        activated <- exec_if (negb (String.eqb (NewKeyID req) "")) (DoActivate a) (activateKeyPair h a);
        match activated with
        | inl e => ret (rotationFailed (Some c) ("activate new key: " +:+ e))
        | inr _ =>
            let s := {| setKeyID := OldKeyID req; setStatus := "inactive" |} in
            retired <- exec_if (negb (String.eqb (OldKeyID req) "")) (DoSetKeyStatus s) (setKeyPairStatus h s);
            match retired with
            | inl e => ret (rotationFailed (Some c) ("deactivate old key: " +:+ e))
            | inr _ =>
                shares <- retireStep h req;
                match shares with
                | inl e => ret (rotationFailed (Some c) e)
                | inr deactivated =>
                    ret {| RotatedCeremony := Some c; OldSharesDeactivated := deactivated;
                           RotationStatus := "completed"; RotationError := "" |}
                end
            end
        end
  end.

(** [SetCeremonyStatus] whose failure is logged and ignored. *)
Definition trackCeremony (h : History) (ceremonyID status errMsg : string) : Run unit :=
  let r := {| cerID := ceremonyID; cerStatus := status; cerErrorMessage := errMsg |} in
  if String.eqb ceremonyID "" then ret tt
  else _x <- exec (DoSetCeremony r) (setCeremonyStatus h r); ret tt.

Definition markCeremonyFailed (h : History) (ceremonyID errMsg : string) : Run unit :=
  trackCeremony h ceremonyID "failed" errMsg.

Definition provisionFailed (c : option DKGCeremonyResult) (e : string) : ProvisionKeyResult :=
  {| ProvisionedCeremony := c; ProvisionStatus := "failed"; ProvisionError := e |}.

Definition ProvisionKeyWorkflow (h : History) (req : ProvisionKeyRequest) : Run ProvisionKeyResult :=
  let id := dkgCeremonyID (Ceremony req) in
  _a <- trackCeremony h id "in_progress" "";
  child <- childDKG h (Ceremony req);
  match child with
  | inl e => _b <- markCeremonyFailed h id e; ret (provisionFailed None e)
  | inr c =>
      if negb (String.eqb (CeremonyStatus c) "completed") then
        _b <- markCeremonyFailed h id (CeremonyError c);
        ret (provisionFailed (Some c) (CeremonyError c))
      else
        let a := {| actKeyID := KeyID req; actAddress := ThresholdAddress c; actPublicKey := ThresholdPubKey c |} in
        activated <- exec_if (negb (String.eqb (KeyID req) "")) (DoActivate a) (activateKeyPair h a);
        match activated with
        | inl e => _b <- markCeremonyFailed h id e; ret (provisionFailed (Some c) e)
        | inr _ =>
            _c <- trackCeremony h id "completed" "";
            ret {| ProvisionedCeremony := Some c; ProvisionStatus := "completed"; ProvisionError := "" |}
        end
  end.

(** ** Activities ([key_rotation.go]) *)

Record keyRow := { keyStatus : string; keyAddress : string; keyPublic : string; keyUpdated : Z }.
Record ceremonyRow := {
  cerRowStatus : string;
  cerRowError : option string;
  cerCompletedAt : option Z;
  cerUpdatedAt : Z;
}.
Record db := { key_pairs : gmap string keyRow; dkg_ceremonies : gmap string ceremonyRow }.

Inductive KeyErr : Type :=
| NoDatabase
| UpdateFailed
| RowNotFound
| EndpointsMismatch
| VaultClient
| AuthFailed (e : Authorization.AuthErr)
| MarshalBody.

(** The CHECK constraints on the two status columns. *)
Definition keyStatuses : list string := [ "pending_dkg"; "active"; "inactive"; "compromised"; "failed" ]%string.
Definition ceremonyStatuses : list string := [ "initiated"; "in_progress"; "completed"; "failed" ]%string.

Section Activities.
Variable uuid : string -> option string.

(** [UPDATE key_pairs ... WHERE key_id = $1], with the [RowsAffected] check. *)
Definition updateKey (d : option db) (keyID : string) (f : keyRow -> keyRow) : result KeyErr db :=
  match d with
  | None => Err NoDatabase
  | Some d =>
      match uuid keyID with
      | None => Err UpdateFailed
      | Some k =>
          match key_pairs d !! k with
          | None => Err RowNotFound
          | Some r =>
              refuse! negb (bool_decide (keyStatus (f r) ∈ keyStatuses)) with UpdateFailed;
              Ok {| key_pairs := <[ k := f r ]> (key_pairs d); dkg_ceremonies := dkg_ceremonies d |}
          end
      end
  end.

Definition ActivateKeyPair (d : option db) (now : Z) (req : ActivateKeyPairRequest) : result KeyErr db :=
  updateKey d (actKeyID req) (fun _ =>
    {| keyStatus := "active"; keyAddress := actAddress req; keyPublic := actPublicKey req; keyUpdated := now |}).

Definition SetKeyPairStatus (d : option db) (now : Z) (req : SetKeyPairStatusRequest) : result KeyErr db :=
  updateKey d (setKeyID req) (fun r =>
    {| keyStatus := setStatus req; keyAddress := keyAddress r; keyPublic := keyPublic r; keyUpdated := now |}).

Definition SetCeremonyStatus (d : option db) (now : Z) (req : SetCeremonyStatusRequest) : result KeyErr db :=
  match d with
  | None => Err NoDatabase
  | Some d =>
      let errMsg := if String.eqb (cerErrorMessage req) "" then None else Some (cerErrorMessage req) in
      let terminal := String.eqb (cerStatus req) "completed" || String.eqb (cerStatus req) "failed" in
      match uuid (cerID req) with
      | None => Err UpdateFailed
      | Some k =>
          match dkg_ceremonies d !! k with
          | None => Err RowNotFound
          | Some r =>
              refuse! negb (bool_decide (cerStatus req ∈ ceremonyStatuses)) with UpdateFailed;
              Ok {| key_pairs := key_pairs d;
                    dkg_ceremonies := <[ k := {| cerRowStatus := cerStatus req; cerRowError := errMsg;
                      cerCompletedAt := if terminal then Some now else cerCompletedAt r;
                      cerUpdatedAt := now |} ]> (dkg_ceremonies d) |}
          end
      end
  end.

(** Counting the parties one by one. *)
Fixpoint countParties (ok : Z -> bool) (parties : list Z) (r : DeactivateSharesResult) : DeactivateSharesResult :=
  match parties with
  | [] => r
  | p :: parties =>
      countParties ok parties
        (if ok p then {| DeactivatedCount := DeactivatedCount r + 1; Errors := Errors r |}
         else {| DeactivatedCount := DeactivatedCount r; Errors := Errors r ++ [ p ] |})
  end.

(** [strings.TrimRight(s, "/")] *)
Definition trim_slashes (s : string) : string :=
  of_bytes (rev ((fix strip (l : bytes) := match l with
                  | c :: l' => if c =? 47 then strip l' else l
                  | [] => []
                  end) (rev (to_bytes s)))).

(** [retireThroughParties]: [authorize] is the worker's
    [ceremonyAuthorizer.authorize], [post url body] whether the party
    answered 200. *)
Record retireBody := { rbCeremonyID : string; rbAuthorization : string; rbSignature : string }.

Fixpoint retireLoop (post : string -> retireBody -> bool) (body : retireBody)
    (parties : list (Z * string)) (r : DeactivateSharesResult) : DeactivateSharesResult :=
  match parties with
  | [] => r
  | (p, endpoint) :: parties =>
      retireLoop post body parties
        (if post (trim_slashes endpoint +:+ "/tss/shares/retire") body
         then {| DeactivatedCount := DeactivatedCount r + 1; Errors := Errors r |}
         else {| DeactivatedCount := DeactivatedCount r; Errors := Errors r ++ [ p ] |})
  end.

Definition retireThroughParties (authorize : string -> string -> string -> result Authorization.AuthErr (string * string))
    (post : string -> retireBody -> bool) (req : DeactivateSharesRequest) : result KeyErr DeactivateSharesResult :=
  refuse! negb (len (dePartyEndpoints req) =? len (dePartyIDs req)) with EndpointsMismatch;
  let! auth := map_err AuthFailed (authorize "retire" (deCeremonyID req) "")%string in
  let body := {| rbCeremonyID := deCeremonyID req; rbAuthorization := fst auth; rbSignature := snd auth |} in
  Ok (retireLoop post body (zip (dePartyIDs req) (dePartyEndpoints req)) {| DeactivatedCount := 0; Errors := [] |}).

(** [getenvDefault] *)
Definition getenvDefault (getenv : string -> string) (key def : string) : string :=
  if String.eqb (getenv key) "" then def else getenv key.

(** [DeactivateOldKeyShares]; [vault addr token mount] is [None] when no
    client can be built, and otherwise deletes one path. *)
Definition DeactivateOldKeyShares (getenv : string -> string)
    (vault : string -> string -> string -> option (string -> bool))
    (authorize : string -> string -> string -> result Authorization.AuthErr (string * string))
    (post : string -> retireBody -> bool)
    (req : DeactivateSharesRequest) : result KeyErr DeactivateSharesResult :=
  if 0 <? len (dePartyEndpoints req) then retireThroughParties authorize post req
  else
    let addr := getenv "VAULT_ADDR"%string in
    if String.eqb addr "" then Ok {| DeactivatedCount := 0; Errors := [] |}
    else
      match vault addr (getenv "VAULT_TOKEN"%string) (getenvDefault getenv "VAULT_KV_MOUNT" "secret") with
      | None => Err VaultClient
      | Some delete =>
          let basePath := getenvDefault getenv "VAULT_KEY_SHARE_PATH" "openfireblocks/mpc-party" in
          Ok (countParties (fun p => delete (basePath +:+ "/party-" +:+ show_int p +:+ "/" +:+ deCeremonyID req))
                (dePartyIDs req) {| DeactivatedCount := 0; Errors := [] |})
      end.
End Activities.


(** ** Provisioning *)

Lemma childDKG_run h req :
  childDKG h req =
  ([ DoRealDKG req ],
   Done (match childError h with
         | Some e => inl e
         | None => inr (match realDKG h req with
                        | inl e => {| CeremonyID := dkgCeremonyID req; CeremonyStatus := "failed";
                                      ThresholdAddress := ""; ThresholdPubKey := ""; CeremonyError := e |}
                        | inr r => r
                        end)
         end)).
Proof. unfold childDKG, DKGCeremonyWorkflow, bind, exec; cbn; destruct (realDKG h req); done. Qed.

Lemma child_completed h req c :
  snd (childDKG h req) = Done (inr c) -> CeremonyStatus c = "completed"%string ->
  realDKG h req = inr c /\ childError h = None.
Proof.
  rewrite childDKG_run; cbn; destruct (childError h); [ done | ]; intros H Hc.
  destruct (realDKG h req); injection H as <-; done.
Qed.

Lemma trackCeremony_commands h id st e c :
  c ∈ fst (trackCeremony h id st e) -> exists r, c = DoSetCeremony r.
Proof.
  unfold trackCeremony; destruct (String.eqb id ""); [ intros H; apply elem_of_nil in H; done | ].
  rewrite fst_bind; intros [ H | (x & _ & H) ]; [ apply list_elem_of_singleton in H; eauto | ].
  apply elem_of_nil in H; done.
Qed.

Lemma provision_activates h req :
  forall a, DoActivate a ∈ fst (ProvisionKeyWorkflow h req) ->
     exists c, realDKG h (Ceremony req) = inr c /\ CeremonyStatus c = "completed"%string /\
       a = {| actKeyID := KeyID req; actAddress := ThresholdAddress c; actPublicKey := ThresholdPubKey c |}.
Proof.
  unfold ProvisionKeyWorkflow.
  intros a; rewrite fst_bind; intros [ H | (x & _ & H) ]; [ apply trackCeremony_commands in H as [ r H ]; done | ].
  rewrite fst_bind in H; destruct H as [ H | (child & Hc & H) ].
  { rewrite childDKG_run in H; apply list_elem_of_singleton in H; done. }
  destruct child as [ e | c ].
  { rewrite fst_bind in H; destruct H as [ H | (y & _ & H) ];
      [ apply trackCeremony_commands in H as [ r H ]; done | apply elem_of_nil in H; done ]. }
  destruct (String.eqb_spec (CeremonyStatus c) "completed") as [ Es | Es ]; cbn [negb] in H.
  2: { rewrite fst_bind in H; destruct H as [ H | (y & _ & H) ];
         [ apply trackCeremony_commands in H as [ r H ]; done | apply elem_of_nil in H; done ]. }
  exists c; destruct (child_completed _ _ _ Hc Es) as [ Hr _ ]; split_and!; auto.
  rewrite fst_bind in H; destruct H as [ H | (act & _ & H) ].
  { unfold exec_if in H; destruct (negb _); [ | apply elem_of_nil in H; done ].
    apply list_elem_of_singleton in H; injection H as ->; done. }
  destruct act; rewrite fst_bind in H; destruct H as [ H | (y & _ & H) ];
    try (apply trackCeremony_commands in H as [ r H ]; done); apply elem_of_nil in H; done.
Qed.

Lemma provision_completed h req :
  forall r, snd (ProvisionKeyWorkflow h req) = Done r -> ProvisionStatus r = "completed"%string ->
     exists c, realDKG h (Ceremony req) = inr c /\ CeremonyStatus c = "completed"%string /\
       ProvisionedCeremony r = Some c /\
       (KeyID req <> ""%string -> activateKeyPair h {| actKeyID := KeyID req; actAddress := ThresholdAddress c;
                                                       actPublicKey := ThresholdPubKey c |} = inr tt).
Proof.
  unfold ProvisionKeyWorkflow.
  intros r; rewrite snd_bind; intros (x & _ & H) Hr; rewrite snd_bind in H; destruct H as (child & Hc & H).
  destruct child as [ e | c ]; [ rewrite snd_bind in H; destruct H as (y & _ & H); cbn in H; simplify_eq; done | ].
  destruct (String.eqb_spec (CeremonyStatus c) "completed") as [ Es | Es ]; cbn [negb] in H.
  2: { rewrite snd_bind in H; destruct H as (y & _ & H); cbn in H; simplify_eq; done. }
  exists c; destruct (child_completed _ _ _ Hc Es) as [ Hd _ ]; split; [ done | split; [ done | ] ].
  rewrite snd_bind in H; destruct H as (act & Ha & H); destruct act as [ e | [] ];
    rewrite snd_bind in H; destruct H as (y & _ & H); cbn in H; simplify_eq; try done.
  split; [ done | ]; intros Hk; apply String.eqb_neq in Hk; rewrite Hk in Ha; cbn in Ha; congruence.
Qed.

(** Provisioning activates a key only with the address and public key
    of a ceremony that really completed, reports "completed" only if it did,
    and never lets a failure of the tracking row change the outcome. *)
Theorem provisioning_sound h req :
  (forall a, DoActivate a ∈ fst (ProvisionKeyWorkflow h req) ->
     exists c, realDKG h (Ceremony req) = inr c /\ CeremonyStatus c = "completed"%string /\
       a = {| actKeyID := KeyID req; actAddress := ThresholdAddress c; actPublicKey := ThresholdPubKey c |}) /\
  (forall r, snd (ProvisionKeyWorkflow h req) = Done r -> ProvisionStatus r = "completed"%string ->
     exists c, realDKG h (Ceremony req) = inr c /\ CeremonyStatus c = "completed"%string /\
       ProvisionedCeremony r = Some c /\
       (KeyID req <> ""%string -> activateKeyPair h {| actKeyID := KeyID req; actAddress := ThresholdAddress c;
                                                       actPublicKey := ThresholdPubKey c |} = inr tt)).
Proof. split; [ apply provision_activates | apply provision_completed ]. Qed.


(** ** Rotation *)

(** What a rotation does when nothing fails, for the ceremony result [c]. *)
Definition rotation_plan (req : KeyRotationRequest) (c : DKGCeremonyResult) : list Command :=
  [ DoRealDKG (NewCeremony req) ]
  ++ (if String.eqb (NewKeyID req) "" then []
      else [ DoActivate {| actKeyID := NewKeyID req; actAddress := ThresholdAddress c;
                           actPublicKey := ThresholdPubKey c |} ])
  ++ (if String.eqb (OldKeyID req) "" then []
      else [ DoSetKeyStatus {| setKeyID := OldKeyID req; setStatus := "inactive" |} ])
  ++ (if negb (String.eqb (OldCeremonyID req) "") && (0 <? len (OldPartyIDs req))
      then [ DoSleep (if ShareRetention req <=? 0 then 720 * hour else ShareRetention req);
             DoDeactivate {| deCeremonyID := OldCeremonyID req; dePartyIDs := OldPartyIDs req;
                             dePartyEndpoints := OldPartyEndpoints req |} ]
      else []).

Lemma retireStep_run h req :
  let retire := negb (String.eqb (OldCeremonyID req) "") && (0 <? len (OldPartyIDs req)) in
  let sleep := DoSleep (if ShareRetention req <=? 0 then 720 * hour else ShareRetention req) in
  let d := {| deCeremonyID := OldCeremonyID req; dePartyIDs := OldPartyIDs req;
              dePartyEndpoints := OldPartyEndpoints req |} in
  retireStep h req =
  (if retire then match sleepError h with Some _ => [ sleep ] | None => [ sleep; DoDeactivate d ] end else [],
   Done (if retire then
           match sleepError h with
           | Some e => inl ("retention sleep interrupted: " +:+ e)
           | None => match deactivateShares h d with
                     | inl e => inl ("deactivate old shares: " +:+ e)
                     | inr x => inr (0 <? DeactivatedCount x)
                     end
           end
         else inr false)).
Proof.
  cbv zeta; unfold retireStep; destruct (_ && _); [ | done ]; unfold bind, issue, exec, ret; cbn [fst snd app].
  destruct (sleepError h); done.
Qed.

(** One branch of a rotation, all conditions decided. *)
Ltac rotation_case :=
  subst; cbn [app fst snd negb]; split_and!;
  [ eexists; reflexivity | auto
  | intros r Hr Hs; cbn in Hr; injection Hr as <-; cbn in Hs; try discriminate Hs; split_and!; auto;
    intros; done ].

(** C20.  A rotation never gets ahead of itself: its commands are a prefix of
    the plan (ceremony, activate the new key with that ceremony's address,
    retire the old key, wait the retention window, retire the old shares);
    beyond the ceremony only if it completed; and "completed" means the whole
    plan ran and every database step succeeded. *)
Theorem rotation_follows_plan h req :
  exists c, fst (KeyRotationWorkflow h req) `prefix_of` rotation_plan req c /\
    (fst (KeyRotationWorkflow h req) <> [ DoRealDKG (NewCeremony req) ] ->
       realDKG h (NewCeremony req) = inr c /\ CeremonyStatus c = "completed"%string) /\
    (forall r, snd (KeyRotationWorkflow h req) = Done r -> RotationStatus r = "completed"%string ->
       realDKG h (NewCeremony req) = inr c /\ CeremonyStatus c = "completed"%string /\
       fst (KeyRotationWorkflow h req) = rotation_plan req c /\
       (NewKeyID req <> ""%string -> activateKeyPair h {| actKeyID := NewKeyID req;
          actAddress := ThresholdAddress c; actPublicKey := ThresholdPubKey c |} = inr tt) /\
       (OldKeyID req <> ""%string ->
          setKeyPairStatus h {| setKeyID := OldKeyID req; setStatus := "inactive" |} = inr tt)).
Proof.
  remember (KeyRotationWorkflow h req) as run eqn:E; unfold KeyRotationWorkflow in E.
  rewrite childDKG_run, retireStep_run in E; unfold bind, exec_if, exec, ret in E; cbn [fst snd] in E.
  destruct (childError h) as [ e | ].
  { exists {| CeremonyID := ""; CeremonyStatus := ""; ThresholdAddress := ""; ThresholdPubKey := "";
              CeremonyError := "" |}.
    subst run; cbn; split_and!; [ eexists; done | done | intros; simplify_eq; done ]. }
  set (c := match realDKG h (NewCeremony req) with inl _ => _ | inr r => r end) in E.
  exists c; destruct (String.eqb_spec (CeremonyStatus c) "completed") as [ Es | Es ]; cbn [negb] in E.
  2: { subst run; cbn; split_and!; [ eexists; done | done | intros; simplify_eq; done ]. }
  assert (realDKG h (NewCeremony req) = inr c) as Er by (unfold c in *; destruct (realDKG h (NewCeremony req)); done).
  clearbody c; unfold rotation_plan.
  destruct (String.eqb_spec (NewKeyID req) "") as [ En | En ]; cbn [negb fst snd] in E;
    [ | destruct (activateKeyPair h _) as [ e | [] ] eqn:Ea; [ rotation_case | ] ];
  (destruct (String.eqb_spec (OldKeyID req) "") as [ Eold | Eold ]; cbn [negb fst snd] in E;
    [ | destruct (setKeyPairStatus h _) as [ e | [] ] eqn:Es'; [ rotation_case | ] ];
   (destruct (negb (String.eqb (OldCeremonyID req) "") && (0 <? len (OldPartyIDs req))); [ | rotation_case ];
    destruct (sleepError h) as [ e | ]; [ rotation_case | ];
    destruct (deactivateShares h _) as [ e | x ]; rotation_case)).
Qed.
(** ** Retiring shares *)

Lemma retireLoop_spec post body parties : forall r,
  let ok p := post (trim_slashes (snd p) +:+ "/tss/shares/retire") body in
  DeactivatedCount (retireLoop post body parties r)
    = DeactivatedCount r + len (filter (fun p => ok p = true) parties) /\
  Errors (retireLoop post body parties r)
    = Errors r ++ (fst <$> filter (fun p => ok p = false) parties).
Proof.
  cbv zeta; induction parties as [ | [ p endpoint ] parties IH ]; intros r.
  { cbn; rewrite app_nil_r; split; [ unfold len; cbn; lia | done ]. }
  cbn [retireLoop]; rewrite !filter_cons; cbn [snd].
  destruct (post _ body) eqn:E; [ rewrite decide_True, decide_False by done | rewrite decide_False, decide_True by done ];
    match goal with |- context [ retireLoop _ _ _ ?x ] => destruct (IH x) as [ A B ] end; rewrite A, B; cbn.
  - rewrite len_cons; split; [ lia | done ].
  - split; [ done | ]; rewrite <- app_assoc; done.
Qed.

Lemma filter_partition {A} (f : A -> bool) (l : list A) :
  len (filter (fun x => f x = true) l) + len (filter (fun x => f x = false) l) = len l.
Proof.
  induction l as [ | x l IH ]; [ done | ]; rewrite !filter_cons.
  destruct (f x) eqn:E; [ rewrite decide_True, decide_False by done | rewrite decide_False, decide_True by done ];
    rewrite !len_cons; lia.
Qed.

(** Retiring shares accounts for every party: each is counted as
    retired or named in the errors, never both, one failure stopping no
    other; the request each party gets carries the "retire" authorisation of
    this ceremony; and nothing is sent when the lists do not match up or the
    authorisation cannot be had. *)
Theorem retirement_accounts_for_all authorize post req :
  match retireThroughParties authorize post req with
  | Ok r =>
      exists auth, authorize "retire"%string (deCeremonyID req) ""%string = Ok auth /\
      len (dePartyEndpoints req) = len (dePartyIDs req) /\
      DeactivatedCount r + len (Errors r) = len (dePartyIDs req) /\
      Errors r = fst <$> filter (fun p => post (trim_slashes (snd p) +:+ "/tss/shares/retire")
        {| rbCeremonyID := deCeremonyID req; rbAuthorization := fst auth; rbSignature := snd auth |} = false)
        (zip (dePartyIDs req) (dePartyEndpoints req))
  | Err e => e = EndpointsMismatch \/ exists a, authorize "retire"%string (deCeremonyID req) ""%string = Err a
  | Panic => authorize "retire"%string (deCeremonyID req) ""%string = Panic
  end.
Proof.
  unfold retireThroughParties; destruct (negb _) eqn:L; [ auto | ]; b2p.
  destruct (authorize _ _ _) as [ auth | a | ]; cbn [map_err result_bind]; [ | eauto | done ].
  exists auth; split; [ done | split; [ done | ] ].
  set (body := {| rbCeremonyID := _ |}).
  destruct (retireLoop_spec post body (zip (dePartyIDs req) (dePartyEndpoints req))
    {| DeactivatedCount := 0; Errors := [] |}) as [ A B ]; rewrite A, B; cbn [DeactivatedCount Errors app]; split; [ | done ].
  assert (length (dePartyIDs req) = length (dePartyEndpoints req)) as Le by (unfold len in *; lia).
  assert (len (zip (dePartyIDs req) (dePartyEndpoints req)) = len (dePartyIDs req)) as <-
    by (unfold len; rewrite length_zip_with, Le, Nat.min_id; done).
  pose proof (filter_partition (fun p => post (trim_slashes (snd p) +:+ "/tss/shares/retire") body)
    (zip (dePartyIDs req) (dePartyEndpoints req))) as F; cbn beta in F.
  unfold len in F |- *; rewrite length_fmap; lia.
Qed.

(** ** A concrete rotation *)

Definition sampleRotation : KeyRotationRequest :=
  {| NewCeremony := {| dkgCustomerID := "acme"; dkgCeremonyID := "new"; dkgChainID := "ethereum"; dkgN := 3;
                       dkgK := 1; dkgPartyIDs := [ 1; 2; 3 ]; dkgPartyEndpoints := [] |};
     OldKeyID := "k1"; NewKeyID := "k2"; OldCeremonyID := "old"; OldPartyIDs := [ 1; 2; 3 ];
     OldPartyEndpoints := [ "http://a"; "http://b"; "http://c" ]%string; ShareRetention := 0 |}.

Definition sampleHistory : History :=
  {| realDKG := fun _ => inr {| CeremonyID := "new"; CeremonyStatus := "completed"; ThresholdAddress := "0x1";
                                ThresholdPubKey := "02"; CeremonyError := "" |};
     realSigning := fun _ => inl ""%string; activateKeyPair := fun _ => inr tt;
     setKeyPairStatus := fun _ => inr tt; setCeremonyStatus := fun _ => inr tt;
     deactivateShares := fun d =>
       match retireThroughParties (fun _ _ _ => Ok ("{}"%string, "aa"%string))
               (fun url _ => String.eqb url "http://a/tss/shares/retire") d with
       | Ok r => inr r | _ => inl "err"%string end;
     childError := None; sleepError := None |}.

(** The rotation drops what retirement reports: with two of three
    parties failing to retire their shares it still ends "completed" with its
    shares deactivated, and its result names no party. *)
Example rotation_drops_failures :
  exists r, snd (KeyRotationWorkflow sampleHistory sampleRotation) = Done r /\
    RotationStatus r = "completed"%string /\ OldSharesDeactivated r = true /\ RotationError r = ""%string /\
    deactivateShares sampleHistory {| deCeremonyID := "old"; dePartyIDs := [ 1; 2; 3 ];
      dePartyEndpoints := [ "http://a"; "http://b"; "http://c" ]%string |}
      = inr {| DeactivatedCount := 1; Errors := [ 2; 3 ] |}.
Proof. eexists; vm_compute; auto. Qed.


End KeyLifecycle.
