(* ===== verification/Sweep.v ===== *)
(** * Moving the balance off a retired key

    Models [services/temporal-worker/workflows/balance_migration.go] and the
    two activities of [services/temporal-worker/activities/balance_migration.go]
    that build and assemble the sweep.

    The theorem that matters: a completed migration broadcast a transaction
    from the old address to the new one that leaves nothing behind but the gas
    it pays for, and the digest the committee signed was that transaction's. *)

From Stdlib Require Import ZArith Lia Ascii String.
From stdpp Require Import base list numbers strings.
From S2P Require Import Prelude GoStrings GoText EthCrypto EthTx EthRpc Workflow KeyLifecycle SettlementWorkflow.
Import Workflow.

Open Scope Z_scope.

Module Sweep.

Open Scope run_scope.

(** ** Data *)

Record BalanceMigrationRequest := {
  ChainID : string;
  EVMChainID : Z;
  OldCeremonyID : string;
  OldAddress : string;
  NewAddress : string;
  PartyIDs : list Z;
  PartyEndpoints : list string;
}.

Record BalanceMigrationResult := {
  Status : string;
  SweptWei : string;
  SignedTxHex : string;
  TxHash : string;
  Error : string;
}.

Record BuildSweepTransactionRequest := { bOldAddress : string; bNewAddress : string; bEVMChainID : Z }.

Record BuildSweepTransactionResult := {
  Skipped : bool;
  BalanceWei : string;
  Nonce : Z;
  GasLimit : Z;
  GasPriceWei : string;
  ValueWei : string;
  TxHashHex : string;
}.

Record AssembleSweepTransactionRequest := {
  aNewAddress : string;
  aNonce : Z;
  aGasLimit : Z;
  aGasPriceWei : string;
  aValueWei : string;
  aEVMChainID : Z;
  aSignature : string;
  aExpectedFrom : string;
}.

Record AssembleSweepTransactionResult := { aSignedTxHex : string; aTxHash : string }.

Inductive SweepErr : Type :=
| InvalidOldAddress
| InvalidNewAddress
| InvalidExpectedFrom
| DialRpc
| Rpc (e : EthRpc.RpcErr)
| HashFailed (e : EthTx.TxErr)
| InvalidGasPrice
| InvalidValue
| SignatureHex
| SignatureLen (n : Z)
| ApplySignature (e : EthTx.TxErr).

(** ** Activities *)

Definition sweepGasLimit : Z := 21000.

Definition newLegacySweepTx (nonce gasPrice value gasLimit : Z) (to : bytes) (evmChainID : Z)
  : EthTx.Transaction :=
  {| EthTx.ChainID := Some evmChainID; EthTx.Nonce := nonce; EthTx.Gas := gasLimit;
     EthTx.GasPrice := Some gasPrice; EthTx.MaxFee := None; EthTx.Tip := None; EthTx.To := Some to;
     EthTx.Value := Some value; EthTx.Data := [] |}.

Section Activities.
Variable keccak : bytes -> bytes.
Variable recoverCompact : bytes -> bytes -> option (Z * Z).
Variable exchange : string -> EthRpc.rpcRequest -> option (Z * option EthRpc.rpcResponse).
Variable rpcURL : string.

Definition BuildSweepTransaction (req : BuildSweepTransactionRequest)
  : result SweepErr BuildSweepTransactionResult :=
  refuse! negb (EthCrypto.IsHexAddress (bOldAddress req)) with InvalidOldAddress;
  let! toAddr := map_err (fun _ => InvalidNewAddress) (EthCrypto.ParseAddress (bNewAddress req)) in
  let! client := map_err (fun _ => DialRpc) (EthRpc.Dial rpcURL) in
  let! balance := map_err Rpc (EthRpc.BalanceAt exchange client (bOldAddress req)) in
  let! gasPrice := map_err Rpc (EthRpc.SuggestGasPrice exchange client) in
  let fee := gasPrice * sweepGasLimit in
  let value := balance - fee in
  if value <=? 0 then
    Ok {| Skipped := true; BalanceWei := show_int balance; Nonce := 0; GasLimit := 0; GasPriceWei := "";
          ValueWei := ""; TxHashHex := "" |}
  else
    let! nonce := map_err Rpc (EthRpc.PendingNonceAt exchange client (bOldAddress req)) in
    let! hash := map_err HashFailed
      (EthTx.SigningHash keccak (newLegacySweepTx nonce gasPrice value sweepGasLimit toAddr (bEVMChainID req))) in
    Ok {| Skipped := false; BalanceWei := show_int balance; Nonce := nonce; GasLimit := sweepGasLimit;
          GasPriceWei := show_int gasPrice; ValueWei := show_int value; TxHashHex := hex_encode hash |}.

Definition AssembleSweepTransaction (req : AssembleSweepTransactionRequest)
  : result SweepErr AssembleSweepTransactionResult :=
  let! toAddr := map_err (fun _ => InvalidNewAddress) (EthCrypto.ParseAddress (aNewAddress req)) in
  refuse! negb (EthCrypto.IsHexAddress (aExpectedFrom req)) with InvalidExpectedFrom;
  match big_of_dec (aGasPriceWei req) with
  | None => Err InvalidGasPrice
  | Some gasPrice =>
      match big_of_dec (aValueWei req) with
      | None => Err InvalidValue
      | Some value =>
          match hex_decode (aSignature req) with
          | None => Err SignatureHex
          | Some sigBytes =>
              refuse! negb (len sigBytes =? 65) with SignatureLen (len sigBytes);
              let tx := newLegacySweepTx (aNonce req) gasPrice value (aGasLimit req) toAddr (aEVMChainID req) in
              let! signed := map_err ApplySignature
                (EthTx.WithSignature keccak recoverCompact tx sigBytes (aExpectedFrom req)) in
              Ok {| aSignedTxHex := "0x" +:+ hex_encode (EthTx.Raw signed);
                    aTxHash := "0x" +:+ hex_encode (EthTx.Hash signed) |}
          end
      end
  end.
End Activities.

(** ** The workflow *)

Inductive Command : Type :=
| DoBuild (req : BuildSweepTransactionRequest)
| DoRealSigning (req : KeyLifecycle.ThresholdSigningRequest)
| DoAssemble (req : AssembleSweepTransactionRequest)
| DoBroadcast (signedTx : string).

Abbreviation Run := (Workflow.Run Command).

Record History := {
  build : BuildSweepTransactionRequest -> answer BuildSweepTransactionResult;
  realSigning : KeyLifecycle.ThresholdSigningRequest -> answer KeyLifecycle.ThresholdSigningResult;
  assemble : AssembleSweepTransactionRequest -> answer AssembleSweepTransactionResult;
  broadcast : string -> answer SettlementWorkflow.BroadcastResult;
}.

Definition failed (e : string) : BalanceMigrationResult :=
  {| Status := "failed"; SweptWei := ""; SignedTxHex := ""; TxHash := ""; Error := e |}.

Definition buildRequest (req : BalanceMigrationRequest) : BuildSweepTransactionRequest :=
  {| bOldAddress := OldAddress req; bNewAddress := NewAddress req; bEVMChainID := EVMChainID req |}.

Definition signRequest (req : BalanceMigrationRequest) (built : BuildSweepTransactionResult)
  : KeyLifecycle.ThresholdSigningRequest :=
  {| KeyLifecycle.signCeremonyID := OldCeremonyID req; KeyLifecycle.signMessage := TxHashHex built;
     KeyLifecycle.signPartyIDs := PartyIDs req; KeyLifecycle.signPartyEndpoints := PartyEndpoints req;
     KeyLifecycle.signChainID := ChainID req |}.

Definition assembleRequest (req : BalanceMigrationRequest) (built : BuildSweepTransactionResult)
    (signature : string) : AssembleSweepTransactionRequest :=
  {| aNewAddress := NewAddress req; aNonce := Nonce built; aGasLimit := GasLimit built;
     aGasPriceWei := GasPriceWei built; aValueWei := ValueWei built; aEVMChainID := EVMChainID req;
     aSignature := signature; aExpectedFrom := OldAddress req |}.

Definition BalanceMigrationWorkflow (h : History) (req : BalanceMigrationRequest) : Run BalanceMigrationResult :=
  b <- exec (DoBuild (buildRequest req)) (build h (buildRequest req));
  match b with
  | inl e => ret (failed e)
  | inr built =>
      if Skipped built then
        ret {| Status := "skipped_zero_balance"; SweptWei := BalanceWei built; SignedTxHex := ""; TxHash := "";
               Error := "" |}
      else
        s <- exec (DoRealSigning (signRequest req built)) (realSigning h (signRequest req built));
        match s with
        | inl e => ret (failed e)
        | inr signed =>
            if negb (String.eqb (KeyLifecycle.SigningStatus signed) "completed")
            then ret (failed (KeyLifecycle.SigningError signed))
            else
              let a := assembleRequest req built (KeyLifecycle.Signature signed) in
              x <- exec (DoAssemble a) (assemble h a);
              match x with
              | inl e => ret (failed e)
              | inr assembled =>
                  r <- exec (DoBroadcast (aSignedTxHex assembled)) (broadcast h (aSignedTxHex assembled));
                  match r with
                  | inl e =>
                      ret {| Status := "signed_not_broadcast"; SweptWei := ValueWei built;
                             SignedTxHex := aSignedTxHex assembled; TxHash := "";
                             Error := "broadcast failed: " +:+ e |}
                  | inr sent =>
                      ret {| Status := "completed"; SweptWei := ValueWei built;
                             SignedTxHex := aSignedTxHex assembled;
                             TxHash := SettlementWorkflow.BroadcastTxHash sent; Error := "" |}
                  end
              end
        end
  end.

(** ** What a sweep is *)

(** The workflow's activities are the two above, run by one worker. *)
Class SweepActivities keccak recoverCompact exchange rpcURL (h : History) : Prop := {
  build_answers r b : build h r = inr b -> BuildSweepTransaction keccak exchange rpcURL r = Ok b;
  assemble_answers r a : assemble h r = inr a -> AssembleSweepTransaction keccak recoverCompact r = Ok a;
}.

(** What the node and the request determine: recipient, balance, price, nonce. *)
Record sweep_inputs exchange rpcURL (r : BuildSweepTransactionRequest) (to : bytes) (balance gasPrice nonce : Z)
    : Prop := {
  inputs_to : EthCrypto.ParseAddress (bNewAddress r) = Ok to;
  inputs_balance : EthRpc.BalanceAt exchange rpcURL (bOldAddress r) = Ok balance;
  inputs_price : EthRpc.SuggestGasPrice exchange rpcURL = Ok gasPrice;
  inputs_nonce : EthRpc.PendingNonceAt exchange rpcURL (bOldAddress r) = Ok nonce;
}.

(** The transfer of everything but the fee. *)
Definition sweepOf (r : BuildSweepTransactionRequest) (to : bytes) (balance gasPrice nonce : Z) : EthTx.Transaction :=
  newLegacySweepTx nonce gasPrice (balance - gasPrice * sweepGasLimit) sweepGasLimit to (bEVMChainID r).

Lemma Dial_url url c : EthRpc.Dial url = Ok c -> c = url.
Proof. unfold EthRpc.Dial; intros H; inv_ok; done. Qed.

Lemma big_uint64_range v : in_u64 (big_uint64 v).
Proof. apply Z.mod_pos_bound; unfold two64; lia. Qed.

Lemma PendingNonceAt_range exchange url a n : EthRpc.PendingNonceAt exchange url a = Ok n -> in_u64 n.
Proof. unfold EthRpc.PendingNonceAt; intros H; inv_ok; apply big_uint64_range. Qed.

Lemma SigningHash_price keccak nonce gasPrice value gasLimit to chain h :
  EthTx.SigningHash keccak (newLegacySweepTx nonce gasPrice value gasLimit to chain) = Ok h -> 0 <= gasPrice.
Proof.
  unfold EthTx.SigningHash; intros H; inv_ok.
  match goal with E : EthTx.signingPayload _ = Ok _ |- _ => apply EthTx.signingPayload_nonneg in E end.
  cbn in *; tauto.
Qed.

(** A built sweep that is not skipped. *)
Lemma BuildSweep_ok keccak exchange url r b :
  BuildSweepTransaction keccak exchange url r = Ok b -> Skipped b = false ->
  exists to balance gasPrice nonce digest,
    sweep_inputs exchange url r to balance gasPrice nonce /\
    0 < balance - gasPrice * sweepGasLimit /\ 0 <= gasPrice /\
    EthTx.SigningHash keccak (sweepOf r to balance gasPrice nonce) = Ok digest /\
    b = {| Skipped := false; BalanceWei := show_int balance; Nonce := nonce; GasLimit := sweepGasLimit;
           GasPriceWei := show_int gasPrice; ValueWei := show_int (balance - gasPrice * sweepGasLimit);
           TxHashHex := hex_encode digest |}.
Proof.
  unfold BuildSweepTransaction; intros H Hs; inv_ok.
  match goal with E : EthRpc.Dial _ = Ok _ |- _ => apply Dial_url in E as -> end.
  destruct (_ <=? 0) eqn:V; [ simplify_eq; done | ]; inv_ok; b2p.
  do 5 eexists; split_and!; [ econstructor; eassumption | done | | eassumption | done ].
  eauto using SigningHash_price.
Qed.

(** An assembled sweep is what [WithSignature] made of the rebuilt transaction. *)
Lemma AssembleSweep_ok keccak rec r a :
  AssembleSweepTransaction keccak rec r = Ok a ->
  exists to gasPrice value sig st,
    EthCrypto.ParseAddress (aNewAddress r) = Ok to /\
    big_of_dec (aGasPriceWei r) = Some gasPrice /\ big_of_dec (aValueWei r) = Some value /\
    hex_decode (aSignature r) = Some sig /\ aExpectedFrom r <> EmptyString /\
    EthTx.WithSignature keccak rec
      (newLegacySweepTx (aNonce r) gasPrice value (aGasLimit r) to (aEVMChainID r)) sig (aExpectedFrom r) = Ok st /\
    a = {| aSignedTxHex := "0x" +:+ hex_encode (EthTx.Raw st); aTxHash := "0x" +:+ hex_encode (EthTx.Hash st) |}.
Proof.
  unfold AssembleSweepTransaction; intros H; inv_ok.
  destruct (big_of_dec (aGasPriceWei r)) as [ gasPrice | ] eqn:G; [ | done ].
  destruct (big_of_dec (aValueWei r)) as [ value | ] eqn:V; [ | done ].
  destruct (hex_decode (aSignature r)) as [ sig | ] eqn:S; [ | done ]; inv_ok.
  do 5 eexists; split_and!; eauto; intros E.
  match goal with X : negb (EthCrypto.IsHexAddress _) = false |- _ => rewrite E in X; discriminate X end.
Qed.

(** A command that is in none of the positions of a concrete list. *)
Local Ltac not_issued := rewrite ?elem_of_cons, elem_of_nil; intros H; destruct_or? H; done.

(** The commands of a migration that got as far as broadcasting. *)
Lemma migration_broadcasts h req stx :
  DoBroadcast stx ∈ fst (BalanceMigrationWorkflow h req) ->
  exists built signed assembled,
    build h (buildRequest req) = inr built /\ Skipped built = false /\
    realSigning h (signRequest req built) = inr signed /\
    KeyLifecycle.SigningStatus signed = "completed"%string /\
    assemble h (assembleRequest req built (KeyLifecycle.Signature signed)) = inr assembled /\
    stx = aSignedTxHex assembled /\
    fst (BalanceMigrationWorkflow h req) =
      [ DoBuild (buildRequest req); DoRealSigning (signRequest req built);
        DoAssemble (assembleRequest req built (KeyLifecycle.Signature signed)); DoBroadcast stx ].
Proof.
  unfold BalanceMigrationWorkflow, exec, bind, ret; cbn.
  destruct (build h (buildRequest req)) as [ | built ]; cbn; [ not_issued | ].
  destruct (Skipped built) eqn:Sk; cbn; [ not_issued | ].
  destruct (realSigning h (signRequest req built)) as [ | signed ] eqn:Rs; cbn;
    [ not_issued | ].
  destruct (String.eqb_spec (KeyLifecycle.SigningStatus signed) "completed"); cbn;
    [ | not_issued ].
  destruct (assemble h _) as [ | assembled ] eqn:As; cbn; [ not_issued | ].
  intros H; exists built, signed, assembled.
  destruct (broadcast h (aSignedTxHex assembled)); cbn in *;
    rewrite !elem_of_cons, elem_of_nil in H; naive_solver.
Qed.

(** A migration only ever broadcasts the sweep: the bytes it sends are a
    legacy transfer to the new address of the whole balance less 21000 gas at
    the price it read, at the old address's pending nonce, for the requested
    chain; the digest the committee was asked to sign is that same
    transaction's signing hash, and the signature recovers from it to the old
    address.  The rebuilt transaction is the hashed one even though the
    amounts travel through decimal text. *)
Theorem sweep_moves_everything keccak rec exchange url h req stx `{!SweepActivities keccak rec exchange url h} :
  DoBroadcast stx ∈ fst (BalanceMigrationWorkflow h req) ->
  exists to balance gasPrice nonce digest sig st addr,
    sweep_inputs exchange url (buildRequest req) to balance gasPrice nonce /\
    let tx := sweepOf (buildRequest req) to balance gasPrice nonce in
    0 < default 0 (EthTx.Value tx) /\ default 0 (EthTx.Value tx) + 21000 * gasPrice = balance /\
    EthTx.SigningHash keccak tx = Ok digest /\
    (exists built, DoRealSigning (signRequest req built) ∈ fst (BalanceMigrationWorkflow h req) /\
       TxHashHex built = hex_encode digest) /\
    EthCrypto.RecoverAddress keccak rec digest sig = Ok (EthTx.From st) /\
    EthCrypto.ParseAddress (EthTx.From st) = Ok addr /\ EthCrypto.ParseAddress (OldAddress req) = Ok addr /\
    stx = "0x" +:+ hex_encode (EthTx.Raw st) /\
    (len (EthTx.Raw st) < two63 ->
     EthTx.DecodeSignedTransaction keccak (EthTx.Raw st) =
       Ok {| EthTx.infoType := 0; EthTx.infoHash := EthTx.Hash st; EthTx.infoNonce := nonce;
             EthTx.infoGas := 21000; EthTx.infoValue := balance - 21000 * gasPrice;
             EthTx.infoTo := Some to; EthTx.infoChainID := Some (EVMChainID req) |}).
Proof.
  intros H; apply migration_broadcasts in H
    as (built & signed & assembled & Hb & Hk & Hr & Hs & Ha & -> & Hc).
  apply build_answers in Hb; apply assemble_answers in Ha.
  apply BuildSweep_ok in Hb as (to & balance & gasPrice & nonce & digest & Hin & Hv & Hg & Hd & ->); [ | done ].
  apply AssembleSweep_ok in Ha as (to' & gp & v & sig & st & Ht & Eg & Ev & Hsig & Hne & Hw & ->); cbn in *.
  rewrite big_of_dec_show in Eg, Ev by lia; injection Eg as <-; injection Ev as <-.
  pose proof (inputs_to _ _ _ _ _ _ _ Hin) as Ht2; cbn in Ht2; rewrite Ht in Ht2; injection Ht2 as ->.
  apply hex_decode_spec in Hsig as [ Hsig _ ].
  destruct (EthTx.WithSignature_sender _ _ _ _ _ _ Hsig Hne Hw) as (dg & addr & Hd2 & Hrec & Pf & Po & _ & _).
  unfold sweepOf in Hd; cbn in Hd; rewrite Hd in Hd2; injection Hd2 as <-.
  exists to, balance, gasPrice, nonce, digest, sig, st, addr.
  split; [ done | ]; cbn zeta; split_and!; auto; unfold sweepOf, sweepGasLimit in *; cbn in *; try lia.
  { eexists; split; [ rewrite Hc; right; left | done ]. }
  assert (EthTx.tx_ok (newLegacySweepTx nonce gasPrice (balance - gasPrice * 21000) 21000 to (EVMChainID req))) as Hok.
  { split_and!; cbn; [ eapply PendingNonceAt_range, (inputs_nonce _ _ _ _ _ _ _ Hin) | unfold in_u64, two64; lia
      | constructor | apply EthCrypto.ParseAddress_ok in Ht; tauto ]. }
  intros Hl; rewrite (EthTx.WithSignature_decodes _ _ _ _ _ _ Hok Hsig Hw Hl); cbn.
  do 2 f_equal; lia.
Qed.

(** A skipped build had nothing to move. *)
Lemma BuildSweep_skipped keccak exchange url r b :
  BuildSweepTransaction keccak exchange url r = Ok b -> Skipped b = true ->
  exists balance gasPrice, EthRpc.BalanceAt exchange url (bOldAddress r) = Ok balance /\
    EthRpc.SuggestGasPrice exchange url = Ok gasPrice /\ balance <= 21000 * gasPrice /\
    BalanceWei b = show_int balance.
Proof.
  unfold BuildSweepTransaction; intros H Hs; inv_ok.
  match goal with E : EthRpc.Dial _ = Ok _ |- _ => apply Dial_url in E as -> end.
  destruct (_ <=? 0) eqn:V; [ b2p; unfold sweepGasLimit in *; inv_ok | inv_ok; done ].
  do 2 eexists; split_and!; eauto; lia.
Qed.

(** A migration always ends with a result, and its status is truthful:
    "skipped_zero_balance" only when the balance the node reported does not
    exceed the fee, with nothing signed; "completed" only when the broadcast
    was answered, with the node's hash and the bytes that were sent;
    "signed_not_broadcast" only when the broadcast failed, keeping the signed
    bytes for a retry; in every other case it is "failed" and nothing was
    handed to the network. *)
Theorem migration_status_truthful keccak rec exchange url h req `{!SweepActivities keccak rec exchange url h} :
  exists res, snd (BalanceMigrationWorkflow h req) = Done res /\
  ((Status res = "skipped_zero_balance"%string /\
    fst (BalanceMigrationWorkflow h req) = [ DoBuild (buildRequest req) ] /\
    exists balance gasPrice, EthRpc.BalanceAt exchange url (OldAddress req) = Ok balance /\
      EthRpc.SuggestGasPrice exchange url = Ok gasPrice /\ balance <= 21000 * gasPrice /\
      SweptWei res = show_int balance) \/
   (exists stx sent, Status res = "completed"%string /\ broadcast h stx = inr sent /\
      DoBroadcast stx ∈ fst (BalanceMigrationWorkflow h req) /\
      SignedTxHex res = stx /\ TxHash res = SettlementWorkflow.BroadcastTxHash sent) \/
   (exists stx e, Status res = "signed_not_broadcast"%string /\ broadcast h stx = inl e /\
      DoBroadcast stx ∈ fst (BalanceMigrationWorkflow h req) /\ SignedTxHex res = stx) \/
   (Status res = "failed"%string /\ forall stx, DoBroadcast stx ∉ fst (BalanceMigrationWorkflow h req))).
Proof.
  unfold BalanceMigrationWorkflow, exec, bind, ret; cbn.
  destruct (build h (buildRequest req)) as [ | built ] eqn:Eb; cbn.
  { eexists; split; [ done | ]; do 3 right; split; [ done | ]; intros stx; not_issued. }
  destruct (Skipped built) eqn:Sk; cbn.
  { eexists; split; [ done | left ]; split; [ done | split; [ done | ] ].
    apply build_answers in Eb; apply (BuildSweep_skipped _ _ _ _ _ Eb Sk). }
  destruct (realSigning h (signRequest req built)) as [ | signed ] eqn:Rs; cbn.
  { eexists; split; [ done | ]; do 3 right; split; [ done | ]; intros stx; not_issued. }
  destruct (String.eqb_spec (KeyLifecycle.SigningStatus signed) "completed"); cbn.
  2: { eexists; split; [ done | ]; do 3 right; split; [ done | ]; intros stx; not_issued. }
  destruct (assemble h _) as [ | assembled ] eqn:As; cbn.
  { eexists; split; [ done | ]; do 3 right; split; [ done | ]; intros stx; not_issued. }
  destruct (broadcast h (aSignedTxHex assembled)) as [ err | sent ] eqn:Br; cbn;
    (eexists; split; [ done | ]).
  - do 2 right; left; exists (aSignedTxHex assembled), err; split_and!; auto; do 3 right; left.
  - right; left; exists (aSignedTxHex assembled), sent; split_and!; auto; do 3 right; left.
Qed.

(** *** A migration on sample values *)

Definition sampleExchange (url : string) (r : EthRpc.rpcRequest) : option (Z * option EthRpc.rpcResponse) :=
  let answer v := Some (200, Some {| EthRpc.Result := Some (EthRpc.JStr v); EthRpc.Error := None |}) in
  if String.eqb (EthRpc.Method r) "eth_getBalance" then answer "0xde0b6b3a7640000"%string
  else if String.eqb (EthRpc.Method r) "eth_gasPrice" then answer "0x6fc23ac00"%string
  else if String.eqb (EthRpc.Method r) "eth_getTransactionCount" then answer "0x7"%string
  else None.

Definition answer_of {E A} (r : result E A) : answer A :=
  match r with Ok a => inr a | _ => inl "activity error"%string end.

Definition sampleMigration : BalanceMigrationRequest :=
  {| ChainID := "ethereum"; EVMChainID := 11155111; OldCeremonyID := "ceremony-old";
     OldAddress := hex_encode (replicate 20 200); NewAddress := hex_encode (replicate 20 17);
     PartyIDs := [ 0; 1 ]; PartyEndpoints := [ "party-0"%string; "party-1"%string ] |}.

Definition sampleHistory : History :=
  {| build r := answer_of (BuildSweepTransaction EthTx.sample_keccak sampleExchange "http://node" r);
     realSigning _ := inr {| KeyLifecycle.Signature := hex_encode EthTx.sample_sig; KeyLifecycle.SigningSignedTx := "";
                             KeyLifecycle.SigningStatus := "completed"; KeyLifecycle.SigningError := "" |};
     assemble r := answer_of (AssembleSweepTransaction EthTx.sample_keccak EthTx.sample_recover r);
     broadcast _ := inr {| SettlementWorkflow.BroadcastTxHash := "0xhash" |} |}.

Lemma answer_of_ok {E A} (r : result E A) a : answer_of r = inr a -> r = Ok a.
Proof. destruct r; cbn; congruence. Qed.

#[export] Instance sample_activities :
  SweepActivities EthTx.sample_keccak EthTx.sample_recover sampleExchange "http://node" sampleHistory.
Proof. split; intros r a H; apply answer_of_ok, H. Qed.

Definition sampleBroadcast : string :=
  match last (fst (BalanceMigrationWorkflow sampleHistory sampleMigration)) with
  | Some (DoBroadcast stx) => stx
  | _ => ""
  end.

Lemma sweep_moves_everything_witness :
  exists to balance gasPrice nonce,
    sweep_inputs sampleExchange "http://node" (buildRequest sampleMigration) to balance gasPrice nonce /\
    balance - 21000 * gasPrice = 999370000000000000.
Proof.
  destruct (sweep_moves_everything EthTx.sample_keccak EthTx.sample_recover sampleExchange "http://node"
    sampleHistory sampleMigration sampleBroadcast) as (to & balance & gasPrice & nonce & digest & sig & st & addr & H & _).
  - assert (fst (BalanceMigrationWorkflow sampleHistory sampleMigration) !! 3%nat = Some (DoBroadcast sampleBroadcast))
      as E by (vm_compute; reflexivity).
    apply list_elem_of_lookup; eauto.
  - exists to, balance, gasPrice, nonce; split; [ exact H | ].
    pose proof (inputs_balance _ _ _ _ _ _ _ H) as B; pose proof (inputs_price _ _ _ _ _ _ _ H) as P.
    vm_compute in B, P; injection B as <-; injection P as <-; reflexivity.
Defined.

Lemma migration_status_truthful_witness :
  exists res, snd (BalanceMigrationWorkflow sampleHistory sampleMigration) = Done res /\
    Status res = "completed"%string /\ TxHash res = "0xhash"%string.
Proof.
  destruct (migration_status_truthful EthTx.sample_keccak EthTx.sample_recover sampleExchange "http://node"
    sampleHistory sampleMigration) as (res & E & _).
  exists res; split; [ exact E | ]; vm_compute in E; injection E as <-; split; reflexivity.
Defined.

End Sweep.
