(* ===== verification/Settlement.v ===== *)
(** * The settlement service

    Models [services/settlement/settlement.go] and [db.go]: the service that
    puts a signed transaction on a chain, records it, and follows it until it
    is confirmed or given up on.

    The outside world (chain nodes, database availability) is of a type [W];
    every call that leaves the process names the instant [w : W] at which it
    was made.  Clock readings are nanoseconds.  The [::uuid] cast, Postgres's
    rounding of timestamps, the column types and the text of errors are
    parameters.  [AvgConfirmationTime] is kept in exact rationals where the code
    has a [float64].

    A running system is the service with the goroutines following
    transactions; [step] interleaves requests and ticks.  A request is one step:
    its effect on the store is the one write at its end.  The metrics are
    updated atomically here, which the code does not ensure.

    The theorems: the ledger keeps every payment and its owner, a settlement
    that reached the chain reads back, following it ends, and what becomes of a
    transaction given as text. *)

From Stdlib Require Import ZArith QArith Lia Ascii String Permutation.
From stdpp Require Import base list numbers strings gmap.
From S2P Require Import Prelude GoStrings GoText EthCrypto EthTx EthRpc.

Open Scope Z_scope.

Module Settlement.

(** ** Data *)

Record Settlement := {
  SettlementID : string;
  SigningID : string;
  CustomerID : string;
  Blockchain : string;
  TransactionHash : string;
  Status : string;
  GasUsed : Z;
  ConfirmationTime : Z;
  BroadcastedAt : option Z;
  ConfirmedAt : option Z;
  ErrorMessage : string;
  CreatedAt : Z;
}.

Record SettlementRequest := { reqSigningID : string; reqBlockchain : string; SignedTransaction : string }.

Record SettlementResponse := {
  respSettlementID : string;
  respStatus : string;
  respTransactionHash : string;
  respError : string;
}.

Record SettlementMetrics := {
  TotalSettlements : Z;
  SuccessfulSettlements : Z;
  FailedSettlements : Z;
  AvgConfirmationTime : Q;
  confirmedSamples : Z;
}.

Definition recordConfirmationTime (m : SettlementMetrics) (seconds : Q) : SettlementMetrics :=
  let n := i64 (confirmedSamples m + 1) in
  {| TotalSettlements := TotalSettlements m; SuccessfulSettlements := SuccessfulSettlements m;
     FailedSettlements := FailedSettlements m;
     AvgConfirmationTime := (AvgConfirmationTime m + (seconds - AvgConfirmationTime m) / inject_Z n)%Q;
     confirmedSamples := n |}.

Definition broadcastFailed (m : SettlementMetrics) : SettlementMetrics :=
  {| TotalSettlements := TotalSettlements m; SuccessfulSettlements := SuccessfulSettlements m;
     FailedSettlements := i64 (FailedSettlements m + 1); AvgConfirmationTime := AvgConfirmationTime m;
     confirmedSamples := confirmedSamples m |}.

Definition broadcastSucceeded (m : SettlementMetrics) : SettlementMetrics :=
  {| TotalSettlements := i64 (TotalSettlements m + 1);
     SuccessfulSettlements := i64 (SuccessfulSettlements m + 1);
     FailedSettlements := FailedSettlements m; AvgConfirmationTime := AvgConfirmationTime m;
     confirmedSamples := confirmedSamples m |}.

(** ** Chain clients *)

Inductive ClientErr : Type :=
| EthErr (e : EthRpc.RpcErr)
| TxErr (e : EthTx.TxErr)
| BtcUnreachable
| BtcUnreadable
| BtcRejected (e : EthRpc.rpcError)
| NotApplicable.

Record ChainClient {W : Type} := {
  BroadcastTransaction : W -> bytes -> result ClientErr string;
  GetTransactionStatus : W -> string -> result ClientErr string;
  EstimateGas : W -> bytes -> result ClientErr Z;
}.
Arguments ChainClient W : clear implicits.

Section Clients.
Context {W : Type}.
Variable keccak : bytes -> bytes.

Section Ethereum.
Variable exchange : W -> string -> EthRpc.rpcRequest -> option (Z * option EthRpc.rpcResponse).
Variable rpcURL : string.

Definition EthBroadcastTransaction (w : W) (txData : bytes) : result ClientErr string :=
  let expected := "0x" +:+ hex_encode (EthTx.TransactionHash keccak txData) in
  let! _returned := map_err EthErr (EthRpc.SendRawTransaction (exchange w) rpcURL ("0x" +:+ hex_encode txData)) in
  Ok expected.

Definition EthGetTransactionStatus (w : W) (txHash : string) : result ClientErr string :=
  match EthRpc.TransactionReceipt (exchange w) rpcURL txHash with
  | Err EthRpc.NotFound => Ok "pending"%string
  | Err e => Err (EthErr e)
  | Panic => Panic
  | Ok receipt => if EthRpc.Status receipt =? 1 then Ok "confirmed"%string else Ok "failed"%string
  end.

Definition EthEstimateGas (w : W) (txData : bytes) : result ClientErr Z :=
  let! info := map_err TxErr (EthTx.DecodeSignedTransaction keccak txData) in
  Ok (EthTx.infoGas info).

Definition EthereumClient : ChainClient W :=
  {| BroadcastTransaction := EthBroadcastTransaction; GetTransactionStatus := EthGetTransactionStatus;
     EstimateGas := EthEstimateGas |}.

Definition NewEthereumClient : result ClientErr (ChainClient W) :=
  let! _client := map_err EthErr (EthRpc.Dial rpcURL) in Ok EthereumClient.
End Ethereum.

Section Bitcoin.
(** the HTTP exchange, whatever its status, and [json.Unmarshal] of the body *)
Variable exchange : W -> EthRpc.rpcRequest -> option (option EthRpc.rpcResponse).

Definition rpcCall {A} (w : W) (method : string) (params : list EthRpc.Json) (decode : EthRpc.Json -> option A)
  : result ClientErr A :=
  match exchange w {| EthRpc.Method := method; EthRpc.Params := params |} with
  | None => Err BtcUnreachable
  | Some None => Err BtcUnreadable
  | Some (Some rpcResp) =>
      match EthRpc.Error rpcResp with
      | Some e => Err (BtcRejected e)
      | None =>
          match EthRpc.Result rpcResp with
          | None => Err BtcUnreadable
          | Some v => match decode v with Some a => Ok a | None => Err BtcUnreadable end
          end
      end
  end.

(** [json.Unmarshal] into a [string]: [null] leaves it empty. *)
Definition decodeText (v : EthRpc.Json) : option string :=
  match v with EthRpc.JNull => Some ""%string | EthRpc.JStr s => Some s | _ => None end.

(** ... and into the [confirmations] field, an [int]. *)
Fixpoint scanConfirmations (acc : Z) (fields : list (string * EthRpc.Json)) : option Z :=
  match fields with
  | [] => Some acc
  | (k, v) :: fields =>
      if equal_fold k "confirmations" then
        match v with
        | EthRpc.JNull => scanConfirmations acc fields
        | EthRpc.JNum n =>
            if (- two63 <=? n) && (n <? two63) then scanConfirmations n fields else None
        | _ => None
        end
      else scanConfirmations acc fields
  end.

Definition decodeConfirmations (v : EthRpc.Json) : option Z :=
  match v with
  | EthRpc.JNull => Some 0
  | EthRpc.JObj fields => scanConfirmations 0 fields
  | _ => None
  end.

Definition BtcBroadcastTransaction (w : W) (txData : bytes) : result ClientErr string :=
  rpcCall w "sendrawtransaction" [ EthRpc.JStr (hex_encode txData) ] decodeText.

Definition BtcGetTransactionStatus (w : W) (txHash : string) : result ClientErr string :=
  let! confirmations := rpcCall w "getrawtransaction" [ EthRpc.JStr txHash; EthRpc.JBool true ]
    decodeConfirmations in
  if 6 <=? confirmations then Ok "confirmed"%string else Ok "pending"%string.

Definition BtcEstimateGas (w : W) (txData : bytes) : result ClientErr Z := Err NotApplicable.

Definition BitcoinClient : ChainClient W :=
  {| BroadcastTransaction := BtcBroadcastTransaction; GetTransactionStatus := BtcGetTransactionStatus;
     EstimateGas := BtcEstimateGas |}.
End Bitcoin.
End Clients.

(** ** Storage *)

Inductive DbErr : Type :=
| Unavailable
| BadUuid
| BadArgument
| ConstraintViolation
| SettlementNotFound.

Record settlementRow := {
  rowSigning : option string;
  rowCustomer : option string;
  rowBlockchain : string;
  rowHash : string;
  rowStatus : string;
  rowGas : option Z;
  rowConfirmationTime : option Z;
  rowBroadcasted : option Z;
  rowConfirmed : option Z;
  rowError : string;
  rowCreated : Z;
}.

(** [signing_requests] maps a request to its customer (a [NOT NULL] column). *)
Record db := { signing_requests : gmap string string; settlements : gmap string settlementRow }.

Definition with_settlements (d : db) (s : gmap string settlementRow) : db :=
  {| signing_requests := signing_requests d; settlements := s |}.

(** The [CHECK] on the status column. *)
Definition allowedStatus (s : string) : bool :=
  existsb (String.eqb s) [ "pending"; "broadcasted"; "confirmed"; "failed"; "timeout" ]%string.

Definition nullString (v : string) : option string := if String.eqb v "" then None else Some v.
Definition nullZeroUint64 (v : Z) : option Z := if v =? 0 then None else Some v.

(** A uint64 argument with the high bit set is refused by [database/sql]. *)
Definition argument (v : option Z) : bool := match v with Some n => n <? two63 | None => true end.

Section Storage.
Context {W : Type}.
Variable available : W -> bool.
Variable uuid : string -> option string.
Variable pgtime : Z -> Z.
(** the lengths and ranges of the column types *)
Variable accepts : settlementRow -> bool.
(** [ORDER BY created_at DESC] *)
Variable newest_first : list (string * settlementRow) -> list (string * settlementRow).

Definition resolveCustomerIDForSigningRequest (w : W) (d : db) (signingID : string) : result DbErr string :=
  check! available w else Unavailable;
  match uuid signingID with
  | None => Err BadUuid
  | Some i => Ok (default ""%string (signing_requests d !! i))
  end.

Definition resolveCustomerIDForSettlement (w : W) (d : db) (settlementID : string) : result DbErr string :=
  check! available w else Unavailable;
  match uuid settlementID with
  | None => Err BadUuid
  | Some i =>
      match settlements d !! i with
      | None => Err SettlementNotFound
      | Some r => Ok (default ""%string (rowCustomer r))
      end
  end.

(** [current_customer_id()] after [set_config], and the row policy. *)
Definition visible (customer : string) (r : settlementRow) : bool :=
  match nullString customer, rowCustomer r with
  | Some c, Some c' => String.eqb c c'
  | _, _ => false
  end.

Definition insertRow (d : db) (customer : string) (s : Settlement) : result DbErr db :=
  match uuid (SettlementID s), (if String.eqb (SigningID s) "" then Some None else Some <$> uuid (SigningID s)) with
  | Some i, Some signing =>
      let row := {| rowSigning := signing; rowCustomer := nullString customer; rowBlockchain := Blockchain s;
                    rowHash := TransactionHash s; rowStatus := Status s;
                    rowGas := nullZeroUint64 (GasUsed s); rowConfirmationTime := None;
                    rowBroadcasted := pgtime <$> BroadcastedAt s; rowConfirmed := None;
                    rowError := ErrorMessage s; rowCreated := pgtime (CreatedAt s) |} in
      check! argument (rowGas row) else BadArgument;
      check! accepts row else BadArgument;
      check! allowedStatus (rowStatus row) else ConstraintViolation;
      check! match signing with Some k => bool_decide (is_Some (signing_requests d !! k)) | None => true end
        else ConstraintViolation;
      refuse! bool_decide (is_Some (settlements d !! i)) with ConstraintViolation;
      Ok (with_settlements d (<[ i := row ]> (settlements d)))
  | _, _ => Err BadUuid
  end.

(** The tenant's insert also passes the policy's [WITH CHECK], the row
    carrying the customer the session was set to. *)
Definition CreateSettlement (w : W) (d : db) (s : Settlement) : result DbErr db :=
  let! customer := resolveCustomerIDForSigningRequest w d (SigningID s) in
  insertRow d customer s.

Definition updatedRow (r : settlementRow) (s : Settlement) : settlementRow :=
  {| rowSigning := rowSigning r; rowCustomer := rowCustomer r; rowBlockchain := rowBlockchain r;
     rowHash := rowHash r; rowStatus := Status s; rowGas := rowGas r;
     rowConfirmationTime := nullZeroUint64 (ConfirmationTime s); rowBroadcasted := rowBroadcasted r;
     rowConfirmed := pgtime <$> ConfirmedAt s; rowError := ErrorMessage s; rowCreated := rowCreated r |}.

Definition UpdateSettlement (w : W) (d : db) (s : Settlement) : result DbErr db :=
  let! customer := resolveCustomerIDForSettlement w d (SettlementID s) in
  match uuid (SettlementID s) with
  | None => Err BadUuid
  | Some i =>
      match settlements d !! i with
      | None => Err SettlementNotFound
      | Some r =>
          check! visible customer r else SettlementNotFound;
          check! accepts (updatedRow r s) else BadArgument;
          check! allowedStatus (Status s) else ConstraintViolation;
          Ok (with_settlements d (<[ i := updatedRow r s ]> (settlements d)))
      end
  end.

Definition readRow (i : string) (r : settlementRow) : Settlement :=
  {| SettlementID := i; SigningID := default ""%string (rowSigning r); CustomerID := "";
     Blockchain := rowBlockchain r; TransactionHash := rowHash r; Status := rowStatus r;
     GasUsed := u64 (default 0 (rowGas r)); ConfirmationTime := default 0 (rowConfirmationTime r);
     BroadcastedAt := rowBroadcasted r; ConfirmedAt := rowConfirmed r; ErrorMessage := rowError r;
     CreatedAt := rowCreated r |}.

Definition dbGetSettlement (w : W) (d : db) (settlementID : string) : result DbErr Settlement :=
  let! customer := resolveCustomerIDForSettlement w d settlementID in
  match uuid settlementID with
  | None => Err BadUuid
  | Some i =>
      match settlements d !! i with
      | None => Err SettlementNotFound
      | Some r => check! visible customer r else SettlementNotFound; Ok (readRow i r)
      end
  end.

Definition ListSettlements (w : W) (d : db) (customerID : string) : result DbErr (list Settlement) :=
  check! available w else Unavailable;
  match uuid customerID with
  | None => Err BadUuid
  | Some c =>
      Ok ((fun kv => readRow kv.1 kv.2) <$>
          newest_first (filter (fun kv => rowCustomer kv.2 = Some c) (map_to_list (settlements d))))
  end.
End Storage.

(** ** The service *)

Inductive SettleErr : Type :=
| InvalidRequest
| UnsupportedBlockchain (name : string)
| BroadcastFailed (s : Settlement) (e : ClientErr).

Record SettlementService {W : Type} := {
  store : db;
  chains : gmap string (ChainClient W);
  metrics : SettlementMetrics;
}.
Arguments SettlementService W : clear implicits.

(** The instants of one [Settle] call and what it draws from clock and
    randomness. *)
Record Instants {W : Type} := {
  atGas : W;
  atBroadcast : W;
  atStore : W;
  freshID : string;
  created : Z;
  broadcastedNow : Z;
}.
Arguments Instants W : clear implicits.

Section Service.
Context {W : Type}.
Variable available : W -> bool.
Variable uuid : string -> option string.
Variable pgtime : Z -> Z.
Variable accepts : settlementRow -> bool.
(** [err.Error()] *)
Variable errText : ClientErr -> string.

Definition NewSettlementService (d : db) : SettlementService W :=
  {| store := d; chains := ∅;
     metrics := {| TotalSettlements := 0; SuccessfulSettlements := 0; FailedSettlements := 0;
                   AvgConfirmationTime := 0%Q; confirmedSamples := 0 |} |}.

Definition RegisterChain (s : SettlementService W) (blockchain : string) (client : option (ChainClient W))
  : option (SettlementService W) :=
  match client with
  | None => None
  | Some c => Some {| store := store s; chains := <[ blockchain := c ]> (chains s); metrics := metrics s |}
  end.

(** A failed write is logged and the call goes on. *)
Definition stored (s : SettlementService W) (r : result DbErr db) : SettlementService W :=
  match r with
  | Ok d => {| store := d; chains := chains s; metrics := metrics s |}
  | _ => s
  end.

Definition with_metrics (s : SettlementService W) (m : SettlementMetrics) : SettlementService W :=
  {| store := store s; chains := chains s; metrics := m |}.

(** The record of an accepted request, before it is sent. *)
Definition pendingSettlement (req : SettlementRequest) (at_ : Instants W) (gas : Z) : Settlement :=
  {| SettlementID := freshID at_; SigningID := reqSigningID req; CustomerID := "";
     Blockchain := reqBlockchain req; TransactionHash := ""; Status := "pending"; GasUsed := gas;
     ConfirmationTime := 0; BroadcastedAt := None; ConfirmedAt := None; ErrorMessage := "";
     CreatedAt := created at_ |}.

Definition failedSettlement (s : Settlement) (message : string) : Settlement :=
  {| SettlementID := SettlementID s; SigningID := SigningID s; CustomerID := CustomerID s;
     Blockchain := Blockchain s; TransactionHash := TransactionHash s; Status := "failed";
     GasUsed := GasUsed s; ConfirmationTime := ConfirmationTime s; BroadcastedAt := BroadcastedAt s;
     ConfirmedAt := ConfirmedAt s; ErrorMessage := message; CreatedAt := CreatedAt s |}.

Definition broadcastSettlement (s : Settlement) (txHash : string) (now : Z) : Settlement :=
  {| SettlementID := SettlementID s; SigningID := SigningID s; CustomerID := CustomerID s;
     Blockchain := Blockchain s; TransactionHash := txHash; Status := "broadcasted";
     GasUsed := GasUsed s; ConfirmationTime := ConfirmationTime s; BroadcastedAt := Some now;
     ConfirmedAt := ConfirmedAt s; ErrorMessage := ErrorMessage s; CreatedAt := CreatedAt s |}.

Definition estimatesGas (blockchain : string) : bool :=
  String.eqb blockchain "ethereum" || String.eqb blockchain "polygon".

Definition gasFor (client : ChainClient W) (req : SettlementRequest) (at_ : Instants W) : result SettleErr Z :=
  if estimatesGas (reqBlockchain req) then
    match EstimateGas client (atGas at_) (to_bytes (SignedTransaction req)) with
    | Ok g => Ok g
    | Err _ => Ok 0
    | Panic => Panic
    end
  else Ok 0.

(** The state after the call and what it returns; [Ok s] also starts
    [trackConfirmation] on a copy of [s]. *)
Definition Settle (s : SettlementService W) (at_ : Instants W) (req : SettlementRequest)
  : SettlementService W * result SettleErr Settlement :=
  if String.eqb (reqSigningID req) "" || String.eqb (reqBlockchain req) "" || String.eqb (SignedTransaction req) ""
  then (s, Err InvalidRequest)
  else
    match chains s !! reqBlockchain req with
    | None => (s, Err (UnsupportedBlockchain (reqBlockchain req)))
    | Some client =>
        match gasFor client req at_ with
        | Err e => (s, Err e)
        | Panic => (s, Panic)
        | Ok gas =>
            let settlement := pendingSettlement req at_ gas in
            match BroadcastTransaction client (atBroadcast at_) (to_bytes (SignedTransaction req)) with
            | Panic => (s, Panic)
            | Err e =>
                let settlement := failedSettlement settlement (errText e) in
                let s := with_metrics s (broadcastFailed (metrics s)) in
                (stored s (CreateSettlement available uuid pgtime accepts (atStore at_) (store s) settlement),
                 Err (BroadcastFailed settlement e))
            | Ok txHash =>
                let settlement := broadcastSettlement settlement txHash (broadcastedNow at_) in
                let s := stored s (CreateSettlement available uuid pgtime accepts (atStore at_) (store s) settlement) in
                (with_metrics s (broadcastSucceeded (metrics s)), Ok settlement)
            end
        end
    end.

(** *** Following a transaction *)

Record tracker := { trackClient : ChainClient W; tracked : Settlement; attempts : Z }.

Definition maxAttempts : Z := 120.

Definition startTracking (s : SettlementService W) (settlement : Settlement) : option tracker :=
  match chains s !! Blockchain settlement with
  | None => None
  | Some c => Some {| trackClient := c; tracked := settlement; attempts := 0 |}
  end.

Inductive Progress : Type :=
| Running (t : tracker)
| Finished (final : Settlement)
| Crashed.

Definition timedOut (s : Settlement) : Settlement :=
  {| SettlementID := SettlementID s; SigningID := SigningID s; CustomerID := CustomerID s;
     Blockchain := Blockchain s; TransactionHash := TransactionHash s; Status := "timeout";
     GasUsed := GasUsed s; ConfirmationTime := ConfirmationTime s; BroadcastedAt := BroadcastedAt s;
     ConfirmedAt := ConfirmedAt s; ErrorMessage := ErrorMessage s; CreatedAt := CreatedAt s |}.

(** [time.Time.Sub], which saturates. *)
Definition elapsed (later earlier : Z) : Z := Z.max (- two63) (Z.min (two63 - 1) (later - earlier)).

Definition nanosecond : positive := 1000000000.

Definition confirmed (s : Settlement) (now : Z) : Settlement :=
  {| SettlementID := SettlementID s; SigningID := SigningID s; CustomerID := CustomerID s;
     Blockchain := Blockchain s; TransactionHash := TransactionHash s; Status := "confirmed";
     GasUsed := GasUsed s;
     ConfirmationTime :=
       match BroadcastedAt s with
       | Some b => Z.quot (elapsed now b) (Z.pos nanosecond)
       | None => ConfirmationTime s
       end;
     BroadcastedAt := BroadcastedAt s; ConfirmedAt := Some now; ErrorMessage := ErrorMessage s;
     CreatedAt := CreatedAt s |}.

Definition sample (s : Settlement) (now : Z) (m : SettlementMetrics) : SettlementMetrics :=
  match BroadcastedAt s with
  | Some b => recordConfirmationTime m (elapsed now b # nanosecond)
  | None => m
  end.

(** One tick of the loop of [trackConfirmation]. *)
Definition tick (s : SettlementService W) (w : W) (now : Z) (t : tracker) : SettlementService W * Progress :=
  let update s settlement := stored s (UpdateSettlement available uuid pgtime accepts w (store s) settlement) in
  let again := Running {| trackClient := trackClient t; tracked := tracked t; attempts := attempts t + 1 |} in
  if maxAttempts <=? attempts t then (update s (timedOut (tracked t)), Finished (timedOut (tracked t)))
  else
    match GetTransactionStatus (trackClient t) w (TransactionHash (tracked t)) with
    | Panic => (s, Crashed)
    | Err _ => (s, again)
    | Ok status =>
        if String.eqb status "confirmed" then
          (update (with_metrics s (sample (tracked t) now (metrics s))) (confirmed (tracked t) now),
           Finished (confirmed (tracked t) now))
        else (s, again)
    end.

(** The loop over a sequence of ticks, [Running] when they run out first. *)
Fixpoint trackConfirmation (s : SettlementService W) (ticks : list (W * Z)) (t : tracker)
  : SettlementService W * Progress :=
  match ticks with
  | [] => (s, Running t)
  | (w, now) :: ticks =>
      match tick s w now t with
      | (s', Running t') => trackConfirmation s' ticks t'
      | done => done
      end
  end.

(** *** Handlers *)

Definition responseOf (s : Settlement) : SettlementResponse :=
  {| respSettlementID := SettlementID s; respStatus := Status s; respTransactionHash := TransactionHash s;
     respError := ErrorMessage s |}.

(** [body] is the decoded request, [None] when it is not JSON of that shape. *)
Definition HandleSettle (s : SettlementService W) (at_ : Instants W) (method : string)
    (body : option SettlementRequest) : SettlementService W * result SettleErr (Z * option SettlementResponse) :=
  if negb (String.eqb method "POST") then (s, Ok (405, None))
  else
    match body with
    | None => (s, Ok (400, None))
    | Some req =>
        let '(s', r) := Settle s at_ req in
        (s', match r with
             | Ok settlement => Ok (201, Some (responseOf settlement))
             | Err _ => Ok (500, None)
             | Panic => Panic
             end)
    end.

Definition HandleGetSettlement (s : SettlementService W) (w : W) (settlementID : string)
  : Z * option Settlement :=
  if String.eqb settlementID "" then (400, None)
  else
    match dbGetSettlement available uuid w (store s) settlementID with
    | Ok settlement => (200, Some settlement)
    | _ => (404, None)
    end.

(** *** A running system *)

(** Another service records a signing request. *)
Definition requested (s : SettlementService W) (k customer : string) : SettlementService W :=
  {| store := {| signing_requests := <[ k := customer ]> (signing_requests (store s));
                 settlements := settlements (store s) |};
     chains := chains s; metrics := metrics s |}.

Record system := { service : SettlementService W; trackers : list tracker }.

Inductive step : system -> system -> Prop :=
| step_settled sys at_ req s' settlement :
    Settle (service sys) at_ req = (s', Ok settlement) ->
    step sys {| service := s'; trackers := trackers sys ++ option_list (startTracking s' settlement) |}
| step_refused sys at_ req s' e :
    Settle (service sys) at_ req = (s', Err e) ->
    step sys {| service := s'; trackers := trackers sys |}
| step_running sys before t after w now s' t' :
    trackers sys = before ++ t :: after -> tick (service sys) w now t = (s', Running t') ->
    step sys {| service := s'; trackers := before ++ t' :: after |}
| step_finished sys before t after w now s' final :
    trackers sys = before ++ t :: after -> tick (service sys) w now t = (s', Finished final) ->
    step sys {| service := s'; trackers := before ++ after |}
| step_register sys name client s' :
    RegisterChain (service sys) name client = Some s' ->
    step sys {| service := s'; trackers := trackers sys |}
| step_request sys k customer :
    signing_requests (store (service sys)) !! k = None -> customer <> ""%string ->
    step sys {| service := requested (service sys) k customer; trackers := trackers sys |}.
End Service.
Arguments tracker W : clear implicits.
Arguments Progress W : clear implicits.
Arguments system W : clear implicits.

(** ** The running mean *)

Definition noSamples : SettlementMetrics :=
  {| TotalSettlements := 0; SuccessfulSettlements := 0; FailedSettlements := 0; AvgConfirmationTime := 0%Q;
     confirmedSamples := 0 |}.

Definition total (l : list Q) : Q := foldr Qplus 0%Q l.

Lemma total_app l k : (total (l ++ k) == total l + total k)%Q.
Proof. unfold total; induction l as [ | x l IH ]; cbn [foldr app]; [ symmetry; apply Qplus_0_l | rewrite IH; apply Qplus_assoc ]. Qed.

Lemma fold_samples l :
  len l < two63 ->
  confirmedSamples (fold_left recordConfirmationTime l noSamples) = len l /\
  (AvgConfirmationTime (fold_left recordConfirmationTime l noSamples) * inject_Z (len l) == total l)%Q.
Proof.
  induction l as [ | x l IH ] using rev_ind; intros Hl; [ split; reflexivity | ].
  rewrite len_app, len_cons, len_nil in *; destruct IH as [ Hn Ha ]; [ lia | ].
  rewrite fold_left_app; cbn [fold_left recordConfirmationTime confirmedSamples AvgConfirmationTime].
  pose proof (len_nonneg l); rewrite Hn, i64_id by (unfold in_i64, two63 in *; lia).
  split; [ lia | ]; rewrite total_app, <- Ha; cbn [total foldr].
  replace (len l + (1 + 0)) with (len l + 1) by lia; rewrite inject_Z_plus.
  assert (~ inject_Z (len l) + inject_Z 1 == 0)%Q as N
    by (rewrite <- inject_Z_plus; unfold inject_Z, Qeq; cbn; lia).
  field; exact N.
Qed.

(** The reported confirmation time is the mean: after any sequence of
    measurements, the running average times their number is their sum. *)
Theorem confirmation_time_is_mean samples :
  0 < len samples < two63 ->
  (AvgConfirmationTime (fold_left recordConfirmationTime samples noSamples)
   == total samples / inject_Z (len samples))%Q.
Proof.
  intros [ H0 H ]; destruct (fold_samples samples H) as [ _ <- ].
  field; unfold inject_Z, Qeq; cbn; lia.
Qed.

Lemma confirmation_time_is_mean_witness :
  (AvgConfirmationTime (fold_left recordConfirmationTime [ 10 # 1; 20 # 1; 60 # 1 ]%Q noSamples) == 30 # 1)%Q.
Proof. rewrite (confirmation_time_is_mean [ 10 # 1; 20 # 1; 60 # 1 ]%Q); [ reflexivity | split; reflexivity ]. Defined.

(** ** Following a transaction to its end *)

(** A client whose status call returns. *)
Class PanicFree {W} (c : ChainClient W) : Prop :=
  status_returns : forall w h, GetTransactionStatus c w h <> Panic.

#[export] Instance ethereum_panic_free {W} keccak (exchange : W -> _) url : PanicFree (EthereumClient keccak exchange url).
Proof.
  intros w h; cbn; unfold EthGetTransactionStatus.
  pose proof (EthRpc.receipt_not_panic (exchange w) url h).
  destruct (EthRpc.TransactionReceipt _ _ _) as [ r | [] | ]; try done; destruct (_ =? 1); done.
Qed.

#[export] Instance bitcoin_panic_free {W} (exchange : W -> _) : PanicFree (BitcoinClient exchange).
Proof.
  intros w h; cbn; unfold BtcGetTransactionStatus, rpcCall; repeat (case_match; cbn; try done).
Qed.

Section Tracking.
Context {W : Type} (available : W -> bool) (uuid : string -> option string) (pgtime : Z -> Z)
  (accepts : settlementRow -> bool).
Abbreviation track := (trackConfirmation available uuid pgtime accepts).

(** The polls that find the transaction confirmed. *)
Definition finds (c : ChainClient W) (hash : string) (wn : W * Z) : Prop :=
  GetTransactionStatus c wn.1 hash = Ok "confirmed"%string.

#[global] Instance finds_dec c hash wn : Decision (finds c hash wn).
Proof.
  unfold finds; destruct (GetTransactionStatus c wn.1 hash) as [ s | | ]; try (right; done).
  destruct (decide (s = "confirmed"%string)); [ left | right ]; congruence.
Defined.

(** How following must end, by the polls alone. *)
Definition verdict (t : tracker W) (ticks : list (W * Z)) : Progress W :=
  let left := Z.to_nat (maxAttempts - attempts t) in
  match list_find (finds (trackClient t) (TransactionHash (tracked t))) (take left ticks) with
  | Some (_, wn) => Finished (confirmed (tracked t) wn.2)
  | None =>
      if decide (left < length ticks)%nat then Finished (timedOut (tracked t))
      else Running {| trackClient := trackClient t; tracked := tracked t;
                      attempts := attempts t + len ticks |}
  end.

Lemma tick_unconfirmed s w now t :
  attempts t < maxAttempts -> PanicFree (trackClient t) ->
  ~ finds (trackClient t) (TransactionHash (tracked t)) (w, now) ->
  tick available uuid pgtime accepts s w now t =
    (s, Running {| trackClient := trackClient t; tracked := tracked t; attempts := attempts t + 1 |}).
Proof.
  intros Ha Hp Hf; unfold tick; replace (_ <=? _) with false by lia; unfold finds in Hf; cbn in Hf.
  destruct (GetTransactionStatus _ _ _) as [ st | | ] eqn:E; [ | done | exfalso; eapply Hp, E ].
  destruct (String.eqb_spec st "confirmed"); [ subst; done | done ].
Qed.

Lemma track_verdict ticks : forall s t,
  0 <= attempts t <= maxAttempts -> PanicFree (trackClient t) -> snd (track s ticks t) = verdict t ticks.
Proof.
  induction ticks as [ | [ w now ] ticks IH ]; intros s t Ha Hp; unfold verdict.
  { rewrite take_nil; cbn; rewrite decide_False by lia; rewrite (@len_nil (W * Z)), Z.add_0_r; destruct t; done. }
  cbn [trackConfirmation]; destruct (decide (attempts t = maxAttempts)) as [ E | E ].
  { unfold tick; rewrite E, Z.leb_refl, Z.sub_diag; cbn; rewrite decide_True by lia; done. }
  replace (Z.to_nat (maxAttempts - attempts t)) with (S (Z.to_nat (maxAttempts - (attempts t + 1))))
    by (unfold maxAttempts in *; lia); cbn [firstn list_find].
  case_decide as F.
  - unfold tick; replace (_ <=? _) with false by (unfold maxAttempts in *; lia); unfold finds in F; cbn in F.
    rewrite F; done.
  - rewrite tick_unconfirmed by (done || lia).
    rewrite IH by (cbn; done || lia); unfold verdict; cbn [attempts trackClient tracked].
    destruct (list_find _ _) as [ [ i wn ] | ]; cbn; [ done | ].
    rewrite len_cons; repeat case_decide; try lia; try done; do 2 f_equal; lia.
Qed.
End Tracking.

(** C18.  Following a broadcast transaction ends within 121 ticks, whatever
    the node answers in between: with the first of the first 120 polls that
    reports it confirmed, and "timeout" when none of them does.  In
    particular a transaction the node reports "failed" (mined and reverted) at
    every poll is recorded as "timeout". *)
Theorem tracking_decides {W} (available : W -> bool) uuid pgtime accepts s ticks (t : tracker W) :
  attempts t = 0 -> PanicFree (trackClient t) -> (121 <= length ticks)%nat ->
  snd (trackConfirmation available uuid pgtime accepts s ticks t) =
  Finished (match list_find (finds (trackClient t) (TransactionHash (tracked t))) (take 120 ticks) with
            | Some (_, (_, now)) => confirmed (tracked t) now
            | None => timedOut (tracked t)
            end).
Proof.
  intros Ha Hp Hl; rewrite track_verdict by (done || unfold maxAttempts; lia).
  unfold verdict; rewrite Ha; replace (Z.to_nat (maxAttempts - 0)) with 120%nat by reflexivity.
  destruct (list_find _ _) as [ [ i [ w now ] ] | ]; [ done | ]; rewrite decide_True by lia; done.
Qed.

(** ** What the ledger keeps *)

(** Same payment; the status moved at most to one of the two final ones. *)
Definition row_kept (r r' : settlementRow) : Prop :=
  rowSigning r' = rowSigning r /\ rowCustomer r' = rowCustomer r /\ rowBlockchain r' = rowBlockchain r /\
  rowHash r' = rowHash r /\ rowGas r' = rowGas r /\ rowBroadcasted r' = rowBroadcasted r /\
  rowCreated r' = rowCreated r /\
  (rowStatus r' = rowStatus r \/ rowStatus r' = "confirmed"%string \/ rowStatus r' = "timeout"%string).

#[global] Instance row_kept_preorder : PreOrder row_kept.
Proof.
  split; [ intros r; unfold row_kept; split_and!; auto | ].
  intros a b c (?&?&?&?&?&?&?&?) (?&?&?&?&?&?&?&Hs); unfold row_kept; split_and!; try congruence.
  destruct Hs as [ -> | Hs ]; auto.
Qed.

Definition ledger_kept (d d' : db) : Prop :=
  (forall i r, settlements d !! i = Some r -> exists r', settlements d' !! i = Some r' /\ row_kept r r') /\
  (forall k c, signing_requests d !! k = Some c -> signing_requests d' !! k = Some c).

#[global] Instance ledger_kept_preorder : PreOrder ledger_kept.
Proof.
  split; [ intros d; split; [ intros i r H; exists r; split; [ done | reflexivity ] | done ] | ].
  intros a b c [ H1 K1 ] [ H2 K2 ]; split; [ | auto ]; intros i r Hi.
  destruct (H1 _ _ Hi) as (r1 & Hr1 & Hk1); destruct (H2 _ _ Hr1) as (r2 & Hr2 & Hk2).
  exists r2; split; [ done | by etransitivity ].
Qed.

(** Every settlement belongs to the customer of its signing request. *)
Definition ledger_owned (d : db) : Prop :=
  (forall k c, signing_requests d !! k = Some c -> c <> ""%string) /\
  (forall i r, settlements d !! i = Some r ->
     exists k c, rowSigning r = Some k /\ signing_requests d !! k = Some c /\ rowCustomer r = Some c).

Lemma nullString_some c : c <> ""%string -> nullString c = Some c.
Proof. unfold nullString; destruct (String.eqb_spec c ""); done. Qed.

Section Ledger.
Context {W : Type} (available : W -> bool) (uuid : string -> option string) (pgtime : Z -> Z)
  (accepts : settlementRow -> bool) (errText : ClientErr -> string).
Abbreviation Create := (CreateSettlement available uuid pgtime accepts).
Abbreviation Update := (UpdateSettlement available uuid pgtime accepts).
Abbreviation SettleHere := (Settle available uuid pgtime accepts errText).
Abbreviation Step := (step available uuid pgtime accepts errText).

(** A stored settlement has a signing request, and its customer. *)
Lemma Create_ok w d s d' :
  Create w d s = Ok d' -> SigningID s <> ""%string ->
  exists i k c row, d' = with_settlements d (<[ i := row ]> (settlements d)) /\
    uuid (SettlementID s) = Some i /\ uuid (SigningID s) = Some k /\
    signing_requests d !! k = Some c /\ settlements d !! i = None /\
    rowSigning row = Some k /\ rowCustomer row = nullString c /\ rowStatus row = Status s.
Proof.
  unfold CreateSettlement, resolveCustomerIDForSigningRequest, insertRow; intros H Hne.
  destruct (available w); cbn in H; [ | done ].
  destruct (uuid (SigningID s)) as [ k | ] eqn:Uk; cbn in H; [ | done ].
  apply String.eqb_neq in Hne; rewrite Hne in H.
  destruct (uuid (SettlementID s)) as [ i | ] eqn:Ui; [ | done ]; cbn zeta in H; pass_guards H; b2p.
  destruct (signing_requests d !! k) as [ c | ] eqn:Ek; [ | by destruct (is_Some_None (A := string)) ].
  injection H as <-; exists i, k, c; eexists; split_and!; [ reflexivity | auto .. ].
  destruct (settlements d !! i) eqn:Ei; [ | done ]; exfalso; eauto.
Qed.

Lemma Create_kept w d s d' : Create w d s = Ok d' -> SigningID s <> ""%string -> ledger_kept d d'.
Proof.
  intros H Hne; destruct (Create_ok _ _ _ _ H Hne) as (i & k & c & row & -> & _ & _ & _ & Hi & _ & _ & _).
  split; [ | done ]; cbn; intros j r Hj; exists r; split; [ | reflexivity ].
  rewrite lookup_insert_ne by congruence; done.
Qed.

Lemma Create_owned w d s d' :
  Create w d s = Ok d' -> SigningID s <> ""%string -> ledger_owned d -> ledger_owned d'.
Proof.
  intros H Hne [ Hc Ho ]; destruct (Create_ok _ _ _ _ H Hne) as (i & k & c & row & -> & _ & _ & Hk & _ & Hs & Hr & _).
  split; [ done | ]; cbn; intros j r Hj; destruct (decide (i = j)) as [ <- | N ].
  - rewrite lookup_insert_eq in Hj; injection Hj as <-.
    exists k, c; rewrite Hr, nullString_some; eauto.
  - rewrite lookup_insert_ne in Hj by done; eauto.
Qed.

Lemma Update_ok w d s d' :
  Update w d s = Ok d' ->
  exists i r, uuid (SettlementID s) = Some i /\ settlements d !! i = Some r /\
    d' = with_settlements d (<[ i := updatedRow pgtime r s ]> (settlements d)).
Proof.
  unfold UpdateSettlement; intros H; destruct (resolveCustomerIDForSettlement _ _ _ _ _); cbn in H; [ | done | done ].
  destruct (uuid (SettlementID s)) as [ i | ]; [ | done ]; destruct (settlements d !! i) as [ r | ] eqn:E; [ | done ].
  pass_guards H; injection H as <-; eauto 10.
Qed.

Lemma Update_kept w d s d' :
  Update w d s = Ok d' -> Status s = "confirmed"%string \/ Status s = "timeout"%string -> ledger_kept d d'.
Proof.
  intros H Hs; destruct (Update_ok _ _ _ _ H) as (i & r0 & _ & Hi & ->); split; [ | done ]; cbn.
  intros j r Hj; destruct (decide (i = j)) as [ <- | N ].
  - rewrite Hi in Hj; injection Hj as ->; eexists; split; [ apply lookup_insert_eq | ].
    unfold row_kept; cbn; split_and!; tauto.
  - exists r; rewrite lookup_insert_ne by done; split; [ done | reflexivity ].
Qed.

Lemma Update_owned w d s d' : Update w d s = Ok d' -> ledger_owned d -> ledger_owned d'.
Proof.
  intros H [ Hc Ho ]; destruct (Update_ok _ _ _ _ H) as (i & r0 & _ & Hi & ->); split; [ done | ]; cbn.
  intros j r Hj; destruct (decide (i = j)) as [ <- | N ].
  - rewrite lookup_insert_eq in Hj; injection Hj as <-; apply (Ho _ _ Hi).
  - rewrite lookup_insert_ne in Hj by done; eauto.
Qed.

(** What a [Settle] call does to the store is one [CreateSettlement]. *)
Lemma Settle_store s at_ req s' r :
  SettleHere s at_ req = (s', r) ->
  store s' = store s \/
  exists st, SigningID st = reqSigningID req /\ reqSigningID req <> ""%string /\
    Create (atStore at_) (store s) st = Ok (store s').
Proof.
  unfold Settle; intros H.
  destruct (String.eqb_spec (reqSigningID req) ""); cbn in H; [ simplify_eq; auto | ].
  destruct (_ || _); [ simplify_eq; auto | ]; destruct (chains s !! _) as [ client | ]; [ | simplify_eq; auto ].
  destruct (gasFor _ _ _); [ | simplify_eq; auto .. ].
  destruct (BroadcastTransaction _ _ _); [ | | simplify_eq; auto ]; simplify_eq; unfold stored;
    match goal with |- context [ CreateSettlement _ _ _ _ ?w ?d ?st ] =>
      destruct (CreateSettlement available uuid pgtime accepts w d st) as [ d' | | ] eqn:E; cbn in *; auto;
      right; exists st; auto end.
Qed.

Lemma tick_store s w now t s' p :
  tick available uuid pgtime accepts s w now t = (s', p) ->
  store s' = store s \/
  exists st, (Status st = "confirmed"%string \/ Status st = "timeout"%string) /\
    Update w (store s) st = Ok (store s').
Proof.
  unfold tick; intros H; destruct (_ <=? _); [ | destruct (GetTransactionStatus _ _ _); [ | simplify_eq; auto .. ] ].
  2: destruct (String.eqb _ "confirmed"); [ | simplify_eq; auto ].
  all: simplify_eq; unfold stored;
    match goal with |- context [ UpdateSettlement _ _ _ _ ?w ?d ?st ] =>
      destruct (UpdateSettlement available uuid pgtime accepts w d st) as [ d' | | ] eqn:E; cbn in *; auto;
      right; exists st; auto end.
Qed.

Lemma step_ledger sys sys' :
  Step sys sys' -> ledger_kept (store (service sys)) (store (service sys')) /\
  (ledger_owned (store (service sys)) -> ledger_owned (store (service sys'))).
Proof.
  assert (forall s at_ req s' r, SettleHere s at_ req = (s', r) ->
    ledger_kept (store s) (store s') /\ (ledger_owned (store s) -> ledger_owned (store s'))) as HS.
  { intros s at_ req s' r H; apply Settle_store in H as [ -> | (st & Es & Hn & H) ]; [ split; [ reflexivity | done ] | ].
    rewrite <- Es in Hn; split; [ eauto using Create_kept | eauto using Create_owned ]. }
  assert (forall s w now t s' p, tick available uuid pgtime accepts s w now t = (s', p) ->
    ledger_kept (store s) (store s') /\ (ledger_owned (store s) -> ledger_owned (store s'))) as HT.
  { intros s w now t s' p H; apply tick_store in H as [ -> | (st & Hs & H) ]; [ split; [ reflexivity | done ] | ].
    split; [ eauto using Update_kept | eauto using Update_owned ]. }
  destruct 1 as [ | | | | sys name [ c | ] s' H | sys k customer Hk Hc ]; cbn; eauto.
  - cbn in H; injection H as <-; split; [ reflexivity | done ].
  - done.
  - split.
    + split; cbn; [ intros i r Hi; exists r; split; [ done | reflexivity ] | ].
      intros j c Hj; rewrite lookup_insert_ne by congruence; done.
    + intros [ Ha Ho ]; split; cbn; [ intros j c; destruct (decide (k = j)) as [ <- | N ] | intros i r Hi ].
      * rewrite lookup_insert_eq; congruence.
      * rewrite lookup_insert_ne by done; eauto.
      * destruct (Ho _ _ Hi) as (j & c & A & B & C); exists j, c; split_and!; auto.
        rewrite lookup_insert_ne by congruence; done.
Qed.

(** C17.  The settlement ledger, under every interleaving of requests,
    polls and registrations: no record is lost, the payment a record names
    (signing request, customer, chain, transaction hash, gas, times of
    creation and broadcast) never changes, its status moves only to
    "confirmed" or "timeout", and every record belongs to the customer of its
    signing request: none is ever stored without an owner. *)
Theorem settlement_ledger_invariant sys sys' :
  rtc Step sys sys' -> ledger_owned (store (service sys)) ->
  ledger_owned (store (service sys')) /\
  ledger_kept (store (service sys)) (store (service sys')).
Proof.
  induction 1 as [ sys | a b c Hab _ IH ]; intros Ho; [ split; [ done | reflexivity ] | ].
  apply step_ledger in Hab as [ Hk Hn ]; destruct (IH (Hn Ho)) as [ H1 H2 ].
  split; [ done | by etransitivity ].
Qed.

(** A settlement whose signing request is not on record is broadcast
    all the same and leaves no trace: the insert violates the reference to
    [signing_requests], the failure is only logged, and the caller is told it
    succeeded. *)
Theorem unknown_signing_request_unrecorded s at_ req s' st :
  SettleHere s at_ req = (s', Ok st) ->
  (forall k, uuid (reqSigningID req) = Some k -> signing_requests (store s) !! k = None) ->
  store s' = store s /\
  exists client, chains s !! reqBlockchain req = Some client /\
    BroadcastTransaction client (atBroadcast at_) (to_bytes (SignedTransaction req)) = Ok (TransactionHash st).
Proof.
  intros H Hu; split.
  - apply Settle_store in H as [ ? | (st' & Es & Hn & H) ]; [ done | ]; rewrite <- Es in Hn.
    apply Create_ok in H as (i & k & c & row & _ & _ & Uk & Hk & _); [ | done ].
    rewrite Es in Uk; apply Hu in Uk; congruence.
  - unfold Settle in H; destruct (_ || _); [ done | ]; destruct (chains s !! _) as [ client | ]; [ | done ].
    exists client; split; [ done | ]; destruct (gasFor _ _ _); [ | done .. ].
    destruct (BroadcastTransaction _ _ _); simplify_eq; done.
Qed.

(** The database can take this settlement: it is up, the ids are uuids, the
    signing request is known, the id is fresh and the columns fit. *)
Record recordable (s : SettlementService W) (at_ : Instants W) (req : SettlementRequest) (st : Settlement)
    (i k c : string) : Prop := {
  rec_up : available (atStore at_) = true;
  rec_id : uuid (freshID at_) = Some i;
  rec_signing : uuid (reqSigningID req) = Some k;
  rec_owner : signing_requests (store s) !! k = Some c;
  rec_owner_id : c <> ""%string;
  rec_fresh : settlements (store s) !! i = None;
  rec_gas : 0 <= GasUsed st < two63;
  rec_fits : forall r, accepts r = true;
}.

(** What the database hands back for a settlement just recorded. *)
Definition readBack (i k : string) (st : Settlement) : Settlement :=
  {| SettlementID := i; SigningID := k; CustomerID := ""; Blockchain := Blockchain st;
     TransactionHash := TransactionHash st; Status := Status st; GasUsed := GasUsed st; ConfirmationTime := 0;
     BroadcastedAt := pgtime <$> BroadcastedAt st; ConfirmedAt := None; ErrorMessage := ErrorMessage st;
     CreatedAt := pgtime (CreatedAt st) |}.

(** The settlement a call ended with, sent or refused by the chain. *)
Definition settlementOf (r : result SettleErr Settlement) : option Settlement :=
  match r with Ok st => Some st | Err (BroadcastFailed st _) => Some st | _ => None end.

Lemma nullZero_read g : 0 <= g < two63 -> u64 (default 0 (nullZeroUint64 g)) = g.
Proof.
  unfold nullZeroUint64; intros H; destruct (Z.eqb_spec g 0); cbn; [ subst; reflexivity | ].
  apply u64_id; unfold in_u64, two64, two63 in *; lia.
Qed.

Lemma nullZero_argument g : g < two63 -> argument (nullZeroUint64 g) = true.
Proof. unfold nullZeroUint64; intros H; destruct (g =? 0); cbn; [ done | lia ]. Qed.

(** What the settlement a call ended with says. *)
Lemma Settle_settlement s at_ req s' r st :
  SettleHere s at_ req = (s', r) -> settlementOf r = Some st ->
  SettlementID st = freshID at_ /\ SigningID st = reqSigningID req /\ reqSigningID req <> ""%string /\
  allowedStatus (Status st) = true /\
  store s' = match Create (atStore at_) (store s) st with Ok d => d | _ => store s end.
Proof.
  unfold Settle; intros H Hr.
  destruct (String.eqb_spec (reqSigningID req) ""); cbn [orb] in H; [ simplify_eq; done | ].
  destruct (_ || _); [ simplify_eq; done | ]; destruct (chains s !! _); [ | simplify_eq; done ].
  destruct (gasFor _ _ _) eqn:G; [ | simplify_eq | simplify_eq; done ].
  2: { unfold gasFor in G; repeat case_match; done. }
  destruct (BroadcastTransaction _ _ _); simplify_eq; cbn in Hr; simplify_eq; cbn [store with_metrics stored];
    unfold stored; split_and!; auto; case_match; reflexivity.
Qed.

Lemma Create_recordable s at_ req st i k c :
  recordable s at_ req st i k c -> SettlementID st = freshID at_ -> SigningID st = reqSigningID req ->
  reqSigningID req <> ""%string -> allowedStatus (Status st) = true ->
  exists row, Create (atStore at_) (store s) st = Ok (with_settlements (store s) (<[ i := row ]> (settlements (store s)))) /\
    rowCustomer row = Some c /\
    readRow i row = readBack i k st.
Proof.
  intros [] Ei Es Hn Ha; unfold CreateSettlement, resolveCustomerIDForSigningRequest, insertRow.
  rewrite rec_up0, Es, Ei, rec_signing0; cbn [result_bind]; rewrite rec_id0, rec_owner0.
  apply String.eqb_neq in Hn; rewrite Hn; cbn [fmap option_fmap option_map default].
  eexists; cbn [rowGas]; rewrite nullZero_argument, !rec_fits0 by lia; cbn [rowStatus]; rewrite Ha, rec_owner0, rec_fresh0.
  rewrite bool_decide_true by eauto; rewrite bool_decide_false by (apply is_Some_None).
  split; [ reflexivity | split; [ cbn; apply nullString_some; done | ] ].
  unfold readRow, readBack; cbn; f_equal; apply nullZero_read; lia.
Qed.

Context (newest_first : list (string * settlementRow) -> list (string * settlementRow)).

(** What was sent, and what the chain refused, can be looked up: after
    a [Settle] that reached the chain, with a database that can take the
    record, the settlement reads back under its id with the hash and status
    it was returned with (or the chain's error), and it appears in its
    customer's list. *)
Theorem settlement_is_recorded s at_ req s' r st i k c w :
  SettleHere s at_ req = (s', r) -> settlementOf r = Some st -> recordable s at_ req st i k c ->
  available w = true -> uuid c = Some c -> (forall l, Permutation (newest_first l) l) ->
  HandleGetSettlement available uuid s' w (freshID at_) =
    (if String.eqb (freshID at_) "" then (400, None) else (200, Some (readBack i k st))) /\
  exists l, ListSettlements available uuid newest_first w (store s') c = Ok l /\ readBack i k st ∈ l.
Proof.
  intros H Hr Hrec Hw Hc Hp; apply Settle_settlement with (st := st) in H as (Ei & Es & Hn & Ha & Hs); [ | done ].
  destruct (Create_recordable _ _ _ _ _ _ _ Hrec Ei Es Hn Ha) as (row & Hrow & Hcust & Hread).
  rewrite Hrow in Hs; destruct Hrec; split.
  - unfold HandleGetSettlement; destruct (String.eqb _ _); [ done | ].
    unfold dbGetSettlement, resolveCustomerIDForSettlement; rewrite Hw, rec_id0, Hs; cbn [settlements with_settlements].
    rewrite lookup_insert_eq; cbn [result_bind]; rewrite Hcust.
    unfold visible; rewrite Hcust; cbn [default]; rewrite nullString_some, String.eqb_refl, Hread by done; done.
  - unfold ListSettlements; rewrite Hw, Hc, Hs; eexists; split; [ done | ].
    rewrite <- Hread; apply list_elem_of_fmap; exists (i, row); split; [ done | ].
    rewrite Hp; apply list_elem_of_filter; split; [ done | ].
    apply elem_of_map_to_list; apply lookup_insert_eq.
Qed.
End Ledger.

(** ** The transaction as text *)

Lemma hex_text_bytes raw : exists tl, to_bytes ("0x" +:+ hex_encode raw) = 48 :: 120 :: tl /\ length tl = (2 * length raw)%nat.
Proof.
  exists (to_bytes (hex_encode raw)); split; [ reflexivity | ].
  pose proof (slen_to_bytes (hex_encode raw)) as L; unfold slen, len in L; rewrite hex_encode_length in L; lia.
Qed.

(** A transaction given as hexadecimal text never reaches the network:
    [Settle] passes the text's own bytes on, so the node is sent the text
    encoded once more, which is not the transaction and does not even decode as
    one, and the hash on record is the text's. *)
Theorem hex_text_is_not_the_transaction {W} (available : W -> bool) uuid pgtime accepts errText keccak exchange url
    s at_ req raw s' st :
  chains s !! reqBlockchain req = Some (EthereumClient keccak exchange url) ->
  SignedTransaction req = "0x" +:+ hex_encode raw ->
  Settle available uuid pgtime accepts errText s at_ req = (s', Ok st) ->
  exists sent reply,
    EthRpc.call (exchange (atBroadcast at_)) url "eth_sendRawTransaction" [ EthRpc.JStr ("0x" +:+ hex_encode sent) ]
      = Ok (EthRpc.JStr reply) /\
    sent <> raw /\ EthTx.DecodeSignedTransaction keccak sent = Err (EthTx.UnsupportedType 48) /\
    TransactionHash st = "0x" +:+ hex_encode (EthTx.TransactionHash keccak sent).
Proof.
  intros Hc Ht H; unfold Settle in H; destruct (_ || _); [ done | ]; rewrite Hc, Ht in H.
  destruct (gasFor _ _ _); [ | done .. ]; cbn [BroadcastTransaction EthereumClient] in H.
  destruct (hex_text_bytes raw) as (tl & E & L); exists (to_bytes ("0x" +:+ hex_encode raw)).
  unfold EthBroadcastTransaction, EthRpc.SendRawTransaction in H.
  unfold has_prefix in H; rewrite strip_prefix_app in H; cbn zeta in H.
  destruct (EthRpc.call _ _ _ _) as [ [ | reply | | | | ] | | ] eqn:Ec; cbn in H; try done.
  injection H as _ <-; exists reply; split_and!; [ done | | rewrite E; reflexivity | reflexivity ].
  intros X; apply (f_equal length) in X; rewrite E in X; cbn in X; lia.
Qed.

(** ** Sample values *)

Definition sampleUuid (s : string) : option string := nullString s.
Definition sampleTime (t : Z) : Z := t / 1000 * 1000.
Definition sampleText (_ : ClientErr) : string := "refused".

(** A chain that confirms from its third instant on. *)
Definition sampleChain : ChainClient nat :=
  {| BroadcastTransaction _ _ := Ok "0xhash"%string;
     GetTransactionStatus w _ := if (3 <=? w)%nat then Ok "confirmed"%string else Ok "pending"%string;
     EstimateGas _ _ := Ok 21000 |}.

#[export] Instance sample_panic_free : PanicFree sampleChain.
Proof. intros w h; cbn; case_match; done. Qed.

Definition sampleService : SettlementService nat :=
  {| store := {| signing_requests := {[ "sign-1" := "acme" ]}%string; settlements := ∅ |};
     chains := {[ "ethereum"%string := sampleChain ]}; metrics := noSamples |}.
Definition sampleInstants : Instants nat :=
  {| atGas := 0%nat; atBroadcast := 0%nat; atStore := 0%nat; freshID := "set-1"; created := 5000; broadcastedNow := 6000 |}.
Definition sampleRequest (signing : string) : SettlementRequest :=
  {| reqSigningID := signing; reqBlockchain := "ethereum"; SignedTransaction := "0xdeadbeef" |}.

Definition sampleSettled (signing : string) : Settlement :=
  broadcastSettlement (pendingSettlement (sampleRequest signing) sampleInstants 21000) "0xhash" 6000.
Abbreviation sampleSettle signing :=
  (Settle (fun _ => true) sampleUuid sampleTime (fun _ => true) sampleText sampleService sampleInstants
     (sampleRequest signing)).

Definition sampleTracker : tracker nat :=
  {| trackClient := sampleChain; tracked := sampleSettled "sign-1"; attempts := 0 |}.
Definition sampleTicks : list (nat * Z) := (fun i => (i, 1000000000 * Z.of_nat i)) <$> seq 0 121.

Lemma tracking_decides_witness :
  snd (trackConfirmation (fun _ => true) sampleUuid sampleTime (fun _ => true) sampleService sampleTicks sampleTracker)
  = Finished (confirmed (sampleSettled "sign-1") 3000000000).
Proof.
  rewrite (tracking_decides (fun _ => true) sampleUuid sampleTime (fun _ => true) sampleService sampleTicks sampleTracker).
  - vm_compute; reflexivity.
  - reflexivity.
  - apply sample_panic_free.
  - vm_compute; lia.
Defined.

Lemma sample_owned : ledger_owned (store sampleService).
Proof.
  split; cbn; [ | intros i r H; rewrite lookup_empty in H; done ].
  intros k c H; apply lookup_singleton_Some in H as [ _ <- ]; done.
Qed.

Lemma settlement_ledger_invariant_witness :
  ledger_owned (store (fst (sampleSettle "sign-1"))) /\
  ledger_kept (store sampleService) (store (fst (sampleSettle "sign-1"))).
Proof.
  apply (settlement_ledger_invariant (fun _ => true) sampleUuid sampleTime (fun _ => true) sampleText
    {| service := sampleService; trackers := [] |}
    {| service := fst (sampleSettle "sign-1"); trackers := [ sampleTracker ] |}).
  - apply rtc_once.
    apply (step_settled _ _ _ _ _ {| service := sampleService; trackers := [] |} sampleInstants
      (sampleRequest "sign-1") (fst (sampleSettle "sign-1")) (sampleSettled "sign-1")); reflexivity.
  - apply sample_owned.
Defined.

Lemma unknown_signing_request_unrecorded_witness :
  store (fst (sampleSettle "sign-2")) = store sampleService.
Proof.
  apply (unknown_signing_request_unrecorded (fun _ => true) sampleUuid sampleTime (fun _ => true) sampleText
    sampleService sampleInstants (sampleRequest "sign-2") (fst (sampleSettle "sign-2")) (sampleSettled "sign-2")).
  - reflexivity.
  - intros k E; vm_compute in E; injection E as <-; reflexivity.
Defined.

Lemma settlement_is_recorded_witness :
  HandleGetSettlement (fun _ => true) sampleUuid (fst (sampleSettle "sign-1")) 1%nat "set-1"
  = (200, Some (readBack sampleTime "set-1" "sign-1" (sampleSettled "sign-1"))).
Proof.
  apply (settlement_is_recorded (fun _ => true) sampleUuid sampleTime (fun _ => true) sampleText (fun l => l)
    sampleService sampleInstants (sampleRequest "sign-1") (fst (sampleSettle "sign-1")) (Ok (sampleSettled "sign-1"))
    (sampleSettled "sign-1") "set-1" "sign-1" "acme" 1%nat); try reflexivity.
  constructor; try reflexivity; [ discriminate | cbn; unfold two63; lia ].
Defined.

(** A node that takes whatever it is sent. *)
Definition sampleExchange (_ : unit) (_ : string) (_ : EthRpc.rpcRequest) : option (Z * option EthRpc.rpcResponse) :=
  Some (200, Some {| EthRpc.Result := Some (EthRpc.JStr "0xreply"); EthRpc.Error := None |}).
Definition sampleEthereum : SettlementService unit :=
  {| store := {| signing_requests := ∅; settlements := ∅ |};
     chains := {[ "ethereum"%string := EthereumClient EthTx.sample_keccak sampleExchange "http://node" ]};
     metrics := noSamples |}.
Definition ethInstants : Instants unit :=
  {| atGas := tt; atBroadcast := tt; atStore := tt; freshID := "set-1"; created := 5000; broadcastedNow := 6000 |}.

Lemma hex_text_is_not_the_transaction_witness :
  exists sent : bytes, sent <> [ 222; 173; 190; 239 ] /\
    EthTx.DecodeSignedTransaction EthTx.sample_keccak sent = Err (EthTx.UnsupportedType 48).
Proof.
  destruct (Settle (fun _ => true) sampleUuid sampleTime (fun _ => true) sampleText sampleEthereum ethInstants
    (sampleRequest "sign-1")) as [ s' r ] eqn:E.
  assert (snd (Settle (fun _ => true) sampleUuid sampleTime (fun _ => true) sampleText sampleEthereum ethInstants
    (sampleRequest "sign-1")) = r) as Er by (rewrite E; reflexivity).
  destruct r as [ st | e | ]; [ | vm_compute in Er; discriminate Er .. ].
  destruct (hex_text_is_not_the_transaction (fun _ => true) sampleUuid sampleTime (fun _ => true) sampleText
    EthTx.sample_keccak sampleExchange "http://node" sampleEthereum ethInstants (sampleRequest "sign-1")
    [ 222; 173; 190; 239 ] s' st) as (sent & reply & _ & N & D & _).
  - apply lookup_singleton_eq.
  - vm_compute; reflexivity.
  - exact E.
  - exists sent; split; [ exact N | exact D ].
Defined.

End Settlement.
