(* ===== verification/GoPath.v ===== *)
(** * File paths

    What the sources use of [path/filepath] on a system whose separator is
    [/]: [Clean], [Join], [Dir], [Abs], and the name [os.CreateTemp] forms; and
    [strings.ContainsAny].  A path is taken apart into its components. *)

From Stdlib Require Import ZArith Lia Ascii String.
From stdpp Require Import base list numbers strings pretty.
From S2P Require Import Prelude GoStrings.

Open Scope Z_scope.

Module GoPath.

Definition slash : ascii := "/"%char.

(** [strings.Split(s, "/")] *)
Fixpoint split_slash (s : string) : list string :=
  match s with
  | EmptyString => [ EmptyString ]
  | String c r =>
      if Ascii.eqb c slash then EmptyString :: split_slash r
      else match split_slash r with
           | [] => [ String c EmptyString ]
           | h :: t => String c h :: t
           end
  end.

(** [strings.Join(l, "/")] *)
Fixpoint join_slash (l : list string) : string :=
  match l with
  | [] => EmptyString
  | s :: r => match r with [] => s | _ => s +:+ String slash (join_slash r) end
  end.

Fixpoint contains (p : ascii -> bool) (s : string) : bool :=
  match s with EmptyString => false | String c r => p c || contains p r end.

(** [strings.ContainsAny] *)
Definition contains_any (chars s : string) : bool :=
  contains (fun c => contains (Ascii.eqb c) chars) s.

(** One component on the stack of those kept so far, last first: a dot goes
    away, a double dot takes its predecessor with it. *)
Definition clean_push (rooted : bool) (stack : list string) (c : string) : list string :=
  if String.eqb c "" || String.eqb c "." then stack
  else if String.eqb c ".." then
    match stack with
    | [] => if rooted then [] else [ c ]
    | top :: rest => if String.eqb top ".." then c :: stack else rest
    end
  else c :: stack.

Definition components (s : string) : list string :=
  rev (foldl (clean_push (has_prefix "/" s)) [] (split_slash s)).

Definition render (rooted : bool) (l : list string) : string :=
  if rooted then String slash (join_slash l)
  else match l with [] => "." | _ => join_slash l end.

(** [filepath.Clean] *)
Definition Clean (s : string) : string := render (has_prefix "/" s) (components s).

(** [filepath.Join]: empty leading elements are skipped. *)
Fixpoint Join (l : list string) : string :=
  match l with
  | [] => EmptyString
  | s :: r => if String.eqb s "" then Join r else Clean (join_slash (s :: r))
  end.

(** [path[:lastSlash+1]] *)
Fixpoint upto_slash (s : string) : string :=
  match s with
  | EmptyString => EmptyString
  | String c r =>
      if contains (Ascii.eqb slash) s then String c (upto_slash r) else EmptyString
  end.

(** [filepath.Dir] *)
Definition Dir (s : string) : string := Clean (upto_slash s).

(** [filepath.Abs], given the working directory, when there is one. *)
Definition Abs (cwd : option string) (s : string) : option string :=
  if has_prefix "/" s then Some (Clean s) else (fun d => Join [ d; s ]) <$> cwd.

(** The name [os.CreateTemp(dir, prefix+"*")] tries for a random number. *)
Definition temp_name (dir prefix : string) (rnd : Z) : string :=
  (if Ascii.eqb (default " "%char (String.get (String.length dir - 1) dir)) slash then dir
   else dir +:+ String slash EmptyString) +:+ prefix +:+ show_int rnd.

(** ** Facts *)

Abbreviation no_slash s := (contains (Ascii.eqb slash) s = false).

Lemma sapp_cancel_l (a b c : string) : a +:+ b = a +:+ c -> b = c.
Proof. induction a as [ | x a IH ]; [ done | rewrite !sapp_cons; intros E; injection E; auto ]. Qed.

Lemma sapp_assoc (a b c : string) : (a +:+ b) +:+ c = a +:+ (b +:+ c).
Proof. induction a as [ | x a IH ]; [ done | rewrite !sapp_cons, IH; done ]. Qed.

Lemma sapp_length (a b : string) : String.length (a +:+ b) = (String.length a + String.length b)%nat.
Proof. induction a as [ | x a IH ]; [ done | rewrite sapp_cons; cbn; rewrite IH; done ]. Qed.

Lemma contains_app p a b : contains p (a +:+ b) = contains p a || contains p b.
Proof. induction a as [ | x a IH ]; [ done | ]; rewrite sapp_cons; cbn; rewrite IH, orb_assoc; done. Qed.

Lemma split_slash_ne s : split_slash s <> [].
Proof. destruct s as [ | c s ]; cbn; [ done | ]; destruct (Ascii.eqb _ _); [ done | ]; destruct (split_slash s); done. Qed.

Lemma split_slash_app a b : split_slash (a +:+ String slash b) = split_slash a ++ split_slash b.
Proof.
  induction a as [ | c a IH ]; [ done | ]; rewrite sapp_cons; cbn [split_slash].
  rewrite IH; destruct (Ascii.eqb c slash); [ done | ].
  pose proof (split_slash_ne a); destruct (split_slash a); done.
Qed.

Lemma split_slash_single s : no_slash s -> split_slash s = [ s ].
Proof.
  induction s as [ | c s IH ]; cbn [split_slash contains]; [ done | ]; intros E.
  apply orb_false_iff in E as [ E1 E2 ]; rewrite IH by done; rewrite Ascii.eqb_sym, E1; done.
Qed.

(** The last components of two equal paths are equal. *)
Lemma last_component a x b y :
  no_slash x -> no_slash y -> a +:+ String slash x = b +:+ String slash y -> a = b /\ x = y.
Proof.
  intros Hx Hy E; assert (split_slash a ++ [ x ] = split_slash b ++ [ y ]) as S
    by (rewrite <- (split_slash_single x Hx), <- (split_slash_single y Hy), <- !split_slash_app, E; done).
  apply app_inj_2 in S as [ _ S ]; [ | done ]; injection S as ->; split; [ | done ].
  revert b E; induction a as [ | c a IH ]; intros [ | d b ] E; rewrite ?sapp_nil, ?sapp_cons in E.
  - done.
  - exfalso; injection E as _ E; revert E Hy; clear; intros -> Hy.
    rewrite contains_app in Hy; cbn in Hy; rewrite orb_true_r in Hy; done.
  - exfalso; injection E as _ E; revert E Hy; clear; intros <- Hy.
    rewrite contains_app in Hy; cbn in Hy; rewrite orb_true_r in Hy; done.
  - injection E as -> E; f_equal; eauto.
Qed.

Lemma join_slash_snoc l x : l <> [] -> join_slash (l ++ [ x ]) = join_slash l +:+ String slash x.
Proof.
  induction l as [ | s l IH ]; [ done | ]; intros _; destruct l as [ | t l ]; [ done | ].
  change (join_slash ((s :: t :: l) ++ [ x ])) with (s +:+ String slash (join_slash ((t :: l) ++ [ x ]))).
  rewrite IH by done.
  change (join_slash (s :: t :: l)) with (s +:+ String slash (join_slash (t :: l))).
  rewrite sapp_assoc, sapp_cons; done.
Qed.

(** A name that [Clean] keeps as it is. *)
Definition plain (c : string) : Prop := no_slash c /\ c <> "" /\ c <> "." /\ c <> "..".

Lemma clean_push_plain rooted st c : plain c -> clean_push rooted st c = c :: st.
Proof.
  intros (_ & H1 & H2 & H3); unfold clean_push.
  destruct (String.eqb_spec c ""), (String.eqb_spec c "."), (String.eqb_spec c ".."); done.
Qed.

(** The directory part of a joined path. *)
Definition under (dir : string) : string :=
  let l := components dir in
  let body := match l with [] => "" | _ => join_slash l +:+ String slash EmptyString end in
  if has_prefix "/" dir then String slash body else body.

Lemma has_prefix_slash_app a b : a <> "" -> has_prefix "/" (a +:+ b) = has_prefix "/" a.
Proof.
  destruct a as [ | c a ]; [ done | ]; rewrite sapp_cons; intros _; unfold has_prefix; cbn.
  repeat case_match; done.
Qed.

(** Joining plain names to a directory appends them. *)
Lemma Join_plain dir a b :
  dir <> "" -> plain a -> plain b -> Join [ dir; a; b ] = under dir +:+ a +:+ String slash b.
Proof.
  intros Hd Ha Hb; unfold Join; replace (String.eqb dir "") with false by (symmetry; apply String.eqb_neq; done).
  change (join_slash [ dir; a; b ]) with (dir +:+ String slash (a +:+ String slash b)).
  unfold Clean, components; rewrite has_prefix_slash_app by done.
  rewrite !split_slash_app, !foldl_app.
  destruct Ha as (Sa & Pa), Hb as (Sb & Pb).
  rewrite (split_slash_single a Sa), (split_slash_single b Sb); cbn [foldl].
  rewrite !clean_push_plain by done; unfold under, components; cbn [rev].
  set (st := rev (foldl _ _ _)); rewrite <- app_assoc; cbn [app]; unfold render.
  assert (join_slash (st ++ [ a; b ]) =
    match st with [] => "" | _ => join_slash st +:+ String slash EmptyString end +:+ a +:+ String slash b) as E.
  { destruct st as [ | s st ]; [ done | ].
    change [ a; b ] with ([ a ] ++ [ b ]); rewrite app_assoc, join_slash_snoc by (destruct st; done).
    rewrite join_slash_snoc by done; rewrite !sapp_assoc; done. }
  rewrite E; destruct (has_prefix "/" dir); [ rewrite sapp_cons; done | ].
  destruct (st ++ [ a; b ]) eqn:N; [ destruct st; done | done ].
Qed.

(** Decimal digits hold neither a slash nor a letter. *)
Lemma contains_pretty_N_go p x s :
  (forall n, (n < 10)%N -> p (pretty_N_char n) = false) ->
  contains p (pretty_N_go x s) = contains p s.
Proof.
  intros Hp; revert s; induction (N.lt_wf_0 x) as [ x _ IH ]; intros s.
  destruct (decide (x = 0)%N) as [ -> | Hx ]; [ rewrite pretty_N_go_0; done | ].
  rewrite pretty_N_go_step by lia; rewrite IH by (apply N.div_lt; lia).
  cbn; rewrite Hp; [ done | apply N.mod_lt; lia ].
Qed.

Lemma contains_show_int p n :
  (forall n, (n < 10)%N -> p (pretty_N_char n) = false) -> p "-"%char = false -> contains p (show_int n) = false.
Proof.
  intros Hp Hm; assert (forall x : N, contains p (pretty x) = false) as HN.
  { intros x; unfold pretty, pretty_N; case_decide; [ | rewrite contains_pretty_N_go; done ].
    cbn [contains]; change "0"%char with (pretty_N_char 0); rewrite Hp by lia; done. }
  unfold show_int, pretty, pretty_Z; destruct n as [ | n | n ]; [ | apply HN | ].
  - cbn [contains]; change "0"%char with (pretty_N_char 0); rewrite Hp by lia; done.
  - change (p "-"%char || contains p (pretty (N.pos n)) = false); rewrite Hm; apply HN.
Qed.

Lemma digit_char_cases (P : ascii -> Prop) n :
  (n < 10)%N -> Forall P ["0";"1";"2";"3";"4";"5";"6";"7";"8";"9"]%char -> P (pretty_N_char n).
Proof.
  intros Hn HF; rewrite !Forall_cons in HF; destruct HF as (? & ? & ? & ? & ? & ? & ? & ? & ? & ? & _).
  destruct n as [ | p ]; [ done | ]; do 4 (try destruct p as [ p | p | ]; try done; try lia).
Qed.

Lemma show_int_no_slash n : no_slash (show_int n).
Proof.
  apply contains_show_int; [ | done ]; intros k Hk.
  apply (digit_char_cases (fun c => Ascii.eqb slash c = false) k Hk); repeat constructor.
Qed.

End GoPath.
