(* ===== verification/KeyShare.v ===== *)
(** * Curves, key shares and their addresses

    Models [services/mpc-party/curve.go] and [cosmos_address.go]: which curve a
    chain's keys live on, the tagged union of the two kinds of share, the public
    key and the address read off a share, and its serialisation.

    The save data of tss-lib, the Edwards and base58 encodings, SHA-256,
    RIPEMD-160, bech32 and Keccak are an interface ([ShareCrypto]); the JSON
    codec of a share is another ([Codec]) whose law is that what it carries
    faithfully it reads back.

    The theorems: a share that was written is read back, and only a share whose
    tag and content agree is; every chain's key has an address, and the address
    is a function of the public key alone. *)

From Stdlib Require Import ZArith Lia Ascii String.
From stdpp Require Import base list numbers strings gmap.
From S2P Require Import Prelude GoStrings EthCrypto.

Open Scope Z_scope.

Module KeyShare.
Import EthCrypto.

(** ** Curves *)

Inductive ShareErr : Type :=
| NoCurveForChain (blockchain : string)
| UnknownCurve (c : string)
| NoSecpPublicKey
| NoEdPublicKey
| NeedsSecp (blockchain : string)
| CompressedLength (n : Z)
| NoPrefix
| Bech32Failed
| MarshalFailed
| UnmarshalFailed
| NoCurveTag
| NoSecpData
| NoEdData
| Crypto (e : CryptoErr).

(** [type Curve string] *)
Definition Curve : Type := string.
Definition CurveSecp256k1 : Curve := "secp256k1".
Definition CurveEd25519 : Curve := "ed25519".

Definition CurveForChain (blockchain : string) : result ShareErr Curve :=
  if bool_decide (blockchain ∈ ["ethereum"; "polygon"; "arbitrum"; "optimism"; "base"; "bsc"; "avalanche"])
  then Ok CurveSecp256k1
  else if bool_decide (blockchain ∈ ["bitcoin"; "bitcoin-testnet"; "bitcoin-regtest"]) then Ok CurveSecp256k1
  else if bool_decide (blockchain ∈ ["cosmos"; "cosmos-hub"; "osmosis"]) then Ok CurveSecp256k1
  else if String.eqb blockchain "solana" then Ok CurveEd25519
  else Err (NoCurveForChain blockchain).

(** [tsscommon.S256()] and [tsscommon.Edwards()]. *)
Inductive EllipticCurve : Type := S256 | Edwards.

Definition ellipticCurve (c : Curve) : result ShareErr EllipticCurve :=
  if String.eqb c CurveSecp256k1 then Ok S256
  else if String.eqb c CurveEd25519 then Ok Edwards
  else Err (UnknownCurve c).

(** ** Shares *)

(** What the code takes from other packages. *)
Class ShareCrypto := {
  EcdsaSave : Type;
  EddsaSave : Type;
  (** [ECDSAPub] and [EDDSAPub]: a point, when the save data has one *)
  ECDSAPub : EcdsaSave -> option (Z * Z);
  EDDSAPub : EddsaSave -> option (Z * Z);
  edwardsSerialize : Z -> Z -> bytes;
  base58Encode : bytes -> string;
  keccak : bytes -> bytes;
  sha256 : bytes -> bytes;
  ripemd160 : bytes -> bytes;
  (** [bech32.ConvertBits(_, 8, 5, true)] and [bech32.Encode] *)
  convertBits : bytes -> option bytes;
  bech32Encode : string -> bytes -> option string;
}.

(** A serialiser, and the values it carries unchanged ([encoding/json] replaces
    bytes that are not UTF-8, so not every string is one). *)
Class Codec (A : Type) := {
  encode : A -> option bytes;
  decode : bytes -> option A;
  faithful : A -> Prop;
}.
Class CodecLaws (A : Type) `{Codec A} : Prop := {
  decode_encode a : faithful a -> exists b, encode a = Some b /\ bytes_ok b /\ decode b = Some a;
}.

Section Shares.
Context `{ShareCrypto}.

Record KeyShare := {
  Curve_ : Curve;
  ECDSA : option EcdsaSave;
  EdDSA : option EddsaSave;
}.

Definition ecdsaPoint (k : KeyShare) : option (Z * Z) := s ← ECDSA k; ECDSAPub s.
Definition eddsaPoint (k : KeyShare) : option (Z * Z) := s ← EdDSA k; EDDSAPub s.

(** The hex public key and the address in the curve's default form. *)
Definition PublicKey (k : KeyShare) : result ShareErr (string * string) :=
  if String.eqb (Curve_ k) CurveSecp256k1 then
    match ecdsaPoint k with
    | None => Err NoSecpPublicKey
    | Some (x, y) =>
        let! pub := map_err Crypto (MarshalPubkey x y) in
        let! addr := map_err Crypto (Address keccak x y) in
        Ok (hex_encode pub, addr)
    end
  else if String.eqb (Curve_ k) CurveEd25519 then
    match eddsaPoint k with
    | None => Err NoEdPublicKey
    | Some (x, y) =>
        let encoded := edwardsSerialize x y in
        Ok (hex_encode encoded, base58Encode encoded)
    end
  else Err (UnknownCurve (Curve_ k)).

Definition CosmosAddress (compressedPubKey : bytes) (prefix : string) : result ShareErr string :=
  refuse! negb (len compressedPubKey =? 33) with CompressedLength (len compressedPubKey);
  refuse! String.eqb prefix "" with NoPrefix;
  match convertBits (ripemd160 (sha256 compressedPubKey)) with
  | None => Err Bech32Failed
  | Some conv => match bech32Encode prefix conv with None => Err Bech32Failed | Some s => Ok s end
  end.

Definition cosmosPrefixes : gmap string string :=
  {[ "cosmos" := "cosmos"; "cosmos-hub" := "cosmos"; "osmosis" := "osmo" ]}.

Definition AddressFor (k : KeyShare) (blockchain fallback : string) : result ShareErr string :=
  match cosmosPrefixes !! blockchain with
  | None => Ok fallback
  | Some prefix =>
      refuse! negb (String.eqb (Curve_ k) CurveSecp256k1) with NeedsSecp blockchain;
      match ecdsaPoint k with
      | None => Err (NeedsSecp blockchain)
      | Some (x, y) =>
          let! compressed := map_err Crypto (CompressPubkey x y) in
          CosmosAddress compressed prefix
      end
  end.

Context `{!Codec KeyShare}.

Definition MarshalShare (share : KeyShare) : result ShareErr bytes :=
  match encode share with Some b => Ok b | None => Err MarshalFailed end.

Definition UnmarshalShare (raw : bytes) : result ShareErr KeyShare :=
  match decode raw with
  | None => Err UnmarshalFailed
  | Some share =>
      refuse! String.eqb (Curve_ share) "" with NoCurveTag;
      if String.eqb (Curve_ share) CurveSecp256k1 then
        match ECDSA share with None => Err NoSecpData | Some _ => Ok share end
      else if String.eqb (Curve_ share) CurveEd25519 then
        match EdDSA share with None => Err NoEdData | Some _ => Ok share end
      else Err (UnknownCurve (Curve_ share))
  end.

(** ** Facts *)

(** The tag names a curve whose save data is present. *)
Definition well_tagged (k : KeyShare) : Prop :=
  (Curve_ k = CurveSecp256k1 /\ ECDSA k <> None) \/ (Curve_ k = CurveEd25519 /\ EdDSA k <> None).

Lemma UnmarshalShare_ok raw share :
  UnmarshalShare raw = Ok share <-> decode raw = Some share /\ well_tagged share.
Proof.
  unfold UnmarshalShare, well_tagged; destruct (decode raw) as [ k | ]; [ | split; [ done | intros [ ? _ ]; done ] ].
  destruct k as [ c e d ]; cbn.
  destruct (String.eqb_spec c ""); subst; [ split; [ done | intros [ E W ]; simplify_eq/=; destruct W as [ [ ? _ ] | [ ? _ ] ]; done ] | ].
  destruct (String.eqb_spec c CurveSecp256k1); subst.
  { destruct e as [ e | ]; split; try done.
    - intros E; simplify_eq/=; split; [ done | left; done ].
    - intros [ ? _ ]; simplify_eq/=; done.
    - intros [ E W ]; simplify_eq/=; destruct W as [ [ _ ? ] | [ ? _ ] ]; done. }
  destruct (String.eqb_spec c CurveEd25519); subst.
  { destruct d as [ d | ]; split; try done.
    - intros E; simplify_eq/=; split; [ done | right; done ].
    - intros [ ? _ ]; simplify_eq/=; done.
    - intros [ E W ]; simplify_eq/=; destruct W as [ [ ? _ ] | [ _ ? ] ]; done. }
  split; [ done | intros [ E W ]; simplify_eq/=; destruct W as [ [ ? _ ] | [ ? _ ] ]; done ].
Qed.

Lemma PublicKey_ok_tagged k p : PublicKey k = Ok p -> well_tagged k.
Proof.
  unfold PublicKey, well_tagged, ecdsaPoint, eddsaPoint.
  destruct (String.eqb_spec (Curve_ k) CurveSecp256k1).
  { destruct (ECDSA k); cbn; [ intros _; left; done | done ]. }
  destruct (String.eqb_spec (Curve_ k) CurveEd25519); [ | done ].
  destruct (EdDSA k); cbn; [ intros _; right; done | done ].
Qed.

(** *** Properties *)

(** A share that JSON carries is read back as it was written, exactly when its
    tag names a curve whose data it holds; nothing else is ever read. *)
Theorem share_roundtrip `{!CodecLaws KeyShare} share :
  faithful share ->
  (exists raw, MarshalShare share = Ok raw /\ (UnmarshalShare raw = Ok share <-> well_tagged share)) /\
  (forall raw k, UnmarshalShare raw = Ok k -> well_tagged k).
Proof.
  intros F; destruct (decode_encode share F) as (raw & E & _ & D); split.
  - exists raw; unfold MarshalShare; rewrite E, UnmarshalShare_ok; intuition.
  - intros raw' k Hk; apply UnmarshalShare_ok in Hk as [ _ W ]; exact W.
Qed.

Lemma cosmos_is_secp blockchain prefix curve :
  cosmosPrefixes !! blockchain = Some prefix -> CurveForChain blockchain = Ok curve ->
  curve = CurveSecp256k1 /\ prefix <> "".
Proof.
  unfold cosmosPrefixes; intros L C.
  do 2 (apply lookup_insert_Some in L as [ [ <- <- ] | [ _ L ] ]; [ vm_compute in C; simplify_eq; done | ]).
  apply lookup_singleton_Some in L as [ <- <- ]; vm_compute in C; simplify_eq; done.
Qed.

(** A share generated on the curve its chain needs, with a public key, has that
    chain's address: only the bech32 library can still refuse.  The address
    depends on the public point alone, so every party of a ceremony derives the
    same one. *)
Theorem chain_key_has_address blockchain curve k pub fallback :
  CurveForChain blockchain = Ok curve -> Curve_ k = curve -> PublicKey k = Ok (pub, fallback) ->
  ((exists a, AddressFor k blockchain fallback = Ok a) \/ AddressFor k blockchain fallback = Err Bech32Failed) /\
  (forall k', Curve_ k' = curve -> ecdsaPoint k' = ecdsaPoint k -> eddsaPoint k' = eddsaPoint k ->
     PublicKey k' = Ok (pub, fallback) /\ AddressFor k' blockchain fallback = AddressFor k blockchain fallback).
Proof.
  intros C K P; split; [ | intros k' K' E1 E2; split; [ rewrite <- P | ];
    unfold PublicKey, AddressFor; rewrite K, K', E1, ?E2; reflexivity ].
  unfold AddressFor; destruct (cosmosPrefixes !! blockchain) as [ prefix | ] eqn:L; [ | eauto ].
  destruct (cosmos_is_secp _ _ _ L C) as [ -> Hp ].
  unfold PublicKey in P; rewrite K in *; cbn [String.eqb] in *.
  change (String.eqb CurveSecp256k1 CurveSecp256k1) with true in *; cbn [negb].
  destruct (ecdsaPoint k) as [ [ x y ] | ]; [ | discriminate P ].
  unfold CompressPubkey; unfold MarshalPubkey in P; inv_ok.
  cbn [result_bind map_err]; unfold CosmosAddress.
  match goal with F : fill_bytes 32 x = Ok ?xb |- _ => pose proof (fill_bytes_length _ _ _ F) as Lx end.
  rewrite len_cons; unfold len; rewrite Lx; cbn [negb Z.eqb Z.add].
  replace (String.eqb prefix "") with false by (symmetry; apply String.eqb_neq; done).
  destruct (convertBits _); [ destruct (bech32Encode _ _) | ]; eauto.
Qed.

End Shares.

(** ** Implementations of the interfaces

    Used by the witnesses: save data that is a point, hashes that keep the end
    of their input, and a codec for any countable type. *)

Definition simple_crypto : ShareCrypto := {|
  EcdsaSave := Z * Z;
  EddsaSave := Z * Z;
  ECDSAPub s := Some s;
  EDDSAPub s := Some s;
  edwardsSerialize x y := [ u8 x; u8 y ];
  base58Encode := hex_encode;
  keccak b := take 32 (rev b ++ replicate 32 7);
  sha256 b := take 32 (rev b);
  ripemd160 b := take 20 b;
  convertBits b := Some b;
  bech32Encode p b := Some (p +:+ "1" +:+ hex_encode b);
|}.

Definition countable_codec {A} `{Countable A} : Codec A := {|
  encode a := Some (big_bytes (Zpos (countable.encode a)));
  decode b := match be_val b with Zpos p => countable.decode p | _ => None end;
  faithful _ := True;
|}.

Lemma countable_codec_laws {A} `{Countable A} : @CodecLaws A countable_codec.
Proof.
  split; intros a _; eexists; cbn; split_and!; [ reflexivity | apply big_bytes_ok | ].
  rewrite be_val_big_bytes by lia; apply countable.decode_encode.
Qed.

#[local] Existing Instance simple_crypto.

#[global] Instance simple_share_eq_dec : EqDecision KeyShare.
Proof. solve_decision. Defined.
#[global] Instance simple_share_countable : Countable KeyShare.
Proof.
  refine (inj_countable' (fun k : KeyShare => (Curve_ k, ECDSA k : option (Z * Z), EdDSA k : option (Z * Z)))
    (fun t => {| Curve_ := t.1.1; ECDSA := t.1.2; EdDSA := t.2 |}) _).
  intros [ ]; reflexivity.
Defined.

Lemma share_roundtrip_witness :
  let share := {| Curve_ := CurveEd25519; ECDSA := None; EdDSA := Some (3, 4) |} in
  exists raw, @MarshalShare _ countable_codec share = Ok raw /\ @UnmarshalShare _ countable_codec raw = Ok share.
Proof.
  intros share; destruct (@share_roundtrip _ countable_codec countable_codec_laws share I) as [ (raw & M & U) _ ].
  exists raw; split; [ exact M | apply U; right; split; [ reflexivity | discriminate ] ].
Defined.

Lemma chain_key_has_address_witness :
  let k := {| Curve_ := CurveSecp256k1; ECDSA := Some (3, 5); EdDSA := None |} in
  exists a, AddressFor k "osmosis" "0x" = Ok a.
Proof.
  intros k; destruct (PublicKey k) as [ [ pub fb ] | | ] eqn:P; [ | vm_compute in P; discriminate P .. ].
  destruct (chain_key_has_address "osmosis" CurveSecp256k1 k pub fb eq_refl eq_refl P) as [ [ H | H ] _ ].
  - destruct H as [ a H ]; exists a; exact H.
  - vm_compute in H; discriminate H.
Defined.

End KeyShare.
