(* ===== verification/ShareStore.v ===== *)
(** * Sealing key shares

    Models [services/mpc-party/vault_seal.go] and [file_seal.go]: where a
    party's share is kept between restarts.  With [VAULT_ADDR] set it is an
    entry of Vault's key-value engine; otherwise, with [SHARE_STORE_DIR] set, an
    encrypted file; otherwise nothing is kept.

    The file system is a map from paths to files, changed one operation at a
    time.  Every operation can fail, a write after some of its bytes: the world
    carries the faults to come, and the file systems passed through ([past]),
    which are what a crash can leave behind: a crash here is one of the process,
    and what a written file loses when the machine itself fails before [Sync] is
    not modelled, so that [Sync] is a step that can fail and changes nothing.
    AES-GCM ([Aead]), Vault
    ([VaultKv]) and JSON ([StoreJson]) are interfaces with the laws relied on.

    The abstract specification is [ShareKeeping]: a store holds at most one
    share per party and ceremony, sealing replaces it, retiring removes it, no
    operation touches another party's or ceremony's (in Vault, of the ids that
    are plain names: the file store refuses the others, [vault_seal.go] does not,
    and [climbing_id_overwrites] is what comes of it).  The theorems: both stores
    implement it; sealing to a file is atomic under faults and crashes; a file
    opens only as the party and ceremony it was sealed for. *)

From Stdlib Require Import ZArith Lia Ascii String.
From stdpp Require Import base list numbers strings gmap.
From S2P Require Import Prelude GoStrings EthCrypto KeyShare GoPath.

Open Scope Z_scope.

Module ShareStore.
Import KeyShare GoPath.

(** ** Data *)

Record CeremonyContext := {
  Threshold : Z;
  TotalParties : Z;
  ctxCurve : string;
  Epoch : Z;
  PublicKeyHex : string;
  Address : string;
}.

Record sealedFile := { Version : Z; Nonce : string; Data : string }.

Record sealedPayload := {
  PartyID : Z;
  CeremonyID : string;
  SaveData : string;
  ceremonyContext : string;
}.

Inductive StoreErr : Type :=
| NoKeyFile
| KeyFile
| KeyWorldReadable (mode : Z)
| KeyInsideStore
| KeyFormat
| BadFileName (ceremonyID : string)
| Share (e : ShareErr)
| ContextMarshal
| PayloadMarshal
| CipherFailed
| NoEntropy
| IoFailed
| NoSealedFile
| NotSealedFile
| Malformed
| DoesNotOpen
| ContextMalformed
| NothingConfigured
| VaultClient
| VaultWrite
| VaultRead
| NoSealedShare
| WrongShareCurve (c : string)
| VaultDestroy.

(** ** What other packages provide *)

(** AES-256-GCM, by key, nonce, text and additional data. *)
Class Aead := {
  gcmSeal : bytes -> bytes -> bytes -> bytes -> bytes;
  gcmOpen : bytes -> bytes -> bytes -> bytes -> option bytes;
}.
(** Opening undoes sealing and accepts nothing else; the cipher text, a text
    masked by a key stream, determines the text. *)
Class AeadLaws `{Aead} : Prop := {
  open_seal k n p a : gcmOpen k n (gcmSeal k n p a) a = Some p;
  open_only_sealed k n d a p : gcmOpen k n d a = Some p -> d = gcmSeal k n p a;
  seal_determines k n p p' a a' : gcmSeal k n p a = gcmSeal k n p' a' -> p = p';
  seal_bytes k n p a : bytes_ok p -> bytes_ok (gcmSeal k n p a);
}.

Record VaultConn := { vAddr : string; vToken : string; vMount : string }.
Inductive VaultValue : Type := VStr (s : string) | VNum (n : Z).

(** Vault's client and its key-value engine; [kvGet] answers an error, an empty
    secret, or data. *)
Class VaultKv := {
  VaultState : Type;
  newClient : string -> bool;
  kvPut : VaultConn -> string -> gmap string VaultValue -> VaultState -> bool * VaultState;
  kvGet : VaultConn -> string -> VaultState -> option (option (gmap string VaultValue));
  kvDeleteMetadata : VaultConn -> string -> VaultState -> bool * VaultState;
}.

Class StoreJson `{ShareCrypto} := {
  share_codec :: Codec KeyShare;
  context_codec :: Codec CeremonyContext;
  payload_codec :: Codec sealedPayload;
  file_codec :: Codec sealedFile;
  (** strings that are UTF-8, which JSON carries unchanged *)
  utf8 : string -> Prop;
}.
Class StoreJsonLaws `{StoreJson} : Prop := {
  share_laws :: CodecLaws KeyShare;
  context_laws :: CodecLaws CeremonyContext;
  payload_laws :: CodecLaws sealedPayload;
  file_laws :: CodecLaws sealedFile;
  share_json (s : KeyShare) b : encode s = Some b -> b <> [] /\ utf8 (of_bytes b);
  context_json (c : CeremonyContext) b : encode c = Some b -> b <> [] /\ utf8 (of_bytes b);
  empty_utf8 : utf8 "";
  payload_faithful p : utf8 (CeremonyID p) -> utf8 (SaveData p) -> utf8 (ceremonyContext p) -> faithful p;
  file_faithful v n d : faithful {| Version := v; Nonce := hex_encode n; Data := hex_encode d |};
}.

(** What the client asks for: it joins the path of a secret to its mount, and
    joining cleans.  A path without a component that climbs stays an entry of
    the mount. *)
Definition entryPath (c : VaultConn) (p : string) : string := Clean ("/" +:+ vMount c +:+ "/data/" +:+ p).
Definition dotless (p : string) : Prop := ".." ∉ split_slash p.

(** A write that Vault acknowledged is what it answers from then on, and an
    acknowledged destruction leaves nothing; other entries are not touched.
    Paths that clean to the same one are the same entry. *)
Class VaultLaws `{StoreJson} `{VaultKv} : Prop := {
  put_get c p d v v' : dotless p ->
    (forall k s, d !! k = Some (VStr s) -> utf8 s) -> kvPut c p d v = (true, v') ->
    exists d', kvGet c p v' = Some (Some d') /\
      (forall k s, d !! k = Some (VStr s) -> d' !! k = Some (VStr s)) /\ (forall k, d !! k = None -> d' !! k = None);
  put_failed c p d v v' : dotless p -> kvPut c p d v = (false, v') ->
    kvGet c p v' = kvGet c p v \/ exists d', kvGet c p v' = Some (Some d') /\
      (forall k s, d !! k = Some (VStr s) -> d' !! k = Some (VStr s)) /\ (forall k, d !! k = None -> d' !! k = None);
  put_other c p d v q : dotless p -> dotless q -> entryPath c q <> entryPath c p -> kvGet c q (snd (kvPut c p d v)) = kvGet c q v;
  delete_get c p v v' : dotless p -> kvDeleteMetadata c p v = (true, v') -> kvGet c p v' = None;
  delete_other c p v q : dotless p -> dotless q -> entryPath c q <> entryPath c p -> kvGet c q (snd (kvDeleteMetadata c p v)) = kvGet c q v;
  same_entry c p q : entryPath c p = entryPath c q -> kvPut c p = kvPut c q /\ kvGet c p = kvGet c q;
}.

(** ** The world *)

Record file := { mode : Z; content : bytes }.
Abbreviation Fs := (gmap string file).

Section World.
Context `{VaultKv}.

(** [faults]: for each file operation to come, whether it fails and, for a
    write, after how many bytes; no more faults after the list ends.
    [randoms]: what [os.CreateTemp] draws; [entropy]: what [rand.Read] reads. *)
Record World := {
  files : Fs;
  faults : list (option nat);
  randoms : list Z;
  entropy : bytes;
  past : list Fs;
  vault : VaultState;
}.

Definition Io (A : Type) : Type := World -> result StoreErr A * World.

Definition io_ret {A} (a : A) : Io A := fun w => (Ok a, w).
Definition io_fail {A} (e : StoreErr) : Io A := fun w => (Err e, w).
Definition io_bind {A B} (c : Io A) (k : A -> Io B) : Io B := fun w =>
  match c w with
  | (Ok a, w') => k a w'
  | (Err e, w') => (Err e, w')
  | (Panic, w') => (Panic, w')
  end.
Definition io_of {A} (r : result StoreErr A) : Io A := fun w => (r, w).
(** [_ = f()] and a deferred call: the outcome is dropped. *)
Definition io_ignore {A} (c : Io A) : Io unit := fun w => (Ok tt, snd (c w)).
(** [defer d()] around [c]. *)
Definition io_defer {A B} (d : Io B) (c : Io A) : Io A := fun w =>
  let '(r, w') := c w in (r, snd (d w')).

Definition pop_fault (w : World) : option nat * World :=
  match faults w with
  | [] => (None, w)
  | f :: fs => (f, {| files := files w; faults := fs; randoms := randoms w; entropy := entropy w;
                      past := past w; vault := vault w |})
  end.

Definition set_files (m : Fs) (w : World) : World :=
  {| files := m; faults := faults w; randoms := randoms w; entropy := entropy w;
     past := past w ++ [ m ]; vault := vault w |}.
Definition set_randoms (r : list Z) (w : World) : World :=
  {| files := files w; faults := faults w; randoms := r; entropy := entropy w; past := past w; vault := vault w |}.
Definition set_entropy (r : bytes) (w : World) : World :=
  {| files := files w; faults := faults w; randoms := randoms w; entropy := r; past := past w; vault := vault w |}.
Definition set_vault (v : VaultState) (w : World) : World :=
  {| files := files w; faults := faults w; randoms := randoms w; entropy := entropy w; past := past w; vault := v |}.
Definition without_faults (w : World) : World :=
  {| files := files w; faults := []; randoms := randoms w; entropy := entropy w; past := past w; vault := vault w |}.

Definition io_read {A} (e : StoreErr) (look : Fs -> option A) : Io A := fun w =>
  let '(f, w) := pop_fault w in
  match f, look (files w) with
  | None, Some a => (Ok a, w)
  | _, _ => (Err e, w)
  end.
Definition io_write (e : StoreErr) (done : Fs -> Fs) (cut : nat -> Fs -> Fs) : Io unit := fun w =>
  let '(f, w) := pop_fault w in
  match f with
  | None => (Ok tt, set_files (done (files w)) w)
  | Some k => (Err e, set_files (cut k (files w)) w)
  end.

(** [os.Stat] of a path that may not exist *)
Definition os_stat (p : string) : Io (option file) := io_read IoFailed (fun m => Some (m !! p)).
Definition os_mkdirAll (dir : string) : Io unit := io_write IoFailed (fun m => m) (fun _ m => m).
Definition os_chmod (p : string) (md : Z) : Io unit :=
  io_write IoFailed (alter (fun f => {| mode := md; content := content f |}) p) (fun _ m => m).
(** [f.Write] on a file just created, or opened at its start. *)
Definition overwrite (b old : bytes) : bytes := b ++ drop (length b) old.
Definition os_write (p : string) (b : bytes) : Io unit :=
  let put b := alter (fun f => {| mode := mode f; content := overwrite b (content f) |}) p in
  io_write IoFailed (put b) (fun k => put (take k b)).
(** [Sync], [Close] *)
Definition os_flush : Io unit := io_write IoFailed (fun m => m) (fun _ m => m).
Definition os_rename (p q : string) : Io unit :=
  io_write IoFailed (fun m => match m !! p with Some f => <[ q := f ]> (delete p m) | None => m end) (fun _ m => m).
Definition os_remove (p : string) : Io unit := fun w =>
  match files w !! p with
  | None => (Err IoFailed, snd (pop_fault w))
  | Some _ => io_write IoFailed (delete p) (fun _ m => m) w
  end.

(** [os.CreateTemp(dir, ".sealing-*")] tries names until one is free. *)
Fixpoint first_free (m : Fs) (dir : string) (rs : list Z) : option string * list Z :=
  match rs with
  | [] => (None, [])
  | r :: rs =>
      match m !! temp_name dir ".sealing-" r with
      | None => (Some (temp_name dir ".sealing-" r), rs)
      | Some _ => first_free m dir rs
      end
  end.
Definition os_createTemp (dir : string) : Io string := fun w =>
  match first_free (files w) dir (randoms w) with
  | (None, rs) => (Err IoFailed, set_randoms rs w)
  | (Some tmp, rs) =>
      match io_write IoFailed (<[ tmp := {| mode := 384; content := [] |} ]>) (fun _ m => m) (set_randoms rs w) with
      | (Ok _, w') => (Ok tmp, w')
      | (_, w') => (Err IoFailed, w')
      end
  end.

(** [rand.Read] into [n] bytes *)
Definition rand_read (n : nat) : Io bytes := fun w =>
  if bool_decide (n <= length (entropy w))%nat
  then (Ok (u8 <$> take n (entropy w)), set_entropy (drop n (entropy w)) w)
  else (Err NoEntropy, w).

End World.

Declare Scope io_scope.
Notation "'do!' x ':=' c 'in' k" := (io_bind c (fun x => k))
  (at level 10, x binder, c at level 100, k at level 200) : io_scope.
Open Scope io_scope.

(** ** The file store *)

Definition sealedFileVersion : Z := 1.
(** [gcm.NonceSize()] *)
Definition nonceSize : nat := 12.

Record fileShareConfig := { dir : string; keyFile : string }.

Definition fileShareConfigFromEnv (getenv : string -> string) : option fileShareConfig :=
  let d := trim_space (getenv "SHARE_STORE_DIR") in
  if String.eqb d "" then None
  else Some {| dir := d; keyFile := trim_space (getenv "SHARE_STORE_KEY_FILE") |}.

(** [fileShareConfig.path] *)
Definition sharePath (c : fileShareConfig) (partyID : Z) (ceremonyID : string) : result StoreErr string :=
  if String.eqb ceremonyID "" || contains_any (String slash (String "\" (String "000" ""))) ceremonyID
     || String.eqb ceremonyID "." || String.eqb ceremonyID ".."
  then Err (BadFileName ceremonyID)
  else Ok (Join [ dir c; "party-" +:+ show_int partyID; ceremonyID +:+ ".sealed" ]).

Definition shareAAD (partyID : Z) (ceremonyID : string) : bytes :=
  to_bytes ("openfireblocks-share-v" +:+ show_int sealedFileVersion +:+ "|party-" +:+ show_int partyID
            +:+ "|" +:+ ceremonyID).

(** [newGCM]: AES takes keys of 16, 24 or 32 bytes. *)
Definition newGCM (key : bytes) : result StoreErr unit :=
  if bool_decide (length key ∈ [ 16; 24; 32 ]%nat) then Ok tt else Err CipherFailed.

Section Store.
Context `{VaultKv, ShareCrypto, !StoreJson, Aead}.
(** the working directory, when the system can say *)
Variable cwd : option string.

(** The key in a key file: 64 hex characters, or 32 bytes. *)
Definition keyFromFile (raw : bytes) : result StoreErr bytes :=
  let trimmed := trim_space (of_bytes raw) in
  let rawKey := if len raw =? 32 then Ok raw else Err KeyFormat in
  if slen trimmed =? 64 then
    match hex_decode trimmed with Some k => Ok k | None => rawKey end
  else rawKey.

(** Whether the key file lies in the store's own directory. *)
Definition insideStore (c : fileShareConfig) : bool :=
  match Abs cwd (keyFile c), Abs cwd (dir c) with
  | Some key, Some d => has_prefix (d +:+ String slash EmptyString) key
  | _, _ => false
  end.

Definition loadShareKey (c : fileShareConfig) : Io bytes :=
  if String.eqb (keyFile c) "" then io_fail NoKeyFile
  else
    do! info := io_read KeyFile (fun m => m !! keyFile c) in
    if negb (Z.land (mode info) 7 =? 0) then io_fail (KeyWorldReadable (mode info))
    else if insideStore c then io_fail KeyInsideStore
    else
      do! f := io_read KeyFile (fun m => m !! keyFile c) in
      io_of (keyFromFile (content f)).

(** The text that is encrypted. *)
Definition payloadOf (partyID : Z) (ceremonyID : string) (share : KeyShare) (cc : option CeremonyContext)
    : result StoreErr sealedPayload :=
  let! raw := map_err Share (MarshalShare share) in
  let! ctx :=
    match cc with
    | None => Ok ""%string
    | Some c => match encode c with Some b => Ok (of_bytes b) | None => Err ContextMarshal end
    end in
  Ok {| PartyID := partyID; CeremonyID := ceremonyID; SaveData := of_bytes raw; ceremonyContext := ctx |}.

(** The new file, written under a temporary name and renamed into place. *)
Definition replaceFile (path : string) (out : bytes) : Io unit :=
  do! _ := os_mkdirAll (Dir path) in
  do! tmp := os_createTemp (Dir path) in
  io_defer (os_remove tmp)
    (do! _ := os_chmod tmp 384 in
     do! _ := os_write tmp out in
     do! _ := os_flush in
     do! _ := os_flush in
     os_rename tmp path).

Definition sealShareToFile (cfg : fileShareConfig) (partyID : Z) (ceremonyID : string)
    (share : KeyShare) (cc : option CeremonyContext) : Io unit :=
  do! key := loadShareKey cfg in
  do! path := io_of (sharePath cfg partyID ceremonyID) in
  do! p := io_of (payloadOf partyID ceremonyID share cc) in
  do! plain := io_of (match encode p with Some b => Ok b | None => Err PayloadMarshal end) in
  do! _ := io_of (newGCM key) in
  do! nonce := rand_read nonceSize in
  do! out := io_of (match encode {| Version := sealedFileVersion; Nonce := hex_encode nonce;
                                    Data := hex_encode (gcmSeal key nonce plain (shareAAD partyID ceremonyID)) |}
                    with Some b => Ok b | None => Err PayloadMarshal end) in
  replaceFile path out.

(** What a sealed file holds, for a party and a ceremony. *)
Definition openSealed (key blob : bytes) (partyID : Z) (ceremonyID : string)
    : result StoreErr (KeyShare * option CeremonyContext) :=
  match decode blob with
  | None => Err NotSealedFile
  | Some f =>
      refuse! negb (Version f =? sealedFileVersion) with NotSealedFile;
      match hex_decode (Nonce f), hex_decode (Data f), newGCM key with
      | Some nonce, Some data, Ok _ =>
          refuse! negb (bool_decide (length nonce = nonceSize)) with Malformed;
          match gcmOpen key nonce data (shareAAD partyID ceremonyID) with
          | None => Err DoesNotOpen
          | Some plain =>
              match decode plain with
              | None => Err Malformed
              | Some p =>
                  refuse! negb (PartyID p =? partyID) || negb (String.eqb (CeremonyID p) ceremonyID) with Malformed;
                  let! share := map_err Share (UnmarshalShare (to_bytes (SaveData p))) in
                  if String.eqb (ceremonyContext p) "" then Ok (share, None)
                  else match decode (to_bytes (ceremonyContext p)) with
                       | None => Err ContextMalformed
                       | Some cc => Ok (share, Some cc)
                       end
              end
          end
      | _, _, _ => Err Malformed
      end
  end.

Definition loadShareFromFile (cfg : fileShareConfig) (partyID : Z) (ceremonyID : string)
    : Io (KeyShare * option CeremonyContext) :=
  do! key := loadShareKey cfg in
  do! path := io_of (sharePath cfg partyID ceremonyID) in
  do! blob := io_read NoSealedFile (fun m => content <$> m !! path) in
  io_of (openSealed key blob partyID ceremonyID).

Definition retireShareFile (cfg : fileShareConfig) (partyID : Z) (ceremonyID : string) : Io unit :=
  do! path := io_of (sharePath cfg partyID ceremonyID) in
  do! info := os_stat path in
  match info with
  | None => io_ret tt
  | Some f =>
      do! _ := io_ignore (do! _ := io_read IoFailed (fun m => m !! path) in
                          do! _ := io_ignore (os_write path (replicate (length (content f)) 0)) in
                          io_ignore os_flush) in
      os_remove path
  end.

(** ** The Vault store, and which of them is used *)

Record vaultShareConfig := { addr : string; token : string; mount : string; keyPath : string }.

Definition orDefaultVault (v def : string) : string := if String.eqb v "" then def else v.

Definition vaultShareConfigFromEnv (getenv : string -> string) (partyID : Z) (ceremonyID : string)
    : option vaultShareConfig :=
  let a := getenv "VAULT_ADDR"%string in
  if String.eqb a "" then None
  else Some {| addr := a; token := getenv "VAULT_TOKEN"%string;
               mount := orDefaultVault (getenv "VAULT_KV_MOUNT"%string) "secret";
               keyPath := orDefaultVault (getenv "VAULT_KEY_SHARE_PATH"%string) "openfireblocks/mpc-party"
                          +:+ "/party-" +:+ show_int partyID +:+ "/" +:+ ceremonyID |}.

Definition connOf (cfg : vaultShareConfig) : VaultConn :=
  {| vAddr := addr cfg; vToken := token cfg; vMount := mount cfg |}.

(** The entry written to Vault. *)
Definition entryOf (partyID : Z) (ceremonyID : string) (share : KeyShare) (p : sealedPayload)
    (cc : option CeremonyContext) : gmap string VaultValue :=
  let base := {[ "party_id" := VNum partyID; "ceremony_id" := VStr ceremonyID;
                 "curve" := VStr (Curve_ share); "save_data" := VStr (SaveData p) ]} in
  match cc with None => base | Some _ => <[ "ceremony_context" := VStr (ceremonyContext p) ]> base end.

Definition SealKeyShareWithContext (getenv : string -> string) (partyID : Z) (ceremonyID : string)
    (share : KeyShare) (cc : option CeremonyContext) : Io bool :=
  match vaultShareConfigFromEnv getenv partyID ceremonyID with
  | None =>
      match fileShareConfigFromEnv getenv with
      | Some fcfg => do! _ := sealShareToFile fcfg partyID ceremonyID share cc in io_ret true
      | None => io_ret false
      end
  | Some cfg =>
      if negb (newClient (addr cfg)) then io_fail VaultClient
      else
        do! p := io_of (payloadOf partyID ceremonyID share cc) in
        fun w => match kvPut (connOf cfg) (keyPath cfg) (entryOf partyID ceremonyID share p cc) (vault w) with
                 | (true, v) => (Ok true, set_vault v w)
                 | (false, v) => (Err VaultWrite, set_vault v w)
                 end
  end.

Definition SealKeyShare (getenv : string -> string) (partyID : Z) (ceremonyID : string) (share : KeyShare) : Io bool :=
  SealKeyShareWithContext getenv partyID ceremonyID share None.

(** The string under a key, when there is one that is not empty. *)
Definition stringAt (d : gmap string VaultValue) (k : string) : option string :=
  match d !! k with Some (VStr s) => if String.eqb s "" then None else Some s | _ => None end.

(** The data of the entry of a party and ceremony. *)
Definition readEntry (cfg : vaultShareConfig) (w : World) : result StoreErr (gmap string VaultValue) :=
  refuse! negb (newClient (addr cfg)) with VaultClient;
  match kvGet (connOf cfg) (keyPath cfg) (vault w) with
  | None => Err VaultRead
  | Some None => Err NoSealedShare
  | Some (Some d) => Ok d
  end.

Definition LoadKeyShare (getenv : string -> string) (partyID : Z) (ceremonyID : string) (w : World)
    : result StoreErr EcdsaSave :=
  match vaultShareConfigFromEnv getenv partyID ceremonyID with
  | None => Err NothingConfigured
  | Some cfg =>
      let! d := readEntry cfg w in
      match stringAt d "save_data" with
      | None => Err Malformed
      | Some raw =>
          let! share := map_err Share (UnmarshalShare (to_bytes raw)) in
          match ECDSA share with
          | Some save => refuse! negb (String.eqb (Curve_ share) CurveSecp256k1) with WrongShareCurve (Curve_ share); Ok save
          | None => Err (WrongShareCurve (Curve_ share))
          end
      end
  end.

Definition LoadSealedShare (getenv : string -> string) (partyID : Z) (ceremonyID : string)
    : Io (KeyShare * option CeremonyContext) :=
  match vaultShareConfigFromEnv getenv partyID ceremonyID with
  | None =>
      match fileShareConfigFromEnv getenv with
      | Some fcfg => loadShareFromFile fcfg partyID ceremonyID
      | None => io_fail NothingConfigured
      end
  | Some cfg => fun w =>
      ((let! d := readEntry cfg w in
        match stringAt d "save_data" with
        | None => Err Malformed
        | Some raw =>
            let! share := map_err Share (UnmarshalShare (to_bytes raw)) in
            match stringAt d "ceremony_context" with
            | None => Ok (share, None)
            | Some ctx =>
                match decode (to_bytes ctx) with
                | None => Err ContextMalformed
                | Some cc => Ok (share, Some cc)
                end
            end
        end), w)
  end.

Definition RetireSealedShare (getenv : string -> string) (partyID : Z) (ceremonyID : string) : Io bool :=
  match vaultShareConfigFromEnv getenv partyID ceremonyID with
  | None =>
      match fileShareConfigFromEnv getenv with
      | Some fcfg => do! _ := retireShareFile fcfg partyID ceremonyID in io_ret true
      | None => io_ret false
      end
  | Some cfg =>
      if negb (newClient (addr cfg)) then io_fail VaultClient
      else fun w => match kvDeleteMetadata (connOf cfg) (keyPath cfg) (vault w) with
                    | (true, v) => (Ok true, set_vault v w)
                    | (false, v) => (Err VaultDestroy, set_vault v w)
                    end
  end.
End Store.

(** ** Reasoning about file operations

    A triple: from a file system in [P], the operation ends in [Q] or, with an
    error, in [E]; every file system passed through is in [S]. *)

Section Triples.
Context `{VaultKv}.

Definition triple {A} (P : Fs -> Prop) (c : Io A) (Q : A -> Fs -> Prop) (E S : Fs -> Prop) : Prop :=
  forall w, P (files w) ->
    match c w with
    | (Ok a, w') => Q a (files w')
    | (Err _, w') => E (files w')
    | (Panic, _) => False
    end /\
    (exists new, past (snd (c w)) = past w ++ new /\ Forall S new) /\ vault (snd (c w)) = vault w.

Lemma pop_fault_same w : files (snd (pop_fault w)) = files w /\ past (snd (pop_fault w)) = past w /\
  vault (snd (pop_fault w)) = vault w /\ randoms (snd (pop_fault w)) = randoms w.
Proof. unfold pop_fault; destruct (faults w); done. Qed.

Lemma triple_bind {A B} P (c : Io A) (k : A -> Io B) Q R E S :
  triple P c Q E S -> (forall a, triple (Q a) (k a) R E S) -> triple P (io_bind c k) R E S.
Proof.
  intros Hc Hk w Hw; unfold io_bind; specialize (Hc w Hw).
  destruct (c w) as [ [ a | e | ] w' ]; cbn in *; [ | done | destruct Hc as [ [ ] _ ] ].
  destruct Hc as (HQ & (n1 & P1 & S1) & V1), (Hk a w' HQ) as (HR & (n2 & P2 & S2) & V2).
  split; [ exact HR | ]; split; [ | congruence ].
  exists (n1 ++ n2); rewrite P2, P1, app_assoc; split; [ done | apply Forall_app; done ].
Qed.

Lemma triple_write (P Q E S : Fs -> Prop) e done cut :
  (forall m, P m -> Q (done m) /\ S (done m) /\ forall k, E (cut k m) /\ S (cut k m)) ->
  triple P (io_write e done cut) (fun _ => Q) E S.
Proof.
  intros HP w Hw; unfold io_write; pose proof (pop_fault_same w) as (F & Pa & V & _).
  destruct (pop_fault w) as [ f w1 ]; cbn in *; rewrite F.
  destruct (HP _ Hw) as (HQ & HS & HC); destruct f as [ k | ]; cbn.
  - destruct (HC k) as [ HE HS' ]; split_and!; [ done | exists [ cut k (files w) ]; rewrite Pa; split; [ done | ] | done ].
    constructor; [ done | constructor ].
  - split_and!; [ done | exists [ done (files w) ]; rewrite Pa; split; [ done | ] | done ].
    constructor; [ done | constructor ].
Qed.

(** A deferred removal of a file nobody looks at. *)
Lemma triple_defer_remove {A} P (c : Io A) (Q : A -> Fs -> Prop) (E S : Fs -> Prop) tmp :
  triple P c Q E S ->
  (forall m, (exists a, Q a m) \/ E m -> S m /\ S (delete tmp m)) ->
  (forall m, E m -> E (delete tmp m)) -> (forall a m, Q a m -> Q a (delete tmp m)) ->
  triple P (io_defer (os_remove tmp) c) Q E S.
Proof.
  intros Hc HS HE HQ w Hw; unfold io_defer; specialize (Hc w Hw).
  destruct (c w) as [ r w1 ]; cbn [snd] in *; destruct Hc as (HR & (n1 & P1 & S1) & V1).
  assert (r <> Panic /\ ((exists a, Q a (files w1)) \/ E (files w1))) as [ Hp Hst ]
    by (destruct r; [ split; eauto | split; eauto | done ]).
  pose proof (HS _ Hst) as [ Sm Sd ]; unfold os_remove, io_write.
  pose proof (pop_fault_same w1) as (F & Pa & V & _).
  destruct (files w1 !! tmp); [ | destruct (pop_fault w1) as [ f w2 ]; cbn in *; rewrite F, Pa, V, P1; destruct r; split_and!; eauto ].
  destruct (pop_fault w1) as [ [ k | ] w2 ]; cbn in *; rewrite F, Pa, V, P1; destruct r; split_and!; auto.
  1,2: exists (n1 ++ [ files w1 ]); rewrite app_assoc; split; [ done | apply Forall_app; split; [ done | repeat constructor; done ] ].
  all: exists (n1 ++ [ delete tmp (files w1) ]); rewrite app_assoc; split; [ done | apply Forall_app; split; [ done | repeat constructor; done ] ].
Qed.

Lemma first_free_spec m d rs tmp rs' :
  first_free m d rs = (Some tmp, rs') -> m !! tmp = None /\ exists r, tmp = temp_name d ".sealing-" r.
Proof.
  induction rs as [ | r rs IH ]; cbn; [ done | ]; destruct (m !! temp_name d ".sealing-" r) eqn:L; [ exact IH | ].
  intros E; simplify_eq; eauto.
Qed.

(** ** Replacing a file *)

(** A name [os.CreateTemp] could have made. *)
Definition temp_like (q : string) : Prop := exists d r, q = temp_name d ".sealing-" r.

(** [m] is [m0] with nothing changed but [path] and temporary files that were
    not there, and [path] is as it was or the new file. *)
Definition only (m0 : Fs) (path : string) (F : file) (m : Fs) : Prop :=
  (m !! path = m0 !! path \/ m !! path = Some F) /\
  forall q, q <> path -> (~ temp_like q) \/ is_Some (m0 !! q) -> m !! q = m0 !! q.

Lemma createTemp_bind {A} d (k : string -> Io A) w tmp rs :
  first_free (files w) d (randoms w) = (Some tmp, rs) ->
  io_bind (os_createTemp d) k w =
  io_bind (io_write IoFailed (<[ tmp := {| mode := 384; content := [] |} ]>) (fun _ m => m)) (fun _ => k tmp) (set_randoms rs w).
Proof.
  intros E; unfold io_bind, os_createTemp; rewrite E; unfold io_write, pop_fault; cbn.
  destruct (faults w) as [ | [ ? | ] ? ]; done.
Qed.

Section Replacing.
Variables (m0 : Fs) (path tmp : string) (out : bytes).
Hypothesis (Ftmp : m0 !! tmp = None) (Ltmp : temp_like tmp) (Ntmp : tmp <> path).
Let F : file := {| mode := 384; content := out |}.

(** Nothing changed but the temporary file. *)
Definition off_tmp (m : Fs) : Prop := forall q, q <> tmp -> m !! q = m0 !! q.

Lemma off_tmp_only m : off_tmp m -> only m0 path F m /\ m !! path = m0 !! path.
Proof.
  intros Hm; rewrite (Hm path) by auto; split; [ split; [ left; apply Hm; auto | ] | done ].
  intros q Hq Hc; apply Hm; intros ->; destruct Hc as [ Hc | [ ? Hc ] ]; [ auto | congruence ].
Qed.

Lemma off_tmp_alter f m : off_tmp m -> off_tmp (alter f tmp m).
Proof. intros Hm q Hq; rewrite lookup_alter_ne; auto. Qed.

Lemma only_delete m : only m0 path F m -> only m0 path F (delete tmp m).
Proof.
  intros [ H1 H2 ]; split; [ rewrite lookup_delete_ne; auto | ].
  intros q Hq Hc; rewrite lookup_delete_ne; [ auto | ].
  intros <-; destruct Hc as [ Hc | [ ? Hc ] ]; [ auto | congruence ].
Qed.

(** A step on the temporary file. *)
Lemma tmp_step (c : Io unit) f g e (f0 f1 : file) :
  c = io_write e f g -> (forall m, off_tmp m -> off_tmp (f m) /\ forall k, off_tmp (g k m)) ->
  (forall m, m !! tmp = Some f0 -> f m !! tmp = Some f1) ->
  triple (fun m => off_tmp m /\ m !! tmp = Some f0) c (fun _ m => off_tmp m /\ m !! tmp = Some f1)
    (fun m => only m0 path F m /\ m !! path = m0 !! path) (only m0 path F).
Proof.
  intros -> Ho Ht; apply (triple_write _ (fun m => off_tmp m /\ m !! tmp = Some f1)).
  intros m [ Hm Hf ]; destruct (Ho m Hm) as [ H1 H2 ]; split_and!; auto; [ apply off_tmp_only, H1 | ].
  intros k; pose proof (off_tmp_only _ (H2 k)) as [ ? ? ]; auto.
Qed.

Lemma write_and_rename :
  triple (fun m => off_tmp m /\ m !! tmp = Some {| mode := 384; content := [] |})
    (do! _ := os_chmod tmp 384 in do! _ := os_write tmp out in do! _ := os_flush in do! _ := os_flush in
     os_rename tmp path)
    (fun _ m => only m0 path F m /\ m !! path = Some F)
    (fun m => only m0 path F m /\ m !! path = m0 !! path) (only m0 path F).
Proof.
  eapply triple_bind; [ eapply (tmp_step _ _ _ _ _ {| mode := 384; content := [] |}); [ reflexivity | | ] | intros ?; cbn beta ].
  { intros m Hm; auto using off_tmp_alter. }
  { intros m Hm; rewrite lookup_alter_eq, Hm; done. }
  eapply triple_bind; [ eapply (tmp_step _ _ _ _ _ F); [ reflexivity | | ] | intros ?; cbn beta ].
  { intros m Hm; auto using off_tmp_alter. }
  { intros m Hm; rewrite lookup_alter_eq, Hm; cbn; unfold overwrite; rewrite drop_nil, app_nil_r; done. }
  do 2 (eapply triple_bind; [ eapply (tmp_step _ _ _ _ _ F); [ reflexivity | auto | auto ] | intros ?; cbn beta ]).
  apply (triple_write _ (fun m => only m0 path F m /\ m !! path = Some F)); intros m [ Hm Ht ]; rewrite Ht.
  pose proof (off_tmp_only _ Hm) as [ Ho Hp ].
  assert (only m0 path F (<[ path := F ]> (delete tmp m))) as Hn.
  { split; [ right; rewrite lookup_insert_eq; done | ]; intros q Hq Hc; rewrite lookup_insert_ne by auto.
    apply (only_delete m Ho); auto. }
  split_and!; auto; rewrite lookup_insert_eq; done.
Qed.

Lemma fill_temp :
  triple (fun m => m = m0)
    (do! _ := io_write IoFailed (<[ tmp := {| mode := 384; content := [] |} ]>) (fun _ m => m) in
     io_defer (os_remove tmp)
       (do! _ := os_chmod tmp 384 in do! _ := os_write tmp out in do! _ := os_flush in do! _ := os_flush in
        os_rename tmp path))
    (fun _ m => only m0 path F m /\ m !! path = Some F)
    (fun m => only m0 path F m /\ m !! path = m0 !! path) (only m0 path F).
Proof.
  eapply triple_bind.
  - apply (triple_write _ (fun m => off_tmp m /\ m !! tmp = Some {| mode := 384; content := [] |})); intros m ->.
    assert (off_tmp (<[ tmp := {| mode := 384; content := [] |} ]> m0)) as Ho
      by (intros q Hq; rewrite lookup_insert_ne; auto).
    assert (only m0 path F m0) by (apply off_tmp_only; intros q Hq; done).
    split_and!; auto; [ rewrite lookup_insert_eq; done | apply off_tmp_only, Ho ].
  - intros ?; cbn beta; apply triple_defer_remove; [ apply write_and_rename | | | ].
    + intros m [ [ _ [ Hm _ ] ] | [ Hm _ ] ]; auto using only_delete.
    + intros m [ Hm Hp ]; rewrite lookup_delete_ne by auto; auto using only_delete.
    + intros _ m [ Hm Hp ]; rewrite lookup_delete_ne by auto; auto using only_delete.
Qed.
End Replacing.

Lemma replaceFile_triple m0 path out :
  ~ temp_like path ->
  let F := {| mode := 384; content := out |} in
  triple (fun m => m = m0) (replaceFile path out)
    (fun _ m => only m0 path F m /\ m !! path = Some F)
    (fun m => only m0 path F m /\ m !! path = m0 !! path) (only m0 path F).
Proof.
  intros Hp F; assert (only m0 path F m0) as H0 by (split; auto).
  unfold replaceFile; eapply triple_bind.
  { apply (triple_write _ (fun m => m = m0)); intros m ->; auto. }
  intros ? w Hw; destruct (first_free (files w) (Dir path) (randoms w)) as [ [ tmp | ] rs ] eqn:FF.
  - rewrite (createTemp_bind _ _ _ _ _ FF); rewrite Hw in FF; destruct (first_free_spec _ _ _ _ _ FF) as [ Ftmp [ r Ltmp ] ].
    assert (temp_like tmp) as Lt by (exists (Dir path), r; exact Ltmp).
    refine (fill_temp m0 path tmp out Ftmp Lt _ (set_randoms rs w) Hw); intros ->; auto.
  - unfold io_bind, os_createTemp; rewrite FF; cbn.
    rewrite Hw; split_and!; auto; exists []; rewrite app_nil_r; auto.
Qed.
End Triples.

(** ** Where a share lies *)

Lemma sealed_name_plain c :
  contains (Ascii.eqb slash) c = false -> plain (c +:+ ".sealed").
Proof.
  intros Hc; split; [ rewrite contains_app, Hc; done | ].
  assert (forall t, String.length t < 3 -> c +:+ ".sealed" <> t)%nat as L.
  { intros t Ht E; apply (f_equal String.length) in E; rewrite sapp_length in E; cbn in E; lia. }
  split_and!; apply L; cbn; lia.
Qed.

Lemma contains_weaken (p q : ascii -> bool) s :
  (forall c, q c = true -> p c = true) -> contains p s = false -> contains q s = false.
Proof.
  intros Hpq; induction s as [ | c s IH ]; cbn; [ done | ]; intros E; apply orb_false_iff in E as [ E1 E2 ].
  rewrite IH by done; destruct (q c) eqn:Q; [ rewrite (Hpq c Q) in E1; done | done ].
Qed.

Lemma sharePath_ok cfg p c path :
  dir cfg <> "" -> sharePath cfg p c = Ok path ->
  contains (Ascii.eqb slash) c = false /\
  path = under (dir cfg) +:+ ("party-" +:+ show_int p) +:+ String slash (c +:+ ".sealed").
Proof.
  intros Hd H; unfold sharePath in H; destruct (_ || _) eqn:G in H; [ done | ].
  match type of H with Ok ?j = Ok _ => assert (j = path) as <- by congruence end; clear H; b2p.
  assert (contains (Ascii.eqb slash) c = false) as Hc.
  { eapply contains_weaken; [ | eassumption ]; intros a Ha; apply Ascii.eqb_eq in Ha; subst a; done. }
  split; [ done | ]; apply Join_plain; [ done | | apply sealed_name_plain; done ].
  split; [ rewrite contains_app, show_int_no_slash; done | done ].
Qed.

(** The path determines the party and the ceremony. *)
Lemma sharePath_inj cfg p c p' c' path :
  dir cfg <> "" -> sharePath cfg p c = Ok path -> sharePath cfg p' c' = Ok path -> p = p' /\ c = c'.
Proof.
  intros Hd H1 H2; apply sharePath_ok in H1 as [ S1 -> ], H2 as [ S2 E ]; [ | done .. ].
  apply sapp_cancel_l, last_component in E as [ E1 E2 ].
  - apply sapp_cancel_l, show_int_inj in E1; split; [ done | ].
    apply (f_equal to_bytes) in E2; rewrite !to_bytes_app in E2; apply app_inv_tail in E2; apply to_bytes_inj, E2.
  - apply (sealed_name_plain c S1).
  - apply (sealed_name_plain c' S2).
Qed.

(** The paths of shares all end in a letter no temporary name has. *)
Lemma sharePath_not_temp cfg p c path : dir cfg <> "" -> sharePath cfg p c = Ok path -> ~ temp_like path.
Proof.
  intros Hd H [ d [ r E ] ]; apply sharePath_ok in H as [ S -> ]; [ | done ].
  assert (contains (Ascii.eqb slash) (".sealing-" +:+ show_int r) = false) as St
    by (rewrite contains_app, show_int_no_slash; done).
  assert (contains (Ascii.eqb "d") (".sealing-" +:+ show_int r) = false) as Dt.
  { rewrite contains_app; cbn; apply contains_show_int; [ | done ]; intros k Hk.
    apply (digit_char_cases (fun c => Ascii.eqb "d" c = false) k Hk); repeat constructor. }
  assert (exists a, temp_name d ".sealing-" r = a +:+ String slash (".sealing-" +:+ show_int r)) as [ a Ha ].
  { unfold temp_name; destruct (Ascii.eqb _ slash) eqn:L; [ | exists d; rewrite sapp_assoc; done ].
    apply Ascii.eqb_eq in L; destruct (String.get (String.length d - 1) d) as [ ch | ] eqn:G; [ | done ].
    cbn in L; subst ch; exists (String.substring 0 (String.length d - 1) d).
    clear -G; induction d as [ | x d IH ]; [ done | ].
    destruct d as [ | y d ]; [ cbn in G; simplify_eq; done | ].
    replace (String.length (String x (String y d)) - 1)%nat with (S (String.length (String y d) - 1)) in *
      by (cbn; lia).
    cbn [String.get String.substring] in *; rewrite !sapp_cons; f_equal; apply IH; exact G. }
  rewrite Ha, <- sapp_assoc in E; apply last_component in E as [ _ E ]; [ | apply sealed_name_plain; done | done ].
  rewrite <- E, contains_app in Dt; apply orb_false_iff in Dt as [ _ Dt ]; discriminate Dt.
Qed.

(** ** What a store promises

    The specification that [PartyManager] is proved against: [holds] is what is
    kept for a party and ceremony. *)

Class Keeper `{ShareCrypto} (W : Type) := {
  kseal : Z -> string -> KeyShare -> option CeremonyContext -> W -> result StoreErr bool * W;
  kload : Z -> string -> W -> result StoreErr (KeyShare * option CeremonyContext) * W;
  kretire : Z -> string -> W -> result StoreErr bool * W;
  holds : W -> Z -> string -> option (KeyShare * option CeremonyContext);
  sealable : string -> KeyShare -> option CeremonyContext -> Prop;
  own_entry : string -> Prop;  (** ids that are kept apart from all others *)
}.

Class ShareKeeping `{ShareCrypto} (W : Type) `{!Keeper W} : Prop := {
  seal_holds p c s cc w w' :
    sealable c s cc -> well_tagged s -> kseal p c s cc w = (Ok true, w') -> holds w' p c = Some (s, cc);
  (** a sealing that is reported as failed left the old share or the new one *)
  seal_failed p c s cc w r w' :
    sealable c s cc -> well_tagged s -> kseal p c s cc w = (r, w') -> r <> Ok true ->
    holds w' p c = holds w p c \/ holds w' p c = Some (s, cc);
  seal_frame p c s cc w p' c' : own_entry c -> own_entry c' -> (p', c') <> (p, c) -> holds (snd (kseal p c s cc w)) p' c' = holds w p' c';
  load_holds p c w x w' : kload p c w = (Ok x, w') -> holds w p c = Some x;
  load_frame p c w p' c' : holds (snd (kload p c w)) p' c' = holds w p' c';
  retire_holds p c w w' : own_entry c -> kretire p c w = (Ok true, w') -> holds w' p c = None;
  retire_frame p c w p' c' : own_entry c -> own_entry c' -> (p', c') <> (p, c) -> holds (snd (kretire p c w)) p' c' = holds w p' c';
}.

Section Laws.
Context `{VaultKv, ShareCrypto, !StoreJson, Aead}.
Variable cwd : option string.

(** *** Operations that only read *)

Definition quiet {A} (c : Io A) : Prop :=
  forall w, files (snd (c w)) = files w /\ past (snd (c w)) = past w /\ vault (snd (c w)) = vault w.

Lemma io_bind_inv {A B} (c : Io A) (k : A -> Io B) w r w' :
  io_bind c k w = (r, w') ->
  (exists a w1, c w = (Ok a, w1) /\ k a w1 = (r, w')) \/ (is_ok r = false /\ exists r0, c w = (r0, w') /\ is_ok r0 = false).
Proof.
  unfold io_bind; destruct (c w) as [ [ a | e | ] w1 ]; intros E; [ left; eauto | right; simplify_eq; eauto .. ].
Qed.

Lemma quiet_bind {A B} (c : Io A) (k : A -> Io B) : quiet c -> (forall a, quiet (k a)) -> quiet (io_bind c k).
Proof.
  intros Hc Hk w; unfold io_bind; specialize (Hc w); destruct (c w) as [ [ a | e | ] w1 ]; cbn in *; auto.
  destruct Hc as (F & P & V), (Hk a w1) as (F' & P' & V'); split_and!; congruence.
Qed.
Lemma quiet_read {A} e (look : Fs -> option A) : quiet (io_read e look).
Proof.
  intros w; unfold io_read; pose proof (pop_fault_same w) as (F & P & V & _).
  destruct (pop_fault w) as [ [ k | ] w1 ]; cbn in *; [ done | ]; destruct (look (files w1)); done.
Qed.
Lemma quiet_of {A} (r : result StoreErr A) : quiet (io_of r).
Proof. intros w; done. Qed.
Lemma quiet_fail {A} e : quiet (@io_fail _ A e).
Proof. intros w; done. Qed.
Lemma quiet_rand n : quiet (rand_read n).
Proof. intros w; unfold rand_read; case_bool_decide; done. Qed.

#[local] Hint Resolve quiet_bind quiet_read quiet_of quiet_fail quiet_rand : core.

Lemma quiet_loadShareKey cfg : quiet (loadShareKey cwd cfg).
Proof. unfold loadShareKey; repeat (case_match; auto); apply quiet_bind; auto; intros a; repeat (case_match; auto). Qed.
#[local] Hint Resolve quiet_loadShareKey : core.
Lemma quiet_load cfg p c : quiet (loadShareFromFile cwd cfg p c).
Proof. unfold loadShareFromFile; apply quiet_bind; auto; intros key; apply quiet_bind; auto. Qed.

(** A read that succeeded would have without faults. *)
Lemma io_read_ok {A} e (look : Fs -> option A) w a w1 : io_read e look w = (Ok a, w1) -> look (files w) = Some a.
Proof.
  unfold io_read; pose proof (pop_fault_same w) as (F & _).
  destruct (pop_fault w) as [ [ k | ] w2 ]; cbn in *; [ done | ]; rewrite F; destruct (look (files w)); intros E; simplify_eq; done.
Qed.
Lemma io_read_now {A} e (look : Fs -> option A) w :
  io_read e look (without_faults w) = (match look (files w) with Some a => Ok a | None => Err e end, without_faults w).
Proof. unfold io_read; cbn; destruct (look (files w)); done. Qed.

Definition keyNow (cfg : fileShareConfig) (f : option file) : result StoreErr bytes :=
  if String.eqb (keyFile cfg) "" then Err NoKeyFile
  else match f with
       | None => Err KeyFile
       | Some f => if negb (Z.land (mode f) 7 =? 0) then Err (KeyWorldReadable (mode f))
                   else if insideStore cwd cfg then Err KeyInsideStore else keyFromFile (content f)
       end.

Lemma loadShareKey_now cfg w : loadShareKey cwd cfg (without_faults w) = (keyNow cfg (files w !! keyFile cfg), without_faults w).
Proof.
  unfold loadShareKey, keyNow; destruct (String.eqb _ _); [ done | ]; unfold io_bind; rewrite io_read_now.
  destruct (files w !! keyFile cfg) as [ f | ] eqn:L; [ | done ]; destruct (negb _); [ done | ].
  destruct (insideStore cwd cfg); [ done | ]; rewrite io_read_now, L; done.
Qed.

Lemma loadShareKey_ok cfg w key w1 :
  loadShareKey cwd cfg w = (Ok key, w1) -> keyNow cfg (files w !! keyFile cfg) = Ok key /\ is_Some (files w !! keyFile cfg).
Proof.
  unfold loadShareKey, keyNow; intros E; destruct (String.eqb _ _); [ done | ].
  apply io_bind_inv in E as [ (f & w2 & R & E) | [ ? _ ] ]; [ | done ].
  pose proof (quiet_read KeyFile (fun m => m !! keyFile cfg) w) as (F & _); rewrite R in F; cbn in F.
  apply io_read_ok in R; rewrite R; destruct (negb _); [ done | ]; destruct (insideStore cwd cfg); [ done | ].
  apply io_bind_inv in E as [ (g & w3 & R' & E) | [ ? _ ] ]; [ | done ].
  apply io_read_ok in R'; rewrite F, R in R'; simplify_eq; unfold io_of in E; split; [ congruence | eauto ].
Qed.

(** What loading finds when nothing goes wrong. *)
Definition fileHolds (cfg : fileShareConfig) (m : Fs) (p : Z) (c : string) : result StoreErr (KeyShare * option CeremonyContext) :=
  let! key := keyNow cfg (m !! keyFile cfg) in
  let! path := sharePath cfg p c in
  match m !! path with
  | None => Err NoSealedFile
  | Some f => openSealed key (content f) p c
  end.

Lemma load_now cfg p c w : fst (loadShareFromFile cwd cfg p c (without_faults w)) = fileHolds cfg (files w) p c.
Proof.
  unfold loadShareFromFile, fileHolds, io_bind; rewrite loadShareKey_now.
  destruct (keyNow _ _) as [ key | e | ]; [ | done | done ]; cbn [result_bind]; unfold io_of at 1.
  destruct (sharePath cfg p c) as [ path | e | ]; cbn [result_bind]; [ | done | done ].
  rewrite io_read_now; destruct (files w !! path); done.
Qed.

Lemma load_ok cfg p c w x w' : loadShareFromFile cwd cfg p c w = (Ok x, w') -> fileHolds cfg (files w) p c = Ok x.
Proof.
  unfold loadShareFromFile, fileHolds; intros E.
  apply io_bind_inv in E as [ (key & w1 & K & E) | [ ? _ ] ]; [ | done ].
  pose proof (quiet_loadShareKey cfg w) as (F & _); rewrite K in F; cbn in F.
  apply loadShareKey_ok in K as [ -> _ ]; cbn.
  apply io_bind_inv in E as [ (path & w2 & S & E) | [ ? _ ] ]; [ | done ]; unfold io_of in S; injection S as S <-; rewrite S; cbn.
  apply io_bind_inv in E as [ (blob & w3 & R & E) | [ ? _ ] ]; [ | done ].
  apply io_read_ok in R; rewrite F in R; destruct (files w !! path); [ | done ].
  cbn in R; unfold io_of in E; simplify_eq; done.
Qed.
(** *** Sealing to a file *)

Lemma seal_steps cfg p c share cc w r w' :
  sealShareToFile cwd cfg p c share cc w = (r, w') ->
  (is_ok r = false /\ files w' = files w /\ past w' = past w /\ vault w' = vault w) \/
  exists key path pay plain nonce out w1,
    keyNow cfg (files w !! keyFile cfg) = Ok key /\ is_Some (files w !! keyFile cfg) /\ sharePath cfg p c = Ok path /\
    payloadOf p c share cc = Ok pay /\ encode pay = Some plain /\ newGCM key = Ok tt /\
    length nonce = nonceSize /\ bytes_ok nonce /\
    encode {| Version := sealedFileVersion; Nonce := hex_encode nonce;
              Data := hex_encode (gcmSeal key nonce plain (shareAAD p c)) |} = Some out /\
    files w1 = files w /\ past w1 = past w /\ vault w1 = vault w /\ replaceFile path out w1 = (r, w').
Proof.
  unfold sealShareToFile; intros E.
  assert (forall {A} (x : Io A) v v' r0, quiet x -> files v = files w /\ past v = past w /\ vault v = vault w ->
    x v = (r0, v') -> files v' = files w /\ past v' = past w /\ vault v' = vault w) as Q.
  { intros A x v v' r0 Hx (Fv & Pv & Vv) Ex; pose proof (Hx v) as (F & P & V); rewrite Ex in F, P, V; cbn in *.
    split_and!; congruence. }
  assert (forall {A} (x : Io A) (k : A -> Io unit) v, quiet x -> files v = files w /\ past v = past w /\ vault v = vault w ->
    io_bind x k v = (r, w') ->
    (is_ok r = false /\ files w' = files w /\ past w' = past w /\ vault w' = vault w) \/
    exists a v', x v = (Ok a, v') /\ k a v' = (r, w') /\ files v' = files w /\ past v' = past w /\ vault v' = vault w) as St.
  { intros A x k v Hx Hv Ex; apply io_bind_inv in Ex as [ (a & v' & X & K) | (N & r0 & X & _) ];
      pose proof (Q _ x v _ _ Hx Hv X); [ right; eauto 10 | left; auto ]. }
  apply St in E as [ ? | (key & w1 & K & E & S1) ]; auto.
  apply loadShareKey_ok in K as [ K KS ].
  apply St in E as [ ? | (path & w2 & Pa & E & S2) ]; auto.
  apply St in E as [ ? | (pay & w3 & Py & E & S3) ]; auto.
  apply St in E as [ ? | (plain & w4 & Pl & E & S4) ]; auto.
  apply St in E as [ ? | (u & w5 & G & E & S5) ]; auto.
  apply St in E as [ ? | (nonce & w6 & N & E & S6) ]; auto.
  apply St in E as [ ? | (out & w7 & O & E & S7) ]; auto.
  right; unfold io_of in *; unfold rand_read in N; case_bool_decide as L; [ | done ].
  destruct (encode pay) as [ pl | ] eqn:EP; [ | done ].
  injection Pa as Pa _; injection Py as Py _; injection Pl as Pl _; injection G as G _; injection N as N _; subst nonce pl.
  destruct (encode (A := sealedFile) _) as [ o | ] eqn:EO; [ | done ]; injection O as O _; subst o.
  destruct u; exists key, path, pay, plain, (u8 <$> take nonceSize (entropy w5)), out, w7.
  destruct S7 as (? & ? & ?); split_and!; auto.
  - rewrite length_fmap, length_take; lia.
  - apply Forall_fmap, Forall_true; intros x; apply u8_range.
Qed.

Context `{!StoreJsonLaws, !AeadLaws}.

Definition carried (c : string) (s : KeyShare) (cc : option CeremonyContext) : Prop :=
  utf8 c /\ utf8 (Curve_ s) /\ faithful s /\ forall x, cc = Some x -> faithful x.

Lemma payloadOf_ok p c share cc :
  carried c share cc -> well_tagged share ->
  exists pay plain, payloadOf p c share cc = Ok pay /\ encode pay = Some plain /\ (bytes_ok plain /\ decode plain = Some pay) /\
    PartyID pay = p /\ CeremonyID pay = c /\ SaveData pay <> "" /\ utf8 (SaveData pay) /\ utf8 (ceremonyContext pay) /\
    UnmarshalShare (to_bytes (SaveData pay)) = Ok share /\
    match cc with
    | None => ceremonyContext pay = ""
    | Some x => ceremonyContext pay <> "" /\ decode (to_bytes (ceremonyContext pay)) = Some x
    end.
Proof.
  intros (Uc & _ & Fs & Fc) W; destruct (decode_encode share Fs) as (raw & Er & Br & Dr).
  destruct (share_json share raw Er) as [ Nr Ur ].
  assert (forall b, bytes_ok b -> b <> [] -> of_bytes b <> "") as NE by (intros [ | ] Hb Hn; done).
  assert (exists ctx, match cc with None => Ok ""%string
      | Some c => match encode c with Some b => Ok (of_bytes b) | None => Err ContextMarshal end end = Ok ctx /\ utf8 ctx /\
      match cc with None => ctx = "" | Some x => ctx <> "" /\ decode (to_bytes ctx) = Some x end) as (ctx & Ec & Uctx & Dc).
  { destruct cc as [ x | ]; [ | exists ""; split_and!; auto; apply empty_utf8 ].
    destruct (decode_encode x (Fc x eq_refl)) as (b & Eb & Bb & Db); destruct (context_json x b Eb) as [ Nb Ub ].
    rewrite Eb; exists (of_bytes b); rewrite to_of_bytes by done; auto. }
  unfold payloadOf, MarshalShare; rewrite Er; cbn [map_err result_bind]; rewrite Ec; cbn [result_bind].
  eexists; edestruct (decode_encode (A := sealedPayload)) as (plain & Ep & Bp & Dp); [ | exists plain; split_and!; [ reflexivity | .. ] ]; cbn; eauto.
  - apply payload_faithful; cbn; auto.
  - rewrite to_of_bytes by done; apply UnmarshalShare_ok; auto.
Qed.

Lemma open_of_seal key nonce plain out p c share cc pay :
  carried c share cc -> well_tagged share -> payloadOf p c share cc = Ok pay -> encode pay = Some plain ->
  newGCM key = Ok tt -> length nonce = nonceSize -> bytes_ok nonce ->
  encode {| Version := sealedFileVersion; Nonce := hex_encode nonce;
            Data := hex_encode (gcmSeal key nonce plain (shareAAD p c)) |} = Some out ->
  openSealed key out p c = Ok (share, cc).
Proof.
  intros Hc W Py Ep G Ln Bn Eo; unfold openSealed.
  destruct (decode_encode _ (file_faithful sealedFileVersion nonce (gcmSeal key nonce plain (shareAAD p c)))) as (out' & Eo' & _ & Do).
  assert (out' = out) as -> by congruence; rewrite Do; cbn [Version Nonce Data]; rewrite Z.eqb_refl; cbn [negb].
  destruct (payloadOf_ok p c share cc Hc W) as (pay' & plain' & Py' & Ep' & [ Bp Dp ] & Hp & Hid & _ & _ & _ & Hs & Hcc).
  assert (pay' = pay) as -> by congruence; assert (plain' = plain) as -> by congruence.
  rewrite !hex_decode_encode by (auto; apply seal_bytes; done); rewrite G, bool_decide_true by done; cbn [negb].
  rewrite open_seal, Dp, Hp, Hid, Z.eqb_refl, String.eqb_refl; cbn [negb orb]; rewrite Hs; cbn [map_err result_bind].
  destruct cc as [ x | ]; [ destruct Hcc as [ N D ] | ].
  - replace (String.eqb _ _) with false by (symmetry; apply String.eqb_neq; done); rewrite D; done.
  - rewrite Hcc; done.
Qed.
(** The key file is not one of the files the store writes. *)
Definition apart (cfg : fileShareConfig) : Prop :=
  dir cfg <> "" /\ forall p c path, sharePath cfg p c = Ok path -> path <> keyFile cfg.

Lemma fileHolds_ext cfg m m' p c :
  m !! keyFile cfg = m' !! keyFile cfg -> (forall path, sharePath cfg p c = Ok path -> m !! path = m' !! path) ->
  fileHolds cfg m p c = fileHolds cfg m' p c.
Proof.
  intros K P; unfold fileHolds; rewrite K; destruct (keyNow _ _); cbn; [ | done | done ].
  destruct (sharePath cfg p c) as [ path | | ]; cbn; [ rewrite (P path); done | done | done ].
Qed.

(** Every file system met while a share is replaced holds what was held before,
    the share being sealed apart. *)
Lemma only_frame cfg p c path F m0 m :
  apart cfg -> is_Some (m0 !! keyFile cfg) -> sharePath cfg p c = Ok path -> only m0 path F m ->
  m !! keyFile cfg = m0 !! keyFile cfg /\
  (forall p' c', (p', c') <> (p, c) -> fileHolds cfg m p' c' = fileHolds cfg m0 p' c') /\
  (m !! path = m0 !! path -> fileHolds cfg m p c = fileHolds cfg m0 p c).
Proof.
  intros [ Hd Ha ] KS Pa [ Ho1 Ho2 ].
  assert (m !! keyFile cfg = m0 !! keyFile cfg) as Ek by (apply Ho2; [ intros E; apply (Ha _ _ _ Pa); done | auto ]).
  split_and!; [ done | | ].
  - intros p' c' Hne; apply fileHolds_ext; [ done | ]; intros path' P'; apply Ho2.
    + intros ->; apply Hne; destruct (sharePath_inj _ _ _ _ _ _ Hd Pa P'); congruence.
    + left; apply (sharePath_not_temp cfg p' c'); auto.
  - intros E; apply fileHolds_ext; [ done | ]; intros path' P'; congruence.
Qed.

Lemma seal_frame_file cfg p c share cc w r w' p' c' :
  apart cfg -> sealShareToFile cwd cfg p c share cc w = (r, w') -> (p', c') <> (p, c) ->
  fileHolds cfg (files w') p' c' = fileHolds cfg (files w) p' c'.
Proof.
  intros Ha E Hne; apply seal_steps in E as [ (_ & -> & _) | (key & path & pay & plain & nonce & out & w1 & S) ]; [ done | ].
  destruct S as (K & KS & Pa & Py & Ep & G & Ln & Bn & Eo & F1 & P1 & V1 & R).
  pose proof (replaceFile_triple (files w) path out (sharePath_not_temp _ _ _ _ (proj1 Ha) Pa) w1 F1) as (T & _).
  rewrite R in T; eapply (only_frame cfg p c path); eauto; destruct r; [ apply T | apply T | done ].
Qed.

Lemma seal_effect cfg p c share cc w r w' :
  apart cfg -> carried c share cc -> well_tagged share -> sealShareToFile cwd cfg p c share cc w = (r, w') ->
  let kept m := (forall p' c', (p', c') <> (p, c) -> fileHolds cfg m p' c' = fileHolds cfg (files w) p' c') /\
    (fileHolds cfg m p c = fileHolds cfg (files w) p c \/ fileHolds cfg m p c = Ok (share, cc)) in
  kept (files w') /\ (exists new, past w' = past w ++ new /\ Forall kept new) /\ vault w' = vault w /\
  (r = Ok tt -> fileHolds cfg (files w') p c = Ok (share, cc)) /\
  (r <> Ok tt -> fileHolds cfg (files w') p c = fileHolds cfg (files w) p c).
Proof.
  intros Ha Hc W E kept; apply seal_steps in E as [ (N & F & P & V) | (key & path & pay & plain & nonce & out & w1 & S) ].
  { unfold kept; rewrite F; split_and!; auto; [ exists []; rewrite app_nil_r; auto | intros ->; done ]. }
  destruct S as (K & KS & Pa & Py & Ep & G & Ln & Bn & Eo & F1 & P1 & V1 & R).
  assert (forall m, only (files w) path {| mode := 384; content := out |} m ->
    (forall p' c', (p', c') <> (p, c) -> fileHolds cfg m p' c' = fileHolds cfg (files w) p' c') /\
    (m !! path = files w !! path -> fileHolds cfg m p c = fileHolds cfg (files w) p c) /\
    (m !! path = Some {| mode := 384; content := out |} -> fileHolds cfg m p c = Ok (share, cc))) as OH.
  { intros m Hm; destruct (only_frame cfg p c path _ _ m Ha KS Pa Hm) as (Ek & X & Y); split_and!; auto.
    intros Em; unfold fileHolds; rewrite Ek, K; cbn; rewrite Pa; cbn; rewrite Em; cbn [content].
    apply (open_of_seal key nonce plain out p c share cc pay); auto. }
  pose proof (replaceFile_triple (files w) path out (sharePath_not_temp _ _ _ _ (proj1 Ha) Pa) w1 F1) as (T & (new & Pn & Sn) & Vn).
  rewrite R in T, Pn, Vn; cbn in T, Pn, Vn.
  assert (forall m, only (files w) path {| mode := 384; content := out |} m -> kept m) as Hk.
  { intros m Hm; destruct (OH m Hm) as (A & B & C); destruct (proj1 Hm) as [ Hm1 | Hm1 ]; split; auto. }
  assert (only (files w) path {| mode := 384; content := out |} (files w')) as Ho by (destruct r; [ apply T | apply T | done ]).
  split; [ auto | ]; split; [ exists new; rewrite Pn, P1; split; [ done | eapply Forall_impl; eauto ] | ].
  split; [ congruence | ]; destruct (OH _ Ho) as (A & B & C).
  split; [ intros ->; apply C, T | intros Nr; apply B; destruct r as [ [ ] | | ]; [ done | apply T | done ] ].
Qed.

(** What a sealed file opens as. *)
Lemma open_bound key nonce plain out p c share cc pay p' c' x :
  carried c share cc -> well_tagged share -> payloadOf p c share cc = Ok pay -> encode pay = Some plain ->
  bytes_ok nonce ->
  encode {| Version := sealedFileVersion; Nonce := hex_encode nonce;
            Data := hex_encode (gcmSeal key nonce plain (shareAAD p c)) |} = Some out ->
  openSealed key out p' c' = Ok x -> (p', c') = (p, c).
Proof.
  intros Hc W Py Ep Bn Eo Hx; unfold openSealed in Hx.
  destruct (decode_encode _ (file_faithful sealedFileVersion nonce (gcmSeal key nonce plain (shareAAD p c)))) as (out' & Eo' & _ & Do).
  assert (out' = out) as -> by congruence; rewrite Do in Hx; cbn [Version Nonce Data] in Hx.
  destruct (payloadOf_ok p c share cc Hc W) as (pay' & plain' & Py' & Ep' & [ Bp Dp ] & Hp & Hid & _).
  assert (pay' = pay) as -> by congruence; assert (plain' = plain) as -> by congruence.
  rewrite !hex_decode_encode in Hx by (auto; apply seal_bytes; done); destruct (newGCM key); [ | discriminate Hx .. ].
  pass_guards Hx; destruct (gcmOpen _ _ _ _) as [ plain' | ] eqn:G; [ | discriminate Hx ].
  apply open_only_sealed, seal_determines in G as <-.
  rewrite Dp, Hp, Hid in Hx; destruct (_ || _) eqn:N; [ discriminate Hx | ]; b2p; congruence.
Qed.

(** *** Retiring a file *)

Lemma triple_ignore {A} P (c : Io A) (Q : A -> Fs -> Prop) (R E E' S : Fs -> Prop) :
  triple P c Q E S -> (forall a m, Q a m -> R m) -> (forall m, E m -> R m) -> triple P (io_ignore c) (fun _ => R) E' S.
Proof.
  intros Hc HQ HE w Hw; specialize (Hc w Hw); unfold io_ignore; destruct (c w) as [ [ a | e | ] w1 ]; cbn in *;
    [ | | destruct Hc as [ [ ] _ ] ]; destruct Hc as (X & Y & Z); split; eauto.
Qed.

Lemma triple_read {A} (P S : Fs -> Prop) e (look : Fs -> option A) : triple P (io_read e look) (fun _ => P) P S.
Proof.
  intros w Hw; pose proof (quiet_read e look w) as (F & Pa & V); unfold io_read in *.
  destruct (pop_fault w) as [ [ k | ] w1 ]; cbn in *; [ | destruct (look (files w1)); cbn in * ]; rewrite F, Pa, V;
    split_and!; auto; exists []; rewrite app_nil_r; auto.
Qed.

Lemma retire_effect cfg p c w r w' :
  apart cfg -> retireShareFile cfg p c w = (r, w') ->
  (forall p' c', (p', c') <> (p, c) -> fileHolds cfg (files w') p' c' = fileHolds cfg (files w) p' c') /\
  (r = Ok tt -> is_ok (fileHolds cfg (files w') p c) = false) /\ vault w' = vault w.
Proof.
  intros [ Hd Ha ] E; unfold retireShareFile in E.
  apply io_bind_inv in E as [ (path & w1 & Pa & E) | [ N (r0 & E & _) ] ]; unfold io_of in *; cycle 1.
  { injection E as _ <-; split_and!; auto; intros ->; done. }
  injection Pa as Pa <-.
  set (off := fun m : Fs => forall q, q <> path -> m !! q = files w !! q).
  assert (forall m, off m ->
    (forall p' c', (p', c') <> (p, c) -> fileHolds cfg m p' c' = fileHolds cfg (files w) p' c') /\
    (m !! path = None -> is_ok (fileHolds cfg m p c) = false)) as Hoff.
  { intros m Hm; split.
    - intros p' c' Hne; apply fileHolds_ext; [ apply Hm; intros Eq; apply (Ha _ _ _ Pa); done | ].
      intros path' P'; apply Hm; intros ->; apply Hne; destruct (sharePath_inj _ _ _ _ _ _ Hd Pa P'); congruence.
    - intros L; unfold fileHolds; destruct (keyNow _ _); cbn; [ | done | done ]; rewrite Pa; cbn; rewrite L; done. }
  assert (off (files w)) as Hoff0 by (intros q Hq; done).
  apply io_bind_inv in E as [ (info & w2 & St & E) | [ N (r0 & E & _) ] ].
  2: { pose proof (quiet_read IoFailed (fun m : Fs => Some (m !! path)) w) as (F & _ & V).
       unfold os_stat in E; rewrite E in F, V; cbn in F, V; rewrite F; split_and!; auto; intros ->; done. }
  pose proof (quiet_read IoFailed (fun m : Fs => Some (m !! path)) w) as (F & _ & V).
  unfold os_stat in St; rewrite St in F, V; cbn in F, V; apply io_read_ok in St; injection St as St.
  destruct info as [ f | ]; [ | injection E as <- <-; rewrite F; destruct (Hoff _ Hoff0) as [ X Y ]; split_and!; auto ].
  assert (forall b, forall m, off m -> off (alter (fun f => {| mode := mode f; content := overwrite b (content f) |}) path m)) as Hal
    by (intros b m Hm q Hq; rewrite lookup_alter_ne; auto).
  assert (triple off (do! _ := io_ignore (do! _ := io_read IoFailed (fun m : Fs => m !! path) in
      do! _ := io_ignore (os_write path (replicate (length (content f)) 0)) in io_ignore os_flush) in os_remove path)
    (fun _ m => off m /\ m !! path = None) off (fun _ => True)) as T.
  { eapply triple_bind.
    - apply (triple_ignore _ _ (fun _ => off) off off); auto.
      eapply triple_bind; [ apply triple_read | intros ? ]; cbn beta.
      eapply triple_bind; [ apply (triple_ignore _ _ (fun _ => off) off off); auto | intros ?; cbn beta ].
      + apply (triple_write _ off); intros m Hm; split_and!; auto.
      + apply (triple_ignore _ _ (fun _ => off) off off); auto; apply (triple_write _ off); intros m Hm; auto.
    - intros ?; cbn beta; intros w0 Hw0; unfold os_remove; destruct (files w0 !! path) eqn:L.
      + apply (triple_write off (fun m => off m /\ m !! path = None)); auto; intros m Hm; split_and!; auto.
        * intros q Hq; rewrite lookup_delete_ne; auto.
        * apply lookup_delete_eq.
      + pose proof (pop_fault_same w0) as (F0 & P0 & V0 & _); cbn; rewrite F0, P0, V0; split_and!; auto.
        exists []; rewrite app_nil_r; auto. }
  specialize (T w2); rewrite F in T; specialize (T Hoff0) as (T & _ & V2).
  rewrite E in T, V2; cbn in T, V2; split_and!; [ | | congruence ].
  - apply Hoff; destruct r; [ apply T | apply T | done ].
  - intros ->; apply (proj2 (Hoff _ (proj1 T))), T.
Qed.
(** *** The store the environment selects *)

Variable getenv : string -> string.

(** The file store refuses an id that is not a plain name; the Vault store does
    not look. *)
Definition separate (c : string) : Prop := getenv "VAULT_ADDR" = "" \/ plain c.

#[local] Instance env_keeper : Keeper World := {
  kseal := SealKeyShareWithContext cwd getenv;
  kload := LoadSealedShare cwd getenv;
  kretire := RetireSealedShare getenv;
  holds w p c := match fst (LoadSealedShare cwd getenv p c (without_faults w)) with Ok x => Some x | _ => None end;
  sealable c s cc := separate c /\ carried c s cc;
  own_entry := separate;
}.

(** The key of a file store is not among the files it writes; the directory of
    a Vault store does not climb. *)
Definition store_ok : Prop :=
  (forall cfg p c path, fileShareConfigFromEnv getenv = Some cfg -> sharePath cfg p c = Ok path -> path <> keyFile cfg) /\
  dotless (orDefaultVault (getenv "VAULT_KEY_SHARE_PATH") "openfireblocks/mpc-party").

Lemma config_apart cfg : store_ok -> fileShareConfigFromEnv getenv = Some cfg -> apart cfg.
Proof.
  intros [ Hs _ ] E; split; [ | intros p c path; apply Hs; done ].
  unfold fileShareConfigFromEnv in E; destruct (String.eqb_spec (trim_space (getenv "SHARE_STORE_DIR")) ""); [ done | ].
  injection E as <-; done.
Qed.

(** Vault is configured by one variable, whatever the party and ceremony. *)
Lemma vault_config_conn p c p' c' cfg cfg' :
  vaultShareConfigFromEnv getenv p c = Some cfg -> vaultShareConfigFromEnv getenv p' c' = Some cfg' -> connOf cfg' = connOf cfg.
Proof.
  unfold vaultShareConfigFromEnv; destruct (String.eqb (getenv "VAULT_ADDR") ""); [ done | ]; intros E1 E2; injection E1 as <-; injection E2 as <-; done.
Qed.

Lemma separate_vault p c cfg : vaultShareConfigFromEnv getenv p c = Some cfg -> separate c -> plain c.
Proof. unfold vaultShareConfigFromEnv; intros C [ E | P ]; [ rewrite E in C; done | done ]. Qed.

Lemma party_plain p : plain ("party-" +:+ show_int p).
Proof. split_and!; [ rewrite contains_app; apply (show_int_no_slash p) | done .. ]. Qed.

(** Plain ids have entries of their own. *)
Lemma vault_entry_dotless p c cfg : store_ok -> vaultShareConfigFromEnv getenv p c = Some cfg -> plain c -> dotless (keyPath cfg).
Proof.
  intros [ _ Hb ] C Pc; unfold vaultShareConfigFromEnv in C; destruct (String.eqb _ ""); [ done | ]; injection C as <-; cbn [keyPath].
  destruct (party_plain p) as (S1 & _ & _ & N1), Pc as (S2 & _ & _ & N2).
  change (dotless (orDefaultVault (getenv "VAULT_KEY_SHARE_PATH") "openfireblocks/mpc-party" +:+ String slash (("party-" +:+ show_int p) +:+ String slash c))).
  unfold dotless; rewrite !split_slash_app, (split_slash_single _ S1), (split_slash_single c S2), !not_elem_of_app, !not_elem_of_cons.
  split_and!; [ exact Hb | congruence | apply not_elem_of_nil | congruence | apply not_elem_of_nil ].
Qed.

Lemma vault_entry_inj p c p' c' cfg cfg' :
  vaultShareConfigFromEnv getenv p c = Some cfg -> vaultShareConfigFromEnv getenv p' c' = Some cfg' -> plain c -> plain c' ->
  entryPath (connOf cfg) (keyPath cfg') = entryPath (connOf cfg) (keyPath cfg) -> (p', c') = (p, c).
Proof.
  unfold vaultShareConfigFromEnv; destruct (String.eqb (getenv "VAULT_ADDR") ""); [ done | ]; intros E1 E2 P P'.
  injection E1 as <-; injection E2 as <-; unfold entryPath; cbn [keyPath connOf vMount mount].
  set (base := orDefaultVault (getenv "VAULT_KEY_SHARE_PATH") _); set (m := orDefaultVault (getenv "VAULT_KV_MOUNT") _).
  assert (forall n i, plain i -> Clean ("/" +:+ m +:+ "/data/" +:+ base +:+ "/party-" +:+ show_int n +:+ "/" +:+ i) =
    under ("/" +:+ m +:+ "/data/" +:+ base) +:+ ("party-" +:+ show_int n) +:+ String slash i) as J.
  { intros n i Pi; rewrite <- (Join_plain ("/" +:+ m +:+ "/data/" +:+ base) ("party-" +:+ show_int n) i); [ | done | apply party_plain | done ].
    unfold Join; cbn [String.eqb String.append]; f_equal; cbn [join_slash]; rewrite ?sapp_assoc; reflexivity. }
  rewrite !J by done; intros E; apply sapp_cancel_l, last_component in E as [ E -> ]; [ | apply P' | apply P ].
  apply sapp_cancel_l, show_int_inj in E; congruence.
Qed.

Lemma vault_configured p c p' c' :
  vaultShareConfigFromEnv getenv p c = None -> vaultShareConfigFromEnv getenv p' c' = None.
Proof. unfold vaultShareConfigFromEnv; destruct (String.eqb _ ""); done. Qed.
(** *** Vault entries *)

Lemma entry_lookups p c share pay cc :
  let d := entryOf p c share pay cc in
  d !! "save_data" = Some (VStr (SaveData pay)) /\
  d !! "ceremony_context" = match cc with None => None | Some _ => Some (VStr (ceremonyContext pay)) end /\
  forall k s, d !! k = Some (VStr s) -> s ∈ [ c; Curve_ share; SaveData pay; ceremonyContext pay ].
Proof.
  intros d; split_and!; [ destruct cc; reflexivity .. | ].
  intros k s; subst d; unfold entryOf; destruct cc; intros L;
    repeat (apply lookup_insert_Some in L as [ [ <- L ] | [ _ L ] ]; [ simplify_eq; set_solver | ]);
    apply lookup_singleton_Some in L as [ <- L ]; simplify_eq; set_solver.
Qed.

(** An entry that carries what was sealed is read as it. *)
Lemma vault_reads cfg p c0 c share cc pay d' w :
  vaultShareConfigFromEnv getenv p c0 = Some cfg -> newClient (addr cfg) = true ->
  carried c share cc -> well_tagged share -> payloadOf p c share cc = Ok pay ->
  kvGet (connOf cfg) (keyPath cfg) (vault w) = Some (Some d') ->
  (forall k s, entryOf p c share pay cc !! k = Some (VStr s) -> d' !! k = Some (VStr s)) ->
  (forall k, entryOf p c share pay cc !! k = None -> d' !! k = None) ->
  holds w p c0 = Some (share, cc).
Proof.
  intros C N Hc W Py G D1 D2; destruct (payloadOf_ok p c share cc Hc W) as (pay' & plain & Py' & _ & _ & _ & _ & Ns & _ & _ & Us & Cx).
  assert (pay' = pay) as -> by congruence; destruct (entry_lookups p c share pay cc) as (L1 & L2 & _).
  cbn [holds env_keeper]; unfold LoadSealedShare; rewrite C; cbn [fst]; unfold readEntry; rewrite N; cbn [negb].
  change (vault (without_faults w)) with (vault w); rewrite G; cbn [result_bind].
  unfold stringAt; rewrite (D1 _ _ L1); replace (String.eqb (SaveData pay) "") with false by (symmetry; apply String.eqb_neq; done).
  rewrite Us; cbn [map_err result_bind]; destruct cc as [ x | ].
  - destruct Cx as [ Nx Dx ]; rewrite (D1 _ _ L2); replace (String.eqb _ "") with false by (symmetry; apply String.eqb_neq; done).
    rewrite Dx; done.
  - rewrite (D2 _ L2); done.
Qed.

Lemma vault_holds_ext p c cfg w w' :
  vaultShareConfigFromEnv getenv p c = Some cfg ->
  kvGet (connOf cfg) (keyPath cfg) (vault w') = kvGet (connOf cfg) (keyPath cfg) (vault w) -> holds w' p c = holds w p c.
Proof.
  intros C G; cbn [holds env_keeper]; unfold LoadSealedShare; rewrite C; cbn [fst]; unfold readEntry.
  change (vault (without_faults w)) with (vault w); change (vault (without_faults w')) with (vault w'); rewrite G; done.
Qed.

Lemma file_holds p c cfg w :
  vaultShareConfigFromEnv getenv p c = None -> fileShareConfigFromEnv getenv = Some cfg ->
  holds w p c = match fileHolds cfg (files w) p c with Ok x => Some x | _ => None end.
Proof. intros C F; cbn [holds env_keeper]; unfold LoadSealedShare; rewrite C, F, load_now; done. Qed.

Lemma nothing_holds p c w :
  vaultShareConfigFromEnv getenv p c = None -> fileShareConfigFromEnv getenv = None -> holds w p c = None.
Proof. intros C F; cbn [holds env_keeper]; unfold LoadSealedShare; rewrite C, F; done. Qed.

Context `{!VaultLaws}.

Lemma vault_seal_outcome cfg p c s cc w r w' :
  store_ok -> vaultShareConfigFromEnv getenv p c = Some cfg -> separate c -> carried c s cc -> well_tagged s ->
  kseal p c s cc w = (r, w') ->
  (r = Ok true -> holds w' p c = Some (s, cc)) /\ (holds w' p c = holds w p c \/ holds w' p c = Some (s, cc)).
Proof.
  intros Hok C Sc Hc W; pose proof (vault_entry_dotless p c cfg Hok C (separate_vault _ _ _ C Sc)) as DL.
  cbn [kseal env_keeper]; unfold SealKeyShareWithContext; rewrite C.
  destruct (newClient (addr cfg)) eqn:N; cbn [negb]; [ | intros E; injection E as <- <-; split; [ done | auto ] ].
  destruct (payloadOf_ok p c s cc Hc W) as (pay & plain & Py & _ & _ & _ & _ & Ns & Us & Uc & _ & _).
  unfold io_bind, io_of; rewrite Py; intros E.
  destruct (kvPut _ _ _ _) as [ [ | ] v' ] eqn:K; injection E as <- <-.
  - apply put_get in K as (d' & G & D1 & D2); [ | done | ].
    + assert (holds (set_vault v' w) p c = Some (s, cc)) by (eapply vault_reads; eauto); auto.
    + intros k t L; apply entry_lookups in L; destruct Hc as (? & ? & _).
      rewrite !elem_of_cons in L; destruct_or! L; subst; auto; apply elem_of_nil in L; done.
  - split; [ done | ]; apply put_failed in K as [ G | (d' & G & D1 & D2) ]; [ | | done ].
    + left; eapply vault_holds_ext; eauto.
    + right; eapply vault_reads; eauto.
Qed.

Lemma env_seal_holds p c s cc w w' :
  store_ok -> separate c /\ carried c s cc -> well_tagged s -> kseal p c s cc w = (Ok true, w') -> holds w' p c = Some (s, cc).
Proof.
  intros Hok [ Sc Hc ] W E; destruct (vaultShareConfigFromEnv getenv p c) as [ cfg | ] eqn:C.
  - apply (vault_seal_outcome cfg p c s cc w _ w' Hok C Sc Hc W E); done.
  - cbn [kseal env_keeper] in E; unfold SealKeyShareWithContext in E; rewrite C in E.
    destruct (fileShareConfigFromEnv getenv) as [ fcfg | ] eqn:F; [ | done ].
    apply io_bind_inv in E as [ (u & w1 & S & E) | [ ? _ ] ]; [ | done ]; injection E as <-; destruct u.
    rewrite (file_holds p c fcfg) by done.
    destruct (seal_effect fcfg p c s cc w _ _ (config_apart _ Hok F) Hc W S) as (_ & _ & _ & G & _); rewrite G; done.
Qed.

Lemma env_seal_failed p c s cc w r w' :
  store_ok -> separate c /\ carried c s cc -> well_tagged s -> kseal p c s cc w = (r, w') -> r <> Ok true ->
  holds w' p c = holds w p c \/ holds w' p c = Some (s, cc).
Proof.
  intros Hok [ Sc Hc ] W E N; destruct (vaultShareConfigFromEnv getenv p c) as [ cfg | ] eqn:C.
  - apply (vault_seal_outcome cfg p c s cc w _ w' Hok C Sc Hc W E).
  - cbn [kseal env_keeper] in E; unfold SealKeyShareWithContext in E; rewrite C in E.
    destruct (fileShareConfigFromEnv getenv) as [ fcfg | ] eqn:F; [ | injection E as _ <-; auto ].
    rewrite !(file_holds p c fcfg) by done.
    apply io_bind_inv in E as [ (u & w1 & S & E) | [ _ (r0 & S & _) ] ]; [ injection E as <- _; done | ].
    destruct (seal_effect fcfg p c s cc w _ _ (config_apart _ Hok F) Hc W S) as ([ _ [ G | G ] ] & _); rewrite G; auto.
Qed.

Lemma env_seal_frame p c s cc w p' c' :
  store_ok -> separate c -> separate c' -> (p', c') <> (p, c) -> holds (snd (kseal p c s cc w)) p' c' = holds w p' c'.
Proof.
  intros Hok Sc Sc' Hne; cbn [kseal env_keeper]; unfold SealKeyShareWithContext.
  destruct (vaultShareConfigFromEnv getenv p c) as [ cfg | ] eqn:C.
  - destruct (vaultShareConfigFromEnv getenv p' c') as [ cfg' | ] eqn:C'; [ | rewrite (vault_configured _ _ _ _ C') in C; done ].
    pose proof (vault_config_conn _ _ _ _ _ _ C C') as Cn; pose proof (separate_vault _ _ _ C Sc) as Pc; pose proof (separate_vault _ _ _ C' Sc') as Pc'; destruct (negb _); [ done | ].
    unfold io_bind, io_of; destruct (payloadOf p c s cc); [ | done | done ].
    apply (vault_holds_ext p' c' cfg'); [ done | ]; rewrite Cn.
    rewrite <- (put_other (connOf cfg) (keyPath cfg) (entryOf p c s a cc) (vault w)) by eauto using vault_entry_dotless, vault_entry_inj.
    destruct (kvPut _ _ _ _) as [ [ | ] v' ]; done.
  - pose proof (vault_configured _ _ p' c' C) as C'.
    destruct (fileShareConfigFromEnv getenv) as [ fcfg | ] eqn:F; [ | done ]; rewrite !(file_holds p' c' fcfg) by done.
    unfold io_bind; destruct (sealShareToFile cwd fcfg p c s cc w) as [ r w1 ] eqn:S.
    pose proof (seal_frame_file _ _ _ _ _ _ _ _ p' c' (config_apart _ Hok F) S Hne) as G.
    destruct r; cbn; rewrite G; done.
Qed.

Lemma env_load_holds p c w x w' : kload p c w = (Ok x, w') -> holds w p c = Some x.
Proof.
  intros E; cbn [kload env_keeper] in E.
  destruct (vaultShareConfigFromEnv getenv p c) as [ cfg | ] eqn:C.
  - cbn [holds env_keeper]; unfold LoadSealedShare in *; rewrite C in *; injection E as E _.
    cbn [fst]; unfold readEntry in *; change (vault (without_faults w)) with (vault w); rewrite E; done.
  - unfold LoadSealedShare in E; rewrite C in E; destruct (fileShareConfigFromEnv getenv) as [ fcfg | ] eqn:F; [ | done ].
    rewrite (file_holds p c fcfg) by done; rewrite (load_ok _ _ _ _ _ _ E); done.
Qed.

Lemma env_load_frame p c w p' c' : holds (snd (kload p c w)) p' c' = holds w p' c'.
Proof.
  cbn [kload holds env_keeper]; unfold LoadSealedShare.
  destruct (vaultShareConfigFromEnv getenv p c) as [ cfg | ] eqn:C; [ done | ].
  rewrite (vault_configured _ _ p' c' C); destruct (fileShareConfigFromEnv getenv) as [ fcfg | ]; [ | done ].
  rewrite !load_now; pose proof (quiet_load fcfg p c w) as (-> & _); done.
Qed.

Lemma env_retire_holds p c w w' : store_ok -> separate c -> kretire p c w = (Ok true, w') -> holds w' p c = None.
Proof.
  intros Hok Sc E; cbn [kretire env_keeper] in E; unfold RetireSealedShare in E.
  destruct (vaultShareConfigFromEnv getenv p c) as [ cfg | ] eqn:C.
  - destruct (negb _); [ done | ]; destruct (kvDeleteMetadata _ _ _) as [ [ | ] v' ] eqn:K; [ | done ]; injection E as <-.
    apply delete_get in K; [ | eauto using vault_entry_dotless, separate_vault ]; cbn [holds env_keeper]; unfold LoadSealedShare; rewrite C; cbn [fst]; unfold readEntry.
    destruct (negb _); [ done | ]; cbn; rewrite K; done.
  - destruct (fileShareConfigFromEnv getenv) as [ fcfg | ] eqn:F; [ | done ].
    apply io_bind_inv in E as [ (u & w1 & S & E) | [ ? _ ] ]; [ | done ]; injection E as <-; destruct u.
    destruct (retire_effect _ _ _ _ _ _ (config_apart _ Hok F) S) as (_ & G & _).
    rewrite (file_holds p c fcfg) by done; specialize (G eq_refl); destruct (fileHolds _ _ _ _); done.
Qed.

Lemma env_retire_frame p c w p' c' :
  store_ok -> separate c -> separate c' -> (p', c') <> (p, c) -> holds (snd (kretire p c w)) p' c' = holds w p' c'.
Proof.
  intros Hok Sc Sc' Hne; cbn [kretire env_keeper]; unfold RetireSealedShare.
  destruct (vaultShareConfigFromEnv getenv p c) as [ cfg | ] eqn:C.
  - destruct (vaultShareConfigFromEnv getenv p' c') as [ cfg' | ] eqn:C'; [ | rewrite (vault_configured _ _ _ _ C') in C; done ].
    pose proof (vault_config_conn _ _ _ _ _ _ C C') as Cn; pose proof (separate_vault _ _ _ C Sc) as Pc; pose proof (separate_vault _ _ _ C' Sc') as Pc'; destruct (negb _); [ done | ].
    apply (vault_holds_ext p' c' cfg'); [ done | ]; rewrite Cn.
    rewrite <- (delete_other (connOf cfg) (keyPath cfg) (vault w)) by eauto using vault_entry_dotless, vault_entry_inj.
    destruct (kvDeleteMetadata _ _ _) as [ [ | ] v' ]; done.
  - pose proof (vault_configured _ _ p' c' C) as C'.
    destruct (fileShareConfigFromEnv getenv) as [ fcfg | ] eqn:F; [ | done ]; rewrite !(file_holds p' c' fcfg) by done.
    unfold io_bind; destruct (retireShareFile fcfg p c w) as [ r w1 ] eqn:S.
    destruct (retire_effect _ _ _ _ _ _ (config_apart _ Hok F) S) as (G & _).
    destruct r; cbn; rewrite G; done.
Qed.

(** A plain name and a step back cancel. *)
Lemma Clean_back d a b : d <> "" -> plain a -> Clean (d +:+ String slash (a +:+ String slash (".." +:+ String slash b))) = Clean (d +:+ String slash b).
Proof.
  intros Hd Ha; unfold Clean, components; rewrite !has_prefix_slash_app by done; rewrite !split_slash_app, !foldl_app.
  rewrite (split_slash_single a) by apply Ha; cbn [foldl]; rewrite clean_push_plain by done.
  change (split_slash "..") with [ ".." ]; cbn [foldl]; destruct Ha as (_ & _ & _ & N).
  assert (forall r st, clean_push r (a :: st) ".." = st) as B by (intros r st; unfold clean_push; cbn; apply String.eqb_neq in N; rewrite N; done).
  rewrite B; done.
Qed.

Lemma climbing_entry p a b cfg cfg' : plain a ->
  vaultShareConfigFromEnv getenv p (a +:+ "/../" +:+ b) = Some cfg -> vaultShareConfigFromEnv getenv p b = Some cfg' ->
  entryPath (connOf cfg) (keyPath cfg) = entryPath (connOf cfg) (keyPath cfg').
Proof.
  unfold vaultShareConfigFromEnv; destruct (String.eqb (getenv "VAULT_ADDR") ""); [ done | ]; intros Pa E1 E2.
  injection E1 as <-; injection E2 as <-; unfold entryPath; cbn [keyPath connOf vMount mount].
  set (base := orDefaultVault (getenv "VAULT_KEY_SHARE_PATH") _); set (m := orDefaultVault (getenv "VAULT_KV_MOUNT") _).
  pose proof (Clean_back ("/" +:+ m +:+ "/data/" +:+ base +:+ "/party-" +:+ show_int p) a b ltac:(done) Pa) as E.
  rewrite !sapp_assoc in E; exact E.
Qed.

(** With Vault an id with a slash in it is another ceremony's: sealing a share
    for [a/../b] is sealing one for [b]. *)
Theorem climbing_id_overwrites p a b s cc w w' :
  store_ok -> getenv "VAULT_ADDR" <> "" -> plain a -> plain b -> carried (a +:+ "/../" +:+ b) s cc -> well_tagged s ->
  kseal p (a +:+ "/../" +:+ b) s cc w = (Ok true, w') -> holds w' p b = Some (s, cc).
Proof.
  intros Hok Hv Pa Pb Hc W; set (id := a +:+ "/../" +:+ b) in *; cbn [kseal env_keeper]; unfold SealKeyShareWithContext.
  destruct (vaultShareConfigFromEnv getenv p id) as [ cfg | ] eqn:C; [ | unfold vaultShareConfigFromEnv in C; destruct (String.eqb_spec (getenv "VAULT_ADDR") ""); done ].
  destruct (vaultShareConfigFromEnv getenv p b) as [ cfg' | ] eqn:C'; [ | rewrite (vault_configured _ _ _ _ C') in C; done ].
  destruct (newClient (addr cfg)) eqn:N; cbn [negb]; [ | done ].
  destruct (payloadOf_ok p id s cc Hc W) as (pay & plain_ & Py & _ & _ & _ & _ & Ns & Us & Uc & _ & _).
  unfold io_bind, io_of; rewrite Py; pose proof (vault_config_conn _ _ _ _ _ _ C C') as Cn.
  rewrite (proj1 (same_entry _ _ _ (climbing_entry p a b cfg cfg' Pa C C'))); destruct (kvPut _ _ _ _) as [ [ | ] v' ] eqn:K; [ | done ]; intros E; injection E as <-.
  apply put_get in K as (d' & G & D1 & D2); [ | exact (vault_entry_dotless _ _ _ Hok C' Pb) | ].
  - rewrite <- Cn in G; apply (vault_reads cfg' p b id s cc pay d' _ C'); try done; rewrite <- N; f_equal; exact (f_equal vAddr Cn).
  - intros k t L; apply entry_lookups in L; destruct Hc as (? & ? & _).
    rewrite !elem_of_cons in L; destruct_or! L; subst; auto; apply elem_of_nil in L; done.
Qed.

(** C12.  The store the environment selects, whichever it is, keeps shares: what was
    sealed is what is loaded until it is sealed again or retired, and no
    operation touches what is kept for another party or ceremony, whatever
    faults occur.  Of the environment: the key file of a file store is not one of
    its own files, the directory of a Vault store does not climb; of the ids,
    with Vault: that they are plain names. *)
Theorem env_store_keeps : store_ok -> ShareKeeping World.
Proof.
  intros Hok; split; eauto using env_seal_holds, env_seal_failed, env_seal_frame, env_load_holds, env_load_frame,
    env_retire_holds, env_retire_frame.
Qed.

(** C13.  A crash at any moment of a sealing, or any fault in it, leaves every share
    as it was, or, for the one being sealed, the new share complete: never a
    damaged file.  Success means the new share is in place, failure that the old
    one is. *)
Theorem seal_is_atomic cfg p c share cc w r w' :
  apart cfg -> carried c share cc -> well_tagged share -> sealShareToFile cwd cfg p c share cc w = (r, w') ->
  (exists new, past w' = past w ++ new /\ forall m, m ∈ files w' :: new ->
    (forall p' c', (p', c') <> (p, c) -> fileHolds cfg m p' c' = fileHolds cfg (files w) p' c') /\
    (fileHolds cfg m p c = fileHolds cfg (files w) p c \/ fileHolds cfg m p c = Ok (share, cc))) /\
  (r = Ok tt -> fileHolds cfg (files w') p c = Ok (share, cc)) /\
  (r <> Ok tt -> fileHolds cfg (files w') p c = fileHolds cfg (files w) p c).
Proof.
  intros Ha Hc W E; destruct (seal_effect _ _ _ _ _ _ _ _ Ha Hc W E) as (Kf & (new & Pn & Kn) & _ & Ro & Re).
  split_and!; auto; exists new; split; [ done | ]; rewrite Forall_forall in Kn.
  intros m Hm; apply elem_of_cons in Hm as [ -> | Hm ]; auto.
Qed.

(** A sealed file, copied to the place of another party or ceremony, does not
    open there: the names under which it opens are those it was sealed under. *)
Theorem sealed_file_bound cfg p c share cc w w' f path p' c' path' x :
  apart cfg -> carried c share cc -> well_tagged share -> sealShareToFile cwd cfg p c share cc w = (Ok tt, w') ->
  sharePath cfg p c = Ok path -> files w' !! path = Some f -> sharePath cfg p' c' = Ok path' ->
  fileHolds cfg (<[ path' := f ]> (files w')) p' c' = Ok x -> (p', c') = (p, c) /\ x = (share, cc).
Proof.
  intros Ha Hc W E Pa Lf Pa' Hx; pose proof E as E0.
  apply seal_steps in E as [ (? & _) | (key & path0 & pay & plain & nonce & out & w1 & S) ]; [ done | ].
  destruct S as (K & KS & Pa0 & Py & Ep & G & Ln & Bn & Eo & F1 & P1 & V1 & R); assert (path0 = path) as -> by congruence.
  pose proof (replaceFile_triple (files w) path out (sharePath_not_temp _ _ _ _ (proj1 Ha) Pa) w1 F1) as (T & _).
  rewrite R in T; destruct T as [ Ho Lf' ]; assert (f = {| mode := 384; content := out |}) as -> by congruence.
  destruct (only_frame _ _ _ _ _ _ _ Ha KS Pa Ho) as (Ek & _ & _).
  unfold fileHolds in Hx; rewrite lookup_insert_ne, Ek, K in Hx by (intros Eq; apply (proj2 Ha _ _ _ Pa'); done).
  cbn in Hx; rewrite Pa' in Hx; cbn in Hx; rewrite lookup_insert_eq in Hx; cbn [content] in Hx.
  pose proof (open_bound _ _ _ _ _ _ _ _ _ _ _ _ Hc W Py Ep Bn Eo Hx) as Eb; split; [ exact Eb | ].
  injection Eb as -> ->; rewrite (open_of_seal key nonce plain out p c share cc pay) in Hx by auto; congruence.
Qed.
End Laws.

(** ** Implementations of the interfaces

    Used by the witnesses: a codec for records of byte fields, a cipher whose
    tag is a checksum, and Vault as a map. *)

Module Simple.

Fixpoint put (b : bytes) : bytes := match b with [] => [ 0 ] | x :: r => 1 :: x :: put r end.
Fixpoint get (d : bytes) : option (bytes * bytes) :=
  match d with
  | 0 :: r => Some ([], r)
  | 1 :: x :: r => '(b, rest) ← get r; Some (x :: b, rest)
  | _ => None
  end.

Fixpoint get_all (n : nat) (d : bytes) : option (list bytes) :=
  match n with
  | O => match d with [] => Some [] | _ => None end
  | S n => '(b, rest) ← get d; bs ← get_all n rest; Some (b :: bs)
  end.
Definition put_all (l : list bytes) : bytes := concat (put <$> l).

Lemma get_put b rest : get (put b ++ rest) = Some (b, rest).
Proof. induction b as [ | x b IH ]; cbn; [ done | rewrite IH; done ]. Qed.

Lemma get_put_all l : get_all (length l) (put_all l) = Some l.
Proof.
  induction l as [ | b l IH ]; [ done | ]; unfold put_all; cbn [fmap list_fmap concat length get_all].
  rewrite get_put; cbn; fold (put_all l); rewrite IH; done.
Qed.

Lemma put_all_ok l : Forall bytes_ok l -> bytes_ok (put_all l).
Proof.
  induction 1 as [ | b l Hb Hl IH ]; [ constructor | ]; unfold put_all; cbn; apply Forall_app; split; [ clear IH Hl | exact IH ].
  induction Hb; cbn; repeat constructor; unfold byte_ok in *; try lia; auto.
Qed.

(** Integers as a sign and a magnitude. *)
Definition z_bytes (z : Z) : bytes := (if z <? 0 then 1 else 0) :: big_bytes (Z.abs z).
Definition bytes_z (b : bytes) : Z := match b with s :: m => if s =? 1 then - be_val m else be_val m | [] => 0 end.
Lemma bytes_z_z_bytes z : bytes_z (z_bytes z) = z.
Proof. unfold bytes_z, z_bytes; destruct (z <? 0) eqn:E; cbn; rewrite be_val_big_bytes by lia; lia. Qed.
Lemma z_bytes_ok z : bytes_ok (z_bytes z).
Proof. constructor; [ unfold byte_ok; destruct (z <? 0); lia | apply big_bytes_ok ]. Qed.

Definition record_codec {A} (n : nat) (to : A -> list bytes) (from : list bytes -> A) : Codec A := {|
  encode a := Some (put_all (to a));
  decode d := from <$> get_all n d;
  faithful _ := True;
|}.

Lemma record_codec_laws {A} n to (from : list bytes -> A) :
  (forall a, length (to a) = n /\ Forall bytes_ok (to a) /\ from (to a) = a) -> @CodecLaws A (record_codec n to from).
Proof.
  intros Ht; split; intros a _; exists (put_all (to a)); destruct (Ht a) as (L & B & F).
  split_and!; [ done | apply put_all_ok; done | cbn; rewrite <- L, get_put_all; cbn; rewrite F; done ].
Qed.

Definition at_ (l : list bytes) (i : nat) : bytes := default [] (l !! i).

#[local] Existing Instance simple_crypto.

Definition point_fields (p : option (Z * Z)) : list bytes :=
  match p with None => [ []; []; [] ] | Some (x, y) => [ [ 1 ]; z_bytes x; z_bytes y ] end.
Definition fields_point (f x y : bytes) : option (Z * Z) :=
  match f with [] => None | _ => Some (bytes_z x, bytes_z y) end.

Definition share_fields (k : KeyShare) : list bytes :=
  to_bytes (Curve_ k) :: point_fields (ECDSA k) ++ point_fields (EdDSA k).
Definition fields_share (l : list bytes) : KeyShare :=
  {| Curve_ := of_bytes (at_ l 0); ECDSA := fields_point (at_ l 1) (at_ l 2) (at_ l 3) : option EcdsaSave;
     EdDSA := fields_point (at_ l 4) (at_ l 5) (at_ l 6) : option EddsaSave |}.
Definition context_fields (c : CeremonyContext) : list bytes :=
  [ z_bytes (Threshold c); z_bytes (TotalParties c); to_bytes (ctxCurve c); z_bytes (Epoch c);
    to_bytes (PublicKeyHex c); to_bytes (Address c) ].
Definition fields_context (l : list bytes) : CeremonyContext :=
  {| Threshold := bytes_z (at_ l 0); TotalParties := bytes_z (at_ l 1); ctxCurve := of_bytes (at_ l 2);
     Epoch := bytes_z (at_ l 3); PublicKeyHex := of_bytes (at_ l 4); Address := of_bytes (at_ l 5) |}.
Definition payload_fields (p : sealedPayload) : list bytes :=
  [ z_bytes (PartyID p); to_bytes (CeremonyID p); to_bytes (SaveData p); to_bytes (ceremonyContext p) ].
Definition fields_payload (l : list bytes) : sealedPayload :=
  {| PartyID := bytes_z (at_ l 0); CeremonyID := of_bytes (at_ l 1); SaveData := of_bytes (at_ l 2);
     ceremonyContext := of_bytes (at_ l 3) |}.
Definition file_fields (f : sealedFile) : list bytes := [ z_bytes (Version f); to_bytes (Nonce f); to_bytes (Data f) ].
Definition fields_file (l : list bytes) : sealedFile :=
  {| Version := bytes_z (at_ l 0); Nonce := of_bytes (at_ l 1); Data := of_bytes (at_ l 2) |}.

Definition simple_json : StoreJson := {|
  share_codec := record_codec 7 share_fields fields_share;
  context_codec := record_codec 6 context_fields fields_context;
  payload_codec := record_codec 4 payload_fields fields_payload;
  file_codec := record_codec 3 file_fields fields_file;
  utf8 _ := True;
|}.
#[local] Existing Instance simple_json.

#[local] Hint Resolve z_bytes_ok to_bytes_ok : core.

Lemma simple_json_laws : StoreJsonLaws.
Proof.
  split; try (apply record_codec_laws; intros a); try done.
  - destruct a as [ cv e d ]; unfold share_fields; cbn -[z_bytes to_bytes].
    destruct e as [ [ ? ? ] | ], d as [ [ ? ? ] | ]; cbn -[z_bytes to_bytes]; (split_and!; [ done | repeat (constructor; auto); try (unfold byte_ok; lia) | ]);
      unfold fields_share; cbn -[z_bytes to_bytes]; rewrite of_to_bytes, ?bytes_z_z_bytes; done.
  - destruct a; split_and!; [ done | repeat (constructor; auto) | ].
    unfold fields_context, context_fields; cbn -[z_bytes to_bytes]; rewrite !of_to_bytes, !bytes_z_z_bytes; done.
  - destruct a; split_and!; [ done | repeat (constructor; auto) | ].
    unfold fields_payload, payload_fields; cbn -[z_bytes to_bytes]; rewrite !of_to_bytes, !bytes_z_z_bytes; done.
  - destruct a; split_and!; [ done | repeat (constructor; auto) | ].
    unfold fields_file, file_fields; cbn -[z_bytes to_bytes]; rewrite !of_to_bytes, !bytes_z_z_bytes; done.
  - intros s b E; injection E as <-; unfold share_fields, put_all; cbn; split; [ | done ]; destruct (to_bytes (Curve_ s)); done.
  - intros s b E; injection E as <-; unfold context_fields, put_all; cbn; split; [ | done ]; done.
Qed.

Definition tag (k n p a : bytes) : Z := u8 (be_val k + 3 * be_val n + 5 * be_val p + 7 * be_val a).
Definition simple_aead : Aead := {|
  gcmSeal k n p a := p ++ [ tag k n p a ];
  gcmOpen k n d a :=
    let p := take (length d - 1) d in if bool_decide (d = p ++ [ tag k n p a ]) then Some p else None;
|}.
#[local] Existing Instance simple_aead.

Lemma simple_aead_laws : AeadLaws.
Proof.
  assert (forall (p : bytes) t, take (length (p ++ [ t ]) - 1) (p ++ [ t ]) = p) as T.
  { intros p t; rewrite length_app, Nat.add_sub; apply take_app_length. }
  split; cbn.
  - intros k n p a; rewrite T, bool_decide_true; done.
  - intros k n d a p; case_bool_decide as E; intros X; simplify_eq; exact E.
  - intros k n p p' a a' E; apply app_inj_tail in E as [ E _ ]; exact E.
  - intros k n p a Hp; apply Forall_app; split; [ done | repeat constructor; apply u8_range ].
Qed.

Definition simple_vault : VaultKv := {|
  VaultState := gmap (string * string * string) (gmap string VaultValue);
  newClient _ := true;
  kvPut c p d v := (true, <[ (vAddr c, vToken c, entryPath c p) := d ]> v);
  kvGet c p v := Some <$> v !! (vAddr c, vToken c, entryPath c p);
  kvDeleteMetadata c p v := (true, delete (vAddr c, vToken c, entryPath c p) v);
|}.
#[local] Existing Instance simple_vault.

Lemma simple_vault_laws : VaultLaws.
Proof.
  split; cbn.
  - intros c p d v v' _ _ E; injection E as <-; exists d; rewrite lookup_insert_eq; auto.
  - done.
  - intros c p d v q _ _ Hq; rewrite lookup_insert_ne; [ done | congruence ].
  - intros c p v v' _ E; injection E as <-; rewrite lookup_delete_eq; done.
  - intros c p v q _ _ Hq; rewrite lookup_delete_ne; [ done | congruence ].
  - intros c p q E; rewrite E; done.
Qed.

(** A file store under [/shares] with its key in [/run/key]. *)
Definition file_env (k : string) : string :=
  if String.eqb k "SHARE_STORE_DIR" then "/shares" else if String.eqb k "SHARE_STORE_KEY_FILE" then "/run/key" else "".
Definition file_cfg : fileShareConfig := {| dir := "/shares"; keyFile := "/run/key" |}.
Definition start : World :=
  {| files := {[ "/run/key" := {| mode := 384; content := replicate 32 7 |} ]}; faults := []; randoms := [ 41; 42 ];
     entropy := replicate 64 9; past := []; vault := ∅ |}.
Definition a_share : KeyShare := {| Curve_ := CurveEd25519; ECDSA := None; EdDSA := Some (3, 4) : option EddsaSave |}.
Definition a_context : CeremonyContext :=
  {| Threshold := 1; TotalParties := 3; ctxCurve := "ed25519"; Epoch := 0; PublicKeyHex := "0304"; Address := "0304" |}.

Definition vault_env (k : string) : string := if String.eqb k "VAULT_ADDR" then "https://vault:8200" else "".

Lemma file_store_ok : store_ok file_env.
Proof.
  split; [ | apply (bool_decide_unpack _); vm_compute; done ]; intros cfg p c path E S; vm_compute in E; injection E as <-.
  apply sharePath_ok in S as [ _ -> ]; [ vm_compute; discriminate | done ].
Qed.

Lemma vault_store_ok : store_ok vault_env.
Proof. split; [ | apply (bool_decide_unpack _); vm_compute; done ]; intros cfg p c path E; vm_compute in E; done. Qed.

Lemma env_store_keeps_witness : @ShareKeeping _ World (env_keeper None file_env) /\ @ShareKeeping _ World (env_keeper None vault_env).
Proof.
  split; [ apply (@env_store_keeps simple_vault simple_crypto simple_json simple_aead None simple_json_laws simple_aead_laws file_env simple_vault_laws) | 
    apply (@env_store_keeps simple_vault simple_crypto simple_json simple_aead None simple_json_laws simple_aead_laws vault_env simple_vault_laws) ];
    [ exact file_store_ok | exact vault_store_ok ].
Defined.

Lemma a_share_carried : carried "key-1" a_share (Some a_context) /\ well_tagged a_share.
Proof. split; [ repeat split | right; split; [ reflexivity | discriminate ] ]. Qed.

Lemma file_cfg_apart : apart file_cfg.
Proof. apply (config_apart file_env); [ exact file_store_ok | reflexivity ]. Qed.

(** A second sealing that fails while its bytes are written leaves the first. *)
Lemma seal_is_atomic_witness :
  let w1 := snd (sealShareToFile None file_cfg 2 "key-1" a_share (Some a_context) start) in
  let broken := {| files := files w1; faults := [ None; None; None; None; None; Some 5%nat ]; randoms := [ 50 ];
                   entropy := replicate 64 1; past := []; vault := vault w1 |} in
  let '(r, w2) := sealShareToFile None file_cfg 2 "key-1" a_share (Some a_context) broken in
  r = Err IoFailed /\ fileHolds None file_cfg (files w2) 2 "key-1" = fileHolds None file_cfg (files w1) 2 "key-1".
Proof.
  intros w1 broken; destruct (sealShareToFile None file_cfg 2 "key-1" a_share (Some a_context) broken) as [ r w2 ] eqn:E.
  destruct a_share_carried as [ C W ].
  destruct (@seal_is_atomic simple_vault simple_crypto simple_json simple_aead None simple_json_laws simple_aead_laws
    file_cfg 2 "key-1" a_share (Some a_context) broken r w2 file_cfg_apart C W E) as (_ & _ & F).
  assert (r = Err IoFailed) as -> by (change r with (fst (r, w2)); rewrite <- E; vm_compute; reflexivity).
  split; [ reflexivity | apply F; discriminate ].
Defined.

Lemma first_sealing :
  sealShareToFile None file_cfg 2 "key-1" a_share (Some a_context) start =
  (Ok tt, snd (sealShareToFile None file_cfg 2 "key-1" a_share (Some a_context) start)).
Proof.
  assert (fst (sealShareToFile None file_cfg 2 "key-1" a_share (Some a_context) start) = Ok tt) as E by (vm_compute; reflexivity).
  rewrite <- E; apply surjective_pairing.
Qed.

Lemma sealed_file_bound_witness :
  let w1 := snd (sealShareToFile None file_cfg 2 "key-1" a_share (Some a_context) start) in
  exists f, files w1 !! "/shares/party-2/key-1.sealed" = Some f /\
    forall x, fileHolds None file_cfg (<[ "/shares/party-3/key-1.sealed" := f ]> (files w1)) 3 "key-1" <> Ok x.
Proof.
  intros w1; destruct (files w1 !! "/shares/party-2/key-1.sealed") as [ f | ] eqn:L; [ | vm_compute in L; discriminate L ].
  exists f; split; [ reflexivity | intros x Hx ]; destruct a_share_carried as [ C W ].
  destruct (@sealed_file_bound simple_vault simple_crypto simple_json simple_aead None simple_json_laws simple_aead_laws
    file_cfg 2 "key-1" a_share (Some a_context) start w1 f "/shares/party-2/key-1.sealed" 3 "key-1"
    "/shares/party-3/key-1.sealed" x file_cfg_apart C W) as [ E _ ]; [ .. | discriminate E ];
    [ exact first_sealing | vm_compute; reflexivity | exact L | vm_compute; reflexivity | exact Hx ].
Defined.

End Simple.

End ShareStore.
