(* ===== verification/Committee.v ===== *)
(** * Committee identities

    Models the identity arithmetic of [services/mpc-party/tss_party.go]
    ([deterministicPartyIDs], [partyKey], [findPartyID], [peerIndexByKey]) and
    of [tss_resharing.go] ([committeeKey], [committeePartyIDs],
    [findPartyIDByKey], [findPartyIDByNode], [nodeForPartyKey]).

    A party's identity in tss-lib is a key; a node's key in refresh epoch [e] is
    [e * 1000000 + node].  The [PartyID] type, its constructor and
    [SortPartyIDs] are tss-lib's: an interface ([TssIds]) with the laws the code
    relies on ([TssIdsLaws]).  A Go map is iterated in any order, so the
    functions that range over one take the order as an argument.

    The theorems: every process derives the same committee whatever the order,
    and keys and nodes determine each other for node numbers from 1 up to the
    stride, and for no others. *)

From Stdlib Require Import ZArith Lia String Permutation.
From stdpp Require Import base list numbers strings gmap sorting.
From S2P Require Import Prelude GoStrings.

Open Scope Z_scope.

Module Committee.

(** ** What tss-lib provides *)

Class TssIds := {
  PartyID : Type;
  NewPartyID : string -> string -> Z -> PartyID;
  Id : PartyID -> string;
  Moniker : PartyID -> string;
  KeyInt : PartyID -> Z;
  SortPartyIDs : list PartyID -> list PartyID;
}.

Definition name_and_key `{TssIds} (p : PartyID) : string * string * Z := (Id p, Moniker p, KeyInt p).

Class TssIdsLaws `{TssIds} : Prop := {
  new_party i m k : 0 <= k -> name_and_key (NewPartyID i m k) = (i, m, k);
  (** sorting keeps the parties (an index apart) and forgets the order *)
  sort_perm l : Permutation (name_and_key <$> SortPartyIDs l) (name_and_key <$> l);
  sort_canonical l l' : Permutation l l' -> NoDup (KeyInt <$> l) -> SortPartyIDs l = SortPartyIDs l';
}.

Section Ids.
Context `{TssIds}.

(** ** Identities *)

Definition partyKey (partyID : Z) : Z := partyID.

(** [order] is the order in which [range peers] visits the map. *)
Definition deterministicPartyIDs (order : list (Z * string)) : list PartyID :=
  SortPartyIDs ((fun kv => NewPartyID (show_int kv.1) ("party" +:+ show_int kv.1) (partyKey kv.1)) <$> order).

Definition committeeEpochStride : Z := 1000000.

Definition committeeKey (node epoch : Z) : Z := i64 (i64 (epoch * committeeEpochStride) + node).

Definition committeePartyIDs (order : list (Z * string)) (epoch : Z) : list PartyID :=
  if epoch =? 0 then deterministicPartyIDs order
  else SortPartyIDs ((fun kv => NewPartyID ("e" +:+ show_int epoch +:+ "-" +:+ show_int kv.1)
         ("party" +:+ show_int kv.1 +:+ ".e" +:+ show_int epoch) (committeeKey kv.1 epoch)) <$> order).

(** The first party of the list that satisfies a test. *)
Fixpoint first_party (test : PartyID -> bool) (l : list PartyID) : option PartyID :=
  match l with
  | [] => None
  | id :: l => if test id then Some id else first_party test l
  end.

Definition findPartyIDByKey (sorted : list PartyID) (key : Z) : option PartyID :=
  first_party (fun id => KeyInt id =? key) sorted.

Definition findPartyID (sorted : list PartyID) (partyID : Z) : option PartyID :=
  first_party (fun id => KeyInt id =? partyKey partyID) sorted.

(** [big.Int.Int64] keeps the low 64 bits. *)
Definition nodeForPartyKey (id : PartyID) : Z * Z :=
  let key := i64 (KeyInt id) in
  if key <=? 0 then (-1, 0) else (key mod committeeEpochStride, key / committeeEpochStride).

Definition findPartyIDByNode (sorted : list PartyID) (node : Z) : option PartyID :=
  first_party (fun id => fst (nodeForPartyKey id) =? node) sorted.

(** Later entries of the list override earlier ones. *)
Definition peerIndexByKey (sorted : list PartyID) : gmap Z PartyID :=
  foldl (fun out id => <[ fst (nodeForPartyKey id) := id ]> out) ∅ sorted.

(** ** Facts *)

(** Node numbers the scheme is made for. *)
Definition node_ok (node : Z) : Prop := 0 < node < committeeEpochStride.
Definition epoch_ok (epoch : Z) : Prop := 0 <= epoch < 9000000000000.

Lemma committeeKey_ok node epoch :
  node_ok node -> epoch_ok epoch -> committeeKey node epoch = epoch * committeeEpochStride + node.
Proof.
  unfold node_ok, epoch_ok, committeeKey, committeeEpochStride; intros Hn He.
  rewrite (i64_id (epoch * 1000000)) by (unfold in_i64, two63; lia).
  apply i64_id; unfold in_i64, two63; lia.
Qed.

Lemma committeeKey_0 node : node_ok node -> committeeKey node 0 = node.
Proof. intros Hn; rewrite committeeKey_ok; [ lia | done | unfold epoch_ok; lia ]. Qed.

Lemma node_of_key id node epoch :
  node_ok node -> epoch_ok epoch -> KeyInt id = committeeKey node epoch -> nodeForPartyKey id = (node, epoch).
Proof.
  intros Hn He E; unfold nodeForPartyKey; rewrite E, (committeeKey_ok _ _ Hn He).
  unfold node_ok, epoch_ok, committeeEpochStride in *.
  rewrite i64_id by (unfold in_i64, two63; lia).
  replace (_ <=? 0) with false by lia; f_equal.
  - rewrite Z.add_comm, Z_mod_plus_full, Z.mod_small; lia.
  - rewrite Z.add_comm, Z_div_plus_full, Z.div_small; lia.
Qed.

Lemma first_party_some test l id : first_party test l = Some id -> id ∈ l /\ test id = true.
Proof.
  induction l as [ | x l IH ]; cbn; [ done | ]; destruct (test x) eqn:T.
  - intros E; simplify_eq; split; [ left | done ].
  - intros E; destruct (IH E); split; [ right | ]; done.
Qed.

Lemma first_party_none test l : first_party test l = None <-> forall id, id ∈ l -> test id = false.
Proof.
  induction l as [ | x l IH ]; cbn; [ split; [ intros _ id E; apply elem_of_nil in E | ]; done | ].
  destruct (test x) eqn:T; split; intros E.
  - done.
  - rewrite (E x) in T; [ done | left ].
  - intros id Hid; apply elem_of_cons in Hid as [ -> | Hid ]; [ done | ]; apply IH; done.
  - apply IH; intros id Hid; apply E; right; done.
Qed.

(** ** What a committee is *)

Context `{!TssIdsLaws}.

Definition idName (node epoch : Z) : string :=
  if epoch =? 0 then show_int node else "e" +:+ show_int epoch +:+ "-" +:+ show_int node.
Definition idMoniker (node epoch : Z) : string :=
  if epoch =? 0 then "party" +:+ show_int node else "party" +:+ show_int node +:+ ".e" +:+ show_int epoch.

Definition memberOf (epoch : Z) (kv : Z * string) : string * string * Z :=
  (idName kv.1 epoch, idMoniker kv.1 epoch, committeeKey kv.1 epoch).

(** A committee is its members' identities, in some order. *)
Lemma committee_members order epoch :
  Forall (fun kv => node_ok kv.1) order -> epoch_ok epoch ->
  Permutation (name_and_key <$> committeePartyIDs order epoch) (memberOf epoch <$> order).
Proof.
  intros Hn He; unfold committeePartyIDs, deterministicPartyIDs.
  destruct (epoch =? 0) eqn:E; rewrite sort_perm, <- list_fmap_compose; apply reflexive_eq, list_fmap_ext;
    intros i kv Hk; rewrite Forall_lookup in Hn; specialize (Hn _ _ Hk); unfold memberOf, compose.
  - assert (epoch = 0) as -> by lia; rewrite committeeKey_0 by done.
    apply new_party; unfold partyKey, node_ok in *; lia.
  - rewrite new_party by (rewrite committeeKey_ok by done; unfold node_ok, epoch_ok, committeeEpochStride in *; lia).
    unfold idName, idMoniker; rewrite E; done.
Qed.

Lemma committee_key_members order epoch id :
  Forall (fun kv => node_ok kv.1) order -> epoch_ok epoch -> id ∈ committeePartyIDs order epoch ->
  exists kv, kv ∈ order /\ name_and_key id = memberOf epoch kv.
Proof.
  intros Hn He Hid; assert (name_and_key id ∈ name_and_key <$> committeePartyIDs order epoch) as M
    by (apply list_elem_of_fmap; eauto).
  rewrite (committee_members _ _ Hn He) in M; apply list_elem_of_fmap in M as (kv & E & Hkv); eauto.
Qed.

Lemma committee_has order epoch node url :
  Forall (fun kv => node_ok kv.1) order -> epoch_ok epoch -> (node, url) ∈ order ->
  exists id, id ∈ committeePartyIDs order epoch /\ KeyInt id = committeeKey node epoch.
Proof.
  intros Hn He Ho; assert (memberOf epoch (node, url) ∈ name_and_key <$> committeePartyIDs order epoch) as M.
  { rewrite (committee_members _ _ Hn He); apply list_elem_of_fmap; eauto. }
  apply list_elem_of_fmap in M as (id & E & Hid); exists id; split; [ done | ].
  unfold name_and_key, memberOf in E; simplify_eq; done.
Qed.

Lemma committee_length order epoch :
  Forall (fun kv => node_ok kv.1) order -> epoch_ok epoch -> length (committeePartyIDs order epoch) = length order.
Proof.
  intros Hn He; pose proof (Permutation_length (committee_members _ _ Hn He)) as L.
  rewrite !length_fmap in L; done.
Qed.

Lemma distinct_keys (order : list (Z * string)) epoch :
  NoDup order.*1 -> Forall (fun kv => node_ok kv.1) order -> epoch_ok epoch ->
  NoDup ((fun kv => committeeKey kv.1 epoch) <$> order).
Proof.
  intros Hd Hn He; induction order as [ | kv order IH ]; cbn in *; [ constructor | ].
  apply NoDup_cons in Hd as [ Hx Hd ]; apply Forall_cons in Hn as [ Hn0 Hn ].
  apply NoDup_cons; split; [ | auto ]; intros M; apply list_elem_of_fmap in M as (kv' & E & Hkv').
  rewrite Forall_forall in Hn; rewrite !committeeKey_ok in E by auto.
  apply Hx, list_elem_of_fmap; exists kv'; split; [ lia | done ].
Qed.

Lemma committee_keys order epoch :
  Forall (fun kv => node_ok kv.1) order -> epoch_ok epoch ->
  Permutation (KeyInt <$> committeePartyIDs order epoch) ((fun kv => committeeKey kv.1 epoch) <$> order).
Proof.
  intros Hn He; pose proof (Permutation_map (fun x : string * string * Z => x.2) (committee_members _ _ Hn He)) as P.
  rewrite <- !list_fmap_compose in P; exact P.
Qed.

Lemma committee_node order epoch id :
  Forall (fun kv => node_ok kv.1) order -> epoch_ok epoch -> id ∈ committeePartyIDs order epoch ->
  exists kv, kv ∈ order /\ nodeForPartyKey id = (kv.1, epoch) /\ KeyInt id = committeeKey kv.1 epoch.
Proof.
  intros Hn He Hi; destruct (committee_key_members _ _ _ Hn He Hi) as (kv & Hkv & E); exists kv.
  unfold name_and_key, memberOf in E; injection E as _ _ K.
  rewrite Forall_forall in Hn; split_and!; auto; apply node_of_key; auto.
Qed.

(** Two members with one key are one. *)
Lemma committee_unique order epoch id1 id2 :
  NoDup order.*1 -> Forall (fun kv => node_ok kv.1) order -> epoch_ok epoch ->
  id1 ∈ committeePartyIDs order epoch -> id2 ∈ committeePartyIDs order epoch -> KeyInt id1 = KeyInt id2 -> id1 = id2.
Proof.
  intros Hd Hn He H1 H2 E; apply list_elem_of_lookup in H1 as [ i1 L1 ], H2 as [ i2 L2 ].
  assert (NoDup (KeyInt <$> committeePartyIDs order epoch)) as Hk
    by (rewrite (committee_keys _ _ Hn He); apply distinct_keys; done).
  assert (i1 = i2) as ->; [ | congruence ].
  apply (NoDup_lookup _ _ _ (KeyInt id1) Hk); rewrite list_lookup_fmap; [ rewrite L1 | rewrite L2 ]; cbn; congruence.
Qed.

Lemma find_by_node order epoch node url :
  NoDup order.*1 -> Forall (fun kv => node_ok kv.1) order -> epoch_ok epoch -> (node, url) ∈ order ->
  exists id, findPartyIDByNode (committeePartyIDs order epoch) node = Some id /\
    KeyInt id = committeeKey node epoch /\ nodeForPartyKey id = (node, epoch) /\ id ∈ committeePartyIDs order epoch.
Proof.
  intros Hd Hn He Ho; destruct (committee_has _ _ _ _ Hn He Ho) as (id & Hi & K).
  assert (node_ok node) as Hnode by (rewrite Forall_forall in Hn; apply (Hn _ Ho)).
  destruct (findPartyIDByNode (committeePartyIDs order epoch) node) as [ id1 | ] eqn:F1; cycle 1.
  { unfold findPartyIDByNode in F1; rewrite first_party_none in F1; specialize (F1 _ Hi).
    rewrite (node_of_key _ _ _ Hnode He K) in F1; cbn in F1; lia. }
  apply first_party_some in F1 as [ H1 T1 ]; destruct (committee_node _ _ _ Hn He H1) as (kv & Hkv & Hnd & K1).
  rewrite Hnd in T1; cbn in T1; apply Z.eqb_eq in T1; subst node; eauto 10.
Qed.

Lemma find_by_key order epoch key id :
  NoDup order.*1 -> Forall (fun kv => node_ok kv.1) order -> epoch_ok epoch ->
  id ∈ committeePartyIDs order epoch -> KeyInt id = key ->
  findPartyIDByKey (committeePartyIDs order epoch) key = Some id.
Proof.
  intros Hd Hn He Hi K; destruct (findPartyIDByKey _ _) as [ id' | ] eqn:F; unfold findPartyIDByKey in F.
  - apply first_party_some in F as [ H' T ]; apply Z.eqb_eq in T; f_equal.
    apply (committee_unique order epoch); auto; congruence.
  - rewrite first_party_none in F; specialize (F _ Hi); lia.
Qed.

Lemma find_by_node_none order epoch node :
  Forall (fun kv => node_ok kv.1) order -> epoch_ok epoch -> node ∉ order.*1 ->
  findPartyIDByNode (committeePartyIDs order epoch) node = None.
Proof.
  intros Hn He Ho; apply first_party_none; intros id Hi.
  destruct (committee_node _ _ _ Hn He Hi) as (kv & Hkv & -> & _); cbn.
  apply Z.eqb_neq; intros <-; apply Ho, list_elem_of_fmap; eauto.
Qed.

Lemma committee_order_independent order order' epoch :
  Permutation order order' -> NoDup order.*1 -> Forall (fun kv => node_ok kv.1) order -> epoch_ok epoch ->
  committeePartyIDs order epoch = committeePartyIDs order' epoch.
Proof.
  intros Hp Hd Hn He; unfold committeePartyIDs, deterministicPartyIDs.
  assert (forall f : Z * string -> PartyID, (forall kv, kv ∈ order -> KeyInt (f kv) = committeeKey kv.1 epoch) ->
    SortPartyIDs (f <$> order) = SortPartyIDs (f <$> order')) as S.
  { intros f Hf; apply sort_canonical; [ apply Permutation_map, Hp | ].
    rewrite <- list_fmap_compose.
    replace (KeyInt ∘ f <$> order) with ((fun kv => committeeKey kv.1 epoch) <$> order); [ apply distinct_keys; done | ].
    apply list_fmap_ext; intros i kv Hk; symmetry; apply Hf, list_elem_of_lookup; eauto. }
  rewrite Forall_forall in Hn.
  assert (forall i m k, 0 <= k -> KeyInt (NewPartyID i m k) = k) as Hnew
    by (intros i m k Hk; pose proof (new_party i m k Hk) as E; unfold name_and_key in E; simplify_eq; congruence).
  destruct (epoch =? 0) eqn:E; apply S; intros kv Hkv; specialize (Hn _ Hkv).
  - assert (epoch = 0) as -> by lia; rewrite committeeKey_0 by done; apply Hnew; unfold partyKey, node_ok in *; lia.
  - apply Hnew; rewrite committeeKey_ok by done; unfold node_ok, epoch_ok, committeeEpochStride in *; lia.
Qed.

(** Endpoints play no part in identities. *)
Lemma committee_urls order epoch :
  committeePartyIDs order epoch = committeePartyIDs ((fun n => (n, ""%string)) <$> order.*1) epoch.
Proof.
  unfold committeePartyIDs, deterministicPartyIDs; rewrite <- !list_fmap_compose; destruct (epoch =? 0); done.
Qed.

Lemma committee_same_nodes order order' epoch :
  Permutation order.*1 order'.*1 -> NoDup order.*1 -> Forall node_ok order.*1 -> epoch_ok epoch ->
  committeePartyIDs order epoch = committeePartyIDs order' epoch.
Proof.
  intros Hp Hd Hn He; rewrite (committee_urls order), (committee_urls order').
  apply committee_order_independent; [ apply Permutation_map, Hp | | | done ].
  - rewrite <- list_fmap_compose; cbn; rewrite list_fmap_id; done.
  - apply Forall_fmap; done.
Qed.

(** *** Properties *)

(** Every process arrives at the same committee, in whatever order it visits
    its peers, and within a committee of any epoch nodes and identities
    determine each other: a member node has exactly one identity, found by node
    or by key alike, that maps back to the node and epoch; a non-member has
    none. *)
Theorem committee_identity order order' epoch node :
  Permutation order order' -> NoDup order.*1 -> Forall (fun kv => node_ok kv.1) order -> epoch_ok epoch ->
  committeePartyIDs order epoch = committeePartyIDs order' epoch /\
  (node ∈ order.*1 ->
   exists id, findPartyIDByNode (committeePartyIDs order epoch) node = Some id /\
     findPartyIDByKey (committeePartyIDs order epoch) (committeeKey node epoch) = Some id /\
     nodeForPartyKey id = (node, epoch)) /\
  (node ∉ order.*1 -> findPartyIDByNode (committeePartyIDs order epoch) node = None).
Proof.
  intros Hp Hd Hn He; split_and!.
  - apply committee_order_independent; done.
  - intros Ho; apply list_elem_of_fmap in Ho as ([ n url ] & -> & Ho).
    destruct (find_by_node _ _ _ _ Hd Hn He Ho) as (id & F & K & N & Hi); exists id; split_and!; auto.
    apply find_by_key; auto.
  - apply find_by_node_none; done.
Qed.

End Ids.

(** ** An implementation of the interface

    Identities as records, sorted by key and numbered in that order. *)

Record SimpleID := { simpleName : string; simpleMoniker : string; simpleKey : Z; simpleIndex : nat }.

Definition key_le (p q : SimpleID) : Prop := simpleKey p <= simpleKey q.
#[global] Instance key_le_dec p q : Decision (key_le p q) := decide (simpleKey p <= simpleKey q).
#[global] Instance key_le_total : Total key_le.
Proof. intros p q; unfold key_le; lia. Qed.
#[global] Instance key_le_trans : Transitive key_le.
Proof. intros p q r; unfold key_le; lia. Qed.

Definition numbered (l : list SimpleID) : list SimpleID :=
  imap (fun i p => {| simpleName := simpleName p; simpleMoniker := simpleMoniker p;
                      simpleKey := simpleKey p; simpleIndex := i |}) l.

#[local] Instance simple_ids : TssIds := {
  PartyID := SimpleID;
  NewPartyID i m k := {| simpleName := i; simpleMoniker := m; simpleKey := k; simpleIndex := 0 |};
  Id := simpleName;
  Moniker := simpleMoniker;
  KeyInt := simpleKey;
  SortPartyIDs l := numbered (merge_sort key_le l);
}.

Lemma numbered_names l : @fmap _ _ SimpleID _ name_and_key (numbered l) = name_and_key <$> l.
Proof. unfold numbered; rewrite fmap_imap, <- imap_const; reflexivity. Qed.

Lemma sorted_by_key_unique (l l' : list SimpleID) :
  Permutation l l' -> NoDup (simpleKey <$> l) -> merge_sort key_le l = merge_sort key_le l'.
Proof.
  intros Hp Hd; apply (StronglySorted_unique_strong key_le).
  - intros p q Hip Hiq H1 H2; unfold key_le in *.
    rewrite merge_sort_Permutation in Hip, Hiq; rewrite <- Hp in Hiq.
    apply list_elem_of_lookup in Hip as [ i Hi ], Hiq as [ j Hj ].
    assert (i = j) as ->; [ | congruence ].
    apply (NoDup_lookup _ _ _ (simpleKey p) Hd); rewrite list_lookup_fmap; [ rewrite Hi | rewrite Hj ]; cbn; f_equal; lia.
  - apply (StronglySorted_merge_sort key_le).
  - apply (StronglySorted_merge_sort key_le).
  - rewrite !merge_sort_Permutation; exact Hp.
Qed.

#[local] Instance simple_ids_laws : TssIdsLaws.
Proof.
  split.
  - reflexivity.
  - intros l; cbn; rewrite numbered_names; apply Permutation_map, merge_sort_Permutation.
  - intros l l' Hp Hd; cbn; f_equal; apply sorted_by_key_unique; done.
Qed.

Lemma committee_identity_witness :
  committeePartyIDs [ (3, "c"); (1, "a"); (2, "b") ] 1 = committeePartyIDs [ (1, "a"); (2, "b"); (3, "c") ] 1 /\
  exists id, findPartyIDByNode (committeePartyIDs [ (3, "c"); (1, "a"); (2, "b") ] 1) 2 = Some id /\
    nodeForPartyKey id = (2, 1).
Proof.
  destruct (committee_identity [ (3, "c"); (1, "a"); (2, "b") ] [ (1, "a"); (2, "b"); (3, "c") ] 1 2) as (E & H & _).
  - apply (Permutation_cons_append [ (1, "a"); (2, "b") ] (3, "c")).
  - cbn; apply (bool_decide_unpack _); vm_compute; constructor.
  - repeat constructor; cbn; unfold committeeEpochStride; lia.
  - unfold epoch_ok; lia.
  - split; [ exact E | ].
    destruct H as (id & F & _ & N); [ cbn; do 2 right; left | ].
    exists id; split; [ exact F | exact N ].
Defined.

(** A node number outside the range is given a key that maps to no node or to
    another one: such a party can take part in key generation, where it is
    looked up by key, but cannot be found by its number afterwards. *)
Lemma out_of_range_nodes :
  is_Some (findPartyID (committeePartyIDs [ (0, "a"); (1, "b") ] 0) 0) /\
  findPartyIDByNode (committeePartyIDs [ (0, "a"); (1, "b") ] 0) 0 = None /\
  findPartyIDByNode (committeePartyIDs [ (1000001, "a"); (2, "b") ] 0) 1 <> None.
Proof. vm_compute; split_and!; [ eauto | reflexivity | discriminate ]. Qed.


End Committee.
