(* ===== verification/PartyManager.v ===== *)
(** * A party's ceremonies

    Models [services/mpc-party/tss_party.go], [tss_signing.go],
    [tss_resharing.go] and [tss_flush.go]: the manager of one party's key
    generations, signings and share refreshes.

    Ceremonies are objects shared between the maps that register them and the
    goroutines that drive them, so the manager has a heap of each kind and its
    maps hold pointers: a goroutine goes on writing to the object it was started
    with even when its id has been given to another.  A tss-lib party is the
    record of what it was constructed from; what tss-lib and the network answer
    (whether a party starts, whether an update or a post succeeds, the
    pre-parameters) are arguments of the operations, and what a party emits
    reaches its goroutine as events.  An error text is the error itself. *)

From Stdlib Require Import ZArith Lia Ascii String Permutation.
From stdpp Require Import base list numbers strings gmap.
From S2P Require Import Prelude GoStrings GoText KeyShare ShareStore Committee.

Open Scope Z_scope.

Module PartyManager.
Import KeyShare Committee.

(** Go visits the entries of a map in any order. *)
Class GoRange := {
  range {A} : gmap Z A -> list (Z * A);
  range_perm {A} (m : gmap Z A) : Permutation (range m) (map_to_list m);
}.

(** A protocol message of tss-lib. *)
Class TssMessages `{TssIds} := {
  Message : Type;
  MsgWireBytes : Message -> option bytes;
  MsgIsBroadcast : Message -> bool;
  GetTo : Message -> list PartyID;
  GetFrom : Message -> PartyID;
  IsToOldCommittee : Message -> bool;
  IsToOldAndNewCommittees : Message -> bool;
}.

(** Pre-parameters, and how a refresh prepares its save data. *)
Class TssSaves `{ShareCrypto} := {
  PreParams : Type;
  LocalPreParams : EcdsaSave -> PreParams;
  (** [NewLocalPartySaveData(n)] with the given pre-parameters *)
  NewEcdsaSave : Z -> PreParams -> EcdsaSave;
  NewEddsaSave : Z -> EddsaSave;
}.

Inductive ceremonyStatus : Type := ceremonyPending | ceremonyInProgress | ceremonyCompleted | ceremonyFailed.
#[global] Instance ceremonyStatus_eq_dec : EqDecision ceremonyStatus.
Proof. solve_decision. Defined.

Inductive MgrErr : Type :=
| NotInPeers (partyID : Z)
| NotMajority (threshold n : Z)
| CurveErr (e : ShareErr)
| SelfUnresolved
| PreParamsFailed
| StartFailed
| UnknownCurveErr (c : string)
| RelayFailed (e : MgrErr)
| ProtocolError
| SerializeFailed
| NoEndpoint (partyID : Z)
| DeliveryFailed (partyID : Z)
| PublicKeyUnderivable (e : ShareErr)
| SealingFailed (e : ShareStore.StoreErr)
| NotReady
| UnknownSender (partyID : Z)
| BadWireBytes
| UpdateFailed
| UnknownCeremony (id : string)
| NothingToSign
| NotCompleted
| DigestLength (n : Z)
| CommitteeSize (want got : Z)
| NotInCommittee
| NotDKGMembers
| AlreadyExists (id : string)
| NoPeers
| NotInBothCommittees
| NoShareData
| NoDestination
| UnrecognisedParty
| KeyChanged (got want : string)
| AlreadyLoaded
| LoadFailed (e : ShareStore.StoreErr)
| NoContext
| EndpointCount (want got : Z)
| NotAmongEndpoints
| SealedKeyMismatch
| SealedAddressMismatch.

(** ** Data *)

(** The wire formats of [tss_handlers.go]. *)
Record tssMessageEnvelope := { CeremonyID : string; FromPartyID : Z; IsBroadcast : bool; WireBytes : string }.
Record tssSignMessageEnvelope := { sgnID : string; sgnFrom : Z; sgnBroadcast : bool; sgnWireBytes : string }.
Record tssReshareMessageEnvelope := {
  rsReshareID : string; rsFrom : Z; rsBroadcast : bool; rsWireBytes : string;
  ToOldCommittee : bool; FromOldCommittee : bool;
}.
Inductive Envelope : Type :=
| KeygenEnv (e : tssMessageEnvelope)
| SignEnv (e : tssSignMessageEnvelope)
| ReshareEnv (e : tssReshareMessageEnvelope).

Section Manager.
Context `{ShareCrypto, TssIds, !TssMessages, !TssSaves, GoRange}.

(** [NewPeerContext] and [NewParameters]; [NewReSharingParameters]. *)
Record Parameters := {
  pCurve : EllipticCurve; pCommittee : list PartyID; pSelf : PartyID; pCount : Z; pThreshold : Z }.
Record ReParameters := {
  qCurve : EllipticCurve; qOld : list PartyID; qNew : list PartyID; qSelf : PartyID; qCount : Z; qThreshold : Z }.

(** A local party, by how it was made. *)
Inductive Party : Type :=
| EcdsaKeygen (p : Parameters) (pre : PreParams)
| EddsaKeygen (p : Parameters)
| EcdsaSigning (msg : Z) (p : Parameters) (save : EcdsaSave)
| EddsaSigning (msg : Z) (p : Parameters) (save : EddsaSave)
| EcdsaResharing (q : ReParameters) (save : EcdsaSave)
| EddsaResharing (q : ReParameters) (save : EddsaSave).

Record tssKeygenCeremony := {
  status : ceremonyStatus;
  errorMessage : option MgrErr;
  selfPartyID : Z;
  threshold : Z;
  sortedIDs : list PartyID;
  peers : gmap Z string;
  localParty : option Party;
  curve : Curve;
  blockchain : string;
  epoch : Z;
  saveData : option KeyShare;
  publicKeyHex : string;
  address : string;
  sealed : bool;
}.

Record tssSigningCeremony := {
  sgStatus : ceremonyStatus;
  sgError : option MgrErr;
  sgSelf : Z;
  committee : list PartyID;
  sgPeers : gmap Z string;
  sgParty : option Party;
  sgCurve : Curve;
  signature : string;
}.

Record tssResharingCeremony := {
  reStatus : ceremonyStatus;
  reError : option MgrErr;
  reSelf : Z;
  reThreshold : Z;
  reCurve : Curve;
  rePeers : gmap Z string;
  oldSorted : list PartyID;
  newSorted : list PartyID;
  newEpoch : Z;
  oldParty : option Party;
  newParty : option Party;
  sourceCeremonyID : string;
  expectedPublicKey : string;
  expectedAddress : string;
  reSave : option KeyShare;
  reSealed : bool;
}.

Record TSSPartyManager := {
  partyID : Z;
  keygenObjs : list tssKeygenCeremony;
  ceremonies : gmap string nat;
  resharingObjs : list tssResharingCeremony;
  resharings : gmap string nat;
  signingObjs : list tssSigningCeremony;
  signings : gmap string nat;
}.

Definition NewTSSPartyManager (id : Z) : TSSPartyManager :=
  {| partyID := id; keygenObjs := []; ceremonies := ∅; resharingObjs := []; resharings := ∅; signingObjs := []; signings := ∅ |}.

(** *** Writing to objects and maps *)

Definition onKeygen (p : nat) (f : tssKeygenCeremony -> tssKeygenCeremony) (m : TSSPartyManager) : TSSPartyManager :=
  {| partyID := partyID m; keygenObjs := alter f p (keygenObjs m); ceremonies := ceremonies m;
     resharingObjs := resharingObjs m; resharings := resharings m; signingObjs := signingObjs m; signings := signings m |}.
Definition onSigning (p : nat) (f : tssSigningCeremony -> tssSigningCeremony) (m : TSSPartyManager) : TSSPartyManager :=
  {| partyID := partyID m; keygenObjs := keygenObjs m; ceremonies := ceremonies m;
     resharingObjs := resharingObjs m; resharings := resharings m; signingObjs := alter f p (signingObjs m); signings := signings m |}.
Definition onResharing (p : nat) (f : tssResharingCeremony -> tssResharingCeremony) (m : TSSPartyManager) : TSSPartyManager :=
  {| partyID := partyID m; keygenObjs := keygenObjs m; ceremonies := ceremonies m;
     resharingObjs := alter f p (resharingObjs m); resharings := resharings m; signingObjs := signingObjs m; signings := signings m |}.

(** [m.ceremonies[id] = &o] and the like: the pointer is the next of its heap. *)
Definition addKeygen (id : string) (o : tssKeygenCeremony) (m : TSSPartyManager) : TSSPartyManager :=
  {| partyID := partyID m; keygenObjs := keygenObjs m ++ [ o ]; ceremonies := <[ id := length (keygenObjs m) ]> (ceremonies m);
     resharingObjs := resharingObjs m; resharings := resharings m; signingObjs := signingObjs m; signings := signings m |}.
Definition addSigning (id : string) (o : tssSigningCeremony) (m : TSSPartyManager) : TSSPartyManager :=
  {| partyID := partyID m; keygenObjs := keygenObjs m; ceremonies := ceremonies m;
     resharingObjs := resharingObjs m; resharings := resharings m;
     signingObjs := signingObjs m ++ [ o ]; signings := <[ id := length (signingObjs m) ]> (signings m) |}.
Definition addResharing (id : string) (o : tssResharingCeremony) (m : TSSPartyManager) : TSSPartyManager :=
  {| partyID := partyID m; keygenObjs := keygenObjs m; ceremonies := ceremonies m;
     resharingObjs := resharingObjs m ++ [ o ]; resharings := <[ id := length (resharingObjs m) ]> (resharings m);
     signingObjs := signingObjs m; signings := signings m |}.

(** The object registered under an id. *)
Definition keygenOf (m : TSSPartyManager) (id : string) : option (nat * tssKeygenCeremony) :=
  p ← ceremonies m !! id; o ← keygenObjs m !! p; Some (p, o).
Definition signingOf (m : TSSPartyManager) (id : string) : option (nat * tssSigningCeremony) :=
  p ← signings m !! id; o ← signingObjs m !! p; Some (p, o).
Definition resharingOf (m : TSSPartyManager) (id : string) : option (nat * tssResharingCeremony) :=
  p ← resharings m !! id; o ← resharingObjs m !! p; Some (p, o).

Definition failKeygenObj (e : MgrErr) (o : tssKeygenCeremony) : tssKeygenCeremony :=
  {| status := ceremonyFailed; errorMessage := Some e; selfPartyID := selfPartyID o; threshold := threshold o;
     sortedIDs := sortedIDs o; peers := peers o; localParty := localParty o; curve := curve o; blockchain := blockchain o;
     epoch := epoch o; saveData := saveData o; publicKeyHex := publicKeyHex o; address := address o; sealed := sealed o |}.

(** [failCeremony]: the ceremony now registered under the id, if any. *)
Definition failCeremony (m : TSSPartyManager) (id : string) (e : MgrErr) : TSSPartyManager :=
  match ceremonies m !! id with None => m | Some p => onKeygen p (failKeygenObj e) m end.

Definition failSigningObj (e : MgrErr) (o : tssSigningCeremony) : tssSigningCeremony :=
  {| sgStatus := ceremonyFailed; sgError := Some e; sgSelf := sgSelf o; committee := committee o; sgPeers := sgPeers o;
     sgParty := sgParty o; sgCurve := sgCurve o; signature := signature o |}.
Definition failSigning (m : TSSPartyManager) (id : string) (e : MgrErr) : TSSPartyManager :=
  match signings m !! id with None => m | Some p => onSigning p (failSigningObj e) m end.

Definition setReStatus (st : ceremonyStatus) (e : option MgrErr) (sv : option KeyShare) (o : tssResharingCeremony) : tssResharingCeremony :=
  {| reStatus := st; reError := e; reSelf := reSelf o; reThreshold := reThreshold o; reCurve := reCurve o; rePeers := rePeers o;
     oldSorted := oldSorted o; newSorted := newSorted o; newEpoch := newEpoch o; oldParty := oldParty o; newParty := newParty o;
     sourceCeremonyID := sourceCeremonyID o; expectedPublicKey := expectedPublicKey o; expectedAddress := expectedAddress o;
     reSave := sv; reSealed := reSealed o |}.
Definition failResharing (m : TSSPartyManager) (id : string) (e : MgrErr) : TSSPartyManager :=
  match resharings m !! id with
  | None => m
  | Some p => onResharing p (fun o => setReStatus ceremonyFailed (Some e) (reSave o) o) m
  end.

(** ** Routing *)

Definition broadcastTargets (self : Z) (ps : gmap Z string) : list Z :=
  filter (fun id => id <> self) ((range ps).*1).

Definition addressedTargets (ids : list PartyID) (msg : Message) : list Z :=
  concat ((fun to => (filter (fun kv => KeyInt kv.2 = KeyInt to) (range (peerIndexByKey ids))).*1) <$> GetTo msg).

(** Posts to each target in turn until one fails; the URLs posted to. *)
Fixpoint postAll (ps : gmap Z string) (post : string -> bool) (targets : list Z) : list string * option MgrErr :=
  match targets with
  | [] => ([], None)
  | t :: ts =>
      match ps !! t with
      | None => ([], Some (NoEndpoint t))
      | Some url =>
          if post url then let '(urls, e) := postAll ps post ts in (url :: urls, e)
          else ([ url ], Some (DeliveryFailed t))
      end
  end.

Definition relayTSSMessage (self : Z) (ps : gmap Z string) (ids : list PartyID) (msg : Message) (post : string -> bool)
    : list string * option MgrErr :=
  postAll ps post (if MsgIsBroadcast msg then broadcastTargets self ps else addressedTargets ids msg).

(** A post that was made. *)
Definition Post : Type := string * Envelope.

Definition relayMessage (id : string) (o : tssKeygenCeremony) (post : string -> Envelope -> bool) (msg : Message)
    : list Post * option MgrErr :=
  match MsgWireBytes msg with
  | None => ([], Some SerializeFailed)
  | Some data =>
      let env := KeygenEnv {| CeremonyID := id; FromPartyID := selfPartyID o; IsBroadcast := MsgIsBroadcast msg;
                              WireBytes := Base64.encode data |} in
      let '(urls, e) := relayTSSMessage (selfPartyID o) (peers o) (sortedIDs o) msg (fun u => post u env) in
      ((fun u => (u, env)) <$> urls, e)
  end.

Definition relaySignMessage (id : string) (o : tssSigningCeremony) (post : string -> Envelope -> bool) (msg : Message)
    : list Post * option MgrErr :=
  match MsgWireBytes msg with
  | None => ([], Some SerializeFailed)
  | Some data =>
      let env := SignEnv {| sgnID := id; sgnFrom := sgSelf o; sgnBroadcast := MsgIsBroadcast msg;
                            sgnWireBytes := Base64.encode data |} in
      let '(urls, e) := relayTSSMessage (sgSelf o) (sgPeers o) (committee o) msg (fun u => post u env) in
      ((fun u => (u, env)) <$> urls, e)
  end.

(** A refresh message goes out by post, or to this node's own other role. *)
Inductive Delivery : Type := Posted (url : string) (e : Envelope) | ToSelf (e : tssReshareMessageEnvelope).

Definition deliver (id : string) (o : tssResharingCeremony) (post : string -> Envelope -> bool) (msg : Message)
    (data : bytes) (node : Z) (toOld : bool) : list Delivery * option MgrErr :=
  let fromIsNew := snd (nodeForPartyKey (GetFrom msg)) =? newEpoch o in
  let env := {| rsReshareID := id; rsFrom := reSelf o; rsBroadcast := MsgIsBroadcast msg; rsWireBytes := Base64.encode data;
                ToOldCommittee := toOld; FromOldCommittee := negb fromIsNew |} in
  if node =? reSelf o then ([ ToSelf env ], None)
  else match rePeers o !! node with
       | None => ([], Some (NoEndpoint node))
       | Some url => ([ Posted url (ReshareEnv env) ], if post url (ReshareEnv env) then None else Some (DeliveryFailed node))
       end.

Fixpoint deliverAll (id : string) (o : tssResharingCeremony) (post : string -> Envelope -> bool) (msg : Message)
    (data : bytes) (targets : list PartyID) : list Delivery * option MgrErr :=
  match targets with
  | [] => ([], None)
  | to :: ts =>
      let '(node, toEpoch) := nodeForPartyKey to in
      let isNewID := toEpoch =? newEpoch o in
      let toOld := IsToOldCommittee msg || IsToOldAndNewCommittees msg in
      let toNew := negb (IsToOldCommittee msg) || IsToOldAndNewCommittees msg in
      if node <? 0 then ([], Some UnrecognisedParty)
      else
        let '(ds, e) :=
          if isNewID && toNew then deliver id o post msg data node false
          else if negb isNewID && toOld then deliver id o post msg data node true
          else ([], None) in
        match e with
        | Some e => (ds, Some e)
        | None => let '(ds', e') := deliverAll id o post msg data ts in (ds ++ ds', e')
        end
  end.

Definition relayReshareMessage (id : string) (o : tssResharingCeremony) (post : string -> Envelope -> bool) (msg : Message)
    : list Delivery * option MgrErr :=
  match MsgWireBytes msg with
  | None => ([], Some SerializeFailed)
  | Some data =>
      match GetTo msg with
      | [] => ([], Some NoDestination)
      | targets => deliverAll id o post msg data targets
      end
  end.

(** [relayPending]: everything already queued, until a relay fails. *)
Fixpoint relayPending {D} (relay : Message -> list D * option MgrErr) (queue : list Message) : list D * option MgrErr :=
  match queue with
  | [] => ([], None)
  | msg :: queue =>
      let '(ds, e) := relay msg in
      match e with
      | Some e => (ds, Some e)
      | None => let '(ds', e') := relayPending relay queue in (ds ++ ds', e')
      end
  end.

(** ** Key generation *)

(** What a goroutine has still to do. *)
Inductive Task : Type :=
| RunKeygen (id : string) (p : nat) (sorted : list PartyID) (self : PartyID) (t : Z)
| DriveKeygen (id : string) (p : nat) (c : Curve)
| RunSigning (id : string) (p : nat) (com : list PartyID) (self : PartyID) (t : Z) (share : KeyShare) (messageHash : bytes)
| DriveSigning (id : string) (p : nat)
| RunResharing (id : string) (p : nat) (share : KeyShare)
| DriveResharing (id : string) (p : nat) (c : Curve)
| DeliverSelf (env : tssReshareMessageEnvelope).

Definition startKeygen (m : TSSPartyManager) (id : string) (t : Z) (ps : gmap Z string) (c : Curve) (chain : string)
    : result MgrErr (TSSPartyManager * Task) :=
  refuse! bool_decide (ps !! partyID m = None) with NotInPeers (partyID m);
  let n := Z.of_nat (size ps) in
  refuse! (2 <=? n) && (i64 (t + 1) <? n / 2 + 1) with NotMajority t n;
  let! _ := map_err CurveErr (ellipticCurve c) in
  let sorted := deterministicPartyIDs (range ps) in
  match findPartyID sorted (partyID m) with
  | None => Err SelfUnresolved
  | Some self =>
      let o := {| status := ceremonyInProgress; errorMessage := None; selfPartyID := partyID m; threshold := t;
                  sortedIDs := sorted; peers := ps; localParty := None; curve := c; blockchain := chain; epoch := 0;
                  saveData := None; publicKeyHex := ""; address := ""; sealed := false |} in
      Ok (addKeygen id o m, RunKeygen id (length (keygenObjs m)) sorted self t)
  end.

Definition StartKeygen (m : TSSPartyManager) (id : string) (t : Z) (ps : gmap Z string) (c : Curve) :=
  startKeygen m id t ps c "".

Definition StartKeygenForChain (m : TSSPartyManager) (id : string) (t : Z) (ps : gmap Z string) (chain : string) :=
  let! c := map_err CurveErr (CurveForChain chain) in
  startKeygen m id t ps c chain.

Definition setLocalParty (party : Party) (o : tssKeygenCeremony) : tssKeygenCeremony :=
  {| status := status o; errorMessage := errorMessage o; selfPartyID := selfPartyID o; threshold := threshold o;
     sortedIDs := sortedIDs o; peers := peers o; localParty := Some party; curve := curve o; blockchain := blockchain o;
     epoch := epoch o; saveData := saveData o; publicKeyHex := publicKeyHex o; address := address o; sealed := sealed o |}.

(** [starts]: whether [Start] succeeds.  The party is published after it. *)
Definition startLocalParty (starts : Party -> bool) (m : TSSPartyManager) (id : string) (p : nat) (party : Party)
    : TSSPartyManager * bool :=
  if starts party then (onKeygen p (setLocalParty party) m, true) else (failCeremony m id StartFailed, false).

(** The goroutine up to its loop: [None] when it has ended. *)
Definition runKeygen (starts : Party -> bool) (pre : option PreParams) (m : TSSPartyManager) (id : string) (p : nat)
    (sorted : list PartyID) (self : PartyID) (t : Z) : TSSPartyManager * option Task :=
  match keygenObjs m !! p with
  | None => (m, None)
  | Some o =>
      match ellipticCurve (curve o) with
      | Ok ec =>
          let params := {| pCurve := ec; pCommittee := sorted; pSelf := self; pCount := Z.of_nat (length sorted); pThreshold := t |} in
          let go party := let '(m', ok) := startLocalParty starts m id p party in
                          (m', if ok : bool then Some (DriveKeygen id p (curve o)) else None) in
          if String.eqb (curve o) CurveSecp256k1 then
            match pre with
            | None => (failCeremony m id PreParamsFailed, None)
            | Some pre => go (EcdsaKeygen params pre)
            end
          else if String.eqb (curve o) CurveEd25519 then go (EddsaKeygen params)
          else (failCeremony m id (UnknownCurveErr (curve o)), None)
      | Err e => (failCeremony m id (CurveErr e), None)
      | Panic => (m, None)
      end
  end.

(** The save data a party ends with, and the share made of it. *)
Inductive SaveData : Type := EcdsaResult (s : EcdsaSave) | EddsaResult (s : EddsaSave).
Definition wrap (s : SaveData) : KeyShare :=
  match s with
  | EcdsaResult s => {| Curve_ := CurveSecp256k1; ECDSA := Some s; EdDSA := None |}
  | EddsaResult s => {| Curve_ := CurveEd25519; ECDSA := None; EdDSA := Some s |}
  end.

(** What a loop receives.  The result comes with the messages still queued. *)
Inductive Event : Type :=
| Outgoing (msg : Message)
| Failure
| OldEnd
| End_ (save : SaveData) (queue : list Message).

Context {W : Type} `{!ShareStore.Keeper W}.

Definition completeKeygenObj (share : KeyShare) (pub addr : string) (sl : bool) (o : tssKeygenCeremony) : tssKeygenCeremony :=
  {| status := ceremonyCompleted; errorMessage := errorMessage o; selfPartyID := selfPartyID o; threshold := threshold o;
     sortedIDs := sortedIDs o; peers := peers o; localParty := localParty o; curve := curve o; blockchain := blockchain o;
     epoch := epoch o; saveData := Some share; publicKeyHex := pub; address := addr; sealed := sl |}.

(** The public key, and the address as the ceremony's chain writes it. *)
Definition keyAndAddress (share : KeyShare) (chain : string) : result ShareErr (string * string) :=
  let! pk := PublicKey share in
  let! a := AddressFor share chain (snd pk) in
  Ok (fst pk, a).

Definition completeCeremony (m : TSSPartyManager) (w : W) (id : string) (p : nat) (share : KeyShare) : TSSPartyManager * W :=
  match keygenObjs m !! p with
  | None => (m, w)
  | Some o =>
      match keyAndAddress share (blockchain o) with
      | Ok (pub, addr) =>
          let cc := {| ShareStore.Threshold := threshold o; ShareStore.TotalParties := Z.of_nat (length (sortedIDs o));
                       ShareStore.ctxCurve := curve o; ShareStore.Epoch := epoch o; ShareStore.PublicKeyHex := pub;
                       ShareStore.Address := addr |} in
          match ShareStore.kseal (selfPartyID o) id share (Some cc) w with
          | (Ok sl, w') => (onKeygen p (completeKeygenObj share pub addr sl) m, w')
          | (Err e, w') => (failCeremony m id (SealingFailed e), w')
          | (Panic, w') => (m, w')
          end
      | Err e => (failCeremony m id (PublicKeyUnderivable e), w)
      | Panic => (m, w)
      end
  end.

(** One turn of the loop: what was posted, and whether the loop goes on. *)
Definition driveKeygenTurn (post : string -> Envelope -> bool) (m : TSSPartyManager) (w : W) (id : string) (p : nat) (ev : Event)
    : TSSPartyManager * W * list Post * bool :=
  match keygenObjs m !! p with
  | None => (m, w, [], false)
  | Some o =>
      match ev with
      | Outgoing msg =>
          let '(ps, e) := relayMessage id o post msg in
          match e with
          | None => (m, w, ps, true)
          | Some e => (failCeremony m id (RelayFailed e), w, ps, false)
          end
      | Failure => (failCeremony m id ProtocolError, w, [], false)
      | OldEnd => (m, w, [], true)
      | End_ save queue =>
          let '(ps, e) := relayPending (relayMessage id o post) queue in
          match e with
          | Some e => (failCeremony m id (RelayFailed e), w, ps, false)
          | None => let '(m', w') := completeCeremony m w id p (wrap save) in (m', w', ps, false)
          end
      end
  end.

(** The loop over the events received so far. *)
Fixpoint driveKeygen (post : string -> Envelope -> bool) (m : TSSPartyManager) (w : W) (id : string) (p : nat) (evs : list Event)
    : TSSPartyManager * W * list Post * bool :=
  match evs with
  | [] => (m, w, [], true)
  | ev :: evs =>
      let '(m', w', ps, go) := driveKeygenTurn post m w id p ev in
      if go : bool then
        let '(m'', w'', ps', go') := driveKeygen post m' w' id p evs in (m'', w'', ps ++ ps', go')
      else (m', w', ps, false)
  end.

(** [updates]: whether [UpdateFromBytes] succeeds. *)
Definition HandleIncomingMessage (updates : Party -> bytes -> PartyID -> bool -> bool) (m : TSSPartyManager)
    (env : tssMessageEnvelope) : result MgrErr unit :=
  match keygenOf m (CeremonyID env) with
  | None => Err NotReady
  | Some (_, o) =>
      match localParty o with
      | None => Err NotReady
      | Some party =>
          match findPartyID (sortedIDs o) (FromPartyID env) with
          | None => Err (UnknownSender (FromPartyID env))
          | Some from =>
              match Base64.decode (WireBytes env) with
              | None => Err BadWireBytes
              | Some b => if updates party b from (IsBroadcast env) then Ok tt else Err UpdateFailed
              end
          end
      end
  end.

Definition CeremonyCounts (m : TSSPartyManager) : nat * nat := (size (ceremonies m), size (signings m)).

Record KeygenStatusResult := {
  stCeremonyID : string; stPartyID : Z; stStatus : ceremonyStatus; stError : option MgrErr;
  stPublicKey : string; stAddress : string; stSealed : bool;
}.
Definition GetStatus (m : TSSPartyManager) (id : string) : result MgrErr KeygenStatusResult :=
  match keygenOf m id with
  | None => Err (UnknownCeremony id)
  | Some (_, o) => Ok {| stCeremonyID := id; stPartyID := selfPartyID o; stStatus := status o; stError := errorMessage o;
                         stPublicKey := publicKeyHex o; stAddress := address o; stSealed := sealed o |}
  end.

Definition dropShare (o : tssKeygenCeremony) : tssKeygenCeremony :=
  {| status := status o; errorMessage := errorMessage o; selfPartyID := selfPartyID o; threshold := threshold o;
     sortedIDs := sortedIDs o; peers := peers o; localParty := localParty o; curve := curve o; blockchain := blockchain o;
     epoch := epoch o; saveData := None; publicKeyHex := publicKeyHex o; address := address o; sealed := sealed o |}.
Definition Forget (m : TSSPartyManager) (id : string) : TSSPartyManager * bool :=
  match ceremonies m !! id with
  | None => (m, false)
  | Some p =>
      let m' := onKeygen p dropShare m in
      ({| partyID := partyID m'; keygenObjs := keygenObjs m'; ceremonies := delete id (ceremonies m');
          resharingObjs := resharingObjs m'; resharings := resharings m'; signingObjs := signingObjs m'; signings := signings m' |}, true)
  end.

(** ** Signing *)

(** The parties of a key that are wanted, as fresh identities, with their endpoints. *)
Fixpoint selectCommittee (wanted : list Z) (full : list PartyID) (fullPeers : gmap Z string)
    : list PartyID * gmap Z string :=
  match full with
  | [] => ([], ∅)
  | sid :: full =>
      let '(ids, ps) := selectCommittee wanted full fullPeers in
      let id := fst (nodeForPartyKey sid) in
      if bool_decide (id ∈ wanted)
      then (NewPartyID (Id sid) (Moniker sid) (KeyInt sid) :: ids, <[ id := default ""%string (fullPeers !! id) ]> ps)
      else (ids, ps)
  end.

Definition StartSigning (m : TSSPartyManager) (id keygenID : string) (messageHash : bytes) (wanted : list Z)
    : result MgrErr (TSSPartyManager * Task) :=
  refuse! len messageHash =? 0 with NothingToSign;
  match keygenOf m keygenID with
  | None => Err (UnknownCeremony keygenID)
  | Some (_, o) =>
      match status o, saveData o with
      | ceremonyCompleted, Some share =>
          refuse! String.eqb (Curve_ share) CurveSecp256k1 && negb (len messageHash =? 32) with DigestLength (len messageHash);
          refuse! negb (len wanted =? i64 (threshold o + 1)) with CommitteeSize (i64 (threshold o + 1)) (len wanted);
          refuse! negb (bool_decide (partyID m ∈ wanted)) with NotInCommittee;
          let '(unsorted, ps) := selectCommittee wanted (sortedIDs o) (peers o) in
          let com := SortPartyIDs unsorted in
          refuse! negb (len com =? len wanted) with NotDKGMembers;
          match findPartyIDByKey com (committeeKey (partyID m) (epoch o)) with
          | None => Err SelfUnresolved
          | Some self =>
              let sg := {| sgStatus := ceremonyInProgress; sgError := None; sgSelf := partyID m; committee := com;
                           sgPeers := ps; sgParty := None; sgCurve := Curve_ share; signature := "" |} in
              Ok (addSigning id sg m, RunSigning id (length (signingObjs m)) com self (threshold o) share messageHash)
          end
      | _, _ => Err NotCompleted
      end
  end.

Definition setSignParty (party : Party) (o : tssSigningCeremony) : tssSigningCeremony :=
  {| sgStatus := sgStatus o; sgError := sgError o; sgSelf := sgSelf o; committee := committee o; sgPeers := sgPeers o;
     sgParty := Some party; sgCurve := sgCurve o; signature := signature o |}.

(** A nil save data of the tagged curve is dereferenced: the process panics. *)
Definition signingParty (share : KeyShare) (ec : EllipticCurve) (com : list PartyID) (self : PartyID) (t : Z) (messageHash : bytes)
    : result MgrErr Party :=
  let params := {| pCurve := ec; pCommittee := com; pSelf := self; pCount := Z.of_nat (length com); pThreshold := t |} in
  let msg := be_val messageHash in
  if String.eqb (Curve_ share) CurveSecp256k1 then
    match ECDSA share with Some s => Ok (EcdsaSigning msg params s) | None => Panic end
  else if String.eqb (Curve_ share) CurveEd25519 then
    match EdDSA share with Some s => Ok (EddsaSigning msg params s) | None => Panic end
  else Err (UnknownCurveErr (Curve_ share)).

Definition runSigning (starts : Party -> bool) (m : TSSPartyManager) (id : string) (p : nat) (com : list PartyID)
    (self : PartyID) (t : Z) (share : KeyShare) (messageHash : bytes) : result MgrErr (TSSPartyManager * option Task) :=
  match ellipticCurve (Curve_ share) with
  | Ok ec =>
      match signingParty share ec com self t messageHash with
      | Ok party =>
          if starts party then Ok (onSigning p (setSignParty party) m, Some (DriveSigning id p))
          else Ok (failSigning m id StartFailed, None)
      | Err e => Ok (failSigning m id e, None)
      | Panic => Panic
      end
  | Err e => Ok (failSigning m id (CurveErr e), None)
  | Panic => Panic
  end.

(** [common.SignatureData] *)
Record SignatureData := { sigR : bytes; sigS : bytes; sigRecovery : bytes; sigEncoded : bytes }.

(** [copy(sig[32-len(r):32], r)]: a longer [r] makes the bound negative. *)
Definition leftPad {E} (n : nat) (b : bytes) : result E bytes :=
  if bool_decide (length b <= n)%nat then Ok (replicate (n - length b) 0 ++ b) else Panic.

(** For [s] the slice is [sig[64-len(s):64]]: up to 64 bytes fit, over [r]. *)
Definition encodeSignature (c : Curve) (sd : SignatureData) : result MgrErr bytes :=
  if String.eqb c CurveEd25519 then Ok (sigEncoded sd)
  else
    let! r := leftPad 32 (sigR sd) in
    if bool_decide (length (sigS sd) <= 64)%nat then
      let rs := r ++ replicate 32 0 in
      let rs := take (64 - length (sigS sd)) rs ++ sigS sd in
      Ok (rs ++ [ match sigRecovery sd with v :: _ => v | [] => 0 end ])
    else Panic.

Definition completeSigningObj (sig : string) (o : tssSigningCeremony) : tssSigningCeremony :=
  {| sgStatus := ceremonyCompleted; sgError := sgError o; sgSelf := sgSelf o; committee := committee o; sgPeers := sgPeers o;
     sgParty := sgParty o; sgCurve := sgCurve o; signature := sig |}.

Definition completeSigning (m : TSSPartyManager) (p : nat) (sd : SignatureData) : result MgrErr TSSPartyManager :=
  match signingObjs m !! p with
  | None => Ok m
  | Some o =>
      let! sig := encodeSignature (sgCurve o) sd in
      Ok (onSigning p (completeSigningObj (hex_encode sig)) m)
  end.

Inductive SignEvent : Type :=
| SgOutgoing (msg : Message)
| SgFailure
| SgEnd (sd : SignatureData) (queue : list Message).

Definition driveSigningTurn (post : string -> Envelope -> bool) (m : TSSPartyManager) (id : string) (p : nat) (ev : SignEvent)
    : result MgrErr (TSSPartyManager * list Post * bool) :=
  match signingObjs m !! p with
  | None => Ok (m, [], false)
  | Some o =>
      match ev with
      | SgOutgoing msg =>
          let '(ps, e) := relaySignMessage id o post msg in
          match e with
          | None => Ok (m, ps, true)
          | Some e => Ok (failSigning m id (RelayFailed e), ps, false)
          end
      | SgFailure => Ok (failSigning m id ProtocolError, [], false)
      | SgEnd sd queue =>
          let '(ps, e) := relayPending (relaySignMessage id o post) queue in
          match e with
          | Some e => Ok (failSigning m id (RelayFailed e), ps, false)
          | None => let! m' := completeSigning m p sd in Ok (m', ps, false)
          end
      end
  end.

Fixpoint driveSigning (post : string -> Envelope -> bool) (m : TSSPartyManager) (id : string) (p : nat) (evs : list SignEvent)
    : result MgrErr (TSSPartyManager * list Post * bool) :=
  match evs with
  | [] => Ok (m, [], true)
  | ev :: evs =>
      let! t := driveSigningTurn post m id p ev in
      let '(m', ps, go) := t in
      if go : bool then
        let! r := driveSigning post m' id p evs in
        let '(m'', ps', go') := r in Ok (m'', ps ++ ps', go')
      else Ok (m', ps, false)
  end.

Definition HandleIncomingSignMessage (updates : Party -> bytes -> PartyID -> bool -> bool) (m : TSSPartyManager)
    (env : tssSignMessageEnvelope) : result MgrErr unit :=
  match signingOf m (sgnID env) with
  | None => Err NotReady
  | Some (_, o) =>
      match sgParty o with
      | None => Err NotReady
      | Some party =>
          match findPartyIDByNode (committee o) (sgnFrom env) with
          | None => Err (UnknownSender (sgnFrom env))
          | Some from =>
              match Base64.decode (sgnWireBytes env) with
              | None => Err BadWireBytes
              | Some b => if updates party b from (sgnBroadcast env) then Ok tt else Err UpdateFailed
              end
          end
      end
  end.

Record SigningStatusResult := {
  ssID : string; ssPartyID : Z; ssStatus : ceremonyStatus; ssError : option MgrErr; ssSignature : string }.
Definition GetSigningStatus (m : TSSPartyManager) (id : string) : result MgrErr SigningStatusResult :=
  match signingOf m id with
  | None => Err (UnknownCeremony id)
  | Some (_, o) => Ok {| ssID := id; ssPartyID := sgSelf o; ssStatus := sgStatus o; ssError := sgError o; ssSignature := signature o |}
  end.

(** ** Refreshing shares *)

Definition StartResharing (m : TSSPartyManager) (id sourceID : string) (ps : gmap Z string)
    : result MgrErr (TSSPartyManager * Task) :=
  refuse! bool_decide (is_Some (resharings m !! id)) with AlreadyExists id;
  match keygenOf m sourceID with
  | None => Err (UnknownCeremony sourceID)
  | Some (_, src) =>
      match status src, saveData src with
      | ceremonyCompleted, Some share =>
          refuse! bool_decide (size ps = 0%nat) with NoPeers;
          let old := committeePartyIDs (range ps) (epoch src) in
          let new := committeePartyIDs (range ps) (i64 (epoch src + 1)) in
          refuse! bool_decide (findPartyIDByKey old (committeeKey (partyID m) (epoch src)) = None) with NotInCommittee;
          let o := {| reStatus := ceremonyInProgress; reError := None; reSelf := partyID m; reThreshold := threshold src;
                      reCurve := curve src; rePeers := ps; oldSorted := old; newSorted := new; newEpoch := i64 (epoch src + 1);
                      oldParty := None; newParty := None; sourceCeremonyID := sourceID;
                      expectedPublicKey := publicKeyHex src; expectedAddress := address src;
                      reSave := None; reSealed := false |} in
          Ok (addResharing id o m, RunResharing id (length (resharingObjs m)) share)
      | _, _ => Err NotCompleted
      end
  end.

Definition setReParties (old new : Party) (o : tssResharingCeremony) : tssResharingCeremony :=
  {| reStatus := reStatus o; reError := reError o; reSelf := reSelf o; reThreshold := reThreshold o; reCurve := reCurve o;
     rePeers := rePeers o; oldSorted := oldSorted o; newSorted := newSorted o; newEpoch := newEpoch o;
     oldParty := Some old; newParty := Some new; sourceCeremonyID := sourceCeremonyID o;
     expectedPublicKey := expectedPublicKey o; expectedAddress := expectedAddress o; reSave := reSave o; reSealed := reSealed o |}.

(** Both are started, in either order, before either is published. *)
Definition startResharingParties (starts : Party -> bool) (m : TSSPartyManager) (id : string) (p : nat) (old new : Party)
    : TSSPartyManager * bool :=
  if starts new && starts old then (onResharing p (setReParties old new) m, true) else (failResharing m id StartFailed, false).

Definition runResharing (starts : Party -> bool) (pre : option PreParams) (m : TSSPartyManager) (id : string) (p : nat)
    (share : KeyShare) : TSSPartyManager * option Task :=
  match resharingObjs m !! p with
  | None => (m, None)
  | Some o =>
      match ellipticCurve (reCurve o) with
      | Ok ec =>
          let n := Z.of_nat (length (oldSorted o)) in
          match findPartyID (oldSorted o) (reSelf o), findPartyIDByKey (newSorted o) (committeeKey (reSelf o) (newEpoch o)) with
          | Some oldSelf, Some newSelf =>
              let params self := {| qCurve := ec; qOld := oldSorted o; qNew := newSorted o; qSelf := self; qCount := n;
                                    qThreshold := reThreshold o |} in
              let go old new := let '(m', ok) := startResharingParties starts m id p old new in
                                (m', if ok : bool then Some (DriveResharing id p (reCurve o)) else None) in
              if String.eqb (reCurve o) CurveSecp256k1 then
                match ECDSA share with
                | None => (failResharing m id NoShareData, None)
                | Some save =>
                    (* the existing pre-parameters serve when fresh ones cannot be made *)
                    let input := NewEcdsaSave n (default (LocalPreParams save) pre) in
                    go (EcdsaResharing (params oldSelf) save) (EcdsaResharing (params newSelf) input)
                end
              else if String.eqb (reCurve o) CurveEd25519 then
                match EdDSA share with
                | None => (failResharing m id NoShareData, None)
                | Some save => go (EddsaResharing (params oldSelf) save) (EddsaResharing (params newSelf) (NewEddsaSave n))
                end
              else (failResharing m id (UnknownCurveErr (reCurve o)), None)
          | _, _ => (failResharing m id NotInBothCommittees, None)
          end
      | Err e => (failResharing m id (CurveErr e), None)
      | Panic => (m, None)
      end
  end.

Definition setReSealed (b : bool) (o : tssResharingCeremony) : tssResharingCeremony :=
  {| reStatus := reStatus o; reError := reError o; reSelf := reSelf o; reThreshold := reThreshold o; reCurve := reCurve o;
     rePeers := rePeers o; oldSorted := oldSorted o; newSorted := newSorted o; newEpoch := newEpoch o;
     oldParty := oldParty o; newParty := newParty o; sourceCeremonyID := sourceCeremonyID o;
     expectedPublicKey := expectedPublicKey o; expectedAddress := expectedAddress o; reSave := reSave o; reSealed := b |}.

Definition refreshKeygenObj (share : KeyShare) (sorted : list PartyID) (e : Z) (o : tssKeygenCeremony) : tssKeygenCeremony :=
  {| status := status o; errorMessage := errorMessage o; selfPartyID := selfPartyID o; threshold := threshold o;
     sortedIDs := sorted; peers := peers o; localParty := localParty o; curve := curve o; blockchain := blockchain o;
     epoch := e; saveData := Some share; publicKeyHex := publicKeyHex o; address := address o; sealed := sealed o |}.

(** A sealing that fails is logged; the refreshed share is used all the same. *)
Definition completeResharing (m : TSSPartyManager) (w : W) (id : string) (p : nat) (share : KeyShare) : TSSPartyManager * W :=
  match resharingObjs m !! p with
  | None => (m, w)
  | Some o =>
      match PublicKey share with
      | Ok (pub, dflt) =>
          if negb (String.eqb pub (expectedPublicKey o)) then (failResharing m id (KeyChanged pub (expectedPublicKey o)), w)
          else
            let addr := if String.eqb (expectedAddress o) "" then dflt else expectedAddress o in
            let m1 := onResharing p (setReStatus ceremonyCompleted (reError o) (Some share)) m in
            let cc := {| ShareStore.Threshold := reThreshold o; ShareStore.TotalParties := Z.of_nat (length (newSorted o));
                         ShareStore.ctxCurve := reCurve o; ShareStore.Epoch := newEpoch o; ShareStore.PublicKeyHex := pub;
                         ShareStore.Address := addr |} in
            let '(r, w') := ShareStore.kseal (reSelf o) (sourceCeremonyID o) share (Some cc) w in
            let m2 := onResharing p (setReSealed (match r with Ok b => b | _ => false end)) m1 in
            match ceremonies m2 !! sourceCeremonyID o with
            | None => (m2, w')
            | Some q => (onKeygen q (refreshKeygenObj share (newSorted o) (newEpoch o)) m2, w')
            end
      | Err e => (failResharing m id (PublicKeyUnderivable e), w)
      | Panic => (m, w)
      end
  end.

(** One turn: deliveries to this node itself become goroutines of their own. *)
Definition driveResharingTurn (post : string -> Envelope -> bool) (m : TSSPartyManager) (w : W) (id : string) (p : nat) (ev : Event)
    : TSSPartyManager * W * list Delivery * bool :=
  match resharingObjs m !! p with
  | None => (m, w, [], false)
  | Some o =>
      match ev with
      | Outgoing msg =>
          let '(ds, e) := relayReshareMessage id o post msg in
          match e with
          | None => (m, w, ds, true)
          | Some e => (failResharing m id (RelayFailed e), w, ds, false)
          end
      | Failure => (failResharing m id ProtocolError, w, [], false)
      | OldEnd => (m, w, [], true)
      | End_ save queue =>
          let '(ds, e) := relayPending (relayReshareMessage id o post) queue in
          match e with
          | Some e => (failResharing m id (RelayFailed e), w, ds, false)
          | None => let '(m', w') := completeResharing m w id p (wrap save) in (m', w', ds, false)
          end
      end
  end.

Fixpoint driveResharing (post : string -> Envelope -> bool) (m : TSSPartyManager) (w : W) (id : string) (p : nat) (evs : list Event)
    : TSSPartyManager * W * list Delivery * bool :=
  match evs with
  | [] => (m, w, [], true)
  | ev :: evs =>
      let '(m', w', ds, go) := driveResharingTurn post m w id p ev in
      if go : bool then
        let '(m'', w'', ds', go') := driveResharing post m' w' id p evs in (m'', w'', ds ++ ds', go')
      else (m', w', ds, false)
  end.

Definition HandleIncomingReshareMessage (updates : Party -> bytes -> PartyID -> bool -> bool) (m : TSSPartyManager)
    (env : tssReshareMessageEnvelope) : result MgrErr unit :=
  match resharingOf m (rsReshareID env) with
  | None => Err NotReady
  | Some (_, o) =>
      match (if ToOldCommittee env then oldParty o else newParty o) with
      | None => Err NotReady
      | Some target =>
          match (if FromOldCommittee env then findPartyIDByKey (oldSorted o) (committeeKey (rsFrom env) (i64 (newEpoch o - 1)))
                 else findPartyIDByKey (newSorted o) (committeeKey (rsFrom env) (newEpoch o))) with
          | None => Err (UnknownSender (rsFrom env))
          | Some from =>
              match Base64.decode (rsWireBytes env) with
              | None => Err BadWireBytes
              | Some b => if updates target b from (rsBroadcast env) then Ok tt else Err UpdateFailed
              end
          end
      end
  end.

Record ResharingStatusResult := {
  rrID : string; rrSource : string; rrStatus : ceremonyStatus; rrCurve : string; rrAddress : string;
  rrKeyUnchanged : bool; rrSealed : bool; rrError : option MgrErr;
}.
Definition GetResharingStatus (m : TSSPartyManager) (id : string) : result MgrErr ResharingStatusResult :=
  match resharingOf m id with
  | None => Err (UnknownCeremony id)
  | Some (_, o) =>
      let done := bool_decide (reStatus o = ceremonyCompleted) in
      Ok {| rrID := id; rrSource := sourceCeremonyID o; rrStatus := reStatus o; rrCurve := reCurve o;
            rrAddress := if done then expectedAddress o else ""; rrKeyUnchanged := done; rrSealed := reSealed o; rrError := reError o |}
  end.

(** ** Restoring from sealed material *)

(** The address under which a restored key is reported, if the key is the one sealed. *)
Definition restoredAddress (cc : ShareStore.CeremonyContext) (pub dflt : string) : result MgrErr string :=
  if negb (String.eqb (ShareStore.PublicKeyHex cc) "") then
    refuse! negb (equal_fold pub (ShareStore.PublicKeyHex cc)) with SealedKeyMismatch;
    Ok (if String.eqb (ShareStore.Address cc) "" then dflt else ShareStore.Address cc)
  else
    refuse! negb (String.eqb (ShareStore.Address cc) "") && negb (String.eqb dflt (ShareStore.Address cc)) with SealedAddressMismatch;
    Ok dflt.

Definition RestoreCeremony (m : TSSPartyManager) (w : W) (id : string) (ps : gmap Z string)
    : result MgrErr TSSPartyManager * W :=
  if bool_decide (is_Some (ceremonies m !! id)) then (Err AlreadyLoaded, w)
  else
    match ShareStore.kload (partyID m) id w with
    | (Err e, w') => (Err (LoadFailed e), w')
    | (Panic, w') => (Panic, w')
    | (Ok (_, None), w') => (Err NoContext, w')
    | (Ok (share, Some cc), w') =>
        ((refuse! negb (Z.of_nat (size ps) =? ShareStore.TotalParties cc)
            with EndpointCount (ShareStore.TotalParties cc) (Z.of_nat (size ps));
          let sorted := committeePartyIDs (range ps) (ShareStore.Epoch cc) in
          refuse! bool_decide (findPartyIDByNode sorted (partyID m) = None) with NotAmongEndpoints;
          let! pk := map_err PublicKeyUnderivable (PublicKey share) in
          let! addr := restoredAddress cc (fst pk) (snd pk) in
          Ok (addKeygen id {| status := ceremonyCompleted; errorMessage := None; selfPartyID := partyID m;
                              threshold := ShareStore.Threshold cc; sortedIDs := sorted; peers := ps; localParty := None;
                              curve := ShareStore.ctxCurve cc; blockchain := ""; epoch := ShareStore.Epoch cc;
                              saveData := Some share; publicKeyHex := fst pk; address := addr; sealed := true |} m)), w')
    end.

(** ** The process: requests interleaved with the turns of goroutines *)

(** [held]: ceremonies whose mutex was left locked; [frozen]: the manager's was. *)
Record System := { mgr : TSSPartyManager; store : W; tasks : list Task; held : list nat; frozen : bool }.

Inductive Request : Type :=
| RKeygen (id : string) (t : Z) (ps : gmap Z string) (c : Curve) (chain : string)
| RSigning (id keygenID : string) (messageHash : bytes) (wanted : list Z)
| RResharing (id sourceID : string) (ps : gmap Z string)
| RRestore (id : string) (ps : gmap Z string)
| RForget (id : string)
| RRetire (id : string).

Definition spawn (s : System) (r : result MgrErr (TSSPartyManager * Task)) : System :=
  match r with
  | Ok (m, t) => {| mgr := m; store := store s; tasks := t :: tasks s; held := held s; frozen := frozen s |}
  | _ => s
  end.
Definition withStore (s : System) (m : TSSPartyManager) (w : W) : System :=
  {| mgr := m; store := w; tasks := tasks s; held := held s; frozen := frozen s |}.
Definition hold (p : option nat) (s : System) : System :=
  {| mgr := mgr s; store := store s; tasks := tasks s; held := option_list p ++ held s; frozen := frozen s |}.
Definition freeze (s : System) : System :=
  {| mgr := mgr s; store := store s; tasks := tasks s; held := held s; frozen := true |}.

(** What a request does when no mutex keeps it waiting. *)
Definition act (s : System) (r : Request) : System :=
  match r with
  | RKeygen id t ps c chain => spawn s (startKeygen (mgr s) id t ps c chain)
  | RSigning id kid h wanted => spawn s (StartSigning (mgr s) id kid h wanted)
  | RResharing id src ps => spawn s (StartResharing (mgr s) id src ps)
  | RRestore id ps =>
      let '(r, w) := RestoreCeremony (mgr s) (store s) id ps in
      withStore s (match r with Ok m => m | _ => mgr s end) w
  | RForget id => withStore s (fst (Forget (mgr s) id)) (store s)
  | RRetire id => withStore s (mgr s) (snd (ShareStore.kretire (partyID (mgr s)) id (store s)))
  end.

(** *** Mutexes left locked

    [StartSigning] returns with the ceremony's mutex locked when the digest of
    a secp256k1 key has the wrong length.  Whoever needs that mutex afterwards
    waits for ever; [Forget] does so holding the manager's own. *)

Definition ceremonyHeld (s : System) (id : string) : bool :=
  match ceremonies (mgr s) !! id with Some p => bool_decide (p ∈ held s) | None => false end.

Definition waits (s : System) (r : Request) : bool :=
  match r with
  | RKeygen id t ps c chain => frozen s && is_ok (startKeygen (mgr s) id t ps c chain)
  | RSigning _ kid h _ => negb (len h =? 0) && (frozen s || ceremonyHeld s kid)
  | RResharing id src _ => frozen s || (bool_decide (resharings (mgr s) !! id = None) && ceremonyHeld s src)
  | RRestore _ _ => frozen s
  | RForget id => frozen s || ceremonyHeld s id
  | RRetire _ => false
  end.

Definition keepsLocked (s : System) (r : Request) : option nat :=
  match r with
  | RSigning id kid h wanted =>
      match StartSigning (mgr s) id kid h wanted with Err (DigestLength _) => ceremonies (mgr s) !! kid | _ => None end
  | _ => None
  end.

Definition serve (s : System) (r : Request) : System :=
  if waits s r then match r with RForget _ => freeze s | _ => s end else hold (keepsLocked s r) (act s r).

Definition again (go : bool) (t : Task) : list Task := if go then [ t ] else [].
Definition selfDeliveries (ds : list Delivery) : list Task :=
  concat ((fun d => match d with ToSelf e => [ DeliverSelf e ] | Posted _ _ => [] end) <$> ds).
Definition saveCurve (s : SaveData) : Curve := match s with EcdsaResult _ => CurveSecp256k1 | EddsaResult _ => CurveEd25519 end.

(** A turn of a goroutine, with any answers from outside. *)
Inductive turn (m : TSSPartyManager) (w : W) : Task -> TSSPartyManager -> W -> list Task -> Prop :=
| turn_runKeygen starts pre id p sorted self t m' tk :
    runKeygen starts pre m id p sorted self t = (m', tk) ->
    turn m w (RunKeygen id p sorted self t) m' w (option_list tk)
| turn_driveKeygen post id p c ev m' w' ps go :
    (forall save q, ev = End_ save q -> saveCurve save = c) -> driveKeygenTurn post m w id p ev = (m', w', ps, go) ->
    turn m w (DriveKeygen id p c) m' w' (again go (DriveKeygen id p c))
| turn_runSigning starts id p com self t share h m' tk :
    runSigning starts m id p com self t share h = Ok (m', tk) ->
    turn m w (RunSigning id p com self t share h) m' w (option_list tk)
| turn_driveSigning post id p ev m' ps go :
    driveSigningTurn post m id p ev = Ok (m', ps, go) ->
    turn m w (DriveSigning id p) m' w (again go (DriveSigning id p))
| turn_runResharing starts pre id p share m' tk :
    runResharing starts pre m id p share = (m', tk) ->
    turn m w (RunResharing id p share) m' w (option_list tk)
| turn_driveResharing post id p c ev m' w' ds go :
    (forall save q, ev = End_ save q -> saveCurve save = c) -> driveResharingTurn post m w id p ev = (m', w', ds, go) ->
    turn m w (DriveResharing id p c) m' w' (again go (DriveResharing id p c) ++ selfDeliveries ds)
| turn_deliverSelf env : turn m w (DeliverSelf env) m w [].

(** [P]: which requests are made.  A goroutine goes on even where it would wait
    for a mutex that was left locked. *)
Inductive step (P : System -> Request -> Prop) (s : System) : System -> Prop :=
| step_request r : P s r -> step P s (serve s r)
| step_task l t r m' w' ts :
    tasks s = l ++ t :: r -> turn (mgr s) (store s) t m' w' ts ->
    step P s {| mgr := m'; store := w'; tasks := l ++ ts ++ r; held := held s; frozen := frozen s |}.

(** ** Invariant *)

Definition nodes_ok (ps : gmap Z string) : Prop := forall n, is_Some (ps !! n) -> node_ok n.

(** The identities of a key are its nodes' in its epoch. *)
Definition committee_ok (o : tssKeygenCeremony) : Prop :=
  sortedIDs o = committeePartyIDs (range (peers o)) (epoch o) /\ nodes_ok (peers o) /\ epoch_ok (epoch o).

(** A share that is held is a share of the key that is reported. *)
Definition share_ok (o : tssKeygenCeremony) : Prop :=
  forall share, saveData o = Some share -> exists d, PublicKey share = Ok (publicKeyHex o, d).

Definition keygenPtr (t : Task) : list nat :=
  match t with RunKeygen _ p _ _ _ => [ p ] | DriveKeygen _ p _ => [ p ] | _ => [] end.
Definition resharePtr (t : Task) : list nat :=
  match t with RunResharing _ p _ => [ p ] | DriveResharing _ p _ => [ p ] | _ => [] end.
Definition keygenPtrs (ts : list Task) : list nat := ts ≫= keygenPtr.
Definition resharePtrs (ts : list Task) : list nat := ts ≫= resharePtr.

Definition refresh_ok (m : TSSPartyManager) (ts : list Task) (o : tssResharingCeremony) : Prop :=
  forall q k, ceremonies m !! sourceCeremonyID o = Some q -> keygenObjs m !! q = Some k ->
    publicKeyHex k = expectedPublicKey o /\ (q ∉ keygenPtrs ts) /\
    newSorted o = committeePartyIDs (range (peers k)) (newEpoch o) /\ epoch_ok (newEpoch o).

Record inv (m : TSSPartyManager) (ts : list Task) : Prop := {
  inv_bound id p : ceremonies m !! id = Some p -> (p < length (keygenObjs m))%nat;
  inv_share p o : keygenObjs m !! p = Some o -> share_ok o;
  inv_committee p o : keygenObjs m !! p = Some o -> committee_ok o;
  inv_running p : p ∈ keygenPtrs ts -> exists o, keygenObjs m !! p = Some o /\ saveData o = None;
  inv_single : NoDup (keygenPtrs ts);
  inv_refresh p o : p ∈ resharePtrs ts -> resharingObjs m !! p = Some o -> refresh_ok m ts o;
  inv_reshare_bound p : p ∈ resharePtrs ts -> (p < length (resharingObjs m))%nat;
}.

(** No refresh of the key of this id is under way. *)
Definition not_refreshing (s : System) (id : string) : Prop :=
  forall p o, p ∈ resharePtrs (tasks s) -> resharingObjs (mgr s) !! p = Some o -> sourceCeremonyID o <> id.

(** Requests as the orchestrator makes them: party numbers in range, an id not
    given away while its key is being refreshed, a refresh by the same parties. *)
Definition careful (s : System) (r : Request) : Prop :=
  match r with
  | RKeygen id _ ps _ _ => nodes_ok ps /\ not_refreshing s id
  | RRestore id ps => nodes_ok ps /\ not_refreshing s id /\
      (forall sh cc w', ShareStore.kload (partyID (mgr s)) id (store s) = (Ok (sh, Some cc), w') -> epoch_ok (ShareStore.Epoch cc))
  | RResharing _ src ps => forall q k, keygenOf (mgr s) src = Some (q, k) -> dom ps = dom (peers k) /\ epoch_ok (epoch k + 1)
  | _ => True
  end.

(** *** What a turn leaves alone *)

(** The parts of the objects the invariant speaks of. *)
Definition keyView (o : tssKeygenCeremony) := (saveData o, publicKeyHex o, address o, (sortedIDs o, peers o, epoch o)).
Definition reView (o : tssResharingCeremony) := (sourceCeremonyID o, expectedPublicKey o, (newSorted o, newEpoch o)).

Record unchanged (m m' : TSSPartyManager) : Prop := {
  same_keys : keyView <$> keygenObjs m' = keyView <$> keygenObjs m;
  same_ids : ceremonies m' = ceremonies m;
  same_re : reView <$> resharingObjs m' = reView <$> resharingObjs m;
}.

Lemma fmap_alter_same {A B} (f : A -> B) (g : A -> A) p (l : list A) :
  (forall a, f (g a) = f a) -> f <$> alter g p l = f <$> l.
Proof.
  intros Hg; apply list_eq; intros i; rewrite !list_lookup_fmap.
  destruct (decide (i = p)) as [ -> | Hne ]; [ rewrite list_lookup_alter_eq | rewrite list_lookup_alter_ne by auto; done ].
  destruct (l !! p); cbn; rewrite ?Hg; done.
Qed.

Lemma unchanged_refl m : unchanged m m.
Proof. split; done. Qed.
Lemma unchanged_onKeygen m p g : (forall o, keyView (g o) = keyView o) -> unchanged m (onKeygen p g m).
Proof. intros Hg; split; cbn; try done; apply fmap_alter_same; done. Qed.
Lemma unchanged_onSigning m p g : unchanged m (onSigning p g m).
Proof. split; done. Qed.
Lemma unchanged_onResharing m p g : (forall o, reView (g o) = reView o) -> unchanged m (onResharing p g m).
Proof. intros Hg; split; cbn; try done; apply fmap_alter_same; done. Qed.
Lemma unchanged_fail m id e : unchanged m (failCeremony m id e).
Proof. unfold failCeremony; destruct (ceremonies m !! id); [ apply unchanged_onKeygen; done | apply unchanged_refl ]. Qed.
Lemma unchanged_failSigning m id e : unchanged m (failSigning m id e).
Proof. unfold failSigning; destruct (signings m !! id); [ apply unchanged_onSigning | apply unchanged_refl ]. Qed.
Lemma unchanged_failResharing m id e : unchanged m (failResharing m id e).
Proof. unfold failResharing; destruct (resharings m !! id); [ apply unchanged_onResharing; done | apply unchanged_refl ]. Qed.

#[local] Hint Resolve unchanged_refl unchanged_fail unchanged_failSigning unchanged_failResharing unchanged_onSigning : core.

Lemma unchanged_key m m' p o' :
  unchanged m m' -> keygenObjs m' !! p = Some o' -> exists o, keygenObjs m !! p = Some o /\ keyView o' = keyView o.
Proof.
  intros U L; pose proof (f_equal (fun l => l !! p) (same_keys _ _ U)) as E; cbn in E.
  rewrite !list_lookup_fmap, L in E; destruct (keygenObjs m !! p) as [ o | ]; cbn in E; [ | done ]; apply (inj Some) in E; eauto.
Qed.

Lemma unchanged_key_back m m' p o :
  unchanged m m' -> keygenObjs m !! p = Some o -> exists o', keygenObjs m' !! p = Some o' /\ keyView o' = keyView o.
Proof.
  intros U L; pose proof (f_equal (fun l => l !! p) (same_keys _ _ U)) as E; cbn in E.
  rewrite !list_lookup_fmap, L in E; destruct (keygenObjs m' !! p) as [ o' | ]; cbn in E; [ | done ]; apply (inj Some) in E; eauto.
Qed.

Lemma unchanged_re m m' p o' :
  unchanged m m' -> resharingObjs m' !! p = Some o' -> exists o, resharingObjs m !! p = Some o /\ reView o' = reView o.
Proof.
  intros U L; pose proof (f_equal (fun l => l !! p) (same_re _ _ U)) as E; cbn in E.
  rewrite !list_lookup_fmap, L in E; destruct (resharingObjs m !! p) as [ o | ]; cbn in E; [ | done ]; apply (inj Some) in E; eauto.
Qed.

Lemma unchanged_lengths m m' : unchanged m m' ->
  length (keygenObjs m') = length (keygenObjs m) /\ length (resharingObjs m') = length (resharingObjs m).
Proof.
  intros U; pose proof (f_equal length (same_keys _ _ U)) as E1; pose proof (f_equal length (same_re _ _ U)) as E2.
  rewrite !length_fmap in E1; rewrite !length_fmap in E2; done.
Qed.

(** The invariant is kept when nothing it speaks of changes and goroutines only
    end or go on. *)
Lemma inv_unchanged m m' ts ts' :
  inv m ts -> unchanged m m' -> keygenPtrs ts' `sublist_of` keygenPtrs ts -> resharePtrs ts' `sublist_of` resharePtrs ts ->
  inv m' ts'.
Proof.
  intros I U K R; destruct (unchanged_lengths _ _ U) as [ L1 L2 ]; split.
  - intros id p; rewrite (same_ids _ _ U), L1; apply (inv_bound _ _ I).
  - intros p o' L; destruct (unchanged_key _ _ _ _ U L) as (o & Lo & V); injection V as V1 V2 V3 V4 V5 V6.
    pose proof (inv_share _ _ I _ _ Lo) as S; unfold share_ok in *; rewrite V1, V2; exact S.
  - intros p o' L; destruct (unchanged_key _ _ _ _ U L) as (o & Lo & V); injection V as V1 V2 V3 V4 V5 V6.
    pose proof (inv_committee _ _ I _ _ Lo) as S; unfold committee_ok in *; rewrite V4, V5, V6; exact S.
  - intros p Hp; destruct (inv_running _ _ I p) as (o & Lo & S); [ eapply elem_of_sublist; eauto | ].
    destruct (unchanged_key_back _ _ _ _ U Lo) as (o' & Lo' & V); injection V as V1 _; exists o'; split; congruence.
  - eapply sublist_NoDup; [ apply (inv_single _ _ I) | exact K ].
  - intros p o' Hp L; destruct (unchanged_re _ _ _ _ U L) as (o & Lo & V); injection V as V1 V2 V3 V4.
    pose proof (inv_refresh _ _ I p o) as S; specialize (S ltac:(eapply elem_of_sublist; eauto) Lo).
    intros q k Hq Hk; rewrite V1, (same_ids _ _ U) in Hq; destruct (unchanged_key _ _ _ _ U Hk) as (k0 & Lk & Vk).
    injection Vk as W1 W2 W3 W4 W5 W6; destruct (S q k0 Hq Lk) as (E1 & E2 & E3 & E4).
    rewrite W2, W5, V2, V3, V4; split_and!; auto; intros Hq'; apply E2; eapply elem_of_sublist; eauto.
  - intros p Hp; rewrite L2; apply (inv_reshare_bound _ _ I); eapply elem_of_sublist; eauto.
Qed.
(** *** The effect of each turn *)

Lemma startLocalParty_unchanged starts m id p party m' ok :
  startLocalParty starts m id p party = (m', ok) -> unchanged m m'.
Proof.
  unfold startLocalParty; destruct (starts party); intros E; injection E as <- <-; auto.
  apply unchanged_onKeygen; done.
Qed.

Lemma runKeygen_effect starts pre m id p sorted self t m' tk :
  runKeygen starts pre m id p sorted self t = (m', tk) ->
  unchanged m m' /\ (keygenPtrs (option_list tk) `sublist_of` [ p ]) /\ resharePtrs (option_list tk) = [].
Proof.
  assert (forall c : Curve, keygenPtrs (option_list (Some (DriveKeygen id p c))) = [ p ]) as Hd by done.
  unfold runKeygen; intros E; destruct (keygenObjs m !! p) as [ o | ]; [ | injection E as <- <-; repeat split; auto using sublist_nil_l ].
  assert (forall party, (let '(m', ok) := startLocalParty starts m id p party in
      (m', if ok : bool then Some (DriveKeygen id p (curve o)) else None)) = (m', tk) ->
    unchanged m m' /\ (keygenPtrs (option_list tk) `sublist_of` [ p ]) /\ resharePtrs (option_list tk) = []) as Hgo.
  { intros party; destruct (startLocalParty starts m id p party) as [ m1 ok ] eqn:S; intros X; injection X as <- <-.
    split; [ eapply startLocalParty_unchanged; eauto | ]; destruct ok; repeat split; auto using sublist_nil_l. }
  destruct (ellipticCurve (curve o)); [ | injection E as <- <-; repeat split; auto using sublist_nil_l; apply unchanged_fail .. ].
  destruct (String.eqb _ _); [ destruct pre; [ eapply Hgo, E | ] | destruct (String.eqb _ _); [ eapply Hgo, E | ] ].
  all: injection E as <- <-; split; [ apply unchanged_fail | split; auto using sublist_nil_l ].
Qed.

Lemma runSigning_effect starts m id p com self t share h m' tk :
  runSigning starts m id p com self t share h = Ok (m', tk) ->
  unchanged m m' /\ keygenPtrs (option_list tk) = [] /\ resharePtrs (option_list tk) = [].
Proof.
  unfold runSigning; intros E; destruct (ellipticCurve _); [ | | done ].
  - destruct (signingParty _ _ _ _ _ _) as [ party | | ]; [ destruct (starts party) | | done ];
      injection E as <- <-; auto.
  - injection E as <- <-; auto.
Qed.

Lemma driveSigningTurn_unchanged post m id p ev m' ps go :
  driveSigningTurn post m id p ev = Ok (m', ps, go) -> unchanged m m'.
Proof.
  unfold driveSigningTurn; intros E; destruct (signingObjs m !! p) as [ o | ] eqn:L; [ | injection E as <- _ _; auto ].
  destruct ev as [ msg | | sd queue ].
  - destruct (relaySignMessage _ _ _ _) as [ l [ e | ] ]; injection E as <- _ _; auto.
  - injection E as <- _ _; auto.
  - destruct (relayPending _ _) as [ l [ e | ] ]; [ injection E as <- _ _; auto | ].
    unfold completeSigning in E; rewrite L in E; destruct (encodeSignature _ _); cbn in E; [ | done | done ].
    injection E as <- _ _; auto.
Qed.

Lemma completeCeremony_effect m w id p share m' w' :
  completeCeremony m w id p share = (m', w') ->
  unchanged m m' \/ exists pub d addr sl, PublicKey share = Ok (pub, d) /\ m' = onKeygen p (completeKeygenObj share pub addr sl) m.
Proof.
  unfold completeCeremony; intros E; destruct (keygenObjs m !! p) as [ o | ]; [ | injection E as <- _; auto ].
  unfold keyAndAddress in E; destruct (PublicKey share) as [ [ pub d ] | | ] eqn:PK; cbn in E;
    [ | injection E as <- _; auto .. ].
  destruct (AddressFor _ _ _) as [ addr | | ]; cbn in E; [ | injection E as <- _; auto .. ].
  destruct (ShareStore.kseal _ _ _ _ _) as [ [ sl | | ] w1 ]; injection E as <- _; [ right | left; auto .. ].
  exists pub, d, addr, sl; done.
Qed.

Lemma driveKeygenTurn_effect post m w id p ev m' w' ps go :
  driveKeygenTurn post m w id p ev = (m', w', ps, go) ->
  unchanged m m' \/
  (go = false /\ exists share pub d addr sl, PublicKey share = Ok (pub, d) /\ m' = onKeygen p (completeKeygenObj share pub addr sl) m).
Proof.
  unfold driveKeygenTurn; intros E; destruct (keygenObjs m !! p) as [ o | ] eqn:L; [ | injection E as <- _ _ _; auto ].
  destruct ev as [ msg | | | save queue ].
  - destruct (relayMessage _ _ _ _) as [ l [ e | ] ]; injection E as <- _ _ _; auto.
  - injection E as <- _ _ _; auto.
  - injection E as <- _ _ _; auto.
  - destruct (relayPending _ _) as [ l [ e | ] ]; [ injection E as <- _ _ _; auto | ].
    destruct (completeCeremony _ _ _ _ _) as [ m1 w1 ] eqn:C; injection E as <- _ _ <-.
    apply completeCeremony_effect in C as [ U | (pub & d & addr & sl & PK & ->) ]; [ left; exact U | right ].
    split; [ done | exists (wrap save), pub, d, addr, sl; done ].
Qed.

Lemma startResharing_unchanged starts m id p old new m' ok :
  startResharingParties starts m id p old new = (m', ok) -> unchanged m m'.
Proof.
  unfold startResharingParties; destruct (_ && _); intros E; injection E as <- <-; auto.
  apply unchanged_onResharing; done.
Qed.

Lemma runResharing_effect starts pre m id p share m' tk :
  runResharing starts pre m id p share = (m', tk) ->
  unchanged m m' /\ keygenPtrs (option_list tk) = [] /\ (resharePtrs (option_list tk) `sublist_of` [ p ]).
Proof.
  unfold runResharing; intros E; destruct (resharingObjs m !! p) as [ o | ]; [ | injection E as <- <-; repeat split; auto using sublist_nil_l ].
  assert (forall old new, (let '(m', ok) := startResharingParties starts m id p old new in
      (m', if ok : bool then Some (DriveResharing id p (reCurve o)) else None)) = (m', tk) ->
    unchanged m m' /\ keygenPtrs (option_list tk) = [] /\ (resharePtrs (option_list tk) `sublist_of` [ p ])) as Hgo.
  { intros old new; destruct (startResharingParties starts m id p old new) as [ m1 ok ] eqn:S; intros X; injection X as <- <-.
    split; [ eapply startResharing_unchanged; eauto | ]; destruct ok; split; auto using sublist_nil_l; reflexivity. }
  destruct (ellipticCurve _); [ | injection E as <- <-; repeat split; auto using sublist_nil_l; apply unchanged_failResharing .. ].
  destruct (findPartyID _ _); [ destruct (findPartyIDByKey _ _) | ].
  2,3: injection E as <- <-; split; [ apply unchanged_failResharing | split; auto using sublist_nil_l ].
  destruct (String.eqb _ _); [ destruct (ECDSA share); [ eapply Hgo, E | ] | destruct (String.eqb _ _); [ destruct (EdDSA share); [ eapply Hgo, E | ] | ] ].
  all: injection E as <- <-; split; [ apply unchanged_failResharing | split; auto using sublist_nil_l ].
Qed.

(** A refresh ends by writing a share of the expected key into the ceremony
    registered under the source's id, or it writes to no ceremony. *)
Definition refreshed (m : TSSPartyManager) (o : tssResharingCeremony) (m' : TSSPartyManager) : Prop :=
  exists m1 q share d, unchanged m m1 /\ ceremonies m !! sourceCeremonyID o = Some q /\
    PublicKey share = Ok (expectedPublicKey o, d) /\ m' = onKeygen q (refreshKeygenObj share (newSorted o) (newEpoch o)) m1.

Lemma unchanged_trans m1 m2 m3 : unchanged m1 m2 -> unchanged m2 m3 -> unchanged m1 m3.
Proof. intros [ ] [ ]; split; congruence. Qed.

Lemma completeResharing_effect m w id p share m' w' :
  completeResharing m w id p share = (m', w') ->
  unchanged m m' \/ exists o, resharingObjs m !! p = Some o /\ refreshed m o m'.
Proof.
  unfold completeResharing; intros E; destruct (resharingObjs m !! p) as [ o | ]; [ | injection E as <- _; auto ].
  destruct (PublicKey share) as [ [ pub d ] | | ] eqn:PK; [ | injection E as <- _; auto .. ].
  destruct (String.eqb_spec pub (expectedPublicKey o)) as [ -> | ]; cbn [negb] in E; [ | injection E as <- _; auto ].
  destruct (ShareStore.kseal _ _ _ _ _) as [ r w1 ].
  match type of E with context [ onResharing p (setReSealed ?b) ?m1 ] => set (m2 := onResharing p (setReSealed b) m1) in * end.
  assert (unchanged m m2) as U.
  { eapply unchanged_trans; [ apply (unchanged_onResharing m p (setReStatus ceremonyCompleted (reError o) (Some share))); done | ].
    apply unchanged_onResharing; done. }
  destruct (ceremonies m2 !! sourceCeremonyID o) as [ q | ] eqn:C; injection E as <- _; [ right | left; exact U ].
  exists o; split; [ done | ]; exists m2, q, share, d; split_and!; auto.
Qed.

Lemma driveResharingTurn_effect post m w id p ev m' w' ds go :
  driveResharingTurn post m w id p ev = (m', w', ds, go) ->
  unchanged m m' \/ (go = false /\ exists o, resharingObjs m !! p = Some o /\ refreshed m o m').
Proof.
  unfold driveResharingTurn; intros E; destruct (resharingObjs m !! p) as [ o | ] eqn:L; [ | injection E as <- _ _ _; auto ].
  destruct ev as [ msg | | | save queue ].
  - destruct (relayReshareMessage _ _ _ _) as [ l [ e | ] ]; injection E as <- _ _ _; auto.
  - injection E as <- _ _ _; auto.
  - injection E as <- _ _ _; auto.
  - destruct (relayPending _ _) as [ l [ e | ] ]; [ injection E as <- _ _ _; auto | ].
    destruct (completeResharing _ _ _ _ _) as [ m1 w1 ] eqn:C; injection E as <- _ _ <-.
    apply completeResharing_effect in C as [ U | (o' & L' & R) ]; [ auto | ]; right; split; [ done | exists o'; rewrite <- L; auto ].
Qed.
(** *** The invariant is kept *)

Lemma ptrs_app (f : Task -> list nat) l r : (l ++ r) ≫= f = (l ≫= f) ++ (r ≫= f).
Proof. apply bind_app. Qed.

Lemma range_keys {A} (m : gmap Z A) : Permutation (range m).*1 (map_to_list m).*1 /\ NoDup (range m).*1.
Proof.
  assert (Permutation (range m).*1 (map_to_list m).*1) as P by (apply Permutation_map, range_perm).
  split; [ exact P | rewrite P; apply NoDup_fst_map_to_list ].
Qed.

Lemma range_nodes ps : nodes_ok ps -> Forall node_ok (range ps).*1 /\ Forall (fun kv => node_ok kv.1) (range ps).
Proof.
  intros Hn; assert (Forall (fun kv : Z * string => node_ok kv.1) (range ps)) as F.
  { apply Forall_forall; intros [ n u ] Hin; rewrite range_perm in Hin; apply elem_of_map_to_list in Hin; apply Hn; eauto. }
  split; [ apply Forall_fmap | ]; exact F.
Qed.

Context `{!TssIdsLaws}.

Lemma committee_dom ps ps' e :
  dom ps = dom ps' -> nodes_ok ps -> epoch_ok e -> committeePartyIDs (range ps) e = committeePartyIDs (range ps') e.
Proof.
  intros Hd Hn He; destruct (range_keys ps) as [ P N ], (range_keys ps') as [ P' _ ].
  apply committee_same_nodes; auto; [ | apply range_nodes; done ].
  rewrite P, P'; apply NoDup_Permutation; [ apply NoDup_fst_map_to_list .. | ].
  intros n; rewrite !list_elem_of_fmap; split; intros ([ k u ] & -> & Hin); apply elem_of_map_to_list in Hin; cbn.
  - assert (k ∈ dom ps') as D by (rewrite <- Hd; apply elem_of_dom; eauto).
    apply elem_of_dom in D as [ u' D ]; exists (k, u'); split; [ done | apply elem_of_map_to_list, D ].
  - assert (k ∈ dom ps) as D by (rewrite Hd; apply elem_of_dom; eauto).
    apply elem_of_dom in D as [ u' D ]; exists (k, u'); split; [ done | apply elem_of_map_to_list, D ].
Qed.

Lemma lookup_onKeygen m p g q o' :
  keygenObjs (onKeygen p g m) !! q = Some o' ->
  exists o, keygenObjs m !! q = Some o /\ o' = if decide (p = q) then g o else o.
Proof.
  cbn; rewrite list_lookup_alter; case_decide; subst; [ | eauto ].
  destruct (keygenObjs m !! q) as [ o | ]; cbn; intros E; [ injection E as <-; eauto | done ].
Qed.

Lemma inv_complete m l t r p share pub d addr sl :
  inv m (l ++ t :: r) -> keygenPtr t = [ p ] -> PublicKey share = Ok (pub, d) ->
  inv (onKeygen p (completeKeygenObj share pub addr sl) m) (l ++ r).
Proof.
  intros I Ht PK; pose proof (inv_single _ _ I) as N; pose proof (inv_running _ _ I) as Rn.
  unfold keygenPtrs in N, Rn; rewrite ptrs_app in N, Rn; cbn in N, Rn; rewrite Ht in N, Rn; cbn in N, Rn.
  assert (Permutation ((l ≫= keygenPtr) ++ p :: (r ≫= keygenPtr)) (p :: keygenPtrs (l ++ r))) as Pm
    by (unfold keygenPtrs; rewrite ptrs_app; symmetry; apply Permutation_middle).
  rewrite Pm in N; apply NoDup_cons in N as [ Np N ].
  assert (resharePtrs (l ++ r) = resharePtrs (l ++ t :: r)) as Er
    by (unfold resharePtrs; rewrite !ptrs_app; cbn; destruct t; cbn in Ht |- *; done).
  split; cbn [ceremonies onKeygen resharingObjs].
  - intros id q Hq; cbn; rewrite length_alter; eapply inv_bound; eauto.
  - intros q o' L; apply lookup_onKeygen in L as (o & L & ->); case_decide; [ | eapply inv_share; eauto ].
    intros s E; cbn in E |- *; injection E as <-; eauto.
  - intros q o' L; apply lookup_onKeygen in L as (o & L & ->); pose proof (inv_committee _ _ I _ _ L); case_decide; done.
  - intros q Hq; destruct (Rn q) as (o & L & S); [ rewrite Pm; right; exact Hq | ].
    exists o; cbn; rewrite list_lookup_alter_ne; [ done | intros ->; done ].
  - exact N.
  - intros q o Hq L; rewrite Er in Hq; pose proof (inv_refresh _ _ I q o Hq L) as Rf; intros q1 k Hq1 Lk.
    cbn [ceremonies onKeygen] in Hq1; apply lookup_onKeygen in Lk as (k0 & Lk & ->).
    destruct (Rf q1 k0 Hq1 Lk) as (E1 & E2 & E3 & E4).
    assert (p <> q1) as Hne.
    { intros ->; apply E2; unfold keygenPtrs; rewrite ptrs_app; cbn; rewrite Ht; apply elem_of_app; right; left. }
    rewrite decide_False by done; split_and!; auto; intros X; apply E2; unfold keygenPtrs; rewrite ptrs_app; cbn; rewrite Ht.
    cbn; rewrite Pm; right; exact X.
  - intros q Hq; rewrite Er in Hq; apply (inv_reshare_bound _ _ I); done.
Qed.

Lemma inv_refreshed m ts ts' p o m' :
  inv m ts -> p ∈ resharePtrs ts -> resharingObjs m !! p = Some o -> refreshed m o m' ->
  (keygenPtrs ts' `sublist_of` keygenPtrs ts) -> (resharePtrs ts' `sublist_of` resharePtrs ts) -> inv m' ts'.
Proof.
  intros I Hp Lo (m1 & q & share & d & U & Cq & PK & ->) K R.
  pose proof (inv_unchanged _ _ _ _ I U (reflexivity _) (reflexivity _)) as I1.
  assert (exists o1, resharingObjs m1 !! p = Some o1 /\ reView o1 = reView o) as (o1 & Lo1 & V1).
  { pose proof (f_equal (fun l => l !! p) (same_re _ _ U)) as E; cbn in E; rewrite !list_lookup_fmap, Lo in E.
    destruct (resharingObjs m1 !! p) as [ o1 | ]; [ | done ]; apply (inj Some) in E; eauto. }
  injection V1 as Vs Ve Vn Vp; pose proof (inv_refresh _ _ I1 p o1 Hp Lo1) as Rf.
  assert (inv (onKeygen q (refreshKeygenObj share (newSorted o) (newEpoch o)) m1) ts) as I2; cycle 1.
  { apply (inv_unchanged _ _ _ _ I2 (unchanged_refl _) K R). }
  clear K R; assert (ceremonies m1 !! sourceCeremonyID o1 = Some q) as Cq1 by (rewrite Vs, (same_ids _ _ U); done).
  split; cbn [ceremonies onKeygen resharingObjs].
  - intros id q1 Hq; cbn; rewrite length_alter; eapply inv_bound; eauto.
  - intros q1 o' L; apply lookup_onKeygen in L as (k & L & ->); case_decide; [ subst q1 | eapply inv_share; eauto ].
    destruct (Rf q k Cq1 L) as (E1 & _); intros s E; cbn in E |- *; injection E as <-; rewrite E1, Ve; eauto.
  - intros q1 o' L; apply lookup_onKeygen in L as (k & L & ->); pose proof (inv_committee _ _ I1 _ _ L) as C; case_decide; [ subst q1 | done ].
    destruct (Rf q k Cq1 L) as (_ & _ & E3 & E4), C as (_ & C2 & _); split_and!; cbn; [ congruence | done | congruence ].
  - intros q1 Hq; destruct (inv_running _ _ I1 q1 Hq) as (k & L & S); exists k; cbn.
    rewrite list_lookup_alter_ne; [ done | intros -> ]; destruct (Rf q1 k Cq1 L) as (_ & E2 & _); done.
  - apply (inv_single _ _ I1).
  - intros q1 o2 Hq L; pose proof (inv_refresh _ _ I1 q1 o2 Hq L) as R2; intros q2 k Hq2 Lk.
    cbn [ceremonies onKeygen] in Hq2; apply lookup_onKeygen in Lk as (k0 & Lk & ->).
    destruct (R2 q2 k0 Hq2 Lk) as (E1 & E2 & E3 & E4); case_decide; cbn; auto.
  - apply (inv_reshare_bound _ _ I1).
Qed.
(** A new key ceremony, with its goroutine or without one. *)
Lemma inv_addKeygen m w hd fz ts ts' id o :
  inv m ts -> not_refreshing {| mgr := m; store := w; tasks := ts; held := hd; frozen := fz |} id -> share_ok o -> committee_ok o ->
  keygenPtrs ts' = keygenPtrs ts \/ (keygenPtrs ts' = length (keygenObjs m) :: keygenPtrs ts /\ saveData o = None) ->
  resharePtrs ts' = resharePtrs ts -> inv (addKeygen id o m) ts'.
Proof.
  intros I Nr So Co K R.
  assert (forall p k, keygenObjs (addKeygen id o m) !! p = Some k ->
    (p < length (keygenObjs m) /\ keygenObjs m !! p = Some k)%nat \/ (p = length (keygenObjs m) /\ k = o)) as Lk.
  { intros p k; cbn; rewrite lookup_app_Some; intros [ L | [ Hp L ] ].
    - left; split; [ apply lookup_lt_Some in L; done | done ].
    - right; apply list_lookup_singleton_Some in L as [ Hp0 -> ]; split; [ lia | done ]. }
  assert (forall p, p ∈ keygenPtrs ts -> (p < length (keygenObjs m))%nat) as Kb.
  { intros p Hp; destruct (inv_running _ _ I p Hp) as (k & L & _); apply lookup_lt_Some in L; done. }
  split.
  - intros id' p; cbn; rewrite length_app; cbn; intros L; apply lookup_insert_Some in L as [ [ <- <- ] | [ _ L ] ]; [ lia | ].
    apply (inv_bound _ _ I) in L; lia.
  - intros p k L; apply Lk in L as [ [ _ L ] | [ _ -> ] ]; [ eapply inv_share; eauto | done ].
  - intros p k L; apply Lk in L as [ [ _ L ] | [ _ -> ] ]; [ eapply inv_committee; eauto | done ].
  - assert (forall p, p ∈ keygenPtrs ts -> exists k, keygenObjs (addKeygen id o m) !! p = Some k /\ saveData k = None) as Old.
    { intros p Hp; destruct (inv_running _ _ I p Hp) as (k & L & S); exists k; cbn.
      rewrite lookup_app_l by (apply lookup_lt_Some in L; done); auto. }
    intros p; destruct K as [ -> | [ -> S ] ]; [ auto | ]; intros Hp; apply elem_of_cons in Hp as [ -> | Hp ]; [ | auto ].
    exists o; split; [ cbn; rewrite lookup_app_r, Nat.sub_diag; done | done ].
  - destruct K as [ -> | [ -> S ] ]; [ apply (inv_single _ _ I) | ].
    apply NoDup_cons; split; [ intros Hp; apply Kb in Hp; lia | apply (inv_single _ _ I) ].
  - intros p r Hp L; rewrite R in Hp; pose proof (inv_refresh _ _ I p r Hp L) as Rf; intros q k Hq Hk.
    cbn in Hq; rewrite lookup_insert_ne in Hq by (intros E; apply (Nr p r Hp L); done).
    pose proof (inv_bound _ _ I _ _ Hq) as B; apply Lk in Hk as [ [ _ Hk ] | [ -> _ ] ]; [ | lia ].
    destruct (Rf q k Hq Hk) as (E1 & E2 & E3 & E4); split_and!; auto.
    destruct K as [ -> | [ -> S ] ]; [ done | ]; intros Hq'; apply elem_of_cons in Hq' as [ -> | Hq' ]; [ lia | done ].
  - intros p Hp; rewrite R in Hp; apply (inv_reshare_bound _ _ I); done.
Qed.

Lemma inv_addResharing m ts t id o :
  inv m ts -> keygenPtr t = [] -> resharePtr t = [ length (resharingObjs m) ] -> refresh_ok m ts o ->
  inv (addResharing id o m) (t :: ts).
Proof.
  intros I K R Ro; unfold addResharing.
  assert (keygenPtrs (t :: ts) = keygenPtrs ts) as EK by (unfold keygenPtrs; cbn; rewrite K; done).
  assert (resharePtrs (t :: ts) = length (resharingObjs m) :: resharePtrs ts) as ER by (unfold resharePtrs; cbn; rewrite R; done).
  split; cbn [ceremonies keygenObjs resharingObjs]; rewrite ?EK, ?ER; try apply I.
  - intros p r Hp L; assert (refresh_ok m ts r) as Rr.
    { apply elem_of_cons in Hp as [ -> | Hp ].
      - rewrite lookup_app_r, Nat.sub_diag in L by lia; injection L as <-; done.
      - pose proof (inv_reshare_bound _ _ I p Hp); rewrite lookup_app_l in L by done; eapply inv_refresh; eauto. }
    intros q k Hq Hk; rewrite EK; exact (Rr q k Hq Hk).
  - intros p Hp; rewrite length_app; cbn.
    apply elem_of_cons in Hp as [ -> | Hp ]; [ lia | pose proof (inv_reshare_bound _ _ I p Hp); lia ].
Qed.

Lemma inv_forget m ts id : inv m ts -> inv (fst (Forget m id)) ts.
Proof.
  intros I; unfold Forget; destruct (ceremonies m !! id) as [ p | ]; [ | exact I ]; cbn [fst].
  assert (forall q k, alter dropShare p (keygenObjs m) !! q = Some k ->
    exists k0, keygenObjs m !! q = Some k0 /\ (k = k0 \/ k = dropShare k0)) as Lk.
  { intros q k L; apply (lookup_onKeygen m p dropShare q k) in L as (k0 & L & ->); exists k0; case_decide; auto. }
  split; cbn [ceremonies keygenObjs resharingObjs onKeygen].
  - intros id' q L; apply lookup_delete_Some in L as [ _ L ]; rewrite length_alter; eapply inv_bound; eauto.
  - intros q k L; apply Lk in L as (k0 & L & [ -> | -> ]); [ eapply inv_share; eauto | intros s E; done ].
  - intros q k L; apply Lk in L as (k0 & L & [ -> | -> ]); apply (inv_committee _ _ I _ _ L).
  - intros q Hq; destruct (inv_running _ _ I q Hq) as (k & L & S).
    exists (if decide (p = q) then dropShare k else k); rewrite list_lookup_alter; case_decide; subst; rewrite ?L; done.
  - apply (inv_single _ _ I).
  - intros q r Hq L; pose proof (inv_refresh _ _ I q r Hq L) as Rf; intros q1 k Hq1 Hk; cbn in Hq1, Hk.
    apply lookup_delete_Some in Hq1 as [ _ Hq1 ]; apply Lk in Hk as (k0 & Hk & Ek).
    destruct (Rf q1 k0 Hq1 Hk) as (E1 & E2 & E3 & E4); destruct Ek as [ -> | -> ]; auto.
  - apply (inv_reshare_bound _ _ I).
Qed.

Lemma startKeygen_inv m w hd fz ts id t ps c chain m' tk :
  inv m ts -> nodes_ok ps -> not_refreshing {| mgr := m; store := w; tasks := ts; held := hd; frozen := fz |} id ->
  startKeygen m id t ps c chain = Ok (m', tk) -> inv m' (tk :: ts).
Proof.
  intros I Hn Nr E; unfold startKeygen in E; destruct (bool_decide _); [ done | ]; destruct (_ && _); [ done | ].
  destruct (ellipticCurve c); cbn in E; [ | done | done ]; destruct (findPartyID _ _) as [ self | ]; [ | done ].
  injection E as <- <-; eapply inv_addKeygen; eauto; [ intros s Es; done | ].
  split_and!; cbn; [ reflexivity | done | unfold epoch_ok; lia ].
Qed.

Lemma StartSigning_inv m ts id kid h wanted m' tk :
  inv m ts -> StartSigning m id kid h wanted = Ok (m', tk) -> inv m' (tk :: ts).
Proof.
  intros I E; assert (unchanged m m' /\ keygenPtr tk = [] /\ resharePtr tk = []) as (U & K & R).
  { unfold StartSigning in E; destruct (_ =? 0); [ done | ].
    destruct (keygenOf m kid) as [ [ p o ] | ]; [ | done ]; destruct (status o), (saveData o) as [ share | ]; try done.
    do 3 (match type of E with (if ?b then _ else _) = _ => destruct b end; [ done | ]).
    destruct (selectCommittee _ _ _); destruct (negb _); [ done | ]; destruct (findPartyIDByKey _ _); [ | done ].
    injection E as <- <-; split_and!; [ split | | ]; done. }
  eapply inv_unchanged; eauto; unfold keygenPtrs, resharePtrs; cbn; rewrite ?K, ?R; reflexivity.
Qed.

Lemma StartResharing_inv m w hd fz ts id src ps m' tk :
  inv m ts -> careful {| mgr := m; store := w; tasks := ts; held := hd; frozen := fz |} (RResharing id src ps) ->
  StartResharing m id src ps = Ok (m', tk) -> inv m' (tk :: ts).
Proof.
  intros I Hc E; unfold StartResharing in E; destruct (bool_decide _); [ done | ]; cbn in Hc.
  destruct (keygenOf m src) as [ [ q k ] | ] eqn:Kq; [ | done ]; specialize (Hc q k eq_refl) as [ Hd He ].
  destruct (status k), (saveData k) as [ share | ] eqn:Sv; try done.
  do 2 (match type of E with (if ?b then _ else _) = _ => destruct b end; [ done | ]).
  injection E as <- <-; apply inv_addResharing; auto.
  unfold keygenOf in Kq; destruct (ceremonies m !! src) as [ q0 | ] eqn:Cs; cbn in Kq; [ | done ].
  destruct (keygenObjs m !! q0) as [ k0 | ] eqn:Lk; cbn in Kq; [ | done ]; injection Kq as -> ->.
  intros q1 k1 Hq1 Hk1; cbn in Hq1 |- *; rewrite Cs in Hq1; injection Hq1 as <-; rewrite Lk in Hk1; injection Hk1 as <-.
  destruct (inv_committee _ _ I _ _ Lk) as (_ & Hn & He0).
  rewrite i64_id by (unfold in_i64, two63, epoch_ok in *; lia).
  split_and!; auto.
  - intros Hq; destruct (inv_running _ _ I q Hq) as (k' & L' & S'); congruence.
  - symmetry; apply committee_dom; auto.
Qed.

Lemma RestoreCeremony_inv m w hd fz ts id ps m' w' :
  inv m ts -> careful {| mgr := m; store := w; tasks := ts; held := hd; frozen := fz |} (RRestore id ps) ->
  RestoreCeremony m w id ps = (Ok m', w') -> inv m' ts.
Proof.
  intros I (Hn & Nr & He) E; cbn in He; unfold RestoreCeremony in E; destruct (bool_decide _); [ done | ].
  destruct (ShareStore.kload _ _ _) as [ [ [ share [ cc | ] ] | | ] w1 ] eqn:Ld; try done.
  injection E as E _; destruct (negb _); [ done | ]; destruct (bool_decide _); [ done | ].
  destruct (PublicKey share) as [ [ pub d ] | | ] eqn:PK; cbn in E; [ | done | done ].
  destruct (restoredAddress _ _ _) as [ addr | | ]; cbn in E; [ | done | done ]; injection E as <-.
  eapply inv_addKeygen; eauto; [ intros s Es; cbn in *; injection Es as <-; eauto | ].
  split_and!; cbn; [ reflexivity | done | eauto ].
Qed.

Lemma act_inv s r : inv (mgr s) (tasks s) -> careful s r -> inv (mgr (act s r)) (tasks (act s r)).
Proof.
  intros I Hc; destruct s as [ m w ts hd fz ]; destruct r; cbn [act mgr tasks store spawn] in *.
  - destruct (startKeygen _ _ _ _ _ _) as [ [ m' tk ] | | ] eqn:E; cbn; auto; destruct Hc; eapply startKeygen_inv; eauto.
  - destruct (StartSigning _ _ _ _ _) as [ [ m' tk ] | | ] eqn:E; cbn; auto; eapply StartSigning_inv; eauto.
  - destruct (StartResharing _ _ _ _) as [ [ m' tk ] | | ] eqn:E; cbn; auto; eapply StartResharing_inv; eauto.
  - destruct (RestoreCeremony _ _ _ _) as [ [ m' | | ] w' ] eqn:E; cbn; auto; eapply RestoreCeremony_inv; eauto.
  - apply inv_forget; done.
  - done.
Qed.

(** Served, a request has its effect or none. *)
Lemma serve_cases s r :
  (mgr (serve s r) = mgr s /\ store (serve s r) = store s /\ tasks (serve s r) = tasks s) \/
  (mgr (serve s r) = mgr (act s r) /\ store (serve s r) = store (act s r) /\ tasks (serve s r) = tasks (act s r)).
Proof. unfold serve; destruct (waits s r); [ left; destruct r; done | right; done ]. Qed.

Lemma serve_inv s r : inv (mgr s) (tasks s) -> careful s r -> inv (mgr (serve s r)) (tasks (serve s r)).
Proof. intros I Hc; destruct (serve_cases s r) as [ (-> & _ & ->) | (-> & _ & ->) ]; [ done | apply act_inv; done ]. Qed.

Lemma no_ptrs_selfDeliveries ds : keygenPtrs (selfDeliveries ds) = [] /\ resharePtrs (selfDeliveries ds) = [].
Proof.
  unfold selfDeliveries, keygenPtrs, resharePtrs; induction ds as [ | [ u e | e ] ds [ IH1 IH2 ] ]; cbn; done.
Qed.

(** What a turn does to keys: nothing, or it completes the key it was generating,
    or it refreshes a key. *)
Lemma turn_inv m w l t r m' w' ts : inv m (l ++ t :: r) -> turn m w t m' w' ts -> inv m' (l ++ ts ++ r).
Proof.
  intros I T.
  assert (forall m1 ts1, unchanged m m1 -> (keygenPtrs ts1 `sublist_of` keygenPtr t) -> (resharePtrs ts1 `sublist_of` resharePtr t) ->
    inv m1 (l ++ ts1 ++ r)) as Hu.
  { intros m1 ts1 U K R; eapply inv_unchanged; eauto; unfold keygenPtrs, resharePtrs in *; rewrite !ptrs_app; cbn;
      apply sublist_app; auto; apply sublist_app; auto. }
  assert (forall go, keygenPtrs (again go t) `sublist_of` keygenPtr t /\ resharePtrs (again go t) `sublist_of` resharePtr t) as Ha.
  { intros [ ]; cbn; rewrite ?app_nil_r; split; auto using sublist_nil_l. }
  destruct T as [ starts pre id p sorted self t m' tk E | post id p c ev m' w' ps go Hc E | starts id p com self t share h m' tk E
    | post id p ev m' ps go E | starts pre id p share m' tk E | post id p c ev m' w' ds go Hc E | env ].
  - apply runKeygen_effect in E as (U & K & R); apply Hu; cbn; rewrite ?R; auto using sublist_nil_l.
  - apply driveKeygenTurn_effect in E as [ U | (-> & share & pub & d & addr & sl & PK & ->) ]; [ apply Hu; auto; apply Ha | ].
    cbn [again app]; eapply inv_complete; eauto; done.
  - apply runSigning_effect in E as (U & K & R); apply Hu; cbn; rewrite ?K, ?R; auto using sublist_nil_l.
  - apply driveSigningTurn_unchanged in E; apply Hu; auto; apply Ha.
  - apply runResharing_effect in E as (U & K & R); apply Hu; cbn; rewrite ?K; auto using sublist_nil_l.
  - destruct (no_ptrs_selfDeliveries ds) as [ D1 D2 ]; apply driveResharingTurn_effect in E as [ U | (-> & o & Lo & Rf) ].
    + apply Hu; auto; unfold keygenPtrs, resharePtrs in *; rewrite ptrs_app, ?D1, ?D2, app_nil_r; apply Ha.
    + eapply (inv_refreshed m (l ++ DriveResharing id p c :: r)); eauto; cbn [again app].
      * unfold resharePtrs; rewrite ptrs_app; cbn; apply elem_of_app; right; left.
      * unfold keygenPtrs in *; rewrite !ptrs_app, D1; cbn; reflexivity.
      * unfold resharePtrs in *; rewrite !ptrs_app, D2; cbn; apply sublist_app; [ reflexivity | apply sublist_cons; reflexivity ].
  - apply Hu; auto using sublist_nil_l.
Qed.

Lemma step_inv s s' : inv (mgr s) (tasks s) -> step careful s s' -> inv (mgr s') (tasks s').
Proof.
  intros I St; destruct St as [ r Hc | l t r m' w' ts E T ]; [ apply serve_inv; done | ].
  cbn; rewrite E in I; eapply turn_inv; eauto.
Qed.

Definition start (id : Z) (w : W) : System := {| mgr := NewTSSPartyManager id; store := w; tasks := []; held := []; frozen := false |}.

Lemma start_inv id w : inv (mgr (start id w)) (tasks (start id w)).
Proof.
  split; cbn.
  - intros k p L; apply lookup_empty_Some in L; done.
  - intros p o L; done.
  - intros p o L; done.
  - intros p Hp; apply elem_of_nil in Hp; done.
  - constructor.
  - intros p o Hp; apply elem_of_nil in Hp; done.
  - intros p Hp; apply elem_of_nil in Hp; done.
Qed.

Lemma run_inv s s' : inv (mgr s) (tasks s) -> rtc (step careful) s s' -> inv (mgr s') (tasks s').
Proof. intros I R; induction R as [ | s1 s2 s3 S R IH ]; [ done | ]; apply IH; eapply step_inv; eauto. Qed.
(** A key that is not being generated keeps its public key and address. *)
Definition key_kept (m m' : TSSPartyManager) (p : nat) : Prop :=
  forall o, keygenObjs m !! p = Some o ->
    exists o', keygenObjs m' !! p = Some o' /\ publicKeyHex o' = publicKeyHex o /\ address o' = address o.

Lemma unchanged_kept m m' p : unchanged m m' -> key_kept m m' p.
Proof.
  intros U o L; destruct (unchanged_key_back _ _ _ _ U L) as (o' & L' & V); injection V as _ V2 V3 _ _ _; eauto.
Qed.

Lemma onKeygen_kept m q g p :
  (p <> q \/ forall o, publicKeyHex (g o) = publicKeyHex o /\ address (g o) = address o) -> key_kept m (onKeygen q g m) p.
Proof.
  intros Hg o L; cbn; rewrite list_lookup_alter; case_decide; [ subst | eauto ].
  rewrite L; cbn; exists (g o); split; [ done | ]; destruct Hg as [ Hg | Hg ]; [ done | apply Hg ].
Qed.

Lemma addKeygen_kept m id o p : key_kept m (addKeygen id o m) p.
Proof. intros k L; cbn; rewrite lookup_app_l by (apply lookup_lt_Some in L; done); eauto. Qed.

Lemma act_kept s r p : key_kept (mgr s) (mgr (act s r)) p.
Proof.
  destruct s as [ m w ts hd fz ]; destruct r; cbn [act mgr tasks store spawn].
  - unfold startKeygen; destruct (bool_decide _); cbn; auto using unchanged_kept; destruct (_ && _); cbn; auto using unchanged_kept.
    destruct (ellipticCurve c); cbn; auto using unchanged_kept.
    destruct (findPartyID _ _); cbn; [ apply addKeygen_kept | auto using unchanged_kept ].
  - destruct (StartSigning m id keygenID messageHash wanted) as [ [ m' tk ] | | ] eqn:E; cbn; auto using unchanged_kept.
    unfold StartSigning in E; destruct (_ =? 0); [ done | ]; destruct (keygenOf m keygenID) as [ [ q o ] | ]; [ | done ].
    destruct (status o), (saveData o); try done; repeat (match type of E with (if ?b then _ else _) = _ => destruct b end; [ done | ]).
    destruct (selectCommittee _ _ _); destruct (negb _); [ done | ]; destruct (findPartyIDByKey _ _); [ | done ].
    injection E as <- <-; apply unchanged_kept; split; done.
  - destruct (StartResharing m id sourceID ps) as [ [ m' tk ] | | ] eqn:E; cbn; auto using unchanged_kept.
    unfold StartResharing in E; destruct (bool_decide _); [ done | ]; destruct (keygenOf m sourceID) as [ [ q o ] | ]; [ | done ].
    destruct (status o), (saveData o); try done; repeat (match type of E with (if ?b then _ else _) = _ => destruct b end; [ done | ]).
    injection E as <- <-; intros k1 L1; exists k1; auto.
  - destruct (RestoreCeremony m w id ps) as [ [ m' | | ] w' ] eqn:E; cbn; auto using unchanged_kept.
    unfold RestoreCeremony in E; destruct (bool_decide _); [ done | ].
    destruct (ShareStore.kload _ _ _) as [ [ [ share [ cc | ] ] | | ] w1 ]; try done; injection E as E _.
    destruct (negb _); [ done | ]; destruct (bool_decide _); [ done | ]; inv_ok; apply addKeygen_kept.
  - unfold Forget; destruct (ceremonies m !! id) as [ q | ]; cbn; auto using unchanged_kept.
    intros o L; apply (onKeygen_kept m q dropShare p); auto.
  - auto using unchanged_kept.
Qed.

Lemma serve_kept s r p : key_kept (mgr s) (mgr (serve s r)) p.
Proof. destruct (serve_cases s r) as [ (-> & _) | (-> & _) ]; [ apply unchanged_kept, unchanged_refl | apply act_kept ]. Qed.

Lemma turn_kept m w t m' w' ts p : turn m w t m' w' ts -> (p ∉ keygenPtr t) -> key_kept m m' p.
Proof.
  intros T Hp; destruct T as [ starts pre id q sorted self t m' tk E | post id q c ev m' w' ps go Hc E | starts id q com self t share h m' tk E
    | post id q ev m' ps go E | starts pre id q share m' tk E | post id q c ev m' w' ds go Hc E | env ].
  - apply runKeygen_effect in E as (U & _); apply unchanged_kept, U.
  - apply driveKeygenTurn_effect in E as [ U | (_ & share & pub & d & addr & sl & PK & ->) ]; [ apply unchanged_kept, U | ].
    apply onKeygen_kept; left; intros ->; apply Hp; left.
  - apply runSigning_effect in E as (U & _); apply unchanged_kept, U.
  - apply driveSigningTurn_unchanged in E; apply unchanged_kept, E.
  - apply runResharing_effect in E as (U & _); apply unchanged_kept, U.
  - apply driveResharingTurn_effect in E as [ U | (_ & o & Lo & (m1 & q1 & share & d & U & _ & _ & ->)) ]; [ apply unchanged_kept, U | ].
    intros k L; destruct (unchanged_kept _ _ p U k L) as (k1 & L1 & E1 & E2).
    destruct (onKeygen_kept m1 q1 (refreshKeygenObj share (newSorted o) (newEpoch o)) p (or_intror (fun _ => conj eq_refl eq_refl)) k1 L1)
      as (k2 & L2 & E3 & E4); exists k2; split_and!; congruence.
  - apply unchanged_kept, unchanged_refl.
Qed.

(** A pointer that is not being generated, of an object that exists, stays so. *)
Lemma settled_kept s s' p o :
  inv (mgr s) (tasks s) -> step careful s s' -> keygenObjs (mgr s) !! p = Some o -> (p ∉ keygenPtrs (tasks s)) ->
  key_kept (mgr s) (mgr s') p /\ (p ∉ keygenPtrs (tasks s')).
Proof.
  intros I St L N; destruct St as [ r Hc | l t r m' w' ts E T ].
  - split; [ apply serve_kept | ].
    destruct (serve_cases s r) as [ (_ & _ & ->) | (_ & _ & ->) ]; [ done | ].
    destruct s as [ m w tsk hd fz ], r; cbn [act mgr tasks store spawn] in *; auto.
    + unfold startKeygen; destruct (bool_decide _); auto; destruct (_ && _); auto; destruct (ellipticCurve c); cbn; auto.
      destruct (findPartyID _ _); cbn; auto; unfold keygenPtrs; cbn; intros Hp; apply elem_of_cons in Hp as [ -> | Hp ]; [ | done ].
      apply lookup_lt_Some in L; lia.
    + unfold StartSigning; destruct (_ =? 0); auto; destruct (keygenOf m keygenID) as [ [ q k ] | ]; auto.
      destruct (status k), (saveData k); auto; repeat (match goal with |- context [ spawn _ (if ?b then _ else _) ] => destruct b end; auto).
      destruct (selectCommittee _ _ _); destruct (negb _); auto; destruct (findPartyIDByKey _ _); auto.
    + unfold StartResharing; destruct (bool_decide _); auto; destruct (keygenOf m sourceID) as [ [ q k ] | ]; auto.
      destruct (status k), (saveData k); auto; repeat (match goal with |- context [ spawn _ (if ?b then _ else _) ] => destruct b end; auto).
    + destruct (RestoreCeremony m w id ps); auto.
  - cbn [mgr tasks]; rewrite E in N; unfold keygenPtrs in *; rewrite ptrs_app in N; cbn in N.
    split; [ eapply turn_kept; eauto; intros Hp; apply N, elem_of_app; right; apply elem_of_app; left; done | ].
    rewrite !ptrs_app, !elem_of_app; intros Hp; apply N; rewrite !elem_of_app.
    destruct Hp as [ Hp | [ Hp | Hp ] ]; auto; right; left.
    assert (forall go, (again go t ≫= keygenPtr) `sublist_of` keygenPtr t) as Ha by (intros [ ]; cbn; rewrite ?app_nil_r; auto using sublist_nil_l).
    destruct T as [ starts pre id q sorted self t m' tk Et | post id q c ev m' w' ps go Hc Et | starts id q com self t share h m' tk Et
      | post id q ev m' ps go Et | starts pre id q share m' tk Et | post id q c ev m' w' ds go Hc Et | env ].
    + apply runKeygen_effect in Et as (_ & K & _); eapply elem_of_sublist; eauto.
    + eapply elem_of_sublist; [ exact Hp | apply Ha ].
    + apply runSigning_effect in Et as (_ & K & _); unfold keygenPtrs in K; rewrite K in Hp; apply elem_of_nil in Hp; done.
    + eapply elem_of_sublist; [ exact Hp | apply Ha ].
    + apply runResharing_effect in Et as (_ & K & _); unfold keygenPtrs in K; rewrite K in Hp; apply elem_of_nil in Hp; done.
    + rewrite ptrs_app in Hp; pose proof (proj1 (no_ptrs_selfDeliveries ds)) as D; unfold keygenPtrs in D; rewrite D, app_nil_r in Hp.
      eapply elem_of_sublist; [ exact Hp | apply Ha ].
    + apply elem_of_nil in Hp; done.
Qed.

(** *** Properties *)

(** C3.  Once a party holds a share of a key, nothing it does afterwards, in any
    interleaving of requests and goroutines, refreshes included, changes the
    key's public key or address, and whatever share it holds for it later is a
    share of that key: given requests made with care. *)
Theorem keys_never_change id w s s' p o share :
  rtc (step careful) (start id w) s -> rtc (step careful) s s' ->
  keygenObjs (mgr s) !! p = Some o -> saveData o = Some share ->
  exists o', keygenObjs (mgr s') !! p = Some o' /\ publicKeyHex o' = publicKeyHex o /\ address o' = address o /\
    forall share', saveData o' = Some share' -> exists d, PublicKey share' = Ok (publicKeyHex o, d).
Proof.
  intros R0 R L S; pose proof (run_inv _ _ (start_inv id w) R0) as I; clear R0.
  assert (p ∉ keygenPtrs (tasks s)) as N.
  { intros Hp; destruct (inv_running _ _ I p Hp) as (o1 & L1 & S1); congruence. }
  clear share S; revert o L N; induction R as [ s | s1 s2 s3 St R IH ]; intros o L N.
  - exists o; split_and!; auto; intros share' S'; apply (inv_share _ _ I _ _ L _ S').
  - destruct (settled_kept _ _ _ _ I St L N) as [ Kp N2 ]; destruct (Kp o L) as (o2 & L2 & E1 & E2).
    destruct (IH (step_inv _ _ I St) o2 L2 N2) as (o3 & L3 & E3 & E4 & Sh); exists o3.
    rewrite <- E1; split_and!; [ done | done | congruence | exact Sh ].
Qed.
(** *** Starting ceremonies *)

Lemma size_range {A} (ps : gmap Z A) : length (range ps) = size ps.
Proof. rewrite range_perm, length_map_to_list; done. Qed.

Lemma in_range (ps : gmap Z string) n : is_Some (ps !! n) <-> n ∈ (range ps).*1.
Proof.
  rewrite list_elem_of_fmap; split.
  - intros [ u Hu ]; exists (n, u); split; [ done | rewrite range_perm; apply elem_of_map_to_list, Hu ].
  - intros ([ k u ] & -> & Hin); rewrite range_perm in Hin; apply elem_of_map_to_list in Hin; eauto.
Qed.

Lemma find_member ps e n :
  nodes_ok ps -> epoch_ok e -> is_Some (ps !! n) ->
  exists id, findPartyIDByNode (committeePartyIDs (range ps) e) n = Some id /\
    findPartyIDByKey (committeePartyIDs (range ps) e) (committeeKey n e) = Some id /\ nodeForPartyKey id = (n, e).
Proof.
  intros Hn He Hp; destruct (range_nodes ps Hn) as [ _ F ], (range_keys ps) as [ _ N ].
  apply in_range, list_elem_of_fmap in Hp as ([ n' url ] & -> & Hin).
  destruct (find_by_node _ _ _ _ N F He Hin) as (id & Fn & K & Nd & Hid); exists id; split_and!; auto.
  apply find_by_key; auto.
Qed.

(** A party starts a key generation exactly when it is one of the parties, a
    majority of them will be needed to sign, and it knows the curve; it then has
    registered it, in progress, with the identities every other party derives. *)
Theorem keygen_start_iff m id t ps c chain :
  nodes_ok ps -> 0 <= t < two63 - 1 ->
  ((exists m' tk, startKeygen m id t ps c chain = Ok (m', tk)) <->
   is_Some (ps !! partyID m) /\ (2 <= Z.of_nat (size ps) -> Z.of_nat (size ps) < 2 * (t + 1)) /\
   (c = CurveSecp256k1 \/ c = CurveEd25519)) /\
  (forall m' tk, startKeygen m id t ps c chain = Ok (m', tk) ->
   exists o, keygenOf m' id = Some (length (keygenObjs m), o) /\ status o = ceremonyInProgress /\ saveData o = None /\
     threshold o = t /\ peers o = ps /\ sortedIDs o = committeePartyIDs (range ps) 0 /\ localParty o = None).
Proof.
  intros Hn Ht; split; [ split | ].
  - intros (m' & tk & E); unfold startKeygen in E; case_bool_decide as Hp; [ done | ].
    destruct (_ && _) eqn:M; [ done | ]; destruct (ellipticCurve c) eqn:Ec; cbn in E; [ | done | done ].
    split_and!; [ apply not_eq_None_Some; done | | ].
    + intros Hs; apply andb_false_iff in M; rewrite i64_id in M by (unfold in_i64, two63 in *; lia).
      pose proof (Z.div_mod (Z.of_nat (size ps)) 2); pose proof (Z.mod_pos_bound (Z.of_nat (size ps)) 2).
      destruct M as [ M | M ]; b2p; lia.
    + unfold ellipticCurve in Ec; destruct (String.eqb_spec c CurveSecp256k1) as [ -> | ]; [ left; done | ].
      destruct (String.eqb_spec c CurveEd25519); [ auto | done ].
  - intros (Hp & Hm & Hc); unfold startKeygen; rewrite bool_decide_false by (apply not_eq_None_Some; done).
    replace (_ && _) with false; cycle 1.
    { symmetry; apply andb_false_iff; rewrite i64_id by (unfold in_i64, two63 in *; lia).
      destruct (2 <=? Z.of_nat (size ps)) eqn:S; [ right; b2p | auto ]; apply Z.ltb_ge.
      pose proof (Z.div_mod (Z.of_nat (size ps)) 2); pose proof (Z.mod_pos_bound (Z.of_nat (size ps)) 2); lia. }
    assert (exists ec, ellipticCurve c = Ok ec) as [ ec -> ].
    { destruct Hc as [ -> | -> ]; vm_compute; eauto. }
    cbn [map_err result_bind]; destruct (find_member ps 0 (partyID m) Hn) as (self & _ & K & _); [ unfold epoch_ok; lia | done | ].
    unfold findPartyIDByKey in K; rewrite committeeKey_0 in K by auto.
    unfold findPartyID, partyKey; change (deterministicPartyIDs (range ps)) with (committeePartyIDs (range ps) 0); rewrite K; eauto.
  - intros m' tk E; unfold startKeygen in E; destruct (bool_decide _); [ done | ]; destruct (_ && _); [ done | ].
    destruct (ellipticCurve c); cbn in E; [ | done | done ]; destruct (findPartyID _ _) as [ self | ]; [ | done ].
    injection E as <- <-; unfold keygenOf; cbn [ceremonies addKeygen keygenObjs]; rewrite lookup_insert_eq; cbn.
    rewrite lookup_app_r, Nat.sub_diag by lia; cbn; eexists; split_and!; reflexivity.
Qed.

(** *** The committee of a signing *)

Lemma selectCommittee_keys wanted full fullPeers ids ps :
  selectCommittee wanted full fullPeers = (ids, ps) -> Forall (fun i => 0 <= KeyInt i) full ->
  name_and_key <$> ids = name_and_key <$> filter (fun i => (nodeForPartyKey i).1 ∈ wanted) full /\
  (forall n u, ps !! n = Some u -> n ∈ wanted /\ u = default ""%string (fullPeers !! n)).
Proof.
  revert ids ps; induction full as [ | i full IH ]; intros ids ps E F; cbn in E.
  { injection E as <- <-; split; [ done | intros n u L; apply lookup_empty_Some in L; done ]. }
  apply Forall_cons in F as [ Fi F ]; destruct (selectCommittee wanted full fullPeers) as [ ids0 ps0 ].
  destruct (IH _ _ eq_refl F) as [ IH1 IH2 ]; rewrite filter_cons; case_bool_decide as D; injection E as <- <-.
  - rewrite decide_True by done; cbn; rewrite IH1; split; [ f_equal; rewrite new_party by done; done | ].
    intros n u L; apply lookup_insert_Some in L as [ [ <- <- ] | [ _ L ] ]; auto.
  - rewrite decide_False by done; auto.
Qed.

(** The node of an identity, by its key and by its name and key. *)
Definition keyNode (k : Z) : Z := if i64 k <=? 0 then -1 else i64 k mod committeeEpochStride.
Lemma keyNode_of i : (nodeForPartyKey i).1 = keyNode (KeyInt i).
Proof. unfold nodeForPartyKey, keyNode; destruct (_ <=? 0); done. Qed.

Definition nodesOf (l : list PartyID) : list Z := (fun i => (nodeForPartyKey i).1) <$> l.
Lemma nodesOf_names l : nodesOf l = (fun x : string * string * Z => keyNode x.2) <$> (name_and_key <$> l).
Proof. unfold nodesOf; rewrite <- list_fmap_compose; apply list_fmap_ext; intros j x L; apply keyNode_of. Qed.

Lemma committee_nodes ps e :
  nodes_ok ps -> epoch_ok e ->
  Permutation (nodesOf (committeePartyIDs (range ps) e)) (range ps).*1 /\
  Forall (fun i => 0 <= KeyInt i /\ KeyInt i = committeeKey (nodeForPartyKey i).1 e) (committeePartyIDs (range ps) e).
Proof.
  intros Hn He; destruct (range_nodes ps Hn) as [ _ F ]; split.
  - rewrite nodesOf_names; rewrite (Permutation_map _ (committee_members _ _ F He)).
    change (map ?f ?l) with (f <$> l); rewrite <- list_fmap_compose; apply reflexive_eq, list_fmap_ext.
    intros i [ n u ] L; cbn; assert (node_ok n) as Hk by (rewrite Forall_lookup in F; apply (F _ _ L)).
    rewrite committeeKey_ok by done; unfold keyNode, node_ok, epoch_ok, committeeEpochStride in *.
    rewrite i64_id by (unfold in_i64, two63; lia); replace (_ <=? 0) with false by lia.
    rewrite Z.add_comm, Z_mod_plus_full, Z.mod_small; lia.
  - apply Forall_forall; intros x Hx; destruct (committee_node _ _ _ F He Hx) as (kv & Hkv & N & E).
    rewrite Forall_forall in F; specialize (F _ Hkv); rewrite N, E; cbn; split; [ | done ].
    rewrite committeeKey_ok by done; unfold node_ok, epoch_ok, committeeEpochStride in *; lia.
Qed.

Lemma filter_nodesOf (wanted : list Z) (l : list PartyID) :
  filter (fun n => n ∈ wanted) (nodesOf l) = nodesOf (filter (fun i => (nodeForPartyKey i).1 ∈ wanted) l).
Proof.
  unfold nodesOf; induction l as [ | i l IH ]; [ done | ]; rewrite fmap_cons, !filter_cons, IH.
  repeat case_decide; done.
Qed.

(** The identities selected are the wanted nodes', when there are as many. *)
Lemma selected_committee o wanted unsorted ps :
  committee_ok o -> selectCommittee wanted (sortedIDs o) (peers o) = (unsorted, ps) ->
  length (SortPartyIDs unsorted) = length wanted ->
  Permutation (nodesOf (SortPartyIDs unsorted)) wanted /\ NoDup wanted /\ (forall n, n ∈ wanted -> is_Some (peers o !! n)) /\
  Forall (fun i => KeyInt i = committeeKey (nodeForPartyKey i).1 (epoch o)) (SortPartyIDs unsorted).
Proof.
  intros (Es & Hn & He) S Ln; destruct (committee_nodes _ _ Hn He) as [ Pn Fk ]; rewrite <- Es in Pn, Fk.
  destruct (selectCommittee_keys _ _ _ _ _ S) as [ Sk _ ]; [ eapply Forall_impl; [ exact Fk | intros i [ ? _ ]; done ] | ].
  assert (Permutation (nodesOf (SortPartyIDs unsorted)) (filter (fun n => n ∈ wanted) (nodesOf (sortedIDs o)))) as Pc.
  { rewrite nodesOf_names, (Permutation_map _ (sort_perm unsorted)); rewrite Sk.
    change (map ?f ?l) with (f <$> l); rewrite <- nodesOf_names, filter_nodesOf; done. }
  assert (NoDup (filter (fun n => n ∈ wanted) (nodesOf (sortedIDs o)))) as Nd.
  { apply NoDup_filter; rewrite Pn; apply range_keys. }
  assert (Permutation (filter (fun n => n ∈ wanted) (nodesOf (sortedIDs o))) wanted) as Pw.
  { apply submseteq_length_Permutation; [ apply NoDup_submseteq; [ done | ] | ].
    - intros n Hin; apply list_elem_of_filter in Hin; tauto.
    - rewrite <- Pc; unfold nodesOf; rewrite length_fmap; lia. }
  split_and!.
  - rewrite Pc; exact Pw.
  - rewrite <- Pw; exact Nd.
  - intros n Hin; rewrite <- Pw in Hin; apply list_elem_of_filter in Hin as [ _ Hin ]; rewrite Pn in Hin; apply in_range, Hin.
  - apply Forall_forall; intros i Hi.
    assert (name_and_key i ∈ name_and_key <$> filter (fun i => (nodeForPartyKey i).1 ∈ wanted) (sortedIDs o)) as M
      by (rewrite <- Sk, <- sort_perm; apply list_elem_of_fmap; eauto).
    apply list_elem_of_fmap in M as (j & Ej & Hj); apply list_elem_of_filter in Hj as [ _ Hj ].
    rewrite Forall_forall in Fk; specialize (Fk j Hj) as [ _ Kj ]; unfold name_and_key in Ej; injection Ej as _ _ Ek.
    rewrite keyNode_of in *; congruence.
Qed.

Lemma keygenOf_id m id p o : keygenOf m id = Some (p, o) -> ceremonies m !! id = Some p.
Proof. unfold keygenOf; destruct (_ !! id) as [ q | ]; cbn; [ | done ]; destruct (_ !! q); cbn; congruence. Qed.
Lemma keygenOf_obj m id p o : keygenOf m id = Some (p, o) -> keygenObjs m !! p = Some o.
Proof.
  unfold keygenOf; destruct (ceremonies m !! id) as [ q | ]; cbn; [ | done ].
  destruct (keygenObjs m !! q) as [ k | ] eqn:L; cbn; [ | done ]; intros E; injection E as -> ->; done.
Qed.

(** C14.  A signing that a party starts is by exactly as many parties as its key
    needs, all different, all holders of the key, the party itself among them,
    under the identities of the key's present epoch, over a message of the length
    its curve signs; and the goroutine that is started signs this message with
    this committee, the key's threshold and the share of the key it reports.  It
    is of a party whose requests were made as the orchestrator makes them
    ([careful]): party numbers in range, no id given away while its key is being
    refreshed, a refresh by the parties that hold the key. *)
Theorem signing_committee id w s sid kid h wanted m' tk :
  rtc (step careful) (start id w) s -> StartSigning (mgr s) sid kid h wanted = Ok (m', tk) ->
  exists q o share p sg, keygenOf (mgr s) kid = Some (q, o) /\ status o = ceremonyCompleted /\ saveData o = Some share /\
    (exists d, PublicKey share = Ok (publicKeyHex o, d)) /\ h <> [] /\ (Curve_ share = CurveSecp256k1 -> len h = 32) /\
    len wanted = i64 (threshold o + 1) /\ NoDup wanted /\ partyID (mgr s) ∈ wanted /\
    (forall n, n ∈ wanted -> is_Some (peers o !! n)) /\
    signingOf m' sid = Some (p, sg) /\ sgStatus sg = ceremonyInProgress /\ sgCurve sg = Curve_ share /\
    Permutation (nodesOf (committee sg)) wanted /\
    Forall (fun i => KeyInt i = committeeKey (nodeForPartyKey i).1 (epoch o)) (committee sg) /\
    exists self, tk = RunSigning sid p (committee sg) self (threshold o) share h /\ self ∈ committee sg /\
      KeyInt self = committeeKey (partyID (mgr s)) (epoch o).
Proof.
  intros R E; pose proof (run_inv _ _ (start_inv id w) R) as I; unfold StartSigning in E.
  destruct (_ =? 0) eqn:Hh; [ done | ]; destruct (keygenOf (mgr s) kid) as [ [ q o ] | ] eqn:Kq; [ | done ].
  destruct (status o) eqn:St; try done; destruct (saveData o) as [ share | ] eqn:Sv; [ | done ].
  destruct (_ && _) eqn:Hl; [ done | ]; destruct (negb (len wanted =? _)) eqn:Ht; [ done | ].
  destruct (negb (bool_decide _)) eqn:Hs; [ done | ].
  destruct (selectCommittee _ _ _) as [ unsorted ps ] eqn:Sel; destruct (negb _) eqn:Hc in E; [ done | ].
  destruct (findPartyIDByKey _ _) as [ self | ] eqn:Fs; [ | done ]; injection E as <- <-; b2p.
  pose proof (keygenOf_obj _ _ _ _ Kq) as Lq; apply first_party_some in Fs as [ Is Ks ]; b2p.
  destruct (selected_committee _ _ _ _ (inv_committee _ _ I _ _ Lq) Sel) as (Pc & Nd & Mem & Ke); [ unfold len in *; lia | ].
  exists q, o, share, (length (signingObjs (mgr s))).
  eexists; split_and!; eauto; cbn.
  - apply (inv_share _ _ I _ _ Lq _ Sv).
  - intros ->; done.
  - intros Ec; rewrite Ec in Hl; cbn in Hl; b2p; done.
  - unfold signingOf; cbn [signings addSigning signingObjs]; rewrite lookup_insert_eq; cbn.
    rewrite lookup_app_r, Nat.sub_diag by lia; reflexivity.
  - reflexivity.
  - reflexivity.
  - exact Pc.
  - exact Ke.
  - exists self; split_and!; done.
Qed.
(** *** Relaying *)

Lemma peerIndex_fold (l : list PartyID) (m : gmap Z PartyID) k i :
  NoDup (nodesOf l) ->
  foldl (fun out id => <[ fst (nodeForPartyKey id) := id ]> out) m l !! k = Some i <->
  (i ∈ l /\ (nodeForPartyKey i).1 = k) \/ (m !! k = Some i /\ k ∉ nodesOf l).
Proof.
  revert m; induction l as [ | x l IH ]; intros m N; cbn [foldl].
  { split; [ right; split; [ done | apply not_elem_of_nil ] | intros [ [ E _ ] | [ E _ ] ]; [ apply elem_of_nil in E | ]; done ]. }
  cbn in N; apply NoDup_cons in N as [ Nx N ]; rewrite IH by done; cbn [nodesOf fmap list_fmap].
  rewrite elem_of_cons, not_elem_of_cons, lookup_insert_Some; unfold nodesOf in *.
  split.
  - intros [ [ Hi E ] | [ [ [ E <- ] | [ E L ] ] Nk ] ]; [ left; auto | left; auto | right; auto ].
  - intros [ [ [ -> | Hi ] E ] | [ L [ E Nk ] ] ]; [ right | left; auto | right; auto ].
    subst k; split; [ left; done | done ].
Qed.

Lemma addressed_one ps e n (to : PartyID) :
  nodes_ok ps -> epoch_ok e -> is_Some (ps !! n) -> KeyInt to = committeeKey n e ->
  (filter (fun kv => KeyInt kv.2 = KeyInt to) (range (peerIndexByKey (committeePartyIDs (range ps) e)))).*1 = [ n ].
Proof.
  intros Hn He Hp Ht; set (ids := committeePartyIDs (range ps) e).
  destruct (committee_nodes ps e Hn He) as [ Pn Fk ]; fold ids in Pn, Fk.
  assert (NoDup (nodesOf ids)) as Nd by (rewrite Pn; apply range_keys).
  destruct (find_member ps e n Hn He Hp) as (id & Fd & _ & Nid); fold ids in Fd.
  apply first_party_some in Fd as [ Hid _ ]; rewrite Forall_forall in Fk.
  assert (node_ok n) as Hno by auto.
  assert (Permutation (filter (fun kv => KeyInt kv.2 = KeyInt to) (range (peerIndexByKey ids))) [ (n, id) ]) as P.
  { apply NoDup_Permutation.
    - apply NoDup_filter; rewrite range_perm; apply NoDup_map_to_list.
    - apply NoDup_singleton.
    - intros [ k i ]; rewrite list_elem_of_filter, range_perm, elem_of_map_to_list, list_elem_of_singleton.
      unfold peerIndexByKey; rewrite peerIndex_fold by done; rewrite lookup_empty; cbn; split.
      + intros [ Ek [ [ Hi Ei ] | [ ? _ ] ] ]; [ | done ]; destruct (Fk i Hi) as [ _ Ki ]; rewrite Ei, Ek, Ht in Ki.
        destruct (Fk id Hid) as [ _ Kid ]; rewrite Nid in Kid; cbn in Kid.
        assert (KeyInt i = KeyInt id) as Eii by congruence.
        destruct (range_nodes ps Hn) as [ _ F ], (range_keys ps) as [ _ N ].
        assert (i = id) as -> by (eapply committee_unique; eauto); rewrite Nid in Ei; cbn in Ei; congruence.
      + intros E; injection E as -> ->; split; [ | left; rewrite Nid; done ].
        destruct (Fk id Hid) as [ _ Kid ]; rewrite Nid in Kid; cbn in Kid; congruence. }
  apply Permutation_singleton_r in P; rewrite P; done.
Qed.

Lemma postAll_ok (ps : gmap Z string) post ts :
  (forall u, post u = true) -> Forall (fun t => is_Some (ps !! t)) ts ->
  postAll ps post ts = ((fun t => default ""%string (ps !! t)) <$> ts, None).
Proof.
  intros Hp F; induction F as [ | t ts [ u Hu ] F IH ]; cbn; [ done | ]; rewrite Hu, Hp, IH; done.
Qed.

(** When every post succeeds, a broadcast is posted once to every party of the
    ceremony but the sender, and an addressed message to exactly the parties it
    names, in every epoch. *)
Theorem relay_reaches self ps e msg post :
  nodes_ok ps -> epoch_ok e -> (forall u, post u = true) ->
  (MsgIsBroadcast msg = true ->
   exists urls, relayTSSMessage self ps (committeePartyIDs (range ps) e) msg post = (urls, None) /\
     Permutation urls (map_to_list (delete self ps)).*2) /\
  (MsgIsBroadcast msg = false -> forall ns, KeyInt <$> GetTo msg = (fun n => committeeKey n e) <$> ns ->
   Forall (fun n => is_Some (ps !! n)) ns ->
   relayTSSMessage self ps (committeePartyIDs (range ps) e) msg post = ((fun n => default ""%string (ps !! n)) <$> ns, None)).
Proof.
  intros Hn He Hp; unfold relayTSSMessage; split; intros B; rewrite B.
  - eexists; rewrite postAll_ok; [ split; [ reflexivity | ] | done | ].
    + unfold broadcastTargets; assert (Permutation (filter (fun id => id <> self) (range ps).*1) (map_to_list (delete self ps)).*1) as P.
      { apply NoDup_Permutation; [ apply NoDup_filter, range_keys | apply NoDup_fst_map_to_list | ].
        intros n; rewrite list_elem_of_filter, <- in_range, list_elem_of_fmap; split.
        - intros [ Hne [ u Hu ] ]; exists (n, u); split; [ done | apply elem_of_map_to_list; rewrite lookup_delete_ne; auto ].
        - intros ([ k u ] & -> & Hin); apply elem_of_map_to_list, lookup_delete_Some in Hin as [ ? Hin ]; cbn; eauto. }
      rewrite P, <- list_fmap_compose; apply reflexive_eq, list_fmap_ext; intros j [ k u ] L; cbn.
      apply list_elem_of_lookup_2, elem_of_map_to_list, lookup_delete_Some in L as [ _ L ]; rewrite L; done.
    + apply Forall_forall; intros n Hin; apply list_elem_of_filter in Hin as [ _ Hin ]; apply in_range, Hin.
  - intros ns E F; rewrite <- (postAll_ok ps post ns Hp F); f_equal; unfold addressedTargets.
    revert ns E F; induction (GetTo msg) as [ | to tos IH ]; intros [ | n ns ] E F; try discriminate E; [ done | ].
    injection E as E1 E2; apply Forall_cons in F as [ F1 F2 ]; cbn [fmap list_fmap concat].
    rewrite (addressed_one ps e n to) by done; cbn; f_equal; apply IH; done.
Qed.

(** *** Nothing owed is left unsent *)

Lemma relayPending_none {D} (relay : Message -> list D * option MgrErr) queue ds :
  relayPending relay queue = (ds, None) -> ds = concat (fst ∘ relay <$> queue) /\ Forall (fun msg => snd (relay msg) = None) queue.
Proof.
  revert ds; induction queue as [ | msg queue IH ]; intros ds; cbn; [ intros E; injection E as <-; auto | ].
  destruct (relay msg) as [ d [ e | ] ] eqn:R; [ done | ]; destruct (relayPending relay queue) as [ d' e' ].
  intros E; injection E as <- ->; destruct (IH d' eq_refl) as [ -> F ]; split; [ cbn; rewrite ?R; done | ].
  constructor; [ rewrite R; done | done ].
Qed.

(** A key generation that ends completed has relayed, without a failure, every
    message its party emitted: those it took from the channel and those still
    queued when the result arrived. *)
Theorem completed_owes_nothing post m w id p o sent save queue m' w' ps go o' :
  keygenObjs m !! p = Some o -> status o <> ceremonyCompleted ->
  driveKeygen post m w id p ((Outgoing <$> sent) ++ [ End_ save queue ]) = (m', w', ps, go) ->
  keygenObjs m' !! p = Some o' -> status o' = ceremonyCompleted ->
  ps = concat (fst ∘ relayMessage id o post <$> sent ++ queue) /\
  Forall (fun msg => snd (relayMessage id o post msg) = None) (sent ++ queue).
Proof.
  intros L Ns; revert ps; assert (forall e o1, keygenObjs (failCeremony m id e) !! p = Some o1 -> status o1 <> ceremonyCompleted) as Nf.
  { intros e o1 L1; unfold failCeremony in L1; destruct (ceremonies m !! id); [ | congruence ].
    apply lookup_onKeygen in L1 as (o2 & L2 & ->); case_decide; [ done | congruence ]. }
  induction sent as [ | msg sent IH ]; intros ps; cbn [fmap list_fmap app driveKeygen].
  - unfold driveKeygenTurn; rewrite L; destruct (relayPending _ _) as [ ds [ e | ] ] eqn:R.
    { intros E; injection E as <- _ _ _; intros L' S'; exfalso; eapply Nf; eauto. }
    destruct (completeCeremony _ _ _ _ _) as [ m1 w1 ]; intros E; injection E as _ _ <- _; intros _ _.
    apply relayPending_none, R.
  - unfold driveKeygenTurn at 1; rewrite L; destruct (relayMessage id o post msg) as [ ds [ e | ] ] eqn:R.
    { intros E; injection E as <- _ _ _; intros L' S'; exfalso; eapply Nf; eauto. }
    destruct (driveKeygen post m w id p ((Outgoing <$> sent) ++ [ End_ save queue ])) as [ [ [ m1 w1 ] ps1 ] go1 ] eqn:D.
    intros E; injection E as <- <- <- <-; intros L' S'; destruct (IH _ eq_refl L' S') as [ -> F ].
    split; [ cbn; rewrite R; done | constructor; [ rewrite R; done | done ] ].
Qed.
(** *** Restoring after a restart *)

Context `{!ShareStore.ShareKeeping W}.

(** What is restored from a share held with its context. *)
Lemma restore_held m w id ps share cc d w' :
  ceremonies m !! id = None -> ShareStore.holds w (partyID m) id = Some (share, Some cc) ->
  fst (ShareStore.kload (partyID m) id w) = Ok (share, Some cc) -> snd (ShareStore.kload (partyID m) id w) = w' ->
  PublicKey share = Ok (ShareStore.PublicKeyHex cc, d) -> ShareStore.PublicKeyHex cc <> "" -> ShareStore.Address cc <> "" ->
  nodes_ok ps -> epoch_ok (ShareStore.Epoch cc) -> is_Some (ps !! partyID m) -> ShareStore.TotalParties cc = Z.of_nat (size ps) ->
  exists m' o, RestoreCeremony m w id ps = (Ok m', w') /\ keygenOf m' id = Some (length (keygenObjs m), o) /\
    status o = ceremonyCompleted /\ saveData o = Some share /\ threshold o = ShareStore.Threshold cc /\
    curve o = ShareStore.ctxCurve cc /\ epoch o = ShareStore.Epoch cc /\ publicKeyHex o = ShareStore.PublicKeyHex cc /\
    address o = ShareStore.Address cc /\ sortedIDs o = committeePartyIDs (range ps) (ShareStore.Epoch cc) /\ peers o = ps.
Proof.
  intros Nc Hd Ld Lw PK Np Na Hn He Hp Ht; unfold RestoreCeremony.
  rewrite bool_decide_false by (rewrite Nc; intros [ ? ? ]; done).
  destruct (ShareStore.kload _ _ _) as [ r w1 ]; cbn in Ld, Lw; subst r w1.
  rewrite Ht, Z.eqb_refl; cbn [negb]; destruct (find_member ps _ _ Hn He Hp) as (self & Fs & _).
  rewrite Fs, bool_decide_false by done; rewrite PK; cbn [map_err result_bind fst snd].
  unfold restoredAddress; replace (String.eqb (ShareStore.PublicKeyHex cc) "") with false by (symmetry; apply String.eqb_neq; done).
  rewrite equal_fold_refl; cbn [negb].
  replace (String.eqb (ShareStore.Address cc) "") with false by (symmetry; apply String.eqb_neq; done); cbn [result_bind].
  eexists; eexists; split; [ reflexivity | ]; unfold keygenOf; cbn [ceremonies addKeygen keygenObjs].
  rewrite lookup_insert_eq; cbn; rewrite lookup_app_r, Nat.sub_diag by lia; cbn; split_and!; reflexivity.
Qed.

Lemma size_dom (ps ps' : gmap Z string) : dom ps = dom ps' -> size ps = size ps'.
Proof. intros E; rewrite <- !size_dom, E; done. Qed.

(** The same key, as a party sees it. *)
Definition same_key (o o' : tssKeygenCeremony) : Prop :=
  saveData o' = saveData o /\ threshold o' = threshold o /\ curve o' = curve o /\ epoch o' = epoch o /\
  publicKeyHex o' = publicKeyHex o /\ address o' = address o /\ sortedIDs o' = sortedIDs o.

(** A party that completed a key generation with its share sealed, and was then
    restarted, restores the key it had: share, identities, threshold, curve,
    epoch, public key and address, at whatever endpoints the same parties now
    have. *)
Theorem restore_recovers_key m w id p o share m1 w1 o1 m2 w2 ps2 :
  keygenObjs m !! p = Some o -> status o <> ceremonyCompleted -> committee_ok o -> is_Some (peers o !! selfPartyID o) ->
  (forall cc, ShareStore.sealable id share (Some cc)) ->
  completeCeremony m w id p share = (m1, w1) ->
  keygenObjs m1 !! p = Some o1 -> status o1 = ceremonyCompleted -> sealed o1 = true -> publicKeyHex o1 <> "" -> address o1 <> "" ->
  partyID m2 = selfPartyID o -> ceremonies m2 !! id = None -> dom ps2 = dom (peers o) ->
  ShareStore.holds w2 (selfPartyID o) id = ShareStore.holds w1 (selfPartyID o) id ->
  is_ok (fst (ShareStore.kload (selfPartyID o) id w2)) = true ->
  exists m3 w3 q o3, RestoreCeremony m2 w2 id ps2 = (Ok m3, w3) /\ keygenOf m3 id = Some (q, o3) /\
    status o3 = ceremonyCompleted /\ same_key o1 o3.
Proof.
  intros L Ns (Es & Hn & He) Sf Sb C L1 S1 Sl Np Na Pm Nc Hd Hw Ho; unfold completeCeremony in C; rewrite L in C.
  assert (forall e, m1 <> failCeremony m id e) as Nf.
  { intros e ->; unfold failCeremony in L1; destruct (ceremonies m !! id); [ | congruence ].
    apply lookup_onKeygen in L1 as (o2 & L2 & ->); case_decide; [ done | congruence ]. }
  destruct (keyAndAddress share (blockchain o)) as [ [ pub addr ] | | ] eqn:KA;
    [ | injection C as <- _; edestruct Nf; reflexivity | injection C as <- _; congruence ].
  match type of C with context [ ShareStore.kseal _ _ _ (Some ?x) _ ] => set (cc := x) in * end.
  destruct (ShareStore.kseal _ _ _ _ _) as [ [ sl | | ] w' ] eqn:Sk;
    [ | injection C as <- _; edestruct Nf; reflexivity | injection C as <- _; congruence ].
  injection C as <- <-; apply lookup_onKeygen in L1 as (o0 & L0 & E1); rewrite decide_True in E1 by done.
  assert (o0 = o) as -> by congruence; subst o1; cbn in Sl, Np, Na; subst sl.
  unfold keyAndAddress in KA; destruct (PublicKey share) as [ [ pub0 d ] | | ] eqn:PK; cbn in KA; [ | done | done ].
  destruct (AddressFor _ _ _); cbn in KA; [ | done | done ]; injection KA as -> ->.
  pose proof (ShareStore.seal_holds _ _ _ _ _ _ (Sb cc) (PublicKey_ok_tagged _ _ PK) Sk) as Hh.
  rewrite <- Hw in Hh; rewrite <- Pm in *.
  destruct (ShareStore.kload (partyID m2) id w2) as [ [ x | | ] w3 ] eqn:Ld; [ | done | done ].
  pose proof (ShareStore.load_holds _ _ _ _ _ Ld) as Hx; rewrite Hh in Hx; injection Hx as <-.
  assert (nodes_ok ps2) as Hn2 by (intros n Hx; apply Hn, elem_of_dom; rewrite <- Hd; apply elem_of_dom, Hx).
  destruct (restore_held m2 w2 id ps2 share cc d w3) as (m3 & o3 & R & K3 & S3 & E1 & E2 & E3 & E4 & E5 & E6 & E7 & _); cbn; auto.
  - rewrite Ld; done.
  - rewrite Ld; done.
  - apply elem_of_dom; rewrite Hd; apply elem_of_dom; done.
  - rewrite (size_dom _ _ Hd), Es, committee_length, size_range; auto; apply range_nodes; done.
  - exists m3, w3, (length (keygenObjs m2)), o3; split_and!; auto; split_and!; auto.
    rewrite E7; cbn; rewrite Es; apply committee_dom; auto.
Qed.

(** *** Refreshing *)

(** A refresh that completes, sealed, leaves in the store the refreshed share
    with its new epoch, so that a restart restores the key as refreshed, never a
    mixture of the two epochs. *)
Theorem refresh_survives_restart m w rid p r share m1 w1 q k k1 m2 w2 ps2 r1 :
  resharingObjs m !! p = Some r -> completeResharing m w rid p share = (m1, w1) ->
  ceremonies m !! sourceCeremonyID r = Some q -> keygenObjs m !! q = Some k -> keygenObjs m1 !! q = Some k1 ->
  resharingObjs m1 !! p = Some r1 -> reStatus r <> ceremonyCompleted -> reStatus r1 = ceremonyCompleted -> reSealed r1 = true ->
  publicKeyHex k = expectedPublicKey r -> address k = expectedAddress r -> threshold k = reThreshold r -> curve k = reCurve r ->
  newSorted r = committeePartyIDs (range (peers k)) (newEpoch r) -> nodes_ok (peers k) -> epoch_ok (newEpoch r) ->
  is_Some (peers k !! reSelf r) -> (forall cc, ShareStore.sealable (sourceCeremonyID r) share (Some cc)) ->
  publicKeyHex k <> "" -> address k <> "" ->
  partyID m2 = reSelf r -> ceremonies m2 !! sourceCeremonyID r = None -> dom ps2 = dom (peers k) ->
  ShareStore.holds w2 (reSelf r) (sourceCeremonyID r) = ShareStore.holds w1 (reSelf r) (sourceCeremonyID r) ->
  is_ok (fst (ShareStore.kload (reSelf r) (sourceCeremonyID r) w2)) = true ->
  epoch k1 = newEpoch r /\ saveData k1 = Some share /\
  exists m3 w3 q3 o3, RestoreCeremony m2 w2 (sourceCeremonyID r) ps2 = (Ok m3, w3) /\
    keygenOf m3 (sourceCeremonyID r) = Some (q3, o3) /\ status o3 = ceremonyCompleted /\ same_key k1 o3.
Proof.
  intros Lr C Cq Lk Lk1 Lr1 Ns S1 Sl Ep Ea Et Ec En Hn He Sf Sb Np Na Pm Nc Hd Hw Ho; unfold completeResharing in C; rewrite Lr in C.
  assert (forall e, m1 <> failResharing m rid e) as Nf.
  { intros e ->; unfold failResharing in Lr1; destruct (resharings m !! rid); [ | congruence ]; cbn in Lr1.
    rewrite list_lookup_alter in Lr1; case_decide; subst; [ rewrite Lr in Lr1; injection Lr1 as <-; done | congruence ]. }
  destruct (PublicKey share) as [ [ pub d ] | | ] eqn:PK;
    [ | injection C as <- _; edestruct Nf; reflexivity | injection C as <- _; congruence ].
  destruct (String.eqb_spec pub (expectedPublicKey r)) as [ -> | ]; cbn [negb] in C; [ | injection C as <- _; edestruct Nf; reflexivity ].
  replace (String.eqb (expectedAddress r) "") with false in C by (symmetry; apply String.eqb_neq; congruence).
  match type of C with context [ ShareStore.kseal _ _ _ (Some ?x) _ ] => set (cc := x) in * end.
  destruct (ShareStore.kseal _ _ _ _ _) as [ rs w' ] eqn:Sk; cbn [ceremonies onResharing] in C; rewrite Cq in C; injection C as <- <-.
  apply lookup_onKeygen in Lk1 as (k0 & Lk0 & E1); rewrite decide_True in E1 by done; cbn in Lk0.
  assert (k0 = k) as -> by congruence; subst k1.
  cbn in Lr1; rewrite !list_lookup_alter_eq, Lr in Lr1; cbn in Lr1; injection Lr1 as <-; cbn in Sl.
  assert (rs = Ok true) as -> by (destruct rs as [ [ ] | | ]; done).
  pose proof (ShareStore.seal_holds _ _ _ _ _ _ (Sb cc) (PublicKey_ok_tagged _ _ PK) Sk) as Hh.
  rewrite <- Hw in Hh; rewrite <- Pm in *; split_and!; [ done | done | ].
  destruct (ShareStore.kload (partyID m2) _ w2) as [ [ x | | ] w3 ] eqn:Ld; [ | done | done ].
  pose proof (ShareStore.load_holds _ _ _ _ _ Ld) as Hx; rewrite Hh in Hx; injection Hx as <-.
  assert (nodes_ok ps2) as Hn2 by (intros n Hx; apply Hn, elem_of_dom; rewrite <- Hd; apply elem_of_dom, Hx).
  destruct (restore_held m2 w2 (sourceCeremonyID r) ps2 share cc d w3) as (m3 & o3 & R & K3 & S3 & F1 & F2 & F3 & F4 & F5 & F6 & F7 & _);
    subst cc; cbn; auto; rewrite ?Ld; cbn; try congruence.
  - apply elem_of_dom; rewrite Hd; apply elem_of_dom; done.
  - rewrite (size_dom _ _ Hd), En, committee_length, size_range; auto; apply range_nodes; done.
  - exists m3, w3, (length (keygenObjs m2)), o3; split_and!; auto; split_and!; cbn in *; try congruence.
    rewrite F7, En; apply committee_dom; auto.
Qed.

(** The second refresh of a key fails on every party: it looks itself up in the
    old committee by its bare number, which is its identity in epoch 0 only. *)
Theorem second_refresh_fails starts pre m rid src ps m1 p share q k :
  keygenOf m src = Some (q, k) -> 1 <= epoch k -> epoch_ok (epoch k) -> nodes_ok ps -> node_ok (partyID m) ->
  is_ok (ellipticCurve (curve k)) = true -> StartResharing m rid src ps = Ok (m1, RunResharing rid p share) ->
  exists m2 o, runResharing starts pre m1 rid p share = (m2, None) /\ resharingOf m2 rid = Some (p, o) /\
    reStatus o = ceremonyFailed /\ reError o = Some NotInBothCommittees.
Proof.
  intros K E1 He Hn Hm Hc E; unfold StartResharing in E; destruct (bool_decide _); [ done | ]; rewrite K in E.
  destruct (status k), (saveData k); try done; do 2 (match type of E with (if ?b then _ else _) = _ => destruct b end; [ done | ]).
  injection E as <- <- ->; unfold runResharing; cbn [resharingObjs addResharing].
  rewrite lookup_app_r, Nat.sub_diag by lia; cbn [lookup list_lookup reCurve].
  destruct (ellipticCurve (curve k)) as [ ec | | ]; [ | done | done ]; cbn [oldSorted reSelf].
  assert (findPartyID (committeePartyIDs (range ps) (epoch k)) (partyID m) = None) as ->.
  { apply first_party_none; intros i Hi; destruct (range_nodes ps Hn) as [ _ F ].
    destruct (committee_node _ _ _ F He Hi) as (kv & Hkv & _ & ->); rewrite Forall_forall in F; specialize (F _ Hkv).
    rewrite committeeKey_ok by done; unfold partyKey, node_ok, committeeEpochStride in *; apply Z.eqb_neq; nia. }
  unfold failResharing; cbn [resharings addResharing]; rewrite lookup_insert_eq.
  eexists; eexists; split; [ reflexivity | ]; unfold resharingOf; cbn [resharings onResharing addResharing resharingObjs].
  rewrite lookup_insert_eq; cbn; rewrite list_lookup_alter_eq, lookup_app_r, Nat.sub_diag by lia; cbn; split_and!; reflexivity.
Qed.

(** *** Signatures *)

(** On secp256k1 a signature is 65 bytes, R and S each at their full width and
    the recovery id, whatever leading zeros tss-lib dropped; a component that is
    too long makes the party panic. *)
Theorem signature_layout c sd :
  c <> CurveEd25519 ->
  (encodeSignature c sd = Panic <-> (32 < length (sigR sd) \/ 64 < length (sigS sd))%nat) /\
  ((length (sigR sd) <= 32)%nat -> (length (sigS sd) <= 32)%nat ->
   exists sig, encodeSignature c sd = Ok sig /\ len sig = 65 /\ be_val (take 32 sig) = be_val (sigR sd) /\
     be_val (take 32 (drop 32 sig)) = be_val (sigS sd) /\ sig !! 64%nat = Some (default 0 (head (sigRecovery sd)))).
Proof.
  intros Hc; unfold encodeSignature, leftPad; replace (String.eqb c CurveEd25519) with false by (symmetry; apply String.eqb_neq; done).
  split.
  - destruct (decide (length (sigR sd) <= 32)%nat) as [ B1 | B1 ]; [ rewrite (bool_decide_true _ B1) | rewrite (bool_decide_false _ B1) ];
      cbn [result_bind]; [ case_bool_decide as B2 | ]; split; intros X; try done; try lia; destruct X; exfalso; lia.
  - intros B1 B2; rewrite (bool_decide_true _ B1); cbn [result_bind]; rewrite bool_decide_true by lia.
    set (r := replicate (32 - length (sigR sd)) 0 ++ sigR sd).
    assert (length r = 32%nat) as Lr by (unfold r; rewrite length_app, length_replicate; lia).
    assert (take (64 - length (sigS sd)) (r ++ replicate 32 0) = r ++ replicate (32 - length (sigS sd)) 0) as E.
    { rewrite take_app_ge by lia; rewrite Lr, take_replicate; do 2 f_equal; lia. }
    rewrite E; eexists; split; [ reflexivity | ]; rewrite <- !app_assoc; split_and!.
    + rewrite !len_app; unfold len; rewrite Lr, length_replicate; cbn; lia.
    + rewrite <- Lr at 1; rewrite take_app_length; unfold r; rewrite be_val_app, be_val_replicate0; lia.
    + rewrite <- Lr at 2; rewrite drop_app_length, app_assoc.
      replace 32%nat with (length (replicate (32 - length (sigS sd)) 0 ++ sigS sd)) at 1 by (rewrite length_app, length_replicate; lia).
      rewrite take_app_length, be_val_app, be_val_replicate0; lia.
    + rewrite !lookup_app_r by (rewrite ?length_replicate; lia); rewrite length_replicate.
      replace (64 - length r - (32 - length (sigS sd)) - length (sigS sd))%nat with 0%nat by lia.
      destruct (sigRecovery sd); done.
Qed.
End Manager.
(** ** Implementations of the interfaces, and a run

    Used by the witnesses: messages as records, maps visited in the order of
    their keys' representation, a store in memory. *)

Module Simple.
#[local] Existing Instance simple_crypto.
#[local] Existing Instance simple_ids.
#[local] Existing Instance simple_ids_laws.

Record SimpleMessage := { wire : bytes; toAll : bool; dests : list PartyID; sender : PartyID }.
#[local] Instance simple_messages : TssMessages := {|
  Message := SimpleMessage;
  MsgWireBytes m := Some (wire m);
  MsgIsBroadcast := toAll;
  GetTo := dests;
  GetFrom := sender;
  IsToOldCommittee _ := false;
  IsToOldAndNewCommittees _ := true;
|}.

#[local] Instance simple_saves : TssSaves := {|
  PreParams := unit;
  LocalPreParams _ := tt;
  NewEcdsaSave _ _ := (0, 0);
  NewEddsaSave _ := (0, 0);
|}.

#[local] Instance simple_range : GoRange := {| range A m := map_to_list m; range_perm A m := Permutation_refl _ |}.

Abbreviation Memory := (gmap (Z * string) (KeyShare * option ShareStore.CeremonyContext)).
#[local] Instance memory_keeper : ShareStore.Keeper Memory := {|
  ShareStore.kseal p c s cc w := (Ok true, <[ (p, c) := (s, cc) ]> w);
  ShareStore.kload p c w := (match w !! (p, c) with Some x => Ok x | None => Err ShareStore.NoSealedShare end, w);
  ShareStore.kretire p c w := (Ok true, delete (p, c) w);
  ShareStore.holds w p c := w !! (p, c);
  ShareStore.sealable _ _ _ := True;
  ShareStore.own_entry _ := True;
|}.
#[local] Instance memory_keeps : ShareStore.ShareKeeping Memory.
Proof.
  split; cbn.
  - intros p c s cc w w' _ _ E; injection E as <-; apply lookup_insert_eq.
  - intros p c s cc w r w' _ _ E; injection E as <- <-; done.
  - intros p c s cc w p' c' _ _ Hne; rewrite lookup_insert_ne; congruence.
  - intros p c w x w' E; destruct (w !! (p, c)); congruence.
  - done.
  - intros p c w w' _ E; injection E as <-; apply lookup_delete_eq.
  - intros p c w p' c' _ _ Hne; rewrite lookup_delete_ne; congruence.
Qed.

(** Three parties; party 1 generates the key, then refreshes it. *)
Definition three : gmap Z string := {[ 1 := "a"; 2 := "b"; 3 := "c" ]}.
Definition outcome : SaveData := EddsaResult (3, 4).
Definition ecdsaOutcome : SaveData := EcdsaResult (3, 4).
Definition asked : Request := RKeygen "key" 1 three CurveEd25519 "".
Definition all_posts (u : string) (e : Envelope) : bool := true.
Definition all_start (p : Party) : bool := true.

Definition after (r : TSSPartyManager * Memory) (ts : list Task) :=
  {| mgr := fst r; store := snd r; tasks := ts; held := []; frozen := false |}.
Definition s0 := start 1 (∅ : Memory).
Definition s1 := serve s0 asked.
Definition self_id (e : Z) : PartyID := default (NewPartyID "" "" 0) (findPartyIDByNode (committeePartyIDs (range three) e) 1).
Definition s2 :=
  after ((runKeygen all_start None (mgr s1) "key" 0 (committeePartyIDs (range three) 0) (self_id 0) 1).1, store s1)
    [ DriveKeygen "key" 0 CurveEd25519 ].
Definition s3 :=
  after (driveKeygenTurn all_posts (mgr s2) (store s2) "key" 0 (End_ outcome [])).1.1 [].
Definition s4 := serve s3 (RResharing "refresh" "key" three).
Definition s5 :=
  after ((runResharing all_start None (mgr s4) "refresh" 0 (wrap outcome)).1, store s4) [ DriveResharing "refresh" 0 CurveEd25519 ].
Definition s6 :=
  after (driveResharingTurn all_posts (mgr s5) (store s5) "refresh" 0 (End_ outcome [])).1.1 [].

Lemma three_ok : nodes_ok three.
Proof.
  intros n [ u Hu ]; unfold three in Hu.
  do 2 (apply lookup_insert_Some in Hu as [ [ <- _ ] | [ _ Hu ] ]; [ unfold node_ok, committeeEpochStride; lia | ]).
  apply lookup_singleton_Some in Hu as [ <- _ ]; unfold node_ok, committeeEpochStride; lia.
Qed.

Lemma lone_turn (s : System (W := Memory)) (t : Task) (m' : TSSPartyManager) (w' : Memory) (ts : list Task) :
  tasks s = [ t ] -> held s = [] -> frozen s = false -> turn (mgr s) (store s) t m' w' ts ->
  step careful s {| mgr := m'; store := w'; tasks := ts; held := []; frozen := false |}.
Proof. intros E Eh Ef T; rewrite <- (app_nil_r ts), <- Eh, <- Ef; apply (step_task careful s [] t [] m' w' ts E T). Qed.

(** Facts about the run are checked by evaluation. *)
Ltac by_run := match goal with |- ?a = _ => vm_cast_no_check (eq_refl a) end.
Lemma with_second {A B} (x : A * B) b : x.2 = b -> x = (x.1, b).
Proof. destruct x; cbn; congruence. Qed.
Lemma with_rest {A B C D} (x : A * B * C * D) c d : x.1.2 = c -> x.2 = d -> x = (x.1.1.1, x.1.1.2, c, d).
Proof. destruct x as [ [ [ ? ? ] ? ] ? ]; cbn; congruence. Qed.

Lemma run_generates : rtc (step careful) s0 s3.
Proof.
  eapply rtc_l; [ apply (step_request careful s0 asked); split; [ exact three_ok | intros p o Hp; apply elem_of_nil in Hp; done ] | ].
  apply (rtc_l _ _ s2); [ apply (lone_turn s1 (RunKeygen "key" 0 (committeePartyIDs (range three) 0) (self_id 0) 1)) | ].
  1-3: by_run.
  { apply (turn_runKeygen _ _ all_start None "key" 0 _ (self_id 0) 1 _ (Some (DriveKeygen "key" 0 CurveEd25519))).
    apply (with_second (runKeygen all_start None (mgr s1) "key" 0 (committeePartyIDs (range three) 0) (self_id 0) 1)); by_run. }
  apply rtc_once, (lone_turn s2 (DriveKeygen "key" 0 CurveEd25519)); [ reflexivity .. | ].
  eapply (turn_driveKeygen _ _ all_posts "key" 0 CurveEd25519 (End_ outcome []) _ _ [] false); [ intros save q E; injection E as <- _; reflexivity | ].
  apply (with_rest (driveKeygenTurn all_posts (mgr s2) (store s2) "key" 0 (End_ outcome []))); by_run.
Qed.

Lemma run_refreshes : rtc (step careful) s3 s6.
Proof.
  eapply rtc_l; [ apply (step_request careful s3 (RResharing "refresh" "key" three)) | ].
  { intros q k E; assert ((fun x => (peers x.2, epoch x.2)) <$> keygenOf (mgr s3) "key" = Some (three, 0)) as X by by_run.
    rewrite E in X; cbn in X; injection X as X1 X2; rewrite X1, X2; split; [ reflexivity | unfold epoch_ok; lia ]. }
  apply (rtc_l _ _ s5); [ apply (lone_turn s4 (RunResharing "refresh" 0 (wrap outcome))) | ].
  1-3: by_run.
  { apply (turn_runResharing _ _ all_start None "refresh" 0 (wrap outcome) _ (Some (DriveResharing "refresh" 0 CurveEd25519))).
    apply (with_second (runResharing all_start None (mgr s4) "refresh" 0 (wrap outcome))); by_run. }
  apply rtc_once, (lone_turn s5 (DriveResharing "refresh" 0 CurveEd25519)); [ reflexivity .. | ].
  eapply (turn_driveResharing _ _ all_posts "refresh" 0 CurveEd25519 (End_ outcome []) _ _ [] false); [ intros save q E; injection E as <- _; reflexivity | ].
  apply (with_rest (driveResharingTurn all_posts (mgr s5) (store s5) "refresh" 0 (End_ outcome []))); by_run.
Qed.

Definition obj (m : TSSPartyManager) (p : nat) : tssKeygenCeremony :=
  default {| status := ceremonyPending; errorMessage := None; selfPartyID := 0; threshold := 0; sortedIDs := []; peers := ∅;
             localParty := None; curve := ""; blockchain := ""; epoch := 0; saveData := None; publicKeyHex := ""; address := "";
             sealed := false |} (keygenObjs m !! p).
Lemma obj_at m p : bool_decide (is_Some (keygenObjs m !! p)) = true -> keygenObjs m !! p = Some (obj m p).
Proof. rewrite bool_decide_eq_true; unfold obj; intros [ o -> ]; done. Qed.

Lemma keys_never_change_witness :
  exists o', keygenObjs (mgr s6) !! 0%nat = Some o' /\ epoch (obj (mgr s3) 0) = 0 /\ publicKeyHex o' = publicKeyHex (obj (mgr s3) 0).
Proof.
  destruct (keys_never_change 1 ∅ s3 s6 0 (obj (mgr s3) 0) (wrap outcome) run_generates run_refreshes) as (o' & L' & E & _).
  - apply obj_at; by_run.
  - by_run.
  - exists o'; split; [ exact L' | split; [ by_run | exact E ] ].
Defined.

Lemma keygen_start_iff_witness : exists m' tk, startKeygen (NewTSSPartyManager 1) "key" 1 three CurveEd25519 "" = Ok (m', tk).
Proof.
  apply (proj2 (proj1 (keygen_start_iff (NewTSSPartyManager 1) "key" 1 three CurveEd25519 "" three_ok ltac:(unfold two63; lia)))).
  split; [ exists "a"%string; by_run | split; [ intros _; change (size three) with 3%nat; lia | right; reflexivity ] ].
Defined.

Lemma signing_committee_witness :
  exists m' tk, StartSigning (mgr s6) "sig" "key" [ 1; 2; 3 ] [ 3; 1 ] = Ok (m', tk) /\
    exists p sg, signingOf m' "sig" = Some (p, sg) /\ Permutation (nodesOf (committee sg)) [ 3; 1 ].
Proof.
  assert (is_ok (StartSigning (mgr s6) "sig" "key" [ 1; 2; 3 ] [ 3; 1 ]) = true) as S by by_run.
  destruct (StartSigning (mgr s6) "sig" "key" [ 1; 2; 3 ] [ 3; 1 ]) as [ [ m' tk ] | e | ] eqn:E; [ | discriminate S .. ].
  destruct (signing_committee 1 ∅ s6 "sig" "key" [ 1; 2; 3 ] [ 3; 1 ] m' tk (transitivity (R := rtc (step careful)) run_generates run_refreshes) E)
    as (q & o & share & p & sg & H1 & H2 & H3 & H4 & H5 & H6 & H7 & H8 & H9 & H10 & H11 & H12 & H13 & H14 & H15).
  exists m', tk; split; [ reflexivity | exists p, sg; split; [ exact H11 | exact H14 ] ].
Defined.

Lemma relay_reaches_witness :
  let msg : Message := {| wire := [ 9 ]; toAll := true; dests := []; sender := self_id 0 |} in
  exists urls, relayTSSMessage 1 three (committeePartyIDs (range three) 0) msg (fun _ => true) = (urls, None) /\
    Permutation urls (map_to_list (delete 1 three)).*2.
Proof.
  intros msg; destruct (relay_reaches 1 three 0 msg (fun _ => true) three_ok ltac:(unfold epoch_ok; lia) (fun _ => eq_refl)) as [ B _ ].
  destruct (B eq_refl) as (urls & E & P); exists urls; split; [ exact E | exact P ].
Defined.

Lemma completed_owes_nothing_witness :
  let msg n : Message := {| wire := [ n ]; toAll := true; dests := []; sender := self_id 0 |} in
  (driveKeygen all_posts (mgr s2) (store s2) "key" 0 ((Outgoing <$> [ msg 1 ]) ++ [ End_ outcome [ msg 2 ] ])).1.2
  = concat (fst ∘ relayMessage "key" (obj (mgr s2) 0) all_posts <$> [ msg 1; msg 2 ]).
Proof.
  intros msg; set (r := driveKeygen all_posts (mgr s2) (store s2) "key" 0 ((Outgoing <$> [ msg 1 ]) ++ [ End_ outcome [ msg 2 ] ])).
  refine (proj1 (completed_owes_nothing all_posts (mgr s2) (store s2) "key" 0 (obj (mgr s2) 0) [ msg 1 ] outcome [ msg 2 ]
    r.1.1.1 r.1.1.2 r.1.2 r.2 (obj r.1.1.1 0) _ _ _ _ _)).
  - apply obj_at; by_run.
  - assert (bool_decide (status (obj (mgr s2) 0) <> ceremonyCompleted) = true) as B by by_run; apply bool_decide_eq_true in B; exact B.
  - apply (with_rest r); reflexivity.
  - apply obj_at; by_run.
  - by_run.
Defined.

Definition moved : gmap Z string := {[ 1 := "x"; 2 := "y"; 3 := "z" ]}.

Lemma restore_recovers_key_witness :
  exists m3 w3 q o3, RestoreCeremony (NewTSSPartyManager 1) (store s3) "key" moved = (Ok m3, w3) /\
    keygenOf m3 "key" = Some (q, o3) /\ same_key (obj (mgr s3) 0) o3.
Proof.
  assert (peers (obj (mgr s2) 0) = three) as Ep by by_run.
  assert (selfPartyID (obj (mgr s2) 0) = 1) as Es by by_run.
  destruct (restore_recovers_key (mgr s2) (store s2) "key" 0 (obj (mgr s2) 0) (wrap outcome) (mgr s3) (store s3) (obj (mgr s3) 0)
    (NewTSSPartyManager 1) (store s3) moved) as (m3 & w3 & q & o3 & R & K & _ & S).
  - apply obj_at; by_run.
  - assert (bool_decide (status (obj (mgr s2) 0) <> ceremonyCompleted) = true) as B by by_run; apply bool_decide_eq_true in B; exact B.
  - split; [ by_run | rewrite Ep; split; [ exact three_ok | assert (epoch (obj (mgr s2) 0) = 0) as -> by by_run; unfold epoch_ok; lia ] ].
  - rewrite Ep, Es; exists "a"%string; by_run.
  - intros cc; exact I.
  - apply surjective_pairing.
  - apply obj_at; by_run.
  - by_run.
  - by_run.
  - assert (publicKeyHex (obj (mgr s3) 0) = "0304"%string) as -> by by_run; discriminate.
  - assert (address (obj (mgr s3) 0) = "0304"%string) as -> by by_run; discriminate.
  - by_run.
  - reflexivity.
  - rewrite Ep; by_run.
  - reflexivity.
  - by_run.
  - exists m3, w3, q, o3; split; [ exact R | split; [ exact K | exact S ] ].
Defined.

Definition no_refresh : tssResharingCeremony :=
  {| reStatus := ceremonyPending; reError := None; reSelf := 0; reThreshold := 0; reCurve := ""; rePeers := ∅; oldSorted := [];
     newSorted := []; newEpoch := 0; oldParty := None; newParty := None; sourceCeremonyID := ""; expectedPublicKey := "";
     expectedAddress := ""; reSave := None; reSealed := false |}.
Definition robj (m : TSSPartyManager) (p : nat) : tssResharingCeremony := default no_refresh (resharingObjs m !! p).
Lemma robj_at m p : bool_decide (is_Some (resharingObjs m !! p)) = true -> resharingObjs m !! p = Some (robj m p).
Proof. rewrite bool_decide_eq_true; unfold robj; intros [ o -> ]; done. Qed.

Lemma refresh_completes : completeResharing (mgr s5) (store s5) "refresh" 0 (wrap outcome) = (mgr s6, store s6).
Proof. by_run. Qed.

Lemma refresh_survives_restart_witness :
  exists m3 w3 q o3, RestoreCeremony (NewTSSPartyManager 1) (store s6) "key" moved = (Ok m3, w3) /\
    keygenOf m3 "key" = Some (q, o3) /\ same_key (obj (mgr s6) 0) o3 /\ epoch (obj (mgr s6) 0) = 1.
Proof.
  assert (peers (obj (mgr s5) 0) = three) as Ep by by_run.
  assert (reSelf (robj (mgr s5) 0) = 1) as Es by by_run.
  assert (sourceCeremonyID (robj (mgr s5) 0) = "key"%string) as Ei by by_run.
  assert (newEpoch (robj (mgr s5) 0) = 1) as En by by_run.
  assert (publicKeyHex (obj (mgr s5) 0) = "0304"%string) as Ek by by_run.
  assert (address (obj (mgr s5) 0) = "0304"%string) as Ea by by_run.
  destruct (refresh_survives_restart (mgr s5) (store s5) "refresh" 0 (robj (mgr s5) 0) (wrap outcome) (mgr s6) (store s6) 0
    (obj (mgr s5) 0) (obj (mgr s6) 0) (NewTSSPartyManager 1) (store s6) moved (robj (mgr s6) 0)) as (E1 & _ & m3 & w3 & q & o3 & R & K & _ & S).
  - apply robj_at; by_run.
  - exact refresh_completes.
  - rewrite Ei; by_run.
  - apply obj_at; by_run.
  - apply obj_at; by_run.
  - apply robj_at; by_run.
  - assert (bool_decide (reStatus (robj (mgr s5) 0) <> ceremonyCompleted) = true) as B by by_run; apply bool_decide_eq_true in B; exact B.
  - by_run.
  - by_run.
  - by_run.
  - by_run.
  - by_run.
  - by_run.
  - by_run.
  - rewrite Ep; exact three_ok.
  - rewrite En; unfold epoch_ok; lia.
  - rewrite Ep, Es; exists "a"%string; by_run.
  - intros cc; exact I.
  - rewrite Ek; discriminate.
  - rewrite Ea; discriminate.
  - by_run.
  - rewrite Ei; reflexivity.
  - rewrite Ep; by_run.
  - reflexivity.
  - by_run.
  - rewrite Ei in R, K; exists m3, w3, q, o3; split; [ exact R | split; [ exact K | split; [ exact S | rewrite E1; exact En ] ] ].
Defined.

Lemma second_refresh_fails_witness :
  exists m1 m2 o, StartResharing (mgr s6) "again" "key" three = Ok (m1, RunResharing "again" 1 (wrap outcome)) /\
    runResharing all_start None m1 "again" 1 (wrap outcome) = (m2, None) /\ resharingOf m2 "again" = Some (1%nat, o) /\
    reStatus o = ceremonyFailed.
Proof.
  assert ((fun x => (x.1, epoch x.2, is_ok (ellipticCurve (curve x.2)))) <$> keygenOf (mgr s6) "key" = Some (0%nat, 1, true)) as F by by_run.
  destruct (keygenOf (mgr s6) "key") as [ [ q k ] | ] eqn:K; [ | discriminate F ]; cbn in F; injection F as F1 F2 F3.
  assert (match StartResharing (mgr s6) "again" "key" three with Ok (_, tk) => Some tk | _ => None end = Some (RunResharing "again" 1 (wrap outcome)))
    as T by by_run.
  destruct (StartResharing (mgr s6) "again" "key" three) as [ [ m1 tk ] | e | ] eqn:E; [ | discriminate T .. ]; apply (inj Some) in T; subst tk.
  destruct (second_refresh_fails all_start None (mgr s6) "again" "key" three m1 1 (wrap outcome) q k K) as (m2 & o & R & Ro & St & _).
  - rewrite F2; lia.
  - rewrite F2; unfold epoch_ok; lia.
  - exact three_ok.
  - assert (partyID (mgr s6) = 1) as -> by by_run; unfold node_ok, committeeEpochStride; lia.
  - exact F3.
  - exact E.
  - exists m1, m2, o; split; [ reflexivity | split; [ exact R | split; [ exact Ro | exact St ] ] ].
Defined.

Lemma signature_layout_witness :
  let sd := {| sigR := [ 5 ]; sigS := [ 1; 2 ]; sigRecovery := [ 1 ]; sigEncoded := [] |} in
  exists sig, encodeSignature CurveSecp256k1 sd = Ok sig /\ len sig = 65 /\ be_val (take 32 sig) = 5.
Proof.
  intros sd; destruct (signature_layout CurveSecp256k1 sd) as [ _ S ]; [ discriminate | ].
  destruct S as (sig & E & L & R & _); [ cbn; lia | cbn; lia | ].
  exists sig; split; [ exact E | split; [ exact L | exact R ] ].
Defined.

(** Without that care the key can change under its owner: a second generation
    under the id of a key being refreshed completes, and the refresh then writes
    a share of the first key into it, sealed over the second's. *)
Definition t1 := serve s4 (RKeygen "key" 1 three CurveEd25519 "").
Definition t2 : TSSPartyManager := (runKeygen all_start None (mgr t1) "key" 1 (committeePartyIDs (range three) 0) (self_id 0) 1).1.
Definition t3 := (driveKeygenTurn all_posts t2 (store t1) "key" 1 (End_ (EddsaResult (7, 8)) [])).1.1.
Definition t4 := (driveResharingTurn all_posts t3.1 t3.2 "refresh" 0 (End_ outcome [])).1.1.

Lemma reused_id_corrupts_key :
  option_map (fun x => (status x.2, publicKeyHex x.2, option_map PublicKey (saveData x.2))) (keygenOf t4.1 "key") =
    Some (ceremonyCompleted, "0708"%string, Some (Ok ("0304"%string, "0304"%string))) /\
  option_map (fun x => option_map ShareStore.PublicKeyHex x.2) (ShareStore.holds t4.2 1 "key") = Some (Some "0304"%string).
Proof. split; by_run. Qed.

(** A refresh under way when its key is retired seals a share of it again. *)
Lemma refresh_undoes_retirement :
  let retired := serve (serve s5 (RForget "key")) (RRetire "key") in
  bool_decide (is_Some (ShareStore.holds (store retired) 1 "key")) = false /\
  bool_decide (is_Some (ShareStore.holds (driveResharingTurn all_posts (mgr retired) (store retired) "refresh" 0 (End_ outcome [])).1.1.2 1 "key")) = true.
Proof. split; by_run. Qed.

End Simple.

End PartyManager.
