(* ===== verification/PeerChannel.v ===== *)
(** * The channel between parties

    Models [services/mpc-party/peer_identity.go] (who sent a message),
    [postTSSEnvelope] of [tss_handlers.go] (offering a message to a peer that
    may not be ready) and [preparams.go] (what makes a party slow to become
    ready).

    Time is in nanoseconds.  What a peer answers to a post, how long the post
    takes and how long a sleep lasts are functions of the time it is made;
    the pre-parameters that tss-lib generates are an argument. *)

From Stdlib Require Import ZArith Lia Ascii String Permutation.
From stdpp Require Import base list numbers strings.
From S2P Require Import Prelude GoStrings GoText.

Open Scope Z_scope.

Module PeerChannel.

(** ** Peer identity *)

Inductive PeerErr : Type :=
| NotTls
| NoClientCertificate
| NotPartyName (cn : string)
| NoUsableNumber (cn : string)
| SpeaksAsAnother (actual claimed : Z).

(** [^party-(\d+)(\.|$)]: the digits captured. *)
Definition partyCNPattern (cn : string) : option string :=
  match strip_prefix "party-" cn with
  | None => None
  | Some r =>
      match span_digits r with
      | (EmptyString, _) => None
      | (d, EmptyString) => Some d
      | (d, String c _) => if Ascii.eqb c "." then Some d else None
      end
  end.

Definition partyIDFromCommonName (cn : string) : result PeerErr Z :=
  match partyCNPattern cn with
  | None => Err (NotPartyName cn)
  | Some digits =>
      match parse_int digits with
      | None => Err (NoUsableNumber cn)
      | Some id => if id <=? 0 then Err (NoUsableNumber cn) else Ok id
      end
  end.

Definition peerEnforcementDisabled (getenv : string -> string) : bool :=
  String.eqb (getenv "TSS_ALLOW_UNAUTHENTICATED_PEERS"%string) "1".

(** [tls]: the common names of [r.TLS.PeerCertificates], the leaf first;
    [None] when [r.TLS] is nil. *)
Definition authenticatePeer (getenv : string -> string) (tls : option (list string)) (claimed : Z)
    : result PeerErr unit :=
  if peerEnforcementDisabled getenv then Ok tt
  else
    match tls with
    | None => Err NotTls
    | Some [] => Err NoClientCertificate
    | Some (cn :: _) =>
        let! actual := partyIDFromCommonName cn in
        refuse! negb (actual =? claimed) with SpeaksAsAnother actual claimed;
        Ok tt
    end.

Lemma partyCNPattern_spec cn d :
  partyCNPattern cn = Some d <->
  d <> ""%string /\ all_digits d = true /\
  (cn = "party-" +:+ d \/ exists r, cn = "party-" +:+ d +:+ "." +:+ r).
Proof.
  unfold partyCNPattern; split.
  - destruct (strip_prefix _ cn) as [ t | ] eqn:S; [ | done ]; apply strip_prefix_spec in S as ->.
    destruct (span_digits t) as [ d' r ] eqn:Sp; apply span_digits_spec in Sp as (-> & A & R).
    destruct d' as [ | c d' ]; [ done | ]; destruct r as [ | c' r ].
    + intros [= <-]; split_and!; [ done | done | left; f_equal; apply sapp_nil_r ].
    + destruct (Ascii.eqb_spec c' "."); [ | done ]; intros [= <-]; subst c'.
      split_and!; [ done | done | right; exists r; done ].
  - intros (N & A & [ -> | (r & ->) ]); rewrite strip_prefix_app.
    + rewrite <- (sapp_nil_r d) at 1; rewrite span_digits_app by done; destruct d; done.
    + rewrite span_digits_app by (done || (intros c t [= <- _]; done)); destruct d; done.
Qed.

Lemma authenticatePeer_iff getenv tls claimed :
  peerEnforcementDisabled getenv = false ->
  authenticatePeer getenv tls claimed = Ok tt <->
  exists cn rest, tls = Some (cn :: rest) /\ partyIDFromCommonName cn = Ok claimed.
Proof.
  intros D; unfold authenticatePeer; rewrite D; split.
  - destruct tls as [ [ | cn rest ] | ]; [ done | | done ]; intros E.
    destruct (partyIDFromCommonName cn) as [ n | | ] eqn:P; cbn in E; [ | done | done ].
    pass_guards E; b2p; subst; eauto.
  - intros (cn & rest & -> & ->); cbn; rewrite Z.eqb_refl; done.
Qed.

(** A certificate speaks for one party: the number its common name carries,
    whatever follows the first dot; and the name issued to a party reads back
    as that party.  With enforcement on, a claimed sender is accepted exactly
    when it is that number. *)
Theorem certificate_names_one_party getenv n rest :
  peerEnforcementDisabled getenv = false -> 0 < n < two63 ->
  let cn := "party-" +:+ show_int n +:+ ".internal" in
  partyIDFromCommonName cn = Ok n /\
  forall claimed, authenticatePeer getenv (Some (cn :: rest)) claimed = Ok tt <-> claimed = n.
Proof.
  intros D Hn cn.
  assert (partyIDFromCommonName cn = Ok n) as P.
  { unfold partyIDFromCommonName.
    assert (partyCNPattern cn = Some (show_int n)) as ->.
    { apply partyCNPattern_spec; split_and!; [ | apply show_int_digits; lia | right; exists "internal"%string; done ].
      intros E; pose proof (parse_int_show n ltac:(lia)) as X; rewrite E in X; discriminate X. }
    rewrite parse_int_show by lia; replace (n <=? 0) with false by lia; done. }
  split; [ exact P | ]; intros claimed; rewrite authenticatePeer_iff by done; split.
  - intros (cn' & rest' & E & P'); injection E as <- <-; congruence.
  - intros ->; eauto.
Qed.

(** ** Offering a message *)

Definition second : Z := 1000000000.
Definition millisecond : Z := 1000000.
Definition PeerReadyTimeout : Z := 6 * 60 * second.
Definition retryInterval : Z := 250 * millisecond.
Definition preParamsGenTimeout : Z := 4 * 60 * second.

Inductive PostErr : Type := EnvelopeUnmarshalable | RequestFailed | PeerReturned (code : Z).

Section Posting.
(** The status a post made at a time gets ([None]: the request failed), how
    long it takes, and how long a sleep begun at a time lasts. *)
Variable peer : Z -> option Z.
Variable took : Z -> Z.
Variable slept : Z -> Z.

(** The loop; [None]: out of fuel.  With the result, when it was had. *)
Fixpoint postLoop (fuel : nat) (deadline now : Z) : option (result PostErr unit * Z) :=
  match fuel with
  | O => None
  | S fuel =>
      let back := now + took now in
      match peer now with
      | None => Some (Err RequestFailed, back)
      | Some code =>
          if code =? 200 then Some (Ok tt, back)
          else if (code =? 503) && (back <? deadline) then postLoop fuel deadline (back + slept back)
          else Some (Err (PeerReturned code), back)
      end
  end.

(** One try and one more for every interval before the deadline. *)
Definition postFuel : nat := S (S (Z.to_nat (PeerReadyTimeout / retryInterval))).

(** [body]: the marshalled envelope. *)
Definition postTSSEnvelope (body : option bytes) (now : Z) : option (result PostErr unit * Z) :=
  match body with
  | None => Some (Err EnvelopeUnmarshalable, now)
  | Some _ => postLoop postFuel (now + PeerReadyTimeout) now
  end.

Hypothesis took_nonneg : forall t, 0 <= took t.
Hypothesis slept_enough : forall t, retryInterval <= slept t.

Lemma postLoop_returns fuel deadline now :
  deadline - now <= (Z.of_nat fuel - 1) * retryInterval -> (0 < fuel)%nat ->
  exists r t, postLoop fuel deadline now = Some (r, t).
Proof.
  revert now; induction fuel as [ | fuel IH ]; intros now H Hf; [ lia | ]; cbn [postLoop].
  destruct (peer now) as [ code | ]; [ | eauto ]; destruct (code =? 200); [ eauto | ].
  destruct ((code =? 503) && _) eqn:B; [ | eauto ]; b2p; apply IH.
  - pose proof (took_nonneg now); pose proof (slept_enough (now + took now)).
    unfold retryInterval, millisecond in *; lia.
  - destruct fuel as [ | fuel ]; [ | lia ].
    pose proof (took_nonneg now); lia.
Qed.

(** The retries of a post end, whatever the peer answers. *)
Lemma postTSSEnvelope_returns body now : exists r t, postTSSEnvelope body now = Some (r, t).
Proof.
  destruct body as [ b | ]; cbn [postTSSEnvelope]; [ | eauto ].
  apply postLoop_returns; [ | unfold postFuel; lia ].
  transitivity PeerReadyTimeout; [ lia | vm_compute; discriminate ].
Qed.

(** A peer that becomes ready at [ready] is reached: the loop is still trying
    then, and the first try after it succeeds. *)
Lemma postLoop_reaches longest nap ready fuel deadline now :
  (forall t, took t <= longest) -> (forall t, slept t <= nap) ->
  (forall t, t < ready -> peer t = Some 503) -> (forall t, ready <= t -> peer t = Some 200) ->
  ready + longest < deadline ->
  deadline - now <= (Z.of_nat fuel - 1) * retryInterval -> (0 < fuel)%nat ->
  exists t, postLoop fuel deadline now = Some (Ok tt, t) /\ t <= Z.max now (ready + longest + nap) + longest.
Proof.
  intros Hl Hs H503 H200 Hd; revert now; induction fuel as [ | fuel IH ]; intros now Hm Hf; [ lia | ]; cbn [postLoop].
  pose proof (took_nonneg now) as T0; pose proof (Hl now) as T1.
  destruct (decide (ready <= now)) as [ R | R ].
  { rewrite H200 by done; cbn; eexists; split; [ done | lia ]. }
  rewrite H503 by lia; cbn [Z.eqb andb]; rewrite (proj2 (Z.ltb_lt (now + took now) deadline)) by lia; cbn.
  pose proof (slept_enough (now + took now)) as S0; pose proof (Hs (now + took now)) as S1.
  assert (0 < retryInterval) by done.
  destruct (IH (now + took now + slept (now + took now))) as (t & -> & Ht); [ lia | | ].
  - destruct fuel as [ | fuel ]; [ | lia ]; lia.
  - eexists; split; [ done | lia ].
Qed.
End Posting.

(** ** Pre-parameters *)

Section Pool.
Context {PreParams : Type}.

(** Where the filling goroutine is: not started, searching, or with a set to send. *)
Inductive Filler : Type := Idle | Searching | Sending (pre : PreParams).

Record preParamsPool := { ch : list PreParams; capacity : nat; timeout : Z; filler : Filler }.

Definition newPreParamsPool (size : Z) : preParamsPool :=
  {| ch := []; capacity := Z.to_nat (if size <? 1 then 1 else size); timeout := preParamsGenTimeout; filler := Idle |}.

Definition startPool (getenv : string -> string) (p : preParamsPool) : preParamsPool :=
  if String.eqb (getenv "TSS_PREPARAMS_POOL"%string) "0" then p
  else match filler p with
       | Idle => {| ch := ch p; capacity := capacity p; timeout := timeout p; filler := Searching |}
       | _ => p
       end.

(** A turn of the filling goroutine; [gen] is what [GeneratePreParams] gives
    ([None]: it timed out).  A send waits for room. *)
Definition fill (gen : option PreParams) (p : preParamsPool) : preParamsPool :=
  match filler p with
  | Idle => p
  | Searching =>
      match gen with
      | None => p
      | Some pre => {| ch := ch p; capacity := capacity p; timeout := timeout p; filler := Sending pre |}
      end
  | Sending pre =>
      if bool_decide (length (ch p) < capacity p)%nat
      then {| ch := ch p ++ [ pre ]; capacity := capacity p; timeout := timeout p; filler := Searching |}
      else p
  end.

(** The oldest set that is ready, or one generated on the spot. *)
Definition get (gen : option PreParams) (p : preParamsPool) : option PreParams * preParamsPool :=
  match ch p with
  | pre :: rest => (Some pre, {| ch := rest; capacity := capacity p; timeout := timeout p; filler := filler p |})
  | [] => (gen, p)
  end.

(** What the pool made, and what ceremonies were given. *)
Inductive PoolStep : preParamsPool -> list PreParams -> list PreParams -> preParamsPool -> Prop :=
| pool_start getenv p : PoolStep p [] [] (startPool getenv p)
| pool_search gen p : filler p = Searching -> PoolStep p (option_list gen) [] (fill gen p)
| pool_send gen p pre : filler p = Sending pre -> PoolStep p [] [] (fill gen p)
| pool_get gen p :
    PoolStep p (match ch p with [] => option_list gen | _ => [] end) (option_list (fst (get gen p))) (snd (get gen p)).

(** Runs from a new pool: [made] in the order of making, [given] in the order of giving. *)
Inductive PoolRun (size : Z) : list PreParams -> list PreParams -> preParamsPool -> Prop :=
| run_new : PoolRun size [] [] (newPreParamsPool size)
| run_step made given p made' given' p' :
    PoolRun size made given p -> PoolStep p made' given' p' -> PoolRun size (made ++ made') (given ++ given') p'.

Definition inHand (p : preParamsPool) : list PreParams := match filler p with Sending pre => [ pre ] | _ => [] end.

(** Every set of pre-parameters is given to one ceremony at most: the sets
    given out, those waiting and the one in hand are exactly the sets made.
    The pool never holds more than its capacity. *)
Theorem preparams_given_once size made given p :
  PoolRun size made given p ->
  Permutation made (given ++ ch p ++ inHand p) /\ (length (ch p) <= Z.to_nat (Z.max 1 size))%nat.
Proof.
  intros R; assert (capacity p = Z.to_nat (Z.max 1 size) /\ Permutation made (given ++ ch p ++ inHand p) /\
    (length (ch p) <= capacity p)%nat) as (<- & A & B); [ | done ].
  induction R as [ | made given p made' given' p' R (Ec & IH & L) S ].
  { cbn; split_and!; [ destruct (size <? 1) eqn:E; b2p; f_equal; lia | done | lia ]. }
  destruct S as [ getenv p | gen p F | gen p pre F | gen p ].
  - rewrite !app_nil_r; unfold startPool, inHand in *; destruct (String.eqb _ _); [ done | ].
    destruct (filler p) eqn:F; rewrite ?F; done.
  - unfold fill, inHand in *; rewrite F in *; rewrite !app_nil_r in *; destruct gen as [ pre | ]; cbn.
    + split_and!; [ done | rewrite IH, app_assoc; done | done ].
    + rewrite F, !app_nil_r; done.
  - unfold fill, inHand in *; rewrite F in *; rewrite !app_nil_r; case_bool_decide; cbn.
    + rewrite app_nil_r; split_and!; [ done | done | rewrite length_app; cbn; lia ].
    + rewrite F; done.
  - unfold get; destruct (ch p) as [ | pre rest ] eqn:C; cbn in *.
    + rewrite C; cbn; split_and!; [ done | | lia ].
      rewrite IH, <- !app_assoc; f_equiv; apply Permutation_app_comm.
    + unfold inHand in *; cbn; rewrite app_nil_r, <- app_assoc; split_and!; [ done | exact IH | lia ].
Qed.
End Pool.

(** ** Concrete runs *)

Lemma certificate_names_one_party_witness :
  partyIDFromCommonName "party-11.internal" = Ok 11 /\
  forall claimed, authenticatePeer (fun _ => ""%string) (Some [ "party-11.internal"%string ]) claimed = Ok tt <-> claimed = 11.
Proof.
  apply (certificate_names_one_party (fun _ => ""%string) 11 []); [ reflexivity | unfold two63; lia ].
Defined.

(** A pool of one: a set is made, sent and given, and an empty pool makes one inline. *)
Definition pool0 : preParamsPool (PreParams := Z) := startPool (fun _ => ""%string) (newPreParamsPool 1).
Definition pool1 := fill (Some 7) pool0.
Definition pool2 := fill None pool1.

Lemma preparams_given_once_witness :
  exists p, PoolRun 1 [ 7; 8 ] [ 7; 8 ] p /\ Permutation [ 7; 8 ] ([ 7; 8 ] ++ ch p ++ inHand p).
Proof.
  assert (PoolRun 1 [ 7; 8 ] [ 7; 8 ] (get (Some 8) (get None pool2).2).2) as R.
  { apply (run_step 1 [ 7 ] [ 7 ] (get None pool2).2 [ 8 ] [ 8 ]); [ | exact (pool_get (Some 8) (get None pool2).2) ].
    apply (run_step 1 [ 7 ] [] pool2 [] [ 7 ]); [ | exact (pool_get None pool2) ].
    apply (run_step 1 [ 7 ] [] pool1 [] []); [ | apply (pool_send None pool1 7); reflexivity ].
    apply (run_step 1 [] [] pool0 [ 7 ] []); [ | apply (pool_search (Some 7)); reflexivity ].
    apply (run_step 1 [] [] (newPreParamsPool 1) [] []); [ apply run_new | apply pool_start ]. }
  eexists; split; [ exact R | exact (proj1 (preparams_given_once 1 _ _ _ R)) ].
Defined.

End PeerChannel.
