(* ===== verification/PartyServer.v ===== *)
(** * The party's HTTP server

    Models the handlers of [services/mpc-party/tss_handlers.go] and
    [main.go]: which requests a party serves, what it checks before it acts on
    one, and what it answers.  The ceremonies are those of [PartyManager], the
    second signature is [Authorization]'s, the sender of a message is
    [PeerChannel]'s.

    A handler takes the decoded body ([None]: the JSON decoder failed) and the
    time, and returns the new state of the process with its answer.  A handler
    that panics leaves the connection without an answer, and so does one that
    waits for a mutex left locked. *)

From Stdlib Require Import ZArith Lia Ascii String Permutation.
From stdpp Require Import base list numbers strings gmap.
From S2P Require Import Prelude GoStrings GoText KeyShare ShareStore Committee PartyManager Authorization PeerChannel.

Open Scope Z_scope.

Module PartyServer.
Import KeyShare Committee PartyManager PeerChannel.

(** [range] over a map with string keys. *)
Class StringRange := {
  srange : gmap string string -> list (string * string);
  srange_perm m : Permutation (srange m) (map_to_list m);
}.

(** ** Requests *)

Record tssKeygenStartRequest := {
  kgCeremonyID : string; kgThreshold : Z; kgPeers : gmap string string; kgCurve : string; kgBlockchain : string;
  kgAuthorization : string; kgAuthorizationSignature : string;
}.
Record tssSignStartRequest := {
  snSignID : string; snKeygenCeremonyID : string; snMessageHashHex : string; snCommitteePartyIDs : list Z;
  snAuthorization : string; snAuthorizationSignature : string;
}.
Record tssReshareStartRequest := {
  rqReshareID : string; rqSourceCeremonyID : string; rqPeers : gmap Z string;
  rqAuthorization : string; rqAuthorizationSignature : string;
}.
Record tssRestoreRequest := {
  rtCeremonyID : string; rtPeers : gmap Z string; rtAuthorization : string; rtAuthorizationSignature : string;
}.
Record tssRetireRequest := {
  reCeremonyID : string; reAuthorization : string; reAuthorizationSignature : string;
}.

(** What of an [http.Request] the handlers look at besides body and query. *)
Record HttpRequest := { Method : string; TLS : option (list string) }.

Inductive HandlerErr : Type :=
| MethodNotAllowed
| InvalidRequest
| MissingFields
| InvalidPeerID (id : string)
| HashNotHex
| Refused (e : Authorization.AuthErr)
| ChainUnknown (e : ShareErr)
| CurveMismatch (chain want got : string)
| Unauthenticated (e : PeerErr)
| Manager (e : MgrErr)
| Store (e : ShareStore.StoreErr).

Inductive Body : Type :=
| NoBody
| Error (e : HandlerErr)
| Status (s : string)
| ReshareStarted (id : string)
| KeygenReport (r : KeygenStatusResult)
| SigningReport (r : SigningStatusResult)
| ResharingReport (r : ResharingStatusResult)
| Retired (id : string) (party : Z) (heldInMemory sealedDestroyed : bool)
| Health (partyId : string)
| Info (partyId : Z) (counts : option (nat * nat)).

(** [writeJSON], or nothing: the handler panicked, or waits for ever. *)
Inductive Answer : Type := Answered (code : Z) (b : Body) | Dropped | Hung.

(** ** Handlers *)

Section Server.
Context `{ShareCrypto, TssIds, !TssMessages, !TssSaves, GoRange, StringRange} {W : Type} `{!ShareStore.Keeper W}.
Context (K : Type) (ed25519Verify : bytes -> bytes -> bytes -> bool) (sha256 : bytes -> bytes)
  (verifyASN1 : K -> bytes -> bytes -> bool) (unmarshal : string -> option Authorization.AuthorizationRequest).
Variable getenv : string -> string.

Abbreviation require := (Authorization.requireAuthorization K ed25519Verify sha256 verifyASN1 unmarshal).
Abbreviation State := (System (W := W)).

Record PartyServer := { psPartyID : Z; authorizer : option (Authorization.Authorizer K) }.

(** [NewPartyServer]: an authoriser that is configured and unusable ends the process. *)
Definition NewPartyServer (parsePKIX : bytes -> option (Authorization.ParsedPublic K)) (id : Z)
    : result Authorization.AuthErr PartyServer :=
  let! a := Authorization.AuthorizerFromEnv K parsePKIX getenv in
  Ok {| psPartyID := id; authorizer := a |}.

(** A refusal leaves the state as it was. *)
Definition answer (s : State) (r : result (Z * HandlerErr) (State * Answer)) : State * Answer :=
  match r with
  | Ok sa => sa
  | Err (code, e) => (s, Answered code (Error e))
  | Panic => (s, Dropped)
  end.

Definition decoded {A} (body : option A) : result (Z * HandlerErr) A :=
  match body with Some b => Ok b | None => Err (400, InvalidRequest) end.

Definition hangs (b : bool) (s : State) (r : result (Z * HandlerErr) (State * Answer)) : result (Z * HandlerErr) (State * Answer) :=
  if b then Ok (s, Hung) else r.

Definition requirePost (r : HttpRequest) : result (Z * HandlerErr) unit :=
  refuse! negb (String.eqb (Method r) "POST") with (405, MethodNotAllowed);
  Ok tt.

Definition authorisedFor (ps : PartyServer) (now : Z) (op id hash auth sig : string) : result (Z * HandlerErr) unit :=
  map_err (fun e => (403, Refused e)) (require (authorizer ps) now op id hash auth sig).

(** The peers of a key generation, by number; a later entry of the range
    overrides an earlier one that reads as the same number. *)
Fixpoint readPeers (entries : list (string * string)) (peers : gmap Z string) : result (Z * HandlerErr) (gmap Z string) :=
  match entries with
  | [] => Ok peers
  | (idStr, url) :: entries =>
      match sscanf_int idStr with
      | None => Err (400, InvalidPeerID idStr)
      | Some id => readPeers entries (<[ id := url ]> peers)
      end
  end.

Definition checkChainCurve (chain c : string) : result (Z * HandlerErr) unit :=
  if String.eqb chain "" then Ok tt
  else
    let! want := map_err (fun e => (400, ChainUnknown e)) (CurveForChain chain) in
    refuse! negb (String.eqb c "") && negb (String.eqb c want) with (400, CurveMismatch chain want c);
    Ok tt.

Definition HandleTSSKeygenStart (ps : PartyServer) (s : State) (r : HttpRequest) (now : Z)
    (body : option tssKeygenStartRequest) : State * Answer :=
  answer s (
    let! _ := requirePost r in
    let! req := decoded body in
    refuse! String.eqb (kgCeremonyID req) "" || (kgThreshold req <=? 0) || bool_decide (size (kgPeers req) = 0%nat)
      with (400, MissingFields);
    let! peers := readPeers (srange (kgPeers req)) ∅ in
    let curve := if String.eqb (kgCurve req) "" then CurveSecp256k1 else kgCurve req in
    let! _ := authorisedFor ps now "keygen" (kgCeremonyID req) "" (kgAuthorization req) (kgAuthorizationSignature req) in
    let! _ := checkChainCurve (kgBlockchain req) (kgCurve req) in
    let! started := map_err (fun e => (500, Manager e))
      (if String.eqb (kgBlockchain req) "" then StartKeygen (mgr s) (kgCeremonyID req) (kgThreshold req) peers curve
       else StartKeygenForChain (mgr s) (kgCeremonyID req) (kgThreshold req) peers (kgBlockchain req)) in
    hangs (frozen s) s (Ok (spawn s (Ok started), Answered 202 (Status "started")))).

(** The sender is whoever the certificate names; a ceremony that is not ready
    is the one error worth retrying. *)
Definition takeMessage {Env} (s : State) (r : HttpRequest) (body : option Env) (from : Env -> Z)
    (locked : Env -> bool) (handle : Env -> result MgrErr unit) : State * Answer :=
  answer s (
    let! _ := requirePost r in
    let! env := decoded body in
    let! _ := map_err (fun e => (403, Unauthenticated e)) (authenticatePeer getenv (TLS r) (from env)) in
    hangs (locked env) s (
      let! _ := map_err (fun e => (match e with NotReady => 503 | _ => 500 end, Manager e)) (handle env) in
      Ok (s, Answered 200 (Status "accepted")))).

Definition HandleTSSKeygenMessage (updates : Party -> bytes -> PartyID -> bool -> bool) (s : State) (r : HttpRequest)
    (body : option tssMessageEnvelope) : State * Answer :=
  takeMessage s r body FromPartyID (fun env => frozen s || ceremonyHeld s (CeremonyID env)) (HandleIncomingMessage updates (mgr s)).

Definition HandleTSSKeygenStatus (s : State) (ceremonyID : string) : State * Answer :=
  answer s (
    refuse! String.eqb ceremonyID "" with (400, MissingFields);
    hangs (frozen s || ceremonyHeld s ceremonyID) s (
      let! st := map_err (fun e => (404, Manager e)) (GetStatus (mgr s) ceremonyID) in
      Ok (s, Answered 200 (KeygenReport st)))).

Definition HandleTSSSignStart (ps : PartyServer) (s : State) (r : HttpRequest) (now : Z)
    (body : option tssSignStartRequest) : State * Answer :=
  answer s (
    let! _ := requirePost r in
    let! req := decoded body in
    refuse! String.eqb (snSignID req) "" || String.eqb (snKeygenCeremonyID req) "" || (len (snCommitteePartyIDs req) =? 0)
      with (400, MissingFields);
    match hex_decode (snMessageHashHex req) with
    | None => Err (400, HashNotHex)
    | Some hash =>
        let! _ := authorisedFor ps now "sign" (snSignID req) (snMessageHashHex req) (snAuthorization req)
                    (snAuthorizationSignature req) in
        let call := RSigning (snSignID req) (snKeygenCeremonyID req) hash (snCommitteePartyIDs req) in
        hangs (waits s call) s
          match StartSigning (mgr s) (snSignID req) (snKeygenCeremonyID req) hash (snCommitteePartyIDs req) with
          | Ok started => Ok (spawn s (Ok started), Answered 202 (Status "started"))
          | Err e => Ok (hold (keepsLocked s call) s, Answered 500 (Error (Manager e)))
          | Panic => Panic
          end
    end).

Definition HandleTSSSignMessage (updates : Party -> bytes -> PartyID -> bool -> bool) (s : State) (r : HttpRequest)
    (body : option tssSignMessageEnvelope) : State * Answer :=
  takeMessage s r body sgnFrom (fun _ => false) (HandleIncomingSignMessage updates (mgr s)).

Definition HandleTSSSignStatus (s : State) (signID : string) : State * Answer :=
  answer s (
    refuse! String.eqb signID "" with (400, MissingFields);
    let! st := map_err (fun e => (404, Manager e)) (GetSigningStatus (mgr s) signID) in
    Ok (s, Answered 200 (SigningReport st))).

Definition HandleTSSReshareStart (ps : PartyServer) (s : State) (r : HttpRequest) (now : Z)
    (body : option tssReshareStartRequest) : State * Answer :=
  answer s (
    let! _ := requirePost r in
    let! req := decoded body in
    refuse! String.eqb (rqReshareID req) "" || String.eqb (rqSourceCeremonyID req) "" with (400, MissingFields);
    let! _ := authorisedFor ps now "reshare" (rqReshareID req) "" (rqAuthorization req) (rqAuthorizationSignature req) in
    hangs (waits s (RResharing (rqReshareID req) (rqSourceCeremonyID req) (rqPeers req))) s (
      let! started := map_err (fun e => (400, Manager e))
        (StartResharing (mgr s) (rqReshareID req) (rqSourceCeremonyID req) (rqPeers req)) in
      Ok (spawn s (Ok started), Answered 202 (ReshareStarted (rqReshareID req))))).

Definition HandleTSSReshareMessage (updates : Party -> bytes -> PartyID -> bool -> bool) (s : State) (r : HttpRequest)
    (body : option tssReshareMessageEnvelope) : State * Answer :=
  takeMessage s r body rsFrom (fun _ => frozen s) (HandleIncomingReshareMessage updates (mgr s)).

Definition HandleTSSReshareStatus (s : State) (reshareID : string) : State * Answer :=
  answer s (
    hangs (frozen s) s (
      let! st := map_err (fun e => (404, Manager e)) (GetResharingStatus (mgr s) reshareID) in
      Ok (s, Answered 200 (ResharingReport st)))).

Definition HandleTSSRestore (ps : PartyServer) (s : State) (r : HttpRequest) (now : Z)
    (body : option tssRestoreRequest) : State * Answer :=
  answer s (
    let! _ := requirePost r in
    let! req := decoded body in
    let! _ := authorisedFor ps now "restore" (rtCeremonyID req) "" (rtAuthorization req) (rtAuthorizationSignature req) in
    hangs (frozen s) s
    match RestoreCeremony (mgr s) (store s) (rtCeremonyID req) (rtPeers req) with
    | (Err e, w) => Ok (withStore s (mgr s) w, Answered 400 (Error (Manager e)))
    | (Panic, w) => Ok (withStore s (mgr s) w, Dropped)
    | (Ok m, w) =>
        match GetStatus m (rtCeremonyID req) with
        | Err e => Ok (withStore s m w, Answered 500 (Error (Manager e)))
        | Panic => Ok (withStore s m w, Dropped)
        | Ok st => Ok (withStore s m w, Answered 200 (KeygenReport st))
        end
    end).

(** The share is forgotten before its seal is destroyed, and stays forgotten
    when that fails. *)
Definition HandleTSSRetire (ps : PartyServer) (s : State) (now : Z) (body : option tssRetireRequest) : State * Answer :=
  answer s (
    let! req := decoded body in
    refuse! String.eqb (reCeremonyID req) "" with (400, InvalidRequest);
    let! _ := authorisedFor ps now "retire" (reCeremonyID req) "" (reAuthorization req) (reAuthorizationSignature req) in
    if waits s (RForget (reCeremonyID req)) then Ok (freeze s, Hung) else
    let '(m, inMemory) := Forget (mgr s) (reCeremonyID req) in
    match ShareStore.kretire (psPartyID ps) (reCeremonyID req) (store s) with
    | (Err e, w) => Ok (withStore s m w, Answered 502 (Error (Store e)))
    | (Panic, w) => Ok (withStore s m w, Dropped)
    | (Ok destroyed, w) => Ok (withStore s m w, Answered 200 (Retired (reCeremonyID req) (psPartyID ps) inMemory destroyed))
    end).

Definition HandleHealth (ps : PartyServer) : Answer := Answered 200 (Health (show_int (psPartyID ps))).

(** [tssManager] is nil until [main] sets it. *)
Definition HandleInfo (ps : PartyServer) (tssManager : option State) : Answer :=
  if default false (frozen <$> tssManager) then Hung
  else Answered 200 (Info (psPartyID ps) ((fun s => CeremonyCounts (mgr s)) <$> tssManager)).

(** ** Routes *)

(** The endpoints [main] registers, with what each handler reads. *)
Inductive Call : Type :=
| KeygenStart (body : option tssKeygenStartRequest)
| KeygenMessage (body : option tssMessageEnvelope)
| KeygenRestore (body : option tssRestoreRequest)
| SharesRetire (body : option tssRetireRequest)
| ReshareStart (body : option tssReshareStartRequest)
| ReshareMessage (body : option tssReshareMessageEnvelope)
| ReshareStatus (reshareID : string)
| KeygenStatus (ceremonyID : string)
| SignStart (body : option tssSignStartRequest)
| SignMessage (body : option tssSignMessageEnvelope)
| SignStatus (signID : string)
| GetHealth
| GetInfo.

(** The method each is registered for. *)
Definition routeMethod (c : Call) : string :=
  match c with
  | ReshareStatus _ | KeygenStatus _ | SignStatus _ | GetHealth | GetInfo => "GET"
  | _ => "POST"
  end.

Definition handle (ps : PartyServer) (updates : Party -> bytes -> PartyID -> bool -> bool) (s : State) (r : HttpRequest)
    (now : Z) (c : Call) : State * Answer :=
  if negb (String.eqb (Method r) (routeMethod c)) then (s, Answered 405 NoBody)
  else
    match c with
    | KeygenStart b => HandleTSSKeygenStart ps s r now b
    | KeygenMessage b => HandleTSSKeygenMessage updates s r b
    | KeygenRestore b => HandleTSSRestore ps s r now b
    | SharesRetire b => HandleTSSRetire ps s now b
    | ReshareStart b => HandleTSSReshareStart ps s r now b
    | ReshareMessage b => HandleTSSReshareMessage updates s r b
    | ReshareStatus id => HandleTSSReshareStatus s id
    | KeygenStatus id => HandleTSSKeygenStatus s id
    | SignStart b => HandleTSSSignStart ps s r now b
    | SignMessage b => HandleTSSSignMessage updates s r b
    | SignStatus id => HandleTSSSignStatus s id
    | GetHealth => (s, HandleHealth ps)
    | GetInfo => (s, HandleInfo ps (Some s))
    end.

(** ** Facts *)

(** *** What a call is granted *)

(** The operation, ceremony, message, authorisation and signature a call presents. *)
Definition credentials (c : Call) : option (string * string * string * string * string) :=
  match c with
  | KeygenStart (Some q) => Some ("keygen", kgCeremonyID q, "", kgAuthorization q, kgAuthorizationSignature q)%string
  | SignStart (Some q) => Some ("sign", snSignID q, snMessageHashHex q, snAuthorization q, snAuthorizationSignature q)%string
  | ReshareStart (Some q) => Some ("reshare", rqReshareID q, "", rqAuthorization q, rqAuthorizationSignature q)%string
  | KeygenRestore (Some q) => Some ("restore", rtCeremonyID q, "", rtAuthorization q, rtAuthorizationSignature q)%string
  | SharesRetire (Some q) => Some ("retire", reCeremonyID q, "", reAuthorization q, reAuthorizationSignature q)%string
  | _ => None
  end.

Definition granted (ps : PartyServer) (now : Z) (c : Call) : Prop :=
  exists op id hash auth sig, credentials c = Some (op, id, hash, auth, sig) /\
    require (authorizer ps) now op id hash auth sig = Ok tt.

(** The curve of the key that is asked for: the chain's, or the one named, or
    secp256k1. *)
Definition curveAsked (q : tssKeygenStartRequest) (c : Curve) : Prop :=
  if String.eqb (kgBlockchain q) "" then c = (if String.eqb (kgCurve q) "" then CurveSecp256k1 else kgCurve q)
  else CurveForChain (kgBlockchain q) = Ok c /\ (kgCurve q = ""%string \/ kgCurve q = c).

(** What a granted call does to the state. *)
Inductive effect (ps : PartyServer) (s : State) : Call -> State -> Prop :=
| effect_keygen q peers c st :
    readPeers (srange (kgPeers q)) ∅ = Ok peers -> curveAsked q c ->
    startKeygen (mgr s) (kgCeremonyID q) (kgThreshold q) peers c (kgBlockchain q) = Ok st ->
    effect ps s (KeygenStart (Some q)) (spawn s (Ok st))
| effect_sign q hash st :
    hex_decode (snMessageHashHex q) = Some hash ->
    StartSigning (mgr s) (snSignID q) (snKeygenCeremonyID q) hash (snCommitteePartyIDs q) = Ok st ->
    effect ps s (SignStart (Some q)) (spawn s (Ok st))
| effect_sign_refused q hash e :
    hex_decode (snMessageHashHex q) = Some hash ->
    StartSigning (mgr s) (snSignID q) (snKeygenCeremonyID q) hash (snCommitteePartyIDs q) = Err e ->
    effect ps s (SignStart (Some q))
      (hold (keepsLocked s (RSigning (snSignID q) (snKeygenCeremonyID q) hash (snCommitteePartyIDs q))) s)
| effect_reshare q st :
    StartResharing (mgr s) (rqReshareID q) (rqSourceCeremonyID q) (rqPeers q) = Ok st ->
    effect ps s (ReshareStart (Some q)) (spawn s (Ok st))
| effect_restore q r w :
    RestoreCeremony (mgr s) (store s) (rtCeremonyID q) (rtPeers q) = (r, w) ->
    effect ps s (KeygenRestore (Some q)) (withStore s (match r with Ok m => m | _ => mgr s end) w)
| effect_retire q :
    effect ps s (SharesRetire (Some q))
      (withStore s (fst (Forget (mgr s) (reCeremonyID q)))
         (snd (ShareStore.kretire (psPartyID ps) (reCeremonyID q) (store s))))
| effect_retire_hung q :
    waits s (RForget (reCeremonyID q)) = true -> effect ps s (SharesRetire (Some q)) (freeze s).

Lemma answer_inv s r s' a :
  answer s r = (s', a) -> s' = s \/ r = Ok (s', a).
Proof. destruct r as [ x | [ c e ] | ]; cbn; intros E; [ subst; auto | injection E as <- _; auto .. ]. Qed.

Lemma authorisedFor_ok ps now op id hash auth sig u :
  authorisedFor ps now op id hash auth sig = Ok u -> require (authorizer ps) now op id hash auth sig = Ok tt.
Proof. unfold authorisedFor; destruct (require _ _ _ _ _ _ _) as [ [] | | ]; done. Qed.

Lemma hangs_inv b s r x : hangs b s r = Ok x -> fst x = s \/ r = Ok x.
Proof. unfold hangs; destruct b; [ intros [= <-]; auto | auto ]. Qed.

Lemma takeMessage_state {Env} s r (body : option Env) from locked h : fst (takeMessage s r body from locked h) = s.
Proof.
  unfold takeMessage; destruct (answer s _) as [ s' a ] eqn:E; apply answer_inv in E as [ -> | E ]; [ done | ].
  inv_ok; match goal with X : hangs _ _ _ = Ok _ |- _ => apply hangs_inv in X as [ X | X ] end; [ done | inv_ok; congruence ].
Qed.

Ltac by_grant :=
  match goal with H : authorisedFor _ _ _ _ _ _ _ = Ok _ |- _ => apply authorisedFor_ok in H end;
  eexists _, _, _, _, _; eauto.

Ltac past_locks :=
  match goal with X : hangs _ _ _ = Ok _ |- _ => apply hangs_inv in X as [ X | X ]; [ left; exact X | inv_ok ] end.

Lemma chain_curve q c u :
  kgBlockchain q <> ""%string -> checkChainCurve (kgBlockchain q) (kgCurve q) = Ok u -> CurveForChain (kgBlockchain q) = Ok c -> curveAsked q c.
Proof.
  unfold checkChainCurve, curveAsked; intros N; rewrite (proj2 (String.eqb_neq _ _) N); intros X C; rewrite C in X; cbn in X.
  split; [ done | ]; destruct (String.eqb_spec (kgCurve q) ""); [ by left | ].
  destruct (String.eqb_spec (kgCurve q) c); [ by right | discriminate X ].
Qed.

Lemma handle_effect ps updates s r now c s' a :
  handle ps updates s r now c = (s', a) -> s' = s \/ (granted ps now c /\ effect ps s c s').
Proof.
  unfold handle; destruct (negb _); [ intros [= <- <-]; auto | ].
  assert (forall x, x = (s', a) -> fst x = s -> s' = s \/ (granted ps now c /\ effect ps s c s')) as Q
    by (intros x -> X; left; exact X).
  destruct c as [ b | b | b | b | b | b | id | id | b | b | id | | ].
  2,6,10: intros E; eapply Q; [ exact E | apply takeMessage_state ].
  all: try (intros [= <- <-]; auto; fail).
  all: intros E; apply answer_inv in E as [ -> | E ]; [ auto | ]; unfold decoded, requirePost in E.
  - destruct b as [ q | ]; inv_ok; past_locks; right; split; [ by_grant | ].
    destruct (String.eqb_spec (kgBlockchain q) "") as [ E0 | E0 ].
    + eapply effect_keygen; [ eauto | | unfold StartKeygen in *; rewrite E0; eauto ]; unfold curveAsked; rewrite E0; done.
    + unfold StartKeygenForChain in *; inv_ok; eapply effect_keygen; eauto; eapply chain_curve; eauto.
  - destruct b as [ q | ]; inv_ok; past_locks; right; split; [ by_grant | ].
    destruct (RestoreCeremony _ _ _ _) as [ [ m | e | ] w ] eqn:R; [ destruct (GetStatus _ _) | .. ]; inv_ok;
      exact (effect_restore ps s q _ _ R).
  - destruct b as [ q | ]; inv_ok; right; split; [ by_grant | ].
    destruct (frozen s || _) eqn:L; [ inv_ok; apply effect_retire_hung, L | ].
    pose proof (effect_retire ps s q) as X; destruct (Forget _ _) as [ m held ], (ShareStore.kretire _ _ _) as [ [ ? | ? | ] w ];
      inv_ok; exact X.
  - destruct b as [ q | ]; inv_ok; past_locks; right; split; [ by_grant | ].
    apply effect_reshare; done.
  - past_locks; auto.
  - inv_ok; past_locks; auto.
  - destruct b as [ q | ]; inv_ok; destruct (hex_decode _) as [ hash | ] eqn:Hx; inv_ok; past_locks.
    right; split; [ by_grant | ]; pose proof (fun e => effect_sign_refused ps s q hash e Hx) as X; unfold keepsLocked in X.
    destruct (StartSigning _ _ _ _ _) as [ st | e | ] eqn:St; inv_ok; [ eapply effect_sign; eauto | exact (X _ eq_refl) ].
  - inv_ok; auto.
Qed.

Abbreviation authorised := (Authorization.authorised K ed25519Verify sha256 verifyASN1 unmarshal).

(** C9.  What a call does to a party is the operation it names, and nothing else
    changes what the party holds, in memory or sealed.  At a party with an
    authoriser such a call carries an authorisation for that very operation and
    ceremony (and message, for a signing) that is fresh and verifies; a party
    without one asks for none. *)
Theorem changes_need_authority ps updates s r now c s' ans :
  handle ps updates s r now c = (s', ans) -> s' <> s ->
  effect ps s c s' /\
  exists op id hash auth sig, credentials c = Some (op, id, hash, auth, sig) /\
    forall a, authorizer ps = Some a -> exists req sg, authorised a now op id hash auth sig req sg.
Proof.
  intros E N; apply handle_effect in E as [ -> | [ (op & id & hash & auth & sig & C & R) X ] ]; [ done | ]; split; [ exact X | ].
  exists op, id, hash, auth, sig; split; [ exact C | ]; intros a Ha; rewrite Ha in R; apply Authorization.require_iff in R; exact R.
Qed.

(** *** Runs *)

(** What a party was asked, the last first, and the state it came to: calls
    interleaved with the turns of its goroutines. *)
Inductive run (ps : PartyServer) (w : W) : list (Z * Call) -> State -> Prop :=
| run_start : run ps w [] (start (psPartyID ps) w)
| run_call updates r now c h s s' ans :
    run ps w h s -> handle ps updates s r now c = (s', ans) -> run ps w ((now, c) :: h) s'
| run_turn h s s' : run ps w h s -> step (fun _ _ => False) s s' -> run ps w h s'.

(** A signing of these bytes was asked for and granted. *)
Definition sanctioned (ps : PartyServer) (h : list (Z * Call)) (hash : bytes) : Prop :=
  exists now q, (now, SignStart (Some q)) ∈ h /\ hex_decode (snMessageHashHex q) = Some hash /\ hash <> [] /\
    require (authorizer ps) now "sign" (snSignID q) (snMessageHashHex q) (snAuthorization q) (snAuthorizationSignature q) = Ok tt.

(** What tss-lib is to sign is a number [n].  On secp256k1 it signs the digest
    of 32 bytes that [n] is; on Ed25519 it signs [n.Bytes()], which are the bytes
    asked for without the zero bytes they begin with. *)
Definition signs (party : Party) (hash : bytes) : Prop :=
  (exists n params save, party = EcdsaSigning n params save /\ @fill_bytes unit 32 n = Ok hash) \/
  (exists n params save k, party = EddsaSigning n params save /\ hash = replicate k 0 ++ big_bytes n).

(** A session that signs, or has signed, signs sanctioned bytes. *)
Definition session_ok (ps : PartyServer) (h : list (Z * Call)) (o : tssSigningCeremony) : Prop :=
  sgParty o <> None \/ sgStatus o = ceremonyCompleted ->
  exists party hash, sgParty o = Some party /\ signs party hash /\ sanctioned ps h hash.

Definition task_ok (ps : PartyServer) (h : list (Z * Call)) (m : TSSPartyManager) (t : Task) : Prop :=
  match t with
  | RunSigning _ p _ _ _ share hash => is_Some (signingObjs m !! p) /\ sanctioned ps h hash /\ (Curve_ share = CurveSecp256k1 -> len hash = 32)
  | DriveSigning _ p => exists o, signingObjs m !! p = Some o /\ sgParty o <> None
  | _ => True
  end.

Record sessions_ok (ps : PartyServer) (h : list (Z * Call)) (m : TSSPartyManager) (ts : list Task) : Prop := {
  ok_session p o : signingObjs m !! p = Some o -> session_ok ps h o;
  ok_tasks : Forall (task_ok ps h m) ts;
}.

(** A step that leaves the sessions as they are, or only marks them failed. *)
Definition sessions_kept (m m' : TSSPartyManager) : Prop :=
  length (signingObjs m') = length (signingObjs m) /\
  forall p o', signingObjs m' !! p = Some o' -> exists o, signingObjs m !! p = Some o /\ sgParty o' = sgParty o /\
    (sgStatus o' = ceremonyCompleted -> sgStatus o = ceremonyCompleted).

Lemma kept_same m m' : signingObjs m' = signingObjs m -> sessions_kept m m'.
Proof. intros E; split; [ congruence | rewrite E; eauto ]. Qed.

Lemma kept_on m p g :
  (forall o, sgParty (g o) = sgParty o /\ (sgStatus (g o) = ceremonyCompleted -> sgStatus o = ceremonyCompleted)) ->
  sessions_kept m (onSigning p g m).
Proof.
  intros G; split; cbn; [ apply length_alter | ]; intros q o' L; destruct (decide (p = q)) as [ <- | N ].
  - rewrite list_lookup_alter_eq in L; destruct (signingObjs m !! p) as [ o | ]; [ | done ]; injection L as <-; eauto.
  - rewrite list_lookup_alter_ne in L by done; eauto.
Qed.

Lemma kept_failSigning m id e : sessions_kept m (failSigning m id e).
Proof. unfold failSigning; destruct (signings m !! id); [ apply kept_on | apply kept_same ]; done. Qed.

Lemma kept_fail m id e : signingObjs (failCeremony m id e) = signingObjs m.
Proof. unfold failCeremony; destruct (_ !! _); done. Qed.
Lemma kept_failResharing m id e : signingObjs (failResharing m id e) = signingObjs m.
Proof. unfold failResharing; destruct (_ !! _); done. Qed.

Lemma sanctioned_more ps h now c hash : sanctioned ps h hash -> sanctioned ps ((now, c) :: h) hash.
Proof. intros (n & q & I & R); exists n, q; split; [ right; exact I | exact R ]. Qed.

Lemma sanctioned_bytes ps h hash : sanctioned ps h hash -> bytes_ok hash.
Proof. intros (now & q & _ & X & _); apply hex_decode_spec in X as [ B _ ]; exact B. Qed.

Lemma session_more ps h now c o : session_ok ps h o -> session_ok ps ((now, c) :: h) o.
Proof. intros S X; destruct (S X) as (party & hash & E & G & Z); eauto 8 using sanctioned_more. Qed.

Lemma task_kept ps h m m' t :
  length (signingObjs m') = length (signingObjs m) ->
  (forall p o, signingObjs m !! p = Some o -> sgParty o <> None -> exists o', signingObjs m' !! p = Some o' /\ sgParty o' <> None) ->
  task_ok ps h m t -> task_ok ps h m' t.
Proof.
  intros L P; destruct t; cbn; try done.
  - intros [ [ o E ] S ]; split; [ | done ]; apply lookup_lt_is_Some; rewrite L; eapply lookup_lt_Some, E.
  - intros (o & E & N); eauto.
Qed.

Lemma kept_parties m m' p o : sessions_kept m m' ->
  signingObjs m !! p = Some o -> sgParty o <> None -> exists o', signingObjs m' !! p = Some o' /\ sgParty o' <> None.
Proof.
  intros [ L B ] E N; destruct (lookup_lt_is_Some_2 (signingObjs m') p) as [ o' E' ]; [ rewrite L; eapply lookup_lt_Some, E | ].
  destruct (B _ _ E') as (o0 & E0 & P & _); exists o'; split; [ done | congruence ].
Qed.

Lemma sessions_ok_kept ps h m m' ts ts' :
  sessions_ok ps h m ts -> sessions_kept m m' -> (forall t, t ∈ ts' -> task_ok ps h m t) -> sessions_ok ps h m' ts'.
Proof.
  intros [ S T ] Kp Hts; split.
  - intros p o' E'; destruct (proj2 Kp _ _ E') as (o & E & P & C); intros X; rewrite P.
    apply (S p o E); destruct X as [ X | X ]; [ left; congruence | auto ].
  - apply Forall_forall; intros t Ht; eapply task_kept; [ apply Kp | | apply Hts, Ht ].
    intros; eapply kept_parties; eauto.
Qed.


(** Key generations and refreshes leave the sessions alone. *)
Ltac same_sessions :=
  repeat match goal with
  | H : (_, _) = (_, _) |- _ => injection H as ?; subst
  | H : (let '(_, _) := ?x in _) = _ |- _ => destruct x eqn:?
  | H : match ?x with _ => _ end = _ |- _ => destruct x eqn:?
  end; rewrite ?kept_fail, ?kept_failResharing; try done.

Lemma runKeygen_sessions starts pre m id p sorted self t m' tk :
  runKeygen starts pre m id p sorted self t = (m', tk) -> signingObjs m' = signingObjs m.
Proof. unfold runKeygen, startLocalParty; intros E; same_sessions. Qed.

Lemma driveKeygenTurn_sessions post m (w : W) id p ev m' w' ps go :
  driveKeygenTurn post m w id p ev = (m', w', ps, go) -> signingObjs m' = signingObjs m.
Proof. unfold driveKeygenTurn, completeCeremony; intros E; same_sessions. Qed.

Lemma runResharing_sessions starts pre m id p share m' tk :
  runResharing starts pre m id p share = (m', tk) -> signingObjs m' = signingObjs m.
Proof. unfold runResharing, startResharingParties; intros E; same_sessions. Qed.

Lemma completeResharing_sessions m (w : W) id p share m' w' :
  completeResharing m w id p share = (m', w') -> signingObjs m' = signingObjs m.
Proof. unfold completeResharing; intros E; same_sessions. Qed.

Lemma driveResharingTurn_sessions post m (w : W) id p ev m' w' ds go :
  driveResharingTurn post m w id p ev = (m', w', ds, go) -> signingObjs m' = signingObjs m.
Proof.
  unfold driveResharingTurn; intros E; same_sessions.
  eapply completeResharing_sessions; eauto.
Qed.

(** A task that is no signing's. *)
Definition quiet (t : Task) : Prop := match t with RunSigning _ _ _ _ _ _ _ | DriveSigning _ _ => False | _ => True end.
Lemma quiet_ok ps h m t : quiet t -> task_ok ps h m t.
Proof. destruct t; done. Qed.

Lemma runKeygen_quiet starts pre m id p sorted self t m' tk :
  runKeygen starts pre m id p sorted self t = (m', tk) -> Forall quiet (option_list tk).
Proof. unfold runKeygen, startLocalParty; intros E; same_sessions; repeat constructor. Qed.

Lemma runResharing_quiet starts pre m id p share m' tk :
  runResharing starts pre m id p share = (m', tk) -> Forall quiet (option_list tk).
Proof. unfold runResharing, startResharingParties; intros E; same_sessions; repeat constructor. Qed.

Lemma selfDeliveries_quiet ds : Forall quiet (selfDeliveries ds).
Proof.
  unfold selfDeliveries; induction ds as [ | d ds IH ]; cbn; [ constructor | ].
  apply Forall_app; split; [ destruct d; repeat constructor | exact IH ].
Qed.

Lemma again_quiet go t : quiet t -> Forall quiet (again go t).
Proof. intros Q; destruct go; repeat constructor; done. Qed.

Lemma quiet_step ps h m m' l ts r t :
  sessions_ok ps h m (l ++ t :: r) -> signingObjs m' = signingObjs m -> Forall quiet ts ->
  sessions_ok ps h m' (l ++ ts ++ r).
Proof.
  intros Ok_ E Q; eapply sessions_ok_kept; [ exact Ok_ | apply kept_same, E | ].
  pose proof (ok_tasks _ _ _ _ Ok_) as T; apply Forall_app in T as [ Tl Tr ]; apply Forall_cons in Tr as [ _ Tr ].
  intros x Hx; rewrite !elem_of_app in Hx; rewrite Forall_forall in Tl, Tr, Q; destruct Hx as [ | [ | ] ]; auto using quiet_ok.
Qed.

(** The bytes of a number, and the zeros before them. *)
Lemma leading_zeros b : bytes_ok b -> exists k, b = replicate k 0 ++ big_bytes (be_val b).
Proof.
  induction 1 as [ | x b Hx Hb [ k IH ] ]; [ exists 0%nat; done | ]; destruct (Z.eq_dec x 0) as [ -> | N ].
  - exists (S k); rewrite be_val_cons; cbn [replicate app]; rewrite Z.mul_0_l, Z.add_0_l; congruence.
  - exists 0%nat; cbn [replicate app]; rewrite big_bytes_be_val; [ done | constructor; done | exact N ].
Qed.

Lemma digest_filled b : bytes_ok b -> len b = 32 -> @fill_bytes unit 32 (be_val b) = Ok b.
Proof.
  intros Hb L; destruct (leading_zeros b Hb) as [ k E ]; unfold fill_bytes.
  assert (length b = k + length (big_bytes (be_val b)))%nat as Lk by (rewrite E at 1; rewrite length_app, length_replicate; done).
  unfold len in L |- *; set (n := big_bytes (be_val b)) in *.
  assert (length n <= 32)%nat as Ln by lia; rewrite (proj2 (Z.leb_le (Z.of_nat (length n)) (Z.of_nat 32))) by (apply inj_le, Ln).
  replace (32 - length n)%nat with k by lia; congruence.
Qed.

Lemma signingParty_signs share ec com self t hash party :
  bytes_ok hash -> (Curve_ share = CurveSecp256k1 -> len hash = 32) ->
  signingParty share ec com self t hash = Ok party -> signs party hash.
Proof.
  intros Hb Hl; unfold signingParty, signs; destruct (String.eqb_spec (Curve_ share) CurveSecp256k1); [ destruct (ECDSA share) | destruct (String.eqb _ _); [ destruct (EdDSA share) | ] ];
    intros E; simplify_eq; [ left; eauto 8 using digest_filled | right ].
  destruct (leading_zeros hash Hb) as [ k Ek ]; eauto 8.
Qed.

(** The goroutine of a sanctioned signing publishes a party over its bytes. *)
Lemma runSigning_step ps h starts m l r id p com self t share hash m' tk :
  sessions_ok ps h m (l ++ RunSigning id p com self t share hash :: r) ->
  runSigning starts m id p com self t share hash = Ok (m', tk) ->
  sessions_ok ps h m' (l ++ option_list tk ++ r).
Proof.
  intros Ok_ E; pose proof (ok_tasks _ _ _ _ Ok_) as T.
  apply Forall_app in T as [ Tl Tr ]; apply Forall_cons in Tr as [ ([ o0 L0 ] & S & Sl) Tr ].
  assert (forall e, sessions_ok ps h (failSigning m id e) (l ++ [] ++ r)) as Hf.
  { intros e; eapply sessions_ok_kept; [ exact Ok_ | apply kept_failSigning | ].
    intros x Hx; cbn in Hx; rewrite elem_of_app in Hx; rewrite Forall_forall in Tl, Tr; destruct Hx; auto. }
  unfold runSigning in E; destruct (ellipticCurve _) as [ ec | | ]; [ | injection E as <- <-; apply Hf | done ].
  destruct (signingParty _ _ _ _ _ _) as [ party | | ] eqn:P; [ | injection E as <- <-; apply Hf | done ].
  destruct (starts party); injection E as <- <-; [ | apply Hf ]; apply signingParty_signs in P; [ | eauto using sanctioned_bytes | exact Sl ].
  assert (forall q o, signingObjs m !! q = Some o -> sgParty o <> None ->
    exists o', signingObjs (onSigning p (setSignParty party) m) !! q = Some o' /\ sgParty o' <> None) as Pk.
  { intros q o L N; cbn; destruct (decide (p = q)) as [ <- | Ne ].
    - rewrite list_lookup_alter_eq, L; eexists; split; done.
    - rewrite list_lookup_alter_ne by done; eauto. }
  split.
  - intros q o; cbn; destruct (decide (p = q)) as [ <- | Ne ]; [ | rewrite list_lookup_alter_ne by done; apply (ok_session _ _ _ _ Ok_) ].
    rewrite list_lookup_alter_eq, L0; intros [= <-] _; cbn; eauto.
  - assert (Forall (task_ok ps h (onSigning p (setSignParty party) m)) (l ++ r)) as F.
    { apply Forall_app; split; [ eapply Forall_impl; [ exact Tl | ] | eapply Forall_impl; [ exact Tr | ] ];
        intros x; apply task_kept; auto; apply length_alter. }
    apply Forall_app in F as [ Fl Fr ]; repeat (apply Forall_app; split); auto.
    repeat constructor; cbn; rewrite list_lookup_alter_eq, L0; eexists; split; [ reflexivity | done ].
Qed.

Lemma driveSigning_step ps h post m l r id p ev m' sent go :
  sessions_ok ps h m (l ++ DriveSigning id p :: r) -> driveSigningTurn post m id p ev = Ok (m', sent, go) ->
  sessions_ok ps h m' (l ++ again go (DriveSigning id p) ++ r).
Proof.
  intros Ok_ E; pose proof (ok_tasks _ _ _ _ Ok_) as T.
  apply Forall_app in T as [ Tl Tr ]; apply Forall_cons in Tr as [ Td Tr ]; destruct Td as (o0 & L0 & N0) eqn:D; clear D.
  assert (forall m1 b, sessions_kept m m1 -> sessions_ok ps h m1 (l ++ again b (DriveSigning id p) ++ r)) as Hk.
  { intros m1 b Kp; eapply sessions_ok_kept; [ exact Ok_ | exact Kp | ].
    intros x Hx; rewrite !elem_of_app in Hx; rewrite Forall_forall in Tl, Tr; destruct Hx as [ | [ Hx | ] ]; auto.
    destruct b; [ apply list_elem_of_singleton in Hx as -> | apply elem_of_nil in Hx; done ]; exists o0; done. }
  assert (sessions_kept m m) as Kr by (apply kept_same; done).
  unfold driveSigningTurn in E; rewrite L0 in E; destruct ev as [ msg | | sd queue ].
  - destruct (relaySignMessage _ _ _ _) as [ ? [ e | ] ]; injection E as <- _ <-; apply Hk; auto using kept_failSigning.
  - injection E as <- _ <-; apply Hk, kept_failSigning.
  - destruct (relayPending _ _) as [ ? [ e | ] ]; [ injection E as <- _ <-; apply Hk, kept_failSigning | ].
    unfold completeSigning in E; rewrite L0 in E; destruct (encodeSignature _ _) as [ sig | | ]; cbn in E; [ | done | done ].
    injection E as <- _ <-; set (g := completeSigningObj (hex_encode sig)); split.
    + intros q o; cbn; destruct (decide (p = q)) as [ <- | Ne ]; [ | rewrite list_lookup_alter_ne by done; apply (ok_session _ _ _ _ Ok_) ].
      rewrite list_lookup_alter_eq, L0; intros [= <-] _; apply (ok_session _ _ _ _ Ok_ _ _ L0); auto.
    + cbn [again app]; apply Forall_app; split; [ eapply Forall_impl; [ exact Tl | ] | eapply Forall_impl; [ exact Tr | ] ];
        intros x; apply task_kept; try apply length_alter; intros q o L N; cbn; (destruct (decide (p = q)) as [ <- | Ne ];
          [ rewrite list_lookup_alter_eq, L; eexists; split; done | rewrite list_lookup_alter_ne by done; eauto ]).
Qed.

Lemma turn_sessions ps h (s s' : State) :
  sessions_ok ps h (mgr s) (tasks s) -> step (fun _ _ => False) s s' -> sessions_ok ps h (mgr s') (tasks s').
Proof.
  intros Ok_ St; destruct St as [ ? [] | l t r m' w' ts Et Tn ]; cbn; rewrite Et in Ok_.
  destruct Tn as [ starts pre id p sorted self t m' tk E | post id p c ev m' w' sent go _ E | starts id p com self t share hash m' tk E
    | post id p ev m' sent go E | starts pre id p share m' tk E | post id p c ev m' w' ds go _ E | env ].
  - eapply quiet_step; eauto using runKeygen_sessions, runKeygen_quiet.
  - eapply quiet_step; [ exact Ok_ | eapply driveKeygenTurn_sessions, E | apply again_quiet; done ].
  - eapply runSigning_step; eauto.
  - eapply driveSigning_step; eauto.
  - eapply quiet_step; eauto using runResharing_sessions, runResharing_quiet.
  - eapply quiet_step; [ exact Ok_ | eapply driveResharingTurn_sessions, E | ].
    apply Forall_app; split; [ apply again_quiet; done | apply selfDeliveries_quiet ].
  - eapply (quiet_step _ _ _ _ _ []); eauto.
Qed.

(** What the start of a ceremony registers. *)
Lemma startKeygen_adds m id t peers c chain m' tk :
  startKeygen m id t peers c chain = Ok (m', tk) -> quiet tk /\ exists o, m' = addKeygen id o m.
Proof.
  unfold startKeygen; intros E; inv_ok; destruct (findPartyID _ _); [ | done ]; injection E as <- <-; split; [ exact I | eauto ].
Qed.

Lemma StartResharing_adds m id src peers m' tk :
  StartResharing m id src peers = Ok (m', tk) -> quiet tk /\ exists o, m' = addResharing id o m.
Proof.
  unfold StartResharing; intros E; inv_ok; destruct (keygenOf m src) as [ [ q k ] | ]; [ | done ].
  destruct (status k), (saveData k); try done; inv_ok; split; [ exact I | eauto ].
Qed.

Lemma StartSigning_adds m id kid hash wanted m' tk :
  StartSigning m id kid hash wanted = Ok (m', tk) ->
  hash <> [] /\ exists o com self t share, m' = addSigning id o m /\ sgParty o = None /\ sgStatus o = ceremonyInProgress /\
    tk = RunSigning id (length (signingObjs m)) com self t share hash /\ (Curve_ share = CurveSecp256k1 -> len hash = 32).
Proof.
  unfold StartSigning; intros E; pass_guards E.
  split; [ intros ->; done | ]; destruct (keygenOf m kid) as [ [ q k ] | ]; [ | done ].
  destruct (status k), (saveData k) as [ sh | ]; try done.
  destruct (String.eqb (Curve_ sh) CurveSecp256k1 && negb (len hash =? 32)) eqn:Hl; [ done | ]; pass_guards E.
  destruct (selectCommittee _ _ _) as [ ids eps ]; pass_guards E.
  destruct (findPartyIDByKey _ _); [ | done ]; injection E as <- <-.
  eexists _, _, _, _, _; split_and!; [ reflexivity .. | ]; intros Ec; rewrite Ec in Hl; cbn in Hl; b2p; done.
Qed.

Lemma sessions_ok_more ps h m ts now c :
  sessions_ok ps h m ts -> sessions_ok ps ((now, c) :: h) m ts.
Proof.
  intros [ S T ]; split; [ intros p o L; apply session_more; eauto | ].
  eapply Forall_impl; [ exact T | ]; intros [ ]; cbn; try done; intros (? & ? & ?); auto using sanctioned_more.
Qed.

Lemma call_sessions ps updates r now c h s s' ans :
  sessions_ok ps h (mgr s) (tasks s) -> handle ps updates s r now c = (s', ans) ->
  sessions_ok ps ((now, c) :: h) (mgr s') (tasks s').
Proof.
  intros Ok_ E; apply (sessions_ok_more _ _ _ _ now c) in Ok_.
  apply handle_effect in E as [ -> | [ (op & id & hash0 & auth & sig & C & R) X ] ]; [ done | ].
  assert (forall m' ts, signingObjs m' = signingObjs (mgr s) -> Forall quiet ts ->
    sessions_ok ps ((now, c) :: h) m' (ts ++ tasks s)) as Hq.
  { intros m' ts Em Q; eapply sessions_ok_kept; [ exact Ok_ | apply kept_same, Em | ].
    pose proof (ok_tasks _ _ _ _ Ok_) as T; rewrite Forall_forall in T, Q; intros t Ht; rewrite elem_of_app in Ht.
    destruct Ht; auto using quiet_ok. }
  destruct X as [ q peers cv [ m' tk ] _ _ Es | q hash [ m' tk ] Hx Es | q hash e Hx Es | q [ m' tk ] Es | q r0 w Er | q | q L ];
    cbn [spawn mgr tasks withStore hold freeze].
  - apply (Hq m' [ tk ]); apply startKeygen_adds in Es as [ Q [ o -> ] ]; repeat constructor; done.
  - cbn in C; injection C as <- <- <- <- <-.
    apply StartSigning_adds in Es as (Hn & o & com & self & t & share & -> & Pn & Sp & -> & Hl).
    split; [ intros p1 o1 L | constructor ].
    + cbn in L; apply lookup_app_Some in L as [ L | [ _ L ] ]; [ apply (ok_session _ _ _ _ Ok_ _ _ L) | ].
      apply list_lookup_singleton_Some in L as [ _ <- ]; intros [ X | X ]; [ done | congruence ].
    + cbn; rewrite lookup_app_r, Nat.sub_diag by done; cbn; split; [ eauto | split; [ | exact Hl ] ].
      exists now, q; split_and!; [ left | done | done | exact R ].
    + eapply Forall_impl; [ apply (ok_tasks _ _ _ _ Ok_) | ]; intros [ ]; cbn; try done.
      * intros [ [ o1 L1 ] S1 ]; split; [ rewrite lookup_app_l by (eapply lookup_lt_Some, L1); eauto | done ].
      * intros (o1 & L1 & N1); exists o1; rewrite lookup_app_l by (eapply lookup_lt_Some, L1); done.
  - exact Ok_.
  - apply (Hq m' [ tk ]); apply StartResharing_adds in Es as [ Q [ o -> ] ]; repeat constructor; done.
  - apply (Hq _ []); [ | constructor ]; destruct r0 as [ m' | | ]; [ | done | done ].
    unfold RestoreCeremony in Er; case_bool_decide; [ done | ].
    destruct (ShareStore.kload _ _ _) as [ [ [ sh [ cc | ] ] | | ] w0 ]; simplify_eq; inv_ok; done.
  - apply (Hq _ []); [ | constructor ]; unfold Forget; destruct (_ !! _); done.
  - exact Ok_.
Qed.

Lemma run_sessions ps w h s : run ps w h s -> sessions_ok ps h (mgr s) (tasks s).
Proof.
  induction 1 as [ | updates r now c h s s' ans R IH E | h s s' R IH St ].
  - split; [ intros p o L; discriminate L | constructor ].
  - eapply call_sessions; eauto.
  - eapply turn_sessions; eauto.
Qed.

(** C2.  A party with an authoriser signs only what was authorised: in any run,
    every signing session that has a protocol party, or has completed, signs
    what an authorisation presented earlier names in hexadecimal, for an
    operation called [sign], accepted when it came.  On secp256k1 that is the
    digest of 32 bytes, byte for byte; on Ed25519 the message reaches tss-lib as
    a number, so that what is signed is the message without the zero bytes at
    its front. *)
Theorem signs_only_authorised ps a w h s p o :
  authorizer ps = Some a -> run ps w h s -> signingObjs (mgr s) !! p = Some o ->
  sgParty o <> None \/ sgStatus o = ceremonyCompleted ->
  exists party hash now q req sg, sgParty o = Some party /\ signs party hash /\ (now, SignStart (Some q)) ∈ h /\
    authorised a now "sign" (snSignID q) (snMessageHashHex q) (snAuthorization q) (snAuthorizationSignature q) req sg /\
    hex_decode (Authorization.MessageHash req) = Some hash.
Proof.
  intros Ha R L X; destruct (ok_session _ _ _ _ (run_sessions _ _ _ _ R) _ _ L X) as (party & hash & P & G & now & q & I & Hx & Hn & Q).
  rewrite Ha in Q; apply Authorization.require_iff in Q as (req & sg & A).
  exists party, hash, now, q, req, sg; split_and!; auto.
  destruct (Authorization.auth_message _ _ _ _ _ _ _ _ _ _ _ _ _ _ A) as [ M | M ].
  - rewrite M in Hx; cbn in Hx; congruence.
  - rewrite (equal_fold_hex _ _ M); done.
Qed.

(** The code's comment says that only the bytes given are signed.  A message for
    Ed25519 and the same message behind a zero byte make the same protocol party. *)
Theorem leading_zero_is_not_signed share ec com self t message :
  Curve_ share = CurveEd25519 ->
  signingParty share ec com self t (0 :: message) = signingParty share ec com self t message.
Proof. intros E; unfold signingParty; rewrite E, be_val_cons, Z.mul_0_l, Z.add_0_l; done. Qed.

(** *** Messages *)

Definition claimedSender (c : Call) : option Z :=
  match c with
  | KeygenMessage (Some env) => Some (FromPartyID env)
  | SignMessage (Some env) => Some (sgnFrom env)
  | ReshareMessage (Some env) => Some (rsFrom env)
  | _ => None
  end.

(** The message of a call was given to the protocol party of the session it
    names, decoded, as coming from that committee's member [n]: the identity is
    one of the session's own, with the key of [n] in the session's epoch. *)
Definition handed_over (updates : Party -> bytes -> PartyID -> bool -> bool) (m : TSSPartyManager) (c : Call) (n : Z) (taken : bool) : Prop :=
  match c with
  | KeygenMessage (Some env) => exists p o party from data,
      keygenOf m (CeremonyID env) = Some (p, o) /\ localParty o = Some party /\ from ∈ sortedIDs o /\ KeyInt from = n /\
      Base64.decode (WireBytes env) = Some data /\ updates party data from (IsBroadcast env) = taken
  | SignMessage (Some env) => exists p o party from data,
      signingOf m (sgnID env) = Some (p, o) /\ sgParty o = Some party /\ from ∈ committee o /\ fst (nodeForPartyKey from) = n /\
      Base64.decode (sgnWireBytes env) = Some data /\ updates party data from (sgnBroadcast env) = taken
  | ReshareMessage (Some env) => exists p o party from data,
      resharingOf m (rsReshareID env) = Some (p, o) /\ (if ToOldCommittee env then oldParty o else newParty o) = Some party /\
      from ∈ (if FromOldCommittee env then oldSorted o else newSorted o) /\
      KeyInt from = committeeKey n (if FromOldCommittee env then i64 (newEpoch o - 1) else newEpoch o) /\
      Base64.decode (rsWireBytes env) = Some data /\ updates party data from (rsBroadcast env) = taken
  | _ => False
  end.

Lemma takeMessage_answer {Env} s r (env : Env) from locked h :
  Method r = "POST"%string ->
  takeMessage s r (Some env) from locked h =
  (s, match authenticatePeer getenv (TLS r) (from env) with
      | Ok _ => if locked env then Hung else
                match h env with
                | Ok _ => Answered 200 (Status "accepted")
                | Err NotReady => Answered 503 (Error (Manager NotReady))
                | Err e => Answered 500 (Error (Manager e))
                | Panic => Dropped
                end
      | Err e => Answered 403 (Error (Unauthenticated e))
      | Panic => Dropped
      end).
Proof.
  intros M; unfold takeMessage, requirePost; rewrite M; cbn.
  destruct (authenticatePeer _ _ _) as [ [] | | ]; cbn; try done; unfold hangs; destruct (locked env), (h env) as [ | [ ] | ]; done.
Qed.

Lemma authenticatePeer_total tls n : authenticatePeer getenv tls n <> Panic.
Proof.
  unfold authenticatePeer; destruct (peerEnforcementDisabled _); [ done | ]; destruct tls as [ [ | cn ? ] | ]; try done.
  unfold partyIDFromCommonName; destruct (partyCNPattern cn); [ | done ]; destruct (parse_int _); [ | done ].
  destruct (_ <=? 0); [ done | ]; cbn; destruct (negb _); done.
Qed.

(** A message that reaches tss-lib is handed over as its sender's. *)
Lemma incoming_keygen updates m env r :
  HandleIncomingMessage updates m env = r -> r = Ok tt \/ r = Err UpdateFailed ->
  handed_over updates m (KeygenMessage (Some env)) (FromPartyID env) (is_ok r).
Proof.
  unfold HandleIncomingMessage; intros <- X; cbn [handed_over]; destruct (keygenOf _ _) as [ [ p o ] | ]; [ | destruct X; done ].
  destruct (localParty o) as [ party | ] eqn:L; [ | destruct X; done ].
  destruct (findPartyID _ _) as [ from | ] eqn:F; [ | destruct X; done ]; apply first_party_some in F as [ I F ]; b2p.
  destruct (Base64.decode _) as [ data | ]; [ | destruct X; done ].
  exists p, o, party, from, data; split_and!; try done; destruct (updates _ _ _ _); done.
Qed.

Lemma incoming_sign updates m env r :
  HandleIncomingSignMessage updates m env = r -> r = Ok tt \/ r = Err UpdateFailed ->
  handed_over updates m (SignMessage (Some env)) (sgnFrom env) (is_ok r).
Proof.
  unfold HandleIncomingSignMessage; intros <- X; cbn [handed_over]; destruct (signingOf _ _) as [ [ p o ] | ]; [ | destruct X; done ].
  destruct (sgParty o) as [ party | ] eqn:L; [ | destruct X; done ].
  destruct (findPartyIDByNode _ _) as [ from | ] eqn:F; [ | destruct X; done ]; apply first_party_some in F as [ I F ]; b2p.
  destruct (Base64.decode _) as [ data | ]; [ | destruct X; done ].
  exists p, o, party, from, data; split_and!; try done; destruct (updates _ _ _ _); done.
Qed.

Lemma incoming_reshare updates m env r :
  HandleIncomingReshareMessage updates m env = r -> r = Ok tt \/ r = Err UpdateFailed ->
  handed_over updates m (ReshareMessage (Some env)) (rsFrom env) (is_ok r).
Proof.
  unfold HandleIncomingReshareMessage; intros <- X; cbn [handed_over]; destruct (resharingOf _ _) as [ [ p o ] | ]; [ | destruct X; done ].
  destruct (if ToOldCommittee env then _ else _) as [ party | ] eqn:L; [ | destruct X; done ].
  destruct (if FromOldCommittee env then _ else _) as [ from | ] eqn:F; [ | destruct X; done ].
  destruct (Base64.decode _) as [ data | ]; [ | destruct X; done ].
  exists p, o, party, from, data; split; [ done | split; [ done | ] ].
  destruct (FromOldCommittee env); apply first_party_some in F as [ I F ]; b2p; split_and!; try done; destruct (updates _ _ _ _); done.
Qed.

Definition accepted_answer : Answer := Answered 200 (Status "accepted").
Definition taken (a : Answer) : bool := match a with Answered code _ => code =? 200 | Dropped | Hung => false end.
Definition rejected_answer : Answer := Answered 500 (Error (Manager UpdateFailed)).

(** The sender has shown a certificate for party [n], or nobody has to. *)
Definition certified (r : HttpRequest) (n : Z) : Prop :=
  peerEnforcementDisabled getenv = true \/ exists cn rest, TLS r = Some (cn :: rest) /\ partyIDFromCommonName cn = Ok n.

Lemma message_reached {Env} s r (env : Env) from locked (h : Env -> result MgrErr unit) ans (P : bool -> Prop) :
  Method r = "POST"%string -> (forall res, h env = res -> res = Ok tt \/ res = Err UpdateFailed -> P (is_ok res)) ->
  snd (takeMessage s r (Some env) from locked h) = ans -> ans = accepted_answer \/ ans = rejected_answer ->
  certified r (from env) /\ P (taken ans).
Proof.
  intros M Hh E X; rewrite takeMessage_answer in E by done; cbn in E.
  destruct (authenticatePeer _ _ _) as [ [] | e | ] eqn:A; [ | subst; destruct X; done .. ].
  split.
  { unfold certified; destruct (peerEnforcementDisabled getenv) eqn:D; [ by left | right ].
    apply authenticatePeer_iff in A as (cn & rest & T & Q); eauto. }
  destruct (locked env); [ subst; destruct X; done | ].
  specialize (Hh _ eq_refl); destruct (h env) as [ [] | [ ] | ]; subst ans; destruct X as [ X | X ]; try discriminate X; apply Hh; auto.
Qed.

(** C5.  A protocol message received over HTTP that reaches tss-lib, whether
    tss-lib takes it or not, arrived over TLS with a certificate for the very
    party it claims to be from, unless the check of peers was switched off in
    the environment; and it is handed, decoded, to the protocol party of the
    session it names, as coming from that party's identity in the session's own
    committee. *)
Theorem message_sender_certified ps updates s r now c n s' ans :
  claimedSender c = Some n ->
  handle ps updates s r now c = (s', ans) -> ans = accepted_answer \/ ans = rejected_answer ->
  certified r n /\ handed_over updates (mgr s) c n (taken ans).
Proof.
  intros C E X; unfold handle in E; destruct (negb _) eqn:M; [ injection E as _ <-; destruct X; done | ]; b2p.
  apply (f_equal snd) in E; cbn [snd] in E.
  destruct c as [ | [ env | ] | | | | [ env | ] | | | | [ env | ] | | | ]; try discriminate C; injection C as <-.
  - eapply (message_reached _ _ _ _ _ _ _ (handed_over updates (mgr s) _ _)); eauto using incoming_keygen.
  - eapply (message_reached _ _ _ _ _ _ _ (handed_over updates (mgr s) _ _)); eauto using incoming_reshare.
  - eapply (message_reached _ _ _ _ _ _ _ (handed_over updates (mgr s) _ _)); eauto using incoming_sign.
Qed.


(** *** A sender and a slow peer *)

Definition codeOf (a : Answer) : option Z := match a with Answered code _ => Some code | Dropped | Hung => None end.

(** What a party answers a key generation message with, as its state goes by. *)
Definition answersKeygen (updates : Z -> Party -> bytes -> PartyID -> bool -> bool) (states : Z -> State) (r : HttpRequest)
    (env : tssMessageEnvelope) (t : Z) : option Z :=
  codeOf (snd (HandleTSSKeygenMessage (updates t) (states t) r (Some env))).

Definition unready (s : State) (id : string) : Prop :=
  frozen s = false /\ ceremonyHeld s id = false /\ forall p o, keygenOf (mgr s) id = Some (p, o) -> localParty o = None.

(** The party is published, knows the sender, and tss-lib takes the message. *)
Definition takes (updates : Party -> bytes -> PartyID -> bool -> bool) (s : State) (env : tssMessageEnvelope) : Prop :=
  frozen s = false /\ ceremonyHeld s (CeremonyID env) = false /\
  exists p o party from data, keygenOf (mgr s) (CeremonyID env) = Some (p, o) /\ localParty o = Some party /\
    findPartyID (sortedIDs o) (FromPartyID env) = Some from /\ Base64.decode (WireBytes env) = Some data /\
    updates party data from (IsBroadcast env) = true.

Lemma unready_503 updates s r env :
  Method r = "POST"%string -> authenticatePeer getenv (TLS r) (FromPartyID env) = Ok tt ->
  unready s (CeremonyID env) -> codeOf (snd (HandleTSSKeygenMessage updates s r (Some env))) = Some 503.
Proof.
  intros M A (F & C & U); unfold HandleTSSKeygenMessage; rewrite takeMessage_answer, A, F, C by done; cbn; unfold HandleIncomingMessage.
  destruct (keygenOf _ _) as [ [ p o ] | ] eqn:E; [ rewrite (U _ _ eq_refl) | ]; done.
Qed.

Lemma takes_200 updates s r env :
  Method r = "POST"%string -> authenticatePeer getenv (TLS r) (FromPartyID env) = Ok tt ->
  takes updates s env -> codeOf (snd (HandleTSSKeygenMessage updates s r (Some env))) = Some 200.
Proof.
  intros M A (Fz & C & p & o & party & from & data & E & P & F & B & U); unfold HandleTSSKeygenMessage.
  rewrite takeMessage_answer, A, Fz, C by done; cbn; unfold HandleIncomingMessage; rewrite E, P, F, B, U; done.
Qed.

(** C11.  A sender outwaits a peer that is still making its pre-parameters.  If the
    peer publishes its party within the time one generation may take, then the
    message offered at the start is delivered, however often it was answered
    503 before, provided posts take at most the client's thirty seconds and
    sleeps overrun by at most a second. *)
Theorem slow_peer_is_reached updates states r env took slept body ready now :
  Method r = "POST"%string -> authenticatePeer getenv (TLS r) (FromPartyID env) = Ok tt ->
  (forall t, 0 <= took t <= 30 * PeerChannel.second) ->
  (forall t, retryInterval <= slept t <= retryInterval + PeerChannel.second) ->
  ready <= now + preParamsGenTimeout ->
  (forall t, t < ready -> unready (states t) (CeremonyID env)) ->
  (forall t, ready <= t -> takes (updates t) (states t) env) ->
  exists t, postTSSEnvelope (answersKeygen updates states r env) took slept (Some body) now = Some (Ok tt, t) /\
    t <= now + PeerReadyTimeout.
Proof.
  intros M A Ht Hs Hr Hu Hk; unfold postTSSEnvelope.
  destruct (postLoop_reaches (answersKeygen updates states r env) took slept (fun t => proj1 (Ht t)) (fun t => proj1 (Hs t))
    (30 * PeerChannel.second) (retryInterval + PeerChannel.second) ready postFuel (now + PeerReadyTimeout) now)
    as (t & E & L).
  - apply Ht.
  - apply Hs.
  - intros t Hlt; apply unready_503; auto.
  - intros t Hge; apply takes_200; auto.
  - unfold preParamsGenTimeout, PeerReadyTimeout, PeerChannel.second in *; lia.
  - transitivity PeerReadyTimeout; [ lia | vm_compute; discriminate ].
  - unfold postFuel; lia.
  - exists t; split; [ exact E | ].
    unfold retryInterval, millisecond, preParamsGenTimeout, PeerReadyTimeout, PeerChannel.second in *; lia.
Qed.

(** *** Retirement *)

(** A retirement reported as done is done: the party has forgotten the
    ceremony, its store holds no share for it, and nothing else it holds has
    changed.  One that could not destroy the seal is reported as 502, with the
    ceremony forgotten all the same. *)
Theorem retirement_is_complete `{!ShareStore.ShareKeeping W} ps s now q s' ans :
  ShareStore.own_entry (reCeremonyID q) -> HandleTSSRetire ps s now (Some q) = (s', ans) ->
  (forall held, ans = Answered 200 (Retired (reCeremonyID q) (psPartyID ps) held true) ->
     ShareStore.holds (store s') (psPartyID ps) (reCeremonyID q) = None) /\
  (forall code b, ans = Answered code b -> code = 200 \/ code = 502 ->
     keygenOf (mgr s') (reCeremonyID q) = None /\
     (forall kid, kid <> reCeremonyID q -> ceremonies (mgr s') !! kid = ceremonies (mgr s) !! kid) /\
     (forall p c, ShareStore.own_entry c -> (p, c) <> (psPartyID ps, reCeremonyID q) -> ShareStore.holds (store s') p c = ShareStore.holds (store s) p c)).
Proof.
  intros Own; unfold HandleTSSRetire; intros E; cbn [decoded result_bind] in E.
  destruct (String.eqb _ _); cbn in E; [ injection E as <- <-; split; [ done | intros ? ? [= <- _] [ | ]; done ] | ].
  destruct (authorisedFor _ _ _ _ _ _ _) as [ ? | [ code e ] | ] eqn:A; cbn in E.
  2: { unfold authorisedFor in A; destruct (require _ _ _ _ _ _ _); cbn in A; simplify_eq;
         split; [ done | intros ? ? [= <- _] [ | ]; done ]. }
  2: injection E as <- <-; split; done.
  destruct (frozen s || _); [ injection E as <- <-; split; done | ].
  assert (keygenOf (fst (Forget (mgr s) (reCeremonyID q))) (reCeremonyID q) = None /\
    forall kid, kid <> reCeremonyID q -> ceremonies (fst (Forget (mgr s) (reCeremonyID q))) !! kid = ceremonies (mgr s) !! kid) as [ F1 F2 ].
  { unfold Forget, keygenOf; destruct (ceremonies (mgr s) !! reCeremonyID q) eqn:L; cbn.
    - rewrite lookup_delete_eq; split; [ done | intros; rewrite lookup_delete_ne; done ].
    - rewrite L; done. }
  pose proof (ShareStore.retire_frame (psPartyID ps) (reCeremonyID q) (store s)) as Fr; specialize (fun p c O => Fr p c Own O).
  pose proof (ShareStore.retire_holds (psPartyID ps) (reCeremonyID q) (store s)) as Rh.
  destruct (Forget _ _) as [ m held ], (ShareStore.kretire _ _ _) as [ [ d | e | ] w ]; cbn in E, F1, F2, Fr; injection E as <- <-; cbn.
  - split; [ intros ? [= _ ->]; apply Rh; done | intros; split_and!; auto ].
  - split; [ done | intros; split_and!; auto ].
  - split; done.
Qed.

(** *** A mutex left locked *)

(** Calls and turns of goroutines, in any order. *)
Definition moves (ps : PartyServer) (s s' : State) : Prop :=
  (exists updates r now c ans, handle ps updates s r now c = (s', ans)) \/ step (fun _ _ => False) s s'.
Abbreviation later ps := (rtc (moves ps)).

Lemma effect_locks ps s c s' p :
  effect ps s c s' -> (p ∈ held s -> p ∈ held s') /\ (frozen s = true -> frozen s' = true).
Proof.
  intros [ ? ? ? [ ? ? ] _ _ _ | ? ? [ ? ? ] _ _ | ? ? ? _ _ | ? [ ? ? ] _ | ? ? ? _ | ? | ? _ ]; cbn; split; auto.
  intros X; apply elem_of_app; auto.
Qed.

(** No call and no goroutine unlocks what was left locked. *)
Lemma later_locks ps s s' p :
  later ps s s' -> (p ∈ held s -> p ∈ held s') /\ (frozen s = true -> frozen s' = true).
Proof.
  induction 1 as [ s | s s1 s2 M _ [ IHh IHf ] ]; [ auto | ].
  assert ((p ∈ held s -> p ∈ held s1) /\ (frozen s = true -> frozen s1 = true)) as [ ? ? ]; [ | auto ].
  destruct M as [ (updates & r & now & c & ans & E) | St ].
  - apply handle_effect in E as [ -> | [ _ X ] ]; [ auto | exact (effect_locks _ _ _ _ _ X) ].
  - destruct St as [ ? [] | ]; auto.
Qed.

Lemma granted_for ps now c op id hash auth sig :
  granted ps now c -> credentials c = Some (op, id, hash, auth, sig) -> authorisedFor ps now op id hash auth sig = Ok tt.
Proof. intros (? & ? & ? & ? & ? & C & R) E; rewrite E in C; injection C as <- <- <- <- <-; unfold authorisedFor; rewrite R; done. Qed.

Definition wellPosed (q : tssSignStartRequest) (hash : bytes) : Prop :=
  snSignID q <> ""%string /\ snKeygenCeremonyID q <> ""%string /\ snCommitteePartyIDs q <> [] /\
  hex_decode (snMessageHashHex q) = Some hash /\ hash <> [].

Lemma len_nonempty {A} (l : list A) : l <> [] -> (len l =? 0) = false.
Proof. destruct l; [ done | intros _; apply Z.eqb_neq; unfold len; cbn [length]; lia ]. Qed.

Lemma sign_start_answer ps updates s r now q hash :
  Method r = "POST"%string -> granted ps now (SignStart (Some q)) -> wellPosed q hash ->
  let call := RSigning (snSignID q) (snKeygenCeremonyID q) hash (snCommitteePartyIDs q) in
  handle ps updates s r now (SignStart (Some q)) =
  if frozen s || ceremonyHeld s (snKeygenCeremonyID q) then (s, Hung) else
  match StartSigning (mgr s) (snSignID q) (snKeygenCeremonyID q) hash (snCommitteePartyIDs q) with
  | Ok st => (spawn s (Ok st), Answered 202 (Status "started"))
  | Err e => (hold (keepsLocked s call) s, Answered 500 (Error (Manager e)))
  | Panic => (s, Dropped)
  end.
Proof.
  intros M G (N1 & N2 & N3 & Hx & Hn) call; unfold handle, HandleTSSSignStart, requirePost; rewrite M.
  cbn [routeMethod String.eqb Ascii.eqb Bool.eqb negb result_bind decoded].
  rewrite (proj2 (String.eqb_neq _ _) N1), (proj2 (String.eqb_neq _ _) N2), (len_nonempty _ N3), Hx; cbn [orb].
  rewrite (granted_for _ _ _ _ _ _ _ _ G eq_refl); cbn [result_bind]; unfold hangs; fold call; unfold call at 1; cbn [waits].
  rewrite (len_nonempty _ Hn); cbn [negb andb]; destruct (_ || _); [ done | ].
  destruct (StartSigning _ _ _ _ _); done.
Qed.

(** A caller whose authorisation is good and whose digest is not 32 bytes long
    disables a secp256k1 key at this party: the answer is an error, and from
    then on, as long as the ceremony's name is not given to another key, no
    call that needs the ceremony is answered, whatever else happens; a
    retirement of it stops every call that needs the manager. *)
Theorem wrong_digest_locks_key ps updates s r now q hash p k share :
  Method r = "POST"%string -> granted ps now (SignStart (Some q)) -> wellPosed q hash -> len hash <> 32 ->
  frozen s = false -> ceremonyHeld s (snKeygenCeremonyID q) = false ->
  keygenOf (mgr s) (snKeygenCeremonyID q) = Some (p, k) -> status k = ceremonyCompleted -> saveData k = Some share ->
  Curve_ share = CurveSecp256k1 ->
  exists s', handle ps updates s r now (SignStart (Some q)) = (s', Answered 500 (Error (Manager (DigestLength (len hash))))) /\
  forall s1, later ps s' s1 -> ceremonies (mgr s1) !! snKeygenCeremonyID q = Some p ->
    (forall r1 t1, Method r1 = "GET"%string ->
       handle ps updates s1 r1 t1 (KeygenStatus (snKeygenCeremonyID q)) = (s1, Hung)) /\
    (forall r1 t1 q1 h1, Method r1 = "POST"%string -> granted ps t1 (SignStart (Some q1)) -> wellPosed q1 h1 ->
       snKeygenCeremonyID q1 = snKeygenCeremonyID q -> handle ps updates s1 r1 t1 (SignStart (Some q1)) = (s1, Hung)) /\
    (forall r1 t1 q1, Method r1 = "POST"%string -> granted ps t1 (SharesRetire (Some q1)) ->
       reCeremonyID q1 = snKeygenCeremonyID q ->
       exists s2, handle ps updates s1 r1 t1 (SharesRetire (Some q1)) = (s2, Hung) /\
         forall s3 r3 t3, later ps s2 s3 -> Method r3 = "GET"%string -> handle ps updates s3 r3 t3 GetInfo = (s3, Hung)).
Proof.
  intros M G Wp Hl Ff Fh Ek Es Ed Ec.
  assert (StartSigning (mgr s) (snSignID q) (snKeygenCeremonyID q) hash (snCommitteePartyIDs q) = Err (DigestLength (len hash))) as St.
  { unfold StartSigning; rewrite Ek, Es, Ed, Ec, len_nonempty, (proj2 (Z.eqb_neq _ _) Hl) by apply Wp; done. }
  assert (snKeygenCeremonyID q <> ""%string) as Hid by apply Wp.
  assert (ceremonies (mgr s) !! snKeygenCeremonyID q = Some p) as Lp by exact (keygenOf_id _ _ _ _ Ek).
  rewrite (sign_start_answer _ _ _ _ _ _ hash) by done; rewrite Ff, Fh, St; cbn [orb].
  eexists; split; [ reflexivity | ]; intros s1 Hs1 L1; cbn [keepsLocked]; cbn [keepsLocked] in Hs1; rewrite St, Lp in Hs1.
  apply (later_locks _ _ _ p) in Hs1 as [ Hh _ ].
  assert (ceremonyHeld s1 (snKeygenCeremonyID q) = true) as C1.
  { unfold ceremonyHeld; rewrite L1; apply bool_decide_eq_true, Hh; left. }
  split_and!.
  - intros r1 t1 M1; unfold handle, HandleTSSKeygenStatus; rewrite M1, (proj2 (String.eqb_neq _ _) Hid), C1, orb_true_r; done.
  - intros r1 t1 q1 h1 M1 G1 W1 E1; rewrite (sign_start_answer _ _ _ _ _ _ h1) by done; rewrite E1, C1, orb_true_r; done.
  - intros r1 t1 q1 M1 G1 E1; exists (freeze s1); split.
    + rewrite <- E1 in Hid, C1; unfold handle, HandleTSSRetire; rewrite M1.
      cbn [String.eqb routeMethod negb Ascii.eqb Bool.eqb decoded result_bind]; rewrite (proj2 (String.eqb_neq _ _) Hid).
      rewrite (granted_for _ _ _ _ _ _ _ _ G1 eq_refl); cbn [result_bind waits]; rewrite C1, orb_true_r; done.
    + intros s3 r3 t3 Hs3 M3; apply (later_locks _ _ _ p) in Hs3 as [ _ Fz ]; unfold handle, HandleInfo; rewrite M3; cbn.
      rewrite Fz; done.
Qed.

(** *** What an authorisation does not say *)

(** An authorisation to sign names the session and the message, not the key:
    presented with another key's ceremony and another committee it is as good. *)
Lemma authorisation_names_no_key ps now q kid com :
  granted ps now (SignStart (Some q)) ->
  granted ps now (SignStart (Some {| snSignID := snSignID q; snKeygenCeremonyID := kid; snMessageHashHex := snMessageHashHex q;
    snCommitteePartyIDs := com; snAuthorization := snAuthorization q; snAuthorizationSignature := snAuthorizationSignature q |})).
Proof. intros G; exact G. Qed.

End Server.

(** ** Concrete runs *)

Module Simple.
Import PartyManager.Simple.
#[local] Existing Instance simple_crypto.
#[local] Existing Instance simple_ids.
#[local] Existing Instance simple_messages.
#[local] Existing Instance simple_saves.
#[local] Existing Instance simple_range.
#[local] Existing Instance memory_keeper.
#[local] Existing Instance memory_keeps.
#[local] Instance simple_srange : StringRange := {| srange m := map_to_list m; srange_perm m := Permutation_refl _ |}.

Definition noon : Z := 1700000000.
Definition reads (j : string) : option Authorization.AuthorizationRequest :=
  let req op id hash := Some {| Authorization.Operation := op; Authorization.CeremonyID := id; Authorization.MessageHash := hash;
                                Authorization.IssuedAt := noon |} in
  if String.eqb j "k" then req "keygen" "key" ""
  else if String.eqb j "s" then req "sign" "sig" "ab12"
  else if String.eqb j "r" then req "retire" "key" ""
  else None.

Abbreviation handles := (handle unit Authorization.sampleVerify id (fun _ _ _ => false) reads (fun _ => ""%string) (W := Memory)).
Abbreviation runs := (run unit Authorization.sampleVerify id (fun _ _ _ => false) reads (fun _ => ""%string) (W := Memory)).

Definition server : PartyServer unit := {| psPartyID := 1; authorizer := Some Authorization.sampleAuthorizer |}.
Definition asks : HttpRequest := {| Method := "POST"; TLS := Some [ "party-2.internal"%string ] |}.
Definition soon : Z := (noon + 10) * Authorization.second.
Definition takesAll (p : Party) (d : bytes) (f : PartyID) (b : bool) : bool := true.

Definition keygenCall : Call := KeygenStart (Some
  {| kgCeremonyID := "key"; kgThreshold := 1; kgPeers := {[ "1" := "a"; "2" := "b"; "3" := "c" ]}%string; kgCurve := CurveEd25519;
     kgBlockchain := ""; kgAuthorization := "k"; kgAuthorizationSignature := "07" |}).
Definition signCall : Call := SignStart (Some
  {| snSignID := "sig"; snKeygenCeremonyID := "key"; snMessageHashHex := "AB12"; snCommitteePartyIDs := [ 1; 2 ];
     snAuthorization := "s"; snAuthorizationSignature := "07" |}).

Definition p0 := start 1 (∅ : Memory).
Definition p1 := (handles server takesAll p0 asks soon keygenCall).1.
Definition p2 :=
  after ((runKeygen all_start None (mgr p1) "key" 0 (committeePartyIDs (range three) 0) (self_id 0) 1).1, store p1)
    [ DriveKeygen "key" 0 CurveEd25519 ].
Definition p3 := after (driveKeygenTurn all_posts (mgr p2) (store p2) "key" 0 (End_ outcome [])).1.1 [].
Definition p4 := (handles server takesAll p3 asks soon signCall).1.

(** The turn of a process whose one goroutine is about to sign. *)
Definition sessionOf (s : System (W := Memory)) : option (System (W := Memory)) :=
  match tasks s with
  | [ RunSigning id p com self t share hash ] =>
      match runSigning all_start (mgr s) id p com self t share hash with
      | Ok (m, tk) => Some {| mgr := m; store := store s; tasks := option_list tk; held := held s; frozen := frozen s |}
      | _ => None
      end
  | _ => None
  end.
Definition p5 := default p4 (sessionOf p4).

Lemma only_turn (s : System (W := Memory)) (t : Task) (m' : TSSPartyManager) (w' : Memory) (ts : list Task) :
  tasks s = [ t ] -> turn (mgr s) (store s) t m' w' ts ->
  step (fun _ _ => False) s {| mgr := m'; store := w'; tasks := ts; held := held s; frozen := frozen s |}.
Proof. intros E T; rewrite <- (app_nil_r ts); apply (step_task _ s [] t [] m' w' ts E T). Qed.

Lemma sessionOf_step s : bool_decide (is_Some (sessionOf s)) = true -> step (fun _ _ => False) s (default s (sessionOf s)).
Proof.
  rewrite bool_decide_eq_true; intros [ s' X ]; rewrite X; cbn; unfold sessionOf in X.
  destruct (tasks s) as [ | t [ | ] ] eqn:T; try discriminate X; destruct t; try discriminate X.
  destruct (runSigning _ _ _ _ _ _ _ _ _) as [ [ m tk ] | | ] eqn:R; [ injection X as <- | discriminate X .. ].
  eapply only_turn; [ exact T | eapply turn_runSigning, R ].
Qed.

Lemma call_run w h s c : runs server w h s -> runs server w ((soon, c) :: h) (handles server takesAll s asks soon c).1.
Proof. intros R; eapply run_call; [ exact R | apply surjective_pairing ]. Qed.

Lemma run_to_key : runs server ∅ [ (soon, keygenCall) ] p3.
Proof.
  apply (run_turn unit Authorization.sampleVerify id (fun _ _ _ => false) reads (fun _ => ""%string) server ∅ _ p2).
  - apply (run_turn unit Authorization.sampleVerify id (fun _ _ _ => false) reads (fun _ => ""%string) server ∅ _ p1).
    + apply call_run, run_start.
    + apply (only_turn p1 (RunKeygen "key" 0 (committeePartyIDs (range three) 0) (self_id 0) 1)); [ by_run | ].
      apply (turn_runKeygen _ _ all_start None "key" 0 _ (self_id 0) 1 _ (Some (DriveKeygen "key" 0 CurveEd25519))).
      apply (with_second (runKeygen all_start None (mgr p1) "key" 0 (committeePartyIDs (range three) 0) (self_id 0) 1)); by_run.
  - apply (only_turn p2 (DriveKeygen "key" 0 CurveEd25519)); [ reflexivity | ].
    eapply (turn_driveKeygen _ _ all_posts "key" 0 CurveEd25519 (End_ outcome []) _ _ [] false); [ intros save q E; injection E as <- _; reflexivity | ].
    apply (with_rest (driveKeygenTurn all_posts (mgr p2) (store p2) "key" 0 (End_ outcome []))); by_run.
Qed.

Lemma run_to_signing : runs server ∅ [ (soon, signCall); (soon, keygenCall) ] p5.
Proof.
  apply (run_turn unit Authorization.sampleVerify id (fun _ _ _ => false) reads (fun _ => ""%string) server ∅ _ p4).
  { apply call_run, run_to_key. }
  apply sessionOf_step; by_run.
Qed.

Definition sobj (m : TSSPartyManager) (p : nat) : tssSigningCeremony :=
  default {| sgStatus := ceremonyPending; sgError := None; sgSelf := 0; committee := []; sgPeers := ∅; sgParty := None;
             sgCurve := ""; signature := "" |} (signingObjs m !! p).
Lemma sobj_at m p : bool_decide (is_Some (signingObjs m !! p)) = true -> signingObjs m !! p = Some (sobj m p).
Proof. rewrite bool_decide_eq_true; unfold sobj; intros [ o -> ]; done. Qed.

Lemma signs_only_authorised_witness : exists party hash, sgParty (sobj (mgr p5) 0) = Some party /\ signs party hash.
Proof.
  destruct (signs_only_authorised unit Authorization.sampleVerify id (fun _ _ _ => false) reads (fun _ => ""%string) server
    Authorization.sampleAuthorizer ∅ [ (soon, signCall); (soon, keygenCall) ] p5 0 (sobj (mgr p5) 0) eq_refl run_to_signing)
    as (party & hash & now & q & req & sg & P & S & _).
  - apply sobj_at; by_run.
  - left; intros X; assert (bool_decide (is_Some (sgParty (sobj (mgr p5) 0))) = true) as Y by by_run.
    rewrite X in Y; discriminate Y.
  - exists party, hash; split; [ exact P | exact S ].
Defined.
Lemma changes_need_authority_witness :
  effect unit server p0 keygenCall p1 /\
  exists op id hash auth sig, credentials keygenCall = Some (op, id, hash, auth, sig).
Proof.
  destruct (changes_need_authority unit Authorization.sampleVerify id (fun _ _ _ => false) reads (fun _ => ""%string) server
    takesAll p0 asks soon keygenCall p1 (handles server takesAll p0 asks soon keygenCall).2)
    as (X & op & cid & hash & auth & sig & C & _).
  - unfold p1; destruct (handles server takesAll p0 asks soon keygenCall); reflexivity.
  - intros E; apply (f_equal (fun s => length (tasks s))) in E.
    assert (length (tasks p1) = 1%nat) as L by by_run; rewrite L in E; discriminate E.
  - split; [ exact X | exists op, cid, hash, auth, sig; exact C ].
Defined.

Definition is_Some_b {A} (x : option A) : bool := match x with Some _ => true | None => false end.

(** Party 2 writes to party 1 while party 1 waits for messages. *)
Definition letter (id : string) : tssMessageEnvelope := {| CeremonyID := id; FromPartyID := 2; IsBroadcast := true; WireBytes := "AQID" |}.

Lemma message_sender_certified_witness :
  (handles server takesAll p2 asks soon (KeygenMessage (Some (letter "key")))).2 = accepted_answer /\
  certified (fun _ => ""%string) asks 2 /\ handed_over takesAll (mgr p2) (KeygenMessage (Some (letter "key"))) 2 true.
Proof.
  assert ((handles server takesAll p2 asks soon (KeygenMessage (Some (letter "key")))).2 = accepted_answer) as A by by_run.
  split; [ exact A | ].
  apply (message_sender_certified unit Authorization.sampleVerify id (fun _ _ _ => false) reads (fun _ => ""%string) server
    takesAll p2 asks soon (KeygenMessage (Some (letter "key"))) 2 _ accepted_answer eq_refl (with_second _ _ A)).
  left; reflexivity.
Defined.

Lemma slow_peer_is_reached_witness :
  let states t := if t <? 100 * PeerChannel.second then p1 else p2 in
  exists t, postTSSEnvelope (answersKeygen (W := Memory) (fun _ => ""%string) (fun _ => takesAll) states asks (letter "key"))
    (fun _ => PeerChannel.millisecond) (fun _ => retryInterval) (Some []) 0 = Some (Ok tt, t) /\ t <= 0 + PeerReadyTimeout.
Proof.
  intros states.
  apply (slow_peer_is_reached (fun _ => ""%string) (fun _ => takesAll) states asks (letter "key")
    (fun _ => PeerChannel.millisecond) (fun _ => retryInterval) [] (100 * PeerChannel.second) 0).
  - reflexivity.
  - reflexivity.
  - intros t; vm_compute; split; discriminate.
  - intros t; vm_compute; split; discriminate.
  - vm_compute; discriminate.
  - intros t Ht; unfold states; rewrite (proj2 (Z.ltb_lt _ _) Ht); split; [ by_run | split; [ by_run | intros p o E ] ].
    assert ((fun x => bool_decide (localParty x.2 = None)) <$> keygenOf (mgr p1) "key" = Some true) as X by by_run.
    cbn [letter CeremonyID] in E; rewrite E in X; injection X as X; apply bool_decide_eq_true in X; exact X.
  - intros t Ht; unfold states; rewrite (proj2 (Z.ltb_ge _ _) Ht); split; [ by_run | split; [ by_run | ] ].
    assert ((fun x => (is_Some_b (localParty x.2), is_Some_b (findPartyID (sortedIDs x.2) 2))) <$> keygenOf (mgr p2) "key"
      = Some (true, true)) as X by by_run.
    destruct (keygenOf (mgr p2) "key") as [ [ p o ] | ] eqn:E; [ | discriminate X ]; cbn in X; destruct (localParty o) as [ party | ] eqn:L; [ | discriminate X ].
    destruct (findPartyID (sortedIDs o) 2) as [ from | ] eqn:F; [ | discriminate X ].
    exists p, o, party, from, [ 1; 2; 3 ]; split; [ exact E | split; [ exact L | split; [ exact F | split; reflexivity ] ] ].
Defined.

Definition retireCall : tssRetireRequest := {| reCeremonyID := "key"; reAuthorization := "r"; reAuthorizationSignature := "07" |}.

Lemma retirement_is_complete_witness :
  let r := HandleTSSRetire unit Authorization.sampleVerify id (fun _ _ _ => false) reads server p3 soon (Some retireCall) in
  r.2 = Answered 200 (Retired "key" 1 true true) /\ ShareStore.holds (store p3) 1 "key" <> None /\
  ShareStore.holds (store r.1) 1 "key" = None /\ keygenOf (mgr r.1) "key" = None.
Proof.
  intros r; assert (r.2 = Answered 200 (Retired "key" 1 true true)) as A by by_run; split; [ exact A | ].
  split; [ intros X; assert (bool_decide (is_Some (ShareStore.holds (store p3) 1 "key")) = true) as Y by by_run;
           rewrite X in Y; discriminate Y | ].
  pose proof (retirement_is_complete unit Authorization.sampleVerify id (fun _ _ _ => false) reads server p3 soon retireCall r.1
    (Answered 200 (Retired "key" 1 true true))) as X; fold r in X.
  destruct (X I (with_second r _ A)) as [ H1 H2 ].
  split; [ exact (H1 true eq_refl) | exact (proj1 (H2 _ _ eq_refl (or_introl eq_refl))) ].
Defined.
(** A party that holds a secp256k1 key is asked to sign two bytes. *)
Definition ecdsaKey : tssKeygenCeremony :=
  {| status := ceremonyCompleted; errorMessage := None; selfPartyID := 1; threshold := 1; sortedIDs := committeePartyIDs (range three) 0;
     peers := three; localParty := None; curve := CurveSecp256k1; blockchain := ""; epoch := 0;
     saveData := Some (wrap ecdsaOutcome); publicKeyHex := ""; address := ""; sealed := true |}.
Definition withKey := after (addKeygen "key" ecdsaKey (NewTSSPartyManager 1), ∅) [].
Definition shortSign : tssSignStartRequest :=
  {| snSignID := "sig"; snKeygenCeremonyID := "key"; snMessageHashHex := "AB12"; snCommitteePartyIDs := [ 1; 2 ];
     snAuthorization := "s"; snAuthorizationSignature := "07" |}.
Definition looks : HttpRequest := {| Method := "GET"; TLS := None |}.

Lemma wrong_digest_locks_key_witness :
  exists s', handles server takesAll withKey asks soon (SignStart (Some shortSign)) = (s', Answered 500 (Error (Manager (DigestLength 2)))) /\
    handles server takesAll s' looks soon (KeygenStatus "key") = (s', Hung) /\
    exists s2, handles server takesAll s' asks soon (SharesRetire (Some retireCall)) = (s2, Hung) /\
      handles server takesAll s2 looks soon GetInfo = (s2, Hung).
Proof.
  destruct (wrong_digest_locks_key unit Authorization.sampleVerify id (fun _ _ _ => false) reads (fun _ => ""%string) server
    takesAll withKey asks soon shortSign [ 171; 18 ] 0 ecdsaKey (wrap ecdsaOutcome)) as (s' & E & Q).
  1, 5-10: reflexivity.
  - eexists _, _, _, _, _; split; [ reflexivity | by_run ].
  - repeat split; discriminate.
  - vm_compute; discriminate.
  - exists s'; split; [ exact E | ].
    destruct (Q s' ltac:(reflexivity)) as (Q1 & _ & Q3).
    { apply (f_equal fst) in E; cbn [fst] in E; rewrite <- E; by_run. }
    split; [ apply Q1; reflexivity | ].
    destruct (Q3 asks soon retireCall) as (s2 & R & I); [ reflexivity | | reflexivity | ].
    { eexists _, _, _, _, _; split; [ reflexivity | by_run ]. }
    exists s2; split; [ exact R | apply I; reflexivity ].
Defined.
End Simple.

End PartyServer.
