(* ===== verification/RealTss.v ===== *)
(** * Driving the parties

    Models [services/temporal-worker/activities/real_tss.go]: the activities
    that tell every party to start a ceremony and then poll them until it is
    over, and their composition with the workflows of [KeyLifecycle] above
    them and the party's server ([PartyServer]) below.

    What the network answers is an oracle: the reply to the start request of
    the party at a position, the reply to the status request of a polling
    round, and whether the activity's context ends after a round.  The polling
    loop takes a number of rounds it may use; a round is bounded, and the
    theorems say how many are enough.  The request bodies consist of strings,
    integers and a map of strings, which always marshal. *)

From Stdlib Require Import ZArith Lia Ascii String Permutation.
From stdpp Require Import base list numbers strings gmap.
From S2P Require Import Prelude GoStrings GoText KeyShare ShareStore Committee PartyManager Authorization PeerChannel.
From S2P Require Import PartyServer Workflow KeyLifecycle.

Open Scope Z_scope.

Module RealTss.
Import KeyLifecycle.

(** ** Wire formats *)

Record tssKeygenStartBody := {
  ksCeremonyID : string; ksThreshold : Z; ksPeers : gmap string string; ksAuthorization : string;
  ksAuthorizationSignature : string; ksBlockchain : string;
}.
Record tssKeygenStatusBody := {
  kbStatus : string; kbError : string; kbPublicKey : string; kbAddress : string; kbSealed : bool }.
Record tssSignStartBody := {
  ssSignID : string; ssKeygenCeremonyID : string; ssMessageHashHex : string; ssCommitteePartyIDs : list Z;
  ssAuthorization : string; ssAuthorizationSignature : string;
}.
Record tssSignStatusBody := { sbStatus : string; sbError : string; sbSignature : string }.

Inductive Payload : Type := KeygenPayload (b : tssKeygenStartBody) | SignPayload (b : tssSignStartBody).

(** ** The network *)

Class Network := {
  (** the error of [http.NewRequestWithContext] on a URL *)
  badUrl : string -> option string;
  (** the start request to the party at a position: an error's text, or a
      status code with the body's text *)
  startReply : nat -> string -> Payload -> string + (Z * string);
  (** the status request of a round to the party at a position: an error's
      text, or a status code with the body's text or its reading error *)
  statusReply : nat -> nat -> string -> string + (Z * (string + string));
  (** the context's error, when it is done before the next round *)
  ctxDone : nat -> option string;
  (** [json.Unmarshal] *)
  unmarshalKeygen : string -> string + tssKeygenStatusBody;
  unmarshalSign : string -> string + tssSignStatusBody;
}.

Section Activities.
Context `{Network}.
(** [ceremonyAuthorizer.authorize] of [Authorization], and an error's text. *)
Variable authorize : string -> string -> string -> result Authorization.AuthErr (string * string).
Variable authText : Authorization.AuthErr -> string.
Variable sha256 : bytes -> bytes.

Definition is2xx (code : Z) : bool := Z.quot code 100 =? 2.

(** [None]: accepted. *)
Definition postJSONExpect2xx (pos : nat) (url : string) (payload : Payload) : option string :=
  match badUrl url with
  | Some e => Some ("build request: " +:+ e)
  | None =>
      match startReply pos url payload with
      | inl e => Some ("request failed: " +:+ e)
      | inr (code, body) => if is2xx code then None else Some ("unexpected status " +:+ show_int code +:+ ": " +:+ body)
      end
  end.

Definition getTSSStatus {T} (unmarshal : string -> string + T) (round pos : nat) (url : string) : string + T :=
  match badUrl url with
  | Some e => inl ("build request: " +:+ e)
  | None =>
      match statusReply round pos url with
      | inl e => inl ("request failed: " +:+ e)
      | inr (_, inl e) => inl ("read response: " +:+ e)
      | inr (code, inr body) =>
          if is2xx code then match unmarshal body with inl e => inl ("unmarshal response: " +:+ e) | inr s => inr s end
          else inl ("unexpected status " +:+ show_int code +:+ ": " +:+ body)
      end
  end.

(** [m[k] = v] along two parallel slices. *)
Definition peersOf (ids : list Z) (eps : list string) : gmap string string :=
  foldl (fun m kv => <[ show_int kv.1 := kv.2 ]> m) ∅ (zip ids eps).
Definition endpointByParty (ids : list Z) (eps : list string) : gmap Z string :=
  foldl (fun m kv => <[ kv.1 := kv.2 ]> m) ∅ (zip ids eps).
(** The zero value for a party that is not in the map. *)
Definition endpoint (eps : gmap Z string) (id : Z) : string := default ""%string (eps !! id).

(** Starts the parties in turn; the first that refuses ends it. *)
Fixpoint startAll (eps : gmap Z string) (path : string) (payload : Payload) (pos : nat) (ids : list Z) : option string :=
  match ids with
  | [] => None
  | id :: ids =>
      match postJSONExpect2xx pos (endpoint eps id +:+ path) payload with
      | Some e => Some ("party " +:+ show_int id +:+ ": " +:+ e)
      | None => startAll eps path payload (S pos) ids
      end
  end.

(** ** Key generation *)

Definition dkgFailed (id e : string) : DKGCeremonyResult :=
  {| CeremonyID := id; CeremonyStatus := "failed"; ThresholdAddress := ""; ThresholdPubKey := ""; CeremonyError := e |}.

Record KeygenRound := { kAllDone : bool; kAddress : string; kPubKey : string; kSealedCount : Z }.

(** One round of polling: a failure, or what was seen. *)
Fixpoint pollKeygen (eps : gmap Z string) (ceremonyID : string) (round pos : nat) (ids : list Z) (acc : KeygenRound)
    : string + KeygenRound :=
  match ids with
  | [] => inr acc
  | id :: ids =>
      match getTSSStatus unmarshalKeygen round pos (endpoint eps id +:+ "/tss/keygen/status?ceremony_id=" +:+ ceremonyID) with
      | inl e => inl ("party " +:+ show_int id +:+ " status check: " +:+ e)
      | inr st =>
          if String.eqb (kbStatus st) "failed" then inl ("party " +:+ show_int id +:+ ": " +:+ kbError st)
          else if String.eqb (kbStatus st) "completed" then
            pollKeygen eps ceremonyID round (S pos) ids
              {| kAllDone := kAllDone acc; kAddress := kbAddress st; kPubKey := kbPublicKey st;
                 kSealedCount := if kbSealed st then kSealedCount acc + 1 else kSealedCount acc |}
          else
            pollKeygen eps ceremonyID round (S pos) ids
              {| kAllDone := false; kAddress := kAddress acc; kPubKey := kPubKey acc; kSealedCount := kSealedCount acc |}
      end
  end.

(** [None]: the rounds are used up.  That fewer shares are sealed than there
    are parties is only logged. *)
Fixpoint awaitKeygen (rounds : nat) (eps : gmap Z string) (ceremonyID : string) (ids : list Z) (round : nat)
    : option (Workflow.answer DKGCeremonyResult) :=
  match rounds with
  | O => None
  | S rounds =>
      match pollKeygen eps ceremonyID round 0 ids {| kAllDone := true; kAddress := ""; kPubKey := ""; kSealedCount := 0 |} with
      | inl e => Some (inr (dkgFailed ceremonyID e))
      | inr seen =>
          if kAllDone seen then
            Some (inr {| CeremonyID := ceremonyID; CeremonyStatus := "completed"; ThresholdAddress := kAddress seen;
                         ThresholdPubKey := kPubKey seen; CeremonyError := "" |})
          else
            match ctxDone round with
            | Some e => Some (inl e)
            | None => awaitKeygen rounds eps ceremonyID ids (S round)
            end
      end
  end.

Definition keygenPayload (req : DKGCeremonyRequest) (auth : string * string) : tssKeygenStartBody :=
  {| ksCeremonyID := dkgCeremonyID req; ksThreshold := dkgK req; ksPeers := peersOf (dkgPartyIDs req) (dkgPartyEndpoints req);
     ksAuthorization := fst auth; ksAuthorizationSignature := snd auth; ksBlockchain := dkgChainID req |}.

(** A panic of the authoriser fails the activity. *)
Definition ExecuteRealDKG (rounds : nat) (req : DKGCeremonyRequest) : option (Workflow.answer DKGCeremonyResult) :=
  let ids := dkgPartyIDs req in
  if negb (len ids =? len (dkgPartyEndpoints req)) then
    Some (inl ("partyIds (" +:+ show_int (len ids) +:+ ") and partyEndpoints (" +:+ show_int (len (dkgPartyEndpoints req)) +:+ ") length mismatch"))
  else if len ids =? 0 then Some (inl "no parties specified"%string)
  else
    let eps := endpointByParty ids (dkgPartyEndpoints req) in
    match authorize "keygen" (dkgCeremonyID req) "" with
    | Err e => Some (inr (dkgFailed (dkgCeremonyID req) (authText e)))
    | Panic => Some (inl "panic"%string)
    | Ok auth =>
        match startAll eps "/tss/keygen/start" (KeygenPayload (keygenPayload req auth)) 0 ids with
        | Some e => Some (inr (dkgFailed (dkgCeremonyID req) e))
        | None => awaitKeygen rounds eps (dkgCeremonyID req) ids 0
        end
    end.

(** ** Signing *)

Definition maxSigningMessageBytes : Z := 4096.

Definition signFailed (e : string) : ThresholdSigningResult :=
  {| Signature := ""; SigningSignedTx := ""; SigningStatus := "failed"; SigningError := e |}.

(** All done so far, and the signature seen. *)
Fixpoint pollSign (eps : gmap Z string) (signID : string) (round pos : nat) (ids : list Z) (acc : bool * string)
    : string + (bool * string) :=
  match ids with
  | [] => inr acc
  | id :: ids =>
      match getTSSStatus unmarshalSign round pos (endpoint eps id +:+ "/tss/sign/status?sign_id=" +:+ signID) with
      | inl e => inl ("party " +:+ show_int id +:+ " status check: " +:+ e)
      | inr st =>
          if String.eqb (sbStatus st) "failed" then inl ("party " +:+ show_int id +:+ ": " +:+ sbError st)
          else if String.eqb (sbStatus st) "completed" then
            if negb (String.eqb (snd acc) "") && negb (String.eqb (snd acc) (sbSignature st)) then
              inl ("party " +:+ show_int id +:+ " produced a different signature than the rest of the committee -- signing did not converge")
            else pollSign eps signID round (S pos) ids (fst acc, sbSignature st)
          else pollSign eps signID round (S pos) ids (false, snd acc)
      end
  end.

Fixpoint awaitSign (rounds : nat) (eps : gmap Z string) (signID : string) (ids : list Z) (round : nat)
    : option (Workflow.answer ThresholdSigningResult) :=
  match rounds with
  | O => None
  | S rounds =>
      match pollSign eps signID round 0 ids (true, ""%string) with
      | inl e => Some (inr (signFailed e))
      | inr (true, sig) =>
          Some (inr {| Signature := sig; SigningSignedTx := ""; SigningStatus := "completed"; SigningError := "" |})
      | inr (false, _) =>
          match ctxDone round with
          | Some e => Some (inl e)
          | None => awaitSign rounds eps signID ids (S round)
          end
      end
  end.

Definition signIDOf (ceremonyID : string) (message : bytes) : string :=
  ceremonyID +:+ "-sign-" +:+ hex_encode (take 8 (sha256 (to_bytes (ceremonyID +:+ ":") ++ message))).

Definition signPayload (req : ThresholdSigningRequest) (message : bytes) (auth : string * string) : tssSignStartBody :=
  {| ssSignID := signIDOf (signCeremonyID req) message; ssKeygenCeremonyID := signCeremonyID req;
     ssMessageHashHex := signMessage req; ssCommitteePartyIDs := signPartyIDs req;
     ssAuthorization := fst auth; ssAuthorizationSignature := snd auth |}.

(** The text of a [hex.DecodeString] error is not kept. *)
Definition ExecuteRealSigning (rounds : nat) (req : ThresholdSigningRequest) : option (Workflow.answer ThresholdSigningResult) :=
  let ids := signPartyIDs req in
  if negb (len ids =? len (signPartyEndpoints req)) then
    Some (inl ("partyIds (" +:+ show_int (len ids) +:+ ") and partyEndpoints (" +:+ show_int (len (signPartyEndpoints req)) +:+ ") length mismatch"))
  else if len ids =? 0 then Some (inl "no signing committee specified"%string)
  else
    match hex_decode (signMessage req) with
    | None => Some (inl "message must be hex-encoded"%string)
    | Some message =>
        if (len message =? 0) || (maxSigningMessageBytes <? len message) then
          Some (inl ("message must be between 1 and " +:+ show_int maxSigningMessageBytes +:+ " bytes, got " +:+ show_int (len message)))
        else
          let signID := signIDOf (signCeremonyID req) message in
          let eps := endpointByParty ids (signPartyEndpoints req) in
          match authorize "sign" signID (signMessage req) with
          | Err e => Some (inr (signFailed (authText e)))
          | Panic => Some (inl "panic"%string)
          | Ok auth =>
              match startAll eps "/tss/sign/start" (SignPayload (signPayload req message auth)) 0 ids with
              | Some e => Some (inr (signFailed e))
              | None => awaitSign rounds eps signID ids 0
              end
          end
    end.
End Activities.

(** ** Facts *)

Section Facts.
Context `{Network}.
Variable authorize : string -> string -> string -> result Authorization.AuthErr (string * string).
Variable authText : Authorization.AuthErr -> string.

(** What a party reports of a key generation in a round. *)
Definition keygenReport (eps : gmap Z string) (ceremonyID : string) (round pos : nat) (id : Z) : string + tssKeygenStatusBody :=
  getTSSStatus unmarshalKeygen round pos (endpoint eps id +:+ "/tss/keygen/status?ceremony_id=" +:+ ceremonyID).
Definition signReport (eps : gmap Z string) (signID : string) (round pos : nat) (id : Z) : string + tssSignStatusBody :=
  getTSSStatus unmarshalSign round pos (endpoint eps id +:+ "/tss/sign/status?sign_id=" +:+ signID).

(** [P] of every party, by its position. *)
Definition eachParty (ids : list Z) (P : nat -> Z -> Prop) : Prop := forall i id, ids !! i = Some id -> P i id.

Lemma eachParty_cons id ids P : eachParty (id :: ids) P <-> P 0%nat id /\ eachParty ids (fun i => P (S i)).
Proof.
  split.
  - intros E; split; [ apply E; done | intros i x L; apply E; done ].
  - intros [ E0 E ] [ | i ] x L; [ injection L as <-; done | apply E; done ].
Qed.

Lemma eachParty_impl ids (P Q : nat -> Z -> Prop) : (forall i id, P i id -> Q i id) -> eachParty ids P -> eachParty ids Q.
Proof. intros I E i id L; eauto. Qed.

Definition reportsDone (eps : gmap Z string) (cid : string) (round : nat) (pos : nat) (id : Z) : Prop :=
  exists st, keygenReport eps cid round pos id = inr st /\ kbStatus st = "completed"%string.
(** Neither an error nor a failure. *)
Definition reportsFine (eps : gmap Z string) (cid : string) (round : nat) (pos : nat) (id : Z) : Prop :=
  exists st, keygenReport eps cid round pos id = inr st /\ kbStatus st <> "failed"%string.

Lemma pollKeygen_seen eps cid round ids : forall pos acc seen,
  pollKeygen eps cid round pos ids acc = inr seen ->
  (kAllDone seen = true <-> kAllDone acc = true /\ eachParty ids (fun i => reportsDone eps cid round (pos + i))) /\
  (kAllDone seen = true -> forall id, last ids = Some id ->
     exists st, keygenReport eps cid round (pos + length ids - 1) id = inr st /\ kbStatus st = "completed"%string /\
       kAddress seen = kbAddress st /\ kPubKey seen = kbPublicKey st).
Proof.
  induction ids as [ | id ids IH ]; intros pos acc seen E; cbn in E.
  { injection E as <-; split; [ split; [ intros ->; split; [ done | intros ? ? X; discriminate X ] | tauto ] | done ]. }
  fold (keygenReport eps cid round pos id) in E; destruct (keygenReport eps cid round pos id) as [ e | st ] eqn:R; [ done | ].
  destruct (String.eqb_spec (kbStatus st) "failed"); [ done | ].
  assert (forall acc', pollKeygen eps cid round (S pos) ids acc' = inr seen ->
    (kAllDone acc' = (kAllDone acc && String.eqb (kbStatus st) "completed")) ->
    (kbStatus st = "completed"%string -> kAddress acc' = kbAddress st /\ kPubKey acc' = kbPublicKey st) ->
    (kAllDone seen = true <-> kAllDone acc = true /\ eachParty (id :: ids) (fun i => reportsDone eps cid round (pos + i))) /\
    (kAllDone seen = true -> forall id0, last (id :: ids) = Some id0 ->
       exists st, keygenReport eps cid round (pos + length (id :: ids) - 1) id0 = inr st /\ kbStatus st = "completed"%string /\
         kAddress seen = kbAddress st /\ kPubKey seen = kbPublicKey st)) as G.
  { intros acc' E' A B; destruct (IH _ _ _ E') as [ I1 I2 ].
    assert (kAllDone seen = true <-> kAllDone acc = true /\ eachParty (id :: ids) (fun i => reportsDone eps cid round (pos + i))) as J.
    { rewrite I1, A, andb_true_iff, String.eqb_eq, eachParty_cons, Nat.add_0_r; unfold reportsDone at 2; rewrite R.
      split.
      - intros [ [ ? ? ] F ]; split_and!; [ done | eauto | ].
        eapply eachParty_impl; [ | exact F ]; intros i x; cbn; rewrite Nat.add_succ_r; done.
      - intros (? & (st' & [= <-] & ?) & F); split; [ done | ].
        eapply eachParty_impl; [ | exact F ]; intros i x; cbn; rewrite Nat.add_succ_r; done. }
    split; [ exact J | ]; intros D id0 L; destruct ids as [ | id1 ids ].
    - cbn in L; injection L as <-; cbn in E'; injection E' as <-; cbn; rewrite Nat.add_sub; exists st.
      assert (kbStatus st = "completed"%string) as Cs by (rewrite A, andb_true_iff, String.eqb_eq in D; tauto).
      destruct (B Cs); done.
    - destruct (I2 D id0 L) as (st' & ? & ? & ?); exists st'; cbn [length] in *.
      replace (pos + S (S (length ids)) - 1)%nat with (S pos + S (length ids) - 1)%nat by lia; done. }
  destruct (String.eqb_spec (kbStatus st) "completed") as [ C | C ]; (eapply G; [ exact E | | ]); cbn.
  - rewrite andb_true_r; done.
  - done.
  - rewrite andb_false_r; done.
  - done.
Qed.

Lemma pollKeygen_fine eps cid round ids : forall pos acc,
  eachParty ids (fun i => reportsFine eps cid round (pos + i)) -> exists seen, pollKeygen eps cid round pos ids acc = inr seen.
Proof.
  induction ids as [ | id ids IH ]; intros pos acc F; cbn; [ eauto | ].
  apply eachParty_cons in F as [ (st & R & N) F ]; rewrite Nat.add_0_r in R; unfold keygenReport in R; rewrite R.
  apply String.eqb_neq in N; rewrite N.
  assert (eachParty ids (fun i => reportsFine eps cid round (S pos + i))) as F'.
  { eapply eachParty_impl; [ | exact F ]; intros i x; cbn; rewrite Nat.add_succ_r; done. }
  destruct (String.eqb (kbStatus st) "completed"); apply IH; done.
Qed.

Lemma startAll_none eps path payload ids : forall pos,
  startAll eps path payload pos ids = None <->
  eachParty ids (fun i id => postJSONExpect2xx (pos + i) (endpoint eps id +:+ path) payload = None).
Proof.
  induction ids as [ | id ids IH ]; intros pos; cbn; [ split; [ intros _ ? ? X; discriminate X | done ] | ].
  rewrite eachParty_cons, Nat.add_0_r.
  assert (startAll eps path payload (S pos) ids = None <->
    eachParty ids (fun i id => postJSONExpect2xx (pos + S i) (endpoint eps id +:+ path) payload = None)) as X.
  { rewrite IH; split; apply eachParty_impl; intros i x; rewrite Nat.add_succ_r; done. }
  destruct (postJSONExpect2xx _ _ _); [ split; [ done | intros [ ? ? ]; done ] | rewrite X; tauto ].
Qed.

Lemma awaitKeygen_done rounds eps cid ids : forall round res,
  awaitKeygen rounds eps cid ids round = Some (inr res) -> CeremonyStatus res = "completed"%string ->
  exists k, (round <= k < round + rounds)%nat /\ eachParty ids (reportsDone eps cid k) /\ CeremonyID res = cid /\
    forall id, last ids = Some id -> exists st, keygenReport eps cid k (length ids - 1) id = inr st /\
      kbStatus st = "completed"%string /\ ThresholdAddress res = kbAddress st /\ ThresholdPubKey res = kbPublicKey st.
Proof.
  induction rounds as [ | rounds IH ]; intros round res E D; cbn in E; [ done | ].
  destruct (pollKeygen _ _ _ _ _ _) as [ e | seen ] eqn:P; [ injection E as <-; done | ].
  apply pollKeygen_seen in P as [ P1 P2 ]; destruct (kAllDone seen).
  - injection E as <-; exists round; split_and!; [ lia | lia | apply P1; done | done | exact (P2 eq_refl) ].
  - destruct (ctxDone round); [ done | ]; destruct (IH _ _ E D) as (k & B & X); exists k; split; [ lia | exact X ].
Qed.

Lemma awaitKeygen_completes eps cid ids k : forall rounds round,
  (k < round + rounds)%nat -> (round <= k)%nat ->
  (forall j, (round <= j < k)%nat -> eachParty ids (reportsFine eps cid j) /\ ctxDone j = None) ->
  eachParty ids (reportsDone eps cid k) ->
  exists res, awaitKeygen rounds eps cid ids round = Some (inr res) /\ CeremonyStatus res = "completed"%string.
Proof.
  induction rounds as [ | rounds IH ]; intros round B Hle F D; [ lia | ]; cbn.
  assert (eachParty ids (reportsFine eps cid round)) as Fr.
  { destruct (decide (round = k)) as [ -> | ]; [ | apply F; lia ].
    eapply eachParty_impl; [ | exact D ]; intros i id (st & ? & S); exists st; rewrite S; done. }
  destruct (pollKeygen_fine eps cid round ids 0 {| kAllDone := true; kAddress := ""; kPubKey := ""; kSealedCount := 0 |} Fr)
    as [ seen P ]; rewrite P; apply pollKeygen_seen in P as [ P _ ]; destruct (kAllDone seen); [ eauto | ].
  assert (round <> k) as N by (intros ->; discriminate (proj2 P (conj eq_refl D))).
  destruct (F round ltac:(lia)) as [ _ -> ]; apply IH; [ lia | lia | intros j Hj; apply F; lia | done ].
Qed.

(** *** Key generation *)

Lemma real_dkg_done rounds req res :
  ExecuteRealDKG authorize authText rounds req = Some (inr res) -> CeremonyStatus res = "completed"%string ->
  let ids := dkgPartyIDs req in
  let eps := endpointByParty ids (dkgPartyEndpoints req) in
  exists auth k, authorize "keygen" (dkgCeremonyID req) "" = Ok auth /\ ids <> [] /\
    eachParty ids (fun i id => postJSONExpect2xx i (endpoint eps id +:+ "/tss/keygen/start") (KeygenPayload (keygenPayload req auth)) = None) /\
    eachParty ids (reportsDone eps (dkgCeremonyID req) k) /\
    forall id, last ids = Some id -> exists st, keygenReport eps (dkgCeremonyID req) k (length ids - 1) id = inr st /\
      ThresholdAddress res = kbAddress st /\ ThresholdPubKey res = kbPublicKey st.
Proof.
  intros E D ids eps; unfold ExecuteRealDKG in E; fold ids in E; fold eps in E.
  destruct (negb _); [ done | ]; destruct (len ids =? 0) eqn:L0; [ done | ].
  destruct (authorize _ _ _) as [ auth | e | ]; [ | injection E as <-; done | done ].
  destruct (startAll _ _ _ _ _) eqn:S; [ injection E as <-; done | ]; apply startAll_none in S.
  destruct (awaitKeygen_done _ _ _ _ _ _ E D) as (k & _ & X & _ & Y); exists auth, k; split_and!; auto.
  - intros X0; rewrite X0 in L0; discriminate L0.
  - intros id Hl; destruct (Y id Hl) as (st & ? & _ & ?); eauto.
Qed.

(** A key is reported only by its parties together: a ceremony that ends
    [completed] was authorised, every party accepted the very same start
    request, and in one round of polling every party reported it completed.
    The address and public key are those the last party of the list reported. *)
Theorem dkg_completed_by_all rounds req res :
  ExecuteRealDKG authorize authText rounds req = Some (inr res) -> CeremonyStatus res = "completed"%string ->
  let ids := dkgPartyIDs req in
  let eps := endpointByParty ids (dkgPartyEndpoints req) in
  exists auth k, authorize "keygen" (dkgCeremonyID req) "" = Ok auth /\ ids <> [] /\
    eachParty ids (fun i id => postJSONExpect2xx i (endpoint eps id +:+ "/tss/keygen/start") (KeygenPayload (keygenPayload req auth)) = None) /\
    eachParty ids (reportsDone eps (dkgCeremonyID req) k) /\
    forall id, last ids = Some id -> exists st, keygenReport eps (dkgCeremonyID req) k (length ids - 1) id = inr st /\
      ThresholdAddress res = kbAddress st /\ ThresholdPubKey res = kbPublicKey st.
Proof. apply real_dkg_done. Qed.

(** And it ends: when the parties accept the start, none of them fails, and in
    round [k] all of them report completion, then [k + 1] rounds of polling are
    enough for the ceremony to be reported completed. *)
Theorem dkg_completes req auth k :
  let ids := dkgPartyIDs req in
  let eps := endpointByParty ids (dkgPartyEndpoints req) in
  length ids = length (dkgPartyEndpoints req) -> ids <> [] ->
  authorize "keygen" (dkgCeremonyID req) "" = Ok auth ->
  eachParty ids (fun i id => postJSONExpect2xx i (endpoint eps id +:+ "/tss/keygen/start") (KeygenPayload (keygenPayload req auth)) = None) ->
  (forall j, (j < k)%nat -> eachParty ids (reportsFine eps (dkgCeremonyID req) j) /\ ctxDone j = None) ->
  eachParty ids (reportsDone eps (dkgCeremonyID req) k) ->
  exists res, ExecuteRealDKG authorize authText (S k) req = Some (inr res) /\ CeremonyStatus res = "completed"%string.
Proof.
  intros ids eps L N A S F D; unfold ExecuteRealDKG; fold ids; fold eps; unfold len; rewrite L, Z.eqb_refl; cbn [negb].
  rewrite (proj2 (Z.eqb_neq _ _)) by (intros Z0; apply N, length_zero_iff_nil; lia); rewrite A.
  rewrite (proj2 (startAll_none eps _ (KeygenPayload (keygenPayload req auth)) ids 0) S); apply awaitKeygen_completes with (k := k); auto with lia.
Qed.

(** *** Signing *)

Variable sha256 : bytes -> bytes.

Definition signedBy (eps : gmap Z string) (signID : string) (round pos : nat) (id : Z) (sig : string) : Prop :=
  exists st, signReport eps signID round pos id = inr st /\ sbStatus st = "completed"%string /\ sbSignature st = sig.

(** Once a signature has been seen every further one is that one. *)
Lemma pollSign_done eps signID round ids : forall pos b s sig,
  pollSign eps signID round pos ids (b, s) = inr (true, sig) ->
  b = true /\ (s <> ""%string -> sig = s) /\
  eachParty ids (fun i id => exists g, signedBy eps signID round (pos + i) id g /\ (g = sig \/ g = ""%string)) /\
  (s <> ""%string -> eachParty ids (fun i id => signedBy eps signID round (pos + i) id sig)).
Proof.
  induction ids as [ | id ids IH ]; intros pos b s sig E; cbn in E.
  { injection E as -> ->; split_and!; [ done | done | intros ? ? X; discriminate X | intros _ ? ? X; discriminate X ]. }
  fold (signReport eps signID round pos id) in E; destruct (signReport eps signID round pos id) as [ | st ] eqn:R; [ done | ].
  destruct (String.eqb _ "failed"); [ done | ]; destruct (String.eqb_spec (sbStatus st) "completed") as [ C | C ].
  2: { destruct (IH _ _ _ _ E) as [ X _ ]; done. }
  cbn [fst snd] in E; destruct (_ && _) eqn:M; [ done | ].
  destruct (IH _ _ _ _ E) as (Hb & Hs & F & G).
  assert (s <> ""%string -> s = sbSignature st) as Es.
  { intros N; apply andb_false_iff in M as [ M | M ]; b2p; done. }
  assert (forall P : nat -> Z -> Prop, eachParty ids (fun i => P (S pos + i)%nat) -> eachParty ids (fun i => P (pos + S i)%nat)) as Sh.
  { intros P; apply eachParty_impl; intros i x; rewrite Nat.add_succ_r; done. }
  split_and!; [ done | | | ].
  - intros N; rewrite (Es N) in N |- *; apply Hs, N.
  - apply eachParty_cons; rewrite Nat.add_0_r; split.
    + exists (sbSignature st); split; [ exists st; done | ].
      destruct (decide (sbSignature st = ""%string)); [ auto | left; symmetry; auto ].
    + apply (Sh (fun j id => exists g, signedBy eps signID round j id g /\ (g = sig \/ g = ""%string))), F.
  - intros N; rewrite (Es N) in N; apply eachParty_cons; rewrite Nat.add_0_r; split.
    + exists st; rewrite (Hs N); done.
    + apply (Sh (fun j id => signedBy eps signID round j id sig)), G, N.
Qed.

Lemma awaitSign_done rounds eps signID ids : forall round res,
  awaitSign rounds eps signID ids round = Some (inr res) -> SigningStatus res = "completed"%string ->
  exists k, pollSign eps signID k 0 ids (true, ""%string) = inr (true, Signature res).
Proof.
  induction rounds as [ | rounds IH ]; intros round res E D; cbn in E; [ done | ].
  destruct (pollSign _ _ _ _ _ _) as [ e | [ [ | ] sig ] ] eqn:P; [ injection E as <-; done | injection E as <-; eauto | ].
  destruct (ctxDone round); [ done | eauto ].
Qed.

(** A signature is reported only when the whole committee agrees on it: every
    party accepted the request to sign these bytes, and in one round of
    polling every party reported completion, none with another signature. *)
Theorem signature_is_unanimous rounds req res :
  ExecuteRealSigning authorize authText sha256 rounds req = Some (inr res) -> SigningStatus res = "completed"%string ->
  let ids := signPartyIDs req in
  let eps := endpointByParty ids (signPartyEndpoints req) in
  exists message auth k, hex_decode (signMessage req) = Some message /\ 0 < len message <= maxSigningMessageBytes /\
    let signID := signIDOf sha256 (signCeremonyID req) message in
    authorize "sign" signID (signMessage req) = Ok auth /\
    eachParty ids (fun i id => postJSONExpect2xx i (endpoint eps id +:+ "/tss/sign/start") (SignPayload (signPayload sha256 req message auth)) = None) /\
    eachParty ids (fun i id => exists g, signedBy eps signID k i id g /\ (g = Signature res \/ g = ""%string)).
Proof.
  intros E D ids eps; unfold ExecuteRealSigning in E; fold ids in E; fold eps in E.
  destruct (negb _); [ done | ]; destruct (len ids =? 0); [ done | ].
  destruct (hex_decode _) as [ message | ]; [ | done ]; destruct (_ || _) eqn:B; [ done | ].
  destruct (authorize _ _ _) as [ auth | e | ] eqn:A; [ | injection E as <-; done | done ].
  destruct (startAll _ _ _ _ _) eqn:S; [ injection E as <-; done | ]; apply startAll_none in S.
  destruct (awaitSign_done _ _ _ _ _ _ E D) as (k & P); apply pollSign_done in P as (_ & _ & F & _).
  exists message, auth, k; b2p; pose proof (len_nonneg message); split_and!; auto; lia.
Qed.
End Facts.

(** *** The peers of a key generation, written and read back *)

Lemma skip_blanks_digits s : all_digits s = true -> skip_blanks s = Some s.
Proof.
  destruct s as [ | c s ]; [ done | ]; cbn; unfold digit_value; destruct (_ && _) eqn:D; [ intros _ | done ]; b2p.
  assert (Ascii.eqb c newline = false) as ->.
  { apply Ascii.eqb_neq; intros ->; vm_compute in *; congruence. }
  assert (is_space c = false) as ->; [ unfold is_space; lia | done ].
Qed.

Lemma sscanf_int_show n : 0 <= n < two63 -> sscanf_int (show_int n) = Some n.
Proof.
  intros Hn; unfold sscanf_int; rewrite skip_blanks_digits by (apply show_int_digits; lia).
  pose proof (parse_int_show n Hn) as P; unfold parse_int in P.
  destruct (scan_int (show_int n)) as [ [ v [ | ] ] | ]; done.
Qed.

Definition read_id (n : Z) : Prop := 0 <= n < two63.

Lemma peersOf_kmap ids eps : peersOf ids eps = kmap show_int (endpointByParty ids eps).
Proof.
  assert (Inj (=) (=) show_int) as I by (intros m n; apply show_int_inj).
  unfold peersOf, endpointByParty; rewrite <- (kmap_empty (M1 := gmap Z) (M2 := gmap string) show_int) at 1.
  generalize (∅ : gmap Z string); induction (zip ids eps) as [ | [ k v ] l IH ]; intros m; cbn; [ done | ].
  rewrite <- kmap_insert by done; apply IH.
Qed.

Lemma endpointByParty_keys ids eps k : is_Some (endpointByParty ids eps !! k) -> k ∈ ids.
Proof.
  unfold endpointByParty; assert (forall l m, Forall (fun kv => kv.1 ∈ ids) l -> (is_Some (m !! k) -> k ∈ ids) ->
    is_Some (foldl (fun (m : gmap Z string) (kv : Z * string) => <[ kv.1 := kv.2 ]> m) m l !! k) -> k ∈ ids) as G.
  { induction l as [ | kv l IH ]; intros m F M; cbn; [ done | ]; apply Forall_cons in F as [ F0 F ]; apply IH; [ done | ].
    destruct (decide (k = kv.1)) as [ -> | N ]; [ done | rewrite lookup_insert_ne by done; done ]. }
  apply G; [ | intros [ ? X ]; rewrite lookup_empty in X; done ].
  apply Forall_forall; intros [ a b ] Hin; apply elem_of_zip_l in Hin; done.
Qed.

Lemma readPeers_entries l : forall m, Forall (fun kv => read_id kv.1) l ->
  PartyServer.readPeers ((fun kv => (show_int kv.1, kv.2)) <$> l) m = Ok (foldl (fun m kv => <[ kv.1 := kv.2 ]> m) m l).
Proof.
  induction l as [ | [ k v ] l IH ]; intros m F; cbn; [ done | ]; apply Forall_cons in F as [ F0 F ]; cbn in F0.
  rewrite sscanf_int_show by done; apply IH, F.
Qed.

Lemma insert_all (l : list (Z * string)) :
  NoDup l.*1 -> foldl (fun m kv => <[ kv.1 := kv.2 ]> m) ∅ l = (list_to_map l : gmap Z string).
Proof.
  induction l as [ | [ k v ] l IH ] using rev_ind; intros N; [ done | ].
  rewrite foldl_snoc, IH by (rewrite fmap_app in N; apply NoDup_app in N; tauto); cbn.
  rewrite (list_to_map_proper (l ++ [ (k, v) ]) ((k, v) :: l)); [ done | done | symmetry; apply Permutation_cons_append ].
Qed.

(** A party reads from a start request the parties the worker meant, whatever
    order it visits the request's map in. *)
Lemma peers_understood `{PartyServer.StringRange} ids eps :
  Forall read_id ids -> PartyServer.readPeers (PartyServer.srange (peersOf ids eps)) ∅ = Ok (endpointByParty ids eps).
Proof.
  intros F; rewrite peersOf_kmap; set (m := endpointByParty ids eps).
  assert (Inj (=) (=) show_int) as I by (intros a b; apply show_int_inj).
  pose proof (PartyServer.srange_perm (kmap show_int m)) as P.
  rewrite (map_to_list_kmap show_int m) in P; apply Permutation_map_inv in P as (l & E & Pl).
  change (map ?f ?l) with (f <$> l) in E; rewrite E.
  assert (Forall (fun kv : Z * string => read_id kv.1) l) as Fl.
  { apply Forall_forall; intros [ k v ] Hk; rewrite <- Pl in Hk; apply elem_of_map_to_list in Hk.
    rewrite Forall_forall in F; apply F; eapply endpointByParty_keys; eauto. }
  assert (NoDup l.*1) as N by (rewrite <- Pl; apply NoDup_fst_map_to_list).
  transitivity (PartyServer.readPeers ((fun kv : Z * string => (show_int kv.1, kv.2)) <$> l) ∅).
  { f_equal; apply list_fmap_ext; intros i [ k v ] _; done. }
  rewrite readPeers_entries by done; f_equal; rewrite insert_all by done.
  rewrite <- (list_to_map_to_list m); apply list_to_map_proper; [ done | symmetry; done ].
Qed.

(** ** The worker and the party *)

(** The request a party decodes from the worker's body: the JSON names are the
    same, and no curve is sent. *)
Definition received (b : tssKeygenStartBody) : PartyServer.tssKeygenStartRequest :=
  {| PartyServer.kgCeremonyID := ksCeremonyID b; PartyServer.kgThreshold := ksThreshold b; PartyServer.kgPeers := ksPeers b;
     PartyServer.kgCurve := ""; PartyServer.kgBlockchain := ksBlockchain b; PartyServer.kgAuthorization := ksAuthorization b;
     PartyServer.kgAuthorizationSignature := ksAuthorizationSignature b |}.
Definition receivedSign (b : tssSignStartBody) : PartyServer.tssSignStartRequest :=
  {| PartyServer.snSignID := ssSignID b; PartyServer.snKeygenCeremonyID := ssKeygenCeremonyID b;
     PartyServer.snMessageHashHex := ssMessageHashHex b; PartyServer.snCommitteePartyIDs := ssCommitteePartyIDs b;
     PartyServer.snAuthorization := ssAuthorization b; PartyServer.snAuthorizationSignature := ssAuthorizationSignature b |}.

Section WorkerAndParty.
Context `{KeyShare.ShareCrypto, Committee.TssIds, !PartyManager.TssMessages, !PartyManager.TssSaves, PartyManager.GoRange, PartyServer.StringRange}
  {W : Type} `{!ShareStore.Keeper W}.
Context (K P : Type) (ed25519Verify : bytes -> bytes -> bytes -> bool) (sha256 : bytes -> bytes)
  (verifyASN1 : K -> bytes -> bytes -> bool) (unmarshal : string -> option Authorization.AuthorizationRequest)
  (ed25519Sign : bytes -> bytes -> bytes) (signASN1 : P -> bytes -> option bytes)
  (marshal : Authorization.AuthorizationRequest -> option string) (validUrl : string -> bool)
  (post : Authorization.SignerPost -> option (Z * option Authorization.externalSignResponse)).
Context (signer : Authorization.ceremonySigner P) (a : Authorization.Authorizer K)
  `{!Authorization.SignerFor ed25519Verify sha256 verifyASN1
      (Authorization.sign P ed25519Sign sha256 signASN1 validUrl post signer) a}.
Context (marshalled : forall r body, marshal r = Some body -> unmarshal body = Some r /\ body <> ""%string).

Abbreviation workerAuthorizes now := (Authorization.authorize P ed25519Sign sha256 signASN1 marshal validUrl post (Some signer) now).
Abbreviation State := (PartyManager.System (W := W)).

(** The party hears of it soon enough, on clocks that agree well enough. *)
Definition timely (sent heard : Z) : Prop :=
  0 <= sent < two63 /\ 0 <= heard < two63 /\ sent - 30 * Authorization.second <= heard /\
  heard + Authorization.second <= sent + Authorization.maxAge a.

Lemma worker_is_accepted sent heard op id hash auth :
  workerAuthorizes sent op id hash = Ok auth -> timely sent heard -> op <> ""%string -> id <> ""%string ->
  Authorization.requireAuthorization K ed25519Verify sha256 verifyASN1 unmarshal (Some a) heard op id hash auth.1 auth.2 = Ok tt.
Proof.
  intros A (T1 & T2 & T3 & T4) No Ni; destruct auth as [ body signature ].
  eapply Authorization.worker_authorisation_accepted; eauto.
Qed.

(** What the worker asks of a party the party does: the start request of a key
    generation passes every check of a party that requires the worker's
    signature, and comes to starting the ceremony among exactly the parties
    and endpoints of the worker's request, on the curve of its chain. *)
Theorem dkg_start_understood ps (s : State) r sent heard req auth c :
  PartyServer.authorizer K ps = Some a -> PartyServer.Method r = "POST"%string ->
  workerAuthorizes sent "keygen" (dkgCeremonyID req) "" = Ok auth -> timely sent heard ->
  dkgCeremonyID req <> ""%string -> 0 < dkgK req -> Forall read_id (dkgPartyIDs req) ->
  endpointByParty (dkgPartyIDs req) (dkgPartyEndpoints req) <> ∅ -> KeyShare.CurveForChain (dkgChainID req) = Ok c ->
  PartyManager.frozen s = false ->
  PartyServer.HandleTSSKeygenStart K ed25519Verify sha256 verifyASN1 unmarshal ps s r heard
    (Some (received (keygenPayload req auth)))
  = match PartyManager.startKeygen (PartyManager.mgr s) (dkgCeremonyID req) (dkgK req)
            (endpointByParty (dkgPartyIDs req) (dkgPartyEndpoints req)) c (dkgChainID req) with
    | Ok st => (PartyManager.spawn s (Ok st), PartyServer.Answered 202 (PartyServer.Status "started"))
    | Err e => (s, PartyServer.Answered 500 (PartyServer.Error (PartyServer.Manager e)))
    | Panic => (s, PartyServer.Dropped)
    end.
Proof.
  intros Hps Hm Ha Ht Hid Hk Hids Hne Hc Hf; unfold PartyServer.HandleTSSKeygenStart, PartyServer.requirePost; rewrite Hm.
  cbn [String.eqb Ascii.eqb Bool.eqb negb PartyServer.decoded result_bind received keygenPayload PartyServer.kgCeremonyID
    PartyServer.kgThreshold PartyServer.kgPeers PartyServer.kgCurve PartyServer.kgBlockchain PartyServer.kgAuthorization
    PartyServer.kgAuthorizationSignature ksCeremonyID ksThreshold ksPeers ksAuthorization ksAuthorizationSignature ksBlockchain].
  rewrite (proj2 (String.eqb_neq _ _) Hid), (proj2 (Z.leb_gt _ _) Hk); cbn [orb].
  rewrite bool_decide_false; cycle 1.
  { rewrite peersOf_kmap; intros S0; apply map_size_empty_inv in S0.
    apply (kmap_empty_iff show_int) in S0; done. }
  cbn [result_bind]; rewrite peers_understood by done; cbn [result_bind].
  unfold PartyServer.authorisedFor; rewrite Hps, (worker_is_accepted _ _ _ _ _ _ Ha Ht) by done; cbn [map_err result_bind].
  assert (String.eqb (dkgChainID req) "" = false) as Hch by (apply String.eqb_neq; intros X; rewrite X in Hc; discriminate Hc).
  unfold PartyServer.checkChainCurve, PartyManager.StartKeygenForChain; rewrite Hch, Hc; cbn [map_err result_bind String.eqb negb andb].
  rewrite Hf; destruct (PartyManager.startKeygen _ _ _ _ _ _); done.
Qed.

(** And likewise for a signing: it comes to signing exactly the bytes the
    worker was asked to have signed, with the key of the worker's ceremony and
    the worker's committee. *)
Theorem sign_start_understood ps (s : State) r sent heard req message auth :
  PartyServer.authorizer K ps = Some a -> PartyServer.Method r = "POST"%string ->
  hex_decode (signMessage req) = Some message ->
  workerAuthorizes sent "sign" (signIDOf sha256 (signCeremonyID req) message) (signMessage req) = Ok auth -> timely sent heard ->
  signCeremonyID req <> ""%string -> signPartyIDs req <> [] ->
  let call := PartyManager.RSigning (signIDOf sha256 (signCeremonyID req) message) (signCeremonyID req) message (signPartyIDs req) in
  PartyManager.waits s call = false ->
  PartyServer.HandleTSSSignStart K ed25519Verify sha256 verifyASN1 unmarshal ps s r heard
    (Some (receivedSign (signPayload sha256 req message auth)))
  = match PartyManager.StartSigning (PartyManager.mgr s) (signIDOf sha256 (signCeremonyID req) message) (signCeremonyID req)
            message (signPartyIDs req) with
    | Ok st => (PartyManager.spawn s (Ok st), PartyServer.Answered 202 (PartyServer.Status "started"))
    | Err e => (PartyManager.hold (PartyManager.keepsLocked s call) s, PartyServer.Answered 500 (PartyServer.Error (PartyServer.Manager e)))
    | Panic => (s, PartyServer.Dropped)
    end.
Proof.
  intros Hps Hm Hx Ha Ht Hid Hids call Hw; unfold PartyServer.HandleTSSSignStart, PartyServer.requirePost; rewrite Hm.
  assert (signIDOf sha256 (signCeremonyID req) message <> ""%string) as Hs.
  { unfold signIDOf; destruct (signCeremonyID req); done. }
  cbn [String.eqb Ascii.eqb Bool.eqb negb PartyServer.decoded result_bind receivedSign signPayload PartyServer.snSignID
    PartyServer.snKeygenCeremonyID PartyServer.snMessageHashHex PartyServer.snCommitteePartyIDs PartyServer.snAuthorization
    PartyServer.snAuthorizationSignature ssSignID ssKeygenCeremonyID ssMessageHashHex ssCommitteePartyIDs ssAuthorization
    ssAuthorizationSignature].
  rewrite (proj2 (String.eqb_neq _ _) Hs), (proj2 (String.eqb_neq _ _) Hid); cbn [orb].
  rewrite (proj2 (Z.eqb_neq _ _)) by (intros Z0; apply Hids, len_zero, Z0); rewrite Hx.
  unfold PartyServer.authorisedFor; rewrite Hps, (worker_is_accepted _ _ _ _ _ _ Ha Ht) by done; cbn [map_err result_bind].
  fold call; rewrite Hw; cbn [PartyServer.hangs]; destruct (PartyManager.StartSigning _ _ _ _ _); done.
Qed.
End WorkerAndParty.

(** ** The worker and its workflows *)

Section WorkflowAndWorker.
Context `{Network}.
Variable authorize : string -> string -> string -> result Authorization.AuthErr (string * string).
Variable authText : Authorization.AuthErr -> string.

(** The history's answer to a key generation is a run of the activity. *)
Definition drivesParties (h : History) (req : DKGCeremonyRequest) : Prop :=
  exists rounds, ExecuteRealDKG authorize authText rounds req = Some (realDKG h req).

(** A key is activated only when all of its parties have reported it: whatever
    else happens in a provisioning, the address and public key written to the
    key's row are those the last of its parties reported in a round in which
    every party reported the ceremony completed. *)
Theorem activated_key_was_reported h req act :
  drivesParties h (Ceremony req) -> DoActivate act ∈ fst (ProvisionKeyWorkflow h req) ->
  let c := Ceremony req in
  let eps := endpointByParty (dkgPartyIDs c) (dkgPartyEndpoints c) in
  exists k id st, last (dkgPartyIDs c) = Some id /\ eachParty (dkgPartyIDs c) (reportsDone eps (dkgCeremonyID c) k) /\
    keygenReport eps (dkgCeremonyID c) k (length (dkgPartyIDs c) - 1) id = inr st /\
    actAddress act = kbAddress st /\ actPublicKey act = kbPublicKey st.
Proof.
  intros [ rounds E ] A c eps; destruct (provision_activates _ _ _ A) as (res & R & S & ->); rewrite R in E.
  destruct (real_dkg_done _ _ _ _ _ E S) as (auth & k & _ & N & _ & F & L).
  destruct (last (dkgPartyIDs (Ceremony req))) as [ id | ] eqn:La; [ | apply last_None in La; done ].
  destruct (L id eq_refl) as (st & ? & ? & ?); exists k, id, st; split_and!; auto.
Qed.
End WorkflowAndWorker.

(** ** Concrete runs *)

Module Simple.

(** Parties that are done from the second round on; each reports [key pos]. *)
#[local] Instance parties (key : nat -> string) : Network := {|
  badUrl _ := None;
  startReply _ _ _ := inr (202, ""%string);
  statusReply round pos _ := inr (200, inr (match round with O => "wait" | _ => key pos end)%string);
  ctxDone _ := None;
  unmarshalKeygen body :=
    inr (if String.eqb body "wait" then {| kbStatus := "in_progress"; kbError := ""; kbPublicKey := ""; kbAddress := ""; kbSealed := false |}
         else {| kbStatus := "completed"; kbError := ""; kbPublicKey := body; kbAddress := "0x" +:+ body; kbSealed := true |});
  unmarshalSign body :=
    inr (if String.eqb body "wait" then {| sbStatus := "in_progress"; sbError := ""; sbSignature := "" |}
         else {| sbStatus := "completed"; sbError := ""; sbSignature := body |});
|}.

Definition unsigned (_ _ _ : string) : result Authorization.AuthErr (string * string) := Ok (""%string, ""%string).
Definition noText (_ : Authorization.AuthErr) : string := "".
Definition two : DKGCeremonyRequest :=
  {| dkgCustomerID := "acme"; dkgCeremonyID := "c"; dkgChainID := "solana"; dkgN := 2; dkgK := 1; dkgPartyIDs := [ 1; 2 ];
     dkgPartyEndpoints := [ "http://a"; "http://b" ]%string |}.
Definition done_with (key : string) : DKGCeremonyResult :=
  {| CeremonyID := "c"; CeremonyStatus := "completed"; ThresholdAddress := "0x" +:+ key; ThresholdPubKey := key; CeremonyError := "" |}.

Definition agree : Network := parties (fun _ => "02aa"%string).

Lemma dkg_completed_by_all_witness :
  @ExecuteRealDKG agree unsigned noText 5 two = Some (inr (done_with "02aa")) /\
  exists k, eachParty (dkgPartyIDs two) (@reportsDone agree (endpointByParty [ 1; 2 ] [ "http://a"; "http://b" ]%string) "c" k).
Proof.
  assert (@ExecuteRealDKG agree unsigned noText 5 two = Some (inr (done_with "02aa"))) as E by (vm_compute; reflexivity).
  split; [ exact E | ].
  destruct (@dkg_completed_by_all agree unsigned noText 5 two (done_with "02aa") E eq_refl) as (auth & k & _ & _ & _ & D & _).
  exists k; exact D.
Defined.

Lemma two_each (P : nat -> Z -> Prop) : P 0%nat 1 -> P 1%nat 2 -> eachParty (dkgPartyIDs two) P.
Proof. intros P0 P1; cbn; rewrite !eachParty_cons; split_and!; [ done | done | intros i id E; discriminate E ]. Qed.

Lemma dkg_completes_witness :
  exists res, @ExecuteRealDKG agree unsigned noText 2 two = Some (inr res) /\ CeremonyStatus res = "completed"%string.
Proof.
  apply (@dkg_completes agree unsigned noText two (""%string, ""%string) 1); try reflexivity; try discriminate.
  - apply two_each; reflexivity.
  - intros j Hj; assert (j = 0%nat) as -> by lia; split; [ apply two_each; eexists; (split; [ reflexivity | discriminate ]) | reflexivity ].
  - apply two_each; eexists; split; reflexivity.
Defined.

(** Parties that report different keys: the ceremony completes with the last one's. *)
Lemma parties_may_disagree :
  @ExecuteRealDKG (parties (fun pos => match pos with O => "02aa" | _ => "03bb" end)%string) unsigned noText 5 two
  = Some (inr (done_with "03bb")).
Proof. vm_compute; reflexivity. Qed.

Definition ask : ThresholdSigningRequest :=
  {| signCeremonyID := "c"; signMessage := "ab12"; signPartyIDs := [ 1; 2 ]; signPartyEndpoints := [ "http://a"; "http://b" ]%string;
     signChainID := "solana" |}.
Definition signedAs (sig : string) : ThresholdSigningResult :=
  {| Signature := sig; SigningSignedTx := ""; SigningStatus := "completed"; SigningError := "" |}.

Lemma signature_is_unanimous_witness :
  @ExecuteRealSigning agree unsigned noText id 5 ask = Some (inr (signedAs "02aa")) /\
  exists message k, hex_decode "ab12" = Some message /\
    eachParty [ 1; 2 ] (fun i id' => exists g, @signedBy agree (endpointByParty [ 1; 2 ] [ "http://a"; "http://b" ]%string)
      (signIDOf id "c" message) k i id' g /\ (g = "02aa"%string \/ g = ""%string)).
Proof.
  assert (@ExecuteRealSigning agree unsigned noText id 5 ask = Some (inr (signedAs "02aa"))) as E by (vm_compute; reflexivity).
  split; [ exact E | ].
  destruct (@signature_is_unanimous agree unsigned noText id 5 ask (signedAs "02aa") E eq_refl)
    as (message & auth & k & X & _ & _ & _ & F).
  exists message, k; split; [ exact X | exact F ].
Defined.

Definition provisioning : ProvisionKeyRequest := {| Ceremony := two; KeyID := "k1" |}.
Definition history : History :=
  {| realDKG := fun req => default (inl ""%string) (@ExecuteRealDKG agree unsigned noText 5 req);
     realSigning := fun _ => inl ""%string; activateKeyPair := fun _ => inr tt; setKeyPairStatus := fun _ => inr tt;
     setCeremonyStatus := fun _ => inr tt; deactivateShares := fun _ => inl ""%string; childError := None; sleepError := None |}.

Lemma activated_key_was_reported_witness :
  let a := {| actKeyID := "k1"; actAddress := "0x02aa"; actPublicKey := "02aa" |} in
  DoActivate a ∈ fst (ProvisionKeyWorkflow history provisioning) /\
  exists k id st, @keygenReport agree (endpointByParty [ 1; 2 ] [ "http://a"; "http://b" ]%string) "c" k 1 id = inr st /\
    kbPublicKey st = "02aa"%string.
Proof.
  intros a; assert (DoActivate a ∈ fst (ProvisionKeyWorkflow history provisioning)) as A.
  { apply list_elem_of_In; vm_compute; tauto. }
  split; [ exact A | ].
  destruct (@activated_key_was_reported agree unsigned noText history provisioning a) as (k & id & st & _ & _ & R & _ & Pk).
  - exists 5%nat; vm_compute; reflexivity.
  - exact A.
  - exists k, id, st; split; [ exact R | symmetry; exact Pk ].
Defined.
(** The worker and party 1, with a signature the party requires. *)
Import PartyManager.PartyManager.Simple.
#[local] Existing Instance KeyShare.KeyShare.simple_crypto.
#[local] Existing Instance Committee.Committee.simple_ids.
#[local] Existing Instance Authorization.AuthorizationRequest_eq_dec.
#[local] Existing Instance simple_messages.
#[local] Existing Instance simple_saves.
#[local] Existing Instance simple_range.
#[local] Existing Instance memory_keeper.
#[local] Existing Instance PartyServer.PartyServer.Simple.simple_srange.

Definition moment : Z := 1700000000 * Authorization.second.
Definition keygenAuth : Authorization.AuthorizationRequest :=
  {| Authorization.Operation := "keygen"; Authorization.CeremonyID := "c"; Authorization.MessageHash := "";
     Authorization.IssuedAt := 1700000000 |}.
Definition signAuth : Authorization.AuthorizationRequest :=
  {| Authorization.Operation := "sign"; Authorization.CeremonyID := signIDOf id "key" [ 171; 18 ]; Authorization.MessageHash := "ab12";
     Authorization.IssuedAt := 1700000000 |}.
Definition writes (r : Authorization.AuthorizationRequest) : option string :=
  if decide (r = keygenAuth) then Some "k"%string else if decide (r = signAuth) then Some "s"%string else None.
Definition reads (j : string) : option Authorization.AuthorizationRequest :=
  if String.eqb j "k" then Some keygenAuth else if String.eqb j "s" then Some signAuth else None.
Lemma writes_reads r body : writes r = Some body -> reads body = Some r /\ body <> ""%string.
Proof.
  unfold writes; case_decide as E1; [ | case_decide as E2 ]; intros E; try discriminate E; injection E as <-; subst; split;
    reflexivity || discriminate.
Qed.

#[local] Instance sample_signer :
  Authorization.SignerFor Authorization.sampleVerify id (fun (_ : unit) _ _ => false)
    (Authorization.sign unit (fun _ _ => [ 7 ]) id (fun _ _ => None) (fun _ => true) (fun _ => None) Authorization.sampleKey)
    Authorization.sampleAuthorizer.
Proof.
  apply Authorization.local_ed25519_signer; [ reflexivity | | reflexivity ].
  split; [ repeat constructor; discriminate | discriminate ].
Qed.

Lemma timely_ok : timely unit Authorization.sampleAuthorizer moment (moment + 20 * Authorization.second).
Proof. unfold timely, moment, two63, Authorization.second; cbn; unfold Authorization.second; lia. Qed.

Definition party1 : PartyServer.PartyServer unit :=
  {| PartyServer.psPartyID := 1; PartyServer.authorizer := Some Authorization.sampleAuthorizer |}.
Definition posts : PartyServer.HttpRequest := {| PartyServer.Method := "POST"; PartyServer.TLS := None |}.

Lemma dkg_start_understood_witness :
  snd (PartyServer.HandleTSSKeygenStart unit Authorization.sampleVerify id (fun _ _ _ => false) reads party1 s0 posts
    (moment + 20 * Authorization.second) (Some (received (keygenPayload two ("k", "07")%string))))
  = PartyServer.Answered 202 (PartyServer.Status "started").
Proof.
  rewrite (dkg_start_understood unit unit Authorization.sampleVerify id (fun _ _ _ => false) reads (fun _ _ => [ 7 ]) (fun _ _ => None)
    writes (fun _ => true) (fun _ => None) Authorization.sampleKey Authorization.sampleAuthorizer writes_reads party1 s0 posts
    moment (moment + 20 * Authorization.second) two ("k", "07")%string KeyShare.KeyShare.CurveEd25519 eq_refl eq_refl eq_refl timely_ok).
  - by_run.
  - discriminate.
  - reflexivity.
  - repeat constructor; unfold two63; lia.
  - discriminate.
  - reflexivity.
  - reflexivity.
Defined.

Definition askKey : ThresholdSigningRequest :=
  {| signCeremonyID := "key"; signMessage := "ab12"; signPartyIDs := [ 1; 2 ]; signPartyEndpoints := [ "http://a"; "http://b" ]%string;
     signChainID := "solana" |}.

Lemma sign_start_understood_witness :
  snd (PartyServer.HandleTSSSignStart unit Authorization.sampleVerify id (fun _ _ _ => false) reads party1 s3 posts
    (moment + 20 * Authorization.second) (Some (receivedSign (signPayload id askKey [ 171; 18 ] ("s", "07")%string))))
  = PartyServer.Answered 202 (PartyServer.Status "started").
Proof.
  rewrite (sign_start_understood unit unit Authorization.sampleVerify id (fun _ _ _ => false) reads (fun _ _ => [ 7 ]) (fun _ _ => None)
    writes (fun _ => true) (fun _ => None) Authorization.sampleKey Authorization.sampleAuthorizer writes_reads party1 s3 posts
    moment (moment + 20 * Authorization.second) askKey [ 171; 18 ] ("s", "07")%string eq_refl eq_refl eq_refl eq_refl timely_ok).
  - by_run.
  - discriminate.
  - discriminate.
  - by_run.
Defined.

End Simple.

End RealTss.
