(* ===== verification/NetGuard.v ===== *)
(** * Where a webhook may connect to

    Models [services/webhooks/ssrf_guard.go]: the check on the address a
    connection is about to be made to, and the dialer that applies it.  An
    address is a Go [net.IP], the byte string of 4 or 16 bytes.  The resolver
    and the split of host and port are parameters.

    The theorem: the check is exactly membership in none of the address blocks
    listed here, in their usual notation, with an IPv4-mapped address judged as
    the IPv4 address it carries. *)

From Stdlib Require Import ZArith Lia Ascii String.
From stdpp Require Import base list numbers strings.
From S2P Require Import Prelude GoStrings.

Open Scope Z_scope.

Module NetGuard.

(** ** [net.IP] *)

Abbreviation IP := bytes.

Definition v4InV6Prefix : bytes := replicate 10 0 ++ [ 255; 255 ].

Definition To4 (ip : IP) : option IP :=
  if len ip =? 4 then Some ip
  else if (len ip =? 16) && bool_decide (take 12 ip = v4InV6Prefix) then Some (drop 12 ip)
  else None.

(** [ip.Equal], between addresses of 4 or 16 bytes. *)
Definition Equal (ip x : IP) : bool :=
  if len ip =? len x then bool_decide (ip = x)
  else if (len ip =? 4) && (len x =? 16) then bool_decide (take 12 x = v4InV6Prefix) && bool_decide (ip = drop 12 x)
  else if (len ip =? 16) && (len x =? 4) then bool_decide (take 12 ip = v4InV6Prefix) && bool_decide (drop 12 ip = x)
  else false.

Definition IPv4zero : IP := v4InV6Prefix ++ [ 0; 0; 0; 0 ].
Definition IPv6unspecified : IP := replicate 16 0.
Definition IPv6loopback : IP := replicate 15 0 ++ [ 1 ].

Definition at_ (ip : IP) (i : nat) : Z := default 0 (ip !! i).

Definition IsUnspecified (ip : IP) : bool := Equal ip IPv4zero || Equal ip IPv6unspecified.

Definition IsLoopback (ip : IP) : bool :=
  match To4 ip with
  | Some ip4 => at_ ip4 0 =? 127
  | None => Equal ip IPv6loopback
  end.

Definition IsPrivate (ip : IP) : bool :=
  match To4 ip with
  | Some ip4 =>
      (at_ ip4 0 =? 10) || ((at_ ip4 0 =? 172) && (Z.land (at_ ip4 1) 240 =? 16)) || ((at_ ip4 0 =? 192) && (at_ ip4 1 =? 168))
  | None => (len ip =? 16) && (Z.land (at_ ip 0) 254 =? 252)
  end.

Definition IsMulticast (ip : IP) : bool :=
  match To4 ip with
  | Some ip4 => Z.land (at_ ip4 0) 240 =? 224
  | None => (len ip =? 16) && (at_ ip 0 =? 255)
  end.

Definition IsInterfaceLocalMulticast (ip : IP) : bool :=
  (len ip =? 16) && (at_ ip 0 =? 255) && (Z.land (at_ ip 1) 15 =? 1).

Definition IsLinkLocalMulticast (ip : IP) : bool :=
  match To4 ip with
  | Some ip4 => (at_ ip4 0 =? 224) && (at_ ip4 1 =? 0) && (at_ ip4 2 =? 0)
  | None => (len ip =? 16) && (at_ ip 0 =? 255) && (Z.land (at_ ip 1) 15 =? 2)
  end.

Definition IsLinkLocalUnicast (ip : IP) : bool :=
  match To4 ip with
  | Some ip4 => (at_ ip4 0 =? 169) && (at_ ip4 1 =? 254)
  | None => (len ip =? 16) && (at_ ip 0 =? 254) && (Z.land (at_ ip 1) 192 =? 128)
  end.

(** ** The guard *)

Definition isGloballyRoutable (ip : IP) : bool :=
  if bool_decide (ip = []) then false
  else
    let ip := match To4 ip with Some v4 => v4 | None => ip end in
    negb (IsUnspecified ip || IsLoopback ip || IsLinkLocalUnicast ip || IsLinkLocalMulticast ip ||
          IsInterfaceLocalMulticast ip || IsMulticast ip || IsPrivate ip).

Inductive DialErr : Type := BadAddress | Unresolvable | NoAddresses | DestinationNotAllowed.

(** The address and port the inner dialer is given. *)
Definition DialContext (splitHostPort : string -> option (string * string)) (lookup : string -> option (list IP))
    (addr : string) : result DialErr (IP * string) :=
  match splitHostPort addr with
  | None => Err BadAddress
  | Some (host, port) =>
      match lookup host with
      | None => Err Unresolvable
      | Some [] => Err NoAddresses
      | Some ((ip :: _) as ips) =>
          refuse! negb (forallb isGloballyRoutable ips) with DestinationNotAllowed;
          Ok (ip, port)
      end
  end.

(** ** Address blocks *)

(** Membership of the [w]-bit address [n] in the block of the first [k] bits of [base]. *)
Definition in_block (w : Z) (n : Z) (b : Z * Z) : bool := n / 2 ^ (w - snd b) =? fst b / 2 ^ (w - snd b).

Definition v4 (a b c d : Z) : Z := be_val [ a; b; c; d ].

(** 0.0.0.0/32, 127/8, 169.254/16, 224/4, 10/8, 172.16/12, 192.168/16. *)
Definition v4_reserved : list (Z * Z) :=
  [ (0, 32); (v4 127 0 0 0, 8); (v4 169 254 0 0, 16); (v4 224 0 0 0, 4); (v4 10 0 0 0, 8); (v4 172 16 0 0, 12);
    (v4 192 168 0 0, 16) ].

(** ::/128, ::1/128, fe80::/10, ff00::/8, fc00::/7. *)
Definition v6_reserved : list (Z * Z) :=
  [ (0, 128); (1, 128); (0xfe80 * 2 ^ 112, 10); (0xff00 * 2 ^ 112, 8); (0xfc00 * 2 ^ 112, 7) ].

Definition reserved (ip : IP) : bool :=
  let n := be_val ip in
  if len ip =? 4 then existsb (in_block 32 n) v4_reserved
  else if n / 2 ^ 32 =? 0xffff then existsb (in_block 32 (n mod 2 ^ 32)) v4_reserved
  else existsb (in_block 128 n) v6_reserved.

(** ** Facts *)

Lemma byte_check (P : Z -> bool) a : forallb P (Z.of_nat <$> seq 0 256) = true -> byte_ok a -> P a = true.
Proof.
  intros H Ha; rewrite forallb_forall in H; apply H, list_elem_of_In, list_elem_of_fmap.
  exists (Z.to_nat a); unfold byte_ok in Ha; rewrite elem_of_seq; split; lia.
Qed.

(** A comparison of masked bits is a comparison of quotients. *)
Lemma high4 a v : byte_ok a -> 0 <= v < 16 -> (Z.land a 240 =? v * 16) = (a / 16 =? v).
Proof.
  intros Ha Hv; replace (Z.land a 240) with (a / 16 * 16).
  - apply eq_true_iff_eq; rewrite !Z.eqb_eq; lia.
  - apply Z.eqb_eq; apply (byte_check (fun z => z / 16 * 16 =? Z.land z 240)); done.
Qed.

Lemma high7 a : byte_ok a -> (Z.land a 254 =? 252) = (a / 2 =? 126).
Proof. intros Ha; apply Bool.eqb_prop; apply (byte_check (fun z => Bool.eqb (Z.land z 254 =? 252) (z / 2 =? 126))); done. Qed.

Lemma high2 a : byte_ok a -> (Z.land a 192 =? 128) = (a / 64 =? 2).
Proof. intros Ha; apply Bool.eqb_prop; apply (byte_check (fun z => Bool.eqb (Z.land z 192 =? 128) (z / 64 =? 2))); done. Qed.

(** The leading bytes of a number. *)
Lemma leading p q : bytes_ok q -> be_val (p ++ q) / 256 ^ len q = be_val p.
Proof.
  intros Hq; rewrite be_val_app; pose proof (be_val_bound q Hq); rewrite Z.div_add_l by (pose proof (len_nonneg q); lia).
  rewrite Z.div_small by done; lia.
Qed.

Lemma be_val_1 a : be_val [ a ] = a.
Proof. done. Qed.
Lemma be_val_2 a b : be_val [ a; b ] = a * 256 + b.
Proof. done. Qed.

Lemma split_first ip n : (n <= length ip)%nat -> bytes_ok ip -> be_val ip / 256 ^ (len ip - Z.of_nat n) = be_val (take n ip).
Proof.
  intros Hn Ho; rewrite <- (take_drop n ip) at 1; rewrite <- (leading (take n ip) (drop n ip)).
  - do 2 f_equal; unfold len; rewrite length_drop; lia.
  - apply Forall_drop, Ho.
Qed.

Lemma div_pow2 n j k : 0 <= j -> 0 <= k -> n / 2 ^ j / 2 ^ k = n / 2 ^ (j + k).
Proof. intros; rewrite Z.pow_add_r, Z.div_div by lia; done. Qed.

Lemma v4_routable a b c d :
  bytes_ok [ a; b; c; d ] ->
  negb (IsUnspecified [ a; b; c; d ] || IsLoopback [ a; b; c; d ] || IsLinkLocalUnicast [ a; b; c; d ] ||
        IsLinkLocalMulticast [ a; b; c; d ] || IsInterfaceLocalMulticast [ a; b; c; d ] || IsMulticast [ a; b; c; d ] ||
        IsPrivate [ a; b; c; d ])
  = negb (existsb (in_block 32 (be_val [ a; b; c; d ])) v4_reserved).
Proof.
  intros Ho; f_equal; pose proof (be_val_bound _ Ho) as Bn; set (n := be_val [ a; b; c; d ]) in *.
  assert (n / 2 ^ 24 = a) as E1 by exact (leading [ a ] [ b; c; d ] ltac:(apply (Forall_drop _ 1 _ Ho))).
  assert (n / 2 ^ 16 = a * 256 + b) as E2 by exact (leading [ a; b ] [ c; d ] ltac:(apply (Forall_drop _ 2 _ Ho))).
  assert (n / 2 ^ 28 = a / 16) as E3 by (transitivity (n / 2 ^ 24 / 2 ^ 4); [ symmetry; apply (div_pow2 n 24 4); lia | rewrite E1; done ]).
  assert (n / 2 ^ 20 = (a * 256 + b) / 16) as E4 by (transitivity (n / 2 ^ 16 / 2 ^ 4); [ symmetry; apply (div_pow2 n 16 4); lia | rewrite E2; done ]).
  unfold bytes_ok in Ho; rewrite !Forall_cons in Ho; destruct Ho as (Ha & Hb & Hc & Hd & _).
  unfold existsb, v4_reserved, in_block; cbn [fst snd].
  change (32 - 32) with 0; change (32 - 8) with 24; change (32 - 16) with 16; change (32 - 4) with 28; change (32 - 12) with 20.
  rewrite E1, E2, E3, E4, Z.pow_0_r, !Z.div_1_r.
  unfold IsUnspecified, IsLoopback, IsLinkLocalUnicast, IsLinkLocalMulticast, IsInterfaceLocalMulticast, IsMulticast, IsPrivate.
  change (To4 [ a; b; c; d ]) with (Some [ a; b; c; d ]); change (len [ a; b; c; d ] =? 16) with false.
  cbv beta iota; change (at_ [ a; b; c; d ] 0) with a; change (at_ [ a; b; c; d ] 1) with b; change (at_ [ a; b; c; d ] 2) with c.
  replace (Equal [ a; b; c; d ] IPv4zero || Equal [ a; b; c; d ] IPv6unspecified) with (n =? 0).
  2: { change (Equal [ a; b; c; d ] IPv6unspecified) with false; rewrite orb_false_r; change (Equal [ a; b; c; d ] IPv4zero)
         with (bool_decide ([ a; b; c; d ] = [ 0; 0; 0; 0 ])).
       apply eq_true_iff_eq; rewrite Z.eqb_eq, bool_decide_eq_true; split; [ | intros [= -> -> -> ->]; done ].
       intros E; apply be_val_inj_len; [ unfold bytes_ok; rewrite !Forall_cons; auto | solve_bytes | done | exact E ]. }
  assert ((Z.land a 240 =? 224) = (a / 16 =? 14)) as -> by (apply (high4 a 14); [ done | lia ]).
  assert ((Z.land b 240 =? 16) = (b / 16 =? 1)) as -> by (apply (high4 b 1); [ done | lia ]).
  apply eq_true_iff_eq; rewrite !orb_true_iff, !andb_true_iff, !Z.eqb_eq.
  change (v4 127 0 0 0 / 2 ^ 24) with 127; change (v4 169 254 0 0 / 2 ^ 16) with (169 * 256 + 254); change (v4 224 0 0 0 / 2 ^ 28) with 14;
    change (v4 10 0 0 0 / 2 ^ 24) with 10; change (v4 172 16 0 0 / 2 ^ 20) with (172 * 16 + 1); change (v4 192 168 0 0 / 2 ^ 16) with (192 * 256 + 168).
  unfold byte_ok in *; replace ((a * 256 + b) / 16) with (a * 16 + b / 16) by (rewrite <- (Z.div_add_l (a * 16) 16) by lia; f_equal; lia).
  assert (0 <= b / 16 < 16) by (split; [ apply Z.div_pos | apply Z.div_lt_upper_bound ]; lia).
  assert (a = 224 -> a / 16 = 14) by (intros ->; done); intuition (try lia; try discriminate).
Qed.

Lemma v6_routable ip :
  bytes_ok ip -> len ip = 16 -> To4 ip = None ->
  negb (IsUnspecified ip || IsLoopback ip || IsLinkLocalUnicast ip || IsLinkLocalMulticast ip ||
        IsInterfaceLocalMulticast ip || IsMulticast ip || IsPrivate ip)
  = negb (existsb (in_block 128 (be_val ip)) v6_reserved).
Proof.
  intros Ho Hl H4; f_equal.
  assert (forall x, bytes_ok x -> len x = 16 -> Equal ip x = (be_val ip =? be_val x)) as Eq.
  { intros x Hx Hlx; unfold Equal; rewrite Hl, Hlx, Z.eqb_refl; apply eq_true_iff_eq; rewrite bool_decide_eq_true, Z.eqb_eq.
    split; [ intros ->; done | apply be_val_inj_len; auto; congruence ]. }
  assert (Equal ip IPv4zero = false) as Ez.
  { unfold Equal; rewrite Hl; change (16 =? len IPv4zero) with true; cbv iota; apply bool_decide_eq_false; intros ->; done. }
  unfold IsUnspecified, IsLoopback, IsLinkLocalUnicast, IsLinkLocalMulticast, IsInterfaceLocalMulticast, IsMulticast, IsPrivate.
  rewrite H4, Hl, Ez, !Eq by (done || (unfold IPv6unspecified, IPv6loopback; solve_bytes)); cbn [orb Z.eqb Pos.eqb andb].
  change (be_val IPv6unspecified) with 0; change (be_val IPv6loopback) with 1.
  destruct ip as [ | a [ | b r ] ]; [ done | done | ]; change (at_ (a :: b :: r) 0) with a; change (at_ (a :: b :: r) 1) with b.
  assert (len r = 14) as Hr by (rewrite !len_cons in Hl; lia); pose proof Ho as Ho'; unfold bytes_ok in Ho.
  rewrite !Forall_cons in Ho; destruct Ho as (Ha & Hb & Hor); set (n := be_val (a :: b :: r)) in *.
  assert (n / 2 ^ 112 = a * 256 + b) as E2 by (pose proof (leading [ a; b ] r Hor) as X; rewrite Hr in X; exact X).
  assert (n / 2 ^ 120 = a) as E1.
  { transitivity (n / 2 ^ 112 / 2 ^ 8); [ symmetry; apply (div_pow2 n 112 8); lia | rewrite E2 ]; unfold byte_ok in Hb.
    change (2 ^ 8) with 256; rewrite Z.div_add_l, Z.div_small by lia; lia. }
  assert (n / 2 ^ 118 = (a * 256 + b) / 64) as E3
    by (transitivity (n / 2 ^ 112 / 2 ^ 6); [ symmetry; apply (div_pow2 n 112 6); lia | rewrite E2; done ]).
  assert (n / 2 ^ 121 = a / 2) as E4
    by (transitivity (n / 2 ^ 120 / 2 ^ 1); [ symmetry; apply (div_pow2 n 120 1); lia | rewrite E1; done ]).
  unfold existsb, v6_reserved, in_block; cbn [fst snd].
  change (128 - 128) with 0; change (128 - 10) with 118; change (128 - 8) with 120; change (128 - 7) with 121.
  rewrite E1, E3, E4, Z.pow_0_r, !Z.div_1_r, (high2 b Hb), (high7 a Ha).
  replace ((a * 256 + b) / 64) with (a * 4 + b / 64) by (rewrite <- (Z.div_add_l (a * 4) 64) by lia; f_equal; lia).
  change (0xfe80 * 2 ^ 112 / 2 ^ 118) with (254 * 4 + 2); change (0xff00 * 2 ^ 112 / 2 ^ 120) with 255;
    change (0xfc00 * 2 ^ 112 / 2 ^ 121) with 126.
  unfold byte_ok in *; assert (0 <= b / 64 < 4) by (split; [ apply Z.div_pos | apply Z.div_lt_upper_bound ]; lia).
  apply eq_true_iff_eq; rewrite !orb_true_iff, !andb_true_iff, !Z.eqb_eq; intuition (try lia; try discriminate).
Qed.

Lemma mapped_val ip :
  bytes_ok ip -> len ip = 16 -> bool_decide (take 12 ip = v4InV6Prefix) = (be_val ip / 2 ^ 32 =? 0xffff).
Proof.
  intros Ho Hl; pose proof (split_first ip 12) as X; rewrite Hl in X; change (256 ^ (16 - Z.of_nat 12)) with (2 ^ 32) in X.
  rewrite X by (done || (unfold len in Hl; lia)); apply eq_true_iff_eq; rewrite bool_decide_eq_true, Z.eqb_eq.
  change 0xffff with (be_val v4InV6Prefix); split; [ intros ->; done | ]; apply be_val_inj_len.
  - apply Forall_take, Ho.
  - unfold v4InV6Prefix; solve_bytes.
  - unfold len in *; rewrite length_take; change (length v4InV6Prefix) with 12%nat; lia.
Qed.

(** The guard refuses exactly the addresses of the listed blocks: every
    loopback, link-local, private, multicast or unspecified address is refused
    however it is written, and nothing else is. *)
Theorem routable_iff ip :
  bytes_ok ip -> len ip = 4 \/ len ip = 16 -> isGloballyRoutable ip = negb (reserved ip).
Proof.
  intros Ho Hl; unfold isGloballyRoutable, reserved; rewrite bool_decide_false by (intros ->; destruct Hl; done).
  assert (forall q, bytes_ok q -> len q = 4 -> exists a b c d, q = [ a; b; c; d ]) as Four.
  { intros q _ Hq; destruct q as [ | a [ | b [ | c [ | d [ | ] ] ] ] ]; unfold len in Hq; cbn in Hq; try lia; eauto. }
  destruct Hl as [ Hl | Hl ].
  - destruct (Four ip Ho Hl) as (a & b & c & d & ->); apply v4_routable, Ho.
  - rewrite Hl; cbn [Z.eqb Pos.eqb]; rewrite <- (mapped_val ip Ho Hl).
    destruct (bool_decide _) eqn:M.
    + assert (To4 ip = Some (drop 12 ip)) as -> by (unfold To4; rewrite Hl, M; done).
      assert (bytes_ok (drop 12 ip)) as Hd by apply Forall_drop, Ho.
      assert (len (drop 12 ip) = 4) as Ld by (unfold len in *; rewrite length_drop; lia).
      replace (be_val ip mod 2 ^ 32) with (be_val (drop 12 ip)).
      * destruct (Four _ Hd Ld) as (a & b & c & d & E); rewrite E in *; apply v4_routable, Hd.
      * rewrite <- (take_drop 12 ip) at 2; rewrite be_val_app, Ld; pose proof (be_val_bound _ Hd) as B; rewrite Ld in B.
        change (256 ^ 4) with (2 ^ 32) in *; rewrite Z.add_comm, Z.mod_add, Z.mod_small by lia; done.
    + assert (To4 ip = None) as H4 by (unfold To4; rewrite Hl, M; done).
      rewrite H4; apply v6_routable; done.
Qed.

(** A connection is made only to an address the guard let pass, the first of
    those the name resolved to, all of which it let pass. *)
Lemma dialed_is_routable splitHostPort lookup addr ip port :
  DialContext splitHostPort lookup addr = Ok (ip, port) -> isGloballyRoutable ip = true.
Proof.
  unfold DialContext; destruct (splitHostPort addr) as [ [ host p ] | ]; [ | done ].
  destruct (lookup host) as [ [ | i ips ] | ]; [ done | | done ]; cbn [forallb].
  destruct (isGloballyRoutable i) eqn:G; cbn; [ | done ]; destruct (forallb _ ips); cbn; congruence.
Qed.

(** What the listed blocks leave out: shared address space, benchmarking,
    reserved and broadcast IPv4, and IPv4 embedded for translation (NAT64). *)
Lemma special_addresses_pass :
  Forall (fun ip => isGloballyRoutable ip = true)
    [ [ 100; 100; 100; 200 ]; [ 198; 18; 0; 1 ]; [ 240; 0; 0; 1 ]; [ 255; 255; 255; 255 ]; [ 0; 1; 2; 3 ];
      [ 0; 0x64; 0xff; 0x9b ] ++ replicate 8 0 ++ [ 10; 0; 0; 1 ] ].
Proof. repeat constructor. Qed.

Lemma routable_iff_witness : isGloballyRoutable (v4InV6Prefix ++ [ 169; 254; 169; 254 ]) = negb (reserved (v4InV6Prefix ++ [ 169; 254; 169; 254 ])).
Proof. apply routable_iff; [ unfold v4InV6Prefix; solve_bytes | right; reflexivity ]. Defined.

End NetGuard.
