(* ===== verification/Webhooks.v ===== *)
(** * The webhooks service

    Models [services/webhooks]: [webhooks.go] (publishing an event, delivering
    and retrying it), [db.go] (the tables [webhooks] and [webhook_deliveries]
    behind their row policies), [register.go] (subscribing an endpoint) and
    [httperr.go].

    The outside (the database's availability, resolvers, receivers) is of a type
    [W]; every call that leaves the process names the instant [w : W] at which it
    was made.  The two connection pools fail independently.  JSON, HMAC-SHA-256,
    URL parsing, the [::uuid] cast, the column types, row order and the exchange
    over an established connection are parameters.  A request dials anew each
    time here, where the code may reuse a connection it dialed before.

    A running service is the database with the deliveries started and not yet
    made; [step] interleaves requests with them and [sent] records what left
    the process.

    The theorems: every event stays with its customer and is signed with the
    receiver's own secret; a retry repeats its request; how retries are timed;
    that a registered endpoint is called; and that the service's own event
    names are those of no subscription. *)

From Stdlib Require Import ZArith Lia Ascii String Permutation.
From stdpp Require Import base list numbers strings gmap.
From S2P Require Import Prelude GoStrings GoText Policy NetGuard.

Open Scope Z_scope.

Module Webhooks.

(** ** Data *)

Section Data.
Context {J : Type}.

Record SigningCompletedEvent := {
  scSigningID : string; scKeyID : string; scTransactionHash : string; scStatus : string; scConfirmationTime : Z; scCreatedAt : string;
}.
Record SettlementCompletedEvent := {
  stSettlementID : string; stSigningID : string; stTransactionHash : string; stBlockchain : string; stStatus : string; stGasUsed : Z;
  stConfirmationTime : Z; stCreatedAt : string;
}.
Record KeyCreatedEvent := {
  kcKeyID : string; kcName : string; kcBlockchain : string; kcThreshold : Z; kcTotalParties : Z; kcStatus : string; kcCreatedAt : string;
}.
Record ComplianceCheckEvent := {
  ccCheckID : string; ccCustomerID : string; ccCheckType : string; ccStatus : string; ccRiskLevel : string; ccCreatedAt : string;
}.

(** [interface{}]: one of the service's own structures, or whatever was decoded. *)
Inductive EventData : Type :=
| SigningData (e : SigningCompletedEvent)
| SettlementData (e : SettlementCompletedEvent)
| KeyData (e : KeyCreatedEvent)
| ComplianceData (e : ComplianceCheckEvent)
| Decoded (j : J).

(** [Timestamp] is [None] for the zero time. *)
Record WebhookEvent := { EventID : string; EventType : string; Timestamp : option Z; Data : EventData; CustomerID : string }.
End Data.
Arguments EventData J : clear implicits.
Arguments WebhookEvent J : clear implicits.

Record Webhook := {
  WebhookID : string;
  whCustomerID : string;
  URL : string;
  Secret : string;
  Events : list string;
  IsActive : bool;
  MaxRetries : Z;
  BackoffSeconds : Z;
  ExponentialBackoff : bool;
  CustomHeaders : gmap string string;
  CreatedAt : Z;
  UpdatedAt : Z;
}.

Record WebhookDelivery := {
  DeliveryID : string;
  dlWebhookID : string;
  dlEventID : string;
  dlEventType : string;
  Attempt : Z;
  StatusCode : Z;
  ResponseTime : Z;
  Success : bool;
  ErrorMessage : string;
  NextRetryAt : option Z;
  dlCreatedAt : Z;
  Payload : bytes;
}.

Record RegisterWebhookRequest := { rgURL : string; rgEvents : list string; rgSecret : string; rgHeaders : gmap string string }.

Inductive WErr : Type := NotFound | InvalidInput | Internal.

(** ** Requests to endpoints *)

Record Request := { reqURL : string; reqHeader : gmap string string; reqBody : bytes }.

Definition is_letter (c : ascii) : bool :=
  ((65 <=? chr c) && (chr c <=? 90)) || ((97 <=? chr c) && (chr c <=? 122)).

(** Bytes of a header field name. *)
Definition token_byte (c : ascii) : bool :=
  is_letter c || match digit_value c with Some _ => true | None => false end ||
  existsb (Ascii.eqb c) [ "!"; "#"; "$"; "%"; "&"; "'"; "*"; "+"; "-"; "."; "^"; "_"; "`"; "|"; "~" ]%char.

Fixpoint string_all (p : ascii -> bool) (s : string) : bool :=
  match s with EmptyString => true | String c s => p c && string_all p s end.

Definition upper_ascii (c : ascii) : ascii := if (97 <=? chr c) && (chr c <=? 122) then asc (chr c - 32) else c.

Fixpoint canonical_case (upper : bool) (s : string) : string :=
  match s with
  | EmptyString => EmptyString
  | String c s => String (if upper then upper_ascii c else lower_ascii c) (canonical_case (Ascii.eqb c "-") s)
  end.

(** [textproto.CanonicalMIMEHeaderKey]. *)
Definition canonicalHeader (k : string) : string := if string_all token_byte k then canonical_case true k else k.

Definition setHeader (k v : string) (h : gmap string string) : gmap string string := <[ canonicalHeader k := v ]> h.

Definition second : Z := 1000000000.

Section Delivery.
Context {J W : Type}.
(** [range] over a header map *)
Variable rangeHeaders : gmap string string -> list (string * string).
Variable hmac : bytes -> bytes -> bytes.
Variable marshalEvent : WebhookEvent J -> option bytes.
(** the error of a URL [http.NewRequest] refuses *)
Variable urlError : string -> option string.
Variable hostPort : string -> string.
Variable splitHostPort : string -> option (string * string).
Variable lookup_ : W -> string -> option (list bytes).
Variable roundTrip : W -> bytes -> string -> Request -> option Z.

Definition generateSignature (payload : bytes) (secret : string) : string :=
  "sha256=" +:+ hex_encode (hmac (to_bytes secret) payload).

Definition buildRequest (webhook : Webhook) (eventID eventType : string) (payload : bytes) (attempt : Z) : Request :=
  let h := setHeader "Content-Type" "application/json" ∅ in
  let h := setHeader "X-Event-Type" eventType h in
  let h := setHeader "X-Event-ID" eventID h in
  let h := setHeader "X-Webhook-Signature" (generateSignature payload (Secret webhook)) h in
  let h := setHeader "X-Webhook-Attempt" (show_int attempt) h in
  {| reqURL := URL webhook;
     reqHeader := fold_left (fun h kv => setHeader (fst kv) (snd kv) h) (rangeHeaders (CustomHeaders webhook)) h;
     reqBody := payload |}.

(** What [attemptDelivery] reads from its surroundings: the instant, the fresh
    id, the clock when it starts and when it schedules, the milliseconds taken. *)
Record Moment := { at_w : W; fresh : string; created : Z; scheduling : Z; took : Z }.

Definition scheduleRetry (now : Z) (delivery : WebhookDelivery) (webhook : Webhook) : option Z :=
  if MaxRetries webhook <=? Attempt delivery then NextRetryAt delivery
  else
    let backoff := if BackoffSeconds webhook <=? 0 then 1 else BackoffSeconds webhook in
    let backoff :=
      if ExponentialBackoff webhook then
        let shift := i64 (Attempt delivery - 1) in
        let shift := if 16 <? shift then 16 else shift in
        i64 (backoff * (if shift <? 0 then 0 else 2 ^ shift))
      else backoff in
    Some (now + i64 (backoff * second)).

(** A connection to an allowed address, and the exchange over it. *)
Definition httpDo (w : W) (req : Request) : option (bytes * Z) :=
  match NetGuard.DialContext splitHostPort (lookup_ w) (hostPort (reqURL req)) with
  | Ok (ip, port) => (fun code => (ip, code)) <$> roundTrip w ip port req
  | _ => None
  end.

(** What left the process: to which address, and what. *)
Definition dialed (w : W) (req : Request) : list (bytes * Request) :=
  match NetGuard.DialContext splitHostPort (lookup_ w) (hostPort (reqURL req)) with Ok (ip, _) => [ (ip, req) ] | _ => [] end.

Definition outcome (m : Moment) (webhook : Webhook) (eventID eventType : string) (payload : bytes) (attempt code ms : Z)
    (ok : bool) (msg : string) : WebhookDelivery :=
  let d next := {| DeliveryID := fresh m; dlWebhookID := WebhookID webhook; dlEventID := eventID; dlEventType := eventType;
                   Attempt := attempt; StatusCode := code; ResponseTime := ms; Success := ok; ErrorMessage := msg;
                   NextRetryAt := next; dlCreatedAt := created m; Payload := payload |} in
  d (if ok then None else scheduleRetry (scheduling m) (d None) webhook).

Definition attemptDelivery (m : Moment) (webhook : Webhook) (eventID eventType : string) (payload : bytes) (attempt : Z)
    : WebhookDelivery * list (bytes * Request) :=
  match urlError (URL webhook) with
  | Some e => (outcome m webhook eventID eventType payload attempt 0 0 false ("failed to build request: " +:+ e), [])
  | None =>
      let req := buildRequest webhook eventID eventType payload attempt in
      (match httpDo (at_w m) req with
       | None => outcome m webhook eventID eventType payload attempt 0 (took m) false
                   "delivery failed: could not connect to the destination"
       | Some (_, code) =>
           let ok := (200 <=? code) && (code <? 300) in
           outcome m webhook eventID eventType payload attempt code (took m) ok
             (if ok then "" else "endpoint returned " +:+ show_int code)
       end, dialed (at_w m) req)
  end.
End Delivery.
Arguments Moment W : clear implicits.

(** ** Storage *)

Record webhookRow := {
  rowCustomer : string;
  rowURL : string;
  rowSecret : string;
  rowEvents : list string;
  rowActive : bool;
  rowMaxRetries : Z;
  rowBackoff : Z;
  rowExponential : bool;
  rowHeaders : string;
  rowCreated : Z;
  rowUpdated : Z;
}.

Record deliveryRow := {
  drID : string;
  drWebhook : string;
  drEvent : string;
  drType : string;
  drAttempt : Z;
  drStatus : Z;
  drTime : Z;
  drSuccess : bool;
  drError : string;
  drNext : option Z;
  drCreated : Z;
  drPayload : bytes;
}.

(** Deliveries in the order they were recorded. *)
Record db := { customers : gset string; webhooks : gmap string webhookRow; deliveries : list deliveryRow }.

Inductive Pool : Type := Admin | Tenant.

Section Storage.
Context {W : Type}.
Variable available : W -> Pool -> bool.
Variable uuid : string -> option string.
Variable pgtime : Z -> Z.
Variable acceptsHook : webhookRow -> bool.
Variable acceptsDelivery : deliveryRow -> bool.
(** [json.Marshal] of the headers and the [jsonb] value made of it; back to a map *)
Variable marshalHeaders : gmap string string -> option string.
Variable jsonb : string -> option string.
Variable unmarshalHeaders : string -> option (gmap string string).
(** rows as a query without [ORDER BY] gives them; [ORDER BY created_at DESC]; [ORDER BY next_retry_at] *)
Variable row_order : list (string * webhookRow) -> list (string * webhookRow).
Variable newest_first : list deliveryRow -> list deliveryRow.
Variable soonest_first : list deliveryRow -> list deliveryRow.

Definition resolveCustomerIDForWebhook (w : W) (d : db) (webhookID : string) : result WErr string :=
  check! available w Admin else Internal;
  match uuid webhookID with
  | None => Err Internal
  | Some i => match webhooks d !! i with Some r => Ok (rowCustomer r) | None => Err NotFound end
  end.

Definition deliveryAt (d : db) (i : string) : option deliveryRow := list_find (fun r => drID r = i) (deliveries d) ≫= fun x => Some (snd x).

Definition resolveCustomerIDForDelivery (w : W) (d : db) (deliveryID : string) : result WErr string :=
  check! available w Admin else Internal;
  match uuid deliveryID with
  | None => Err Internal
  | Some i =>
      match r ← deliveryAt d i; webhooks d !! drWebhook r with
      | Some h => Ok (rowCustomer h)
      | None => Err NotFound
      end
  end.

(** The row policy on [webhooks], under [current_customer_id()]. *)
Definition visible (customer : string) (r : webhookRow) : bool :=
  match uuid customer with Some c => String.eqb (rowCustomer r) c | None => false end.

(** ... and on [webhook_deliveries], through the webhooks visible. *)
Definition deliveryVisible (d : db) (customer : string) (r : deliveryRow) : bool :=
  match webhooks d !! drWebhook r with Some h => visible customer h | None => false end.

Definition scanWebhook (i : string) (r : webhookRow) : result WErr Webhook :=
  let scanned h := {| WebhookID := i; whCustomerID := rowCustomer r; URL := rowURL r; Secret := rowSecret r; Events := rowEvents r;
                      IsActive := rowActive r; MaxRetries := rowMaxRetries r; BackoffSeconds := rowBackoff r;
                      ExponentialBackoff := rowExponential r; CustomHeaders := h; CreatedAt := rowCreated r;
                      UpdatedAt := rowUpdated r |} in
  if String.eqb (rowHeaders r) "" then Ok (scanned ∅)
  else match unmarshalHeaders (rowHeaders r) with Some h => Ok (scanned h) | None => Err Internal end.

Fixpoint scanWebhooks (rows : list (string * webhookRow)) : result WErr (list Webhook) :=
  match rows with
  | [] => Ok []
  | (i, r) :: rows =>
      let! h := scanWebhook i r in
      let! hs := scanWebhooks rows in
      Ok (h :: hs)
  end.

Definition GetWebhooksByCustomer (w : W) (d : db) (customerID : string) : result WErr (list Webhook) :=
  check! available w Tenant else Internal;
  match uuid customerID with
  | None => Err Internal
  | Some c => scanWebhooks (row_order (filter (fun kv => rowCustomer kv.2 = c) (map_to_list (webhooks d))))
  end.

Definition GetWebhook (w : W) (d : db) (webhookID : string) : result WErr Webhook :=
  let! customer := resolveCustomerIDForWebhook w d webhookID in
  check! available w Tenant else Internal;
  match uuid webhookID with
  | None => Err Internal
  | Some i =>
      match webhooks d !! i with
      | Some r => check! visible customer r else Internal; scanWebhook i r
      | None => Err Internal
      end
  end.

Definition with_webhooks (d : db) (h : gmap string webhookRow) : db :=
  {| customers := customers d; webhooks := h; deliveries := deliveries d |}.
Definition with_delivery (d : db) (r : deliveryRow) : db :=
  {| customers := customers d; webhooks := webhooks d; deliveries := deliveries d ++ [ r ] |}.

Definition insertedHook (c headers : string) (hook : Webhook) : webhookRow :=
  {| rowCustomer := c; rowURL := URL hook; rowSecret := Secret hook; rowEvents := Events hook;
     rowActive := IsActive hook; rowMaxRetries := MaxRetries hook; rowBackoff := BackoffSeconds hook;
     rowExponential := ExponentialBackoff hook; rowHeaders := headers; rowCreated := pgtime (CreatedAt hook);
     rowUpdated := pgtime (UpdatedAt hook) |}.

Definition CreateWebhook (w : W) (d : db) (hook : Webhook) : result WErr db :=
  match marshalHeaders (CustomHeaders hook) with
  | None => Err Internal
  | Some text =>
      check! available w Tenant else Internal;
      match uuid (WebhookID hook), uuid (whCustomerID hook), jsonb text with
      | Some i, Some c, Some headers =>
          let row := insertedHook c headers hook in
          check! acceptsHook row else Internal;
          check! bool_decide (c ∈ customers d) else Internal;
          refuse! bool_decide (is_Some (webhooks d !! i)) with Internal;
          Ok (with_webhooks d (<[ i := row ]> (webhooks d)))
      | _, _, _ => Err Internal
      end
  end.

Definition deactivated (now : Z) (r : webhookRow) : webhookRow :=
  {| rowCustomer := rowCustomer r; rowURL := rowURL r; rowSecret := rowSecret r; rowEvents := rowEvents r; rowActive := false;
     rowMaxRetries := rowMaxRetries r; rowBackoff := rowBackoff r; rowExponential := rowExponential r; rowHeaders := rowHeaders r;
     rowCreated := rowCreated r; rowUpdated := now |}.

Definition DeactivateWebhook (w : W) (d : db) (now : Z) (webhookID customerID : string) : result WErr db :=
  check! available w Tenant else Internal;
  match uuid webhookID, uuid customerID with
  | Some i, Some c =>
      match webhooks d !! i with
      | Some r => check! String.eqb (rowCustomer r) c else NotFound; Ok (with_webhooks d (<[ i := deactivated (pgtime now) r ]> (webhooks d)))
      | None => Err NotFound
      end
  | _, _ => Err Internal
  end.

Definition CreateWebhookDelivery (w : W) (d : db) (dl : WebhookDelivery) : result WErr db :=
  let! customer := resolveCustomerIDForWebhook w d (dlWebhookID dl) in
  check! available w Tenant else Internal;
  match uuid (DeliveryID dl), uuid (dlWebhookID dl), uuid (dlEventID dl) with
  | Some i, Some h, Some e =>
      let row := {| drID := i; drWebhook := h; drEvent := e; drType := dlEventType dl; drAttempt := Attempt dl;
                    drStatus := StatusCode dl; drTime := ResponseTime dl; drSuccess := Success dl; drError := ErrorMessage dl;
                    drNext := pgtime <$> NextRetryAt dl; drCreated := pgtime (dlCreatedAt dl); drPayload := Payload dl |} in
      check! acceptsDelivery row else Internal;
      check! deliveryVisible d customer row else Internal;
      refuse! bool_decide (is_Some (deliveryAt d i)) with Internal;
      Ok (with_delivery d row)
  | _, _, _ => Err Internal
  end.

Definition scanDelivery (r : deliveryRow) : WebhookDelivery :=
  {| DeliveryID := drID r; dlWebhookID := drWebhook r; dlEventID := drEvent r; dlEventType := drType r; Attempt := drAttempt r;
     StatusCode := drStatus r; ResponseTime := drTime r; Success := drSuccess r; ErrorMessage := drError r; NextRetryAt := drNext r;
     dlCreatedAt := drCreated r; Payload := drPayload r |}.

Definition GetWebhookDelivery (w : W) (d : db) (deliveryID : string) : result WErr WebhookDelivery :=
  let! customer := resolveCustomerIDForDelivery w d deliveryID in
  check! available w Tenant else Internal;
  match uuid deliveryID with
  | None => Err Internal
  | Some i =>
      match deliveryAt d i with
      | Some r => check! deliveryVisible d customer r else NotFound; Ok (scanDelivery r)
      | None => Err NotFound
      end
  end.

Definition due (now : Z) (r : deliveryRow) : Prop :=
  drSuccess r = false /\ match drNext r with Some t => t <= now | None => False end.
#[global] Instance due_dec now r : Decision (due now r).
Proof. unfold due; destruct (drNext r); apply _. Defined.

(** Without a tenant: a sweep is over all customers. *)
Definition GetDeliveriesDueForRetry (w : W) (d : db) (now limit : Z) : result WErr (list WebhookDelivery) :=
  let limit := if (limit <=? 0) || (500 <? limit) then 100 else limit in
  check! available w Admin else Internal;
  Ok (scanDelivery <$> take (Z.to_nat limit) (soonest_first (filter (due now) (deliveries d)))).

(** The listing leaves out the payload. *)
Definition without_payload (d : WebhookDelivery) : WebhookDelivery :=
  {| DeliveryID := DeliveryID d; dlWebhookID := dlWebhookID d; dlEventID := dlEventID d; dlEventType := dlEventType d;
     Attempt := Attempt d; StatusCode := StatusCode d; ResponseTime := ResponseTime d; Success := Success d;
     ErrorMessage := ErrorMessage d; NextRetryAt := NextRetryAt d; dlCreatedAt := dlCreatedAt d; Payload := [] |}.

Definition GetWebhookDeliveries (w : W) (d : db) (webhookID : string) (limit : Z) : result WErr (list WebhookDelivery) :=
  let! customer := resolveCustomerIDForWebhook w d webhookID in
  check! available w Tenant else Internal;
  match uuid webhookID with
  | None => Err Internal
  | Some i =>
      Ok ((fun r => without_payload (scanDelivery r)) <$>
          take (Z.to_nat limit) (newest_first (filter (fun r => drWebhook r = i /\ deliveryVisible d customer r = true) (deliveries d))))
  end.
End Storage.

(** ** Registration *)

Definition KnownEventTypes : list string :=
  [ "key.created"; "key.activated"; "key.failed"; "signature.created"; "transaction.broadcast"; "settlement.completed";
    "transfer.pending_approval"; "transfer.rejected"; "transfer.expired"; "transfer.completed"; "transfer.failed"; "org.frozen";
    "org.unfrozen"; "compliance.alert" ]%string.

Definition isKnownEvent (name : string) : bool := existsb (fun known => String.eqb known name) KnownEventTypes.

(** What [url.Parse] yields of an URL. *)
Record ParsedURL := { Scheme : string; Host : string; Hostname : string }.

Definition validateWebhook (parseURL : string -> option ParsedURL) (parseIP : string -> option bytes) (req : RegisterWebhookRequest)
    : result WErr unit :=
  match parseURL (trim_space (rgURL req)) with
  | None => Err InvalidInput
  | Some parsed =>
      refuse! String.eqb (Host parsed) "" with InvalidInput;
      refuse! negb (String.eqb (Scheme parsed) "https") with InvalidInput;
      refuse! match parseIP (Hostname parsed) with Some ip => negb (NetGuard.isGloballyRoutable ip) | None => false end with InvalidInput;
      refuse! bool_decide (rgEvents req = []) with InvalidInput;
      refuse! negb (forallb isKnownEvent (rgEvents req)) with InvalidInput;
      refuse! negb (String.eqb (rgSecret req) "") && (slen (rgSecret req) <? 16) with InvalidInput;
      Ok tt
  end.

(** 32 random bytes, or none. *)
Definition generateSecret (random : option bytes) : result WErr string :=
  match random with Some raw => Ok (hex_encode raw) | None => Err Internal end.

(** ** The service *)

Definition requireUUID (value : string) : result WErr unit :=
  refuse! String.eqb value "" with InvalidInput;
  refuse! negb (Policy.uuidPattern value) with InvalidInput;
  Ok tt.

Definition writeError (e : WErr) : Z := match e with InvalidInput => 400 | NotFound => 404 | Internal => 500 end.

Inductive Body : Type :=
| NoBody
| Created (h : Webhook)
| Listed (hs : list Webhook)
| Accepted (eventID : string)
| DeliveryList (ds : list WebhookDelivery)
| Retried (d : WebhookDelivery)
| RetryFailed (d : WebhookDelivery).

Definition Reply : Type := (Z * Body)%type.

(** A refusal leaves the database as it was. *)
Definition reply (d : db) (r : result WErr (db * Reply)) : db * Reply :=
  match r with
  | Ok x => x
  | Err e => (d, (writeError e, NoBody))
  | Panic => (d, (500, NoBody))
  end.

Section Service.
Context {J W : Type}.
Variable rangeHeaders : gmap string string -> list (string * string).
Variable hmac : bytes -> bytes -> bytes.
Variable marshalEvent : WebhookEvent J -> option bytes.
Variable urlError : string -> option string.
Variable hostPort : string -> string.
Variable splitHostPort : string -> option (string * string).
Variable lookup_ : W -> string -> option (list bytes).
Variable roundTrip : W -> bytes -> string -> Request -> option Z.
Variable available : W -> Pool -> bool.
Variable uuid : string -> option string.
Variable pgtime : Z -> Z.
Variable acceptsHook : webhookRow -> bool.
Variable acceptsDelivery : deliveryRow -> bool.
Variable marshalHeaders : gmap string string -> option string.
Variable jsonb : string -> option string.
Variable unmarshalHeaders : string -> option (gmap string string).
Variable row_order : list (string * webhookRow) -> list (string * webhookRow).
Variable newest_first : list deliveryRow -> list deliveryRow.
Variable parseURL : string -> option ParsedURL.
Variable parseIP : string -> option bytes.

Abbreviation attempt_ := (attemptDelivery rangeHeaders hmac urlError hostPort splitHostPort lookup_ roundTrip).
Abbreviation byCustomer := (GetWebhooksByCustomer available uuid unmarshalHeaders row_order).
Abbreviation record_ := (CreateWebhookDelivery available uuid pgtime acceptsDelivery).

Definition subscribed (webhook : Webhook) (eventType : string) : bool :=
  existsb (fun e => String.eqb e eventType || String.eqb e "*") (Events webhook).

(** A goroutine about to deliver. *)
Definition Started : Type := (Webhook * WebhookEvent J)%type.

Definition stamped (freshID : string) (now : Z) (event : WebhookEvent J) : WebhookEvent J :=
  {| EventID := if String.eqb (EventID event) "" then freshID else EventID event; EventType := EventType event;
     Timestamp := match Timestamp event with Some t => Some t | None => Some now end; Data := Data event;
     CustomerID := CustomerID event |}.

(** The event as published, and the deliveries started. *)
Definition PublishEvent (w : W) (d : db) (freshID : string) (now : Z) (event : WebhookEvent J)
    : result WErr (WebhookEvent J * list Started) :=
  let event := stamped freshID now event in
  let! hooks := map_err (fun _ => Internal) (byCustomer w d (CustomerID event)) in
  Ok (event, (fun h => (h, event)) <$> filter (fun h => IsActive h = true /\ subscribed h (EventType event) = true) hooks).

(** The database after one goroutine, and what left the process. *)
Definition deliverWebhook (m : Moment W) (recording : W) (d : db) (g : Started) : db * list (bytes * Request) :=
  let '(webhook, event) := g in
  match marshalEvent event with
  | None => (d, [])
  | Some payload =>
      let '(delivery, sent) := attempt_ m webhook (EventID event) (EventType event) payload 1 in
      (match record_ recording d delivery with Ok d' => d' | _ => d end, sent)
  end.

Definition ownEvent (freshID : string) (now : Z) (type customerID : string) (data : EventData J) : WebhookEvent J :=
  {| EventID := freshID; EventType := type; Timestamp := Some now; Data := data; CustomerID := customerID |}.

Definition PublishSigningCompleted (w : W) (d : db) (id : string) (now : Z) (customerID : string) (e : SigningCompletedEvent) :=
  PublishEvent w d id now (ownEvent id now "signing_completed" customerID (SigningData e)).
Definition PublishSettlementCompleted (w : W) (d : db) (id : string) (now : Z) (customerID : string) (e : SettlementCompletedEvent) :=
  PublishEvent w d id now (ownEvent id now "settlement_completed" customerID (SettlementData e)).
Definition PublishKeyCreated (w : W) (d : db) (id : string) (now : Z) (customerID : string) (e : KeyCreatedEvent) :=
  PublishEvent w d id now (ownEvent id now "key_created" customerID (KeyData e)).
Definition PublishComplianceCheck (w : W) (d : db) (id : string) (now : Z) (customerID : string) (e : ComplianceCheckEvent) :=
  PublishEvent w d id now (ownEvent id now "compliance_check" customerID (ComplianceData e)).

(** [RetryWebhookDelivery]: why it was not attempted, or what was sent and
    whether it was recorded. *)
Inductive Retry : Type :=
| RefusedRetry
| Unrecorded (sent : list (bytes * Request))
| Made (d : db) (delivery : WebhookDelivery) (sent : list (bytes * Request)).

Definition RetryWebhookDelivery (reading recording : W) (m : Moment W) (d : db) (deliveryID : string) : Retry :=
  match GetWebhookDelivery available uuid reading d deliveryID with
  | Ok previous =>
      if Success previous then RefusedRetry
      else
        match GetWebhook available uuid unmarshalHeaders reading d (dlWebhookID previous) with
        | Ok webhook =>
            if (MaxRetries webhook <=? Attempt previous) || bool_decide (Payload previous = []) then RefusedRetry
            else
              let '(delivery, sent) := attempt_ m webhook (dlEventID previous) (dlEventType previous) (Payload previous)
                                         (i64 (Attempt previous + 1)) in
              match record_ recording d delivery with
              | Ok d' => Made d' delivery sent
              | _ => Unrecorded sent
              end
        | _ => RefusedRetry
        end
  | _ => RefusedRetry
  end.

(** ** Handlers *)

(** [body] is [None] when it does not decode. *)
Definition HandlePublishEvent (w : W) (d : db) (freshID : string) (now : Z) (method : string) (body : option (WebhookEvent J))
    : Reply * list Started :=
  if negb (String.eqb method "POST") then ((405, NoBody), [])
  else
    match body with
    | None => ((400, NoBody), [])
    | Some event =>
        match PublishEvent w d freshID now event with
        | Ok (event, started) => ((202, Accepted (EventID event)), started)
        | _ => ((500, NoBody), [])
        end
    end.

Definition HandleGetDeliveries (w : W) (d : db) (webhookID : string) : Reply :=
  snd (reply d (
    let! _ := requireUUID webhookID in
    let! ds := GetWebhookDeliveries available uuid newest_first w d webhookID 100 in
    Ok (d, (200, DeliveryList ds)))).

Definition HandleRetryDelivery (reading recording : W) (m : Moment W) (d : db) (method deliveryID : string)
    : db * Reply * list (bytes * Request) :=
  if negb (String.eqb method "POST") then (d, (405, NoBody), [])
  else if String.eqb deliveryID "" then (d, (400, NoBody), [])
  else
    match RetryWebhookDelivery reading recording m d deliveryID with
    | RefusedRetry => (d, (400, NoBody), [])
    | Unrecorded sent => (d, (400, NoBody), sent)
    | Made d' delivery sent => (d', (if Success delivery then (200, Retried delivery) else (502, RetryFailed delivery)), sent)
    end.

Definition without_secret (h : Webhook) : Webhook :=
  {| WebhookID := WebhookID h; whCustomerID := whCustomerID h; URL := URL h; Secret := ""; Events := Events h; IsActive := IsActive h;
     MaxRetries := MaxRetries h; BackoffSeconds := BackoffSeconds h; ExponentialBackoff := ExponentialBackoff h;
     CustomHeaders := CustomHeaders h; CreatedAt := CreatedAt h; UpdatedAt := UpdatedAt h |}.

Definition handleListWebhooks (w : W) (d : db) (customerID : string) : db * Reply :=
  reply d (
    let! _ := requireUUID customerID in
    let! hooks := byCustomer w d customerID in
    Ok (d, (200, Listed (without_secret <$> hooks)))).

Definition handleDeleteWebhook (w : W) (d : db) (now : Z) (customerID webhookID : string) : db * Reply :=
  reply d (
    let! _ := requireUUID customerID in
    let! _ := requireUUID webhookID in
    let! d' := DeactivateWebhook available uuid pgtime w d now webhookID customerID in
    Ok (d', (204, NoBody))).

Definition newHook (freshID : string) (now : Z) (customerID secret : string) (req : RegisterWebhookRequest) : Webhook :=
  {| WebhookID := freshID; whCustomerID := customerID; URL := trim_space (rgURL req); Secret := secret; Events := rgEvents req;
     IsActive := true; MaxRetries := 3; BackoffSeconds := 60; ExponentialBackoff := true; CustomHeaders := rgHeaders req;
     CreatedAt := now; UpdatedAt := now |}.

Definition HandleRegisterWebhook (w : W) (d : db) (freshID : string) (random : option bytes) (now : Z)
    (method customerID webhookID : string) (body : option RegisterWebhookRequest) : db * Reply :=
  if String.eqb method "GET" then handleListWebhooks w d customerID
  else if String.eqb method "DELETE" then handleDeleteWebhook w d now customerID webhookID
  else if negb (String.eqb method "POST") then (d, (405, NoBody))
  else
    reply d (
      let! _ := requireUUID customerID in
      match body with
      | None => Err InvalidInput
      | Some req =>
          let! _ := validateWebhook parseURL parseIP req in
          let! secret := if String.eqb (rgSecret req) "" then generateSecret random else Ok (rgSecret req) in
          let hook := newHook freshID now customerID secret req in
          let! d' := CreateWebhook available uuid pgtime acceptsHook marshalHeaders jsonb w d hook in
          Ok (d', (201, Created hook))
      end).

(** ** The service at work *)

Record System := { wdb : db; started : list Started; sent : list (bytes * Request) }.

Inductive step (s : System) : System -> Prop :=
| step_hooks w freshID random now method customerID webhookID body d' r :
    HandleRegisterWebhook w (wdb s) freshID random now method customerID webhookID body = (d', r) ->
    step s {| wdb := d'; started := started s; sent := sent s |}
| step_publish w freshID now method body r gs :
    HandlePublishEvent w (wdb s) freshID now method body = (r, gs) ->
    step s {| wdb := wdb s; started := gs ++ started s; sent := sent s |}
| step_deliver m recording g l r d' out :
    started s = l ++ g :: r -> deliverWebhook m recording (wdb s) g = (d', out) ->
    step s {| wdb := d'; started := l ++ r; sent := out ++ sent s |}
| step_retry reading recording m method deliveryID d' r out :
    HandleRetryDelivery reading recording m (wdb s) method deliveryID = (d', r, out) ->
    step s {| wdb := d'; started := started s; sent := out ++ sent s |}.

Definition boot (known : gset string) : System :=
  {| wdb := {| customers := known; webhooks := ∅; deliveries := [] |}; started := []; sent := [] |}.
End Service.

(** ** Facts *)

(** What is relied on of Postgres and of the JSON of headers. *)
Class WebhookStore (rangeHeaders : gmap string string -> list (string * string)) (uuid : string -> option string)
    (row_order : list (string * webhookRow) -> list (string * webhookRow))
    (marshalHeaders : gmap string string -> option string) (jsonb : string -> option string)
    (unmarshalHeaders : string -> option (gmap string string)) := {
  range_headers m : Permutation (rangeHeaders m) (map_to_list m);
  uuid_idem x y : uuid x = Some y -> uuid y = Some y;
  row_order_perm l : Permutation (row_order l) l;
  headers_read h t j : marshalHeaders h = Some t -> jsonb t = Some j -> j <> ""%string /\ unmarshalHeaders j = Some h;
}.

Definition seenRow (r : webhookRow) :=
  (rowCustomer r, rowURL r, rowSecret r, rowEvents r, (rowMaxRetries r, rowBackoff r, rowExponential r)).
Definition hookView (r : webhookRow) := (seenRow r, rowHeaders r).
Definition seen (h : Webhook) := (whCustomerID h, URL h, Secret h, Events h, (MaxRetries h, BackoffSeconds h, ExponentialBackoff h)).

(** Webhooks are added and deactivated, never otherwise changed. *)
Definition hooks_kept (d d' : db) : Prop :=
  forall i r, webhooks d !! i = Some r -> exists r', webhooks d' !! i = Some r' /\ hookView r' = hookView r.

Section Facts.
Context {J W : Type}.
Context (rangeHeaders : gmap string string -> list (string * string)) (hmac : bytes -> bytes -> bytes)
  (marshalEvent : WebhookEvent J -> option bytes) (urlError : string -> option string) (hostPort : string -> string)
  (splitHostPort : string -> option (string * string)) (lookup_ : W -> string -> option (list bytes))
  (roundTrip : W -> bytes -> string -> Request -> option Z) (available : W -> Pool -> bool) (uuid : string -> option string)
  (pgtime : Z -> Z) (acceptsHook : webhookRow -> bool) (acceptsDelivery : deliveryRow -> bool)
  (marshalHeaders : gmap string string -> option string) (jsonb : string -> option string)
  (unmarshalHeaders : string -> option (gmap string string)) (row_order : list (string * webhookRow) -> list (string * webhookRow))
  (parseURL : string -> option ParsedURL) (parseIP : string -> option bytes).
Context `{!WebhookStore rangeHeaders uuid row_order marshalHeaders jsonb unmarshalHeaders}.

Abbreviation attempt_ := (attemptDelivery rangeHeaders hmac urlError hostPort splitHostPort lookup_ roundTrip).
Abbreviation build := (buildRequest rangeHeaders hmac).
Abbreviation byCustomer := (GetWebhooksByCustomer available uuid unmarshalHeaders row_order).
Abbreviation record_ := (CreateWebhookDelivery available uuid pgtime acceptsDelivery).
Abbreviation publish := (PublishEvent (J := J) available uuid unmarshalHeaders row_order).
Abbreviation steps := (rtc (step rangeHeaders hmac marshalEvent urlError hostPort splitHostPort lookup_ roundTrip available uuid pgtime
  acceptsHook acceptsDelivery marshalHeaders jsonb unmarshalHeaders row_order parseURL parseIP)).

(** *** Attempts *)

Lemma outcome_next (m : Moment W) h eid ty payload n code ms ok msg :
  let dl := outcome m h eid ty payload n code ms ok msg in
  NextRetryAt dl = if ok then None else scheduleRetry (scheduling m) dl h.
Proof. unfold outcome, scheduleRetry; destruct ok; cbn; [ done | destruct (_ <=? _); done ]. Qed.

Lemma attempt_fields m h eid ty payload n dl out :
  attempt_ m h eid ty payload n = (dl, out) ->
  dlWebhookID dl = WebhookID h /\ dlEventID dl = eid /\ dlEventType dl = ty /\ Attempt dl = n /\ Payload dl = payload /\
  NextRetryAt dl = (if Success dl then None else scheduleRetry (scheduling m) dl h) /\
  Forall (fun x => NetGuard.isGloballyRoutable (fst x) = true /\ snd x = build h eid ty payload n) out.
Proof.
  unfold attemptDelivery; destruct (urlError _); intros [= <- <-]; [ split_and!; try done; apply outcome_next | ].
  assert (Forall (fun x => NetGuard.isGloballyRoutable (fst x) = true /\ snd x = build h eid ty payload n)
    (dialed hostPort splitHostPort lookup_ (at_w m) (build h eid ty payload n))) as F.
  { unfold dialed; destruct (NetGuard.DialContext _ _ _) as [ [ ip port ] | | ] eqn:D; repeat constructor.
    exact (NetGuard.dialed_is_routable _ _ _ _ _ D). }
  destruct (httpDo _ _ _ _ _ _) as [ [ ip code ] | ]; split_and!; try done; apply outcome_next.
Qed.

(** *** Writes *)

Definition registered (i : string) (r : webhookRow) : Prop :=
  uuid i = Some i /\ Forall (fun e => isKnownEvent e = true) (rowEvents r) /\ rowMaxRetries r = 3 /\ rowBackoff r = 60 /\ rowExponential r = true /\
  rowHeaders r <> ""%string /\ is_Some (unmarshalHeaders (rowHeaders r)).

Lemma registered_view i r r' : hookView r = hookView r' -> registered i r' -> registered i r.
Proof. unfold registered; intros [= _ _ _ -> -> -> -> ->]; done. Qed.

(** A write to the webhooks alone: none is lost or altered, and what is new is
    as registration makes it. *)
Record hookWrite (d d' : db) : Prop := {
  hw_customers : customers d' = customers d;
  hw_deliveries : deliveries d' = deliveries d;
  hw_kept : hooks_kept d d';
  hw_rows i r : webhooks d' !! i = Some r -> (exists r0, webhooks d !! i = Some r0 /\ hookView r = hookView r0) \/ registered i r;
}.

Lemma hookWrite_refl d : hookWrite d d.
Proof. split; auto; [ intros i r L; eauto | eauto ]. Qed.

Lemma hookWrite_insert d i r :
  (match webhooks d !! i with Some r0 => hookView r = hookView r0 | None => registered i r end) ->
  hookWrite d (with_webhooks d (<[ i := r ]> (webhooks d))).
Proof.
  intros X; split; cbn; auto.
  - intros j r0 L; cbn; destruct (decide (i = j)) as [ <- | N ]; [ rewrite lookup_insert_eq | rewrite lookup_insert_ne by done; eauto ].
    rewrite L in X; eauto.
  - intros j r0; destruct (decide (i = j)) as [ <- | N ]; [ rewrite lookup_insert_eq | rewrite lookup_insert_ne by done; eauto ].
    intros [= <-]; destruct (webhooks d !! i); eauto.
Qed.

Lemma reply_inv d r d' a : reply d r = (d', a) -> d' = d \/ r = Ok (d', a).
Proof. destruct r; cbn; [ intros ->; auto | intros [= <- _]; auto .. ]. Qed.

Lemma reply_201 d r d' b : reply d r = (d', (201, b)) -> r = Ok (d', (201, b)).
Proof. destruct r as [ | [ ] | ]; cbn; intros [= ]; subst; done. Qed.

Lemma deactivate_write w d now wid cid d' :
  DeactivateWebhook available uuid pgtime w d now wid cid = Ok d' -> hookWrite d d'.
Proof.
  unfold DeactivateWebhook; intros E; inv_ok; destruct (uuid wid) as [ i | ], (uuid cid) as [ c | ]; try done.
  destruct (webhooks d !! i) as [ r | ] eqn:L; [ | done ]; inv_ok; apply hookWrite_insert; rewrite L; done.
Qed.

Lemma create_ok w d hook d' :
  CreateWebhook available uuid pgtime acceptsHook marshalHeaders jsonb w d hook = Ok d' ->
  exists i c hd, uuid (WebhookID hook) = Some i /\ uuid (whCustomerID hook) = Some c /\ webhooks d !! i = None /\
    hd <> ""%string /\ unmarshalHeaders hd = Some (CustomHeaders hook) /\
    d' = with_webhooks d (<[ i := insertedHook pgtime c hd hook ]> (webhooks d)).
Proof.
  unfold CreateWebhook; intros E; destruct (marshalHeaders _) as [ t | ] eqn:Mh; [ | done ]; destruct (available w Tenant); [ | done ].
  destruct (uuid (WebhookID hook)) as [ i | ], (uuid (whCustomerID hook)) as [ c | ], (jsonb t) as [ hd | ] eqn:Jb; try done.
  pass_guards E; injection E as <-; destruct (headers_read _ _ _ Mh Jb) as [ Hn Hu ].
  exists i, c, hd; split_and!; auto; destruct (webhooks d !! i) as [ r0 | ]; [ | done ].
  match goal with H : bool_decide (is_Some (Some r0)) = false |- _ => apply bool_decide_eq_false in H; destruct H; eauto end.
Qed.

Lemma valid_events req : validateWebhook parseURL parseIP req = Ok tt -> Forall (fun e => isKnownEvent e = true) (rgEvents req).
Proof.
  unfold validateWebhook; intros V; destruct (parseURL _) as [ u | ]; [ | done ]; pass_guards V.
  apply Forall_forall; intros e He; apply list_elem_of_In in He; revert e He; apply forallb_forall.
  match goal with H : negb (forallb _ _) = false |- _ => apply negb_false_iff in H; exact H end.
Qed.

Lemma create_write w d req freshID now cid secret d' :
  validateWebhook parseURL parseIP req = Ok tt ->
  CreateWebhook available uuid pgtime acceptsHook marshalHeaders jsonb w d (newHook freshID now cid secret req) = Ok d' ->
  hookWrite d d'.
Proof.
  intros V E; apply create_ok in E as (i & c & hd & Ui & _ & L & Hn & Hu & ->); apply hookWrite_insert; rewrite L.
  split_and!; cbn; eauto using uuid_idem, valid_events.
Qed.

Lemma register_write w d freshID random now method customerID webhookID body d' r :
  HandleRegisterWebhook available uuid pgtime acceptsHook marshalHeaders jsonb unmarshalHeaders row_order parseURL parseIP
    w d freshID random now method customerID webhookID body = (d', r) -> hookWrite d d'.
Proof.
  unfold HandleRegisterWebhook, handleListWebhooks, handleDeleteWebhook.
  destruct (String.eqb method "GET"); [ | destruct (String.eqb method "DELETE"); [ | destruct (negb _) ] ]; intros E.
  3: injection E as <- <-; apply hookWrite_refl.
  all: apply reply_inv in E as [ -> | E ]; [ apply hookWrite_refl | inv_ok ].
  - apply hookWrite_refl.
  - eapply deactivate_write; eauto.
  - destruct body as [ req | ]; inv_ok; eapply create_write; eauto; match goal with H : validateWebhook _ _ _ = Ok ?u |- _ => destruct u; exact H end.
Qed.

(** *** Reads *)

(** The webhook is that of a row, whether or not it has been deactivated since. *)
Definition hook_of (d : db) (h : Webhook) : Prop :=
  exists r, webhooks d !! WebhookID h = Some r /\ seen h = seenRow r /\
    (if String.eqb (rowHeaders r) "" then Some ∅ else unmarshalHeaders (rowHeaders r)) = Some (CustomHeaders h).

Lemma hook_of_kept d d' h : hooks_kept d d' -> hook_of d h -> hook_of d' h.
Proof.
  intros K (r & L & E & H); destruct (K _ _ L) as (r' & L' & V); exists r'; injection V; intros Vh; intros.
  split_and!; [ exact L' | unfold seenRow in *; congruence | rewrite Vh; exact H ].
Qed.

Lemma scanWebhook_ok i r h :
  scanWebhook unmarshalHeaders i r = Ok h ->
  WebhookID h = i /\ seen h = seenRow r /\
  (if String.eqb (rowHeaders r) "" then Some ∅ else unmarshalHeaders (rowHeaders r)) = Some (CustomHeaders h).
Proof.
  unfold scanWebhook; destruct (String.eqb _ _); [ | destruct (unmarshalHeaders _) as [ m | ]; [ | done ] ]; intros [= <-]; done.
Qed.

Lemma scanWebhooks_ok rows hs :
  scanWebhooks unmarshalHeaders rows = Ok hs -> Forall2 (fun kv h => scanWebhook unmarshalHeaders kv.1 kv.2 = Ok h) rows hs.
Proof.
  revert hs; induction rows as [ | [ i r ] rows IH ]; intros hs E; cbn in E; [ injection E as <-; constructor | ].
  destruct (scanWebhook _ i r) as [ h | | ] eqn:S; cbn in E; [ | done | done ].
  destruct (scanWebhooks _ rows) as [ hs' | | ]; cbn in E; [ injection E as <- | done | done ]; constructor; [ exact S | apply IH; done ].
Qed.

Lemma byCustomer_ok w d cid hs h :
  byCustomer w d cid = Ok hs -> h ∈ hs -> hook_of d h /\ uuid cid = Some (whCustomerID h).
Proof.
  unfold GetWebhooksByCustomer; intros E Hh; inv_ok; destruct (uuid cid) as [ c | ]; [ | done ].
  apply scanWebhooks_ok in E; apply list_elem_of_lookup in Hh as [ k Hk ].
  destruct (Forall2_lookup_r _ _ _ _ _ E Hk) as ([ i r ] & Hr & S); apply scanWebhook_ok in S as (Hi & Hs & Hd); cbn in Hi, Hs, Hd.
  apply list_elem_of_lookup_2 in Hr; rewrite row_order_perm, list_elem_of_filter, elem_of_map_to_list in Hr; destruct Hr as [ <- L ].
  split; [ exists r; rewrite Hi; done | ]; injection Hs as -> _ _ _ _ _; done.
Qed.

Lemma GetWebhook_ok w d wid h :
  GetWebhook available uuid unmarshalHeaders w d wid = Ok h -> hook_of d h /\ uuid wid = Some (WebhookID h).
Proof.
  unfold GetWebhook; intros E; inv_ok; destruct (uuid wid) as [ i | ]; [ | done ]; destruct (webhooks d !! i) as [ r | ] eqn:L; [ | done ].
  inv_ok; apply scanWebhook_ok in E as (Hi & Hs & Hd); split; [ exists r; rewrite Hi; done | congruence ].
Qed.

Lemma deliveryAt_in d i r : deliveryAt d i = Some r -> r ∈ deliveries d /\ drID r = i.
Proof.
  unfold deliveryAt; destruct (list_find _ _) as [ [ k r0 ] | ] eqn:F; [ | done ]; intros [= <-].
  apply list_find_Some in F as (L & E & _); split; [ eapply list_elem_of_lookup_2, L | exact E ].
Qed.

Lemma GetWebhookDelivery_ok w d did dl :
  GetWebhookDelivery available uuid w d did = Ok dl ->
  exists r, deliveryAt d (drID r) = Some r /\ uuid did = Some (drID r) /\ dl = scanDelivery r.
Proof.
  unfold GetWebhookDelivery; intros E; inv_ok; destruct (uuid did) as [ i | ]; [ | done ].
  destruct (deliveryAt d i) as [ r | ] eqn:L; [ | done ]; inv_ok; pose proof (proj2 (deliveryAt_in _ _ _ L)); subst i; eauto.
Qed.

Lemma record_ok w d dl d' :
  record_ w d dl = Ok d' ->
  exists r, d' = with_delivery d r /\ uuid (DeliveryID dl) = Some (drID r) /\ uuid (dlWebhookID dl) = Some (drWebhook r) /\
    uuid (dlEventID dl) = Some (drEvent r) /\ drType r = dlEventType dl /\ drAttempt r = Attempt dl /\ drPayload r = Payload dl /\
    drSuccess r = Success dl /\ drNext r = pgtime <$> NextRetryAt dl /\ deliveryAt d (drID r) = None.
Proof.
  unfold CreateWebhookDelivery; intros E; inv_ok.
  destruct (uuid (DeliveryID dl)) as [ i | ], (uuid (dlWebhookID dl)) as [ h | ], (uuid (dlEventID dl)) as [ e | ]; try done.
  inv_ok; eexists; split; [ reflexivity | ]; cbn; split_and!; auto.
  destruct (deliveryAt d i) as [ r0 | ]; [ | done ].
  match goal with H : bool_decide _ = false |- _ => apply bool_decide_eq_false in H; destruct H; eauto end.
Qed.

(** *** The invariant *)

(** The webhook belongs to the event's customer and asked for its type. *)
Definition entitled (d : db) (h : Webhook) (ev : WebhookEvent J) : Prop :=
  hook_of d h /\ uuid (CustomerID ev) = Some (whCustomerID h) /\ EventType ev ∈ Events h.

Definition delivery_ok (d : db) (r : deliveryRow) : Prop :=
  exists h ev, entitled d h ev /\ WebhookID h = drWebhook r /\ marshalEvent ev = Some (drPayload r) /\ drType r = EventType ev /\
    uuid (EventID ev) = Some (drEvent r) /\ 1 <= drAttempt r <= 3.

Definition sent_ok (d : db) (x : bytes * Request) : Prop :=
  NetGuard.isGloballyRoutable (fst x) = true /\
  exists h ev payload eid n, entitled d h ev /\ marshalEvent ev = Some payload /\ snd x = build h eid (EventType ev) payload n /\
    (eid = EventID ev \/ uuid (EventID ev) = Some eid) /\ 1 <= n <= 3.

Record inv (s : System (J := J)) : Prop := {
  inv_rows i r : webhooks (wdb s) !! i = Some r -> registered i r;
  inv_started : Forall (fun g => entitled (wdb s) g.1 g.2) (started s);
  inv_deliveries : Forall (delivery_ok (wdb s)) (deliveries (wdb s));
  inv_sent : Forall (sent_ok (wdb s)) (sent s);
}.

Lemma entitled_kept d d' h ev : hooks_kept d d' -> entitled d h ev -> entitled d' h ev.
Proof. intros K (A & B & C); split_and!; eauto using hook_of_kept. Qed.

Lemma delivery_kept d d' r : hooks_kept d d' -> delivery_ok d r -> delivery_ok d' r.
Proof. intros K (h & ev & A & X); exists h, ev; split; eauto using entitled_kept. Qed.

Lemma sent_kept d d' x : hooks_kept d d' -> sent_ok d x -> sent_ok d' x.
Proof. intros K (A & h & ev & p & eid & n & B & X); split; [ done | exists h, ev, p, eid, n; split; eauto using entitled_kept ]. Qed.

(** No subscription is to everything. *)
Lemma subscribed_in d h ty :
  (forall i r, webhooks d !! i = Some r -> registered i r) -> hook_of d h -> subscribed h ty = true -> ty ∈ Events h.
Proof.
  intros Hr (r & L & E & _) S; destruct (Hr _ _ L) as (_ & K & _); injection E as _ _ _ Ev _ _ _.
  unfold subscribed in S; apply existsb_exists in S as (e & I & X); apply list_elem_of_In in I; rewrite <- Ev in K.
  apply orb_true_iff in X as [ X | X ]; apply String.eqb_eq in X; subst e; [ done | ].
  rewrite Forall_forall in K; specialize (K _ I); discriminate K.
Qed.

(** *** Steps *)

Lemma publish_entitled w d freshID now event ev gs :
  (forall i r, webhooks d !! i = Some r -> registered i r) -> publish w d freshID now event = Ok (ev, gs) ->
  Forall (fun g => entitled d g.1 g.2) gs.
Proof.
  intros Hr; unfold PublishEvent; set (e := stamped freshID now event); intros E; inv_ok.
  match goal with H : byCustomer _ _ _ = Ok ?l |- _ => rename H into B end.
  apply Forall_forall; intros [ h e' ] Hg; apply list_elem_of_fmap in Hg as (h0 & [= -> ->] & Hf).
  apply list_elem_of_filter in Hf as [ [ _ S ] I ]; destruct (byCustomer_ok _ _ _ _ _ B I) as [ Ho Hc ].
  split_and!; [ exact Ho | exact Hc | eapply subscribed_in; eauto ].
Qed.

(** An attempt on behalf of an entitled webhook. *)
Lemma attempt_recorded m recording d h ev payload eid n dl out :
  (forall i r, webhooks d !! i = Some r -> registered i r) ->
  entitled d h ev -> marshalEvent ev = Some payload -> (eid = EventID ev \/ uuid (EventID ev) = Some eid) -> 1 <= n <= 3 ->
  attempt_ m h eid (EventType ev) payload n = (dl, out) ->
  Forall (sent_ok d) out /\
  (forall d', record_ recording d dl = Ok d' -> exists r, d' = with_delivery d r /\ delivery_ok d r /\ drAttempt r = n).
Proof.
  intros Hr En Mp Ei Hn A; destruct (attempt_fields _ _ _ _ _ _ _ _ A) as (F1 & F2 & F3 & F4 & F5 & _ & F).
  split.
  - eapply Forall_impl; [ exact F | ]; intros x [ R B ]; split; [ exact R | exists h, ev, payload, eid, n; done ].
  - intros d' E; apply record_ok in E as (r & -> & _ & Hw & He & Ht & Ha & Hp & _); exists r; split; [ done | ].
    split; [ | congruence ]; exists h, ev; rewrite F1 in Hw; rewrite F2 in He; rewrite Ha, Hp, Ht, F3, F4, F5.
    pose proof En as ((row & L & S & _) & X); split_and!; auto; try lia.
    + destruct (Hr _ _ L) as [ U _ ]; congruence.
    + destruct Ei as [ -> | Ei ]; [ done | pose proof (uuid_idem _ _ Ei); congruence ].
Qed.

Lemma attempt_inv s m recording h ev payload eid n dl out gs :
  inv s -> entitled (wdb s) h ev -> marshalEvent ev = Some payload -> (eid = EventID ev \/ uuid (EventID ev) = Some eid) ->
  1 <= n <= 3 -> attempt_ m h eid (EventType ev) payload n = (dl, out) -> (forall g, g ∈ gs -> g ∈ started s) ->
  inv {| wdb := match record_ recording (wdb s) dl with Ok d' => d' | _ => wdb s end; started := gs; sent := out ++ sent s |}.
Proof.
  intros [ I1 I2 I3 I4 ] En Mp Ei Hn A Sub; destruct (attempt_recorded m recording _ _ _ _ _ _ _ _ I1 En Mp Ei Hn A) as [ So Rc ].
  assert (Forall (fun g => entitled (wdb s) g.1 g.2) gs) as I2' by (rewrite Forall_forall in *; eauto).
  destruct (record_ recording (wdb s) dl) as [ d' | | ]; [ | split; cbn; auto; apply Forall_app; auto .. ].
  destruct (Rc d' eq_refl) as (r & -> & Dr & _); split; cbn; auto.
  - apply Forall_app; split; [ exact I3 | repeat constructor; exact Dr ].
  - apply Forall_app; auto.
Qed.

Lemma hookWrite_inv s d' : inv s -> hookWrite (wdb s) d' -> inv {| wdb := d'; started := started s; sent := sent s |}.
Proof.
  intros [ I1 I2 I3 I4 ] [ C D K R ]; split; cbn.
  - intros i r L; destruct (R _ _ L) as [ (r0 & L0 & V) | X ]; [ eapply registered_view; eauto | exact X ].
  - eapply Forall_impl; [ exact I2 | ]; intros g; apply entitled_kept, K.
  - rewrite D; eapply Forall_impl; [ exact I3 | ]; intros r; apply delivery_kept, K.
  - eapply Forall_impl; [ exact I4 | ]; intros x; apply sent_kept, K.
Qed.

Lemma retry_inv s reading recording m method did d' rep out :
  inv s ->
  HandleRetryDelivery rangeHeaders hmac urlError hostPort splitHostPort lookup_ roundTrip available uuid pgtime acceptsDelivery
    unmarshalHeaders reading recording m (wdb s) method did = (d', rep, out) ->
  inv {| wdb := d'; started := started s; sent := out ++ sent s |}.
Proof.
  intros I; assert (inv {| wdb := wdb s; started := started s; sent := [] ++ sent s |}) as Same by (destruct I; split; auto).
  unfold HandleRetryDelivery, RetryWebhookDelivery.
  destruct (negb _); [ intros [= <- <- <-]; exact Same | ]; destruct (String.eqb _ _); [ intros [= <- <- <-]; exact Same | ].
  destruct (GetWebhookDelivery _ _ _ _ _) as [ prev | | ] eqn:G; [ | intros [= <- <- <-]; exact Same .. ].
  destruct (Success prev); [ intros [= <- <- <-]; exact Same | ].
  destruct (GetWebhook _ _ _ _ _ _) as [ h | | ] eqn:Gh; [ | intros [= <- <- <-]; exact Same .. ].
  destruct (_ || _) eqn:Mx; [ intros [= <- <- <-]; exact Same | ].
  destruct (attempt_ _ _ _ _ _ _) as [ dl out0 ] eqn:A; intros E.
  apply GetWebhookDelivery_ok in G as (r & Dr & _ & ->); apply deliveryAt_in in Dr as [ Ir _ ]; apply GetWebhook_ok in Gh as [ Ho Hw ].
  pose proof (inv_deliveries _ I) as Dv; rewrite Forall_forall in Dv; destruct (Dv _ Ir) as (h0 & ev & En & Eh & Mp & Ty & Ei & Hn).
  cbn [scanDelivery dlWebhookID dlEventID dlEventType Payload Attempt] in A, Hw, Mx.
  destruct En as ((r0 & L0 & S0 & _) & Ec & Et); pose proof Ho as (r1 & L1 & S1 & _).
  assert (WebhookID h = drWebhook r) as Ew.
  { rewrite <- Eh in Hw; destruct (inv_rows _ I _ _ L0) as [ U _ ]; rewrite Eh in *; congruence. }
  rewrite Ew, <- Eh, L0 in L1; injection L1 as <-.
  assert (seen h = seen h0) as S by congruence; injection S as Sc _ _ Se Sm _ _.
  assert (MaxRetries h = 3) as M3 by (destruct (inv_rows _ I _ _ L0) as (_ & _ & M & _); injection S1; congruence).
  apply orb_false_iff in Mx as [ Mx _ ]; apply Z.leb_gt in Mx; rewrite M3 in Mx.
  assert (entitled (wdb s) h ev) as Enh.
  { split_and!; [ exact Ho | congruence | rewrite Se; exact Et ]. }
  rewrite Ty in A; rewrite i64_id in A by (unfold in_i64, two63; lia).
  pose proof (attempt_inv s m recording _ _ _ _ (drAttempt r + 1) _ _ (started s) I Enh Mp (or_intror Ei) ltac:(lia) A (fun g Hg => Hg)) as X.
  destruct (record_ recording (wdb s) dl) as [ d1 | | ]; injection E as <- _ <-; exact X.
Qed.

Lemma hooks_step_inv s s' :
  inv s -> step rangeHeaders hmac marshalEvent urlError hostPort splitHostPort lookup_ roundTrip available uuid pgtime acceptsHook
    acceptsDelivery marshalHeaders jsonb unmarshalHeaders row_order parseURL parseIP s s' -> inv s'.
Proof.
  intros I [ w fid random now method cid wid body d' r E | w fid now method body r gs E | m recording [ h ev ] l r d' out Es E
    | reading recording m method did d' r out E ].
  - eapply hookWrite_inv; eauto using register_write.
  - unfold HandlePublishEvent in E; destruct I as [ I1 I2 I3 I4 ]; split; cbn; auto.
    apply Forall_app; split; [ | exact I2 ]; destruct (negb _); [ injection E as _ <-; constructor | ].
    destruct body as [ event | ]; [ | injection E as _ <-; constructor ].
    destruct (publish _ _ _ _ _) as [ [ ev gs' ] | | ] eqn:P; injection E as _ <-; [ | constructor .. ]; eapply publish_entitled; eauto.
  - assert (forall g, g ∈ l ++ r -> g ∈ started s) as Sub by (intros g; rewrite Es, !elem_of_app, elem_of_cons; tauto).
    pose proof (inv_started _ I) as St; rewrite Es in St; apply Forall_app in St as [ _ St ]; apply Forall_cons in St as [ En _ ]; cbn in En.
    unfold deliverWebhook in E; destruct (marshalEvent ev) as [ payload | ] eqn:Mp.
    + destruct (attempt_ _ _ _ _ _ _) as [ dl out0 ] eqn:A; injection E as <- <-.
      eapply attempt_inv; eauto; lia.
    + injection E as <- <-; destruct I as [ I1 I2 I3 I4 ]; split; cbn; auto; rewrite Forall_forall in *; eauto.
  - eapply retry_inv; eauto.
Qed.

Lemma boot_inv known : inv (boot known).
Proof. split; cbn; [ intros i r L; rewrite lookup_empty in L; done | constructor .. ]. Qed.

Lemma hooks_run_inv known s : steps (boot known) s -> inv s.
Proof.
  intros R; remember (boot known) as b eqn:Eb; assert (inv b) as I by (subst; apply boot_inv); clear Eb.
  induction R as [ | x y z St _ IH ]; [ exact I | apply IH; eapply hooks_step_inv; eauto ].
Qed.

(** *** What is sent *)

Definition signatureHeader : string := "X-Webhook-Signature".

Lemma fold_headers_other (l : list (string * string)) k h :
  Forall (fun kv => canonicalHeader kv.1 <> k) l ->
  fold_left (fun h kv => setHeader (fst kv) (snd kv) h) l h !! k = h !! k.
Proof.
  intros F; revert h; induction F as [ | kv l N _ IH ]; intros h; cbn; [ done | ].
  rewrite IH; unfold setHeader; rewrite lookup_insert_ne by done; done.
Qed.

Lemma build_signature h eid ty payload n :
  (forall k, is_Some (CustomHeaders h !! k) -> canonicalHeader k <> signatureHeader) ->
  reqHeader (build h eid ty payload n) !! signatureHeader = Some (generateSignature hmac payload (Secret h)).
Proof.
  intros N; unfold buildRequest; cbn [reqHeader]; rewrite fold_headers_other.
  - unfold setHeader; rewrite lookup_insert_ne by done; apply lookup_insert_eq.
  - apply Forall_forall; intros [ k v ] I; rewrite range_headers, elem_of_map_to_list in I; apply N; eauto.
Qed.

(** C21.  Every event stays with its customer.  Whatever the service sends, in any
    interleaving of registrations, events, deliveries and retries, is the JSON
    of an event of the customer who registered the endpoint, of a type the
    endpoint subscribed to, sent to the registered URL at an address outside the
    unspecified, loopback, link-local, multicast and private blocks of IPv4 and
    IPv6 ([NetGuard.reserved], which lists them by number), and signed with the
    endpoint's own secret unless its custom headers replace the signature.  An
    address, as a resolver gives it, is of four or sixteen bytes. *)
Theorem events_stay_with_their_customer known s ip req :
  steps (boot known) s -> (ip, req) ∈ sent s ->
  (bytes_ok ip -> len ip = 4 \/ len ip = 16 -> NetGuard.reserved ip = false) /\
  exists i r ev, webhooks (wdb s) !! i = Some r /\ reqURL req = rowURL r /\ marshalEvent ev = Some (reqBody req) /\
    uuid (CustomerID ev) = Some (rowCustomer r) /\ EventType ev ∈ rowEvents r /\ isKnownEvent (EventType ev) = true /\
    ((forall hs k, unmarshalHeaders (rowHeaders r) = Some hs -> is_Some (hs !! k) -> canonicalHeader k <> signatureHeader) ->
     reqHeader req !! signatureHeader = Some (generateSignature hmac (reqBody req) (rowSecret r))).
Proof.
  intros R I; apply hooks_run_inv in R; pose proof (inv_sent _ R) as F; rewrite Forall_forall in F.
  destruct (F _ I) as (Hip & h & ev & payload & eid & n & ((r & L & S & Hd) & Ec & Et) & Mp & E & _); cbn in E, Hip; subst req.
  split; [ intros B L4; rewrite (NetGuard.routable_iff ip B L4) in Hip; apply negb_true_iff, Hip | ]; exists (WebhookID h), r, ev; injection S as Sc Su Ss Se _ _ _.
  destruct (inv_rows _ R _ _ L) as (_ & K & _ & _ & _ & Ne & _); rewrite (proj2 (String.eqb_neq _ _) Ne) in Hd.
  split_and!; [ exact L | exact Su | exact Mp | congruence | rewrite <- Se; exact Et | | ].
  - rewrite Forall_forall in K; apply K; rewrite <- Se; exact Et.
  - intros N; rewrite <- Ss; apply build_signature; intros k Hk; eapply N; eauto.
Qed.

(** *** Names of events *)

Lemma publish_events w d freshID now event ev gs :
  publish w d freshID now event = Ok (ev, gs) ->
  ev = stamped freshID now event /\ exists hs, byCustomer w d (CustomerID event) = Ok hs /\
    gs = (fun h => (h, ev)) <$> filter (fun h => IsActive h = true /\ subscribed h (EventType event) = true) hs.
Proof.
  unfold PublishEvent; cbn [CustomerID stamped EventType]; destruct (byCustomer _ _ _) as [ hs | | ] eqn:B; cbn; [ | done | done ].
  intros [= <- <-]; eauto.
Qed.

(** The service's own four events reach nobody: their names are not among
    those an endpoint can subscribe to, so no run has an endpoint for them. *)
Theorem own_events_reach_nobody known s w id now customerID data ty ev gs :
  steps (boot known) s -> ty ∈ [ "signing_completed"; "settlement_completed"; "key_created"; "compliance_check" ]%string ->
  publish w (wdb s) id now (ownEvent id now ty customerID data) = Ok (ev, gs) -> gs = [].
Proof.
  intros R Ht P; apply hooks_run_inv in R; pose proof (publish_entitled _ _ _ _ _ _ _ (inv_rows _ R) P) as F.
  destruct gs as [ | [ h e ] gs ]; [ done | exfalso ]; apply Forall_cons in F as [ ((r & L & S & _) & _ & Et) _ ]; cbn in Et.
  assert (EventType e = ty) as Ee.
  { apply publish_events in P as (-> & hs & _ & G).
    apply (f_equal (fun l => match l with g :: _ => Some (EventType (snd g)) | [] => None end)) in G; destruct (filter _ hs); [ done | injection G; done ]. }
  destruct (inv_rows _ R _ _ L) as (_ & K & _); injection S as _ _ _ Se _ _ _; rewrite Forall_forall in K; rewrite Se in Et.
  specialize (K _ Et); rewrite Ee in K; rewrite !elem_of_cons in Ht; destruct_or! Ht; try (subst ty; discriminate K); apply elem_of_nil in Ht; done.
Qed.

(** *** A registered endpoint is called *)

Lemma scanWebhooks_all rows :
  (forall i r, (i, r) ∈ rows -> exists h, scanWebhook unmarshalHeaders i r = Ok h) ->
  exists hs, scanWebhooks unmarshalHeaders rows = Ok hs.
Proof.
  induction rows as [ | [ i r ] rows IH ]; intros A; cbn; [ eauto | ].
  destruct (A i r) as [ h -> ]; [ left | ]; destruct IH as [ hs -> ]; [ intros; apply A; right; done | cbn; eauto ].
Qed.

(** After a registration is answered 201, an event of a type it asked for,
    published for its customer, is set out to the endpoint: with the URL,
    secret and headers of the registration. *)
Theorem registered_is_called known s w freshID random now customerID req d' hook w2 id2 now2 event :
  steps (boot known) s ->
  HandleRegisterWebhook available uuid pgtime acceptsHook marshalHeaders jsonb unmarshalHeaders row_order parseURL parseIP
    w (wdb s) freshID random now "POST" customerID "" (Some req) = (d', (201, Created hook)) ->
  available w2 Tenant = true -> uuid (CustomerID event) = uuid customerID -> EventType event ∈ rgEvents req ->
  exists h gs, publish w2 d' id2 now2 event = Ok (stamped id2 now2 event, gs) /\ (h, stamped id2 now2 event) ∈ gs /\
    URL h = trim_space (rgURL req) /\ Secret h = Secret hook /\ CustomHeaders h = rgHeaders req /\
    (rgSecret req <> ""%string -> Secret h = rgSecret req).
Proof.
  intros R E Av Ec Et; pose proof (hooks_run_inv _ _ R) as I; pose proof (register_write _ _ _ _ _ _ _ _ _ _ _ E) as Hw.
  pose proof (inv_rows _ (hookWrite_inv s d' I Hw)) as Rows; cbn in Rows.
  unfold HandleRegisterWebhook in E; cbn [String.eqb Ascii.eqb Bool.eqb negb] in E; apply reply_201 in E; inv_ok.
  match goal with H : CreateWebhook _ _ _ _ _ _ _ _ _ = Ok _ |- _ => apply create_ok in H as (i & c & hd & Ui & Uc & L & Hn & Hu & ->) end.
  cbn [newHook whCustomerID CustomHeaders WebhookID Secret] in *.
  match goal with |- context [ newHook freshID now customerID ?x req ] => rename x into secret end.
  set (row := insertedHook pgtime c hd (newHook freshID now customerID secret req)) in *.
  set (rows := row_order (filter (fun kv => rowCustomer kv.2 = c) (map_to_list (<[ i := row ]> (webhooks (wdb s)))))).
  destruct (scanWebhooks_all rows) as [ hs Hs ].
  { intros j r Hj; unfold rows in Hj; rewrite row_order_perm, list_elem_of_filter, elem_of_map_to_list in Hj; destruct Hj as [ _ Lj ].
    destruct (Rows _ _ Lj) as (_ & _ & _ & _ & _ & Nj & [ m Um ]); unfold scanWebhook; rewrite (proj2 (String.eqb_neq _ _) Nj), Um; eauto. }
  assert ((i, row) ∈ rows) as Hi.
  { unfold rows; rewrite row_order_perm, list_elem_of_filter, elem_of_map_to_list; split; [ done | apply lookup_insert_eq ]. }
  apply list_elem_of_lookup in Hi as [ k Hk ].
  destruct (Forall2_lookup_l _ _ _ _ _ (scanWebhooks_ok _ _ Hs) Hk) as (h & Hh & Sc); cbn in Sc.
  pose proof (scanWebhook_ok _ _ _ Sc) as (_ & S & Hd); cbn in Hd; rewrite (proj2 (String.eqb_neq _ _) Hn), Hu in Hd.
  assert (IsActive h = true) as Ha.
  { unfold scanWebhook in Sc; cbn in Sc; rewrite (proj2 (String.eqb_neq _ _) Hn), Hu in Sc; injection Sc as <-; done. }
  injection S as _ Su Ss Se _ _ _; injection Hd as Hd.
  eexists h, _; split; [ | split; [ | split_and!; [ exact Su | exact Ss | congruence | ] ] ].
  - unfold PublishEvent, GetWebhooksByCustomer; cbn [stamped CustomerID with_webhooks webhooks]; rewrite Av, Ec, Uc; fold rows; rewrite Hs; reflexivity.
  - apply list_elem_of_fmap; exists h; split; [ done | ]; apply list_elem_of_filter; split; [ | eapply list_elem_of_lookup_2, Hh ].
    split; [ exact Ha | ]; unfold subscribed; apply existsb_exists; exists (EventType event); rewrite String.eqb_refl; split; [ | done ].
    apply list_elem_of_In; rewrite Se; exact Et.
  - intros Ns; rewrite Ss; cbn.
    match goal with H : (if String.eqb (rgSecret req) "" then _ else _) = Ok _ |- _ => rewrite (proj2 (String.eqb_neq _ _) Ns) in H; injection H; done end.
Qed.

(** *** The log *)

Lemma record_keeps w d dl d' : record_ w d dl = Ok d' -> hooks_kept d d' /\ deliveries d `prefix_of` deliveries d'.
Proof. intros E; apply record_ok in E as (r & -> & _); split; [ intros i h L; eauto | exists [ r ]; done ]. Qed.

Lemma same_keeps d : hooks_kept d d /\ deliveries d `prefix_of` deliveries d.
Proof. split; [ intros i h L; eauto | done ]. Qed.

(** Nothing recorded is altered: webhooks keep their terms, and deliveries are
    only ever added. *)
Lemma step_keeps s s' :
  step rangeHeaders hmac marshalEvent urlError hostPort splitHostPort lookup_ roundTrip available uuid pgtime acceptsHook
    acceptsDelivery marshalHeaders jsonb unmarshalHeaders row_order parseURL parseIP s s' ->
  hooks_kept (wdb s) (wdb s') /\ deliveries (wdb s) `prefix_of` deliveries (wdb s').
Proof.
  intros [ w fid random now method cid wid body d' r E | w fid now method body r gs E | m recording [ h ev ] l r d' out Es E
    | reading recording m method did d' r out E ]; cbn.
  - apply register_write in E as [ _ D K _ ]; rewrite D; split; [ exact K | done ].
  - apply same_keeps.
  - unfold deliverWebhook in E; destruct (marshalEvent ev); [ | injection E as <- _; apply same_keeps ].
    destruct (attempt_ _ _ _ _ _ _) as [ dl out0 ]; destruct (record_ recording (wdb s) dl) eqn:Rc; injection E as <- _;
      eauto using record_keeps, same_keeps.
  - unfold HandleRetryDelivery, RetryWebhookDelivery in E; destruct (negb _); [ injection E as <- _ _; apply same_keeps | ].
    destruct (String.eqb _ _); [ injection E as <- _ _; apply same_keeps | ].
    destruct (GetWebhookDelivery _ _ _ _ _) as [ prev | | ]; [ | injection E as <- _ _; apply same_keeps .. ].
    destruct (Success prev); [ injection E as <- _ _; apply same_keeps | ].
    destruct (GetWebhook _ _ _ _ _ _) as [ h | | ]; [ | injection E as <- _ _; apply same_keeps .. ].
    destruct (_ || _); [ injection E as <- _ _; apply same_keeps | ].
    destruct (attempt_ _ _ _ _ _ _) as [ dl out0 ]; destruct (record_ recording (wdb s) dl) eqn:Rc; injection E as <- _ _;
      eauto using record_keeps, same_keeps.
Qed.

Lemma later_keeps s s' : steps s s' -> hooks_kept (wdb s) (wdb s') /\ deliveries (wdb s) `prefix_of` deliveries (wdb s').
Proof.
  induction 1 as [ x | x y z St _ [ K P ] ]; [ apply same_keeps | ]; destruct (step_keeps _ _ St) as [ K1 P1 ]; split; [ | etrans; eauto ].
  intros i r L; destruct (K1 _ _ L) as (r1 & L1 & V1); destruct (K _ _ L1) as (r2 & L2 & V2); exists r2; split; congruence.
Qed.

(** *** Retries *)

(** The same request but for the header that counts attempts. *)
Definition sameButAttempt (a b : Request) : Prop :=
  reqURL a = reqURL b /\ reqBody a = reqBody b /\
  forall k, k <> "X-Webhook-Attempt"%string -> reqHeader a !! k = reqHeader b !! k.

Lemma fold_headers_agree (l : list (string * string)) a b k :
  (a !! k = b !! k) ->
  fold_left (fun h kv => setHeader (fst kv) (snd kv) h) l a !! k = fold_left (fun h kv => setHeader (fst kv) (snd kv) h) l b !! k.
Proof.
  revert a b; induction l as [ | [ x v ] l IH ]; intros a b E; cbn; [ exact E | ]; apply IH; unfold setHeader.
  destruct (decide (canonicalHeader x = k)) as [ <- | N ]; [ rewrite !lookup_insert_eq | rewrite !lookup_insert_ne by done ]; done.
Qed.

Lemma build_same h h' eid ty payload n n' :
  URL h = URL h' -> Secret h = Secret h' -> CustomHeaders h = CustomHeaders h' ->
  sameButAttempt (build h eid ty payload n) (build h' eid ty payload n').
Proof.
  intros Eu Es Eh; unfold buildRequest; rewrite Eu, Es, Eh; split_and!; [ done | done | ]; intros k N; cbn [reqHeader].
  apply fold_headers_agree; unfold setHeader at 1 6; change (canonicalHeader "X-Webhook-Attempt") with "X-Webhook-Attempt"%string.
  rewrite !lookup_insert_ne by done; done.
Qed.

Lemma retry_sent reading recording m d method did d' rep out x :
  HandleRetryDelivery rangeHeaders hmac urlError hostPort splitHostPort lookup_ roundTrip available uuid pgtime acceptsDelivery
    unmarshalHeaders reading recording m d method did = (d', rep, out) -> x ∈ out ->
  exists r h, uuid did = Some (drID r) /\ deliveryAt d (drID r) = Some r /\
    GetWebhook available uuid unmarshalHeaders reading d (drWebhook r) = Ok h /\ drAttempt r < MaxRetries h /\
    snd x = build h (drEvent r) (drType r) (drPayload r) (i64 (drAttempt r + 1)).
Proof.
  unfold HandleRetryDelivery, RetryWebhookDelivery; intros E I.
  destruct (negb _); [ injection E as _ _ <-; apply elem_of_nil in I; done | ].
  destruct (String.eqb _ _); [ injection E as _ _ <-; apply elem_of_nil in I; done | ].
  destruct (GetWebhookDelivery _ _ _ _ _) as [ prev | | ] eqn:G; [ | injection E as _ _ <-; apply elem_of_nil in I; done .. ].
  apply GetWebhookDelivery_ok in G as (r & Dr & Ud & ->); destruct (Success _); [ injection E as _ _ <-; apply elem_of_nil in I; done | ].
  destruct (GetWebhook _ _ _ _ _ _) as [ h | | ] eqn:Gh; [ | injection E as _ _ <-; apply elem_of_nil in I; done .. ].
  destruct (_ || _) eqn:Mx; [ injection E as _ _ <-; apply elem_of_nil in I; done | ].
  destruct (attempt_ _ _ _ _ _ _) as [ dl out0 ] eqn:A; apply attempt_fields in A as (_ & _ & _ & _ & _ & _ & F).
  assert (x ∈ out0) as I0 by (destruct (record_ _ _ _); injection E as _ _ <-; exact I).
  rewrite Forall_forall in F; apply orb_false_iff in Mx as [ Mx _ ]; apply Z.leb_gt in Mx.
  exists r, h; split_and!; auto; apply (F _ I0).
Qed.

(** A retry repeats its request.  If an attempt was recorded, then a retry of
    it, at any later time and whatever happened to the webhooks in between,
    sends to the same URL the same bytes under the same signature and headers,
    except for the attempt it announces; provided the event's id was written in
    the form Postgres gives it back. *)
Theorem retry_repeats_request known s0 s1 s m1 w1 h eid ty payload n dl out1 reading recording m2 d' rep out2 ip req :
  steps (boot known) s0 -> hook_of (wdb s0) h -> uuid eid = Some eid -> attempt_ m1 h eid ty payload n = (dl, out1) ->
  record_ w1 (wdb s0) dl = Ok (wdb s1) -> steps s1 s ->
  HandleRetryDelivery rangeHeaders hmac urlError hostPort splitHostPort lookup_ roundTrip available uuid pgtime acceptsDelivery
    unmarshalHeaders reading recording m2 (wdb s) "POST" (DeliveryID dl) = (d', rep, out2) ->
  (ip, req) ∈ out2 -> sameButAttempt req (build h eid ty payload n).
Proof.
  intros R0 Ho Ue A Rc R Rt I; pose proof (hooks_run_inv _ _ R0) as I0; destruct (later_keeps _ _ R) as [ K [ more Pf ] ].
  assert (uuid (WebhookID h) = Some (WebhookID h)) as Uh by (destruct Ho as (r0 & L0 & _); exact (proj1 (inv_rows _ I0 _ _ L0))).
  destruct (attempt_fields _ _ _ _ _ _ _ _ A) as (F1 & F2 & F3 & F4 & F5 & _ & _).
  destruct (record_ok _ _ _ _ Rc) as (r & Ed & Ud & Uw & Ev & Ty & At & Pl & _ & _ & Nd); rewrite Ed in *; set (d := wdb s0) in *.
  assert (deliveryAt (wdb s) (drID r) = Some r) as Dr.
  { unfold deliveryAt; assert (list_find (fun x => drID x = drID r) (deliveries (wdb s)) = Some (length (deliveries d), r)) as ->; [ | done ].
    apply list_find_Some; rewrite Pf; cbn [with_delivery deliveries]; rewrite <- app_assoc; split_and!; [ | done | ].
    - rewrite lookup_app_r, Nat.sub_diag by done; done.
    - intros j y Lj Hj; rewrite lookup_app_l in Lj by done; intros E; unfold deliveryAt in Nd.
      destruct (list_find _ (deliveries d)) as [ [ ? ? ] | ] eqn:Fd; [ done | ].
      apply list_find_None in Fd; rewrite Forall_lookup in Fd; exact (Fd _ _ Lj E). }
  destruct (retry_sent _ _ _ _ _ _ _ _ _ _ Rt I) as (r2 & h2 & Ud2 & Dr2 & G & _ & Eq).
  rewrite Ud in Ud2; injection Ud2 as Ud2; rewrite <- Ud2, Dr in Dr2; injection Dr2 as <-.
  cbn [snd] in Eq; rewrite Eq, Ty, Pl, F3, F5; replace (drEvent r) with eid by congruence.
  apply GetWebhook_ok in G as [ (r3 & L3 & S3 & H3) W3 ].
  assert (WebhookID h2 = WebhookID h) as Ew.
  { assert (drWebhook r = WebhookID h) as X by congruence; rewrite X in W3; congruence. }
  destruct (hook_of_kept _ _ _ K Ho) as (r4 & L4 & S4 & H4); rewrite Ew, L4 in L3; injection L3 as <-.
  assert (seen h2 = seen h) as S by congruence; injection S as _ Su Ss _ _ _ _; apply build_same; congruence.
Qed.
(** *** Timing *)

(** A failed attempt below the limit is retried after the backoff, doubled for
    each attempt before it up to the sixteenth, always in the future; at the
    limit it is not retried.  The premise keeps the product within 63 bits. *)
Theorem retry_schedule now dl h :
  1 <= Attempt dl < two63 -> Z.max 1 (BackoffSeconds h) * 2 ^ 16 * second < two63 -> 0 < Z.max 1 (BackoffSeconds h) ->
  (MaxRetries h <= Attempt dl -> scheduleRetry now dl h = NextRetryAt dl) /\
  (Attempt dl < MaxRetries h ->
   exists t, scheduleRetry now dl h = Some t /\ now < t /\
     t = now + Z.max 1 (BackoffSeconds h) * (if ExponentialBackoff h then 2 ^ Z.min 16 (Attempt dl - 1) else 1) * second).
Proof.
  intros Ha Hb Hp; unfold scheduleRetry; split; intros Hm.
  { rewrite (proj2 (Z.leb_le _ _)) by done; done. }
  rewrite (proj2 (Z.leb_gt _ _)) by done; set (b := Z.max 1 (BackoffSeconds h)) in *.
  assert ((if BackoffSeconds h <=? 0 then 1 else BackoffSeconds h) = b) as -> by (unfold b; destruct (Z.leb_spec (BackoffSeconds h) 0); lia).
  rewrite (i64_id (Attempt dl - 1)) by (unfold in_i64; lia).
  assert ((if 16 <? Attempt dl - 1 then 16 else Attempt dl - 1) = Z.min 16 (Attempt dl - 1)) as -> by (destruct (Z.ltb_spec 16 (Attempt dl - 1)); lia).
  set (k := Z.min 16 (Attempt dl - 1)); assert (0 <= k <= 16) as Hk by lia; rewrite (proj2 (Z.ltb_ge _ _)) by lia.
  assert (1 <= 2 ^ k <= 2 ^ 16) as Hpow by (split; [ change 1 with (2 ^ 0) at 1 | ]; apply Z.pow_le_mono_r; lia).
  assert (b * 2 ^ k <= b * 2 ^ 16) by (apply Z.mul_le_mono_nonneg_l; lia).
  unfold second, two63 in *; destruct (ExponentialBackoff h); eexists; (split; [ reflexivity | ]).
  - rewrite (i64_id (b * 2 ^ k)) by (unfold in_i64, two63; nia); rewrite i64_id by (unfold in_i64, two63; nia); split; [ nia | lia ].
  - rewrite i64_id by (unfold in_i64, two63; nia); split; [ nia | lia ].
Qed.

End Facts.
(** ** Concrete runs *)

Module Simple.

(** One address for every name; an instant is the status receivers answer with. *)
Definition everyUuid (s : string) : option string := if String.eqb s "" || String.eqb s "order-17" then None else Some s.
Definition noHeaders (h : gmap string string) : option string := if bool_decide (h = ∅) then Some "{}"%string else None.
Definition readHeaders (s : string) : option (gmap string string) := if String.eqb s "{}" then Some ∅ else None.
Definition names (ev : WebhookEvent unit) : option bytes := Some (to_bytes (EventID ev +:+ EventType ev)).
Definition oneHost (w : Z) (h : string) : option (list bytes) := Some [ [ 93; 184; 216; 34 ] ].
Definition answers (w : Z) (ip : bytes) (port : string) (r : Request) : option Z := Some w.
Definition https (s : string) : option ParsedURL := Some {| Scheme := "https"; Host := s; Hostname := s |}.
Definition onPort (s : string) : option (string * string) := Some (s, "443"%string).

Definition listHeaders (m : gmap string string) : list (string * string) := map_to_list m.
Definition inOrder (l : list (string * webhookRow)) : list (string * webhookRow) := l.

#[local] Instance simple_store : WebhookStore listHeaders everyUuid inOrder noHeaders Some readHeaders.
Proof.
  split.
  - intros m; apply Permutation_refl.
  - unfold everyUuid; intros x y; destruct (_ || _) eqn:E; [ done | intros [= <-]; rewrite E; done ].
  - intros l; apply Permutation_refl.
  - unfold noHeaders; intros h t j; case_bool_decide; [ subst | done ]; intros [= <-] [= <-]; split; done.
Qed.

Abbreviation register := (HandleRegisterWebhook (fun (_ : Z) _ => true) everyUuid id (fun _ => true) noHeaders Some readHeaders inOrder https (fun _ => None)).
Abbreviation publishes := (HandlePublishEvent (J := unit) (fun (_ : Z) _ => true) everyUuid readHeaders inOrder).
Abbreviation delivers := (deliverWebhook listHeaders (fun k p => k ++ p) names (fun _ => None) id onPort oneHost answers
  (fun _ _ => true) everyUuid id (fun _ => true)).
Abbreviation retries := (HandleRetryDelivery listHeaders (fun k p => k ++ p) (fun _ => None) id onPort oneHost answers
  (fun _ _ => true) everyUuid id (fun _ => true) readHeaders).
Abbreviation steps := (rtc (step (J := unit) listHeaders (fun k p => k ++ p) names (fun _ => None) id onPort oneHost answers
  (fun _ _ => true) everyUuid id (fun _ => true) (fun _ => true) noHeaders Some readHeaders inOrder https (fun _ => None))).

Definition acme : string := "11111111-1111-1111-1111-111111111111".
Definition hookID : string := "22222222-2222-2222-2222-222222222222".
Definition asked : RegisterWebhookRequest :=
  {| rgURL := " https://example.com "; rgEvents := [ "transfer.completed"%string ]; rgSecret := "0123456789abcdef"; rgHeaders := ∅ |}.
Definition transfer : WebhookEvent unit :=
  {| EventID := "e1"; EventType := "transfer.completed"; Timestamp := Some 5; Data := Decoded tt; CustomerID := acme |}.
Definition moment (code : Z) (id : string) : Moment Z := {| at_w := code; fresh := id; created := 100; scheduling := 200; took := 7 |}.

Definition s0 : System (J := unit) := boot {[ acme ]}.
Definition s1 : System (J := unit) := {| wdb := fst (register 0 (wdb s0) hookID None 1 "POST" acme "" (Some asked)); started := []; sent := [] |}.
Definition s2 : System (J := unit) := {| wdb := wdb s1; started := snd (publishes 0 (wdb s1) "x" 1 "POST" (Some transfer)); sent := [] |}.
Definition job : Started (J := unit) := default (newHook "" 0 "" "" asked, transfer) (head (started s2)).
Definition s3 : System (J := unit) :=
  {| wdb := fst (delivers (moment 500 "d1") 0 (wdb s2) job); started := []; sent := snd (delivers (moment 500 "d1") 0 (wdb s2) job) |}.

Ltac by_run := match goal with |- ?a = _ => vm_cast_no_check (eq_refl a) end.
Lemma pair_fst {A B} (x : A * B) : x = (fst x, snd x).
Proof. apply surjective_pairing. Qed.

Lemma run1 : steps s0 s1.
Proof. apply rtc_once, (step_hooks _ _ _ _ _ _ _ _ _ _ _ _ _ _ _ _ _ _ _ s0 0 hookID None 1 "POST" acme "" (Some asked) _ _ (pair_fst _)). Qed.

Lemma run3 : steps s0 s3.
Proof.
  eapply transitivity; [ exact run1 | ]; apply (rtc_l _ _ s2).
  - assert (snd (publishes 0 (wdb s1) "x" 1 "POST" (Some transfer)) ++ started s1 = started s2) as E by (apply app_nil_r).
    pose proof (step_publish listHeaders (fun k p => k ++ p) names (fun _ => None) id onPort oneHost answers
      (fun _ _ => true) everyUuid id (fun _ => true) (fun _ => true) noHeaders Some readHeaders inOrder https (fun _ => None)
      s1 0 "x" 1 "POST" (Some transfer) _ _ (pair_fst _)) as X; rewrite E in X; exact X.
  - apply rtc_once; pose proof (step_deliver listHeaders (fun k p => k ++ p) names (fun _ => None) id onPort oneHost answers
      (fun _ _ => true) everyUuid id (fun _ => true) (fun _ => true) noHeaders Some readHeaders inOrder https (fun _ => None)
      s2 (moment 500 "d1") 0 job [] [] _ _ ltac:(by_run) (pair_fst _)) as X.
    cbn [sent s2] in X; rewrite app_nil_r in X; exact X.
Qed.

Definition firstSent : bytes * Request := default ([], {| reqURL := ""; reqHeader := ∅; reqBody := [] |}) (head (sent s3)).

Lemma events_stay_with_their_customer_witness :
  sent s3 = [ firstSent ] /\ NetGuard.reserved firstSent.1 = false /\
  exists i r ev, webhooks (wdb s3) !! i = Some r /\ reqURL firstSent.2 = rowURL r /\ names ev = Some (reqBody firstSent.2) /\
    everyUuid (CustomerID ev) = Some (rowCustomer r).
Proof.
  assert (sent s3 = [ firstSent ]) as E by by_run; split; [ exact E | ].
  destruct (events_stay_with_their_customer listHeaders (fun k p => k ++ p) names (fun _ => None) id onPort oneHost answers
    (fun _ _ => true) everyUuid id (fun _ => true) (fun _ => true) noHeaders Some readHeaders inOrder https (fun _ => None)
    {[ acme ]} s3 firstSent.1 firstSent.2 run3) as (R & i & r & ev & L & U & M & C & _).
  - rewrite E, <- surjective_pairing; left.
  - split; [ apply R; [ solve_bytes | left; by_run ] | exists i, r, ev; auto ].
Defined.

Lemma own_events_reach_nobody_witness :
  exists ev, PublishKeyCreated (fun (_ : Z) _ => true) everyUuid readHeaders inOrder 0 (wdb s3) "e9" 3 acme
    {| kcKeyID := "k"; kcName := ""; kcBlockchain := ""; kcThreshold := 2; kcTotalParties := 3; kcStatus := ""; kcCreatedAt := "" |}
    = Ok (ev, [] : list (Started (J := unit))).
Proof.
  set (data := {| kcKeyID := "k"; kcName := ""; kcBlockchain := ""; kcThreshold := 2; kcTotalParties := 3; kcStatus := ""; kcCreatedAt := "" |}).
  destruct (PublishKeyCreated (fun (_ : Z) _ => true) everyUuid readHeaders inOrder 0 (wdb s3) "e9" 3 acme data) as [ [ ev gs ] | | ] eqn:P.
  - exists ev; rewrite (own_events_reach_nobody listHeaders (fun k p => k ++ p) names (fun _ => None) id onPort oneHost answers
    (fun _ _ => true) everyUuid id (fun _ => true) (fun _ => true) noHeaders Some readHeaders inOrder https (fun _ => None)
      {[ acme ]} s3 0 "e9" 3 acme (KeyData data) "key_created" ev gs run3 ltac:(right; right; left) P); reflexivity.
  - assert (is_ok (PublishKeyCreated (J := unit) (fun (_ : Z) _ => true) everyUuid readHeaders inOrder 0 (wdb s3) "e9" 3 acme data) = true) as X by by_run.
    rewrite P in X; discriminate X.
  - assert (is_ok (PublishKeyCreated (J := unit) (fun (_ : Z) _ => true) everyUuid readHeaders inOrder 0 (wdb s3) "e9" 3 acme data) = true) as X by by_run.
    rewrite P in X; discriminate X.
Defined.

Lemma registered_is_called_witness :
  exists h gs, PublishEvent (fun (_ : Z) _ => true) everyUuid readHeaders inOrder 0 (wdb s1) "x" 1 transfer = Ok (transfer, gs) /\
    (h, transfer) ∈ gs /\ URL h = "https://example.com"%string /\ Secret h = "0123456789abcdef"%string.
Proof.
  assert (snd (register 0 (wdb s0) hookID None 1 "POST" acme "" (Some asked)) =
    (201, Created (newHook hookID 1 acme "0123456789abcdef" asked))) as E by by_run.
  destruct (registered_is_called listHeaders (fun k p => k ++ p) names (fun _ => None) id onPort oneHost answers
    (fun _ _ => true) everyUuid id (fun _ => true) (fun _ => true) noHeaders Some readHeaders inOrder https (fun _ => None)
    {[ acme ]} s0 0 hookID None 1 acme asked (wdb s1) (newHook hookID 1 acme "0123456789abcdef" asked) 0 "x" 1 transfer)
    as (h & gs & P & I & U & _ & _ & S).
  - reflexivity.
  - rewrite <- E; apply pair_fst.
  - reflexivity.
  - reflexivity.
  - left.
  - exists h, gs; split_and!; [ exact P | exact I | exact U | apply S; discriminate ].
Defined.

(** The endpoint's row as read, and the attempt that delivered to it. *)
Definition hook1 : Webhook := job.1.
Definition attempt1 := attemptDelivery listHeaders (fun k p => k ++ p) (fun _ => None) id onPort oneHost answers (moment 500 "d1") hook1
  "e1" "transfer.completed" (to_bytes "e1transfer.completed") 1.

Lemma hook1_read : hook_of readHeaders (wdb s1) hook1.
Proof.
  assert (scanWebhook readHeaders hookID (default (insertedHook id "" "" hook1) (webhooks (wdb s1) !! hookID)) = Ok hook1) as S by by_run.
  apply scanWebhook_ok in S as (I & S & H); exists (default (insertedHook id "" "" hook1) (webhooks (wdb s1) !! hookID)).
  rewrite I; split_and!; [ | exact S | exact H ]; by_run.
Qed.

Lemma retry_repeats_request_witness :
  let out := snd (retries 200 200 (moment 200 "d2") (wdb s3) "POST" "d1") in
  exists ip req, out = [ (ip, req) ] /\
    sameButAttempt req (buildRequest listHeaders (fun k p => k ++ p) hook1 "e1" "transfer.completed" (to_bytes "e1transfer.completed") 1).
Proof.
  intros out; set (x := default ([], {| reqURL := ""; reqHeader := ∅; reqBody := [] |}) (head out)).
  assert (out = [ x ]) as E by by_run; exists x.1, x.2; split; [ rewrite E; destruct x; done | ].
  apply (retry_repeats_request listHeaders (fun k p => k ++ p) names (fun _ => None) id onPort oneHost answers
    (fun _ _ => true) everyUuid id (fun _ => true) (fun _ => true) noHeaders Some readHeaders inOrder https (fun _ => None)
    {[ acme ]} s1 s3 s3 (moment 500 "d1") 0 hook1 "e1" "transfer.completed" (to_bytes "e1transfer.completed") 1 attempt1.1 attempt1.2
    200 200 (moment 200 "d2") (fst (fst (retries 200 200 (moment 200 "d2") (wdb s3) "POST" "d1")))
    (snd (fst (retries 200 200 (moment 200 "d2") (wdb s3) "POST" "d1"))) out x.1 x.2 run1 hook1_read).
  - reflexivity.
  - apply surjective_pairing.
  - by_run.
  - reflexivity.
  - change (DeliveryID attempt1.1) with "d1"%string; destruct (retries 200 200 (moment 200 "d2") (wdb s3) "POST" "d1") as [ [ ? ? ] ? ]; reflexivity.
  - rewrite E; destruct x; left.
Defined.

Lemma retry_schedule_witness :
  scheduleRetry 200 attempt1.1 hook1 = Some (200 + 60 * second).
Proof.
  destruct (retry_schedule 200 attempt1.1 hook1) as [ _ S ]; [ vm_compute; split; [ discriminate | reflexivity ] | vm_compute; reflexivity .. | ].
  destruct S as (t & -> & _ & ->); [ vm_compute; reflexivity | reflexivity ].
Defined.

(** A deactivated endpoint is still retried, and a delivery whose retry
    succeeded can be sent again and stays due for ever. *)
Definition stopped : db := fst (register 0 (wdb s3) "" None 9 "DELETE" acme hookID None).
Lemma deactivated_is_retried :
  rowActive <$> webhooks stopped !! hookID = Some false /\
  length (snd (retries 200 200 (moment 200 "d2") stopped "POST" "d1")) = 1%nat.
Proof. split; by_run. Qed.

Definition again : db := fst (fst (retries 200 200 (moment 200 "d2") (wdb s3) "POST" "d1")).
Lemma retried_again_after_success :
  fst (snd (fst (retries 200 200 (moment 200 "d2") (wdb s3) "POST" "d1"))) = 200 /\
  length (snd (retries 200 200 (moment 200 "d3") again "POST" "d1")) = 1%nat /\
  match GetDeliveriesDueForRetry (fun (_ : Z) _ => true) id 0 again (10 ^ 15) 10 with Ok l => map DeliveryID l | _ => [] end
  = [ "d1"%string ].
Proof. split_and!; by_run. Qed.

(** An event whose id is not a uuid is sent, and leaves no record. *)
Definition order : WebhookEvent unit :=
  {| EventID := "order-17"; EventType := "transfer.completed"; Timestamp := None; Data := Decoded tt; CustomerID := acme |}.
Lemma unreadable_id_unrecorded :
  let gs := snd (publishes 0 (wdb s1) "x" 1 "POST" (Some order)) in
  let r := delivers (moment 500 "d1") 0 (wdb s1) (default job (head gs)) in
  length gs = 1%nat /\ length (snd r) = 1%nat /\ fst r = wdb s1.
Proof. split_and!; by_run. Qed.
End Simple.
End Webhooks.
