(* ===== verification/Float64.v ===== *)
(** * [float64] as the policy engine uses it

    The engine narrows exact amounts to [float64] with [big.Float.Float64] and
    compares the results.  A finite [float64] is a dyadic [mant * 2 ^ expo] of
    BigFloat.v, here with a sign; the values that occur are zero or at least
    1e-36, so that no denormal arises.

    The facts: rounding to the nearest never moves an amount across a number
    that is itself representable, through the division at 256 bits and the
    narrowing to 53 as well. *)

From Stdlib Require Import ZArith Lia.
From stdpp Require Import base list numbers.
From S2P Require Import Prelude BigFloat.

Open Scope Z_scope.

Module Float64.
Import BigFloat.

Inductive F64 : Type := Fin (f : Float) | Inf (negative : bool).

(** [x.Float64()]: 53 bits, to the nearest, ties to even, infinite from
    2^1024 on. *)
Definition narrow (negative : bool) (x : Float) : F64 :=
  let r := round 53 (mant x) (expo x) false in
  if (0 <? mant r) && (1024 <? bits (mant r) + expo r) then Inf negative
  else Fin {| mant := if negative then - mant r else mant r; expo := expo r |}.

(** [new(big.Float).SetInt(n)] is exact when no precision was set. *)
Definition of_int (n : Z) : F64 := narrow (n <? 0) {| mant := Z.abs n; expo := 0 |}.

(** [x > y] on finite numbers. *)
Definition gtb (x y : Float) : bool := negb (leb x y).

(** ** Order, whatever the common exponent *)

Definition scaled (E : Z) (x : Float) : Z := mant x * 2 ^ (expo x - E).

Lemma scaled_shift E E' x : E' <= E <= expo x -> scaled E' x = scaled E x * 2 ^ (E - E').
Proof. intros H; unfold scaled; rewrite <- Z.mul_assoc, <- Z.pow_add_r by lia; do 2 f_equal; lia. Qed.

Lemma leb_scaled E x y : E <= expo x -> E <= expo y -> leb x y = (scaled E x <=? scaled E y).
Proof.
  intros Hx Hy; unfold leb; set (e := Z.min (expo x) (expo y)); fold (scaled e x) (scaled e y).
  rewrite (scaled_shift e E x), (scaled_shift e E y) by lia.
  pose proof (pow2_pos (e - E) ltac:(lia)) as P.
  destruct (scaled e x <=? scaled e y) eqn:C; b2p; symmetry; [ apply Z.leb_le | apply Z.leb_gt ]; nia.
Qed.

Lemma leb_trans x y z : leb x y = true -> leb y z = true -> leb x z = true.
Proof.
  set (E := Z.min (expo x) (Z.min (expo y) (expo z))).
  rewrite (leb_scaled E x y), (leb_scaled E y z), (leb_scaled E x z) by lia.
  rewrite !Z.leb_le; lia.
Qed.

Lemma leb_total x y : leb x y = false -> leb y x = true.
Proof.
  set (E := Z.min (expo x) (expo y)); rewrite (leb_scaled E x y), (leb_scaled E y x) by lia.
  rewrite Z.leb_gt, Z.leb_le; lia.
Qed.

(** ** Rounding against a number on the grid *)

Lemma round_below prec m e sticky : bits m <= prec -> round prec m e sticky = {| mant := m; expo := e |}.
Proof.
  intros H; unfold round; replace (Z.max 0 (bits m - prec)) with 0 by lia; cbn.
  f_equal; lia.
Qed.

(** A rounding that drops bits, in the units of the last kept place. *)
Lemma round_drops prec m e sticky :
  0 < prec -> prec < bits m ->
  let drop := bits m - prec in
  expo (round prec m e sticky) = e + drop /\
  2 ^ (prec - 1) <= m / 2 ^ drop /\
  (mant (round prec m e sticky) = m / 2 ^ drop \/
   mant (round prec m e sticky) = m / 2 ^ drop + 1 /\ (m mod 2 ^ drop <> 0)).
Proof.
  intros Hp Hb drop; assert (0 < m) as Hm by (unfold bits in Hb; destruct (m <=? 0) eqn:E; b2p; lia).
  pose proof (bits_spec m Hm) as B; assert (0 < drop) as Hd by lia.
  unfold round; replace (Z.max 0 (bits m - prec)) with drop by lia; cbn [mant expo]; split_and!.
  - done.
  - apply Z.div_le_lower_bound; [ apply pow2_pos; lia | ].
    rewrite <- Z.pow_add_r by lia; replace (drop + (prec - 1)) with (bits m - 1) by lia; lia.
  - unfold drop_round; replace (drop <=? 0) with false by lia; cbv zeta.
    pose proof (pow2_pos (drop - 1) ltac:(lia)).
    destruct (_ || _) eqn:R; [ right; split; [ done | ] | left; done ].
    intros Z0; rewrite Z0 in R; apply orb_true_iff in R as [ R | R ]; b2p; lia.
Qed.

Section Grid.
Context (prec m e : Z) (sticky : bool) (k t : Z).
Context (Hprec : 1 < prec) (Hm : 0 <= m) (Hk : 0 <= k < 2 ^ prec).

Let M : Float := {| mant := k; expo := t |}.
Let X : Float := {| mant := m; expo := e |}.

(** Off the grid of the kept places, a number is below everything that
    needed rounding. *)
Lemma off_grid E :
  E <= e -> E <= t -> prec < bits m -> t < e + (bits m - prec) ->
  scaled E M < (m / 2 ^ (bits m - prec)) * 2 ^ (e + (bits m - prec) - E).
Proof.
  intros He Ht Hb Hlt; destruct (round_drops prec m e sticky ltac:(lia) Hb) as (_ & L & _).
  unfold scaled, M; cbn [mant expo]; set (G := e + (bits m - prec)) in *.
  assert (2 ^ (G - E) = 2 ^ (t - E) * 2 ^ (G - t)) as S by (rewrite <- Z.pow_add_r by lia; f_equal; lia).
  pose proof (pow2_pos (t - E) ltac:(lia)); pose proof (pow2_pos (G - t) ltac:(lia)); rewrite S.
  pose proof (pow2_half prec ltac:(lia)); pose proof (pow2_half (G - t) ltac:(lia)); pose proof (pow2_pos (G - t - 1) ltac:(lia)).
  assert (k * 2 ^ (t - E) < 2 * 2 ^ (prec - 1) * 2 ^ (t - E)) by nia.
  assert (2 ^ (prec - 1) * 2 ^ (t - E) <= m / 2 ^ (bits m - prec) * 2 ^ (t - E)) by nia.
  assert (2 <= 2 ^ (G - t)) by lia; nia.
Qed.

Lemma on_grid E :
  E <= e -> prec < bits m -> e + (bits m - prec) <= t ->
  scaled E M = k * 2 ^ (t - (e + (bits m - prec))) * 2 ^ (bits m - prec) * 2 ^ (e - E).
Proof.
  intros He Hb Hge; unfold scaled, M; cbn [mant expo].
  rewrite <- !Z.mul_assoc, <- !Z.pow_add_r by lia; do 2 f_equal; lia.
Qed.

Lemma round_le_grid :
  leb X M = true -> (sticky = true -> leb M X = false) -> leb (round prec m e sticky) M = true.
Proof.
  intros H Hs; destruct (Z.le_gt_cases (bits m) prec) as [ Hb | Hb ]; [ rewrite round_below by lia; exact H | ].
  destruct (round_drops prec m e sticky ltac:(lia) Hb) as (He & _ & Hr); set (drop := bits m - prec) in *.
  set (E := Z.min e t); rewrite (leb_scaled E X M) in H by (cbn; lia); apply Z.leb_le in H.
  rewrite (leb_scaled E) by (rewrite ?He; cbn; lia); apply Z.leb_le.
  pose proof (pow2_pos drop ltac:(lia)) as Pd; pose proof (pow2_pos (e - E) ltac:(lia)) as Pe.
  assert (scaled E X = m * 2 ^ (e - E)) as Ex by done.
  pose proof (Z.div_mod m (2 ^ drop) ltac:(lia)) as DM; pose proof (Z.mod_pos_bound m (2 ^ drop) Pd) as MB.
  assert (2 ^ (e + drop - E) = 2 ^ drop * 2 ^ (e - E)) as Sp by (rewrite <- Z.pow_add_r by lia; f_equal; lia).
  destruct (Z.lt_ge_cases t (e + drop)) as [ O | O ].
  - pose proof (off_grid E ltac:(lia) ltac:(lia) Hb O) as Lt; fold drop in Lt; rewrite Sp in Lt; nia.
  - pose proof (on_grid E ltac:(lia) Hb O) as On; fold drop in On; rewrite On, Ex in *.
    set (k' := k * 2 ^ (t - (e + drop))) in *.
    assert (m <= k' * 2 ^ drop) as Lm by nia.
    unfold scaled; rewrite He, Sp; destruct Hr as [ -> | [ -> Nz ] ]; [ nia | ].
    assert (m / 2 ^ drop < k') by nia; nia.
Qed.

Lemma round_ge_grid E :
  E <= e -> E <= t -> (sticky = true -> prec < bits m) ->
  scaled E M < scaled E X + 2 ^ (e - E) -> (sticky = false -> leb M X = true) ->
  leb M (round prec m e sticky) = true.
Proof.
  intros HE Ht Hs H Hx; destruct (Z.le_gt_cases (bits m) prec) as [ Hb | Hb ].
  { rewrite round_below by lia; destruct sticky; [ specialize (Hs eq_refl); lia | auto ]. }
  destruct (round_drops prec m e sticky ltac:(lia) Hb) as (He & _ & Hr); set (drop := bits m - prec) in *.
  rewrite (leb_scaled E) by (rewrite ?He; cbn; lia); apply Z.leb_le.
  pose proof (pow2_pos drop ltac:(lia)) as Pd; pose proof (pow2_pos (e - E) ltac:(lia)) as Pe.
  assert (2 ^ (e + drop - E) = 2 ^ drop * 2 ^ (e - E)) as Sp by (rewrite <- Z.pow_add_r by lia; f_equal; lia).
  pose proof (Z.div_mod m (2 ^ drop) ltac:(lia)) as DM; pose proof (Z.mod_pos_bound m (2 ^ drop) Pd) as MB.
  assert (m / 2 ^ drop <= mant (round prec m e sticky)) as Lr by (destruct Hr as [ -> | [ -> _ ] ]; lia).
  unfold scaled at 2; rewrite He, Sp.
  destruct (Z.lt_ge_cases t (e + drop)) as [ O | O ].
  - pose proof (off_grid E ltac:(lia) ltac:(lia) Hb O) as Lt; fold drop in Lt; rewrite Sp in Lt; nia.
  - pose proof (on_grid E ltac:(lia) Hb O) as On; fold drop in On; rewrite On in *.
    set (k' := k * 2 ^ (t - (e + drop))) in *.
    change (scaled E X) with (m * 2 ^ (e - E)) in H.
    assert (k' * 2 ^ drop < m + 1) by nia; assert (k' <= m / 2 ^ drop) by (apply Z.div_le_lower_bound; lia); nia.
Qed.

End Grid.

(** Rounding an exact number against one that needs fewer bits. *)
Lemma round_exact_order prec m e k t :
  1 < prec -> 0 <= m -> 0 <= k < 2 ^ prec ->
  (leb {| mant := m; expo := e |} {| mant := k; expo := t |} = true ->
   leb (round prec m e false) {| mant := k; expo := t |} = true) /\
  (leb {| mant := k; expo := t |} {| mant := m; expo := e |} = true ->
   leb {| mant := k; expo := t |} (round prec m e false) = true).
Proof.
  intros Hp Hm Hk; split; intros H; [ apply round_le_grid; auto; done | ].
  set (E := Z.min e t); apply (round_ge_grid _ _ _ _ _ _ Hp Hk E); auto; try lia; try done.
  pose proof (pow2_pos (e - E) ltac:(lia)); rewrite (leb_scaled E) in H by (cbn; lia); apply Z.leb_le in H; lia.
Qed.

(** ** A quotient of integers at 256 bits, narrowed to 53 *)

Section Quotient.
Context (x : Float) (d k t : Z) (Hx : 0 <= mant x) (Hd : 0 < d) (Hk : 0 <= k < 2 ^ 53).

Let s : Z := Z.max 0 (256 + 2 + bits d - bits (mant x)).
Let q : Z := mant x * 2 ^ s / d.

Lemma quotient_bits : 0 < mant x -> 2 ^ 257 <= q.
Proof.
  intros Px; unfold q; apply Z.div_le_lower_bound; [ lia | ].
  pose proof (bits_spec d Hd) as Bd; pose proof (bits_spec (mant x) Px) as Bx.
  assert (2 ^ (bits (mant x) - 1) * 2 ^ s <= mant x * 2 ^ s) as L by (apply Z.mul_le_mono_nonneg_r; [ apply Z.pow_nonneg | ]; lia).
  pose proof (bits_nonneg d); pose proof (bits_nonneg (mant x)).
  assert (0 < bits (mant x)) by (unfold bits; replace (mant x <=? 0) with false by lia; pose proof (Z.log2_nonneg (mant x)); lia).
  rewrite <- Z.pow_add_r in L by lia.
  pose proof (Z.pow_le_mono_r 2 (bits d + 257) (bits (mant x) - 1 + s) ltac:(lia) ltac:(lia)) as P.
  rewrite Z.pow_add_r in P by lia; pose proof (pow2_pos 257 ltac:(lia)); nia.
Qed.

Let e : Z := expo x - 0 - s.

Lemma quo_order :
  (leb x {| mant := k * d; expo := t |} = true -> leb (quo 256 x {| mant := d; expo := 0 |}) {| mant := k; expo := t |} = true) /\
  (leb {| mant := k * d; expo := t |} x = true -> leb {| mant := k; expo := t |} (quo 256 x {| mant := d; expo := 0 |}) = true).
Proof.
  assert (0 <= k < 2 ^ 256) as Hk' by (pose proof (Z.pow_le_mono_r 2 53 256 ltac:(lia) ltac:(lia)); lia).
  assert (0 <= mant x * 2 ^ s) as Hn by (pose proof (pow2_pos s ltac:(lia)); nia).
  assert (0 <= q) as Hq by (apply Z.div_pos; lia).
  set (E := Z.min e t); assert (E <= e) as Le by lia; assert (e <= expo x) as Lx by lia.
  pose proof (pow2_pos (e - E) ltac:(lia)) as Pe; pose proof (pow2_pos (t - E) ltac:(lia)) as Pt.
  assert (scaled E x = mant x * 2 ^ s * 2 ^ (e - E)) as Sx
    by (unfold scaled; rewrite <- Z.mul_assoc, <- Z.pow_add_r by lia; do 2 f_equal; lia).
  pose proof (Z.div_mod (mant x * 2 ^ s) d ltac:(lia)) as DM; pose proof (Z.mod_pos_bound (mant x * 2 ^ s) d Hd) as MB; fold q in DM.
  change (quo 256 x {| mant := d; expo := 0 |}) with (round 256 q e (negb (mant x * 2 ^ s mod d =? 0))).
  split; intros H; rewrite (leb_scaled E) in H by (cbn; lia); apply Z.leb_le in H; rewrite Sx in H;
    unfold scaled in H; cbn [mant expo] in H; set (r := mant x * 2 ^ s mod d) in *.
  - apply round_le_grid; [ lia | exact Hk' | | ].
    + rewrite (leb_scaled E) by (cbn; lia); apply Z.leb_le; unfold scaled; cbn [mant expo]; nia.
    + intros St; apply negb_true_iff, Z.eqb_neq in St; rewrite (leb_scaled E) by (cbn; lia); apply Z.leb_gt.
      unfold scaled; cbn [mant expo]; apply (Z.mul_lt_mono_pos_l d); [ exact Hd | ].
      assert (0 < r * 2 ^ (e - E)) by (apply Z.mul_pos_pos; lia); rewrite DM in H; lia.
  - apply (round_ge_grid 256 _ _ _ _ _ ltac:(lia) Hk' E); [ lia | lia | | | ].
    + intros St; apply negb_true_iff, Z.eqb_neq in St.
      assert (0 < mant x) as Px by (destruct (Z.eq_dec (mant x) 0) as [ Z0 | ]; [ exfalso; apply St; unfold r; rewrite Z0, Z.mul_0_l; apply Z.mod_0_l; lia | lia ]).
      pose proof (quotient_bits Px) as L; pose proof (bits_spec q ltac:(lia)) as [ _ U ].
      pose proof (bits_nonneg q); pose proof (Z.pow_lt_mono_r 2 256 257 ltac:(lia) ltac:(lia)).
      apply (Z.pow_lt_mono_r_iff 2 256 (bits q)); lia.
    + unfold scaled; cbn [mant expo]; apply (Z.mul_lt_mono_pos_l d); [ exact Hd | ].
      assert (r * 2 ^ (e - E) < d * 2 ^ (e - E)) by (apply Z.mul_lt_mono_pos_r; lia); rewrite DM in H; lia.
    + intros St; apply negb_false_iff, Z.eqb_eq in St; rewrite (leb_scaled E) by (cbn; lia); apply Z.leb_le.
      unfold scaled; cbn [mant expo]; apply (Z.mul_le_mono_pos_l _ _ d); [ exact Hd | ]; rewrite DM, St in H; lia.
Qed.

End Quotient.

(** ** Integers against a limit

    A limit whose 53-bit significand [k] is even is exceeded, after rounding,
    exactly by the integers more than half a place above it. *)
Lemma int_limit v k u :
  0 <= v -> 0 < u -> 2 ^ 52 <= k < 2 ^ 53 -> Z.even k = true ->
  gtb (round 53 v 0 false) {| mant := k; expo := u |} = (k * 2 ^ u + 2 ^ (u - 1) <? v).
Proof.
  intros Hv Hu Hk Ev; unfold gtb; pose proof (pow2_pos (u - 1) ltac:(lia)) as Ph; pose proof (pow2_half u Hu) as Hh.
  assert (forall a b, leb {| mant := a; expo := 0 |} {| mant := b; expo := u |} = (a <=? b * 2 ^ u)) as Lr
    by (intros a b; rewrite (leb_scaled 0) by (cbn; lia); unfold scaled; cbn [mant expo]; rewrite !Z.sub_0_r, Z.mul_1_r; done).
  assert (forall a b, leb {| mant := b; expo := u |} {| mant := a; expo := 0 |} = (b * 2 ^ u <=? a)) as Ll
    by (intros a b; rewrite (leb_scaled 0) by (cbn; lia); unfold scaled; cbn [mant expo]; rewrite !Z.sub_0_r, Z.mul_1_r; done).
  assert (forall a b, leb {| mant := a; expo := u |} {| mant := b; expo := u |} = (a <=? b)) as Lu
    by (intros a b; rewrite (leb_scaled u) by (cbn; lia); unfold scaled; cbn [mant expo]; rewrite Z.sub_diag, !Z.mul_1_r; done).
  assert (k * 2 ^ u <= v < (k + 1) * 2 ^ u -> round 53 v 0 false = {| mant := drop_round v u false; expo := u |} /\
    v / 2 ^ u = k /\ v mod 2 ^ u = v - k * 2 ^ u) as Near.
  { intros B; assert (bits v = 53 + u) as Bv.
    { unfold bits; replace (v <=? 0) with false by nia; rewrite (Z.log2_unique v (52 + u)); [ lia | lia | ].
      replace (Z.succ (52 + u)) with (53 + u) by lia; rewrite !Z.pow_add_r by lia; nia. }
    unfold round; rewrite Bv; replace (Z.max 0 (53 + u - 53)) with u by lia; split; [ f_equal; lia | ].
    assert (v / 2 ^ u = k) as Q by (symmetry; apply (Z.div_unique_pos v (2 ^ u) k (v - k * 2 ^ u)); lia).
    split; [ exact Q | ]; pose proof (Z.div_mod v (2 ^ u) ltac:(lia)); lia. }
  assert (Z.odd k = false) as Od by (rewrite <- Z.negb_even, Ev; done).
  destruct (Z.ltb_spec (k * 2 ^ u + 2 ^ (u - 1)) v) as [ G | G ].
  - apply negb_true_iff; destruct (Z.lt_ge_cases v ((k + 1) * 2 ^ u)) as [ B | B ].
    + destruct Near as (-> & Q & R); [ lia | ]; rewrite Lu; apply Z.leb_gt.
      unfold drop_round; replace (u <=? 0) with false by lia; rewrite Q, R.
      replace (2 ^ (u - 1) <? v - k * 2 ^ u) with true by lia; cbn; lia.
    + destruct (leb (round 53 v 0 false) _) eqn:C; [ exfalso | done ].
      destruct (Z.eq_dec (k + 1) (2 ^ 53)) as [ K | K ]; [ rewrite <- Z.negb_odd, <- (Z.add_simpl_r k 1), K in Ev; done | ].
      destruct (round_exact_order 53 v 0 (k + 1) u ltac:(lia) Hv ltac:(lia)) as [ _ O ].
      rewrite Ll in O; specialize (O ltac:(apply Z.leb_le; lia)); pose proof (leb_trans _ _ _ O C) as T; rewrite Lu in T; b2p; lia.
  - apply negb_false_iff; destruct (Z.lt_ge_cases v (k * 2 ^ u)) as [ B | B ].
    + destruct (round_exact_order 53 v 0 k u ltac:(lia) Hv ltac:(lia)) as [ O _ ]; apply O; rewrite Lr; apply Z.leb_le; lia.
    + destruct Near as (-> & Q & R); [ lia | ]; rewrite Lu; apply Z.leb_le.
      unfold drop_round; replace (u <=? 0) with false by lia; rewrite Q, R, Od, andb_false_r, orb_false_r.
      replace (2 ^ (u - 1) <? v - k * 2 ^ u) with false by lia; lia.
Qed.

(** ** The whole conversion *)

(** An amount of [n] units of which [d] make one, at 256 bits and then 53. *)
Definition ratio (n d : Z) : F64 :=
  narrow false (quo 256 (round 256 n 0 false) (round 256 d 0 false)).

Lemma mant_round_nonneg prec m e sticky : 0 <= m -> 0 <= mant (round prec m e sticky).
Proof.
  intros H; unfold round, drop_round; cbn [mant]; destruct (_ <=? 0) eqn:D; [ done | ]; b2p.
  pose proof (Z.div_pos m (2 ^ Z.max 0 (bits m - prec)) H ltac:(apply pow2_pos; lia)); destruct (_ || _); lia.
Qed.

Definition rounded (n d : Z) : Float :=
  let y := quo 256 (round 256 n 0 false) (round 256 d 0 false) in round 53 (mant y) (expo y) false.

Lemma ratio_rounded n d f : ratio n d = Fin f -> f = rounded n d.
Proof.
  unfold ratio, narrow, rounded; cbv zeta; generalize (round 53 (mant (quo 256 (round 256 n 0 false) (round 256 d 0 false)))
    (expo (quo 256 (round 256 n 0 false) (round 256 d 0 false))) false); intros r.
  destruct (_ && _); [ done | ]; intros H; injection H as <-; destruct r; done.
Qed.

(** Every number [k / 2 ^ j] of at most 53 bits separates the amounts below
    it from those above it after the conversion as before. *)
Lemma rounded_order n d k j :
  0 <= n -> 0 < d < 2 ^ 120 -> 0 <= k < 2 ^ 53 -> 0 <= j ->
  (n * 2 ^ j <= k * d -> leb (rounded n d) {| mant := k; expo := - j |} = true) /\
  (k * d <= n * 2 ^ j -> leb {| mant := k; expo := - j |} (rounded n d) = true).
Proof.
  intros Hn Hd Hk Hj; unfold rounded.
  assert (bits d <= 256) as Bd.
  { unfold bits; replace (d <=? 0) with false by lia; pose proof (Z.log2_lt_pow2 d 120 ltac:(lia)); lia. }
  rewrite (round_below 256 d) by lia; set (x := round 256 n 0 false).
  assert (0 <= mant x) as Hx by apply mant_round_nonneg, Hn.
  set (y := quo 256 x {| mant := d; expo := 0 |}); cbv zeta.
  assert (0 <= mant y) as Hy.
  { apply mant_round_nonneg, Z.div_pos; cbn [mant]; [ | lia ]; apply Z.mul_nonneg_nonneg; [ exact Hx | apply Z.pow_nonneg; lia ]. }
  pose proof (quo_order x d k (- j) Hx ltac:(lia) Hk) as [ Q1 Q2 ]; fold y in Q1, Q2.
  pose proof (round_exact_order 53 (mant y) (expo y) k (- j) ltac:(lia) Hy Hk) as [ N1 N2 ].
  replace {| mant := mant y; expo := expo y |} with y in N1, N2 by (destruct y; done).
  assert (0 <= k * d < 2 ^ 256) as Kd.
  { split; [ nia | ]; change (2 ^ 256) with (2 ^ 53 * 2 ^ 120 * 2 ^ 83); pose proof (pow2_pos 83 ltac:(lia)); nia. }
  pose proof (round_exact_order 256 n 0 (k * d) (- j) ltac:(lia) Hn Kd) as [ X1 X2 ]; fold x in X1, X2.
  rewrite (leb_scaled (- j)) in X1, X2 by (cbn; lia); unfold scaled in X1, X2; cbn [mant expo] in X1, X2.
  rewrite Z.sub_diag, Z.mul_1_r, Z.sub_0_l, Z.opp_involutive in X1, X2; rewrite Z.leb_le in X1, X2.
  split; intros H; [ apply N1, Q1, X1, H | apply N2, Q2, X2, H ].
Qed.

Lemma small_exponent r : 0 < mant r -> leb r {| mant := 2 ^ 52; expo := - 0 |} = true -> bits (mant r) + expo r <= 53.
Proof.
  intros Pm O; pose proof (bits_spec (mant r) Pm) as [ P _ ].
  set (m := Z.min (expo r) 0); rewrite (leb_scaled m) in O by (cbn; lia); apply Z.leb_le in O; unfold scaled in O; cbn [mant expo] in O.
  pose proof (bits_nonneg (mant r)).
  assert (0 < bits (mant r)) by (unfold bits; replace (mant r <=? 0) with false by lia; pose proof (Z.log2_nonneg (mant r)); lia).
  assert (2 ^ (bits (mant r) - 1) * 2 ^ (expo r - m) <= 2 ^ 52 * 2 ^ (- 0 - m)) as Q
    by (pose proof (pow2_pos (expo r - m) ltac:(lia)); nia).
  rewrite <- !Z.pow_add_r in Q by lia; apply Z.pow_le_mono_r_iff in Q; lia.
Qed.

Lemma narrow_rounded x :
  leb (round 53 (mant x) (expo x) false) {| mant := 2 ^ 52; expo := - 0 |} = true ->
  narrow false x = Fin (round 53 (mant x) (expo x) false).
Proof.
  unfold narrow; cbv zeta; generalize (round 53 (mant x) (expo x) false); intros r O.
  destruct (_ && _) eqn:B; [ exfalso; b2p | destruct r; reflexivity ].
  pose proof (small_exponent r ltac:(lia) O); lia.
Qed.

(** An amount that is not huge converts to a finite number. *)
Lemma ratio_finite n d :
  0 <= n -> 0 < d < 2 ^ 120 -> n <= 2 ^ 52 * d -> ratio n d = Fin (rounded n d).
Proof.
  intros Hn Hd L; destruct (rounded_order n d (2 ^ 52) 0 Hn Hd ltac:(lia) ltac:(lia)) as [ O _ ].
  apply narrow_rounded, O; lia.
Qed.

End Float64.
