(* ===== verification/PolicyEngine.v ===== *)
(** * The policy engine: which transactions may be signed

    Models [services/policy-service]: [main.go]'s conversion of a request into
    the input of the policies and of their verdict into a decision, and the
    four embedded policies [policies/*.rego], rule by rule.  A Rego rule
    [deny contains msg if ...] contributes its message when its body holds; a
    body that reads an undefined value does not hold.  OPA returns a set of
    strings in order, without repetition.

    Numbers reach the policies as [float64] (Float64.v).  Rego compares their
    shortest decimals; each literal of the policies is the shortest decimal of
    a [float64], so that this is the order of the [float64]s.

    What is shown: an approved transaction goes to an address that is not on
    the list, is whitelisted, does not come from a blocked country and is
    within the ceilings of its tier, to the wei given for native amounts and to
    the cent for pegged ones; a transaction that satisfies these is approved;
    and what moves value nobody can price, or much of it, asks for a person. *)

From Stdlib Require Import ZArith Lia Ascii String.
From stdpp Require Import base list sets numbers strings.
From S2P Require Import Prelude GoStrings GoText BigFloat Float64.

Open Scope Z_scope.

Module PolicyEngine.
Import BigFloat Float64.
#[local] Open Scope string_scope.
#[local] Open Scope list_scope.
#[local] Open Scope Z_scope.

(** ** Data *)

Record PolicyRequest := {
  CustomerID : string; CustomerTier : string; To : string; Value : string; ChainID : Z;
  Asset : string; AssetAmount : string; AssetDecimals : Z; PegCurrency : string; IsAllowance : bool;
  Whitelist : list string; BlockedCountries : list string; Country : string }.

Record PolicyDecision := {
  Approved : bool; Denials : list string; RequiresApproval : bool; ApprovalReasons : list string; Reason : string }.

Inductive EvalErr : Type :=
  | InvalidWei | ImplausibleDecimals | InvalidAmount | NegativeAmount | NotFinite
  | InputRefused (* the input has no JSON: a number in it is infinite *).

(** ** Amounts *)

Definition weiToFloat (s : string) : result EvalErr F64 :=
  if String.eqb s "" || String.eqb s "0" then Ok (Fin {| mant := 0; expo := 0 |})
  else
    match big_of_dec s with
    | Some bi => Ok (of_int bi)
    | None => Err InvalidWei
    end.

Definition zero : Float := {| mant := 0; expo := 0 |}.

Definition peggedAmount (req : PolicyRequest) : result EvalErr (Float * bool) :=
  if String.eqb (PegCurrency req) "" || String.eqb (AssetAmount req) "" then Ok (zero, false)
  else if (AssetDecimals req <? 0) || (36 <? AssetDecimals req) then Err ImplausibleDecimals
  else
    match big_of_dec (AssetAmount req) with
    | None => Err InvalidAmount
    | Some units =>
        if units <? 0 then Err NegativeAmount
        else
          let scale := 10 ^ AssetDecimals req in
          match ratio units scale with
          | Fin f => Ok (f, true)
          | Inf _ => Err NotFinite
          end
    end.

(** ** The policies *)

Record Input := {
  value_wei : Float; customer_tier : string; to : string; whitelist : list string;
  blocked_countries : list string; country : string; asset : string; is_token : bool;
  is_allowance : bool; peg_currency : string; has_pegged_value : bool; pegged_value : Float }.

Definition when (holds : bool) (msg : string) : list string := if holds then [ msg ] else [].

(** A number of the policies, as the [float64] it denotes. *)
Definition num (n : Z) : Float := round 53 n 0 false.

(** [amount_limits.rego] *)
Definition global_limit_wei : Z := 100000000000000000000.
Definition free_limit_wei : Z := 10000000000000000000.
Definition pro_limit_wei : Z := 50000000000000000000.

Definition amount_limits (i : Input) : list string :=
  when (gtb (value_wei i) (num global_limit_wei)) "amount exceeds global limit of 100 ETH" ++
  when (String.eqb (customer_tier i) "free" && gtb (value_wei i) (num free_limit_wei)) "free tier limited to 10 ETH per transaction" ++
  when (String.eqb (customer_tier i) "pro" && gtb (value_wei i) (num pro_limit_wei)) "pro tier limited to 50 ETH per transaction".

(** [approval_rules.rego] *)
Definition high_value_wei : Z := 10000000000000000000.

Definition destination_whitelisted (i : Input) : bool := existsb (fun w => equal_fold w (to i)) (whitelist i).

Definition approval_rules_deny (i : Input) : list string :=
  when ((0 <? len (whitelist i)) && negb (destination_whitelisted i))
    ("destination " +:+ to i +:+ " is not on the tenant whitelist") ++
  when (existsb (fun c => equal_fold c (country i)) (blocked_countries i))
    ("transactions from " +:+ country i +:+ " are blocked for this tenant").

Definition approval_rules_require (i : Input) : list string :=
  when (gtb (value_wei i) (num high_value_wei)) "high-value transaction (> 10 ETH) requires approval".

(** [sanctions.rego], over [data.sanctions.addresses] *)
Definition sanctions_deny (addresses : list string) (i : Input) : list string :=
  when (existsb (fun a => equal_fold a (to i)) addresses) ("destination " +:+ to i +:+ " is on the sanctions list").

(** [token_limits.rego] *)
Record Ceilings := { global : Z; free : Z; pro : Z }.

Definition limits (currency : string) : option Ceilings :=
  if String.eqb currency "USD" then Some {| global := 1000000; free := 10000; pro := 100000 |}
  else if String.eqb currency "ZAR" then Some {| global := 18000000; free := 180000; pro := 1800000 |}
  else if String.eqb currency "EUR" then Some {| global := 900000; free := 9000; pro := 90000 |}
  else None.

Definition high_value (currency : string) : option Z :=
  if String.eqb currency "USD" then Some 100000
  else if String.eqb currency "ZAR" then Some 1800000
  else if String.eqb currency "EUR" then Some 90000
  else None.

Definition unlimited : Z := 10 ^ 70.

Definition token_limits_deny (i : Input) : list string :=
  (if has_pegged_value i then
     match limits (peg_currency i) with
     | Some l =>
         when (gtb (pegged_value i) (num (global l)))
           ("amount exceeds the global limit of " +:+ show_int (global l) +:+ " " +:+ peg_currency i +:+ " for " +:+ asset i) ++
         when (String.eqb (customer_tier i) "free" && gtb (pegged_value i) (num (free l)))
           ("free tier limited to " +:+ show_int (free l) +:+ " " +:+ peg_currency i +:+ " per transaction") ++
         when (String.eqb (customer_tier i) "pro" && gtb (pegged_value i) (num (pro l)))
           ("pro tier limited to " +:+ show_int (pro l) +:+ " " +:+ peg_currency i +:+ " per transaction")
     | None =>
         [ "no amount limits are configured for " +:+ peg_currency i +:+ "; refusing to transact " +:+ asset i +:+ " until they are" ]
     end
   else []) ++
  when (is_allowance i && gtb (pegged_value i) (num unlimited))
    "refusing an unlimited token approval; approve a specific amount instead".

Definition token_limits_require (i : Input) : list string :=
  when (is_token i && negb (has_pegged_value i) && negb (is_allowance i))
    (asset i +:+ " is not a pegged asset, so its value cannot be checked against a limit; approval required") ++
  (if has_pegged_value i then
     match high_value (peg_currency i) with
     | Some threshold =>
         when (gtb (pegged_value i) (num threshold))
           ("high-value transfer (> " +:+ show_int threshold +:+ " " +:+ peg_currency i +:+ ") requires approval")
     | None => []
     end
   else []) ++
  when (is_allowance i && leb (pegged_value i) (num unlimited))
    ("approving " +:+ to i +:+ " to spend " +:+ asset i +:+ " requires approval; an allowance can be drawn at any later time").

(** The rules of one package add to the same two sets. *)
Definition deny (addresses : list string) (i : Input) : list string :=
  amount_limits i ++ approval_rules_deny i ++ sanctions_deny addresses i ++ token_limits_deny i.

Definition require_approval (i : Input) : list string := approval_rules_require i ++ token_limits_require i.

(** OPA's value of a set of strings: in order, each once. *)
Fixpoint set_insert (s : string) (l : list string) : list string :=
  match l with
  | [] => [ s ]
  | t :: r => match String.compare s t with Lt => s :: l | Eq => l | Gt => t :: set_insert s r end
  end.

Definition as_set (l : list string) : list string := fold_right set_insert [] l.

(** A value of the resulting document. *)
Inductive value : Type := Nil | Str (s : string) | Arr (l : list value) | Other.

Definition toStringSlice (v : value) : list string :=
  match v with
  | Arr l => omap (fun item => match item with Str s => Some s | _ => None end) l
  | _ => []
  end.

(** The entries of [data.policies] the service reads. *)
Definition evalQuery (addresses : list string) (i : Input) (key : string) : value :=
  if String.eqb key "deny" then Arr (map Str (as_set (deny addresses i)))
  else if String.eqb key "require_approval" then Arr (map Str (as_set (require_approval i)))
  else Other.

(** ** [evaluate] *)

Definition inputOf (req : PolicyRequest) (valueWei pegged : Float) (havePegged : bool) : Input :=
  let a := if String.eqb (Asset req) "" then "NATIVE" else Asset req in
  {| value_wei := valueWei; customer_tier := CustomerTier req; to := To req; whitelist := Whitelist req;
     blocked_countries := BlockedCountries req; country := Country req; asset := a;
     is_token := negb (String.eqb a "NATIVE"); is_allowance := IsAllowance req;
     peg_currency := PegCurrency req; has_pegged_value := havePegged; pegged_value := pegged |}.

Definition decide_ (denials approvalReasons : list string) : PolicyDecision :=
  let requiresApproval := 0 <? len approvalReasons in
  let approved := len denials =? 0 in
  {| Approved := approved; Denials := denials; RequiresApproval := requiresApproval; ApprovalReasons := approvalReasons;
     Reason := if approved then (if requiresApproval then "approved, manual approval required" else "approved")
               else show_int (len denials) +:+ " policy violation(s)" |}.

Definition evaluate (addresses : list string) (req : PolicyRequest) : result EvalErr PolicyDecision :=
  let! valueWei := weiToFloat (Value req) in
  let! peg := peggedAmount req in
  match valueWei with
  | Inf _ => Err InputRefused
  | Fin wei =>
      let doc := evalQuery addresses (inputOf req wei (fst peg) (snd peg)) in
      Ok (decide_ (toStringSlice (doc "deny")) (toStringSlice (doc "require_approval")))
  end.

(** ** Sets of messages *)

Lemma elem_of_set_insert x s l : x ∈ set_insert s l <-> x = s \/ x ∈ l.
Proof.
  induction l as [ | t r IH ]; cbn; [ set_solver | ]; destruct (String.compare s t) eqn:C; [ | set_solver | set_solver ].
  apply String.compare_eq_iff in C as ->; set_solver.
Qed.

Lemma elem_of_as_set x l : x ∈ as_set l <-> x ∈ l.
Proof. induction l as [ | s l IH ]; [ done | ]; cbn; rewrite elem_of_set_insert, elem_of_cons, IH; done. Qed.

Lemma as_set_nil l : as_set l = [] <-> l = [].
Proof.
  split; [ | intros ->; done ]; intros H; destruct l as [ | x l ]; [ done | ].
  exfalso; apply (not_elem_of_nil x); rewrite <- H, elem_of_as_set; left.
Qed.

Lemma when_nil b m : when b m = [] <-> b = false.
Proof. destruct b; done. Qed.

Lemma toStringSlice_Str l : toStringSlice (Arr (map Str l)) = l.
Proof. cbn; induction l as [ | x l IH ]; [ done | cbn; rewrite IH; done ]. Qed.

Lemma existsb_false {A} (p : A -> bool) l : existsb p l = false <-> forall x, x ∈ l -> p x = false.
Proof.
  induction l as [ | y l IH ]; cbn; [ split; [ intros _ x H; apply elem_of_nil in H; done | done ] | ].
  rewrite orb_false_iff, IH; split; [ intros [ Hy Hl ] x [ -> | I ]%elem_of_cons; auto | ].
  intros H; split; [ apply H; left | intros x I; apply H; right; done ].
Qed.

(** What a decision says of the rules. *)
Lemma evaluate_ok addresses req d :
  evaluate addresses req = Ok d ->
  exists wei pegged have, weiToFloat (Value req) = Ok (Fin wei) /\ peggedAmount req = Ok (pegged, have) /\
    let i := inputOf req wei pegged have in
    Denials d = as_set (deny addresses i) /\ ApprovalReasons d = as_set (require_approval i) /\
    (Approved d = true <-> deny addresses i = []) /\ (RequiresApproval d = false <-> require_approval i = []).
Proof.
  unfold evaluate; destruct (weiToFloat _) as [ [ wei | b ] | | ] eqn:W; cbn [result_bind]; [ | destruct (peggedAmount _); done | done | done ].
  destruct (peggedAmount req) as [ [ pegged have ] | | ] eqn:P; cbn [result_bind fst snd]; [ | done | done ].
  set (i := inputOf req wei pegged have); change (evalQuery addresses i "deny") with (Arr (map Str (as_set (deny addresses i)))).
  change (evalQuery addresses i "require_approval") with (Arr (map Str (as_set (require_approval i)))).
  rewrite !toStringSlice_Str; intros E.
  assert (d = decide_ (as_set (deny addresses i)) (as_set (require_approval i))) as -> by congruence.
  exists wei, pegged, have; split; [ done | ]; split; [ done | ]; cbv zeta; fold i.
  rewrite <- (as_set_nil (deny addresses i)), <- (as_set_nil (require_approval i)); unfold decide_; cbn [Denials ApprovalReasons Approved RequiresApproval].
  split; [ done | ]; split; [ done | ]; rewrite Z.eqb_eq, Z.ltb_ge.
  generalize (as_set (deny addresses i)) as dn; generalize (as_set (require_approval i)) as rq; intros rq dn; unfold len.
  split; [ destruct dn | destruct rq ]; cbn; split; try done; lia.
Qed.

(** ** Native amounts *)

(** The amount a value field stands for. *)
Definition weiOf (s : string) : option Z := if String.eqb s "" then Some 0 else big_of_dec s.

(** The largest amount in wei a tier may send: its limit, and half of the
    last place of a [float64] of that size. *)
Definition nativeCeiling (tier : string) : Z :=
  if String.eqb tier "free" then free_limit_wei + 1024
  else if String.eqb tier "pro" then pro_limit_wei + 4096
  else global_limit_wei + 8192.

Lemma num_wei :
  num free_limit_wei = {| mant := 4882812500000000; expo := 11 |} /\
  num pro_limit_wei = {| mant := 6103515625000000; expo := 13 |} /\
  num global_limit_wei = {| mant := 6103515625000000; expo := 14 |}.
Proof. vm_compute; done. Qed.

Lemma weiToFloat_ok s f :
  weiToFloat s = Ok (Fin f) ->
  exists v, weiOf s = Some v /\ (0 <= v -> f = round 53 v 0 false) /\ (v < 0 -> mant f <= 0).
Proof.
  unfold weiToFloat, weiOf; destruct (String.eqb_spec s "") as [ -> | _ ]; cbn [orb]; [ intros [= <-]; exists 0; done | ].
  destruct (String.eqb_spec s "0") as [ -> | _ ]; [ intros [= <-]; exists 0; done | ].
  destruct (big_of_dec s) as [ v | ]; [ | done ]; intros E; assert (of_int v = Fin f) as E' by congruence; clear E.
  exists v; split; [ done | ]; unfold of_int, narrow in E'; cbv zeta in E'; cbn [mant expo] in E'.
  pose proof (mant_round_nonneg 53 (Z.abs v) 0 false ltac:(lia)) as P.
  destruct (_ && _); [ done | ]; assert (f = {| mant := if v <? 0 then - mant (round 53 (Z.abs v) 0 false)
    else mant (round 53 (Z.abs v) 0 false); expo := expo (round 53 (Z.abs v) 0 false) |}) as -> by congruence.
  split; intros Hv.
  - replace (v <? 0) with false by lia; rewrite Z.abs_eq by lia; destruct (round 53 v 0 false); done.
  - replace (v <? 0) with true by lia; cbn [mant]; lia.
Qed.

(** Conversely, only an amount beyond the range of a [float64] does not
    convert. *)
Lemma weiToFloat_finite s v :
  weiOf s = Some v -> Z.abs v < 2 ^ 1023 -> exists f, weiToFloat s = Ok (Fin f).
Proof.
  unfold weiToFloat, weiOf; destruct (String.eqb_spec s "") as [ -> | _ ]; cbn [orb]; [ eauto | ].
  destruct (String.eqb_spec s "0") as [ -> | _ ]; [ eauto | ]; intros -> Hv; cbn.
  unfold of_int, narrow; cbv zeta; cbn [mant expo]; set (r := round 53 (Z.abs v) 0 false).
  destruct (_ && _) eqn:B; [ exfalso | eauto ]; b2p.
  destruct (Z.le_gt_cases (bits (Z.abs v)) 53) as [ S | S ].
  { unfold r in *; rewrite round_below in * by lia; cbn [mant expo] in *; lia. }
  destruct (round_drops 53 (Z.abs v) 0 false ltac:(lia) S) as (He & _ & Hm); fold r in He, Hm.
  assert (0 < Z.abs v) as Pv by (destruct (Z.eq_dec (Z.abs v) 0) as [ Z0 | ]; [ rewrite Z0 in S; cbn in S; lia | lia ]).
  pose proof (bits_spec (Z.abs v) Pv) as [ L U ]; set (D := bits (Z.abs v) - 53) in *.
  assert (bits (Z.abs v) <= 1023) as Bv.
  { destruct (Z.le_gt_cases (bits (Z.abs v)) 1023); [ done | ].
    pose proof (Z.pow_le_mono_r 2 1023 (bits (Z.abs v) - 1) ltac:(lia) ltac:(lia)); lia. }
  assert (Z.abs v / 2 ^ D < 2 ^ 53) as Q.
  { apply Z.div_lt_upper_bound; [ apply pow2_pos; lia | ]; rewrite <- Z.pow_add_r by lia; replace (D + 53) with (bits (Z.abs v)) by lia; lia. }
  assert (mant r <= 2 ^ 53) as Mr by (destruct Hm as [ -> | [ -> _ ] ]; lia).
  assert (bits (mant r) <= 54) as Br.
  { unfold bits; replace (mant r <=? 0) with false by lia; pose proof (Z.log2_le_mono _ _ Mr) as Lm; rewrite Z.log2_pow2 in Lm by lia; lia. }
  lia.
Qed.

Lemma below_zero f k u : mant f <= 0 -> 0 < k -> gtb f {| mant := k; expo := u |} = false.
Proof.
  intros Hf Hk; unfold gtb; apply negb_false_iff; rewrite (leb_scaled (Z.min (expo f) u)) by (cbn; lia).
  apply Z.leb_le; unfold scaled; cbn [mant expo].
  pose proof (pow2_pos (expo f - Z.min (expo f) u) ltac:(lia)); pose proof (pow2_pos (u - Z.min (expo f) u) ltac:(lia)); nia.
Qed.

(** The native limits, in wei. *)
Lemma native_limits s f :
  weiToFloat s = Ok (Fin f) ->
  exists v, weiOf s = Some v /\
    gtb f (num free_limit_wei) = (free_limit_wei + 1024 <? v) /\
    gtb f (num pro_limit_wei) = (pro_limit_wei + 4096 <? v) /\
    gtb f (num global_limit_wei) = (global_limit_wei + 8192 <? v).
Proof.
  intros H; apply weiToFloat_ok in H as (v & W & P & N); exists v; split; [ done | ].
  destruct num_wei as (-> & -> & ->); unfold free_limit_wei, pro_limit_wei, global_limit_wei.
  destruct (Z.lt_ge_cases v 0) as [ Neg | Pos ].
  - rewrite !below_zero by (auto; lia); split_and!; symmetry; apply Z.ltb_ge; lia.
  - rewrite (P Pos); rewrite !int_limit by (try lia; done); done.
Qed.

(** ** Pegged amounts *)

Lemma num_small n : 0 <= n < 2 ^ 53 -> num n = {| mant := n; expo := 0 |}.
Proof.
  intros H; apply round_below; unfold bits; destruct (n <=? 0) eqn:E; b2p; [ lia | ].
  pose proof (Z.log2_lt_pow2 n 53 ltac:(lia)); lia.
Qed.

Lemma peggedAmount_ok req f have :
  peggedAmount req = Ok (f, have) ->
  (have = false /\ f = zero /\ (PegCurrency req = "" \/ AssetAmount req = "")) \/
  (have = true /\ 0 <= AssetDecimals req <= 36 /\
   exists n, big_of_dec (AssetAmount req) = Some n /\ 0 <= n /\ ratio n (10 ^ AssetDecimals req) = Fin f).
Proof.
  unfold peggedAmount; destruct (String.eqb_spec (PegCurrency req) "") as [ P | P ]; cbn [orb].
  { intros H; assert (f = zero /\ have = false) as [ -> -> ] by (split; congruence); auto. }
  destruct (String.eqb_spec (AssetAmount req) "") as [ A | A ].
  { intros H; assert (f = zero /\ have = false) as [ -> -> ] by (split; congruence); auto. }
  destruct (_ || _) eqn:D; [ done | ]; b2p; destruct (big_of_dec _) as [ n | ]; [ | done ].
  destruct (Z.ltb_spec n 0) as [ | Nn ]; [ done | ]; destruct (ratio n _) as [ g | ] eqn:R; [ | done ]; intros Hq.
  assert (g = f /\ have = true) as [ <- -> ] by (split; congruence); right; eauto 10 with lia.
Qed.

Lemma scale_bounds n : 0 <= n <= 36 -> 0 < 10 ^ n < 2 ^ 120.
Proof.
  intros H; split; [ apply Z.pow_pos_nonneg; lia | ].
  apply (Z.le_lt_trans _ (10 ^ 36)); [ apply Z.pow_le_mono_r; lia | done ].
Qed.

(** A limit in whole units of currency is kept by everything within it and
    catches everything a cent above it. *)
Lemma pegged_limit n d f L :
  0 <= n -> 0 < d < 2 ^ 120 -> ratio n d = Fin f -> 0 <= L < 2 ^ 45 ->
  (n <= L * d -> gtb f (num L) = false) /\ ((100 * L + 1) * d <= 100 * n -> gtb f (num L) = true).
Proof.
  intros Hn Hd R HL; apply ratio_rounded in R as ->; rewrite num_small by lia; unfold gtb; split; intros H.
  - apply negb_false_iff; apply (rounded_order n d L 0); lia.
  - apply negb_true_iff; destruct (leb (rounded n d) _) eqn:C; [ exfalso | done ].
    destruct (rounded_order n d (128 * L + 1) 7 Hn Hd ltac:(lia) ltac:(lia)) as [ _ O ].
    specialize (O ltac:(change (2 ^ 7) with 128; lia)); pose proof (leb_trans _ _ _ O C) as T.
    rewrite (leb_scaled (- 7)) in T by (cbn; lia); apply Z.leb_le in T; unfold scaled in T; cbn in T; lia.
Qed.

Definition tokenCeiling (currency tier : string) : option Z :=
  l ← limits currency;
  Some (if String.eqb tier "free" then free l else if String.eqb tier "pro" then pro l else global l).

Lemma limits_range currency l :
  limits currency = Some l -> 0 <= free l <= pro l /\ pro l <= global l /\ global l < 2 ^ 45.
Proof.
  unfold limits; repeat case_match; intros [= <-]; cbn; lia.
Qed.

(** ** What an approval means *)

(** An amount of [n] units, [d] to the unit of currency, against a ceiling. *)
Definition exactly_within (n L d : Z) : Prop := n <= L * d.
Definition within_a_cent (n L d : Z) : Prop := 100 * n < (100 * L + 1) * d.

Record permitted (within : Z -> Z -> Z -> Prop) (addresses : list string) (req : PolicyRequest) : Prop := {
  not_sanctioned : forall a, a ∈ addresses -> to_lower a <> to_lower (To req);
  whitelisted : Whitelist req = [] \/ exists w, w ∈ Whitelist req /\ to_lower w = to_lower (To req);
  not_blocked : forall c, c ∈ BlockedCountries req -> to_lower c <> to_lower (Country req);
  native_within : exists v, weiOf (Value req) = Some v /\ v <= nativeCeiling (CustomerTier req);
  token_within : PegCurrency req <> "" -> AssetAmount req <> "" ->
    exists n L, 0 <= AssetDecimals req <= 36 /\ big_of_dec (AssetAmount req) = Some n /\ 0 <= n /\
      tokenCeiling (PegCurrency req) (CustomerTier req) = Some L /\
      within n L (10 ^ AssetDecimals req) }.

Lemma equal_fold_false a b : equal_fold a b = false <-> to_lower a <> to_lower b.
Proof. unfold equal_fold; apply String.eqb_neq. Qed.

Lemma app_nil_iff {A} (l k : list A) : l ++ k = [] <-> l = [] /\ k = [].
Proof. split; [ apply app_eq_nil | intros [ -> -> ]; done ]. Qed.

(** The three policies that do not price tokens. *)
Lemma destination_rules addresses req wei pegged have :
  let i := inputOf req wei pegged have in
  approval_rules_deny i ++ sanctions_deny addresses i = [] <->
  (forall a, a ∈ addresses -> to_lower a <> to_lower (To req)) /\
  (Whitelist req = [] \/ exists w, w ∈ Whitelist req /\ to_lower w = to_lower (To req)) /\
  (forall c, c ∈ BlockedCountries req -> to_lower c <> to_lower (Country req)).
Proof.
  cbv zeta; unfold approval_rules_deny, sanctions_deny, destination_whitelisted; cbn [to country whitelist blocked_countries inputOf].
  rewrite !app_nil_iff, !when_nil, !existsb_false, andb_false_iff, negb_false_iff, existsb_exists.
  setoid_rewrite equal_fold_false; setoid_rewrite String.eqb_eq; setoid_rewrite <- list_elem_of_In.
  assert ((0 <? len (Whitelist req)) = false <-> Whitelist req = []) as ->.
  { rewrite Z.ltb_ge; unfold len; destruct (Whitelist req); cbn; split; try done; lia. }
  tauto.
Qed.

Lemma amount_limits_rule req wei pegged have :
  weiToFloat (Value req) = Ok (Fin wei) ->
  amount_limits (inputOf req wei pegged have) = [] <->
  exists v, weiOf (Value req) = Some v /\ v <= nativeCeiling (CustomerTier req).
Proof.
  intros W; destruct (native_limits _ _ W) as (v & V & F & P & G).
  unfold amount_limits; cbn [value_wei customer_tier inputOf]; rewrite F, P, G, !app_nil_iff, !when_nil.
  unfold nativeCeiling, free_limit_wei, pro_limit_wei, global_limit_wei in *; rewrite V.
  assert ((exists w, Some v = Some w /\ w <= nativeCeiling (CustomerTier req)) <-> v <= nativeCeiling (CustomerTier req)) as Ex
    by (split; [ intros (w & [= <-] & L); done | eauto ]).
  unfold nativeCeiling, free_limit_wei, pro_limit_wei, global_limit_wei in Ex; rewrite Ex.
  destruct (String.eqb_spec (CustomerTier req) "free") as [ Ef | _ ]; [ rewrite Ef | destruct (String.eqb (CustomerTier req) "pro") ];
    cbn [andb String.eqb Ascii.eqb Bool.eqb]; rewrite ?Z.ltb_ge; intuition lia.
Qed.

(** The ceilings of a pegged amount: the global one and the tier's. *)
Lemma pegged_rules n d f l tier (out : list string) m1 m2 m3 :
  0 <= n -> 0 < d < 2 ^ 120 -> ratio n d = Fin f -> 0 <= free l <= pro l /\ pro l <= global l /\ global l < 2 ^ 45 ->
  out = when (gtb f (num (global l))) m1 ++ when (String.eqb tier "free" && gtb f (num (free l))) m2 ++
        when (String.eqb tier "pro" && gtb f (num (pro l))) m3 ->
  let L := if String.eqb tier "free" then free l else if String.eqb tier "pro" then pro l else global l in
  (out = [] -> within_a_cent n L d) /\ (exactly_within n L d -> out = []).
Proof.
  intros Hn Hd R (Rf & Rp & Rg) ->; cbv zeta; unfold within_a_cent, exactly_within; rewrite !app_nil_iff, !when_nil.
  destruct (pegged_limit n d f (free l) Hn Hd R ltac:(lia)) as [ F1 F2 ].
  destruct (pegged_limit n d f (pro l) Hn Hd R ltac:(lia)) as [ P1 P2 ].
  destruct (pegged_limit n d f (global l) Hn Hd R ltac:(lia)) as [ G1 G2 ].
  assert (free l * d <= global l * d /\ pro l * d <= global l * d) as [ Lf Lp ] by (split; apply Z.mul_le_mono_nonneg_r; lia).
  assert (forall b c, gtb f (num b) = false -> ((100 * b + 1) * d <= 100 * n -> gtb f (num b) = true) -> b = c -> 100 * n < (100 * c + 1) * d) as K.
  { intros b c Hb Ht <-; destruct (Z.lt_ge_cases (100 * n) ((100 * b + 1) * d)) as [ | X ]; [ done | rewrite Ht in Hb by lia; done ]. }
  destruct (String.eqb_spec tier "free") as [ -> | _ ]; [ | destruct (String.eqb_spec tier "pro") as [ _ | _ ] ];
    cbn [andb String.eqb Ascii.eqb Bool.eqb]; (split; [ intros (A & B & C); eapply K; eauto | intros H; split_and!; try done ]).
  all: first [ apply F1; lia | apply P1; lia | apply G1; lia ].
Qed.

Lemma unlimited_zero : gtb zero (num unlimited) = false.
Proof. vm_compute; done. Qed.

Lemma evaluation_permits addresses req d :
  evaluate addresses req = Ok d -> Approved d = true -> permitted within_a_cent addresses req.
Proof.
  intros E A; destruct (evaluate_ok _ _ _ E) as (wei & pegged & have & W & P & _ & _ & Ap & _); apply Ap in A; clear Ap E.
  unfold deny in A; rewrite !app_nil_iff in A; destruct A as (Am & D1 & D2 & T).
  pose proof (proj1 (destination_rules addresses req wei pegged have) ltac:(cbv zeta; rewrite D1, D2; done)) as (S & Wl & Bl).
  split; auto; [ apply (amount_limits_rule _ _ pegged have W), Am | ]; intros Pc Aa.
  destruct (peggedAmount_ok _ _ _ P) as [ (_ & _ & [ ? | ? ]) | (-> & Dc & n & B & Hn & R) ]; [ done | done | ].
  unfold token_limits_deny in T; cbn [has_pegged_value inputOf peg_currency pegged_value customer_tier asset] in T.
  apply app_nil_iff in T as [ T _ ]; unfold tokenCeiling; destruct (limits (PegCurrency req)) as [ l | ] eqn:El; [ | done ].
  eexists n, _; split; [ exact Dc | ]; split; [ exact B | ]; split; [ exact Hn | ]; split; [ reflexivity | ].
  eapply pegged_rules; eauto using scale_bounds, limits_range.
Qed.

(** C24.  An approved transaction is permitted: not to a designated address, to a
    whitelisted one where there is a whitelist, not from a blocked country, of a
    native value no greater than the tier's ceiling, and of a pegged amount that
    is less than a cent above its ceiling. *)
Theorem approved_is_permitted addresses req d :
  evaluate addresses req = Ok d -> Approved d = true -> permitted within_a_cent addresses req.
Proof. apply evaluation_permits. Qed.

Lemma not_unlimited n d f L :
  0 <= n -> 0 < d < 2 ^ 120 -> ratio n d = Fin f -> 0 <= L < 2 ^ 45 -> n <= L * d -> gtb f (num unlimited) = false.
Proof.
  intros Hn Hd R HL H; destruct (pegged_limit n d f L Hn Hd R HL) as [ G _ ]; specialize (G H); unfold gtb in *.
  apply negb_false_iff in G; apply negb_false_iff; apply (leb_trans _ _ _ G); rewrite num_small by lia.
  set (u := num unlimited); vm_compute in u; subst u.
  rewrite (leb_scaled 0) by (cbn; lia); unfold scaled; cbn [mant expo]; apply Z.leb_le.
  apply (Z.le_trans _ (2 ^ 45)); [ cbn; lia | vm_compute; done ].
Qed.

(** Within its ceiling the amount converts and no token rule objects. *)
Lemma token_passes req wei :
  (PegCurrency req <> "" -> AssetAmount req <> "" ->
    exists n L, 0 <= AssetDecimals req <= 36 /\ big_of_dec (AssetAmount req) = Some n /\ 0 <= n /\
      tokenCeiling (PegCurrency req) (CustomerTier req) = Some L /\ exactly_within n L (10 ^ AssetDecimals req)) ->
  exists pegged have, peggedAmount req = Ok (pegged, have) /\ token_limits_deny (inputOf req wei pegged have) = [].
Proof.
  intros T; destruct (decide (PegCurrency req = "" \/ AssetAmount req = "")) as [ N | N ].
  - exists zero, false; unfold peggedAmount.
    replace (String.eqb (PegCurrency req) "" || String.eqb (AssetAmount req) "") with true
      by (symmetry; apply orb_true_iff; rewrite !String.eqb_eq; exact N).
    split; [ done | ]; unfold token_limits_deny; cbn [has_pegged_value inputOf is_allowance pegged_value app].
    rewrite unlimited_zero, andb_false_r; done.
  - destruct T as (n & L & Dc & B & Hn & Tc & Le); [ tauto | tauto | ].
    unfold tokenCeiling in Tc; destruct (limits (PegCurrency req)) as [ l | ] eqn:El; [ | done ]; cbn in Tc.
    pose proof (limits_range _ _ El) as Rg; pose proof (scale_bounds _ Dc) as Sc.
    assert (0 <= L < 2 ^ 45) as HL by (injection Tc as <-; repeat case_match; lia).
    assert (ratio n (10 ^ AssetDecimals req) = Fin (rounded n (10 ^ AssetDecimals req))) as R
      by (apply ratio_finite; auto; unfold exactly_within in Le; nia).
    eexists _, true; split.
    + unfold peggedAmount; replace (String.eqb (PegCurrency req) "" || String.eqb (AssetAmount req) "") with false
        by (symmetry; apply orb_false_iff; rewrite !String.eqb_neq; tauto).
      replace ((AssetDecimals req <? 0) || (36 <? AssetDecimals req)) with false by (symmetry; apply orb_false_iff; lia).
      rewrite B; replace (n <? 0) with false by lia; cbv zeta; rewrite R; reflexivity.
    + unfold token_limits_deny; cbn [has_pegged_value inputOf peg_currency pegged_value customer_tier asset is_allowance]; rewrite El.
      rewrite app_nil_iff; split; [ | rewrite (not_unlimited n _ _ L Hn Sc R HL Le), andb_false_r; done ].
      eapply pegged_rules; eauto; injection Tc as ->; exact Le.
Qed.

(** Conversely, a transaction that is permitted, with its pegged amount no
    greater than the ceiling, is approved: nothing else stands in its way. *)
Theorem permitted_is_approved addresses req :
  permitted exactly_within addresses req -> (forall v, weiOf (Value req) = Some v -> - 2 ^ 1023 < v) ->
  exists d, evaluate addresses req = Ok d /\ Approved d = true /\ Denials d = [].
Proof.
  intros [ S Wl Bl (v & V & Lv) T ] Lo; specialize (Lo v V).
  assert (v < 2 ^ 1023) as Hi.
  { apply (Z.le_lt_trans _ (global_limit_wei + 8192)); [ | vm_compute; done ].
    revert Lv; unfold nativeCeiling, free_limit_wei, pro_limit_wei, global_limit_wei; repeat case_match; lia. }
  destruct (weiToFloat_finite (Value req) v V ltac:(lia)) as (wei & W).
  destruct (token_passes req wei T) as (pegged & have & P & Tk).
  pose proof (proj2 (destination_rules addresses req wei pegged have) (conj S (conj Wl Bl))) as Ds.
  pose proof (proj2 (amount_limits_rule req wei pegged have W) (ex_intro _ v (conj V Lv))) as Am; cbv zeta in Ds.
  set (i := inputOf req wei pegged have) in *; rewrite app_nil_iff in Ds; destruct Ds as [ D1 D2 ].
  assert (deny addresses i = []) as Dn by (unfold deny; rewrite Am, D1, D2, Tk; done).
  destruct (evaluate addresses req) as [ d | e | ] eqn:E; [ | unfold evaluate in E; rewrite W in E; cbn in E; rewrite P in E; done .. ].
  exists d; destruct (evaluate_ok _ _ _ E) as (wei' & pegged' & have' & W' & P' & De & _ & Ap & _).
  assert (wei' = wei /\ pegged' = pegged /\ have' = have) as (-> & -> & ->) by (split_and!; congruence); fold i in De, Ap.
  split; [ done | ]; split; [ apply Ap, Dn | rewrite De, Dn; done ].
Qed.

(** ** What goes to a person *)

Definition isToken (req : PolicyRequest) : Prop := Asset req <> "" /\ Asset req <> "NATIVE".

(** Exposure that is not priced, or is large. *)
Inductive exposure (req : PolicyRequest) : Prop :=
  | an_allowance : IsAllowance req = true -> exposure req
  | an_unpegged_token : isToken req -> PegCurrency req = "" \/ AssetAmount req = "" -> exposure req
  | a_large_transfer v : weiOf (Value req) = Some v -> high_value_wei + 1024 < v -> exposure req
  | a_large_pegged_transfer n T :
      PegCurrency req <> "" -> AssetAmount req <> "" -> big_of_dec (AssetAmount req) = Some n ->
      high_value (PegCurrency req) = Some T -> (100 * T + 1) * 10 ^ AssetDecimals req <= 100 * n -> exposure req.

Lemma high_value_range c T : high_value c = Some T -> 0 <= T < 2 ^ 45.
Proof. unfold high_value; repeat case_match; intros [= <-]; lia. Qed.

(** An approved transaction that grants an allowance, moves a token without a
    price, or moves much, requires a person's approval and says why. *)
Theorem exposure_is_escalated addresses req d :
  evaluate addresses req = Ok d -> Approved d = true -> exposure req ->
  RequiresApproval d = true /\ ApprovalReasons d <> [].
Proof.
  intros E A X; destruct (evaluate_ok _ _ _ E) as (wei & pegged & have & W & P & _ & Ar & Ap & Ra).
  apply Ap in A; clear Ap E; set (i := inputOf req wei pegged have) in *.
  cut (require_approval i <> []).
  { intros N; split; [ destruct (RequiresApproval d); [ done | exfalso; tauto ] | rewrite Ar, as_set_nil; done ]. }
  unfold require_approval, approval_rules_require, token_limits_require; rewrite !app_nil_iff, !when_nil.
  destruct X as [ Al | [ T1 T2 ] Pg | v V L | n T Pc Aa B Hv L ]; intros (N1 & N2 & N3 & N4).
  - unfold deny, token_limits_deny in A; rewrite !app_nil_iff, when_nil in A; destruct A as (_ & _ & _ & _ & U).
    unfold i, gtb in U, N4; cbn [is_allowance inputOf pegged_value] in U, N4; rewrite Al in U, N4; cbn [andb] in U, N4.
    rewrite N4 in U; done.
  - destruct (peggedAmount_ok _ _ _ P) as [ (-> & -> & _) | (-> & _) ].
    + destruct (IsAllowance req) eqn:Al.
      { unfold i in N4; cbn [is_allowance inputOf pegged_value] in N4; rewrite Al in N4; vm_compute in N4; done. }
      unfold i in N2; cbn [is_token inputOf has_pegged_value is_allowance] in N2; rewrite Al in N2.
      apply String.eqb_neq in T1, T2; rewrite T1, T2 in N2; done.
    + destruct Pg as [ Pg | Pg ]; unfold peggedAmount in P; rewrite Pg, ?orb_true_r in P; cbn in P; congruence.
  - destruct (native_limits _ _ W) as (v' & V' & F & _); assert (v' = v) as -> by congruence.
    unfold i in N1; cbn [value_wei inputOf] in N1; change high_value_wei with free_limit_wei in N1; rewrite F in N1.
    unfold high_value_wei, free_limit_wei in *; apply Z.ltb_ge in N1; lia.
  - destruct (peggedAmount_ok _ _ _ P) as [ (_ & _ & [ ? | ? ]) | (-> & Dc & n' & B' & Hn & R) ]; [ done | done | ].
    assert (n' = n) as -> by congruence; unfold i in N3; cbn [has_pegged_value inputOf peg_currency pegged_value] in N3.
    rewrite Hv, when_nil in N3; destruct (pegged_limit n _ _ T Hn (scale_bounds _ Dc) R (high_value_range _ _ Hv)) as [ _ G ].
    rewrite G in N3; done.
Qed.

(** ** Examples, from the recorded decisions of the service's own tests *)

Module Simple.

Definition plain : string := "0xd8dA6BF26964aF9D7eEd9e03E53415D37aA96045".
Definition sanctioned : string := "0x8589427373D6D84E98730D7795D8f6f8731FDA16".
Definition maxUint256 : string := show_int (2 ^ 256 - 1).
Definition list1 : list string := [ to_lower sanctioned ].

Definition transfer (tier destination wei : string) : PolicyRequest :=
  {| CustomerID := "c"; CustomerTier := tier; To := destination; Value := wei; ChainID := 1; Asset := ""; AssetAmount := "";
     AssetDecimals := 0; PegCurrency := ""; IsAllowance := false; Whitelist := []; BlockedCountries := []; Country := "" |}.

Definition token (tier a amount : string) (decimals : Z) (peg : string) (allowance : bool) : PolicyRequest :=
  {| CustomerID := "c"; CustomerTier := tier; To := plain; Value := "0"; ChainID := 1; Asset := a; AssetAmount := amount;
     AssetDecimals := decimals; PegCurrency := peg; IsAllowance := allowance; Whitelist := []; BlockedCountries := []; Country := "" |}.

Definition everythingWrong : PolicyRequest :=
  {| CustomerID := "c"; CustomerTier := "pro"; To := sanctioned; Value := "1000000000000000000000"; ChainID := 1; Asset := "";
     AssetAmount := ""; AssetDecimals := 0; PegCurrency := ""; IsAllowance := false;
     Whitelist := [ "0x1111111111111111111111111111111111111111" ]; BlockedCountries := [ "KP" ]; Country := "KP" |}.

Lemma recorded_everything_wrong : evaluate list1 everythingWrong = Ok {|
  Approved := false;
  Denials := [ "amount exceeds global limit of 100 ETH";
    "destination 0x8589427373D6D84E98730D7795D8f6f8731FDA16 is not on the tenant whitelist";
    "destination 0x8589427373D6D84E98730D7795D8f6f8731FDA16 is on the sanctions list";
    "pro tier limited to 50 ETH per transaction"; "transactions from KP are blocked for this tenant" ];
  RequiresApproval := true; ApprovalReasons := [ "high-value transaction (> 10 ETH) requires approval" ];
  Reason := "5 policy violation(s)" |}.
Proof. vm_compute; reflexivity. Qed.

(** The rule against unlimited approvals compares the largest [uint256] after
    the division by the token's scale: from eight decimals on it does not
    apply.  Of a token without a peg the amount is not looked at. *)
Lemma unlimited_approval_passes_rule :
  (exists d, evaluate [] (token "pro" "DAI" maxUint256 18 "USD" true) = Ok d /\
     ("refusing an unlimited token approval; approve a specific amount instead" ∉ Denials d)) /\
  (exists d, evaluate [] (token "pro" "WILD" maxUint256 18 "" true) = Ok d /\ Approved d = true).
Proof.
  split; [ destruct (evaluate [] (token "pro" "DAI" maxUint256 18 "USD" true)) as [ d | | ] eqn:E; [ | vm_compute in E; done .. ] | ].
  - exists d; split; [ done | ]; vm_compute in E; injection E as <-; cbn; intros I; repeat (apply elem_of_cons in I as [ I | I ]; [ done | ]); apply elem_of_nil in I; done.
  - eexists; split; [ vm_compute; reflexivity | done ].
Qed.

(** A negative value is within every limit. *)
Lemma negative_value_approved : exists d, evaluate [] (transfer "free" plain "-1000000000000000000000") = Ok d /\ Approved d = true.
Proof. eexists; split; [ vm_compute; reflexivity | done ]. Qed.

Definition onTheLimit : PolicyRequest := token "free" "USDC" "10000000000" 6 "USD" false.

Lemma onTheLimit_decision : exists d, evaluate list1 onTheLimit = Ok d /\ Approved d = true.
Proof. eexists; split; [ vm_compute; reflexivity | done ]. Qed.

Lemma approved_is_permitted_witness : permitted within_a_cent list1 onTheLimit.
Proof. destruct onTheLimit_decision as (d & E & A); exact (approved_is_permitted list1 onTheLimit d E A). Defined.

Lemma permitted_is_approved_witness : exists d, evaluate list1 onTheLimit = Ok d /\ Approved d = true /\ Denials d = [].
Proof.
  apply permitted_is_approved; [ | intros v E; vm_compute in E; injection E as <-; vm_compute; reflexivity ].
  split.
  - intros a [ -> | I ]%elem_of_cons; [ vm_compute; discriminate | apply elem_of_nil in I; destruct I ].
  - left; reflexivity.
  - intros c I; apply elem_of_nil in I; destruct I.
  - exists 0; split; [ reflexivity | vm_compute; discriminate ].
  - intros _ _; exists 10000000000, 10000; split; [ cbn; lia | ]; split; [ vm_compute; reflexivity | ]; split; [ lia | ].
    split; [ reflexivity | unfold exactly_within; cbn; lia ].
Defined.

Lemma exposure_is_escalated_witness :
  exists d, evaluate list1 (token "pro" "USDC" "500000000" 6 "USD" true) = Ok d /\ RequiresApproval d = true /\ ApprovalReasons d <> [].
Proof.
  destruct (evaluate list1 (token "pro" "USDC" "500000000" 6 "USD" true)) as [ d | | ] eqn:E; [ | vm_compute in E; discriminate E .. ].
  exists d; split; [ reflexivity | ]; apply (exposure_is_escalated list1 (token "pro" "USDC" "500000000" 6 "USD" true) d E).
  - vm_compute in E; injection E as <-; reflexivity.
  - apply an_allowance; reflexivity.
Defined.

End Simple.

End PolicyEngine.
