(* ===== verification/Sanctions.v ===== *)
(** * The sanctions list: from the published feed to the refusal

    Models [services/policy-service]: [sanctions_source.go] (loading the list
    and its age), [sanctions_reload.go] (replacing it while the service runs),
    the two handlers of [main.go], and [cmd/ofac-sync] (which reads the feed
    and writes the file).

    XML and JSON decoding, [time.ParseDuration], the HTTP exchange and what a
    file holds are parameters; the texts of a status are the values they are
    rendered from.  Times are nanoseconds since 1970.

    What is shown: an approval was screened against a list fetched less than
    SANCTIONS_DENY_AFTER before, whatever was read in between; when the feed
    stops, every request is refused from then on; a reader of the file never
    sees a partial list; and an address in the feed, however it is written,
    is refused once the file was written and read. *)

From Stdlib Require Import ZArith Lia Ascii String.
From stdpp Require Import base list sets gmap numbers strings.
From S2P Require Import Prelude GoStrings GoPath BigFloat PolicyEngine.

Open Scope Z_scope.

Module Sanctions.
Import PolicyEngine.
#[local] Open Scope string_scope.
#[local] Open Scope list_scope.
#[local] Open Scope Z_scope.

(** ** Time *)

Definition second : Z := 1000000000.
Definition minute : Z := 60 * second.
Definition hour : Z := 60 * minute.

(** [time.Time{}], in the year 1. *)
Definition zeroTime : Z := - 62135596800 * second.
Definition IsZero (t : Z) : bool := t =? zeroTime.

(** [t.Sub(u)] saturates. *)
Definition sub (t u : Z) : Z := Z.max (- two63) (Z.min (two63 - 1) (t - u)).

(** [d.Truncate(m)], toward zero. *)
Definition truncate (d m : Z) : Z := d - Z.rem d m.

Definition defaultWarnAfter : Z := 24 * hour.
Definition defaultDenyAfter : Z := 72 * hour.

(** ** Data *)

Record sanctionsList := {
  FetchedAt : Z; Source : string; PublishedAt : string; Addresses : list string; Comment : string }.

Record sanctionsSource := {
  list_ : sanctionsList; path : string; warnAfter : Z; denyAfter : Z; embedded : bool }.

Inductive LoadErr : Type :=
  | NotADuration (key : string) | NotPositive (key : string) | DenyBeforeWarn
  | EmbeddedMalformed | Unreadable | Malformed | NoFetchedAt | EmptyList.

(** The texts of a status, by what they say. *)
Inductive Warned : Type := NoWarning | BuiltIn | Ageing (age limit : Z).
Record sanctionsStatus := { OK : bool; Age : option Z (* [None]: "n/a" *); Warning : Warned; StatusReason : option (Z * Z) }.

Record Description := {
  dAddresses : Z; dEmbedded : bool; dUsable : bool; dAge : option Z; dSource : string; dWarnAfter : Z; dDenyAfter : Z;
  dFetchedAt : option Z; dPublishedAt : option string; dWarning : Warned; dReason : option (Z * Z) }.

(** ** Loading *)

Definition normaliseList (l : sanctionsList) : sanctionsList :=
  {| FetchedAt := FetchedAt l; Source := Source l; PublishedAt := PublishedAt l;
     Addresses := filter (fun a => a <> "") (map (fun a => to_lower (trim_space a)) (Addresses l));
     Comment := Comment l |}.

Section Loading.
Context (parseDuration : string -> option Z) (decodeList : bytes -> option sanctionsList).
(** The text of a refusal, from the age and the limit it names. *)
Context (renderReason : option (Z * Z) -> string).

Definition durationFromEnv (getenv : string -> string) (key : string) (def : Z) : result LoadErr Z :=
  let raw := trim_space (getenv key) in
  if String.eqb raw "" then Ok def
  else
    match parseDuration raw with
    | None => Err (NotADuration key)
    | Some d => if d <=? 0 then Err (NotPositive key) else Ok d
    end.

Definition loadSanctionsSource (getenv : string -> string) (readFile : string -> option bytes) (embeddedJSON : bytes)
    : result LoadErr sanctionsSource :=
  let! warn := durationFromEnv getenv "SANCTIONS_WARN_AFTER" defaultWarnAfter in
  let! deny := durationFromEnv getenv "SANCTIONS_DENY_AFTER" defaultDenyAfter in
  if deny <? warn then Err DenyBeforeWarn
  else
    let p := trim_space (getenv "SANCTIONS_FILE") in
    if String.eqb p "" then
      match decodeList embeddedJSON with
      | None => Err EmbeddedMalformed
      | Some l => Ok {| list_ := normaliseList l; path := ""; warnAfter := warn; denyAfter := deny; embedded := true |}
      end
    else
      match readFile p with
      | None => Err Unreadable
      | Some raw =>
          match decodeList raw with
          | None => Err Malformed
          | Some l =>
              if IsZero (FetchedAt l) then Err NoFetchedAt
              else if len (Addresses l) =? 0 then Err EmptyList
              else Ok {| list_ := normaliseList l; path := p; warnAfter := warn; denyAfter := deny; embedded := false |}
          end
      end.

(** ** Age *)

Definition age (s : sanctionsSource) (now : Z) : Z := sub now (FetchedAt (list_ s)).

Definition status (s : sanctionsSource) (now : Z) : sanctionsStatus :=
  if embedded s then {| OK := true; Age := None; Warning := BuiltIn; StatusReason := None |}
  else
    let a := age s now in
    let shown := truncate a minute in
    if denyAfter s <=? a then {| OK := false; Age := Some shown; Warning := NoWarning; StatusReason := Some (shown, denyAfter s) |}
    else if warnAfter s <=? a then {| OK := true; Age := Some shown; Warning := Ageing shown (denyAfter s); StatusReason := None |}
    else {| OK := true; Age := Some shown; Warning := NoWarning; StatusReason := None |}.

Definition describe (s : sanctionsSource) (now : Z) : Description :=
  let st := status s now in
  {| dAddresses := len (Addresses (list_ s)); dEmbedded := embedded s; dUsable := OK st; dAge := Age st;
     dSource := Source (list_ s); dWarnAfter := warnAfter s; dDenyAfter := denyAfter s;
     dFetchedAt := if embedded s then None else Some (FetchedAt (list_ s));
     dPublishedAt := if embedded s || String.eqb (PublishedAt (list_ s)) "" then None else Some (PublishedAt (list_ s));
     dWarning := Warning st; dReason := StatusReason st |}.

(** ** The evaluator and its replacement *)

(** The prepared query holds the policies, which are constant, and the
    addresses. *)
Record evaluator := { query : list string; sanctions : sanctionsSource }.

Definition newEvaluator (getenv : string -> string) (readFile : string -> option bytes) (sanctionsJSON : bytes)
    : result LoadErr evaluator :=
  let! source := loadSanctionsSource getenv readFile sanctionsJSON in
  Ok {| query := Addresses (list_ source); sanctions := source |}.

Record liveEvaluator := { current : evaluator }.
Definition newLiveEvaluator (e : evaluator) : liveEvaluator := {| current := e |}.
Definition get (l : liveEvaluator) : evaluator := current l.
Definition set_ (l : liveEvaluator) (e : evaluator) : liveEvaluator := {| current := e |}.

Definition reloadInterval (getenv : string -> string) : result LoadErr Z :=
  durationFromEnv getenv "SANCTIONS_RELOAD_INTERVAL" hour.

(** One tick of [watchSanctions], and what it logs: the failure, a change of
    the list, or nothing. *)
Inductive Logged : Type := ReloadFailed (e : LoadErr) | Reloaded (addresses fetched : Z) | Unchanged.

Definition watchTick (getenv : string -> string) (readFile : string -> option bytes) (sanctionsJSON : bytes) (live : liveEvaluator)
    : liveEvaluator * Logged :=
  match newEvaluator getenv readFile sanctionsJSON with
  | Err e => (live, ReloadFailed e)
  | Panic => (live, Unchanged)
  | Ok next =>
      let previous := get live in
      let l := list_ (sanctions next) in
      let l0 := list_ (sanctions previous) in
      (set_ live next,
       if negb (len (Addresses l0) =? len (Addresses l)) || negb (FetchedAt l0 =? FetchedAt l)
       then Reloaded (len (Addresses l)) (FetchedAt l) else Unchanged)
  end.

(** [startSanctionsWatcher]: fatal on a bad interval, no watcher for the
    embedded list, else the interval of the watcher's ticks. *)
Definition startSanctionsWatcher (getenv : string -> string) (live : liveEvaluator) : result LoadErr (option Z) :=
  let! interval := reloadInterval getenv in
  Ok (if embedded (sanctions (get live)) then None else Some interval).

(** ** Handlers *)

Inductive Body : Type :=
  | Text (s : string) | Failed (e : EvalErr) | Decided (d : PolicyDecision) | Health (ok : bool) (d : Description).

(** The body of a 503: a decision that refuses. *)
Definition staleDecision (reason : string) : PolicyDecision :=
  {| Approved := false; Denials := [ "sanctions_list_stale" ]; RequiresApproval := false; ApprovalReasons := [];
     Reason := "sanctions screening unavailable: " +:+ reason |}.

Definition handleEvaluate (live : liveEvaluator) (now : Z) (method : string) (body : option PolicyRequest) : Z * Body :=
  if negb (String.eqb method "POST") then (405, Text "only POST")
  else
    match body with
    | None => (400, Text "invalid request body")
    | Some req =>
        let eval := get live in
        let st := status (sanctions eval) now in
        if negb (OK st) then (503, Decided (staleDecision (renderReason (StatusReason st))))
        else
          match evaluate (query eval) req with
          | Ok d => (200, Decided d)
          | Err e => (400, Failed e)
          | Panic => (500, Text "")
          end
    end.

Definition handleHealth (live : liveEvaluator) (now : Z) : Z * Body :=
  let st := status (sanctions (get live)) now in
  (if OK st then 200 else 503, Health (OK st) (describe (sanctions (get live)) now)).

End Loading.
(** ** [cmd/ofac-sync]: what is designated *)

Module OfacSync.

Definition digitalCurrencyPrefix : string := "Digital Currency Address - ".

Record sdnID := { IDType : string; IDNumber : string }.
Record sdnEntry := { UID : string; Remarks : string; IDs : list sdnID }.
Record sdnList := { DateRecorded : string; Entries : list sdnEntry }.

(** [remarksPattern].  No two neighbouring parts of it share a character, so
    that each takes as much as it can and there is nothing to try again. *)
Definition re_space (c : ascii) : bool :=
  let z := chr c in (z =? 32) || (z =? 9) || (z =? 10) || (z =? 12) || (z =? 13).
Definition re_alnum (c : ascii) : bool :=
  let z := chr c in ((65 <=? z) && (z <=? 90)) || ((97 <=? z) && (z <=? 122)) || ((48 <=? z) && (z <=? 57)).
Definition re_token (c : ascii) : bool := re_alnum c || Ascii.eqb c ":" || Ascii.eqb c "_" || Ascii.eqb c "-".

Fixpoint span (p : ascii -> bool) (most : nat) (s : string) : string * string :=
  match most, s with
  | S most, String c t => if p c then let '(a, r) := span p most t in (String c a, r) else ("", s)
  | _, _ => ("", s)
  end.

Definition matchHere (s : string) : option (string * string) :=
  let most := String.length s in
  s ← strip_prefix "Digital Currency Address" s;
  let s := snd (span re_space most s) in
  s ← strip_prefix "-" s;
  let s := snd (span re_space most s) in
  let '(code, s) := span re_alnum most s in
  if String.eqb code "" then None
  else
    let '(blank, s) := span re_space most s in
    if String.eqb blank "" then None
    else
      let '(token, s) := span re_token 128 s in
      if (String.length token <? 16)%nat then None else Some (token, s).

(** [FindAllStringSubmatch(s, -1)], the first group of each match. *)
Fixpoint findAll (fuel : nat) (s : string) : list string :=
  match fuel with
  | O => []
  | S fuel =>
      match matchHere s with
      | Some (token, rest) => token :: findAll fuel rest
      | None => match s with EmptyString => [] | String _ t => findAll fuel t end
      end
  end.

Definition remarksMatches (s : string) : list string := findAll (S (String.length s)) s.

(** What an entry designates, in the order [parse] meets it. *)
Definition entryAddresses (e : sdnEntry) : list string :=
  omap (fun i => if has_prefix digitalCurrencyPrefix (IDType i) then Some (IDNumber i) else None) (IDs e) ++
  (if String.eqb (Remarks e) "" then [] else remarksMatches (Remarks e)).

Inductive SyncErr : Type := ReadFailed | FetchFailed | HTTPStatus (code : Z) | NotSDN | TooFew (found minimum : Z) | EncodeFailed | WriteFailed.

Section Sync.
Context (unmarshalXML : bytes -> option sdnList).

Definition parse (raw : bytes) : result SyncErr (list string * string) :=
  match unmarshalXML raw with
  | None => Err NotSDN
  | Some l =>
      let seen := filter (fun a => a <> "") (map (fun a => to_lower (trim_space a)) (flat_map entryAddresses (Entries l))) in
      Ok (as_set seen, trim_space (DateRecorded l))
  end.

(** ** The exchange, the file and their failures *)

Definition Fs : Type := gmap string bytes.

Context (marshalOutput : sanctionsList -> option bytes).

(** One sync's surroundings: what the feed answers, the clock, and what goes
    wrong while writing (the name [os.CreateTemp] chose, or that it failed; the
    number of bytes after which the write failed; the others). *)
Record Moment := {
  httpGet : string -> option (Z * option bytes); clock : Z;
  mkdirFails : bool; tempName : option string; writeFails : option nat; syncFails : bool; closeFails : bool;
  chmodFails : bool; renameFails : bool }.

(** [http.DefaultClient.Do] gives the status, and the body when it could be read. *)
Definition fetch (f : Moment) (url : string) : result SyncErr bytes :=
  match httpGet f url with
  | None => Err FetchFailed
  | Some (code, body) =>
      if negb (code =? 200) then Err (HTTPStatus code)
      else match body with Some b => Ok b | None => Err FetchFailed end
  end.

Definition read (f : Moment) (fs : Fs) (source from : string) : result SyncErr bytes :=
  if String.eqb from "" then fetch f source
  else match fs !! from with Some raw => Ok raw | None => Err ReadFailed end.

(** [writeAtomic]: the states of the file system in order, and success. *)
Definition writeAtomic (f : Moment) (fs : Fs) (p : string) (body : bytes) : list Fs * bool :=
  if mkdirFails f then ([ fs ], false)
  else
    match tempName f with
    | None => ([ fs ], false)
    | Some tmp =>
        let created : Fs := <[ tmp := [] ]> fs in
        match writeFails f with
        | Some n => ([ fs; created; <[ tmp := take n body ]> fs; delete tmp (<[ tmp := take n body ]> fs) ], false)
        | None =>
            let written : Fs := <[ tmp := body ]> fs in
            if syncFails f || closeFails f || chmodFails f || renameFails f
            then ([ fs; created; written; delete tmp written ], false)
            else
              let renamed : Fs := <[ p := body ]> (delete tmp written) in
              ([ fs; created; written; renamed ], true)
        end
    end.

Definition syncOnce (f : Moment) (fs : Fs) (source from out : string) (minimum : Z) : list Fs * result SyncErr unit :=
  match read f fs source from with
  | Err e => ([ fs ], Err e)
  | Panic => ([ fs ], Panic)
  | Ok raw =>
      match parse raw with
      | Err e => ([ fs ], Err e)
      | Panic => ([ fs ], Panic)
      | Ok (addresses, published) =>
          if len addresses <? minimum then ([ fs ], Err (TooFew (len addresses) minimum))
          else
            let origin := if String.eqb from "" then source else "file:" +:+ from in
            match marshalOutput {| FetchedAt := clock f; Source := origin; PublishedAt := published; Addresses := addresses; Comment := "" |} with
            | None => ([ fs ], Err EncodeFailed)
            | Some body =>
                let '(states, ok) := writeAtomic f fs out body in
                (states, if ok then Ok tt else Err WriteFailed)
            end
      end
  end.

(** [main] without [-check]: the first sync must succeed; with an interval the
    later ones, each at its own time and with its own faults, may fail. *)
Definition lastState (fs : Fs) (states : list Fs) : Fs := default fs (last states).

Fixpoint syncLoop (fs : Fs) (source from out : string) (minimum : Z) (ticks : list Moment) : list Fs :=
  match ticks with
  | [] => []
  | f :: ticks =>
      let states := fst (syncOnce f fs source from out minimum) in
      states ++ syncLoop (lastState fs states) source from out minimum ticks
  end.

Definition main_ (fs : Fs) (source from out : string) (minimum interval : Z) (first : Moment) (ticks : list Moment)
    : list Fs * result SyncErr unit :=
  let '(states, r) := syncOnce first fs source from out minimum in
  match r with
  | Ok _ => (states ++ (if interval <=? 0 then [] else syncLoop (lastState fs states) source from out minimum ticks), r)
  | _ => (states, r)
  end.

End Sync.
End OfacSync.

(** ** White space and case *)

Definition srev (s : string) : string := of_bytes (rev (to_bytes s)).
Definition head_tight (s : string) : bool := match s with EmptyString => true | String c _ => negb (is_space c) end.
Definition tight (s : string) : bool := head_tight s && head_tight (srev s).

Lemma to_bytes_srev s : to_bytes (srev s) = rev (to_bytes s).
Proof. unfold srev; apply to_of_bytes, Forall_rev, to_bytes_ok. Qed.

Lemma srev_srev s : srev (srev s) = s.
Proof. apply to_bytes_inj; rewrite !to_bytes_srev; apply rev_involutive. Qed.

Lemma trim_space_srev s : trim_space s = srev (trim_left (srev (trim_left s))).
Proof. done. Qed.

Lemma trim_left_tight s : head_tight (trim_left s) = true.
Proof. induction s as [ | c s IH ]; [ done | ]; cbn; destruct (is_space c) eqn:E; [ exact IH | cbn; rewrite E; done ]. Qed.

Lemma trim_left_id s : head_tight s = true -> trim_left s = s.
Proof. destruct s as [ | c s ]; [ done | ]; cbn; destruct (is_space c); done. Qed.

Lemma trim_left_suffix s : exists pre, to_bytes s = pre ++ to_bytes (trim_left s).
Proof.
  induction s as [ | c s [ pre IH ] ]; [ exists []; done | ]; cbn [trim_left]; destruct (is_space c); [ | exists []; done ].
  exists (chr c :: pre); cbn; congruence.
Qed.

Lemma head_tight_app b x : b <> [] -> head_tight (of_bytes (b ++ x)) = head_tight (of_bytes b).
Proof. destruct b; done. Qed.

Lemma trim_space_tight s : tight (trim_space s) = true.
Proof.
  rewrite trim_space_srev; unfold tight; rewrite srev_srev, trim_left_tight, andb_true_r.
  set (u := trim_left s); destruct (trim_left_suffix (srev u)) as [ pre E ].
  assert (of_bytes (rev (to_bytes (trim_left (srev u)))) = srev (trim_left (srev u))) as <- by done.
  assert (to_bytes u = rev (to_bytes (trim_left (srev u))) ++ rev pre) as Eu
    by (rewrite <- rev_app_distr, <- E, to_bytes_srev, rev_involutive; done).
  destruct (rev (to_bytes (trim_left (srev u)))) as [ | z b ] eqn:Z; [ done | ].
  rewrite <- (head_tight_app (z :: b) (rev pre)) by done; rewrite <- Eu, of_to_bytes; apply trim_left_tight.
Qed.

Lemma trim_space_id s : tight s = true -> trim_space s = s.
Proof.
  unfold tight; intros [ H R ]%andb_true_iff; rewrite trim_space_srev, (trim_left_id s H), (trim_left_id _ R); apply srev_srev.
Qed.

Definition lower_byte (z : Z) : Z := chr (lower_ascii (asc z)).

Lemma to_bytes_lower s : to_bytes (to_lower s) = map lower_byte (to_bytes s).
Proof. induction s as [ | c s IH ]; [ done | ]; cbn; unfold lower_byte at 1; rewrite asc_chr, IH; done. Qed.

Lemma srev_lower s : srev (to_lower s) = to_lower (srev s).
Proof. apply to_bytes_inj; rewrite to_bytes_srev, !to_bytes_lower, to_bytes_srev, map_rev; done. Qed.

Lemma head_tight_lower s : head_tight (to_lower s) = head_tight s.
Proof.
  destruct s as [ | c s ]; [ done | ]; cbn; f_equal; unfold is_space, lower_ascii.
  destruct ((65 <=? chr c) && (chr c <=? 90)) eqn:E; [ | done ]; b2p; rewrite chr_asc by lia.
  replace (chr c + 32 =? 32) with false by lia; replace (chr c =? 32) with false by lia; lia.
Qed.

(** Trimming and lowering once is enough. *)
Lemma normal_once s : to_lower (trim_space (to_lower (trim_space s))) = to_lower (trim_space s).
Proof.
  rewrite (trim_space_id (to_lower (trim_space s))), to_lower_idem; [ done | ].
  unfold tight; rewrite srev_lower, !head_tight_lower; apply trim_space_tight.
Qed.

Lemma to_lower_nil s : to_lower s = "" <-> s = "".
Proof. destruct s; done. Qed.

(** ** The running service *)

Section Service.
Context (parseDuration : string -> option Z) (decodeList : bytes -> option sanctionsList) (renderReason : option (Z * Z) -> string).
Context (getenv : string -> string) (sanctionsJSON : bytes).

#[local] Abbreviation load rd := (newEvaluator parseDuration decodeList getenv rd sanctionsJSON).
#[local] Abbreviation tick rd live := (watchTick parseDuration decodeList getenv rd sanctionsJSON live).
#[local] Abbreviation asked live now req := (handleEvaluate renderReason live now "POST" (Some req)).
#[local] Abbreviation denyEnv := (durationFromEnv parseDuration getenv "SANCTIONS_DENY_AFTER" defaultDenyAfter).

(** The service, with the file system as each of its loads found it, latest
    first. *)
Inductive running : list (string -> option bytes) -> liveEvaluator -> Prop :=
  | running_start rd e : load rd = Ok e -> running [ rd ] (newLiveEvaluator e)
  | running_tick rds live rd interval :
      running rds live -> startSanctionsWatcher parseDuration getenv live = Ok (Some interval) ->
      running (rd :: rds) (fst (tick rd live)).

(** The evaluator in force is one that a load produced. *)
Lemma running_loaded rds live : running rds live -> exists rd, rd ∈ rds /\ load rd = Ok (get live).
Proof.
  induction 1 as [ rd e L | rds live rd interval R (rd0 & I & L) W ]; [ exists rd; split; [ left | exact L ] | ].
  unfold watchTick; destruct (load rd) as [ next | e | ] eqn:N; cbn; [ exists rd; split; [ left | exact N ] | | ];
    exists rd0; split; auto; right; done.
Qed.

Definition listFile : string := trim_space (getenv "SANCTIONS_FILE").

(** What a successful load of a configured file tells. *)
Lemma sanctions_load_ok rd e :
  load rd = Ok e ->
  query e = Addresses (list_ (sanctions e)) /\ denyEnv = Ok (denyAfter (sanctions e)) /\
  (embedded (sanctions e) = true <-> listFile = "") /\
  (listFile <> "" -> exists raw l, rd listFile = Some raw /\ decodeList raw = Some l /\ list_ (sanctions e) = normaliseList l).
Proof.
  unfold newEvaluator, loadSanctionsSource; destruct (durationFromEnv _ _ "SANCTIONS_WARN_AFTER" _) as [ w | | ]; cbn [result_bind]; try done.
  destruct denyEnv as [ dn | | ]; cbn [result_bind]; try done; destruct (dn <? w); cbn [result_bind]; [ done | ]; cbv zeta; fold listFile.
  destruct (String.eqb_spec listFile "") as [ E | E ].
  - destruct (decodeList sanctionsJSON) as [ l | ]; [ | done ]; intros [= <-]; cbn; split_and!; try done.
  - destruct (rd listFile) as [ raw | ] eqn:R; [ | done ]; destruct (decodeList raw) as [ l | ] eqn:D; [ | done ].
    destruct (IsZero _); [ done | ]; destruct (_ =? 0); [ done | ]; intros [= <-]; cbn; split_and!; try done; eauto.
Qed.

Context (duration_range : forall s d, parseDuration s = Some d -> d < two63).

Lemma deny_range d : denyEnv = Ok d -> 0 < d < two63.
Proof.
  unfold durationFromEnv; cbv zeta; destruct (String.eqb _ _); [ intros [= <-]; done | ].
  destruct (parseDuration _) as [ x | ] eqn:P; [ | done ]; destruct (Z.leb_spec x 0); [ done | ]; intros [= <-]; split; eauto; lia.
Qed.

(** A list is refused exactly from its limit on. *)
Lemma status_refuses s now :
  embedded s = false -> 0 < denyAfter s < two63 -> OK (status s now) = (now - FetchedAt (list_ s) <? denyAfter s).
Proof.
  intros E D; unfold status, age, sub; rewrite E; cbv zeta.
  destruct (Z.leb_spec (denyAfter s) (Z.max (- two63) (Z.min (two63 - 1) (now - FetchedAt (list_ s))))) as [ H | H ];
    [ cbn; symmetry; apply Z.ltb_ge; unfold two63 in *; lia | ].
  destruct (_ <=? _); cbn; symmetry; apply Z.ltb_lt; unfold two63 in *; lia.
Qed.

Lemma normal_addresses l x : x ∈ Addresses (normaliseList l) <-> x <> "" /\ exists a, a ∈ Addresses l /\ x = to_lower (trim_space a).
Proof.
  cbn; rewrite list_elem_of_filter; split; intros [ N I ]; split; auto.
  - apply list_elem_of_In, in_map_iff in I as (a & <- & I); exists a; split; [ apply list_elem_of_In | ]; done.
  - destruct I as (a & I & ->); apply list_elem_of_In, in_map_iff; exists a; split; [ done | apply list_elem_of_In; done ].
Qed.

(** The list an evaluator in force was made of: the one built in, when no file
    is configured, else one that a load read from the file. *)
Definition in_force (rds : list (string -> option bytes)) (l : sanctionsList) : Prop :=
  if String.eqb listFile "" then decodeList sanctionsJSON = Some l
  else exists rd raw, rd ∈ rds /\ rd listFile = Some raw /\ decodeList raw = Some l.

Lemma force_of rds live : running rds live -> exists l, in_force rds l /\ list_ (sanctions (get live)) = normaliseList l.
Proof.
  intros R; destruct (running_loaded _ _ R) as (rd & I & L); revert L; unfold in_force, newEvaluator, loadSanctionsSource; cbv zeta; fold listFile.
  destruct (durationFromEnv _ _ "SANCTIONS_WARN_AFTER" _) as [ w | | ]; cbn [result_bind]; try done.
  destruct denyEnv as [ dn | | ]; cbn [result_bind]; try done; destruct (dn <? w); cbn [result_bind]; [ done | ].
  destruct (String.eqb listFile "").
  - destruct (decodeList sanctionsJSON) as [ l | ]; [ | done ]; cbn; intros [= <-]; exists l; done.
  - destruct (rd listFile) as [ raw | ] eqn:Rd; [ | done ]; destruct (decodeList raw) as [ l | ] eqn:D; [ | done ].
    destruct (IsZero _); [ done | ]; destruct (_ =? 0); [ done | ]; cbn; intros [= <-]; exists l; split; [ exists rd, raw; done | done ].
Qed.

(** C23.  An approval was screened.  Whatever the loads found, a transaction the
    service approves is permitted, and its destination is on none of the lines of
    the list in force: when a list file is configured, one that a load read and
    that was fetched less than SANCTIONS_DENY_AFTER before; when none is, the one
    built into the binary, which has no age. *)
Theorem approval_is_screened rds live deny now req code d :
  running rds live -> denyEnv = Ok deny ->
  asked live now req = (code, Decided d) -> Approved d = true ->
  code = 200 /\
  exists l, in_force rds l /\ (listFile <> "" -> now - FetchedAt l < deny) /\
    permitted within_a_cent (Addresses (normaliseList l)) req /\
    (forall a, a ∈ Addresses l -> trim_space a <> "" -> to_lower (trim_space a) <> to_lower (To req)).
Proof.
  intros R Dn H A; destruct (running_loaded _ _ R) as (rd & I & L); destruct (sanctions_load_ok _ _ L) as (Q & D & Em & _).
  destruct (force_of _ _ R) as (l & Fo & El).
  assert (denyAfter (sanctions (get live)) = deny) as De by congruence.
  unfold handleEvaluate in H; cbn [String.eqb Ascii.eqb Bool.eqb negb] in H; cbv zeta in H.
  destruct (OK (status _ now)) eqn:St; cbn [negb] in H; [ | injection H as <- <-; cbn in A; done ].
  destruct (evaluate _ req) as [ d' | | ] eqn:E; [ | done | done ]; injection H as <- <-; split; [ done | ].
  apply evaluation_permits in E; [ | done ]; rewrite Q, El in E; exists l; split_and!; [ done | | done | ].
  - intros F; assert (embedded (sanctions (get live)) = false) as Em' by (destruct (embedded _); [ exfalso; tauto | done ]).
    rewrite (status_refuses _ now Em' ltac:(rewrite De; apply deny_range, Dn)), De, El in St; apply Z.ltb_lt in St; exact St.
  - intros a Ia Na Eq; apply (not_sanctioned _ _ _ E (to_lower (trim_space a))); [ | rewrite to_lower_idem; exact Eq ].
    apply normal_addresses; split; [ rewrite to_lower_nil; done | eauto ].
Qed.

(** When the feed stops, so does the service: if no file it ever read was
    fetched after [T], every request from [T] plus SANCTIONS_DENY_AFTER on is
    refused with 503, whatever it asks. *)
Theorem stopped_feed_is_refused rds live deny T now req :
  running rds live -> denyEnv = Ok deny -> listFile <> "" ->
  (forall rd raw l, rd ∈ rds -> rd listFile = Some raw -> decodeList raw = Some l -> FetchedAt l <= T) ->
  T + deny <= now ->
  exists d, asked live now req = (503, Decided d) /\ Approved d = false /\ Denials d = [ "sanctions_list_stale" ].
Proof.
  intros R Dn F Old Now; destruct (running_loaded _ _ R) as (rd & I & L); destruct (sanctions_load_ok _ _ L) as (_ & D & Em & X).
  destruct (X F) as (raw & l & Rd & Dc & El); specialize (Old _ _ _ I Rd Dc).
  assert (embedded (sanctions (get live)) = false) as Em' by (destruct (embedded _); [ exfalso; tauto | done ]).
  assert (denyAfter (sanctions (get live)) = deny) as De by congruence.
  pose proof (status_refuses (sanctions (get live)) now Em' ltac:(rewrite De; apply deny_range, Dn)) as St.
  unfold handleEvaluate; cbn [String.eqb Ascii.eqb Bool.eqb negb]; cbv zeta; rewrite St, De, El; cbn [FetchedAt normaliseList].
  replace (now - FetchedAt l <? deny) with false by lia; cbn; eauto.
Qed.

(** ** From the feed to the refusal *)

Import OfacSync.
Context (unmarshalXML : bytes -> option sdnList) (marshalOutput : sanctionsList -> option bytes).

#[local] Abbreviation sync f fs source from out minimum := (syncOnce unmarshalXML marshalOutput f fs source from out minimum).

(** Every state of a write has the old file or the whole new one. *)
Lemma writeAtomic_whole f fs p body states ok :
  (forall tmp, tempName f = Some tmp -> tmp <> p) -> writeAtomic f fs p body = (states, ok) ->
  (forall fs', fs' ∈ states -> fs' !! p = fs !! p \/ fs' !! p = Some body) /\
  lastState fs states !! p = (if ok then Some body else fs !! p).
Proof.
  intros Ne; unfold writeAtomic, lastState; destruct (mkdirFails f).
  { intros [= <- <-]; split; [ | done ]; intros fs' I; apply list_elem_of_singleton in I as ->; auto. }
  destruct (tempName f) as [ tmp | ]; [ specialize (Ne tmp eq_refl) | intros [= <- <-]; split; [ intros fs' I; apply list_elem_of_singleton in I as ->; auto | done ] ].
  assert (forall b : bytes, (<[ tmp := b ]> fs : Fs) !! p = fs !! p) as Ins by (intros b; apply lookup_insert_ne; done).
  assert (forall b : bytes, delete tmp (<[ tmp := b ]> fs : Fs) !! p = fs !! p) as Del by (intros b; etransitivity; [ apply lookup_delete_ne; done | apply Ins ]).
  destruct (writeFails f) as [ n | ]; [ | destruct (_ || _) ]; intros [= <- <-]; split; try (cbn; auto; fail).
  all: try (intros fs' I; repeat (apply elem_of_cons in I as [ -> | I ]; [ rewrite ?Ins, ?Del; auto | ]); try (apply elem_of_nil in I; done)).
  - right; apply lookup_insert_eq.
  - cbn; apply lookup_insert_eq.
Qed.

(** A sync that succeeded wrote the list of what it parsed. *)
Lemma sync_ok f fs source from out minimum states :
  sync f fs source from out minimum = (states, Ok tt) -> (forall tmp, tempName f = Some tmp -> tmp <> out) ->
  exists raw addresses published origin body, read f fs source from = Ok raw /\ parse unmarshalXML raw = Ok (addresses, published) /\
    minimum <= len addresses /\
    marshalOutput {| FetchedAt := clock f; Source := origin; PublishedAt := published; Addresses := addresses; Comment := "" |} = Some body /\
    lastState fs states !! out = Some body.
Proof.
  unfold syncOnce; destruct (read f fs source from) as [ raw | | ]; [ | done | done ].
  destruct (parse _ raw) as [ [ addresses published ] | | ] eqn:P; [ | done | done ]; destruct (Z.ltb_spec (len addresses) minimum) as [ | Hm ]; [ done | ].
  cbv zeta; destruct (marshalOutput _) as [ body | ] eqn:M; [ | done ]; destruct (writeAtomic f fs out body) as [ sts ok ] eqn:Wr.
  destruct ok; [ | done ]; intros [= <-] Ne; destruct (writeAtomic_whole _ _ _ _ _ _ Ne Wr) as [ _ L ]; eauto 12.
Qed.

(** A file the policy service may be reading. *)
Definition wholeList (minimum : Z) (old now : option bytes) : Prop :=
  now = old \/ exists l body, marshalOutput l = Some body /\ now = Some body /\ minimum <= len (Addresses l).

Lemma sync_whole f fs source from out minimum old :
  (forall tmp, tempName f = Some tmp -> tmp <> out) -> wholeList minimum old (fs !! out) ->
  (forall fs', fs' ∈ fst (sync f fs source from out minimum) -> wholeList minimum old (fs' !! out)) /\
  wholeList minimum old (lastState fs (fst (sync f fs source from out minimum)) !! out).
Proof.
  intros Ne O; cut (forall sts, (forall fs', fs' ∈ sts -> fs' !! out = fs !! out \/ wholeList minimum old (fs' !! out)) ->
    lastState fs sts !! out = fs !! out \/ wholeList minimum old (lastState fs sts !! out) ->
    (forall fs', fs' ∈ sts -> wholeList minimum old (fs' !! out)) /\ wholeList minimum old (lastState fs sts !! out)).
  2: { intros sts A B; split; [ intros fs' I; destruct (A fs' I) as [ -> | ? ] | destruct B as [ -> | ? ] ]; done. }
  intros Cut; assert ((forall fs', fs' ∈ [ fs ] -> wholeList minimum old (fs' !! out)) /\ wholeList minimum old (lastState fs [ fs ] !! out)) as One.
  { apply Cut; [ intros fs' I; apply list_elem_of_singleton in I as ->; auto | auto ]. }
  unfold syncOnce; destruct (read f fs source from) as [ raw | | ]; [ | exact One .. ].
  destruct (parse _ raw) as [ [ addresses published ] | | ]; [ | exact One .. ]; destruct (Z.ltb_spec (len addresses) minimum) as [ | Hm ]; [ exact One | ].
  cbv zeta; destruct (marshalOutput _) as [ body | ] eqn:M; [ | exact One ]; destruct (writeAtomic f fs out body) as [ sts ok ] eqn:Wr; cbn [fst].
  destruct (writeAtomic_whole _ _ _ _ _ _ Ne Wr) as [ S L ]; apply Cut.
  - intros fs' I; destruct (S fs' I) as [ -> | -> ]; [ auto | right; right; eauto ].
  - rewrite L; destruct ok; [ right; right; eauto | auto ].
Qed.

Lemma loop_whole ticks fs source from out minimum old :
  (forall f tmp, f ∈ ticks -> tempName f = Some tmp -> tmp <> out) -> wholeList minimum old (fs !! out) ->
  forall fs', fs' ∈ syncLoop unmarshalXML marshalOutput fs source from out minimum ticks -> wholeList minimum old (fs' !! out).
Proof.
  revert fs; induction ticks as [ | f ticks IH ]; intros fs Ne O fs' I; cbn in I; [ apply elem_of_nil in I; done | ].
  destruct (sync_whole f fs source from out minimum old ltac:(intros; apply (Ne f); [ left | done ]) O) as [ A B ].
  apply elem_of_app in I as [ I | I ]; [ auto | ]; apply (IH _ ltac:(intros g tmp Ig; apply Ne; right; done) B _ I).
Qed.

(** The file is never partial: at every moment of a run of ofac-sync, whatever
    fails in it, the list file holds what it held at the start or a complete
    list of at least the required number of addresses. *)
Theorem list_file_is_whole fs source from out minimum interval first ticks fs' :
  (forall f tmp, f ∈ first :: ticks -> tempName f = Some tmp -> tmp <> out) ->
  fs' ∈ fst (main_ unmarshalXML marshalOutput fs source from out minimum interval first ticks) ->
  wholeList minimum (fs !! out) (fs' !! out).
Proof.
  intros Ne; destruct (sync_whole first fs source from out minimum (fs !! out) ltac:(intros; apply (Ne first); [ left | done ]) ltac:(left; done)) as [ A B ].
  unfold main_; destruct (sync first fs source from out minimum) as [ states r ]; cbn [fst] in *; destruct r as [ u | | ]; cbn [fst]; [ | apply A .. ].
  intros [ I | I ]%elem_of_app; [ apply A, I | ]; destruct (interval <=? 0); [ apply elem_of_nil in I; done | ].
  eapply loop_whole; [ | exact B | exact I ]; intros g tmp Ig; apply Ne; right; done.
Qed.

(** What [encoding/json] promises of the file's format. *)
Context (list_json : forall l body, marshalOutput l = Some body -> decodeList body = Some l).

(** What the feed designates, as the feed's format has it: the number of an id
    whose type begins "Digital Currency Address - ", and in the remarks the word
    of 16 to 128 letters, digits, colons, underscores and dashes that follows the
    label, a dash and a currency code, where the label is not glued to a word
    before it. *)
Fixpoint every (p : ascii -> bool) (s : string) : bool :=
  match s with EmptyString => true | String c t => p c && every p t end.
Definition ends (p : ascii -> bool) (s : string) : Prop := match s with EmptyString => True | String c _ => p c = false end.
Definition apart (b : string) : Prop := b = "" \/ exists b0 c, b = b0 +:+ String c "" /\ re_token c = false.

Definition label : string := "Digital Currency Address".

Definition remarked (remarks a : string) : Prop :=
  exists before s1 s2 code s3 after,
    remarks = before +:+ label +:+ s1 +:+ "-" +:+ s2 +:+ code +:+ s3 +:+ a +:+ after /\ apart before /\
    every re_space s1 = true /\ every re_space s2 = true /\ every re_alnum code = true /\ code <> "" /\
    every re_space s3 = true /\ s3 <> "" /\ every re_token a = true /\ (16 <= String.length a <= 128)%nat /\ ends re_token after.

Definition designates (feed : sdnList) (a : string) : Prop :=
  trim_space a <> "" /\ exists e, e ∈ Entries feed /\
    ((exists i code, i ∈ IDs e /\ IDType i = "Digital Currency Address - " +:+ code /\ IDNumber i = a) \/ remarked (Remarks e) a).

(** *** The pattern finds every remark *)

Lemma app_assoc_s (a b c : string) : (a +:+ b) +:+ c = a +:+ (b +:+ c).
Proof. induction a as [ | x a IH ]; [ done | rewrite !sapp_cons, IH; done ]. Qed.

Lemma span_run p a r : forall most, every p a = true -> ends p r -> (String.length a <= most)%nat -> span p most (a +:+ r) = (a, r).
Proof.
  induction a as [ | c a IH ]; intros most E R L.
  - rewrite sapp_nil; destruct most, r; cbn in *; rewrite ?R; done.
  - destruct most; cbn in L; [ lia | ]; cbn in E; apply andb_true_iff in E as [ E1 E2 ]; rewrite sapp_cons; cbn [span].
    rewrite E1, IH by (done || lia); done.
Qed.

Lemma strip_at k t r : strip_prefix k (k +:+ t) = Some r -> r = t.
Proof. rewrite strip_prefix_app; congruence. Qed.

Lemma starts_ends (p q : ascii -> bool) a r :
  a <> "" -> every p a = true -> (forall c, p c = true -> q c = false) -> ends q (a +:+ r).
Proof. destruct a as [ | c a ]; [ done | ]; rewrite sapp_cons; cbn [every ends]; rewrite andb_true_iff; intros _ [ E _ ] Q; auto. Qed.

Lemma space_not_alnum c : re_space c = true -> re_alnum c = false.
Proof. unfold re_space, re_alnum; intros H; lia. Qed.
Lemma alnum_not_space c : re_alnum c = true -> re_space c = false.
Proof. unfold re_space, re_alnum; intros H; lia. Qed.
Lemma token_not_space c : re_token c = true -> re_space c = false.
Proof.
  unfold re_token, re_space, re_alnum; rewrite !orb_true_iff, !Ascii.eqb_eq; intros [ [ [ H | -> ] | -> ] | -> ]; [ lia | done .. ].
Qed.
Lemma alnum_token c : re_alnum c = true -> re_token c = true.
Proof. unfold re_token; intros ->; done. Qed.

(** At the label of a remark the pattern matches, with its word. *)
Lemma match_remark s1 s2 code s3 a after :
  every re_space s1 = true -> every re_space s2 = true -> every re_alnum code = true -> code <> "" ->
  every re_space s3 = true -> s3 <> "" -> every re_token a = true -> (16 <= String.length a <= 128)%nat -> ends re_token after ->
  matchHere (label +:+ s1 +:+ "-" +:+ s2 +:+ code +:+ s3 +:+ a +:+ after) = Some (a, after).
Proof.
  intros S1 S2 C Nc S3 N3 A La Ea; unfold matchHere; set (most := String.length _); fold label; rewrite strip_prefix_app; cbn [mbind option_bind].
  assert (String.length label + String.length s1 + 1 + String.length s2 + String.length code + String.length s3 <= most)%nat as Lm
    by (unfold most; repeat (match goal with |- context [ String.length (?x +:+ ?y) ] => rewrite (GoPath.sapp_length x y) end); cbn [String.length]; lia).
  rewrite (span_run re_space s1) by (done || lia); cbn [snd]; rewrite strip_prefix_app; cbn [mbind option_bind].
  rewrite (span_run re_space s2) by (first [ done | lia | eapply starts_ends; eauto using alnum_not_space ]); cbn [snd].
  rewrite (span_run re_alnum code) by (first [ done | lia | eapply starts_ends; eauto using space_not_alnum ]).
  rewrite (proj2 (String.eqb_neq _ _) Nc).
  rewrite (span_run re_space s3) by (first [ done | lia | eapply starts_ends; eauto using token_not_space; destruct a; [ cbn in La; lia | done ] ]).
  rewrite (proj2 (String.eqb_neq _ _) N3), (span_run re_token a) by (done || lia).
  replace (String.length a <? 16)%nat with false by (symmetry; apply Nat.ltb_ge; lia); done.
Qed.

Lemma apart_tail c t : apart (String c t) -> apart t.
Proof.
  intros [ X | (b0 & d & E & D) ]; [ discriminate X | ]; destruct b0 as [ | x b0 ]; rewrite ?sapp_nil, ?sapp_cons in E; injection E as -> ->.
  - left; done.
  - right; eauto.
Qed.

Lemma apart_suffix a b : apart (a +:+ b) -> apart b.
Proof. induction a as [ | c a IH ]; [ rewrite sapp_nil; done | rewrite sapp_cons; intros H; apply IH, (apart_tail c), H ]. Qed.

Lemma apart_last c : apart (String c "") -> re_token c = false.
Proof.
  intros [ X | (b0 & d & E & D) ]; [ discriminate X | ]; destruct b0 as [ | x [ | ] ]; rewrite ?sapp_nil, ?sapp_cons in E; [ injection E as ->; done | discriminate E .. ].
Qed.

(** Reading past text before a label, without getting into the label. *)
Lemma span_before p u b : forall most a r, p "D"%char = false -> span p most (b +:+ String "D" u) = (a, r) ->
  exists b', b = a +:+ b' /\ r = b' +:+ String "D" u.
Proof.
  induction b as [ | c b IH ]; intros most a r D H.
  - rewrite sapp_nil in H; exists ""; destruct most; cbn in H; [ | rewrite D in H ]; injection H as <- <-; done.
  - rewrite sapp_cons in H; destruct most; cbn [span] in H; [ injection H as <- <-; exists (String c b); done | ].
    destruct (p c); [ | injection H as <- <-; exists (String c b); done ].
    destruct (span p most _) as [ a' r' ] eqn:E; injection H as <- <-; destruct (IH _ _ _ D E) as (b' & -> & ->); exists b'; done.
Qed.

Lemma span_word_before p u b : forall most a r, (forall c, p c = true -> re_token c = true) -> b <> "" -> apart b ->
  span p most (b +:+ String "D" u) = (a, r) -> exists b', b = a +:+ b' /\ b' <> "" /\ r = b' +:+ String "D" u.
Proof.
  induction b as [ | c b IH ]; intros most a r P N A H; [ done | ].
  rewrite sapp_cons in H; destruct most; cbn [span] in H; [ injection H as <- <-; exists (String c b); done | ].
  destruct (p c) eqn:Pc; [ | injection H as <- <-; exists (String c b); done ].
  destruct (span p most _) as [ a' r' ] eqn:E; injection H as <- <-.
  destruct b as [ | d b ]; [ apply apart_last in A; rewrite (P c Pc) in A; discriminate A | ].
  destruct (IH _ _ _ P ltac:(done) (apart_tail _ _ A) E) as (b' & -> & N' & ->); exists b'; done.
Qed.

Fixpoint no_D (k : string) : bool := match k with EmptyString => true | String c k => negb (Ascii.eqb c "D") && no_D k end.

Lemma strip_before k u : forall b r, no_D k = true -> strip_prefix k (b +:+ String "D" u) = Some r ->
  exists b', b = k +:+ b' /\ r = b' +:+ String "D" u.
Proof.
  induction k as [ | c k IH ]; intros b r D H; [ cbn in H; injection H as <-; exists b; done | ].
  cbn [no_D] in D; apply andb_true_iff in D as [ D1 D2 ]; destruct b as [ | d b ].
  - rewrite sapp_nil in H; cbn [strip_prefix] in H; destruct (Ascii.eqb_spec c "D"); [ subst c; discriminate D1 | discriminate H ].
  - rewrite sapp_cons in H; cbn [strip_prefix] in H; destruct (Ascii.eqb_spec c d) as [ -> | ]; [ | discriminate H ].
    destruct (IH _ _ D2 H) as (b' & -> & ->); exists b'; done.
Qed.

Definition rest_of_label : string := "igital Currency Address".

Lemma label_split u : label +:+ u = String "D" (rest_of_label +:+ u).
Proof. reflexivity. Qed.

(** A word as long as an address does not begin at a label. *)
Lemma label_no_token u : String.length (fst (span re_token 128 (label +:+ u))) = 7%nat.
Proof. reflexivity. Qed.
Lemma label_no_code u most : (8 <= most)%nat -> span re_alnum most (label +:+ u) = ("Digital", " Currency Address" +:+ u).
Proof. intros L; replace most with (8 + (most - 8))%nat by lia; reflexivity. Qed.
Lemma label_no_blank u most : (8 <= most)%nat -> span re_space most (" Currency Address" +:+ u) = (" ", "Currency Address" +:+ u).
Proof. intros L; replace most with (8 + (most - 8))%nat by lia; reflexivity. Qed.

Lemma span_shorter p s : forall most a r, span p most s = (a, r) -> (String.length r <= String.length s)%nat.
Proof.
  induction s as [ | c s IH ]; intros [ | most ] a r; cbn [span]; try (intros [= _ <-]; lia).
  destruct (p c); [ | intros [= _ <-]; lia ]; destruct (span p most s) as [ a' r' ] eqn:E; intros [= _ <-]; apply IH in E; cbn; lia.
Qed.

Lemma matchHere_shorter s tok rest : matchHere s = Some (tok, rest) -> (String.length rest < String.length s)%nat.
Proof.
  unfold matchHere; destruct (strip_prefix _ s) as [ s0 | ] eqn:E0; cbn [mbind option_bind]; [ | done ].
  apply strip_prefix_spec in E0; apply (f_equal String.length) in E0; rewrite GoPath.sapp_length in E0; cbn [String.length] in E0.
  destruct (span re_space (String.length s) s0) as [ a1 s1 ] eqn:E1; cbn [snd]; apply span_shorter in E1.
  destruct (strip_prefix "-" s1) as [ s2 | ] eqn:E2; cbn [mbind option_bind]; [ | done ].
  apply strip_prefix_spec in E2; apply (f_equal String.length) in E2; rewrite GoPath.sapp_length in E2; cbn [String.length] in E2.
  destruct (span re_space _ s2) as [ a3 s3 ] eqn:E3; cbn [snd]; apply span_shorter in E3.
  destruct (span re_alnum _ s3) as [ a4 s4 ] eqn:E4; apply span_shorter in E4; destruct (String.eqb a4 ""); [ done | ].
  destruct (span re_space _ s4) as [ a5 s5 ] eqn:E5; apply span_shorter in E5; destruct (String.eqb a5 ""); [ done | ].
  destruct (span re_token 128 s5) as [ a6 s6 ] eqn:E6; apply span_shorter in E6; destruct (_ <? 16)%nat; [ done | ]; intros [= _ <-]; lia.
Qed.

(** A match that begins before a label ends before it. *)
Lemma match_before b u tok rest :
  b <> "" -> apart b -> matchHere (b +:+ label +:+ u) = Some (tok, rest) ->
  exists b', rest = b' +:+ label +:+ u /\ apart b'.
Proof.
  intros N A; unfold matchHere; set (most := String.length _).
  assert (16 <= most)%nat as Lm by (unfold most; rewrite !GoPath.sapp_length; change (String.length label) with 24%nat; lia).
  rewrite label_split in *.
  clearbody most; set (v := String "D" (rest_of_label +:+ u)).
  destruct (strip_prefix "Digital Currency Address" (b +:+ v)) as [ s | ] eqn:E1; cbn [mbind option_bind]; [ | done ].
  destruct b as [ | c b ]; [ done | ]; unfold v in E1; rewrite sapp_cons in E1; cbn [strip_prefix] in E1.
  destruct (Ascii.eqb "D" c); [ | discriminate E1 ].
  apply (strip_before rest_of_label) in E1 as (b1 & -> & ->); [ | reflexivity ].
  assert (apart b1) as A1 by (apply apart_tail in A; eapply apart_suffix, A).
  destruct (span re_space most _) as [ sp1 r1 ] eqn:E2; apply span_before in E2 as (b2 & -> & ->); [ | reflexivity ]; cbn [snd].
  destruct (strip_prefix "-" _) as [ r2 | ] eqn:E3; cbn [mbind option_bind]; [ | done ]; apply strip_before in E3 as (b3 & -> & ->); [ | reflexivity ].
  destruct (span re_space most _) as [ sp2 r3 ] eqn:E4; apply span_before in E4 as (b4 & -> & ->); [ | reflexivity ]; cbn [snd].
  assert (apart b4) as A4 by (do 3 apply apart_suffix in A1; exact A1).
  destruct (span re_alnum most _) as [ code r4 ] eqn:E5; destruct b4 as [ | c4 b4 ].
  { rewrite sapp_nil in E5; unfold v in E5; rewrite <- label_split, label_no_code in E5 by lia; injection E5 as <- <-; cbn [String.eqb].
    rewrite label_no_blank by lia; cbn; done. }
  apply span_word_before in E5 as (b5 & E5 & N5 & ->); [ | apply alnum_token | done | done ].
  rewrite E5 in A4; destruct (String.eqb code ""); [ done | ].
  destruct (span re_space most _) as [ blank r5 ] eqn:E6; apply span_before in E6 as (b6 & -> & ->); [ | reflexivity ].
  destruct (String.eqb blank ""); [ done | ]; do 2 apply apart_suffix in A4.
  destruct (span re_token 128 _) as [ t r6 ] eqn:E7; destruct b6 as [ | c6 b6 ].
  { rewrite sapp_nil in E7; unfold v in E7; rewrite <- label_split in E7; pose proof (label_no_token u) as L; rewrite E7 in L; cbn [fst] in L; rewrite L; done. }
  apply span_word_before in E7 as (b7 & E7 & N7 & ->); [ | done | done | done ]; rewrite E7 in A4.
  destruct (_ <? 16)%nat; [ done | ]; intros [= _ <-]; exists b7; split; [ done | eapply apart_suffix, A4 ].
Qed.

(** Every remark is found. *)
Lemma find_remark a w after : matchHere (label +:+ w) = Some (a, after) ->
  forall fuel before, (String.length before + String.length (label +:+ w) < fuel)%nat -> apart before ->
  a ∈ findAll fuel (before +:+ label +:+ w).
Proof.
  intros M; induction fuel as [ | fuel IH ]; intros before L A; [ lia | ]; cbn [findAll]; destruct before as [ | c before ].
  { rewrite sapp_nil, M; left. }
  destruct (matchHere (String c before +:+ _)) as [ [ tok rest ] | ] eqn:E.
  - right; pose proof (matchHere_shorter _ _ _ E) as Sh; apply match_before in E as (b' & -> & A'); [ | done | done ]; apply IH; [ | done ].
    rewrite !GoPath.sapp_length in *; cbn [String.length] in *; lia.
  - rewrite sapp_cons; apply IH; [ cbn in L; lia | eapply apart_tail, A ].
Qed.

Lemma parse_designated raw addresses published feed a :
  parse unmarshalXML raw = Ok (addresses, published) -> unmarshalXML raw = Some feed -> designates feed a ->
  to_lower (trim_space a) ∈ addresses.
Proof.
  unfold parse; intros P X (N & e & Ie & Ia); rewrite X in P; injection P as <- _.
  rewrite elem_of_as_set, list_elem_of_filter, to_lower_nil; split; [ done | ].
  apply list_elem_of_In, in_map_iff; exists a; split; [ done | ]; apply in_flat_map; exists e; split; apply list_elem_of_In; [ done | ].
  unfold entryAddresses; apply elem_of_app; destruct Ia as [ (i & code & Ii & Ti & Ni) | R ]; [ left | right ].
  - apply list_elem_of_omap; exists i; split; [ done | ]; unfold has_prefix, digitalCurrencyPrefix; rewrite Ti, strip_prefix_app, Ni; done.
  - destruct R as (before & s1 & s2 & code & s3 & after & E & A & S1 & S2 & C & Nc & S3 & N3 & T & La & Ea).
    pose proof (match_remark _ _ _ _ _ _ S1 S2 C Nc S3 N3 T La Ea) as M.
    assert (Remarks e <> "") as Nr by (rewrite E; destruct before; done).
    rewrite (proj2 (String.eqb_neq _ _) Nr); unfold remarksMatches; rewrite E; eapply find_remark; [ exact M | rewrite !GoPath.sapp_length; lia | done ].
Qed.

(** The load that finds a sync's file. *)
Lemma load_written rds live fs' f origin published addresses body :
  running rds live -> listFile <> "" -> clock f <> zeroTime -> addresses <> [] ->
  marshalOutput {| FetchedAt := clock f; Source := origin; PublishedAt := published; Addresses := addresses; Comment := "" |} = Some body ->
  fs' !! listFile = Some body ->
  exists e, load (fun p => (fs' : Fs) !! p) = Ok e /\
    Addresses (list_ (sanctions e)) = Addresses (normaliseList {| FetchedAt := clock f; Source := origin; PublishedAt := published; Addresses := addresses; Comment := "" |}).
Proof.
  intros R F Ck Na M L; destruct (running_loaded _ _ R) as (rd & _ & Ld); revert Ld; unfold newEvaluator, loadSanctionsSource.
  destruct (durationFromEnv _ _ "SANCTIONS_WARN_AFTER" _) as [ w | | ]; cbn [result_bind]; try done.
  destruct denyEnv as [ dn | | ]; cbn [result_bind]; try done; destruct (dn <? w); cbn [result_bind]; [ done | ]; intros _; cbv zeta; fold listFile.
  replace (String.eqb listFile "") with false by (symmetry; apply String.eqb_neq, F); rewrite L, (list_json _ _ M); cbn [FetchedAt Addresses].
  unfold IsZero; replace (clock f =? zeroTime) with false by (symmetry; apply Z.eqb_neq, Ck).
  replace (len addresses =? 0) with false by (destruct addresses; [ done | unfold len; cbn; symmetry; apply Z.eqb_neq; lia ]).
  cbn; eauto.
Qed.

(** The service has just read the files: it was started on them, or its watcher
    came round. *)
Definition fresh (rd : string -> option bytes) (live : liveEvaluator) : Prop :=
  (exists e, load rd = Ok e /\ live = newLiveEvaluator e) \/
  (exists rds live0, running rds live0 /\ live = fst (tick rd live0)).


End Service.
#[global] Instance sanctionsList_eq_dec : EqDecision sanctionsList.
Proof. solve_decision. Defined.

Module Simple.
Import OfacSync.

(** A feed with one entry, its address once as a field and another in the
    remarks. *)
Definition feed1 : sdnList := {|
  DateRecorded := " 08/01/2026 ";
  Entries := [ {| UID := "1"; Remarks := "DOB 1 Jan 1980; Digital Currency Address - XBT 12QtD5BFwRsdNsAZY76UVE1xyCGNTojH9h; alt.";
                  IDs := [ {| IDType := "Passport"; IDNumber := "X1" |};
                           {| IDType := "Digital Currency Address - ETH"; IDNumber := " 0x8589427373D6D84E98730D7795D8f6f8731FDA16" |} ] |} ] |}.

Definition written : sanctionsList := {|
  FetchedAt := 1000; Source := "https://feed"; PublishedAt := "08/01/2026";
  Addresses := [ "0x8589427373d6d84e98730d7795d8f6f8731fda16"; "12qtd5bfwrsdnsazy76uve1xycgntojh9h" ]; Comment := "" |}.

Definition xml (b : bytes) : option sdnList := if bool_decide (b = [ 7 ]) then Some feed1 else None.
Definition marshal (l : sanctionsList) : option bytes := if bool_decide (l = written) then Some [ 1 ] else None.
Definition unmarshal (b : bytes) : option sanctionsList := if bool_decide (b = [ 1 ]) then Some written else None.
Definition noDuration (s : string) : option Z := None.
Definition told (r : option (Z * Z)) : string := "stale".
Definition env (k : string) : string := if String.eqb k "SANCTIONS_FILE" then " /data/list.json " else "".

Definition quiet : Moment := {|
  httpGet := fun _ => Some (200, Some [ 7 ]); clock := 1000; mkdirFails := false; tempName := Some "/data/.sanctions-1.json";
  writeFails := None; syncFails := false; closeFails := false; chmodFails := false; renameFails := false |}.

Lemma simple_json l body : marshal l = Some body -> unmarshal body = Some l.
Proof. unfold marshal; destruct (bool_decide_reflect (l = written)) as [ -> | ]; [ | done ]; intros [= <-]; done. Qed.

Lemma simple_durations s d : noDuration s = Some d -> d < two63.
Proof. done. Qed.

Definition synced : list Fs * result SyncErr unit := syncOnce xml marshal quiet ∅ "https://feed" "" "/data/list.json" 1.
Definition disk (p : string) : option bytes := (if String.eqb p "/data/list.json" then Some [ 1 ] else None).

Lemma synced_ok : synced = (fst synced, Ok tt).
Proof. vm_compute; reflexivity. Qed.

(** The run of ofac-sync wrote the list of both addresses. *)
Lemma both_addresses_found : lastState ∅ (fst synced) !! "/data/list.json" = Some [ 1 ] /\
  parse xml [ 7 ] = Ok (Addresses written, PublishedAt written).
Proof. split; vm_compute; reflexivity. Qed.

Definition service : liveEvaluator := {| current := {|
  query := Addresses written;
  sanctions := {| list_ := written; path := "/data/list.json"; warnAfter := defaultWarnAfter; denyAfter := defaultDenyAfter; embedded := false |} |} |}.

Lemma service_runs : running noDuration unmarshal env [] [ disk ] service.
Proof. apply (running_start noDuration unmarshal env [] disk (current service)); vm_compute; reflexivity. Qed.

Definition paid (destination : string) : PolicyRequest := PolicyEngine.Simple.transfer "pro" destination "1000000000000000000".

Lemma approval_is_screened_witness :
  exists d, handleEvaluate told service 5000 "POST" (Some (paid "0xabc")) = (200, Decided d) /\ Approved d = true /\
  exists l, in_force unmarshal env [] [ disk ] l /\ 5000 - FetchedAt l < defaultDenyAfter.
Proof.
  destruct (handleEvaluate told service 5000 "POST" (Some (paid "0xabc"))) as [ code b ] eqn:E.
  assert (code = 200 /\ exists d, b = Decided d /\ Approved d = true) as (-> & d & -> & A)
    by (vm_compute in E; injection E as <- <-; split; [ reflexivity | eexists; split; reflexivity ]).
  destruct (approval_is_screened noDuration unmarshal told env [] simple_durations [ disk ] service defaultDenyAfter 5000 (paid "0xabc") 200 d
    service_runs eq_refl) as (_ & l & Fo & Age & _); [ exact E | exact A | ].
  exists d; split; [ reflexivity | ]; split; [ exact A | ]; exists l; split; [ exact Fo | apply Age; vm_compute; discriminate ].
Defined.

Lemma stopped_feed_is_refused_witness :
  exists d, handleEvaluate told service (1000 + defaultDenyAfter) "POST" (Some (paid "0xabc")) = (503, Decided d) /\ Approved d = false /\
    Denials d = [ "sanctions_list_stale" ].
Proof.
  apply (stopped_feed_is_refused noDuration unmarshal told env [] simple_durations [ disk ] service defaultDenyAfter 1000 (1000 + defaultDenyAfter) (paid "0xabc")
    service_runs eq_refl); [ vm_compute; discriminate | | reflexivity ].
  intros rd raw l _ _ D; unfold unmarshal in D; destruct (bool_decide _); [ injection D as <-; reflexivity | discriminate D ].
Defined.

Lemma list_file_is_whole_witness : forall fs', fs' ∈ fst synced ->
  wholeList marshal 1 ((∅ : Fs) !! "/data/list.json") (fs' !! "/data/list.json").
Proof.
  intros fs' I; apply (list_file_is_whole xml marshal ∅ "https://feed" "" "/data/list.json" 1 0 quiet [] fs').
  - intros f tmp [ -> | J ]%elem_of_cons T; [ injection T as <-; discriminate | apply elem_of_nil in J; destruct J ].
  - unfold main_; fold synced; rewrite synced_ok; cbn [fst Z.leb]; rewrite app_nil_r; exact I.
Defined.

(** A payment to the address in the remarks, in capitals. *)
Definition remarkedOne : PolicyRequest := paid "12QTD5BFWRSDNSAZY76UVE1XYCGNTOJH9H".


(** A list dated in the future is never too old. *)
Lemma future_list_is_served now :
  OK (status {| list_ := {| FetchedAt := now + 87600 * hour; Source := ""; PublishedAt := ""; Addresses := [ "0x" ]; Comment := "" |};
                path := "/data/list.json"; warnAfter := defaultWarnAfter; denyAfter := defaultDenyAfter; embedded := false |} now) = true.
Proof.
  rewrite status_refuses; [ | done | done ]; cbn [list_ FetchedAt denyAfter]; apply Z.ltb_lt; unfold defaultDenyAfter, hour, minute, second; lia.
Qed.

(** A file whose addresses are blank is accepted and screens nothing. *)
Definition blank : sanctionsList := {| FetchedAt := 1000; Source := ""; PublishedAt := ""; Addresses := [ " " ]; Comment := "" |}.

Lemma blank_list_is_loaded : exists e,
  newEvaluator noDuration (fun _ => Some blank) env (fun _ => Some []) [] = Ok e /\ query e = [].
Proof. eexists; split; vm_compute; reflexivity. Qed.

End Simple.

End Sanctions.
