(* ===== verification/Wire.v ===== *)
(** * Base-128 lengths and little-endian words

    The two integer encodings the wire formats of Solana.v and Cosmos.v share:
    seven bits to the byte, low group first, the top bit set while more
    follow; and fixed little-endian words ([encoding/binary]).  Each is read
    back from the front of whatever it is followed by. *)

From Stdlib Require Import ZArith Lia.
From stdpp Require Import base list numbers.
From S2P Require Import Prelude.

Open Scope Z_scope.

Module Wire.

(** ** Base 128 *)

Fixpoint uvarint (fuel : nat) (v : Z) : bytes :=
  let elem := Z.land v 127 in
  let rest := Z.shiftr v 7 in
  match fuel with
  | O => [ elem ]
  | S fuel => if rest =? 0 then [ elem ] else Z.lor elem 128 :: uvarint fuel rest
  end.

(** Reading at most [fuel] bytes. *)
Fixpoint read_uvarint (fuel : nat) (b : bytes) : option (Z * bytes) :=
  match fuel, b with
  | S fuel, x :: b =>
      if Z.land x 128 =? 0 then Some (Z.land x 127, b)
      else '(v, r) ← read_uvarint fuel b; Some (Z.land x 127 + 128 * v, r)
  | _, _ => None
  end.

Lemma low7 v : Z.land v 127 = v mod 128.
Proof. change 127 with (Z.ones 7); rewrite Z.land_ones by lia; done. Qed.

Lemma high_bit v : 0 <= v < 128 -> Z.lor v 128 = v + 128.
Proof.
  intros H; rewrite <- Z.lxor_lor; [ rewrite <- Z.add_nocarry_lxor; [ done | ] | ].
  all: apply Z.bits_inj'; intros n Hn; rewrite Z.land_spec, Z.bits_0; change 128 with (2 ^ 7); rewrite Z.pow2_bits_eqb by lia.
  all: destruct (Z.eqb_spec 7 n) as [ <- | ]; [ | apply andb_false_r ]; rewrite andb_true_r.
  all: apply Z.bits_above_log2; [ lia | ]; destruct (Z.eq_dec v 0) as [ -> | ]; [ done | apply Z.log2_lt_pow2; lia ].
Qed.

Lemma top_bit_clear x : 0 <= x < 128 -> (Z.land x 128 =? 0) = true.
Proof.
  intros H; apply Z.eqb_eq; apply Z.bits_inj'; intros n Hn; rewrite Z.land_spec, Z.bits_0; change 128 with (2 ^ 7).
  rewrite Z.pow2_bits_eqb by lia; destruct (Z.eqb_spec 7 n) as [ <- | ]; [ | apply andb_false_r ]; rewrite andb_true_r.
  apply Z.bits_above_log2; [ lia | ]; destruct (Z.eq_dec x 0) as [ -> | ]; [ done | apply Z.log2_lt_pow2; lia ].
Qed.

Lemma top_bit_set x : 0 <= x < 128 -> (Z.land (x + 128) 128 =? 0) = false /\ Z.land (x + 128) 127 = x.
Proof.
  intros H; split.
  - apply Z.eqb_neq; intros E; assert (Z.testbit (Z.land (x + 128) 128) 7 = false) as B by (rewrite E; apply Z.bits_0).
    rewrite Z.land_spec, andb_false_iff in B; destruct B as [ B | B ]; [ | done ].
    rewrite <- high_bit, Z.lor_spec in B by lia; change (Z.testbit 128 7) with true in B; rewrite orb_true_r in B; done.
  - rewrite low7, Z.add_mod, Z.mod_same, Z.add_0_r, Z.mod_mod by lia; apply Z.mod_small; lia.
Qed.

Lemma uvarint_ok fuel v : 0 <= v < 128 ^ (Z.of_nat fuel + 1) -> bytes_ok (uvarint fuel v).
Proof.
  revert v; induction fuel as [ | fuel IH ]; intros v H; cbn [uvarint]; rewrite low7; pose proof (Z.mod_pos_bound v 128 ltac:(lia)).
  - repeat constructor; unfold byte_ok; lia.
  - destruct (_ =? 0) eqn:E; [ repeat constructor; lia | ]; rewrite high_bit by lia; constructor; [ unfold byte_ok; lia | ].
    apply IH; rewrite Z.shiftr_div_pow2 by lia; change (2 ^ 7) with 128; split; [ apply Z.div_pos; lia | ].
    apply Z.div_lt_upper_bound; [ lia | ]; rewrite <- Z.pow_succ_r by lia; replace (Z.succ (Z.of_nat fuel + 1)) with (Z.of_nat (S fuel) + 1) by lia; lia.
Qed.

Lemma read_step fuel x b :
  read_uvarint (S fuel) (x :: b) =
  if Z.land x 128 =? 0 then Some (Z.land x 127, b) else '(v, r) ← read_uvarint fuel b; Some (Z.land x 127 + 128 * v, r).
Proof. done. Qed.

(** A number reads back from what it was written as, whatever follows. *)
Lemma read_write fuel v rest :
  0 <= v < 128 ^ (Z.of_nat fuel + 1) -> read_uvarint (S fuel) (uvarint fuel v ++ rest) = Some (v, rest).
Proof.
  revert v; induction fuel as [ | fuel IH ]; intros v H; cbn [uvarint]; rewrite low7; pose proof (Z.mod_pos_bound v 128 ltac:(lia)) as B.
  - change (128 ^ (Z.of_nat 0 + 1)) with 128 in H; rewrite Z.mod_small by lia; cbn; rewrite top_bit_clear by lia.
    rewrite low7, Z.mod_small by lia; done.
  - rewrite Z.shiftr_div_pow2 by lia; change (2 ^ 7) with 128; destruct (Z.eqb_spec (v / 128) 0) as [ E | E ].
    + apply Z.div_small_iff in E; [ | lia ]; rewrite Z.mod_small by lia; cbn; rewrite top_bit_clear by lia; rewrite low7, Z.mod_small by lia; done.
    + rewrite high_bit by lia; rewrite <- app_comm_cons, read_step; destruct (top_bit_set (v mod 128) ltac:(lia)) as [ -> -> ].
      rewrite IH.
      2: { split; [ apply Z.div_pos; lia | ]; apply Z.div_lt_upper_bound; [ lia | ]; rewrite <- Z.pow_succ_r by lia.
           replace (Z.succ (Z.of_nat fuel + 1)) with (Z.of_nat (S fuel) + 1) by lia; lia. }
      cbn; do 2 f_equal; pose proof (Z.div_mod v 128 ltac:(lia)); lia.
Qed.

(** ** Little-endian words *)

Fixpoint le_bytes (n : nat) (v : Z) : bytes :=
  match n with O => [] | S n => v mod 256 :: le_bytes n (v / 256) end.

Fixpoint le_val (b : bytes) : Z := match b with [] => 0 | x :: b => x + 256 * le_val b end.

Lemma le_val_bytes n v : 0 <= v < 256 ^ Z.of_nat n -> le_val (le_bytes n v) = v.
Proof.
  revert v; induction n as [ | n IH ]; intros v H; [ cbn in *; lia | ]; cbn [le_bytes le_val].
  rewrite IH; [ pose proof (Z.div_mod v 256 ltac:(lia)); lia | ]; split; [ apply Z.div_pos; lia | ].
  apply Z.div_lt_upper_bound; [ lia | ]; rewrite <- Z.pow_succ_r by lia; replace (Z.succ (Z.of_nat n)) with (Z.of_nat (S n)) by lia; lia.
Qed.

Lemma le_bytes_len n v : len (le_bytes n v) = Z.of_nat n.
Proof. unfold len; f_equal; revert v; induction n; intros; cbn; congruence. Qed.

Lemma le_bytes_ok n v : bytes_ok (le_bytes n v).
Proof.
  revert v; induction n as [ | n IH ]; intros v; [ constructor | ]; constructor; [ | apply IH ].
  unfold byte_ok; pose proof (Z.mod_pos_bound v 256); lia.
Qed.

(** ** Taking a prefix of known length *)

Definition take_n (n : nat) (b : bytes) : option (bytes * bytes) :=
  if (n <=? length b)%nat then Some (take n b, drop n b) else None.

Lemma take_n_app n a b : length a = n -> take_n n (a ++ b) = Some (a, b).
Proof.
  intros <-; unfold take_n; rewrite length_app; replace (length a <=? length a + length b)%nat with true by (symmetry; apply Nat.leb_le; lia).
  rewrite take_app_length, drop_app_length; done.
Qed.

End Wire.
