(* ===== verification/Solana.v ===== *)
(** * Solana: messages, transfers and tokens

    Models [services/mpc-signer/chains]: [solana.go] (legacy messages and
    Ed25519 signatures), [solana_transfer.go] (native transfers and the
    assembly of a transaction) and [solana_spl.go] (associated token accounts,
    token transfers and account layouts).

    Base58, Ed25519, SHA-256 and the test for points of the curve are
    parameters (btcutil, the standard library's primitives, edwards).

    What is shown: a message that is built says exactly what the request asks:
    read by the rules of the runtime it names the requested programs, accounts
    and data, in order, and grants each account the privileges asked for it and
    no others, the fee payer first; a transfer message moves the requested
    amount between the requested accounts; a transaction is assembled only with
    a signature of its fee payer over its own bytes. *)

From Stdlib Require Import ZArith Lia Ascii String.
From stdpp Require Import base list sets numbers strings.
From S2P Require Import Prelude GoStrings Wire.

Open Scope Z_scope.

Module Solana.
Import Wire.
#[local] Open Scope string_scope.
#[local] Open Scope list_scope.
#[local] Open Scope Z_scope.

(** ** Data ([chains/types.go]) *)

Record SolanaAccountMeta := { Pubkey : string; IsSigner : bool; IsWritable : bool }.
Record SolanaInstruction := { ProgramID : string; Accounts : list SolanaAccountMeta; Data : string }.
Record SolanaSignRequest := { Instructions : list SolanaInstruction; RecentBlockhash : string; FeePayer : string }.
Record Signature := { R : string; S_ : string; V : Z; SignatureBytes : string }.

Inductive SolErr : Type :=
  | EmptyMessage | KeyNotEncoded | KeyLength | NoSignature | PublicKeyLength | BadSignatureHex | SignatureLength
  | NoRecovery | NoFeePayer | NoInstruction | BadBlockhash | InvalidFeePayer | NoProgramID | BadAccount | BadProgram
  | TooManyAccounts | TooManyInstructions | BadData | DataTooLong | TooManyReferences
  | TooShort | NotOneSigner | NoAccountKeys | Truncated | BadCompact | NotSigned
  | ZeroAmount | SameAccount | BadProgramID | TooManySeeds | SeedTooLong | OnCurve | NoBump | BadWallet | BadMint
  | NotAMint | NotATokenAccount.

Definition strip0x (s : string) : string :=
  match s with
  | String c (String d t) => if Ascii.eqb c "0" && (Ascii.eqb d "x" || Ascii.eqb d "X") then t else s
  | _ => s
  end.

(** ** Compact lengths *)

Definition maxSolanaAccounts : Z := 255.
Definition maxSolanaCompactU16 : Z := 65535.

Definition writeCompactU16 (value : Z) : result SolErr bytes :=
  if (value <? 0) || (maxSolanaCompactU16 <? value) then Panic else Ok (uvarint 2 value).

(** [readCompactU16]: the value and how many bytes it took. *)
Fixpoint readLoop (fuel : nat) (i value : Z) (b : bytes) : result SolErr (Z * Z) :=
  match fuel, b with
  | S fuel, x :: b =>
      let value := Z.lor value (Z.shiftl (Z.land x 127) (7 * i)) in
      if Z.land x 128 =? 0 then Ok (value, i + 1) else readLoop fuel (i + 1) value b
  | _, _ => Err BadCompact
  end.

Definition readCompactU16 (b : bytes) : result SolErr (Z * Z) := readLoop 3 0 0 b.

Section Solana.
Context (b58decode : string -> bytes) (b58encode : bytes -> string).
Context (sha256 : bytes -> bytes) (isOnCurve : bytes -> bool).
Context (newKeyFromSeed : bytes -> bytes) (edSign : bytes -> bytes -> bytes) (edVerify : bytes -> bytes -> bytes -> bool).

(** ** Keys and signatures *)

Definition solanaPrivateKey (privKey : string) : result SolErr bytes :=
  let! raw :=
    match hex_decode (strip0x privKey) with
    | Some raw => Ok raw
    | None => let decoded := b58decode privKey in if 0 <? len decoded then Ok decoded else Err KeyNotEncoded
    end in
  if len raw =? 32 then Ok (newKeyFromSeed raw)
  else if len raw =? 64 then Ok raw
  else Err KeyLength.

Definition SignMessage (message : bytes) (privKey : string) : result SolErr Signature :=
  if len message =? 0 then Err EmptyMessage
  else
    let! key := solanaPrivateKey privKey in
    let sig := edSign key message in
    let! r := slice sig 0 32 in
    let! s := slice sig 32 (len sig) in
    Ok {| R := hex_encode r; S_ := hex_encode s; V := 0; SignatureBytes := hex_encode sig |}.

Definition VerifySignature (message : bytes) (signature : option Signature) (pubKey : string) : result SolErr bool :=
  match signature with
  | None => Err NoSignature
  | Some signature =>
      let pubKeyBytes :=
        match hex_decode (strip0x pubKey) with
        | Some b => if len b =? 32 then b else b58decode pubKey
        | None => b58decode pubKey
        end in
      if negb (len pubKeyBytes =? 32) then Err PublicKeyLength
      else
        match hex_decode (strip0x (SignatureBytes signature)) with
        | None => Err BadSignatureHex
        | Some sigBytes => if negb (len sigBytes =? 64) then Err SignatureLength else Ok (edVerify pubKeyBytes message sigBytes)
        end
  end.

Definition RecoverAddress (message : bytes) (signature : option Signature) : result SolErr string := Err NoRecovery.

Definition SolanaAddressFromPubKey (pubKey : bytes) : string := b58encode pubKey.

(** ** [BuildTransaction] *)

(** The map of accounts together with the order of its first insertions. *)
Record accountInfo := { pub : string; key : bytes; isSigner : bool; isWritable : bool }.

Fixpoint merge (pubkey : string) (k : bytes) (s w : bool) (accounts : list accountInfo) : list accountInfo :=
  match accounts with
  | [] => [ {| pub := pubkey; key := k; isSigner := s; isWritable := w |} ]
  | a :: rest =>
      if String.eqb (pub a) pubkey
      then {| pub := pub a; key := key a; isSigner := isSigner a || s; isWritable := isWritable a || w |} :: rest
      else a :: merge pubkey k s w rest
  end.

Definition upsert (accounts : list accountInfo) (pubkey : string) (s w : bool) : result SolErr (list accountInfo) :=
  let decoded := b58decode pubkey in
  if negb (len decoded =? 32) then Err BadAccount else Ok (merge pubkey decoded s w accounts).

Fixpoint upsertMetas (accounts : list accountInfo) (metas : list SolanaAccountMeta) : result SolErr (list accountInfo) :=
  match metas with
  | [] => Ok accounts
  | m :: metas => let! accounts := upsert accounts (Pubkey m) (IsSigner m) (IsWritable m) in upsertMetas accounts metas
  end.

Fixpoint upsertInstructions (accounts : list accountInfo) (instrs : list SolanaInstruction) : result SolErr (list accountInfo) :=
  match instrs with
  | [] => Ok accounts
  | i :: instrs =>
      if String.eqb (ProgramID i) "" then Err NoProgramID
      else let! accounts := upsertMetas accounts (Accounts i) in upsertInstructions accounts instrs
  end.

Fixpoint upsertPrograms (accounts : list accountInfo) (instrs : list SolanaInstruction) : result SolErr (list accountInfo) :=
  match instrs with
  | [] => Ok accounts
  | i :: instrs => let! accounts := map_err (fun _ => BadProgram) (upsert accounts (ProgramID i) false false) in upsertPrograms accounts instrs
  end.

Definition ofClass (s w : bool) (accounts : list accountInfo) : list accountInfo :=
  filter (fun a => isSigner a = s /\ isWritable a = w) accounts.

Definition orderAccounts (accounts : list accountInfo) : list accountInfo :=
  ofClass true true accounts ++ ofClass true false accounts ++ ofClass false true accounts ++ ofClass false false accounts.

(** [indexOf]: zero for what is not in the map. *)
Definition indexOf (ordered : list accountInfo) (pubkey : string) : Z :=
  match list_find (fun a => pub a = pubkey) ordered with Some (i, _) => Z.of_nat i | None => 0 end.

Definition encodeInstruction (ordered : list accountInfo) (instr : SolanaInstruction) : result SolErr bytes :=
  let program := u8 (indexOf ordered (ProgramID instr)) in
  let! count := writeCompactU16 (len (Accounts instr)) in
  let refs := map (fun a => u8 (indexOf ordered (Pubkey a))) (Accounts instr) in
  match hex_decode (strip0x (Data instr)) with
  | None => Err BadData
  | Some data =>
      if maxSolanaCompactU16 <? len data then Err DataTooLong
      else if maxSolanaCompactU16 <? len (Accounts instr) then Err TooManyReferences
      else let! size := writeCompactU16 (len data) in Ok ([ program ] ++ count ++ refs ++ size ++ data)
  end.

Fixpoint encodeInstructions (ordered : list accountInfo) (instrs : list SolanaInstruction) : result SolErr bytes :=
  match instrs with
  | [] => Ok []
  | i :: instrs => let! b := encodeInstruction ordered i in let! rest := encodeInstructions ordered instrs in Ok (b ++ rest)
  end.

Definition BuildTransaction (req : SolanaSignRequest) : result SolErr bytes :=
  if String.eqb (FeePayer req) "" then Err NoFeePayer
  else if len (Instructions req) =? 0 then Err NoInstruction
  else
    let blockhash := b58decode (RecentBlockhash req) in
    if negb (len blockhash =? 32) then Err BadBlockhash
    else
      let! accounts := map_err (fun _ => InvalidFeePayer) (upsert [] (FeePayer req) true true) in
      let! accounts := upsertInstructions accounts (Instructions req) in
      let! accounts := upsertPrograms accounts (Instructions req) in
      let ordered := orderAccounts accounts in
      if maxSolanaAccounts <? len ordered then Err TooManyAccounts
      else if maxSolanaCompactU16 <? len (Instructions req) then Err TooManyInstructions
      else
        let writableSigners := len (ofClass true true accounts) in
        let readonlySigners := len (ofClass true false accounts) in
        let readonlyOthers := len (ofClass false false accounts) in
        let! count := writeCompactU16 (len ordered) in
        let! instructions := writeCompactU16 (len (Instructions req)) in
        let! body := encodeInstructions ordered (Instructions req) in
        Ok ([ u8 (writableSigners + readonlySigners); u8 readonlySigners; u8 readonlyOthers ] ++
            count ++ flat_map key ordered ++ blockhash ++ instructions ++ body).

(** ** Native transfers *)

Definition SystemProgramID : string := "11111111111111111111111111111111".
Definition SolanaRentExemptMinimumLamports : Z := 890880.

Record SolanaTransfer := { tFrom : string; tTo : string; tLamports : Z; tBlockhash : string }.

(** System instruction 2: a 32-bit index, then the lamports. *)
Definition transferData (lamports : Z) : bytes := le_bytes 4 2 ++ le_bytes 8 lamports.

Definition transferRequest (t : SolanaTransfer) : SolanaSignRequest := {|
  FeePayer := tFrom t; RecentBlockhash := tBlockhash t;
  Instructions := [ {| ProgramID := SystemProgramID;
    Accounts := [ {| Pubkey := tFrom t; IsSigner := true; IsWritable := true |}; {| Pubkey := tTo t; IsSigner := false; IsWritable := true |} ];
    Data := hex_encode (transferData (tLamports t)) |} ] |}.

Definition BuildSolanaTransferMessage (t : SolanaTransfer) : result SolErr bytes :=
  if tLamports t =? 0 then Err ZeroAmount
  else if String.eqb (tFrom t) (tTo t) then Err SameAccount
  else BuildTransaction (transferRequest t).

(** ** Assembly *)

Definition SolanaMessageFeePayer (message : bytes) : result SolErr bytes :=
  if len message <? 3 then Err TooShort
  else
    let! signers := index message 0 in
    if negb (signers =? 1) then Err NotOneSigner
    else
      let! rest := slice message 3 (len message) in
      match readCompactU16 rest with
      | Ok (n, read) =>
          if n <? 1 then Err NoAccountKeys
          else
            let start := 3 + read in
            if len message <? start + 32 then Err Truncated else slice message start (start + 32)
      | Err _ => Err NoAccountKeys
      | Panic => Panic
      end.

Definition AssembleSolanaTransaction (message signature : bytes) : result SolErr bytes :=
  if negb (len signature =? 64) then Err SignatureLength
  else
    let! payer := SolanaMessageFeePayer message in
    if negb (edVerify payer message signature) then Err NotSigned
    else let! count := writeCompactU16 1 in Ok (count ++ signature ++ message).

Definition SolanaSignatureID (signature : bytes) : string := b58encode signature.

(** ** Tokens *)

Definition TokenProgramID : string := "TokenkegQfeZyiNwAJbNbGKPFXCWuBvf9Ss623VQ5DA".
Definition Token2022ProgramID : string := "TokenzQdBNbLqP5VEhdkAS6EPFLC1PHnBqCXEpPxuEb".
Definition AssociatedTokenAccountProgramID : string := "ATokenGPvbdGVxr1b2hvZbsiqW5xWH25efTNsLJA8knL".
Definition SPLMintSize : Z := 82.
Definition SPLTokenAccountSize : Z := 165.

Definition CreateProgramAddress (seeds : list bytes) (programID : string) : result SolErr string :=
  let program := b58decode programID in
  if negb (len program =? 32) then Err BadProgramID
  else if 16 <? len seeds then Err TooManySeeds
  else if existsb (fun s => 32 <? len s) seeds then Err SeedTooLong
  else
    let sum := sha256 (List.concat seeds ++ program ++ to_bytes "ProgramDerivedAddress") in
    if isOnCurve sum then Err OnCurve else Ok (b58encode sum).

(** The bumps from [bump] down to zero. *)
Fixpoint findBump (bump : nat) (seeds : list bytes) (programID : string) : result SolErr (string * Z) :=
  match CreateProgramAddress (seeds ++ [ [ Z.of_nat bump ] ]) programID with
  | Ok addr => Ok (addr, Z.of_nat bump)
  | _ => match bump with O => Err NoBump | S bump => findBump bump seeds programID end
  end.

Definition FindProgramAddress (seeds : list bytes) (programID : string) : result SolErr (string * Z) := findBump 255 seeds programID.

Definition AssociatedTokenAddress (wallet mint : string) : result SolErr string :=
  let w := b58decode wallet in
  let m := b58decode mint in
  let tp := b58decode TokenProgramID in
  if negb (len w =? 32) then Err BadWallet
  else if negb (len m =? 32) then Err BadMint
  else let! found := FindProgramAddress [ w; tp; m ] AssociatedTokenAccountProgramID in Ok (fst found).

Record SolanaTokenTransfer := {
  kFrom : string; kTo : string; kMint : string; kAmount : Z; kDecimals : Z; kBlockhash : string }.
Record SolanaTokenTransferPlan := { Message : bytes; SourceTokenAccount : string; DestTokenAccount : string }.

(** Token instruction 12: a tag, the amount, the decimals. *)
Definition transferChecked (amount decimals : Z) : bytes := [ 12 ] ++ le_bytes 8 amount ++ [ decimals ].

Definition account (p : string) (s w : bool) : SolanaAccountMeta := {| Pubkey := p; IsSigner := s; IsWritable := w |}.

Definition tokenRequest (t : SolanaTokenTransfer) (src dst : string) : SolanaSignRequest := {|
  FeePayer := kFrom t; RecentBlockhash := kBlockhash t;
  Instructions := [
    {| ProgramID := AssociatedTokenAccountProgramID;
       Accounts := [ account (kFrom t) true true; account dst false true; account (kTo t) false false; account (kMint t) false false;
                     account SystemProgramID false false; account TokenProgramID false false ];
       Data := "01" |};
    {| ProgramID := TokenProgramID;
       Accounts := [ account src false true; account (kMint t) false false; account dst false true; account (kFrom t) true false ];
       Data := hex_encode (transferChecked (kAmount t) (kDecimals t)) |} ] |}.

Definition BuildSolanaTokenTransferMessage (t : SolanaTokenTransfer) : result SolErr SolanaTokenTransferPlan :=
  if kAmount t =? 0 then Err ZeroAmount
  else if String.eqb (kFrom t) (kTo t) then Err SameAccount
  else
    let! src := AssociatedTokenAddress (kFrom t) (kMint t) in
    let! dst := AssociatedTokenAddress (kTo t) (kMint t) in
    let! msg := BuildTransaction (tokenRequest t src dst) in
    Ok {| Message := msg; SourceTokenAccount := src; DestTokenAccount := dst |}.

Record SPLMint := { Supply : Z; Decimals : Z; Initialized : bool }.

Definition ParseSPLMint (data : bytes) : result SolErr SPLMint :=
  if negb (len data =? SPLMintSize) then Err NotAMint
  else
    let! supply := slice data 36 44 in
    let! decimals := index data 44 in
    let! init := index data 45 in
    Ok {| Supply := le_val supply; Decimals := decimals; Initialized := init =? 1 |}.

Record SPLTokenAccount := { Mint : string; Owner : string; Amount : Z; State : Z }.

Definition ParseSPLTokenAccount (data : bytes) : result SolErr SPLTokenAccount :=
  if negb (len data =? SPLTokenAccountSize) then Err NotATokenAccount
  else
    let! mint := slice data 0 32 in
    let! owner := slice data 32 64 in
    let! amount := slice data 64 72 in
    let! state := index data 108 in
    Ok {| Mint := b58encode mint; Owner := b58encode owner; Amount := le_val amount; State := state |}.

(** ** A message as the runtime reads it *)

Record CompiledInstruction := { programIndex : Z; accountIndexes : bytes; idata : bytes }.
Record LegacyMessage := {
  requiredSignatures : Z; readonlySigned : Z; readonlyUnsigned : Z;
  accountKeys : list bytes; recent : bytes; compiled : list CompiledInstruction }.

Fixpoint read_keys (n : nat) (b : bytes) : option (list bytes * bytes) :=
  match n with
  | O => Some ([], b)
  | S n => '(k, b) ← take_n 32 b; '(ks, b) ← read_keys n b; Some (k :: ks, b)
  end.

Definition read_instruction (b : bytes) : option (CompiledInstruction * bytes) :=
  '(p, b) ← take_n 1 b;
  '(n, b) ← read_uvarint 3 b;
  '(refs, b) ← take_n (Z.to_nat n) b;
  '(m, b) ← read_uvarint 3 b;
  '(d, b) ← take_n (Z.to_nat m) b;
  Some ({| programIndex := default 0 (head p); accountIndexes := refs; idata := d |}, b).

Fixpoint read_instructions (n : nat) (b : bytes) : option (list CompiledInstruction * bytes) :=
  match n with
  | O => Some ([], b)
  | S n => '(i, b) ← read_instruction b; '(l, b) ← read_instructions n b; Some (i :: l, b)
  end.

Definition read_message (b : bytes) : option LegacyMessage :=
  '(h, b) ← take_n 3 b;
  '(n, b) ← read_uvarint 3 b;
  '(keys, b) ← read_keys (Z.to_nat n) b;
  '(bh, b) ← take_n 32 b;
  '(m, b) ← read_uvarint 3 b;
  '(l, b) ← read_instructions (Z.to_nat m) b;
  if len b =? 0 then
    Some {| requiredSignatures := default 0 (h !! 0%nat); readonlySigned := default 0 (h !! 1%nat); readonlyUnsigned := default 0 (h !! 2%nat);
            accountKeys := keys; recent := bh; compiled := l |}
  else None.

(** The privileges the header gives the account at a place of the table. *)
Definition signs (m : LegacyMessage) (i : nat) : bool := Z.of_nat i <? requiredSignatures m.
Definition writes (m : LegacyMessage) (i : nat) : bool :=
  (Z.of_nat i <? requiredSignatures m - readonlySigned m) ||
  ((requiredSignatures m <=? Z.of_nat i) && (Z.of_nat i <? len (accountKeys m) - readonlyUnsigned m)).

(** ** Gathering the accounts *)

Definition mentions (req : SolanaSignRequest) : list SolanaAccountMeta :=
  account (FeePayer req) true true :: flat_map Accounts (Instructions req) ++
  map (fun i => account (ProgramID i) false false) (Instructions req).

Definition add (accounts : list accountInfo) (m : SolanaAccountMeta) : list accountInfo :=
  merge (Pubkey m) (b58decode (Pubkey m)) (IsSigner m) (IsWritable m) accounts.

Definition gather (ms : list SolanaAccountMeta) : list accountInfo := fold_left add ms [].

Definition decodes (m : SolanaAccountMeta) : Prop := length (b58decode (Pubkey m)) = 32%nat.

Lemma upsert_ok accounts p s w accounts' :
  upsert accounts p s w = Ok accounts' -> accounts' = add accounts (account p s w) /\ decodes (account p s w).
Proof.
  unfold upsert; destruct (_ =? 32) eqn:E; [ | done ]; intros [= <-]; split; [ done | ].
  unfold decodes, len in *; cbn; b2p; lia.
Qed.

Lemma upsertMetas_ok metas : forall accounts accounts',
  upsertMetas accounts metas = Ok accounts' -> accounts' = fold_left add metas accounts /\ Forall decodes metas.
Proof.
  induction metas as [ | m metas IH ]; intros accounts accounts'; cbn [upsertMetas]; [ intros [= <-]; done | ].
  destruct (upsert _ _ _ _) as [ a | | ] eqn:U; cbn [result_bind]; [ | done | done ].
  apply upsert_ok in U as [ -> D ]; intros [ -> F ]%IH; split; [ destruct m; done | constructor; [ destruct m; exact D | exact F ] ].
Qed.

Lemma upsertInstructions_ok instrs : forall accounts accounts',
  upsertInstructions accounts instrs = Ok accounts' ->
  accounts' = fold_left add (flat_map Accounts instrs) accounts /\ Forall decodes (flat_map Accounts instrs).
Proof.
  induction instrs as [ | i instrs IH ]; intros accounts accounts'; cbn [upsertInstructions flat_map]; [ intros [= <-]; done | ].
  destruct (String.eqb _ _); [ done | ]; destruct (upsertMetas _ _) as [ a | | ] eqn:U; cbn [result_bind]; [ | done | done ].
  apply upsertMetas_ok in U as [ -> D ]; intros [ -> F ]%IH; rewrite fold_left_app, Forall_app; done.
Qed.

Lemma upsertPrograms_ok instrs : forall accounts accounts',
  upsertPrograms accounts instrs = Ok accounts' ->
  let ps := map (fun i => account (ProgramID i) false false) instrs in
  accounts' = fold_left add ps accounts /\ Forall decodes ps.
Proof.
  induction instrs as [ | i instrs IH ]; intros accounts accounts'; cbn [upsertPrograms map]; [ intros [= <-]; done | ].
  destruct (upsert _ _ _ _) as [ a | | ] eqn:U; cbn [result_bind map_err]; [ | done | done ].
  apply upsert_ok in U as [ -> D ]; intros [ -> F ]%IH; split; [ done | constructor; done ].
Qed.

(** The entry of an account. *)
Fixpoint entry (p : string) (l : list accountInfo) : option accountInfo :=
  match l with [] => None | a :: r => if String.eqb (pub a) p then Some a else entry p r end.

Lemma entry_merge q p k s w l :
  entry q (merge p k s w l) =
  if String.eqb p q then
    Some (match entry p l with
          | None => {| pub := p; key := k; isSigner := s; isWritable := w |}
          | Some a => {| pub := pub a; key := key a; isSigner := isSigner a || s; isWritable := isWritable a || w |}
          end)
  else entry q l.
Proof.
  induction l as [ | a l IH ]; cbn; [ destruct (String.eqb p q); done | ].
  destruct (String.eqb_spec (pub a) p) as [ E | E ]; cbn [entry pub].
  - rewrite E; destruct (String.eqb_spec p q); done.
  - destruct (String.eqb_spec (pub a) q) as [ E' | E' ]; [ destruct (String.eqb_spec p q); [ congruence | done ] | rewrite IH; done ].
Qed.

Lemma pubs_merge p k s w l :
  pub <$> merge p k s w l = if bool_decide (p ∈ pub <$> l) then pub <$> l else (pub <$> l) ++ [ p ].
Proof.
  induction l as [ | a l IH ]; [ done | ]; cbn [merge]; destruct (String.eqb_spec (pub a) p) as [ E | E ].
  - rewrite bool_decide_eq_true_2; [ done | rewrite fmap_cons, E; left ].
  - rewrite !fmap_cons, IH; destruct (bool_decide_reflect (p ∈ pub <$> l)) as [ I | I ].
    + rewrite bool_decide_eq_true_2; [ done | right; done ].
    + rewrite bool_decide_eq_false_2; [ done | intros [ ? | ? ]%elem_of_cons; congruence ].
Qed.

Lemma NoDup_merge p k s w l : NoDup (pub <$> l) -> NoDup (pub <$> merge p k s w l).
Proof.
  intros H; rewrite pubs_merge; destruct (bool_decide_reflect (p ∈ pub <$> l)) as [ I | I ]; [ done | ].
  apply NoDup_app; split; [ done | ]; split; [ | apply NoDup_singleton ]; intros x Ix ->%list_elem_of_singleton; done.
Qed.

Lemma NoDup_gather ms : NoDup (pub <$> gather ms).
Proof.
  unfold gather; assert (NoDup (pub <$> @nil accountInfo)) as N by apply NoDup_nil_2; revert N; generalize (@nil accountInfo).
  induction ms as [ | m ms IH ]; intros l N; [ exact N | ]; cbn; apply IH, NoDup_merge, N.
Qed.

Lemma entry_elem l a : NoDup (pub <$> l) -> a ∈ l <-> entry (pub a) l = Some a.
Proof.
  induction l as [ | b l IH ]; cbn [entry]; [ intros _; split; [ intros H; apply elem_of_nil in H; done | done ] | ].
  rewrite fmap_cons, NoDup_cons; intros [ N D ]; rewrite elem_of_cons; destruct (String.eqb_spec (pub b) (pub a)) as [ E | E ].
  - split; [ intros [ -> | I ]; [ done | ] | intros [= ->]; auto ]; exfalso; apply N; rewrite E; apply list_elem_of_fmap; eauto.
  - rewrite <- IH by done; split; [ intros [ -> | I ]; done | auto ].
Qed.

(** Mentioned as a signer, as writable. *)
Definition named (p : string) (ms : list SolanaAccountMeta) : bool := existsb (fun m => String.eqb (Pubkey m) p) ms.
Definition flagged (flag : SolanaAccountMeta -> bool) (p : string) (ms : list SolanaAccountMeta) : bool :=
  existsb (fun m => String.eqb (Pubkey m) p && flag m) ms.

Lemma entry_gather p ms :
  entry p (gather ms) =
  if named p ms then Some {| pub := p; key := b58decode p; isSigner := flagged IsSigner p ms; isWritable := flagged IsWritable p ms |} else None.
Proof.
  unfold gather, named, flagged; induction ms as [ | m ms IH ] using rev_ind; [ done | ].
  rewrite fold_left_app; cbn [fold_left]; unfold add at 1; rewrite entry_merge, !existsb_app; cbn [existsb]; rewrite !orb_false_r.
  destruct (String.eqb_spec (Pubkey m) p) as [ -> | E ]; cbn [andb]; [ rewrite orb_true_r | rewrite !orb_false_r; exact IH ].
  rewrite IH; destruct (existsb (fun m => String.eqb (Pubkey m) p) ms) eqn:N; [ done | ].
  assert (forall flag, existsb (fun m0 => String.eqb (Pubkey m0) p && flag m0) ms = false) as F; [ | rewrite !F; done ].
  intros flag; clear -N; induction ms as [ | x ms IH ]; [ done | ]; cbn in *; apply orb_false_iff in N as [ -> N ]; cbn; auto.
Qed.

Lemma gather_elem ms a :
  a ∈ gather ms <-> named (pub a) ms = true /\ key a = b58decode (pub a) /\
    isSigner a = flagged IsSigner (pub a) ms /\ isWritable a = flagged IsWritable (pub a) ms.
Proof.
  rewrite (entry_elem _ _ (NoDup_gather ms)), entry_gather; destruct a as [ p k s w ]; cbn [pub key isSigner isWritable].
  destruct (named p ms); [ | split; [ done | intros (? & _); done ] ].
  split; [ intros E; assert (b58decode p = k /\ flagged IsSigner p ms = s /\ flagged IsWritable p ms = w) as (<- & <- & <-) by (split_and!; congruence); done | ].
  intros (_ & -> & -> & ->); done.
Qed.

Lemma gather_head m ms : exists a rest, gather (m :: ms) = a :: rest /\ pub a = Pubkey m /\
  (IsSigner m = true -> isSigner a = true) /\ (IsWritable m = true -> isWritable a = true).
Proof.
  unfold gather; cbn [fold_left add merge].
  set (a0 := {| pub := Pubkey m; key := b58decode (Pubkey m); isSigner := IsSigner m; isWritable := IsWritable m |}).
  assert (exists a rest, [ a0 ] = a :: rest /\ pub a = Pubkey m /\ (IsSigner m = true -> isSigner a = true) /\ (IsWritable m = true -> isWritable a = true)) as H
    by (exists a0, []; auto).
  revert H; generalize [ a0 ]; induction ms as [ | x ms IH ]; intros l H; [ exact H | ]; cbn [fold_left]; apply IH.
  destruct H as (a & rest & -> & P & S & W); unfold add; cbn [merge]; destruct (String.eqb _ _); eexists _, _; (split; [ reflexivity | ]); cbn; split_and!; auto.
  all: intros X; apply orb_true_iff; auto.
Qed.

(** ** The account table *)

Lemma elem_of_class s w l a : a ∈ ofClass s w l <-> (isSigner a = s /\ isWritable a = w) /\ a ∈ l.
Proof. unfold ofClass; rewrite list_elem_of_filter; done. Qed.

Lemma elem_of_ordered l a : a ∈ orderAccounts l <-> a ∈ l.
Proof.
  unfold orderAccounts; rewrite !elem_of_app, !elem_of_class; destruct (isSigner a), (isWritable a); intuition congruence.
Qed.

Lemma NoDup_class s w l : NoDup (pub <$> l) -> NoDup (pub <$> ofClass s w l).
Proof.
  unfold ofClass; induction l as [ | a l IH ]; [ done | ]; rewrite fmap_cons, NoDup_cons, filter_cons; intros [ N D ].
  destruct (decide _); [ | auto ]; rewrite fmap_cons, NoDup_cons; split; [ | auto ].
  intros I; apply N; apply list_elem_of_fmap in I as (b & E & I); apply list_elem_of_filter in I as [ _ I ]; rewrite E; apply list_elem_of_fmap; eauto.
Qed.

Lemma NoDup_ordered l : NoDup (pub <$> l) -> NoDup (pub <$> orderAccounts l).
Proof.
  intros D; unfold orderAccounts; rewrite !fmap_app, !NoDup_app.
  assert (forall s w s' w' x, x ∈ pub <$> ofClass s w l -> x ∈ pub <$> ofClass s' w' l -> s = s' /\ w = w') as X.
  { intros s w s' w' x I J; apply list_elem_of_fmap in I as (a & -> & I); apply list_elem_of_fmap in J as (b & E & J).
    apply elem_of_class in I as [ [ <- <- ] I ]; apply elem_of_class in J as [ [ <- <- ] J ].
    apply (entry_elem _ _ D) in I, J; rewrite E in I; assert (a = b) as -> by congruence; done. }
  clear - D X; split_and!; auto using NoDup_class; intros x I; rewrite ?elem_of_app; intuition (eapply X in I; [ | eassumption ]; naive_solver).
Qed.

(** The header says of each place what the account is. *)
Lemma header_flags l i a (m : LegacyMessage) :
  orderAccounts l !! i = Some a ->
  requiredSignatures m = len (ofClass true true l) + len (ofClass true false l) ->
  readonlySigned m = len (ofClass true false l) -> readonlyUnsigned m = len (ofClass false false l) ->
  len (accountKeys m) = len (orderAccounts l) ->
  signs m i = isSigner a /\ writes m i = isWritable a.
Proof.
  intros L Hr Hs Hu Hk; unfold signs, writes; rewrite Hr, Hs, Hu, Hk; revert L; unfold orderAccounts; rewrite !len_app.
  assert (forall s w j, ofClass s w l !! j = Some a -> isSigner a = s /\ isWritable a = w /\ (j < length (ofClass s w l))%nat) as C.
  { intros s w j J; pose proof (list_elem_of_lookup_2 _ _ _ J) as I; apply elem_of_class in I as [ [ ? ? ] _ ]; eauto using lookup_lt_Some. }
  unfold len; rewrite !lookup_app_Some.
  intros [ L | [ B1 [ L | [ B2 [ L | [ B3 L ] ] ] ] ] ]; apply C in L as (-> & -> & B); cbn [andb orb]; split;
    repeat match goal with
    | |- context [ ?x <? ?y ] => destruct (Z.ltb_spec x y); try lia
    | |- context [ ?x <=? ?y ] => destruct (Z.leb_spec x y); try lia
    end; done.
Qed.

Lemma indexOf_spec ordered p :
  p ∈ pub <$> ordered -> (pub <$> ordered) !! Z.to_nat (indexOf ordered p) = Some p /\ 0 <= indexOf ordered p < len ordered.
Proof.
  intros I; unfold indexOf; apply list_elem_of_fmap in I as (a & -> & I).
  destruct (list_find_elem_of (fun b => pub b = pub a) ordered a I eq_refl) as ([ i b ] & F); rewrite F.
  apply list_find_Some in F as (L & E & _); rewrite Nat2Z.id, list_lookup_fmap, L; cbn; rewrite E; split; [ done | ].
  apply lookup_lt_Some in L; unfold len; lia.
Qed.

(** ** Reading back *)

Lemma compact_ok v b : writeCompactU16 v = Ok b -> 0 <= v <= 65535 /\ b = uvarint 2 v.
Proof. unfold writeCompactU16, maxSolanaCompactU16; destruct (_ || _) eqn:E; [ done | ]; intros [= <-]; b2p; split; [ lia | done ]. Qed.

Lemma read_compact v rest : 0 <= v <= 65535 -> read_uvarint 3 (uvarint 2 v ++ rest) = Some (v, rest).
Proof. intros H; apply read_write; cbn; lia. Qed.

Lemma read_keys_app ks rest : Forall (fun k => length k = 32%nat) ks -> read_keys (length ks) (List.concat ks ++ rest) = Some (ks, rest).
Proof.
  induction 1 as [ | k ks H _ IH ]; [ done | ]; cbn [length read_keys List.concat]; rewrite <- app_assoc, take_n_app by done; cbn; rewrite IH; done.
Qed.

Definition instruction_is (table : list string) (i : SolanaInstruction) (c : CompiledInstruction) : Prop :=
  table !! Z.to_nat (programIndex c) = Some (ProgramID i) /\
  Forall2 (fun a ix => table !! Z.to_nat ix = Some (Pubkey a)) (Accounts i) (accountIndexes c) /\
  hex_decode (strip0x (Data i)) = Some (idata c).

Section Table.
Context (ordered : list accountInfo) (few : len ordered <= 255).

Let table : list string := pub <$> ordered.

Lemma small_index p : p ∈ table -> u8 (indexOf ordered p) = indexOf ordered p.
Proof. intros I; destruct (indexOf_spec _ _ I) as [ _ B ]; unfold u8; apply Z.mod_small; lia. Qed.

Lemma read_instruction_ok i b rest :
  encodeInstruction ordered i = Ok b -> ProgramID i ∈ table -> Forall (fun a => Pubkey a ∈ table) (Accounts i) ->
  exists c, read_instruction (b ++ rest) = Some (c, rest) /\ instruction_is table i c.
Proof.
  unfold encodeInstruction; destruct (writeCompactU16 (len (Accounts i))) as [ count | | ] eqn:Wc; cbn [result_bind]; [ | done | done ].
  apply compact_ok in Wc as [ Bc -> ]; destruct (hex_decode _) as [ data | ] eqn:Hd; [ | done ].
  destruct (_ <? len data); [ done | ]; destruct (_ <? _); [ done | ].
  destruct (writeCompactU16 (len data)) as [ size | | ] eqn:Ws; cbn [result_bind]; [ | done | done ].
  apply compact_ok in Ws as [ Bs -> ]; intros E P A; assert (b = [ u8 (indexOf ordered (ProgramID i)) ] ++ uvarint 2 (len (Accounts i)) ++
    map (fun a => u8 (indexOf ordered (Pubkey a))) (Accounts i) ++ uvarint 2 (len data) ++ data) as -> by congruence; clear E.
  eexists; split.
  - unfold read_instruction; rewrite <- !app_assoc, take_n_app by done; cbn [mbind option_bind]; rewrite read_compact by done; cbn [mbind option_bind].
    rewrite take_n_app by (rewrite length_map; unfold len; lia); cbn [mbind option_bind]; rewrite read_compact by done; cbn [mbind option_bind].
    rewrite take_n_app by (unfold len; lia); reflexivity.
  - cbn [head default]; split; [ cbn; rewrite small_index by done; apply indexOf_spec, P | split; [ | exact Hd ] ]; cbn [accountIndexes].
    clear -A few; induction A as [ | a l I _ IH ]; [ constructor | ]; constructor; [ rewrite small_index by done; apply indexOf_spec, I | exact IH ].
Qed.

Lemma read_instructions_ok instrs : forall b rest,
  encodeInstructions ordered instrs = Ok b ->
  Forall (fun i => ProgramID i ∈ table /\ Forall (fun a => Pubkey a ∈ table) (Accounts i)) instrs ->
  exists cs, read_instructions (length instrs) (b ++ rest) = Some (cs, rest) /\ Forall2 (instruction_is table) instrs cs.
Proof.
  induction instrs as [ | i instrs IH ]; intros b rest E F; cbn [encodeInstructions] in E; [ injection E as <-; exists []; auto | ].
  destruct (encodeInstruction ordered i) as [ bi | | ] eqn:Ei; cbn [result_bind] in E; [ | done | done ].
  destruct (encodeInstructions ordered instrs) as [ br | | ] eqn:Er; cbn [result_bind] in E; [ | done | done ]; injection E as <-.
  apply Forall_cons in F as [ [ P A ] F ]; destruct (IH br rest eq_refl F) as (cs & R & I).
  destruct (read_instruction_ok i bi (br ++ rest) Ei P A) as (c & Rc & Ic); exists (c :: cs); split; [ | constructor; done ].
  cbn [length read_instructions]; rewrite <- app_assoc, Rc; cbn; rewrite R; done.
Qed.

End Table.

(** ** What a message says *)

(** Whether the request asks a privilege for an account. *)
Definition asks (flag : SolanaAccountMeta -> bool) (req : SolanaSignRequest) (p : string) : Prop :=
  p = FeePayer req \/ exists i a, i ∈ Instructions req /\ a ∈ Accounts i /\ Pubkey a = p /\ flag a = true.

Lemma flagged_asks flag req p :
  flag (account (FeePayer req) true true) = true -> (forall q, flag (account q false false) = false) ->
  flagged flag p (mentions req) = true <-> asks flag req p.
Proof.
  intros T N; unfold flagged, mentions, asks; cbn [existsb Pubkey account]; fold (account (FeePayer req) true true); rewrite T, andb_true_r, orb_true_iff, String.eqb_eq, existsb_app, orb_true_iff.
  rewrite !existsb_exists; split.
  - intros [ <- | [ (m & I & [ E F ]%andb_true_iff) | (m & I & [ E F ]%andb_true_iff) ] ]; [ auto | right | exfalso ].
    + apply in_flat_map in I as (i & Ii & Ia); exists i, m; rewrite !list_elem_of_In; apply String.eqb_eq in E; auto.
    + apply in_map_iff in I as (i & <- & _); rewrite N in F; done.
  - intros [ -> | (i & a & Ii & Ia & <- & F) ]; [ auto | right; left ]; exists a; rewrite F, String.eqb_refl; split; [ | done ].
    apply in_flat_map; exists i; rewrite <- !list_elem_of_In; auto.
Qed.

Lemma build_gathers req msg :
  BuildTransaction req = Ok msg ->
  let accounts := gather (mentions req) in
  let ordered := orderAccounts accounts in
  Forall decodes (mentions req) /\ len ordered <= 255 /\ len (Instructions req) <= 65535 /\ length (b58decode (RecentBlockhash req)) = 32%nat /\
  exists body, encodeInstructions ordered (Instructions req) = Ok body /\
    msg = [ u8 (len (ofClass true true accounts) + len (ofClass true false accounts)); u8 (len (ofClass true false accounts));
            u8 (len (ofClass false false accounts)) ] ++
          uvarint 2 (len ordered) ++ flat_map key ordered ++ b58decode (RecentBlockhash req) ++ uvarint 2 (len (Instructions req)) ++ body.
Proof.
  unfold BuildTransaction; destruct (String.eqb _ _); [ done | ]; destruct (_ =? 0); [ done | ]; cbv zeta.
  destruct (len (b58decode (RecentBlockhash req)) =? 32) eqn:Bh; [ | done ]; cbn [negb].
  destruct (upsert [] _ true true) as [ a0 | | ] eqn:U0; cbn [result_bind map_err]; [ | done | done ]; apply upsert_ok in U0 as [ -> D0 ].
  destruct (upsertInstructions _ _) as [ a1 | | ] eqn:U1; cbn [result_bind]; [ | done | done ]; apply upsertInstructions_ok in U1 as [ -> D1 ].
  destruct (upsertPrograms _ _) as [ a2 | | ] eqn:U2; cbn [result_bind]; [ | done | done ]; apply upsertPrograms_ok in U2 as [ -> D2 ].
  rewrite <- fold_left_app; change (fold_left add (?l) (add [] ?m)) with (gather (m :: l)); fold (mentions req).
  unfold maxSolanaAccounts, maxSolanaCompactU16; set (ordered := orderAccounts (gather (mentions req))).
  destruct (Z.ltb_spec 255 (len ordered)); [ done | ]; destruct (Z.ltb_spec 65535 (len (Instructions req))); [ done | ].
  destruct (writeCompactU16 (len ordered)) as [ c1 | | ] eqn:C1; cbn [result_bind]; [ | done | done ]; apply compact_ok in C1 as [ _ -> ].
  destruct (writeCompactU16 (len (Instructions req))) as [ c2 | | ] eqn:C2; cbn [result_bind]; [ | done | done ]; apply compact_ok in C2 as [ _ -> ].
  destruct (encodeInstructions ordered _) as [ body | | ] eqn:En; cbn [result_bind]; [ | done | done ]; intros E.
  split; [ constructor; [ exact D0 | apply Forall_app; done ] | ]; split; [ done | ]; split; [ done | ]; split; [ unfold len in Bh; b2p; lia | ].
  exists body; split; [ done | congruence ].
Qed.

Lemma keys_of_table l : (forall a, a ∈ l -> key a = b58decode (pub a)) -> map key l = map b58decode (pub <$> l).
Proof.
  induction l as [ | a l IH ]; intros H; [ done | ].
  apply (f_equal2 cons); [ apply H; left | apply IH; intros b I; apply H; right; done ].
Qed.

Lemma table_entries req :
  Forall decodes (mentions req) -> forall a, a ∈ orderAccounts (gather (mentions req)) ->
  key a = b58decode (pub a) /\ isSigner a = flagged IsSigner (pub a) (mentions req) /\
  isWritable a = flagged IsWritable (pub a) (mentions req) /\ length (key a) = 32%nat.
Proof.
  intros D a I; apply elem_of_ordered, gather_elem in I as (N & K & S & W); split_and!; auto; rewrite K.
  unfold named in N; apply existsb_exists in N as (x & Ix & Ex); apply String.eqb_eq in Ex; rewrite <- Ex.
  rewrite Forall_forall in D; apply D, list_elem_of_In, Ix.
Qed.

Lemma mentioned_in_table req x : In x (mentions req) -> Pubkey x ∈ pub <$> orderAccounts (gather (mentions req)).
Proof.
  intros I; apply list_elem_of_fmap; exists {| pub := Pubkey x; key := b58decode (Pubkey x); isSigner := flagged IsSigner (Pubkey x) (mentions req);
    isWritable := flagged IsWritable (Pubkey x) (mentions req) |}; split; [ done | ]; apply elem_of_ordered, gather_elem; split; [ | done ].
  apply existsb_exists; exists x; split; [ exact I | apply String.eqb_refl ].
Qed.

Lemma instructions_in_table req :
  let table := pub <$> orderAccounts (gather (mentions req)) in
  Forall (fun i => ProgramID i ∈ table /\ Forall (fun a => Pubkey a ∈ table) (Accounts i)) (Instructions req).
Proof.
  apply Forall_forall; intros i I; split; [ | apply Forall_forall; intros a Ia ].
  - apply (mentioned_in_table req (account (ProgramID i) false false)); right; apply in_or_app; right; apply in_map_iff.
    exists i; split; [ done | apply list_elem_of_In, I ].
  - apply mentioned_in_table; right; apply in_or_app; left; apply in_flat_map; exists i; rewrite <- !list_elem_of_In; done.
Qed.

(** C25.  A message says what the request asks.  Read by the rules of the runtime,
    a message that was built has the fee payer first in a table of different
    accounts, gives each of them the privileges asked for it somewhere in the
    request and no others, and carries the requested blockhash and, in order, the
    requested instructions. *)
Theorem message_says_request req msg :
  BuildTransaction req = Ok msg ->
  exists m table, read_message msg = Some m /\ accountKeys m = map b58decode table /\ NoDup table /\ head table = Some (FeePayer req) /\
    recent m = b58decode (RecentBlockhash req) /\
    (forall i p, table !! i = Some p -> (signs m i = true <-> asks IsSigner req p) /\ (writes m i = true <-> asks IsWritable req p)) /\
    Forall2 (instruction_is table) (Instructions req) (compiled m).
Proof.
  intros B; destruct (build_gathers _ _ B) as (D & Few & Ni & Lb & body & En & Em); clear B.
  set (accounts := gather (mentions req)) in *; set (ordered := orderAccounts accounts) in *.
  pose proof (table_entries req D) as Ord; fold accounts ordered in Ord.
  destruct (read_instructions_ok ordered Few (Instructions req) body [] En (instructions_in_table req)) as (cs & Rc & Ic).
  rewrite app_nil_r in Rc.
  assert (len (ofClass true true accounts) + len (ofClass true false accounts) + len (ofClass false false accounts) <= 255) as Cnt.
  { unfold ordered, orderAccounts in Few; rewrite !len_app in Few; pose proof (len_nonneg (ofClass false true accounts)); lia. }
  set (n1 := len (ofClass true true accounts)) in *; set (n2 := len (ofClass true false accounts)) in *; set (n3 := len (ofClass false false accounts)) in *.
  assert (0 <= n1 /\ 0 <= n2 /\ 0 <= n3) as (P1 & P2 & P3) by (split_and!; apply len_nonneg).
  assert (u8 (n1 + n2) = n1 + n2 /\ u8 n2 = n2 /\ u8 n3 = n3) as (U1 & U2 & U3) by (unfold u8; split_and!; apply Z.mod_small; lia).
  rewrite U1, U2, U3 in Em.
  set (m := {| requiredSignatures := n1 + n2; readonlySigned := n2; readonlyUnsigned := n3;
    accountKeys := map key ordered; recent := b58decode (RecentBlockhash req); compiled := cs |}).
  exists m, (pub <$> ordered); split_and!.
  - rewrite Em; unfold read_message; rewrite take_n_app by done; cbn [mbind option_bind]; rewrite read_compact by (pose proof (len_nonneg ordered); lia); cbn [mbind option_bind].
    rewrite flat_map_concat_map; replace (Z.to_nat (len ordered)) with (length (map key ordered)) by (unfold len; rewrite length_map; lia); rewrite read_keys_app;
      [ | apply Forall_forall; intros k I; apply list_elem_of_In, in_map_iff in I as (a & <- & I); apply Ord, list_elem_of_In, I ].
    cbn [mbind option_bind]; rewrite take_n_app by done; cbn [mbind option_bind].
    rewrite read_compact by (pose proof (len_nonneg (Instructions req)); lia); cbn [mbind option_bind].
    replace (Z.to_nat (len (Instructions req))) with (length (Instructions req)) by (unfold len; lia); rewrite Rc; done.
  - apply keys_of_table; intros a I; apply Ord, I.
  - apply NoDup_ordered, NoDup_gather.
  - destruct (gather_head (account (FeePayer req) true true) (flat_map Accounts (Instructions req) ++ map (fun i => account (ProgramID i) false false) (Instructions req)))
      as (a & rest & G & P & S & W); fold (mentions req) in G; fold accounts in G.
    unfold ordered, orderAccounts, ofClass at 1; rewrite G, filter_cons_True by (cbn in S, W; auto); rewrite <- app_comm_cons, fmap_cons; cbn [head]; rewrite P; done.
  - done.
  - intros i p L; rewrite list_lookup_fmap in L; destruct (ordered !! i) as [ a | ] eqn:La; [ | done ]; injection L as <-.
    destruct (header_flags accounts i a m La eq_refl eq_refl eq_refl) as [ -> -> ]; [ cbn; unfold len; rewrite length_map; done | ].
    destruct (Ord a (list_elem_of_lookup_2 _ _ _ La)) as (_ & -> & -> & _); split; apply flagged_asks; done.
  - exact Ic.
Qed.

(** ** The fee payer and the assembly *)

Lemma lor_add x y k : 0 <= k -> 0 <= x < 2 ^ k -> Z.lor x (Z.shiftl y k) = x + y * 2 ^ k.
Proof.
  intros Hk Hx; assert (Z.land x (Z.shiftl y k) = 0) as L.
  { apply Z.bits_inj'; intros n Hn; rewrite Z.land_spec, Z.bits_0, Z.shiftl_spec by lia.
    destruct (Z.lt_ge_cases n k) as [ B | B ]; [ rewrite (Z.testbit_neg_r y) by lia; apply andb_false_r | ].
    replace (Z.testbit x n) with false; [ done | ]; symmetry; destruct (Z.eq_dec x 0) as [ -> | Nz ]; [ apply Z.bits_0 | ].
    apply Z.bits_above_log2; [ lia | ]; apply (Z.lt_le_trans _ k); [ apply Z.log2_lt_pow2; lia | lia ]. }
  rewrite <- Z.lxor_lor, <- Z.add_nocarry_lxor, Z.shiftl_mul_pow2 by done; done.
Qed.

Lemma readLoop_write fuel : forall i v acc rest,
  0 <= i -> 0 <= acc < 2 ^ (7 * i) -> 0 <= v < 128 ^ (Z.of_nat fuel + 1) ->
  readLoop (S fuel) i acc (uvarint fuel v ++ rest) = Ok (acc + v * 2 ^ (7 * i), i + len (uvarint fuel v)).
Proof.
  induction fuel as [ | fuel IH ]; intros i v acc rest Hi Ha Hv; cbn [uvarint].
  - change (128 ^ (Z.of_nat 0 + 1)) with 128 in Hv; rewrite low7, Z.mod_small by lia; cbn [app readLoop].
    rewrite top_bit_clear by lia; rewrite lor_add, low7, Z.mod_small by lia; done.
  - rewrite low7, Z.shiftr_div_pow2 by lia; change (2 ^ 7) with 128; pose proof (Z.mod_pos_bound v 128 ltac:(lia)) as B.
    pose proof (Z.div_mod v 128 ltac:(lia)) as DM; destruct (Z.eqb_spec (v / 128) 0) as [ E | E ].
    + cbn [app readLoop]; rewrite top_bit_clear by lia; rewrite lor_add, low7, Z.mod_mod by lia; do 2 f_equal; lia.
    + rewrite high_bit by lia; rewrite <- app_comm_cons.
      change (readLoop (S (S fuel)) i acc (v mod 128 + 128 :: uvarint fuel (v / 128) ++ rest)) with
        (if Z.land (v mod 128 + 128) 128 =? 0 then Ok (Z.lor acc (Z.shiftl (Z.land (v mod 128 + 128) 127) (7 * i)), i + 1)
         else readLoop (S fuel) (i + 1) (Z.lor acc (Z.shiftl (Z.land (v mod 128 + 128) 127) (7 * i))) (uvarint fuel (v / 128) ++ rest)).
      destruct (top_bit_set (v mod 128) ltac:(lia)) as [ -> -> ]; rewrite lor_add by lia.
      assert (2 ^ (7 * (i + 1)) = 2 ^ (7 * i) * 128) as P by (replace (7 * (i + 1)) with (7 * i + 7) by lia; rewrite Z.pow_add_r by lia; done).
      pose proof (Z.pow_pos_nonneg 2 (7 * i) ltac:(lia) ltac:(lia)) as Pp.
      rewrite IH, len_cons, P; [ do 2 f_equal; [ rewrite DM at 3; ring | lia ] | lia | rewrite P; nia | ].
      split; [ apply Z.div_pos; lia | ]; apply Z.div_lt_upper_bound; [ lia | ]; rewrite <- Z.pow_succ_r by lia.
      replace (Z.succ (Z.of_nat fuel + 1)) with (Z.of_nat (S fuel) + 1) by lia; lia.
Qed.

Lemma readCompact_write v rest : 0 <= v <= 65535 -> readCompactU16 (uvarint 2 v ++ rest) = Ok (v, len (uvarint 2 v)).
Proof. intros H; unfold readCompactU16; rewrite readLoop_write by (cbn; lia); cbn; do 2 f_equal; lia. Qed.

(** With no other signer, the first account is the one that must sign. *)
Lemma one_signer req :
  (forall p, asks IsSigner req p -> p = FeePayer req) ->
  let l := gather (mentions req) in
  len (ofClass true true l) + len (ofClass true false l) = 1 /\
  exists a rest, orderAccounts l = a :: rest /\ pub a = FeePayer req.
Proof.
  intros One l; unfold mentions in l.
  destruct (gather_head (account (FeePayer req) true true) (flat_map Accounts (Instructions req) ++ map (fun i => account (ProgramID i) false false) (Instructions req)))
    as (a & rest & G & P & S & W); fold l in G; cbn in S, W; specialize (S eq_refl); specialize (W eq_refl).
  assert (ofClass true true l = a :: ofClass true true rest) as C by (unfold ofClass; rewrite G, filter_cons_True; done).
  split; [ | exists a; eexists; split; [ unfold orderAccounts; rewrite C; reflexivity | exact P ] ].
  rewrite <- len_app; set (q := ofClass true true l ++ ofClass true false l).
  assert (NoDup (pub <$> q)) as N by (pose proof (NoDup_ordered _ (NoDup_gather (mentions req))) as X; unfold orderAccounts in X; rewrite app_assoc, fmap_app in X; apply NoDup_app in X as [ X _ ]; exact X).
  assert (forall b, b ∈ q -> pub b = FeePayer req) as A.
  { intros b I; apply One; unfold q in I; rewrite elem_of_app, !elem_of_class in I.
    assert (isSigner b = true /\ b ∈ l) as [ Sb Ib ] by tauto; apply gather_elem in Ib as (_ & _ & Fb & _); rewrite Sb in Fb.
    apply (flagged_asks IsSigner req (pub b) eq_refl (fun _ => eq_refl)); symmetry; exact Fb. }
  assert (q = a :: (ofClass true true rest ++ ofClass true false l)) as Q by (unfold q; rewrite C; done).
  rewrite Q in N, A; rewrite Q; destruct (ofClass true true rest ++ ofClass true false l) as [ | b r ]; [ done | exfalso ].
  rewrite !fmap_cons, NoDup_cons in N; destruct N as [ N _ ]; apply N; rewrite (A a), <- (A b); [ left | right; left | left ].
Qed.

Lemma fee_payer_of req msg :
  BuildTransaction req = Ok msg -> (forall p, asks IsSigner req p -> p = FeePayer req) ->
  SolanaMessageFeePayer msg = Ok (b58decode (FeePayer req)).
Proof.
  intros B One; destruct (build_gathers _ _ B) as (D & Few & _ & _ & body & _ & ->); destruct (one_signer req One) as (N & a & rest & O & P).
  pose proof (table_entries req D a ltac:(rewrite O; left)) as (K & _ & _ & L32).
  set (l := gather (mentions req)) in *; set (n := len (orderAccounts l)) in *; assert (1 <= n) as Hn by (unfold n; rewrite O, len_cons; pose proof (len_nonneg rest); lia).
  rewrite N; change (u8 1) with 1; rewrite O; cbn [flat_map]; rewrite K, P, <- app_assoc; rewrite K, P in L32.
  set (tail := flat_map key rest ++ _); set (h := [ 1; u8 (len (ofClass true false l)); u8 (len (ofClass false false l)) ]).
  set (uv := uvarint 2 n); unfold SolanaMessageFeePayer; rewrite !len_app; change (len h) with 3.
  pose proof (len_nonneg uv); pose proof (len_nonneg tail); assert (len (b58decode (FeePayer req)) = 32) as L by (unfold len; lia).
  replace (_ <? 3) with false by lia; change (index (h ++ _) 0) with (@Ok SolErr Z 1); cbn [result_bind].
  change (negb (1 =? 1)) with false; cbv iota.
  rewrite <- (app_nil_r (uv ++ b58decode (FeePayer req) ++ tail)), (slice_app h) by (rewrite ?len_app; done); cbn [result_bind].
  unfold uv at 1; rewrite readCompact_write by lia; fold uv; replace (n <? 1) with false by lia; rewrite app_nil_r.
  replace (_ <? _) with false by lia; rewrite (app_assoc h uv), slice_app; [ done | rewrite len_app; done | rewrite len_app, L; change (len h) with 3; lia ].
Qed.

(** What is assembled is signed by the fee payer over the message itself. *)
Lemma assemble_ok message signature tx :
  AssembleSolanaTransaction message signature = Ok tx <->
  len signature = 64 /\ tx = [ 1 ] ++ signature ++ message /\
  exists payer, SolanaMessageFeePayer message = Ok payer /\ edVerify payer message signature = true.
Proof.
  unfold AssembleSolanaTransaction; destruct (Z.eqb_spec (len signature) 64) as [ L | L ]; cbn [negb]; [ | split; [ done | intros (? & _); done ] ].
  destruct (SolanaMessageFeePayer message) as [ payer | | ]; cbn [result_bind]; [ | split; [ done | intros (_ & _ & ? & ? & _); done ] .. ].
  destruct (edVerify payer message signature) eqn:V; cbn [negb].
  - change (writeCompactU16 1) with (@Ok SolErr bytes [ 1 ]); cbn [result_bind]; split; [ intros E; split_and!; [ done | congruence | eauto ] | ].
    intros (_ & -> & _); done.
  - split; [ done | ]; intros (_ & _ & p & E & V'); congruence.
Qed.

Lemma strip_hex_encode z b : 0 <= z < 16 -> strip0x (hex_encode (z :: b)) = hex_encode (z :: b).
Proof.
  intros Hz; cbn [hex_encode]; unfold strip0x; rewrite Z.mod_small by lia; pose proof (hex_value_digit z Hz) as V.
  replace (Ascii.eqb (hex_digit z) "x") with false; [ replace (Ascii.eqb (hex_digit z) "X") with false; [ rewrite andb_false_r; done | ] | ];
    symmetry; apply Ascii.eqb_neq; intros E; rewrite E in V; done.
Qed.

Lemma data_reads_back z b : 0 <= z < 16 -> bytes_ok b -> hex_decode (strip0x (hex_encode (z :: b))) = Some (z :: b).
Proof. intros Hz Hb; rewrite strip_hex_encode by done; apply hex_decode_encode; constructor; [ unfold byte_ok; lia | done ]. Qed.

(** What a table gives, in keys. *)
Lemma key_at table (m : LegacyMessage) i p :
  accountKeys m = map b58decode table -> table !! i = Some p -> accountKeys m !! i = Some (b58decode p).
Proof. intros -> L; rewrite list_lookup_fmap, L; done. Qed.

Lemma transferData_cons lamports : transferData lamports = 2 :: ([ 0; 0; 0 ] ++ le_bytes 8 lamports).
Proof. done. Qed.

(** A transfer moves what it says: the transaction that is assembled for it is
    signed by the sender over the very message, which has the sender as its only
    signer and is one instruction of the System program, to move exactly that
    number of lamports from the sender to the recipient. *)
Theorem transfer_is_exact t msg signature tx :
  0 <= tLamports t < two64 ->
  BuildSolanaTransferMessage t = Ok msg -> AssembleSolanaTransaction msg signature = Ok tx ->
  tx = [ 1 ] ++ signature ++ msg /\ edVerify (b58decode (tFrom t)) msg signature = true /\
  exists m c from_ to_, read_message msg = Some m /\ compiled m = [ c ] /\
    accountKeys m !! Z.to_nat (programIndex c) = Some (b58decode SystemProgramID) /\ accountIndexes c = [ from_; to_ ] /\
    accountKeys m !! Z.to_nat from_ = Some (b58decode (tFrom t)) /\ accountKeys m !! Z.to_nat to_ = Some (b58decode (tTo t)) /\
    len (idata c) = 12 /\ le_val (take 4 (idata c)) = 2 /\ le_val (drop 4 (idata c)) = tLamports t /\
    (forall i k, accountKeys m !! i = Some k -> signs m i = true -> k = b58decode (tFrom t)).
Proof.
  intros Hl; unfold BuildSolanaTransferMessage; destruct (_ =? 0); [ done | ]; destruct (String.eqb _ _); [ done | ]; intros B A.
  assert (forall p, asks IsSigner (transferRequest t) p -> p = tFrom t) as One.
  { intros p [ -> | (i & a & Ii & Ia & <- & F) ]; [ done | ]; apply list_elem_of_singleton in Ii as ->; cbn in Ia.
    apply elem_of_cons in Ia as [ -> | Ia ]; [ done | ]; apply list_elem_of_singleton in Ia as ->; done. }
  apply assemble_ok in A as (_ & -> & payer & P & Vf); rewrite (fee_payer_of _ _ B One) in P; injection P as <-.
  split; [ done | ]; split; [ exact Vf | ].
  destruct (message_says_request _ _ B) as (m & table & Rm & Ks & _ & _ & _ & Fl & F2); cbn [Instructions transferRequest] in F2.
  apply Forall2_cons_inv_l in F2 as (c & l2 & (Pi & Ac & Da) & F2 & Ec); apply Forall2_nil_inv_l in F2 as ->.
  cbn [ProgramID Accounts Data] in Pi, Ac, Da; apply Forall2_cons_inv_l in Ac as (f0 & l3 & Lf & Ac & Ea).
  apply Forall2_cons_inv_l in Ac as (t0 & l4 & Lt & Ac & ->); apply Forall2_nil_inv_l in Ac as ->; cbn [Pubkey] in Lf, Lt.
  rewrite transferData_cons, data_reads_back in Da; [ | lia | apply Forall_app; split; [ solve_bytes | apply le_bytes_ok ] ].
  assert (idata c = 2 :: ([ 0; 0; 0 ] ++ le_bytes 8 (tLamports t))) as Di by congruence; clear Da.
  exists m, c, f0, t0; split_and!; eauto using key_at; rewrite ?Di.
  - done.
  - done.
  - change (drop 4 _) with (le_bytes 8 (tLamports t)); apply le_val_bytes; change (256 ^ Z.of_nat 8) with two64; lia.
  - intros i k Li Si; rewrite Ks, list_lookup_fmap in Li; destruct (table !! i) as [ p | ] eqn:Lp; [ | done ].
    apply (Fl i p Lp) in Si; apply One in Si as ->; injection Li as <-; done.
Qed.


(** ** Token accounts *)

Lemma findBump_spec seeds programID : forall n addr b,
  findBump n seeds programID = Ok (addr, b) ->
  0 <= b <= Z.of_nat n /\ CreateProgramAddress (seeds ++ [ [ b ] ]) programID = Ok addr /\
  forall b', b < b' <= Z.of_nat n -> forall a, CreateProgramAddress (seeds ++ [ [ b' ] ]) programID <> Ok a.
Proof.
  induction n as [ | n IH ]; intros addr b; cbn [findBump]; destruct (CreateProgramAddress (seeds ++ [ [ Z.of_nat _ ] ]) programID) as [ x | e | ] eqn:E; try done.
  - intros [= <- <-]; split; [ lia | ]; split; [ done | lia ].
  - intros [= <- <-]; split; [ lia | ]; split; [ done | lia ].
  - intros (B & C & N)%IH; split; [ lia | ]; split; [ done | ]; intros b' Hb a X.
    destruct (Z.eq_dec b' (Z.of_nat (S n))) as [ -> | ]; [ congruence | apply (N b' ltac:(lia) a X) ].
  - intros (B & C & N)%IH; split; [ lia | ]; split; [ done | ]; intros b' Hb a X.
    destruct (Z.eq_dec b' (Z.of_nat (S n))) as [ -> | ]; [ congruence | apply (N b' ltac:(lia) a X) ].
Qed.

Lemma FindProgramAddress_spec seeds programID addr b :
  FindProgramAddress seeds programID = Ok (addr, b) ->
  0 <= b <= 255 /\ CreateProgramAddress (seeds ++ [ [ b ] ]) programID = Ok addr /\
  forall b', b < b' <= 255 -> forall a, CreateProgramAddress (seeds ++ [ [ b' ] ]) programID <> Ok a.
Proof. unfold FindProgramAddress; intros F; apply findBump_spec in F; exact F. Qed.

(** The address of a list of seeds. *)
Definition derived (seeds : list bytes) (programID : string) : bytes :=
  sha256 (List.concat seeds ++ b58decode programID ++ to_bytes "ProgramDerivedAddress").

Lemma CreateProgramAddress_ok seeds programID addr :
  CreateProgramAddress seeds programID = Ok addr ->
  len (b58decode programID) = 32 /\ len seeds <= 16 /\ Forall (fun s => len s <= 32) seeds /\
  isOnCurve (derived seeds programID) = false /\ addr = b58encode (derived seeds programID).
Proof.
  unfold CreateProgramAddress; fold (derived seeds programID); destruct (Z.eqb_spec (len (b58decode programID)) 32); cbn [negb]; [ | done ].
  destruct (Z.ltb_spec 16 (len seeds)); [ done | ]; destruct (existsb _ seeds) eqn:X; [ done | ]; cbv zeta.
  destruct (isOnCurve _) eqn:Oc; [ done | ]; intros [= <-]; split_and!; try done; apply Forall_forall; intros y I.
  assert ((32 <? len y) = false) as L; [ | apply Z.ltb_ge, L ].
  apply not_true_is_false; intros T; rewrite <- not_true_iff_false in X; apply X, existsb_exists; exists y; split; [ apply list_elem_of_In, I | exact T ].
Qed.

Lemma CreateProgramAddress_none seeds programID :
  len (b58decode programID) = 32 -> len seeds <= 16 -> Forall (fun s => len s <= 32) seeds ->
  (forall a, CreateProgramAddress seeds programID <> Ok a) -> isOnCurve (derived seeds programID) = true.
Proof.
  unfold CreateProgramAddress; fold (derived seeds programID); intros -> L F N; revert N; cbn [Z.eqb Pos.eqb negb].
  replace (16 <? len seeds) with false by lia; replace (existsb _ seeds) with false.
  - cbv zeta; destruct (isOnCurve _); [ done | ]; intros N; destruct (N _ eq_refl).
  - symmetry; apply not_true_is_false; intros (y & I & T)%existsb_exists; rewrite Forall_forall in F; apply list_elem_of_In, F in I; b2p; lia.
Qed.

(** A token account is at the first bump, counting down from 255, whose
    address nobody can sign for. *)
Theorem token_account_at_first_bump wallet mint addr :
  AssociatedTokenAddress wallet mint = Ok addr ->
  exists b, 0 <= b <= 255 /\
    let seeds n := [ b58decode wallet; b58decode TokenProgramID; b58decode mint; [ n ] ] in
    addr = b58encode (derived (seeds b) AssociatedTokenAccountProgramID) /\
    isOnCurve (derived (seeds b) AssociatedTokenAccountProgramID) = false /\
    forall b', b < b' <= 255 -> isOnCurve (derived (seeds b') AssociatedTokenAccountProgramID) = true.
Proof.
  unfold AssociatedTokenAddress; destruct (len (b58decode wallet) =? 32); [ | done ]; destruct (len (b58decode mint) =? 32); [ | done ]; cbn [negb].
  destruct (FindProgramAddress _ _) as [ [ a b ] | | ] eqn:F; cbn [result_bind fst]; [ | done | done ]; intros [= <-].
  apply FindProgramAddress_spec in F as (B & C & N); exists b; split; [ lia | ]; cbv zeta.
  apply CreateProgramAddress_ok in C as (Lp & Ls & Fs & Oc & ->); split; [ done | ]; split; [ exact Oc | ].
  intros b' Hb; apply CreateProgramAddress_none; [ done | done | | apply (N b' Hb) ].
  apply Forall_app in Fs as [ Fs _ ]; apply (Forall_app _ [ _; _; _ ] [ [ b' ] ]); split; [ exact Fs | constructor; [ unfold len; cbn; lia | constructor ] ].
Qed.

(** A token transfer moves what it says: its message creates the recipient's
    token account if need be and then has the Token program move exactly that
    amount, checked against the mint and its decimals, from the sender's token
    account to the recipient's, on the sender's authority alone. *)
Theorem token_transfer_is_exact t plan :
  0 <= kAmount t < two64 -> 0 <= kDecimals t < 256 ->
  BuildSolanaTokenTransferMessage t = Ok plan ->
  AssociatedTokenAddress (kFrom t) (kMint t) = Ok (SourceTokenAccount plan) /\
  AssociatedTokenAddress (kTo t) (kMint t) = Ok (DestTokenAccount plan) /\
  SolanaMessageFeePayer (Message plan) = Ok (b58decode (kFrom t)) /\
  exists m create move, read_message (Message plan) = Some m /\ compiled m = [ create; move ] /\
    let at_ i p := accountKeys m !! Z.to_nat i = Some (b58decode p) in
    at_ (programIndex create) AssociatedTokenAccountProgramID /\ idata create = [ 1 ] /\
    Forall2 (fun p i => at_ i p) [ kFrom t; DestTokenAccount plan; kTo t; kMint t; SystemProgramID; TokenProgramID ] (accountIndexes create) /\
    at_ (programIndex move) TokenProgramID /\ idata move = [ 12 ] ++ le_bytes 8 (kAmount t) ++ [ kDecimals t ] /\
    Forall2 (fun p i => at_ i p) [ SourceTokenAccount plan; kMint t; DestTokenAccount plan; kFrom t ] (accountIndexes move).
Proof.
  intros Ha Hd; unfold BuildSolanaTokenTransferMessage; destruct (_ =? 0); [ done | ]; destruct (String.eqb _ _); [ done | ].
  destruct (AssociatedTokenAddress (kFrom t) (kMint t)) as [ src | | ]; cbn [result_bind]; [ | done | done ].
  destruct (AssociatedTokenAddress (kTo t) (kMint t)) as [ dst | | ]; cbn [result_bind]; [ | done | done ].
  destruct (BuildTransaction _) as [ msg | | ] eqn:B; cbn [result_bind]; [ | done | done ]; intros E; injection E as <-; cbn [Message SourceTokenAccount DestTokenAccount].
  split; [ done | ]; split; [ done | ].
  assert (forall p, asks IsSigner (tokenRequest t src dst) p -> p = kFrom t) as One.
  { intros p [ -> | (i & a & Ii & Ia & <- & F) ]; [ done | ]; cbn [Instructions tokenRequest] in Ii.
    repeat (apply elem_of_cons in Ii as [ -> | Ii ]; [ cbn [Accounts] in Ia; repeat (apply elem_of_cons in Ia as [ -> | Ia ]; [ done | ]); apply elem_of_nil in Ia; done | ]).
    apply elem_of_nil in Ii; done. }
  split; [ apply (fee_payer_of _ _ B One) | ].
  destruct (message_says_request _ _ B) as (m & table & Rm & Ks & _ & _ & _ & _ & F2); cbn [Instructions tokenRequest] in F2.
  apply Forall2_cons_inv_l in F2 as (create & l2 & (P1 & A1 & D1) & F2 & Ec); apply Forall2_cons_inv_l in F2 as (move & l3 & (P2 & A2 & D2) & F2 & ->).
  apply Forall2_nil_inv_l in F2 as ->; cbn [ProgramID Accounts Data] in *; exists m, create, move; split; [ done | ]; split; [ done | ]; cbv zeta.
  assert (forall (ps : list SolanaAccountMeta) ixs, Forall2 (fun a ix => table !! Z.to_nat ix = Some (Pubkey a)) ps ixs ->
    Forall2 (fun p i => accountKeys m !! Z.to_nat i = Some (b58decode p)) (map Pubkey ps) ixs) as Conv
    by (induction 1; constructor; eauto using key_at).
  split_and!; eauto using key_at.
  - change (hex_decode (strip0x "01")) with (Some [ 1 ]) in D1; congruence.
  - apply (Conv _ _ A1).
  - change (transferChecked (kAmount t) (kDecimals t)) with (12 :: (le_bytes 8 (kAmount t) ++ [ kDecimals t ])) in D2.
    rewrite data_reads_back in D2; [ change ([ 12 ] ++ ?x) with (12 :: x); generalize dependent (le_bytes 8 (kAmount t) ++ [ kDecimals t ]); congruence | lia | ].
    apply Forall_app; split; [ apply le_bytes_ok | constructor; [ exact Hd | constructor ] ].
  - apply (Conv _ _ A2).
Qed.

(** More references than a length can say make the encoder panic: the check
    that would refuse them comes after they were counted. *)
Lemma too_many_references_panic ordered i : 65535 < len (Accounts i) -> encodeInstruction ordered i = Panic.
Proof.
  intros H; unfold encodeInstruction, writeCompactU16, maxSolanaCompactU16.
  replace ((len (Accounts i) <? 0) || (65535 <? len (Accounts i))) with true by (symmetry; apply orb_true_iff; lia); done.
Qed.

(** ** Account layouts *)

(** A mint account is read at the offsets the Token program writes. *)
Lemma ParseSPLMint_reads authority supply decimals init freeze :
  length authority = 36%nat -> length freeze = 36%nat -> 0 <= supply < two64 ->
  ParseSPLMint (authority ++ le_bytes 8 supply ++ [ decimals; init ] ++ freeze) =
  Ok {| Supply := supply; Decimals := decimals; Initialized := init =? 1 |}.
Proof.
  intros La Lf Hs; unfold ParseSPLMint, SPLMintSize; rewrite !len_app, le_bytes_len; unfold len at 1 2 3; rewrite La, Lf; cbn [length].
  change (negb _) with false; cbv iota; rewrite slice_app by (rewrite ?le_bytes_len; unfold len; rewrite La; done); cbn [result_bind].
  assert (forall j, (authority ++ le_bytes 8 supply ++ [ decimals; init ] ++ freeze) !! (44 + j)%nat = ([ decimals; init ] ++ freeze) !! j) as At.
  { intros j; assert (length (le_bytes 8 supply) = 8%nat) as L8 by (pose proof (le_bytes_len 8 supply); unfold len in *; lia).
    rewrite app_assoc, lookup_app_r by (rewrite length_app, La, L8; lia); rewrite length_app, La, L8; f_equal; lia. }
  unfold index; cbn [Z.leb Z.compare Pos.compare Pos.compare_cont]; change (Z.to_nat 44) with (44 + 0)%nat; change (Z.to_nat 45) with (44 + 1)%nat.
  rewrite !At, (le_val_bytes 8 supply) by (change (256 ^ Z.of_nat 8) with two64; lia); reflexivity.
Qed.

End Solana.
(** ** An instance *)

Module Simple.

(** Addresses are texts of 32 bytes, taken as they are. *)
Definition fixed (c : string) : string := c +:+ "2345678901234567890123456789012".
Definition dec (s : string) : bytes := to_bytes s.
Definition alice : string := fixed "a".
Definition bob : string := fixed "b".
Definition someHash (b : bytes) : bytes := repeat (len b mod 256) 32.
Definition offCurve (b : bytes) : bool := false.
Definition accepts (k m s : bytes) : bool := true.

Definition pay : SolanaTransfer := {| tFrom := alice; tTo := bob; tLamports := 1000000; tBlockhash := fixed "h" |}.
Definition payMessage : bytes := match BuildSolanaTransferMessage dec pay with Ok m => m | _ => [] end.
Definition sig64 : bytes := repeat 7 64.

Lemma pay_builds : BuildSolanaTransferMessage dec pay = Ok payMessage.
Proof. vm_compute; reflexivity. Qed.

Lemma pay_assembles : AssembleSolanaTransaction accepts payMessage sig64 = Ok ([ 1 ] ++ sig64 ++ payMessage).
Proof. vm_compute; reflexivity. Qed.

Lemma message_says_request_witness : exists m table, read_message payMessage = Some m /\ accountKeys m = map dec table /\ head table = Some alice.
Proof.
  destruct (message_says_request dec (transferRequest pay) payMessage) as (m & table & Rm & Ks & _ & H & _); [ vm_compute; reflexivity | ].
  exists m, table; auto.
Defined.

Lemma transfer_is_exact_witness : exists m c, read_message payMessage = Some m /\ compiled m = [ c ] /\ le_val (drop 4 (idata c)) = 1000000.
Proof.
  destruct (transfer_is_exact dec accepts pay payMessage sig64 _ ltac:(cbn; unfold two64; lia) pay_builds pay_assembles)
    as (_ & _ & m & c & f & t & Rm & Cm & _ & _ & _ & _ & _ & _ & Am & _); exists m, c; auto.
Defined.

Definition same (b : bytes) : string := of_bytes b.
Definition cut (s : string) : bytes := take 32 (to_bytes (s +:+ "00000000000000000000000000000000")).
Definition send : SolanaTokenTransfer :=
  {| kFrom := alice; kTo := bob; kMint := fixed "m"; kAmount := 5; kDecimals := 6; kBlockhash := fixed "h" |}.
Definition sendPlan : SolanaTokenTransferPlan :=
  match BuildSolanaTokenTransferMessage cut same someHash offCurve send with
  | Ok p => p | _ => {| Message := []; SourceTokenAccount := ""; DestTokenAccount := "" |} end.

Lemma token_transfer_is_exact_witness : exists m create move, read_message (Message sendPlan) = Some m /\ compiled m = [ create; move ] /\
  idata move = [ 12 ] ++ le_bytes 8 5 ++ [ 6 ].
Proof.
  destruct (token_transfer_is_exact cut same someHash offCurve send sendPlan) as (_ & _ & _ & m & c & v & Rm & Cm & _ & _ & _ & _ & Dm & _);
    [ cbn; unfold two64; lia | cbn; lia | vm_compute; reflexivity | ].
  exists m, c, v; auto.
Defined.

Lemma token_account_at_first_bump_witness : exists b, 0 <= b <= 255 /\
  same (derived cut someHash [ cut alice; cut TokenProgramID; cut bob; [ b ] ] AssociatedTokenAccountProgramID) = SourceTokenAccount sendPlan.
Proof.
  destruct (token_account_at_first_bump cut same someHash offCurve alice bob (SourceTokenAccount sendPlan)) as (b & B & E & _);
    [ vm_compute; reflexivity | ].
  exists b; split; [ exact B | symmetry; exact E ].
Defined.

End Simple.

End Solana.
