(* ===== verification/SolanaService.v ===== *)
(** * The Solana routes of the signer

    Models [services/mpc-signer]: [chains/solana_rpc.go] (the node client) and
    the handlers of [solana_http.go] and [solana_spl_http.go], which say what a
    ceremony is to sign and turn its signature into a transaction.

    The HTTP exchange and JSON are a parameter: what the node answers each
    call, at the time of the request.  A handler makes no call twice.

    What is shown: a message is handed out for signing only when it moves
    exactly the requested amount from the key's account to the destination, and
    the account can pay it with the fee and keeps nothing or enough to persist;
    the same for tokens; and what is relayed is the message that was given,
    under a signature of its fee payer. *)

From Stdlib Require Import ZArith Lia Ascii String.
From stdpp Require Import base list numbers strings.
From S2P Require Import Prelude GoStrings GoText Wire Solana.

Open Scope Z_scope.

Module SolanaService.
Import Wire Solana.
#[local] Open Scope string_scope.
#[local] Open Scope list_scope.
#[local] Open Scope Z_scope.

(** ** The node client *)

Inductive Call : Type :=
  | getLatestBlockhash | getBalance (address : string) | getFeeForMessage (base64 : string) | sendTransaction (base64 : string)
  | getSignatureStatuses (signature : string) | getTransaction (signature : string) | getAccountInfo (address : string)
  | getMinimumBalanceForRentExemption (size : Z).

(** The result of a call, decoded into the type its caller gives. *)
Record StatusValue := { vSlot : Z; vConfirmations : option Z; vErr : string (* the raw JSON *); vStatus : string }.
Record ParsedInstruction := { pProgram : string; pType : string; pSource : string; pDestination : string; pLamports : string (* raw JSON *) }.
Inductive Value : Type :=
  | Blockhash (hash : string) (lastValid : Z) | Lamports (n : Z) | Fee (n : option Z) | TextResult (s : string)
  | Statuses (l : list (option StatusValue)) | Parsed (instructions : option (list ParsedInstruction))
  | Account (a : option (string * Z * list string)).

Inductive Exchange : Type :=
  | NotReached | NotRead | Answered (code : Z) (env : option (Value + (Z * string))) (* [None]: not JSON; [inr]: an error object *).

Inductive RpcErr : Type :=
  | Unreachable | BodyUnreadable | HTTPStatus (code : Z) | ResponseUnreadable | RpcError (code : Z) (message : string)
  | NoBlockhash | NoPrice | AccountUnreadable | MintMissing | Token2022Mint | NotTokenMint | MintUninitialized
  | NotTokenProgram | WrongAccount | Chain (e : SolErr).

Definition call (answer : Call -> Exchange) (c : Call) : result RpcErr Value :=
  match answer c with
  | NotReached => Err Unreachable
  | NotRead => Err BodyUnreadable
  | Answered code env =>
      if negb (code =? 200) then Err (HTTPStatus code)
      else
        match env with
        | None => Err ResponseUnreadable
        | Some (inr (code, message)) => Err (RpcError code message)
        | Some (inl v) => Ok v
        end
  end.

Record SolanaSignatureStatus := { Found : bool; Slot : Z; Confirmations : option Z; ConfirmationStatus : string; StErr : option string }.
Record SolanaTransferInfo := { iFrom : string; iTo : string; iLamports : string }.
Record SolanaAccount := { Exists_ : bool; aOwner : string; aLamports : Z; aData : bytes }.

(** [strings.Trim] of double quotes. *)
Definition is_quote (c : ascii) : bool := chr c =? 34.
Fixpoint trim_quotes_left (s : string) : string := match s with String c t => if is_quote c then trim_quotes_left t else s | _ => s end.
Definition trim_quotes (s : string) : string :=
  of_bytes (rev (to_bytes (trim_quotes_left (of_bytes (rev (to_bytes (trim_quotes_left s))))))).

Section Client.
Context (answer : Call -> Exchange).

Definition LatestBlockhash : result RpcErr (string * Z) :=
  let! v := call answer getLatestBlockhash in
  match v with
  | Blockhash hash lastValid => if String.eqb hash "" then Err NoBlockhash else Ok (hash, lastValid)
  | _ => Err ResponseUnreadable
  end.

Definition Balance (address : string) : result RpcErr Z :=
  let! v := call answer (getBalance address) in match v with Lamports n => Ok n | _ => Err ResponseUnreadable end.

Definition FeeForMessage (message : bytes) : result RpcErr Z :=
  let! v := call answer (getFeeForMessage (Base64.encode message)) in
  match v with Fee (Some n) => Ok n | Fee None => Err NoPrice | _ => Err ResponseUnreadable end.

Definition SendTransaction (tx : bytes) : result RpcErr string :=
  let! v := call answer (sendTransaction (Base64.encode tx)) in match v with TextResult s => Ok s | _ => Err ResponseUnreadable end.

Definition SignatureStatus (signature : string) : result RpcErr SolanaSignatureStatus :=
  let! v := call answer (getSignatureStatuses signature) in
  match v with
  | Statuses (Some v :: _) =>
      Ok {| Found := true; Slot := vSlot v; Confirmations := vConfirmations v; ConfirmationStatus := vStatus v;
            StErr := if String.eqb (vErr v) "" || String.eqb (vErr v) "null" then None else Some (vErr v) |}
  | Statuses _ => Ok {| Found := false; Slot := 0; Confirmations := None; ConfirmationStatus := ""; StErr := None |}
  | _ => Err ResponseUnreadable
  end.

Definition Transfer (signature : string) : result RpcErr (option SolanaTransferInfo) :=
  let! v := call answer (getTransaction signature) in
  match v with
  | Parsed None => Ok None
  | Parsed (Some l) =>
      Ok (match list_find (fun i => pProgram i = "system" /\ pType i = "transfer") l with
          | Some (_, i) => Some {| iFrom := pSource i; iTo := pDestination i; iLamports := trim_quotes (pLamports i) |}
          | None => None
          end)
  | _ => Err ResponseUnreadable
  end.

Definition AccountInfo (address : string) : result RpcErr SolanaAccount :=
  let! v := call answer (getAccountInfo address) in
  match v with
  | Account None => Ok {| Exists_ := false; aOwner := ""; aLamports := 0; aData := [] |}
  | Account (Some (owner, lamports, data)) =>
      match data with
      | [] => Ok {| Exists_ := true; aOwner := owner; aLamports := lamports; aData := [] |}
      | d :: _ =>
          match Base64.decode d with
          | Some b => Ok {| Exists_ := true; aOwner := owner; aLamports := lamports; aData := b |}
          | None => Err AccountUnreadable
          end
      end
  | _ => Err ResponseUnreadable
  end.

Definition MinimumBalanceForRentExemption (size : Z) : result RpcErr Z :=
  let! v := call answer (getMinimumBalanceForRentExemption size) in match v with Lamports n => Ok n | _ => Err ResponseUnreadable end.

Definition SPLMintInfo (mint : string) : result RpcErr SPLMint :=
  let! acct := AccountInfo mint in
  if negb (Exists_ acct) then Err MintMissing
  else if String.eqb (aOwner acct) TokenProgramID then
    let! m := map_err Chain (ParseSPLMint (aData acct)) in
    if negb (Initialized m) then Err MintUninitialized else Ok m
  else if String.eqb (aOwner acct) Token2022ProgramID then Err Token2022Mint
  else Err NotTokenMint.

Context (b58decode : string -> bytes) (b58encode : bytes -> string) (sha256 : bytes -> bytes) (isOnCurve : bytes -> bool).

(** The address, whether the account exists, and what it holds. *)
Definition SPLTokenBalance (wallet mint : string) : result RpcErr (string * bool * SPLTokenAccount) :=
  let! ata := map_err Chain (AssociatedTokenAddress b58decode b58encode sha256 isOnCurve wallet mint) in
  let! info := AccountInfo ata in
  if negb (Exists_ info) then Ok (ata, false, {| Mint := mint; Owner := wallet; Amount := 0; State := 0 |})
  else if negb (String.eqb (aOwner info) TokenProgramID) then Err NotTokenProgram
  else
    let! ta := map_err Chain (ParseSPLTokenAccount b58encode (aData info)) in
    if negb (String.eqb (Mint ta) mint) || negb (String.eqb (Owner ta) wallet) then Err WrongAccount else Ok (ata, true, ta).

(** ** Native transfers *)

Record solanaPrepareRequest := { PubKeyHex : string; Destination : string; ReqAmount : string }.
Record solanaPrepareResponse := {
  MessageHex : string; From_ : string; To_ : string; ResAmount : string; ResFee : string; ResBalance : string;
  ResBlockhash : string; LastValidBlockHeight : Z }.
Record solanaFinalizeRequest := { fMessageHex : string; SignatureHex : string; Broadcast : bool }.
Record solanaFinalizeResponse := { rSignature : string; RawTxBase64 : string; rBroadcast : bool }.

Record solanaTokenPrepareRequest := {
  tkPubKeyHex : string; tkDestination : string; tkMint : string; tkAmount : string; tkDecimals : option Z }.
Record solanaTokenPrepareResponse := {
  trMessageHex : string; trFrom : string; trTo : string; trMint : string; trSource : string; trDest : string; trCreates : bool;
  trAmount : string; trDecimals : Z; trFee : string; trRent : string; trSolBalance : string; trTokenBalance : string;
  trBlockhash : string; trLastValid : Z }.

(** Why a request was refused; each is one of the handlers' texts. *)
Inductive Refusal : Type :=
  | InvalidBody | NoNode | BadPubKey | BadDestination | BadAmount | Node (e : RpcErr) | NotBuilt (e : SolErr)
  | Insufficient (need have : Z) | LeavesDust (rest : Z) | BelowRent | BadMessageHex | BadSignature
  | NotAssembled (e : SolErr) | BadMintAddress | DecimalsMissing | DecimalsDiffer (chain registry : Z) | NotAWallet
  | InsufficientTokens (need have : Z) | SourceFrozen | DestinationFrozen | InsufficientSol (need have : Z).

Inductive Body : Type :=
  | Refused (r : Refusal) | Unrelayed (e : RpcErr) (b : solanaFinalizeResponse) | NoNodeToRelay (b : solanaFinalizeResponse)
  | Prepared (b : solanaPrepareResponse) | Finalized (b : solanaFinalizeResponse) | TokenPrepared (b : solanaTokenPrepareResponse)
  | AddressIs (a : string) | BalanceIs (a : string) (lamports : string) | MintIs (mint program : string) (decimals : Z) (supply : string)
  | TokenBalanceIs (owner mint account : string) (exists_ : bool) (amount : string) (frozen : bool)
  | StatusIs (s : SolanaSignatureStatus) (t : option SolanaTransferInfo).

(** [configured]: SOLANA_RPC_URL is set. *)
Context (configured : bool).

Definition solanaAddressFromHex (pubKeyHex : string) : option string :=
  match hex_decode (trim_prefix "0x" pubKeyHex) with
  | Some raw => if len raw =? 32 then Some (SolanaAddressFromPubKey b58encode raw) else None
  | None => None
  end.

Definition handleSolanaAddresses (pubkey : string) : Z * Body :=
  match solanaAddressFromHex pubkey with None => (400, Refused BadPubKey) | Some a => (200, AddressIs a) end.

Definition handleSolanaBalance (addr : string) : Z * Body :=
  if negb configured then (503, Refused NoNode)
  else if negb (len (b58decode addr) =? 32) then (400, Refused BadDestination)
  else
    match Balance addr with
    | Ok bal => (200, BalanceIs addr (show_int bal))
    | Err e => (502, Refused (Node e))
    | Panic => (500, Refused InvalidBody)
    end.

(** Early returns. *)
Definition orElse {E A} (code : Z) (why : E -> Refusal) (r : result E A) (k : A -> Z * Body) : Z * Body :=
  match r with Ok a => k a | Err e => (code, Refused (why e)) | Panic => (500, Refused InvalidBody) end.

Definition handleSolanaPrepare (body : option solanaPrepareRequest) : Z * Body :=
  match body with
  | None => (400, Refused InvalidBody)
  | Some req =>
      if negb configured then (503, Refused NoNode)
      else
        match solanaAddressFromHex (PubKeyHex req) with
        | None => (400, Refused BadPubKey)
        | Some from =>
            if negb (len (b58decode (Destination req)) =? 32) then (400, Refused BadDestination)
            else
              match parse_uint (ReqAmount req) with
              | None => (400, Refused BadAmount)
              | Some amount =>
                  if amount =? 0 then (400, Refused BadAmount)
                  else
                    orElse 502 Node (Balance from) (fun balance =>
                    orElse 502 Node (Balance (Destination req)) (fun destBalance =>
                    orElse 502 Node LatestBlockhash (fun '(blockhash, lastValid) =>
                    orElse 400 NotBuilt (BuildSolanaTransferMessage b58decode
                      {| tFrom := from; tTo := Destination req; tLamports := amount; tBlockhash := blockhash |}) (fun message =>
                    orElse 502 Node (FeeForMessage message) (fun fee =>
                    let need := u64 (amount + fee) in
                    if (need <? amount) || (balance <? need) then (400, Refused (Insufficient need balance))
                    else
                      let rest := u64 (balance - need) in
                      if (0 <? rest) && (rest <? SolanaRentExemptMinimumLamports) then (400, Refused (LeavesDust rest))
                      else if (destBalance =? 0) && (amount <? SolanaRentExemptMinimumLamports) then (400, Refused BelowRent)
                      else (200, Prepared {|
                        MessageHex := hex_encode message; From_ := from; To_ := Destination req; ResAmount := show_int amount;
                        ResFee := show_int fee; ResBalance := show_int balance; ResBlockhash := blockhash;
                        LastValidBlockHeight := lastValid |}))))))
              end
        end
  end.

Context (edVerify : bytes -> bytes -> bytes -> bool).

Definition handleSolanaFinalize (body : option solanaFinalizeRequest) : Z * Body :=
  match body with
  | None => (400, Refused InvalidBody)
  | Some req =>
      match hex_decode (trim_prefix "0x" (fMessageHex req)) with
      | None | Some [] => (400, Refused BadMessageHex)
      | Some message =>
          match hex_decode (trim_prefix "0x" (SignatureHex req)) with
          | None => (400, Refused BadSignature)
          | Some sig =>
              orElse 400 NotAssembled (AssembleSolanaTransaction edVerify message sig) (fun tx =>
              let resp := {| rSignature := SolanaSignatureID b58encode sig; RawTxBase64 := Base64.encode tx; rBroadcast := false |} in
              if negb (Broadcast req) then (200, Finalized resp)
              else if negb configured then (503, NoNodeToRelay resp)
              else
                match SendTransaction tx with
                | Err e => (502, Unrelayed e resp)
                | Panic => (500, Refused InvalidBody)
                | Ok id => (200, Finalized {| rSignature := id; RawTxBase64 := RawTxBase64 resp; rBroadcast := true |})
                end)
          end
      end
  end.

Definition handleSolanaStatus (sig : string) : Z * Body :=
  if negb configured then (503, Refused NoNode)
  else if negb (len (b58decode sig) =? 64) then (400, Refused BadSignature)
  else
    orElse 502 Node (SignatureStatus sig) (fun st =>
    (200, StatusIs st
      (if Found st && (match StErr st with None => true | _ => false end)
       then match Transfer sig with Ok t => t | _ => None end else None))).

(** ** Tokens *)

Definition handleSolanaTokenMint (mint : string) : Z * Body :=
  if negb configured then (503, Refused NoNode)
  else if negb (len (b58decode mint) =? 32) then (400, Refused BadMintAddress)
  else orElse 422 Node (SPLMintInfo mint) (fun m => (200, MintIs mint TokenProgramID (Decimals m) (show_int (Supply m)))).

Definition handleSolanaTokenBalance (owner mint : string) : Z * Body :=
  if negb configured then (503, Refused NoNode)
  else if negb (len (b58decode owner) =? 32) || negb (len (b58decode mint) =? 32) then (400, Refused BadMintAddress)
  else
    orElse 502 Node (SPLTokenBalance owner mint) (fun '(ata, exists_, acct) =>
    (200, TokenBalanceIs owner mint ata exists_ (show_int (Amount acct)) (State acct =? 2))).

Definition handleSolanaTokenPrepare (body : option solanaTokenPrepareRequest) : Z * Body :=
  match body with
  | None => (400, Refused InvalidBody)
  | Some req =>
      if negb configured then (503, Refused NoNode)
      else
        match solanaAddressFromHex (tkPubKeyHex req) with
        | None => (400, Refused BadPubKey)
        | Some from =>
            if negb (len (b58decode (tkDestination req)) =? 32) then (400, Refused BadDestination)
            else if negb (len (b58decode (tkMint req)) =? 32) then (400, Refused BadMintAddress)
            else
              match parse_uint (tkAmount req) with
              | None => (400, Refused BadAmount)
              | Some amount =>
                  if amount =? 0 then (400, Refused BadAmount)
                  else
                    match tkDecimals req with
                    | None => (400, Refused DecimalsMissing)
                    | Some decimals =>
                        orElse 400 Node (SPLMintInfo (tkMint req)) (fun mint =>
                        if negb (Decimals mint =? decimals) then (400, Refused (DecimalsDiffer (Decimals mint) decimals))
                        else
                        orElse 502 Node (AccountInfo (tkDestination req)) (fun dest =>
                        if Exists_ dest && (String.eqb (aOwner dest) TokenProgramID || String.eqb (aOwner dest) Token2022ProgramID)
                        then (400, Refused NotAWallet)
                        else
                        orElse 502 Node (SPLTokenBalance from (tkMint req)) (fun '(srcATA, srcExists, src) =>
                        if negb srcExists || (Amount src <? amount) then (400, Refused (InsufficientTokens amount (Amount src)))
                        else if State src =? 2 then (400, Refused SourceFrozen)
                        else
                        orElse 502 Node (SPLTokenBalance (tkDestination req) (tkMint req)) (fun '(dstATA, dstExists, dst) =>
                        if dstExists && (State dst =? 2) then (400, Refused DestinationFrozen)
                        else
                        orElse 502 Node LatestBlockhash (fun '(blockhash, lastValid) =>
                        orElse 400 NotBuilt (BuildSolanaTokenTransferMessage b58decode b58encode sha256 isOnCurve
                          {| kFrom := from; kTo := tkDestination req; kMint := tkMint req; kAmount := amount; kDecimals := Decimals mint;
                             kBlockhash := blockhash |}) (fun plan =>
                        orElse 502 Node (FeeForMessage (Message plan)) (fun fee =>
                        orElse 502 Node (if dstExists then Ok 0 else MinimumBalanceForRentExemption SPLTokenAccountSize) (fun rent =>
                        orElse 502 Node (Balance from) (fun sol =>
                        let need := u64 (fee + rent) in
                        if sol <? need then (400, Refused (InsufficientSol need sol))
                        else
                          let rest := u64 (sol - fee - rent) in
                          if (0 <? rest) && (rest <? SolanaRentExemptMinimumLamports) then (400, Refused (LeavesDust rest))
                          else (200, TokenPrepared {|
                            trMessageHex := hex_encode (Message plan); trFrom := from; trTo := tkDestination req; trMint := tkMint req;
                            trSource := SourceTokenAccount plan; trDest := DestTokenAccount plan; trCreates := negb dstExists;
                            trAmount := show_int amount; trDecimals := Decimals mint; trFee := show_int fee; trRent := show_int rent;
                            trSolBalance := show_int sol; trTokenBalance := show_int (Amount src); trBlockhash := blockhash;
                            trLastValid := lastValid |}))))))))))
                    end
              end
        end
  end.

(** ** What is handed out for signing *)

(** JSON numbers are decoded into [uint64]. *)
Definition value_typed (v : Value) : Prop :=
  match v with Lamports n => 0 <= n < two64 | Fee (Some n) => 0 <= n < two64 | _ => True end.

Context (typed : forall c v, call answer c = Ok v -> value_typed v).

Lemma orElse_ok {E A} code why (r : result E A) k b :
  orElse code why r k = (200, b) -> code <> 200 -> exists a, r = Ok a /\ k a = (200, b).
Proof. destruct r; cbn; intros H N; [ eauto | congruence | congruence ]. Qed.

Lemma Balance_range a n : Balance a = Ok n -> 0 <= n < two64.
Proof.
  unfold Balance; destruct (call answer _) as [ v | | ] eqn:C; cbn [result_bind]; [ | done | done ].
  destruct v; try done; intros [= <-]; apply (typed _ _ C).
Qed.

Lemma Fee_range m n : FeeForMessage m = Ok n -> 0 <= n < two64.
Proof.
  unfold FeeForMessage; destruct (call answer _) as [ v | | ] eqn:C; cbn [result_bind]; [ | done | done ].
  destruct v as [ | | [ x | ] | | | | ]; try done; intros [= <-]; apply (typed _ _ C).
Qed.

Lemma Rent_range size n : MinimumBalanceForRentExemption size = Ok n -> 0 <= n < two64.
Proof.
  unfold MinimumBalanceForRentExemption; destruct (call answer _) as [ v | | ] eqn:C; cbn [result_bind]; [ | done | done ].
  destruct v; try done; intros [= <-]; apply (typed _ _ C).
Qed.

(** The sender a public key stands for. *)
Lemma solanaAddressFromHex_ok pk from :
  solanaAddressFromHex pk = Some from -> exists raw, hex_decode (trim_prefix "0x" pk) = Some raw /\ len raw = 32 /\ from = b58encode raw.
Proof.
  unfold solanaAddressFromHex; destruct (hex_decode _) as [ raw | ]; [ | done ]; destruct (Z.eqb_spec (len raw) 32); [ | done ].
  intros [= <-]; eauto.
Qed.

(** A transfer that is handed out can be paid.  The message is the transfer of
    the requested amount from the key's address to the destination; at the
    balance the node reported the account can pay it with the fee, is left
    with nothing or enough to persist, and a new destination gets enough to
    exist. *)
Theorem prepared_is_affordable req b :
  handleSolanaPrepare (Some req) = (200, Prepared b) ->
  exists raw amount msg fee balance destBalance,
    hex_decode (trim_prefix "0x" (PubKeyHex req)) = Some raw /\ len raw = 32 /\ From_ b = b58encode raw /\ To_ b = Destination req /\
    parse_uint (ReqAmount req) = Some amount /\ 0 < amount < two64 /\ ResAmount b = show_int amount /\
    BuildSolanaTransferMessage b58decode {| tFrom := From_ b; tTo := To_ b; tLamports := amount; tBlockhash := ResBlockhash b |} = Ok msg /\
    MessageHex b = hex_encode msg /\
    Balance (From_ b) = Ok balance /\ Balance (To_ b) = Ok destBalance /\ FeeForMessage msg = Ok fee /\
    amount + fee <= balance /\ (balance = amount + fee \/ SolanaRentExemptMinimumLamports <= balance - amount - fee) /\
    (destBalance <> 0 \/ SolanaRentExemptMinimumLamports <= amount).
Proof.
  unfold handleSolanaPrepare; destruct configured; [ | done ]; cbn [negb].
  destruct (solanaAddressFromHex _) as [ from | ] eqn:Fr; [ | done ]; destruct (solanaAddressFromHex_ok _ _ Fr) as (raw & Hr & L & ->).
  destruct (_ =? 32); [ | done ]; cbn [negb]; destruct (parse_uint _) as [ amount | ] eqn:Am; [ | done ]; pose proof (parse_uint_range _ _ Am) as Ra.
  destruct (Z.eqb_spec amount 0); [ done | ].
  intros (balance & Bl & (destBalance & Db & ([ hash lastValid ] & Bh & (msg & Bm & (fee & Fe & H)%orElse_ok)%orElse_ok)%orElse_ok)%orElse_ok)%orElse_ok; try done.
  pose proof (Balance_range _ _ Bl) as Rb; pose proof (Fee_range _ _ Fe) as Rf; cbv zeta in H.
  destruct (_ || _) eqn:I; [ done | ]; apply orb_false_iff in I as [ I1 I2 ]; b2p.
  assert (u64 (amount + fee) = amount + fee) as N.
  { unfold u64 in *; destruct (Z.lt_ge_cases (amount + fee) two64) as [ B | B ]; [ apply Z.mod_small; lia | exfalso ].
    assert ((amount + fee) mod two64 = amount + fee - two64) as M by (symmetry; apply (Z.mod_unique_pos _ _ 1); unfold two64 in *; lia).
    rewrite M in I1; lia. }
  rewrite N in *; destruct (_ && _) eqn:D; [ done | ]; destruct (_ && _) eqn:Cr in H; [ done | ].
  unfold u64 in D; rewrite Z.mod_small in D by lia.
  injection H as <-; exists raw, amount, msg, fee, balance, destBalance; cbn; split_and!; try done; try lia.
Qed.

(** What is relayed is the given message under its fee payer's signature. *)
Theorem relayed_is_signed req r :
  handleSolanaFinalize (Some req) = (200, Finalized r) ->
  exists message sig payer, hex_decode (trim_prefix "0x" (fMessageHex req)) = Some message /\
    hex_decode (trim_prefix "0x" (SignatureHex req)) = Some sig /\ len sig = 64 /\
    SolanaMessageFeePayer message = Ok payer /\ edVerify payer message sig = true /\
    RawTxBase64 r = Base64.encode ([ 1 ] ++ sig ++ message) /\
    (if rBroadcast r then Broadcast req = true /\ SendTransaction ([ 1 ] ++ sig ++ message) = Ok (rSignature r)
     else Broadcast req = false /\ rSignature r = b58encode sig).
Proof.
  unfold handleSolanaFinalize; destruct (hex_decode (trim_prefix "0x" (fMessageHex req))) as [ message | ] eqn:Hm; [ | done ].
  destruct (hex_decode (trim_prefix "0x" (SignatureHex req))) as [ sig | ] eqn:Hs; [ | destruct message; done ].
  intros H; assert (exists tx, AssembleSolanaTransaction edVerify message sig = Ok tx /\
    (let resp := {| rSignature := SolanaSignatureID b58encode sig; RawTxBase64 := Base64.encode tx; rBroadcast := false |} in
     if negb (Broadcast req) then (200, Finalized resp) else if negb configured then (503, NoNodeToRelay resp)
     else match SendTransaction tx with Err e => (502, Unrelayed e resp) | Panic => (500, Refused InvalidBody)
          | Ok id => (200, Finalized {| rSignature := id; RawTxBase64 := RawTxBase64 resp; rBroadcast := true |}) end) = (200, Finalized r))
    as (tx & A & K) by (destruct message; [ done | apply orElse_ok in H; [ exact H | done ] ]); clear H.
  apply assemble_ok in A as (L & -> & payer & P & V); exists message, sig, payer; cbv zeta in K.
  destruct (Broadcast req); cbn [negb] in K; [ destruct configured; cbn [negb] in K; [ | done ] | ].
  - destruct (SendTransaction _) as [ id | | ] eqn:Sd; [ | done | done ]; injection K as <-; split_and!; auto; cbn; auto.
  - injection K as <-; split_and!; auto; cbn; auto.
Qed.

(** A token transfer that is handed out is covered: it moves the requested
    amount of the mint the registry described, the sender's token account holds
    it and is not frozen, and the sender's lamports pay the fee and a new
    account's rent (for a fee and a rent that together fit 64 bits). *)
Theorem token_prepared_is_covered req b :
  handleSolanaTokenPrepare (Some req) = (200, TokenPrepared b) ->
  exists raw amount decimals mint src plan fee rent sol,
    hex_decode (trim_prefix "0x" (tkPubKeyHex req)) = Some raw /\ trFrom b = b58encode raw /\ trTo b = tkDestination req /\
    parse_uint (tkAmount req) = Some amount /\ 0 < amount < two64 /\ tkDecimals req = Some decimals /\
    SPLMintInfo (tkMint req) = Ok mint /\ Decimals mint = decimals /\
    BuildSolanaTokenTransferMessage b58decode b58encode sha256 isOnCurve
      {| kFrom := trFrom b; kTo := trTo b; kMint := tkMint req; kAmount := amount; kDecimals := decimals; kBlockhash := trBlockhash b |} = Ok plan /\
    trMessageHex b = hex_encode (Message plan) /\
    SPLTokenBalance (trFrom b) (tkMint req) = Ok (SourceTokenAccount plan, true, src) /\ amount <= Amount src /\ State src <> 2 /\
    FeeForMessage (Message plan) = Ok fee /\ Balance (trFrom b) = Ok sol /\ 0 <= rent /\ (trCreates b = false -> rent = 0) /\
    (fee + rent < two64 -> fee + rent <= sol /\ (sol = fee + rent \/ SolanaRentExemptMinimumLamports <= sol - fee - rent)).
Proof.
  unfold handleSolanaTokenPrepare; destruct configured; [ | done ]; cbn [negb].
  destruct (solanaAddressFromHex _) as [ from | ] eqn:Fr; [ | done ]; destruct (solanaAddressFromHex_ok _ _ Fr) as (raw & Hr & L & ->).
  destruct (_ =? 32); [ | done ]; destruct (_ =? 32); [ | done ]; cbn [negb]; destruct (parse_uint _) as [ amount | ] eqn:Am; [ | done ]; pose proof (parse_uint_range _ _ Am) as Ra.
  destruct (Z.eqb_spec amount 0); [ done | ]; destruct (tkDecimals req) as [ decimals | ] eqn:Dc; [ | done ].
  intros (mint & Mi & H)%orElse_ok; [ | done ]; destruct (Z.eqb_spec (Decimals mint) decimals) as [ Ed | ]; [ | done ]; cbn [negb] in H.
  apply orElse_ok in H as (dest & _ & H); [ | done ]; destruct (_ && _); [ done | ].
  apply orElse_ok in H as ([ [ srcATA srcExists ] src ] & Sr & H); [ | done ]; destruct (_ || _) eqn:Ex; [ done | ]; apply orb_false_iff in Ex as [ Ex1 Ex2 ]; b2p.
  destruct (Z.eqb_spec (State src) 2); [ done | ].
  apply orElse_ok in H as ([ [ dstATA dstExists ] dst ] & _ & H); [ | done ]; destruct (_ && _); [ done | ].
  apply orElse_ok in H as ([ hash lastValid ] & _ & H); [ | done ]; apply orElse_ok in H as (plan & Bp & H); [ | done ].
  apply orElse_ok in H as (fee & Fe & H); [ | done ]; apply orElse_ok in H as (rent & Re & H); [ | done ]; apply orElse_ok in H as (sol & So & H); [ | done ].
  cbv zeta in H; destruct (Z.ltb_spec sol (u64 (fee + rent))) as [ | Ne ]; [ done | ]; destruct (_ && _) eqn:Du; [ done | ].
  assert (0 <= rent < two64) as Rr by (destruct dstExists; [ injection Re as <-; done | apply (Rent_range _ _ Re) ]).
  pose proof (Fee_range _ _ Fe) as Rf; pose proof (Balance_range _ _ So) as Rs; injection H as <-.
  assert (srcATA = SourceTokenAccount plan /\ srcExists = true) as [ -> -> ].
  { split; [ | destruct srcExists; done ]; revert Bp Sr; unfold BuildSolanaTokenTransferMessage, SPLTokenBalance; cbn [kFrom kTo kMint kAmount].
    destruct (_ =? 0); [ done | ]; destruct (String.eqb _ _); [ done | ].
    destruct (AssociatedTokenAddress _ _ _ _ (b58encode raw) (tkMint req)) as [ s0 | | ]; cbn [result_bind map_err]; [ | done | done ].
    destruct (AssociatedTokenAddress _ _ _ _ (tkDestination req) (tkMint req)) as [ d0 | | ]; cbn [result_bind]; [ | done | done ].
    destruct (BuildTransaction _ _) as [ m0 | | ]; cbn [result_bind]; [ | done | done ]; intros [= <-]; cbn [SourceTokenAccount].
    destruct (AccountInfo s0) as [ info | | ]; cbn [result_bind]; [ | done | done ]; destruct (Exists_ info); cbn [negb]; [ | intros [= <- _ _]; done ].
    destruct (String.eqb _ _); [ | done ]; cbn [negb]; destruct (ParseSPLTokenAccount _ _) as [ ta | | ]; cbn [result_bind map_err]; [ | done | done ].
    destruct (_ || _); [ done | ]; intros [= <- _ _]; done. }
  exists raw, amount, decimals, mint, src, plan, fee, rent, sol; cbn [trFrom trTo trMessageHex trBlockhash trCreates].
  rewrite <- Ed in *; split_and!; try done; try lia.
  - intros C; destruct dstExists; [ injection Re as <-; done | done ].
  - intros B; unfold u64 in Ne; rewrite Z.mod_small in Ne by lia; unfold u64 in Du; rewrite Z.mod_small in Du by lia.
    split; [ lia | ]; apply andb_false_iff in Du as [ Du | Du ]; b2p; [ left; lia | right; lia ].
Qed.

(** ** From prepare to finalize *)

Lemma trim_hex_encode b : bytes_ok b -> trim_prefix "0x" (hex_encode b) = hex_encode b.
Proof.
  intros H; destruct b as [ | z b ]; [ done | ]; apply Forall_cons in H as [ Hz _ ]; unfold byte_ok in Hz; unfold trim_prefix; cbn [hex_encode strip_prefix].
  destruct (Ascii.eqb _ _); [ | done ]; pose proof (hex_value_digit (z mod 16) (Z.mod_pos_bound z 16 ltac:(lia))) as V.
  replace (Ascii.eqb "x" (hex_digit (z mod 16))) with false; [ done | ]; symmetry; apply Ascii.eqb_neq; intros E; rewrite <- E in V; done.
Qed.

(** What base58 promises. *)
Context (b58_bytes : forall s, bytes_ok (b58decode s)).
Context (b58_inverse : forall k, bytes_ok k -> len k = 32 -> b58decode (b58encode k) = k).

Lemma u8_ok z : byte_ok (u8 z).
Proof. unfold byte_ok, u8; apply Z.mod_pos_bound; lia. Qed.

Lemma uvarint2_ok v : 0 <= v <= 65535 -> bytes_ok (uvarint 2 v).
Proof. intros H; apply uvarint_ok; cbn; lia. Qed.

Lemma encodeInstruction_bytes ordered i b : encodeInstruction ordered i = Ok b -> bytes_ok b.
Proof.
  unfold encodeInstruction; destruct (writeCompactU16 (len (Accounts i))) as [ c | | ] eqn:C; cbn [result_bind]; [ | done | done ].
  destruct (hex_decode _) as [ d | ] eqn:D; [ | done ]; destruct (_ <? len d); [ done | ]; destruct (_ <? _); [ done | ].
  destruct (writeCompactU16 (len d)) as [ z | | ] eqn:Z; cbn [result_bind]; [ | done | done ]; intros [= <-].
  apply compact_ok in C as [ Bc -> ]; apply compact_ok in Z as [ Bz -> ]; apply hex_decode_spec in D as [ D _ ].
  constructor; [ apply u8_ok | ]; repeat (apply Forall_app; split); [ apply uvarint2_ok, Bc | | apply uvarint2_ok, Bz | exact D ].
  apply Forall_forall; intros x I; apply list_elem_of_In, in_map_iff in I as (a & <- & _); apply u8_ok.
Qed.

Lemma encodeInstructions_bytes ordered l : forall b, encodeInstructions ordered l = Ok b -> bytes_ok b.
Proof.
  induction l as [ | i l IH ]; intros b; cbn [encodeInstructions]; [ intros [= <-]; constructor | ].
  destruct (encodeInstruction _ i) as [ x | | ] eqn:X; cbn [result_bind]; [ | done | done ].
  destruct (encodeInstructions _ l) as [ y | | ] eqn:Y; cbn [result_bind]; [ | done | done ]; intros [= <-].
  apply Forall_app; split; [ apply (encodeInstruction_bytes _ _ _ X) | apply (IH _ eq_refl) ].
Qed.

Lemma message_bytes req msg : BuildTransaction b58decode req = Ok msg -> bytes_ok msg.
Proof.
  intros B; destruct (build_gathers _ _ _ B) as (D & Few & Ni & _ & body & En & ->).
  repeat (apply Forall_app; split); [ | | | apply b58_bytes | | ].
  - repeat (constructor; [ apply u8_ok | ]); constructor.
  - apply uvarint2_ok; pose proof (len_nonneg (orderAccounts (gather b58decode (mentions req)))); lia.
  - apply Forall_forall; intros x I; apply list_elem_of_In, in_flat_map in I as (a & Ia & Ix).
    apply list_elem_of_In, (table_entries _ _ D) in Ia as (K & _); rewrite K in Ix; pose proof (b58_bytes (pub a)) as F.
    unfold bytes_ok in F; rewrite Forall_forall in F; apply F, list_elem_of_In, Ix.
  - apply uvarint2_ok; pose proof (len_nonneg (Instructions req)); lia.
  - apply (encodeInstructions_bytes _ _ _ En).
Qed.

(** What prepare hands out, finalize accepts: with a signature of the key over
    the prepared message, finalize returns the transaction of that message. *)
Theorem prepared_then_finalized req b raw msg sig :
  handleSolanaPrepare (Some req) = (200, Prepared b) ->
  hex_decode (trim_prefix "0x" (PubKeyHex req)) = Some raw -> hex_decode (MessageHex b) = Some msg ->
  bytes_ok sig -> len sig = 64 -> edVerify raw msg sig = true ->
  handleSolanaFinalize (Some {| fMessageHex := MessageHex b; SignatureHex := hex_encode sig; Broadcast := false |}) =
  (200, Finalized {| rSignature := b58encode sig; RawTxBase64 := Base64.encode ([ 1 ] ++ sig ++ msg); rBroadcast := false |}).
Proof.
  intros P Hr Hm Os Ls V; destruct (prepared_is_affordable _ _ P) as (raw' & amount & msg' & fee & bal & dbal & Hr' & Lr & Fr & _ & _ & _ & _ & Bm & Mh & _).
  assert (raw' = raw) as -> by congruence; pose proof Bm as Bt; unfold BuildSolanaTransferMessage in Bt.
  destruct (_ =? 0); [ done | ]; destruct (String.eqb _ _); [ done | ]; pose proof (message_bytes _ _ Bt) as Om.
  rewrite Mh, hex_decode_encode in Hm by done; injection Hm as <-.
  assert (SolanaMessageFeePayer msg' = Ok raw) as Py.
  { rewrite (fee_payer_of _ _ _ Bt); [ cbn [FeePayer transferRequest tFrom]; rewrite Fr, b58_inverse; [ done | apply (hex_decode_spec _ _ Hr) | done ] | ].
    intros p [ -> | (i & a & Ii & Ia & <- & F) ]; [ done | ]; apply list_elem_of_singleton in Ii as ->; cbn in Ia.
    apply elem_of_cons in Ia as [ -> | Ia ]; [ done | ]; apply list_elem_of_singleton in Ia as ->; done. }
  unfold handleSolanaFinalize; cbn [fMessageHex SignatureHex Broadcast]; rewrite Mh, !trim_hex_encode, !hex_decode_encode by done.
  assert (AssembleSolanaTransaction edVerify msg' sig = Ok ([ 1 ] ++ sig ++ msg')) as -> by (apply assemble_ok; eauto).
  destruct msg'; [ done | ]; reflexivity.
Qed.

End Client.
(** ** An instance *)

Module Simple.
Import Solana.Simple.

(** A node where everybody is rich and fees are 5000. *)
Definition bank (c : Call) : Exchange :=
  match c with
  | getLatestBlockhash => Answered 200 (Some (inl (Blockhash (fixed "h") 100)))
  | getBalance _ => Answered 200 (Some (inl (Lamports 5000000)))
  | getFeeForMessage _ => Answered 200 (Some (inl (Fee (Some 5000))))
  | _ => NotReached
  end.

Lemma bank_typed c v : call bank c = Ok v -> value_typed v.
Proof. destruct c; cbn; try done; intros [= <-]; cbn; unfold two64; lia. Qed.

Definition key32 : bytes := to_bytes alice.
Definition ask : solanaPrepareRequest := {| PubKeyHex := hex_encode key32; Destination := bob; ReqAmount := "1000000" |}.

Definition prepared : solanaPrepareResponse :=
  match handleSolanaPrepare bank dec of_bytes true (Some ask) with (_, Prepared b) => b
  | _ => {| MessageHex := ""; From_ := ""; To_ := ""; ResAmount := ""; ResFee := ""; ResBalance := ""; ResBlockhash := ""; LastValidBlockHeight := 0 |} end.

Lemma prepares : handleSolanaPrepare bank dec of_bytes true (Some ask) = (200, Prepared prepared).
Proof. vm_compute; reflexivity. Qed.

Lemma dec_bytes s : bytes_ok (dec s).
Proof. apply to_bytes_ok. Qed.

Lemma dec_inverse k : bytes_ok k -> len k = 32 -> dec (of_bytes k) = k.
Proof. intros H _; apply to_of_bytes, H. Qed.

Lemma prepared_is_affordable_witness : exists amount fee, 0 < amount /\ Balance bank (From_ prepared) = Ok 5000000 /\ amount + fee <= 5000000.
Proof.
  destruct (prepared_is_affordable bank dec of_bytes true bank_typed ask prepared prepares)
    as (raw & amount & msg & fee & bal & dbal & _ & _ & _ & _ & _ & A & _ & _ & _ & B & _ & _ & L & _).
  exists amount, fee; split; [ lia | ]; split; [ reflexivity | ].
  assert (Balance bank (From_ prepared) = Ok 5000000) as B' by reflexivity; rewrite B' in B; injection B as <-; exact L.
Defined.

Definition preparedMessage : bytes := default [] (hex_decode (MessageHex prepared)).

Lemma prepared_then_finalized_witness :
  handleSolanaFinalize bank of_bytes true accepts (Some {| fMessageHex := MessageHex prepared; SignatureHex := hex_encode sig64; Broadcast := false |}) =
  (200, Finalized {| rSignature := of_bytes sig64; RawTxBase64 := Base64.encode ([ 1 ] ++ sig64 ++ preparedMessage); rBroadcast := false |}).
Proof.
  apply (prepared_then_finalized bank dec of_bytes true accepts bank_typed dec_bytes dec_inverse ask prepared key32 preparedMessage sig64 prepares);
    [ vm_compute; reflexivity | vm_compute; reflexivity | repeat constructor; unfold byte_ok; lia | reflexivity | reflexivity ].
Defined.

Lemma relayed_is_signed_witness : exists payer, SolanaMessageFeePayer preparedMessage = Ok payer /\ accepts payer preparedMessage sig64 = true.
Proof.
  destruct (relayed_is_signed bank of_bytes true accepts {| fMessageHex := MessageHex prepared; SignatureHex := hex_encode sig64; Broadcast := false |}
    {| rSignature := of_bytes sig64; RawTxBase64 := Base64.encode ([ 1 ] ++ sig64 ++ preparedMessage); rBroadcast := false |})
    as (message & sig & payer & Hm & _ & _ & P & V & _); [ vm_compute; reflexivity | ].
  assert (message = preparedMessage) as -> by (vm_compute in Hm |- *; congruence).
  exists payer; split; [ exact P | exact V ].
Defined.

(** A token account and a mint, as the Token program lays them out. *)
Definition mintData : bytes := repeat 0 36 ++ le_bytes 8 1000 ++ [ 6; 1 ] ++ repeat 0 36.
Definition tokenData (mint owner : bytes) : bytes := mint ++ owner ++ le_bytes 8 900 ++ repeat 0 36 ++ [ 1 ] ++ repeat 0 56.
Definition coin : string := fixed "m".

Definition tokenBank (fee rent : Z) (c : Call) : Exchange :=
  match c with
  | getLatestBlockhash => Answered 200 (Some (inl (Blockhash (fixed "h") 100)))
  | getBalance _ => Answered 200 (Some (inl (Lamports 5000000)))
  | getFeeForMessage _ => Answered 200 (Some (inl (Fee (Some fee))))
  | getMinimumBalanceForRentExemption _ => Answered 200 (Some (inl (Lamports rent)))
  | getAccountInfo a =>
      Answered 200 (Some (inl (Account (
        if String.eqb a coin then Some (TokenProgramID, 1, [ Base64.encode mintData ])
        else if String.eqb a bob then None
        else if String.eqb a (fixed "s") then Some (TokenProgramID, 1, [ Base64.encode (tokenData (to_bytes coin) (to_bytes alice)) ])
        else None))))
  | _ => NotReached
  end.

(** The digest tells the two token accounts apart by the first seed. *)
Definition tellApart (b : bytes) : bytes := to_bytes (if bool_decide (head b = head (to_bytes alice)) then fixed "s" else fixed "d").

Definition askToken : solanaTokenPrepareRequest :=
  {| tkPubKeyHex := hex_encode key32; tkDestination := bob; tkMint := coin; tkAmount := "5"; tkDecimals := Some 6 |}.

Definition tokenPrepared (fee rent : Z) : Z * Body :=
  handleSolanaTokenPrepare (tokenBank fee rent) cut of_bytes tellApart offCurve true (Some askToken).

Definition tokenAnswer : solanaTokenPrepareResponse :=
  match tokenPrepared 5000 2000000 with (_, TokenPrepared b) => b
  | _ => {| trMessageHex := ""; trFrom := ""; trTo := ""; trMint := ""; trSource := ""; trDest := ""; trCreates := false; trAmount := "";
            trDecimals := 0; trFee := ""; trRent := ""; trSolBalance := ""; trTokenBalance := ""; trBlockhash := ""; trLastValid := 0 |} end.

Lemma tokenBank_typed c v : call (tokenBank 5000 2000000) c = Ok v -> value_typed v.
Proof. destruct c; cbn; try done; intros [= <-]; cbn; unfold two64; try lia; done. Qed.

Lemma token_prepared_is_covered_witness : exists src amount, SPLTokenBalance (tokenBank 5000 2000000) cut of_bytes tellApart offCurve (trFrom tokenAnswer) coin = Ok src /\
  amount = 5 /\ trCreates tokenAnswer = true.
Proof.
  destruct (token_prepared_is_covered (tokenBank 5000 2000000) cut of_bytes tellApart offCurve true tokenBank_typed askToken tokenAnswer)
    as (raw & amount & decimals & mint & src & plan & fee & rent & sol & _ & _ & _ & Am & _ & _ & _ & _ & _ & _ & Sr & _); [ vm_compute; reflexivity | ].
  eexists _, amount; split; [ exact Sr | ]; split; [ vm_compute in Am; congruence | vm_compute; reflexivity ].
Defined.

(** The sum of fee and rent is not checked for overflow here, as it is for
    native transfers: a node whose answers wrap is believed. *)
Lemma wrapped_fees_pass : exists b, tokenPrepared 5000 (two64 - 5000) = (200, TokenPrepared b).
Proof. eexists; vm_compute; reflexivity. Qed.

End Simple.

End SolanaService.
