(* ===== verification/Protobuf.v ===== *)
(** * Protocol buffer messages

    The wire format that [chains/cosmos_tx.go] writes by hand with the package
    [protowire] of google.golang.org/protobuf.  The package is the interface
    [Protowire]: its three append functions and the reader of a varint, with
    what its documentation says of them as [ProtowireLaws]; [Leb128] is a
    concrete instance.

    A message is a list of fields.  [read_fields] reads one back, so that what
    the code wrote can be stated as what a reader of the schema sees. *)

From Stdlib Require Import ZArith Lia Ascii String.
From stdpp Require Import base list numbers strings.
From S2P Require Import Prelude GoStrings Wire.

Open Scope Z_scope.

Module Protobuf.
Import Wire.

Class Protowire := {
  AppendVarint : bytes -> Z -> bytes;
  AppendTag : bytes -> Z -> Z -> bytes;
  AppendBytes : bytes -> bytes -> bytes;
  ConsumeVarint : bytes -> option (Z * bytes);
}.

Class ProtowireLaws `{Protowire} : Prop := {
  append_varint b v : AppendVarint b v = b ++ AppendVarint [] v;
  append_tag b num typ : AppendTag b num typ = AppendVarint b (8 * num + typ);
  append_bytes b v : AppendBytes b v = AppendVarint b (len v) ++ v;
  varint_bytes v : bytes_ok (AppendVarint [] v);
  varint_nonempty v : AppendVarint [] v <> [];
  consume_varint v rest : in_u64 v -> ConsumeVarint (AppendVarint [] v ++ rest) = Some (v, rest);
}.

(** [protowire.VarintType] and [protowire.BytesType] *)
Definition VarintType : Z := 0.
Definition BytesType : Z := 2.

Inductive Field : Type :=
  | FVarint (num v : Z)
  | FBytes (num : Z) (payload : bytes).

Definition number (f : Field) : Z := match f with FVarint n _ => n | FBytes n _ => n end.

Section Messages.
Context {PW : Protowire} {PL : ProtowireLaws}.

Definition encode_field (f : Field) : bytes :=
  match f with
  | FVarint num v => AppendVarint [] (8 * num + VarintType) ++ AppendVarint [] v
  | FBytes num p => AppendVarint [] (8 * num + BytesType) ++ AppendVarint [] (len p) ++ p
  end.

Definition encode_fields (fs : list Field) : bytes := concat (map encode_field fs).

Fixpoint read_loop (fuel : nat) (b : bytes) : option (list Field) :=
  match b, fuel with
  | [], _ => Some []
  | _, O => None
  | _, S fuel =>
      '(t, r) ← ConsumeVarint b;
      if t mod 8 =? VarintType then '(v, r) ← ConsumeVarint r; fs ← read_loop fuel r; Some (FVarint (t / 8) v :: fs)
      else if t mod 8 =? BytesType then
        '(n, r) ← ConsumeVarint r; '(p, r) ← take_n (Z.to_nat n) r; fs ← read_loop fuel r; Some (FBytes (t / 8) p :: fs)
      else None
  end.

Definition read_fields (b : bytes) : option (list Field) := read_loop (length b) b.

(** ** Reading back *)

Definition field_ok (f : Field) : Prop :=
  1 <= number f < 536870912 /\ match f with FVarint _ v => in_u64 v | FBytes _ p => len p < two64 end.

Lemma tag_ok num typ : 1 <= num < 536870912 -> 0 <= typ < 8 -> in_u64 (8 * num + typ).
Proof. unfold in_u64, two64; lia. Qed.

Lemma tag_parts num typ : 0 <= typ < 8 -> (8 * num + typ) mod 8 = typ /\ (8 * num + typ) / 8 = num.
Proof.
  intros H; replace (8 * num + typ) with (typ + num * 8) by lia.
  rewrite Z.mod_add, Z.div_add, Z.mod_small, Z.div_small by lia; done.
Qed.

Lemma encode_nonempty f : encode_field f <> [].
Proof. destruct f; cbn; intros E; apply app_eq_nil in E as [ E _ ]; exact (varint_nonempty _ E). Qed.

Lemma read_field fuel f rest :
  field_ok f -> read_loop (S fuel) (encode_field f ++ rest) = fs ← read_loop fuel rest; Some (f :: fs).
Proof.
  intros [ N V ]; pose proof (encode_nonempty f) as NE.
  destruct (encode_field f ++ rest) as [ | x l ] eqn:E; [ apply app_eq_nil in E as [ E _ ]; done | ].
  change (read_loop (S fuel) (x :: l)) with
    ('(t, r) ← ConsumeVarint (x :: l);
     if t mod 8 =? VarintType then '(v, r) ← ConsumeVarint r; fs ← read_loop fuel r; Some (FVarint (t / 8) v :: fs)
     else if t mod 8 =? BytesType then
       '(n, r) ← ConsumeVarint r; '(p, r) ← take_n (Z.to_nat n) r; fs ← read_loop fuel r; Some (FBytes (t / 8) p :: fs)
     else None); rewrite <- E; clear E.
  destruct f as [ num v | num p ]; cbn [number encode_field] in *; rewrite <- !app_assoc.
  - rewrite consume_varint by (apply tag_ok; [ done | unfold VarintType; lia ]); cbn [mbind option_bind].
    destruct (tag_parts num VarintType ltac:(unfold VarintType; lia)) as [ -> -> ]; rewrite Z.eqb_refl.
    rewrite consume_varint by done; done.
  - rewrite consume_varint by (apply tag_ok; [ done | unfold BytesType; lia ]); cbn [mbind option_bind].
    destruct (tag_parts num BytesType ltac:(unfold BytesType; lia)) as [ -> -> ]; change (BytesType =? VarintType) with false.
    rewrite Z.eqb_refl, consume_varint by (split; [ apply len_nonneg | done ]); cbn [mbind option_bind].
    rewrite take_n_app by (unfold len; lia); done.
Qed.

Lemma read_loop_encode fs : forall fuel, (length fs <= fuel)%nat -> Forall field_ok fs -> read_loop fuel (encode_fields fs) = Some fs.
Proof.
  induction fs as [ | f fs IH ]; intros fuel L F; [ destruct fuel; done | ].
  inversion F; subst; destruct fuel as [ | fuel ]; cbn in L; [ lia | ].
  cbn [encode_fields map concat]; rewrite read_field by done; fold (encode_fields fs); rewrite IH by (done || lia); done.
Qed.

Lemma encode_length fs : (length fs <= length (encode_fields fs))%nat.
Proof.
  induction fs as [ | f fs IH ]; cbn; [ done | ]; rewrite length_app; pose proof (encode_nonempty f).
  destruct (encode_field f); [ done | cbn; unfold encode_fields in IH; lia ].
Qed.

Lemma read_encode fs : Forall field_ok fs -> read_fields (encode_fields fs) = Some fs.
Proof. intros F; apply read_loop_encode; [ apply encode_length | done ]. Qed.

Lemma encode_app fs gs : encode_fields (fs ++ gs) = encode_fields fs ++ encode_fields gs.
Proof. unfold encode_fields; rewrite map_app, concat_app; done. Qed.

(** A field of a message is shorter than the message. *)
Lemma payload_le fs n p : FBytes n p ∈ fs -> len p <= len (encode_fields fs).
Proof.
  intros E; apply list_elem_of_split in E as (l & k & ->); rewrite encode_app; cbn [encode_fields map concat encode_field].
  rewrite !len_app; pose proof (len_nonneg (encode_fields l)); pose proof (len_nonneg (AppendVarint [] (8 * n + BytesType))).
  pose proof (len_nonneg (AppendVarint [] (len p))); pose proof (len_nonneg (concat (map encode_field k))); lia.
Qed.

(** What is left to check of a message short enough to be a slice. *)
Definition plain (f : Field) : Prop :=
  1 <= number f < 536870912 /\ match f with FVarint _ v => in_u64 v | FBytes _ _ => True end.

Lemma short_ok fs : len (encode_fields fs) < two64 -> Forall plain fs -> Forall field_ok fs.
Proof.
  intros L F; apply Forall_forall; intros f E; rewrite Forall_forall in F; destruct (F _ E) as [ N V ]; split; [ done | ].
  destruct f; [ done | ]; pose proof (payload_le _ _ _ E); lia.
Qed.

Lemma read_short fs : len (encode_fields fs) < two64 -> Forall plain fs -> read_fields (encode_fields fs) = Some fs.
Proof. intros L F; apply read_encode, short_ok; done. Qed.

Lemma encode_bytes fs : (forall n p, FBytes n p ∈ fs -> bytes_ok p) -> bytes_ok (encode_fields fs).
Proof.
  induction fs as [ | f fs IH ]; intros P; [ constructor | ].
  apply Forall_app; split; [ | apply IH; intros n p E; apply (P n); right; done ].
  destruct f as [ n v | n p ]; cbn in *; repeat (apply Forall_app; split); try apply varint_bytes; apply (P n); left.
Qed.

(** ** Fields of a schema

    Proto3: a field that is absent has its zero value, and the last of several
    occurrences of a singular field counts. *)

Definition payloads (n : Z) (fs : list Field) : list bytes :=
  omap (fun f => match f with FBytes m p => if m =? n then Some p else None | FVarint _ _ => None end) fs.
Definition varints (n : Z) (fs : list Field) : list Z :=
  omap (fun f => match f with FVarint m v => if m =? n then Some v else None | FBytes _ _ => None end) fs.

Definition get_bytes (n : Z) (fs : list Field) : bytes := default [] (last (payloads n fs)).
Definition get_string (n : Z) (fs : list Field) : string := of_bytes (get_bytes n fs).
Definition get_uint (n : Z) (fs : list Field) : Z := default 0 (last (varints n fs)).

(** A reader that refuses fields its schema does not have. *)
Definition message (known : list Z) (b : bytes) : option (list Field) :=
  fs ← read_fields b; if forallb (fun f => existsb (Z.eqb (number f)) known) fs then Some fs else None.

Lemma message_encode known fs :
  len (encode_fields fs) < two64 -> Forall plain fs -> forallb (fun f => existsb (Z.eqb (number f)) known) fs = true ->
  message known (encode_fields fs) = Some fs.
Proof. intros L F K; unfold message; rewrite read_short by done; cbn; rewrite K; done. Qed.

End Messages.

(** ** The encoding of protocol buffers itself *)

Lemma uvarint_bytes fuel v : bytes_ok (uvarint fuel v).
Proof.
  revert v; induction fuel as [ | fuel IH ]; intros v; cbn [uvarint]; rewrite low7; pose proof (Z.mod_pos_bound v 128 ltac:(lia)).
  - repeat constructor; lia.
  - destruct (_ =? 0); [ repeat constructor; lia | ]; rewrite high_bit by lia; constructor; [ unfold byte_ok; lia | apply IH ].
Qed.

#[export] Instance Leb128 : Protowire := {
  AppendVarint b v := b ++ uvarint 9 v;
  AppendTag b num typ := b ++ uvarint 9 (8 * num + typ);
  AppendBytes b v := b ++ uvarint 9 (len v) ++ v;
  ConsumeVarint := read_uvarint 10;
}.

#[export] Instance Leb128Laws : ProtowireLaws.
Proof.
  split; cbn [AppendVarint AppendTag AppendBytes ConsumeVarint Leb128].
  - intros b v; rewrite app_nil_l; done.
  - done.
  - intros b v; rewrite app_assoc; done.
  - intros v; rewrite app_nil_l; apply uvarint_bytes.
  - intros v; rewrite app_nil_l; cbn [uvarint]; destruct (_ =? 0); done.
  - intros v rest V; rewrite app_nil_l; apply read_write; unfold in_u64, two64 in V; change (128 ^ (Z.of_nat 9 + 1)) with 1180591620717411303424; lia.
Qed.

End Protobuf.
