(* ===== verification/Cosmos.v ===== *)
(** * Cosmos: addresses, signatures and bank sends

    Models [services/mpc-signer/chains/cosmos.go] and [cosmos_tx.go]: address
    derivation, the signer's methods, the hand-written SIGN_MODE_DIRECT
    encoding of a bank send with its digest ([PlanCosmosSend]) and the assembly
    of the signed transaction ([AssembleCosmosTx]).

    SHA-256, RIPEMD-160, bech32, secp256k1 and JSON are parameters; the wire
    format is the interface of Protobuf.v.

    What is shown: the digest that is signed is that of a document which a
    reader of the Cosmos schemas understands as exactly the send asked for; an
    assembled transaction carries that document's parts and a signature, low in
    S, that verifies over it; and the address is the one a party derives. *)

From Stdlib Require Import ZArith Lia Ascii String.
From stdpp Require Import base list numbers strings gmap.
From S2P Require Import Prelude GoStrings GoText EthCrypto CoinSelect BitcoinPlan KeyShare Protobuf Solana.

Open Scope Z_scope.

Module Cosmos.
Import Protobuf.
#[local] Open Scope string_scope.
#[local] Open Scope list_scope.
#[local] Open Scope Z_scope.

Inductive CosErr : Type :=
  | HashLength (n : Z) | BadPrivateKey | SigningFailed (e : EthCrypto.CryptoErr) | NoSignature | BadPublicKeyHex | BadSignatureHex
  | ShortSignature (n : Z) | RecoverLength (n : Z) | RecoveryFailed | CompressedLength (n : Z) | ConvertFailed | Bech32Failed
  | NoChainID | NoMessages | EncodeFailed
  | MissingField | SameAccount | BadAmount (label v : string) | NoGas | BadPublicKey
  | NoPlan | BadBodyHex | BadAuthInfoHex | ComponentLength (r s : Z) | OutOfRange | NotVerified.

(** ** The wire format of a send *)

Definition msgSendTypeURL : string := "/cosmos.bank.v1beta1.MsgSend".
Definition secp256k1PubKeyType : string := "/cosmos.crypto.secp256k1.PubKey".
Definition signModeDirect : Z := 1.

Record CosmosSend := {
  ChainID : string; AccountNumber : Z; Sequence : Z; From : string; To : string; Denom : string; Amount : string;
  FeeDenom : string; FeeAmount : string; GasLimit : Z; Memo : string; PubKey : bytes;
}.
Record CosmosSigningPlan := {
  BodyBytesHex : string; AuthInfoBytesHex : string; planChainID : string; planAccountNumber : Z; DigestHex : string;
}.
Record CosmosTx := { Raw : bytes; Hash : string }.

Section Fields.
Context {PW : Protowire}.

Definition appendBytesField (b : bytes) (num : Z) (v : bytes) : bytes := AppendBytes (AppendTag b num BytesType) v.
Definition appendStringField (b : bytes) (num : Z) (s : string) : bytes :=
  if String.eqb s "" then b else appendBytesField b num (to_bytes s).
Definition appendVarintField (b : bytes) (num v : Z) : bytes :=
  if v =? 0 then b else AppendVarint (AppendTag b num VarintType) v.
Definition encodeCoin (denom amount : string) : bytes := appendStringField (appendStringField [] 1 denom) 2 amount.
Definition encodeAny (typeURL : string) (value : bytes) : bytes := appendBytesField (appendStringField [] 1 typeURL) 2 value.

(** The message, body and authorisation [PlanCosmosSend] writes. *)
Definition sendBody (s : CosmosSend) : bytes :=
  let msg := appendStringField [] 1 (From s) in
  let msg := appendStringField msg 2 (To s) in
  let msg := appendBytesField msg 3 (encodeCoin (Denom s) (Amount s)) in
  let body := appendBytesField [] 1 (encodeAny msgSendTypeURL msg) in
  appendStringField body 2 (Memo s).

Definition sendAuthInfo (s : CosmosSend) (compressed : bytes) : bytes :=
  let pubAny := encodeAny secp256k1PubKeyType (appendBytesField [] 1 compressed) in
  let single := appendVarintField [] 1 signModeDirect in
  let modeInfo := appendBytesField [] 1 single in
  let signerInfo := appendBytesField [] 1 pubAny in
  let signerInfo := appendBytesField signerInfo 2 modeInfo in
  let signerInfo := appendVarintField signerInfo 3 (Sequence s) in
  let fee := appendBytesField [] 1 (encodeCoin (FeeDenom s) (FeeAmount s)) in
  let fee := appendVarintField fee 2 (GasLimit s) in
  let authInfo := appendBytesField [] 1 signerInfo in
  appendBytesField authInfo 2 fee.

(** The document whose hash is signed. *)
Definition signDoc (body authInfo : bytes) (chainID : string) (accountNumber : Z) : bytes :=
  let doc := appendBytesField [] 1 body in
  let doc := appendBytesField doc 2 authInfo in
  let doc := appendStringField doc 3 chainID in
  appendVarintField doc 4 accountNumber.

Definition rawTx (body authInfo sig : bytes) : bytes :=
  appendBytesField (appendBytesField (appendBytesField [] 1 body) 2 authInfo) 3 sig.
End Fields.

(** [strings.TrimLeft(v, "0")] and [strings.ToUpper] on ASCII. *)
Fixpoint trim_zeros (v : string) : string :=
  match v with String c t => if Ascii.eqb c "0" then trim_zeros t else v | EmptyString => v end.
Definition upper_ascii (c : ascii) : ascii := let n := chr c in if (97 <=? n) && (n <=? 122) then asc (n - 32) else c.
Fixpoint to_upper (s : string) : string := match s with String c t => String (upper_ascii c) (to_upper t) | EmptyString => s end.

Definition validateCosmosAmount (label v : string) : result CosErr unit :=
  match big_of_dec v with
  | Some n => if (n <=? 0) || negb (String.eqb (trim_zeros v) v) then Err (BadAmount label v) else Ok tt
  | None => Err (BadAmount label v)
  end.

(** ** Keys and signatures *)

(** secp256k1 as btcec has it. *)
Class Secp256k1 := {
  Point : Type;
  ParsePubKey : bytes -> option Point;
  SerializeCompressed : Point -> bytes;
  (** [ModNScalar]: [SetByteSlice] with its overflow flag, [IsOverHalfOrder], [Negate] and [Bytes] *)
  SetByteSlice : bytes -> Z * bool;
  IsOverHalfOrder : Z -> bool;
  Negate : Z -> Z;
  ScalarBytes : Z -> bytes;
  EcdsaVerify : Z -> Z -> bytes -> Point -> bool;
}.

Class Secp256k1Laws `{Secp256k1} : Prop := {
  compressed_length p : len (SerializeCompressed p) = 33;
  compressed_bytes p : bytes_ok (SerializeCompressed p);
  parse_compressed p : ParsePubKey (SerializeCompressed p) = Some p;
  set_byte_slice b : bytes_ok b -> len b = 32 -> SetByteSlice b = (be_val b mod EthCrypto.curveN, EthCrypto.curveN <=? be_val b);
  over_half_order v : 0 <= v < EthCrypto.curveN -> IsOverHalfOrder v = (BitcoinPlan.halfOrder <? v);
  negate_scalar v : 0 < v < EthCrypto.curveN -> Negate v = EthCrypto.curveN - v;
  scalar_bytes v : 0 <= v < EthCrypto.curveN -> len (ScalarBytes v) = 32 /\ bytes_ok (ScalarBytes v) /\ be_val (ScalarBytes v) = v;
}.

Definition DefaultCosmosPrefix : string := "cosmos".

Section Addresses.
Context (sha256 ripemd160 : bytes -> bytes) (convertBits : bytes -> option bytes) (bech32Encode : string -> bytes -> option string).

Definition CosmosAddressFromPubKey (compressedPubKey : bytes) (prefix : string) : result CosErr string :=
  refuse! negb (len compressedPubKey =? 33) with CompressedLength (len compressedPubKey);
  let prefix := if String.eqb prefix "" then DefaultCosmosPrefix else prefix in
  match convertBits (ripemd160 (sha256 compressedPubKey)) with
  | None => Err ConvertFailed
  | Some converted => match bech32Encode prefix converted with None => Err Bech32Failed | Some addr => Ok addr end
  end.

Context (scalarBaseMult : bytes -> Z * Z) (signCompact : Z -> bytes -> bytes) (recoverCompact : bytes -> bytes -> option (Z * Z)).

Definition SignMessage (messageHash : bytes) (privKeyHex : string) : result CosErr Solana.Signature :=
  refuse! negb (len messageHash =? 32) with HashLength (len messageHash);
  match EthCrypto.HexToECDSA scalarBaseMult (Solana.strip0x privKeyHex) with
  | Ok privKey =>
      let! signature := map_err SigningFailed (EthCrypto.Sign signCompact messageHash privKey) in
      let! r := slice signature 0 32 in
      let! s := slice signature 32 64 in
      let! v := index signature 64 in
      Ok {| Solana.R := hex_encode r; Solana.S_ := hex_encode s; Solana.V := v; Solana.SignatureBytes := hex_encode signature |}
  | Err _ => Err BadPrivateKey
  | Panic => Panic
  end.

Definition RecoverAddress (messageHash : bytes) (signature : option Solana.Signature) : result CosErr string :=
  match signature with
  | None => Err NoSignature
  | Some signature =>
      match hex_decode (Solana.strip0x (Solana.SignatureBytes signature)) with
      | None => Err BadSignatureHex
      | Some sigBytes =>
          refuse! negb (len sigBytes =? 65) with RecoverLength (len sigBytes);
          match EthCrypto.SigToPub recoverCompact messageHash sigBytes with
          | Ok (x, y) =>
              match EthCrypto.CompressPubkey x y with
              | Ok compressed => CosmosAddressFromPubKey compressed DefaultCosmosPrefix
              | Err _ | Panic => Panic
              end
          | Err _ => Err RecoveryFailed
          | Panic => Panic
          end
      end
  end.
End Addresses.

(** [json.Marshal] of a tree of maps, lists and strings. *)
Inductive Json : Type := JString (s : string) | JList (l : list Json) | JObject (l : list (string * Json)).
Record CosmosFee := { feeAmountText : string; feeGas : string }.
Record CosmosSignRequest := {
  Messages : list Json; Fee : CosmosFee; Timeout : Z; AccountNum : Z; reqSequence : Z; reqChainID : string;
}.

Section Signing.
Context (sha256 : bytes -> bytes) (marshal : Json -> option bytes).

(** The legacy amino document; the keys of a map are written in order. *)
Definition aminoDoc (req : CosmosSignRequest) : Json :=
  JObject ([ ("account_number", JString (show_int (AccountNum req))); ("chain_id", JString (reqChainID req));
             ("fee", JObject [ ("amount", JString (feeAmountText (Fee req))); ("gas", JString (feeGas (Fee req))) ]);
             ("memo", JString ""); ("msgs", JList (Messages req)); ("sequence", JString (show_int (reqSequence req))) ] ++
           (if 0 <? Timeout req then [ ("timeout_height", JString (show_int (Timeout req))) ] else [])).

Definition BuildTransaction (req : CosmosSignRequest) : result CosErr bytes :=
  refuse! String.eqb (reqChainID req) "" with NoChainID;
  refuse! len (Messages req) =? 0 with NoMessages;
  match marshal (aminoDoc req) with None => Err EncodeFailed | Some encoded => Ok (sha256 encoded) end.

Context {PW : Protowire} {SC : Secp256k1}.

Definition VerifySignature (messageHash : bytes) (signature : option Solana.Signature) (pubKeyHex : string) : result CosErr bool :=
  match signature with
  | None => Err NoSignature
  | Some signature =>
      match hex_decode (Solana.strip0x pubKeyHex) with
      | None => Err BadPublicKeyHex
      | Some pubKeyBytes =>
          match hex_decode (Solana.strip0x (Solana.SignatureBytes signature)) with
          | None => Err BadSignatureHex
          | Some sigBytes =>
              refuse! len sigBytes <? 64 with ShortSignature (len sigBytes);
              let! rs := slice sigBytes 0 64 in
              Ok (EthCrypto.VerifySignature Point ParsePubKey SetByteSlice IsOverHalfOrder EcdsaVerify pubKeyBytes messageHash rs)
          end
      end
  end.

(** ** Planning and assembly *)

Definition cosmosSignDocDigest (body authInfo : bytes) (chainID : string) (accountNumber : Z) : bytes :=
  sha256 (signDoc body authInfo chainID accountNumber).

Definition PlanCosmosSend (s : CosmosSend) : result CosErr CosmosSigningPlan :=
  refuse! String.eqb (ChainID s) "" with NoChainID;
  refuse! String.eqb (From s) "" || String.eqb (To s) "" || String.eqb (Denom s) "" || String.eqb (FeeDenom s) "" with MissingField;
  refuse! String.eqb (From s) (To s) with SameAccount;
  let! _ := validateCosmosAmount "amount" (Amount s) in
  let! _ := validateCosmosAmount "fee" (FeeAmount s) in
  refuse! GasLimit s =? 0 with NoGas;
  match ParsePubKey (PubKey s) with
  | None => Err BadPublicKey
  | Some pub =>
      let body := sendBody s in
      let authInfo := sendAuthInfo s (SerializeCompressed pub) in
      let digest := cosmosSignDocDigest body authInfo (ChainID s) (AccountNumber s) in
      Ok {| BodyBytesHex := hex_encode body; AuthInfoBytesHex := hex_encode authInfo; planChainID := ChainID s;
            planAccountNumber := AccountNumber s; DigestHex := hex_encode digest |}
  end.

Definition AssembleCosmosTx (plan : option CosmosSigningPlan) (r s pubKey : bytes) : result CosErr CosmosTx :=
  match plan with
  | None => Err NoPlan
  | Some plan =>
      match hex_decode (BodyBytesHex plan) with
      | None => Err BadBodyHex
      | Some body =>
          match hex_decode (AuthInfoBytesHex plan) with
          | None => Err BadAuthInfoHex
          | Some authInfo =>
              refuse! negb (len r =? 32) || negb (len s =? 32) with ComponentLength (len r) (len s);
              match ParsePubKey pubKey with
              | None => Err BadPublicKey
              | Some pub =>
                  let digest := cosmosSignDocDigest body authInfo (planChainID plan) (planAccountNumber plan) in
                  let '(rs, over_r) := SetByteSlice r in
                  let '(ss, over_s) := SetByteSlice s in
                  refuse! over_r || over_s || (rs =? 0) || (ss =? 0) with OutOfRange;
                  let ss := if IsOverHalfOrder ss then Negate ss else ss in
                  refuse! negb (EcdsaVerify rs ss digest pub) with NotVerified;
                  let raw := rawTx body authInfo (ScalarBytes rs ++ ScalarBytes ss) in
                  Ok {| Raw := raw; Hash := to_upper (hex_encode (sha256 raw)) |}
              end
          end
      end
  end.
End Signing.

(** ** What a Cosmos chain reads

    The messages of the cosmos-sdk schemas; a field the schema does not have is
    refused, as the SDK does. *)

Record Coin := { coinDenom : string; coinAmount : string }.
Record Meaning := {
  onChain : string; ofAccount : Z; atSequence : Z; sender : string; recipient : string; moved : Coin; fee : Coin; gas : Z; note : string;
  signerKey : bytes;
}.

Section Chain.
Context {PW : Protowire}.

Definition read_coin (b : bytes) : option Coin :=
  fs ← message [ 1; 2 ] b; Some {| coinDenom := get_string 1 fs; coinAmount := get_string 2 fs |}.

(** The value of an [Any] of the expected type. *)
Definition read_any (typeURL : string) (b : bytes) : option bytes :=
  fs ← message [ 1; 2 ] b; if String.eqb (get_string 1 fs) typeURL then Some (get_bytes 2 fs) else None.

Definition one {A} (l : list A) : option A := match l with [ x ] => Some x | _ => None end.

Definition read_send (b : bytes) : option (string * string * Coin) :=
  fs ← message [ 1; 2; 3 ] b; c ← one (payloads 3 fs); coin ← read_coin c; Some (get_string 1 fs, get_string 2 fs, coin).

Definition read_body (b : bytes) : option (string * string * Coin * string) :=
  fs ← message [ 1; 2; 3 ] b; m ← one (payloads 1 fs); v ← read_any msgSendTypeURL m; send ← read_send v; Some (send, get_string 2 fs).

(** The key and sequence of a signer in SIGN_MODE_DIRECT. *)
Definition read_signer (b : bytes) : option (bytes * Z) :=
  fs ← message [ 1; 2; 3 ] b;
  k ← read_any secp256k1PubKeyType (get_bytes 1 fs);
  kf ← message [ 1 ] k;
  mf ← message [ 1; 2 ] (get_bytes 2 fs);
  single ← one (payloads 1 mf);
  sf ← message [ 1 ] single;
  if get_uint 1 sf =? signModeDirect then Some (get_bytes 1 kf, get_uint 3 fs) else None.

Definition read_fee (b : bytes) : option (Coin * Z) :=
  fs ← message [ 1; 2; 3; 4 ] b; c ← one (payloads 1 fs); coin ← read_coin c; Some (coin, get_uint 2 fs).

Definition read_auth (b : bytes) : option (bytes * Z * (Coin * Z)) :=
  fs ← message [ 1; 2; 3 ] b; si ← one (payloads 1 fs); signer ← read_signer si; fee ← read_fee (get_bytes 2 fs); Some (signer, fee).

Definition meaning (chainID : string) (accountNumber : Z) (body auth : bytes) : option Meaning :=
  '(from, to, coin, memo) ← read_body body; '(key, seq, (fc, g)) ← read_auth auth;
  Some {| onChain := chainID; ofAccount := accountNumber; atSequence := seq; sender := from; recipient := to; moved := coin;
          fee := fc; gas := g; note := memo; signerKey := key |}.

(** A document to sign, and a transaction as it arrives at a node, which knows
    its own chain and the number of the account. *)
Definition read_signdoc (b : bytes) : option Meaning :=
  fs ← message [ 1; 2; 3; 4 ] b; meaning (get_string 3 fs) (get_uint 4 fs) (get_bytes 1 fs) (get_bytes 2 fs).

Definition read_tx (chainID : string) (accountNumber : Z) (raw : bytes) : option (Meaning * bytes * bytes) :=
  fs ← message [ 1; 2; 3 ] raw;
  sig ← one (payloads 3 fs);
  m ← meaning chainID accountNumber (get_bytes 1 fs) (get_bytes 2 fs);
  Some (m, sig, signDoc (get_bytes 1 fs) (get_bytes 2 fs) chainID accountNumber).

Definition send_meaning (s : CosmosSend) (key : bytes) : Meaning :=
  {| onChain := ChainID s; ofAccount := AccountNumber s; atSequence := Sequence s; sender := From s; recipient := To s;
     moved := {| coinDenom := Denom s; coinAmount := Amount s |}; fee := {| coinDenom := FeeDenom s; coinAmount := FeeAmount s |};
     gas := GasLimit s; note := Memo s; signerKey := key |}.
End Chain.

(** ** Encoding lemmas *)
Section Encoding.
Context {PW : Protowire} {PL : ProtowireLaws}.

Definition opt_string (n : Z) (s : string) : list Field := if String.eqb s "" then [] else [ FBytes n (to_bytes s) ].
Definition opt_varint (n v : Z) : list Field := if v =? 0 then [] else [ FVarint n v ].

Lemma bytes_field fs n v : appendBytesField (encode_fields fs) n v = encode_fields (fs ++ [ FBytes n v ]).
Proof.
  unfold appendBytesField; rewrite append_bytes, append_tag, append_varint, (append_varint (encode_fields fs)), encode_app.
  cbn; rewrite app_nil_r, <- !app_assoc; done.
Qed.

Lemma string_field fs n s : appendStringField (encode_fields fs) n s = encode_fields (fs ++ opt_string n s).
Proof. unfold appendStringField, opt_string; destruct (String.eqb s ""); [ rewrite app_nil_r; done | apply bytes_field ]. Qed.

Lemma varint_field fs n v : appendVarintField (encode_fields fs) n v = encode_fields (fs ++ opt_varint n v).
Proof.
  unfold appendVarintField, opt_varint; destruct (v =? 0); [ rewrite app_nil_r; done | ].
  rewrite append_varint, append_tag, append_varint, encode_app; cbn; rewrite app_nil_r, <- !app_assoc; done.
Qed.

Lemma first_bytes n v : appendBytesField [] n v = encode_fields [ FBytes n v ].
Proof. exact (bytes_field [] n v). Qed.
Lemma first_string n s : appendStringField [] n s = encode_fields (opt_string n s).
Proof. exact (string_field [] n s). Qed.
Lemma first_varint n v : appendVarintField [] n v = encode_fields (opt_varint n v).
Proof. exact (varint_field [] n v). Qed.

Create Rewrite HintDb wire.
#[local] Hint Rewrite first_bytes first_string first_varint bytes_field string_field varint_field : wire.

Lemma present n s : s <> "" -> opt_string n s = [ FBytes n (to_bytes s) ].
Proof. intros H; unfold opt_string; apply String.eqb_neq in H as ->; done. Qed.

Lemma coin_fields d a : d <> "" -> a <> "" -> encodeCoin d a = encode_fields [ FBytes 1 (to_bytes d); FBytes 2 (to_bytes a) ].
Proof. intros D A; unfold encodeCoin; autorewrite with wire; rewrite !present by done; done. Qed.

Lemma any_fields t v : t <> "" -> encodeAny t v = encode_fields [ FBytes 1 (to_bytes t); FBytes 2 v ].
Proof. intros T; unfold encodeAny; autorewrite with wire; rewrite present by done; done. Qed.

Lemma signDoc_fields body auth c n :
  signDoc body auth c n = encode_fields ([ FBytes 1 body; FBytes 2 auth ] ++ opt_string 3 c ++ opt_varint 4 n).
Proof. unfold signDoc; autorewrite with wire; rewrite <- !app_assoc; done. Qed.

Lemma rawTx_fields body auth sig : rawTx body auth sig = encode_fields [ FBytes 1 body; FBytes 2 auth; FBytes 3 sig ].
Proof. unfold rawTx; autorewrite with wire; done. Qed.

(** ** Reading what was written *)

Lemma payload_short fs n p : len (encode_fields fs) < two64 -> FBytes n p ∈ fs -> len p < two64.
Proof. intros L E; pose proof (payload_le _ _ _ E); lia. Qed.

Ltac here := first [ apply list_elem_of_here | apply list_elem_of_further; here ].
Ltac plain_fields := unfold opt_string, opt_varint; repeat (case_match; cbn [app]); repeat constructor; cbn; unfold in_u64, two64, signModeDirect in *; lia.
Ltac read_message := rewrite message_encode; [ cbn [mbind option_bind] | done | plain_fields | unfold opt_string, opt_varint; repeat case_match; reflexivity ].

Lemma read_coin_encode d a : d <> "" -> a <> "" -> len (encodeCoin d a) < two64 ->
  read_coin (encodeCoin d a) = Some {| coinDenom := d; coinAmount := a |}.
Proof.
  intros D A L; rewrite coin_fields in * by done; unfold read_coin; read_message.
  unfold get_string; cbn; rewrite !of_to_bytes; done.
Qed.

Lemma read_any_encode t v : t <> "" -> len (encodeAny t v) < two64 -> read_any t (encodeAny t v) = Some v.
Proof.
  intros T L; rewrite any_fields in * by done; unfold read_any; read_message.
  unfold get_string; cbn; rewrite of_to_bytes, String.eqb_refl; done.
Qed.

Lemma any_short t v : t <> "" -> len (encodeAny t v) < two64 -> len v < two64.
Proof. intros T L; rewrite any_fields in L by done; apply (payload_short _ 2 v L); here. Qed.

Lemma get_opt_string n fs s : payloads n fs = [] -> get_string n (fs ++ opt_string n s) = s.
Proof.
  intros E; unfold get_string, get_bytes, payloads; rewrite omap_app; fold (payloads n fs); rewrite E; unfold opt_string.
  destruct (String.eqb_spec s "") as [ -> | ]; [ done | ]; cbn; rewrite Z.eqb_refl; cbn; apply of_to_bytes.
Qed.

Lemma get_opt_varint n fs v : varints n fs = [] -> get_uint n (fs ++ opt_varint n v) = v.
Proof.
  intros E; unfold get_uint, varints; rewrite omap_app; fold (varints n fs); rewrite E; unfold opt_varint.
  destruct (Z.eqb_spec v 0) as [ -> | ]; [ done | ]; cbn; rewrite Z.eqb_refl; done.
Qed.

(** The other fields of a message do not see an optional one. *)
Lemma payloads_opt_string n m s : n <> m -> payloads n (opt_string m s) = [].
Proof. intros N; unfold opt_string; destruct (String.eqb _ _); [ done | ]; cbn; replace (m =? n) with false by lia; done. Qed.
Lemma payloads_opt_varint n m v : payloads n (opt_varint m v) = [].
Proof. unfold opt_varint; destruct (_ =? 0); done. Qed.
Lemma varints_opt_string n m s : varints n (opt_string m s) = [].
Proof. unfold opt_string; destruct (String.eqb _ _); done. Qed.

Lemma payloads_app n fs gs : payloads n (fs ++ gs) = payloads n fs ++ payloads n gs.
Proof. apply omap_app. Qed.
Lemma varints_app n fs gs : varints n (fs ++ gs) = varints n fs ++ varints n gs.
Proof. apply omap_app. Qed.

Section Send.
Context (s : CosmosSend).
Context (NF : From s <> "") (NT : To s <> "") (ND : Denom s <> "") (NFD : FeeDenom s <> "") (NA : Amount s <> "") (NFA : FeeAmount s <> "").

Lemma sendBody_fields : exists msg,
  sendBody s = encode_fields ([ FBytes 1 (encodeAny msgSendTypeURL msg) ] ++ opt_string 2 (Memo s)) /\
  msg = encode_fields [ FBytes 1 (to_bytes (From s)); FBytes 2 (to_bytes (To s)); FBytes 3 (encodeCoin (Denom s) (Amount s)) ].
Proof. eexists; split; [ | reflexivity ]; unfold sendBody; autorewrite with wire; rewrite !present by done; done. Qed.

Lemma read_sendBody : len (sendBody s) < two64 ->
  read_body (sendBody s) = Some (From s, To s, {| coinDenom := Denom s; coinAmount := Amount s |}, Memo s).
Proof.
  destruct sendBody_fields as (msg & -> & ->); intros L; unfold read_body; read_message.
  rewrite get_opt_string, payloads_app, payloads_opt_string by (done || lia); cbn [payloads omap list_omap Z.eqb Pos.eqb app one mbind option_bind].
  pose proof (payload_short _ 1 _ L ltac:(here)) as LA; pose proof (any_short msgSendTypeURL _ ltac:(done) LA) as LM.
  rewrite read_any_encode by done; cbn [mbind option_bind]; unfold read_send; read_message.
  cbn [payloads omap list_omap Z.eqb Pos.eqb app one mbind option_bind].
  rewrite read_coin_encode; [ | done | done | apply (payload_short _ 3 _ LM); here ].
  cbn [mbind option_bind]; unfold get_string; cbn; rewrite !of_to_bytes; done.
Qed.

Context (key : bytes) (SQ : in_u64 (Sequence s)) (GL : in_u64 (GasLimit s)).

Definition signer_fields : list Field :=
  [ FBytes 1 (encodeAny secp256k1PubKeyType (encode_fields [ FBytes 1 key ]));
    FBytes 2 (encode_fields [ FBytes 1 (encode_fields [ FVarint 1 signModeDirect ]) ]) ] ++ opt_varint 3 (Sequence s).
Definition fee_fields : list Field := [ FBytes 1 (encodeCoin (FeeDenom s) (FeeAmount s)) ] ++ opt_varint 2 (GasLimit s).

Lemma sendAuthInfo_fields : sendAuthInfo s key = encode_fields [ FBytes 1 (encode_fields signer_fields); FBytes 2 (encode_fields fee_fields) ].
Proof. unfold sendAuthInfo, signer_fields, fee_fields; autorewrite with wire; done. Qed.

Lemma read_signer_fields : len (encode_fields signer_fields) < two64 -> read_signer (encode_fields signer_fields) = Some (key, Sequence s).
Proof.
  unfold signer_fields; intros L; unfold read_signer; read_message; rewrite get_opt_varint by done.
  pose proof (payload_short _ 1 _ L ltac:(here)) as LA; pose proof (any_short secp256k1PubKeyType _ ltac:(done) LA) as LK.
  pose proof (payload_short _ 2 _ L ltac:(here)) as LM; pose proof (payload_short _ 1 _ LM ltac:(here)) as L1.
  unfold get_bytes; rewrite !payloads_app, !payloads_opt_varint, !app_nil_r.
  cbn [payloads omap list_omap Z.eqb Pos.eqb app one mbind option_bind last default from_option id].
  rewrite read_any_encode by done; cbn [mbind option_bind]; do 2 read_message.
  cbn [payloads omap list_omap Z.eqb Pos.eqb app one mbind option_bind]; read_message; done.
Qed.

Lemma read_fee_fields : len (encode_fields fee_fields) < two64 ->
  read_fee (encode_fields fee_fields) = Some ({| coinDenom := FeeDenom s; coinAmount := FeeAmount s |}, GasLimit s).
Proof.
  unfold fee_fields; intros L; unfold read_fee; read_message; rewrite get_opt_varint, payloads_app, payloads_opt_varint by done.
  cbn [payloads omap list_omap Z.eqb Pos.eqb app one mbind option_bind].
  rewrite read_coin_encode; [ done | done | done | apply (payload_short _ 1 _ L); here ].
Qed.

Lemma read_sendAuthInfo : len (sendAuthInfo s key) < two64 ->
  read_auth (sendAuthInfo s key) = Some (key, Sequence s, ({| coinDenom := FeeDenom s; coinAmount := FeeAmount s |}, GasLimit s)).
Proof.
  rewrite sendAuthInfo_fields; intros L; unfold read_auth; read_message.
  cbn [payloads omap list_omap Z.eqb Pos.eqb app one mbind option_bind]; unfold get_bytes; cbn [payloads omap list_omap Z.eqb Pos.eqb last default from_option id].
  rewrite read_signer_fields, read_fee_fields; [ done | apply (payload_short _ 2 _ L); here | apply (payload_short _ 1 _ L); here ].
Qed.

Lemma meaning_of_send c n : len (sendBody s) < two64 -> len (sendAuthInfo s key) < two64 ->
  meaning c n (sendBody s) (sendAuthInfo s key) =
  Some {| onChain := c; ofAccount := n; atSequence := Sequence s; sender := From s; recipient := To s;
          moved := {| coinDenom := Denom s; coinAmount := Amount s |}; fee := {| coinDenom := FeeDenom s; coinAmount := FeeAmount s |};
          gas := GasLimit s; note := Memo s; signerKey := key |}.
Proof. intros B A; unfold meaning; rewrite read_sendBody, read_sendAuthInfo by done; done. Qed.

End Send.

(** Everything written is bytes. *)
Lemma field_bytes b n v : bytes_ok b -> bytes_ok v -> bytes_ok (appendBytesField b n v).
Proof.
  intros B V; unfold appendBytesField; rewrite append_bytes, append_tag, append_varint, (append_varint b).
  repeat (apply Forall_app; split); try apply varint_bytes; done.
Qed.
Lemma string_bytes b n s : bytes_ok b -> bytes_ok (appendStringField b n s).
Proof. intros B; unfold appendStringField; destruct (String.eqb _ _); [ done | apply field_bytes; [ done | apply to_bytes_ok ] ]. Qed.
Lemma uint_bytes b n v : bytes_ok b -> bytes_ok (appendVarintField b n v).
Proof.
  intros B; unfold appendVarintField; destruct (_ =? 0); [ done | ]; rewrite append_varint, append_tag, append_varint.
  repeat (apply Forall_app; split); try apply varint_bytes; done.
Qed.
Lemma no_bytes : bytes_ok [].
Proof. constructor. Qed.
Create HintDb wire_bytes.
#[local] Hint Resolve field_bytes string_bytes uint_bytes no_bytes : wire_bytes.

Lemma sendBody_bytes s : bytes_ok (sendBody s).
Proof. unfold sendBody, encodeAny, encodeCoin; auto 12 with wire_bytes. Qed.
Lemma sendAuthInfo_bytes s key : bytes_ok key -> bytes_ok (sendAuthInfo s key).
Proof. intros K; unfold sendAuthInfo, encodeAny, encodeCoin; auto 12 with wire_bytes. Qed.
End Encoding.

(** ** A plan says what was asked *)

Section Correct.
Context (sha256 : bytes -> bytes) {PW : Protowire} {PL : ProtowireLaws} {SC : Secp256k1} {SL : Secp256k1Laws}.

Lemma validate_ok label v : validateCosmosAmount label v = Ok tt -> v <> "" /\ exists n, big_of_dec v = Some n /\ 0 < n.
Proof.
  unfold validateCosmosAmount; intros H; destruct (big_of_dec v) as [ n | ] eqn:B; [ | done ].
  destruct (_ || _) eqn:O; [ done | ]; b2p; split; [ intros ->; done | exists n; split; [ done | lia ] ].
Qed.

Lemma plan_ok s plan : PlanCosmosSend sha256 s = Ok plan -> exists pub, ParsePubKey (PubKey s) = Some pub /\
  (ChainID s <> "" /\ From s <> "" /\ To s <> "" /\ Denom s <> "" /\ FeeDenom s <> "" /\ From s <> To s /\ GasLimit s <> 0) /\
  validateCosmosAmount "amount" (Amount s) = Ok tt /\ validateCosmosAmount "fee" (FeeAmount s) = Ok tt /\
  let body := sendBody s in let auth := sendAuthInfo s (SerializeCompressed pub) in
  plan = {| BodyBytesHex := hex_encode body; AuthInfoBytesHex := hex_encode auth; planChainID := ChainID s; planAccountNumber := AccountNumber s;
            DigestHex := hex_encode (sha256 (signDoc body auth (ChainID s) (AccountNumber s))) |}.
Proof.
  unfold PlanCosmosSend; destruct (String.eqb_spec (ChainID s) ""); [ done | ].
  destruct (_ || _) eqn:M; [ done | ]; destruct (String.eqb_spec (From s) (To s)); [ done | ].
  rewrite !orb_false_iff, !String.eqb_neq in M; destruct M as [ [ [ ? ? ] ? ] ? ].
  destruct (validateCosmosAmount "amount" _) as [ [] | | ]; cbn [result_bind]; [ | done .. ].
  destruct (validateCosmosAmount "fee" _) as [ [] | | ]; cbn [result_bind]; [ | done .. ].
  destruct (Z.eqb_spec (GasLimit s) 0); [ done | ]; destruct (ParsePubKey (PubKey s)) as [ pub | ]; [ | done ].
  intros [= <-]; exists pub; split_and!; done.
Qed.

(** The sign document is understood, by a reader of the schemas, as the send. *)
Lemma signDoc_meaning s plan pub :
  PlanCosmosSend sha256 s = Ok plan -> ParsePubKey (PubKey s) = Some pub ->
  in_u64 (AccountNumber s) -> in_u64 (Sequence s) -> in_u64 (GasLimit s) ->
  let body := sendBody s in let auth := sendAuthInfo s (SerializeCompressed pub) in
  (len body < two64 -> len auth < two64 -> meaning (ChainID s) (AccountNumber s) body auth = Some (send_meaning s (SerializeCompressed pub))) /\
  (len (signDoc body auth (ChainID s) (AccountNumber s)) < two64 ->
   read_signdoc (signDoc body auth (ChainID s) (AccountNumber s)) = Some (send_meaning s (SerializeCompressed pub))).
Proof.
  intros P K AN SQ GL body auth; destruct (plan_ok _ _ P) as (pub' & K' & (NC & NF & NT & ND & NFD & _) & VA & VF & _); assert (pub' = pub) as -> by congruence.
  destruct (validate_ok _ _ VA) as [ NA _ ]; destruct (validate_ok _ _ VF) as [ NFA _ ].
  assert (len body < two64 -> len auth < two64 -> meaning (ChainID s) (AccountNumber s) body auth = Some (send_meaning s (SerializeCompressed pub))) as M
    by (intros; apply meaning_of_send; done).
  split; [ exact M | ]; rewrite signDoc_fields, present by done; intros L; unfold read_signdoc.
  rewrite message_encode; [ cbn [mbind option_bind] | done | | ].
  2,3: unfold opt_varint; destruct (_ =? 0); [ repeat constructor; cbn; lia || done | ]; repeat constructor; cbn; unfold in_u64 in *; lia.
  rewrite app_assoc, get_opt_varint by done; unfold get_string, get_bytes; rewrite !payloads_app, !payloads_opt_varint, !app_nil_r.
  cbn [payloads omap list_omap Z.eqb Pos.eqb app last default from_option id]; rewrite of_to_bytes; apply M.
  - apply (payload_short _ 1 _ L); apply elem_of_app; left; apply list_elem_of_here.
  - apply (payload_short _ 2 _ L); apply elem_of_app; left; apply list_elem_of_further, list_elem_of_here.
Qed.

(** The digest a plan asks to be signed is the hash of a document that a
    reader of the Cosmos schemas understands as exactly the send: chain,
    account, sequence, sender, recipient, coin, fee, gas, memo and key. *)
Theorem cosmos_plan_is_send s plan :
  in_u64 (AccountNumber s) -> in_u64 (Sequence s) -> in_u64 (GasLimit s) -> PlanCosmosSend sha256 s = Ok plan ->
  exists pub doc n f,
    ParsePubKey (PubKey s) = Some pub /\ DigestHex plan = hex_encode (sha256 doc) /\
    (len doc < two64 -> read_signdoc doc = Some (send_meaning s (SerializeCompressed pub))) /\
    big_of_dec (Amount s) = Some n /\ 0 < n /\ big_of_dec (FeeAmount s) = Some f /\ 0 < f /\ From s <> To s.
Proof.
  intros AN SQ GL P; destruct (plan_ok _ _ P) as (pub & K & (_ & _ & _ & _ & _ & NE & _) & VA & VF & ->).
  destruct (signDoc_meaning _ _ _ P K AN SQ GL) as [ _ R ].
  destruct (validate_ok _ _ VA) as (_ & n & En & Pn); destruct (validate_ok _ _ VF) as (_ & f & Ef & Pf).
  exists pub, (signDoc (sendBody s) (sendAuthInfo s (SerializeCompressed pub)) (ChainID s) (AccountNumber s)), n, f; split_and!; done.
Qed.

Lemma set_in_range b : bytes_ok b -> len b = 32 ->
  let '(v, over) := SetByteSlice b in over = false -> v = be_val b /\ 0 <= v < EthCrypto.curveN.
Proof.
  intros B L; rewrite set_byte_slice by done; intros O; apply Z.leb_gt in O; pose proof (be_val_bound b B) as V.
  rewrite Z.mod_small by lia; split; [ done | lia ].
Qed.

Lemma cosmos_assemble_ok plan r s pk tx :
  bytes_ok r -> bytes_ok s -> AssembleCosmosTx sha256 (Some plan) r s pk = Ok tx ->
  exists body auth p, hex_decode (BodyBytesHex plan) = Some body /\ hex_decode (AuthInfoBytesHex plan) = Some auth /\ ParsePubKey pk = Some p /\
    len r = 32 /\ len s = 32 /\ 0 < be_val r < EthCrypto.curveN /\ 0 < be_val s < EthCrypto.curveN /\
    let sv := BitcoinPlan.normalizeS (be_val s) in
    EcdsaVerify (be_val r) sv (sha256 (signDoc body auth (planChainID plan) (planAccountNumber plan))) p = true /\
    Raw tx = rawTx body auth (ScalarBytes (be_val r) ++ ScalarBytes sv) /\ Hash tx = to_upper (hex_encode (sha256 (Raw tx))).
Proof.
  intros Br Bs; unfold AssembleCosmosTx; destruct (hex_decode (BodyBytesHex plan)) as [ body | ]; [ | done ].
  destruct (hex_decode (AuthInfoBytesHex plan)) as [ auth | ]; [ | done ]; destruct (negb _ || _) eqn:L; [ done | ].
  rewrite orb_false_iff, !negb_false_iff, !Z.eqb_eq in L; destruct L as [ Lr Ls ].
  destruct (ParsePubKey pk) as [ p | ]; [ | done ].
  pose proof (set_in_range r Br Lr) as Er; pose proof (set_in_range s Bs Ls) as Es.
  destruct (SetByteSlice r) as [ rv or ]; destruct (SetByteSlice s) as [ sv os ].
  destruct (or || os || _ || _) eqn:O; [ done | ]; rewrite !orb_false_iff in O; destruct O as [ [ [ -> -> ] Zr ] Zs ].
  destruct (Er eq_refl) as [ -> Vr ]; destruct (Es eq_refl) as [ -> Vs ]; apply Z.eqb_neq in Zr, Zs.
  assert ((if IsOverHalfOrder (be_val s) then Negate (be_val s) else be_val s) = BitcoinPlan.normalizeS (be_val s)) as ->.
  { unfold BitcoinPlan.normalizeS; rewrite over_half_order by lia; destruct (_ <? _); [ apply negate_scalar; lia | done ]. }
  destruct (EcdsaVerify _ _ _ _) eqn:V; cbn [negb]; [ | done ]; intros [= <-].
  exists body, auth, p; split_and!; done || lia.
Qed.

(** A transaction assembled from a plan reads, at a node of that chain, as the
    send that was planned, with one signature: 64 bytes whose S is in the lower
    half, the given one or its negation, and which verifies over the document
    the node rebuilds. *)
Theorem cosmos_tx_is_send snd plan r s pk tx :
  in_u64 (AccountNumber snd) -> in_u64 (Sequence snd) -> in_u64 (GasLimit snd) -> bytes_ok r -> bytes_ok s ->
  PlanCosmosSend sha256 snd = Ok plan -> AssembleCosmosTx sha256 (Some plan) r s pk = Ok tx -> len (Raw tx) < two64 ->
  exists planned p sig doc,
    ParsePubKey (PubKey snd) = Some planned /\ ParsePubKey pk = Some p /\
    read_tx (ChainID snd) (AccountNumber snd) (Raw tx) = Some (send_meaning snd (SerializeCompressed planned), sig, doc) /\
    hex_encode (sha256 doc) = DigestHex plan /\
    len sig = 64 /\ be_val (take 32 sig) = be_val r /\
    (be_val (drop 32 sig) = be_val s \/ be_val (drop 32 sig) = EthCrypto.curveN - be_val s) /\ be_val (drop 32 sig) <= BitcoinPlan.halfOrder /\
    EcdsaVerify (be_val (take 32 sig)) (be_val (drop 32 sig)) (sha256 doc) p = true /\
    Hash tx = to_upper (hex_encode (sha256 (Raw tx))).
Proof.
  intros AN SQ GL Br Bs P A L; destruct (plan_ok _ _ P) as (pub & K & _ & _ & _ & ->).
  destruct (cosmos_assemble_ok _ _ _ _ _ Br Bs A) as (body & auth & p & Eb & Ea & Kp & Lr & Ls & Vr & Vs & V & ER & EH); cbn in Eb, Ea, V.
  rewrite hex_decode_encode in Eb by apply sendBody_bytes; rewrite hex_decode_encode in Ea by apply sendAuthInfo_bytes, compressed_bytes.
  injection Eb as <-; injection Ea as <-; pose proof (BitcoinPlan.normalizeS_low (be_val s) ltac:(lia)) as Low.
  destruct (signDoc_meaning _ _ _ P K AN SQ GL) as [ M _ ].
  destruct (scalar_bytes (be_val r) ltac:(lia)) as (L1 & _ & E1).
  destruct (scalar_bytes (BitcoinPlan.normalizeS (be_val s)) ltac:(unfold BitcoinPlan.normalizeS; destruct (_ <? _); lia)) as (L2 & _ & E2).
  set (a := ScalarBytes (be_val r)) in *; set (b := ScalarBytes (BitcoinPlan.normalizeS (be_val s))) in *; assert (length a = 32%nat) as La by (unfold len in L1; lia).
  exists pub, p, (a ++ b), (signDoc (sendBody snd) (sendAuthInfo snd (SerializeCompressed pub)) (ChainID snd) (AccountNumber snd)).
  rewrite (take_app_length' a b 32), (drop_app_length' a b 32), E1, E2 by done.
  split_and!; [ done | done | | done | rewrite len_app; lia | done | | lia | done | done ].
  - rewrite ER, rawTx_fields in *; unfold read_tx; rewrite message_encode; [ | done | repeat constructor; cbn; lia | reflexivity ].
    cbn [mbind option_bind payloads omap list_omap Z.eqb Pos.eqb one]; unfold get_bytes; cbn [payloads omap list_omap Z.eqb Pos.eqb last default from_option id].
    rewrite M; [ done | apply (payload_short _ 1 _ L); apply list_elem_of_here | apply (payload_short _ 2 _ L); apply list_elem_of_further, list_elem_of_here ].
  - unfold BitcoinPlan.normalizeS; destruct (_ <? _); tauto.
Qed.
End Correct.

(** A party and the signer derive the same address from a key, though they
    share no code: the signer only falls back to its default prefix where the
    party refuses to have none. *)
Theorem cosmos_derivations_agree `{KeyShare.ShareCrypto} (k : KeyShare.KeyShare) blockchain fallback prefix addr :
  KeyShare.cosmosPrefixes !! blockchain = Some prefix -> KeyShare.AddressFor k blockchain fallback = Ok addr ->
  exists x y compressed, KeyShare.ecdsaPoint k = Some (x, y) /\ EthCrypto.CompressPubkey x y = Ok compressed /\
    CosmosAddressFromPubKey KeyShare.sha256 KeyShare.ripemd160 KeyShare.convertBits KeyShare.bech32Encode compressed prefix = Ok addr.
Proof.
  unfold KeyShare.AddressFor; intros ->; destruct (negb _); [ done | ]; destruct (KeyShare.ecdsaPoint k) as [ [ x y ] | ]; [ | done ].
  destruct (EthCrypto.CompressPubkey x y) as [ c | | ] eqn:C; cbn [map_err result_bind]; [ | done .. ].
  intros A; exists x, y, c; split_and!; [ done | done | ]; revert A.
  unfold KeyShare.CosmosAddress, CosmosAddressFromPubKey; destruct (negb _); [ done | ]; destruct (String.eqb prefix ""); [ done | ].
  destruct (KeyShare.convertBits _); [ | done ]; destruct (KeyShare.bech32Encode _ _); congruence.
Qed.

(** ** Examples and witnesses

    A group of two keys whose signatures are told apart by R. *)
Module Simple.

#[local] Instance twoKeys : Secp256k1 := {
  Point := bool;
  ParsePubKey b := match b with 2 :: _ => Some true | 3 :: _ => Some false | _ => None end;
  SerializeCompressed p := (if p then 2 else 3) :: repeat 7 32;
  SetByteSlice b := (be_val b mod EthCrypto.curveN, EthCrypto.curveN <=? be_val b);
  IsOverHalfOrder v := BitcoinPlan.halfOrder <? v;
  Negate v := EthCrypto.curveN - v;
  ScalarBytes v := match @fill_bytes unit 32 v with Ok b => b | _ => [] end;
  EcdsaVerify r s d p := if p then r =? 5 else r =? 6;
}.

#[local] Instance twoKeysLaws : Secp256k1Laws.
Proof.
  split; cbn.
  - intros []; reflexivity.
  - intros []; repeat constructor; unfold byte_ok; lia.
  - intros []; reflexivity.
  - done.
  - done.
  - done.
  - intros v V; destruct (@fill_bytes_fits unit 32 v) as [ b E ];
      [ split; [ lia | ]; apply Z.lt_le_trans with EthCrypto.curveN; [ lia | discriminate ] | ].
    rewrite E; destruct (fill_bytes_spec _ _ _ (proj1 V) E) as (L & W & B); split_and!; [ unfold len; lia | done | done ].
Qed.

Definition sum (b : bytes) : bytes := repeat (len b mod 256) 32.
Definition send : CosmosSend := {|
  ChainID := "cosmoshub-4"; AccountNumber := 0; Sequence := 3; From := "cosmos1from"; To := "cosmos1to"; Denom := "uatom"; Amount := "1000000";
  FeeDenom := "uatom"; FeeAmount := "5000"; GasLimit := 200000; Memo := ""; PubKey := 2 :: repeat 7 32 |}.
Definition plan : CosmosSigningPlan := match PlanCosmosSend sum send with Ok p => p | _ => Build_CosmosSigningPlan "" "" "" 0 "" end.
Definition word (v : Z) : bytes := repeat 0 31 ++ [ v ].
Definition signed (r : Z) (pk : Z) : result CosErr CosmosTx := AssembleCosmosTx sum (Some plan) (word r) (word 9) (pk :: repeat 7 32).
Definition tx : CosmosTx := match signed 5 2 with Ok t => t | _ => Build_CosmosTx [] "" end.

Lemma planned : PlanCosmosSend sum send = Ok plan.
Proof. vm_compute; reflexivity. Qed.
Lemma assembled : signed 5 2 = Ok tx.
Proof. vm_compute; reflexivity. Qed.

Lemma cosmos_plan_is_send_witness : exists doc, DigestHex plan = hex_encode (sum doc) /\
  (len doc < two64 -> read_signdoc doc = Some (send_meaning send (2 :: repeat 7 32))).
Proof.
  destruct (cosmos_plan_is_send sum send plan) as (pub & doc & n & f & K & D & M & _);
    [ unfold in_u64, two64; cbn; lia | unfold in_u64, two64; cbn; lia | unfold in_u64, two64; cbn; lia | exact planned | ].
  injection K as <-; exists doc; split; [ exact D | exact M ].
Defined.

Lemma cosmos_tx_is_send_witness : exists sig doc,
  read_tx "cosmoshub-4" 0 (Raw tx) = Some (send_meaning send (2 :: repeat 7 32), sig, doc) /\ len sig = 64.
Proof.
  destruct (cosmos_tx_is_send sum send plan (word 5) (word 9) (2 :: repeat 7 32) tx) as (k & p & sig & doc & K & _ & R & _ & L & _);
    [ unfold in_u64, two64; cbn; lia | unfold in_u64, two64; cbn; lia | unfold in_u64, two64; cbn; lia
    | unfold word; solve_bytes | unfold word; solve_bytes | exact planned | exact assembled | vm_compute; reflexivity | ].
  injection K as <-; exists sig, doc; split; [ exact R | exact L ].
Defined.

(** The key a transaction is checked against is the caller's, not the one the
    transaction carries: a plan for one key is assembled with the signature of
    another, and the node will refuse it. *)
Lemma other_key_is_accepted : exists t sig doc,
  signed 6 3 = Ok t /\ read_tx "cosmoshub-4" 0 (Raw t) = Some (send_meaning send (2 :: repeat 7 32), sig, doc) /\
  EcdsaVerify (be_val (take 32 sig)) (be_val (drop 32 sig)) (sum doc) true = false.
Proof.
  eexists _, (word 6 ++ word 9), (signDoc (sendBody send) (sendAuthInfo send (2 :: repeat 7 32)) "cosmoshub-4" 0).
  split_and!; [ vm_compute; reflexivity | vm_compute; reflexivity | vm_compute; reflexivity ].
Qed.

(** A sign hides leading zeros. *)
Lemma signed_zeros_pass : validateCosmosAmount "amount" "+007" = Ok tt.
Proof. vm_compute; reflexivity. Qed.

#[local] Existing Instance KeyShare.simple_crypto.
Definition share : KeyShare.KeyShare := {| KeyShare.Curve_ := KeyShare.CurveSecp256k1; KeyShare.ECDSA := Some (3, 4); KeyShare.EdDSA := None |}.

Lemma cosmos_derivations_agree_witness : exists addr,
  KeyShare.AddressFor share "osmosis" "" = Ok addr /\ CosmosAddressFromPubKey KeyShare.sha256 KeyShare.ripemd160 KeyShare.convertBits KeyShare.bech32Encode (2 :: word 3) "osmo" = Ok addr.
Proof.
  eexists; split; [ vm_compute; reflexivity | ].
  destruct (cosmos_derivations_agree share "osmosis" "" "osmo" _ eq_refl eq_refl) as (x & y & c & P & C & A).
  injection P as <- <-; injection C as <-; exact A.
Defined.
End Simple.
End Cosmos.
