(* ===== verification/CosmosService.v ===== *)
(** * Cosmos: the node client and the routes

    Models [services/mpc-signer/chains/cosmos_lcd.go] (the REST client of a
    node) and [services/mpc-signer/cosmos_http.go] (addresses, balances, and the
    prepare / sign / finalize path of a bank send).

    The HTTP exchange with the node and the JSON of its answers are parameters,
    as are the primitives of Cosmos.v.  A handler answers with a value, refuses
    with a status and a reason, or panics.

    What is shown: a send that is offered for signing can be paid, is to an
    address of the chain, and costs the gas limit at the configured price rounded
    up; what is relayed at the end reads, at the chain, as the request that was
    prepared. *)

From Stdlib Require Import ZArith Lia Ascii String.
From stdpp Require Import base list numbers strings.
From S2P Require Import Prelude GoStrings GoText EthCrypto BitcoinPlan Protobuf Cosmos.

Open Scope Z_scope.

Module CosmosService.
Import Protobuf Cosmos.
#[local] Open Scope string_scope.
#[local] Open Scope list_scope.
#[local] Open Scope Z_scope.

(** ** Decimal prices ([big.Rat.SetString])

    A decimal with an optional fraction and exponent, as numerator and
    denominator; the other notations (fractions, hexadecimal, underscores) are
    left to [other]. *)

Definition scan_sign (s : string) : bool * string :=
  match s with
  | String c t => if Ascii.eqb c "-" then (true, t) else if Ascii.eqb c "+" then (false, t) else (false, s)
  | EmptyString => (false, s)
  end.

(** [None]: an [e] without a usable number. *)
Definition scan_exponent (s : string) : option (Z * string) :=
  match s with
  | String c t =>
      if Ascii.eqb c "e" || Ascii.eqb c "E" then
        '(e, rest) ← scan_int t; if (- two63 <=? e) && (e <? two63) then Some (e, rest) else None
      else Some (0, s)
  | EmptyString => Some (0, s)
  end.

Definition decimal_rat (s : string) : option (Z * Z) :=
  let '(neg, s) := scan_sign s in
  let '(whole, count, s) := scan_digits 0 0 s in
  let '(m, total, s) :=
    match s with
    | String c t => if Ascii.eqb c "." then scan_digits whole count t else (whole, count, s)
    | EmptyString => (whole, count, s)
    end in
  match total, scan_exponent s with
  | S _, Some (e, EmptyString) =>
      let m := if neg : bool then - m else m in
      let e5 := e - Z.of_nat (total - count) in
      if m =? 0 then Some (0, 1)
      else if 1000000 <? Z.abs e5 then None
      else if 0 <=? e5 then Some (m * 10 ^ e5, 1) else Some (m, 10 ^ (- e5))
  | _, _ => None
  end.

(** ** The node *)

Record CosmosNode := {
  nodeURL : string; nodeChainID : string; nodeFeeDenom : string; GasPrice : string; nodeGasLimit : Z; Bech32Prefix : string;
}.

Definition envOr (getenv : string -> string) (k def : string) : string := let v := getenv k in if String.eqb v "" then def else v.

Fixpoint drop_slashes (s : string) : string := match s with String c t => if Ascii.eqb c "/" then drop_slashes t else s | _ => s end.
Definition trim_slashes (s : string) : string := of_bytes (rev (to_bytes (drop_slashes (of_bytes (rev (to_bytes s)))))).

Definition NewCosmosNodeFromEnv (getenv : string -> string) : option CosmosNode :=
  let u := getenv "COSMOS_LCD_URL" in
  if String.eqb u "" then None
  else Some {|
    nodeURL := trim_slashes u; nodeChainID := getenv "COSMOS_CHAIN_ID"; nodeFeeDenom := envOr getenv "COSMOS_FEE_DENOM" "uatom";
    GasPrice := envOr getenv "COSMOS_GAS_PRICE" "0.025"; Bech32Prefix := envOr getenv "COSMOS_BECH32_PREFIX" DefaultCosmosPrefix;
    nodeGasLimit := match parse_uint (getenv "COSMOS_GAS_LIMIT") with Some g => if 0 <? g then g else 200000 | None => 200000 end |}.

Inductive Request : Type :=
  | GetAccount (address : string) | GetBalance (address denom : string) | GetNodeInfo | GetTx (hash : string) | PostTx (tx_bytes : string).

Inductive Exchange : Type := NotSent | NotReached | NotRead | Answered (status : Z) (raw : string).

Inductive NodeErr : Type :=
  | NoRequest | Unreachable | BodyUnreadable | NotFound | HTTPStatus (status : Z) | ResponseUnreadable | UnusableAccount
  | NoNetwork | ChainDiffers (pinned reported : string) | BadGasPrice (price : string) | Rejected (code : Z) (log : string).

Record lcdBaseAccount := { jsonAccountNumber : string; jsonSequence : string }.
Record lcdAccount := { base : lcdBaseAccount; BaseAccount : option lcdBaseAccount; BaseVestingAccount : option lcdBaseAccount }.
Record CosmosAccount := { acctNumber : Z; acctSequence : Z }.
Record CosmosBroadcastResult := { bTxHash : string; bCode : Z; bRawLog : string }.
Record CosmosSendInfo := { infoFrom : string; infoTo : string; infoDenom : string; infoAmount : string }.
Record CosmosTxStatus := { Send : option CosmosSendInfo; Found : bool; Height : string; Code : Z; RawLog : string; TxHash : string }.
(** A message and the response of a transaction as the node reports them. *)
Record TxMessage := { mType : string; mFrom : string; mTo : string; mAmount : list (string * string) }.
Record TxAnswer := { aMessages : list TxMessage; aHeight : string; aTxHash : string; aCode : Z; aRawLog : string }.

(** [json.Unmarshal] into the struct of each call. *)
Class NodeJson := {
  parseAccount : string -> option lcdAccount;
  parseBalance : string -> option string;
  parseNetwork : string -> option string;
  parseBroadcast : string -> option CosmosBroadcastResult;
  parseTx : string -> option TxAnswer;
}.

Fixpoint contains_text (p s : string) : bool :=
  has_prefix p s || match s with String _ t => contains_text p t | EmptyString => false end.

Definition orZero (s : string) : string := if String.eqb s "" then "0" else s.

Section Client.
Context {NJ : NodeJson} (other : string -> option (Z * Z)) (answer : Request -> Exchange).

Definition do {A} (parse : string -> option A) (r : Request) : result NodeErr A :=
  match answer r with
  | NotSent => Err NoRequest
  | NotReached => Err Unreachable
  | NotRead => Err BodyUnreadable
  | Answered status raw =>
      refuse! status =? 404 with NotFound;
      if negb (status =? 200) then
        if contains_text "not found" (to_lower raw) then Err NotFound else Err (HTTPStatus status)
      else match parse raw with None => Err ResponseUnreadable | Some v => Ok v end
  end.

Definition Account (address : string) : result NodeErr CosmosAccount :=
  let! r := do parseAccount (GetAccount address) in
  let b := match BaseAccount r, BaseVestingAccount r with Some b, _ => b | None, Some b => b | None, None => base r end in
  match parse_uint (jsonAccountNumber b), parse_uint (orZero (jsonSequence b)) with
  | Some num, Some seq => Ok {| acctNumber := num; acctSequence := seq |}
  | _, _ => Err UnusableAccount
  end.

Definition Balance (address denom : string) : result NodeErr string :=
  match do parseBalance (GetBalance address denom) with
  | Ok amount => Ok (if String.eqb amount "" then "0" else amount)
  | Err NotFound => Ok "0"
  | Err e => Err e
  | Panic => Panic
  end.

Definition Network : result NodeErr string :=
  let! network := do parseNetwork GetNodeInfo in
  refuse! String.eqb network "" with NoNetwork; Ok network.

Definition ResolveChainID (n : CosmosNode) : result NodeErr string :=
  let reported := Network in
  if String.eqb (nodeChainID n) "" then reported
  else
    match reported with
    | Ok r => if String.eqb r (nodeChainID n) then Ok (nodeChainID n) else Err (ChainDiffers (nodeChainID n) r)
    | _ => Ok (nodeChainID n)
    end.

Definition priceOf (price : string) : option (Z * Z) := match decimal_rat price with Some q => Some q | None => other price end.

Definition NodeFee (n : CosmosNode) : result NodeErr string :=
  match priceOf (GasPrice n) with
  | None => Err (BadGasPrice (GasPrice n))
  | Some (num, den) =>
      refuse! num <? 0 with BadGasPrice (GasPrice n);
      let total := num * nodeGasLimit n in
      let q := total / den in
      let q := if 0 <? total mod den then q + 1 else q in
      Ok (show_int (if q =? 0 then 1 else q))
  end.

Definition Broadcast (txRaw : bytes) : result NodeErr CosmosBroadcastResult :=
  let! r := do parseBroadcast (PostTx (Base64.encode txRaw)) in
  refuse! negb (bCode r =? 0) with Rejected (bCode r) (bRawLog r); Ok r.

(** The first bank send among the messages. *)
Fixpoint firstSend (l : list TxMessage) : option CosmosSendInfo :=
  match l with
  | [] => None
  | m :: l =>
      match mAmount m with
      | (d, a) :: _ =>
          if String.eqb (mType m) msgSendTypeURL then Some {| infoFrom := mFrom m; infoTo := mTo m; infoDenom := d; infoAmount := a |} else firstSend l
      | [] => firstSend l
      end
  end.

Definition TxStatus (hash : string) : result NodeErr CosmosTxStatus :=
  match do parseTx (GetTx hash) with
  | Ok r => Ok {| Send := firstSend (aMessages r); Found := true; Height := aHeight r; Code := aCode r; RawLog := aRawLog r; TxHash := aTxHash r |}
  | Err NotFound => Ok {| Send := None; Found := false; Height := ""; Code := 0; RawLog := ""; TxHash := "" |}
  | Err e => Err e
  | Panic => Panic
  end.

(** ** The routes *)

Definition maxCosmosMemo : Z := 256.

Record cosmosPrepareRequest := { PubKeyHex : string; Destination : string; reqAmount : string; reqDenom : string; reqMemo : string }.
Record cosmosPrepareResponse := {
  Plan : CosmosSigningPlan; respFrom : string; respTo : string; respAmount : string; respDenom : string; respFee : string; respFeeDenom : string;
  respGasLimit : Z; respBalance : string;
}.
Record cosmosFinalizeRequest := { finPlan : option CosmosSigningPlan; finR : string; finS : string; finPubKeyHex : string; finBroadcast : bool }.
Record cosmosFinalizeResponse := { outTxHash : string; RawTxBase64 : string; outBroadcast : bool }.

Inductive Refusal : Type :=
  | NoCosmosNode | InvalidBody | PubKeyNotHex | PubKeyNotKey | NotDerived (e : CosErr) | NotBech32 | OtherPrefix (hrp : string) | NotAccount
  | LongMemo | AmountNotPositive | NeverFunded (from : string) | Node (e : NodeErr) | FeeNotCovered (need : string) (have : string)
  | NotCovered (need : Z) (have : string) | NotPlanned (e : CosErr) | NotHex | NotAssembled (e : CosErr)
  | Unrelayed (e : NodeErr) (b : cosmosFinalizeResponse) | NoNodeToRelay (b : cosmosFinalizeResponse) | BadHash.

Inductive Body : Type :=
  | AddressIs (a prefix : string) | BalanceIs (a denom amount : string) | Prepared (b : cosmosPrepareResponse) | Finalized (b : cosmosFinalizeResponse)
  | StatusIs (s : CosmosTxStatus) | NoAccount (a : string) | AccountIs (a : string) (n : CosmosAccount).

(** An answer of 200, or a status and a reason. *)
Abbreviation reply := (result (Z * Refusal) Body).
Definition orReply {E A} (status : Z) (why : E -> Refusal) (r : result E A) : result (Z * Refusal) A := map_err (fun e => (status, why e)) r.

Context (sha256 ripemd160 : bytes -> bytes) (convertBits : bytes -> option bytes) (bech32Encode : string -> bytes -> option string).
(** [bech32.Decode], and [bech32.ConvertBits(_, 5, 8, false)] *)
Context (bech32Decode : string -> option (string * bytes)) (convertBack : bytes -> option bytes).
Context {PW : Protowire} {SC : Secp256k1}.
(** The node, when COSMOS_LCD_URL is set. *)
Context (cosmosNode : option CosmosNode).

Definition cosmosAddressFromHex (pubKeyHex prefix : string) : result Refusal (string * bytes) :=
  match hex_decode (trim_prefix "0x" pubKeyHex) with
  | None => Err PubKeyNotHex
  | Some raw =>
      match ParsePubKey raw with
      | None => Err PubKeyNotKey
      | Some pub =>
          let compressed := SerializeCompressed pub in
          let! addr := map_err NotDerived (CosmosAddressFromPubKey sha256 ripemd160 convertBits bech32Encode compressed prefix) in
          Ok (addr, compressed)
      end
  end.

Definition validCosmosAddress (addr prefix : string) : result Refusal unit :=
  match bech32Decode addr with
  | None => Err NotBech32
  | Some (hrp, data) =>
      refuse! negb (String.eqb hrp prefix) with OtherPrefix hrp;
      match convertBack data with
      | Some payload => if len payload =? 20 then Ok tt else Err NotAccount
      | None => Err NotAccount
      end
  end.

Definition withNode (k : CosmosNode -> reply) : reply :=
  match cosmosNode with None => Err (503, NoCosmosNode) | Some node => k node end.

Definition handleCosmosAddresses (pubkey prefixParam : string) : reply :=
  let prefix := match cosmosNode with Some n => Bech32Prefix n | None => DefaultCosmosPrefix end in
  let prefix := if String.eqb prefixParam "" then prefix else prefixParam in
  let! r := orReply 400 (fun e => e) (cosmosAddressFromHex pubkey prefix) in
  Ok (AddressIs (fst r) prefix).

Definition handleCosmosBalance (addr denom : string) : reply :=
  withNode (fun node =>
    let denom := if String.eqb denom "" then nodeFeeDenom node else denom in
    let! _ := orReply 400 (fun e => e) (validCosmosAddress addr (Bech32Prefix node)) in
    let! bal := orReply 502 Node (Balance addr denom) in
    Ok (BalanceIs addr denom bal)).

(** A method call on the result of a failed [SetString], which is nil. *)
Definition deref {E} (v : option Z) : result E Z := match v with Some z => Ok z | None => Panic end.

Definition handleCosmosPrepare (body : option cosmosPrepareRequest) : reply :=
  match body with
  | None => Err (400, InvalidBody)
  | Some req =>
      withNode (fun node =>
        let! sender := orReply 400 (fun e => e) (cosmosAddressFromHex (PubKeyHex req) (Bech32Prefix node)) in
        let '(from, pub) := sender in
        let! _ := orReply 400 (fun e => e) (validCosmosAddress (Destination req) (Bech32Prefix node)) in
        refuse! maxCosmosMemo <? slen (reqMemo req) with (400, LongMemo);
        let denom := if String.eqb (reqDenom req) "" then nodeFeeDenom node else reqDenom req in
        match big_of_dec (reqAmount req) with
        | None => Err (400, AmountNotPositive)
        | Some amount =>
            refuse! amount <=? 0 with (400, AmountNotPositive);
            match Account from with
            | Err NotFound => Err (400, NeverFunded from)
            | Err e => Err (502, Node e)
            | Panic => Panic
            | Ok acct =>
                let! chainID := orReply 502 Node (ResolveChainID node) in
                let! fee := orReply 502 Node (NodeFee node) in
                let feeInt := big_of_dec fee in
                let! balStr := orReply 502 Node (Balance from denom) in
                let bal := big_of_dec balStr in
                let! need :=
                  if String.eqb denom (nodeFeeDenom node) then let! f := deref feeInt in Ok (amount + f)
                  else
                    let! feeBal := orReply 502 Node (Balance from (nodeFeeDenom node)) in
                    let! fb := deref (big_of_dec feeBal) in
                    let! f := deref feeInt in
                    if fb <? f then Err (400, FeeNotCovered fee feeBal) else Ok amount in
                let! b := deref bal in
                refuse! b <? need with (400, NotCovered need balStr);
                let! plan := orReply 400 NotPlanned (PlanCosmosSend sha256 {|
                  ChainID := chainID; AccountNumber := acctNumber acct; Sequence := acctSequence acct; From := from; To := Destination req;
                  Denom := denom; Amount := show_int amount; FeeDenom := nodeFeeDenom node; FeeAmount := fee; GasLimit := nodeGasLimit node;
                  Memo := reqMemo req; PubKey := pub |}) in
                Ok (Prepared {| Plan := plan; respFrom := from; respTo := Destination req; respAmount := show_int amount; respDenom := denom;
                                respFee := fee; respFeeDenom := nodeFeeDenom node; respGasLimit := nodeGasLimit node; respBalance := balStr |})
            end
        end)
  end.

Definition handleCosmosFinalize (body : option cosmosFinalizeRequest) : reply :=
  match body with
  | None => Err (400, InvalidBody)
  | Some req =>
      match hex_decode (trim_prefix "0x" (finR req)), hex_decode (trim_prefix "0x" (finS req)), hex_decode (trim_prefix "0x" (finPubKeyHex req)) with
      | Some rb, Some sb, Some pubRaw =>
          let! tx := orReply 400 NotAssembled (AssembleCosmosTx sha256 (finPlan req) rb sb pubRaw) in
          let resp := {| outTxHash := Hash tx; RawTxBase64 := Base64.encode (Raw tx); outBroadcast := false |} in
          if negb (finBroadcast req) then Ok (Finalized resp)
          else
            match cosmosNode with
            | None => Err (503, NoNodeToRelay resp)
            | Some _ =>
                let! res := orReply 502 (fun e => Unrelayed e resp) (Broadcast (Raw tx)) in
                Ok (Finalized {| outTxHash := bTxHash res; RawTxBase64 := RawTxBase64 resp; outBroadcast := true |})
            end
      | _, _, _ => Err (400, NotHex)
      end
  end.

Definition handleCosmosStatus (hash : string) : reply :=
  withNode (fun _ =>
    refuse! negb (slen hash =? 64) with (400, BadHash);
    let! st := orReply 502 Node (TxStatus hash) in Ok (StatusIs st)).

Definition handleCosmosAccount (addr : string) : reply :=
  withNode (fun node =>
    let! _ := orReply 400 (fun e => e) (validCosmosAddress addr (Bech32Prefix node)) in
    match Account addr with
    | Err NotFound => Ok (NoAccount addr)
    | Err e => Err (502, Node e)
    | Panic => Panic
    | Ok a => Ok (AccountIs addr a)
    end).

(** ** Prices *)

Lemma scan_count s : forall acc k v n r, scan_digits acc k s = (v, n, r) -> (k <= n)%nat.
Proof.
  induction s as [ | c s IH ]; intros acc k v n r; cbn; [ intros [= <- <- <-]; done | ].
  destruct (digit_value c); [ intros E; apply IH in E; lia | intros [= <- <- <-]; done ].
Qed.

Lemma decimal_rat_pos s q : decimal_rat s = Some q -> 0 < snd q.
Proof.
  unfold decimal_rat; destruct (scan_sign s) as [ neg t ]; destruct (scan_digits 0 0 t) as [ [ w k ] u ].
  destruct (match u with String c t => _ | EmptyString => _ end) as [ [ m n ] v ]; destruct n as [ | n ]; [ done | ].
  destruct (scan_exponent v) as [ [ e [ | ] ] | ]; [ | done .. ]; destruct (_ =? 0); [ intros [= <-]; done | ].
  destruct (_ <? _); [ done | ]; destruct (Z.leb_spec 0 (e - Z.of_nat (S n - k))); intros [= <-]; cbn [snd]; [ lia | ].
  apply Z.pow_pos_nonneg; lia.
Qed.

(** What the parameters promise: denominators are positive, and the node's
    gas limit is a uint64. *)
Context (rat_pos : forall s q, other s = Some q -> 0 < snd q).
Context (gas_typed : forall n, cosmosNode = Some n -> in_u64 (nodeGasLimit n)).

(** [f] is the least fee, of at least one unit, that pays [g] gas at the price. *)
Definition pays (num den g f : Z) : Prop := num * g <= f * den /\ 1 <= f /\ (f = 1 \/ (f - 1) * den < num * g).

Lemma fee_ok n fee : in_u64 (nodeGasLimit n) -> NodeFee n = Ok fee ->
  exists num den f, priceOf (GasPrice n) = Some (num, den) /\ 0 <= num /\ 0 < den /\ big_of_dec fee = Some f /\ pays num den (nodeGasLimit n) f.
Proof.
  intros [ G _ ]; unfold NodeFee; destruct (priceOf (GasPrice n)) as [ [ num den ] | ] eqn:P; [ | done ].
  destruct (Z.ltb_spec num 0); [ done | ]; intros [= <-].
  assert (0 < den) as D.
  { unfold priceOf in P; destruct (decimal_rat (GasPrice n)) eqn:R; [ injection P as ->; apply (decimal_rat_pos _ _ R) | apply (rat_pos _ _ P) ]. }
  set (g := nodeGasLimit n) in *; assert (0 <= num * g) as T by nia; pose proof (Z.div_mod (num * g) den ltac:(lia)) as DM.
  pose proof (Z.mod_pos_bound (num * g) den D) as MB; pose proof (Z.div_pos _ _ T D) as DP.
  eexists num, den, _; split_and!; [ done | lia | done | apply big_of_dec_show | .. ]; destruct (Z.ltb_spec 0 (num * g mod den)).
  all: repeat match goal with |- context [ ?a =? 0 ] => destruct (Z.eqb_spec a 0) end; unfold pays; try lia; try nia.
Qed.

(** ** Preparing *)

Lemma bind_reply {E A B} status (why : E -> Refusal) (r : result E A) (k : A -> result (Z * Refusal) B) b :
  result_bind k (orReply status why r) = Ok b -> exists x, r = Ok x /\ k x = Ok b.
Proof. destruct r; cbn; [ eauto | done | done ]. Qed.

Lemma bind_deref {B} v (k : Z -> result (Z * Refusal) B) b : result_bind k (deref v) = Ok b -> exists z, v = Some z /\ k z = Ok b.
Proof. destruct v; cbn; [ eauto | done ]. Qed.

Definition denomOf (node : CosmosNode) (req : cosmosPrepareRequest) : string :=
  if String.eqb (reqDenom req) "" then nodeFeeDenom node else reqDenom req.

Definition sendOf (node : CosmosNode) (req : cosmosPrepareRequest) (chainID from : string) (pub : bytes) (acct : CosmosAccount) (amount : Z) (fee : string) : CosmosSend := {|
  ChainID := chainID; AccountNumber := acctNumber acct; Sequence := acctSequence acct; From := from; To := Destination req;
  Denom := denomOf node req; Amount := show_int amount; FeeDenom := nodeFeeDenom node; FeeAmount := fee; GasLimit := nodeGasLimit node;
  Memo := reqMemo req; PubKey := pub |}.

(** The balances cover the amount and the fee. *)
Definition covered (node : CosmosNode) (from denom : string) (amount f : Z) : Prop :=
  exists balStr bal, Balance from denom = Ok balStr /\ big_of_dec balStr = Some bal /\
    if String.eqb denom (nodeFeeDenom node) then amount + f <= bal
    else amount <= bal /\ exists feeBal fb, Balance from (nodeFeeDenom node) = Ok feeBal /\ big_of_dec feeBal = Some fb /\ f <= fb.

Lemma prepare_ok req r : handleCosmosPrepare (Some req) = Ok r ->
  exists node b from pub amount acct chainID fee f, r = Prepared b /\ cosmosNode = Some node /\
    cosmosAddressFromHex (PubKeyHex req) (Bech32Prefix node) = Ok (from, pub) /\
    validCosmosAddress (Destination req) (Bech32Prefix node) = Ok tt /\ big_of_dec (reqAmount req) = Some amount /\ 0 < amount /\
    Account from = Ok acct /\ ResolveChainID node = Ok chainID /\ NodeFee node = Ok fee /\ big_of_dec fee = Some f /\
    covered node from (denomOf node req) amount f /\
    PlanCosmosSend sha256 (sendOf node req chainID from pub acct amount fee) = Ok (Plan b) /\
    respFrom b = from /\ respFee b = fee /\ respAmount b = show_int amount.
Proof.
  unfold handleCosmosPrepare, withNode; destruct cosmosNode as [ node | ]; [ | done ]; intros P.
  apply bind_reply in P as ([ from pub ] & FH & P); apply bind_reply in P as ([] & VD & P); destruct (_ <? _); [ done | ].
  fold (denomOf node req) in P; destruct (big_of_dec (reqAmount req)) as [ amount | ] eqn:EA; [ | done ].
  destruct (Z.leb_spec amount 0); [ done | ]; destruct (Account from) as [ acct | [] | ] eqn:AC; try done.
  apply bind_reply in P as (chainID & CI & P); apply bind_reply in P as (fee & EF & P); apply bind_reply in P as (balStr & EB & P).
  assert (exists f need bal plan, big_of_dec fee = Some f /\ big_of_dec balStr = Some bal /\ need <= bal /\
    (if String.eqb (denomOf node req) (nodeFeeDenom node) then need = amount + f
     else need = amount /\ exists feeBal fb, Balance from (nodeFeeDenom node) = Ok feeBal /\ big_of_dec feeBal = Some fb /\ f <= fb) /\
    PlanCosmosSend sha256 (sendOf node req chainID from pub acct amount fee) = Ok plan /\
    r = Prepared {| Plan := plan; respFrom := from; respTo := Destination req; respAmount := show_int amount; respDenom := denomOf node req;
                    respFee := fee; respFeeDenom := nodeFeeDenom node; respGasLimit := nodeGasLimit node; respBalance := balStr |})
    as (f & need & bal & plan & Ef & Eb & N & C & EP & ->).
  { destruct (String.eqb (denomOf node req) (nodeFeeDenom node)).
    - destruct (big_of_dec fee) as [ f | ] eqn:Ef; [ | done ]; cbn [deref result_bind] in P; apply bind_deref in P as (bal & Eb & P).
      destruct (Z.ltb_spec bal (amount + f)); [ done | ]; apply bind_reply in P as (plan & EP & [= <-]).
      exists f, (amount + f), bal, plan; split_and!; done.
    - destruct (Balance from (nodeFeeDenom node)) as [ feeBal | | ] eqn:FB; [ | done .. ]; cbn [orReply map_err result_bind] in P.
      destruct (big_of_dec feeBal) as [ fb | ] eqn:Efb; [ | done ]; cbn [deref result_bind] in P.
      destruct (big_of_dec fee) as [ f | ] eqn:Ef; [ | done ]; cbn [deref result_bind] in P; destruct (Z.ltb_spec fb f); [ done | ]; cbn [result_bind] in P.
      apply bind_deref in P as (bal & Eb & P); destruct (Z.ltb_spec bal amount); [ done | ]; apply bind_reply in P as (plan & EP & [= <-]).
      exists f, amount, bal, plan; split_and!; [ done .. | exists feeBal, fb; done | done | done ]. }
  eexists node, _, from, pub, amount, acct, chainID, fee, f; split_and!; try done.
  exists balStr, bal; split_and!; [ done | done | ]; destruct (String.eqb _ _); [ lia | destruct C as [ -> C ]; done ].
Qed.

(** A send that is offered for signing can be paid: the balances the node
    reports cover the amount and a fee that is the least, of at least one unit,
    to pay the gas limit at the configured price; its destination is an account
    address of this chain; and what is to be signed is the plan of that send, of
    the account's present number and sequence. *)
Theorem cosmos_prepared_is_affordable req b : handleCosmosPrepare (Some req) = Ok (Prepared b) ->
  exists node from pub amount acct chainID f num den,
    cosmosNode = Some node /\ cosmosAddressFromHex (PubKeyHex req) (Bech32Prefix node) = Ok (from, pub) /\
    big_of_dec (reqAmount req) = Some amount /\ 0 < amount /\ covered node from (denomOf node req) amount f /\
    big_of_dec (respFee b) = Some f /\ priceOf (GasPrice node) = Some (num, den) /\ 0 < den /\ pays num den (nodeGasLimit node) f /\
    (exists data payload, bech32Decode (Destination req) = Some (Bech32Prefix node, data) /\ convertBack data = Some payload /\ len payload = 20) /\
    Account from = Ok acct /\ ResolveChainID node = Ok chainID /\
    PlanCosmosSend sha256 (sendOf node req chainID from pub acct amount (respFee b)) = Ok (Plan b).
Proof.
  intros P; destruct (prepare_ok _ _ P) as (node & b' & from & pub & amount & acct & chainID & fee & f & [= <-] & N & FH & VD & EA & PA & AC & CI & EF & Ef & C & EP & _ & <- & _).
  destruct (fee_ok _ _ (gas_typed _ N) EF) as (num & den & f' & EPr & _ & D & Ef' & PY); assert (f' = f) as -> by congruence.
  exists node, from, pub, amount, acct, chainID, f, num, den; split_and!; try done.
  unfold validCosmosAddress in VD; destruct (bech32Decode (Destination req)) as [ [ hrp data ] | ]; [ | done ].
  destruct (String.eqb_spec hrp (Bech32Prefix node)) as [ -> | ]; [ cbn [negb] in VD | done ].
  destruct (convertBack data) as [ payload | ] eqn:CB; [ | done ]; destruct (Z.eqb_spec (len payload) 20); [ | done ].
  exists data, payload; done.
Qed.

Lemma account_typed a acct : Account a = Ok acct -> in_u64 (acctNumber acct) /\ in_u64 (acctSequence acct).
Proof.
  unfold Account; destruct (do parseAccount (GetAccount a)) as [ r | | ]; cbn [result_bind]; [ | done .. ].
  destruct (parse_uint (jsonAccountNumber _)) eqn:E1; [ | done ]; destruct (parse_uint (orZero _)) eqn:E2; [ | done ].
  intros [= <-]; split; eapply parse_uint_range; eassumption.
Qed.

Lemma finalize_ok req out : handleCosmosFinalize (Some req) = Ok (Finalized out) -> finBroadcast req = true ->
  exists rb sb pk tx res, bytes_ok rb /\ bytes_ok sb /\ hex_decode (trim_prefix "0x" (finPubKeyHex req)) = Some pk /\
    AssembleCosmosTx sha256 (finPlan req) rb sb pk = Ok tx /\ Broadcast (Raw tx) = Ok res /\ bCode res = 0 /\ RawTxBase64 out = Base64.encode (Raw tx).
Proof.
  unfold handleCosmosFinalize; destruct (hex_decode (trim_prefix "0x" (finR req))) as [ rb | ] eqn:R; [ | done ].
  destruct (hex_decode (trim_prefix "0x" (finS req))) as [ sb | ] eqn:S; [ | done ].
  destruct (hex_decode (trim_prefix "0x" (finPubKeyHex req))) as [ pk | ]; [ | done ]; intros H B; rewrite B in H.
  apply bind_reply in H as (tx & T & H); cbn [negb] in H; destruct cosmosNode; [ | done ]; apply bind_reply in H as (res & RS & [= <-]).
  exists rb, sb, pk, tx, res; split_and!; try done; [ apply (hex_decode_spec _ _ R) | apply (hex_decode_spec _ _ S) | ].
  unfold Broadcast in RS; destruct (do _ _) as [ x | | ]; cbn [result_bind] in RS; [ | done .. ].
  destruct (Z.eqb_spec (bCode x) 0); [ cbn in RS; congruence | done ].
Qed.

Context {PL : ProtowireLaws} {SL : Secp256k1Laws}.

(** C26.  What is relayed at the end of prepare, sign and finalize reads, at the
    chain, as the request: from the account of the key given, to the
    destination, the amount and denomination asked for, with its memo and the fee
    that was shown, and with the signer key that was asked for.  The signature
    verifies, over the document the node rebuilds, under the key given at the
    end; that is the signer key of the transaction when both times the same key
    was given. *)
Theorem cosmos_relay_is_request req b fin out :
  handleCosmosPrepare (Some req) = Ok (Prepared b) ->
  handleCosmosFinalize (Some fin) = Ok (Finalized out) -> finPlan fin = Some (Plan b) -> finBroadcast fin = true ->
  exists node from pub amount acct chainID raw res,
    cosmosNode = Some node /\ cosmosAddressFromHex (PubKeyHex req) (Bech32Prefix node) = Ok (from, pub) /\
    big_of_dec (reqAmount req) = Some amount /\ 0 < amount /\ Account from = Ok acct /\ ResolveChainID node = Ok chainID /\
    RawTxBase64 out = Base64.encode raw /\ Broadcast raw = Ok res /\ bCode res = 0 /\
    (len raw < two64 -> exists sig doc pk p,
       hex_decode (trim_prefix "0x" (finPubKeyHex fin)) = Some pk /\ ParsePubKey pk = Some p /\
       read_tx chainID (acctNumber acct) raw = Some ({|
         onChain := chainID; ofAccount := acctNumber acct; atSequence := acctSequence acct; sender := from; recipient := Destination req;
         moved := {| coinDenom := denomOf node req; coinAmount := show_int amount |};
         fee := {| coinDenom := nodeFeeDenom node; coinAmount := respFee b |}; gas := nodeGasLimit node; note := reqMemo req; signerKey := pub |}, sig, doc) /\
       EcdsaVerify (be_val (take 32 sig)) (be_val (drop 32 sig)) (sha256 doc) p = true /\
       (finPubKeyHex fin = PubKeyHex req -> ParsePubKey pub = Some p)).
Proof.
  intros P F FP FB; destruct (prepare_ok _ _ P) as (node & b' & from & pub & amount & acct & chainID & fee & f & [= <-] & N & FH & _ & EA & PA & AC & CI & _ & _ & _ & EP & _ & <- & _).
  destruct (finalize_ok _ _ F FB) as (rb & sb & pk & tx & res & Br & Bs & HP & T & BC & Z0 & ER); rewrite FP in T; destruct (account_typed _ _ AC) as [ TN TS ].
  exists node, from, pub, amount, acct, chainID, (Raw tx), res; split_and!; try done; intros L.
  destruct (cosmos_tx_is_send sha256 (sendOf node req chainID from pub acct amount (respFee b)) _ _ _ _ _ TN TS (gas_typed _ N) Br Bs EP T L) as (k & p & sig & doc & K & KP & R & _ & _ & _ & _ & _ & V & _).
  assert (SerializeCompressed k = pub) as Ek.
  { unfold cosmosAddressFromHex in FH; destruct (hex_decode _) as [ rawk | ]; [ | done ]; destruct (ParsePubKey rawk) as [ kp | ]; [ | done ].
    destruct (CosmosAddressFromPubKey _ _ _ _ _ _); cbn in FH; [ | done .. ]; injection FH as _ <-; cbn in K.
    rewrite parse_compressed in K; injection K as <-; done. }
  rewrite Ek in R; exists sig, doc, pk, p; split_and!; [ done | done | exact R | done | ].
  intros Same; rewrite Same in HP; unfold cosmosAddressFromHex in FH; rewrite HP, KP in FH; cbn in FH.
  destruct (CosmosAddressFromPubKey _ _ _ _ _ _); cbn in FH; [ | done .. ]; injection FH as _ <-; apply parse_compressed.
Qed.

(** A pinned chain is the one signed for, and the node does not contradict it. *)
Lemma pinned_chain_is_used n c : ResolveChainID n = Ok c ->
  if String.eqb (nodeChainID n) "" then Network = Ok c else c = nodeChainID n /\ forall r, Network = Ok r -> r = c.
Proof.
  unfold ResolveChainID; destruct (String.eqb _ ""); [ done | ]; destruct Network as [ r | | ]; [ | intros [= <-]; split; [ done | intros ? ? ]; done .. ].
  destruct (String.eqb_spec r (nodeChainID n)) as [ -> | ]; intros [= <-]; split; [ done | intros ? [= <-]; done ].
Qed.
End Client.

(** ** Examples and witnesses *)
Module Simple.
Import Cosmos.Simple.
#[local] Existing Instances twoKeys twoKeysLaws.

(** Answers written as a tag, a comma and a value. *)
#[local] Instance plainJson : NodeJson := {
  parseAccount s := Some {| base := {| jsonAccountNumber := s; jsonSequence := "" |}; BaseAccount := None; BaseVestingAccount := None |};
  parseBalance := Some;
  parseNetwork := Some;
  parseBroadcast s := Some {| bTxHash := s; bCode := 0; bRawLog := "" |};
  parseTx s := None;
}.

Definition chain (balance : string) (r : Request) : Exchange :=
  match r with
  | GetAccount _ => Answered 200 "17"
  | GetBalance _ _ => Answered 200 balance
  | GetNodeInfo => Answered 200 "cosmoshub-4"
  | GetTx _ => Answered 404 ""
  | PostTx _ => Answered 200 "HASH"
  end.

Definition noOther (s : string) : option (Z * Z) := None.
Definition short (b : bytes) : bytes := take 20 b.
Definition enc (hrp : string) (b : bytes) : option string := Some (hrp +:+ hex_encode b).
Definition dec (s : string) : option (string * bytes) := option_map (fun t => ("cosmos", to_bytes t)) (strip_prefix "cosmos" s).
Definition node : CosmosNode := {|
  nodeURL := "http://node"; nodeChainID := ""; nodeFeeDenom := "uatom"; GasPrice := "0.025"; nodeGasLimit := 200000; Bech32Prefix := "cosmos" |}.
Definition ask : cosmosPrepareRequest := {|
  PubKeyHex := hex_encode (2 :: repeat 7 32); Destination := "cosmosabcdefghijklmnopqrst"; reqAmount := "+1000000"; reqDenom := ""; reqMemo := "" |}.

Abbreviation prepare bal := (handleCosmosPrepare noOther (chain bal) sum short Some enc dec Some (Some node) (Some ask)).

Definition offered : cosmosPrepareResponse :=
  match prepare "2000000" with Ok (Prepared b) => b | _ => Build_cosmosPrepareResponse plan "" "" "" "" "" "" 0 "" end.
Lemma cosmos_prepares : prepare "2000000" = Ok (Prepared offered).
Proof. vm_compute; reflexivity. Qed.

Lemma noOther_pos s q : noOther s = Some q -> 0 < snd q.
Proof. discriminate. Qed.
Lemma node_typed n : Some node = Some n -> in_u64 (nodeGasLimit n).
Proof. intros [= <-]; unfold in_u64, two64; cbn; lia. Qed.

Lemma cosmos_prepared_is_affordable_witness : exists f, respFee offered = "5000" /\ big_of_dec (respFee offered) = Some f /\ 1 <= f.
Proof.
  destruct (cosmos_prepared_is_affordable noOther (chain "2000000") sum short Some enc dec Some (Some node) noOther_pos node_typed ask offered cosmos_prepares)
    as (nd & from & pub & amount & acct & c & f & num & den & _ & _ & _ & _ & _ & F & _ & _ & PY & _).
  exists f; split; [ vm_compute; reflexivity | split; [ exact F | apply PY ] ].
Defined.

Definition answerBack : cosmosFinalizeRequest := {|
  finPlan := Some (Plan offered); finR := hex_encode (word 5); finS := hex_encode (word 9); finPubKeyHex := hex_encode (2 :: repeat 7 32); finBroadcast := true |}.
Definition relayed : cosmosFinalizeResponse :=
  match handleCosmosFinalize (chain "2000000") sum (Some node) (Some answerBack) with Ok (Finalized o) => o | _ => Build_cosmosFinalizeResponse "" "" false end.
Lemma finalizes : handleCosmosFinalize (chain "2000000") sum (Some node) (Some answerBack) = Ok (Finalized relayed).
Proof. vm_compute; reflexivity. Qed.

Lemma cosmos_relay_is_request_witness : exists raw amount, RawTxBase64 relayed = Base64.encode raw /\ big_of_dec (reqAmount ask) = Some amount /\ 0 < amount.
Proof.
  destruct (cosmos_relay_is_request noOther (chain "2000000") sum short Some enc dec Some (Some node) node_typed ask offered answerBack relayed cosmos_prepares finalizes eq_refl eq_refl)
    as (nd & from & pub & amount & acct & c & raw & res & _ & _ & A & PA & _ & _ & R & _).
  exists raw, amount; split_and!; [ exact R | exact A | exact PA ].
Defined.

(** A balance the node reports as anything but an integer is a nil dereference. *)
Lemma unreadable_balance_panics : prepare "many" = Panic.
Proof. vm_compute; reflexivity. Qed.
End Simple.
End CosmosService.
