(* ===== verification/Calendar.v ===== *)
(** * Instants and calendar arithmetic

    What the sources use of [time]: an instant is a number of nanoseconds since
    1970 in UTC, [AddDate] adds years, months and days to its date and
    normalises what overflows a month.  A Postgres [timestamp] keeps
    microseconds.

    The proleptic Gregorian calendar repeats every 400 years (146097 days, 4800
    months); facts about single days and months are checked over one cycle. *)

From Stdlib Require Import ZArith Lia List.
From stdpp Require Import base list numbers.
From S2P Require Import Prelude.

Open Scope Z_scope.

Module Calendar.

Definition day : Z := 86400000000000.

(** Years are counted from March, so that a leap day comes last: [yoe] is the
    year in the cycle and [mp] the month. *)
Definition days_from_civil (y m d : Z) : Z :=
  let y := if m <=? 2 then y - 1 else y in
  let yoe := y mod 400 in
  let mp := (m + 9) mod 12 in
  y / 400 * 146097 + (yoe * 365 + yoe / 4 - yoe / 100 + ((153 * mp + 2) / 5 + d - 1)) - 719468.

(** The days before the year [yoe] of a cycle, and the year a day is in: a year
    has at least 365 and at most 366 days, which leaves three candidates. *)
Definition before_year (yoe : Z) : Z := 365 * yoe + yoe / 4 - yoe / 100.
Definition year_in_cycle (doe : Z) : Z :=
  let y := doe / 366 in
  Z.min 399 (if before_year (y + 1) <=? doe then if before_year (y + 2) <=? doe then y + 2 else y + 1 else y).
Definition day_in_year (doe : Z) : Z := doe - before_year (year_in_cycle doe).
Definition month_in_year (doe : Z) : Z := (5 * day_in_year doe + 2) / 153.

Definition civil_from_days (z : Z) : Z * Z * Z :=
  let z := z + 719468 in
  let doe := z mod 146097 in
  let mp := month_in_year doe in
  let m := if mp <? 10 then mp + 3 else mp - 9 in
  (year_in_cycle doe + z / 146097 * 400 + (if m <=? 2 then 1 else 0), m, day_in_year doe - (153 * mp + 2) / 5 + 1).

(** [t.AddDate(years, months, days)] *)
Definition month_start (mi : Z) : Z := days_from_civil (mi / 12) (mi mod 12 + 1) 1.

Definition addDate (t years months days : Z) : Z :=
  let '(y, m, d) := civil_from_days (t / day) in
  let mi := 12 * (y + years) + (m - 1) + months in
  (month_start mi + (d - 1) + days) * day + t mod day.

(** A [timestamp] column: the nearest microsecond. *)
Definition pgtime (t : Z) : Z := (t + 500) / 1000 * 1000.

Lemma pgtime_idem t : pgtime (pgtime t) = pgtime t.
Proof.
  unfold pgtime; set (q := (t + 500) / 1000); replace (q * 1000 + 500) with (500 + q * 1000) by lia.
  rewrite Z.div_add, Z.div_small by lia; lia.
Qed.

Lemma pgtime_close t : t - 500 < pgtime t <= t + 500.
Proof. unfold pgtime; pose proof (Z.div_mod (t + 500) 1000 ltac:(lia)); pose proof (Z.mod_pos_bound (t + 500) 1000 ltac:(lia)); lia. Qed.

Lemma pgtime_whole t : t mod 1000 = 0 -> pgtime t = t.
Proof.
  intros H; unfold pgtime; pose proof (Z.div_mod t 1000 ltac:(lia)) as D; rewrite H in D.
  replace (t + 500) with (500 + t / 1000 * 1000) by lia; rewrite Z.div_add, Z.div_small by lia; lia.
Qed.

(** ** One cycle *)

Fixpoint from (z : Z) (n : nat) (p : Z -> bool) : bool := match n with O => true | S n => if p z then from (z + 1) n p else false end.
Definition below (n : nat) (p : Z -> bool) : bool := from 0 n p.

Lemma from_spec n p : forall z, from z n p = true -> forall x, z <= x < z + Z.of_nat n -> p x = true.
Proof.
  induction n as [ | n IH ]; cbn [from]; intros z H x Hx; [ lia | ]; destruct (p z) eqn:P; [ | done ].
  destruct (decide (x = z)) as [ -> | ]; [ done | apply (IH _ H); lia ].
Qed.

Lemma below_spec n p : 0 <= n -> below (Z.to_nat n) p = true -> forall z, 0 <= z < n -> p z = true.
Proof. intros N H z Hz; apply (from_spec _ p 0 H); rewrite Z2Nat.id by exact N; exact Hz. Qed.

Lemma year_spec doe : 0 <= doe < 146097 -> 0 <= year_in_cycle doe < 400 /\ 0 <= day_in_year doe <= 365.
Proof.
  intros H; unfold day_in_year, year_in_cycle, before_year; set (y := doe / 366).
  assert (0 <= y /\ 366 * y <= doe < 366 * y + 366) as [ Y0 Y1 ] by (unfold y; pose proof (Z.div_mod doe 366 ltac:(lia)); pose proof (Z.mod_pos_bound doe 366 ltac:(lia)); lia).
  destruct (Z.leb_spec (365 * (y + 1) + (y + 1) / 4 - (y + 1) / 100) doe);
    [ destruct (Z.leb_spec (365 * (y + 2) + (y + 2) / 4 - (y + 2) / 100) doe) | ].
  all: match goal with |- context [ Z.min 399 ?a ] => destruct (Z.min_spec 399 a) as [ [ ? -> ] | [ ? -> ] ] end; split; Z.to_euclidean_division_equations; lia.
Qed.

Lemma month_spec doy : 0 <= doy <= 365 -> let mp := (5 * doy + 2) / 153 in 0 <= mp < 12 /\ 1 <= doy - (153 * mp + 2) / 5 + 1 <= 31.
Proof. intros H mp; unfold mp; split; Z.to_euclidean_division_equations; lia. Qed.

Lemma month_cycle mi : month_start (mi + 4800) = month_start mi + 146097.
Proof.
  unfold month_start, days_from_civil; replace (mi + 4800) with (mi + 400 * 12) by lia; rewrite Z.div_add, Z.mod_add by lia.
  replace (mi / 12 + 400 - 1) with (mi / 12 - 1 + 1 * 400) by lia; replace (mi / 12 + 400) with (mi / 12 + 1 * 400) by lia.
  destruct (_ <=? 2); rewrite Z.mod_add, Z.div_add by lia; lia.
Qed.

Lemma month_cycles k mi : month_start (mi + 4800 * k) = month_start mi + 146097 * k.
Proof.
  assert (forall n, month_start (mi + 4800 * Z.of_nat n) = month_start mi + 146097 * Z.of_nat n) as P.
  { induction n as [ | n IH ]; [ rewrite !Z.mul_0_r, !Z.add_0_r; done | ].
    replace (mi + 4800 * Z.of_nat (S n)) with (mi + 4800 * Z.of_nat n + 4800) by lia; rewrite month_cycle, IH; lia. }
  assert (forall n, month_start (mi - 4800 * Z.of_nat n) = month_start mi - 146097 * Z.of_nat n) as N.
  { induction n as [ | n IH ]; [ rewrite !Z.mul_0_r, !Z.sub_0_r; done | ].
    pose proof (month_cycle (mi - 4800 * Z.of_nat (S n))) as C; replace (mi - 4800 * Z.of_nat (S n) + 4800) with (mi - 4800 * Z.of_nat n) in C by lia; lia. }
  destruct (Z.le_gt_cases 0 k); [ specialize (P (Z.to_nat k)) | specialize (N (Z.to_nat (- k))) ].
  - rewrite Z2Nat.id in P by lia; exact P.
  - rewrite Z2Nat.id in N by lia; replace (mi + 4800 * k) with (mi - 4800 * - k) by lia; lia.
Qed.

Definition cycle_month (mi : Z) : bool :=
  let n := month_start (mi + 1) - month_start mi in let y := month_start (mi + 12) - month_start mi in
  (28 <=? n) && (n <=? 31) && (365 <=? y) && (y <=? 366).

(** Months have 28 to 31 days, twelve of them 365 or 366. *)
Lemma month_lengths mi :
  28 <= month_start (mi + 1) - month_start mi <= 31 /\ 365 <= month_start (mi + 12) - month_start mi <= 366.
Proof.
  assert (below (Z.to_nat 4800) cycle_month = true) as C by (vm_compute; reflexivity).
  pose proof (below_spec 4800 _ ltac:(lia) C (mi mod 4800) (Z.mod_pos_bound mi 4800 ltac:(lia))) as M; clear C; unfold cycle_month in M.
  rewrite !andb_true_iff, !Z.leb_le in M; pose proof (Z.div_mod mi 4800 ltac:(lia)) as D.
  replace (mi + 1) with (mi mod 4800 + 1 + 4800 * (mi / 4800)) by lia; replace (mi + 12) with (mi mod 4800 + 12 + 4800 * (mi / 4800)) by lia.
  replace (month_start mi) with (month_start (mi mod 4800 + 4800 * (mi / 4800))) by (f_equal; lia); rewrite !month_cycles; lia.
Qed.

(** A date is read back from its day. *)
Lemma civil_days z : let '(y, m, d) := civil_from_days z in days_from_civil y m d = z /\ 1 <= m <= 12 /\ 1 <= d <= 31.
Proof.
  unfold civil_from_days; set (w := z + 719468); set (doe := w mod 146097); pose proof (Z.div_mod w 146097 ltac:(lia)) as DM.
  destruct (year_spec doe (Z.mod_pos_bound w 146097 ltac:(lia))) as [ [ Y0 Y1 ] DY ]; destruct (month_spec _ DY) as [ [ M0 M1 ] D ].
  fold (month_in_year doe) in M0, M1, D; set (yoe := year_in_cycle doe) in *; set (mp := month_in_year doe) in *.
  set (m := if mp <? 10 then mp + 3 else mp - 9).
  assert (1 <= m <= 12 /\ (m + 9) mod 12 = mp) as [ M E ].
  { unfold m; destruct (Z.ltb_spec mp 10); split; try lia; [ replace (mp + 3 + 9) with (mp + 1 * 12) by lia | replace (mp - 9 + 9) with mp by lia ].
    all: rewrite ?Z.mod_add by lia; apply Z.mod_small; lia. }
  split; [ | lia ]; unfold days_from_civil; rewrite E.
  assert ((if m <=? 2 then yoe + w / 146097 * 400 + (if m <=? 2 then 1 else 0) - 1 else yoe + w / 146097 * 400 + (if m <=? 2 then 1 else 0)) = yoe + w / 146097 * 400) as ->
    by (destruct (m <=? 2); lia).
  rewrite Z.mod_add, Z.div_add, (Z.mod_small yoe), (Z.div_small yoe) by lia; unfold day_in_year, before_year; fold yoe; unfold doe, w in *; lia.
Qed.

Lemma days_from_first y m d : days_from_civil y m d = days_from_civil y m 1 + (d - 1).
Proof. unfold days_from_civil; lia. Qed.

Lemma addDate_months t y n : exists mi, addDate t y n 0 = t + (month_start (mi + (12 * y + n)) - month_start mi) * day.
Proof.
  unfold addDate; pose proof (civil_days (t / day)) as C; destruct (civil_from_days (t / day)) as [ [ Y M ] D ]; destruct C as (E & BM & BD).
  exists (12 * Y + (M - 1)); replace (12 * (Y + y) + (M - 1) + n) with (12 * Y + (M - 1) + (12 * y + n)) by lia.
  assert (month_start (12 * Y + (M - 1)) = days_from_civil Y M 1) as ->.
  { unfold month_start; replace (12 * Y + (M - 1)) with (M - 1 + Y * 12) by lia; rewrite Z.div_add, Z.mod_add, Z.div_small, Z.mod_small by lia; f_equal; lia. }
  rewrite days_from_first in E; pose proof (Z.div_mod t day ltac:(unfold day; lia)); nia.
Qed.

(** A month later is 28 to 31 days later, a year later 365 or 366. *)
Lemma addDate_month t : 28 * day <= addDate t 0 1 0 - t <= 31 * day.
Proof. destruct (addDate_months t 0 1) as [ mi -> ]; pose proof (proj1 (month_lengths mi)); change (12 * 0 + 1) with 1; unfold day; lia. Qed.

Lemma addDate_year t : 365 * day <= addDate t 1 0 0 - t <= 366 * day.
Proof. destruct (addDate_months t 1 0) as [ mi -> ]; pose proof (proj2 (month_lengths mi)); change (12 * 1 + 0) with 12; unfold day; lia. Qed.

(** Whole microseconds stay so. *)
Lemma addDate_micro t y n : t mod 1000 = 0 -> addDate t y n 0 mod 1000 = 0.
Proof.
  intros H; destruct (addDate_months t y n) as [ mi -> ]; set (k := month_start _ - _).
  replace (t + k * day) with (t + k * 86400000000 * 1000) by (unfold day; lia); rewrite Z.mod_add by lia; exact H.
Qed.

(** 31 January overflows into March. *)
Lemma january_overflows : addDate (days_from_civil 2026 1 31 * day) 0 1 0 = days_from_civil 2026 3 3 * day.
Proof. vm_compute; reflexivity. Qed.

End Calendar.
