(* ===== verification/Billing.v ===== *)
(** * Billing: plans, usage and invoices

    Models [services/billing]: [billing.go] (plans, subscriptions, usage),
    [usage.go] (counting what was used and invoicing it), [schedule.go] (the
    sweep over subscriptions whose period has ended), [db.go] and [httperr.go],
    over the tables of migrations 007, 020 and 022.

    A call to the database can fail: an operation takes a fault plan that says,
    for each call it makes, whether the call succeeds.  The [::uuid] cast, the
    width of text columns and the order in which a query gives rows of equal keys
    are parameters.  Instants are those of Calendar.v, in UTC; every reading of
    the clock is an argument, as are the identifiers [uuid.New] makes.

    [step] runs any number of sweeps and requests for an invoice side by side,
    each interrupted between its transactions.

    Shown here: an invoice asks for the base price and the overage, exactly.
    Which periods are invoiced is the subject of BillingPeriods.v. *)

From Stdlib Require Import ZArith Lia Ascii String Permutation.
From stdpp Require Import base list numbers strings gmap.
From S2P Require Import Prelude GoStrings Policy Calendar.

Open Scope Z_scope.

Module Billing.
Import Calendar.
#[local] Open Scope string_scope.
#[local] Open Scope list_scope.
#[local] Open Scope Z_scope.

(** ** Data *)

Record Plan := {
  PlanID : string; Name : string; Description : string; Price : Z; Currency : string; BillingCycle : string; SigningLimit : Z; KeyLimit : Z;
  SupportLevel : string; Features : list string; OverageSigningCents : Z; OverageKeyCents : Z; planCreatedAt : Z;
}.

Record Subscription := {
  SubscriptionID : string; subCustomerID : string; subPlanID : string; subStatus : string; CurrentPeriodStart : Z; CurrentPeriodEnd : Z;
  CanceledAt : option Z; TrialEndsAt : option Z; AutoRenew : bool; PaymentMethod : string; subCreatedAt : Z; UpdatedAt : Z;
}.

Record LineItem := { itemDescription : string; Quantity : Z; UnitPrice : Z; itemAmount : Z }.

Record Invoice := {
  InvoiceID : string; invSubscriptionID : string; invCustomerID : string; Amount : Z; invCurrency : string; Status : string; DueDate : Z;
  PaidAt : option Z; LineItems : list LineItem; PeriodStart : option Z; PeriodEnd : option Z; invCreatedAt : Z;
}.

(** [DataTransferGB] is never set. *)
Record UsageMetrics := {
  MetricsID : string; umSubscriptionID : string; umCustomerID : string; umPeriodStart : Z; umPeriodEnd : Z; SigningRequests : Z; KeyOperations : Z;
  APIRequests : Z; AvailableSignings : Z; AvailableKeys : Z; umCreatedAt : Z;
}.

Record UsageCounts := { countSigningRequests : Z; countKeyOperations : Z }.

Inductive BErr : Type := NotFound | InvalidInput | Unavailable | NoPaymentMethod | UniqueViolation | Internal.

Definition isUniqueViolation (e : BErr) : bool := match e with UniqueViolation => true | _ => false end.

(** ** Tables *)

(** A row of [signing_requests] or [key_pairs]. *)
Record Work := { workCustomer : string; workStatus : string; workCreated : Z }.
(** A row of [invoice_charges]. *)
Record Charge := {
  chInvoice : string; chCustomer : string; chIntent : option string; chAmount : Z; chCurrency : string; chStatus : string; chDetail : string;
}.

(** [customers] maps a customer to its Stripe identity. *)
Record db := {
  plans : gmap string Plan; customers : gmap string (option string); subscriptions : gmap string Subscription; invoices : list Invoice;
  usage_metrics : list UsageMetrics; signing_requests : list Work; key_pairs : list Work; invoice_charges : list Charge;
}.

Definition with_plans (d : db) v : db :=
  {| plans := v; customers := customers d; subscriptions := subscriptions d; invoices := invoices d; usage_metrics := usage_metrics d;
     signing_requests := signing_requests d; key_pairs := key_pairs d; invoice_charges := invoice_charges d |}.
Definition with_customers (d : db) v : db :=
  {| plans := plans d; customers := v; subscriptions := subscriptions d; invoices := invoices d; usage_metrics := usage_metrics d;
     signing_requests := signing_requests d; key_pairs := key_pairs d; invoice_charges := invoice_charges d |}.
Definition with_subscriptions (d : db) v : db :=
  {| plans := plans d; customers := customers d; subscriptions := v; invoices := invoices d; usage_metrics := usage_metrics d;
     signing_requests := signing_requests d; key_pairs := key_pairs d; invoice_charges := invoice_charges d |}.
Definition with_invoices (d : db) v : db :=
  {| plans := plans d; customers := customers d; subscriptions := subscriptions d; invoices := v; usage_metrics := usage_metrics d;
     signing_requests := signing_requests d; key_pairs := key_pairs d; invoice_charges := invoice_charges d |}.
Definition with_metrics (d : db) v : db :=
  {| plans := plans d; customers := customers d; subscriptions := subscriptions d; invoices := invoices d; usage_metrics := v;
     signing_requests := signing_requests d; key_pairs := key_pairs d; invoice_charges := invoice_charges d |}.
Definition with_charges (d : db) v : db :=
  {| plans := plans d; customers := customers d; subscriptions := subscriptions d; invoices := invoices d; usage_metrics := usage_metrics d;
     signing_requests := signing_requests d; key_pairs := key_pairs d; invoice_charges := v |}.
(** Work of the other services. *)
Definition with_work (d : db) s k : db :=
  {| plans := plans d; customers := customers d; subscriptions := subscriptions d; invoices := invoices d; usage_metrics := usage_metrics d;
     signing_requests := s; key_pairs := k; invoice_charges := invoice_charges d |}.

(** An [INT] column. *)
Definition is_int (z : Z) : bool := (-2147483648 <=? z) && (z <=? 2147483647).

Definition cycles : list string := [ "monthly"; "yearly" ].
Definition statuses : list string := [ "active"; "paused"; "canceled"; "past_due"; "scheduled_for_cancellation" ].

Section Storage.
(** the [::uuid] cast; [VARCHAR(n)]; [ORDER BY created_at DESC] on three tables; [ORDER BY current_period_end] *)
Context (uuid : string -> option string) (fits : Z -> string -> bool).
Context (newest_subs : list Subscription -> list Subscription) (newest_invoices : list Invoice -> list Invoice).
Context (newest_metrics : list UsageMetrics -> list UsageMetrics) (by_end : list Subscription -> list Subscription).

Definition cast (s : string) : result BErr string := match uuid s with Some i => Ok i | None => Err Internal end.

Definition dbCreatePlan (up : bool) (d : db) (p : Plan) : result BErr db :=
  check! up else Internal;
  let! i := cast (PlanID p) in
  check! forallb is_int [ Price p; SigningLimit p; KeyLimit p; OverageSigningCents p; OverageKeyCents p ] else Internal;
  check! bool_decide (BillingCycle p ∈ cycles) else Internal;
  check! fits 255 (Name p) && fits 10 (Currency p) && fits 20 (SupportLevel p) else Internal;
  match plans d !! i with
  | Some _ => Err UniqueViolation
  | None =>
      Ok (with_plans d (<[ i := {| PlanID := i; Name := Name p; Description := Description p; Price := Price p; Currency := Currency p;
        BillingCycle := BillingCycle p; SigningLimit := SigningLimit p; KeyLimit := KeyLimit p; SupportLevel := SupportLevel p;
        Features := Features p; OverageSigningCents := OverageSigningCents p; OverageKeyCents := OverageKeyCents p;
        planCreatedAt := pgtime (planCreatedAt p) |} ]> (plans d)))
  end.

Definition GetPlan (up : bool) (d : db) (planID : string) : result BErr Plan :=
  check! up else Internal;
  let! i := cast planID in
  match plans d !! i with Some p => Ok p | None => Err NotFound end.

Definition resolveCustomerIDForSubscription (up : bool) (d : db) (subscriptionID : string) : result BErr string :=
  check! up else Internal;
  let! i := cast subscriptionID in
  match subscriptions d !! i with Some s => Ok (subCustomerID s) | None => Err NotFound end.

(** [withTenant]: rows of the customer only. *)
Definition visible (customer owner : string) : bool := match uuid customer with Some c => String.eqb owner c | None => false end.

Definition stored (i c p : string) (s : Subscription) : Subscription :=
  {| SubscriptionID := i; subCustomerID := c; subPlanID := p; subStatus := subStatus s; CurrentPeriodStart := pgtime (CurrentPeriodStart s);
     CurrentPeriodEnd := pgtime (CurrentPeriodEnd s); CanceledAt := None; TrialEndsAt := option_map pgtime (TrialEndsAt s);
     AutoRenew := AutoRenew s; PaymentMethod := PaymentMethod s; subCreatedAt := pgtime (subCreatedAt s); UpdatedAt := pgtime (UpdatedAt s) |}.

Definition CreateSubscription (up : bool) (d : db) (s : Subscription) : result BErr db :=
  check! up else Internal;
  let! i := cast (SubscriptionID s) in
  let! c := cast (subCustomerID s) in
  let! p := cast (subPlanID s) in
  check! bool_decide (subStatus s ∈ statuses) else Internal;
  check! fits 255 (PaymentMethod s) else Internal;
  match subscriptions d !! i, customers d !! c, plans d !! p with
  | Some _, _, _ => Err UniqueViolation
  | None, Some _, Some _ => Ok (with_subscriptions d (<[ i := stored i c p s ]> (subscriptions d)))
  | _, _, _ => Err Internal
  end.

(** [resolving] and [reading] are the two connections used. *)
Definition GetSubscription (resolving reading : bool) (d : db) (subscriptionID : string) : result BErr Subscription :=
  let! customer := resolveCustomerIDForSubscription resolving d subscriptionID in
  check! reading else Internal;
  let! i := cast subscriptionID in
  match subscriptions d !! i with
  | Some s => if visible customer (subCustomerID s) then Ok s else Err NotFound
  | None => Err NotFound
  end.

Definition ListSubscriptions (up : bool) (d : db) (customerID : string) : result BErr (list Subscription) :=
  check! up else Internal;
  let! c := cast customerID in
  Ok (newest_subs (filter (fun s => subCustomerID s = c) (snd <$> map_to_list (subscriptions d)))).

Definition updated (s row : Subscription) : Subscription :=
  {| SubscriptionID := SubscriptionID row; subCustomerID := subCustomerID row; subPlanID := subPlanID row; subStatus := subStatus s;
     CurrentPeriodStart := CurrentPeriodStart row; CurrentPeriodEnd := pgtime (CurrentPeriodEnd s); CanceledAt := option_map pgtime (CanceledAt s);
     TrialEndsAt := TrialEndsAt row; AutoRenew := AutoRenew s; PaymentMethod := PaymentMethod row; subCreatedAt := subCreatedAt row;
     UpdatedAt := pgtime (UpdatedAt s) |}.

Definition UpdateSubscription (resolving writing : bool) (d : db) (s : Subscription) : result BErr db :=
  let! customer := resolveCustomerIDForSubscription resolving d (SubscriptionID s) in
  check! writing else Internal;
  let! i := cast (SubscriptionID s) in
  check! bool_decide (subStatus s ∈ statuses) else Internal;
  match subscriptions d !! i with
  | Some row => if visible customer (subCustomerID row) then Ok (with_subscriptions d (<[ i := updated s row ]> (subscriptions d))) else Err NotFound
  | None => Err NotFound
  end.

(** The unique index of migration 020. *)
Definition samePeriod (sub : string) (start : option Z) (inv : Invoice) : bool :=
  match start, PeriodStart inv with
  | Some t, Some t' => String.eqb (invSubscriptionID inv) sub && (t' =? t)
  | _, _ => false
  end.

Definition storedInvoice (i sub c : string) (inv : Invoice) : Invoice :=
  {| InvoiceID := i; invSubscriptionID := sub; invCustomerID := c; Amount := Amount inv; invCurrency := invCurrency inv; Status := Status inv;
     DueDate := pgtime (DueDate inv); PaidAt := option_map pgtime (PaidAt inv); LineItems := LineItems inv;
     PeriodStart := option_map pgtime (PeriodStart inv); PeriodEnd := option_map pgtime (PeriodEnd inv); invCreatedAt := pgtime (invCreatedAt inv) |}.

Definition CreateInvoice (up : bool) (d : db) (inv : Invoice) : result BErr db :=
  check! up else Internal;
  let! i := cast (InvoiceID inv) in
  let! s := cast (invSubscriptionID inv) in
  let! c := cast (invCustomerID inv) in
  check! is_int (Amount inv) && bool_decide (Status inv ∈ [ "paid"; "unpaid"; "overdue" ]) && fits 10 (invCurrency inv) else Internal;
  let row := storedInvoice i s c inv in
  if existsb (fun x => String.eqb (InvoiceID x) i) (invoices d) || existsb (samePeriod s (PeriodStart row)) (invoices d) then Err UniqueViolation
  else
    match subscriptions d !! s, customers d !! c with
    | Some _, Some _ => Ok (with_invoices d (invoices d ++ [ row ]))
    | _, _ => Err Internal
    end.

(** The columns read leave out the period. *)
Definition withoutPeriod (inv : Invoice) : Invoice :=
  {| InvoiceID := InvoiceID inv; invSubscriptionID := invSubscriptionID inv; invCustomerID := invCustomerID inv; Amount := Amount inv;
     invCurrency := invCurrency inv; Status := Status inv; DueDate := DueDate inv; PaidAt := PaidAt inv; LineItems := LineItems inv;
     PeriodStart := None; PeriodEnd := None; invCreatedAt := invCreatedAt inv |}.

Definition GetInvoices (up : bool) (d : db) (customerID : string) : result BErr (list Invoice) :=
  check! up else Internal;
  let! c := cast customerID in
  Ok (map withoutPeriod (newest_invoices (filter (fun inv => invCustomerID inv = c) (invoices d)))).

Definition GetInvoiceForPeriod (resolving reading : bool) (d : db) (subscriptionID : string) (periodStart : Z) : result BErr (option Invoice) :=
  let! customer := resolveCustomerIDForSubscription resolving d subscriptionID in
  check! reading else Internal;
  let! i := cast subscriptionID in
  Ok (snd <$> list_find (fun inv => samePeriod i (Some (pgtime periodStart)) inv && visible customer (invCustomerID inv)) (invoices d)).

Definition paid (paidAt : Z) (inv : Invoice) : Invoice :=
  {| InvoiceID := InvoiceID inv; invSubscriptionID := invSubscriptionID inv; invCustomerID := invCustomerID inv; Amount := Amount inv;
     invCurrency := invCurrency inv; Status := "paid"; DueDate := DueDate inv; PaidAt := Some (pgtime paidAt); LineItems := LineItems inv;
     PeriodStart := PeriodStart inv; PeriodEnd := PeriodEnd inv; invCreatedAt := invCreatedAt inv |}.

Definition MarkInvoicePaid (up : bool) (d : db) (invoiceID customerID : string) (paidAt : Z) : result BErr db :=
  check! up else Internal;
  let! i := cast invoiceID in
  let! c := cast customerID in
  Ok (with_invoices d (map (fun inv => if String.eqb (InvoiceID inv) i && String.eqb (invCustomerID inv) c then paid paidAt inv else inv) (invoices d))).

Definition CreateUsageMetrics (up : bool) (d : db) (m : UsageMetrics) : result BErr db :=
  check! up else Internal;
  let! i := cast (MetricsID m) in
  let! s := cast (umSubscriptionID m) in
  let! c := cast (umCustomerID m) in
  check! forallb is_int [ SigningRequests m; KeyOperations m; APIRequests m; AvailableSignings m; AvailableKeys m ] else Internal;
  if existsb (fun x => String.eqb (MetricsID x) i) (usage_metrics d) then Err UniqueViolation
  else
    match subscriptions d !! s, customers d !! c with
    | Some _, Some _ =>
        Ok (with_metrics d (usage_metrics d ++ [ {| MetricsID := i; umSubscriptionID := s; umCustomerID := c; umPeriodStart := pgtime (umPeriodStart m);
          umPeriodEnd := pgtime (umPeriodEnd m); SigningRequests := SigningRequests m; KeyOperations := KeyOperations m;
          APIRequests := APIRequests m; AvailableSignings := AvailableSignings m; AvailableKeys := AvailableKeys m; umCreatedAt := pgtime (umCreatedAt m) |} ]))
    | _, _ => Err Internal
    end.

Definition GetLatestUsageMetrics (resolving reading : bool) (d : db) (subscriptionID : string) : result BErr UsageMetrics :=
  let! customer := resolveCustomerIDForSubscription resolving d subscriptionID in
  check! reading else Internal;
  let! i := cast subscriptionID in
  match head (newest_metrics (filter (fun m => umSubscriptionID m = i /\ visible customer (umCustomerID m) = true) (usage_metrics d))) with
  | Some m => Ok m
  | None => Err Internal
  end.

(** Completed signatures and keys that did not fail, created in a half-open interval. *)
Definition within (from to : Z) (w : Work) : Prop := from <= workCreated w < to.

Definition CountUsage (up : bool) (d : db) (customerID : string) (from to : Z) : result BErr UsageCounts :=
  check! up else Internal;
  let! c := cast customerID in
  Ok {| countSigningRequests := len (filter (fun w => workCustomer w = c /\ workStatus w = "completed" /\ within (pgtime from) (pgtime to) w) (signing_requests d));
        countKeyOperations := len (filter (fun w => workCustomer w = c /\ workStatus w <> "failed" /\ within (pgtime from) (pgtime to) w) (key_pairs d)) |}.

Definition SubscriptionsDueForBilling (up : bool) (d : db) (now : Z) : result BErr (list Subscription) :=
  check! up else Internal;
  Ok (by_end (filter (fun s => subStatus s = "active" /\ CurrentPeriodEnd s <= pgtime now) (snd <$> map_to_list (subscriptions d)))).

Definition advanced (start end_ updatedAt : Z) (row : Subscription) : Subscription :=
  {| SubscriptionID := SubscriptionID row; subCustomerID := subCustomerID row; subPlanID := subPlanID row; subStatus := subStatus row;
     CurrentPeriodStart := pgtime start; CurrentPeriodEnd := pgtime end_; CanceledAt := CanceledAt row; TrialEndsAt := TrialEndsAt row;
     AutoRenew := AutoRenew row; PaymentMethod := PaymentMethod row; subCreatedAt := subCreatedAt row; UpdatedAt := pgtime updatedAt |}.

Definition AdvanceSubscriptionPeriod (up : bool) (d : db) (subscriptionID customerID : string) (start end_ updatedAt : Z) : result BErr db :=
  check! up else Internal;
  let! i := cast subscriptionID in
  let! c := cast customerID in
  match subscriptions d !! i with
  | Some row => if String.eqb (subCustomerID row) c then Ok (with_subscriptions d (<[ i := advanced start end_ updatedAt row ]> (subscriptions d))) else Err NotFound
  | None => Err NotFound
  end.

(** ** The service *)

(** The calls an operation makes, for its fault plan. *)
Inductive Call : Type :=
  | ReadPlan | ResolveSub | ReadSub | ResolvePeriod | ReadPeriod | Count | Insert | ResolveAgain | ReadAgain | Record_ | Write | Move | Due.
Abbreviation faults := (Call -> bool).

Definition CreatePlan (up : bool) (d : db) (id : string) (now : Z) (p : Plan) : result BErr db :=
  dbCreatePlan up d {| PlanID := id; Name := Name p; Description := Description p; Price := Price p; Currency := Currency p;
    BillingCycle := BillingCycle p; SigningLimit := SigningLimit p; KeyLimit := KeyLimit p; SupportLevel := SupportLevel p; Features := Features p;
    OverageSigningCents := OverageSigningCents p; OverageKeyCents := OverageKeyCents p; planCreatedAt := now |}.

(** [t1], [t2], ... are successive readings of the clock. *)
Definition newSubscription (id customerID planID : string) (t1 t2 t3 t4 : Z) : Subscription :=
  {| SubscriptionID := id; subCustomerID := customerID; subPlanID := planID; subStatus := "active"; CurrentPeriodStart := t1;
     CurrentPeriodEnd := addDate t2 0 1 0; CanceledAt := None; TrialEndsAt := None; AutoRenew := true; PaymentMethod := ""; subCreatedAt := t3; UpdatedAt := t4 |}.

Definition Subscribe (up : faults) (d : db) (id : string) (t1 t2 t3 t4 : Z) (customerID planID : string) : result BErr (db * Subscription) :=
  let! _ := GetPlan (up ReadPlan) d planID in
  let s := newSubscription id customerID planID t1 t2 t3 t4 in
  let! d' := CreateSubscription (up Insert) d s in
  Ok (d', s).

Definition cancelled (now later : Z) (immediate : bool) (s : Subscription) : Subscription :=
  {| SubscriptionID := SubscriptionID s; subCustomerID := subCustomerID s; subPlanID := subPlanID s;
     subStatus := if immediate then "canceled" else "scheduled_for_cancellation"; CurrentPeriodStart := CurrentPeriodStart s;
     CurrentPeriodEnd := if immediate then CurrentPeriodEnd s else now; CanceledAt := if immediate then Some now else CanceledAt s;
     TrialEndsAt := TrialEndsAt s; AutoRenew := AutoRenew s; PaymentMethod := PaymentMethod s; subCreatedAt := subCreatedAt s; UpdatedAt := later |}.

Definition CancelSubscription (up : faults) (d : db) (now later : Z) (subscriptionID : string) (immediate : bool) : result BErr db :=
  let! s := GetSubscription (up ResolveSub) (up ReadSub) d subscriptionID in
  UpdateSubscription (up ResolveAgain) (up Write) d (cancelled now later immediate s).

Definition remaining (limit used : Z) : Z := if limit <=? 0 then 0 else if limit <=? used then 0 else i64 (limit - used).

(** The counters the caller sends; the metrics are dropped when they cannot be written. *)
Definition RecordUsage (up : faults) (d : db) (id : string) (now : Z) (subscriptionID : string) (usage : gmap string Z) : result BErr db :=
  let! s := GetSubscription (up ResolveSub) (up ReadSub) d subscriptionID in
  let! p := GetPlan (up ReadPlan) d (subPlanID s) in
  let signings := default 0 (usage !! "signing_requests") in
  let keys := default 0 (usage !! "key_operations") in
  match CreateUsageMetrics (up Record_) d {| MetricsID := id; umSubscriptionID := subscriptionID; umCustomerID := subCustomerID s;
      umPeriodStart := CurrentPeriodStart s; umPeriodEnd := CurrentPeriodEnd s; SigningRequests := signings; KeyOperations := keys;
      APIRequests := default 0 (usage !! "api_requests"); AvailableSignings := i64 (SigningLimit p - signings);
      AvailableKeys := i64 (KeyLimit p - keys); umCreatedAt := now |} with
  | Ok d' => Ok d'
  | _ => Ok d
  end.

Definition MeasureUsage (up : faults) (d : db) (id : string) (now : Z) (subscriptionID : string) : result BErr (db * UsageMetrics) :=
  let! s := GetSubscription (up ResolveSub) (up ReadSub) d subscriptionID in
  let! p := GetPlan (up ReadPlan) d (subPlanID s) in
  let! counts := CountUsage (up Count) d (subCustomerID s) (CurrentPeriodStart s) (CurrentPeriodEnd s) in
  let m := {| MetricsID := id; umSubscriptionID := subscriptionID; umCustomerID := subCustomerID s; umPeriodStart := CurrentPeriodStart s;
    umPeriodEnd := CurrentPeriodEnd s; SigningRequests := countSigningRequests counts; KeyOperations := countKeyOperations counts; APIRequests := 0;
    AvailableSignings := remaining (SigningLimit p) (countSigningRequests counts);
    AvailableKeys := remaining (KeyLimit p) (countKeyOperations counts); umCreatedAt := now |} in
  let! d' := CreateUsageMetrics (up Record_) d m in
  Ok (d', m).

(** ** Invoices *)

(** A line for what goes over a limit, at a rate that is not zero. *)
Definition overage (used limit rate : Z) (description : string) : list LineItem :=
  let over := i64 (used - limit) in
  if (0 <? over) && (0 <? rate)
  then [ {| itemDescription := description; Quantity := over; UnitPrice := rate; itemAmount := i64 (over * rate) |} ] else [].

Definition InvoiceLineItems (p : Plan) (counts : UsageCounts) : list LineItem :=
  [ {| itemDescription := Name p +:+ " (" +:+ BillingCycle p +:+ ")"; Quantity := 1; UnitPrice := Price p; itemAmount := Price p |} ] ++
  overage (countSigningRequests counts) (SigningLimit p) (OverageSigningCents p) ("Signatures beyond the " +:+ show_int (SigningLimit p) +:+ " included") ++
  overage (countKeyOperations counts) (KeyLimit p) (OverageKeyCents p) ("Keys beyond the " +:+ show_int (KeyLimit p) +:+ " included").

Definition TotalOf (items : list LineItem) : Z := fold_left (fun total item => i64 (total + itemAmount item)) items 0.

Definition newInvoice (id : string) (t1 t2 : Z) (subscriptionID : string) (s : Subscription) (p : Plan) (counts : UsageCounts) : Invoice :=
  let items := InvoiceLineItems p counts in
  {| InvoiceID := id; invSubscriptionID := subscriptionID; invCustomerID := subCustomerID s; Amount := TotalOf items; invCurrency := Currency p;
     Status := "unpaid"; DueDate := addDate t1 0 0 14; PaidAt := None; LineItems := items; PeriodStart := Some (CurrentPeriodStart s);
     PeriodEnd := Some (CurrentPeriodEnd s); invCreatedAt := t2 |}.

(** [GenerateInvoice] up to its insert: the invoice there already is, or the
    one to insert. *)
Definition buildInvoice (up : faults) (d : db) (id : string) (t1 t2 : Z) (subscriptionID : string) : result BErr (Invoice + Subscription * Invoice) :=
  let! s := GetSubscription (up ResolveSub) (up ReadSub) d subscriptionID in
  let! p := GetPlan (up ReadPlan) d (subPlanID s) in
  let! existing := GetInvoiceForPeriod (up ResolvePeriod) (up ReadPeriod) d subscriptionID (CurrentPeriodStart s) in
  match existing with
  | Some inv => Ok (inl inv)
  | None =>
      let! counts := CountUsage (up Count) d (subCustomerID s) (CurrentPeriodStart s) (CurrentPeriodEnd s) in
      Ok (inr (s, newInvoice id t1 t2 subscriptionID s p counts))
  end.

(** The insert, and what follows it. *)
Definition insertInvoice (up : faults) (d : db) (subscriptionID : string) (built : Subscription * Invoice) : result BErr (db * option Invoice) :=
  match CreateInvoice (up Insert) d (snd built) with
  | Ok d' => Ok (d', Some (snd built))
  | Err e =>
      if isUniqueViolation e then
        let! found := GetInvoiceForPeriod (up ResolveAgain) (up ReadAgain) d subscriptionID (CurrentPeriodStart (fst built)) in Ok (d, found)
      else Err e
  | Panic => Panic
  end.

Definition GenerateInvoice (up : faults) (d : db) (id : string) (t1 t2 : Z) (subscriptionID : string) : result BErr (db * option Invoice) :=
  let! built := buildInvoice up d id t1 t2 subscriptionID in
  match built with inl inv => Ok (d, Some inv) | inr b => insertInvoice up d subscriptionID b end.

(** ** The sweep *)

Definition NextPeriodEnd (start : Z) (billingCycle : string) : Z :=
  if String.eqb billingCycle "yearly" then addDate start 1 0 0 else addDate start 0 1 0.

Record BilledLine := { blSubscriptionID : string; blCustomerID : string; blInvoiceID : string; AmountCents : Z; blPeriodStart : Z; blPeriodEnd : Z }.
Inductive FailureReason : Type := NoPlanFor (plan : string) (e : BErr) | NotInvoiced (e : BErr) | NotAdvanced (invoice : string) (e : BErr).
Record BillingFailure := { bfSubscriptionID : string; bfError : FailureReason }.
Record BillingRunResult := { RanAt : Z; Considered : Z; Invoiced : list BilledLine; Failed : list BillingFailure }.

(** What one turn of the loop uses of the world: faults in reading the plan, in
    invoicing and in advancing; an identifier; three readings of the clock. *)
Record Turn := { planUp : bool; genUp : faults; moveUp : bool; turnID : string; dueClock : Z; createdClock : Z; movedClock : Z }.

Inductive Outcome : Type := Billed (l : BilledLine) | Unbilled (f : BillingFailure) | Crashed.

(** After the invoice: the period advances, from the one listed at the start. *)
Definition advance (t : Turn) (d : db) (s : Subscription) (p : Plan) (inv : Invoice) : db * Outcome :=
  let nextStart := CurrentPeriodEnd s in
  let nextEnd := NextPeriodEnd nextStart (BillingCycle p) in
  match AdvanceSubscriptionPeriod (moveUp t) d (SubscriptionID s) (subCustomerID s) nextStart nextEnd (movedClock t) with
  | Ok d' => (d', Billed {| blSubscriptionID := SubscriptionID s; blCustomerID := subCustomerID s; blInvoiceID := InvoiceID inv;
                            AmountCents := Amount inv; blPeriodStart := CurrentPeriodStart s; blPeriodEnd := CurrentPeriodEnd s |})
  | Err e => (d, Unbilled {| bfSubscriptionID := SubscriptionID s; bfError := NotAdvanced (InvoiceID inv) e |})
  | Panic => (d, Crashed)
  end.

Definition billOne (t : Turn) (d : db) (s : Subscription) : db * Outcome :=
  match GetPlan (planUp t) d (subPlanID s) with
  | Err e => (d, Unbilled {| bfSubscriptionID := SubscriptionID s; bfError := NoPlanFor (subPlanID s) e |})
  | Panic => (d, Crashed)
  | Ok p =>
      match GenerateInvoice (genUp t) d (turnID t) (dueClock t) (createdClock t) (SubscriptionID s) with
      | Err e => (d, Unbilled {| bfSubscriptionID := SubscriptionID s; bfError := NotInvoiced e |})
      | Ok (d', Some inv) => advance t d' s p inv
      | Ok (d', None) => (d', Crashed)
      | Panic => (d, Crashed)
      end
  end.

Fixpoint billLoop (turns : nat -> Turn) (i : nat) (d : db) (due : list Subscription) (r : BillingRunResult) : db * result BErr BillingRunResult :=
  match due with
  | [] => (d, Ok r)
  | s :: due =>
      match billOne (turns i) d s with
      | (d', Billed l) => billLoop turns (S i) d' due {| RanAt := RanAt r; Considered := Considered r; Invoiced := Invoiced r ++ [ l ]; Failed := Failed r |}
      | (d', Unbilled f) => billLoop turns (S i) d' due {| RanAt := RanAt r; Considered := Considered r; Invoiced := Invoiced r; Failed := Failed r ++ [ f ] |}
      | (d', Crashed) => (d', Panic)
      end
  end.

Definition RunBilling (up : bool) (turns : nat -> Turn) (d : db) (now : Z) : db * result BErr BillingRunResult :=
  match SubscriptionsDueForBilling up d now with
  | Ok due => billLoop turns 0 d due {| RanAt := now; Considered := len due; Invoiced := []; Failed := [] |}
  | Err e => (d, Err e)
  | Panic => (d, Panic)
  end.

(** ** The routes *)

Definition requireUUID (value : string) : result BErr unit :=
  refuse! String.eqb value "" with InvalidInput;
  refuse! negb (Policy.uuidPattern value) with InvalidInput;
  Ok tt.

Definition writeError (e : BErr) : Z := match e with InvalidInput => 400 | NotFound => 404 | Unavailable => 503 | _ => 500 end.

Inductive Body : Type :=
  | NoBody | Subscribed (s : Subscription) | Metrics (m : UsageMetrics) | Raised (inv : option Invoice) | InvoiceList (l : list Invoice)
  | SweepResult (r : BillingRunResult).

Definition HandleSubscribe (up : faults) (d : db) (id : string) (t1 t2 t3 t4 : Z) (method : string) (body : option (string * string)) : db * (Z * Body) :=
  if negb (String.eqb method "POST") then (d, (405, NoBody))
  else
    match body with
    | None => (d, (400, NoBody))
    | Some (customerID, planID) =>
        match Subscribe up d id t1 t2 t3 t4 customerID planID with
        | Ok (d', s) => (d', (201, Subscribed s))
        | _ => (d, (500, NoBody))
        end
    end.

Definition answer {A} (d : db) (r : result BErr (db * A)) (f : A -> Z * Body) : db * (Z * Body) :=
  match r with Ok (d', a) => (d', f a) | Err e => (d, (writeError e, NoBody)) | Panic => (d, (500, NoBody)) end.

Definition HandleGetUsage (up : faults) (d : db) (subscriptionID : string) : db * (Z * Body) :=
  answer d (let! _ := requireUUID subscriptionID in let! m := GetLatestUsageMetrics (up ResolveSub) (up ReadSub) d subscriptionID in Ok (d, m))
    (fun m => (200, Metrics m)).

Definition HandleMeasureUsage (up : faults) (d : db) (id : string) (now : Z) (method subscriptionID : string) : db * (Z * Body) :=
  if negb (String.eqb method "POST") then (d, (405, NoBody))
  else answer d (let! _ := requireUUID subscriptionID in MeasureUsage up d id now subscriptionID) (fun m => (200, Metrics m)).

Definition HandleGenerateInvoice (up : faults) (d : db) (id : string) (t1 t2 : Z) (method subscriptionID : string) : db * (Z * Body) :=
  if negb (String.eqb method "POST") then (d, (405, NoBody))
  else answer d (let! _ := requireUUID subscriptionID in GenerateInvoice up d id t1 t2 subscriptionID) (fun inv => (200, Raised inv)).

Definition HandleListInvoices (up : bool) (d : db) (customerID : string) : db * (Z * Body) :=
  answer d (let! _ := requireUUID customerID in let! l := GetInvoices up d customerID in Ok (d, l)) (fun l => (200, InvoiceList l)).

Definition HandleRunBilling (up : bool) (turns : nat -> Turn) (d : db) (now : Z) (method : string) : db * (Z * Body) :=
  if negb (String.eqb method "POST") then (d, (405, NoBody))
  else
    match RunBilling up turns d now with
    | (d', Ok r) => (d', (if 0 <? len (Failed r) then 207 else 200, SweepResult r))
    | (d', Err e) => (d', (writeError e, NoBody))
    | (d', Panic) => (d', (500, NoBody))
    end.

(** ** Sweeps and requests side by side *)

(** Where a sweep is with the first subscription it has left. *)
Inductive Phase : Type := Ready | Planned (p : Plan) | Built (p : Plan) (b : Subscription * Invoice) | Invoiced_ (p : Plan) (inv : Invoice).
Record Sweep := { due : list Subscription; phase : Phase }.
(** An invoice asked for through the API and not yet inserted. *)
Record Demand := { forSub : string; built : Subscription * Invoice }.
(** [opened] remembers, for the statements, the first period of a subscription. *)
Record System := { sdb : db; sweeps : list Sweep; demands : list Demand; opened : gmap string (Z * Z) }.
Definition with_db (sys : System) (d : db) : System := {| sdb := d; sweeps := sweeps sys; demands := demands sys; opened := opened sys |}.
Definition with_sweeps (sys : System) (l : list Sweep) : System := {| sdb := sdb sys; sweeps := l; demands := demands sys; opened := opened sys |}.
Definition with_demands (sys : System) (l : list Demand) : System := {| sdb := sdb sys; sweeps := sweeps sys; demands := l; opened := opened sys |}.

Definition skip (sw : Sweep) : Sweep := {| due := tail (due sw); phase := Ready |}.
Definition at_phase (sw : Sweep) (p : Phase) : Sweep := {| due := due sw; phase := p |}.

(** One transaction of a sweep. *)
Inductive turn (d : db) (sw : Sweep) : db -> option Sweep -> Prop :=
  | turn_plan up s rest p : due sw = s :: rest -> phase sw = Ready -> GetPlan up d (subPlanID s) = Ok p -> turn d sw d (Some (at_phase sw (Planned p)))
  | turn_found up id t1 t2 s rest p inv : due sw = s :: rest -> phase sw = Planned p ->
      buildInvoice up d id t1 t2 (SubscriptionID s) = Ok (inl inv) -> turn d sw d (Some (at_phase sw (Invoiced_ p inv)))
  | turn_build up id t1 t2 s rest p b : due sw = s :: rest -> phase sw = Planned p ->
      buildInvoice up d id t1 t2 (SubscriptionID s) = Ok (inr b) -> turn d sw d (Some (at_phase sw (Built p b)))
  | turn_insert up s rest p b d' inv : due sw = s :: rest -> phase sw = Built p b ->
      insertInvoice up d (SubscriptionID s) b = Ok (d', Some inv) -> turn d sw d' (Some (at_phase sw (Invoiced_ p inv)))
  | turn_advance t s rest p inv d' o : due sw = s :: rest -> phase sw = Invoiced_ p inv -> advance t d s p inv = (d', o) -> turn d sw d' (Some (skip sw))
  | turn_fail s rest : due sw = s :: rest -> turn d sw d (Some (skip sw))
  | turn_stop : turn d sw d None.

Inductive step (sys : System) : System -> Prop :=
  | step_sweep up now l : SubscriptionsDueForBilling up (sdb sys) now = Ok l -> step sys (with_sweeps sys ({| due := l; phase := Ready |} :: sweeps sys))
  | step_turn l sw r d' sw' : sweeps sys = l ++ sw :: r -> turn (sdb sys) sw d' sw' -> step sys (with_sweeps (with_db sys d') (l ++ option_list sw' ++ r))
  | step_demand up id t1 t2 i b : buildInvoice up (sdb sys) id t1 t2 i = Ok (inr b) ->
      step sys (with_demands sys ({| forSub := i; built := b |} :: demands sys))
  | step_insert up l m r d' inv : demands sys = l ++ m :: r -> insertInvoice up (sdb sys) (forSub m) (built m) = Ok (d', inv) ->
      step sys (with_demands (with_db sys d') (l ++ r))
  | step_plan up id now p d' : CreatePlan up (sdb sys) id now p = Ok d' -> step sys (with_db sys d')
  | step_subscribe up id i t1 t2 t3 t4 c p d' s : t1 <= t2 -> uuid id = Some i -> Subscribe up (sdb sys) id t1 t2 t3 t4 c p = Ok (d', s) ->
      step sys {| sdb := d'; sweeps := sweeps sys; demands := demands sys;
                  opened := <[ i := (pgtime (CurrentPeriodStart s), pgtime (CurrentPeriodEnd s)) ]> (opened sys) |}
  | step_measure up id now i d' m : MeasureUsage up (sdb sys) id now i = Ok (d', m) -> step sys (with_db sys d')
  | step_record up id now i u d' : RecordUsage up (sdb sys) id now i u = Ok d' -> step sys (with_db sys d')
  | step_paid up i c now d' : MarkInvoicePaid up (sdb sys) i c now = Ok d' -> step sys (with_db sys d')
  | step_customers m : dom (customers (sdb sys)) ⊆ dom m -> step sys (with_db sys (with_customers (sdb sys) m))
  | step_charge c : step sys (with_db sys (with_charges (sdb sys) (invoice_charges (sdb sys) ++ [ c ])))
  | step_work s k : step sys (with_db sys (with_work (sdb sys) s k)).

(** At most one sweep at a time. *)
Definition serial_step (sys sys' : System) : Prop := step sys sys' /\ (length (sweeps sys') <= 1)%nat.

Definition boot (known : gmap string (option string)) : System :=
  {| sdb := {| plans := ∅; customers := known; subscriptions := ∅; invoices := []; usage_metrics := []; signing_requests := []; key_pairs := [];
               invoice_charges := [] |}; sweeps := []; demands := []; opened := ∅ |}.

(** ** Exact amounts *)

Definition beyond (used limit : Z) : Z := Z.max 0 (used - limit).

Definition int_plan (p : Plan) : Prop :=
  0 <= Price p <= 2147483647 /\ 0 <= SigningLimit p <= 2147483647 /\ 0 <= KeyLimit p <= 2147483647 /\
  0 <= OverageSigningCents p <= 2147483647 /\ 0 <= OverageKeyCents p <= 2147483647.

Lemma overage_total used limit rate text : 0 <= used < 2147483648 -> 0 <= limit <= 2147483647 -> 0 <= rate <= 2147483647 ->
  forall acc rest, 0 <= acc <= 4611686018427387904 + 2147483647 ->
  fold_left (fun total item => i64 (total + itemAmount item)) (overage used limit rate text ++ rest) acc =
  fold_left (fun total item => i64 (total + itemAmount item)) rest (acc + beyond used limit * rate) /\ 0 <= beyond used limit * rate <= 4611686014132420609.
Proof.
  intros U L R acc rest A; unfold overage, beyond; rewrite i64_id by (unfold in_i64, two63; lia).
  assert (0 <= Z.max 0 (used - limit) * rate <= 4611686014132420609) as B by nia.
  split; [ | exact B ]; destruct (Z.ltb_spec 0 (used - limit)), (Z.ltb_spec 0 rate); cbn [andb app fold_left itemAmount].
  2,3,4: f_equal; nia.
  rewrite Z.max_r in * by lia; rewrite (i64_id ((used - limit) * rate)), i64_id by (unfold in_i64, two63; lia); done.
Qed.

(** An invoice asks for the base price and, beyond each limit, its rate for
    every unit: exactly, the sums of int64 do not wrap. *)
Theorem invoice_amount_exact p counts :
  int_plan p -> 0 <= countSigningRequests counts < 2147483648 -> 0 <= countKeyOperations counts < 2147483648 ->
  TotalOf (InvoiceLineItems p counts) =
    Price p + beyond (countSigningRequests counts) (SigningLimit p) * OverageSigningCents p +
    beyond (countKeyOperations counts) (KeyLimit p) * OverageKeyCents p.
Proof.
  intros (P & SL & KL & SR & KR) S K; unfold TotalOf, InvoiceLineItems; cbn [app fold_left itemAmount].
  rewrite Z.add_0_l, (i64_id (Price p)) by (unfold in_i64, two63; lia).
  destruct (overage_total _ _ _ ("Signatures beyond the " +:+ show_int (SigningLimit p) +:+ " included") S SL SR (Price p)
    (overage (countKeyOperations counts) (KeyLimit p) (OverageKeyCents p) ("Keys beyond the " +:+ show_int (KeyLimit p) +:+ " included")) ltac:(lia)) as [ -> B1 ].
  set (sum := Price p + _) in *.
  destruct (overage_total _ _ _ ("Keys beyond the " +:+ show_int (KeyLimit p) +:+ " included") K KL KR sum [] ltac:(unfold sum; lia)) as [ E B2 ].
  rewrite app_nil_r in E; rewrite E; done.
Qed.
End Storage.

Lemma invoice_amount_exact_witness :
  let p := {| PlanID := "pro"; Name := "Pro"; Description := ""; Price := 10000; Currency := "USD"; BillingCycle := "monthly"; SigningLimit := 1000; KeyLimit := 10;
    SupportLevel := "email"; Features := []; OverageSigningCents := 25; OverageKeyCents := 0; planCreatedAt := 0 |} in
  TotalOf (InvoiceLineItems p {| countSigningRequests := 1003; countKeyOperations := 40 |}) =
    10000 + beyond 1003 1000 * 25 + beyond 40 10 * 0.
Proof. intros p; apply (invoice_amount_exact p {| countSigningRequests := 1003; countKeyOperations := 40 |}); [ unfold int_plan | | ]; cbn; lia. Defined.
End Billing.
