(* ===== verification/BillingPeriods.v ===== *)
(** * Billing: which periods are invoiced

    Facts about the sweeps of Billing.v: the schedule of a subscription's
    periods, the invariant that ties its invoices and the sweeps under way to
    it, whatever runs side by side, and what a sweep that runs alone invoices. *)

From Stdlib Require Import ZArith Lia Ascii String Permutation.
From stdpp Require Import base list numbers strings gmap.
From S2P Require Import Prelude GoStrings Policy Calendar Billing.

Open Scope Z_scope.

Module BillingPeriods.
Import Calendar Billing.
#[local] Open Scope string_scope.
#[local] Open Scope list_scope.
#[local] Open Scope Z_scope.

(** What is relied on of Postgres: a cast id is its own cast, and a query gives
    its rows in some order. *)
Class BillingStore (uuid : string -> option string) (by_end : list Subscription -> list Subscription) : Prop := {
  uuid_idem x y : uuid x = Some y -> uuid y = Some y;
  by_end_perm l : Permutation (by_end l) l;
}.

(** ** The schedule of a subscription *)

(** Consecutive bounds of periods, as the columns keep them. *)
Definition chain (cycle : string) (b : nat -> Z) : Prop :=
  (forall k, pgtime (b k) = b k) /\ (forall k, b k < b (S k)) /\ forall k, b (S (S k)) = pgtime (NextPeriodEnd (b (S k)) cycle).

Fixpoint bounds (f0 f1 : Z) (cycle : string) (n : nat) : Z :=
  match n with O => f0 | S O => f1 | S (S _ as n) => pgtime (NextPeriodEnd (bounds f0 f1 cycle n) cycle) end.

Lemma next_later t cycle : t + day < NextPeriodEnd t cycle.
Proof. unfold NextPeriodEnd; pose proof (addDate_month t); pose proof (addDate_year t); destruct (String.eqb _ _); unfold day in *; lia. Qed.

Lemma bounds_chain f0 f1 cycle : pgtime f0 = f0 -> pgtime f1 = f1 -> f0 < f1 -> chain cycle (bounds f0 f1 cycle).
Proof.
  intros P0 P1 L; assert (forall k, pgtime (bounds f0 f1 cycle k) = bounds f0 f1 cycle k) as P
    by (intros [ | [ | k ] ]; [ done | done | apply pgtime_idem ]).
  split; [ exact P | split; [ | done ] ]; intros [ | k ]; [ done | ].
  change (bounds f0 f1 cycle (S (S k))) with (pgtime (NextPeriodEnd (bounds f0 f1 cycle (S k)) cycle)).
  set (t := bounds f0 f1 cycle (S k)); pose proof (next_later t cycle); pose proof (pgtime_close (NextPeriodEnd t cycle)); unfold day in *; lia.
Qed.

Lemma chain_mono cycle b j k : chain cycle b -> (j <= k)%nat -> b j <= b k.
Proof. intros (_ & I & _) L; induction L as [ | k L IH ]; [ done | specialize (I k); lia ]. Qed.

Lemma chain_inj cycle b j k : chain cycle b -> b j = b k -> j = k.
Proof.
  intros C E; destruct (Nat.lt_trichotomy j k) as [ L | [ -> | L ] ]; [ | done | ];
    pose proof (chain_mono _ _ _ _ C L); destruct C as (_ & I & _); [ specialize (I j) | specialize (I k) ]; lia.
Qed.

(** An instant between the first bound and the [k]-th is in one period. *)
Lemma chain_covers cycle b k t : chain cycle b -> b O <= t < b k -> exists j, (j < k)%nat /\ b j <= t < b (S j).
Proof.
  intros C; induction k as [ | k IH ]; [ lia | ]; intros H; destruct (Z.lt_ge_cases t (b k)).
  - destruct IH as (j & L & B); [ lia | exists j; split; [ lia | done ] ].
  - exists k; split; [ lia | lia ].
Qed.

Lemma chain_disjoint cycle b j k t : chain cycle b -> b j <= t < b (S j) -> b k <= t < b (S k) -> j = k.
Proof.
  intros C J K; destruct (Nat.lt_trichotomy j k) as [ L | [ -> | L ] ]; [ | done | ]; pose proof (chain_mono _ _ _ _ C L); lia.
Qed.

(** ** No period is billed twice *)

Definition invoiced (d : db) (i : string) (t : Z) : Prop := exists inv, inv ∈ invoices d /\ invSubscriptionID inv = i /\ PeriodStart inv = Some t.
Definition key (inv : Invoice) : string * option Z := (invSubscriptionID inv, PeriodStart inv).

Section Invariant.
Context (uuid : string -> option string) (fits : Z -> string -> bool) (by_end : list Subscription -> list Subscription).
Context {ST : BillingStore uuid by_end}.

Abbreviation step := (step uuid fits by_end).
Abbreviation turn := (turn uuid fits).

(** Rows carry the ids they are stored under, cast, and refer to rows. *)
Definition row_ok (d : db) (i : string) (s : Subscription) : Prop :=
  SubscriptionID s = i /\ uuid i = Some i /\ uuid (subCustomerID s) = Some (subCustomerID s) /\ uuid (subPlanID s) = Some (subPlanID s).

(** The schedule of a subscription on plan [p]. *)
Definition schedule (sys : System) (i : string) (p : Plan) (b : nat -> Z) : Prop :=
  exists f0 f1, opened sys !! i = Some (f0, f1) /\ pgtime f0 = f0 /\ pgtime f1 = f1 /\ f0 < f1 /\ b = bounds f0 f1 (BillingCycle p).

(** What an invoice of [s] on plan [p] is: for one of its periods, and asking
    for what its lines, made from some counts, add up to. *)
Definition invoice_ok (b : nat -> Z) (s : Subscription) (p : Plan) (inv : Invoice) : Prop :=
  invCustomerID inv = subCustomerID s /\ (exists j, PeriodStart inv = Some (b j) /\ PeriodEnd inv = Some (b (S j))) /\
  exists counts, LineItems inv = InvoiceLineItems p counts /\ Amount inv = TotalOf (LineItems inv).

Definition built_ok (b : nat -> Z) (s : Subscription) (p : Plan) (i : string) (x : Subscription * Invoice) : Prop :=
  invSubscriptionID (snd x) = i /\ PeriodStart (snd x) = Some (CurrentPeriodStart (fst x)) /\ invoice_ok b s p (snd x).

Definition on_schedule (b : nat -> Z) (s : Subscription) : Prop := exists k, CurrentPeriodStart s = b k /\ CurrentPeriodEnd s = b (S k).

Definition sweep_ok (b : nat -> Z) (i : string) (s : Subscription) (p : Plan) (sw : Sweep) : Prop :=
  (forall item, item ∈ due sw -> SubscriptionID item = i -> on_schedule b item /\ subCustomerID item = subCustomerID s /\ subPlanID item = subPlanID s) /\
  (forall item, head (due sw) = Some item -> SubscriptionID item = i ->
     match phase sw with Ready => True | Planned q | Invoiced_ q _ => q = p | Built q x => q = p /\ built_ok b s p i x end).

Definition tracks (sys : System) (i : string) (s : Subscription) (p : Plan) (b : nat -> Z) : Prop :=
  plans (sdb sys) !! subPlanID s = Some p /\ schedule sys i p b /\ on_schedule b s /\
  (forall inv, inv ∈ invoices (sdb sys) -> invSubscriptionID inv = i -> invoice_ok b s p inv) /\
  (forall sw, sw ∈ sweeps sys -> sweep_ok b i s p sw) /\
  (forall m, m ∈ demands sys -> uuid (forSub m) = Some i -> built_ok b s p (forSub m) (built m)).

Definition good (sys : System) : Prop :=
  NoDup (key <$> invoices (sdb sys)) /\
  (forall inv, inv ∈ invoices (sdb sys) -> is_Some (subscriptions (sdb sys) !! invSubscriptionID inv)) /\
  (forall sw item, sw ∈ sweeps sys -> item ∈ due sw -> is_Some (subscriptions (sdb sys) !! SubscriptionID item)) /\
  (forall m, m ∈ demands sys -> exists i, uuid (forSub m) = Some i /\ is_Some (subscriptions (sdb sys) !! i)) /\
  forall i s, subscriptions (sdb sys) !! i = Some s -> row_ok (sdb sys) i s /\ exists p b, tracks sys i s p b.

Lemma schedule_chain sys i p b : schedule sys i p b -> chain (BillingCycle p) b.
Proof. intros (f0 & f1 & _ & P0 & P1 & L & ->); apply bounds_chain; done. Qed.

(** A change of the database that leaves subscriptions and invoices alone. *)
Definition same_books (d d' : db) : Prop :=
  subscriptions d' = subscriptions d /\ (forall i p, plans d !! i = Some p -> plans d' !! i = Some p) /\
  exists f, invoices d' = map f (invoices d) /\ forall inv, key (f inv) = key inv /\ invCustomerID (f inv) = invCustomerID inv /\
    PeriodEnd (f inv) = PeriodEnd inv /\ LineItems (f inv) = LineItems inv /\ Amount (f inv) = Amount inv.

Lemma books_invoiced d d' i t : same_books d d' -> invoiced d i t <-> invoiced d' i t.
Proof.
  intros (_ & _ & f & EI & F); unfold invoiced; rewrite EI; split.
  - intros (inv & I & S & P); exists (f inv); destruct (F inv) as (K & _); unfold key in K; split_and!; [ apply list_elem_of_fmap; eauto | congruence .. ].
  - intros (x & I & S & P); apply list_elem_of_fmap in I as (inv & -> & I); exists inv; destruct (F inv) as (K & _); unfold key in K; split_and!; congruence.
Qed.

Lemma books_good sys d' : good sys -> same_books (sdb sys) d' -> good (with_db sys d').
Proof.
  intros (ND & RI & RS & RD & T) (ES & EP & f & EI & F); split_and!; cbn.
  - rewrite EI, <- list_fmap_compose; erewrite list_fmap_ext; [ exact ND | intros ? inv _; apply F ].
  - rewrite EI, ES; intros x I; apply list_elem_of_fmap in I as (inv & -> & I); destruct (F inv) as (K & _); unfold key in K; injection K as -> _; auto.
  - rewrite ES; done.
  - rewrite ES; done.
  - intros i s L; rewrite ES in L; destruct (T _ _ L) as (R & p & b & HP & SC & C & I & SW & DM); split; [ done | ]; exists p, b; split_and!; cbn; try done; [ auto | ].
    rewrite EI; intros x E; apply list_elem_of_fmap in E as (inv & -> & E); destruct (F inv) as (K & C1 & C2 & C3 & C4); unfold key in K; injection K as K1 K2.
    rewrite K1; intros S; destruct (I _ E S) as (V1 & (j & V2 & V3) & counts & V4 & V5); unfold invoice_ok; rewrite C1, K2, C2, C3, C4; eauto 10.
Qed.

(** ** What the operations did *)

Lemma getSubscription_ok u v d x s : GetSubscription uuid u v d x = Ok s -> exists i, uuid x = Some i /\ subscriptions d !! i = Some s.
Proof.
  unfold GetSubscription, resolveCustomerIDForSubscription, cast; destruct u; [ | done ]; destruct (uuid x) as [ i | ]; [ | done ]; cbn [result_bind].
  destruct (subscriptions d !! i) as [ r | ] eqn:L; [ | done ]; cbn [result_bind]; destruct v; [ | done ]; destruct (visible _ _ _); [ | done ].
  intros [= <-]; eauto.
Qed.

Lemma getPlan_ok u d x q : GetPlan uuid u d x = Ok q -> exists i, uuid x = Some i /\ plans d !! i = Some q.
Proof.
  unfold GetPlan, cast; destruct u; [ | done ]; destruct (uuid x) as [ i | ]; [ | done ]; cbn [result_bind].
  destruct (plans d !! i) as [ r | ] eqn:E; [ | done ]; intros [= <-]; eauto.
Qed.

Lemma samePeriod_true i t inv : samePeriod i (Some t) inv = true <-> key inv = (i, Some t).
Proof.
  unfold samePeriod, key; destruct (PeriodStart inv) as [ t' | ]; [ | split; intros; congruence ]; rewrite andb_true_iff, String.eqb_eq, Z.eqb_eq.
  split; [ intros [ -> -> ]; done | intros [= -> ->]; done ].
Qed.

Lemma find_ok u v d x t inv : GetInvoiceForPeriod uuid u v d x t = Ok (Some inv) ->
  exists i, uuid x = Some i /\ invoiced d i (pgtime t).
Proof.
  unfold GetInvoiceForPeriod, resolveCustomerIDForSubscription, cast; destruct u; [ | done ]; destruct (uuid x) as [ i | ]; [ | done ]; cbn [result_bind].
  destruct (subscriptions d !! i) as [ r | ]; [ | done ]; cbn [result_bind]; destruct v; [ | done ].
  destruct (list_find _ _) as [ [ n y ] | ] eqn:F; cbn; [ | done ]; intros _; exists i; split; [ done | ].
  apply list_find_Some in F as (L & B & _); apply Is_true_true, andb_true_iff in B as [ B _ ]; apply samePeriod_true in B; unfold key in B.
  exists y; split_and!; [ eapply list_elem_of_lookup_2; eauto | congruence | congruence ].
Qed.

Lemma build_ok u d id t1 t2 x r : buildInvoice uuid u d id t1 t2 x = Ok r ->
  exists i s q, uuid x = Some i /\ subscriptions d !! i = Some s /\ (exists j, uuid (subPlanID s) = Some j /\ plans d !! j = Some q) /\
    match r with
    | inl _ => invoiced d i (pgtime (CurrentPeriodStart s))
    | inr b => exists counts, b = (s, newInvoice id t1 t2 x s q counts)
    end.
Proof.
  unfold buildInvoice; destruct (GetSubscription _ _ _ _ _) as [ s | | ] eqn:GS; cbn [result_bind]; [ | done .. ].
  destruct (getSubscription_ok _ _ _ _ _ GS) as (i & U & L); destruct (GetPlan _ _ _ _) as [ q | | ] eqn:GP; cbn [result_bind]; [ | done .. ].
  destruct (GetInvoiceForPeriod _ _ _ _ _ _) as [ [ inv | ] | | ] eqn:GI; cbn [result_bind]; [ | | done .. ].
  - intros [= <-]; exists i, s, q; split_and!; [ done | done | apply (getPlan_ok _ _ _ _ GP) | ].
    destruct (find_ok _ _ _ _ _ _ GI) as (i' & U' & I); congruence.
  - destruct (CountUsage _ _ _ _ _ _) as [ counts | | ]; cbn [result_bind]; [ | done .. ]; intros [= <-].
    exists i, s, q; split_and!; [ done | done | apply (getPlan_ok _ _ _ _ GP) | eauto ].
Qed.

(** An insert adds one row, for a period that had none, or finds the period
    invoiced. *)
Lemma insert_ok u d x b d' o : insertInvoice uuid fits u d x b = Ok (d', o) ->
  (exists r i c, uuid (invSubscriptionID (snd b)) = Some i /\ uuid (invCustomerID (snd b)) = Some c /\ is_Some (subscriptions d !! i) /\
     d' = with_invoices d (invoices d ++ [ storedInvoice r i c (snd b) ]) /\
     (forall t, PeriodStart (snd b) = Some t -> (i, Some (pgtime t)) ∉ key <$> invoices d)) \/
  (d' = d /\ (o <> None -> exists i, uuid x = Some i /\ invoiced d i (pgtime (CurrentPeriodStart (fst b))))).
Proof.
  unfold insertInvoice; destruct (CreateInvoice _ _ _ _ _) as [ e | e | ] eqn:CI; [ | | done ].
  - intros [= <- <-]; left; revert CI; unfold CreateInvoice, cast; destruct (u Insert); [ | done ].
    destruct (uuid (InvoiceID _)) as [ r | ]; [ | done ]; destruct (uuid (invSubscriptionID _)) as [ i | ]; [ | done ].
    destruct (uuid (invCustomerID _)) as [ c | ]; [ | done ]; cbn [result_bind]; destruct (_ && _ && _); [ | done ].
    destruct (_ || _) eqn:O; [ done | ]; apply orb_false_iff in O as [ _ O ]; destruct (subscriptions d !! i) eqn:L; [ | done ]; destruct (customers d !! c); [ | done ].
    intros [= <-]; exists r, i, c; split_and!; try done; intros t P K; apply list_elem_of_fmap in K as (inv & K & I).
    assert (existsb (samePeriod i (PeriodStart (storedInvoice r i c (snd b)))) (invoices d) = true) as E; [ | congruence ].
    apply existsb_exists; exists inv; split; [ apply list_elem_of_In; done | ]; cbn; rewrite P; apply samePeriod_true; done.
  - destruct (isUniqueViolation e); [ | done ]; destruct (GetInvoiceForPeriod _ _ _ _ _ _) as [ f | | ] eqn:GI; cbn [result_bind]; [ | done .. ].
    intros [= <- <-]; right; split; [ done | ]; destruct f as [ inv | ]; [ intros _; apply (find_ok _ _ _ _ _ _ GI) | done ].
Qed.

(** ** The invariant is kept *)

(** A new row for a subscription of a schedule. *)
Lemma add_invoice_good sys i s row :
  good sys -> subscriptions (sdb sys) !! i = Some s -> invSubscriptionID row = i -> key row ∉ key <$> invoices (sdb sys) ->
  (forall p b, tracks sys i s p b -> invoice_ok b s p row) -> good (with_db sys (with_invoices (sdb sys) (invoices (sdb sys) ++ [ row ]))).
Proof.
  intros (ND & RI & RS & RD & T) L E N OK; split_and!; cbn.
  - rewrite fmap_app; apply NoDup_app; split_and!; [ done | | apply NoDup_singleton ]; intros k I ->%list_elem_of_singleton; done.
  - intros inv I; apply elem_of_app in I as [ I | ->%list_elem_of_singleton ]; [ auto | rewrite E; eauto ].
  - done.
  - done.
  - intros i' s' L'; destruct (T _ _ L') as (R & p & b & TR); split; [ done | ]; exists p, b; pose proof TR as TR'; destruct TR as (HP & SC & C & I & SW & DM).
    split_and!; cbn; try done; intros inv J S; apply elem_of_app in J as [ J | ->%list_elem_of_singleton ]; [ auto | ].
    assert (i' = i) as -> by congruence; assert (s' = s) as -> by congruence; apply OK; done.
Qed.

(** The row of a built invoice fits the schedule. *)
Lemma stored_ok sys i s p b x r c y : good sys -> tracks sys i s p b -> uuid y = Some i -> built_ok b s p y x -> uuid (invCustomerID (snd x)) = Some c ->
  row_ok (sdb sys) i s -> invoice_ok b s p (storedInvoice r i c (snd x)).
Proof.
  intros G (HP & SC & _) U (SI & PS & C & (j & P0 & P1) & counts & LI & AM) UC (_ & _ & UCS & _); pose proof (schedule_chain _ _ _ _ SC) as (PG & _ & _).
  split_and!; cbn; [ congruence | exists j; rewrite P0, P1; cbn; rewrite !PG; done | exists counts; done ].
Qed.

Lemma insert_good sys u x b d' o i s :
  good sys -> subscriptions (sdb sys) !! i = Some s -> uuid x = Some i ->
  (forall p bd, tracks sys i s p bd -> built_ok bd s p x b) -> insertInvoice uuid fits u (sdb sys) x b = Ok (d', o) ->
  good (with_db sys d') /\ (o <> None -> invoiced d' i (CurrentPeriodStart (fst b))) /\ subscriptions d' = subscriptions (sdb sys) /\
  (forall j t, invoiced (sdb sys) j t -> invoiced d' j t).
Proof.
  intros G L U B I; pose proof G as (_ & _ & _ & _ & T); destruct (T _ _ L) as (R & p & bd & TR); pose proof (B _ _ TR) as BO.
  pose proof BO as (SI & PS & C & (j & P0 & _) & _); pose proof (schedule_chain _ _ _ _ (proj1 (proj2 TR))) as (PG & _ & _).
  assert (pgtime (CurrentPeriodStart (fst b)) = CurrentPeriodStart (fst b)) as PB by (assert (CurrentPeriodStart (fst b) = bd j) as -> by congruence; apply PG).
  destruct (insert_ok _ _ _ _ _ _ I) as [ (r & i' & c & U' & UC & _ & -> & N) | [ -> F ] ].
  - rewrite SI in U'; assert (i' = i) as -> by congruence; split_and!; [ | | done | ].
    + apply add_invoice_good with (i := i) (s := s); [ done | done | done | | ].
      * unfold key; cbn; rewrite PS; cbn; apply N; done.
      * intros p' b' TR'; eapply stored_ok; eauto.
    + intros _; exists (storedInvoice r i c (snd b)); split_and!; [ apply elem_of_app; right; apply list_elem_of_singleton; done | done | cbn; rewrite PS; cbn; rewrite PB; done ].
    + intros k t (inv & J & ?); exists inv; split; [ apply elem_of_app; left; done | done ].
  - split_and!; [ destruct sys; exact G | | done | done ]; intros O; destruct (F O) as (i' & U' & IV); assert (i' = i) as -> by congruence; rewrite PB in IV; done.
Qed.

(** A sweep that moved on, or ended. *)
Lemma replace_sweep_good sys l sw r o : good sys -> sweeps sys = l ++ sw :: r ->
  (forall n, o = Some n -> (forall item, item ∈ due n -> item ∈ due sw) /\
     forall i s p b, subscriptions (sdb sys) !! i = Some s -> tracks sys i s p b -> sweep_ok b i s p sw -> sweep_ok b i s p n) ->
  good (with_sweeps sys (l ++ option_list o ++ r)).
Proof.
  intros (ND & RI & RS & RD & T) E N.
  assert (forall x, x ∈ l ++ option_list o ++ r -> x ∈ sweeps sys \/ o = Some x) as M.
  { intros x; rewrite E, !elem_of_app, elem_of_cons; destruct o; cbn; rewrite ?list_elem_of_singleton, ?elem_of_nil; naive_solver. }
  assert (sw ∈ sweeps sys) as SW by (rewrite E; apply elem_of_app; right; left).
  split_and!; cbn; [ done | done | | done | ].
  - intros x item X I; destruct (M _ X) as [ X' | X' ]; [ eauto | ]; destruct (N _ X') as [ S _ ]; eauto.
  - intros i s L; destruct (T _ _ L) as (R & p & b & TR); split; [ done | ]; exists p, b; pose proof TR as (HP & SC & C & I & SK & DM).
    split_and!; cbn; try done; intros x X; destruct (M _ X) as [ X' | X' ]; [ auto | ]; destruct (N _ X') as [ _ K ]; eapply K; eauto.
Qed.

Lemma due_rows up d now l : SubscriptionsDueForBilling by_end up d now = Ok l ->
  forall item, item ∈ l -> exists i, subscriptions d !! i = Some item /\ subStatus item = "active" /\ CurrentPeriodEnd item <= pgtime now.
Proof.
  unfold SubscriptionsDueForBilling; destruct up; [ | done ]; intros [= <-] item I; rewrite by_end_perm in I; apply list_elem_of_filter in I as [ [ A E ] I ].
  apply list_elem_of_fmap in I as ([ i s ] & -> & I); apply elem_of_map_to_list in I; eauto.
Qed.

Lemma sweep_good sys up now l : good sys -> SubscriptionsDueForBilling by_end up (sdb sys) now = Ok l ->
  good (with_sweeps sys ({| due := l; phase := Ready |} :: sweeps sys)).
Proof.
  intros (ND & RI & RS & RD & T) D; pose proof (due_rows _ _ _ _ D) as R; split_and!; cbn; [ done | done | | done | ].
  - intros sw item S I; apply elem_of_cons in S as [ -> | S ]; [ | eauto ]; destruct (R _ I) as (i & L & _); destruct (T _ _ L) as ((-> & _) & _); eauto.
  - intros i s L; destruct (T _ _ L) as (RO & p & b & HP & SC & C & I & SK & DM); split; [ done | ]; exists p, b; split_and!; cbn; try done.
    intros sw S; apply elem_of_cons in S as [ -> | S ]; [ | auto ]; split; [ | done ]; cbn; intros item J E.
    destruct (R _ J) as (i' & L' & _); destruct (T _ _ L') as ((E' & _) & _); assert (i' = i) as -> by congruence; assert (item = s) as -> by congruence; done.
Qed.

(** What [buildInvoice] built is on the schedule. *)
Lemma build_built_ok sys u id t1 t2 x b i s p bd : row_ok (sdb sys) i s -> tracks sys i s p bd -> uuid x = Some i -> subscriptions (sdb sys) !! i = Some s ->
  buildInvoice uuid u (sdb sys) id t1 t2 x = Ok (inr b) -> built_ok bd s p x b /\ fst b = s.
Proof.
  intros (_ & _ & _ & UP) (HP & SC & (k & K0 & K1) & _) U L B; destruct (build_ok _ _ _ _ _ _ _ B) as (i' & s' & q & U' & L' & (j & UJ & Q) & counts & ->).
  assert (i' = i) as -> by congruence; assert (s' = s) as -> by congruence; assert (j = subPlanID s) as -> by congruence; assert (q = p) as -> by congruence.
  split; [ | done ]; split_and!; [ done | done | ]; split_and!; [ done | exists k; cbn; rewrite K0, K1; done | exists counts; done ].
Qed.

Lemma demand_good sys u id t1 t2 x b : good sys -> buildInvoice uuid u (sdb sys) id t1 t2 x = Ok (inr b) ->
  good (with_demands sys ({| forSub := x; built := b |} :: demands sys)).
Proof.
  intros (ND & RI & RS & RD & T) B; destruct (build_ok _ _ _ _ _ _ _ B) as (i0 & s0 & q & U & L0 & _); split_and!; cbn; [ done | done | done | | ].
  - intros m M; apply elem_of_cons in M as [ -> | M ]; [ cbn; eauto | auto ].
  - intros i s L; destruct (T _ _ L) as (R & p & bd & TR); split; [ done | ]; exists p, bd; pose proof TR as (HP & SC & C & I & SK & DM).
    split_and!; cbn; try done; intros m M UM; apply elem_of_cons in M as [ -> | M ]; [ | auto ]; cbn in *; eapply build_built_ok; eauto.
Qed.

Lemma drop_demand_good sys l m r : good sys -> demands sys = l ++ m :: r -> good (with_demands sys (l ++ r)).
Proof.
  intros (ND & RI & RS & RD & T) E; assert (forall x, x ∈ l ++ r -> x ∈ demands sys) as M by (rewrite E; set_solver); split_and!; cbn; [ done | done | done | auto | ].
  intros i s L; destruct (T _ _ L) as (R & p & bd & HP & SC & C & I & SK & DM); split; [ done | ]; exists p, bd; split_and!; cbn; auto.
Qed.

Lemma insert_step_good sys up l m r d' inv : good sys -> demands sys = l ++ m :: r ->
  insertInvoice uuid fits up (sdb sys) (forSub m) (built m) = Ok (d', inv) -> good (with_demands (with_db sys d') (l ++ r)).
Proof.
  intros G E I; assert (m ∈ demands sys) as M by (rewrite E; apply elem_of_app; right; left).
  pose proof G as (_ & _ & _ & RD & _); destruct (RD _ M) as (i & U & s & L).
  destruct (insert_good sys up _ _ _ _ i s G L U ltac:(intros p bd TR; apply TR; done) I) as [ G' _ ].
  apply (drop_demand_good (with_db sys d') l m r G'); done.
Qed.

(** The period moves on along the schedule. *)
Lemma advance_good sys t sw s rest p0 inv d' o : good sys -> sw ∈ sweeps sys -> due sw = s :: rest -> phase sw = Invoiced_ p0 inv ->
  advance uuid t (sdb sys) s p0 inv = (d', o) -> good (with_db sys d').
Proof.
  intros G SW D PH A; pose proof G as (ND & RI & RS & RD & T); destruct (RS sw s SW ltac:(rewrite D; left)) as [ row L ].
  destruct (T _ _ L) as (R & p & b & TR); unfold advance in A.
  destruct (AdvanceSubscriptionPeriod _ _ _ _ _ _ _ _) as [ d1 | e | ] eqn:E; injection A as <- _; [ | destruct sys; exact G | destruct sys; exact G ].
  unfold AdvanceSubscriptionPeriod, cast in E; destruct (moveUp t); [ | done ]; rewrite (proj1 (proj2 R)) in E; cbn [result_bind] in E.
  destruct (uuid (subCustomerID s)) as [ c | ]; [ | done ]; cbn [result_bind] in E; rewrite L in E; destruct (String.eqb _ _); [ | done ]; injection E as <-.
  pose proof TR as (HP & SC & C & I & SK & DM); pose proof (schedule_chain _ _ _ _ SC) as (PG & _ & NX).
  destruct (SK _ SW) as [ SI SP ]; destruct (SI s ltac:(rewrite D; left) eq_refl) as ((j & J0 & J1) & _); specialize (SP s ltac:(rewrite D; done) eq_refl); rewrite PH in SP; subst p0.
  set (row' := advanced _ _ _ row).
  assert (forall i x, <[ SubscriptionID s := row' ]> (subscriptions (sdb sys)) !! i = Some x ->
    exists y, subscriptions (sdb sys) !! i = Some y /\ SubscriptionID x = SubscriptionID y /\ subCustomerID x = subCustomerID y /\ subPlanID x = subPlanID y /\
      (x = y \/ i = SubscriptionID s /\ x = row')) as LK.
  { intros i x; destruct (decide (SubscriptionID s = i)) as [ <- | NE ]; [ rewrite lookup_insert_eq | rewrite lookup_insert_ne by done; eauto 10 ]; intros [= <-].
    exists row; split_and!; auto. }
  assert (forall i, is_Some (subscriptions (sdb sys) !! i) -> is_Some (<[ SubscriptionID s := row' ]> (subscriptions (sdb sys)) !! i)) as SM
    by (intros i [ y Y ]; destruct (decide (SubscriptionID s = i)) as [ <- | ]; [ rewrite lookup_insert_eq | rewrite lookup_insert_ne by done ]; eauto).
  split_and!; cbn; [ done | auto | eauto | intros m M; destruct (RD _ M) as (i & ? & ?); eauto | ].
  intros i x Lx; destruct (LK _ _ Lx) as (y & Ly & E1 & E2 & E3 & O); destruct (T _ _ Ly) as (Ry & q & bq & TQ).
  split; [ unfold row_ok in *; rewrite E1, E2, E3; done | ]; exists q, bq; destruct TQ as (HP' & SC' & C' & I' & SK' & DM').
  unfold tracks, sweep_ok, built_ok, invoice_ok; rewrite E2, E3; split_and!; cbn; try done.
  destruct O as [ -> | [ -> -> ] ]; [ done | ]; destruct SC as (f0 & f1 & O0 & Q0 & Q1 & Q2 & ->); destruct SC' as (g0 & g1 & O1 & _ & _ & _ & ->).
  assert (q = p) as -> by congruence; assert ((g0, g1) = (f0, f1)) as [= -> ->] by congruence.
  exists (S j); cbn [row' advanced CurrentPeriodStart CurrentPeriodEnd]; rewrite J1, PG; split; [ done | symmetry; apply NX ].
Qed.

(** A sweep's own steps keep the schedule of every subscription. *)
Lemma at_phase_ok (b : nat -> Z) i s p sw ph : sweep_ok b i s p sw ->
  (forall item, head (due sw) = Some item -> SubscriptionID item = i ->
     match ph with Ready => True | Planned q | Invoiced_ q _ => q = p | Built q x => q = p /\ built_ok b s p i x end) -> sweep_ok b i s p (at_phase sw ph).
Proof. intros [ I _ ] P; split; [ exact I | exact P ]. Qed.

Lemma skip_ok (b : nat -> Z) i s p sw : sweep_ok b i s p sw -> sweep_ok b i s p (skip sw).
Proof. intros [ I _ ]; split; [ intros item J; apply I; cbn in J; destruct (due sw); [ done | right; done ] | done ]. Qed.

Lemma skip_due sw item : item ∈ due (skip sw) -> item ∈ due sw.
Proof. cbn; destruct (due sw); [ done | right; done ]. Qed.

Lemma turn_good sys l sw r d' o : good sys -> sweeps sys = l ++ sw :: r -> turn (sdb sys) sw d' o -> good (with_sweeps (with_db sys d') (l ++ option_list o ++ r)).
Proof.
  intros G E; assert (sw ∈ sweeps sys) as SW by (rewrite E; apply elem_of_app; right; left); pose proof G as (_ & _ & RS & _ & T).
  assert (forall d1, with_db (with_db sys d1) (sdb sys) = sys) as WS by (intros; destruct sys; done).
  intros TU; inversion TU as [ up s rest p D PH GP | up id t1 t2 s rest p inv D PH B | up id t1 t2 s rest p b D PH B
    | up s rest p b d1 inv D PH I | t s rest p inv d1 o1 D PH A | s rest D | ]; subst d' o.
  - replace (with_db sys (sdb sys)) with sys by (destruct sys; done); apply replace_sweep_good with sw; [ done | done | ]; intros n [= <-]; split; [ done | ].
    intros i s' p' b' L TR SK; apply at_phase_ok; [ done | ]; intros item HD E2; rewrite D in HD; injection HD as <-.
    destruct (proj1 SK s ltac:(rewrite D; left) E2) as (_ & _ & EP); destruct (getPlan_ok _ _ _ _ GP) as (j & U & Q); destruct TR as (HP & _).
    destruct (T _ _ L) as ((_ & _ & _ & UP) & _); rewrite EP, UP in U; congruence.
  - replace (with_db sys (sdb sys)) with sys by (destruct sys; done); apply replace_sweep_good with sw; [ done | done | ]; intros n [= <-]; split; [ done | ].
    intros i s' p' b' L TR SK; apply at_phase_ok; [ done | ]; intros item HD E2; destruct SK as [ _ SP ]; specialize (SP item HD E2); rewrite PH in SP; done.
  - replace (with_db sys (sdb sys)) with sys by (destruct sys; done); apply replace_sweep_good with sw; [ done | done | ]; intros n [= <-]; split; [ done | ].
    intros i s' p' b' L TR SK; apply at_phase_ok; [ done | ]; intros item HD E2; pose proof (proj2 SK item HD E2) as SP; rewrite PH in SP; split; [ done | ].
    rewrite D in HD; injection HD as <-; rewrite E2 in B; destruct (T _ _ L) as (R & _); eapply build_built_ok; eauto; apply R.
  - destruct (RS sw s SW ltac:(rewrite D; left)) as [ row L ]; destruct (T _ _ L) as (R & _).
    destruct (insert_good sys up _ _ _ _ _ row G L (proj1 (proj2 R))
      ltac:(intros q bq TQ; pose proof TQ as (_ & _ & _ & _ & SK & _); pose proof (proj2 (SK _ SW) s ltac:(rewrite D; done) eq_refl) as SP; rewrite PH in SP; apply SP) I) as [ G' _ ].
    apply (replace_sweep_good (with_db sys d1) l sw r (Some (at_phase sw (Invoiced_ p inv))) G' E); intros n [= <-]; split; [ done | ].
    intros i s' p' b' L' TR SK; apply at_phase_ok; [ done | ]; intros item HD E2; pose proof (proj2 SK item HD E2) as SP; rewrite PH in SP; apply SP.
  - apply (replace_sweep_good (with_db sys d1) l sw r (Some (skip sw)) (advance_good _ _ _ _ _ _ _ _ _ G SW D PH A) E); intros n [= <-].
    split; [ apply skip_due | intros; apply skip_ok; done ].
  - replace (with_db sys (sdb sys)) with sys by (destruct sys; done); apply replace_sweep_good with sw; [ done | done | ]; intros n [= <-].
    split; [ apply skip_due | intros; apply skip_ok; done ].
  - replace (with_db sys (sdb sys)) with sys by (destruct sys; done); apply replace_sweep_good with sw; done.
Qed.

#[local] Opaque pgtime addDate.

Lemma subscribe_ok up d id i t1 t2 t3 t4 c q d' s : uuid id = Some i -> Subscribe uuid fits up d id t1 t2 t3 t4 c q = Ok (d', s) ->
  s = newSubscription id c q t1 t2 t3 t4 /\ subscriptions d !! i = None /\
  exists c' q' p, uuid c = Some c' /\ uuid q = Some q' /\ plans d !! q' = Some p /\ d' = with_subscriptions d (<[ i := stored i c' q' s ]> (subscriptions d)).
Proof.
  intros U SB; unfold Subscribe in SB; destruct (GetPlan _ _ _ _) as [ pl | | ]; cbn [result_bind] in SB; [ | done .. ].
  set (s0 := newSubscription id c q t1 t2 t3 t4) in *; destruct (CreateSubscription _ _ _ _ s0) as [ d1 | | ] eqn:CS; cbn [result_bind] in SB; [ | done .. ].
  injection SB as <- <-; unfold CreateSubscription, cast in CS; destruct (up Insert); [ | done ]; cbn [SubscriptionID s0 newSubscription] in CS; rewrite U in CS; cbn [result_bind] in CS.
  destruct (uuid (subCustomerID s0)) as [ c' | ] eqn:UC; [ | done ]; destruct (uuid (subPlanID s0)) as [ q' | ] eqn:UQ; [ | done ]; cbn [result_bind] in CS.
  destruct (bool_decide _); [ | done ]; destruct (fits _ _); [ | done ]; destruct (subscriptions d !! i) eqn:N; [ done | ].
  destruct (customers d !! c'); [ | done ]; destruct (plans d !! q') as [ p | ] eqn:HP; [ | done ]; injection CS as <-.
  split_and!; [ done | done | exists c', q', p; split_and!; done ].
Qed.

Lemma subscribe_good sys up id i t1 t2 t3 t4 c q d' s : good sys -> t1 <= t2 -> uuid id = Some i -> Subscribe uuid fits up (sdb sys) id t1 t2 t3 t4 c q = Ok (d', s) ->
  good {| sdb := d'; sweeps := sweeps sys; demands := demands sys; opened := <[ i := (pgtime (CurrentPeriodStart s), pgtime (CurrentPeriodEnd s)) ]> (opened sys) |}.
Proof.
  intros (ND & RI & RS & RD & T) LE U SB; destruct (subscribe_ok _ _ _ _ _ _ _ _ _ _ _ _ U SB) as (-> & N & c' & q' & p & UC & UQ & HP & ->).
  set (s0 := newSubscription id c q t1 t2 t3 t4).
  assert (forall j, is_Some (subscriptions (sdb sys) !! j) -> j <> i) as NI by (intros j [ x X ] ->; congruence).
  assert (forall j, is_Some (subscriptions (sdb sys) !! j) -> is_Some (<[ i := stored i c' q' s0 ]> (subscriptions (sdb sys)) !! j)) as SM
    by (intros j J; rewrite lookup_insert_ne by (intros <-; exact (NI _ J eq_refl)); done).
  split_and!; cbn; [ done | auto | eauto | intros m M; destruct (RD _ M) as (j & ? & ?); eauto | ].
  intros j x L; destruct (decide (i = j)) as [ <- | NE ].
  - rewrite lookup_insert_eq in L; injection L as <-; split; [ split_and!; cbn; eauto using uuid_idem | ].
    set (f0 := pgtime t1); set (f1 := pgtime (addDate t2 0 1 0)); exists p, (bounds f0 f1 (BillingCycle p)).
    assert (f0 < f1) as LT by (unfold f0, f1; pose proof (pgtime_close t1); pose proof (pgtime_close (addDate t2 0 1 0)); pose proof (addDate_month t2); unfold day in *; lia).
    split_and!; cbn; [ done | exists f0, f1; cbn; rewrite lookup_insert_eq; split_and!; [ done | apply pgtime_idem | apply pgtime_idem | done | done ] | exists O; done | .. ].
    + intros inv I E; destruct (NI _ (RI _ I) E).
    + intros sw S; split; [ intros item I E; destruct (NI _ (RS _ _ S I) E) | ]; intros item H E; destruct (due sw) as [ | y l ] eqn:D; [ done | ].
      injection H as ->; assert (item ∈ due sw) as I by (rewrite D; left); destruct (NI _ (RS _ _ S I) E).
    + intros m M E; destruct (RD _ M) as (j & E' & J); destruct (NI _ J); congruence.
  - rewrite lookup_insert_ne in L by done; destruct (T _ _ L) as (R & p' & b & HP' & (f0 & f1 & O & SC) & TR); split; [ done | ]; exists p', b; split_and!; cbn; try apply TR; [ done | ].
    exists f0, f1; cbn; rewrite lookup_insert_ne by done; done.
Qed.

(** Everything else leaves the books alone. *)
Lemma books_of d d' : subscriptions d' = subscriptions d -> invoices d' = invoices d -> plans d' = plans d -> same_books d d'.
Proof. intros ES EI EP; split; [ done | split; [ rewrite EP; done | exists (fun x => x); rewrite map_id; split; [ done | intros; split_and!; done ] ] ]. Qed.

Lemma plan_books up d id now q d' : CreatePlan uuid fits up d id now q = Ok d' -> same_books d d'.
Proof.
  unfold CreatePlan, dbCreatePlan, cast; destruct up; [ | done ]; cbn [PlanID]; destruct (uuid id) as [ i | ]; [ | done ]; cbn [result_bind].
  destruct (forallb _ _); [ | done ]; destruct (bool_decide _); [ | done ]; destruct (_ && _); [ | done ]; destruct (plans d !! i) eqn:E; [ done | ]; intros [= <-].
  split_and!; [ done | | exists (fun x => x); rewrite map_id; done ]; intros j x J; cbn; rewrite lookup_insert_ne; [ done | congruence ].
Qed.

Lemma metrics_books up d m d' : CreateUsageMetrics uuid up d m = Ok d' -> same_books d d'.
Proof.
  unfold CreateUsageMetrics, cast; destruct up; [ | done ]; destruct (uuid (MetricsID m)); [ | done ]; destruct (uuid (umSubscriptionID m)); [ | done ]; destruct (uuid (umCustomerID m)); [ | done ]; cbn [result_bind].
  destruct (forallb _ _); [ | done ]; destruct (existsb _ _); [ done | ]; destruct (_ !! _); [ | done ]; destruct (_ !! _); [ | done ]; intros [= <-]; apply books_of; done.
Qed.

Lemma measure_books up d id now i d' m : MeasureUsage uuid up d id now i = Ok (d', m) -> same_books d d'.
Proof.
  unfold MeasureUsage; destruct (GetSubscription _ _ _ _ _); cbn [result_bind]; [ | done .. ]; destruct (GetPlan _ _ _ _); cbn [result_bind]; [ | done .. ].
  destruct (CountUsage _ _ _ _ _ _); cbn [result_bind]; [ | done .. ]; destruct (CreateUsageMetrics _ _ _ _) eqn:E; cbn [result_bind]; [ | done .. ].
  intros [= <- _]; eapply metrics_books; eauto.
Qed.

Lemma record_books up d id now i u d' : RecordUsage uuid up d id now i u = Ok d' -> same_books d d'.
Proof.
  unfold RecordUsage; destruct (GetSubscription _ _ _ _ _); cbn [result_bind]; [ | done .. ]; destruct (GetPlan _ _ _ _); cbn [result_bind]; [ | done .. ].
  destruct (CreateUsageMetrics _ _ _ _) eqn:E; intros [= <-]; [ eapply metrics_books; eauto | apply books_of; done | apply books_of; done ].
Qed.

Lemma paid_books up d i c now d' : MarkInvoicePaid uuid up d i c now = Ok d' -> same_books d d'.
Proof.
  unfold MarkInvoicePaid, cast; destruct up; [ | done ]; destruct (uuid i); [ | done ]; destruct (uuid c); [ | done ]; cbn [result_bind]; intros [= <-].
  split; [ done | split; [ done | eexists; split; [ reflexivity | ] ] ]; intros inv; cbv beta; case_match; split_and!; done.
Qed.

Lemma step_good sys sys' : good sys -> step sys sys' -> good sys'.
Proof.
  intros G S; destruct S; [ eapply sweep_good | eapply turn_good | eapply demand_good | eapply insert_step_good
    | apply books_good; [ | eapply plan_books ] | eapply subscribe_good | apply books_good; [ | eapply measure_books ]
    | apply books_good; [ | eapply record_books ] | apply books_good; [ | eapply paid_books ] | apply books_good; [ | apply books_of ]
    | apply books_good; [ | apply books_of ] | apply books_good; [ | apply books_of ] ]; eauto.
Qed.

Lemma boot_good known : good (boot known).
Proof. split_and!; cbn; [ constructor | intros ? []%elem_of_nil | intros ? ? []%elem_of_nil | intros ? []%elem_of_nil | intros i s; rewrite lookup_empty; done ]. Qed.

Lemma run_good known sys : rtc step (boot known) sys -> good sys.
Proof. intros R; pose proof (boot_good known) as G; induction R as [ | x y z S _ IH ]; [ done | apply IH; eapply step_good; eauto ]. Qed.

(** An invoice covers an instant. *)
Definition covers (t : Z) (inv : Invoice) : Prop := exists a e, PeriodStart inv = Some a /\ PeriodEnd inv = Some e /\ a <= t < e.

Lemma covered_once sys i s p b t x y : good sys -> tracks sys i s p b -> x ∈ invoices (sdb sys) -> y ∈ invoices (sdb sys) ->
  invSubscriptionID x = i -> invSubscriptionID y = i -> covers t x -> covers t y -> x = y.
Proof.
  intros (ND & _) (_ & SC & _ & I & _) X Y Sx Sy (ax & ex & X0 & X1 & Tx) (ay & ey & Y0 & Y1 & Ty); pose proof (schedule_chain _ _ _ _ SC) as C.
  destruct (I _ X Sx) as (_ & (j & J0 & J1) & _); destruct (I _ Y Sy) as (_ & (k & K0 & K1) & _).
  assert (j = k) as -> by (apply (chain_disjoint _ b _ _ t C);  assert (ax = b j) by congruence; assert (ex = b (S j)) by congruence; assert (ay = b k) by congruence; assert (ey = b (S k)) by congruence; lia).
  apply list_elem_of_lookup in X as [ n X ]; apply list_elem_of_lookup in Y as [ m Y ].
  assert (n = m) as -> by (apply (NoDup_lookup _ _ _ (key x) ND); rewrite list_lookup_fmap; [ rewrite X; done | rewrite Y; cbn; f_equal; unfold key; congruence ]).
  congruence.
Qed.

(** C27.  Whatever sweeps and requests run side by side, interrupted between their
    transactions: the invoices of a subscription are for periods of its
    schedule, made out to its customer, each for what its itemised lines add up
    to; and no instant is billed by two of them. *)
Theorem never_billed_twice known sys i s :
  rtc step (boot known) sys -> subscriptions (sdb sys) !! i = Some s ->
  exists p f0 f1, plans (sdb sys) !! subPlanID s = Some p /\ opened sys !! i = Some (f0, f1) /\
    let b := bounds f0 f1 (BillingCycle p) in
    (forall k, b k < b (S k)) /\
    (forall inv, inv ∈ invoices (sdb sys) -> invSubscriptionID inv = i -> invoice_ok b s p inv) /\
    (forall t x y, x ∈ invoices (sdb sys) -> y ∈ invoices (sdb sys) -> invSubscriptionID x = i -> invSubscriptionID y = i -> covers t x -> covers t y -> x = y).
Proof.
  intros R L; pose proof (run_good _ _ R) as G; pose proof G as (_ & _ & _ & _ & T); destruct (T _ _ L) as (_ & p & b & TR); pose proof TR as (HP & SC & _ & I & _).
  pose proof (schedule_chain _ _ _ _ SC) as C; destruct SC as (f0 & f1 & O & _ & _ & _ & ->); exists p, f0, f1; split; [ done | split; [ done | cbv zeta; split; [ apply C | split; [ done | ] ] ] ].
  intros t x y; apply (covered_once _ _ _ _ _ _ _ _ G TR).
Qed.

(** ** No period is skipped when sweeps do not overlap *)

(** Items of a sweep show the present period of their rows; the first one's
    invoice, once built, is for that period. *)
Definition fresh_sweep (d : db) (sw : Sweep) : Prop :=
  NoDup (SubscriptionID <$> due sw) /\
  (forall item, item ∈ due sw -> exists row, subscriptions d !! SubscriptionID item = Some row /\
     CurrentPeriodStart row = CurrentPeriodStart item /\ CurrentPeriodEnd row = CurrentPeriodEnd item) /\
  (forall item, head (due sw) = Some item ->
     match phase sw with
     | Built _ x => CurrentPeriodStart (fst x) = CurrentPeriodStart item
     | Invoiced_ _ _ => invoiced d (SubscriptionID item) (CurrentPeriodStart item)
     | _ => True
     end).

Definition earlier_invoiced (sys : System) : Prop :=
  forall i s p b k m, subscriptions (sdb sys) !! i = Some s -> plans (sdb sys) !! subPlanID s = Some p -> schedule sys i p b ->
    CurrentPeriodStart s = b k -> (m < k)%nat -> invoiced (sdb sys) i (b m).

Definition whole (sys : System) : Prop :=
  good sys /\ (length (sweeps sys) <= 1)%nat /\ earlier_invoiced sys /\ forall sw, sw ∈ sweeps sys -> fresh_sweep (sdb sys) sw.

(** A change that keeps rows and what is invoiced. *)
Lemma whole_with_db sys d' : whole sys -> good (with_db sys d') -> subscriptions d' = subscriptions (sdb sys) ->
  (forall i p, plans (sdb sys) !! i = Some p -> plans d' !! i = Some p) -> (forall i t, invoiced (sdb sys) i t -> invoiced d' i t) -> whole (with_db sys d').
Proof.
  intros (G & L1 & EI & FS) G' ES EP IV; split_and!; [ done | done | | ]; cbn.
  - intros i s p b k m L HP SC E M; cbn in *; rewrite ES in L; pose proof G as (_ & _ & _ & _ & T); destruct (T _ _ L) as (_ & p' & b' & HP' & _).
    apply IV; apply (EI i s p b k m); try done; rewrite (EP _ _ HP') in HP; congruence.
  - intros sw S; destruct (FS _ S) as (ND & R & P); split_and!; [ done | rewrite ES; done | ]; intros item H; specialize (P _ H); destruct (phase sw); auto.
Qed.

Lemma NoDup_fmap_filter {A B} (f : A -> B) (P : A -> Prop) `{!forall x, Decision (P x)} l : NoDup (f <$> l) -> NoDup (f <$> filter P l).
Proof.
  induction l as [ | x l IH ]; [ done | ]; rewrite fmap_cons, filter_cons; intros [ N D ]%NoDup_cons; destruct (decide (P x)); [ | auto ].
  rewrite fmap_cons; apply NoDup_cons; split; [ | auto ]; intros I; apply N; apply list_elem_of_fmap in I as (y & -> & I); apply list_elem_of_filter in I as [ _ I ].
  apply list_elem_of_fmap; eauto.
Qed.

Lemma due_nodup sys up now l : good sys -> SubscriptionsDueForBilling by_end up (sdb sys) now = Ok l -> NoDup (SubscriptionID <$> l).
Proof.
  intros (_ & _ & _ & _ & T); unfold SubscriptionsDueForBilling; destruct up; [ | done ]; intros [= <-]; rewrite by_end_perm.
  apply NoDup_fmap_filter.
  rewrite <- list_fmap_compose; erewrite list_fmap_ext; [ apply (NoDup_fst_map_to_list (subscriptions (sdb sys))) | ].
  intros n [ i s ] L; apply list_elem_of_lookup_2, elem_of_map_to_list in L; destruct (T _ _ L) as ((E & _) & _); cbn in *; congruence.
Qed.

(** The present period is built, found or inserted. *)
Lemma built_present sys u id t1 t2 item row r : good sys -> subscriptions (sdb sys) !! SubscriptionID item = Some row ->
  CurrentPeriodStart row = CurrentPeriodStart item -> buildInvoice uuid u (sdb sys) id t1 t2 (SubscriptionID item) = Ok r ->
  match r with inl _ => invoiced (sdb sys) (SubscriptionID item) (CurrentPeriodStart item) | inr b => CurrentPeriodStart (fst b) = CurrentPeriodStart item end.
Proof.
  intros G L E B; pose proof G as (_ & _ & _ & _ & T); destruct (T _ _ L) as ((_ & U & _) & p & b & _ & SC & (k & K & _) & _).
  pose proof (schedule_chain _ _ _ _ SC) as (PG & _); destruct (build_ok _ _ _ _ _ _ _ B) as (i & s & q & U' & L' & _ & R).
  assert (i = SubscriptionID item) as -> by congruence; assert (s = row) as -> by congruence; destruct r as [ inv | x ].
  - rewrite K, PG, <- K, E in R; exact R.
  - destruct R as (counts & ->); cbn; exact E.
Qed.

Lemma advance_cases t d s p inv d' o : advance uuid t d s p inv = (d', o) -> d' = d \/
  exists i row, uuid (SubscriptionID s) = Some i /\ subscriptions d !! i = Some row /\
    d' = with_subscriptions d (<[ i := advanced (CurrentPeriodEnd s) (NextPeriodEnd (CurrentPeriodEnd s) (BillingCycle p)) (movedClock t) row ]> (subscriptions d)).
Proof.
  unfold advance, AdvanceSubscriptionPeriod, cast; destruct (moveUp t); [ | intros [= <- _]; auto ]; destruct (uuid (SubscriptionID s)) as [ i | ]; [ | intros [= <- _]; auto ].
  destruct (uuid (subCustomerID s)) as [ c | ]; [ | intros [= <- _]; auto ]; cbn [result_bind]; destruct (subscriptions d !! i) as [ row | ] eqn:L; [ | intros [= <- _]; auto ].
  destruct (String.eqb _ _); [ | intros [= <- _]; auto ]; intros [= <- _]; right; exists i, row; done.
Qed.

Lemma advance_whole sys t sw s rest p inv d' o : whole sys -> sweeps sys = [ sw ] -> due sw = s :: rest -> phase sw = Invoiced_ p inv ->
  advance uuid t (sdb sys) s p inv = (d', o) -> whole (with_sweeps (with_db sys d') [ skip sw ]).
Proof.
  intros (G & L1 & EI & FS) ES D PH A; assert (sw ∈ sweeps sys) as SW by (rewrite ES; left).
  assert (good (with_sweeps (with_db sys d') [ skip sw ])) as G' by (apply (turn_good sys [] sw [] d' (Some (skip sw)) G ES); econstructor; eauto).
  destruct (FS _ SW) as (ND & R & P); rewrite D in ND, R, P; apply NoDup_cons in ND as [ NI ND ]; specialize (P s eq_refl); rewrite PH in P.
  destruct (R s ltac:(left)) as (row & L & R0 & R1); pose proof G as (_ & _ & _ & _ & T); destruct (T _ _ L) as ((_ & U & _) & pp & b & HP & SC & (k & K0 & K1) & _ & SK & _).
  destruct (advance_cases _ _ _ _ _ _ _ A) as [ -> | (i & row' & U' & L' & ->) ].
  - split_and!; [ done | cbn; lia | exact EI | ]; intros x ->%list_elem_of_singleton; split_and!; cbn; rewrite D; cbn; [ done | | done ]; intros item I; apply R; right; done.
  - assert (i = SubscriptionID s) as -> by congruence; assert (row' = row) as -> by congruence.
    assert (p = pp) as -> by (pose proof (proj2 (SK _ SW) s ltac:(rewrite D; done) eq_refl) as SP; rewrite PH in SP; done).
    pose proof (schedule_chain _ _ _ _ SC) as CH; pose proof CH as (PG & IN & NX); split_and!; [ done | cbn; lia | | ].
    + intros j s' p' b' n m Lj HPj SCj En Mn; change (invoiced (sdb sys) j (b' m)); cbn in Lj, HPj, SCj; destruct (decide (SubscriptionID s = j)) as [ <- | NE ].
      2: { rewrite lookup_insert_ne in Lj by done; exact (EI j s' p' b' n m Lj HPj SCj En Mn). }
      rewrite lookup_insert_eq in Lj; injection Lj as <-; cbn in HPj, En; assert (p' = pp) as -> by congruence.
      assert (b' = b) as -> by (destruct SC as (f0 & f1 & O & _ & _ & _ & ->); destruct SCj as (g0 & g1 & O' & _ & _ & _ & ->); cbn in O'; congruence).
      rewrite <- R1, K1, PG in En; apply (chain_inj _ _ _ _ CH) in En; subst n; destruct (decide (m = k)) as [ -> | ]; [ rewrite <- K0, R0; exact P | ].
      apply (EI _ row pp b k m L HP SC K0); lia.
    + intros x ->%list_elem_of_singleton; split_and!; cbn; rewrite D; cbn; [ done | | done ]; intros item I.
      destruct (R item ltac:(right; done)) as (ri & Li & Ri); exists ri; rewrite lookup_insert_ne; [ done | ]; intros E; apply NI; rewrite E; apply list_elem_of_fmap; eauto.
Qed.

(** A sweep alone that moved without touching the books. *)
Lemma whole_sweep sys sw o : whole sys -> sweeps sys = [ sw ] -> good (with_sweeps sys (option_list o)) ->
  (forall n, o = Some n -> fresh_sweep (sdb sys) n) -> whole (with_sweeps sys (option_list o)).
Proof.
  intros (G & L1 & EI & FS) ES G' F; split_and!; [ done | destruct o; cbn; lia | exact EI | ]; intros x X; apply F; destruct o; cbn in X; [ | inversion X ].
  apply list_elem_of_singleton in X; congruence.
Qed.

Lemma fresh_phase d sw ph : fresh_sweep d sw ->
  (forall item, head (due sw) = Some item ->
     match ph with Built _ x => CurrentPeriodStart (fst x) = CurrentPeriodStart item | Invoiced_ _ _ => invoiced d (SubscriptionID item) (CurrentPeriodStart item) | _ => True end) ->
  fresh_sweep d (at_phase sw ph).
Proof. intros (ND & R & _) P; split_and!; done. Qed.

Lemma fresh_skip d sw : fresh_sweep d sw -> fresh_sweep d (skip sw).
Proof.
  intros (ND & R & _); split_and!; cbn; [ | | done ]; destruct (due sw) as [ | s l ]; [ done | apply NoDup_cons in ND as [ _ ND ]; done | done | ].
  intros item I; apply R; right; done.
Qed.

Lemma turn_whole sys sw d' o : whole sys -> sweeps sys = [ sw ] -> turn (sdb sys) sw d' o -> whole (with_sweeps (with_db sys d') (option_list o)).
Proof.
  intros W ES TU; pose proof W as (G & L1 & EI & FS); assert (sw ∈ sweeps sys) as SW by (rewrite ES; left); pose proof (FS _ SW) as F; pose proof F as (ND & R & P).
  assert (good (with_sweeps (with_db sys d') (option_list o))) as G' by (pose proof (turn_good sys [] sw [] d' o G ES TU) as X; rewrite app_nil_r in X; exact X).
  inversion TU as [ up s rest p D PH GP | up id t1 t2 s rest p inv D PH B | up id t1 t2 s rest p b D PH B
    | up s rest p b d1 inv D PH I | t s rest p inv d1 o1 D PH A | s rest D | ]; subst d' o.
  1-3,6-7: replace (with_db sys (sdb sys)) with sys in * by (destruct sys; done); apply whole_sweep with sw; try done; intros n [= <-].
  - apply fresh_phase; done.
  - apply fresh_phase; [ done | ]; rewrite D; intros item [= <-]; destruct (R s ltac:(rewrite D; left)) as (row & L & R0 & _).
    exact (built_present _ _ _ _ _ _ _ _ G L R0 B).
  - apply fresh_phase; [ done | ]; rewrite D; intros item [= <-]; destruct (R s ltac:(rewrite D; left)) as (row & L & R0 & _).
    exact (built_present _ _ _ _ _ _ _ _ G L R0 B).
  - apply fresh_skip; done.
  - destruct (R s ltac:(rewrite D; left)) as (row & L & R0 & _); pose proof G as (_ & _ & _ & _ & T); destruct (T _ _ L) as (RO & _).
    specialize (P s ltac:(rewrite D; done)); rewrite PH in P.
    destruct (insert_good sys up _ _ _ _ _ row G L (proj1 (proj2 RO))
      ltac:(intros q bq TQ; pose proof TQ as (_ & _ & _ & _ & SK & _); pose proof (proj2 (SK _ SW) s ltac:(rewrite D; done) eq_refl) as SP; rewrite PH in SP; apply SP) I) as (Gd & IV & ESub & MON).
    assert (plans d1 = plans (sdb sys)) as EPl by (destruct (insert_ok _ _ _ _ _ _ I) as [ (? & ? & ? & _ & _ & _ & -> & _) | [ -> _ ] ]; done).
    assert (whole (with_db sys d1)) as W' by (apply whole_with_db; [ done | done | done | rewrite EPl; done | done ]).
    apply (whole_sweep (with_db sys d1) sw (Some (at_phase sw (Invoiced_ p inv))) W' ES G'); intros n [= <-]; apply fresh_phase.
    + destruct W' as (_ & _ & _ & FS'); apply FS'; exact SW.
    + rewrite D; intros item [= <-]; rewrite <- P; apply IV; done.
  - exact (advance_whole _ _ _ _ _ _ _ _ _ W ES D PH A).
Qed.

Lemma serial_whole sys sys' : whole sys -> serial_step uuid fits by_end sys sys' -> whole sys'.
Proof.
  intros W [ S L ]; pose proof W as (G & L1 & EI & FS); pose proof (step_good _ _ G S) as G'.
  assert (forall d', same_books (sdb sys) d' -> good (with_db sys d') -> whole (with_db sys d')) as BK
    by (intros d' SB GB; pose proof SB as (ES & EP & _); apply whole_with_db; try done; intros i t; exact (proj1 (books_invoiced _ _ i t SB))).
  destruct S.
  - cbn in L; destruct (sweeps sys) as [ | x l0 ] eqn:E; [ | cbn in L; lia ]; split_and!; [ done | cbn; lia | exact EI | ].
    intros sw ->%list_elem_of_singleton; split_and!; cbn; [ eapply due_nodup; eauto | | done ].
    intros item I; destruct (due_rows _ _ _ _ H _ I) as (i & Li & _); pose proof G as (_ & _ & _ & _ & T); destruct (T _ _ Li) as ((-> & _) & _); eauto.
  - assert (l = [] /\ r = []) as [ -> -> ].
    { rewrite H in L1; rewrite !length_app in L1; cbn in L1; destruct l, r; cbn in L1; done || lia. }
    rewrite app_nil_r; eapply turn_whole; eauto.
  - split_and!; [ done | done | exact EI | done ].
  - assert (m ∈ demands sys) as M by (rewrite H; apply elem_of_app; right; left); pose proof G as (_ & _ & _ & RD & T); destruct (RD _ M) as (i & U & s & Ls).
    destruct (insert_good sys up _ _ _ _ i s G Ls U ltac:(intros p bd TR; apply TR; done) H0) as (Gd & _ & ESub & MON).
    assert (plans d' = plans (sdb sys)) as EPl by (destruct (insert_ok _ _ _ _ _ _ H0) as [ (? & ? & ? & _ & _ & _ & -> & _) | [ -> _ ] ]; done).
    assert (whole (with_db sys d')) as (_ & ? & EI' & FS') by (apply whole_with_db; [ done | done | done | rewrite EPl; done | done ]).
    split_and!; [ done | done | exact EI' | exact FS' ].
  - apply BK; [ eapply plan_books; eauto | done ].
  - destruct (subscribe_ok _ _ _ _ _ _ _ _ _ _ _ _ H0 H1) as (-> & N & c' & q' & p0 & _ & _ & HP & ->); split_and!; [ done | done | | ].
    + intros j x pl b k m Lj HPj SCj En Mn; change (invoiced (sdb sys) j (b m)); cbn in Lj, HPj; destruct (decide (i = j)) as [ <- | NE ].
      * rewrite lookup_insert_eq in Lj; injection Lj as <-; pose proof (schedule_chain _ _ _ _ SCj) as CH; destruct SCj as (f0 & f1 & O & _ & _ & _ & ->).
        cbn in O, En; rewrite lookup_insert_eq in O; injection O as <- _; apply (chain_inj _ _ 0%nat k CH) in En; lia.
      * rewrite lookup_insert_ne in Lj by done; apply (EI j x pl b k m Lj HPj); [ | done | done ].
        destruct SCj as (f0 & f1 & O & SCj); exists f0, f1; cbn in O; rewrite lookup_insert_ne in O by done; done.
    + intros sw SW; destruct (FS _ SW) as (ND & R & P); split_and!; [ done | | exact P ]; intros item I; destruct (R _ I) as (row & Lr & Rr); exists row; cbn.
      rewrite lookup_insert_ne; [ done | intros ->; congruence ].
  - apply BK; [ eapply measure_books; eauto | done ].
  - apply BK; [ eapply record_books; eauto | done ].
  - apply BK; [ eapply paid_books; eauto | done ].
  - apply BK; [ apply books_of; done | done ].
  - apply BK; [ apply books_of; done | done ].
  - apply BK; [ apply books_of; done | done ].
Qed.

Lemma serial_run known sys : rtc (serial_step uuid fits by_end) (boot known) sys -> whole sys.
Proof.
  intros R; assert (whole (boot known)) as W
    by (split_and!; [ apply boot_good | cbn; lia | intros i s p b k m L; cbn in L; rewrite lookup_empty in L; done | intros sw []%elem_of_nil ]).
  induction R as [ | x y z S _ IH ]; [ done | apply IH; eapply serial_whole; eauto ].
Qed.

(** C28.  As long as no two sweeps overlap, whatever else happens and wherever a
    sweep stops: every instant of a subscription from its first to the start of
    its present period is billed, by exactly one invoice. *)
Theorem no_period_skipped known sys i s f0 f1 t :
  rtc (serial_step uuid fits by_end) (boot known) sys -> subscriptions (sdb sys) !! i = Some s -> opened sys !! i = Some (f0, f1) ->
  f0 <= t < CurrentPeriodStart s ->
  exists inv, inv ∈ invoices (sdb sys) /\ invSubscriptionID inv = i /\ covers t inv /\
    forall inv', inv' ∈ invoices (sdb sys) -> invSubscriptionID inv' = i -> covers t inv' -> inv' = inv.
Proof.
  intros R L O B; pose proof (serial_run _ _ R) as (G & _ & EI & _); pose proof G as (_ & _ & _ & _ & T).
  destruct (T _ _ L) as (_ & p & b & TR); pose proof TR as (HP & SC & (k & K0 & _) & I & _); pose proof (schedule_chain _ _ _ _ SC) as C.
  assert (b 0%nat = f0) as B0 by (destruct SC as (g0 & g1 & O' & _ & _ & _ & ->); cbn; congruence).
  destruct (chain_covers _ b k t C ltac:(rewrite B0, <- K0; exact B)) as (j & J & Bj); destruct (EI _ _ _ _ _ _ L HP SC K0 J) as (inv & Iv & Si & Pi).
  destruct (I _ Iv Si) as (_ & (m & M0 & M1) & _); assert (j = m) as <- by (apply (chain_inj _ b _ _ C); congruence).
  exists inv; split_and!; [ done | done | exists (b j), (b (S j)); done | ]; intros x X Sx Cx.
  apply (covered_once sys i s p b t); try done; exists (b j), (b (S j)); done.
Qed.
End Invariant.

(** ** A run *)

(** Ids are their own casts; rows come as they are. *)
Module Simple.
Definition uuid (s : string) : option string := Some s.
Definition fits (n : Z) (s : string) : bool := true.
Definition by_end (l : list Subscription) : list Subscription := l.
Definition up : Call -> bool := fun _ => true.

#[export] Instance simple_store : BillingStore uuid by_end.
Proof. split; [ intros x y [= <-]; done | reflexivity ]. Qed.

Definition january : Z := days_from_civil 2026 1 1 * day.
Definition february : Z := days_from_civil 2026 2 1 * day.
Definition pro : Plan :=
  {| PlanID := ""; Name := "Pro"; Description := ""; Price := 10000; Currency := "USD"; BillingCycle := "monthly"; SigningLimit := 1; KeyLimit := 1;
     SupportLevel := "email"; Features := []; OverageSigningCents := 25; OverageKeyCents := 100; planCreatedAt := 0 |}.
Definition customer : gmap string (option string) := {[ "acme" := None ]}.
Definition signed (t : Z) : Work := {| workCustomer := "acme"; workStatus := "completed"; workCreated := t |}.
Definition ok {A} (r : result BErr A) (a : A) : A := match r with Ok x => x | _ => a end.

(** A plan, a subscription from January, three signatures, and a sweep in
    February that lists it, invoices it and advances it. *)
Definition s1 : System := with_db (boot customer) (ok (CreatePlan uuid fits true (sdb (boot customer)) "pro" january pro) (sdb (boot customer))).
Definition bought : db * Subscription :=
  ok (Subscribe uuid fits up (sdb s1) "sub" january january january january "acme" "pro") (sdb s1, newSubscription "" "" "" 0 0 0 0).
Definition s2 : System := {| sdb := fst bought; sweeps := []; demands := []; opened := {[ "sub" := (january, february) ]} |}.
Definition s3 : System := with_db s2 (with_work (sdb s2) [ signed (january + 1); signed (january + 2); signed (february - 1) ] []).
Definition listed : list Subscription := ok (SubscriptionsDueForBilling by_end true (sdb s3) february) [].
Definition s4 : System := with_sweeps s3 [ {| due := listed; phase := Ready |} ].
Definition plan : Plan := ok (GetPlan uuid true (sdb s3) "pro") pro.
Definition s5 : System := with_sweeps s3 [ {| due := listed; phase := Planned plan |} ].
Definition bill : Subscription * Invoice :=
  match buildInvoice uuid up (sdb s3) "inv" february february "sub" with Ok (inr b) => b | _ => (snd bought, newInvoice "" 0 0 "" (snd bought) pro {| countSigningRequests := 0; countKeyOperations := 0 |}) end.
Definition s6 : System := with_sweeps s3 [ {| due := listed; phase := Built plan bill |} ].
Definition d7 : db := fst (ok (insertInvoice uuid fits up (sdb s3) "sub" bill) (sdb s3, None)).
Definition s7 : System := with_sweeps (with_db s3 d7) [ {| due := listed; phase := Invoiced_ plan (snd bill) |} ].
Definition clocks : Turn := {| planUp := true; genUp := up; moveUp := true; turnID := "inv"; dueClock := february; createdClock := february; movedClock := february |}.
Definition d8 : db := fst (advance uuid clocks d7 (hd (snd bought) listed) plan (snd bill)).
Definition s8 : System := with_sweeps (with_db s3 d8) [ {| due := []; phase := Ready |} ].

Lemma serial_to sys sys' sys'' : step uuid fits by_end sys sys' -> sys' = sys'' -> (length (sweeps sys'') <= 1)%nat -> serial_step uuid fits by_end sys sys''.
Proof. intros S -> L; done. Qed.

Lemma serial_turn sys sys' sw sw' d' : sweeps sys = [ sw ] -> turn uuid fits (sdb sys) sw d' (Some sw') -> with_sweeps (with_db sys d') [ sw' ] = sys' ->
  serial_step uuid fits by_end sys sys'.
Proof. intros E T <-; split; [ | cbn; lia ]; exact (step_turn _ _ _ sys [] sw [] d' (Some sw') E T). Qed.

Definition item : Subscription := hd (snd bought) listed.
Ltac calc := vm_compute; reflexivity.

Lemma opening : rtc (serial_step uuid fits by_end) (boot customer) s4.
Proof.
  apply rtc_l with s1; [ eapply serial_to; [ apply (step_plan _ _ _ (boot customer) true "pro" january pro (sdb s1)); calc | calc | cbn; lia ] | ].
  apply rtc_l with s2; [ eapply serial_to;
    [ apply (step_subscribe _ _ _ s1 up "sub" "sub" january january january january "acme" "pro" (fst bought) (snd bought)); [ lia | calc | calc ] | calc | cbn; lia ] | ].
  apply rtc_l with s3; [ eapply serial_to; [ apply step_work | reflexivity | cbn; lia ] | ].
  apply rtc_l with s4; [ eapply serial_to; [ apply (step_sweep _ _ _ s3 true february listed); calc | calc | cbn; lia ] | apply rtc_refl ].
Qed.

Lemma run : rtc (serial_step uuid fits by_end) (boot customer) s8.
Proof.
  transitivity s4; [ exact opening | ].
  apply rtc_l with s5; [ eapply serial_turn; [ reflexivity | apply (turn_plan _ _ _ _ true item [] plan); calc | calc ] | ].
  apply rtc_l with s6; [ eapply serial_turn; [ reflexivity | apply (turn_build _ _ _ _ up "inv" february february item [] plan bill); calc | calc ] | ].
  apply rtc_l with s7; [ eapply serial_turn; [ reflexivity | apply (turn_insert _ _ _ _ up item [] plan bill d7 (snd bill)); calc | calc ] | ].
  apply rtc_l with s8; [ | apply rtc_refl ].
  eapply serial_turn; [ reflexivity | apply (turn_advance _ _ _ _ clocks item [] plan (snd bill) d8 (snd (advance uuid clocks d7 item plan (snd bill)))); calc | calc ].
Qed.

Lemma run_steps : rtc (step uuid fits by_end) (boot customer) s8.
Proof. refine (rtc_subrel _ _ _ _ _ run); intros ? ? [ ? _ ]; done. Qed.

Definition sub : Subscription := default (snd bought) (subscriptions (sdb s8) !! "sub").
Lemma sub_row : subscriptions (sdb s8) !! "sub" = Some sub.
Proof. vm_compute; reflexivity. Qed.

(** The signatures beyond the one included are on the invoice. *)
Lemma never_billed_twice_witness :
  map Amount (invoices (sdb s8)) = [ 10050 ] /\
  exists p f0 f1, plans (sdb s8) !! subPlanID sub = Some p /\ opened s8 !! "sub" = Some (f0, f1) /\
    let b := bounds f0 f1 (BillingCycle p) in
    (forall k, b k < b (S k)) /\
    (forall inv, inv ∈ invoices (sdb s8) -> invSubscriptionID inv = "sub" -> invoice_ok b sub p inv) /\
    (forall t x y, x ∈ invoices (sdb s8) -> y ∈ invoices (sdb s8) -> invSubscriptionID x = "sub" -> invSubscriptionID y = "sub" -> covers t x -> covers t y -> x = y).
Proof. split; [ vm_compute; reflexivity | apply (never_billed_twice uuid fits by_end customer s8 "sub" sub run_steps sub_row) ]. Defined.

Lemma no_period_skipped_witness :
  CurrentPeriodStart sub = february /\
  exists inv, inv ∈ invoices (sdb s8) /\ invSubscriptionID inv = "sub" /\ covers (february - 1) inv /\
    forall inv', inv' ∈ invoices (sdb s8) -> invSubscriptionID inv' = "sub" -> covers (february - 1) inv' -> inv' = inv.
Proof.
  split; [ vm_compute; reflexivity | ].
  apply (no_period_skipped uuid fits by_end customer s8 "sub" sub january february (february - 1) run sub_row); [ vm_compute; reflexivity | ].
  vm_compute; split; [ discriminate | reflexivity ].
Defined.

(** ** Where a period is billed early *)

Definition march : Z := days_from_civil 2026 3 1 * day.
Definition clocks2 : Turn := {| planUp := true; genUp := up; moveUp := true; turnID := "inv2"; dueClock := february; createdClock := february; movedClock := february |}.

(** Two sweeps that both listed a subscription before either advanced it: the
    second invoices the period that has only just begun, so the work of that
    period is never billed. *)
Lemma overlapping_sweeps_bill_ahead :
  SubscriptionsDueForBilling by_end true (sdb s3) february = Ok [ item ] /\
  let d := fst (billOne uuid fits clocks (sdb s3) item) in
  let d' := fst (billOne uuid fits clocks2 d item) in
  let later := with_work d' (signing_requests d' ++ repeat (signed (march - 1)) 9) [] in
  map (fun inv => (PeriodEnd inv, Amount inv)) (invoices (fst (RunBilling uuid fits by_end true (fun _ => clocks2) later march))) =
    [ (Some february, 10050); (Some march, 10000) ].
Proof. vm_compute; done. Qed.

(** An invoice asked for during the period stands for all of it. *)
Lemma invoice_on_demand_misses_usage :
  let d := fst (ok (GenerateInvoice uuid fits up (sdb s2) "inv" (january + 5) (january + 6) "sub") (sdb s2, None)) in
  let later := with_work d (repeat (signed (january + 10)) 9) [] in
  map (fun inv => (PeriodEnd inv, Amount inv)) (invoices (fst (RunBilling uuid fits by_end true (fun _ => clocks2) later february))) =
    [ (Some february, 10000) ].
Proof. vm_compute; done. Qed.

(** The first period of a yearly plan is a month, at the yearly price. *)
Lemma first_year_is_a_month : CurrentPeriodEnd (newSubscription "sub" "acme" "yearly" january january january january) = february.
Proof. vm_compute; done. Qed.

(** What was used in a cancelled subscription's last period is not billed. *)
Lemma cancelled_is_not_billed :
  let d := ok (CancelSubscription uuid up (sdb s3) (february - 1) (february - 1) "sub" true) (sdb s3) in
  invoices (fst (RunBilling uuid fits by_end true (fun _ => clocks) d february)) = [].
Proof. vm_compute; done. Qed.
End Simple.
End BillingPeriods.
