(* ===== verification/BillingCollect.v ===== *)
(** * Billing: collecting payment

    Models [services/billing]: [stripe.go] (the payment processor's client and
    [ChargeInvoice]), [collect.go] (the collection pass and the card pages),
    [auth.go] (the bearer token) and [HandleChargeInvoice] of [usage.go].

    The processor is a state and a function that answers requests; a request
    keeps its form, or its query, before it is percent-encoded.  Decoding of the
    answers, [url.Parse], [strings.EqualFold], SHA-256 and the texts of errors
    are parameters.  The collection pass is written against the two interfaces
    the code gives it ([collectionStore], [invoiceCharger]), here classes over
    the state they act on.

    Shown here: every invoice a pass looks at is reported once, and what a pass
    does not mark; BillingLedger.v relates invoices to the money taken. *)

From Stdlib Require Import ZArith Lia Ascii String Permutation.
From stdpp Require Import base list numbers strings gmap.
From S2P Require Import Prelude GoStrings GoText Policy Calendar Billing.

Open Scope Z_scope.

Module BillingCollect.
Import Calendar Billing.
#[local] Open Scope string_scope.
#[local] Open Scope list_scope.
#[local] Open Scope Z_scope.

(** ** The processor's client *)

Record StripeClient := { apiKey : string; baseURL : string }.

Definition stripeAPIBase : string := "https://api.stripe.com".
Definition stripeAPIVersion : string := "2024-06-20".

(** [strings.TrimSuffix(s, "/")]: one slash. *)
Fixpoint trim_slash (s : string) : string :=
  match s with
  | String "/"%char EmptyString => EmptyString
  | String c t => String c (trim_slash t)
  | EmptyString => EmptyString
  end.

Definition NewStripeClient (getenv : string -> string) (key : string) : StripeClient :=
  let base := getenv "STRIPE_API_BASE" in
  {| apiKey := key; baseURL := trim_slash (if String.eqb base "" then stripeAPIBase else base) |}.

Definition Configured (s : StripeClient) : bool := negb (String.eqb (apiKey s) "").

Record stripeError := { errType : string; errCode : string; errMessage : string; errParam : string }.
Record PaymentIntent := {
  intentID : string; intentAmount : Z; intentCurrency : string; intentStatus : string; ClientSecret : string; intentCustomer : string;
}.
Record StripeCustomer := { custID : string; custEmail : string; Metadata : gmap string string }.
Record CardSummary := { Brand : string; Last4 : string; ExpMonth : Z; ExpYear : Z }.
Record SetupSession := { sessionID : string; sessionURL : string }.

Record Request := {
  verb : string; url : string; params : list (string * string); idempotencyKey : string; authorization : string; version : string;
}.

Inductive Exchange : Type := NotBuilt | NotReached | NotRead | Answered (status : Z) (raw : string).

Inductive SErr : Type :=
  | NotConfigured | NoIdempotencyKey (path : string) | RequestNotBuilt | RequestFailed | ResponseUnread
  | Refused (status : Z) (e : stripeError) | RefusedRaw (status : Z) (body : string) | Undecodable
  | NothingToCharge (cents : Z) | NoCurrency | NoPayer | NoSession.

(** [json.Unmarshal] into the struct of each call. *)
Class StripeJson := {
  parseError : string -> option stripeError;
  parseIntent : string -> option PaymentIntent;
  parseIntents : string -> option (list PaymentIntent);
  parseCustomer : string -> option StripeCustomer;
  parseDefaultMethod : string -> option string;
  parseMethods : string -> option (list string);
  parseCard : string -> option CardSummary;
  parseSession : string -> option SetupSession;
}.

(** [io.LimitReader] *)
Fixpoint limit_reader (n : N) (s : string) : string :=
  match s with
  | EmptyString => EmptyString
  | String c t => if (n =? 0)%N then EmptyString else String c (limit_reader (n - 1) t)
  end.

(** [strings.ReplaceAll(s, "'", "")] *)
Fixpoint without_quotes (s : string) : string :=
  match s with
  | EmptyString => EmptyString
  | String c t => if Ascii.eqb c "'" then without_quotes t else String c (without_quotes t)
  end.

(** [url.PathEscape] *)
Definition path_safe (c : ascii) : bool :=
  let n := chr c in
  ((48 <=? n) && (n <=? 57)) || ((65 <=? n) && (n <=? 90)) || ((97 <=? n) && (n <=? 122)) ||
  existsb (Ascii.eqb c) [ "-"; "_"; "."; "~"; "$"; "&"; "+"; ":"; "="; "@" ]%char.
Definition upper_hex (n : Z) : ascii := asc (if n <? 10 then 48 + n else 55 + n).
Fixpoint PathEscape (s : string) : string :=
  match s with
  | EmptyString => EmptyString
  | String c t =>
      if path_safe c then String c (PathEscape t)
      else String "%" (String (upper_hex (chr c / 16)) (String (upper_hex (chr c mod 16)) (PathEscape t)))
  end.

Section Client.
Context {W : Type} {SJ : StripeJson} (serve : W -> Request -> W * Exchange).
Abbreviation calls A := (W -> W * result SErr A).

(** One call after another, the first failure ends it. *)
Definition and_then {E A B} (c : W * result E A) (f : W -> A -> W * result E B) : W * result E B :=
  match c with (w, Ok a) => f w a | (w, Err e) => (w, Err e) | (w, Panic) => (w, Panic) end.

Definition do {A} (decode : string -> option A) (req : Request) : calls A :=
  fun w =>
    match serve w req with
    | (w', NotBuilt) => (w', Err RequestNotBuilt)
    | (w', NotReached) => (w', Err RequestFailed)
    | (w', NotRead) => (w', Err ResponseUnread)
    | (w', Answered status raw) =>
        let body := limit_reader 1048576 raw in
        (w', if (status <? 200) || (300 <=? status) then
          match parseError body with
          | Some se => if negb (String.eqb (errMessage se) "") then Err (Refused status se) else Err (RefusedRaw status (trim_space body))
          | None => Err (RefusedRaw status (trim_space body))
          end
        else match decode body with Some v => Ok v | None => Err Undecodable end)
    end.

Definition request (s : StripeClient) (verb path : string) (params : list (string * string)) (key : string) : Request :=
  {| verb := verb; url := baseURL s +:+ path; params := params; idempotencyKey := key; authorization := "Bearer " +:+ apiKey s; version := stripeAPIVersion |}.

Definition post {A} (s : StripeClient) (path : string) (form : list (string * string)) (key : string) (decode : string -> option A) : calls A :=
  fun w =>
    if negb (Configured s) then (w, Err NotConfigured)
    else if String.eqb key "" then (w, Err (NoIdempotencyKey path))
    else do decode (request s "POST" path form key) w.

Definition get {A} (s : StripeClient) (path : string) (query : list (string * string)) (decode : string -> option A) : calls A :=
  fun w => if negb (Configured s) then (w, Err NotConfigured) else do decode (request s "GET" path query "") w.

Definition CreateCustomer (s : StripeClient) (customerID email name : string) : calls StripeCustomer :=
  post s "/v1/customers" [ ("email", email); ("name", name); ("metadata[openfireblocks_customer_id]", customerID) ] ("customer:" +:+ customerID) parseCustomer.

Definition intentForm (amountCents : Z) (currency stripeCustomerID paymentMethodID : string) (metadata : list (string * string)) : list (string * string) :=
  [ ("amount", show_int amountCents); ("currency", to_lower currency); ("customer", stripeCustomerID); ("payment_method", paymentMethodID);
    ("confirm", "true"); ("off_session", "true"); ("error_on_requires_action", "true") ] ++
  map (fun kv => ("metadata[" +:+ fst kv +:+ "]", snd kv)) metadata.

Definition CreatePaymentIntent (s : StripeClient) (amountCents : Z) (currency stripeCustomerID paymentMethodID key : string)
    (metadata : list (string * string)) : calls PaymentIntent :=
  fun w =>
    if amountCents <=? 0 then (w, Err (NothingToCharge amountCents))
    else if String.eqb currency "" then (w, Err NoCurrency)
    else if String.eqb stripeCustomerID "" || String.eqb paymentMethodID "" then (w, Err NoPayer)
    else post s "/v1/payment_intents" (intentForm amountCents currency stripeCustomerID paymentMethodID metadata) key parseIntent w.

(** The card to charge, or [""]. *)
Definition DefaultPaymentMethod (s : StripeClient) (stripeCustomerID : string) : calls string :=
  fun w =>
    and_then (get s ("/v1/customers/" +:+ PathEscape stripeCustomerID) [] parseDefaultMethod w) (fun w pm =>
      if negb (String.eqb pm "") then (w, Ok pm)
      else
        and_then (get s "/v1/payment_methods" [ ("customer", stripeCustomerID); ("type", "card"); ("limit", "1") ] parseMethods w) (fun w l =>
          (w, Ok (match l with [] => "" | id :: _ => id end)))).

Definition CardOnFile (s : StripeClient) (stripeCustomerID : string) : calls (option CardSummary) :=
  fun w =>
    and_then (DefaultPaymentMethod s stripeCustomerID w) (fun w pm =>
      if String.eqb pm "" then (w, Ok None)
      else and_then (get s ("/v1/payment_methods/" +:+ PathEscape pm) [] parseCard w) (fun w c => (w, Ok (Some c)))).

Definition searchFor (invoiceID : string) : string :=
  "metadata['openfireblocks_invoice_id']:'" +:+ without_quotes invoiceID +:+ "' AND status:'succeeded'".

Definition SucceededIntentForInvoice (s : StripeClient) (invoiceID : string) : calls (option PaymentIntent) :=
  fun w => and_then (get s "/v1/payment_intents/search" [ ("query", searchFor invoiceID) ] parseIntents w) (fun w l => (w, Ok (head l))).

Definition CreateSetupSession (s : StripeClient) (stripeCustomerID successURL cancelURL key : string) : calls SetupSession :=
  fun w =>
    if String.eqb stripeCustomerID "" || String.eqb successURL "" || String.eqb cancelURL "" then (w, Err NoSession)
    else
      post s "/v1/checkout/sessions"
        [ ("mode", "setup"); ("customer", stripeCustomerID); ("payment_method_types[]", "card"); ("success_url", successURL); ("cancel_url", cancelURL) ]
        key parseSession w.

Inductive ChargeErr : Type :=
  | NoInvoice | AlreadyPaid (invoice : string) | NoProcessor (invoice : string) | PaidUnknown (invoice : string) (e : SErr) | MethodUnknown (e : SErr)
  | NoSavedCard (customer invoice : string) | NotCharged (e : SErr).

Definition intentKey (invoiceID pm : string) : string := "invoice:" +:+ invoiceID +:+ ":" +:+ pm.
Definition intentMetadata (invoice : Invoice) : list (string * string) :=
  [ ("openfireblocks_invoice_id", InvoiceID invoice); ("openfireblocks_customer_id", invCustomerID invoice);
    ("openfireblocks_subscription_id", invSubscriptionID invoice) ].

Definition failing {E F A} (f : E -> F) (c : W * result E A) : W * result F A := (fst c, map_err f (snd c)).

Definition ChargeInvoice (s : StripeClient) (w : W) (invoice : option Invoice) (stripeCustomerID : string) : W * result ChargeErr PaymentIntent :=
  match invoice with
  | None => (w, Err NoInvoice)
  | Some invoice =>
      if String.eqb (Status invoice) "paid" then (w, Err (AlreadyPaid (InvoiceID invoice)))
      else if negb (Configured s) then (w, Err (NoProcessor (InvoiceID invoice)))
      else
        and_then (failing (PaidUnknown (InvoiceID invoice)) (SucceededIntentForInvoice s (InvoiceID invoice) w)) (fun w done =>
          match done with
          | Some intent => (w, Ok intent)
          | None =>
              and_then (failing MethodUnknown (DefaultPaymentMethod s stripeCustomerID w)) (fun w pm =>
                if String.eqb pm "" then (w, Err (NoSavedCard stripeCustomerID (InvoiceID invoice)))
                else failing NotCharged (CreatePaymentIntent s (Amount invoice) (invCurrency invoice) stripeCustomerID pm
                       (intentKey (InvoiceID invoice) pm) (intentMetadata invoice) w))
          end)
  end.
End Client.

(** The sentinel errors an error of [ChargeInvoice] wraps. *)
Definition chargeClass (e : ChargeErr) : BErr :=
  match e with AlreadyPaid _ => InvalidInput | NoProcessor _ => Unavailable | NoSavedCard _ _ => NoPaymentMethod | _ => Internal end.

(** ** The collection pass *)

Record UnpaidInvoice := { uiInvoice : Invoice; StripeCustomerID : string }.

Record CollectedLine := { clInvoiceID : string; clCustomerID : string; clPaymentIntentID : string; clAmountCents : Z; clStatus : string }.
Inductive SkipReason : Type := CollectedManually | ProcessorMissing | NoCard.
Record SkippedLine := { skInvoiceID : string; skCustomerID : string; skAmountCents : Z; Reason : SkipReason }.
Inductive CollectError : Type := ChargeFailed (e : ChargeErr) | NotMarked (intent : string) (e : BErr).
Record CollectedFailed := { cfInvoiceID : string; cfCustomerID : string; cfError : CollectError }.
Record CollectionResult := { colRanAt : Z; Attempted : Z; Collected : list CollectedLine; Skipped : list SkippedLine; colFailed : list CollectedFailed }.

Class collectionStore (S : Type) := {
  listUnpaid : S -> Z -> S * result BErr (list UnpaidInvoice);
  recordCharge : S -> Charge -> S * result BErr unit;
  markPaid : S -> string -> string -> Z -> S * result BErr unit;
}.

Class invoiceCharger (S : Type) := { chargeInvoice : S -> Invoice -> string -> S * result ChargeErr PaymentIntent }.

Definition defaultCollectionLimit : Z := 200.

Definition skipText (r : SkipReason) : string :=
  match r with
  | CollectedManually => "no payment processor identity on file; this invoice is collected manually"
  | ProcessorMissing => "no payment processor is configured"
  | NoCard => "no saved card; the customer has to add one before this can be charged"
  end.

Section Pass.
Context {S : Type} {CS : collectionStore S} {IC : invoiceCharger S} (errText : ChargeErr -> string).

(** The row [RecordCharge] is asked for: no intent is NULL. *)
Definition recordChargeQuietly (s : S) (inv : Invoice) (intentID status detail : string) : S :=
  fst (recordCharge s {| chInvoice := InvoiceID inv; chCustomer := invCustomerID inv; chIntent := if String.eqb intentID "" then None else Some intentID;
    chAmount := Amount inv; chCurrency := invCurrency inv; chStatus := status; chDetail := detail |}).

Definition collected (r : CollectionResult) (l : CollectedLine) : CollectionResult :=
  {| colRanAt := colRanAt r; Attempted := Attempted r; Collected := Collected r ++ [ l ]; Skipped := Skipped r; colFailed := colFailed r |}.
Definition skipped (r : CollectionResult) (inv : Invoice) (reason : SkipReason) : CollectionResult :=
  {| colRanAt := colRanAt r; Attempted := Attempted r; Collected := Collected r;
     Skipped := Skipped r ++ [ {| skInvoiceID := InvoiceID inv; skCustomerID := invCustomerID inv; skAmountCents := Amount inv; Reason := reason |} ]; colFailed := colFailed r |}.
Definition failed (r : CollectionResult) (inv : Invoice) (e : CollectError) : CollectionResult :=
  {| colRanAt := colRanAt r; Attempted := Attempted r; Collected := Collected r; Skipped := Skipped r;
     colFailed := colFailed r ++ [ {| cfInvoiceID := InvoiceID inv; cfCustomerID := invCustomerID inv; cfError := e |} ] |}.

(** One turn of the loop. *)
Definition collectOne (now : Z) (s : S) (r : CollectionResult) (item : UnpaidInvoice) : S * result BErr CollectionResult :=
  let inv := uiInvoice item in
  if String.eqb (StripeCustomerID item) "" then (recordChargeQuietly s inv "" "skipped" (skipText CollectedManually), Ok (skipped r inv CollectedManually))
  else
    match chargeInvoice s inv (StripeCustomerID item) with
    | (s, Err e) =>
        match chargeClass e with
        | Unavailable => (s, Ok (skipped r inv ProcessorMissing))
        | NoPaymentMethod => (recordChargeQuietly s inv "" "skipped" (skipText NoCard), Ok (skipped r inv NoCard))
        | _ => (recordChargeQuietly s inv "" "failed" (errText e), Ok (failed r inv (ChargeFailed e)))
        end
    | (s, Ok intent) =>
        let status := intentStatus intent in
        let r := collected r {| clInvoiceID := InvoiceID inv; clCustomerID := invCustomerID inv; clPaymentIntentID := intentID intent;
          clAmountCents := Amount inv; clStatus := status |} in
        if String.eqb status "succeeded" then
          let s := recordChargeQuietly s inv (intentID intent) "succeeded" "" in
          match markPaid s (InvoiceID inv) (invCustomerID inv) now with
          | (s, Ok _) => (s, Ok r)
          | (s, Err e) => (s, Ok (failed r inv (NotMarked (intentID intent) e)))
          | (s, Panic) => (s, Panic)
          end
        else (recordChargeQuietly s inv (intentID intent) "requires_action" ("payment intent is " +:+ status), Ok r)
    | (s, Panic) => (s, Panic)
    end.

Fixpoint collectLoop (now : Z) (s : S) (r : CollectionResult) (outstanding : list UnpaidInvoice) : S * result BErr CollectionResult :=
  match outstanding with
  | [] => (s, Ok r)
  | item :: rest =>
      match collectOne now s r item with
      | (s, Ok r) => collectLoop now s r rest
      | (s, Err e) => (s, Err e)
      | (s, Panic) => (s, Panic)
      end
  end.

Definition collectPayments (now : Z) (s : S) (limit : Z) : S * result BErr CollectionResult :=
  let limit := if limit <=? 0 then defaultCollectionLimit else limit in
  match listUnpaid s limit with
  | (s, Ok outstanding) =>
      collectLoop now s {| colRanAt := now; Attempted := len outstanding; Collected := []; Skipped := []; colFailed := [] |} outstanding
  | (s, Err e) => (s, Err e)
  | (s, Panic) => (s, Panic)
  end.
End Pass.

(** ** The service's store and routes *)

(** The books, the processor, and how many calls the database has had. *)
Record Till (W : Type) := { books : db; world : W; tick : nat }.
Arguments books {W} _.
Arguments world {W} _.
Arguments tick {W} _.

Section Service.
Context (uuid : string -> option string) (fits : Z -> string -> bool).
(** [ORDER BY created_at], ascending and descending *)
Context (oldest_invoices newest_invoices : list Invoice -> list Invoice).
Context {W : Type} {SJ : StripeJson} (serve : W -> Request -> W * Exchange) (cl : StripeClient).
(** whether the n-th call to the database succeeds *)
Context (up : nat -> bool) (errText : ChargeErr -> string).

(** The columns read leave out the lines and the period. *)
Definition outstanding (inv : Invoice) : Invoice :=
  {| InvoiceID := InvoiceID inv; invSubscriptionID := invSubscriptionID inv; invCustomerID := invCustomerID inv; Amount := Amount inv;
     invCurrency := invCurrency inv; Status := Status inv; DueDate := DueDate inv; PaidAt := None; LineItems := []; PeriodStart := None; PeriodEnd := None;
     invCreatedAt := invCreatedAt inv |}.

Definition unpaidOf (d : db) (inv : Invoice) : UnpaidInvoice :=
  {| uiInvoice := outstanding inv; StripeCustomerID := default "" (mjoin (customers d !! invCustomerID inv)) |}.

Definition UnpaidInvoices (up : bool) (d : db) (limit : Z) : result BErr (list UnpaidInvoice) :=
  check! up && (0 <=? limit) else Internal;
  Ok (map (unpaidOf d) (take (Z.to_nat limit)
    (oldest_invoices (filter (fun inv => Status inv <> "paid" /\ is_Some (customers d !! invCustomerID inv)) (invoices d))))).

Definition RecordCharge (up : bool) (d : db) (c : Charge) : result BErr db :=
  check! up else Internal;
  let! i := cast uuid (chInvoice c) in
  let! k := cast uuid (chCustomer c) in
  check! is_int (chAmount c) && fits 10 (chCurrency c) && fits 255 (default "" (chIntent c)) &&
    bool_decide (chStatus c ∈ [ "succeeded"; "requires_action"; "failed"; "skipped" ]) else Internal;
  check! existsb (fun inv => String.eqb (InvoiceID inv) i) (invoices d) && bool_decide (is_Some (customers d !! k)) else Internal;
  Ok (with_charges d (invoice_charges d ++ [ {| chInvoice := i; chCustomer := k; chIntent := chIntent c; chAmount := chAmount c; chCurrency := chCurrency c;
    chStatus := chStatus c; chDetail := chDetail c |} ])).

(** Unique where present (migration 022). *)
Definition SetStripeCustomerID (up : bool) (d : db) (customerID stripeCustomerID : string) : result BErr db :=
  check! up && fits 255 stripeCustomerID else Internal;
  let! c := cast uuid customerID in
  let identity := if String.eqb stripeCustomerID "" then None else Some stripeCustomerID in
  match customers d !! c with
  | None => Err NotFound
  | Some _ =>
      if bool_decide (identity <> None) && existsb (fun kv => bool_decide (snd kv = identity) && negb (String.eqb (fst kv) c)) (map_to_list (customers d))
      then Err UniqueViolation else Ok (with_customers d (<[ c := identity ]> (customers d)))
  end.

Definition readStripeCustomerID (up : bool) (d : db) (customerID : string) : result BErr string :=
  check! up else Internal;
  let! c := cast uuid customerID in
  match customers d !! c with Some identity => Ok (default "" identity) | None => Err NotFound end.

(** One call to the database. *)
Definition query {A} (t : Till W) (f : bool -> db -> result BErr A) : Till W * result BErr A :=
  ({| books := books t; world := world t; tick := S (tick t) |}, f (up (tick t)) (books t)).
Definition write (t : Till W) (f : bool -> db -> result BErr db) : Till W * result BErr unit :=
  match f (up (tick t)) (books t) with
  | Ok d => ({| books := d; world := world t; tick := S (tick t) |}, Ok tt)
  | Err e => ({| books := books t; world := world t; tick := S (tick t) |}, Err e)
  | Panic => ({| books := books t; world := world t; tick := S (tick t) |}, Panic)
  end.
(** Calls to the processor. *)
Definition outside {E A} (t : Till W) (f : W -> W * result E A) : Till W * result E A :=
  let (w, r) := f (world t) in ({| books := books t; world := w; tick := tick t |}, r).

#[export] Instance postgresStore : collectionStore (Till W) := {
  listUnpaid t limit := query t (fun up d => UnpaidInvoices up d limit);
  recordCharge t c := write t (fun up d => RecordCharge up d c);
  markPaid t i c now := write t (fun up d => MarkInvoicePaid uuid up d i c now);
}.
#[export] Instance stripeCharger : invoiceCharger (Till W) := {
  chargeInvoice t inv customer := outside t (fun w => ChargeInvoice serve cl w (Some inv) customer);
}.

Definition CollectPayments (now : Z) (t : Till W) (limit : Z) : Till W * result BErr CollectionResult := collectPayments errText now t limit.

Inductive Reply : Type :=
  | NoReply | CollectionReply (r : CollectionResult) | Identity (customerID stripeCustomerID : string) | Session (s : SetupSession)
  | CardReply (configured : bool) (card : option CardSummary) | ChargeReply (invoice : Invoice) (intent : PaymentIntent).

Definition HandleCollectPayments (now : Z) (t : Till W) (method limitParam : string) : Till W * (Z * Reply) :=
  if negb (String.eqb method "POST") then (t, (405, NoReply))
  else
    let limit :=
      if String.eqb limitParam "" then defaultCollectionLimit
      else match parse_int limitParam with Some n => if 0 <? n then n else defaultCollectionLimit | None => defaultCollectionLimit end in
    match CollectPayments now t limit with
    | (t, Ok r) => (t, (if 0 <? len (colFailed r) then 207 else 200, CollectionReply r))
    | (t, Err e) => (t, (writeError e, NoReply))
    | (t, Panic) => (t, (500, NoReply))
    end.

Definition HandleSetStripeCustomer (t : Till W) (method : string) (body : option (string * string)) : Till W * (Z * Reply) :=
  if negb (String.eqb method "POST") then (t, (405, NoReply))
  else
    match body with
    | None => (t, (400, NoReply))
    | Some (customerID, stripeCustomerID) =>
        if String.eqb customerID "" then (t, (400, NoReply))
        else
          match write t (fun up d => SetStripeCustomerID up d customerID stripeCustomerID) with
          | (t, Ok _) => (t, (200, Identity customerID stripeCustomerID))
          | (t, Err e) => (t, (writeError e, NoReply))
          | (t, Panic) => (t, (500, NoReply))
          end
    end.

(** [strings.Split(s, ",")] *)
Fixpoint split_commas (s : string) : list string :=
  match s with
  | EmptyString => [ EmptyString ]
  | String c t => if Ascii.eqb c "," then EmptyString :: split_commas t else match split_commas t with [] => [] | h :: l => String c h :: l end
  end.

(** [url.Parse]: the scheme, the host and whether there is a user. *)
Context (urlParse : string -> option (string * string * bool)) (equalFold : string -> string -> bool).

Definition returnURLAllowed (rawURL allowedHosts : string) : bool :=
  match urlParse rawURL with
  | Some (scheme, host, user) =>
      if negb (String.eqb scheme "https") || String.eqb host "" || user then false
      else existsb (fun h => let h := trim_space h in negb (String.eqb h "") && equalFold host h) (split_commas allowedHosts)
  | None => false
  end.

(** An error of the client, to a route. *)
Definition toRoute (_ : SErr) : BErr := Internal.

Definition ensureStripeCustomer (t : Till W) (customerID email name : string) : Till W * result BErr string :=
  and_then (query t (fun up d => readStripeCustomerID up d customerID)) (fun t id =>
    if negb (String.eqb id "") then (t, Ok id)
    else if String.eqb (trim_space email) "" then (t, Err InvalidInput)
    else
      and_then (outside t (fun w => failing toRoute (CreateCustomer serve cl customerID email name w))) (fun t created =>
        and_then (write t (fun up d => SetStripeCustomerID up d customerID (custID created))) (fun t _ => (t, Ok (custID created))))).

Record CardSessionRequest := { csCustomerID : string; SuccessURL : string; CancelURL : string; Email : string; csName : string }.

(** [minute] is the time, to the minute. *)
Definition HandleCreateCardSession (returnHosts minute : string) (t : Till W) (method : string) (body : option CardSessionRequest) : Till W * (Z * Reply) :=
  if negb (String.eqb method "POST") then (t, (405, NoReply))
  else
    match body with
    | None => (t, (400, NoReply))
    | Some req =>
        if negb (is_ok (requireUUID (csCustomerID req))) then (t, (writeError InvalidInput, NoReply))
        else if negb (returnURLAllowed (SuccessURL req) returnHosts) || negb (returnURLAllowed (CancelURL req) returnHosts) then (t, (400, NoReply))
        else if negb (Configured cl) then (t, (writeError Unavailable, NoReply))
        else
          match and_then (ensureStripeCustomer t (csCustomerID req) (Email req) (csName req)) (fun t stripeID =>
                  outside t (fun w => failing toRoute (CreateSetupSession serve cl stripeID (SuccessURL req) (CancelURL req)
                    ("card-session:" +:+ csCustomerID req +:+ ":" +:+ minute) w))) with
          | (t, Ok session) => (t, (200, Session session))
          | (t, Err e) => (t, (writeError e, NoReply))
          | (t, Panic) => (t, (500, NoReply))
          end
    end.

Definition HandleCardStatus (t : Till W) (method customerID : string) : Till W * (Z * Reply) :=
  if negb (String.eqb method "GET") then (t, (405, NoReply))
  else if negb (is_ok (requireUUID customerID)) then (t, (writeError InvalidInput, NoReply))
  else if negb (Configured cl) then (t, (200, CardReply false None))
  else
    match query t (fun up d => readStripeCustomerID up d customerID) with
    | (t, Ok stripeID) =>
        if String.eqb stripeID "" then (t, (200, CardReply true None))
        else
          match outside t (CardOnFile serve cl stripeID) with
          | (t, Ok card) => (t, (200, CardReply true card))
          | (t, Err e) => (t, (writeError (toRoute e), NoReply))
          | (t, Panic) => (t, (500, NoReply))
          end
    | (t, Err e) => (t, (writeError e, NoReply))
    | (t, Panic) => (t, (500, NoReply))
    end.

Record ChargeRequest := { crInvoiceID : string; crCustomerID : string; crStripeCustomerID : string }.

(** What the answer shows once the invoice is marked. *)
Definition shownPaid (now : Z) (inv : Invoice) : Invoice :=
  {| InvoiceID := InvoiceID inv; invSubscriptionID := invSubscriptionID inv; invCustomerID := invCustomerID inv; Amount := Amount inv;
     invCurrency := invCurrency inv; Status := "paid"; DueDate := DueDate inv; PaidAt := Some now; LineItems := LineItems inv;
     PeriodStart := PeriodStart inv; PeriodEnd := PeriodEnd inv; invCreatedAt := invCreatedAt inv |}.

Definition chargeFound (now : Z) (t : Till W) (invoice : Invoice) (stripeCustomerID : string) : Till W * (Z * Reply) :=
  match outside t (fun w => ChargeInvoice serve cl w (Some invoice) stripeCustomerID) with
  | (t, Ok intent) =>
      if String.eqb (intentStatus intent) "succeeded" then
        match write t (fun up d => MarkInvoicePaid uuid up d (InvoiceID invoice) (invCustomerID invoice) now) with
        | (t, Ok _) => (t, (200, ChargeReply (shownPaid now invoice) intent))
        | (t, _) => (t, (200, ChargeReply invoice intent))
        end
      else (t, (200, ChargeReply invoice intent))
  | (t, Err e) => (t, (writeError (chargeClass e), NoReply))
  | (t, Panic) => (t, (500, NoReply))
  end.

Definition HandleChargeInvoice (now : Z) (t : Till W) (method : string) (body : option ChargeRequest) : Till W * (Z * Reply) :=
  if negb (String.eqb method "POST") then (t, (405, NoReply))
  else
    match body with
    | None => (t, (writeError InvalidInput, NoReply))
    | Some req =>
        if negb (is_ok (requireUUID (crInvoiceID req))) then (t, (writeError InvalidInput, NoReply))
        else if negb (is_ok (requireUUID (crCustomerID req))) then (t, (writeError InvalidInput, NoReply))
        else
          match query t (fun up d => GetInvoices uuid newest_invoices up d (crCustomerID req)) with
          | (t, Ok l) =>
              match List.find (fun inv => String.eqb (InvoiceID inv) (crInvoiceID req)) l with
              | None => (t, (writeError NotFound, NoReply))
              | Some invoice => chargeFound now t invoice (crStripeCustomerID req)
              end
          | (t, Err e) => (t, (writeError e, NoReply))
          | (t, Panic) => (t, (500, NoReply))
          end
    end.
End Service.

(** ** The bearer token *)

(** [None]: passed to the handler; [Some status]: answered here. *)
Definition requireToken (sha256 : string -> string) (token : string) (allowUnauthenticated : bool) (path authorization : string) : option Z :=
  if String.eqb path "/health" then None
  else if String.eqb token "" then if allowUnauthenticated then None else Some 503
  else
    let presented := if has_prefix "Bearer " authorization then trim_prefix "Bearer " authorization else "" in
    if String.eqb (sha256 presented) (sha256 token) then None else Some 401.

(** ** What a pass reports *)

(** The collaborators return, one way or the other. *)
Class Returning (S : Type) {CS : collectionStore S} {IC : invoiceCharger S} : Prop := {
  charge_returns s inv customer : snd (chargeInvoice s inv customer) <> Panic;
  mark_returns s i c now : snd (markPaid s i c now) <> Panic;
}.

Definition chargeFailure (f : CollectedFailed) : option string := match cfError f with ChargeFailed _ => Some (cfInvoiceID f) | NotMarked _ _ => None end.

(** The invoices reported, in one list or another. *)
Definition reported (r : CollectionResult) : list string :=
  map clInvoiceID (Collected r) ++ map skInvoiceID (Skipped r) ++ omap chargeFailure (colFailed r).

(** A payment that could not be marked is one that succeeded. *)
Definition unmarked_ok (r : CollectionResult) : Prop :=
  forall f intent e, f ∈ colFailed r -> cfError f = NotMarked intent e ->
    exists l, l ∈ Collected r /\ clInvoiceID l = cfInvoiceID f /\ clPaymentIntentID l = intent /\ clStatus l = "succeeded".

Section Reports.
Context {S : Type} {CS : collectionStore S} {IC : invoiceCharger S} {RT : Returning S} (errText : ChargeErr -> string).

Lemma reported_collected r l : reported (collected r l) ≡ₚ clInvoiceID l :: reported r.
Proof. unfold reported, collected; cbn; rewrite map_app; cbn; rewrite <- app_assoc; symmetry; apply Permutation_middle. Qed.
Lemma reported_skipped r inv reason : reported (skipped r inv reason) ≡ₚ InvoiceID inv :: reported r.
Proof. unfold reported, skipped; cbn; rewrite map_app, <- app_assoc; cbn; rewrite <- !Permutation_middle; done. Qed.
Lemma reported_failed r inv e : reported (failed r inv (ChargeFailed e)) ≡ₚ InvoiceID inv :: reported r.
Proof. unfold reported, failed; cbn; rewrite omap_app; cbn; rewrite !app_assoc, <- Permutation_cons_append; done. Qed.
Lemma reported_unmarked r inv intent e : reported (failed r inv (NotMarked intent e)) = reported r.
Proof. unfold reported, failed; cbn; rewrite omap_app; cbn; rewrite app_nil_r; done. Qed.

Lemma unmarked_more r r' : unmarked_ok r -> colFailed r' = colFailed r -> (forall l, l ∈ Collected r -> l ∈ Collected r') -> unmarked_ok r'.
Proof. intros U F C f intent e I E; rewrite F in I; destruct (U _ _ _ I E) as (l & L & H); eauto. Qed.

Lemma unmarked_failed r inv e : unmarked_ok r ->
  (forall intent b, e = NotMarked intent b -> exists l, l ∈ Collected r /\ clInvoiceID l = InvoiceID inv /\ clPaymentIntentID l = intent /\ clStatus l = "succeeded") ->
  unmarked_ok (failed r inv e).
Proof. intros U H f intent b I E; apply elem_of_app in I as [ I | ->%list_elem_of_singleton ]; [ exact (U _ _ _ I E) | exact (H _ _ E) ]. Qed.

Lemma collectOne_reports now s r item : unmarked_ok r ->
  exists s' r', collectOne errText now s r item = (s', Ok r') /\ reported r' ≡ₚ InvoiceID (uiInvoice item) :: reported r /\ unmarked_ok r' /\ Attempted r' = Attempted r.
Proof.
  intros U; unfold collectOne; destruct (String.eqb _ _).
  { do 2 eexists; split_and!; [ reflexivity | apply reported_skipped | eapply unmarked_more; eauto | done ]. }
  pose proof (charge_returns s (uiInvoice item) (StripeCustomerID item)) as NP; destruct (chargeInvoice _ _ _) as [ s1 [ intent | e | ] ]; [ | | done ].
  2: { destruct (chargeClass e); do 2 eexists; (split; [ reflexivity | split; [ apply reported_skipped || apply reported_failed | split; [ | reflexivity ] ] ]);
         (eapply unmarked_more; [ exact U | reflexivity | done ]) || (apply unmarked_failed; [ done | intros ? ? [=] ]). }
  assert (forall l, unmarked_ok (collected r l)) as UC by (intros l; eapply unmarked_more; [ exact U | done | intros x X; apply elem_of_app; left; done ]).
  destruct (String.eqb (intentStatus intent) _) eqn:ST; [ | do 2 eexists; split_and!; [ reflexivity | apply reported_collected | apply UC | done ] ].
  set (s2 := recordChargeQuietly _ _ _ _ _); pose proof (mark_returns s2 (InvoiceID (uiInvoice item)) (invCustomerID (uiInvoice item)) now) as NM.
  destruct (markPaid _ _ _ _) as [ s3 [ [] | e | ] ]; [ | | done ]; do 2 eexists; (split; [ reflexivity | ]).
  - split_and!; [ apply reported_collected | apply UC | done ].
  - rewrite reported_unmarked; split_and!; [ apply reported_collected | | done ]; apply unmarked_failed; [ apply UC | ]; intros i b [= <- _].
    eexists; split; [ apply elem_of_app; right; apply list_elem_of_singleton; reflexivity | ]; apply String.eqb_eq in ST; done.
Qed.

Lemma collectLoop_reports now out : forall s r, unmarked_ok r ->
  exists s' r', collectLoop errText now s r out = (s', Ok r') /\ reported r' ≡ₚ map (fun item => InvoiceID (uiInvoice item)) out ++ reported r /\ unmarked_ok r' /\
    Attempted r' = Attempted r.
Proof.
  induction out as [ | item out IH ]; intros s r U; cbn; [ do 2 eexists; split_and!; done | ].
  destruct (collectOne_reports now s r item U) as (s1 & r1 & -> & P1 & U1 & A1); destruct (IH s1 r1 U1) as (s2 & r2 & -> & P2 & U2 & A2).
  do 2 eexists; split_and!; [ done | rewrite P2, P1; symmetry; apply Permutation_middle | done | congruence ].
Qed.

(** A pass that can list what is outstanding gets to the end of the list
    whatever fails on the way, and each invoice of the list is reported once:
    collected, skipped or failed.  A payment reported as not marked has been
    taken. *)
Theorem pass_reports_every_invoice now s limit s0 out :
  listUnpaid s (if limit <=? 0 then defaultCollectionLimit else limit) = (s0, Ok out) ->
  exists s' r, collectPayments errText now s limit = (s', Ok r) /\ Attempted r = len out /\
    reported r ≡ₚ map (fun item => InvoiceID (uiInvoice item)) out /\ unmarked_ok r.
Proof.
  intros L; unfold collectPayments; rewrite L.
  destruct (collectLoop_reports now out s0 {| colRanAt := now; Attempted := len out; Collected := []; Skipped := []; colFailed := [] |}) as (s' & r & -> & P & U & A).
  { intros f intent e []%elem_of_nil. }
  rewrite app_nil_r in P; eauto 10.
Qed.
End Reports.

(** The service's own store and processor return. *)
Section ServiceReturns.
Context (uuid : string -> option string) (fits : Z -> string -> bool) (oldest_invoices : list Invoice -> list Invoice).
Context {W : Type} {SJ : StripeJson} (serve : W -> Request -> W * Exchange) (cl : StripeClient) (up : nat -> bool).

Lemma and_then_returns {V E A B} (c : V * result E A) (f : V -> A -> V * result E B) :
  snd c <> Panic -> (forall v a, snd (f v a) <> Panic) -> snd (and_then c f) <> Panic.
Proof. destruct c as [ v [ a | e | ] ]; cbn; auto. Qed.

Lemma failing_returns {V E F A} (f : E -> F) (c : V * result E A) : snd c <> Panic -> snd (failing f c) <> Panic.
Proof. destruct c as [ v [ a | e | ] ]; cbn; auto. Qed.

Lemma get_returns {A} path q (decode : string -> option A) w : snd (get serve cl path q decode w) <> Panic.
Proof.
  unfold get, do; destruct (Configured cl); cbn [negb]; [ | done ]; destruct (serve _ _) as [ w' [ | | | status raw ] ]; cbn; try done.
  destruct (_ || _); [ destruct (parseError _) as [ se | ]; [ destruct (negb _) | ]; done | destruct (decode _); done ].
Qed.

Lemma post_returns {A} path q k (decode : string -> option A) w : snd (post serve cl path q k decode w) <> Panic.
Proof.
  unfold post, do; destruct (Configured cl); cbn [negb]; [ | done ]; destruct (String.eqb k ""); [ done | ]; destruct (serve _ _) as [ w' [ | | | status raw ] ]; cbn; try done.
  destruct (_ || _); [ destruct (parseError _) as [ se | ]; [ destruct (negb _) | ]; done | destruct (decode _); done ].
Qed.

Lemma chargeInvoice_returns w inv customer : snd (ChargeInvoice serve cl w (Some inv) customer) <> Panic.
Proof.
  unfold ChargeInvoice; destruct (String.eqb _ _); [ done | ]; destruct (negb _); [ done | ].
  apply and_then_returns; [ apply failing_returns; unfold SucceededIntentForInvoice; apply and_then_returns; [ apply get_returns | done ] | ]; intros w1 [ i | ]; [ done | ].
  apply and_then_returns.
  - apply failing_returns; unfold DefaultPaymentMethod; apply and_then_returns; [ apply get_returns | ]; intros w2 pm; destruct (negb _); [ done | ].
    apply and_then_returns; [ apply get_returns | done ].
  - intros w2 pm; destruct (String.eqb pm ""); [ done | ]; apply failing_returns; unfold CreatePaymentIntent; repeat (case_match; [ done | ]); apply post_returns.
Qed.

#[export] Instance service_returns :
  @Returning (Till W) (postgresStore uuid fits oldest_invoices up) (stripeCharger serve cl).
Proof.
  split.
  - intros t inv customer; unfold chargeInvoice, stripeCharger, outside; destruct (ChargeInvoice serve cl (world t) (Some inv) customer) as [ w r ] eqn:E; pose proof (chargeInvoice_returns (world t) inv customer) as NP; rewrite E in NP; exact NP.
  - intros t i c now; unfold markPaid, postgresStore, write, MarkInvoicePaid, cast; destruct (up _), (uuid i), (uuid c); cbn; done.
Qed.
End ServiceReturns.
End BillingCollect.
