(* ===== verification/BillingLedger.v ===== *)
(** * Billing: invoices and the money taken for them

    What is relied on of the payment processor ([Processor]), and the invariant
    that ties it to the books of Billing.v: whatever fails, however often
    collection runs or an operator charges by hand, an invoice is paid for at
    most once with a card, all that is ever paid for it falls within the delay
    of search, and one that is marked paid has been paid.
    [Simple.replaced_card_pays_again] is a run in which a card replaced within
    that delay pays a second time. *)

From Stdlib Require Import ZArith Lia Ascii String Permutation.
From stdpp Require Import base list numbers strings gmap relations.
From S2P Require Import Prelude GoStrings GoText Policy Calendar Billing BillingPeriods BillingCollect.

Open Scope Z_scope.

Module BillingLedger.
Import Calendar Billing BillingCollect.
#[local] Open Scope string_scope.
#[local] Open Scope list_scope.
#[local] Open Scope Z_scope.

(** Postgres writes a uuid in hex and dashes, the same each time. *)
Class PlainIds (uuid : string -> option string) : Prop := {
  plain_idem x y : uuid x = Some y -> uuid y = Some y;
  plain_quotes x y : uuid x = Some y -> without_quotes y = y;
}.

(** A request that charges a card, for an invoice. *)
Definition charges (cl : StripeClient) (r : Request) : Prop := verb r = "POST" /\ url r = baseURL cl +:+ "/v1/payment_intents".
Definition charges_for (cl : StripeClient) (i : string) (r : Request) : Prop := charges cl r /\ ("metadata[openfireblocks_invoice_id]", i) ∈ params r.

(** The client gives up on a call after half a minute; the processor keeps an
    idempotency key for a day.  Times are in nanoseconds. *)
Definition callTimeout : Z := 30 * 1000000000.
Definition keyLife : Z := 24 * 3600 * 1000000000.

(** The processor, as it is documented.  [taken w i]: the idempotency keys of the
    payments made for invoice [i], each with its time; [clock w]: the time in the
    state [w].  A call ends within its timeout, and takes effect before it ends
    if it does at all; a key that was used within its life does not pay again;
    search shows a payment once [delay] has passed since it was made. *)
Class Processor {W : Type} {SJ : StripeJson} (serve : W -> Request -> W * Exchange) (cl : StripeClient) := {
  taken : W -> string -> list (string * Z);
  clock : W -> Z;
  delay : Z;
  delay_short : 0 <= delay /\ delay + 4 * callTimeout <= keyLife;
  passes w r w' x : serve w r = (w', x) -> clock w <= clock w' <= clock w + callTimeout;
  quiet w r w' x i : serve w r = (w', x) -> ~ charges cl r -> taken w' i = taken w i;
  others w r w' x i j : serve w r = (w', x) -> charges_for cl i r -> j <> i -> taken w' j = taken w j;
  idempotent w r w' x i : serve w r = (w', x) -> charges_for cl i r ->
    taken w' i = taken w i \/
    exists t, taken w' i = (idempotencyKey r, t) :: taken w i /\ clock w <= t <= clock w' /\ forall t', (idempotencyKey r, t') ∈ taken w i -> t' + keyLife <= t;
  succeeded w r w' status raw i intent : serve w r = (w', Answered status raw) -> charges_for cl i r -> 200 <= status < 300 ->
    parseIntent (limit_reader 1048576 raw) = Some intent -> intentStatus intent = "succeeded" -> taken w' i <> [];
  searched w i w' intent : SucceededIntentForInvoice serve cl i w = (w', Ok (Some intent)) -> without_quotes i = i -> taken w' i <> [];
  indexed w i w' k t : (k, t) ∈ taken w i -> SucceededIntentForInvoice serve cl i w = (w', Ok None) -> without_quotes i = i -> clock w < t + delay;
}.

Section Ledger.
Context (uuid : string -> option string) (fits : Z -> string -> bool).
Context (oldest_invoices newest_invoices : list Invoice -> list Invoice) (by_end : list Subscription -> list Subscription).
Context {W : Type} {SJ : StripeJson} (serve : W -> Request -> W * Exchange) (cl : StripeClient) {PR : Processor serve cl} {PI : PlainIds uuid}.
Context (errText : ChargeErr -> string) (urlParse : string -> option (string * string * bool)) (equalFold : string -> string -> bool).
(** queries give rows of the table *)
Context (oldest_of : forall l inv, inv ∈ oldest_invoices l -> inv ∈ l) (newest_of : forall l inv, inv ∈ newest_invoices l -> inv ∈ l).

(** ** One charge *)

(** Payments for one invoice are this close together: one that search does not
    show, and the four calls from the search to the end of the charge. *)
Definition window : Z := delay + 4 * callTimeout.

(** What an invoice was paid with: no card twice, nothing outside the window. *)
Definition orderly (w : W) : Prop := forall i,
  NoDup (map fst (taken w i)) /\ (forall k t, (k, t) ∈ taken w i -> t <= clock w /\ exists pm, k = intentKey i pm) /\
  forall k t k' t', (k, t) ∈ taken w i -> (k', t') ∈ taken w i -> t' - t < window.

(** Money may have been taken, and is never given back. *)
Definition grows (w w' : W) : Prop := (orderly w -> orderly w') /\ forall i, taken w i <> [] -> taken w' i <> [].

#[export] Instance grows_preorder : PreOrder grows.
Proof. split; [ split; auto | intros a b c [ A B ] [ C D ]; split; auto ]. Qed.

(** The cards an invoice was paid with. *)
Lemma orderly_cards w : orderly w -> forall i, exists cards, taken w i = map (fun ct => (intentKey i (fst ct), snd ct)) cards /\ NoDup (map fst cards) /\
  forall c1 c2, c1 ∈ cards -> c2 ∈ cards -> snd c2 - snd c1 < window.
Proof.
  intros O i; destruct (O i) as (N & B & D); revert N B D; generalize (taken w i) as l; induction l as [ | [ k t ] l IH ]; intros N B D.
  { exists []; split_and!; [ done | constructor | intros c1 c2 []%elem_of_nil ]. }
  apply NoDup_cons in N as [ N1 N ]; destruct (B k t ltac:(left)) as [ _ [ pm -> ] ].
  destruct IH as (cards & -> & NC & DC); [ done | intros; apply B; right; done | intros k t1 k' t2 M M'; apply (D k _ k' _); right; done | ].
  exists ((pm, t) :: cards); split_and!; [ done | | ].
  - cbn; constructor; [ | done ]; intros M; apply N1; cbn; apply list_elem_of_fmap in M as ([ pm' t' ] & -> & M).
    apply list_elem_of_fmap; exists (intentKey i pm', t'); split; [ done | ]; apply list_elem_of_fmap; exists (pm', t'); done.
  - intros c1 c2 M1 M2; apply (D (intentKey i (fst c1)) _ (intentKey i (fst c2))).
    + apply elem_of_cons in M1 as [ -> | M1 ]; [ left | right; apply list_elem_of_fmap; eauto ].
    + apply elem_of_cons in M2 as [ -> | M2 ]; [ left | right; apply list_elem_of_fmap; eauto ].
Qed.

(** No money is taken, in at most [n] calls. *)
Definition calm (n : Z) (w w' : W) : Prop := (forall i, taken w' i = taken w i) /\ clock w <= clock w' <= clock w + n * callTimeout.

Lemma later_grows w w' : (forall i, taken w' i = taken w i) -> clock w <= clock w' -> grows w w'.
Proof.
  intros E C; split; [ intros O i; rewrite E; destruct (O i) as (A & B & D); split_and!; try done | intros i; rewrite E; auto ].
  intros k t M; destruct (B k t M); split; [ lia | done ].
Qed.

Lemma calm_grows n w w' : calm n w w' -> grows w w'.
Proof. intros [ E C ]; apply later_grows; [ done | lia ]. Qed.

Lemma calm_trans n m w w' w'' : calm n w w' -> calm m w' w'' -> calm (n + m) w w''.
Proof. intros [ A B ] [ C D ]; split; [ intros i; rewrite C; auto | lia ]. Qed.

Lemma calm_more n m w w' : n <= m -> calm n w w' -> calm m w w'.
Proof. intros L [ A B ]; split; [ done | unfold callTimeout in *; lia ]. Qed.

Lemma calm_none n w : 0 <= n -> calm n w w.
Proof. split; [ done | unfold callTimeout; lia ]. Qed.
#[local] Hint Resolve calm_none : core.

Lemma serve_calm w r w' x : serve w r = (w', x) -> ~ charges cl r -> calm 1 w w'.
Proof. intros S N; split; [ intros i; exact (quiet _ _ _ _ i S N) | pose proof (passes _ _ _ _ S); lia ]. Qed.

Lemma do_world {A} (decode : string -> option A) r w w' res : do serve decode r w = (w', res) -> exists x, serve w r = (w', x).
Proof. unfold do; destruct (serve w r) as [ w1 [ | | | ] ]; intros [= <- _]; eauto. Qed.

Lemma get_calm {A} path q (decode : string -> option A) w w' res : get serve cl path q decode w = (w', res) -> calm 1 w w'.
Proof.
  unfold get; destruct (negb _); [ intros [= <- _]; auto with lia | ]; intros H; apply do_world in H as [ x H ].
  apply (serve_calm _ _ _ _ H); intros [ V _ ]; done.
Qed.

Lemma search_calm i w w' res : SucceededIntentForInvoice serve cl i w = (w', res) -> calm 1 w w'.
Proof.
  unfold SucceededIntentForInvoice; destruct (get _ _ _ _ _ _) as [ w1 [ l | e | ] ] eqn:G; cbn; intros [= <- _]; exact (get_calm _ _ _ _ _ _ G).
Qed.

Lemma method_calm c w w' res : DefaultPaymentMethod serve cl c w = (w', res) -> calm 2 w w'.
Proof.
  unfold DefaultPaymentMethod; destruct (get _ _ _ _ _ w) as [ w1 res1 ] eqn:G; apply get_calm in G; pose proof (calm_more 1 2 _ _ ltac:(lia) G).
  destruct res1 as [ pm | e | ]; cbn; try (intros [= <- _]; done); destruct (negb _); [ intros [= <- _]; done | ].
  destruct (get _ _ _ _ _ w1) as [ w2 [ l | e | ] ] eqn:G2; cbn; intros [= <- _]; apply get_calm in G2; exact (calm_trans 1 1 _ _ _ G G2).
Qed.

Lemma card_calm c w w' res : CardOnFile serve cl c w = (w', res) -> calm 3 w w'.
Proof.
  unfold CardOnFile; destruct (DefaultPaymentMethod _ _ _ _) as [ w1 res1 ] eqn:D; apply method_calm in D; pose proof (calm_more 2 3 _ _ ltac:(lia) D).
  destruct res1 as [ pm | e | ]; cbn; try (intros [= <- _]; done); destruct (String.eqb _ _); [ intros [= <- _]; done | ].
  destruct (get _ _ _ _ _ w1) as [ w2 [ l | e | ] ] eqn:G2; cbn; intros [= <- _]; apply get_calm in G2; exact (calm_trans 2 1 _ _ _ D G2).
Qed.

Lemma post_calm {A} path form key (decode : string -> option A) w w' res :
  path <> "/v1/payment_intents" -> post serve cl path form key decode w = (w', res) -> calm 1 w w'.
Proof.
  intros N; unfold post; destruct (negb _); [ intros [= <- _]; auto with lia | ]; destruct (String.eqb key ""); [ intros [= <- _]; auto with lia | ].
  intros H; apply do_world in H as [ x H ]; apply (serve_calm _ _ _ _ H); intros [ _ U ]; cbn in U; apply (inj _) in U; done.
Qed.

(** A charge that search let through: its key is new, its time in the window. *)
Lemma charged_grows i pm w w' r x : (forall k t, (k, t) ∈ taken w i -> clock w < t + delay + 3 * callTimeout) ->
  serve w r = (w', x) -> charges_for cl i r -> idempotencyKey r = intentKey i pm -> grows w w'.
Proof.
  intros K S CF ID; pose proof (passes _ _ _ _ S) as P; pose proof (fun j => others _ _ _ _ i j S CF) as OT.
  destruct (idempotent _ _ _ _ _ S CF) as [ E | (t & E & T & L) ].
  { apply later_grows; [ | lia ]; intros j; destruct (decide (j = i)) as [ -> | NE ]; [ done | exact (OT _ NE) ]. }
  destruct delay_short as [ DP DL ]; unfold callTimeout in *.
  split; [ | intros j; destruct (decide (j = i)) as [ -> | NE ]; [ rewrite E; done | rewrite (OT _ NE); auto ] ].
  intros O j; destruct (decide (j = i)) as [ -> | NE ].
  2: { rewrite (OT _ NE); destruct (O j) as (A & B & D); split_and!; try done; intros k t1 M; destruct (B k t1 M); split; [ lia | done ]. }
  destruct (O i) as (A & B & D); rewrite ID in E, L; rewrite E; split_and!.
  - cbn [map fst]; constructor; [ | done ]; intros ([ k t1 ] & EK & M)%list_elem_of_fmap; cbn [fst] in EK; subst k; specialize (K _ _ M); specialize (L _ M); unfold keyLife in *; lia.
  - intros k t1 [ [= -> ->] | M ]%elem_of_cons; [ split; [ lia | eauto ] | destruct (B k t1 M); split; [ lia | done ] ].
  - unfold window, callTimeout; intros k t1 k' t2 [ [= -> ->] | M ]%elem_of_cons [ [= -> ->] | M' ]%elem_of_cons; [ lia | destruct (B _ _ M'); lia | specialize (K _ _ M); lia | ].
    exact (D _ _ _ _ M M').
Qed.

(** The one request that takes money. *)
Lemma intent_grows invoice c pm w w' res : (forall k t, (k, t) ∈ taken w (InvoiceID invoice) -> clock w < t + delay + 3 * callTimeout) ->
  CreatePaymentIntent serve cl (Amount invoice) (invCurrency invoice) c pm (intentKey (InvoiceID invoice) pm) (intentMetadata invoice) w = (w', res) ->
  grows w w' /\ forall intent, res = Ok intent -> intentStatus intent = "succeeded" -> taken w' (InvoiceID invoice) <> [].
Proof.
  intros K; unfold CreatePaymentIntent, post; repeat (case_match; [ intros [= <- <-]; split; [ reflexivity | done ] | ]).
  set (i := InvoiceID invoice) in *; set (r := request _ _ _ _ _); intros HD.
  assert (charges_for cl i r) as CF by (split; [ split; done | unfold r, request, intentForm; cbn [params]; apply elem_of_app; right; left ]).
  pose proof (do_world _ _ _ _ _ HD) as [ x S ]; split; [ exact (charged_grows i pm w w' r x K S CF eq_refl) | ].
  intros intent -> ST; unfold do in HD; rewrite S in HD; destruct x as [ | | | status raw ]; try done; cbv zeta in HD.
  destruct ((status <? 200) || (300 <=? status)) eqn:RG; [ destruct (parseError _) as [ se | ]; [ destruct (negb (String.eqb (errMessage _) _)) | ]; done | ].
  destruct (parseIntent _) as [ p | ] eqn:PP; [ | done ]; injection HD as ->; apply orb_false_iff in RG as [ R1 R2 ].
  apply (succeeded _ _ _ _ _ _ _ S CF ltac:(lia) PP ST).
Qed.

(** Trying to collect an invoice, however it goes. *)
Lemma charge_grows invoice c w w' res : without_quotes (InvoiceID invoice) = InvoiceID invoice ->
  ChargeInvoice serve cl w (Some invoice) c = (w', res) ->
  grows w w' /\ forall intent, res = Ok intent -> intentStatus intent = "succeeded" -> taken w' (InvoiceID invoice) <> [].
Proof.
  intros Q; unfold ChargeInvoice; repeat (case_match; [ intros [= <- <-]; split; [ reflexivity | done ] | ]).
  destruct (SucceededIntentForInvoice _ _ _ _) as [ w1 res1 ] eqn:SI; pose proof (search_calm _ _ _ _ SI) as C1; destruct res1 as [ done | e | ]; cbn.
  2,3: intros [= <- <-]; split; [ exact (calm_grows _ _ _ C1) | done ].
  destruct done as [ p | ].
  { intros [= <- <-]; split; [ exact (calm_grows _ _ _ C1) | ]; intros _ _ _; exact (searched _ _ _ _ SI Q). }
  destruct (DefaultPaymentMethod _ _ _ _) as [ w2 res2 ] eqn:DM; apply method_calm in DM; pose proof (calm_trans _ _ _ _ _ C1 DM) as C2.
  destruct res2 as [ pm | e | ]; cbn; [ | intros [= <- <-]; split; [ exact (calm_grows _ _ _ C2) | done ] .. ].
  destruct (String.eqb pm ""); [ intros [= <- <-]; split; [ exact (calm_grows _ _ _ C2) | done ] | ].
  destruct (CreatePaymentIntent _ _ _ _ _ _ _ _ _) as [ w3 r3 ] eqn:CP; unfold failing; cbn; intros [= <- <-].
  destruct (intent_grows invoice c pm w2 w3 r3) as [ G T ]; [ | exact CP | ].
  - intros k t M; destruct C2 as [ E CK ]; rewrite E in M; pose proof (indexed _ _ _ _ _ M SI Q); lia.
  - split; [ transitivity w2; [ exact (calm_grows _ _ _ C2) | exact G ] | ]; intros intent E; destruct r3; cbn in E; try done; injection E as ->; exact (T _ eq_refl).
Qed.

(** ** The books *)

Abbreviation till := (Till W).

(** Invoices carry ids as they are stored; a paid one has been paid for. *)
Definition ids_plain (d : db) : Prop := forall inv, inv ∈ invoices d -> uuid (InvoiceID inv) = Some (InvoiceID inv).
Definition sound (t : till) : Prop :=
  ids_plain (books t) /\ orderly (world t) /\ forall inv, inv ∈ invoices (books t) -> Status inv = "paid" -> taken (world t) (InvoiceID inv) <> [].

(** The processor moved on, and the books did not. *)
Lemma sound_world t t' : sound t -> invoices (books t') = invoices (books t) -> grows (world t) (world t') -> sound t'.
Proof. intros (I & A & P) E [ G1 G2 ]; unfold sound, ids_plain; rewrite E; split_and!; auto. Qed.

Lemma sound_more t t' : sound t -> world t' = world t ->
  (forall inv, inv ∈ invoices (books t') -> inv ∈ invoices (books t) \/ (uuid (InvoiceID inv) = Some (InvoiceID inv) /\ Status inv <> "paid")) -> sound t'.
Proof.
  intros (I & A & P) E H; unfold sound; rewrite E; split_and!; [ | done | ]; intros inv M; destruct (H _ M) as [ O | [ U N ] ]; auto.
Qed.

Lemma mark_sound (up : nat -> bool) t t' res i c now : sound t -> taken (world t) i <> [] -> uuid i = Some i ->
  write up t (fun up d => MarkInvoicePaid uuid up d i c now) = (t', res) -> sound t'.
Proof.
  intros S T U; assert (sound {| books := books t; world := world t; tick := Datatypes.S (tick t) |}) as S' by (apply (sound_world t); done).
  unfold write, MarkInvoicePaid, cast; rewrite U; destruct (up _), (uuid c) as [ k | ]; cbn; intros [= <- _]; try done.
  destruct S as (I & A & P); split_and!; [ | done | ]; intros inv M; apply list_elem_of_fmap in M as (x & -> & M); destruct (_ && _) eqn:E; cbn; auto.
  intros _; apply andb_true_iff in E as [ E _ ]; apply String.eqb_eq in E; rewrite E; done.
Qed.

Lemma record_same (up : nat -> bool) (t : till) c : let t' := fst (write up t (fun up d => RecordCharge uuid fits up d c)) in
  invoices (books t') = invoices (books t) /\ world t' = world t.
Proof.
  unfold write, RecordCharge; destruct (up _); [ | done ]; destruct (cast uuid (chInvoice c)); cbn [result_bind]; try done; destruct (cast uuid (chCustomer c)); cbn [result_bind]; try done.
  destruct (is_int _ && _ && _ && _); [ | done ]; destruct (existsb _ (invoices _) && _); done.
Qed.

Lemma record_sound (up : nat -> bool) t inv intent status detail :
  sound t -> sound (recordChargeQuietly (CS := postgresStore uuid fits oldest_invoices up) t inv intent status detail).
Proof.
  intros S; unfold recordChargeQuietly, recordCharge, postgresStore; edestruct record_same as [ E1 E2 ].
  apply (sound_world t); [ done | exact E1 | rewrite E2; reflexivity ].
Qed.

(** ** Passes and charges *)

Definition item_ok (item : UnpaidInvoice) : Prop :=
  uuid (InvoiceID (uiInvoice item)) = Some (InvoiceID (uiInvoice item)).

Lemma outside_charge t t' inv c res : sound t -> uuid (InvoiceID inv) = Some (InvoiceID inv) ->
  outside t (fun w => ChargeInvoice serve cl w (Some inv) c) = (t', res) ->
  sound t' /\ forall intent, res = Ok intent -> intentStatus intent = "succeeded" -> taken (world t') (InvoiceID inv) <> [].
Proof.
  intros S U; unfold outside; destruct (ChargeInvoice _ _ _ _ _) as [ w r ] eqn:CI; intros [= <- <-].
  destruct (charge_grows inv c (world t) w r (plain_quotes _ _ U) CI) as [ G T ]; split; [ apply (sound_world t); done | done ].
Qed.

Lemma collectOne_sound (up : nat -> bool) now t r item t' res : sound t -> item_ok item ->
  collectOne (CS := postgresStore uuid fits oldest_invoices up) (IC := stripeCharger serve cl) errText now t r item = (t', res) -> sound t'.
Proof.
  intros S U; unfold collectOne; destruct (String.eqb (StripeCustomerID item) "") eqn:E; [ intros [= <- _]; apply record_sound; done | ].
  destruct (chargeInvoice _ _ _) as [ t1 res1 ] eqn:CI; destruct (outside_charge t t1 _ _ res1 S U CI) as [ S1 T1 ].
  destruct res1 as [ intent | e | ]; [ | destruct (chargeClass e); intros [= <- _]; done || (apply record_sound; done) | intros [= <- _]; done ].
  destruct (String.eqb (intentStatus intent) "succeeded") eqn:ST; [ | intros [= <- _]; apply record_sound; done ]; apply String.eqb_eq in ST.
  set (t2 := recordChargeQuietly _ _ _ _ _); assert (sound t2) as S2 by (apply record_sound; done).
  assert (world t2 = world t1) as W2 by apply record_same.
  destruct (markPaid _ _ _ _) as [ t3 res3 ] eqn:MP.
  assert (sound t3) by (apply (mark_sound up t2 t3 res3 (InvoiceID (uiInvoice item)) (invCustomerID (uiInvoice item)) now S2); [ rewrite W2; apply (T1 intent); done | done | exact MP ]).
  destruct res3; intros [= <- _]; done.
Qed.

Lemma collectLoop_sound (up : nat -> bool) now out : forall t r t' res, sound t -> Forall item_ok out ->
  collectLoop (CS := postgresStore uuid fits oldest_invoices up) (IC := stripeCharger serve cl) errText now t r out = (t', res) -> sound t'.
Proof.
  induction out as [ | item out IH ]; intros t r t' res S F; cbn; [ intros [= <- _]; done | ]; apply Forall_cons in F as [ F1 F ].
  destruct (collectOne _ _ _ _ _) as [ t1 res1 ] eqn:C1; pose proof (collectOne_sound up now t r item t1 res1 S F1 C1) as S1.
  destruct res1; [ intros C; eauto | intros [= <- _]; done .. ].
Qed.

Lemma collect_sound (up : nat -> bool) now t limit t' res : sound t ->
  CollectPayments uuid fits oldest_invoices serve cl up errText now t limit = (t', res) -> sound t'.
Proof.
  intros S; unfold CollectPayments, collectPayments; set (n := if limit <=? 0 then defaultCollectionLimit else limit); unfold listUnpaid, postgresStore, query, UnpaidInvoices.
  assert (sound {| books := books t; world := world t; tick := Datatypes.S (tick t) |}) as S' by (apply (sound_world t); done).
  destruct (up (tick t) && (0 <=? n)); [ | intros [= <- _]; done ]; apply collectLoop_sound; [ done | ].
  apply Forall_forall; intros item M; apply list_elem_of_fmap in M as (inv & -> & M).
  apply elem_of_take in M as (k & M & _); apply list_elem_of_lookup_2, oldest_of, list_elem_of_filter in M as [ [ NP _ ] M ].
  exact (proj1 S inv M).
Qed.

Lemma charge_sound (up : nat -> bool) now t method body t' res : sound t ->
  HandleChargeInvoice uuid newest_invoices serve cl up now t method body = (t', res) -> sound t'.
Proof.
  intros S; unfold HandleChargeInvoice; destruct (negb _); [ intros [= <- _]; done | ]; destruct body as [ req | ]; [ | intros [= <- _]; done ].
  destruct (negb _); [ intros [= <- _]; done | ]; destruct (negb _); [ intros [= <- _]; done | ]; unfold query.
  assert (sound {| books := books t; world := world t; tick := Datatypes.S (tick t) |}) as S' by (apply (sound_world t); done).
  destruct (GetInvoices _ _ _ _ _) as [ l | e | ] eqn:GI; [ | intros [= <- _]; done .. ].
  destruct (List.find _ l) as [ invoice | ] eqn:F; [ | intros [= <- _]; done ]; apply List.find_some in F as [ M E ]; apply String.eqb_eq in E.
  assert (uuid (InvoiceID invoice) = Some (InvoiceID invoice)) as U.
  { revert GI; unfold GetInvoices; destruct (up _); [ | done ]; destruct (cast uuid _); cbn; try done; intros [= <-].
    apply list_elem_of_In, list_elem_of_fmap in M as (inv & -> & M); apply newest_of, list_elem_of_filter in M as [ _ M ]; exact (proj1 S inv M). }
  unfold chargeFound; destruct (outside _ _) as [ t1 res1 ] eqn:O.
  destruct (outside_charge _ t1 invoice (crStripeCustomerID req) res1 S' U O) as [ S1 T1 ].
  destruct res1 as [ intent | e | ]; [ | intros [= <- _]; done .. ].
  destruct (String.eqb (intentStatus intent) "succeeded") eqn:ST; [ apply String.eqb_eq in ST | intros [= <- _]; done ].
  destruct (write _ _ _) as [ t2 res2 ] eqn:MP; pose proof (mark_sound up t1 t2 res2 (InvoiceID invoice) (invCustomerID invoice) now S1 (T1 _ eq_refl ST) U MP); destruct res2; intros [= <- _]; done.
Qed.

(** ** Invoices are raised unpaid *)

Definition only_unpaid (d d' : db) : Prop :=
  forall inv, inv ∈ invoices d' -> inv ∈ invoices d \/ (uuid (InvoiceID inv) = Some (InvoiceID inv) /\ Status inv <> "paid").

Lemma only_unpaid_same d d' : invoices d' = invoices d -> only_unpaid d d'.
Proof. intros E inv; rewrite E; auto. Qed.

#[export] Instance only_unpaid_preorder : PreOrder only_unpaid.
Proof. split; [ intros d; apply only_unpaid_same; done | intros a b c A B inv M; destruct (B _ M); auto ]. Qed.

Lemma create_unpaid up d inv d' : Status inv <> "paid" -> CreateInvoice uuid fits up d inv = Ok d' -> only_unpaid d d'.
Proof.
  intros N; unfold CreateInvoice, cast; destruct up; [ | done ]; destruct (uuid (InvoiceID inv)) as [ r | ] eqn:U; [ | done ].
  destruct (uuid (invSubscriptionID inv)) as [ i | ]; [ | done ]; destruct (uuid (invCustomerID inv)) as [ c | ]; [ | done ]; cbn [result_bind].
  destruct (_ && _ && _); [ | done ]; destruct (_ || _); [ done | ]; destruct (subscriptions d !! i), (customers d !! c); try done; intros [= <-] x M.
  apply elem_of_app in M as [ M | ->%list_elem_of_singleton ]; [ auto | right; split; [ exact (plain_idem _ _ U) | exact N ] ].
Qed.

Lemma generate_unpaid u d id t1 t2 i d' o : GenerateInvoice uuid fits u d id t1 t2 i = Ok (d', o) -> only_unpaid d d'.
Proof.
  unfold GenerateInvoice; destruct (buildInvoice _ _ _ _ _ _ _) as [ [ inv | b ] | | ] eqn:B; cbn; try done; [ intros [= <- _]; reflexivity | ].
  destruct (BillingPeriods.build_ok _ _ _ _ _ _ _ _ B) as (? & s & q & _ & _ & _ & counts & ->); unfold insertInvoice.
  destruct (CreateInvoice _ _ _ _ _) as [ d1 | e | ] eqn:C; [ | | done ].
  - intros [= <- _]; apply (create_unpaid (u Insert) d _ d1) in C; [ exact C | done ].
  - destruct (isUniqueViolation e); [ | done ]; destruct (GetInvoiceForPeriod _ _ _ _ _ _); cbn; try done; intros [= <- _]; reflexivity.
Qed.

Lemma billOne_unpaid tn d s d' o : billOne uuid fits tn d s = (d', o) -> only_unpaid d d'.
Proof.
  unfold billOne; destruct (GetPlan _ _ _ _) as [ p | | ]; [ | intros [= <- _]; reflexivity .. ].
  destruct (GenerateInvoice _ _ _ _ _ _ _ _) as [ [ d1 [ inv | ] ] | | ] eqn:G; try (intros [= <- _]; reflexivity); [ | intros [= <- _]; exact (generate_unpaid _ _ _ _ _ _ _ _ G) ].
  intros A; transitivity d1; [ exact (generate_unpaid _ _ _ _ _ _ _ _ G) | ]; apply only_unpaid_same.
  destruct (BillingPeriods.advance_cases _ _ _ _ _ _ _ _ A) as [ -> | (? & ? & _ & _ & ->) ]; done.
Qed.

Lemma billLoop_unpaid turns l : forall n d r, only_unpaid d (fst (billLoop uuid fits turns n d l r)).
Proof.
  induction l as [ | s l IH ]; intros n d r; cbn; [ reflexivity | ]; destruct (billOne _ _ _ _ _) as [ d1 [ b | f | ] ] eqn:B;
    [ transitivity d1; [ | apply IH ] .. | cbn ]; exact (billOne_unpaid _ _ _ _ _ B).
Qed.

Lemma sweep_unpaid u turns d now : only_unpaid d (fst (RunBilling uuid fits by_end u turns d now)).
Proof. unfold RunBilling; destruct (SubscriptionsDueForBilling _ _ _ _); [ apply billLoop_unpaid | reflexivity .. ]. Qed.

(** ** Cards and identities *)

Lemma set_customer_same up d c v d' : SetStripeCustomerID uuid fits up d c v = Ok d' -> invoices d' = invoices d.
Proof.
  unfold SetStripeCustomerID; destruct (up && _); [ | done ]; destruct (cast uuid c); cbn [result_bind]; try done; destruct (customers d !! _); [ | done ].
  destruct (bool_decide _ && _); [ done | intros [= <-]; done ].
Qed.

Lemma write_set_sound (up : nat -> bool) t c v t' res : sound t -> write up t (fun up d => SetStripeCustomerID uuid fits up d c v) = (t', res) -> sound t'.
Proof.
  intros S; unfold write; destruct (SetStripeCustomerID _ _ _ _ _ _) as [ d | | ] eqn:E; intros [= <- _]; apply (sound_world t); try done.
  exact (set_customer_same _ _ _ _ _ E).
Qed.

Lemma outside_sound {E A} t t' (f : W -> W * result E A) res : sound t -> (forall w w' r, f w = (w', r) -> exists n, calm n w w') ->
  outside t f = (t', res) -> sound t'.
Proof.
  intros S H; unfold outside; destruct (f (world t)) as [ w r ] eqn:F; intros [= <- _]; apply (sound_world t); [ done | done | ].
  destruct (H _ _ _ F) as [ n C ]; exact (calm_grows _ _ _ C).
Qed.

Lemma failing_world {E F A} (f : E -> F) (c : W * result E A) w r : failing f c = (w, r) -> exists r', c = (w, r').
Proof. destruct c as [ v x ]; intros [= <- _]; eauto. Qed.

Lemma ensure_sound (up : nat -> bool) t c email name t' res : sound t -> ensureStripeCustomer uuid fits serve cl up t c email name = (t', res) -> sound t'.
Proof.
  intros S; unfold ensureStripeCustomer, query; set (t0 := {| books := books t |}); assert (sound t0) as S0 by (apply (sound_world t); done).
  destruct (readStripeCustomerID _ _ _ _); cbn [and_then]; [ | intros [= <- _]; done .. ]; destruct (negb _); [ intros [= <- _]; done | ].
  destruct (String.eqb _ _); [ intros [= <- _]; done | ]; destruct (outside t0 _) as [ t1 res1 ] eqn:O.
  assert (sound t1) as S1.
  { apply (outside_sound _ _ _ _ S0) in O; [ done | ]; intros w w' r F; apply failing_world in F as [ r' F ]; unfold CreateCustomer in F.
    apply post_calm in F; [ eauto | discriminate ]. }
  destruct res1 as [ created | | ]; cbn [and_then]; [ | intros [= <- _]; done .. ].
  destruct (write _ _ _) as [ t2 res2 ] eqn:WR; pose proof (write_set_sound up t1 _ _ t2 res2 S1 WR); destruct res2; cbn; intros [= <- _]; done.
Qed.

Lemma session_sound (up : nat -> bool) hosts minute t method body t' res : sound t ->
  HandleCreateCardSession uuid fits serve cl up urlParse equalFold hosts minute t method body = (t', res) -> sound t'.
Proof.
  intros S; unfold HandleCreateCardSession; destruct (negb _); [ intros [= <- _]; done | ]; destruct body as [ req | ]; [ | intros [= <- _]; done ].
  destruct (negb _); [ intros [= <- _]; done | ]; destruct (_ || _); [ intros [= <- _]; done | ]; destruct (negb _); [ intros [= <- _]; done | ].
  destruct (ensureStripeCustomer _ _ _ _ _ _ _ _ _) as [ t1 res1 ] eqn:EN; pose proof (ensure_sound up t _ _ _ t1 res1 S EN) as S1.
  destruct res1 as [ id | | ]; cbn [and_then]; [ | intros [= <- _]; done .. ]; destruct (outside t1 _) as [ t2 res2 ] eqn:O.
  assert (sound t2); [ | destruct res2; intros [= <- _]; done ].
  apply (outside_sound _ _ _ _ S1) in O; [ done | ]; intros w w' r F; apply failing_world in F as [ r' F ]; unfold CreateSetupSession in F.
  destruct (_ || _ || _); [ injection F as <- _; exists 0; auto with lia | ]; apply post_calm in F; [ eauto | discriminate ].
Qed.

Lemma card_status_sound (up : nat -> bool) t method c t' res : sound t -> HandleCardStatus uuid serve cl up t method c = (t', res) -> sound t'.
Proof.
  intros S; unfold HandleCardStatus, query; destruct (negb _); [ intros [= <- _]; done | ]; destruct (negb _); [ intros [= <- _]; done | ].
  destruct (negb _); [ intros [= <- _]; done | ]; set (t0 := {| books := books t |}); assert (sound t0) as S0 by (apply (sound_world t); done).
  destruct (readStripeCustomerID _ _ _ _) as [ id | | ]; [ | intros [= <- _]; done .. ]; destruct (String.eqb _ _); [ intros [= <- _]; done | ].
  destruct (outside t0 _) as [ t1 res1 ] eqn:O; assert (sound t1); [ | destruct res1; intros [= <- _]; done ].
  apply (outside_sound _ _ _ _ S0) in O; [ done | ]; intros w w' r F; exists 3; exact (card_calm _ _ _ _ F).
Qed.

Lemma set_sound (up : nat -> bool) t method body t' res : sound t -> HandleSetStripeCustomer uuid fits up t method body = (t', res) -> sound t'.
Proof.
  intros S; unfold HandleSetStripeCustomer; destruct (negb _); [ intros [= <- _]; done | ]; destruct body as [ [ c v ] | ]; [ | intros [= <- _]; done ].
  destruct (String.eqb _ _); [ intros [= <- _]; done | ]; destruct (write _ _ _) as [ t1 res1 ] eqn:WR; pose proof (write_set_sound up t _ _ t1 res1 S WR).
  destruct res1; intros [= <- _]; done.
Qed.

(** ** Any sequence of operations *)

Definition with_books (t : till) (d : db) : till := {| books := d; world := world t; tick := tick t |}.

Inductive pay_step (t : till) : till -> Prop :=
  | pay_collect up now limit t' r :
      CollectPayments uuid fits oldest_invoices serve cl up errText now t limit = (t', r) -> pay_step t t'
  | pay_charge up now method body t' r :
      HandleChargeInvoice uuid newest_invoices serve cl up now t method body = (t', r) -> pay_step t t'
  | pay_session up hosts minute method body t' r :
      HandleCreateCardSession uuid fits serve cl up urlParse equalFold hosts minute t method body = (t', r) -> pay_step t t'
  | pay_status up method c t' r : HandleCardStatus uuid serve cl up t method c = (t', r) -> pay_step t t'
  | pay_identity up method body t' r : HandleSetStripeCustomer uuid fits up t method body = (t', r) -> pay_step t t'
  | pay_generate u id t1 t2 i d' o : GenerateInvoice uuid fits u (books t) id t1 t2 i = Ok (d', o) -> pay_step t (with_books t d')
  | pay_sweep u turns now : pay_step t (with_books t (fst (RunBilling uuid fits by_end u turns (books t) now)))
  | pay_other d' : invoices d' = invoices (books t) -> pay_step t (with_books t d')
  | pay_drift w n : (forall i, taken w i = taken (world t) i) -> clock (world t) <= clock w -> pay_step t {| books := books t; world := w; tick := n |}.

Lemma step_sound t t' : sound t -> pay_step t t' -> sound t'.
Proof.
  intros S [ up now limit t1 r H | up now method body t1 r H | up hosts minute method body t1 r H | up method c t1 r H | up method body t1 r H
    | u id t1 t2 i d' o H | u turns now | d' H | w n H C ].
  - exact (collect_sound up now t limit t1 r S H).
  - exact (charge_sound up now t method body t1 r S H).
  - exact (session_sound up hosts minute t method body t1 r S H).
  - exact (card_status_sound up t method c t1 r S H).
  - exact (set_sound up t method body t1 r S H).
  - apply (sound_more t); [ done | done | exact (generate_unpaid _ _ _ _ _ _ _ _ H) ].
  - apply (sound_more t); [ done | done | apply sweep_unpaid ].
  - apply (sound_more t); [ done | done | apply only_unpaid_same, H ].
  - apply (sound_world t); [ done | done | exact (later_grows _ _ H C) ].
Qed.

End Ledger.

(** ** A processor *)

(** All customers have the card of the state, the clock stands still and search
    shows nothing for a minute; a key pays once. *)
Module Simple.
Definition uuid (s : string) : option string := if String.eqb (without_quotes s) s then Some s else None.
Definition fits (n : Z) (s : string) : bool := true.
Definition rows {A} (l : list A) : list A := l.
Definition cl : StripeClient := {| apiKey := "sk"; baseURL := "https://stripe" |}.
Definition errText (e : ChargeErr) : string := "".
Definition intent (status : string) : PaymentIntent :=
  {| intentID := "pi_1"; intentAmount := 0; intentCurrency := ""; intentStatus := status; ClientSecret := ""; intentCustomer := "" |}.

#[export] Instance json : StripeJson := {
  parseError _ := None; parseIntent s := Some (intent s); parseIntents _ := Some []; parseCustomer _ := None; parseDefaultMethod s := Some s;
  parseMethods _ := Some []; parseCard _ := None; parseSession _ := None;
}.

(** the card, and the invoices paid with the keys they were paid with *)
Abbreviation world_ := (string * list (string * string))%type.
Definition invoicesOf (r : Request) : list string := map snd (filter (fun kv => fst kv = "metadata[openfireblocks_invoice_id]") (params r)).
Definition pay (w : world_) (ik : string * string) : world_ := if bool_decide (ik ∈ snd w) then w else (fst w, ik :: snd w).
Definition serve (w : world_) (r : Request) : world_ * Exchange :=
  if String.eqb (verb r) "GET" then (w, Answered 200 (fst w))
  else if negb (String.eqb (verb r) "POST") || negb (String.eqb (url r) (baseURL cl +:+ "/v1/payment_intents")) then (w, NotReached)
  else match invoicesOf r with [ i ] => (pay w (i, idempotencyKey r), Answered 200 "succeeded") | _ => (w, NotReached) end.
Definition taken_ (w : world_) (i : string) : list (string * Z) := map (fun ik => (snd ik, 0)) (filter (fun ik => fst ik = i) (snd w)).

#[export] Instance plain : PlainIds uuid.
Proof. split; intros x y; unfold uuid; destruct (String.eqb_spec (without_quotes x) x) as [ E | ]; intros [= <-]; [ rewrite E, String.eqb_refl; done | exact E ]. Qed.

Lemma taken_pay w i k j : taken_ (pay w (i, k)) j = if bool_decide ((i, k) ∈ snd w) then taken_ w j else if String.eqb i j then (k, 0) :: taken_ w j else taken_ w j.
Proof.
  unfold pay, taken_; case_bool_decide; [ done | ]; cbn [snd]; destruct (String.eqb_spec i j); [ rewrite filter_cons_True | rewrite filter_cons_False ]; done.
Qed.

(** What a charge does. *)
Lemma serve_charge w r w' x i : serve w r = (w', x) -> charges_for cl i r -> (w' = w /\ x = NotReached) \/ w' = pay w (i, idempotencyKey r).
Proof.
  unfold serve, charges_for, charges; intros H [ [ V U ] M ]; rewrite V, U, String.eqb_refl in H; cbn [negb orb String.eqb] in H.
  assert (i ∈ invoicesOf r) as I by (apply list_elem_of_fmap; eexists; split; [ | apply list_elem_of_filter; split; [ | exact M ] ]; done).
  cbn in H; destruct (invoicesOf r) as [ | j [ | ] ]; [ injection H as <- <-; auto | | injection H as <- <-; auto ].
  apply list_elem_of_singleton in I as ->; injection H as <- <-; auto.
Qed.

#[export] Instance processor : Processor serve cl.
Proof.
  refine {| taken := taken_; clock := fun _ => 0; delay := 60 * 1000000000 |}.
  - unfold callTimeout, keyLife; lia.
  - intros w r w' x _; unfold callTimeout; lia.
  - intros w r w' x i; unfold serve; destruct (String.eqb_spec (verb r) "GET"); [ intros [= <- _]; done | ].
    destruct (String.eqb_spec (verb r) "POST"), (String.eqb_spec (url r) (baseURL cl +:+ "/v1/payment_intents")); cbn [negb orb]; try (intros [= <- _]; done).
    intros _ N; exfalso; apply N; split; done.
  - intros w r w' x i j H C NE; destruct (serve_charge _ _ _ _ _ H C) as [ [ -> _ ] | -> ]; [ done | ]; rewrite taken_pay; case_bool_decide; [ done | ].
    destruct (String.eqb_spec i j); done.
  - intros w r w' x i H C; destruct (serve_charge _ _ _ _ _ H C) as [ [ -> _ ] | -> ]; [ auto | ]; rewrite taken_pay; case_bool_decide as N; [ auto | ].
    rewrite String.eqb_refl; right; exists 0; split_and!; [ done | lia | lia | ]; intros t' ([ j k ] & EK & M)%list_elem_of_fmap; cbn [snd] in EK; injection EK as <- ->; apply list_elem_of_filter in M as [ <- M ]; done.
  - intros w r w' status raw i p H C _ _ _; destruct (serve_charge _ _ _ _ _ H C) as [ [ _ [=] ] | -> ]; rewrite taken_pay; case_bool_decide as N; [ | rewrite String.eqb_refl; done ].
    intros E; apply (not_elem_of_nil (idempotencyKey r, 0)); rewrite <- E; apply list_elem_of_fmap; exists (i, idempotencyKey r); split; [ done | ]; apply list_elem_of_filter; done.
  - intros w i w' p; unfold SucceededIntentForInvoice; cbn; intros [=].
  - intros w i w1 k t ([ j k' ] & [= -> ->] & _)%list_elem_of_fmap _ _; lia.
Defined.

(** An invoice of January, raised and collected in February; a second pass finds
    nothing left to collect. *)
Definition opening : Till world_ :=
  {| books := with_customers (sdb BillingPeriods.Simple.s3) {[ "acme" := Some "cus_1" ]}; world := ("pm_1", []); tick := 0 |}.
Abbreviation february := BillingPeriods.Simple.february.
Definition up : nat -> bool := fun _ => true.
Definition raised : Till world_ :=
  with_books opening (fst (RunBilling uuid fits rows true (fun _ => BillingPeriods.Simple.clocks) (books opening) february)).
Definition collect (t : Till world_) : Till world_ := fst (CollectPayments uuid fits rows serve cl up errText february t 0).

Abbreviation steps := (rtc (pay_step uuid fits rows rows rows serve cl errText (fun _ => None) String.eqb)).

Lemma collected_run : steps opening (collect raised).
Proof.
  apply rtc_l with raised; [ apply pay_sweep | ]; apply rtc_l with (collect raised); [ | apply rtc_refl ].
  eapply (pay_collect _ _ _ _ _ _ _ _ _ _ _ up february 0); apply surjective_pairing.
Qed.


(** A replaced card.  The pass takes the money and the books do not hear of it;
    the customer replaces the card, and the next pass, before search shows the
    payment, charges the new one. *)
Definition cut (t : Till world_) : Till world_ :=
  fst (CollectPayments uuid fits rows serve cl (fun n => Nat.leb n (tick t)) errText february t 0).
Definition replaced (t : Till world_) : Till world_ := {| books := books t; world := ("pm_2", snd (world t)); tick := tick t |}.
Lemma replaced_card_pays_again : let t := collect (replaced (cut raised)) in
  steps opening t /\ taken (world t) "inv" = [ (intentKey "inv" "pm_2", 0); (intentKey "inv" "pm_1", 0) ].
Proof.
  intros t; split; [ | vm_compute; reflexivity ]; apply rtc_l with raised; [ apply pay_sweep | ].
  apply rtc_l with (cut raised); [ eapply (pay_collect _ _ _ _ _ _ _ _ _ _ _ _ february 0); apply surjective_pairing | ].
  apply rtc_l with (replaced (cut raised)); [ apply pay_drift; [ done | cbn; lia ] | ].
  apply rtc_l with t; [ eapply (pay_collect _ _ _ _ _ _ _ _ _ _ _ up february 0); apply surjective_pairing | apply rtc_refl ].
Qed.

Lemma pass_reports_every_invoice_witness :
  let t := raised in let out := snd (listUnpaid (collectionStore := postgresStore uuid fits rows up) t 200) in
  exists items, out = Ok items /\ len items = 1 /\
  exists t' r, collectPayments (CS := postgresStore uuid fits rows up) (IC := stripeCharger serve cl) errText february t 0 = (t', Ok r) /\ Attempted r = len items /\
    reported r ≡ₚ map (fun item => InvoiceID (uiInvoice item)) items /\ unmarked_ok r.
Proof.
  intros t out; eexists; split; [ vm_compute; reflexivity | split; [ vm_compute; reflexivity | ] ].
  apply (pass_reports_every_invoice (CS := postgresStore uuid fits rows up) (IC := stripeCharger serve cl) errText february t 0
    (fst (listUnpaid (collectionStore := postgresStore uuid fits rows up) t 200))); vm_compute; reflexivity.
Defined.

(** ** Invoices that are never collected *)

Definition owed (id customer : string) (amount created : Z) : Invoice :=
  {| InvoiceID := id; invSubscriptionID := "sub"; invCustomerID := customer; Amount := amount; invCurrency := "USD"; Status := "unpaid"; DueDate := 0;
     PaidAt := None; LineItems := []; PeriodStart := None; PeriodEnd := None; invCreatedAt := created |}.
Definition owing (l : list Invoice) : Till world_ :=
  {| books := with_invoices (with_customers (books opening) {[ "acme" := Some "cus_1"; "big" := None ]}) l; world := ("pm_1", []); tick := 0 |}.

(** An invoice for nothing (a free plan, nothing over its limits) is refused by
    the client: it fails at every pass. *)
Lemma nothing_owed_always_fails :
  map Status (invoices (books (collect (owing [ owed "free" "acme" 0 1 ])))) = [ "unpaid" ] /\
  match snd (CollectPayments uuid fits rows serve cl up errText february (owing [ owed "free" "acme" 0 1 ]) 0) with
  | Ok r => map cfError (colFailed r) = [ ChargeFailed (NotCharged (NothingToCharge 0)) ]
  | _ => False
  end.
Proof. vm_compute; done. Qed.

(** Two hundred older invoices that are collected by hand keep a newer one out
    of every pass: the books it is read from do not change. *)
Definition manual : list Invoice := map (fun n => owed (show_int (Z.of_nat n)) "big" 500 (Z.of_nat n)) (seq 0 200).
Lemma manual_invoices_starve_collection :
  let t := owing (manual ++ [ owed "new" "acme" 10050 1000 ]) in
  map Status (filter (fun inv => InvoiceID inv = "new") (invoices (books (collect t)))) = [ "unpaid" ] /\ snd (world (collect t)) = [] /\
  invoices (books (collect t)) = invoices (books t) /\ customers (books (collect t)) = customers (books t).
Proof. vm_compute; done. Qed.
End Simple.
End BillingLedger.
