(* ===== verification/BitcoinService.v ===== *)
(** * Bitcoin: the node client and the routes

    Models [services/mpc-signer/chains/bitcoin_rpc.go] (the JSON-RPC client),
    [services/mpc-signer/bitcoin_http.go] (the routes that prepare and finalise
    a spend) and what they use of [chains/bitcoin.go], [chains/router.go] and
    [chains/bitcoin_threshold.go]; selection and planning are those of
    CoinSelect.v and BitcoinPlan.v.

    btcd is a parameter ([Btcd]), as are the exchange with the node and the JSON
    of its answers.

    Shown here: amounts are read exactly; what is prepared spends outputs the
    node listed and pays what was asked; what is relayed after signing pays the
    same. *)

From Stdlib Require Import ZArith Lia Ascii String.
From stdpp Require Import base list numbers strings.
From S2P Require Import Prelude GoStrings GoText EthCrypto CoinSelect BitcoinPlan.

Open Scope Z_scope.

Module BitcoinService.
Import CoinSelect BitcoinPlan.
#[local] Open Scope string_scope.
#[local] Open Scope list_scope.
#[local] Open Scope Z_scope.

(** ** Amounts *)

Inductive AmountErr : Type := EmptyAmount | TooPrecise (s : string) | NotDecimal (s : string) | TooLarge (s : string).

(** [strings.Cut(s, ".")] *)
Fixpoint cut_dot (s : string) : string * string :=
  match s with
  | EmptyString => (EmptyString, EmptyString)
  | String c t => if Ascii.eqb c "." then (EmptyString, t) else let (w, f) := cut_dot t in (String c w, f)
  end.

(** [strings.Repeat("0", n)] *)
Fixpoint zeros (n : nat) : string := match n with O => EmptyString | S n => String "0" (zeros n) end.

Definition btcToSatoshis (s : string) : result AmountErr Z :=
  let s := trim_space s in
  refuse! String.eqb s "" with EmptyAmount;
  let neg := has_prefix "-" s in
  let s := trim_prefix "+" (trim_prefix "-" s) in
  let (whole, frac) := cut_dot s in
  let whole := if String.eqb whole "" then "0" else whole in
  refuse! 8 <? slen frac with TooPrecise s;
  let frac := frac +:+ zeros (8 - String.length frac) in
  match big_of_dec (whole +:+ frac) with
  | None => Err (NotDecimal s)
  | Some value =>
      check! (- two63 <=? value) && (value <? two63) else TooLarge s;
      Ok (if neg then i64 (- value) else value)
  end.

(** ** The client *)

Record BitcoinRPC := { rpcURL : string; rpcUser : string; rpcPass : string }.

Definition NewBitcoinRPCFromEnv (getenv : string -> string) : option BitcoinRPC :=
  let url := getenv "BITCOIN_RPC_URL" in
  if String.eqb url "" then None
  else Some {| rpcURL := url; rpcUser := getenv "BITCOIN_RPC_USER"; rpcPass := getenv "BITCOIN_RPC_PASSWORD" |}.

Inductive Param : Type := PText (s : string) | PInt (n : Z) | PList (l : list string).
Record rpcRequest := { JSONRPC : string; rpcID : string; rpcMethod : string; rpcParams : list Param }.
Record rpcError := { rpcCode : Z; rpcMessage : string }.

(** What came of a request: the result is still raw JSON. *)
Inductive Exchange : Type := NotEncoded | NotSent | NotReached | BadBody (status : Z) | Answered (error : option rpcError) (result_ : string).

Record Unspent := { unTxid : string; unVout : Z; unScript : string; unAmount : string; unHeight : Z }.
Record scanResult := { Success : bool; scanHeight : Z; Unspents : list Unspent }.

(** [json.Unmarshal] into the value of each call. *)
Class BitcoindJson := {
  parseScan : string -> option scanResult;
  parseText : string -> option string;
  parseFee : string -> option string;
  parseHeight : string -> option Z;
}.

Inductive NodeErr : Type :=
  | RequestNotEncoded | RequestNotBuilt | CallFailed | UndecodableBody (status : Z) | NodeError (e : rpcError) | UndecodableResult
  | NoAddressToScan | ScanIncomplete | BadOutput (txid : string) (vout : Z) (e : AmountErr) | BadFee (e : AmountErr).

Section Client.
Context {BJ : BitcoindJson} (answer : BitcoinRPC -> option (string * string) -> rpcRequest -> Exchange).

Definition call {A} (c : BitcoinRPC) (method : string) (params : list Param) (decode : string -> option A) : result NodeErr A :=
  let auth := if negb (String.eqb (rpcUser c) "") then Some (rpcUser c, rpcPass c) else None in
  match answer c auth {| JSONRPC := "1.0"; rpcID := "openfireblocks"; rpcMethod := method; rpcParams := params |} with
  | NotEncoded => Err RequestNotEncoded
  | NotSent => Err RequestNotBuilt
  | NotReached => Err CallFailed
  | BadBody status => Err (UndecodableBody status)
  | Answered (Some e) _ => Err (NodeError e)
  | Answered None raw => match decode raw with Some v => Ok v | None => Err UndecodableResult end
  end.

(** Each address once, as a descriptor. *)
Fixpoint descriptors (seen : list string) (addresses : list string) : list string :=
  match addresses with
  | [] => []
  | a :: l =>
      if String.eqb a "" || bool_decide (a ∈ seen) then descriptors seen l
      else ("addr(" +:+ a +:+ ")") :: descriptors (a :: seen) l
  end.

Definition utxoOf (tip : Z) (u : Unspent) : result NodeErr UTXO :=
  let! sats := map_err (BadOutput (unTxid u) (unVout u)) (btcToSatoshis (unAmount u)) in
  Ok {| Txid := unTxid u; Vout := unVout u; Amount := sats; Script := unScript u;
        Confirmations := if (0 <? unHeight u) && (unHeight u <=? tip) then i64 (i64 (tip - unHeight u) + 1) else 0 |}.

Fixpoint utxosOf (tip : Z) (l : list Unspent) : result NodeErr (list UTXO) :=
  match l with
  | [] => Ok []
  | u :: l => let! x := utxoOf tip u in let! xs := utxosOf tip l in Ok (x :: xs)
  end.

Definition ListUnspentForAddresses (c : BitcoinRPC) (addresses : list string) : result NodeErr (list UTXO) :=
  let ds := descriptors [] addresses in
  refuse! len ds =? 0 with NoAddressToScan;
  let! res := call c "scantxoutset" [ PText "start"; PList ds ] parseScan in
  check! Success res else ScanIncomplete;
  utxosOf (scanHeight res) (Unspents res).

Definition ListUnspentForAddress (c : BitcoinRPC) (address : string) : result NodeErr (list UTXO) := ListUnspentForAddresses c [ address ].

Definition SendRawTransaction (c : BitcoinRPC) (rawHex : string) : result NodeErr string := call c "sendrawtransaction" [ PText rawHex ] parseText.

Definition EstimateFeeRate (c : BitcoinRPC) (confirmationTarget fallback : Z) : result NodeErr Z :=
  let target := if confirmationTarget <=? 0 then 6 else confirmationTarget in
  let! feeRate := call c "estimatesmartfee" [ PInt target ] parseFee in
  if String.eqb feeRate "" then Ok fallback
  else
    let! perKvB := map_err BadFee (btcToSatoshis feeRate) in
    let rate := Z.quot perKvB 1000 in
    Ok (if rate <? 1 then 1 else rate).

Definition BlockCount (c : BitcoinRPC) : result NodeErr Z := call c "getblockcount" [] parseHeight.

(** ** Relaying *)

Inductive BroadcastErr : Type := UnsupportedChain (chain : string) | NoNode | NodeRejected (e : NodeErr).

(** [BitcoinSigner.BroadcastTransaction]: bytes, or the text of their hex. *)
Definition BroadcastTransaction (rpc : option BitcoinRPC) (signedTx : string) : result BroadcastErr string :=
  match rpc with
  | None => Err NoNode
  | Some c =>
      let raw := match hex_decode (stripHexPrefix signedTx) with Some _ => stripHexPrefix signedTx | None => hex_encode (to_bytes signedTx) end in
      map_err NodeRejected (SendRawTransaction c raw)
  end.
End Client.

(** ** btcd *)

Class Btcd := {
  Addr : Type; Hash : Type; Rest : Type; PubKey : Type;
  decodeAddress : string -> Params -> option Addr;
  isForNet : Addr -> Params -> bool;
  payToAddrScript : Addr -> option bytes;
  isP2WPKH : bytes -> bool;
  newHashFromStr : string -> option Hash;
  serialize : UnsignedTx Hash -> option bytes;
  witnessSigHash : bytes -> UnsignedTx Hash -> Z -> Z -> option bytes;
  legacySigHash : bytes -> UnsignedTx Hash -> Z -> option bytes;
  parsePubKey : bytes -> option PubKey;
  serializeCompressed : PubKey -> bytes;
  deserialize : bytes -> option (MsgTx Hash Rest);
  serializeTx : MsgTx Hash Rest -> option bytes;
  derSerialize : Z -> Z -> bytes;
  pushTwo : bytes -> bytes -> option bytes;
  runEngine : bytes -> MsgTx Hash Rest -> Z -> Z -> option bool;
  hash160 : bytes -> bytes;
  witnessAddress : bytes -> Params -> option string;
  pubKeyHashAddress : bytes -> Params -> option string;
  txHash : MsgTx Hash Rest -> string;
}.

Section Routes.
Context {BT : Btcd} {BJ : BitcoindJson} (answer : BitcoinRPC -> option (string * string) -> rpcRequest -> Exchange).

Abbreviation select := (SelectCoins Addr decodeAddress isForNet payToAddrScript isP2WPKH).
Abbreviation plan_ := (PlanBitcoinTransaction Addr decodeAddress isForNet payToAddrScript isP2WPKH Hash newHashFromStr serialize witnessSigHash legacySigHash).
Abbreviation assemble := (AssembleBitcoinTransaction Hash Rest PubKey parsePubKey serializeCompressed deserialize serializeTx derSerialize pushTwo runEngine).

Inductive KeyErr : Type := KeyNetwork (e : BtcErr) | KeyNotHex | KeyInvalid | NoSegwit | NoLegacy.

Definition BitcoinAddressesForPubKey (pubKeyHex network : string) : result KeyErr (string * string) :=
  let! params := map_err KeyNetwork (bitcoinNetParams network) in
  match hex_decode (stripHexPrefix pubKeyHex) with
  | None => Err KeyNotHex
  | Some raw =>
      match parsePubKey raw with
      | None => Err KeyInvalid
      | Some parsed =>
          let hash := hash160 (serializeCompressed parsed) in
          match witnessAddress hash params, pubKeyHashAddress hash params with
          | None, _ => Err NoSegwit
          | _, None => Err NoLegacy
          | Some segwit, Some legacy => Ok (segwit, legacy)
          end
      end
  end.

Definition BitcoinTxID (signedTx : bytes) : option string := option_map txHash (deserialize signedTx).

Record bitcoinPrepareRequest := {
  prNetwork : string; prPubKeyHex : string; prAddress : string; prDestination : string; prAmount : Z; prFeeRate : Z; prChangeAddress : string;
  prMinConfirmations : option Z; prConfirmationTarget : Z;
}.
Record bitcoinPrepareResponse := { Selection : CoinSelection; Plan_ : BitcoinSigningPlan; Balance : Z; UTXOs : Z; Addresses : list string }.
Record bitcoinFinalizeRequest := { fiPlan : option BitcoinSigningPlan; Signatures : list BitcoinInputSignature; fiPubKeyHex : string; Broadcast : bool }.
Record bitcoinFinalizeResponse := { RawTxHex : string; TxID : string; wasBroadcast : bool; BroadcastID : string }.

Inductive Reply : Type :=
  | Refusal | RefusalWithBalance (balance : Z) | AddressList (network segwit legacy preferred : string) | Prepared (r : bitcoinPrepareResponse)
  | Finalized (r : bitcoinFinalizeResponse) | Unrelayed (rawTxHex txid : string).

Definition defaultFeeRateSatPerVByte : Z := 2.

Definition handleBitcoinAddresses (pubKey network : string) : Z * Reply :=
  if String.eqb pubKey "" then (400, Refusal)
  else match BitcoinAddressesForPubKey pubKey network with Ok (segwit, legacy) => (200, AddressList network segwit legacy segwit) | _ => (400, Refusal) end.

(** The addresses to look at, and where change goes by default. *)
Definition scanOf (req : bitcoinPrepareRequest) : result KeyErr (list string * string) :=
  let! own :=
    if negb (String.eqb (prPubKeyHex req) "") then
      let! both := BitcoinAddressesForPubKey (prPubKeyHex req) (prNetwork req) in Ok ([ fst both; snd both ], fst both)
    else Ok ([], "") in
  if negb (String.eqb (prAddress req) "")
  then Ok ([ prAddress req ], if String.eqb (snd own) "" then prAddress req else snd own) else Ok own.

(** The rate asked for, or the node's. *)
Definition rateOf (c : BitcoinRPC) (req : bitcoinPrepareRequest) : result NodeErr Z :=
  if prFeeRate req <=? 0 then EstimateFeeRate answer c (prConfirmationTarget req) defaultFeeRateSatPerVByte else Ok (prFeeRate req).

Definition selectionRequest (req : bitcoinPrepareRequest) (utxos : list UTXO) (feeRate : Z) (defaultChange : string) : CoinSelectionRequest :=
  {| reqNetwork := prNetwork req; reqUTXOs := utxos; reqDestination := prDestination req; reqAmount := prAmount req; reqFeeRate := feeRate;
     reqChangeAddress := if String.eqb (prChangeAddress req) "" then defaultChange else prChangeAddress req; reqMinConfirmations := prMinConfirmations req |}.

(** [node]: the client, when there is one; [body]: [None] when it is not the
    JSON expected. *)
Definition handleBitcoinPrepare (node : option BitcoinRPC) (body : option bitcoinPrepareRequest) : Z * Reply :=
  match body, node with
  | None, _ => (400, Refusal)
  | _, None => (503, Refusal)
  | Some req, Some c =>
      match scanOf req with
      | Ok (scan, defaultChange) =>
          if len scan =? 0 then (400, Refusal)
          else
            match ListUnspentForAddresses answer c scan with
            | Ok utxos =>
                let balance := fold_left (fun b u => i64 (b + Amount u)) utxos 0 in
                match rateOf c req with
                | Ok feeRate =>
                    match select (selectionRequest req utxos feeRate defaultChange) with
                    | Ok selection =>
                        match plan_ (Request selection) with
                        | Ok plan => (200, Prepared {| Selection := selection; Plan_ := plan; Balance := balance; UTXOs := len utxos; Addresses := scan |})
                        | _ => (400, Refusal)
                        end
                    | _ => (400, RefusalWithBalance balance)
                    end
                | _ => (502, Refusal)
                end
            | _ => (502, Refusal)
            end
      | _ => (400, Refusal)
      end
  end.

(** The router knows [bitcoin]. *)
Definition handleBitcoinFinalize (node : option BitcoinRPC) (body : option bitcoinFinalizeRequest) : Z * Reply :=
  match body with
  | None => (400, Refusal)
  | Some req =>
      match fiPlan req with
      | None => (400, Refusal)
      | Some plan =>
          match assemble (Some plan) (Signatures req) (fiPubKeyHex req) with
          | Ok raw =>
              match BitcoinTxID raw with
              | None => (500, Refusal)
              | Some txid =>
                  let resp := {| RawTxHex := hex_encode raw; TxID := txid; wasBroadcast := false; BroadcastID := "" |} in
                  if negb (Broadcast req) then (200, Finalized resp)
                  else
                    match BroadcastTransaction answer node (RawTxHex resp) with
                    | Ok id => (200, Finalized {| RawTxHex := RawTxHex resp; TxID := txid; wasBroadcast := true; BroadcastID := id |})
                    | _ => (502, Unrelayed (RawTxHex resp) txid)
                    end
              end
          | _ => (400, Refusal)
          end
      end
  end.
End Routes.

(** ** Amounts are exact *)

(** The number a run of digits writes. *)
Definition number (s : string) : Z := fst (fst (scan_digits 0 0 s)).

Lemma amount_digit c d : digit_value c = Some d -> is_space c = false /\ Ascii.eqb c "-" = false /\ Ascii.eqb c "+" = false /\ Ascii.eqb c "." = false.
Proof.
  unfold digit_value, is_space; intros H; assert (forall x, chr x < 48 -> Ascii.eqb c x = false) as N.
  { intros x L; apply Ascii.eqb_neq; intros ->; destruct ((48 <=? chr x) && (chr x <=? 57)) eqn:E; [ b2p; lia | done ]. }
  split_and!; [ destruct ((48 <=? chr c) && (chr c <=? 57)) eqn:E; [ b2p; lia | done ] | apply N; reflexivity .. ].
Qed.

Lemma amount_digits_app s t a k : all_digits s = true ->
  scan_digits a k (s +:+ t) = scan_digits (fst (fst (scan_digits a k s))) (k + String.length s) t.
Proof.
  revert a k; induction s as [ | c s IH ]; intros a k D; [ rewrite sapp_nil; cbn; rewrite Nat.add_0_r; done | ]; rewrite sapp_cons; cbn in *.
  destruct (digit_value c); [ rewrite IH by done; f_equal; lia | done ].
Qed.

Lemma scan_digits_acc s a k : all_digits s = true ->
  scan_digits a k s = (a * 10 ^ Z.of_nat (String.length s) + number s, (k + String.length s)%nat, EmptyString).
Proof.
  unfold number; assert (forall a k, all_digits s = true -> scan_digits a k s = (a * 10 ^ Z.of_nat (String.length s) + fst (fst (scan_digits 0 0 s)), (k + String.length s)%nat, EmptyString)) as G; [ | apply G ].
  clear a k; induction s as [ | c s IH ]; intros a k D; cbn in *; [ repeat f_equal; lia | ]; destruct (digit_value c) as [ d | ]; [ | done ].
  pose proof (IH (0 * 10 + d) 1%nat D) as E; cbn in E |- *; rewrite E, (IH (a * 10 + d) (S k) D); cbn [fst]; f_equal; f_equal; [ | lia ].
  rewrite Nat2Z.inj_succ, Z.pow_succ_r by lia; lia.
Qed.

Lemma zeros_digits n : all_digits (zeros n) = true /\ number (zeros n) = 0 /\ String.length (zeros n) = n.
Proof.
  induction n as [ | n (A & B & C) ]; [ done | ]; split_and!; [ exact A | | cbn; congruence ].
  change (fst (fst (scan_digits 0 1 (zeros n))) = 0); rewrite (scan_digits_acc (zeros n) 0 1 A); cbn [fst]; rewrite B; lia.
Qed.

(** Text without white space is trimmed to itself. *)
Fixpoint no_space (s : string) : bool := match s with EmptyString => true | String c t => negb (is_space c) && no_space t end.

Lemma no_space_left s : no_space s = true -> trim_left s = s.
Proof. destruct s as [ | c s ]; cbn; [ done | ]; destruct (is_space c); done. Qed.

Lemma no_space_bytes s : no_space s = true <-> Forall (fun b => is_space (asc b) = false) (to_bytes s).
Proof.
  induction s as [ | c s IH ]; cbn; [ split; [ constructor | done ] | ]; rewrite Forall_cons, <- IH, asc_chr, andb_true_iff, negb_true_iff; done.
Qed.

Lemma no_space_trimmed s : no_space s = true -> trim_space s = s.
Proof.
  intros N; unfold trim_space; rewrite (no_space_left s N).
  assert (bytes_ok (rev (to_bytes s))) as B by (apply Forall_rev, to_bytes_ok).
  rewrite no_space_left, (to_of_bytes _ B), rev_involutive, of_to_bytes; [ done | ].
  apply no_space_bytes; rewrite (to_of_bytes _ B); apply Forall_rev, no_space_bytes, N.
Qed.

Lemma no_space_app s t : no_space (s +:+ t) = no_space s && no_space t.
Proof. induction s as [ | c s IH ]; [ rewrite sapp_nil; done | rewrite sapp_cons; cbn; rewrite IH, andb_assoc; done ]. Qed.

Lemma digits_no_space s : all_digits s = true -> no_space s = true.
Proof.
  induction s as [ | c s IH ]; cbn; [ done | ]; destruct (digit_value c) eqn:D; [ | done ]; destruct (amount_digit _ _ D) as (-> & _); auto.
Qed.

Lemma cut_dot_digits w f : all_digits w = true -> cut_dot (w +:+ "." +:+ f) = (w, f).
Proof.
  induction w as [ | c w IH ]; cbn; [ done | ]; destruct (digit_value c) eqn:D; [ | done ]; intros A; destruct (amount_digit _ _ D) as (_ & _ & _ & E).
  rewrite sapp_cons; cbn; rewrite E, (IH A); done.
Qed.

Lemma all_digits_app s t : all_digits (s +:+ t) = all_digits s && all_digits t.
Proof. induction s as [ | c s IH ]; [ rewrite sapp_nil; done | rewrite sapp_cons; cbn; destruct (digit_value c); done ]. Qed.

Lemma slength_app s t : String.length (s +:+ t) = (String.length s + String.length t)%nat.
Proof. induction s as [ | c s IH ]; [ done | rewrite sapp_cons; cbn; rewrite IH; done ]. Qed.

Lemma number_app s t : all_digits s = true -> all_digits t = true -> number (s +:+ t) = number s * 10 ^ Z.of_nat (String.length t) + number t.
Proof. intros A B; unfold number at 1; rewrite (amount_digits_app _ _ _ _ A), (scan_digits_acc _ _ _ B); done. Qed.

Lemma big_of_digits s : all_digits s = true -> s <> "" -> big_of_dec s = Some (number s).
Proof.
  intros A N; destruct s as [ | c s ]; [ done | ]; pose proof A as A'; cbn in A; destruct (digit_value c) eqn:D; [ | done ]; destruct (amount_digit _ _ D) as (_ & E1 & E2 & _).
  unfold big_of_dec, scan_int; rewrite E1, E2, (scan_digits_acc _ 0 0 A'); cbn [Nat.add String.length]; f_equal; lia.
Qed.

(** An amount written in bitcoin with at most eight decimals is read as that
    many satoshis, exactly, whenever it fits. *)
Theorem satoshis_exact w f :
  w <> "" -> all_digits w = true -> all_digits f = true -> (String.length f <= 8)%nat ->
  let sats := number w * 10 ^ 8 + number f * 10 ^ (8 - Z.of_nat (String.length f)) in
  btcToSatoshis (w +:+ "." +:+ f) = if sats <? two63 then Ok sats else Err (TooLarge (w +:+ "." +:+ f)).
Proof.
  intros NE W F L sats; unfold btcToSatoshis.
  rewrite no_space_trimmed by (rewrite !no_space_app, (digits_no_space _ W), (digits_no_space _ F); done).
  assert (exists c t, w = String c t /\ Ascii.eqb "-" c = false /\ Ascii.eqb "+" c = false) as (c & t & -> & M & P).
  { destruct w as [ | c t ]; [ done | ]; cbn in W; destruct (digit_value c) eqn:D; [ | done ]; destruct (amount_digit _ _ D) as (_ & E1 & E2 & _).
    exists c, t; split_and!; [ done | rewrite Ascii.eqb_sym; done .. ]. }
  set (w := String c t) in *; assert (trim_prefix "-" (w +:+ "." +:+ f) = w +:+ "." +:+ f) as T1 by (unfold w, trim_prefix; rewrite sapp_cons; cbn [strip_prefix]; rewrite M; done).
  assert (trim_prefix "+" (w +:+ "." +:+ f) = w +:+ "." +:+ f) as T2 by (unfold w, trim_prefix; rewrite sapp_cons; cbn [strip_prefix]; rewrite P; done).
  assert (has_prefix "-" (w +:+ "." +:+ f) = false) as H1 by (unfold w, has_prefix; rewrite sapp_cons; cbn [strip_prefix]; rewrite M; done).
  assert (String.eqb (w +:+ "." +:+ f) "" = false) as -> by (unfold w; rewrite sapp_cons; done).
  rewrite T1, T2, H1, (cut_dot_digits _ _ W); assert (String.eqb w "" = false) as -> by done.
  replace (8 <? slen f) with false by (unfold slen; lia); destruct (zeros_digits (8 - String.length f)) as (ZD & ZN & ZL).
  assert (all_digits (f +:+ zeros (8 - String.length f)) = true) as FD by (rewrite all_digits_app, F, ZD; done).
  rewrite big_of_digits; [ | rewrite all_digits_app, W, FD; done | unfold w; rewrite sapp_cons; done ].
  rewrite (number_app _ _ W FD), (number_app _ _ F ZD), ZN, slength_app, ZL.
  replace (String.length f + (8 - String.length f))%nat with 8%nat by lia.
  replace (number w * 10 ^ Z.of_nat 8 + (number f * 10 ^ Z.of_nat (8 - String.length f) + 0)) with sats
    by (unfold sats; rewrite Z.add_0_r, Nat2Z.inj_sub by done; reflexivity).
  assert (forall x, all_digits x = true -> 0 <= number x) as NN by (intros x X; exact (scan_digits_nonneg x 0 0 _ _ _ (scan_digits_acc x 0 0 X) ltac:(lia))).
  pose proof (NN w W); pose proof (NN f F); assert (0 <= sats) by (unfold sats; apply Z.add_nonneg_nonneg; apply Z.mul_nonneg_nonneg; lia).
  replace (- two63 <=? sats) with true by (unfold two63; lia); done.
Qed.

Lemma satoshis_exact_witness : btcToSatoshis "21.00000105" = Ok 2100000105.
Proof. exact (satoshis_exact "21" "00000105" ltac:(discriminate) eq_refl eq_refl ltac:(cbn; lia)). Defined.

(** ** What is prepared, and what is relayed *)

Section Spending.
Context {BT : Btcd} {BJ : BitcoindJson} (answer : BitcoinRPC -> option (string * string) -> rpcRequest -> Exchange).
(** the standard scripts are short *)
Context (short : short_scripts Addr payToAddrScript).

(** What the transaction is meant to pay. *)
Definition intended (req : bitcoinPrepareRequest) (change : string) (sel : CoinSelection) : list BitcoinOutput :=
  {| outAddress := prDestination req; outAmount := prAmount req |} ::
  (if ChangeDroppedToFee sel then [] else [ {| outAddress := change; outAmount := Change sel |} ]).

(** Within the bounds of int64 arithmetic, whatever the node lists and charges. *)
Definition bounded (c : BitcoinRPC) (req : bitcoinPrepareRequest) : Prop :=
  forall scan change utxos rate, scanOf req = Ok (scan, change) -> ListUnspentForAddresses answer c scan = Ok utxos -> rateOf answer c req = Ok rate ->
    no_overflow (selectionRequest req utxos rate change).

(** Outputs the node listed for the addresses of the request, deep enough, pay
    the destination its amount, the change address the change, and the fee. *)
Record spend_of (c : BitcoinRPC) (req : bitcoinPrepareRequest) (resp : bitcoinPrepareResponse) (change : string) (params : Params) (tx : UnsignedTx Hash) : Prop := {
  so_listed : exists scan utxos change0, scanOf req = Ok (scan, change0) /\ change = (if String.eqb (prChangeAddress req) "" then change0 else prChangeAddress req) /\
    ListUnspentForAddresses answer c scan = Ok utxos /\ Selected (Selection resp) ⊆+ utxos /\ Addresses resp = scan;
  so_some : Selected (Selection resp) <> [];
  so_deep : Forall (fun u => default 1 (prMinConfirmations req) <= Confirmations u) (Selected (Selection resp));
  so_network : bitcoinNetParams (prNetwork req) = Ok params;
  so_inputs : Forall2 (spends Hash newHashFromStr) (txIns tx) (coinInput <$> Selected (Selection resp));
  so_outputs : Forall2 (pays Addr decodeAddress isForNet payToAddrScript isP2WPKH params) (txOuts tx) (intended req change (Selection resp));
  so_balance : sum_amounts (Selected (Selection resp)) = prAmount req + Change (Selection resp) + Fee (Selection resp);
  so_fee : 0 <= Fee (Selection resp) <= prAmount req + Change (Selection resp);
  so_plan : exists raw, serialize tx = Some raw /\ UnsignedTxHex (Plan_ resp) = hex_encode raw;
  so_scripts : PrevScripts (Plan_ resp) = Script <$> Selected (Selection resp) /\ Amounts (Plan_ resp) = Amount <$> Selected (Selection resp) /\ length (SigHashes (Plan_ resp)) = length (Selected (Selection resp));
}.

Lemma btc_prepare_ok c req resp : handleBitcoinPrepare answer (Some c) (Some req) = (200, Prepared resp) ->
  exists scan change utxos rate, scanOf req = Ok (scan, change) /\ ListUnspentForAddresses answer c scan = Ok utxos /\ rateOf answer c req = Ok rate /\
    SelectCoins Addr decodeAddress isForNet payToAddrScript isP2WPKH (selectionRequest req utxos rate change) = Ok (Selection resp) /\
    PlanBitcoinTransaction Addr decodeAddress isForNet payToAddrScript isP2WPKH Hash newHashFromStr serialize witnessSigHash legacySigHash
      (Request (Selection resp)) = Ok (Plan_ resp) /\ Addresses resp = scan.
Proof.
  unfold handleBitcoinPrepare; destruct (scanOf req) as [ [ scan change ] | | ]; try done; destruct (len scan =? 0); [ done | ].
  destruct (ListUnspentForAddresses answer c scan) as [ utxos | | ] eqn:L; try done; destruct (rateOf answer c req) as [ rate | | ]; try done.
  destruct (SelectCoins _ _ _ _ _ _) as [ sel | | ] eqn:S; try done; destruct (PlanBitcoinTransaction _ _ _ _ _ _ _ _ _ _ _) as [ plan | | ] eqn:P; try done.
  intros [= <-]; cbn; exists scan, change, utxos, rate; split_and!; done.
Qed.

Lemma sum_inputs_coins l : sum_inputs (coinInput <$> l) = sum_amounts l.
Proof. induction l as [ | u l IH ]; [ done | cbn [fmap list_fmap]; rewrite sum_inputs_cons, sum_amounts_cons, IH; done ]. Qed.

Lemma prepare_spends c req resp : bounded c req -> handleBitcoinPrepare answer (Some c) (Some req) = (200, Prepared resp) ->
  exists change params tx, spend_of c req resp change params tx.
Proof.
  intros B H; destruct (btc_prepare_ok c req resp H) as (scan & ch & utxos & rate & SC & LU & RA & SE & PL & AD); pose proof (B _ _ _ _ SC LU RA) as NO.
  destruct (SelectCoins_sound _ _ _ _ _ _ _ short NO SE) as (params & d & cs & HP & HD & HC & OK).
  destruct (planned_ok _ _ _ _ _ _ _ _ _ _ _ _ PL) as (params' & tx & raw & HP' & SR & UH & IN & OUT & LS & PS & AM & _ & FEE).
  rewrite (sel_network _ _ _ _ _ OK) in HP'; cbn in HP, HP'; assert (params' = params) as -> by congruence.
  rewrite (sel_inputs _ _ _ _ _ OK) in IN, LS, PS, AM, FEE; rewrite (sel_outputs _ _ _ _ _ OK) in OUT, FEE.
  pose proof (sel_eligible _ _ _ _ _ OK) as EL; pose proof (sel_total _ _ _ _ _ OK) as TO; pose proof (sel_balance _ _ _ _ _ OK) as BA.
  destruct (selection_inputs_total _ _ _ _ _ NO OK) as [ _ TB ].
  edestruct selection_nonneg as [ F0 C0 ]; [ exact NO | exact OK | exact HC | ]; pose proof (sel_rate _ _ _ _ _ OK) as RT; cbn in BA, RT, EL, F0.
  assert (0 < prAmount req) as A0 by apply NO.
  exists (reqChangeAddress (selectionRequest req utxos rate ch)), params, tx; constructor.
  - exists scan, utxos, ch; split_and!; [ done | done | done | exact (sel_from_wallet _ _ _ _ _ OK) | done ].
  - intros E; rewrite E in TO; cbn in TO; lia.
  - eapply Forall_impl; [ exact EL | ]; intros u (_ & U & _); exact U.
  - done.
  - exact IN.
  - exact OUT.
  - rewrite <- TO; exact BA.
  - split; [ lia | ].
    assert (sum_outputs (intended req (reqChangeAddress (selectionRequest req utxos rate ch)) (Selection resp)) = prAmount req + Change (Selection resp)) as SO.
    { unfold intended; rewrite sum_outputs_cons; cbn [outAmount]; pose proof (sel_change _ _ _ _ _ OK) as Q; destruct (ChangeDroppedToFee _); cbn; lia. }
    change (sum_outputs (_ :: _)) with (sum_outputs (intended req (reqChangeAddress (selectionRequest req utxos rate ch)) (Selection resp))) in FEE.
    rewrite SO, sum_inputs_coins, <- TO in FEE; unfold two63 in FEE.
    assert (Forall (fun x => 0 <= inAmount x) (coinInput <$> Selected (Selection resp))) as NN
      by (clear -EL; induction EL as [ | u l (Ha & _) _ IH ]; constructor; [ cbn; lia | done ]).
    specialize (FEE NN ltac:(lia) ltac:(lia) ltac:(lia)); lia.
  - eauto.
  - rewrite PS, AM, <- !list_fmap_compose; split_and!; [ done | done | rewrite LS, length_fmap; done ].
Qed.

(** A prepared spend takes outputs the node listed for the addresses of the
    request, with the confirmations asked for, and pays the destination exactly
    the amount, the change address the rest less a fee that is never more than
    what is sent. *)
Theorem prepared_pays_request c req resp :
  bounded c req -> handleBitcoinPrepare answer (Some c) (Some req) = (200, Prepared resp) -> exists change params tx, spend_of c req resp change params tx.
Proof. apply prepare_spends. Qed.

(** *** After signing *)

(** Bytes, and what btcd reads back of an unsigned transaction it wrote.  One
    without inputs is left out: its input count reads as the segwit marker. *)
Context (raw_bytes : forall tx raw, serialize tx = Some raw -> bytes_ok raw) (signed_bytes : forall tx raw, serializeTx tx = Some raw -> bytes_ok raw).
Context (wire : forall tx raw, txIns tx <> [] -> serialize tx = Some raw ->
  exists m, deserialize raw = Some m /\ msgOuts m = txOuts tx /\ msgPrev <$> msgIns m = txIns tx).

Lemma hex_no_prefix b : stripHexPrefix (hex_encode b) = hex_encode b.
Proof.
  destruct b as [ | x b ]; [ done | ]; cbn [hex_encode]; unfold stripHexPrefix.
  assert (hex_value (hex_digit (x mod 16)) <> None) as N by (rewrite hex_value_digit; [ done | apply Z.mod_pos_bound; lia ]).
  destruct (Ascii.eqb_spec (hex_digit (x mod 16)) "x") as [ E | ]; [ rewrite E in N; done | ].
  destruct (Ascii.eqb_spec (hex_digit (x mod 16)) "X") as [ E | ]; [ rewrite E in N; done | ]; rewrite andb_false_r; done.
Qed.

(** A signed input spends what it did. *)
Lemma signed_prevs (before after : MsgTx Hash Rest) plan pk sigs :
  length sigs = length (msgIns before) -> length (msgIns after) = length (msgIns before) ->
  (forall k sig, sigs !! k = Some sig -> exists x y, msgIns before !! k = Some x /\ msgIns after !! k = Some y /\
     signed_input Hash derSerialize pushTwo plan pk k sig x y) ->
  msgPrev <$> msgIns after = msgPrev <$> msgIns before.
Proof.
  intros L1 L2 H; apply list_eq; intros k; rewrite !list_lookup_fmap; destruct (decide (k < length sigs)%nat) as [ L | L ].
  - apply lookup_lt_is_Some in L as [ sig S ]; destruct (H _ _ S) as (x & y & -> & -> & r & q & _ & _ & E & _); cbn; congruence.
  - rewrite !lookup_ge_None_2 by lia; done.
Qed.

(** C30.  Within the bounds of int64 arithmetic, what is handed to the node after
    the committee signed a prepared spend takes the same outputs and pays the same
    amounts to the same addresses, and the script engine accepted every one of its
    inputs. *)
Theorem finalized_pays_request c req resp sigs key send r :
  bounded c req -> handleBitcoinPrepare answer (Some c) (Some req) = (200, Prepared resp) ->
  handleBitcoinFinalize answer (Some c) (Some {| fiPlan := Some (Plan_ resp); Signatures := sigs; fiPubKeyHex := key; Broadcast := send |}) = (200, Finalized r) ->
  exists change params tx after raw, spend_of c req resp change params tx /\ serializeTx after = Some raw /\ RawTxHex r = hex_encode raw /\
    Forall2 (spends Hash newHashFromStr) (msgPrev <$> msgIns after) (coinInput <$> Selected (Selection resp)) /\
    Forall2 (pays Addr decodeAddress isForNet payToAddrScript isP2WPKH params) (msgOuts after) (intended req change (Selection resp)) /\
    (forall k u, Selected (Selection resp) !! k = Some u -> exists script, hex_decode (Script u) = Some script /\
       runEngine script after (Z.of_nat k) (Amount u) = Some true) /\
    (wasBroadcast r = true -> SendRawTransaction answer c (RawTxHex r) = Ok (BroadcastID r)).
Proof.
  intros B P F; destruct (prepare_spends c req resp B P) as (change & params & tx & SP); pose proof (so_plan _ _ _ _ _ _ SP) as (raw0 & SR & UH).
  assert (txIns tx <> []) as NE by (pose proof (so_inputs _ _ _ _ _ _ SP) as SI; intros E; rewrite E in SI; apply Forall2_nil_inv_l, fmap_nil_inv in SI; exact (so_some _ _ _ _ _ _ SP SI)).
  destruct (wire _ _ NE SR) as (m & DE & OU & IN); unfold handleBitcoinFinalize in F; cbn [fiPlan Signatures fiPubKeyHex Broadcast] in F.
  destruct (AssembleBitcoinTransaction _ _ _ _ _ _ _ _ _ _ _ _ _) as [ raw | | ] eqn:A; try done.
  destruct (assembled_ok _ _ _ _ _ _ _ _ _ _ _ _ _ _ A) as (pk & rawPub & rawTx & before & after & _ & _ & HX & DB & ST & _ & L1 & O2 & _ & L2 & SI & EN).
  rewrite UH, (hex_decode_encode _ (raw_bytes _ _ SR)) in HX; injection HX as <-; assert (before = m) as -> by congruence.
  exists change, params, tx, after, raw; destruct (BitcoinTxID raw) as [ txid | ]; [ | done ].
  assert (RawTxHex r = hex_encode raw /\ (wasBroadcast r = true -> SendRawTransaction answer c (RawTxHex r) = Ok (BroadcastID r))) as [ R1 R2 ].
  { destruct send; cbn [negb] in F; [ | injection F as <-; done ]; unfold BroadcastTransaction in F; cbn [RawTxHex] in F.
    rewrite hex_no_prefix, (hex_decode_encode _ (signed_bytes _ _ ST)) in F.
    destruct (SendRawTransaction answer c (hex_encode raw)) as [ id | | ] eqn:SE; cbn in F; try done; injection F as <-; cbn; done. }
  split_and!; [ done | done | done | | rewrite O2, OU; exact (so_outputs _ _ _ _ _ _ SP) | | done ].
  - rewrite (signed_prevs _ _ _ _ _ L1 L2 SI), IN; exact (so_inputs _ _ _ _ _ _ SP).
  - intros k u U; destruct (so_scripts _ _ _ _ _ _ SP) as (PS & AM & _); destruct (EN k (Script u)) as (script & HS & RE).
    { rewrite PS, list_lookup_fmap, U; done. }
    exists script; split; [ done | ]; rewrite AM, list_lookup_fmap, U in RE; exact RE.
Qed.
End Spending.

(** ** A node and a library *)

Module Simple.
#[local] Instance txin_dec : EqDecision (TxIn string).
Proof. solve_decision. Defined.
#[local] Instance txout_dec : EqDecision TxOut.
Proof. solve_decision. Defined.
#[local] Instance unsigned_dec : EqDecision (UnsignedTx string).
Proof. solve_decision. Defined.

Definition known : UnsignedTx string :=
  {| txIns := [ {| prevHash := "aa"; prevIndex := 1 |} ];
     txOuts := [ {| outValue := 100000; pkScript := sampleScript |}; {| outValue := 99577; pkScript := sampleScript |} ] |}.
Definition read : MsgTx string unit :=
  {| msgIns := (fun i => {| msgPrev := i; SignatureScript := []; TxWitness := [] |}) <$> txIns known; msgOuts := txOuts known; msgRest := tt |}.

#[export] Instance library : Btcd := {
  Addr := string; Hash := string; Rest := unit; PubKey := bytes;
  decodeAddress := sampleDecode; isForNet _ _ := true; payToAddrScript := samplePay; isP2WPKH := sampleP2WPKH;
  newHashFromStr := Some; serialize tx := if decide (tx = known) then Some [ 1 ] else None;
  witnessSigHash _ _ i _ := Some [ i ]; legacySigHash _ _ i := Some [ i ];
  parsePubKey := Some; serializeCompressed := id; deserialize raw := if decide (raw = [ 1 ] \/ raw = [ 3 ]) then Some read else None;
  serializeTx _ := Some [ 3 ]; derSerialize r s := [ r; s ]; pushTwo a b := Some (a ++ b); runEngine _ _ _ _ := Some true;
  hash160 := id; witnessAddress _ _ := Some "segwit"; pubKeyHashAddress _ _ := Some "legacy"; txHash _ := "id";
}.

#[export] Instance json : BitcoindJson := {
  parseScan _ := Some {| Success := true; scanHeight := 100;
    Unspents := [ {| unTxid := "aa"; unVout := 1; unScript := hex_encode sampleScript; unAmount := "0.00200000"; unHeight := 95 |} ] |};
  parseText := Some; parseFee := Some; parseHeight _ := Some 100;
}.
Definition answer (c : BitcoinRPC) (auth : option (string * string)) (r : rpcRequest) : Exchange := Answered None "relayed".
Definition node : BitcoinRPC := {| rpcURL := "http://node"; rpcUser := "u"; rpcPass := "p" |}.
Definition ask : bitcoinPrepareRequest :=
  {| prNetwork := "regtest"; prPubKeyHex := "02ff"; prAddress := ""; prDestination := "dest"; prAmount := 100000; prFeeRate := 3; prChangeAddress := "";
     prMinConfirmations := None; prConfirmationTarget := 0 |}.
Definition prepared : bitcoinPrepareResponse :=
  match handleBitcoinPrepare answer (Some node) (Some ask) with
  | (_, Prepared r) => r
  | _ => {| Selection := buildSelection (selectionRequest ask [] 0 "") [] 0 0 0 0 false;
            Plan_ := {| UnsignedTxHex := ""; SigHashes := []; PrevScripts := []; Witness := []; Amounts := [] |}; Balance := 0; UTXOs := 0; Addresses := [] |}
  end.

Lemma bounded_ask : bounded answer node ask.
Proof.
  intros scan change utxos rate S L R; vm_compute in S; injection S as <- <-; vm_compute in L; injection L as <-; vm_compute in R; injection R as <-.
  split_and!; vm_compute; done.
Qed.
Lemma prepare_ask : handleBitcoinPrepare answer (Some node) (Some ask) = (200, Prepared prepared).
Proof. vm_compute; reflexivity. Qed.

Lemma prepared_pays_request_witness :
  Change (Selection prepared) = 99577 /\ exists change params tx, spend_of answer node ask prepared change params tx.
Proof. split; [ vm_compute; reflexivity | exact (prepared_pays_request (BT := library) answer samplePay_short node ask prepared bounded_ask prepare_ask) ]. Defined.

Lemma finalized_pays_request_witness :
  exists r, RawTxHex r = "03" /\ wasBroadcast r = true /\ exists change params tx after raw, spend_of answer node ask prepared change params tx /\ serializeTx after = Some raw /\
    RawTxHex r = hex_encode raw /\
    Forall2 (spends Hash newHashFromStr) (msgPrev <$> msgIns after) (coinInput <$> Selected (Selection prepared)) /\
    Forall2 (pays Addr decodeAddress isForNet payToAddrScript isP2WPKH params) (msgOuts after) (intended ask change (Selection prepared)) /\
    (forall k u, Selected (Selection prepared) !! k = Some u -> exists script, hex_decode (Script u) = Some script /\
       runEngine script after (Z.of_nat k) (Amount u) = Some true) /\
    (wasBroadcast r = true -> SendRawTransaction answer node (RawTxHex r) = Ok (BroadcastID r)).
Proof.
  exists {| RawTxHex := "03"; TxID := "id"; wasBroadcast := true; BroadcastID := "relayed" |}; split; [ reflexivity | split; [ reflexivity | ] ].
  apply (finalized_pays_request (BT := library) answer samplePay_short) with (sigs := [ {| sigR := "05"; sigS := "07" |} ]) (key := "02ff") (send := true).
  - intros tx raw Q; change ((if decide (tx = known) then Some [ 1 ] else None) = Some raw) in Q; destruct (decide (tx = known)); [ injection Q as <-; apply Forall_singleton; unfold byte_ok; lia | discriminate Q ].
  - intros tx raw E; cbn in E; injection E as <-; apply Forall_singleton; unfold byte_ok; lia.
  - intros tx raw _ Q; change ((if decide (tx = known) then Some [ 1 ] else None) = Some raw) in Q; destruct (decide (tx = known)) as [ -> | ]; [ injection Q as <- | discriminate Q ]; exists read; done.
  - exact bounded_ask.
  - exact prepare_ask.
  - vm_compute; reflexivity.
Defined.

(** The plan comes back from the caller: with no scripts in it, the engine is
    asked about no input. *)
Lemma plan_without_scripts_is_unchecked :
  AssembleBitcoinTransaction string unit bytes Some id (fun _ => Some read) (fun _ => Some [ 3 ]) (fun r s => [ r; s ]) (fun a b => Some (a ++ b))
    (fun _ _ _ _ => Some false)
    (Some {| UnsignedTxHex := "01"; SigHashes := [ "00" ]; PrevScripts := []; Witness := [ true ]; Amounts := [] |})
    [ {| sigR := "05"; sigS := "07" |} ] "02ff" = Ok [ 3 ].
Proof. vm_compute; reflexivity. Qed.

(** Change goes to the key's segwit address, not to the address that was given. *)
Lemma change_leaves_given_address :
  scanOf {| prNetwork := "regtest"; prPubKeyHex := "02ff"; prAddress := "given"; prDestination := "dest"; prAmount := 1; prFeeRate := 1; prChangeAddress := "";
    prMinConfirmations := None; prConfirmationTarget := 0 |} = Ok ([ "given" ], "segwit").
Proof. reflexivity. Qed.
End Simple.
End BitcoinService.
