(* ===== verification/KeySigner.v ===== *)
(** * Where a signing key is held

    Models [services/mpc-signer/keys]: [keys.go] (the interface of a signer, the
    software key and the normalisation of a bare signature) and
    [pkcs11_config.go].  [Hsm.v] models the key in a hardware module.

    A signer is a [KeySigner], the Go interface; what it promises is the class
    [Signs], and clients are proved against it.  btcec is the class [Secp]. *)

From Stdlib Require Import ZArith Lia Ascii String.
From stdpp Require Import base list numbers strings.
From S2P Require Import Prelude GoStrings GoText EthCrypto.

Open Scope Z_scope.

Module KeySigner.
Import EthCrypto.

(** btcec, its scalars and Keccak. *)
Class Secp := {
  (** [ParsePubKey], the coordinates of the point *)
  parsePubKey : bytes -> option (Z * Z);
  (** [ModNScalar.SetByteSlice], its value and whether it overflowed *)
  setByteSlice : bytes -> Z * bool;
  isOverHalfOrder : Z -> bool;
  negate : Z -> Z;
  scalarBytes : Z -> bytes;
  verifies : Z -> Z -> bytes -> Z * Z -> bool;
  signCompact : Z -> bytes -> bytes;
  recoverCompact : bytes -> bytes -> option (Z * Z);
  scalarBaseMult : bytes -> Z * Z;
  keccak : bytes -> bytes
}.

(** What is documented of the scalars: integers modulo the order of the group,
    loaded from and written as 32 bytes. *)
Class SecpScalars (SP : Secp) : Prop := {
  load_spec b : len b = 32 -> bytes_ok b -> setByteSlice b = (be_val b mod curveN, curveN <=? be_val b);
  half_spec v : isOverHalfOrder v = (curveN / 2 <? v);
  negate_spec v : negate v = (curveN - v) mod curveN;
  bytes_spec v : 0 <= v < curveN -> len (scalarBytes v) = 32 /\ bytes_ok (scalarBytes v) /\ be_val (scalarBytes v) = v;
  recover_range c d x y : recoverCompact c d = Some (x, y) -> 0 <= x < 256 ^ 32 /\ 0 <= y < 256 ^ 32
}.

(** What is documented of [SignCompact]: a canonical signature that recovers to
    the key, and verifies under it.  (The recovery id is below two when the
    abscissa of the nonce is below the order, which it is but for one in 2^127.) *)
Class SecpSigning (SP : Secp) : Prop := {
  base_range d : let '(x, y) := scalarBaseMult d in 0 <= x < 256 ^ 32 /\ 0 <= y < 256 ^ 32;
  parse_marshal d m : MarshalPubkey (fst (scalarBaseMult d)) (snd (scalarBaseMult d)) = Ok m -> parsePubKey m = Some (scalarBaseMult d);
  sign_spec d digest : 0 < d < curveN -> len digest = 32 -> exists v r s,
    signCompact d digest = (27 + v) :: r ++ s /\ (v = 0 \/ v = 1) /\ len r = 32 /\ len s = 32 /\ bytes_ok r /\ bytes_ok s /\
    be_val r < curveN /\ 0 < be_val s <= curveN / 2 /\
    recoverCompact ((27 + v) :: r ++ s) digest = Some (scalarBaseMult (big_bytes d)) /\
    verifies (be_val r) (be_val s) digest (scalarBaseMult (big_bytes d)) = true
}.

Inductive KeyErr : Type :=
| PublicKeyShape (n : Z) | NotOnCurve | InvalidPrivateKey (e : CryptoErr) | Crypto (e : CryptoErr)
| DigestSize (n : Z) | BareSize (n : Z) | BadR | BadS | NotVerified | OtherKey.

(** ** The interface *)

(** [SignDigest] may change the state of the signer (a session is reopened). *)
Record KeySigner (St E : Type) := {
  PublicKey : St -> bytes;
  SignDigest : St -> bytes -> St * result E bytes;
  Describe : St -> string
}.
Arguments PublicKey {_ _}.
Arguments SignDigest {_ _}.
Arguments Describe {_ _}.

Section Keys.
Context {SP : Secp}.

Definition verifySignature : bytes -> bytes -> bytes -> bool := VerifySignature (Z * Z) parsePubKey setByteSlice isOverHalfOrder verifies.

Definition coordinates (pub : bytes) : result KeyErr (Z * Z) :=
  refuse! negb (len pub =? 65) || negb (bool_decide (head pub = Some 4)) with PublicKeyShape (len pub);
  match parsePubKey pub with
  | None => Err NotOnCurve
  | Some p => Ok p
  end.

(** [Address(k)] and [CompressedPublicKey(k)], of the public key [k] reports. *)
Definition AddressOf (pub : bytes) : result KeyErr string :=
  let! p := coordinates pub in map_err Crypto (Address keccak (fst p) (snd p)).

Definition CompressedPublicKey (pub : bytes) : result KeyErr bytes :=
  let! p := coordinates pub in map_err Crypto (CompressPubkey (fst p) (snd p)).

(** ** The software key *)

Record RawKeySigner := { priv : PrivateKey; pub : bytes }.

Definition NewRawKeySigner (k : PrivateKey) : result KeyErr RawKeySigner :=
  let! m := map_err Crypto (MarshalPubkey (privX k) (privY k)) in
  Ok {| priv := k; pub := m |}.

Definition RawKeySignerFromHex (privKeyHex : string) : result KeyErr RawKeySigner :=
  let! k := map_err InvalidPrivateKey (HexToECDSA scalarBaseMult (trim_prefix "0X" (trim_prefix "0x" privKeyHex))) in
  NewRawKeySigner k.

Definition rawKeySigner : KeySigner RawKeySigner KeyErr := {|
  PublicKey r := pub r;
  SignDigest r digest := (r, map_err Crypto (Sign signCompact digest (priv r)));
  Describe _ := "software key in process memory"
|}.

(** ** Normalising a bare signature *)

(** One turn of the loop: [None] goes on to the next recovery id. *)
Definition tryRecovery (digest rs expectedPub : bytes) (v : Z) : result KeyErr (option bytes) :=
  match SigToPub recoverCompact digest (rs ++ [ v ]) with
  | Err _ => Ok None
  | Panic => Panic
  | Ok p =>
      let! m := map_err Crypto (MarshalPubkey (fst p) (snd p)) in
      if bool_decide (m = expectedPub) then
        check! verifySignature expectedPub digest rs else NotVerified;
        Ok (Some (rs ++ [ v ]))
      else Ok None
  end.

Definition RecoverableSignature (digest rs expectedPub : bytes) : result KeyErr bytes :=
  refuse! negb (len digest =? 32) with DigestSize (len digest);
  refuse! negb (len rs =? 64) with BareSize (len rs);
  let '(r, overflow_r) := setByteSlice (take 32 rs) in
  refuse! overflow_r || (r =? 0) with BadR;
  let '(s, overflow_s) := setByteSlice (drop 32 rs) in
  refuse! overflow_s || (s =? 0) with BadS;
  let s := if isOverHalfOrder s then negate s else s in
  let sig := take 32 (scalarBytes r) ++ take 32 (scalarBytes s) in
  let! found := tryRecovery digest sig expectedPub 0 in
  match found with
  | Some sig => Ok sig
  | None =>
      let! found := tryRecovery digest sig expectedPub 1 in
      match found with
      | Some sig => Ok sig
      | None => Err OtherKey
      end
  end.

(** ** What a signer promises *)

(** [sig] is [R || S || V] over [digest], recovers to [pub] and verifies under
    it, with S in the lower half of the group and V zero or one. *)
Record signature_of (pub digest sig : bytes) : Prop := {
  sig_digest : len digest = 32;
  sig_len : len sig = 65;
  sig_bytes : bytes_ok sig;
  sig_low : 0 < be_val (take 32 (drop 32 sig)) <= curveN / 2;
  sig_v : exists v, sig !! 64%nat = Some v /\ (v = 0 \/ v = 1);
  sig_recovers : exists x y, SigToPub recoverCompact digest sig = Ok (x, y) /\ MarshalPubkey x y = Ok pub;
  sig_verifies : verifySignature pub digest (take 64 sig) = true
}.

(** The contract of the interface: a signature is one by the key the signer
    reported, and it goes on reporting that key. *)
Class Signs {St E} (K : KeySigner St E) (ok : St -> Prop) : Prop := {
  signs s digest s' sig : ok s -> SignDigest K s digest = (s', Ok sig) -> signature_of (PublicKey K s) digest sig /\ PublicKey K s' = PublicKey K s /\ ok s'
}.
End Keys.

(** ** PKCS11Config *)

Record PKCS11Config := { Library : string; TokenLabel : string; Slot : Z; HasSlot : bool; PIN : string; KeyLabel : string }.

Definition EnvPKCS11Library : string := "HSM_PKCS11_LIBRARY".
Definition EnvPKCS11TokenLabel : string := "HSM_PKCS11_TOKEN_LABEL".
Definition EnvPKCS11Slot : string := "HSM_PKCS11_SLOT".
Definition EnvPKCS11PIN : string := "HSM_PKCS11_PIN".
Definition EnvPKCS11KeyLabel : string := "HSM_PKCS11_KEY_LABEL".

Inductive ConfigErr : Type := NotASlot (s : string) | Partly (missing : list string) | BothGiven.

Definition isEmpty (s : string) : bool := String.eqb s EmptyString.

Definition PKCS11ConfigFromEnv (getenv : string -> string) : result ConfigErr (option PKCS11Config) :=
  let get k := trim_space (getenv k) in
  let library := get EnvPKCS11Library in
  let tokenLabel := get EnvPKCS11TokenLabel in
  let pin := getenv EnvPKCS11PIN in
  let keyLabel := get EnvPKCS11KeyLabel in
  let slot := get EnvPKCS11Slot in
  if isEmpty library && isEmpty tokenLabel && isEmpty slot && isEmpty pin && isEmpty keyLabel then Ok None
  else
    let! given :=
      (if isEmpty slot then Ok (0, false)
       else match parse_uint slot with None => Err (NotASlot slot) | Some n => Ok (n, true) end) in
    let missing :=
      (if isEmpty library then [ EnvPKCS11Library ] else []) ++
      (if isEmpty tokenLabel && negb (snd given) then [ EnvPKCS11TokenLabel +:+ " (or " +:+ EnvPKCS11Slot +:+ ")" ] else []) ++
      (if isEmpty pin then [ EnvPKCS11PIN ] else []) ++
      (if isEmpty keyLabel then [ EnvPKCS11KeyLabel ] else []) in
    refuse! 0 <? len missing with Partly missing;
    refuse! negb (isEmpty tokenLabel) && snd given with BothGiven;
    Ok (Some {| Library := library; TokenLabel := tokenLabel; Slot := fst given; HasSlot := snd given; PIN := pin; KeyLabel := keyLabel |}).

(** ** Lemmas *)

Section Normalising.
Context {SP : Secp} {SL : SecpScalars SP}.

Lemma halves (rs : bytes) : len rs = 64 -> bytes_ok rs -> (len (take 32 rs) = 32 /\ bytes_ok (take 32 rs)) /\ (len (drop 32 rs) = 32 /\ bytes_ok (drop 32 rs)).
Proof.
  unfold len; intros L O; rewrite length_take, length_drop; split; (split; [ lia | ]); [ apply Forall_take | apply Forall_drop ]; done.
Qed.

(** The scalar that is written: the one that was read, or its negation. *)
Definition lowS (s : Z) : Z := if isOverHalfOrder s then negate s else s.

Lemma lowS_low s : 0 < s < curveN -> 0 < lowS s <= curveN / 2 /\ (lowS s = s \/ lowS s = curveN - s).
Proof.
  intros H; unfold lowS; rewrite half_spec; destruct (curveN / 2 <? s) eqn:C; b2p.
  - rewrite negate_spec, Z.mod_small by lia; assert (curveN = 2 * (curveN / 2) + 1) by reflexivity; lia.
  - lia.
Qed.

(** The bytes the loop tries. *)
Definition normal (rs : bytes) : bytes :=
  scalarBytes (be_val (take 32 rs)) ++ scalarBytes (lowS (be_val (drop 32 rs))).

Definition readable (rs : bytes) : Prop := len rs = 64 /\ 0 < be_val (take 32 rs) < curveN /\ 0 < be_val (drop 32 rs) < curveN.

Lemma take32 v : 0 <= v < curveN -> take 32 (scalarBytes v) = scalarBytes v.
Proof. intros H; destruct (bytes_spec v H) as (L & _ & _); apply take_ge; unfold len in L; lia. Qed.

Lemma normal_shape rs : readable rs -> len (normal rs) = 64 /\ take 32 (normal rs) = scalarBytes (be_val (take 32 rs)) /\ drop 32 (normal rs) = scalarBytes (lowS (be_val (drop 32 rs))).
Proof.
  intros (L & R & S); destruct (lowS_low _ S) as [ W _ ]; assert (curveN = 2 * (curveN / 2) + 1) as E by reflexivity.
  destruct (bytes_spec (be_val (take 32 rs))) as (Lr & _ & _); [ lia | ].
  destruct (bytes_spec (lowS (be_val (drop 32 rs)))) as (Ls & _ & _); [ lia | ].
  unfold normal; rewrite len_app, Lr, Ls; split; [ done | ].
  rewrite take_app_length', drop_app_length' by (unfold len in Lr; lia); done.
Qed.

Lemma RecoverableSignature_eq digest rs expected : bytes_ok rs -> len digest = 32 -> readable rs ->
  RecoverableSignature digest rs expected =
    (let! found := tryRecovery digest (normal rs) expected 0 in
     match found with Some sig => Ok sig | None =>
       let! found := tryRecovery digest (normal rs) expected 1 in
       match found with Some sig => Ok sig | None => Err OtherKey end end).
Proof.
  intros O D (L & R & S); destruct (halves rs L O) as [ [ Lr Or ] [ Ls Os ] ].
  unfold RecoverableSignature; rewrite D, L, !load_spec by done; cbn [negb Z.eqb Pos.eqb].
  rewrite !Z.mod_small by lia.
  replace ((curveN <=? be_val (take 32 rs)) || (be_val (take 32 rs) =? 0)) with false by lia.
  replace ((curveN <=? be_val (drop 32 rs)) || (be_val (drop 32 rs) =? 0)) with false by lia.
  fold (lowS (be_val (drop 32 rs))); destruct (lowS_low _ S) as [ W _ ].
  assert (curveN = 2 * (curveN / 2) + 1) as E by reflexivity.
  rewrite !take32 by lia; reflexivity.
Qed.

Lemma RecoverableSignature_reads digest rs expected sig : bytes_ok rs ->
  RecoverableSignature digest rs expected = Ok sig -> len digest = 32 /\ readable rs.
Proof.
  intros O H; unfold RecoverableSignature in H.
  destruct (negb (len digest =? 32)) eqn:D; [ done | ]; destruct (negb (len rs =? 64)) eqn:L; [ done | ]; b2p.
  destruct (halves rs L O) as [ [ Lr Or ] [ Ls Os ] ]; rewrite !load_spec in H by done.
  pose proof (be_val_bound _ Or); pose proof (be_val_bound _ Os).
  destruct (_ || _) eqn:A in H; [ done | ]; destruct (_ || _) eqn:B in H; [ done | ]; clear H; b2p.
  rewrite !Z.mod_small in * by lia; split; [ done | ]; repeat split; try done; lia.
Qed.

Lemma tryRecovery_some digest rs expected v sig : v = 0 \/ v = 1 -> len rs = 64 ->
  tryRecovery digest rs expected v = Ok (Some sig) ->
  sig = rs ++ [ v ] /\ (exists x y, SigToPub recoverCompact digest sig = Ok (x, y) /\ MarshalPubkey x y = Ok expected) /\ verifySignature expected digest (take 64 sig) = true.
Proof.
  unfold tryRecovery; intros V L H.
  destruct (SigToPub recoverCompact digest (rs ++ [ v ])) as [ [ x y ] | e | ] eqn:E; try done.
  destruct (MarshalPubkey (fst (x, y)) (snd (x, y))) as [ m | e | ] eqn:M; try done; cbn in H, M.
  destruct (bool_decide (m = expected)) eqn:Q; [ | done ]; apply bool_decide_eq_true in Q as ->.
  destruct (verifySignature expected digest rs) eqn:W; [ | done ]; injection H as <-.
  split; [ done | split; [ by exists x, y | ] ].
  assert (64%nat = length rs) as -> by (unfold len in L; lia); rewrite take_app_length; done.
Qed.

(** What is returned is a signature by the expected key, of the same R and of
    S or its negation. *)
Lemma recoverable_sound digest rs expected sig : bytes_ok rs -> RecoverableSignature digest rs expected = Ok sig ->
  signature_of expected digest sig /\ be_val (take 32 sig) = be_val (take 32 rs) /\
  (be_val (take 32 (drop 32 sig)) = be_val (drop 32 rs) \/ be_val (take 32 (drop 32 sig)) = curveN - be_val (drop 32 rs)).
Proof.
  intros O H; destruct (RecoverableSignature_reads _ _ _ _ O H) as [ D R ].
  destruct (normal_shape rs R) as (L & T & W); rewrite RecoverableSignature_eq in H by done.
  assert (exists v, (v = 0 \/ v = 1) /\ tryRecovery digest (normal rs) expected v = Ok (Some sig)) as (v & V & F).
  { destruct (tryRecovery digest (normal rs) expected 0) as [ [ s0 | ] | e | ] eqn:E0; try done; cbn in H.
    - injection H as ->; exists 0; auto.
    - destruct (tryRecovery digest (normal rs) expected 1) as [ [ s1 | ] | e | ] eqn:E1; try done; cbn in H.
      injection H as ->; exists 1; auto. }
  destruct (tryRecovery_some _ _ _ _ _ V L F) as (-> & Rec & Ver).
  destruct R as (L0 & R & S); destruct (lowS_low _ S) as [ Low Which ].
  assert (curveN = 2 * (curveN / 2) + 1) as E by reflexivity.
  destruct (bytes_spec (be_val (take 32 rs))) as (_ & Or & Vr); [ lia | ].
  destruct (bytes_spec (lowS (be_val (drop 32 rs)))) as (_ & Os & Vs); [ lia | ].
  assert (length (normal rs) = 64%nat) as Ln by (unfold len in L; lia).
  assert (take 32 (normal rs ++ [ v ]) = take 32 (normal rs)) as T' by (apply take_app_le; lia).
  assert (take 32 (drop 32 (normal rs ++ [ v ])) = drop 32 (normal rs)) as W'.
  { rewrite drop_app_le, take_app_le by (rewrite ?length_drop; lia); apply take_ge; rewrite length_drop; lia. }
  rewrite T', W', T, W, Vr, Vs; split; [ | auto ]; constructor; try done.
  - rewrite len_app, L; done.
  - apply Forall_app; split; [ apply Forall_app; done | constructor; [ unfold byte_ok; lia | constructor ] ].
  - rewrite W', W, Vs; done.
  - exists v; split; [ rewrite lookup_app_r, Ln by lia; done | done ].
Qed.

Lemma SigToPub_total digest rs v : len digest = 32 -> len rs = 64 -> v = 0 \/ v = 1 ->
  SigToPub recoverCompact digest (rs ++ [ v ]) = match recoverCompact (u8 (v + 27) :: rs) digest with None => Err RecoverFailed | Some p => Ok p end.
Proof.
  intros D L V; unfold SigToPub; rewrite D.
  assert (len (rs ++ [ v ]) = 65) as L' by (rewrite len_app, L; done); rewrite L'; cbn [negb Z.eqb Pos.eqb SignatureLength].
  assert (index (E := CryptoErr) (rs ++ [ v ]) 64 = Ok v) as ->.
  { unfold index; cbn [Z.leb Z.compare]; rewrite lookup_app_r by (unfold len in L; lia).
    replace (Z.to_nat 64 - length rs)%nat with 0%nat by (unfold len in L; lia); done. }
  assert (slice (E := CryptoErr) (rs ++ [ v ]) 0 64 = Ok rs) as ->.
  { apply (slice_app [] rs [ v ]); [ done | rewrite L; done ]. }
  cbn [result_bind]; replace (recoveryId v) with v by (destruct V as [ -> | -> ]; reflexivity).
  replace (1 <? v) with false by lia; done.
Qed.

Lemma tryRecovery_total digest rs expected v : len digest = 32 -> len rs = 64 -> v = 0 \/ v = 1 ->
  verifySignature expected digest rs = true -> exists r, tryRecovery digest rs expected v = Ok r.
Proof.
  intros D L V W; unfold tryRecovery; rewrite SigToPub_total by done.
  destruct (recoverCompact _ digest) as [ [ x y ] | ] eqn:E; [ | eauto ].
  apply recover_range in E as [ X Y ]; destruct (MarshalPubkey_fits x y X Y) as [ m M ]; cbn [fst snd]; rewrite M; cbn [map_err result_bind].
  rewrite W; destruct (bool_decide _); eauto.
Qed.

(** A bare signature whose low form recovers to the expected key, and verifies,
    is normalised. *)
Lemma recoverable_complete digest rs expected v x y : bytes_ok rs -> len digest = 32 -> readable rs -> v = 0 \/ v = 1 ->
  SigToPub recoverCompact digest (normal rs ++ [ v ]) = Ok (x, y) -> MarshalPubkey x y = Ok expected ->
  verifySignature expected digest (normal rs) = true ->
  exists sig, RecoverableSignature digest rs expected = Ok sig.
Proof.
  intros O D R V Q M W; rewrite RecoverableSignature_eq by done; destruct (normal_shape rs R) as (L & _ & _).
  pose proof (tryRecovery_total digest (normal rs) expected 0 D L (or_introl eq_refl) W) as P0.
  assert (tryRecovery digest (normal rs) expected v = Ok (Some (normal rs ++ [ v ]))) as F.
  { unfold tryRecovery; rewrite Q; cbn [fst snd]; rewrite M; cbn [map_err result_bind].
    rewrite bool_decide_eq_true_2, W by done; done. }
  destruct P0 as [ [ s0 | ] E0 ]; rewrite E0; cbn [result_bind]; [ eauto | ].
  destruct V as [ -> | -> ]; [ congruence | ]; rewrite F; cbn; eauto.
Qed.

(** What normalising a bare signature answers is a signature by the expected
    key, with the same R and with S or its negation, the lower of the two; and
    every bare signature whose low form recovers to the key is normalised. *)
Theorem bare_signature_normalised digest rs expected : bytes_ok rs ->
  (forall sig, RecoverableSignature digest rs expected = Ok sig ->
     signature_of expected digest sig /\ be_val (take 32 sig) = be_val (take 32 rs) /\
     (be_val (take 32 (drop 32 sig)) = be_val (drop 32 rs) \/ be_val (take 32 (drop 32 sig)) = curveN - be_val (drop 32 rs))) /\
  (forall v x y, len digest = 32 -> readable rs -> v = 0 \/ v = 1 ->
     SigToPub recoverCompact digest (normal rs ++ [ v ]) = Ok (x, y) -> MarshalPubkey x y = Ok expected ->
     verifySignature expected digest (normal rs) = true -> exists sig, RecoverableSignature digest rs expected = Ok sig).
Proof.
  intros O; split; [ intros sig; apply recoverable_sound; done | intros v x y D R V; apply recoverable_complete; done ].
Qed.
End Normalising.

(** ** The software key keeps the promise *)

Section Software.
Context {SP : Secp} {SL : SecpScalars SP} {SG : SecpSigning SP}.

(** A signer made of a private key. *)
Definition made (r : RawKeySigner) : Prop :=
  exists d, 0 < d < curveN /\ priv r = privFromD scalarBaseMult d /\ NewRawKeySigner (priv r) = Ok r.

Lemma from_hex_made h r : RawKeySignerFromHex h = Ok r -> made r.
Proof.
  unfold RawKeySignerFromHex, HexToECDSA; intros H.
  destruct (hex_decode _) as [ raw | ] eqn:X; [ | done ]; apply hex_decode_spec in X as [ O _ ].
  destruct (negb (len raw =? 32)); [ done | ]; destruct (_ || _) eqn:R in H; [ done | ]; cbn [map_err result_bind] in H; b2p.
  pose proof (be_val_bound raw O); exists (be_val raw); split; [ lia | ].
  assert (priv r = privFromD scalarBaseMult (be_val raw)) as E; [ | rewrite E; done ].
  unfold NewRawKeySigner in H; destruct (MarshalPubkey _ _); cbn in H; try done; injection H as <-; done.
Qed.

#[export] Instance raw_signs : Signs rawKeySigner made.
Proof.
  constructor; intros r digest r' sig (d & D & P & N) H; cbn in H; injection H as -> H; split; [ | split; [ done | by exists d ] ].
  unfold NewRawKeySigner in N; rewrite P in N; unfold privFromD in N, P.
  destruct (scalarBaseMult (big_bytes d)) as [ x y ] eqn:B; cbn [privX privY] in N.
  destruct (MarshalPubkey x y) as [ m | e | ] eqn:M; try done; cbn in N; injection N as N.
  assert (pub r' = m) as Pub by (rewrite <- N; done); rewrite P in H; clear N P; cbn [PublicKey rawKeySigner]; rewrite Pub.
  unfold Sign in H; destruct (negb (len digest =? 32)) eqn:L; [ done | ]; b2p; cbn [privD] in H.
  destruct (fill_bytes_fits (E := CryptoErr) 32 d) as [ k K ]; [ unfold curveN in D; lia | ].
  rewrite K in H; destruct (fill32 d k) as (Lk & Vk & _); [ lia | done | ]; cbn [result_bind] in H; rewrite Vk in H.
  destruct (sign_spec d digest D L) as (v & r & s & E & V & Lr & Ls & Or & Os & Br & Bs & Rec & Ver).
  rewrite E in H; assert (len (27 + v :: r ++ s) = 65) as L65 by (rewrite len_cons, len_app; lia).
  rewrite L65 in H; cbn [negb Z.eqb Pos.eqb SignatureLength] in H.
  assert (slice (E := CryptoErr) (27 + v :: r ++ s) 1 65 = Ok (r ++ s)) as Sl.
  { rewrite <- (app_nil_r (r ++ s)) at 1; apply (slice_app [ 27 + v ] (r ++ s) []); [ done | rewrite len_app, Lr, Ls; done ]. }
  rewrite Sl, index_0 in H; cbn [result_bind map_err] in H; injection H as <-.
  replace (27 + v - 27) with v by lia; rewrite u8_id by lia.
  assert (len (r ++ s) = 64) as Lrs by (rewrite len_app; lia).
  assert (take 32 (r ++ s) = r /\ drop 32 (r ++ s) = s) as [ Tr Ds ].
  { rewrite take_app_length', drop_app_length' by (unfold len in Lr; lia); done. }
  constructor; try done.
  - rewrite len_app, Lrs; done.
  - apply Forall_app; split; [ apply Forall_app; done | constructor; [ unfold byte_ok; lia | constructor ] ].
  - rewrite <- app_assoc, drop_app_length' by (unfold len in Lr; lia); rewrite take_app_length' by (unfold len in Ls; lia); done.
  - exists v; split; [ | done ]; rewrite lookup_app_r by (unfold len in Lrs; lia); replace (64 - length (r ++ s))%nat with 0%nat by (unfold len in Lrs; lia); done.
  - exists x, y; rewrite SigToPub_total by done; rewrite u8_id, Z.add_comm by lia; rewrite Rec, B; done.
  - rewrite take_app_length' by (unfold len in Lrs; lia).
    unfold verifySignature, VerifySignature; rewrite Lrs, L; cbn [negb Z.eqb Pos.eqb orb].
    pose proof (parse_marshal (big_bytes d) m) as PM; rewrite B in PM; cbn [fst snd] in PM; rewrite PM by done.
    rewrite Tr, Ds, !load_spec by done; pose proof (be_val_bound r Or); assert (curveN = 2 * (curveN / 2) + 1) as Q by reflexivity.
    rewrite !Z.mod_small by lia; replace (curveN <=? be_val r) with false by lia; replace (curveN <=? be_val s) with false by lia.
    rewrite half_spec; replace (curveN / 2 <? be_val s) with false by lia; rewrite <- B; done.
Qed.
End Software.

(** ** Configuration is all or nothing *)

Section Configuration.
Context (getenv : string -> string).

(** What the variables say. *)
Definition says (cfg : PKCS11Config) : Prop :=
  Library cfg = trim_space (getenv EnvPKCS11Library) /\ TokenLabel cfg = trim_space (getenv EnvPKCS11TokenLabel) /\
  PIN cfg = getenv EnvPKCS11PIN /\ KeyLabel cfg = trim_space (getenv EnvPKCS11KeyLabel) /\
  (if HasSlot cfg then parse_uint (trim_space (getenv EnvPKCS11Slot)) = Some (Slot cfg)
   else trim_space (getenv EnvPKCS11Slot) = "" /\ Slot cfg = 0).

Lemma isEmpty_true s : isEmpty s = true <-> s = "".
Proof. apply String.eqb_eq. Qed.
Lemma isEmpty_false s : isEmpty s = false <-> s <> "".
Proof. apply String.eqb_neq. Qed.

(** The service is given a hardware configuration exactly when every part of it
    is set and the token is named in one way, and none exactly when no variable
    is set; everything else is refused. *)
Theorem config_all_or_nothing :
  (forall cfg, PKCS11ConfigFromEnv getenv = Ok (Some cfg) <->
     says cfg /\ Library cfg <> "" /\ PIN cfg <> "" /\ KeyLabel cfg <> "" /\ (HasSlot cfg = true <-> TokenLabel cfg = "")) /\
  (PKCS11ConfigFromEnv getenv = Ok None <->
     Forall (fun k => trim_space (getenv k) = "") [ EnvPKCS11Library; EnvPKCS11TokenLabel; EnvPKCS11Slot; EnvPKCS11KeyLabel ] /\ getenv EnvPKCS11PIN = "") /\
  PKCS11ConfigFromEnv getenv <> Panic.
Proof.
  unfold PKCS11ConfigFromEnv, says; rewrite !Forall_cons, Forall_nil.
  set (l := trim_space (getenv EnvPKCS11Library)); set (t := trim_space (getenv EnvPKCS11TokenLabel)).
  set (p := getenv EnvPKCS11PIN); set (k := trim_space (getenv EnvPKCS11KeyLabel)); set (sl := trim_space (getenv EnvPKCS11Slot)).
  assert (parse_uint "" = None) as PE by reflexivity; clearbody l t p k sl.
  assert (forall c, (exists L T S H P K, c = {| Library := L; TokenLabel := T; Slot := S; HasSlot := H; PIN := P; KeyLabel := K |})) as Eta by (intros []; eauto 10).
  destruct (isEmpty l) eqn:El, (isEmpty t) eqn:Et, (isEmpty sl) eqn:Es, (isEmpty p) eqn:Ep, (isEmpty k) eqn:Ek;
    repeat match goal with H : isEmpty _ = true |- _ => apply isEmpty_true in H | H : isEmpty _ = false |- _ => apply isEmpty_false in H end;
    subst; cbn [andb]; try (destruct (parse_uint sl) as [ n | ] eqn:Pu); cbn; (split; [ intros cfg; destruct (Eta cfg) as (? & ? & ? & [] & ? & ? & ->); cbn | ]);
    repeat split; intros; destruct_and?; simplify_eq; try done; try tauto; try congruence; naive_solver.
Qed.
End Configuration.

End KeySigner.
