(* ===== verification/Hsm.v ===== *)
(** * A key in a hardware module

    Models [services/mpc-signer/keys/pkcs11.go]: finding the token and the key on
    it, the checks made of them, signing with a lost session reopened, key
    generation, and the count of the holders of a loaded module.

    The vendor's library is the class [Cryptoki]: every call takes and returns
    the state of the world outside, of any type, so that nothing is assumed of
    what a token answers or of when it changes.  The methods of a signer hold
    its mutex and are modelled as one step each. *)

From Stdlib Require Import ZArith Lia Ascii String.
From stdpp Require Import base list numbers strings gmap.
From S2P Require Import Prelude GoStrings GoText EthCrypto KeySigner.

Open Scope Z_scope.

Module Hsm.
Import EthCrypto KeySigner.

(** ** State and errors *)

Definition ST (S E A : Type) : Type := S -> S * result E A.

Definition ret {S E A} (a : A) : ST S E A := fun s => (s, Ok a).
Definition throw {S E A} (e : E) : ST S E A := fun s => (s, Err e).
Definition lift {S E A} (r : result E A) : ST S E A := fun s => (s, r).
Definition bind {S E A B} (m : ST S E A) (k : A -> ST S E B) : ST S E B :=
  fun s => let '(s, r) := m s in match r with Ok a => k a s | Err e => (s, Err e) | Panic => (s, Panic) end.
(** the outcome as a value; a panic goes on *)
Definition attempt {S E F A} (m : ST S E A) : ST S F (E + A) :=
  fun s => let '(s, r) := m s in match r with Ok a => (s, Ok (inr a)) | Err e => (s, Ok (inl e)) | Panic => (s, Panic) end.
Definition wrapping {S E F A} (f : E -> F) (m : ST S E A) : ST S F A := fun s => let '(s, r) := m s in (s, map_err f r).

Declare Scope hsm_scope.
Notation "x <- m ;; k" := (bind m (fun x => k)) (at level 100, m at next level, right associativity) : hsm_scope.
Notation "m ;;; k" := (bind m (fun _ => k)) (at level 100, right associativity) : hsm_scope.
Open Scope hsm_scope.

(** ** The library *)

(** an error of the library carries a return code; others do not *)
Inductive TokErr : Type := Ckr (code : Z) | OtherErr (msg : string).
Record TokenInfo := { Label : string; ManufacturerID : string; Model : string }.
Record Attribute := { aType : Z; aValue : bytes }.
(** the values a template is made of *)
Inductive TVal : Type := TNil | TBool (b : bool) | TUint (n : Z) | TText (s : string) | TBytes (b : bytes).
Abbreviation Template := (list (Z * TVal)).

Definition CKO_PUBLIC_KEY : Z := 2.
Definition CKO_PRIVATE_KEY : Z := 3.
Definition CKK_EC : Z := 3.
Definition CKA_CLASS : Z := 0.
Definition CKA_TOKEN : Z := 1.
Definition CKA_PRIVATE : Z := 2.
Definition CKA_LABEL : Z := 3.
Definition CKA_KEY_TYPE : Z := 0x100.
Definition CKA_ID : Z := 0x102.
Definition CKA_SENSITIVE : Z := 0x103.
Definition CKA_SIGN : Z := 0x108.
Definition CKA_VERIFY : Z := 0x10A.
Definition CKA_EXTRACTABLE : Z := 0x162.
Definition CKA_EC_PARAMS : Z := 0x180.
Definition CKA_EC_POINT : Z := 0x181.
Definition CKM_EC_KEY_PAIR_GEN : Z := 0x1040.
Definition CKM_ECDSA : Z := 0x1041.
Definition CKF_RW_SESSION : Z := 2.
Definition CKF_SERIAL_SESSION : Z := 4.
Definition CKU_USER : Z := 1.
Definition CKR_DEVICE_ERROR : Z := 0x30.
Definition CKR_DEVICE_REMOVED : Z := 0x32.
Definition CKR_KEY_HANDLE_INVALID : Z := 0x60.
Definition CKR_OBJECT_HANDLE_INVALID : Z := 0x82.
Definition CKR_SESSION_CLOSED : Z := 0xB0.
Definition CKR_SESSION_HANDLE_INVALID : Z := 0xB3.
Definition CKR_TOKEN_NOT_PRESENT : Z := 0xE0.
Definition CKR_USER_ALREADY_LOGGED_IN : Z := 0x100.
Definition CKR_USER_NOT_LOGGED_IN : Z := 0x101.
Definition CKR_CRYPTOKI_ALREADY_INITIALIZED : Z := 0x191.

(** [T]: the world outside; [Ctx]: a loaded library. *)
Class Cryptoki (T Ctx : Type) := {
  NewCtx : string -> T -> T * option Ctx;
  Initialize : Ctx -> ST T TokErr unit;
  Finalize : Ctx -> ST T TokErr unit;
  Destroy : Ctx -> T -> T;
  GetSlotList : Ctx -> bool -> ST T TokErr (list Z);
  GetTokenInfo : Ctx -> Z -> ST T TokErr TokenInfo;
  OpenSession : Ctx -> Z -> Z -> ST T TokErr Z;
  CloseSession : Ctx -> Z -> ST T TokErr unit;
  Login : Ctx -> Z -> Z -> string -> ST T TokErr unit;
  Logout : Ctx -> Z -> ST T TokErr unit;
  FindObjectsInit : Ctx -> Z -> Template -> ST T TokErr unit;
  FindObjects : Ctx -> Z -> Z -> ST T TokErr (list Z);
  FindObjectsFinal : Ctx -> Z -> ST T TokErr unit;
  GetAttributeValue : Ctx -> Z -> Z -> Template -> ST T TokErr (list Attribute);
  SignInit : Ctx -> Z -> Z -> Z -> ST T TokErr unit;
  TokenSign : Ctx -> Z -> bytes -> ST T TokErr bytes;
  GenerateKeyPair : Ctx -> Z -> Z -> Template -> Template -> ST T TokErr (Z * Z)
}.

Definition secp256k1Params : bytes := [ 0x06; 0x05; 0x2b; 0x81; 0x04; 0x00; 0x0a ].

(** [private] tells the two kinds of key apart in a message. *)
Inductive HsmErr : Type :=
| NoConfig | CannotLoad (path : string) | Initialising (path : string) (e : TokErr)
| ListingSlots (e : TokErr) | NoTokenInSlot (slot : Z) | NoTokenLabelled (l : string) | ManyTokens (n : Z) (l : string)
| OpeningSession (e : TokErr) | LoggingIn (e : TokErr)
| FindFailed (e : TokErr) | Searching (private : bool) (label : string) (e : HsmErr)
| NoKeyLabelled (private : bool) (label : string) | ManyKeys (n : Z) (private : bool) (label : string)
| ReadingAttributes (e : TokErr) | NotEllipticCurve | NotSensitive | IsExtractable | MayNotSign
| WrongCurve (params : bytes) | NoCurve | ReadingPoint (e : option TokErr) | BadPoint (n : Z) | PointRefused (e : KeyErr)
| SelfTestFailed (e : TokErr) | SelfTestMismatch (e : KeyErr)
| KeyChanged (label : string) | DigestNot32 (n : Z) | SessionLost (e : TokErr) (r : HsmErr) | SigningFailed (e : TokErr)
| SignatureRefused (e : KeyErr) | KeyExists (label : string) | NoEntropy | Generating (e : TokErr).

(** ** encoding/asn1 *)

(** the length of an element in long form: [n] bytes, minimal *)
Fixpoint der_long (n : nat) (acc : Z) (b : bytes) : option (Z * bytes) :=
  match n with
  | O => if acc <? 0x80 then None else Some (acc, b)
  | S n =>
      match b with
      | [] => None
      | x :: b =>
          if 0x800000 <=? acc then None
          else let acc := Z.lor (Z.shiftl acc 8) x in if acc =? 0 then None else der_long n acc b
      end
  end.

Definition der_length (b : bytes) : option (Z * bytes) :=
  match b with
  | [] => None
  | x :: b =>
      if Z.land x 0x80 =? 0 then Some (Z.land x 0x7f, b)
      else let n := Z.land x 0x7f in if n =? 0 then None else der_long (Z.to_nat n) 0 b
  end.

(** [asn1.Unmarshal(raw, &inner)] for a byte slice: an OCTET STRING and the rest *)
Definition unmarshalOctets (raw : bytes) : option (bytes * bytes) :=
  match raw with
  | tag :: b =>
      if tag =? 4 then
        match der_length b with
        | Some (n, b) => if len b <? n then None else Some (take (Z.to_nat n) b, drop (Z.to_nat n) b)
        | None => None
        end
      else None
  | [] => None
  end.

(** [strings.TrimRight(s, " \x00")] *)
Fixpoint trimLabel (s : string) : string :=
  match s with
  | EmptyString => EmptyString
  | String c s =>
      match trimLabel s with
      | EmptyString => if (chr c =? 32) || (chr c =? 0) then EmptyString else String c EmptyString
      | t => String c t
      end
  end.

Section Token.
Context {SP : Secp} {T Ctx : Type} {CK : Cryptoki T Ctx}.

(** [_ = call]: its error is dropped *)
Definition ignore {S E F A} (m : ST S E A) : ST S F unit := attempt m ;;; ret tt.

(** ** Finding the token and the key *)

Fixpoint matching (ctx : Ctx) (label : string) (slots : list Z) : ST T HsmErr (list Z) :=
  match slots with
  | [] => ret []
  | s :: slots =>
      info <- attempt (GetTokenInfo ctx s) ;;
      rest <- matching ctx label slots ;;
      ret (match info with
           | inl _ => rest
           | inr info => if String.eqb (trimLabel (Label info)) label then s :: rest else rest
           end)
  end.

Definition findSlot (ctx : Ctx) (cfg : PKCS11Config) : ST T HsmErr Z :=
  slots <- wrapping ListingSlots (GetSlotList ctx true) ;;
  if isEmpty (TokenLabel cfg) then
    if existsb (Z.eqb (Slot cfg)) slots then ret (Slot cfg) else throw (NoTokenInSlot (Slot cfg))
  else
    found <- matching ctx (TokenLabel cfg) slots ;;
    match found with
    | [ s ] => ret s
    | [] => throw (NoTokenLabelled (TokenLabel cfg))
    | _ => throw (ManyTokens (len found) (TokenLabel cfg))
    end.

Definition openAndLogin (ctx : Ctx) (slot : Z) (pin : string) : ST T HsmErr Z :=
  session <- wrapping OpeningSession (OpenSession ctx slot (Z.lor CKF_SERIAL_SESSION CKF_RW_SESSION)) ;;
  r <- attempt (Login ctx session CKU_USER pin) ;;
  match r with
  | inl (Ckr code as e) =>
      if code =? CKR_USER_ALREADY_LOGGED_IN then ret session
      else ignore (CloseSession ctx session) ;;; throw (LoggingIn e)
  | inl e => ignore (CloseSession ctx session) ;;; throw (LoggingIn e)
  | inr _ => ret session
  end.

Definition findAll (ctx : Ctx) (session class : Z) (label : string) : ST T HsmErr (list Z) :=
  wrapping FindFailed (FindObjectsInit ctx session [ (CKA_CLASS, TUint class); (CKA_LABEL, TText label) ]) ;;;
  r <- attempt (FindObjects ctx session 8) ;;
  ignore (FindObjectsFinal ctx session) ;;;
  match r with inl e => throw (FindFailed e) | inr objs => ret objs end.

Definition findOne (ctx : Ctx) (session class : Z) (label : string) : ST T HsmErr Z :=
  let private := negb (class =? CKO_PUBLIC_KEY) in
  objs <- wrapping (Searching private label) (findAll ctx session class label) ;;
  match objs with
  | [ o ] => ret o
  | [] => throw (NoKeyLabelled private label)
  | _ => throw (ManyKeys (len objs) private label)
  end.

Definition boolAttr (a : option Attribute) : bool * bool :=
  match a with
  | Some {| aValue := [ v ] |} => (negb (v =? 0), true)
  | _ => (false, false)
  end.

(** [byType]: the last attribute of a type wins *)
Definition byType (attrs : list Attribute) (ty : Z) : option Attribute :=
  fold_left (fun found a => if aType a =? ty then Some a else found) attrs None.

(** The curve, from the first of the objects that tells. *)
Fixpoint checkCurve (ctx : Ctx) (session : Z) (objs : list Z) : ST T HsmErr unit :=
  match objs with
  | [] => throw NoCurve
  | h :: objs =>
      a <- attempt (GetAttributeValue ctx session h [ (CKA_EC_PARAMS, TNil) ]) ;;
      match a with
      | inr ({| aValue := (_ :: _) as params |} :: _) =>
          if bool_decide (params = secp256k1Params) then ret tt else throw (WrongCurve params)
      | _ => checkCurve ctx session objs
      end
  end.

Definition checkPrivateKey (ctx : Ctx) (session private public : Z) : ST T HsmErr unit :=
  attrs <- wrapping ReadingAttributes
    (GetAttributeValue ctx session private [ (CKA_KEY_TYPE, TNil); (CKA_SENSITIVE, TNil); (CKA_EXTRACTABLE, TNil); (CKA_SIGN, TNil) ]) ;;
  match byType attrs CKA_KEY_TYPE with
  | Some {| aValue := kt :: _ |} =>
      if negb (kt =? CKK_EC) then throw NotEllipticCurve
      else
        let '(v, ok) := boolAttr (byType attrs CKA_SENSITIVE) in
        if negb ok || negb v then throw NotSensitive
        else
          let '(v, ok) := boolAttr (byType attrs CKA_EXTRACTABLE) in
          if negb ok || v then throw IsExtractable
          else
            let '(v, ok) := boolAttr (byType attrs CKA_SIGN) in
            if negb ok || negb v then throw MayNotSign
            else checkCurve ctx session [ private; public ]
  | _ => throw NotEllipticCurve
  end.

(** The point, bare or in an OCTET STRING. *)
Definition pointOf (raw : bytes) : result HsmErr bytes :=
  let! point :=
    (if (len raw =? 65) && bool_decide (head raw = Some 4) then Ok raw
     else match unmarshalOctets raw with
          | Some (inner, []) => Ok inner
          | _ => Err (BadPoint (len raw))
          end) in
  let! _ := map_err PointRefused (coordinates point) in
  Ok point.

Definition readECPoint (ctx : Ctx) (session public : Z) : ST T HsmErr bytes :=
  a <- wrapping (fun e => ReadingPoint (Some e)) (GetAttributeValue ctx session public [ (CKA_EC_POINT, TNil) ]) ;;
  match a with
  | [] => throw (ReadingPoint None)
  | a :: _ => lift (pointOf (aValue a))
  end.

(** ** The signer *)

(** A module in memory.  Its other fields are set once; [refs] is in [World]. *)
Record module := { mid : nat; mpath : string; mctx : Ctx; owned : bool }.

Record PKCS11Signer := {
  cfg : PKCS11Config; held : module;
  slot : Z; session : Z; privHandle : Z; isOpen : bool;
  pubKey : bytes; describe : string
}.

Definition setSlot (n : Z) (s : PKCS11Signer) : PKCS11Signer := {|
  cfg := cfg s; held := held s; slot := n; session := session s; privHandle := privHandle s; isOpen := isOpen s; pubKey := pubKey s; describe := describe s |}.
Definition setKey (se p : Z) (k : bytes) (s : PKCS11Signer) : PKCS11Signer := {|
  cfg := cfg s; held := held s; slot := slot s; session := se; privHandle := p; isOpen := true; pubKey := k; describe := describe s |}.
Definition setClosed (s : PKCS11Signer) : PKCS11Signer := {|
  cfg := cfg s; held := held s; slot := slot s; session := session s; privHandle := privHandle s; isOpen := false; pubKey := pubKey s; describe := describe s |}.
Definition setPub (k : bytes) (s : PKCS11Signer) : PKCS11Signer := {|
  cfg := cfg s; held := held s; slot := slot s; session := session s; privHandle := privHandle s; isOpen := isOpen s; pubKey := k; describe := describe s |}.
Definition setDescribe (d : string) (s : PKCS11Signer) : PKCS11Signer := {|
  cfg := cfg s; held := held s; slot := slot s; session := session s; privHandle := privHandle s; isOpen := isOpen s; pubKey := pubKey s; describe := d |}.

(** A method: the signer and the world outside. *)
Definition Method (E A : Type) : Type := ST (PKCS11Signer * T) E A.
Definition get {E} : Method E PKCS11Signer := fun st => (st, Ok (fst st)).
Definition modify {E} (f : PKCS11Signer -> PKCS11Signer) : Method E unit := fun '(s, t) => ((f s, t), Ok tt).
Definition onToken {E A} (m : ST T E A) : Method E A := fun '(s, t) => let '(t, r) := m t in ((s, t), r).

Definition recoverable (err : TokErr) : bool :=
  match err with
  | OtherErr _ => false
  | Ckr code => existsb (Z.eqb code)
      [ CKR_SESSION_HANDLE_INVALID; CKR_SESSION_CLOSED; CKR_USER_NOT_LOGGED_IN; CKR_OBJECT_HANDLE_INVALID;
        CKR_KEY_HANDLE_INVALID; CKR_DEVICE_ERROR; CKR_DEVICE_REMOVED; CKR_TOKEN_NOT_PRESENT ]
  end.

Definition signLocked (digest : bytes) : Method TokErr bytes :=
  s <- get ;;
  if negb (isOpen s) then throw (Ckr CKR_SESSION_HANDLE_INVALID)
  else
    onToken (SignInit (mctx (held s)) (session s) CKM_ECDSA (privHandle s)) ;;;
    onToken (TokenSign (mctx (held s)) (session s) digest).

Definition closeLocked {E} : Method E unit :=
  s <- get ;;
  if negb (isOpen s) then ret tt
  else
    onToken (ignore (Logout (mctx (held s)) (session s))) ;;;
    onToken (ignore (CloseSession (mctx (held s)) (session s))) ;;;
    modify setClosed.

(** The key pair under the label, with what is checked of it. *)
Definition locate (ctx : Ctx) (session : Z) (label : string) : ST T HsmErr (Z * bytes) :=
  private <- findOne ctx session CKO_PRIVATE_KEY label ;;
  public <- findOne ctx session CKO_PUBLIC_KEY label ;;
  checkPrivateKey ctx session private public ;;;
  point <- readECPoint ctx session public ;;
  ret (private, point).

(** SHA-256 and [%q], of the standard library *)
Context (sha256 : bytes -> bytes) (quote : string -> string).
Definition probe : bytes := sha256 (to_bytes "openfireblocks-pkcs11-self-test-v1").

Definition selfTest (public : bytes) : Method HsmErr unit :=
  rs <- attempt (signLocked probe) ;;
  match rs with
  | inl e => closeLocked ;;; throw (SelfTestFailed e)
  | inr rs =>
      r <- attempt (lift (RecoverableSignature probe rs public)) ;;
      match r with
      | inl e => closeLocked ;;; throw (SelfTestMismatch e)
      | inr _ => ret tt
      end
  end.

Definition connectLocked : Method HsmErr unit :=
  s <- get ;;
  let ctx := mctx (held s) in
  slot <- onToken (findSlot ctx (cfg s)) ;;
  modify (setSlot slot) ;;;
  session <- onToken (openAndLogin ctx slot (PIN (cfg s))) ;;
  found <- attempt (onToken (locate ctx session (KeyLabel (cfg s)))) ;;
  match found with
  | inl e =>
      onToken (ignore (Logout ctx session)) ;;;
      onToken (ignore (CloseSession ctx session)) ;;;
      throw e
  | inr (private, public) =>
      modify (setKey session private public) ;;;
      selfTest public
  end.

Definition reconnectLocked : Method HsmErr unit :=
  s <- get ;;
  let previous := pubKey s in
  closeLocked ;;;
  connectLocked ;;;
  s <- get ;;
  if bool_decide (previous = pubKey s) then ret tt
  else
    closeLocked ;;;
    modify (setPub previous) ;;;
    throw (KeyChanged (KeyLabel (cfg s))).

(** [RecoverableSignature(digest, rs, s.pub)] *)
Definition finish (digest rs : bytes) : Method HsmErr bytes :=
  s <- get ;;
  lift (map_err SignatureRefused (RecoverableSignature digest rs (pubKey s))).

Definition hsmSignDigest (digest : bytes) : Method HsmErr bytes :=
  if negb (len digest =? 32) then throw (DigestNot32 (len digest))
  else
    r <- attempt (signLocked digest) ;;
    match r with
    | inr rs => finish digest rs
    | inl err =>
        if recoverable err then
          again <- attempt reconnectLocked ;;
          match again with
          | inl rerr => throw (SessionLost err rerr)
          | inr _ => rs <- wrapping SigningFailed (signLocked digest) ;; finish digest rs
          end
        else throw (SigningFailed err)
    end.

Definition hsmKeySigner : KeySigner (PKCS11Signer * T) HsmErr := {|
  PublicKey st := pubKey (fst st);
  SignDigest st digest := hsmSignDigest digest st;
  Describe st := describe (fst st)
|}.

(** ** One instance per library *)

(** [modules] by path, and the count of each module's holders. *)
Record World := { outside : T; refs : gmap nat Z; modules : gmap string module; next : nat }.

Definition setOutside (t : T) (w : World) : World := {| outside := t; refs := refs w; modules := modules w; next := next w |}.
(** Something that only reaches outside. *)
Definition away {A} (m : ST T HsmErr A) : ST World HsmErr A := fun w => let '(t, r) := m (outside w) in (setOutside t w, r).

Definition countOf (m : module) (w : World) : Z := default 0 (refs w !! mid m).

Definition loadModule (path : string) : ST World HsmErr module := fun w =>
  match modules w !! path with
  | Some m => ({| outside := outside w; refs := <[ mid m := countOf m w + 1 ]> (refs w); modules := modules w; next := next w |}, Ok m)
  | None =>
      let '(t, c) := NewCtx path (outside w) in
      match c with
      | None => (setOutside t w, Err (CannotLoad path))
      | Some ctx =>
          let '(t, r) := Initialize ctx t in
          let register owned :=
            let m := {| mid := next w; mpath := path; mctx := ctx; owned := owned |} in
            ({| outside := t; refs := <[ mid m := 1 ]> (refs w); modules := <[ path := m ]> (modules w); next := S (next w) |}, Ok m) in
          match r with
          | Ok _ => register true
          | Err (Ckr code as e) =>
              if code =? CKR_CRYPTOKI_ALREADY_INITIALIZED then register false
              else (setOutside (Destroy ctx t) w, Err (Initialising path e))
          | Err e => (setOutside (Destroy ctx t) w, Err (Initialising path e))
          | Panic => (setOutside t w, Panic)
          end
      end
  end.

Definition release (m : module) (w : World) : World :=
  let n := countOf m w - 1 in
  let w := {| outside := outside w; refs := <[ mid m := n ]> (refs w); modules := modules w; next := next w |} in
  if 0 <? n then w
  else
    let t := if owned m then fst (Finalize (mctx m) (outside w)) else outside w in
    {| outside := Destroy (mctx m) t; refs := refs w; modules := delete (mpath m) (modules w); next := next w |}.

(** A method of a signer, in the whole world. *)
Definition within {A} (m : Method HsmErr A) (s : PKCS11Signer) (w : World) : PKCS11Signer * World * result HsmErr A :=
  let '((s, t), r) := m (s, outside w) in ((s, setOutside t w), r).

Definition token (c : PKCS11Config) : string :=
  if negb (isEmpty (TokenLabel c)) then "token " +:+ quote (TokenLabel c) else "slot " +:+ show_int (Slot c).

(** [None]: a nil configuration *)
Definition OpenPKCS11 (config : option PKCS11Config) (w : World) : World * result HsmErr PKCS11Signer :=
  match config with
  | None => (w, Err NoConfig)
  | Some c =>
      let '(w, r) := loadModule (Library c) w in
      match r with
      | Err e => (w, Err e)
      | Panic => (w, Panic)
      | Ok m =>
          let fresh := {| cfg := c; held := m; slot := 0; session := 0; privHandle := 0; isOpen := false; pubKey := []; describe := "" |} in
          let '(s, w, r) := within connectLocked fresh w in
          match r with
          | Err e => (release m w, Err e)
          | Panic => (w, Panic)
          | Ok _ =>
              let '(w, info) := away (attempt (GetTokenInfo (mctx m) (slot s))) w in
              let model := match info with
                           | Ok (inr i) => ", " +:+ trim_space (ManufacturerID i) +:+ " " +:+ trim_space (Model i)
                           | _ => "" end in
              (w, Ok (setDescribe ("PKCS#11 key " +:+ quote (KeyLabel c) +:+ " on " +:+ token c +:+ model) s))
          end
      end
  end.

Definition Close (s : PKCS11Signer) (w : World) : PKCS11Signer * World :=
  let '(s, w, _) := within closeLocked s w in (s, release (held s) w).

(** The two searches before a key is made. *)
Fixpoint noneLabelled (ctx : Ctx) (session : Z) (label : string) (classes : list Z) : ST T HsmErr unit :=
  match classes with
  | [] => ret tt
  | class :: classes =>
      found <- findAll ctx session class label ;;
      if 0 <? len found then throw (KeyExists label) else noneLabelled ctx session label classes
  end.

Definition pubTemplate (label : string) (id : bytes) : Template :=
  [ (CKA_CLASS, TUint CKO_PUBLIC_KEY); (CKA_KEY_TYPE, TUint CKK_EC); (CKA_TOKEN, TBool true); (CKA_VERIFY, TBool true);
    (CKA_EC_PARAMS, TBytes secp256k1Params); (CKA_LABEL, TText label); (CKA_ID, TBytes id) ].
Definition privTemplate (label : string) (id : bytes) : Template :=
  [ (CKA_CLASS, TUint CKO_PRIVATE_KEY); (CKA_KEY_TYPE, TUint CKK_EC); (CKA_TOKEN, TBool true); (CKA_PRIVATE, TBool true); (CKA_SIGN, TBool true);
    (CKA_SENSITIVE, TBool true); (CKA_EXTRACTABLE, TBool false); (CKA_LABEL, TText label); (CKA_ID, TBytes id) ].

Definition generateIn (ctx : Ctx) (session : Z) (label : string) (entropy : option bytes) : ST T HsmErr unit :=
  noneLabelled ctx session label [ CKO_PRIVATE_KEY; CKO_PUBLIC_KEY ] ;;;
  match entropy with
  | None => throw NoEntropy
  | Some id =>
      wrapping Generating (GenerateKeyPair ctx session CKM_EC_KEY_PAIR_GEN (pubTemplate label id) (privTemplate label id)) ;;;
      ret tt
  end.

(** [entropy]: the sixteen bytes of [rand.Read], or its error *)
Definition GeneratePKCS11Key (c : PKCS11Config) (entropy : option bytes) (w : World) : World * result HsmErr unit :=
  let '(w, r) := loadModule (Library c) w in
  match r with
  | Err e => (w, Err e)
  | Panic => (w, Panic)
  | Ok m =>
      let ctx := mctx m in
      let '(w, r) := away (slot <- findSlot ctx c ;; session <- openAndLogin ctx slot (PIN c) ;;
                           r <- attempt (generateIn ctx session (KeyLabel c) entropy) ;;
                           ignore (Logout ctx session) ;;; ignore (CloseSession ctx session) ;;;
                           match r with inl e => throw e | inr _ => ret tt end) w in
      (release m w, r)
  end.

(** ** Lemmas *)

Lemma bind_ok {S E A B} (m : ST S E A) (k : A -> ST S E B) s s' b :
  bind m k s = (s', Ok b) -> exists s1 a, m s = (s1, Ok a) /\ k a s1 = (s', Ok b).
Proof. unfold bind; destruct (m s) as [ s1 [ a | e | ] ]; intros H; try done; eauto. Qed.

Lemma wrapping_ok {S E F A} (f : E -> F) (m : ST S E A) s s' a : wrapping f m s = (s', Ok a) -> m s = (s', Ok a).
Proof. unfold wrapping; destruct (m s) as [ s1 [ b | e | ] ]; cbn; intros H; congruence. Qed.

Lemma attempt_ok {S E F A} (m : ST S E A) s s' r : attempt (F := F) m s = (s', Ok r) -> m s = (s', match r with inl e => Err e | inr a => Ok a end).
Proof. unfold attempt; destruct (m s) as [ s1 [ b | e | ] ]; cbn; intros H; simplify_eq; done. Qed.

Lemma onToken_ok {E A} (m : ST T E A) s t st a : onToken m (s, t) = (st, Ok a) -> exists t', st = (s, t') /\ m t = (t', Ok a).
Proof. cbn; destruct (m t) as [ t' r ]; intros H; simplify_eq; eauto. Qed.

(** What holds of the signer after a method, whatever it answered. *)
Definition keeps {E A} (P : PKCS11Signer -> PKCS11Signer -> Prop) (m : Method E A) : Prop := forall s t s' t' r, m (s, t) = ((s', t'), r) -> P s s'.

Lemma keeps_bind {E A B} P (m : Method E A) (k : A -> Method E B) : (forall a b c, P a b -> P b c -> P a c) -> keeps P m -> (forall a, keeps P (k a)) -> keeps P (bind m k).
Proof.
  intros Tr Hm Hk s t s' t' r; unfold bind; destruct (m (s, t)) as [ [ s1 t1 ] [ a | e | ] ] eqn:M; intros H; try (simplify_eq; eapply Hm; done).
  eapply Tr; [ eapply Hm; done | eapply Hk; done ].
Qed.

Lemma keeps_token {E A} (P : PKCS11Signer -> PKCS11Signer -> Prop) (m : ST T E A) : (forall s, P s s) -> keeps P (onToken m).
Proof. intros R s t s' t' r; cbn; destruct (m t); intros H; simplify_eq; done. Qed.

Lemma keeps_pure {E A} (P : PKCS11Signer -> PKCS11Signer -> Prop) (r : result E A) : (forall s, P s s) -> keeps P (fun st => (st, r)).
Proof. intros R s t s' t' q H; simplify_eq; done. Qed.

Lemma keeps_get {E} (P : PKCS11Signer -> PKCS11Signer -> Prop) : (forall s, P s s) -> keeps P (get (E := E)).
Proof. intros R s t s' t' q H; inversion H; subst; apply R. Qed.

Lemma keeps_attempt {E F A} P (m : Method E A) : keeps P m -> keeps P (attempt (F := F) m).
Proof. intros H s t s' t' r; unfold attempt; destruct (m (s, t)) as [ [ s1 t1 ] [ a | e | ] ] eqn:M; intros Q; simplify_eq; eapply H; done. Qed.

Ltac keeping := repeat first [ apply keeps_bind; [ by intros ??? ->|  | intros ] | apply keeps_get; done | apply keeps_token; done | apply keeps_pure; done | apply keeps_attempt ].

(** The key and the module held, which most methods leave alone. *)
Definition same_key (s s' : PKCS11Signer) : Prop := pubKey s' = pubKey s.
Definition same_held (s s' : PKCS11Signer) : Prop := held s' = held s.

Lemma signLocked_keeps digest : keeps eq (signLocked digest).
Proof. unfold signLocked; keeping; destruct (negb _); keeping. Qed.

Lemma closeLocked_keeps {E} : keeps (fun s s' => same_key s s' /\ same_held s s') (closeLocked (E := E)).
Proof.
  unfold closeLocked; apply keeps_bind; [ unfold same_key, same_held; intuition congruence | by apply keeps_get | intros s0 ].
  destruct (negb _); [ by apply keeps_pure | ].
  repeat (apply keeps_bind; [ unfold same_key, same_held; intuition congruence | by apply keeps_token | intros _ ]).
  intros s t s' t' r H; cbn in H; simplify_eq; done.
Qed.

Lemma selfTest_keeps public : keeps (fun s s' => same_key s s' /\ same_held s s') (selfTest public).
Proof.
  unfold selfTest; assert (forall a b c : PKCS11Signer, same_key a b /\ same_held a b -> same_key b c /\ same_held b c -> same_key a c /\ same_held a c) as Tr by (unfold same_key, same_held; intuition congruence).
  apply keeps_bind; [ done | | ].
  { apply keeps_attempt; intros s t s' t' r H; apply signLocked_keeps in H as ->; done. }
  intros [ e | rs ]; [ apply keeps_bind; [ done | apply closeLocked_keeps | intros _; by apply keeps_pure ] | ].
  apply keeps_bind; [ done | by apply keeps_attempt, keeps_pure | intros [ e | ? ]; [ | by apply keeps_pure ] ].
  apply keeps_bind; [ done | apply closeLocked_keeps | intros _; by apply keeps_pure ].
Qed.

(** An error of the self-test, or a crash in it. *)
Definition upsets {A} (r : result HsmErr A) : bool :=
  match r with Err (SelfTestFailed _) | Err (SelfTestMismatch _) | Panic => true | _ => false end.

(** Methods that do not fail. *)
Definition sure {S E A} (m : ST S E A) : Prop := forall s s' e, m s <> (s', Err e).

Lemma sure_ignore {E F A} (m : ST T E A) : sure (onToken (E := F) (ignore m)).
Proof. intros [ s t ] s' e; cbn; unfold ignore, bind, attempt; destruct (m t) as [ t1 [ a | e1 | ] ]; done. Qed.

Lemma sure_bind {S E A B} (m : ST S E A) (k : A -> ST S E B) : sure m -> (forall a, sure (k a)) -> sure (bind m k).
Proof. intros Hm Hk s s' e; unfold bind; destruct (m s) as [ s1 [ a | e1 | ] ] eqn:M; [ apply Hk | exfalso; by eapply Hm | done ]. Qed.

Lemma sure_close {E} : sure (closeLocked (E := E)).
Proof.
  unfold closeLocked; apply sure_bind; [ done | intros s ]; destruct (negb _); [ done | ].
  apply sure_bind; [ apply sure_ignore | intros _ ]; apply sure_bind; [ apply sure_ignore | intros _ ]; by intros [].
Qed.

Lemma close_then {A} (e : HsmErr) st st' r : upsets (A := A) (Err e) = true -> bind closeLocked (fun _ => throw (A := A) e) st = (st', r) -> upsets r = true.
Proof.
  intros U; unfold bind, throw; destruct (closeLocked st) as [ st1 [ a | e1 | ] ] eqn:C; intros H; injection H as <- <-; [ exact U | | done ].
  exfalso; by eapply sure_close.
Qed.

Ltac settle H := unfold ret, throw, lift, modify in H; cbn in H; inversion H; subst; clear H.

Lemma selfTest_result public st st' r : selfTest public st = (st', r) -> r = Ok tt \/ upsets r = true.
Proof.
  unfold selfTest; unfold bind at 1; destruct (attempt (signLocked probe) st) as [ st1 [ [ e | rs ] | e | ] ] eqn:E.
  - intros H; right; revert H; by apply close_then.
  - unfold bind at 1; destruct (attempt (lift (RecoverableSignature probe rs public)) st1) as [ st2 [ [ e | sg ] | e | ] ] eqn:R.
    + intros H; right; revert H; by apply close_then.
    + intros H; settle H; auto.
    + unfold attempt, lift in R; destruct (RecoverableSignature _ _ _); done.
    + intros H; settle H; auto.
  - unfold attempt in E; destruct (signLocked probe st) as [ ? [] ]; done.
  - intros H; settle H; auto.
Qed.

(** Connecting changes the key only if it succeeds or its self-test does not. *)
Lemma connect_key s t s' t' r : connectLocked (s, t) = ((s', t'), r) -> upsets r = false -> r = Ok tt \/ same_key s s'.
Proof.
  unfold connectLocked; intros H U; unfold bind at 1 in H; cbn [get fst] in H.
  unfold bind at 1 in H; destruct (onToken (findSlot _ _) (s, t)) as [ [ s1 t1 ] [ sl | e | ] ] eqn:E1;
    pose proof (keeps_token eq _ ltac:(done) _ _ _ _ _ E1) as <-; [ | settle H; by right | settle H; by right ].
  unfold bind at 1 in H; cbn [modify] in H.
  unfold bind at 1 in H; destruct (onToken (openAndLogin _ _ _) _) as [ [ s2 t2 ] [ se | e | ] ] eqn:E2;
    pose proof (keeps_token eq _ ltac:(done) _ _ _ _ _ E2) as <-; [ | settle H; by right | settle H; by right ].
  unfold bind at 1 in H; destruct (attempt _ _) as [ [ s3 t3 ] [ [ e | [ pr pu ] ] | e | ] ] eqn:E3;
    pose proof (keeps_attempt eq _ (keeps_token eq _ ltac:(done)) _ _ _ _ _ E3) as <-; [ | | settle H; by right | settle H; by right ].
  - right; revert H; apply (keeps_bind same_key); [ unfold same_key; congruence | by apply keeps_token | intros _ ].
    apply keeps_bind; [ unfold same_key; congruence | by apply keeps_token | intros _; by apply keeps_pure ].
  - unfold bind at 1 in H; cbn [modify] in H; apply selfTest_result in H as [ -> | H ]; [ by left | congruence ].
Qed.

Lemma connect_held : keeps same_held connectLocked.
Proof.
  assert (forall a b c, same_held a b -> same_held b c -> same_held a c) as Tr by (unfold same_held; congruence).
  unfold connectLocked; apply keeps_bind; [ done | by apply keeps_get | intros s0 ].
  apply keeps_bind; [ done | by apply keeps_token | intros sl ].
  apply keeps_bind; [ done | by intros s t s' t' r H; settle H | intros _ ].
  apply keeps_bind; [ done | by apply keeps_token | intros se ].
  apply keeps_bind; [ done | by apply keeps_attempt, keeps_token | intros [ e | [ pr pu ] ] ].
  - apply keeps_bind; [ done | by apply keeps_token | intros _ ]; apply keeps_bind; [ done | by apply keeps_token | intros _; by apply keeps_pure ].
  - apply keeps_bind; [ done | by intros s t s' t' r H; settle H | intros _ ].
    intros s t s' t' r H; by apply selfTest_keeps in H as [ _ H ].
Qed.

(** Reconnecting leaves the key alone, unless its self-test does not succeed. *)
Lemma reconnect_key s t s' t' r : reconnectLocked (s, t) = ((s', t'), r) -> upsets r = false -> same_key s s'.
Proof.
  unfold reconnectLocked; intros H U; unfold bind at 1 in H; cbn [get fst] in H.
  unfold bind at 1 in H; destruct (closeLocked (s, t)) as [ [ s1 t1 ] [ [] | e | ] ] eqn:E1;
    pose proof (closeLocked_keeps _ _ _ _ _ E1) as [ K1 _ ]; [ | settle H; done | settle H; done ].
  unfold bind at 1 in H; destruct (connectLocked (s1, t1)) as [ [ s2 t2 ] [ [] | e | ] ] eqn:E2;
    [ | settle H; destruct (connect_key _ _ _ _ _ E2 U) as [ | K ]; [ done | unfold same_key in *; congruence ] | settle H; done ].
  unfold bind at 1 in H; cbn [get fst] in H; destruct (bool_decide (pubKey s = pubKey s2)) eqn:B.
  - apply bool_decide_eq_true in B; unfold same_key in *; settle H; done.
  - unfold bind at 1 in H; destruct (closeLocked (s2, t2)) as [ [ s3 t3 ] [ [] | e | ] ] eqn:E3;
      [ settle H; done | exfalso; by eapply sure_close | settle H; done ].
Qed.

(** The answers after which the signer may report another key. *)
Definition lost {A} (r : result HsmErr A) : bool := match r with Err (SessionLost _ e) => upsets (A := unit) (Err e) | Panic => true | _ => false end.

Section Signing.
(** Bytes are bytes. *)
Context (answers_bytes : forall ctx se d t t' rs, TokenSign ctx se d t = (t', Ok rs) -> bytes_ok rs) {SL : SecpScalars SP}.

Lemma signLocked_bytes digest st st' rs : signLocked digest st = (st', Ok rs) -> bytes_ok rs.
Proof.
  intros H; apply bind_ok in H as ([ s1 t1 ] & s & G & H); destruct (negb _); [ done | ].
  apply bind_ok in H as ([ s2 t2 ] & a & _ & H); apply onToken_ok in H as (t3 & _ & H); eauto.
Qed.

Lemma finish_signs digest rs s t s' t' sig : bytes_ok rs -> finish digest rs (s, t) = ((s', t'), Ok sig) -> s' = s /\ signature_of (pubKey s) digest sig.
Proof.
  unfold finish, bind, lift; cbn [get fst]; intros O H; destruct (RecoverableSignature digest rs (pubKey s)) eqn:R; settle H.
  split; [ done | by apply (recoverable_sound digest rs) ].
Qed.

Lemma sign_ok digest s t s' t' sig : hsmSignDigest digest (s, t) = ((s', t'), Ok sig) -> signature_of (pubKey s) digest sig /\ same_key s s'.
Proof.
  unfold hsmSignDigest; destruct (negb _); [ done | ]; intros H.
  apply bind_ok in H as ([ s1 t1 ] & r & A & H); apply attempt_ok in A; pose proof (signLocked_keeps _ _ _ _ _ _ A) as <-.
  destruct r as [ e | rs ].
  - destruct (recoverable e); [ | done ]; apply bind_ok in H as ([ s2 t2 ] & r2 & A2 & H); apply attempt_ok in A2.
    destruct r2 as [ | [] ]; [ done | ]; apply reconnect_key in A2; [ | done ].
    apply bind_ok in H as ([ s3 t3 ] & rs & A3 & H); apply wrapping_ok in A3.
    pose proof (signLocked_keeps _ _ _ _ _ _ A3) as <-; apply signLocked_bytes in A3.
    apply finish_signs in H as [ -> H ]; [ | done ]; split; [ by rewrite <- A2 | done ].
  - apply finish_signs in H as [ -> H ]; [ done | by eapply signLocked_bytes ].
Qed.

Lemma sign_keeps digest s t s' t' r : hsmSignDigest digest (s, t) = ((s', t'), r) -> lost r = false -> same_key s s'.
Proof.
  destruct r as [ sig | e | ]; [ intros H _; apply sign_ok in H as [ _ H ]; exact H | | done ].
  unfold hsmSignDigest; destruct (negb _); [ intros H _; by settle H | ]; intros H U.
  unfold bind at 1 in H; destruct (attempt (signLocked digest) (s, t)) as [ [ s1 t1 ] [ [ er | rs ] | er | ] ] eqn:A;
    pose proof (keeps_attempt eq _ (signLocked_keeps digest) _ _ _ _ _ A) as <-; [ | | by settle H | by settle H ].
  - destruct (recoverable er); [ | by settle H ].
    unfold bind at 1 in H; destruct (attempt reconnectLocked (s, t1)) as [ [ s2 t2 ] [ [ rer | [] ] | rer | ] ] eqn:A2; [ | | | done ].
    + settle H; apply attempt_ok in A2; by eapply reconnect_key.
    + apply attempt_ok in A2; apply reconnect_key in A2; [ | done ]; unfold same_key in *; rewrite <- A2.
      unfold bind, wrapping in H; destruct (signLocked digest (s2, t2)) as [ [ s3 t3 ] [ rs | e3 | ] ] eqn:A3;
        pose proof (signLocked_keeps _ _ _ _ _ _ A3) as <-; settle H; try done.
    + unfold attempt in A2; destruct (reconnectLocked _) as [ ? [] ]; done.
  - unfold finish, bind, lift in H; settle H; done.
Qed.

(** A signer on a token keeps the promise of the interface, whatever the token
    does. *)
#[export] Instance hsm_signs : Signs hsmKeySigner (fun _ => True).
Proof. constructor; intros [ s t ] digest [ s' t' ] sig _ H; apply sign_ok in H as [ ? ? ]; done. Qed.

(** *** A history of calls *)

Fixpoint signAll (digests : list bytes) (st : PKCS11Signer * T) : list (result HsmErr bytes) :=
  match digests with
  | [] => []
  | d :: digests => let '(st, r) := hsmSignDigest d st in r :: signAll digests st
  end.

Lemma signAll_key digests s t r0 : Forall (fun r => lost r = false) (signAll digests (s, t)) -> pubKey s = r0 ->
  Forall2 (fun d r => forall sig, r = Ok sig -> signature_of r0 d sig) digests (signAll digests (s, t)).
Proof.
  revert s t; induction digests as [ | d ds IH ]; intros s t L E; cbn [signAll] in *; [ constructor | ].
  destruct (hsmSignDigest d (s, t)) as [ [ s' t' ] r ] eqn:H; apply Forall_cons in L as [ L0 L ]; constructor.
  - intros sig ->; apply sign_ok in H as [ H _ ]; by rewrite E in H.
  - apply IH; [ done | ]; apply sign_keeps in H; [ | done ]; unfold same_key in H; congruence.
Qed.

(** C32.  However often sessions are lost, and whatever the token answers, the
    signatures a signer gives out are signatures by the key it reported at
    first, as long as no self-test fails on the way. *)
Theorem hsm_keeps_its_key digests s t : Forall (fun r => lost r = false) (signAll digests (s, t)) ->
  Forall2 (fun d r => forall sig, r = Ok sig -> signature_of (pubKey s) d sig) digests (signAll digests (s, t)).
Proof. intros L; by apply signAll_key. Qed.

(** *** What is known of an opened key *)

(** What the token said of the key pair under [label]: one object of each kind;
    the private one sensitive, not extractable, for signing; on secp256k1; with
    [public] a point of the curve, under which the self-test verified. *)
Record hardware_key (ctx : Ctx) (label : string) (public : bytes) (se private : Z) : Prop := {
  hw_private : exists t t', findAll ctx se CKO_PRIVATE_KEY label t = (t', Ok [ private ]);
  hw_public : exists o, (exists t t', findAll ctx se CKO_PUBLIC_KEY label t = (t', Ok [ o ])) /\
    (exists t t' a rest, GetAttributeValue ctx se o [ (CKA_EC_POINT, TNil) ] t = (t', Ok (a :: rest)) /\ pointOf (aValue a) = Ok public) /\
    (exists h t t' params rest, (h = private \/ h = o) /\ GetAttributeValue ctx se h [ (CKA_EC_PARAMS, TNil) ] t = (t', Ok (params :: rest)) /\ aValue params = secp256k1Params);
  hw_attrs : exists t t' attrs, GetAttributeValue ctx se private [ (CKA_KEY_TYPE, TNil); (CKA_SENSITIVE, TNil); (CKA_EXTRACTABLE, TNil); (CKA_SIGN, TNil) ] t = (t', Ok attrs) /\
    boolAttr (byType attrs CKA_SENSITIVE) = (true, true) /\ boolAttr (byType attrs CKA_EXTRACTABLE) = (false, true) /\ boolAttr (byType attrs CKA_SIGN) = (true, true);
  hw_point : exists x y, len public = 65 /\ parsePubKey public = Some (x, y);
  hw_self_test : exists t t' rs sig, TokenSign ctx se probe t = (t', Ok rs) /\ RecoverableSignature probe rs public = Ok sig /\ signature_of public probe sig
}.

Lemma findOne_ok ctx se class label t t' o : findOne ctx se class label t = (t', Ok o) -> findAll ctx se class label t = (t', Ok [ o ]).
Proof.
  intros H; apply bind_ok in H as (t1 & objs & F & H); apply wrapping_ok in F.
  destruct objs as [ | a [ | b l ] ]; cbn in H; [ done | settle H; done | done ].
Qed.

Lemma checkCurve_ok ctx se objs t t' : checkCurve ctx se objs t = (t', Ok tt) ->
  exists h t1 t2 params rest, h ∈ objs /\ GetAttributeValue ctx se h [ (CKA_EC_PARAMS, TNil) ] t1 = (t2, Ok (params :: rest)) /\ aValue params = secp256k1Params.
Proof.
  revert t; induction objs as [ | h objs IH ]; intros t H; [ done | cbn in H ].
  apply bind_ok in H as (t1 & r & A & H); apply attempt_ok in A.
  assert (checkCurve ctx se objs t1 = (t', Ok tt) -> exists h0 t1 t2 params rest, h0 ∈ h :: objs /\ GetAttributeValue ctx se h0 [ (CKA_EC_PARAMS, TNil) ] t1 = (t2, Ok (params :: rest)) /\ aValue params = secp256k1Params) as Next.
  { intros Q; destruct (IH _ Q) as (h0 & x & y & ps & rest & I & ?); exists h0, x, y, ps, rest; split; [ by right | done ]. }
  destruct r as [ e | [ | [ ty [ | b v ] ] rest ] ]; try (by apply Next).
  destruct (bool_decide _) eqn:B; [ | done ]; apply bool_decide_eq_true in B.
  exists h, t, t1, {| aType := ty; aValue := b :: v |}, rest; split; [ by left | split; done ].
Qed.

Lemma checkPrivateKey_ok ctx se private public t t' : checkPrivateKey ctx se private public t = (t', Ok tt) ->
  (exists t t' attrs, GetAttributeValue ctx se private [ (CKA_KEY_TYPE, TNil); (CKA_SENSITIVE, TNil); (CKA_EXTRACTABLE, TNil); (CKA_SIGN, TNil) ] t = (t', Ok attrs) /\
    boolAttr (byType attrs CKA_SENSITIVE) = (true, true) /\ boolAttr (byType attrs CKA_EXTRACTABLE) = (false, true) /\ boolAttr (byType attrs CKA_SIGN) = (true, true)) /\
  exists t, checkCurve ctx se [ private; public ] t = (t', Ok tt).
Proof.
  intros H; apply bind_ok in H as (t1 & attrs & A & H); apply wrapping_ok in A.
  destruct (byType attrs CKA_KEY_TYPE) as [ [ ty [ | kt v ] ] | ]; try done; destruct (negb _); [ done | ].
  destruct (boolAttr (byType attrs CKA_SENSITIVE)) as [ [] [] ] eqn:B1; try done; cbn [negb orb] in H.
  destruct (boolAttr (byType attrs CKA_EXTRACTABLE)) as [ [] [] ] eqn:B2; try done; cbn [negb orb] in H.
  destruct (boolAttr (byType attrs CKA_SIGN)) as [ [] [] ] eqn:B3; try done; cbn [negb orb] in H.
  split; [ by exists t, t1, attrs | by exists t1 ].
Qed.

Lemma pointOf_on_curve raw p : pointOf raw = Ok p -> exists x y, len p = 65 /\ parsePubKey p = Some (x, y).
Proof.
  unfold pointOf, coordinates; intros H; destruct (if (_ && _) then _ else _) as [ q | e | ]; cbn in H; try done.
  destruct (negb (len q =? 65) || _) eqn:G; cbn in H; [ done | ]; destruct (parsePubKey q) as [ [ x y ] | ] eqn:P; cbn in H; [ | done ].
  injection H as ->; b2p; by exists x, y.
Qed.

Lemma readECPoint_ok ctx se o t t' p : readECPoint ctx se o t = (t', Ok p) ->
  exists a rest, GetAttributeValue ctx se o [ (CKA_EC_POINT, TNil) ] t = (t', Ok (a :: rest)) /\ pointOf (aValue a) = Ok p.
Proof.
  intros H; apply bind_ok in H as (t1 & r & A & H); apply wrapping_ok in A; destruct r as [ | a rest ]; [ done | ].
  unfold lift in H; inversion H; subst; by exists a, rest.
Qed.

Lemma signLocked_ok digest s t s' t' rs : signLocked digest (s, t) = ((s', t'), Ok rs) -> exists t1 t2, TokenSign (mctx (held s)) (session s) digest t1 = (t2, Ok rs).
Proof.
  intros H; apply bind_ok in H as ([ s1 t1 ] & s0 & G & H); inversion G; subst; cbn [fst] in H; destruct (negb _); [ done | ].
  apply bind_ok in H as ([ s2 t2 ] & a & _ & H); apply onToken_ok in H as (t3 & _ & H); eauto.
Qed.

Lemma selfTest_ok public s t st' : selfTest public (s, t) = (st', Ok tt) ->
  exists t1 t2 rs sig, TokenSign (mctx (held s)) (session s) probe t1 = (t2, Ok rs) /\ RecoverableSignature probe rs public = Ok sig /\ signature_of public probe sig.
Proof.
  intros H; apply bind_ok in H as ([ s1 t1 ] & r & A & H); apply attempt_ok in A; destruct r as [ e | rs ].
  { apply bind_ok in H as (? & ? & _ & H); done. }
  pose proof (signLocked_bytes _ _ _ _ A) as O; apply signLocked_ok in A as (x & y & A).
  apply bind_ok in H as (st2 & r & B & H); apply attempt_ok in B; destruct r as [ e | sig ].
  { apply bind_ok in H as (? & ? & _ & H); done. }
  unfold lift in B; inversion B; subst; exists x, y, rs, sig; split_and!; [ done | done | by apply (recoverable_sound _ _ _ _ O) ].
Qed.

Lemma selfTest_state public s t s' t' : selfTest public (s, t) = ((s', t'), Ok tt) -> s' = s.
Proof.
  intros H; apply bind_ok in H as ([ s1 t1 ] & r & A & H); apply attempt_ok in A; apply signLocked_keeps in A as <-; destruct r as [ e | rs ].
  { apply bind_ok in H as (? & ? & _ & H); done. }
  apply bind_ok in H as (st2 & r & B & H); apply attempt_ok in B; destruct r as [ e | sig ].
  { apply bind_ok in H as (? & ? & _ & H); done. }
  unfold lift in B; inversion B; subst; inversion H; done.
Qed.

Lemma connect_ok s t s' t' : connectLocked (s, t) = ((s', t'), Ok tt) -> hardware_key (mctx (held s)) (KeyLabel (cfg s)) (pubKey s') (session s') (privHandle s').
Proof.
  intros H; apply bind_ok in H as ([ s0 t0 ] & sg & G & H); inversion G; subst; clear G; cbn [fst] in H.
  apply bind_ok in H as (st1 & sl & A1 & H); apply onToken_ok in A1 as (t1 & -> & _).
  apply bind_ok in H as (st2 & [] & A2 & H); inversion A2; subst; clear A2.
  apply bind_ok in H as (st3 & se & A3 & H); apply onToken_ok in A3 as (t3 & -> & _).
  apply bind_ok in H as (st4 & r & A4 & H); apply attempt_ok in A4.
  destruct r as [ e | [ private public ] ].
  { apply bind_ok in H as (? & ? & _ & H); apply bind_ok in H as (? & ? & _ & H); done. }
  apply onToken_ok in A4 as (t4 & -> & L); apply bind_ok in H as (st5 & [] & A5 & H); inversion A5; subst; clear A5.
  destruct (selfTest_ok _ _ _ _ H) as (x & y & rs & sig & S1 & S2 & S3); cbn in S1.
  assert (session s' = se /\ privHandle s' = private /\ pubKey s' = public) as (-> & -> & ->) by (apply selfTest_state in H as ->; done).
  apply bind_ok in L as (u1 & pr & F1 & L); apply findOne_ok in F1; apply bind_ok in L as (u2 & o & F2 & L); apply findOne_ok in F2.
  apply bind_ok in L as (u3 & [] & C & L); apply bind_ok in L as (u4 & pt & R & L); inversion L; subst; clear L.
  apply checkPrivateKey_ok in C as [ At [ u C ] ]; apply checkCurve_ok in C as (h & v1 & v2 & ps & rest & I & C).
  apply readECPoint_ok in R as (a & rest' & R & P).
  constructor; eauto 10 using pointOf_on_curve.
  exists o; split; [ eauto | split; [ eauto 10 | ] ]; exists h, v1, v2, ps, rest; split; [ set_solver | done ].
Qed.

(** A signer is opened only on a key of the module: the token said it is the
    only one under its label, that it cannot be read or exported and may sign,
    and a signature made with it verified under the key that is reported. *)
Theorem opened_key_is_hardware c w w' s : OpenPKCS11 (Some c) w = (w', Ok s) ->
  hardware_key (mctx (held s)) (KeyLabel c) (pubKey s) (session s) (privHandle s).
Proof.
  cbn; intros H; destruct (loadModule (Library c) w) as [ w1 [ m | e | ] ]; try done.
  set (fresh := {| cfg := c |}) in H; unfold within in H; destruct (connectLocked (fresh, outside w1)) as [ [ s1 t1 ] [ [] | e | ] ] eqn:C; try done.
  pose proof (connect_held _ _ _ _ _ C) as K; apply connect_ok in C; unfold same_held in K; cbn in K.
  destruct (away _ _) as [ w2 info ] in H; injection H as <- <-; cbn; rewrite K; done.
Qed.

End Signing.

(** *** Holders of a module *)

Definition holders (m : module) (hs : list module) : Z := len (filter (fun h => mid h = mid m) hs).

Lemma holders_cons m h hs : holders m (h :: hs) = (if decide (mid h = mid m) then 1 else 0) + holders m hs.
Proof. unfold holders; rewrite filter_cons; destruct (decide _); rewrite ?len_cons; lia. Qed.

Lemma holders_app m hs ks : holders m (hs ++ ks) = holders m hs + holders m ks.
Proof. unfold holders; rewrite filter_app, len_app; done. Qed.

Lemma holders_in m hs : m ∈ hs -> 0 < holders m hs.
Proof.
  intros I; unfold holders; assert (m ∈ filter (fun h => mid h = mid m) hs) as J by (apply list_elem_of_filter; done).
  destruct (filter _ hs); [ inversion J | rewrite len_cons; pose proof (len_nonneg l); lia ].
Qed.

Lemma holders_some m hs : 0 < holders m hs -> exists h, h ∈ hs /\ mid h = mid m.
Proof.
  unfold holders; match goal with |- 0 < len ?l -> _ => destruct l as [ | h k ] eqn:F; intros P; [ by cbn in P | ] end.
  exists h; assert (h ∈ h :: k) as J by (by left); rewrite <- F in J.
  by apply list_elem_of_filter in J as [ E J ].
Qed.

Lemma holders_none m hs : (forall h, h ∈ hs -> mid h <> mid m) -> holders m hs = 0.
Proof.
  intros N; assert (0 <= holders m hs) by apply len_nonneg; destruct (Z.eq_dec (holders m hs) 0); [ done | ].
  destruct (holders_some m hs) as (h & I & E); [ lia | by apply N in E ].
Qed.

(** The registry is of the modules held, each with the count of its holders. *)
Record counted (w : World) (hs : list module) : Prop := {
  cnt_held m : m ∈ hs -> modules w !! mpath m = Some m;
  cnt_registered p m : modules w !! p = Some m -> mpath m = p /\ (mid m < next w)%nat /\ countOf m w = holders m hs /\ m ∈ hs;
  cnt_apart p q m n : modules w !! p = Some m -> modules w !! q = Some n -> mid m = mid n -> p = q
}.

Lemma counted_outside t w hs : counted w hs -> counted (setOutside t w) hs.
Proof. intros [ H R A ]; constructor; done. Qed.

Lemma counted_same w hs m h : counted w hs -> h ∈ hs -> modules w !! mpath m = Some m -> mid h = mid m -> h = m.
Proof. intros C I M E; pose proof (cnt_held _ _ C _ I) as J; pose proof (cnt_apart _ _ C _ _ _ _ J M E) as P; congruence. Qed.

Lemma load_counted path w hs w' r : counted w hs -> loadModule path w = (w', r) ->
  match r with Ok m => counted w' (m :: hs) | _ => counted w' hs end.
Proof.
  intros C; unfold loadModule; destruct (modules w !! path) as [ m | ] eqn:M.
  - intros H; injection H as <- <-; destruct (cnt_registered _ _ C _ _ M) as (P & N & K & I).
    constructor; cbn.
    + intros h J; apply elem_of_cons in J as [ -> | J ]; [ by rewrite P | by apply C ].
    + intros p h J; destruct (cnt_registered _ _ C _ _ J) as (? & ? & Kh & ?); split_and!; try done; [ | by right ].
      rewrite holders_cons; unfold countOf in *; cbn; destruct (decide (mid m = mid h)) as [ E | E ].
      * rewrite E, lookup_insert_eq; cbn; rewrite <- Kh; lia.
      * rewrite lookup_insert_ne by done; lia.
    + apply C.
  - destruct (NewCtx path (outside w)) as [ t [ ctx | ] ]; [ | intros H; injection H as <- <-; by apply counted_outside ].
    destruct (Initialize ctx t) as [ t1 r1 ]; intros H.
    assert (forall o, let m := {| mid := next w; mpath := path; mctx := ctx; owned := o |} in
      counted {| outside := t1; refs := <[ mid m := 1 ]> (refs w); modules := <[ path := m ]> (modules w); next := S (next w) |} (m :: hs)) as New.
    { intros o m; assert (forall h, h ∈ hs -> (mid h < next w)%nat) as Old.
      { intros h J; apply (cnt_held _ _ C) in J; by apply (cnt_registered _ _ C) in J as (_ & ? & _). }
      constructor; cbn.
      - intros h J; apply elem_of_cons in J as [ -> | J ]; [ by rewrite lookup_insert_eq | ].
        pose proof (cnt_held _ _ C _ J) as Q; rewrite lookup_insert_ne; [ done | intros ->; cbn in *; congruence ].
      - intros p h J; rewrite holders_cons; unfold countOf; cbn; apply lookup_insert_Some in J as [ [ <- <- ] | [ Ne J ] ].
        + cbn; rewrite lookup_insert_eq, decide_True by done; split_and!; [ done | lia | | by left ].
          rewrite holders_none; [ done | intros h I; apply Old in I; cbn; lia ].
        + destruct (cnt_registered _ _ C _ _ J) as (? & ? & Kh & ?); rewrite lookup_insert_ne, decide_False by lia.
          split_and!; [ done | lia | done | by right ].
      - intros p q h k J1 J2 E; apply lookup_insert_Some in J1 as [ [ <- <- ] | [ N1 J1 ] ]; apply lookup_insert_Some in J2 as [ [ <- <- ] | [ N2 J2 ] ]; try done.
        + apply (cnt_registered _ _ C) in J2 as (_ & ? & _); cbn in E; lia.
        + apply (cnt_registered _ _ C) in J1 as (_ & ? & _); cbn in E; lia.
        + by eapply (cnt_apart _ _ C). }
    destruct r1 as [ [] | [ code | msg ] | ]; [ | destruct (code =? _) | | ]; injection H as <- <-; try apply New; by apply counted_outside.
Qed.

Lemma release_counted w hs1 m hs2 : counted w (hs1 ++ m :: hs2) -> counted (release m w) (hs1 ++ hs2) /\
  (m ∈ hs1 ++ hs2 -> outside (release m w) = outside w) /\ (m ∉ hs1 ++ hs2 -> modules (release m w) !! mpath m = None).
Proof.
  intros C; assert (modules w !! mpath m = Some m) as M by (apply (cnt_held _ _ C); set_solver).
  destruct (cnt_registered _ _ C _ _ M) as (_ & N & K & _).
  assert (forall h, holders h (hs1 ++ m :: hs2) = (if decide (mid m = mid h) then 1 else 0) + holders h (hs1 ++ hs2)) as Less
    by (intros h; rewrite !holders_app, holders_cons; lia).
  assert (countOf m w - 1 = holders m (hs1 ++ hs2)) as K1 by (pose proof (Less m) as Q; rewrite decide_True in Q by done; rewrite K; lia).
  assert (forall h, h ∈ hs1 ++ hs2 -> h ∈ hs1 ++ m :: hs2) as Sub by set_solver.
  unfold release; rewrite K1; destruct (0 <? holders m (hs1 ++ hs2)) eqn:Z0; b2p.
  - assert (m ∈ hs1 ++ hs2) as I.
    { apply holders_some in Z0 as (h & J & E); rewrite <- (counted_same w _ m h C); auto. }
    split; [ | split; [ done | tauto ] ]; constructor; cbn.
    + intros h J; apply C, Sub, J.
    + intros p h J; destruct (cnt_registered _ _ C _ _ J) as (? & ? & Kh & Ih); unfold countOf in *; cbn.
      split_and!; [ done | done | | ].
      * rewrite Less in Kh; destruct (decide (mid m = mid h)) as [ E | E ]; [ rewrite E, lookup_insert_eq; cbn; unfold holders; rewrite E; done | rewrite lookup_insert_ne by done; lia ].
      * apply elem_of_app in Ih as [ ? | Ih ]; [ set_solver | ]; apply elem_of_cons in Ih as [ -> | ? ]; [ done | set_solver ].
    + apply C.
  - assert (m ∉ hs1 ++ hs2) as I by (intros I; apply holders_in in I; lia).
    split; [ | split; [ tauto | intros _; cbn; apply lookup_delete_eq ] ]; constructor; cbn.
    + intros h J; rewrite lookup_delete_ne; [ apply C, Sub, J | ]; intros E.
      pose proof (cnt_held _ _ C _ (Sub _ J)) as Q; rewrite <- E, M in Q; injection Q as <-; done.
    + intros p h J; apply lookup_delete_Some in J as [ Ne J ]; destruct (cnt_registered _ _ C _ _ J) as (? & ? & Kh & Ih); unfold countOf in *; cbn.
      assert (mid m <> mid h) as E by (intros E; apply Ne; by eapply (cnt_apart _ _ C)).
      rewrite Less, decide_False in Kh by done; rewrite lookup_insert_ne by done; split_and!; try done.
      apply elem_of_app in Ih as [ ? | Ih ]; [ set_solver | ]; apply elem_of_cons in Ih as [ -> | ? ]; [ done | set_solver ].
    + intros p q h k J1 J2 E; apply lookup_delete_Some in J1 as [ _ J1 ]; apply lookup_delete_Some in J2 as [ _ J2 ]; by eapply (cnt_apart _ _ C).
Qed.

(** The worlds reached by opening, making keys and closing each signer once,
    with the modules of the signers that are open; tokens are used in between. *)
Inductive reach : World -> list module -> Prop :=
| reach_start t : reach {| outside := t; refs := ∅; modules := ∅; next := 0 |} []
| reach_open c w hs w' s : reach w hs -> OpenPKCS11 c w = (w', Ok s) -> reach w' (held s :: hs)
| reach_refused c w hs w' e : reach w hs -> OpenPKCS11 c w = (w', Err e) -> reach w' hs
| reach_generate c entropy w hs w' r : reach w hs -> GeneratePKCS11Key c entropy w = (w', r) -> reach w' hs
| reach_use t w hs : reach w hs -> reach (setOutside t w) hs
| reach_close s w hs1 hs2 : reach w (hs1 ++ held s :: hs2) -> reach (snd (Close s w)) (hs1 ++ hs2).

Lemma open_counted c w hs w' r : counted w hs -> OpenPKCS11 c w = (w', r) ->
  match r with Ok s => counted w' (held s :: hs) | Err _ => counted w' hs | Panic => True end.
Proof.
  intros C; unfold OpenPKCS11; destruct c as [ c | ]; [ | intros H; settle H; done ].
  destruct (loadModule (Library c) w) as [ w1 [ m | e | ] ] eqn:L; pose proof (load_counted _ _ _ _ _ C L) as C1; intros H; [ | settle H; done | settle H; done ].
  unfold within in H; destruct (connectLocked _) as [ [ s1 t1 ] [ [] | e | ] ] eqn:Q; [ | settle H | settle H; done ].
  - pose proof (connect_held _ _ _ _ _ Q) as K; unfold same_held in K; cbn in K; unfold away in H.
    destruct (attempt _ _) as [ t2 info ] in H; injection H as <- <-; cbn; rewrite K; by apply counted_outside, counted_outside.
  - apply (release_counted _ [] m hs); by apply counted_outside.
Qed.

Lemma generate_counted c entropy w hs w' r : counted w hs -> GeneratePKCS11Key c entropy w = (w', r) -> counted w' hs.
Proof.
  intros C; unfold GeneratePKCS11Key.
  destruct (loadModule (Library c) w) as [ w1 [ m | e | ] ] eqn:L; pose proof (load_counted _ _ _ _ _ C L) as C1; intros H; [ | settle H; done | settle H; done ].
  unfold away in H; destruct (bind _ _ _) as [ t2 r2 ] in H; injection H as <- <-; apply (release_counted _ [] m hs); by apply counted_outside.
Qed.

Lemma close_eq s w : exists t, snd (Close s w) = release (held s) (setOutside t w).
Proof.
  unfold Close, within; destruct (closeLocked _) as [ [ s1 t1 ] r ] eqn:E; apply closeLocked_keeps in E as [ _ K ].
  unfold same_held in K; exists t1; cbn; rewrite K; done.
Qed.

Lemma reach_counted w hs : reach w hs -> counted w hs.
Proof.
  induction 1 as [ t | c w hs w' s _ C H | c w hs w' e _ C H | c en w hs w' r _ C H | t w hs _ C | s w hs1 hs2 _ C ].
  - constructor; cbn; [ intros m I; inversion I | intros p m I; rewrite lookup_empty in I; done | intros p q m n I; rewrite lookup_empty in I; done ].
  - exact (open_counted _ _ _ _ _ C H).
  - exact (open_counted _ _ _ _ _ C H).
  - by eapply generate_counted.
  - by apply counted_outside.
  - destruct (close_eq s w) as [ t -> ]; apply (release_counted _ hs1 (held s) hs2); by apply counted_outside.
Qed.

(** While a signer is open its module is registered, with the number of signers
    that hold it; closing one of several leaves the library alone, and closing
    the last one unregisters it. *)
Theorem library_outlives_its_holders w hs : reach w hs ->
  (forall m, m ∈ hs -> modules w !! mpath m = Some m /\ countOf m w = holders m hs) /\
  (forall s hs1 hs2, hs = hs1 ++ held s :: hs2 ->
     (held s ∈ hs1 ++ hs2 -> modules (snd (Close s w)) !! mpath (held s) = Some (held s) /\
        outside (snd (Close s w)) = snd (fst (closeLocked (E := HsmErr) (s, outside w)))) /\
     (held s ∉ hs1 ++ hs2 -> modules (snd (Close s w)) !! mpath (held s) = None)).
Proof.
  intros R; pose proof (reach_counted _ _ R) as C; split.
  - intros m I; pose proof (cnt_held _ _ C _ I) as M; split; [ done | by apply (cnt_registered _ _ C) in M as (_ & _ & ? & _) ].
  - intros s hs1 hs2 ->; unfold Close, within; destruct (closeLocked (s, outside w)) as [ [ s1 t1 ] r ] eqn:E; pose proof (closeLocked_keeps _ _ _ _ _ E) as [ _ K ].
    unfold same_held in K; cbn [fst snd]; rewrite K.
    destruct (release_counted (setOutside t1 w) hs1 (held s) hs2) as (C' & Same & Gone); [ by apply counted_outside | ].
    split; [ intros I; split; [ by apply (cnt_held _ _ C') | by rewrite Same ] | done ].
Qed.

(** A key is made only where none of its label was found, and it is made to
    stay in the module. *)
Lemma generated_is_new ctx se label entropy t t' : generateIn ctx se label entropy t = (t', Ok tt) ->
  (exists t1 t2, findAll ctx se CKO_PRIVATE_KEY label t1 = (t2, Ok [])) /\ (exists t1 t2, findAll ctx se CKO_PUBLIC_KEY label t1 = (t2, Ok [])) /\
  exists id t1 hs, GenerateKeyPair ctx se CKM_EC_KEY_PAIR_GEN (pubTemplate label id) (privTemplate label id) t1 = (t', Ok hs).
Proof.
  intros H; apply bind_ok in H as (t1 & [] & N & H); cbn in N.
  apply bind_ok in N as (t2 & o & F & N); destruct o; [ | done ]; cbn in N; apply bind_ok in N as (t3 & o & G & N); destruct o; [ | done ].
  destruct entropy as [ id | ]; [ | done ]; apply bind_ok in H as (t4 & hs & K & H); apply wrapping_ok in K; inversion H; subst; eauto 10.
Qed.
End Token.

Arguments module : clear implicits.
Arguments PKCS11Signer : clear implicits.
Arguments World : clear implicits.

(** ** A token *)

Module Simple.
(** Keys are abscissas, R of a signature is the key's. *)
Definition word (v : Z) : bytes := match fill_bytes (E := unit) 32 v with Ok b => b | _ => [] end.

#[export] Instance secp : Secp := {
  parsePubKey m := if len m =? 65 then Some (be_val (take 32 (drop 1 m)), be_val (drop 33 m)) else None;
  setByteSlice b := (be_val b mod curveN, curveN <=? be_val b);
  isOverHalfOrder v := curveN / 2 <? v;
  negate v := (curveN - v) mod curveN;
  scalarBytes v := word v;
  verifies r s d p := r =? fst p;
  signCompact d digest := 27 :: word d ++ word 5;
  recoverCompact c d := Some (be_val (take 32 (drop 1 c)) mod 256 ^ 32, 0);
  scalarBaseMult d := (be_val d mod 256 ^ 32, 0);
  keccak b := replicate 32 7
}.

#[export] Instance scalars : SecpScalars secp.
Proof.
  constructor; cbn; try done.
  - intros v V; unfold word; destruct (fill_bytes_fits (E := unit) 32 v) as [ b B ]; [ unfold curveN in V; lia | ].
    rewrite B; apply fill_bytes_spec in B as (L & W & O); [ | lia ]; unfold len; rewrite L; done.
  - intros c d x y H; injection H as <- <-; split; [ apply Z.mod_pos_bound; lia | lia ].
Qed.

(** A token with one key pair; its session may be gone, and some signatures fail. *)
Record Tok := { keyOf : Z; gone : bool; failing : nat }.
Definition opened (t : Tok) : Tok := {| keyOf := keyOf t; gone := false; failing := failing t |}.
Definition fine {A} (a : A) : ST Tok TokErr A := fun t => (t, Ok a).

#[export] Instance cryptoki : Cryptoki Tok unit := {
  NewCtx _ t := (t, Some tt);
  Initialize _ := fine tt; Finalize _ := fine tt; Destroy _ t := t;
  GetSlotList _ _ := fine [ 3 ];
  GetTokenInfo _ _ := fine {| Label := "vault  "; ManufacturerID := "m"; Model := "x" |};
  OpenSession _ _ _ := fun t => (opened t, Ok 1);
  CloseSession _ _ := fine tt; Login _ _ _ _ := fine tt; Logout _ _ := fine tt;
  FindObjectsInit _ _ _ := fine tt; FindObjects _ _ _ := fine [ 8 ]; FindObjectsFinal _ _ := fine tt;
  GetAttributeValue _ _ _ tpl := fun t =>
    (t, Ok ((fun '(ty, _) => {| aType := ty; aValue :=
      if ty =? CKA_KEY_TYPE then [ 3 ] else if ty =? CKA_EXTRACTABLE then [ 0 ] else if ty =? CKA_EC_PARAMS then secp256k1Params
      else if ty =? CKA_EC_POINT then 4 :: word (keyOf t) ++ word 0 else [ 1 ] |}) <$> tpl));
  SignInit _ _ _ _ := fun t => if gone t then (t, Err (Ckr CKR_SESSION_CLOSED)) else (t, Ok tt);
  TokenSign _ _ _ := fun t =>
    match failing t with
    | S n => ({| keyOf := keyOf t; gone := gone t; failing := n |}, Err (Ckr CKR_DEVICE_ERROR))
    | O => (t, Ok (word (keyOf t) ++ word 5))
    end;
  GenerateKeyPair _ _ _ _ _ := fine (8, 8)
}.

Lemma word_bytes v : bytes_ok (word v).
Proof.
  unfold word; destruct (fill_bytes (E := unit) 32 v) eqn:E; [ | constructor | constructor ]; unfold fill_bytes in E.
  destruct (_ <=? _); simplify_eq; apply Forall_app; split; [ apply Forall_replicate; unfold byte_ok; lia | apply big_bytes_ok ].
Qed.

Lemma token_bytes ctx se d t t' rs : TokenSign (Cryptoki := cryptoki) ctx se d t = (t', Ok rs) -> bytes_ok rs.
Proof. cbn; destruct (failing t); intros H; simplify_eq; apply Forall_app; split; apply word_bytes. Qed.

Definition sha (b : bytes) : bytes := replicate 32 9.
Definition quoted (s : string) : string := s.
Definition conf : PKCS11Config := {| Library := "lib.so"; TokenLabel := "vault"; Slot := 0; HasSlot := false; PIN := "1234"; KeyLabel := "hot" |}.
Definition start (t : Tok) : World Tok unit := {| outside := t; refs := ∅; modules := ∅; next := 0 |}.

Definition afresh (t : Tok) : World Tok unit * result HsmErr (PKCS11Signer unit) := OpenPKCS11 sha quoted (Some conf) (start t).

(** The signer of key 7, its session gone, and what the token then holds. *)
Definition signer : PKCS11Signer unit :=
  {| cfg := conf; held := {| mid := 0; mpath := "lib.so"; mctx := tt; owned := true |}; slot := 3; session := 1; privHandle := 8; isOpen := true;
     pubKey := 4 :: word 7 ++ word 0; describe := "PKCS#11 key hot on token vault, m x" |}.

Lemma hsm_opening : afresh {| keyOf := 7; gone := true; failing := 0 |} =
  ({| outside := {| keyOf := 7; gone := false; failing := 0 |}; refs := {[ 0%nat := 1 ]}; modules := {[ "lib.so" := held signer ]}; next := 1 |}, Ok signer).
Proof. vm_compute. reflexivity. Qed.

Definition digest : bytes := replicate 32 1.

Lemma hsm_keeps_its_key_witness :
  Forall2 (fun d r => forall sig, r = Ok sig -> signature_of (pubKey signer) d sig) [ digest; digest ]
    (signAll sha [ digest; digest ] (signer, {| keyOf := 7; gone := true; failing := 0 |})) /\
  Forall (fun r => is_ok r = true) (signAll sha [ digest; digest ] (signer, {| keyOf := 7; gone := true; failing := 0 |})).
Proof.
  split; [ | vm_compute; repeat constructor ].
  apply (hsm_keeps_its_key sha token_bytes); vm_compute; repeat constructor.
Defined.

Lemma opened_key_is_hardware_witness :
  hardware_key sha tt "hot" (pubKey signer) (session signer) (privHandle signer).
Proof.
  apply (opened_key_is_hardware sha quoted token_bytes conf (start {| keyOf := 7; gone := true; failing := 0 |})
    {| outside := {| keyOf := 7; gone := false; failing := 0 |}; refs := {[ 0%nat := 1 ]}; modules := {[ "lib.so" := held signer ]}; next := 1 |} signer).
  exact hsm_opening.
Defined.

Lemma bare_signature_normalised_witness :
  (forall sig, RecoverableSignature digest (word 7 ++ word (curveN - 5)) (pubKey signer) = Ok sig -> signature_of (pubKey signer) digest sig) /\
  RecoverableSignature digest (word 7 ++ word (curveN - 5)) (pubKey signer) = Ok (word 7 ++ word 5 ++ [ 0 ]).
Proof.
  split; [ | vm_compute; reflexivity ]; intros sig H.
  apply (bare_signature_normalised digest (word 7 ++ word (curveN - 5)) (pubKey signer)); [ | exact H ].
  apply Forall_app; split; apply word_bytes.
Defined.

Lemma library_outlives_its_holders_witness :
  modules (snd (Close signer (fst (afresh {| keyOf := 7; gone := true; failing := 0 |})))) !! "lib.so" = None.
Proof.
  rewrite hsm_opening; cbn [fst].
  apply (library_outlives_its_holders sha quoted
    {| outside := {| keyOf := 7; gone := false; failing := 0 |}; refs := {[ 0%nat := 1 ]}; modules := {[ "lib.so" := held signer ]}; next := 1 |} [ held signer ]) with (s := signer) (hs1 := []) (hs2 := []).
  - eapply reach_open; [ apply (reach_start sha quoted {| keyOf := 7; gone := true; failing := 0 |}) | exact hsm_opening ].
  - reflexivity.
  - intros I; inversion I.
Defined.

(** The key under the label is replaced while the session is down.  The first
    call is refused by the self-test, which the token fails; by then the signer
    reports the new key, and the next call signs with it. *)
Lemma failed_self_test_changes_key :
  let '(st1, r1) := hsmSignDigest sha digest (signer, {| keyOf := 9; gone := true; failing := 1 |}) in
  let '(st2, r2) := hsmSignDigest sha digest st1 in
  r1 = Err (SessionLost (Ckr CKR_SESSION_CLOSED) (SelfTestFailed (Ckr CKR_DEVICE_ERROR))) /\
  pubKey (fst st1) = 4 :: word 9 ++ word 0 /\ pubKey (fst st1) <> pubKey signer /\
  r2 = Ok (word 9 ++ word 5 ++ [ 0 ]).
Proof. vm_compute; repeat split; discriminate. Qed.

(** Without the failure it is refused, and the key is kept. *)
Lemma replaced_key_is_refused :
  let '(st1, r1) := hsmSignDigest sha digest (signer, {| keyOf := 9; gone := true; failing := 0 |}) in
  r1 = Err (SessionLost (Ckr CKR_SESSION_CLOSED) (KeyChanged "hot")) /\ pubKey (fst st1) = pubKey signer.
Proof. vm_compute; split; reflexivity. Qed.
End Simple.
End Hsm.
