(* ===== verification/ChainSigners.v ===== *)
(** * The signers of the chains, and the router

    Models [services/mpc-signer/chains/ethereum.go], the signing half of
    [chains/bitcoin.go], [chains/keysigned.go] (signing with a [KeySigner]) and
    [chains/router.go].  The methods of the Solana and Cosmos signers are those
    of Solana.v and Cosmos.v.

    Shown here: the two ways to sign, with the text of a private key and with a
    signer that holds it, give the same signature on Ethereum and Cosmos (Bitcoin
    uses two libraries, one for each way); and with a signer, the address answered is the one of the key the signer reports. *)

From Stdlib Require Import ZArith Lia Ascii String.
From stdpp Require Import base list numbers strings.
From S2P Require Import Prelude GoStrings GoText EthCrypto EthTx CoinSelect BitcoinPlan KeySigner Solana Cosmos SolanaService CosmosService BitcoinService Hsm.

Open Scope Z_scope.

Module ChainSigners.
Import EthCrypto KeySigner.
#[local] Open Scope string_scope.
#[local] Open Scope list_scope.
#[local] Open Scope Z_scope.

Abbreviation Signature := Solana.Signature.

(** The libraries the signers call: base58 and Ed25519, the hashes and bech32,
    JSON, btcec v1 and txscript. *)
Class Libraries (BT : BitcoinService.Btcd) := {
  b58decode : string -> bytes;
  newKeyFromSeed : bytes -> bytes;
  edSign : bytes -> bytes -> bytes;
  edVerify : bytes -> bytes -> bytes -> bool;
  sha256 : bytes -> bytes;
  ripemd160 : bytes -> bytes;
  convertBits : bytes -> option bytes;
  bech32Encode : string -> bytes -> option string;
  marshal : Cosmos.Json -> option bytes;
  (** [btcec.SignCompact(S256(), key, hash, true)], [RecoverCompact] with whether
      the key is compressed, [ParsePubKey] and the serialisations, version 1 *)
  signCompact1 : bytes -> bytes -> option bytes;
  recoverCompact1 : bytes -> bytes -> option (Z * Z * bool);
  parsePubKey1 : bytes -> option (Z * Z);
  serializeCompressed1 : Z * Z -> bytes;
  serializeUncompressed1 : Z * Z -> bytes;
  (** [txscript.SignatureScript(tx, i, script, SigHashAll, key, true)] and
      [CalcSignatureHash(script, SigHashAll, tx, i)] *)
  signatureScript : BitcoinPlan.MsgTx BitcoinService.Hash BitcoinService.Rest -> Z -> bytes -> bytes -> option bytes;
  calcSignatureHash : bytes -> BitcoinPlan.MsgTx BitcoinService.Hash BitcoinService.Rest -> Z -> option bytes
}.

Inductive ChainErr : Type :=
| UnsupportedChain (id : string) | InvalidKey (e : CryptoErr) | SigningFailed (e : CryptoErr) | PublicKeyHex | SignatureHex | RecoveryFailed
| InvalidTo (s : string) | InvalidValue (s : string) | InvalidGasPrice (s : string) | InvalidData | TxRefused (e : EthTx.TxErr)
| WrongTxType | NoEthereumBroadcast
| HashLength (n : Z) | KeyNotHex | KeyLength (n : Z) | CompactFailed | CompactLength (n : Z) | NoSignature | SignatureLength (n : Z) | NoP2PKH
| NoInputs | NoOutputs | NetErr (e : CoinSelect.BtcErr) | InvalidTxid (s : string) | InvalidVout (n : Z) | InvalidOutput (s : string)
| OtherNetwork (s : string) | NoScript (s : string) | OutputAmount (n : Z) | NotSerialized | NotDeserialized | InputRange (i n : Z) | NoSigHash (i : Z)
| InputSigning (i : Z) | NoSigScript
| SolanaErr (e : Solana.SolErr) | CosmosErr (e : Cosmos.CosErr)
| NoSolanaNode | SolanaNode (e : SolanaService.RpcErr) | NoCosmosNode | CosmosNode (e : CosmosService.NodeErr) | BitcoinNode (e : BitcoinService.BroadcastErr)
| KeyRefused (e : KeySigner.KeyErr) | Malformed (describe : string) (n : Z) | CannotSign (id describe : string).

Section Chains.
Context {SP : Secp} {BT : BitcoinService.Btcd} {LB : Libraries BT}.

(** ** Ethereum *)

(** [&Signature{...}] of [R || S || V] *)
Definition signatureOf (prefix : string) (sig : bytes) : result ChainErr Signature :=
  let! r := slice sig 0 32 in
  let! s := slice sig 32 64 in
  let! v := index sig 64 in
  Ok {| Solana.R := hex_encode r; Solana.S_ := hex_encode s; Solana.V := v; Solana.SignatureBytes := prefix +:+ hex_encode sig |}.

Definition EthSignMessage (messageHash : bytes) (privKeyHex : string) : result ChainErr Signature :=
  let! privKey := map_err InvalidKey (HexToECDSA scalarBaseMult privKeyHex) in
  let! signature := map_err SigningFailed (Sign signCompact messageHash privKey) in
  signatureOf "0x" signature.

(** [signature.SignatureBytes[2:]], decoded; a nil signature is dereferenced *)
Definition ethSignatureBytes (signature : option Signature) : result ChainErr bytes :=
  match signature with
  | None => Panic
  | Some s =>
      match Solana.SignatureBytes s with
      | String _ (String _ text) => match hex_decode text with None => Err SignatureHex | Some b => Ok b end
      | _ => Panic
      end
  end.

Definition EthVerifySignature (messageHash : bytes) (signature : option Signature) (pubKey : string) : result ChainErr bool :=
  match hex_decode pubKey with
  | None => Err PublicKeyHex
  | Some pubKeyBytes =>
      let! sigBytes := ethSignatureBytes signature in
      let! rs := slice sigBytes 0 64 in
      Ok (verifySignature pubKeyBytes messageHash rs)
  end.

Definition EthRecoverAddress (messageHash : bytes) (signature : option Signature) : result ChainErr string :=
  let! sigBytes := ethSignatureBytes signature in
  let! p := map_err (fun _ => RecoveryFailed) (SigToPub recoverCompact messageHash sigBytes) in
  map_err (fun _ => RecoveryFailed) (Address keccak (fst p) (snd p)).

Record EthereumSignRequest := { ethChainID : Z; ethTo : string; ethValue : string; ethData : string; ethGasLimit : Z; ethGasPrice : string; ethNonce : Z }.

Definition EthBuildTransaction (req : EthereumSignRequest) : result ChainErr bytes :=
  let! to := map_err (fun _ => InvalidTo (ethTo req)) (ParseAddress (ethTo req)) in
  match big_of_dec (ethValue req) with
  | None => Err (InvalidValue (ethValue req))
  | Some value =>
      match big_of_dec (ethGasPrice req) with
      | None => Err (InvalidGasPrice (ethGasPrice req))
      | Some gasPrice =>
          let trimmed := trim_prefix "0x" (ethData req) in
          let! data := (if String.eqb trimmed "" then Ok []
                        else match hex_decode trimmed with None => Err InvalidData | Some d => Ok d end) in
          map_err TxRefused (EthTx.SigningHash keccak
            {| EthTx.ChainID := Some (i64 (ethChainID req)); EthTx.Nonce := ethNonce req; EthTx.Gas := ethGasLimit req;
               EthTx.GasPrice := Some gasPrice; EthTx.MaxFee := None; EthTx.Tip := None; EthTx.To := Some to;
               EthTx.Value := Some value; EthTx.Data := data |})
      end
  end.

(** ** Bitcoin *)

Definition decodeBitcoinPrivKey (privKeyHex : string) : result ChainErr bytes :=
  match hex_decode (strip0x privKeyHex) with
  | None => Err KeyNotHex
  | Some key => refuse! negb (len key =? 32) with KeyLength (len key); Ok key
  end.

(** [&Signature{...}] of [V || R || S] *)
Definition compactOf (compact : bytes) : result ChainErr Signature :=
  let! v := index compact 0 in
  let! r := slice compact 1 33 in
  let! s := slice compact 33 65 in
  Ok {| Solana.R := hex_encode r; Solana.S_ := hex_encode s; Solana.V := v; Solana.SignatureBytes := hex_encode compact |}.

Definition BtcSignMessage (messageHash : bytes) (privKeyHex : string) : result ChainErr Signature :=
  refuse! negb (len messageHash =? 32) with HashLength (len messageHash);
  let! privKey := decodeBitcoinPrivKey privKeyHex in
  match signCompact1 privKey messageHash with
  | None => Err CompactFailed
  | Some compact => refuse! negb (len compact =? 65) with CompactLength (len compact); compactOf compact
  end.

(** The 65 bytes of a compact signature. *)
Definition btcCompact (signature : Signature) : result ChainErr bytes :=
  match hex_decode (Solana.SignatureBytes signature) with
  | None => Err SignatureHex
  | Some compact => refuse! negb (len compact =? 65) with SignatureLength (len compact); Ok compact
  end.

Definition BtcVerifySignature (messageHash : bytes) (signature : option Signature) (pubKeyHex : string) : result ChainErr bool :=
  match signature with
  | None => Err NoSignature
  | Some signature =>
      match hex_decode pubKeyHex with
      | None => Err PublicKeyHex
      | Some pubKeyBytes =>
          match parsePubKey1 pubKeyBytes with
          | None => Err PublicKeyHex
          | Some expected =>
              let! compact := btcCompact signature in
              match recoverCompact1 compact messageHash with
              | None => Err RecoveryFailed
              | Some (recovered, _) => Ok (bool_decide (recovered = expected))
              end
          end
      end
  end.

Definition BtcRecoverAddress (messageHash : bytes) (signature : option Signature) : result ChainErr string :=
  match signature with
  | None => Err NoSignature
  | Some signature =>
      let! compact := btcCompact signature in
      match recoverCompact1 compact messageHash with
      | None => Err RecoveryFailed
      | Some (pubKey, compressed) =>
          let serialized := if compressed then serializeCompressed1 pubKey else serializeUncompressed1 pubKey in
          match BitcoinService.pubKeyHashAddress (BitcoinService.hash160 serialized) CoinSelect.MainNet with
          | None => Err NoP2PKH
          | Some addr => Ok addr
          end
      end
  end.

Fixpoint btcInputs (ins : list CoinSelect.BitcoinInput) : result ChainErr (list (BitcoinPlan.TxIn BitcoinService.Hash)) :=
  match ins with
  | [] => Ok []
  | x :: ins =>
      match BitcoinService.newHashFromStr (CoinSelect.inTxid x) with
      | None => Err (InvalidTxid (CoinSelect.inTxid x))
      | Some h =>
          refuse! CoinSelect.inVout x <? 0 with InvalidVout (CoinSelect.inVout x);
          let! rest := btcInputs ins in
          Ok ({| BitcoinPlan.prevHash := h; BitcoinPlan.prevIndex := u32 (CoinSelect.inVout x) |} :: rest)
      end
  end.

Fixpoint btcOutputs (params : CoinSelect.Params) (outs : list CoinSelect.BitcoinOutput) : result ChainErr (list BitcoinPlan.TxOut) :=
  match outs with
  | [] => Ok []
  | o :: outs =>
      match BitcoinService.decodeAddress (CoinSelect.outAddress o) params with
      | None => Err (InvalidOutput (CoinSelect.outAddress o))
      | Some addr =>
          refuse! negb (BitcoinService.isForNet addr params) with OtherNetwork (CoinSelect.outAddress o);
          match BitcoinService.payToAddrScript addr with
          | None => Err (NoScript (CoinSelect.outAddress o))
          | Some script =>
              refuse! CoinSelect.outAmount o <=? 0 with OutputAmount (CoinSelect.outAmount o);
              let! rest := btcOutputs params outs in
              Ok ({| BitcoinPlan.outValue := CoinSelect.outAmount o; BitcoinPlan.pkScript := script |} :: rest)
          end
      end
  end.

(** [BitcoinSignRequest] has the fields of the threshold path's request. *)
Definition BtcBuildTransaction (req : CoinSelect.BitcoinSigningRequest) : result ChainErr bytes :=
  refuse! len (CoinSelect.sigInputs req) =? 0 with NoInputs;
  refuse! len (CoinSelect.sigOutputs req) =? 0 with NoOutputs;
  let! params := map_err NetErr (CoinSelect.bitcoinNetParams (CoinSelect.sigNetwork req)) in
  let! ins := btcInputs (CoinSelect.sigInputs req) in
  let! outs := btcOutputs params (CoinSelect.sigOutputs req) in
  match BitcoinService.serialize {| BitcoinPlan.txIns := ins; BitcoinPlan.txOuts := outs |} with
  | None => Err NotSerialized
  | Some raw => Ok raw
  end.

(** The transaction, when it has the input. *)
Definition inputOf (rawTx : bytes) (inputIndex : Z) : result ChainErr (BitcoinPlan.MsgTx BitcoinService.Hash BitcoinService.Rest) :=
  match BitcoinService.deserialize rawTx with
  | None => Err NotDeserialized
  | Some tx =>
      refuse! (inputIndex <? 0) || (len (BitcoinPlan.msgIns tx) <=? inputIndex) with InputRange inputIndex (len (BitcoinPlan.msgIns tx));
      Ok tx
  end.

Definition withScript (tx : BitcoinPlan.MsgTx BitcoinService.Hash BitcoinService.Rest) (inputIndex : Z) (script : bytes) : result ChainErr bytes :=
  match BitcoinService.serializeTx (BitcoinPlan.updateInput (Z.to_nat inputIndex) (BitcoinPlan.setScript script) tx) with
  | None => Err NotSerialized
  | Some raw => Ok raw
  end.

Definition SignTransactionInput (rawTx : bytes) (inputIndex : Z) (prevOutScript : bytes) (privKeyHex : string) : result ChainErr bytes :=
  let! tx := inputOf rawTx inputIndex in
  let! privKey := decodeBitcoinPrivKey privKeyHex in
  match signatureScript tx inputIndex prevOutScript privKey with
  | None => Err (InputSigning inputIndex)
  | Some script => withScript tx inputIndex script
  end.

(** ** With a key held elsewhere *)

(** What comes of a call on a signer: its own errors, or those met here. *)
Inductive Keyed (E A : Type) : Type := SignerErr (describe : string) (e : E) | Here (r : result ChainErr A).
Arguments SignerErr {E A}.
Arguments Here {E A}.

Definition keyed_bind {E A B} (c : Keyed E A) (k : A -> result ChainErr B) : Keyed E B :=
  match c with
  | SignerErr d e => SignerErr d e
  | Here (Ok a) => Here (k a)
  | Here (Err e) => Here (Err e)
  | Here Panic => Here Panic
  end.

Section WithKey.
Context {St E : Type} (K : KeySigner St E).

Definition signDigest (key : St) (digest : bytes) : St * Keyed E bytes :=
  if negb (len digest =? 32) then (key, Here (Err (HashLength (len digest))))
  else
    let '(key, r) := SignDigest K key digest in
    (key, match r with
          | Err e => SignerErr (Describe K key) e
          | Panic => Here Panic
          | Ok sig =>
              Here (if negb (len sig =? 65) || (1 <? default 0 (sig !! 64%nat)) then Err (Malformed (Describe K key) (len sig)) else Ok sig)
          end).

Definition EthSignMessageWithKey (messageHash : bytes) (key : St) : St * Keyed E Signature :=
  let '(key, r) := signDigest key messageHash in (key, keyed_bind r (signatureOf "0x")).

Definition CosmosSignMessageWithKey (messageHash : bytes) (key : St) : St * Keyed E Signature :=
  let '(key, r) := signDigest key messageHash in (key, keyed_bind r (signatureOf "")).

Definition BtcSignMessageWithKey (messageHash : bytes) (key : St) : St * Keyed E Signature :=
  let '(key, r) := signDigest key messageHash in
  (key, keyed_bind r (fun sig =>
    let! v := index sig 64 in
    let! rs := slice sig 0 64 in
    compactOf (u8 (27 + 4 + v) :: rs))).

Definition SignTransactionInputWithKey (rawTx : bytes) (inputIndex : Z) (prevOutScript : bytes) (key : St) : St * Keyed E bytes :=
  match inputOf rawTx inputIndex with
  | Err e => (key, Here (Err e))
  | Panic => (key, Here Panic)
  | Ok tx =>
      match calcSignatureHash prevOutScript tx inputIndex with
      | None => (key, Here (Err (NoSigHash inputIndex)))
      | Some sighash =>
          let '(key, r) := signDigest key sighash in
          (key, keyed_bind r (fun sig =>
            let! rb := slice sig 0 32 in
            let! sb := slice sig 32 64 in
            let der := BitcoinService.derSerialize (be_val rb) (be_val sb) in
            let! pub := map_err KeyRefused (CompressedPublicKey (PublicKey K key)) in
            match BitcoinService.pushTwo (der ++ [ 1 ]) pub with
            | None => Err NoSigScript
            | Some script => withScript tx inputIndex script
            end))
      end
  end.
End WithKey.

(** ** The router *)

Inductive Chain : Type := Ethereum | Bitcoin | SolanaChain | CosmosHub.

(** [signers[chainID]] *)
Definition signers (chainID : string) : option Chain :=
  if String.eqb chainID "ethereum" then Some Ethereum
  else if String.eqb chainID "bitcoin" then Some Bitcoin
  else if String.eqb chainID "solana" then Some SolanaChain
  else if String.eqb chainID "cosmos-hub" then Some CosmosHub
  else None.

Definition IsValidChainID (chainID : string) : bool := match signers chainID with Some _ => true | None => false end.

Definition signMessage (c : Chain) (message : bytes) (privKey : string) : result ChainErr Signature :=
  match c with
  | Ethereum => EthSignMessage message privKey
  | Bitcoin => BtcSignMessage message privKey
  | SolanaChain => map_err SolanaErr (Solana.SignMessage b58decode newKeyFromSeed edSign message privKey)
  | CosmosHub => map_err CosmosErr (Cosmos.SignMessage scalarBaseMult signCompact message privKey)
  end.

Definition recoverAddress (c : Chain) (message : bytes) (signature : option Signature) : result ChainErr string :=
  match c with
  | Ethereum => EthRecoverAddress message signature
  | Bitcoin => BtcRecoverAddress message signature
  | SolanaChain => map_err SolanaErr (Solana.RecoverAddress message signature)
  | CosmosHub => map_err CosmosErr (Cosmos.RecoverAddress sha256 ripemd160 convertBits bech32Encode recoverCompact message signature)
  end.

Record ChainSignRequest := { crChainID : string; crMessage : bytes }.
Record ChainSignResponse := { rsChainID : string; rsSignature : Signature; rsSignedTx : string; rsFrom : string; rsStatus : string; rsBroadcasted : bool }.

Definition SignMultiChain (req : ChainSignRequest) (privKeyHex : string) : result ChainErr ChainSignResponse :=
  match signers (crChainID req) with
  | None => Err (UnsupportedChain (crChainID req))
  | Some c =>
      let! sig := signMessage c (crMessage req) privKeyHex in
      match recoverAddress c (crMessage req) (Some sig) with
      | Panic => Panic
      | r => Ok {| rsChainID := crChainID req; rsSignature := sig; rsSignedTx := "";
                   rsFrom := match r with Ok from => from | _ => "unknown" end; rsStatus := "signed"; rsBroadcasted := false |}
      end
  end.

Definition routerRecoverAddress (chainID : string) (message : bytes) (signature : option Signature) : result ChainErr string :=
  match signers chainID with None => Err (UnsupportedChain chainID) | Some c => recoverAddress c message signature end.

Definition routerVerifySignature {SC : Cosmos.Secp256k1} (chainID : string) (message : bytes) (signature : option Signature) (pubKey : string) : result ChainErr bool :=
  match signers chainID with
  | None => Err (UnsupportedChain chainID)
  | Some Ethereum => EthVerifySignature message signature pubKey
  | Some Bitcoin => BtcVerifySignature message signature pubKey
  | Some SolanaChain => map_err SolanaErr (Solana.VerifySignature b58decode edVerify message signature pubKey)
  | Some CosmosHub => map_err CosmosErr (Cosmos.VerifySignature message signature pubKey)
  end.

(** [interface{}]: the requests the chains know *)
Inductive AnyTx : Type := EthereumTx (r : EthereumSignRequest) | BitcoinTx (r : CoinSelect.BitcoinSigningRequest) | SolanaTx (r : Solana.SolanaSignRequest) | CosmosTx (r : Cosmos.CosmosSignRequest).

Definition routerBuildTransaction (chainID : string) (tx : AnyTx) : result ChainErr bytes :=
  match signers chainID with
  | None => Err (UnsupportedChain chainID)
  | Some c =>
      match c, tx with
      | Ethereum, EthereumTx r => EthBuildTransaction r
      | Bitcoin, BitcoinTx r => BtcBuildTransaction r
      | SolanaChain, SolanaTx r => map_err SolanaErr (Solana.BuildTransaction b58decode r)
      | CosmosHub, CosmosTx r => map_err CosmosErr (Cosmos.BuildTransaction sha256 marshal r)
      | _, _ => Err WrongTxType
      end
  end.

(** The nodes, when they are configured. *)
Record Nodes {BJ : BitcoinService.BitcoindJson} {NJ : CosmosService.NodeJson} := {
  bitcoinNode : option BitcoinService.BitcoinRPC;
  bitcoinAnswers : BitcoinService.BitcoinRPC -> option (string * string) -> BitcoinService.rpcRequest -> BitcoinService.Exchange;
  solanaNode : option (SolanaService.Call -> SolanaService.Exchange);
  cosmosNode : option (CosmosService.Request -> CosmosService.Exchange)
}.

Definition routerBroadcastTransaction {BJ NJ} (n : Nodes (BJ := BJ) (NJ := NJ)) (chainID : string) (signedTx : bytes) : result ChainErr string :=
  match signers chainID with
  | None => Err (UnsupportedChain chainID)
  | Some Ethereum => Err NoEthereumBroadcast
  | Some Bitcoin => map_err BitcoinNode (BitcoinService.BroadcastTransaction (bitcoinAnswers n) (bitcoinNode n) (of_bytes signedTx))
  | Some SolanaChain => match solanaNode n with None => Err NoSolanaNode | Some a => map_err SolanaNode (SolanaService.SendTransaction a signedTx) end
  | Some CosmosHub =>
      match cosmosNode n with
      | None => Err NoCosmosNode
      | Some a => let! res := map_err CosmosNode (CosmosService.Broadcast a signedTx) in Ok (CosmosService.bTxHash res)
      end
  end.

(** Solana is not a [KeySignedChain]. *)
Definition SignMultiChainWithKey {St E} (K : KeySigner St E) (req : ChainSignRequest) (key : St) : St * Keyed E ChainSignResponse :=
  match signers (crChainID req) with
  | None => (key, Here (Err (UnsupportedChain (crChainID req))))
  | Some c =>
      let answer '(key, sig) :=
        (key, keyed_bind sig (fun sig =>
          let! from := recoverAddress c (crMessage req) (Some sig) in
          Ok {| rsChainID := crChainID req; rsSignature := sig; rsSignedTx := ""; rsFrom := from; rsStatus := "signed"; rsBroadcasted := false |})) in
      match c with
      | SolanaChain => (key, Here (Err (CannotSign (crChainID req) (Describe K key))))
      | Ethereum => answer (EthSignMessageWithKey K (crMessage req) key)
      | Bitcoin => answer (BtcSignMessageWithKey K (crMessage req) key)
      | CosmosHub => answer (CosmosSignMessageWithKey K (crMessage req) key)
      end
  end.
End Chains.
Arguments SignerErr {E A}.
Arguments Here {E A}.

(** ** Lemmas *)

(** What is documented of btcec v1 beside v2: four added to the recovery byte
    says that the key is compressed. *)
Class Versions {SP : Secp} {BT : BitcoinService.Btcd} (LB : Libraries BT) : Prop := {
  recover_v1 v rs d p : v = 0 \/ v = 1 -> len rs = 64 -> recoverCompact ((27 + v) :: rs) d = Some p -> recoverCompact1 ((31 + v) :: rs) d = Some (p, true)
}.

Lemma hex_no_x c d t raw : hex_decode (String c (String d t)) = Some raw -> Ascii.eqb d "x" = false /\ Ascii.eqb d "X" = false.
Proof.
  cbn [hex_decode]; intros H; destruct (hex_value c); [ | done ]; destruct (hex_value d) eqn:V; [ | done ].
  split; apply Ascii.eqb_neq; intros ->; vm_compute in V; discriminate.
Qed.

Lemma bare_hex s raw : hex_decode s = Some raw -> strip0x s = s /\ Solana.strip0x s = s.
Proof.
  destruct s as [ | c [ | d t ] ]; try done; intros H; apply hex_no_x in H as [ A B ]; cbn; rewrite A, B, andb_false_r; done.
Qed.

(** The parts of a signature of 65 bytes. *)
Lemma sig_parts {E} (rs : bytes) (v : Z) : len rs = 64 ->
  slice (E := E) (rs ++ [ v ]) 0 32 = Ok (take 32 rs) /\ slice (E := E) (rs ++ [ v ]) 32 64 = Ok (drop 32 rs) /\ slice (E := E) (rs ++ [ v ]) 0 64 = Ok rs /\
  index (E := E) (rs ++ [ v ]) 64 = Ok v /\ (rs ++ [ v ]) !! 64%nat = Some v.
Proof.
  intros L; assert (length rs = 64%nat) as Ln by (unfold len in L; lia).
  assert (len (take 32 rs) = 32 /\ len (drop 32 rs) = 32) as [ Lt Ld ] by (unfold len; rewrite length_take, length_drop; lia).
  assert ((rs ++ [ v ]) !! 64%nat = Some v) as X by (rewrite lookup_app_r, Ln by lia; done).
  split_and!.
  - replace (rs ++ [ v ]) with ([] ++ take 32 rs ++ (drop 32 rs ++ [ v ])) by (rewrite app_nil_l, app_assoc, take_drop; done).
    apply slice_app; [ done | rewrite Lt; done ].
  - replace (rs ++ [ v ]) with (take 32 rs ++ drop 32 rs ++ [ v ]) by (rewrite app_assoc, take_drop; done).
    apply slice_app; [ by rewrite Lt | rewrite Lt, Ld; done ].
  - apply (slice_app [] rs [ v ]); [ done | rewrite L; done ].
  - unfold index; cbn [Z.leb Z.compare]; change (Z.to_nat 64) with 64%nat; rewrite X; done.
  - done.
Qed.

Lemma sig_split (sig : bytes) : len sig = 65 -> exists (rs : bytes) (v : Z), sig = rs ++ [ v ] /\ len rs = 64.
Proof.
  intros L; destruct sig as [ | v rs _ ] using rev_ind; [ done | exists rs, v; split; [ done | rewrite len_app in L; change (len [ v ]) with 1 in L; lia ] ].
Qed.

Lemma compact_parts {E} (c : Z) (rs : bytes) : len rs = 64 ->
  slice (E := E) (c :: rs) 1 33 = Ok (take 32 rs) /\ slice (E := E) (c :: rs) 33 65 = Ok (drop 32 rs) /\ len (c :: rs) = 65.
Proof.
  intros L; assert (len (take 32 rs) = 32 /\ len (drop 32 rs) = 32) as [ Lt Ld ] by (unfold len in *; rewrite length_take, length_drop; lia).
  split_and!; [ | | rewrite len_cons, L; done ].
  - rewrite <- (take_drop 32 rs) at 1; apply (slice_app [ c ] (take 32 rs) (drop 32 rs)); [ done | rewrite Lt; done ].
  - rewrite <- (take_drop 32 rs) at 1; change (c :: take 32 rs ++ drop 32 rs) with ((c :: take 32 rs) ++ drop 32 rs).
    rewrite <- (app_nil_r (drop 32 rs)) at 1; apply slice_app; rewrite len_cons, Lt; [ done | rewrite Ld; done ].
Qed.

Section Agreement.
Context {SP : Secp} {SL : SecpScalars SP} {SG : SecpSigning SP} {BT : BitcoinService.Btcd} {LB : Libraries BT}.

(** A signature over a digest by a private key given as bare hex. *)
Lemma sign_total d digest : 0 < d < curveN -> len digest = 32 ->
  exists v rs, signCompact d digest = (27 + v) :: rs /\ (v = 0 \/ v = 1) /\ len rs = 64 /\ Sign signCompact digest (privFromD scalarBaseMult d) = Ok (rs ++ [ v ]).
Proof.
  intros D L; destruct (sign_spec d digest D L) as (v & r & s & E & V & Lr & Ls & _); exists v, (r ++ s).
  assert (len (r ++ s) = 64) as Lrs by (rewrite len_app; lia); split_and!; try done.
  unfold Sign; rewrite L; cbn [negb Z.eqb Pos.eqb].
  assert (privD (privFromD scalarBaseMult d) = d) as -> by (unfold privFromD; destruct (scalarBaseMult _); done).
  destruct (fill_bytes_fits (E := CryptoErr) 32 d) as [ k K ]; [ unfold curveN in D; lia | ].
  rewrite K; destruct (fill32 d k) as (_ & Vk & _); [ lia | done | ]; cbn [result_bind]; rewrite Vk, E.
  destruct (compact_parts (E := CryptoErr) (27 + v) (r ++ s) Lrs) as (_ & _ & ->); cbn [negb Z.eqb Pos.eqb EthCrypto.SignatureLength].
  assert (slice (E := CryptoErr) (27 + v :: r ++ s) 1 65 = Ok (r ++ s)) as ->.
  { rewrite <- (app_nil_r (r ++ s)) at 1; apply (slice_app [ 27 + v ] (r ++ s) []); [ done | rewrite Lrs; done ]. }
  rewrite index_0; cbn [result_bind]; replace (27 + v - 27) with v by lia; rewrite u8_id by lia; done.
Qed.

(** C33.  On Ethereum and on Cosmos, signing a digest with the bare hex of a private
    key and with a software signer that holds the key give the same signature.
    Behind a 0x prefix Cosmos reads the same key and Ethereum none. *)
Theorem key_paths_agree h raw digest r :
  hex_decode h = Some raw -> len raw = 32 -> 0 < be_val raw < curveN -> len digest = 32 ->
  NewRawKeySigner (privFromD scalarBaseMult (be_val raw)) = Ok r ->
  (exists sig, EthSignMessage digest h = Ok sig /\ EthSignMessageWithKey rawKeySigner digest r = (r, Here (Ok sig))) /\
  (exists sig, Cosmos.SignMessage scalarBaseMult signCompact digest h = Ok sig /\ Cosmos.SignMessage scalarBaseMult signCompact digest ("0x" +:+ h) = Ok sig /\
     CosmosSignMessageWithKey rawKeySigner digest r = (r, Here (Ok sig))) /\
  exists e, EthSignMessage digest ("0x" +:+ h) = Err e.
Proof.
  intros X L D Ld N; destruct (bare_hex h raw X) as [ S1 S2 ]; destruct (sign_total _ digest D Ld) as (v & rs & Sc & V & Lrs & Sg).
  assert (HexToECDSA scalarBaseMult h = Ok (privFromD scalarBaseMult (be_val raw))) as HX.
  { unfold HexToECDSA; rewrite X, L; cbn [negb Z.eqb Pos.eqb]; replace ((be_val raw =? 0) || (curveN <=? be_val raw)) with false by lia; done. }
  assert (priv r = privFromD scalarBaseMult (be_val raw)) as Pr by (unfold NewRawKeySigner in N; destruct (MarshalPubkey _ _); cbn in N; try done; injection N as <-; done).
  destruct (sig_parts (E := ChainErr) rs v Lrs) as (P1 & P2 & P3 & P4 & P5); destruct (sig_parts (E := Cosmos.CosErr) rs v Lrs) as (Q1 & Q2 & _ & Q4 & _).
  assert (signDigest rawKeySigner r digest = (r, Here (Ok (rs ++ [ v ])))) as SD.
  { unfold signDigest; rewrite Ld; cbn [negb Z.eqb Pos.eqb rawKeySigner SignDigest]; rewrite Pr, Sg; cbn [map_err].
    rewrite len_app, Lrs, P5; cbn [default id]; change (64 + len [ v ] =? 65) with true; replace (1 <? v) with false by lia; done. }
  split_and!.
  - unfold EthSignMessage, EthSignMessageWithKey; rewrite HX, SD; cbn [map_err result_bind]; rewrite Sg; cbn [map_err result_bind keyed_bind].
    unfold signatureOf; rewrite P1, P2, P4; cbn [result_bind]; eauto.
  - unfold Cosmos.SignMessage, CosmosSignMessageWithKey; change (Solana.strip0x ("0x" +:+ h)) with h; rewrite Ld, S2, HX, SD; cbn [negb Z.eqb Pos.eqb].
    rewrite Sg; cbn [map_err result_bind keyed_bind]; unfold signatureOf; rewrite P1, P2, P4, Q1, Q2, Q4; cbn [result_bind]; eauto.
  - unfold EthSignMessage, HexToECDSA; cbn; eauto.
Qed.
End Agreement.

Section Reported.
Context {SP : Secp} {BT : BitcoinService.Btcd} {LB : Libraries BT} {VS : Versions LB}.
Context {St E : Type} (K : KeySigner St E) (ok : St -> Prop) {SK : Signs K ok}.

Lemma signDigest_ok key digest key' sig : ok key -> signDigest K key digest = (key', Here (Ok sig)) ->
  signature_of (PublicKey K key) digest sig /\ PublicKey K key' = PublicKey K key /\ ok key'.
Proof.
  unfold signDigest; intros O H; destruct (negb (len digest =? 32)); [ done | ].
  destruct (SignDigest K key digest) as [ k [ s | e | ] ] eqn:S; try done; destruct (_ || _) in H; [ done | ].
  injection H as <- <-; by eapply signs.
Qed.

Lemma keyed_ok {A B} (c : Keyed E A) (k : A -> result ChainErr B) b : keyed_bind c k = Here (Ok b) -> exists a, c = Here (Ok a) /\ k a = Ok b.
Proof. destruct c as [ d e | [ a | e | ] ]; cbn; intros H; try done; injection H as H; eauto. Qed.

(** The point a signature recovers to. *)
Lemma signature_point pub digest sig : signature_of pub digest sig -> exists rs v x y,
  sig = rs ++ [ v ] /\ len rs = 64 /\ (v = 0 \/ v = 1) /\ bytes_ok rs /\ MarshalPubkey x y = Ok pub /\
  SigToPub recoverCompact digest sig = Ok (x, y) /\ recoverCompact ((27 + v) :: rs) digest = Some (x, y).
Proof.
  intros [ Ld L O _ (v & X & V) (x & y & Rec & M) _ ]; destruct (sig_split sig L) as (rs & w & -> & Lrs).
  assert (w = v) as -> by (destruct (sig_parts (E := ChainErr) rs w Lrs) as (_ & _ & _ & _ & Q); congruence).
  apply Forall_app in O as [ O _ ]; exists rs, v, x, y; split_and!; try done.
  rewrite SigToPub_total in Rec by done; rewrite u8_id, Z.add_comm in Rec by lia; destruct (recoverCompact _ _); congruence.
Qed.

Lemma signatureOf_bytes prefix sig s : signatureOf prefix sig = Ok s -> Solana.SignatureBytes s = prefix +:+ hex_encode sig.
Proof. unfold signatureOf; intros H; inv_ok; done. Qed.

(** The address of a point on each chain a [KeySigner] can sign for. *)
Definition address_on (c : Chain) (x y : Z) (from : string) : Prop :=
  match c with
  | Ethereum => Address keccak x y = Ok from
  | CosmosHub => exists compressed, CompressPubkey x y = Ok compressed /\
      Cosmos.CosmosAddressFromPubKey sha256 ripemd160 convertBits bech32Encode compressed Cosmos.DefaultCosmosPrefix = Ok from
  | Bitcoin => BitcoinService.pubKeyHashAddress (BitcoinService.hash160 (serializeCompressed1 (x, y))) CoinSelect.MainNet = Some from
  | SolanaChain => False
  end.

Lemma eth_from digest sig s x y from : bytes_ok sig -> signatureOf "0x" sig = Ok s -> SigToPub recoverCompact digest sig = Ok (x, y) ->
  recoverAddress Ethereum digest (Some s) = Ok from -> address_on Ethereum x y from.
Proof.
  intros O S R; apply signatureOf_bytes in S; cbn [recoverAddress address_on]; unfold EthRecoverAddress, ethSignatureBytes; rewrite S.
  change ("0x" +:+ hex_encode sig) with (String "0" (String "x" (hex_encode sig))); cbn [result_bind].
  rewrite hex_decode_encode by done; cbn [result_bind]; rewrite R; cbn [map_err result_bind fst snd].
  destruct (Address keccak x y); cbn; intros H; congruence.
Qed.

Lemma cosmos_from digest sig s x y from : bytes_ok sig -> len sig = 65 -> signatureOf "" sig = Ok s -> SigToPub recoverCompact digest sig = Ok (x, y) ->
  recoverAddress CosmosHub digest (Some s) = Ok from -> address_on CosmosHub x y from.
Proof.
  intros O L S R; apply signatureOf_bytes in S; cbn [recoverAddress address_on]; unfold Cosmos.RecoverAddress; rewrite S, sapp_nil.
  destruct (bare_hex (hex_encode sig) sig) as [ _ -> ]; [ by apply hex_decode_encode | ]; rewrite hex_decode_encode, L, R by done; cbn [negb Z.eqb Pos.eqb].
  destruct (CompressPubkey x y) as [ c | e | ]; try done; intros H; exists c; split; [ done | ].
  destruct (Cosmos.CosmosAddressFromPubKey _ _ _ _ _ _); cbn in H; congruence.
Qed.

Lemma btc_from digest rs v s x y from : bytes_ok rs -> len rs = 64 -> v = 0 \/ v = 1 -> compactOf (u8 (27 + 4 + v) :: rs) = Ok s ->
  recoverCompact ((27 + v) :: rs) digest = Some (x, y) -> recoverAddress Bitcoin digest (Some s) = Ok from -> address_on Bitcoin x y from.
Proof.
  intros O L V S R; replace (u8 (27 + 4 + v)) with (31 + v) in S by (rewrite u8_id; lia).
  assert (Solana.SignatureBytes s = hex_encode (31 + v :: rs)) as B by (unfold compactOf in S; inv_ok; done).
  cbn [recoverAddress address_on]; unfold BtcRecoverAddress, btcCompact; rewrite B, hex_decode_encode by (constructor; [ unfold byte_ok; lia | done ]).
  destruct (compact_parts (E := ChainErr) (31 + v) rs L) as (_ & _ & ->); cbn [negb Z.eqb Pos.eqb result_bind].
  rewrite (recover_v1 v rs digest (x, y)) by done; destruct (BitcoinService.pubKeyHashAddress _ _); intros H; congruence.
Qed.

(** Whatever holds the key, as long as it keeps the promise of the interface:
    a request that is signed is answered with the address, on its chain, of the
    key the signer reported, and Solana is never among them. *)
Theorem from_is_the_reported_key req key key' resp :
  ok key -> SignMultiChainWithKey K req key = (key', Here (Ok resp)) ->
  exists c x y, signers (crChainID req) = Some c /\ MarshalPubkey x y = Ok (PublicKey K key) /\ address_on c x y (rsFrom resp) /\ PublicKey K key' = PublicKey K key.
Proof.
  unfold SignMultiChainWithKey; intros O H; destruct (signers (crChainID req)) as [ c | ]; [ | done ].
  assert (forall sign : bytes -> St -> St * Keyed E Signature, forall f, (forall d k, sign d k = let '(k', r) := signDigest K k d in (k', keyed_bind r f)) ->
    (let '(key, sig) := sign (crMessage req) key in (key, keyed_bind sig (fun sig =>
       let! from := recoverAddress c (crMessage req) (Some sig) in
       Ok {| rsChainID := crChainID req; rsSignature := sig; rsSignedTx := ""; rsFrom := from; rsStatus := "signed"; rsBroadcasted := false |}))) = (key', Here (Ok resp)) ->
    exists sig s, signature_of (PublicKey K key) (crMessage req) sig /\ PublicKey K key' = PublicKey K key /\ f sig = Ok s /\ recoverAddress c (crMessage req) (Some s) = Ok (rsFrom resp)) as Inv.
  { intros sign f Sf Q; rewrite Sf in Q; destruct (signDigest K key (crMessage req)) as [ k1 r ] eqn:SD; injection Q as -> Q.
    apply keyed_ok in Q as (s & A & B); apply keyed_ok in A as (sig & -> & F); apply signDigest_ok in SD as (Sg & P & _); [ | done ].
    exists sig, s; split_and!; try done; destruct (recoverAddress c _ _); cbn in B; try done; injection B as <-; done. }
  exists c; destruct c; [ | | done | ].
  - apply (Inv _ (signatureOf "0x")) in H as (sig & s & Sg & P & F & Rc); [ | done ]; pose proof (sig_bytes _ _ _ Sg) as Ob.
    destruct (signature_point _ _ _ Sg) as (rs & v & x & y & -> & L & V & _ & M & Sp & _); exists x, y; split_and!; try done; by eapply eth_from.
  - apply (Inv _ (fun sig => let! v := index sig 64 in let! rs := slice sig 0 64 in compactOf (u8 (27 + 4 + v) :: rs))) in H as (sig & s & Sg & P & F & Rc); [ | done ].
    destruct (signature_point _ _ _ Sg) as (rs & v & x & y & -> & L & V & Ob & M & _ & Rcv); exists x, y; split_and!; try done.
    destruct (sig_parts (E := ChainErr) rs v L) as (_ & _ & P3 & P4 & _); rewrite P4, P3 in F; by eapply btc_from.
  - apply (Inv _ (signatureOf "")) in H as (sig & s & Sg & P & F & Rc); [ | done ]; pose proof (sig_bytes _ _ _ Sg) as Ob; pose proof (sig_len _ _ _ Sg) as L65.
    destruct (signature_point _ _ _ Sg) as (rs & v & x & y & -> & L & V & _ & M & Sp & _); exists x, y; split_and!; try done; by eapply cosmos_from.
Qed.
End Reported.

(** ** Instances *)

Module Simple.
Import Hsm.Hsm.Simple.
#[export] Existing Instance Hsm.Hsm.Simple.secp.
#[export] Existing Instance BitcoinService.Simple.library.

Lemma parse_reads x y m : MarshalPubkey x y = Ok m -> 0 <= x -> 0 <= y -> parsePubKey (Secp := secp) m = Some (x, y).
Proof.
  intros M X Y; apply MarshalPubkey_ok in M as (xb & yb & -> & Lx & Ly & Vx & Vy & _ & _); [ | done | done ].
  unfold parsePubKey, secp; replace (len (4 :: xb ++ yb)) with 65 by (rewrite len_cons, len_app; lia); change (65 =? 65) with true; cbn iota.
  change (drop 33 (4 :: xb ++ yb)) with (drop 32 (xb ++ yb)); change (drop 1 (4 :: xb ++ yb)) with (xb ++ yb).
  rewrite take_app_length', drop_app_length' by (unfold len in Lx; lia); rewrite Vx, Vy; done.
Qed.

#[export] Instance signing : SecpSigning secp.
Proof.
  constructor.
  - intros d; cbn; split; [ apply Z.mod_pos_bound; lia | lia ].
  - intros d m M; cbn in M; apply parse_reads in M; [ done | apply Z.mod_pos_bound; lia | lia ].
  - intros d digest D L; exists 0, (word d), (word 5).
    destruct (bytes_spec (SP := secp) d) as (Lw & Ow & Vw); [ lia | ]; cbn [scalarBytes secp] in *.
    assert (len (word 5) = 32 /\ bytes_ok (word 5) /\ be_val (word 5) = 5) as (L5 & O5 & V5) by (apply (bytes_spec (SP := secp) 5); vm_compute; split; congruence).
    assert (d mod 256 ^ 32 = d) as Dm by (apply Z.mod_small; unfold curveN in D; lia).
    split_and!; try done; [ by left | lia | | ].
    + cbn [recoverCompact scalarBaseMult secp]; change (drop 1 (27 + 0 :: word d ++ word 5)) with (word d ++ word 5); rewrite take_app_length' by (unfold len in Lw; lia); rewrite Vw, be_val_big_bytes by lia; done.
    + cbn [verifies scalarBaseMult secp fst]; rewrite Vw, be_val_big_bytes, Dm by lia; lia.
Qed.

#[export] Instance libraries : Libraries BitcoinService.Simple.library := {
  b58decode _ := []; newKeyFromSeed b := b ++ b; edSign k m := k; edVerify _ _ _ := true;
  sha256 b := replicate 32 1; ripemd160 b := replicate 20 2; convertBits b := Some b; bech32Encode p b := Some (p +:+ "1q");
  marshal _ := None;
  signCompact1 key d := Some (31 :: word (be_val key) ++ word 5);
  recoverCompact1 c d := match c with v :: rs => match recoverCompact (v - 4 :: rs) d with Some p => Some (p, true) | None => None end | [] => None end;
  parsePubKey1 _ := None; serializeCompressed1 p := 2 :: word (fst p); serializeUncompressed1 p := 4 :: word (fst p) ++ word (snd p);
  signatureScript _ _ _ _ := None; calcSignatureHash _ _ _ := None
}.

#[export] Instance versions : Versions libraries.
Proof.
  constructor; intros v rs d p V L H; cbn [recoverCompact1 libraries].
  replace (31 + v - 4) with (27 + v) by lia; rewrite H; done.
Qed.

Definition digest : bytes := replicate 32 1.
Definition held_key : RawKeySigner := {| priv := privFromD scalarBaseMult 7; pub := 4 :: word 7 ++ word 0 |}.

Lemma held_key_made : made held_key.
Proof. exists 7; split_and!; [ lia | reflexivity | reflexivity | vm_compute; reflexivity ]. Qed.

Lemma key_paths_agree_witness :
  exists sig, EthSignMessage digest (hex_encode (word 7)) = Ok sig /\ EthSignMessageWithKey rawKeySigner digest held_key = (held_key, Here (Ok sig)).
Proof.
  apply (key_paths_agree (hex_encode (word 7)) (word 7) digest held_key).
  - apply hex_decode_encode, word_bytes.
  - vm_compute; reflexivity.
  - vm_compute; split; reflexivity.
  - reflexivity.
  - vm_compute; reflexivity.
Defined.

Definition asked : ChainSignRequest := {| crChainID := "cosmos-hub"; crMessage := digest |}.

Lemma from_is_the_reported_key_witness :
  exists c x y, signers "cosmos-hub" = Some c /\ MarshalPubkey x y = Ok (pub held_key) /\ address_on c x y "cosmos1q" /\ pub held_key = pub held_key.
Proof.
  apply (from_is_the_reported_key rawKeySigner made asked held_key held_key
    {| rsChainID := "cosmos-hub"; rsSignature := {| Solana.R := hex_encode (word 7); Solana.S_ := hex_encode (word 5); Solana.V := 0; Solana.SignatureBytes := hex_encode (word 7 ++ word 5 ++ [ 0 ]) |};
       rsSignedTx := ""; rsFrom := "cosmos1q"; rsStatus := "signed"; rsBroadcasted := false |}).
  - exact held_key_made.
  - vm_compute; reflexivity.
Defined.
End Simple.
End ChainSigners.
