(* ===== verification/SignerService.v ===== *)
(** * The signer service

    Models [services/mpc-signer]: [signer.go] (the single-key Ethereum signer),
    [keysource.go] and [vault.go] (where the key comes from), [audit.go] and the
    routes of [main.go] that sign, report the address and broadcast.  The key is
    held by the software signer of KeySigner.v or by the token of Hsm.v, and is
    used through the interface; the chains are those of ChainSigners.v.

    Vault, the immutable ledger and JSON are parameters.

    Shown here: what /sign answers is, read back as a node would, the request,
    signed by the key whose address the service reports; a key that signs is
    enough for the answer; a service that signs in hardware holds no other key,
    and one that keeps its key in Vault finds the same key again. *)

From Stdlib Require Import ZArith Lia Ascii String.
From stdpp Require Import base list numbers strings gmap.
From S2P Require Import Prelude GoStrings GoText Rlp EthCrypto EthTx BitcoinService CosmosService KeySigner Hsm ChainSigners.

Open Scope Z_scope.

Module SignerService.
Import EthCrypto KeySigner ChainSigners.
#[local] Open Scope string_scope.
#[local] Open Scope list_scope.
#[local] Open Scope Z_scope.

(** ** Requests *)

Record SignRequest := {
  rqChainID : Z; rqTo : string; rqData : string; rqValue : string; rqGasLimit : Z; rqGasPrice : string; rqNonce : Z;
  rqMaxFeePerGas : string; rqMaxPriorityFeePerGas : string
}.

Record SignedTransaction := { RawTx : string; sgSignature : string; sgHash : string; sgFrom : string }.

Inductive BigErr : Type := EmptyValue | NotInteger (s : string).

Definition parseBig (s : string) (zeroOK : bool) : result BigErr Z :=
  if String.eqb s "" || String.eqb s "0" then
    if zeroOK || String.eqb s "0" then Ok 0 else Err EmptyValue
  else match big_of_dec s with None => Err (NotInteger s) | Some n => Ok n end.

Definition decodeData (s : string) : option bytes :=
  if String.eqb s "" || String.eqb s "0x" then Some [] else hex_decode (trim_prefix "0x" s).

Inductive SignErr (E : Type) : Type :=
| BadTo (s : string) | BadValue (e : BigErr) | BadData | BadMaxFee (e : BigErr) | BadTip (e : BigErr) | BadGasPrice (e : BigErr)
| BadTx (e : EthTx.TxErr) | NotSigned (e : E).
Arguments BadTo {E}. Arguments BadValue {E}. Arguments BadData {E}. Arguments BadMaxFee {E}. Arguments BadTip {E}.
Arguments BadGasPrice {E}. Arguments BadTx {E}. Arguments NotSigned {E}.

(** The transaction a request asks for. *)
Definition transactionOf {E} (req : SignRequest) : result (SignErr E) EthTx.Transaction :=
  let! to := map_err (fun _ => BadTo (rqTo req)) (ParseAddress (rqTo req)) in
  let! value := map_err BadValue (parseBig (rqValue req) true) in
  match decodeData (rqData req) with
  | None => Err BadData
  | Some data =>
      let tx gasPrice maxFee tip := {|
        EthTx.ChainID := Some (rqChainID req); EthTx.Nonce := rqNonce req; EthTx.Gas := rqGasLimit req; EthTx.GasPrice := gasPrice;
        EthTx.MaxFee := maxFee; EthTx.Tip := tip; EthTx.To := Some to; EthTx.Value := Some value; EthTx.Data := data |} in
      if negb (String.eqb (rqMaxFeePerGas req) "") && negb (String.eqb (rqMaxPriorityFeePerGas req) "") then
        let! maxFee := map_err BadMaxFee (parseBig (rqMaxFeePerGas req) false) in
        let! tip := map_err BadTip (parseBig (rqMaxPriorityFeePerGas req) false) in
        Ok (tx None (Some maxFee) (Some tip))
      else
        let! gasPrice := map_err BadGasPrice (parseBig (rqGasPrice req) false) in
        Ok (tx (Some gasPrice) None None)
  end.

Section Signer.
Context {SP : Secp}.

(** ** MPCSigner *)

Record MPCSigner (St : Type) := { key : St; address : string }.
Arguments key {St}.
Arguments address {St}.

Section AnyKey.
Context {St E : Type} (K : KeySigner St E).

Definition NewMPCSignerFromKey (k : St) : result KeyErr (MPCSigner St) :=
  let! addr := AddressOf (PublicKey K k) in Ok {| key := k; address := addr |}.

Definition SignTransaction (m : MPCSigner St) (req : SignRequest) : MPCSigner St * result (SignErr E) SignedTransaction :=
  match (let! tx := transactionOf req in let! digest := map_err BadTx (EthTx.SigningHash keccak tx) in Ok (tx, digest)) with
  | Err e => (m, Err e)
  | Panic => (m, Panic)
  | Ok (tx, digest) =>
      let '(k, r) := SignDigest K (key m) digest in
      ({| key := k; address := address m |},
       let! sig := map_err NotSigned r in
       let! signed := map_err BadTx (EthTx.WithSignature keccak recoverCompact tx sig (address m)) in
       Ok {| RawTx := "0x" +:+ hex_encode (EthTx.Raw signed); sgSignature := "0x" +:+ hex_encode sig;
             sgHash := "0x" +:+ hex_encode (EthTx.Hash signed); sgFrom := EthTx.From signed |})
  end.
End AnyKey.

(** [entropy]: the key [ecdsa.GenerateKey] draws, or its error *)
Definition NewMPCSigner (privKeyHex : string) (entropy : option Z) : option (result KeyErr (MPCSigner RawKeySigner)) :=
  let from k := let! r := NewRawKeySigner k in NewMPCSignerFromKey rawKeySigner r in
  if negb (String.eqb privKeyHex "") then
    Some (let! k := map_err InvalidPrivateKey (HexToECDSA scalarBaseMult (trim_prefix "0x" privKeyHex)) in from k)
  else match entropy with None => None | Some d => Some (from (privFromD scalarBaseMult d)) end.

(** ** Vault *)

Inductive VVal : Type := VText (s : string) | VOther.
(** A secret, whose data may be nil. *)
Abbreviation Secret := (option (gmap string VVal)).

Record vaultConfig := { addr : string; vaultToken : string; mount : string; keyPath : string }.

(** The Vault client: [newClient] refuses an address; [kvGet] answers an error's
    text, or a secret that may be nil. *)
Class Vault (V : Type) := {
  newClient : string -> bool;
  kvGet : vaultConfig -> V -> V * (string + option Secret);
  kvPut : vaultConfig -> gmap string VVal -> V -> V * option string
}.

Definition orDefault (v def : string) : string := if String.eqb v "" then def else v.
Definition isVaultNotFound (err : string) : bool := CosmosService.contains_text "not found" err.

Inductive SourceErr : Type :=
| VaultClient | VaultRead (e : string) | VaultWrite (e : string) | NoEntropy | BadConfig (e : ConfigErr) | AlsoConfigured (v : string)
| HsmFailed (e : Hsm.HsmErr) | KeyFailed (e : KeyErr) | GeneratedBad (e : CryptoErr).

Section Sources.
Context {V : Type} {VA : Vault V}.

(** A new key is made and stored. *)
Definition createVaultKey (cfg : vaultConfig) (entropy : option Z) (v : V) : V * result SourceErr string :=
  match entropy with
  | None => (v, Err NoEntropy)
  | Some d =>
      let k := privFromD scalarBaseMult d in
      match (let! raw := FromECDSA (Some k) in let! a := PubkeyToAddress keccak (privX k) (privY k) in Ok (hex_encode raw, a)) with
      | Err e => (v, Err (GeneratedBad e))
      | Panic => (v, Panic)
      | Ok (hexKey, address) =>
          let '(v, e) := kvPut cfg (<[ "private_key" := VText hexKey ]> (<[ "address" := VText address ]> ∅)) v in
          (v, match e with Some e => Err (VaultWrite e) | None => Ok hexKey end)
      end
  end.

Definition loadOrCreateVaultKey (cfg : vaultConfig) (entropy : option Z) (v : V) : V * result SourceErr string :=
  if negb (newClient (addr cfg)) then (v, Err VaultClient)
  else
    let '(v, r) := kvGet cfg v in
    match r with
    | inl e => if isVaultNotFound e then createVaultKey cfg entropy v else (v, Err (VaultRead e))
    | inr (Some (Some data)) =>
        match data !! "private_key" with
        | Some (VText raw) => if negb (String.eqb raw "") then (v, Ok raw) else createVaultKey cfg entropy v
        | _ => createVaultKey cfg entropy v
        end
    | inr _ => createVaultKey cfg entropy v
    end.

Definition configOf (getenv : string -> string) (address : string) : vaultConfig := {|
  addr := address; vaultToken := getenv "VAULT_TOKEN"; mount := orDefault (getenv "VAULT_KV_MOUNT") "secret";
  keyPath := orDefault (getenv "VAULT_KEY_PATH") "openfireblocks/mpc-signer" |}.

Definition ResolveSigningKey (getenv : string -> string) (entropy : option Z) (v : V) : V * result SourceErr string :=
  let a := getenv "VAULT_ADDR" in
  if String.eqb a "" then (v, Ok (getenv "MPC_SIGNER_PRIVATE_KEY"))
  else loadOrCreateVaultKey (configOf getenv a) entropy v.

(** ** Where the key is *)

Context {T Ctx : Type} {CK : Hsm.Cryptoki T Ctx} (sha : bytes -> bytes) (quote : string -> string).

(** The two signers behind one interface. *)
Abbreviation AnyState := (RawKeySigner + Hsm.PKCS11Signer Ctx * T)%type.
Definition anySigner : KeySigner AnyState (KeyErr + Hsm.HsmErr) := {|
  PublicKey k := match k with inl r => PublicKey rawKeySigner r | inr s => PublicKey (Hsm.hsmKeySigner sha) s end;
  SignDigest k d :=
    match k with
    | inl r => let '(r, a) := SignDigest rawKeySigner r d in (inl r, map_err inl a)
    | inr s => let '(s, a) := SignDigest (Hsm.hsmKeySigner sha) s d in (inr s, map_err inr a)
    end;
  Describe k := match k with inl r => Describe rawKeySigner r | inr s => Describe (Hsm.hsmKeySigner sha) s end
|}.

Definition mapSigner {A B} (f : A -> B) (m : MPCSigner A) : MPCSigner B := {| key := f (key m); address := address m |}.

(** The worlds a key is looked for in. *)
Record Places := { vaultState : V; hsmWorld : Hsm.World T Ctx }.
Record Resolved := { mpcSigner : MPCSigner AnyState; keyHex : string; hardware : bool }.

(** [osenv]: the process environment, which the HSM configuration is read from;
    [getenv]: the one that is passed *)
Definition resolveSigner (osenv getenv : string -> string) (e1 e2 : option Z) (p : Places) : Places * result SourceErr Resolved :=
  match PKCS11ConfigFromEnv osenv with
  | Err e => (p, Err (BadConfig e))
  | Panic => (p, Panic)
  | Ok (Some cfg) =>
      if negb (String.eqb (getenv "VAULT_ADDR") "") then (p, Err (AlsoConfigured "VAULT_ADDR"))
      else if negb (String.eqb (getenv "MPC_SIGNER_PRIVATE_KEY") "") then (p, Err (AlsoConfigured "MPC_SIGNER_PRIVATE_KEY"))
      else
        let '(w, r) := Hsm.OpenPKCS11 sha quote (Some cfg) (hsmWorld p) in
        let p := {| vaultState := vaultState p; hsmWorld := w |} in
        match r with
        | Err e => (p, Err (HsmFailed e))
        | Panic => (p, Panic)
        | Ok s =>
            (p, let! m := map_err KeyFailed (NewMPCSignerFromKey (Hsm.hsmKeySigner sha) (s, Hsm.outside w)) in
                Ok {| mpcSigner := mapSigner inr m; keyHex := ""; hardware := true |})
        end
  | Ok None =>
      let '(v, r) := ResolveSigningKey getenv e1 (vaultState p) in
      let p := {| vaultState := v; hsmWorld := hsmWorld p |} in
      match r with
      | Err e => (p, Err e)
      | Panic => (p, Panic)
      | Ok h =>
          (p, match NewMPCSigner h e2 with
              | None => Err NoEntropy
              | Some m => let! m := map_err KeyFailed m in Ok {| mpcSigner := mapSigner inl m; keyHex := h; hardware := false |}
              end)
      end
  end.
End Sources.

(** ** The audit log *)

Record AuditEvent := { Type_ : string; RequestID : string; Timestamp : string; Message : string; evSignature : string; evHash : string; evFrom : string; Status : string }.

Section Service.
(** [L]: the ledger; [immuSet] answers the id of the write; the clock, at each
    event of a request, as RFC 3339 text and in nanoseconds *)
Context {L : Type} (immuSet : string -> bytes -> L -> L * option Z) (marshalEvent : AuditEvent -> option bytes) (now : nat -> string) (nanos : nat -> Z).

Definition LogEvent (n : nat) (event : AuditEvent) (l : L) : L * option Z :=
  let event := if String.eqb (Timestamp event) "" then
      {| Type_ := Type_ event; RequestID := RequestID event; Timestamp := now n; Message := Message event; evSignature := evSignature event;
         evHash := evHash event; evFrom := evFrom event; Status := Status event |} else event in
  match marshalEvent event with
  | None => (l, None)
  | Some payload => immuSet ("audit:" +:+ show_int (nanos n) +:+ ":" +:+ RequestID event) payload l
  end.

(** [server.log]: zero without a logger, or when it fails *)
Definition log (n : nat) (audit : bool) (event : AuditEvent) (l : L) : L * Z :=
  if negb audit then (l, 0) else let '(l, r) := LogEvent n event l in (l, default 0 r).

(** ** Routes *)

Record server (St : Type) := { srvSigner : MPCSigner St; srvAudit : bool; srvKeyHex : string; srvHardware : bool }.
Arguments srvSigner {St}. Arguments srvAudit {St}. Arguments srvKeyHex {St}. Arguments srvHardware {St}.

Record SignResponse := { rsRequestID : string; rsSignedTx : string; rsTxHash : string; rsFrom : string; rsStatus : string; rsAuditLogID : Z }.

Inductive Body (E : Type) : Type :=
| InvalidBody (requestID : string) | Failed (requestID : string) (e : SignErr E) | Signed (r : SignResponse)
| AddressBody (address keySource : string) | BadChain (chainID : string) | ChainFailed (chainID : string) (e : ChainErr) | SignerFailed (chainID : string) (e : E)
| ChainSigned (r : ChainSigners.ChainSignResponse) | Broadcasted (txHash : string).
Arguments InvalidBody {E}. Arguments Failed {E}. Arguments Signed {E}. Arguments AddressBody {E}. Arguments BadChain {E}.
Arguments ChainFailed {E}. Arguments SignerFailed {E}. Arguments ChainSigned {E}. Arguments Broadcasted {E}.

Section Handlers.
Context {St E : Type} (K : KeySigner St E) (errorText : SignErr E -> string).

Definition event (type id message status : string) : AuditEvent :=
  {| Type_ := type; RequestID := id; Timestamp := ""; Message := message; evSignature := ""; evHash := ""; evFrom := ""; Status := status |}.

Definition successEvent (id : string) (s : SignedTransaction) : AuditEvent :=
  {| Type_ := "SIGN_SUCCESS"; RequestID := id; Timestamp := ""; Message := ""; evSignature := sgSignature s; evHash := sgHash s; evFrom := sgFrom s; Status := "signed" |}.

Definition withSigner (m : MPCSigner St) (s : server St) : server St :=
  {| srvSigner := m; srvAudit := srvAudit s; srvKeyHex := srvKeyHex s; srvHardware := srvHardware s |}.

(** The body is a request, or the error of decoding it.  A panic ends the
    request, with no answer. *)
Definition handleSign (s : server St) (requestID : string) (body : string + SignRequest) (l : L) : server St * L * option (Z * Body E) :=
  match body with
  | inl e =>
      let '(l, _) := log 0 (srvAudit s) (event "SIGN_REQUEST_INVALID" requestID e "failed") l in
      (s, l, Some (400, InvalidBody requestID))
  | inr req =>
      let '(l, _) := log 0 (srvAudit s) (event "SIGN_REQUEST_RECEIVED" requestID
        ("to=" +:+ rqTo req +:+ " value=" +:+ rqValue req +:+ " nonce=" +:+ show_int (rqNonce req) +:+ " data_len=" +:+ show_int (slen (rqData req))) "pending") l in
      let '(m, r) := SignTransaction K (srvSigner s) req in
      let s := withSigner m s in
      match r with
      | Panic => (s, l, None)
      | Err e =>
          let '(l, _) := log 1 (srvAudit s) (event "SIGN_FAILED" requestID (errorText e) "failed") l in
          (s, l, Some (400, Failed requestID e))
      | Ok signed =>
          let '(l, auditID) := log 1 (srvAudit s) (successEvent requestID signed) l in
          (s, l, Some (200, Signed {| rsRequestID := requestID; rsSignedTx := RawTx signed; rsTxHash := sgHash signed; rsFrom := sgFrom signed;
                                      rsStatus := "signed"; rsAuditLogID := auditID |}))
      end
  end.

Definition handleAddress (s : server St) : Z * Body E := (200, AddressBody (address (srvSigner s)) (Describe K (key (srvSigner s)))).

Context {BT : BitcoinService.Btcd} {LB : Libraries BT}.

(** [body]: the chain and the text of the message, when it can be read *)
Definition handleSignMultiChain (s : server St) (body : option (string * string)) : server St * option (Z * Body E) :=
  match body with
  | None => (s, Some (400, InvalidBody ""))
  | Some (chainID, message) =>
      if negb (IsValidChainID chainID) then (s, Some (400, BadChain chainID))
      else
        let req := {| crChainID := chainID; crMessage := to_bytes message |} in
        let '(s, r) :=
          (if srvHardware s then
             let '(k, r) := SignMultiChainWithKey K req (key (srvSigner s)) in
             (withSigner {| key := k; address := address (srvSigner s) |} s, r)
           else (s, Here (SignMultiChain req (srvKeyHex s)))) in
        (s, match r with
            | SignerErr _ e => Some (500, SignerFailed chainID e)
            | Here (Err e) => Some (500, ChainFailed chainID e)
            | Here Panic => None
            | Here (Ok resp) => Some (200, ChainSigned resp)
            end)
  end.

Definition handleBroadcast {BJ NJ} (n : Nodes (BJ := BJ) (NJ := NJ)) (body : option (string * string)) : option (Z * Body E) :=
  match body with
  | None => Some (400, InvalidBody "")
  | Some (chainID, signedTx) =>
      if negb (IsValidChainID chainID) then Some (400, BadChain chainID)
      else
        match routerBroadcastTransaction n chainID (to_bytes signedTx) with
        | Err e => Some (500, ChainFailed chainID e)
        | Panic => None
        | Ok txHash => Some (200, Broadcasted txHash)
        end
  end.
End Handlers.
End Service.
End Signer.

Arguments key {St}.
Arguments address {St}.
Arguments srvSigner {St}.
Arguments srvAudit {St}.
Arguments srvKeyHex {St}.
Arguments srvHardware {St}.
Arguments InvalidBody {E}.
Arguments Failed {E}.
Arguments Signed {E}.
Arguments AddressBody {E}.
Arguments BadChain {E}.
Arguments ChainFailed {E}.
Arguments SignerFailed {E}.
Arguments ChainSigned {E}.
Arguments Broadcasted {E}.

(** ** What a request asks for

    Stated of the texts of the request, apart from the code that reads them. *)

(** A decimal number: a sign, if any, and digits by place. *)
Fixpoint place_value (s : string) : option Z :=
  match s with
  | EmptyString => Some 0
  | String c r => if (48 <=? chr c) && (chr c <=? 57) then (fun v => (chr c - 48) * 10 ^ slen r + v) <$> place_value r else None
  end.
Definition decimal (s : string) (n : Z) : Prop :=
  exists sign ds m, s = sign +:+ ds /\ ds <> "" /\ place_value ds = Some m /\ ((sign = "" \/ sign = "+") /\ n = m \/ sign = "-" /\ n = - m).

(** Bytes in hex, behind one of the prefixes. *)
Definition hexed (prefixes : list string) (s : string) (b : bytes) : Prop := exists p h, p ∈ prefixes /\ s = p +:+ h /\ hex_decode h = Some b.

(** A missing value is zero; both EIP-1559 fees are given, or the gas price counts. *)
Record asks (req : SignRequest) (tx : EthTx.Transaction) : Prop := {
  as_chain : EthTx.ChainID tx = Some (rqChainID req);
  as_nonce : EthTx.Nonce tx = rqNonce req;
  as_gas : EthTx.Gas tx = rqGasLimit req;
  as_to : exists a, hexed [ ""; "0x"; "0X" ] (rqTo req) a /\ len a = 20 /\ EthTx.To tx = Some a;
  as_value : exists v, (decimal (rqValue req) v \/ rqValue req = "" /\ v = 0) /\ EthTx.Value tx = Some v;
  as_data : hexed [ ""; "0x" ] (rqData req) (EthTx.Data tx);
  as_fees :
    rqMaxFeePerGas req <> "" /\ rqMaxPriorityFeePerGas req <> "" /\
      (exists fee tip, decimal (rqMaxFeePerGas req) fee /\ decimal (rqMaxPriorityFeePerGas req) tip /\
         EthTx.MaxFee tx = Some fee /\ EthTx.Tip tx = Some tip /\ EthTx.GasPrice tx = None) \/
    (rqMaxFeePerGas req = "" \/ rqMaxPriorityFeePerGas req = "") /\
      (exists price, decimal (rqGasPrice req) price /\ EthTx.GasPrice tx = Some price /\ EthTx.MaxFee tx = None /\ EthTx.Tip tx = None)
}.

Lemma scan_place s : forall acc count v c, scan_digits acc count s = (v, c, EmptyString) ->
  exists m, place_value s = Some m /\ v = acc * 10 ^ slen s + m /\ c = (count + String.length s)%nat.
Proof.
  induction s as [ | x s IH ]; intros acc count v c; cbn [scan_digits place_value].
  { intros [= <- <-]; exists 0; split_and!; [ done | change (slen "") with 0; rewrite Z.pow_0_r; lia | cbn; lia ]. }
  unfold digit_value; destruct (_ && _); [ | done ]; intros H; destruct (IH _ _ _ _ H) as (m & -> & -> & ->); eexists; split_and!; [ reflexivity | | cbn; lia ].
  unfold slen; cbn [String.length]; rewrite Nat2Z.inj_succ, Z.pow_succ_r by lia; ring.
Qed.

Lemma big_decimal s n : big_of_dec s = Some n -> decimal s n.
Proof.
  unfold big_of_dec, scan_int; intros H.
  assert (forall neg r, match (let '(v, count, rest) := scan_digits 0 0 r in match count with O => None | _ => Some (if neg : bool then - v else v, rest) end) with
      Some (v, EmptyString) => Some v | _ => None end = Some n -> exists m, r <> "" /\ place_value r = Some m /\ n = if neg : bool then - m else m) as G.
  { intros neg r; destruct (scan_digits 0 0 r) as [ [ v c ] rest ] eqn:S; destruct c as [ | c ]; [ done | ]; destruct rest; [ | done ]; intros [= <-].
    destruct (scan_place _ _ _ _ _ S) as (m & P & V & C); exists m; split_and!; [ intros ->; cbn in C; lia | done | destruct neg; lia ]. }
  destruct s as [ | c t ]; [ done | ]; destruct (Ascii.eqb_spec c "-") as [ -> | ]; [ | destruct (Ascii.eqb_spec c "+") as [ -> | ] ].
  - destruct (G true t H) as (m & N & P & E); exists "-", t, m; split_and!; auto.
  - destruct (G false t H) as (m & N & P & E); exists "+", t, m; split_and!; auto.
  - destruct (G false (String c t) H) as (m & N & P & E); exists "", (String c t), m; split_and!; auto.
Qed.

Lemma parse_decimal s zeroOK n : parseBig s zeroOK = Ok n -> decimal s n \/ zeroOK = true /\ s = "" /\ n = 0.
Proof.
  unfold parseBig; destruct (String.eqb_spec s "") as [ -> | N ]; cbn [orb].
  { cbn; destruct zeroOK; cbn; intros [= <-]; auto. }
  destruct (String.eqb_spec s "0") as [ -> | N0 ]; [ rewrite orb_true_r; intros [= <-]; left; exists "", "0", 0; split_and!; auto; done | ].
  destruct (big_of_dec s) eqn:B; [ intros [= <-]; left; exact (big_decimal _ _ B) | done ].
Qed.

Lemma trim_prefix_app p s : s = trim_prefix p s \/ s = p +:+ trim_prefix p s.
Proof. unfold trim_prefix; destruct (strip_prefix p s) as [ r | ] eqn:E; [ right; apply strip_prefix_spec in E; done | auto ]. Qed.

Lemma strip0x_app s : exists p, p ∈ [ ""; "0x"; "0X" ] /\ s = p +:+ strip0x s.
Proof.
  assert (exists p, p ∈ [ ""; "0x"; "0X" ] /\ s = p +:+ s) as D by (exists ""; split; [ set_solver | done ]).
  destruct s as [ | a [ | b r ] ]; [ exact D .. | ]; cbn [strip0x]; destruct (Ascii.eqb_spec a "0") as [ -> | ]; [ | exact D ].
  destruct (Ascii.eqb_spec b "x") as [ -> | ]; [ exists "0x"; split; [ set_solver | done ] | ].
  destruct (Ascii.eqb_spec b "X") as [ -> | ]; [ exists "0X"; split; [ set_solver | done ] | exact D ].
Qed.

Lemma address_hexed s a : ParseAddress s = Ok a -> hexed [ ""; "0x"; "0X" ] s a /\ len a = 20.
Proof.
  intros P; split; [ | exact (proj1 (ParseAddress_ok _ _ P)) ]; unfold ParseAddress in P; destruct (negb _); [ done | ].
  destruct (hex_decode (strip0x s)) eqn:D; [ injection P as -> | done ]; destruct (strip0x_app s) as (p & M & E); exists p, (strip0x s); done.
Qed.

Lemma data_hexed s d : decodeData s = Some d -> hexed [ ""; "0x" ] s d.
Proof.
  unfold decodeData; destruct (String.eqb_spec s "") as [ -> | ]; cbn [orb]; [ intros [= <-]; exists "", ""; split_and!; [ set_solver | done | done ] | ].
  destruct (String.eqb_spec s "0x") as [ -> | ]; [ intros [= <-]; exists "0x", ""; split_and!; [ set_solver | done | done ] | ].
  intros D; destruct (trim_prefix_app "0x" s) as [ E | E ]; [ exists "", (trim_prefix "0x" s) | exists "0x", (trim_prefix "0x" s) ]; split_and!; auto; set_solver.
Qed.

(** ** Signing a transaction *)

Section Signing.
Context {SP : Secp} {St E : Type} (K : KeySigner St E) (ok : St -> Prop) {SK : Signs K ok}.

(** The machine-level shape of a request. *)
Definition request_ok (req : SignRequest) : Prop := in_u64 (rqNonce req) /\ in_u64 (rqGasLimit req).

Lemma transactionOf_ok (req : SignRequest) tx : request_ok req -> transactionOf (E := E) req = Ok tx -> EthTx.tx_ok tx.
Proof.
  intros [ N G ] H; unfold transactionOf in H.
  destruct (ParseAddress (rqTo req)) as [ a | e | ] eqn:A; try done; apply ParseAddress_ok in A as [ _ A ]; cbn [map_err result_bind] in H.
  destruct (parseBig (rqValue req) true); try done; cbn [map_err result_bind] in H.
  destruct (decodeData (rqData req)) as [ d | ] eqn:D; [ | done ].
  assert (bytes_ok d) as Od.
  { unfold decodeData in D; destruct (_ || _) in D; [ injection D as <-; constructor | by apply hex_decode_spec in D as [ ? _ ] ]. }
  destruct (_ && _) in H; [ destruct (parseBig (rqMaxFeePerGas req) false), (parseBig (rqMaxPriorityFeePerGas req) false) | destruct (parseBig (rqGasPrice req) false) ];
    cbn in H; try done; injection H as <-; split_and!; done.
Qed.

(** What a signed transaction is: the request, field by field as a node reads it,
    with a signature that recovers, over that transaction's own signing hash, to
    the sender, who has the given address. *)
Record serves (req : SignRequest) (from : string) (t : SignedTransaction) : Prop := {
  srv_tx : exists tx raw sig digest, asks req tx /\ RawTx t = "0x" +:+ hex_encode raw /\ sgHash t = "0x" +:+ hex_encode (EthTx.TransactionHash keccak raw) /\
    sgSignature t = "0x" +:+ hex_encode sig /\ EthTx.SigningHash keccak tx = Ok digest /\ RecoverAddress keccak recoverCompact digest sig = Ok (sgFrom t) /\
    (len raw < two63 -> exists r s y, EthTx.signature sig r s y /\ EthTx.says tx r s y raw);
  srv_from : exists a, ParseAddress (sgFrom t) = Ok a /\ ParseAddress from = Ok a
}.

Lemma fee_decimal s n : parseBig s false = Ok n -> decimal s n.
Proof. intros P; destruct (parse_decimal _ _ _ P) as [ D | [ F _ ] ]; done. Qed.

Lemma transactionOf_asks (req : SignRequest) tx : transactionOf (E := E) req = Ok tx -> asks req tx.
Proof.
  unfold transactionOf; intros H.
  destruct (ParseAddress (rqTo req)) as [ a | e | ] eqn:PA; try done; apply address_hexed in PA as [ HA LA ]; cbn [map_err result_bind] in H.
  destruct (parseBig (rqValue req) true) as [ v | e | ] eqn:PV; try done; apply parse_decimal in PV; cbn [map_err result_bind] in H.
  destruct (decodeData (rqData req)) as [ d | ] eqn:DD; [ | done ]; apply data_hexed in DD.
  assert (decimal (rqValue req) v \/ rqValue req = "" /\ v = 0) as VV by tauto.
  destruct (negb (String.eqb (rqMaxFeePerGas req) "") && negb (String.eqb (rqMaxPriorityFeePerGas req) "")) eqn:F.
  - apply andb_true_iff in F as [ F1 F2 ]; apply negb_true_iff in F1, F2; apply String.eqb_neq in F1, F2.
    destruct (parseBig (rqMaxFeePerGas req) false) as [ fee | | ] eqn:PF; try done; cbn [map_err result_bind] in H.
    destruct (parseBig (rqMaxPriorityFeePerGas req) false) as [ tip | | ] eqn:PT; try done; apply fee_decimal in PF, PT.
    injection H as <-; constructor; cbn; [ .. | left ]; eauto 9.
  - assert (rqMaxFeePerGas req = "" \/ rqMaxPriorityFeePerGas req = "") as FF
      by (apply andb_false_iff in F as [ F | F ]; apply negb_false_iff, String.eqb_eq in F; auto).
    destruct (parseBig (rqGasPrice req) false) as [ price | | ] eqn:PG; try done; apply fee_decimal in PG.
    injection H as <-; constructor; cbn; [ .. | right ]; eauto 9.
Qed.

Lemma SignTransaction_serves m req m' s : request_ok req -> ok (key m) -> address m <> "" ->
  SignTransaction K m req = (m', Ok s) -> serves req (address m) s /\ address m' = address m /\ ok (key m') /\ PublicKey K (key m') = PublicKey K (key m).
Proof.
  unfold SignTransaction; intros R O A H.
  destruct (transactionOf (E := E) req) as [ tx | e | ] eqn:T; cbn [result_bind] in H; try done.
  destruct (EthTx.SigningHash keccak tx) as [ d | e | ] eqn:D; cbn [map_err result_bind] in H; try done.
  destruct (SignDigest K (key m) d) as [ k r ] eqn:S; destruct r as [ sig | e | ]; cbn [map_err result_bind] in H; try done.
  destruct (signs (key m) d k sig O S) as (Sg & P & Ok'); pose proof (sig_bytes _ _ _ Sg) as Ob.
  destruct (EthTx.WithSignature keccak recoverCompact tx sig (address m)) as [ st | e | ] eqn:W; cbn [map_err result_bind] in H; try done.
  injection H as <- <-; split_and!; try done.
  destruct (EthTx.WithSignature_sender _ _ _ _ _ _ Ob A W) as (d' & a & D' & Rc & Pa & Pb & _ & Hh); assert (d' = d) as -> by congruence.
  constructor; cbn; [ | by exists a ]; exists tx, (EthTx.Raw st), sig, d; split_and!; try done; [ exact (transactionOf_asks req tx T) | by rewrite Hh | ].
  intros Ln; exact (EthTx.WithSignature_says _ _ _ _ _ _ (transactionOf_ok _ _ R T) Ob W Ln).
Qed.

Context {L : Type} (immuSet : string -> bytes -> L -> L * option Z) (marshalEvent : AuditEvent -> option bytes) (now : nat -> string) (nanos : nat -> Z) (errorText : SignErr E -> string).

(** One record of the ledger: its key and bytes, and the id the ledger gave it,
    zero when it gave none. *)
Definition recorded (n : nat) (e : AuditEvent) (l l' : L) (id : Z) : Prop :=
  match marshalEvent e with
  | Some payload => exists answer, immuSet ("audit:" +:+ show_int (nanos n) +:+ ":" +:+ RequestID e) payload l = (l', answer) /\ id = default 0 answer
  | None => l' = l /\ id = 0
  end.

Lemma log_recorded n e l l' id : Timestamp e = "" -> log immuSet marshalEvent now nanos n true e l = (l', id) ->
  recorded n {| Type_ := Type_ e; RequestID := RequestID e; Timestamp := now n; Message := Message e; evSignature := evSignature e; evHash := evHash e;
                evFrom := evFrom e; Status := Status e |} l l' id.
Proof.
  intros T; unfold log, LogEvent, recorded; rewrite T; cbn [negb String.eqb RequestID]; destruct (marshalEvent _); [ | intros [= <- <-]; done ].
  destruct (immuSet _ _ l) as [ l1 a ]; intros [= <- <-]; eauto.
Qed.

(** C31.  What /sign answers with is the request as a transaction: its raw bytes are,
    field by field, what the texts of the request ask for, with a signature that
    recovers over that transaction's signing hash to the sender that is reported,
    whose address is the service's; the hash is that of the bytes; and with an
    audit log, what was written to it is the record of the request and then the
    record of its success, whose id is answered (without one, nothing and 0). *)
Theorem signed_is_the_request s id req l s' l' r :
  request_ok req -> ok (key (srvSigner s)) -> address (srvSigner s) <> "" ->
  handleSign immuSet marshalEvent now nanos K errorText s id (inr req) l = (s', l', Some (200, Signed r)) ->
  (exists tx raw sig digest, asks req tx /\ rsSignedTx r = "0x" +:+ hex_encode raw /\ rsTxHash r = "0x" +:+ hex_encode (EthTx.TransactionHash keccak raw) /\
    EthTx.SigningHash keccak tx = Ok digest /\ RecoverAddress keccak recoverCompact digest sig = Ok (rsFrom r) /\
    (len raw < two63 -> exists x y v, EthTx.signature sig x y v /\ EthTx.says tx x y v raw) /\
    if srvAudit s then exists l1 id1,
      recorded 0 {| Type_ := "SIGN_REQUEST_RECEIVED"; RequestID := id; Timestamp := now 0;
        Message := "to=" +:+ rqTo req +:+ " value=" +:+ rqValue req +:+ " nonce=" +:+ show_int (rqNonce req) +:+ " data_len=" +:+ show_int (slen (rqData req));
        evSignature := ""; evHash := ""; evFrom := ""; Status := "pending" |} l l1 id1 /\
      recorded 1 {| Type_ := "SIGN_SUCCESS"; RequestID := id; Timestamp := now 1; Message := ""; evSignature := "0x" +:+ hex_encode sig;
        evHash := rsTxHash r; evFrom := rsFrom r; Status := "signed" |} l1 l' (rsAuditLogID r)
    else l' = l /\ rsAuditLogID r = 0) /\
  (exists b, ParseAddress (rsFrom r) = Ok b /\ ParseAddress (address (srvSigner s)) = Ok b) /\
  rsRequestID r = id /\ address (srvSigner s') = address (srvSigner s) /\ ok (key (srvSigner s')).
Proof.
  intros R O A; unfold handleSign; destruct (log _ _ _ _ _ _ _ l) as [ l1 x1 ] eqn:L1.
  destruct (SignTransaction K (srvSigner s) req) as [ m' [ sg | e | ] ] eqn:S; [ | destruct (log _ _ _ _ _ _ _ l1); done | done ].
  destruct (log _ _ _ _ _ _ (successEvent id sg) l1) as [ l2 aid ] eqn:L2; intros H; injection H as <- <- <-; cbn in L2 |- *.
  destruct (SignTransaction_serves _ _ _ _ R O A S) as ([ (tx & raw & sig & d & T & Rw & Hs & Sg & Dg & Rc & Sy) Fr ] & Ad & Ok' & _).
  split; [ | split_and!; done ]; exists tx, raw, sig, d; split_and!; try done; destruct (srvAudit s); [ | injection L1 as <- _; injection L2 as <- <-; done ].
  exists l1, x1; apply log_recorded in L1; [ | done ]; apply log_recorded in L2; [ | done ]; split; [ exact L1 | ].
  change (evSignature (successEvent id sg)) with (sgSignature sg) in L2; rewrite Sg in L2; exact L2.
Qed.
End Signing.

(** ** A key that signs is enough *)

Lemma signedPayload_total t p r s v : EthTx.valid_tx t -> EthTx.signingPayload t = Ok p -> 0 <= r -> 0 <= s -> 0 <= v <= 1 -> exists q, EthTx.signedPayload t r s v = Ok q.
Proof.
  intros V P R S W; pose proof (EthTx.valid_chain t V) as (c & C & Pc).
  assert (forall o : option Z, 0 <= default 0 o -> exists b, Rlp.rlpBig (E := EthTx.TxErr) o = Ok b) as B by (intros o N; rewrite EthTx.rlpBig_nonneg by done; eauto).
  unfold EthTx.signingPayload in P; unfold EthTx.signedPayload; destruct (EthTx.IsDynamic t); inv_ok;
    repeat match goal with H : Rlp.rlpBig ?o = Ok _ |- context [ Rlp.rlpBig ?o ] => rewrite H; cbn [result_bind] end.
  - destruct (B (Some r)) as [ ? -> ]; [ done | ]; destruct (B (Some s)) as [ ? -> ]; [ done | ]; cbn; eauto.
  - rewrite C; cbn [default id]; destruct (B (Some (u64 (v + 35) + c * 2))) as [ ? -> ]; [ cbn; pose proof (u64_range (v + 35)) as [ ? _ ]; lia | ].
    destruct (B (Some r)) as [ ? -> ]; [ done | ]; destruct (B (Some s)) as [ ? -> ]; [ done | ]; cbn; eauto.
Qed.

Section Completing.
Context {SP : Secp} {SL : SecpScalars SP} {St E : Type} (K : KeySigner St E) (ok : St -> Prop) {SK : Signs K ok}.
Context (hash_length : forall b, length (keccak b) = 32%nat) (hash_bytes : forall b, bytes_ok (keccak b)).
(** [ParsePubKey] reads the coordinates back *)
Context (parse_reads : forall x y m p, 0 <= x -> 0 <= y -> MarshalPubkey x y = Ok m -> parsePubKey m = Some p -> p = (x, y)).

Lemma address_parses x y a : 0 <= x < 256 ^ 32 -> 0 <= y < 256 ^ 32 -> Address keccak x y = Ok a -> exists b, ParseAddress a = Ok b.
Proof.
  intros X Y; unfold Address; destruct (AddressBytes_ok keccak x y hash_length hash_bytes X Y) as (b & -> & Lb & Ob); cbn [result_bind].
  destruct (ParseAddress_Checksum keccak b hash_length Ob Lb) as (s & -> & P); intros H; injection H as <-; eauto.
Qed.

(** A request that is a valid transaction is signed whenever the key signs its
    digest: nothing after the signature can fail, because the address the
    service checks the sender against is that of the key. *)
Theorem signing_completes k m req tx digest k' sig :
  ok k -> NewMPCSignerFromKey K k = Ok m -> transactionOf (E := E) req = Ok tx -> EthTx.SigningHash keccak tx = Ok digest ->
  SignDigest K k digest = (k', Ok sig) ->
  exists s, SignTransaction K m req = ({| key := k'; address := address m |}, Ok s) /\ sgFrom s = address m /\ sgSignature s = "0x" +:+ hex_encode sig.
Proof.
  intros O N T D S; destruct (signs k digest k' sig O S) as (Sg & _ & _).
  unfold NewMPCSignerFromKey, AddressOf, coordinates in N; destruct (_ || _) in N; [ done | ].
  destruct (parsePubKey (PublicKey K k)) as [ p | ] eqn:Pk; cbn [result_bind] in N; [ | done ].
  destruct (signature_point _ _ _ Sg) as (rs & v & x & y & -> & Lrs & V & Ob & M & Sp & Rc).
  pose proof Rc as [ [ X0 _ ] [ Y0 _ ] ]%recover_range; pose proof (parse_reads x y _ p X0 Y0 M Pk) as ->; cbn [fst snd] in N.
  destruct (Address keccak x y) as [ a | e | ] eqn:Ad; cbn in N; try done; injection N as <-; cbn [address].
  apply recover_range in Rc as [ X Y ]; destruct (address_parses x y a X Y Ad) as [ b Pa ].
  unfold SignTransaction; rewrite T; cbn [result_bind]; rewrite D; cbn [map_err result_bind key]; rewrite S; cbn [map_err result_bind address].
  assert (exists st, EthTx.WithSignature keccak recoverCompact tx (rs ++ [ v ]) a = Ok st /\ EthTx.From st = a) as (st & W & F); [ | rewrite W; cbn; eauto ].
  pose proof D as D0; unfold EthTx.SigningHash in D; destruct (EthTx.validate tx) as [ [] | e | ] eqn:Va; cbn [result_bind] in D; try done.
  destruct (EthTx.signingPayload tx) as [ pay | e | ] eqn:Pay; cbn [result_bind] in D; try done.
  unfold EthTx.WithSignature; rewrite Va; cbn [result_bind]; rewrite (sig_len _ _ _ Sg); cbn [negb Z.eqb Pos.eqb EthCrypto.SignatureLength].
  rewrite D0; cbn [result_bind]; unfold RecoverAddress; rewrite Sp; cbn [result_bind fst snd]; rewrite Ad; cbn [map_err result_bind].
  assert (equalAddress a a = true) as -> by (unfold equalAddress; rewrite Pa, Z.eqb_refl, bool_decide_eq_true_2; done); cbn [negb]; rewrite andb_false_r.
  destruct (sig_parts (E := EthTx.TxErr) rs v Lrs) as (-> & -> & _ & -> & _); cbn [result_bind].
  assert (0 <= be_val (take 32 rs) /\ 0 <= be_val (drop 32 rs)) as [ Br Bs ] by (destruct (halves rs Lrs Ob) as [ [ _ H1 ] [ _ H2 ] ]; split; by apply be_val_bound).
  destruct (signedPayload_total tx pay (be_val (take 32 rs)) (be_val (drop 32 rs)) (recoveryId v)) as [ q -> ]; try done;
    [ by apply (EthTx.validate_valid tx tt) | destruct V as [ -> | -> ]; done | cbn; eauto ].
Qed.
End Completing.

(** ** Where the key is *)

Section Sourcing.
Context {SP : Secp} {SL : SecpScalars SP} {SG : SecpSigning SP} {V : Type} {VA : Vault V} {T Ctx : Type} {CK : Hsm.Cryptoki T Ctx} (sha : bytes -> bytes) (quote : string -> string).

(** Both signers keep the promise, so the one that was resolved does. *)
#[export] Instance any_signs (answers_bytes : forall ctx se d (t t' : T) rs, Hsm.TokenSign ctx se d t = (t', Ok rs) -> bytes_ok rs) :
  Signs (anySigner sha) (fun k => match k with inl r => made r | inr _ => True end).
Proof.
  constructor; intros [ r | s ] d k sig O H; cbn [anySigner SignDigest PublicKey] in *.
  - destruct (SignDigest rawKeySigner r d) as [ r' [ a | e | ] ] eqn:S; cbn in H; try done; injection H as <- <-; by apply (signs (K := rawKeySigner) r d).
  - destruct (SignDigest (Hsm.hsmKeySigner sha) s d) as [ s' [ a | e | ] ] eqn:S; cbn in H; try done; injection H as <- <-.
    by apply (signs (Signs := Hsm.hsm_signs sha answers_bytes) s d).
Qed.

(** Hardware and software exclude each other: a service that signs in hardware
    was given a whole configuration of it, no address of Vault and no key, and
    holds none; one that does not, was given no part of such a configuration. *)
Theorem hardware_excludes_software osenv getenv e1 e2 p p' r : resolveSigner sha quote osenv getenv e1 e2 p = (p', Ok r) ->
  if hardware r then
    keyHex r = "" /\ getenv "VAULT_ADDR" = "" /\ getenv "MPC_SIGNER_PRIVATE_KEY" = "" /\ vaultState p' = vaultState p /\
    exists cfg s t, PKCS11ConfigFromEnv osenv = Ok (Some cfg) /\ key (mpcSigner r) = inr (s, t) /\ Hsm.OpenPKCS11 sha quote (Some cfg) (hsmWorld p) = (hsmWorld p', Ok s)
  else
    PKCS11ConfigFromEnv osenv = Ok None /\ hsmWorld p' = hsmWorld p /\ (exists k, key (mpcSigner r) = inl k) /\
    ResolveSigningKey getenv e1 (vaultState p) = (vaultState p', Ok (keyHex r)).
Proof.
  unfold resolveSigner; destruct (PKCS11ConfigFromEnv osenv) as [ [ cfg | ] | e | ] eqn:C; try done.
  - destruct (String.eqb (getenv "VAULT_ADDR") "") eqn:A1; [ cbn [negb] | done ]; destruct (String.eqb (getenv "MPC_SIGNER_PRIVATE_KEY") "") eqn:A2; [ cbn [negb] | done ].
    apply String.eqb_eq in A1, A2; destruct (Hsm.OpenPKCS11 sha quote (Some cfg) (hsmWorld p)) as [ w [ s | e | ] ] eqn:Op; try done.
    destruct (NewMPCSignerFromKey _ _) as [ m | e | ] eqn:N; cbn; intros H; try done; injection H as <- <-; cbn.
    assert (key m = (s, Hsm.outside w)) as Km by (unfold NewMPCSignerFromKey in N; destruct (AddressOf _); cbn in N; try done; injection N as <-; done).
    split_and!; try done; exists cfg, s, (Hsm.outside w); split_and!; [ done | by rewrite Km | done ].
  - destruct (ResolveSigningKey getenv e1 (vaultState p)) as [ v [ h | e | ] ] eqn:Rs; try done.
    destruct (NewMPCSigner h e2) as [ [ m | e | ] | ]; cbn; intros H; try done; injection H as <- <-; cbn; split_and!; eauto.
Qed.

(** What is documented of Vault's key-value store: reading changes nothing, and
    what was written is read. *)
Context (get_pure : forall cfg v, fst (kvGet cfg v) = v)
  (get_put : forall cfg d v v', kvPut cfg d v = (v', None) -> kvGet cfg v' = (v', inr (Some (Some d)))).

(** A key in Vault is found again: whatever key a start of the service used,
    the next start uses it too, whatever it would have drawn. *)
Theorem vault_key_is_kept getenv e v v' h : getenv "VAULT_ADDR" <> "" -> ResolveSigningKey getenv e v = (v', Ok h) ->
  forall e', ResolveSigningKey getenv e' v' = (v', Ok h).
Proof.
  intros A H e'; unfold ResolveSigningKey in *; apply String.eqb_neq in A; rewrite A in *; set (cfg := configOf _ _) in *.
  assert (forall e v0, createVaultKey cfg e v0 = (v', Ok h) -> newClient (addr cfg) = true -> loadOrCreateVaultKey cfg e' v' = (v', Ok h)) as New.
  { unfold createVaultKey; intros [ d | ] v0 Q Nc; [ | done ].
    destruct (FromECDSA _) as [ raw | er | ] eqn:Fr; cbn [result_bind] in Q; try done.
    destruct (PubkeyToAddress _ _ _) as [ a | er | ]; cbn [result_bind] in Q; try done.
    destruct (kvPut _ _ _) as [ v1 [ er | ] ] eqn:Pt; [ done | injection Q as -> <- ].
    apply get_put in Pt; unfold loadOrCreateVaultKey; rewrite Nc, Pt, lookup_insert_eq; cbn [negb].
    assert (String.eqb (hex_encode raw) "" = false) as ->; [ | done ].
    apply String.eqb_neq; cbn in Fr; apply fill_bytes_length in Fr; destruct raw; [ done | discriminate ]. }
  unfold loadOrCreateVaultKey in H; destruct (newClient (addr cfg)) eqn:Nc; cbn [negb] in H; [ | done ].
  pose proof (get_pure cfg v) as Pu; destruct (kvGet cfg v) as [ v1 g ] eqn:G; cbn in Pu; subst v1.
  destruct g as [ er | [ [ data | ] | ] ]; [ destruct (isVaultNotFound er); [ by eapply New | done ] | | by eapply New | by eapply New ].
  destruct (data !! "private_key") as [ [ raw | ] | ] eqn:Dk; [ | by eapply New | by eapply New ].
  destruct (negb (String.eqb raw "")) eqn:Ne; [ | by eapply New ].
  injection H as <- <-; unfold loadOrCreateVaultKey; rewrite Nc, G, Dk, Ne; done.
Qed.
End Sourcing.

(** ** Instances *)

Module Simple.
Import Hsm.Hsm.Simple ChainSigners.Simple.
#[export] Existing Instance Hsm.Hsm.Simple.secp.
#[export] Existing Instance Hsm.Hsm.Simple.scalars.
#[export] Existing Instance Hsm.Hsm.Simple.cryptoki.
#[export] Existing Instance BitcoinService.Simple.library.

(** A ledger of the keys that were written. *)
Definition ledger (k : string) (payload : bytes) (l : list string) : list string * option Z := (l ++ [ k ], Some (len l + 1)).
Definition marshalled (e : AuditEvent) : option bytes := Some (to_bytes (Type_ e)).
Definition text (e : SignErr KeyErr) : string := "refused".

Definition request : SignRequest :=
  {| rqChainID := 11155111; rqTo := "0x1111111111111111111111111111111111111111"; rqData := "0x"; rqValue := "5"; rqGasLimit := 21000; rqGasPrice := "7";
     rqNonce := 3; rqMaxFeePerGas := ""; rqMaxPriorityFeePerGas := "" |}.
Definition serving : server RawKeySigner :=
  {| srvSigner := {| key := held_key; address := "0x0707070707070707070707070707070707070707" |}; srvAudit := true; srvKeyHex := hex_encode (word 7); srvHardware := false |}.
Definition call := handleSign ledger marshalled (fun _ => "now") Z.of_nat rawKeySigner text serving "id" (inr request) [].
Definition answered : SignResponse :=
  match snd call with Some (_, Signed r) => r | _ => {| rsRequestID := ""; rsSignedTx := ""; rsTxHash := ""; rsFrom := ""; rsStatus := ""; rsAuditLogID := 0 |} end.

Lemma signed_is_the_request_witness : rsAuditLogID answered = 2 /\
  exists b, ParseAddress (rsFrom answered) = Ok b /\ ParseAddress (address (srvSigner serving)) = Ok b.
Proof.
  split; [ vm_compute; reflexivity | ].
  destruct (signed_is_the_request rawKeySigner made ledger marshalled (fun _ => "now") Z.of_nat text serving "id" request []
    (fst (fst call)) (snd (fst call)) answered) as (_ & B & _).
  - split; vm_compute; split; congruence.
  - exact held_key_made.
  - discriminate.
  - vm_compute; reflexivity.
  - exact B.
Defined.

Lemma signing_completes_witness :
  exists s, SignTransaction rawKeySigner (srvSigner serving) request = (srvSigner serving, Ok s) /\
    sgFrom s = "0x0707070707070707070707070707070707070707" /\ sgSignature s = "0x" +:+ hex_encode (word 7 ++ word 5 ++ [ 0 ]).
Proof.
  apply (signing_completes rawKeySigner made) with (k := held_key) (tx := match transactionOf (E := KeyErr) request with Ok t => t | _ => EthTx.sample_tx end)
    (digest := replicate 32 7) (k' := held_key) (sig := word 7 ++ word 5 ++ [ 0 ]) (m := srvSigner serving).
  - reflexivity.
  - intros b; apply Forall_replicate; unfold byte_ok; lia.
  - intros x y m p X Y M P; rewrite (parse_reads x y m M X Y) in P; congruence.
  - exact held_key_made.
  - vm_compute; reflexivity.
  - reflexivity.
  - vm_compute; reflexivity.
  - vm_compute; reflexivity.
Defined.

(** Vault as one secret. *)
#[export] Instance one_secret : Vault (option (gmap string VVal)) := {
  newClient _ := true;
  kvGet _ v := (v, match v with None => inl "secret not found" | Some d => inr (Some (Some d)) end);
  kvPut _ d _ := (Some d, None)
}.

Definition environment (l : list (string * string)) (k : string) : string := match list_find (fun p => fst p = k) l with Some (_, (_, v)) => v | None => "" end.
Definition vaulted : string -> string := environment [ ("VAULT_ADDR", "http://vault") ].

Lemma vault_key_is_kept_witness :
  ResolveSigningKey vaulted (Some 9) (fst (ResolveSigningKey vaulted (Some 7) None)) =
    (fst (ResolveSigningKey vaulted (Some 7) None), Ok (hex_encode (word 7))).
Proof.
  apply (vault_key_is_kept (VA := one_secret)) with (e := Some 7) (v := None).
  - reflexivity.
  - intros cfg d v v' H; cbn in *; injection H as <-; done.
  - vm_compute; discriminate.
  - vm_compute; reflexivity.
Defined.

(** *** Keys and messages the routes do not agree on *)

Definition nowhere : Places (V := option (gmap string VVal)) (T := Tok) (Ctx := unit) :=
  {| vaultState := None; hsmWorld := start {| keyOf := 7; gone := true; failing := 0 |} |}.
Definition in_hardware : string -> string := environment
  [ (EnvPKCS11Library, "lib.so"); (EnvPKCS11TokenLabel, "vault"); (EnvPKCS11PIN, "1234"); (EnvPKCS11KeyLabel, "hot") ].

Definition resolved (osenv getenv : string -> string) : result SourceErr (Resolved (T := Tok) (Ctx := unit)) :=
  snd (resolveSigner sha quoted osenv getenv None (Some 7) nowhere).

Definition tokened : Hsm.World Tok unit :=
  {| Hsm.outside := {| keyOf := 7; gone := false; failing := 0 |}; Hsm.refs := {[ 0%nat := 1 ]}; Hsm.modules := {[ "lib.so" := Hsm.held signer ]}; Hsm.next := 1 |}.

Lemma hardware_excludes_software_witness :
  exists cfg, PKCS11ConfigFromEnv in_hardware = Ok (Some cfg) /\ exists s t, Hsm.OpenPKCS11 sha quoted (Some cfg) (hsmWorld nowhere) = (tokened, Ok s) /\ inr (A := RawKeySigner) (s, t) = inr (Hsm.Hsm.Simple.signer, Hsm.outside tokened).
Proof.
  destruct (hardware_excludes_software sha quoted in_hardware (fun _ => "") None (Some 7) nowhere {| vaultState := None; hsmWorld := tokened |}
    {| mpcSigner := {| key := inr (Hsm.Hsm.Simple.signer, Hsm.outside tokened); address := "0x0707070707070707070707070707070707070707" |}; keyHex := ""; hardware := true |})
    as (_ & _ & _ & _ & cfg & s & t & C & Kt & Op).
  - vm_compute; reflexivity.
  - exists cfg; split; [ exact C | ]; exists s, t; split; [ exact Op | symmetry; exact Kt ].
Defined.

(** A service made of what was resolved, and what it answers on a chain. *)
Definition serverOf (r : Resolved (T := Tok) (Ctx := unit)) : server (RawKeySigner + Hsm.PKCS11Signer unit * Tok) :=
  {| srvSigner := mpcSigner r; srvAudit := false; srvKeyHex := keyHex r; srvHardware := hardware r |}.
Definition on_chain (getenv : string -> string) (chain message : string) : option (option (Z * Body (KeyErr + Hsm.HsmErr))) :=
  match resolved (fun _ => "") getenv with
  | Ok r => Some (snd (handleSignMultiChain (anySigner sha) (serverOf r) (Some (chain, message))))
  | _ => None
  end.
Definition sentence : string := "0123456789abcdef0123456789abcdef".

(** With a private key written with 0x in front, which /sign takes, the
    multi-chain route refuses Ethereum; without it, it signs. *)
Lemma prefixed_key_signs_on_one_route :
  let bare := hex_encode (word 7) in
  on_chain (environment [ ("MPC_SIGNER_PRIVATE_KEY", "0x" +:+ bare) ]) "ethereum" sentence = Some (Some (500, ChainFailed "ethereum" (InvalidKey EthCrypto.KeyNotHex))) /\
  (exists r, on_chain (environment [ ("MPC_SIGNER_PRIVATE_KEY", bare) ]) "ethereum" sentence = Some (Some (200, ChainSigned r))) /\
  (exists r, on_chain (environment [ ("MPC_SIGNER_PRIVATE_KEY", "0x" +:+ bare) ]) "bitcoin" sentence = Some (Some (200, ChainSigned r))).
Proof. split_and!; [ vm_compute; reflexivity | eexists; vm_compute; reflexivity | eexists; vm_compute; reflexivity ]. Qed.

(** With no key configured the service draws one and signs with it on /sign; the
    multi-chain route is handed the empty text. *)
Lemma drawn_key_is_not_on_the_other_route :
  on_chain (environment []) "ethereum" sentence = Some (Some (500, ChainFailed "ethereum" (InvalidKey (EthCrypto.KeyLength 0)))).
Proof. vm_compute; reflexivity. Qed.

(** A digest written in hex is not 32 bytes of message. *)
Lemma hex_digest_is_refused :
  on_chain (environment [ ("MPC_SIGNER_PRIVATE_KEY", hex_encode (word 7)) ]) "bitcoin" "0xaabbccdd00112233445566778899aabbccdd00112233445566778899aabbccdd"
    = Some (Some (500, ChainFailed "bitcoin" (HashLength 66))).
Proof. vm_compute; reflexivity. Qed.
End Simple.
End SignerService.
