(* ===== verification/Offsite.v ===== *)
(** * Off-site copies of a backup

    Models [services/backup/offsite.go] and [offsite_checksums.go]: a file is cut
    into chunks, each sealed with its position and whether it is the last, and
    put in an object store; what comes back is opened chunk by chunk, checked
    against the checksum taken before, and moved into place.

    AES-GCM, SHA-256, the object store, JSON and the faults of the file system
    are parameters.

    Shown here: what was encrypted is decrypted; an object is accepted only if it
    is, whole and in order, one that was made under the key; a file is written
    only if its checksum is the one recorded, and otherwise nothing is touched;
    and a backup that was copied is fetched as it was. *)

From Stdlib Require Import ZArith Lia Ascii String.
From stdpp Require Import base list numbers strings gmap.
From S2P Require Import Prelude GoStrings GoText GoPath.

Open Scope Z_scope.

Module Offsite.
#[local] Open Scope string_scope.
#[local] Open Scope list_scope.
#[local] Open Scope Z_scope.

Definition offsiteMagic : bytes := [ 79; 70; 66; 66; 75; 49; 0; 0 ].
Definition chunkSize : Z := Z.shiftl 1 20.
Definition prefixLen : Z := 8.
Definition checksumsName : string := "checksums".
Definition backupFileNames : list string := [ "postgres"; "vault"; "manifest" ].

Inductive OffErr : Type :=
| KeyLength | NoKeyFile | KeyFileStat | KeyReadable (mode : Z) | KeyFileRead | KeyShape
| OpenFailed | NoEntropy | ReadFailed | TooLarge | Uploading (key : string) | Downloading
| BadHeader | EndsEarly | ChunkSize | EndsInChunk | NotAuthentic | TrailingData | ChecksumDiffers
| MkdirFailed | TempFailed | ChmodFailed | WriteFailed | CloseFailed | RenameFailed
| RecordNotEncoded | RecordRead (id : string) (e : OffErr) | RecordInvalid (id : string) | RecordOfOther (got want : string) | RecordMissing (name : string)
| NoStore | NoChecksums (name : string) (e : OffErr) | NoChecksum (name : string) | OfFile (name : string) (e : OffErr).

(** ** AES-GCM *)

Class Aead := {
  overhead : Z;
  seal : bytes -> bytes -> bytes -> bytes;
  open : bytes -> bytes -> bytes -> option bytes
}.

(** What is documented of it: opening undoes sealing and nothing else opens to
    that text, and the tag is sixteen bytes. *)
Class AeadLaws (AE : Aead) : Prop := {
  open_seal n p a c : open n c a = Some p <-> c = seal n p a;
  seal_length n p a : len (seal n p a) = len p + overhead;
  overhead_16 : overhead = 16
}.

(** ** LoadOffsiteKey *)

(** [strings.TrimSpace] of the text of the file; [mode]: the permission bits, when
    the file is there; [raw]: its bytes, when they can be read *)
Definition LoadOffsiteKey (file : string) (mode : option Z) (raw : option bytes) : result OffErr bytes :=
  refuse! String.eqb file "" with NoKeyFile;
  match mode with
  | None => Err KeyFileStat
  | Some m =>
      refuse! negb (Z.land m 7 =? 0) with KeyReadable m;
      match raw with
      | None => Err KeyFileRead
      | Some raw =>
          let t := trim_space (of_bytes raw) in
          match (if slen t =? 64 then hex_decode t else None) with
          | Some k => Ok k
          | None => if len raw =? 32 then Ok raw else Err KeyShape
          end
      end
  end.

(** ** The format *)

(** [binary.BigEndian.PutUint32] and [Uint32] *)
Definition put32 (v : Z) : bytes := [ u8 (Z.shiftr v 24); u8 (Z.shiftr v 16); u8 (Z.shiftr v 8); u8 v ].

Definition chunkNonce (prefix : bytes) (counter : Z) : bytes := prefix ++ put32 counter.
Definition chunkAAD (counter : Z) (last : bool) : bytes := put32 counter ++ [ if last then 1 else 0 ].

(** What [io.ReadFull] takes of at most [n] bytes, and what is left. *)
Fixpoint readUpTo (n : Z) (l : bytes) : bytes * bytes :=
  match l with
  | [] => ([], [])
  | b :: t => if n <=? 0 then ([], l) else let '(x, y) := readUpTo (n - 1) t in (b :: x, y)
  end.

Section Format.
Context {AE : Aead}.

Definition sealChunk (prefix : bytes) (counter : Z) (last : bool) (plain : bytes) : bytes :=
  let sealed := seal (chunkNonce prefix counter) plain (chunkAAD counter last) in
  put32 (u32 (len sealed)) ++ sealed.

(** The loop; [broken]: reading past the data fails instead of ending.  The
    fuel is one more than the data, of which every turn but the last takes
    some. *)
Fixpoint encryptLoop (fuel : nat) (prefix : bytes) (counter : Z) (broken : bool) (src : bytes) : result OffErr bytes :=
  match fuel with
  | O => Err ReadFailed
  | S fuel =>
      let '(buf, rest) := readUpTo chunkSize src in
      if broken && (len buf <? chunkSize) then Err ReadFailed
      else
        let last := (len rest =? 0) && negb broken in
        let chunk := sealChunk prefix counter last buf in
        if last then Ok chunk
        else
          let counter := u32 (counter + 1) in
          refuse! counter =? 0 with TooLarge;
          let! out := encryptLoop fuel prefix counter broken rest in
          Ok (chunk ++ out)
  end.

Definition encrypt (prefix : bytes) (broken : bool) (src : bytes) : result OffErr bytes :=
  let! out := encryptLoop (S (S (length src))) prefix 0 broken src in
  Ok (offsiteMagic ++ prefix ++ out).

(** The loop of [decrypt]; every turn takes at least four bytes.  [full]: whether
    writing the chunk of that number fails. *)
Fixpoint decryptLoop (fuel : nat) (full : Z -> bool) (prefix : bytes) (counter : Z) (src : bytes) : result OffErr bytes :=
  match fuel with
  | O => Err EndsEarly
  | S fuel =>
      let '(lb, src) := readUpTo 4 src in
      refuse! negb (len lb =? 4) with EndsEarly;
      let n := be_val lb in
      refuse! (n <? overhead) || (chunkSize + overhead <? n) with ChunkSize;
      let '(sealed, src) := readUpTo n src in
      refuse! negb (len sealed =? n) with EndsInChunk;
      match open (chunkNonce prefix counter) sealed (chunkAAD counter true) with
      | Some plain =>
          refuse! full counter with WriteFailed;
          refuse! negb (len src =? 0) with TrailingData;
          Ok plain
      | None =>
          match open (chunkNonce prefix counter) sealed (chunkAAD counter false) with
          | None => Err NotAuthentic
          | Some plain =>
              refuse! full counter with WriteFailed;
              let! out := decryptLoop fuel full prefix (u32 (counter + 1)) src in
              Ok (plain ++ out)
          end
      end
  end.

Definition decrypt (full : Z -> bool) (src : bytes) : result OffErr bytes :=
  let '(hdr, src) := readUpTo (len offsiteMagic + prefixLen) src in
  refuse! negb (len hdr =? len offsiteMagic + prefixLen) || negb (bool_decide (take 8 hdr = offsiteMagic)) with BadHeader;
  decryptLoop (S (length src)) full (drop 8 hdr) 0 src.

(** ** The store *)

Record OffsiteReceipt := { Key : string; PlaintextSHA256 : string; PlaintextBytes : Z }.
Record ChecksumRecord := { BackupID : string; Files : gmap string OffsiteReceipt }.
Record OffsiteStore := { prefix : string }.

(** [strings.Trim(prefix, "/")] *)
Fixpoint trimSlashesLeft (s : string) : string := match s with String c t => if Ascii.eqb c "/" then trimSlashesLeft t else s | _ => s end.
Definition trimSlashes (s : string) : string := of_bytes (rev (to_bytes (trimSlashesLeft (of_bytes (rev (to_bytes (trimSlashesLeft s))))))).

Definition NewOffsiteStore (prefix : string) (key : bytes) : result OffErr OffsiteStore :=
  refuse! negb (len key =? 32) with KeyLength;
  Ok {| prefix := trimSlashes prefix |}.

Definition objectKey (o : OffsiteStore) (backupID name : string) : string := GoPath.Join [ prefix o; backupID; name ].

(** The object store; a body that cannot be read is not stored. *)
Class Objects (B : Type) := {
  putObject : string -> bytes -> B -> B * bool;
  putBroken : string -> B -> B;
  getObject : string -> B -> option bytes
}.

Context {B : Type} {OB : Objects B} (sha256 : bytes -> bytes).

(** A file that may not open, and whose reading may fail at its end. *)
Record Source := { content : bytes; broken : bool }.

(** [nonce]: the eight bytes of [rand.Read], or its error *)
Definition Put (o : OffsiteStore) (backupID name : string) (file : option Source) (nonce : option bytes) (b : B) : B * result OffErr OffsiteReceipt :=
  match file with
  | None => (b, Err OpenFailed)
  | Some f =>
      match nonce with
      | None => (b, Err NoEntropy)
      | Some nonce =>
          let key := objectKey o backupID (name +:+ ".enc") in
          match encrypt nonce (broken f) (content f) with
          | Ok body =>
              let '(b, stored) := putObject key body b in
              (b, if stored then Ok {| Key := key; PlaintextSHA256 := hex_encode (sha256 (content f)); PlaintextBytes := len (content f) |}
                  else Err (Uploading key))
          | _ => (putBroken key b, Err (Uploading key))
          end
      end
  end.

(** What the file system refuses of one download. *)
Record Faults := { noDir : bool; noTemp : bool; noChmod : bool; full : Z -> bool; noClose : bool; noRename : bool }.

(** Files by path; the temporary file is gone whatever happens. *)
Definition Get (o : OffsiteStore) (backupID name destPath : string) (want : option OffsiteReceipt) (ft : Faults) (fs : gmap string bytes) (b : B) : gmap string bytes * result OffErr unit :=
  match getObject (objectKey o backupID (name +:+ ".enc")) b with
  | None => (fs, Err Downloading)
  | Some body =>
      let failed e := (fs, Err e) in
      if noDir ft then failed MkdirFailed
      else if noTemp ft then failed TempFailed
      else if noChmod ft then failed ChmodFailed
      else
        match decrypt (full ft) body with
        | Err e => failed e
        | Panic => (fs, Panic)
        | Ok plain =>
            if noClose ft then failed CloseFailed
            else if match want with
                    | Some w => negb (String.eqb (PlaintextSHA256 w) "") && negb (String.eqb (hex_encode (sha256 plain)) (PlaintextSHA256 w))
                    | None => false
                    end then failed ChecksumDiffers
            else if noRename ft then failed RenameFailed
            else (<[ destPath := plain ]> fs, Ok tt)
        end
  end.

(** ** The checksums *)

Context (marshal : ChecksumRecord -> option bytes) (unmarshal : bytes -> option ChecksumRecord).

(** The temporary file with the record can fail to be written. *)
Definition PutChecksums (o : OffsiteStore) (rec : ChecksumRecord) (noTemp : bool) (nonce : option bytes) (b : B) : B * result OffErr unit :=
  match marshal rec with
  | None => (b, Err RecordNotEncoded)
  | Some raw =>
      if noTemp then (b, Err TempFailed)
      else
        let '(b, r) := Put o (BackupID rec) checksumsName (Some {| content := raw; broken := false |}) nonce b in
        (b, let! _ := r in Ok tt)
  end.

(** Each file a restore needs has a checksum. *)
Fixpoint covers (files : gmap string OffsiteReceipt) (names : list string) : option string :=
  match names with
  | [] => None
  | n :: names => if String.eqb (default "" (PlaintextSHA256 <$> files !! n)) "" then Some n else covers files names
  end.

(** The record is read through a directory of its own; [ft] are its faults. *)
Definition GetChecksums (o : OffsiteStore) (backupID : string) (ft : Faults) (b : B) : result OffErr ChecksumRecord :=
  match Get o backupID checksumsName checksumsName None ft ∅ b with
  | (_, Err e) => Err (RecordRead backupID e)
  | (_, Panic) => Panic
  | (fs, Ok _) =>
      match fs !! checksumsName with
      | None => Err WriteFailed
      | Some raw =>
          match unmarshal raw with
          | None => Err (RecordInvalid backupID)
          | Some rec =>
              refuse! negb (String.eqb (BackupID rec) backupID) with RecordOfOther (BackupID rec) backupID;
              match covers (Files rec) backupFileNames with
              | Some n => Err (RecordMissing n)
              | None => Ok rec
              end
          end
      end
  end.

(** ** FetchOffsite *)

Definition tagFor (name : string) : string := "offsite_" +:+ name +:+ "_sha256".
Definition tagged (tags : gmap string string) (name : string) : string := default "" (tags !! tagFor name).

(** The stored checksums are read when one of the files has none in the tags. *)
Fixpoint storedFor (o : OffsiteStore) (backupID : string) (tags : gmap string string) (ft : Faults) (b : B) (names : list string) : result OffErr (option ChecksumRecord) :=
  match names with
  | [] => Ok None
  | n :: names =>
      if negb (String.eqb (tagged tags n) "") then storedFor o backupID tags ft b names
      else match GetChecksums o backupID ft b with
           | Ok rec => Ok (Some rec)
           | Err e => Err (NoChecksums n e)
           | Panic => Panic
           end
  end.

Definition wanted (tags : gmap string string) (stored : option ChecksumRecord) (name : string) : string :=
  let want := tagged tags name in
  if String.eqb want "" then match stored with Some rec => default "" (PlaintextSHA256 <$> Files rec !! name) | None => "" end else want.

Fixpoint fetchFiles (o : OffsiteStore) (backupID dir : string) (tags : gmap string string) (stored : option ChecksumRecord) (ft : string -> Faults) (b : B)
  (names : list string) (fs : gmap string bytes) : gmap string bytes * result OffErr (list (string * string)) :=
  match names with
  | [] => (fs, Ok [])
  | n :: names =>
      let dest := GoPath.Join [ dir; backupID; n ] in
      let want := wanted tags stored n in
      if String.eqb want "" then (fs, Err (NoChecksum n))
      else
        let '(fs, r) := Get o backupID n dest (Some {| Key := ""; PlaintextSHA256 := want; PlaintextBytes := 0 |}) (ft n) fs b in
        match r with
        | Err e => (fs, Err (OfFile n e))
        | Panic => (fs, Panic)
        | Ok _ => let '(fs, r) := fetchFiles o backupID dir tags stored ft b names fs in (fs, let! out := r in Ok ((n, dest) :: out))
        end
  end.

Definition FetchOffsite (offsite : option OffsiteStore) (backupID : string) (tags : gmap string string) (dir : string) (ft : string -> Faults) (b : B) (fs : gmap string bytes)
  : gmap string bytes * result OffErr (list (string * string)) :=
  match offsite with
  | None => (fs, Err NoStore)
  | Some o =>
      match storedFor o backupID tags (ft checksumsName) b backupFileNames with
      | Err e => (fs, Err e)
      | Panic => (fs, Panic)
      | Ok stored => fetchFiles o backupID dir tags stored ft b backupFileNames fs
      end
  end.

(** ** copyOffsite *)

(** The three parts in order, their receipts, and the tags of those that were
    put. *)
Fixpoint copyParts (o : OffsiteStore) (id : string) (parts : list (string * option Source)) (nonces : string -> option bytes) (tags : gmap string string) (files : gmap string OffsiteReceipt) (b : B)
  : B * (gmap string string * result OffErr (gmap string OffsiteReceipt)) :=
  match parts with
  | [] => (b, (tags, Ok files))
  | (name, file) :: parts =>
      let '(b, r) := Put o id name file (nonces name) b in
      match r with
      | Err e => (b, (tags, Err (OfFile name e)))
      | Panic => (b, (tags, Panic))
      | Ok rec =>
          copyParts o id parts nonces (<[ tagFor name := PlaintextSHA256 rec ]> (<[ "offsite_" +:+ name +:+ "_key" := Key rec ]> tags)) (<[ name := rec ]> files) b
      end
  end.

(** [manifest]: its temporary file, when it could be written *)
Definition copyOffsite (o : OffsiteStore) (id : string) (pg vault : option Source) (manifest : option bytes) (noTemp : bool) (nonces : string -> option bytes) (tags : gmap string string) (b : B)
  : B * (gmap string string * result OffErr unit) :=
  match manifest with
  | None => (b, (tags, Err TempFailed))
  | Some m =>
      let '(b, (tags, r)) := copyParts o id [ ("postgres", pg); ("vault", vault); ("manifest", Some {| content := m; broken := false |}) ] nonces tags ∅ b in
      match r with
      | Err e => (b, (tags, Err e))
      | Panic => (b, (tags, Panic))
      | Ok files =>
          let '(b, r) := PutChecksums o {| BackupID := id; Files := files |} noTemp (nonces checksumsName) b in
          (b, (tags, map_err (OfFile checksumsName) r))
      end
  end.
End Format.

(** ** The format is read back *)

Lemma chunkSize_eq : chunkSize = 1048576.
Proof. reflexivity. Qed.

#[local] Opaque chunkSize.

Lemma readUpTo_eq n l : readUpTo n l = (take (Z.to_nat n) l, drop (Z.to_nat n) l).
Proof.
  revert n; induction l as [ | b t IH ]; intros n; cbn [readUpTo]; [ now rewrite take_nil, drop_nil | ].
  destruct (n <=? 0) eqn:E; b2p; [ replace (Z.to_nat n) with O by lia; reflexivity | ].
  rewrite IH; replace (Z.to_nat n) with (S (Z.to_nat (n - 1))) by lia; reflexivity.
Qed.

Lemma put32_len v : len (put32 v) = 4.
Proof. reflexivity. Qed.

Lemma put32_bytes v : bytes_ok (put32 v).
Proof. unfold put32, bytes_ok, byte_ok, u8; repeat (apply Forall_cons; split); try apply Forall_nil; try apply Z.mod_pos_bound; lia. Qed.

Lemma be_val_put32 v : 0 <= v < 2 ^ 32 -> be_val (put32 v) = v.
Proof.
  intros Hv; unfold be_val, put32, u8; cbn [fold_left].
  rewrite !Z.shiftr_div_pow2 by lia.
  change (2 ^ 24) with 16777216; change (2 ^ 16) with 65536; change (2 ^ 8) with 256; change (2 ^ 32) with 4294967296 in Hv.
  Z.to_euclidean_division_equations; lia.
Qed.

Lemma put32_be_val l : len l = 4 -> bytes_ok l -> put32 (be_val l) = l.
Proof.
  intros Hl Hb; pose proof (be_val_bound l Hb) as B; rewrite Hl in B; change (256 ^ 4) with (2 ^ 32) in B.
  apply be_val_inj_len; [ apply put32_bytes | done | now unfold len in Hl |- *; cbn in *; lia | now apply be_val_put32 ].
Qed.

Lemma put32_inj v w : 0 <= v < 2 ^ 32 -> 0 <= w < 2 ^ 32 -> put32 v = put32 w -> v = w.
Proof. intros Hv Hw E; now rewrite <- (be_val_put32 v Hv), <- (be_val_put32 w Hw), E. Qed.

(** The pieces of a file: their number, whether they are the last, and their
    text. *)
Fixpoint pieces (fuel : nat) (k : Z) (m : bytes) : list (Z * bool * bytes) :=
  match fuel with
  | O => []
  | S fuel =>
      let '(buf, rest) := readUpTo chunkSize m in
      let last := len rest =? 0 in
      (k, last, buf) :: if last then [] else pieces fuel (k + 1) rest
  end.

Section Laws.
Context {AE : Aead} {AL : AeadLaws AE}.

Definition frames (pre : bytes) (l : list (Z * bool * bytes)) : bytes := concat ((fun '(k, last, buf) => sealChunk pre k last buf) <$> l).

Definition fits (k : Z) : Prop := 0 <= k < 2 ^ 32.

Lemma rest_shorter (m : bytes) fuel : (length m < S fuel)%nat -> (len (drop (Z.to_nat chunkSize) m) =? 0) = false -> (length (drop (Z.to_nat chunkSize) m) < fuel)%nat.
Proof. rewrite chunkSize_eq; unfold len; rewrite length_drop; intros; b2p; lia. Qed.

(** What the loop writes is the pieces of the file, sealed. *)
Lemma encryptLoop_frames fuel pre k m out : fits k -> encryptLoop fuel pre k false m = Ok out ->
  out = frames pre (pieces fuel k m) /\ Forall (fun '(i, _, _) => k <= i < 2 ^ 32) (pieces fuel k m).
Proof.
  revert k m out; induction fuel as [ | fuel IH ]; intros k m out Hk; cbn [encryptLoop pieces]; [ discriminate | ].
  rewrite readUpTo_eq; cbn [andb negb]; rewrite andb_true_r.
  destruct (len (drop _ m) =? 0) eqn:E.
  - injection 1 as <-; unfold frames; cbn; rewrite app_nil_r; split; [ reflexivity | ].
    unfold fits in Hk; constructor; [ lia | constructor ].
  - intros H; destruct (u32 (k + 1) =? 0) eqn:Ew; [ discriminate | b2p ].
    assert (Hw : u32 (k + 1) = k + 1 /\ fits (k + 1)).
    { unfold u32, fits in *; destruct (decide (k + 1 = 2 ^ 32)) as [ Eq | Ne ]; [ rewrite Eq in Ew; now rewrite Z.mod_same in Ew | ].
      rewrite Z.mod_small; lia. }
    destruct Hw as [ Hw Hf ]; rewrite Hw in *.
    destruct (encryptLoop fuel pre (k + 1) false _) as [ o | | ] eqn:El; try discriminate; injection H as <-.
    destruct (IH _ _ _ Hf El) as [ -> Hall ]; split; [ reflexivity | ].
    unfold fits in Hk; constructor; [ lia | ]; eapply Forall_impl; [ exact Hall | ]; intros [ [ i ? ] ? ]; lia.
Qed.

Lemma sealed_len pre k last buf : len buf <= chunkSize -> len (seal (chunkNonce pre k) buf (chunkAAD k last)) = len buf + 16 /\ len buf + 16 <= 1048592.
Proof. rewrite chunkSize_eq; rewrite seal_length, overhead_16; lia. Qed.

(** One chunk at the front of an object is taken off whole. *)
Lemma read_chunk pre k last buf src : len buf <= chunkSize ->
  let sealed := seal (chunkNonce pre k) buf (chunkAAD k last) in
  readUpTo 4 (sealChunk pre k last buf ++ src) = (put32 (len sealed), sealed ++ src) /\
  be_val (put32 (len sealed)) = len sealed /\ ((len sealed <? overhead) || (chunkSize + overhead <? len sealed)) = false /\
  readUpTo (len sealed) (sealed ++ src) = (sealed, src).
Proof.
  intros Hb sealed; subst sealed.
  pose proof (sealed_len pre k last buf Hb) as [ Hl Hm ]; unfold sealChunk; rewrite !readUpTo_eq.
  set (sealed := seal _ _ _) in *; pose proof (len_nonneg buf).
  assert (u32 (len sealed) = len sealed) as -> by (unfold u32; rewrite Z.mod_small; lia).
  split_and!.
  - rewrite <- app_assoc; reflexivity.
  - apply be_val_put32; lia.
  - rewrite overhead_16, chunkSize_eq in *; apply orb_false_iff; split; b2p; lia.
  - unfold len; rewrite Nat2Z.id, take_app_length, drop_app_length; reflexivity.
Qed.

Lemma pieces_from fuel k m : Forall (fun '(i, _, _) => k <= i) (pieces fuel k m).
Proof.
  revert k m; induction fuel as [ | fuel IH ]; intros k m; cbn [pieces]; [ constructor | ]; rewrite readUpTo_eq.
  constructor; [ lia | ]; destruct (len _ =? 0); [ constructor | ].
  eapply Forall_impl; [ apply IH | intros [ [ i ? ] ? ]; lia ].
Qed.

(** The numbers of what follows the first piece. *)
Lemma pieces_next fuel k m : (0 < fuel)%nat -> 0 <= k -> Forall (fun '(i, _, _) => k <= i < 2 ^ 32) (pieces fuel (k + 1) m) ->
  fits (k + 1) /\ Forall (fun '(i, _, _) => k + 1 <= i < 2 ^ 32) (pieces fuel (k + 1) m).
Proof.
  intros Hf Hk Hall; split.
  - destruct fuel as [ | fuel ]; [ lia | ]; cbn [pieces] in Hall; rewrite readUpTo_eq in Hall; apply Forall_cons in Hall as [ H _ ]; unfold fits; lia.
  - pose proof (pieces_from fuel (k + 1) m) as G; apply Forall_forall; intros [ [ i l ] b ] Hin.
    rewrite Forall_forall in Hall, G; specialize (Hall _ Hin); specialize (G _ Hin); cbn in *; lia.
Qed.

(** The tag of a chunk says whether it is the last. *)
Definition tag_says_last : Prop := forall pre k p, open (chunkNonce pre k) (seal (chunkNonce pre k) p (chunkAAD k false)) (chunkAAD k true) = None.

Lemma piece_len (m : bytes) : len (take (Z.to_nat chunkSize) m) <= chunkSize.
Proof. unfold len; rewrite length_take, chunkSize_eq; lia. Qed.

Lemma frames_cons pre k last buf l : frames pre ((k, last, buf) :: l) = sealChunk pre k last buf ++ frames pre l.
Proof. reflexivity. Qed.

Lemma sealChunk_len pre k last buf : 4 <= len (sealChunk pre k last buf).
Proof. unfold sealChunk; rewrite len_app, put32_len; pose proof (len_nonneg (seal (chunkNonce pre k) buf (chunkAAD k last))); lia. Qed.

Lemma decryptLoop_frames fuel fuel' pre k m : tag_says_last -> (length m < fuel)%nat -> (length (frames pre (pieces fuel k m)) < fuel')%nat ->
  fits k -> Forall (fun '(i, _, _) => k <= i < 2 ^ 32) (pieces fuel k m) ->
  decryptLoop fuel' (fun _ => false) pre k (frames pre (pieces fuel k m)) = Ok m.
Proof.
  intros Tag; revert fuel' k m; induction fuel as [ | fuel IH ]; intros fuel' k m Hm Hf Hk Hall; [ lia | ].
  cbn [pieces] in *; rewrite readUpTo_eq in *.
  pose proof (piece_len m) as Hb.
  destruct (len (drop _ m) =? 0) eqn:E; rewrite frames_cons in *; destruct fuel' as [ | fuel' ]; try lia; cbn [decryptLoop];
    pose proof (read_chunk pre k) as R.
  - specialize (R true _ (frames pre []) Hb) as (R1 & R2 & R3 & R4).
    rewrite R1; cbn [negb]; rewrite R2, R3, R4, put32_len, Z.eqb_refl; cbn [negb].
    rewrite Z.eqb_refl; cbn [negb].
    rewrite (proj2 (open_seal _ _ _ _) eq_refl); change (len (frames pre []) =? 0) with true; cbn [negb]; f_equal.
    rewrite <- (take_drop (Z.to_nat chunkSize) m) at 2; b2p.
    destruct (drop _ m); [ now rewrite app_nil_r | unfold len in E; cbn in E; lia ].
  - specialize (R false _ (frames pre (pieces fuel (k + 1) (drop (Z.to_nat chunkSize) m))) Hb) as (R1 & R2 & R3 & R4).
    rewrite R1; rewrite R2, R3, R4, put32_len, Z.eqb_refl; cbn [negb]; rewrite Z.eqb_refl; cbn [negb].
    rewrite Tag, (proj2 (open_seal _ _ _ _) eq_refl).
    apply Forall_cons in Hall as [ _ Hall ].
    pose proof (rest_shorter _ _ Hm E) as Hr.
    assert (0 < fuel)%nat as Hpos by lia; destruct (pieces_next _ _ _ Hpos (proj1 Hk) Hall) as [ Hk' Hall' ].
    assert (u32 (k + 1) = k + 1) as -> by (unfold u32, fits in *; rewrite Z.mod_small; lia).
    rewrite IH; [ | done | | done | done ].
    + cbn [result_bind]; f_equal; apply take_drop.
    + pose proof (sealChunk_len pre k false (take (Z.to_nat chunkSize) m)); unfold len in *; rewrite length_app in Hf; lia.
Qed.

Lemma encrypt_frames pre m c : encrypt pre false m = Ok c ->
  c = offsiteMagic ++ pre ++ frames pre (pieces (S (S (length m))) 0 m) /\ Forall (fun '(i, _, _) => 0 <= i < 2 ^ 32) (pieces (S (S (length m))) 0 m).
Proof.
  unfold encrypt; destruct (encryptLoop _ _ _ _ _) as [ o | | ] eqn:El; intros H; try discriminate; injection H as <-.
  apply encryptLoop_frames in El as [ -> Hall ]; [ done | unfold fits; lia ].
Qed.

Lemma read_header pre rest : len pre = prefixLen -> readUpTo (len offsiteMagic + prefixLen) (offsiteMagic ++ pre ++ rest) = (offsiteMagic ++ pre, rest).
Proof.
  intros Hp; rewrite readUpTo_eq, app_assoc.
  assert (Z.to_nat (len offsiteMagic + prefixLen) = length (offsiteMagic ++ pre)) as -> by (rewrite length_app; unfold len, prefixLen in *; lia).
  now rewrite take_app_length, drop_app_length.
Qed.

Lemma encrypt_roundtrip pre m c : tag_says_last -> len pre = prefixLen -> encrypt pre false m = Ok c -> decrypt (fun _ => false) c = Ok m.
Proof.
  intros Tag Hp E; apply encrypt_frames in E as [ -> Hall ]; unfold decrypt; rewrite read_header by done.
  assert (len (offsiteMagic ++ pre) = len offsiteMagic + prefixLen) as -> by (rewrite len_app; lia).
  rewrite Z.eqb_refl; cbn [negb orb].
  rewrite bool_decide_true by reflexivity; cbn [negb].
  apply decryptLoop_frames; [ done | lia | lia | unfold fits; lia | done ].
Qed.

(** ** Only what was made is accepted *)

(** What was sealed for a file: the nonce, the additional data and the text. *)
Definition sealings (f : bytes * bytes) : list (bytes * bytes * bytes) :=
  (fun '(k, last, buf) => (chunkNonce (fst f) k, chunkAAD k last, seal (chunkNonce (fst f) k) buf (chunkAAD k last))) <$> pieces (S (S (length (snd f)))) 0 (snd f).

(** Part of an object opens, at a place where nothing like it was sealed. *)
Definition forgery (made : list (bytes * bytes)) (pre body : bytes) : Prop :=
  exists k last c p l r, body = l ++ c ++ r /\ fits k /\ open (chunkNonce pre k) c (chunkAAD k last) = Some p /\
    (chunkNonce pre k, chunkAAD k last, c) ∉ made ≫= sealings.

Lemma forgery_app made pre l body : forgery made pre body -> forgery made pre (l ++ body).
Proof. intros (k & last & c & p & l' & r & -> & H); exists k, last, c, p, (l ++ l'), r; now rewrite <- app_assoc. Qed.

Lemma nonce_inj pre pre' k k' : len pre = prefixLen -> len pre' = prefixLen -> fits k -> fits k' -> chunkNonce pre k = chunkNonce pre' k' -> pre = pre' /\ k = k'.
Proof.
  unfold chunkNonce; intros Hp Hp' Hk Hk' E; apply app_inj_1 in E as [ -> E ]; [ | unfold len in *; lia ].
  split; [ done | now apply put32_inj ].
Qed.

Lemma aad_inj k last last' : chunkAAD k last = chunkAAD k last' -> last = last'.
Proof. unfold chunkAAD; intros E; apply app_inv_head in E; destruct last, last'; congruence. Qed.

(** What may have been sealed at the numbers from [k] on under a prefix is the
    pieces of one file. *)
Definition only (sealed : list (bytes * bytes * bytes)) (pre : bytes) (k : Z) (l : list (Z * bool * bytes)) : Prop :=
  forall i last c, k <= i -> fits i -> (chunkNonce pre i, chunkAAD i last, c) ∈ sealed -> exists buf, (i, last, buf) ∈ l /\ c = seal (chunkNonce pre i) buf (chunkAAD i last).

Lemma only_head sealed pre k last c j flag buf l : fits k -> only sealed pre k ((j, flag, buf) :: l) -> j = k -> Forall (fun '(i, _, _) => k + 1 <= i) l ->
  (chunkNonce pre k, chunkAAD k last, c) ∈ sealed -> last = flag /\ c = seal (chunkNonce pre k) buf (chunkAAD k last).
Proof.
  intros Hk Ho -> Hl Hin; destruct (Ho k last c) as (buf' & Hb & ->); [ lia | done | done | ].
  apply elem_of_cons in Hb as [ Hb | Hb ]; [ now injection Hb as -> -> | ].
  rewrite Forall_forall in Hl; specialize (Hl _ Hb); cbn in Hl; lia.
Qed.

Lemma only_tail sealed pre k flag buf l : only sealed pre k ((k, flag, buf) :: l) -> only sealed pre (k + 1) l.
Proof.
  intros Ho i last c Hi Hf Hin; destruct (Ho i last c) as (buf' & Hb & ->); [ lia | done | done | ].
  apply elem_of_cons in Hb as [ Hb | Hb ]; [ injection Hb as ? ? ?; lia | now exists buf' ].
Qed.

Lemma only_nil sealed pre k k' : only sealed pre k [] -> k <= k' -> forall last c, fits k' -> (chunkNonce pre k', chunkAAD k' last, c) ∉ sealed.
Proof. intros Ho Hk last c Hf Hin; destruct (Ho k' last c Hk Hf Hin) as (? & Hb & _); now apply elem_of_nil in Hb. Qed.

(** One turn of the loop of [decrypt] that went through. *)
Lemma decryptLoop_turn fuel full pre k src plain : bytes_ok src -> decryptLoop (S fuel) full pre k src = Ok plain ->
  exists sealed rest, src = (put32 (u32 (len sealed)) ++ sealed) ++ rest /\ bytes_ok rest /\
    (open (chunkNonce pre k) sealed (chunkAAD k true) = Some plain /\ rest = [] \/
     exists p out, open (chunkNonce pre k) sealed (chunkAAD k false) = Some p /\ decryptLoop fuel full pre (u32 (k + 1)) rest = Ok out /\ plain = p ++ out).
Proof.
  intros Hs H; cbn [decryptLoop] in H; rewrite !readUpTo_eq in H.
  destruct (len _ =? 4) eqn:E4; cbn [negb] in H; [ b2p | discriminate ].
  rewrite <- (take_drop (Z.to_nat 4) src) in Hs; apply Forall_app in Hs as [ Hh Hs ].
  set (lb := take (Z.to_nat 4) src) in *; set (n := be_val lb) in *.
  destruct (_ || _) eqn:En; [ discriminate | ]; apply orb_false_iff in En as [ _ En ]; rewrite chunkSize_eq, overhead_16 in En; b2p.
  destruct (len (take _ (drop _ src)) =? n) eqn:El; cbn [negb] in H; [ b2p | discriminate ].
  pose proof (be_val_bound lb Hh) as Hn; fold n in Hn.
  set (sealed := take (Z.to_nat n) (drop (Z.to_nat 4) src)) in *; set (rest := drop (Z.to_nat n) (drop (Z.to_nat 4) src)) in *; exists sealed, rest; split_and!.
  - rewrite El; unfold u32; rewrite Z.mod_small by lia; unfold n; rewrite put32_be_val by done.
    unfold sealed, rest, lb; now rewrite <- app_assoc, take_drop, take_drop.
  - now apply Forall_drop.
  - destruct (open _ _ (chunkAAD k true)) as [ p | ].
    + destruct (full k); [ discriminate | ]; destruct (len rest =? 0) eqn:Er; cbn [negb] in H; [ | discriminate ]; injection H as <-.
      left; split; [ done | destruct rest; [ done | unfold len in Er; cbn in Er; b2p; lia ] ].
    + destruct (open _ _ _) as [ p | ]; [ | discriminate ]; destruct (full k); [ discriminate | ].
      destruct (decryptLoop fuel full pre _ rest) as [ out | | ] eqn:Ed; try discriminate; injection H as <-.
      right; now exists p, out.
Qed.

(** Decide whether a part was sealed, or it is a forgery. *)
Lemma sealed_or_forged made pre k last c p rest : fits k -> open (chunkNonce pre k) c (chunkAAD k last) = Some p ->
  (chunkNonce pre k, chunkAAD k last, c) ∈ made ≫= sealings \/ forgery made pre ((put32 (u32 (len c)) ++ c) ++ rest).
Proof.
  intros Hk Ho; destruct (decide ((chunkNonce pre k, chunkAAD k last, c) ∈ made ≫= sealings)) as [ | Hn ]; [ now left | right ].
  exists k, last, c, p, (put32 (u32 (len c))), rest; now rewrite <- app_assoc.
Qed.

Lemma opened_text n p p' a : open n (seal n p a) a = Some p' -> p' = p.
Proof. intros H; rewrite (proj2 (open_seal n p a _) eq_refl) in H; congruence. Qed.

Lemma decryptLoop_auth made full pre fuel fuelm k m src plain : fits k -> bytes_ok src -> (length m < fuelm)%nat ->
  Forall (fun '(i, _, _) => k <= i < 2 ^ 32) (pieces fuelm k m) -> only (made ≫= sealings) pre k (pieces fuelm k m) ->
  decryptLoop fuel full pre k src = Ok plain -> (src = frames pre (pieces fuelm k m) /\ plain = m) \/ forgery made pre src.
Proof.
  revert fuelm k m src plain; induction fuel as [ | fuel IH ]; intros fuelm k m src plain Hk Hs Hm Hall Ho H; [ discriminate | ].
  destruct (decryptLoop_turn _ _ _ _ _ _ Hs H) as (sealed & rest & -> & Hr & Hcase); clear H Hs.
  destruct fuelm as [ | fuelm ]; [ lia | ]; cbn [pieces] in *; rewrite readUpTo_eq in *.
  set (buf := take (Z.to_nat chunkSize) m) in *; set (more := drop (Z.to_nat chunkSize) m) in *.
  assert (Hmb : m = buf ++ more) by (symmetry; apply take_drop).
  pose proof (pieces_from fuelm (k + 1) more) as Hfrom.
  assert (Hf : Forall (fun '(i, _, _) => k + 1 <= i) (if len more =? 0 then [] else pieces fuelm (k + 1) more)) by (destruct (len more =? 0); [ constructor | done ]).
  destruct Hcase as [ [ Hopen -> ] | (p & out & Hopen & Hrec & ->) ].
  - destruct (sealed_or_forged made pre k true sealed plain [] Hk Hopen) as [ Hin | ]; [ left | now right ].
    destruct (only_head _ _ _ _ _ _ _ _ _ Hk Ho eq_refl Hf Hin) as [ Hflag -> ]; rewrite <- Hflag in *.
    apply opened_text in Hopen as ->; split; [ rewrite frames_cons; reflexivity | ].
    rewrite Hmb; symmetry in Hflag; b2p; destruct more; [ now rewrite app_nil_r | unfold len in Hflag; cbn in Hflag; lia ].
  - destruct (sealed_or_forged made pre k false sealed p rest Hk Hopen) as [ Hin | ]; [ | now right ].
    destruct (only_head _ _ _ _ _ _ _ _ _ Hk Ho eq_refl Hf Hin) as [ Hflag -> ]; symmetry in Hflag; rewrite Hflag in *.
    apply opened_text in Hopen as ->; apply only_tail in Ho; apply Forall_cons in Hall as [ _ Hall ].
    pose proof (rest_shorter _ _ Hm Hflag) as Hlt; fold more in Hlt; assert (0 < fuelm)%nat as Hpos by lia.
    destruct (pieces_next _ _ _ Hpos (proj1 Hk) Hall) as [ Hk' Hall' ].
    assert (u32 (k + 1) = k + 1) as Eu by (unfold u32, fits in *; rewrite Z.mod_small; lia); rewrite Eu in Hrec.
    destruct (IH _ _ _ _ _ Hk' Hr Hlt Hall' Ho Hrec) as [ [ -> -> ] | F ]; [ left; now rewrite frames_cons | right; now apply forgery_app ].
Qed.

Lemma NoDup_fst_eq {A B : Type} (l : list (A * B)) (a : A) (x y : B) : NoDup (fst <$> l) -> (a, x) ∈ l -> (a, y) ∈ l -> x = y.
Proof.
  intros Hn Hx Hy; induction l as [ | [ a' z ] l IH ]; [ now apply elem_of_nil in Hx | ].
  cbn in Hn; apply NoDup_cons in Hn as [ Hout Hn ].
  assert (Hfst : forall v, (a', v) ∈ l -> False) by (intros v Hv; apply Hout, list_elem_of_fmap; now exists (a', v)).
  apply elem_of_cons in Hx as [ Hx | Hx ], Hy as [ Hy | Hy ]; simplify_eq; eauto; exfalso; eauto.
Qed.

(** A file that was encrypted, under a prefix of eight bytes. *)
Definition encrypted (f : bytes * bytes) : Prop := len (fst f) = prefixLen /\ exists c, encrypt (fst f) false (snd f) = Ok c.

Lemma encrypted_fits f : encrypted f -> len (fst f) = prefixLen /\ Forall (fun '(i, _, _) => 0 <= i < 2 ^ 32) (pieces (S (S (length (snd f)))) 0 (snd f)).
Proof. intros (Hl & c & E); split; [ done | now apply encrypt_frames in E as [ _ ? ] ]. Qed.

(** Who sealed something under a prefix made a file with it. *)
Lemma sealed_by made pre k last c : Forall encrypted made -> len pre = prefixLen -> fits k -> (chunkNonce pre k, chunkAAD k last, c) ∈ made ≫= sealings ->
  exists m buf, (pre, m) ∈ made /\ (k, last, buf) ∈ pieces (S (S (length m))) 0 m /\ c = seal (chunkNonce pre k) buf (chunkAAD k last).
Proof.
  intros Hm Hp Hk Hin; apply list_elem_of_bind in Hin as ([ pre' m ] & Hin & Hf).
  rewrite Forall_forall in Hm; destruct (encrypted_fits _ (Hm _ Hf)) as [ Hp' Hall ]; cbn [fst snd] in *.
  unfold sealings in Hin; cbn [fst snd] in Hin; apply list_elem_of_fmap in Hin as ([ [ i l ] buf ] & E & Hin).
  rewrite Forall_forall in Hall; pose proof (Hall _ Hin) as Hi; cbn in Hi.
  assert (chunkNonce pre k = chunkNonce pre' i /\ chunkAAD k last = chunkAAD i l /\ c = seal (chunkNonce pre' i) buf (chunkAAD i l)) as (En & Ea & Ec) by (split_and!; congruence).
  apply nonce_inj in En as [ <- <- ]; [ | done .. ]; apply aad_inj in Ea as <-; eauto.
Qed.

Lemma only_file made pre m : NoDup (fst <$> made) -> Forall encrypted made -> len pre = prefixLen -> (pre, m) ∈ made -> only (made ≫= sealings) pre 0 (pieces (S (S (length m))) 0 m).
Proof.
  intros Hn Hm Hp Hin i last c _ Hi Hs; destruct (sealed_by _ _ _ _ _ Hm Hp Hi Hs) as (m' & buf & Hin' & Hb & ->).
  assert (m' = m) as -> by now apply (NoDup_fst_eq made pre).
  now exists buf.
Qed.

Lemma decrypt_reads full body plain : decrypt full body = Ok plain ->
  exists pre rest, body = offsiteMagic ++ pre ++ rest /\ len pre = prefixLen /\ decryptLoop (S (length rest)) full pre 0 rest = Ok plain.
Proof.
  unfold decrypt; rewrite readUpTo_eq; destruct (_ || _) eqn:E; [ discriminate | ]; intros H.
  apply orb_false_iff in E as [ El Em ]; apply negb_false_iff in El, Em; apply bool_decide_eq_true in Em; b2p.
  set (n := Z.to_nat (len offsiteMagic + prefixLen)) in *; exists (drop 8 (take n body)), (drop n body); split_and!; [ | | done ].
  - rewrite app_assoc, <- Em, take_drop, take_drop; reflexivity.
  - unfold len in *; rewrite length_drop; unfold prefixLen in *; cbn in El; lia.
Qed.

Lemma decrypt_auth full made body plain : bytes_ok body -> NoDup (fst <$> made) -> Forall encrypted made -> decrypt full body = Ok plain ->
  (exists pre, (pre, plain) ∈ made /\ encrypt pre false plain = Ok body) \/ (exists pre, forgery made pre body).
Proof.
  intros Hb Hn Hm H; destruct (decrypt_reads _ _ _ H) as (pre & rest & -> & Hp & Hd).
  apply Forall_app in Hb as [ _ Hb ]; apply Forall_app in Hb as [ _ Hb ].
  assert (Hz : fits 0) by (unfold fits; lia).
  destruct (decide (pre ∈ fst <$> made)) as [ Hin | Hout ].
  - apply list_elem_of_fmap in Hin as ([ pre' m ] & -> & Hin); cbn [fst] in *.
    pose proof Hm as Hm'; rewrite Forall_forall in Hm'; pose proof (Hm' _ Hin) as He; destruct (encrypted_fits _ He) as [ _ Hall ]; destruct He as (_ & c & Ec); cbn [fst snd] in *.
    assert (length m < S (S (length m)))%nat as Hlt by lia.
    destruct (decryptLoop_auth made full pre' _ _ 0 m rest plain Hz Hb Hlt Hall (only_file _ _ _ Hn Hm Hp Hin) Hd) as [ [ -> -> ] | F ].
    + left; exists pre'; split; [ done | ]; pose proof (encrypt_frames _ _ _ Ec) as [ -> _ ]; exact Ec.
    + right; exists pre'; now apply forgery_app, forgery_app.
  - destruct (decryptLoop_turn _ _ _ _ _ _ Hb Hd) as (sealed & r & -> & _ & Hc); right; exists pre; apply forgery_app, forgery_app.
    assert (exists last p, open (chunkNonce pre 0) sealed (chunkAAD 0 last) = Some p) as (last & p & Ho) by (destruct Hc as [ [ Ho _ ] | (p & _ & Ho & _) ]; eauto).
    destruct (sealed_or_forged made pre 0 last sealed p r Hz Ho) as [ Hin | ]; [ | done ].
    destruct (sealed_by _ _ _ _ _ Hm Hp Hz Hin) as (m & _ & Hf & _); contradict Hout; apply list_elem_of_fmap; now exists (pre, m).
Qed.
End Laws.

(** ** Keys and paths *)

Lemma plain_first a : GoPath.plain a -> has_prefix "/" a = false.
Proof.
  intros (Hs & Hn & _); destruct a as [ | c a ]; [ done | ]; cbn [GoPath.contains] in Hs; apply orb_false_iff in Hs as [ Hs _ ].
  unfold GoPath.slash in Hs; unfold has_prefix; cbn [strip_prefix]; now rewrite Hs.
Qed.

(** Two plain names after anything: what stands before them does not depend on
    them. *)
Lemma Join_two d : exists u, forall a b, GoPath.plain a -> GoPath.plain b -> GoPath.Join [ d; a; b ] = (u +:+ a) +:+ String GoPath.slash b.
Proof.
  destruct (String.eqb_spec d "") as [ -> | Hd ].
  - exists ""; intros a b Ha Hb; cbn [GoPath.Join String.eqb].
    assert (a <> "") as Ha' by apply Ha; apply String.eqb_neq in Ha' as Ea; rewrite Ea.
    change (GoPath.join_slash [ a; b ]) with (a +:+ String GoPath.slash b); unfold GoPath.Clean, GoPath.components.
    rewrite GoPath.has_prefix_slash_app, plain_first by done.
    rewrite GoPath.split_slash_app, foldl_app, (GoPath.split_slash_single a), (GoPath.split_slash_single b) by (apply Ha || apply Hb).
    cbn [foldl]; now rewrite !GoPath.clean_push_plain by done.
  - exists (GoPath.under d); intros a b Ha Hb; rewrite GoPath.Join_plain by done; now rewrite GoPath.sapp_assoc.
Qed.

Lemma Join_inj d a b a' b' : GoPath.plain a -> GoPath.plain b -> GoPath.plain a' -> GoPath.plain b' ->
  GoPath.Join [ d; a; b ] = GoPath.Join [ d; a'; b' ] -> a = a' /\ b = b'.
Proof.
  intros Ha Hb Ha' Hb' E; destruct (Join_two d) as [ u J ]; rewrite !J in E by done.
  apply GoPath.last_component in E as [ E -> ]; [ | apply Hb | apply Hb' ]; now apply GoPath.sapp_cancel_l in E.
Qed.

Ltac plain_name := unfold GoPath.plain; split_and!; [ reflexivity | discriminate .. ].

Definition partNames : list string := [ "postgres"; "vault"; "manifest"; "checksums" ].

Lemma part_plain n : n ∈ partNames -> GoPath.plain n /\ GoPath.plain (n +:+ ".enc").
Proof. unfold partNames; rewrite !elem_of_cons, elem_of_nil; intros [ -> | [ -> | [ -> | [ -> | [] ] ] ] ]; split; plain_name. Qed.

Lemma enc_inj a b : a +:+ ".enc" = b +:+ ".enc" -> a = b.
Proof.
  revert b; induction a as [ | c a IH ]; intros b E; destruct b as [ | d b ]; [ done | | | ].
  - apply (f_equal String.length) in E; rewrite !GoPath.sapp_length in E; cbn in E; lia.
  - apply (f_equal String.length) in E; rewrite !GoPath.sapp_length in E; cbn in E; lia.
  - cbn in E; injection E as -> E; f_equal; now apply IH.
Qed.

(** No two files of backups share an object. *)
Lemma objectKey_inj o id n id' n' : GoPath.plain id -> GoPath.plain id' -> n ∈ partNames -> n' ∈ partNames ->
  objectKey o id (n +:+ ".enc") = objectKey o id' (n' +:+ ".enc") -> id = id' /\ n = n'.
Proof.
  intros Hi Hi' Hn Hn' E; apply Join_inj in E as [ -> E ]; [ | done | now apply part_plain | done | now apply part_plain ].
  now apply enc_inj in E.
Qed.

(** ** Copying and fetching *)

(** What is documented of the object store. *)
Class ObjectLaws {B : Type} (OB : Objects B) : Prop := {
  get_put k v b b' : putObject k v b = (b', true) -> getObject k b' = Some v;
  get_other k k' v b : k' <> k -> getObject k' (fst (putObject k v b)) = getObject k' b
}.

Section Copies.
Context {AE : Aead} {AL : AeadLaws AE} {B : Type} {OB : Objects B} {OL : ObjectLaws OB}.
Context (sha256 : bytes -> bytes) (marshal : ChecksumRecord -> option bytes) (unmarshal : bytes -> option ChecksumRecord).
Hypothesis tag_last : tag_says_last.
Hypothesis sha_len : forall m, len (sha256 m) = 32.
Hypothesis read_back : forall rec raw, marshal rec = Some raw -> unmarshal raw = Some rec.

Definition sum (m : bytes) : string := hex_encode (sha256 m).

Lemma sum_not_empty m : sum m <> "".
Proof.
  unfold sum; intros E; pose proof (sha_len m) as L; apply (f_equal String.length) in E.
  destruct (sha256 m); [ discriminate L | cbn in E; lia ].
Qed.

Lemma broken_never fuel pre k m out : encryptLoop fuel pre k true m <> Ok out.
Proof.
  revert k m out; induction fuel as [ | fuel IH ]; intros k m out; cbn [encryptLoop]; [ discriminate | ].
  destruct (readUpTo chunkSize m) as [ buf rest ]; destruct (true && _); [ discriminate | ].
  rewrite andb_false_r; destruct (_ =? 0); [ discriminate | ].
  destruct (encryptLoop _ _ _ _ _) eqn:E; try discriminate; now apply IH in E.
Qed.

(** The object of a file holds it. *)
Definition holds (o : OffsiteStore) (id name : string) (m : bytes) (b : B) : Prop :=
  exists body, getObject (objectKey o id (name +:+ ".enc")) b = Some body /\ decrypt (fun _ => false) body = Ok m.

Definition receiptFor (o : OffsiteStore) (id name : string) (m : bytes) : OffsiteReceipt :=
  {| Key := objectKey o id (name +:+ ".enc"); PlaintextSHA256 := sum m; PlaintextBytes := len m |}.

Lemma Put_ok o id name file nonce b b' rec : (forall p, nonce = Some p -> len p = prefixLen) -> Put sha256 o id name file nonce b = (b', Ok rec) ->
  exists m, file = Some {| content := m; broken := false |} /\ rec = receiptFor o id name m /\ holds o id name m b' /\
    (forall k, k <> objectKey o id (name +:+ ".enc") -> getObject k b' = getObject k b).
Proof.
  intros Hn H; unfold Put in H; destruct file as [ [ m br ] | ]; [ | discriminate ]; destruct nonce as [ p | ]; [ | discriminate ]; cbn [content broken] in H.
  destruct br.
  - unfold encrypt in H; destruct (encryptLoop _ _ _ _ _) eqn:E; cbn [result_bind] in H; try discriminate; now apply broken_never in E.
  - destruct (encrypt p false m) as [ c | | ] eqn:E; [ | discriminate .. ].
    destruct (putObject _ c b) as [ b1 [] ] eqn:Ep; [ injection H as <- <- | discriminate ].
    exists m; split_and!; [ done | reflexivity | | ].
    + exists c; split; [ now apply get_put in Ep | apply (encrypt_roundtrip p); auto ].
    + intros k Hk; pose proof (get_other _ k c b Hk) as G; now rewrite Ep in G.
Qed.

Lemma holds_put o id name name' m b b' : GoPath.plain id -> name ∈ partNames -> name' ∈ partNames -> name <> name' ->
  (forall k, k <> objectKey o id (name' +:+ ".enc") -> getObject k b' = getObject k b) -> holds o id name m b -> holds o id name m b'.
Proof.
  intros Hi Hn Hn' Hne Hk (body & Hg & Hd); exists body; split; [ | done ]; rewrite Hk; [ done | ].
  intros E; apply objectKey_inj in E as [ _ E ]; done.
Qed.

Definition calm : Faults := {| noDir := false; noTemp := false; noChmod := false; full := fun _ => false; noClose := false; noRename := false |}.

(** What a copied backup left in the store and in the tags. *)
Definition copied (o : OffsiteStore) (id : string) (p v m : bytes) (tags : gmap string string) (b : B) : Prop :=
  holds o id "postgres" p b /\ holds o id "vault" v b /\ holds o id "manifest" m b /\
  tagged tags "postgres" = sum p /\ tagged tags "vault" = sum v /\ tagged tags "manifest" = sum m /\
  exists raw, holds o id checksumsName raw b /\
    unmarshal raw = Some {| BackupID := id; Files := <[ "manifest" := receiptFor o id "manifest" m ]> (<[ "vault" := receiptFor o id "vault" v ]> (<[ "postgres" := receiptFor o id "postgres" p ]> ∅)) |}.

Ltac a_part := unfold partNames, checksumsName; rewrite !elem_of_cons; auto.
Ltac kept := match goal with H : holds ?o ?id ?n ?m ?b, K : (forall k, _ -> getObject k ?b' = getObject k ?b) |- holds ?o ?id ?n ?m ?b' => eapply holds_put; [ | | | | exact K | exact H ]; [ done | a_part | a_part | done ] end.

Lemma copyParts_cons o id name file parts nonces tags files b : copyParts sha256 o id ((name, file) :: parts) nonces tags files b =
  let '(b, r) := Put sha256 o id name file (nonces name) b in
  match r with
  | Err e => (b, (tags, Err (OfFile name e)))
  | Panic => (b, (tags, Panic))
  | Ok rec => copyParts sha256 o id parts nonces (<[ tagFor name := PlaintextSHA256 rec ]> (<[ "offsite_" +:+ name +:+ "_key" := Key rec ]> tags)) (<[ name := rec ]> files) b
  end.
Proof. reflexivity. Qed.

Lemma copyOffsite_ok o id pg vault man noTemp nonces tags b b' tags' : GoPath.plain id -> (forall n p, nonces n = Some p -> len p = prefixLen) ->
  copyOffsite sha256 marshal o id pg vault man noTemp nonces tags b = (b', (tags', Ok tt)) ->
  exists p v m, pg = Some {| content := p; broken := false |} /\ vault = Some {| content := v; broken := false |} /\ man = Some m /\ copied o id p v m tags' b'.
Proof.
  intros Hi Hn H; unfold copyOffsite in H; destruct man as [ m | ]; [ | discriminate ].
  rewrite !copyParts_cons in H.
  destruct (Put _ o id "postgres" _ _ _) as [ b1 [ r1 | | ] ] eqn:P1; try discriminate.
  apply Put_ok in P1 as (p & -> & -> & H1 & K1); [ | apply Hn ].
  rewrite copyParts_cons in H.
  destruct (Put _ o id "vault" _ _ _) as [ b2 [ r2 | | ] ] eqn:P2; try discriminate.
  apply Put_ok in P2 as (v & -> & -> & H2 & K2); [ | apply Hn ].
  rewrite copyParts_cons in H.
  destruct (Put _ o id "manifest" _ _ _) as [ b3 [ r3 | | ] ] eqn:P3; try discriminate.
  apply Put_ok in P3 as (m' & Em & -> & H3 & K3); [ | apply Hn ]; injection Em as <-.
  cbn [copyParts] in H; unfold PutChecksums in H; destruct (marshal _) as [ raw | ] eqn:Mr; [ | discriminate ].
  destruct noTemp; [ discriminate | ].
  destruct (Put _ _ _ checksumsName _ _ _) as [ b4 [ r4 | | ] ] eqn:P4; try discriminate.
  apply Put_ok in P4 as (raw' & Em & _ & H4 & K4); [ | apply Hn ]; injection Em as <-; cbn in H4, K4.
  injection H as <- <-; exists p, v, m; split_and!; [ done .. | ].
  assert (holds o id "postgres" p b2) by kept; assert (holds o id "postgres" p b3) by kept; assert (holds o id "vault" v b3) by kept.
  split_and!; [ kept | kept | kept | | | | ].
  - unfold tagged; rewrite !lookup_insert; reflexivity.
  - unfold tagged; rewrite !lookup_insert; reflexivity.
  - unfold tagged; rewrite !lookup_insert; reflexivity.
  - exists raw; split; [ done | now apply read_back ].
Qed.

Lemma Get_holds o id name dest want m fs b : holds o id name m b -> (match want with Some w => PlaintextSHA256 w = sum m | None => True end) ->
  Get sha256 o id name dest want calm fs b = (<[ dest := m ]> fs, Ok tt).
Proof.
  intros (body & Hg & Hd) Hw; unfold Get; rewrite Hg; cbn [calm noDir noTemp noChmod full noClose noRename]; rewrite Hd.
  destruct want as [ w | ]; [ | done ]; rewrite Hw; fold (sum m); now rewrite String.eqb_refl, andb_false_r.
Qed.

Lemma covers_ok files names : (forall n, n ∈ names -> exists r, files !! n = Some r /\ PlaintextSHA256 r <> "") -> covers files names = None.
Proof.
  induction names as [ | n names IH ]; intros H; [ done | ]; cbn [covers].
  destruct (H n) as (r & -> & Hr); [ now left | ]; cbn; apply String.eqb_neq in Hr as ->; apply IH; intros n' Hn'; apply H; now right.
Qed.

Lemma GetChecksums_copied o id p v m tags b : copied o id p v m tags b ->
  exists rec, GetChecksums sha256 unmarshal o id calm b = Ok rec /\
    Files rec !! "postgres" = Some (receiptFor o id "postgres" p) /\ Files rec !! "vault" = Some (receiptFor o id "vault" v) /\ Files rec !! "manifest" = Some (receiptFor o id "manifest" m).
Proof.
  intros (_ & _ & _ & _ & _ & _ & raw & Hr & Hu); unfold GetChecksums.
  rewrite (Get_holds _ _ _ _ None raw) by done; rewrite lookup_insert_eq, Hu; cbn [BackupID Files]; rewrite String.eqb_refl; cbn [negb].
  rewrite covers_ok.
  - eexists; split; [ reflexivity | ]; cbn [Files]; split_and!; rewrite !lookup_insert; reflexivity.
  - unfold backupFileNames; intros n; rewrite !elem_of_cons, elem_of_nil.
    intros [ -> | [ -> | [ -> | [] ] ] ]; rewrite !lookup_insert; (eexists; split; [ reflexivity | apply sum_not_empty ]).
Qed.

Lemma fetchFiles_cons o id dir tags stored b n names fs m : holds o id n m b -> wanted tags stored n = sum m ->
  fetchFiles sha256 o id dir tags stored (fun _ => calm) b (n :: names) fs =
  let '(fs, r) := fetchFiles sha256 o id dir tags stored (fun _ => calm) b names (<[ GoPath.Join [ dir; id; n ] := m ]> fs) in
  (fs, let! out := r in Ok ((n, GoPath.Join [ dir; id; n ]) :: out)).
Proof.
  intros Hh Hw; cbn [fetchFiles]; rewrite Hw; pose proof (sum_not_empty m) as Hs; apply String.eqb_neq in Hs as ->.
  now rewrite (Get_holds _ _ _ _ (Some _) m) by done.
Qed.

(** What a fetch leaves. *)
Definition fetched (dir id : string) (p v m : bytes) (fs : gmap string bytes) : gmap string bytes :=
  <[ GoPath.Join [ dir; id; "manifest" ] := m ]> (<[ GoPath.Join [ dir; id; "vault" ] := v ]> (<[ GoPath.Join [ dir; id; "postgres" ] := p ]> fs)).

Lemma fetchFiles_copied o id dir tags stored p v m b fs : holds o id "postgres" p b -> holds o id "vault" v b -> holds o id "manifest" m b ->
  wanted tags stored "postgres" = sum p -> wanted tags stored "vault" = sum v -> wanted tags stored "manifest" = sum m ->
  fetchFiles sha256 o id dir tags stored (fun _ => calm) b backupFileNames fs = (fetched dir id p v m fs, Ok ((fun n => (n, GoPath.Join [ dir; id; n ])) <$> backupFileNames)).
Proof.
  intros Hp Hv Hm Wp Wv Wm; unfold backupFileNames.
  rewrite (fetchFiles_cons _ _ _ _ _ _ _ _ _ _ Hp Wp), (fetchFiles_cons _ _ _ _ _ _ _ _ _ _ Hv Wv), (fetchFiles_cons _ _ _ _ _ _ _ _ _ _ Hm Wm); reflexivity.
Qed.

Lemma tagged_empty n : tagged ∅ n = "".
Proof. unfold tagged; now rewrite lookup_empty. Qed.

Lemma fetch_copied o id dir tags p v m b fs (t : gmap string string) : copied o id p v m tags b -> t = tags \/ t = ∅ ->
  FetchOffsite sha256 unmarshal (Some o) id t dir (fun _ => calm) b fs = (fetched dir id p v m fs, Ok ((fun n => (n, GoPath.Join [ dir; id; n ])) <$> backupFileNames)).
Proof.
  intros Hc Ht; destruct (GetChecksums_copied _ _ _ _ _ _ _ Hc) as (rec & Hg & Rp & Rv & Rm).
  destruct Hc as (Hp & Hv & Hm & Tp & Tv & Tm & _); pose proof sum_not_empty as NE; unfold FetchOffsite, backupFileNames at 1; cbn [storedFor].
  destruct Ht as [ -> | -> ].
  - rewrite Tp, Tv, Tm, !(proj2 (String.eqb_neq _ _) (NE _)); cbn [negb].
    apply fetchFiles_copied; auto; unfold wanted; rewrite ?Tp, ?Tv, ?Tm, !(proj2 (String.eqb_neq _ _) (NE _)); done.
  - rewrite tagged_empty; cbn [String.eqb negb]; rewrite Hg.
    apply fetchFiles_copied; auto; unfold wanted; rewrite tagged_empty; cbn [String.eqb]; rewrite ?Rp, ?Rv, ?Rm; reflexivity.
Qed.
End Copies.

(** ** Only what was checked is written *)

Section Checked.
Context {AE : Aead} {B : Type} {OB : Objects B}.
Context (sha256 : bytes -> bytes) (unmarshal : bytes -> option ChecksumRecord).

(** A checksum of the file [n] of the backup [id]: given with the request, or
    else in the record of checksums kept in the bucket under this backup, which
    opens and names this backup. *)
Definition vouched (o : OffsiteStore) (id : string) (tags : gmap string string) (ft : string -> Faults) (b : B) (n h : string) : Prop :=
  h <> "" /\
  (tags !! ("offsite_" +:+ n +:+ "_sha256") = Some h \/
   (tags !! ("offsite_" +:+ n +:+ "_sha256") = None \/ tags !! ("offsite_" +:+ n +:+ "_sha256") = Some "") /\
   exists body raw rec receipt, getObject (GoPath.Join [ prefix o; id; checksumsName +:+ ".enc" ]) b = Some body /\ decrypt (full (ft checksumsName)) body = Ok raw /\
     unmarshal raw = Some rec /\ BackupID rec = id /\ Files rec !! n = Some receipt /\ PlaintextSHA256 receipt = h).

(** The file at the place of [n] is what its object opens to, with such a
    checksum. *)
Definition checked (o : OffsiteStore) (id : string) (tags : gmap string string) (ft : string -> Faults) (b : B) (n : string) (m : bytes) : Prop :=
  exists body, getObject (GoPath.Join [ prefix o; id; n +:+ ".enc" ]) b = Some body /\ decrypt (full (ft n)) body = Ok m /\
    vouched o id tags ft b n (hex_encode (sha256 m)).

Lemma Get_checked o id n dest want ft fs b fs' r : Get sha256 o id n dest want ft fs b = (fs', r) ->
  (fs' = fs /\ r <> Ok tt) \/
  (r = Ok tt /\ exists body m, fs' = <[ dest := m ]> fs /\ getObject (objectKey o id (n +:+ ".enc")) b = Some body /\ decrypt (full ft) body = Ok m /\
     forall w, want = Some w -> PlaintextSHA256 w <> "" -> hex_encode (sha256 m) = PlaintextSHA256 w).
Proof.
  unfold Get; destruct (getObject _ b) as [ body | ]; [ | intros [= <- <-]; now left ].
  destruct (noDir ft), (noTemp ft), (noChmod ft); try (intros [= <- <-]; now left).
  destruct (decrypt (full ft) body) as [ m | | ] eqn:Ed; try (intros [= <- <-]; now left).
  destruct (noClose ft); [ intros [= <- <-]; now left | ].
  destruct (match want with None => _ | Some _ => _ end) eqn:Es; [ intros [= <- <-]; now left | ].
  destruct (noRename ft); [ intros [= <- <-]; now left | ]; intros [= <- <-]; right; split; [ done | ]; exists body, m; split_and!; try done.
  intros w -> Hne; apply String.eqb_neq in Hne; rewrite Hne in Es; cbn in Es; apply negb_false_iff in Es; now apply String.eqb_eq in Es.
Qed.

(** The record a fetch goes by is the one of its backup. *)
Lemma GetChecksums_record o id ft b rec : GetChecksums sha256 unmarshal o id ft b = Ok rec ->
  exists body raw, getObject (objectKey o id (checksumsName +:+ ".enc")) b = Some body /\ decrypt (full ft) body = Ok raw /\ unmarshal raw = Some rec /\ BackupID rec = id.
Proof.
  unfold GetChecksums; destruct (Get _ _ _ _ _ _ _ _ _) as [ fs1 r1 ] eqn:Eg; apply Get_checked in Eg as [ [ _ Hr ] | (-> & body & raw & -> & Hg & Hd & _) ].
  { destruct r1 as [ [] | | ]; done. }
  rewrite lookup_insert_eq; destruct (unmarshal raw) as [ rec' | ] eqn:Hu; [ | done ].
  destruct (String.eqb_spec (BackupID rec') id) as [ Hi | ]; [ | done ]; cbn [negb]; destruct (covers _ _); [ done | ]; intros [= <-]; exists body, raw; done.
Qed.

Lemma storedFor_record o id tags ft b names rec : storedFor sha256 unmarshal o id tags ft b names = Ok (Some rec) -> GetChecksums sha256 unmarshal o id ft b = Ok rec.
Proof.
  induction names as [ | n names IH ]; cbn [storedFor]; [ done | ]; destruct (negb _); [ exact IH | ].
  destruct (GetChecksums _ _ _ _ _ _); intros [= <-]; done.
Qed.

Lemma wanted_vouched o id tags ft b names stored n : storedFor sha256 unmarshal o id tags (ft checksumsName) b names = Ok stored ->
  wanted tags stored n <> "" -> vouched o id tags ft b n (wanted tags stored n).
Proof.
  intros Hs Hw; split; [ exact Hw | ]; unfold wanted, tagged, tagFor in *; set (k := "offsite_" +:+ n +:+ "_sha256") in *.
  destruct (String.eqb_spec (default "" (tags !! k)) "") as [ E | E ]; [ | left; destruct (tags !! k); done ]; right.
  split; [ destruct (tags !! k); cbn in E; subst; auto | ]; destruct stored as [ rec | ]; [ | done ].
  apply storedFor_record, GetChecksums_record in Hs as (body & raw & Hg & Hd & Hu & Hi).
  destruct (Files rec !! n) as [ receipt | ] eqn:Hf; [ | done ]; exists body, raw, rec, receipt; split_and!; done.
Qed.

Lemma fetchFiles_writes o id dir tags stored ft b names fs fs' r : (exists all, storedFor sha256 unmarshal o id tags (ft checksumsName) b all = Ok stored) ->
  fetchFiles sha256 o id dir tags stored ft b names fs = (fs', r) ->
  (forall q, fs' !! q = fs !! q \/ exists n m, n ∈ names /\ q = GoPath.Join [ dir; id; n ] /\ fs' !! q = Some m /\ checked o id tags ft b n m) /\
  (forall out, r = Ok out -> out = (fun n => (n, GoPath.Join [ dir; id; n ])) <$> names /\
     forall n, n ∈ names -> exists n' m, n' ∈ names /\ GoPath.Join [ dir; id; n ] = GoPath.Join [ dir; id; n' ] /\ fs' !! GoPath.Join [ dir; id; n ] = Some m /\ checked o id tags ft b n' m).
Proof.
  intros [ all St ]; revert fs fs' r; induction names as [ | n names IH ]; intros fs fs' r; cbn [fetchFiles].
  { intros [= <- <-]; split; [ now left | intros out [= <-]; split; [ done | intros n Hn; now apply elem_of_nil in Hn ] ]. }
  destruct (String.eqb_spec (wanted tags stored n) "") as [ | Hw ]; [ intros [= <- <-]; split; [ now left | discriminate ] | ].
  destruct (Get _ _ _ _ _ _ _ _ _) as [ fs1 r1 ] eqn:Eg; apply Get_checked in Eg as [ [ -> Hr ] | (-> & body & m & -> & Hg & Hd & Hs) ].
  { destruct r1 as [ [] | | ]; [ done | | ]; intros [= <- <-]; (split; [ now left | discriminate ]). }
  destruct (fetchFiles _ _ _ _ _ _ _ _ _ _) as [ fs2 r2 ] eqn:Ef; intros [= <- <-].
  destruct (IH _ _ _ Ef) as [ W K ].
  assert (Hc : checked o id tags ft b n m) by (exists body; split_and!; [ done | done | ]; rewrite (Hs _ eq_refl Hw); exact (wanted_vouched _ _ _ _ _ _ _ _ St Hw)).
  assert (Hhere : forall q, q = GoPath.Join [ dir; id; n ] -> exists n' m', n' ∈ n :: names /\ q = GoPath.Join [ dir; id; n' ] /\ fs2 !! q = Some m' /\ checked o id tags ft b n' m').
  { intros q ->; destruct (W (GoPath.Join [ dir; id; n ])) as [ E | (n' & m' & Hin & Hq & Hm & Hc') ].
    - exists n, m; rewrite E, lookup_insert_eq; split_and!; [ now left | done .. ].
    - exists n', m'; split_and!; [ now right | done .. ]. }
  split.
  - intros q; destruct (decide (q = GoPath.Join [ dir; id; n ])) as [ E | Ne ]; [ right; now apply Hhere | ].
    destruct (W q) as [ E | (n' & m' & Hin & Hq & Hm & Hc') ]; [ left; now rewrite E, lookup_insert_ne by done | right; exists n', m'; split_and!; [ now right | done .. ] ].
  - intros out; destruct r2 as [ out2 | | ]; cbn; intros [= <-]; destruct (K _ eq_refl) as [ -> K2 ]; split; [ done | ].
    intros n0 [ -> | Hin ]%elem_of_cons; [ now apply Hhere | ].
    destruct (K2 _ Hin) as (n' & m' & Hin' & Hq & Hm & Hc'); exists n', m'; split_and!; [ now right | done .. ].
Qed.
End Checked.

(** ** Theorems *)

Section Theorems.
Context {AE : Aead} {B : Type} {OB : Objects B} (sha256 : bytes -> bytes) (marshal : ChecksumRecord -> option bytes) (unmarshal : bytes -> option ChecksumRecord).

(** C34.  A backup that was copied off-site comes back as it was: if the copy of the
    database dump, the Vault dump and the manifest succeeds, both dumps were
    read to their end, and a later fetch over the bucket it left writes the
    three files with the contents they had and names their paths.  This is so
    with the checksums the copy recorded and also with none, when they are
    taken from the bucket because the cluster that had them is gone. *)
Theorem copied_backup_is_fetched (AL : AeadLaws AE) (OL : ObjectLaws OB) o id pg vault man noTemp nonces tags b b' tags' dir fs t :
  tag_says_last -> (forall m, len (sha256 m) = 32) -> (forall rec raw, marshal rec = Some raw -> unmarshal raw = Some rec) ->
  (forall n p, nonces n = Some p -> len p = prefixLen) -> GoPath.plain id ->
  copyOffsite sha256 marshal o id pg vault man noTemp nonces tags b = (b', (tags', Ok tt)) -> t = tags' \/ t = ∅ ->
  exists p v m, pg = Some {| content := p; broken := false |} /\ vault = Some {| content := v; broken := false |} /\ man = Some m /\
    FetchOffsite sha256 unmarshal (Some o) id t dir (fun _ => calm) b' fs =
      (fetched dir id p v m fs, Ok ((fun n => (n, GoPath.Join [ dir; id; n ])) <$> backupFileNames)).
Proof.
  intros Tag Sha Json Rand Hid Hc Ht.
  destruct (copyOffsite_ok sha256 marshal unmarshal Tag Json _ _ _ _ _ _ _ _ _ _ _ Hid Rand Hc) as (p & v & m & Ep & Ev & Em & Hcopied).
  exists p, v, m; split_and!; [ done .. | ]; now apply fetch_copied with tags'.
Qed.

(** C35.  An object that decrypts is one that was made, whole: whatever bytes the
    bucket gives back, if they decrypt under the key then they are exactly the
    object some file was encrypted to and the text is that file, or some
    stretch of them opens under a nonce and a position for which the key never
    sealed it, which is a forgery of AES-GCM.  So truncating an object,
    reordering its chunks, joining chunks of two objects or appending to it is
    refused. *)
Theorem accepted_object_was_made (AL : AeadLaws AE) ft made body plain :
  bytes_ok body -> NoDup (fst <$> made) -> Forall encrypted made -> decrypt ft body = Ok plain ->
  (exists pre, (pre, plain) ∈ made /\ encrypt pre false plain = Ok body) \/ (exists pre, forgery made pre body).
Proof. apply decrypt_auth. Qed.

(** C36.  A fetch writes only what it could check: whether it succeeds or not,
    and whatever the bucket and the file system do, a path is left as it was
    or is the place of one of the three files, and then it has what that file's
    object decrypts to and its checksum is the one supplied with the request, or,
    if none was, the one in the record of checksums the bucket keeps for this
    backup, which decrypts and names this backup.  When it succeeds, all three are in place. *)
Theorem fetch_writes_only_checked o id tags dir ft b fs fs' r :
  GoPath.plain id -> FetchOffsite sha256 unmarshal (Some o) id tags dir ft b fs = (fs', r) ->
  (forall q, fs' !! q = fs !! q \/ exists n m, n ∈ backupFileNames /\ q = GoPath.Join [ dir; id; n ] /\ fs' !! q = Some m /\ checked sha256 unmarshal o id tags ft b n m) /\
  (forall out, r = Ok out -> forall n, n ∈ backupFileNames -> (n, GoPath.Join [ dir; id; n ]) ∈ out /\
     exists m, fs' !! GoPath.Join [ dir; id; n ] = Some m /\ checked sha256 unmarshal o id tags ft b n m).
Proof.
  intros Hid; unfold FetchOffsite; destruct (storedFor _ _ _ _ _ _ _ _) as [ stored | | ] eqn:St; [ | intros [= <- <-]; split; [ now left | done ] .. ].
  intros H; apply (fetchFiles_writes sha256 unmarshal) in H as [ W K ]; [ | eauto ]; split; [ exact W | ].
  intros out Ho n Hn; destruct (K _ Ho) as [ -> Kn ]; split; [ apply list_elem_of_fmap; now exists n | ].
  destruct (Kn _ Hn) as (n' & m & Hn' & Hq & Hm & Hc); exists m; split; [ done | ].
  assert (Sub : forall x, x ∈ backupFileNames -> x ∈ partNames) by (unfold backupFileNames, partNames; intros x; rewrite !elem_of_cons; intuition).
  apply Join_inj in Hq as [ _ -> ]; [ done | done | now apply part_plain, Sub | done | now apply part_plain, Sub ].
Qed.
End Theorems.

Module Simple.

Definition tag (a : bytes) : bytes := take 16 (a ++ replicate 16 0).

#[export] Instance aead : Aead := {|
  overhead := 16;
  seal n p a := p ++ tag a;
  open n c a := if (16 <=? length c)%nat && bool_decide (drop (length c - 16) c = tag a) then Some (take (length c - 16) c) else None
|}.

Lemma tag_len a : length (tag a) = 16%nat.
Proof. unfold tag; rewrite length_take, length_app, length_replicate; lia. Qed.

#[export] Instance aead_laws : AeadLaws aead.
Proof.
  split; [ | intros n p a; cbn; unfold len; rewrite length_app, tag_len; lia | reflexivity ].
  intros n p a c; cbn [open seal aead]; split.
  - destruct (16 <=? length c)%nat; cbn [andb]; [ | discriminate ]; case_bool_decide as E; [ | discriminate ]; intros [= <-]; rewrite <- E; now rewrite take_drop.
  - intros ->; rewrite length_app, tag_len; replace (length p + 16 - 16)%nat with (length p) by lia.
    rewrite take_app_length, drop_app_length, bool_decide_true by done.
    now rewrite (proj2 (Nat.leb_le _ _)) by lia.
Qed.

Lemma tag_last : tag_says_last.
Proof.
  intros pre k p; cbn [open seal aead]; rewrite length_app, tag_len; replace (length p + 16 - 16)%nat with (length p) by lia.
  rewrite drop_app_length, bool_decide_false; [ now rewrite andb_false_r | ]; intros E; apply (f_equal (fun l => l !! 4%nat)) in E; discriminate E.
Qed.

#[export] Instance objects : Objects (gmap string bytes) := {|
  putObject k v b := (<[ k := v ]> b, true);
  putBroken k b := b;
  getObject k b := b !! k
|}.

#[export] Instance object_laws : ObjectLaws objects.
Proof. split; cbn; [ intros k v b b' [= <-]; apply lookup_insert_eq | intros k k' v b Hk; now apply lookup_insert_ne ]. Qed.

Definition sha (m : bytes) : bytes := take 32 (m ++ replicate 32 0).

Lemma sha_32 m : len (sha m) = 32.
Proof. unfold sha, len; rewrite length_take, length_app, length_replicate; lia. Qed.

Definition store : OffsiteStore := {| prefix := "offsite" |}.
Definition dump : Source := {| content := [ 1; 2; 3 ]; broken := false |}.
Definition secrets : Source := {| content := [ 4; 5 ]; broken := false |}.
Definition manifest : bytes := [ 6 ].
Definition nonces (n : string) : option bytes := Some [ 1; 2; 3; 4; 5; 6; 7; 8 ].

Definition record : ChecksumRecord := {| BackupID := "backup-1"; Files :=
  <[ "manifest" := receiptFor sha store "backup-1" "manifest" [ 6 ] ]> (<[ "vault" := receiptFor sha store "backup-1" "vault" [ 4; 5 ] ]>
    (<[ "postgres" := receiptFor sha store "backup-1" "postgres" [ 1; 2; 3 ] ]> ∅)) |}.

#[export] Instance receipt_eq : EqDecision OffsiteReceipt.
Proof. solve_decision. Defined.
#[export] Instance record_eq : EqDecision ChecksumRecord.
Proof. solve_decision. Defined.

Definition marshal (r : ChecksumRecord) : option bytes := if decide (r = record) then Some [ 7; 7 ] else None.
Definition unmarshal (raw : bytes) : option ChecksumRecord := Some record.

Definition copy : gmap string bytes * (gmap string string * result OffErr unit) := copyOffsite sha marshal store "backup-1" (Some dump) (Some secrets) (Some manifest) false nonces ∅ ∅.
Definition copiedTags : gmap string string := fst (snd copy).
Definition restored : gmap string bytes * result OffErr (list (string * string)) := FetchOffsite sha unmarshal (Some store) "backup-1" ∅ "/restore" (fun _ => calm) (fst copy) ∅.

Lemma copy_ok : copy = (fst copy, (copiedTags, Ok tt)).
Proof.
  assert (snd (snd copy) = Ok tt) as H by (vm_compute; reflexivity).
  unfold copiedTags; destruct copy as [ b [ t r ] ]; cbn in *; now rewrite H.
Qed.

Lemma id_plain : GoPath.plain "backup-1".
Proof. plain_name. Qed.

Lemma copied_backup_is_fetched_witness : fst restored !! "/restore/backup-1/vault" = Some [ 4; 5 ] /\
  exists p v m, Some dump = Some {| content := p; broken := false |} /\ Some secrets = Some {| content := v; broken := false |} /\ Some manifest = Some m /\
    restored = (fetched "/restore" "backup-1" p v m ∅, Ok ((fun n => (n, GoPath.Join [ "/restore"; "backup-1"; n ])) <$> backupFileNames)).
Proof.
  split; [ vm_compute; reflexivity | ].
  apply (copied_backup_is_fetched sha marshal unmarshal aead_laws object_laws store "backup-1" (Some dump) (Some secrets) (Some manifest) false nonces ∅ ∅ (fst copy) copiedTags "/restore" ∅ ∅).
  - exact tag_last.
  - exact sha_32.
  - unfold marshal, unmarshal; intros rec raw; destruct (decide (rec = record)) as [ -> | ]; [ done | discriminate ].
  - unfold nonces; intros n p [= <-]; reflexivity.
  - exact id_plain.
  - exact copy_ok.
  - now right.
Defined.

Definition prefix8 : bytes := [ 1; 2; 3; 4; 5; 6; 7; 8 ].
Definition object : bytes := match encrypt prefix8 false [ 1; 2; 3 ] with Ok c => c | _ => [] end.

Lemma accepted_object_was_made_witness : decrypt (fun _ => false) (take 38 object) = Err EndsInChunk /\
  ((exists pre, (pre, [ 1; 2; 3 ]) ∈ [ (prefix8, [ 1; 2; 3 ]) ] /\ encrypt pre false [ 1; 2; 3 ] = Ok object) \/ (exists pre, forgery [ (prefix8, [ 1; 2; 3 ]) ] pre object)).
Proof.
  split; [ vm_compute; reflexivity | ].
  apply (accepted_object_was_made aead_laws (fun _ => false) [ (prefix8, [ 1; 2; 3 ]) ] object [ 1; 2; 3 ]).
  - vm_compute; repeat (apply Forall_cons; split; [ split; [ discriminate | reflexivity ] | ]); apply Forall_nil; exact I.
  - apply NoDup_singleton.
  - apply Forall_singleton; split; [ reflexivity | exists object; vm_compute; reflexivity ].
  - vm_compute; reflexivity.
Defined.

Lemma fetch_writes_only_checked_witness : snd restored = Ok [ ("postgres", "/restore/backup-1/postgres"); ("vault", "/restore/backup-1/vault"); ("manifest", "/restore/backup-1/manifest") ] /\
  (forall q, fst restored !! q = (∅ : gmap string bytes) !! q \/ exists n m, n ∈ backupFileNames /\ q = GoPath.Join [ "/restore"; "backup-1"; n ] /\ fst restored !! q = Some m /\
     checked sha unmarshal store "backup-1" ∅ (fun _ => calm) (fst copy) n m) /\
  (forall out, snd restored = Ok out -> forall n, n ∈ backupFileNames -> (n, GoPath.Join [ "/restore"; "backup-1"; n ]) ∈ out /\
     exists m, fst restored !! GoPath.Join [ "/restore"; "backup-1"; n ] = Some m /\ checked sha unmarshal store "backup-1" ∅ (fun _ => calm) (fst copy) n m).
Proof.
  split; [ vm_compute; reflexivity | ].
  apply (fetch_writes_only_checked sha unmarshal store "backup-1" ∅ "/restore" (fun _ => calm) (fst copy) ∅ (fst restored) (snd restored)).
  - exact id_plain.
  - unfold restored; apply surjective_pairing.
Defined.

(** A mode that lets the group read the key is accepted, one that lets others
    is not. *)
Theorem group_readable_key : exists raw, LoadOffsiteKey "key" (Some 416) (Some raw) = Ok raw /\ LoadOffsiteKey "key" (Some 420) (Some raw) = Err (KeyReadable 420).
Proof. exists (replicate 32 200); split; vm_compute; reflexivity. Qed.
End Simple.
End Offsite.
