(* ===== verification/Backup.v ===== *)
(** * Backups

    Models [services/backup]: [postgres_backup.go], [vault_backup.go] and
    [vault_not_configured.go] (the two dumps), [filesystem_storage.go] (the
    records), [backup_manager.go] (the run that takes both, checks them and
    copies them off-site, and the restore), and the routes of
    [cmd/backup-server/handlers.go] over them, with the bearer token of
    [auth.go].

    [pg_dump] and [pg_restore], Vault's API, JSON, MD5 and the order in which a Go map
    is walked are parameters; a file operation can fail, and leave a file half
    written.

    Shown here: a run that answers 200 has left its record, its manifest and
    both dumps on disk, with the checksums it names, and off-site when there is
    a store; and restoring it puts back the database and every secret there
    was. *)

From Stdlib Require Import ZArith Lia Ascii String Permutation.
From stdpp Require Import base list numbers strings gmap sorting.
From S2P Require Import Prelude GoStrings GoText GoPath Offsite.

Open Scope Z_scope.

Module Backup.
#[local] Open Scope string_scope.
#[local] Open Scope list_scope.
#[local] Open Scope Z_scope.

Definition BackupTypeFull : string := "full".
Definition BackupTypeIncremental : string := "incremental".
Definition BackupTypeDifferential : string := "differential".

Definition BackupStatusInProgress : string := "in_progress".
Definition BackupStatusCompleted : string := "completed".
Definition BackupStatusFailed : string := "failed".
Definition BackupStatusVerifying : string := "verifying".

(** Times are in nanoseconds; the zero [time.Time] is the start of year one. *)
Definition zeroTime : Z := -62135596800000000000.

Record BackupMetadata := {
  ID : string; BackupType : string; Status : string; Source : string; Destination : string; Size : Z; Checksum : string;
  StartTime : Z; EndTime : Z; Duration : Z; ErrorMessage : string; RetentionDays : Z; ExpiresAt : Z; VerifiedAt : Z;
  Tags : gmap string string; BackupChain : list string
}.

Record RestorePoint := {
  pointID : string; Timestamp : Z; pointSource : string; pointType : string; RecoveryPoint : Z; Verified : bool; EstimatedRTO : Z
}.

Inductive BErr : Type :=
| Mkdir | PgDumpFailed | DumpMissing | CannotRead (path : string) | NotFound (path : string) | CannotWrite (path : string)
| PgRestoreFailed | VaultNotConfigured | ListFailed (prefix : string) | SecretReadFailed (path : string) | ExportNotEncoded | ExportInvalid
| SecretWriteFailed (path : string) | ManifestNotEncoded | RecordNotEncoded | ChecksumMismatch (want got : string) | OffsiteFailed (e : Offsite.OffErr)
| DirUnreadable | NoSuchBackup (id : string) | NoComponents (id : string) (n : Z) | RemoveFailed (path : string)
| At (what : string) (e : BErr).

(** [kvExport] *)
Record kvExport {J : Type} := { Mount : string; Paths : gmap string J; Exported : Z }.
Arguments kvExport : clear implicits.

Record RealPostgreSQLBackup := { ConnURI : string; RestoreURI : string; pgDumpDir : string }.

(** [RealVaultBackup], or the one that fails closed *)
Inductive VaultBackup : Type :=
| NotConfigured
| RealVault (mount dumpDir : string).

(** ** What is outside *)

(** The programs and Vault, at the [n]-th call of the run. *)
Class Machine (DB V J : Type) := {
  time : nat -> Z;
  fails : nat -> bool;
  torn : nat -> option bytes;
  pgDump : nat -> DB -> option bytes * bool;
  pgRestore : nat -> bytes -> DB -> DB * bool;
  vlist : nat -> string -> V -> option (option (list (option string)));
  vread : nat -> string -> V -> option (option J);
  vwrite : nat -> string -> J -> V -> V * bool;
  isObject : J -> bool;
  walk : gmap string J -> list (string * J);
  nonces : nat -> string -> option bytes
}.

Class Json (J : Type) := {
  encodeExport : kvExport J -> option bytes;
  decodeExport : bytes -> option (kvExport J);
  encodeMeta : BackupMetadata -> option bytes;
  decodeMeta : bytes -> option BackupMetadata;
  encodeManifest : BackupMetadata -> BackupMetadata -> option bytes
}.

Section Model.
Context {DB V J B : Type} {MA : Machine DB V J} {JS : Json J} {AE : Offsite.Aead} {OB : Offsite.Objects B}.
Context (md5 sha256 : bytes -> bytes) (encodeSums : Offsite.ChecksumRecord -> option bytes) (decodeSums : bytes -> option Offsite.ChecksumRecord) (text : BErr -> string).

(** Files by path, databases by their address, Vault, the bucket, and how many
    calls have been made. *)
Record World := { files : gmap string bytes; dbs : gmap string DB; vault : V; bucket : B; calls : nat }.

Definition tick (w : World) : World := {| files := files w; dbs := dbs w; vault := vault w; bucket := bucket w; calls := S (calls w) |}.
Definition with_files (w : World) (f : gmap string bytes) : World := {| files := f; dbs := dbs w; vault := vault w; bucket := bucket w; calls := calls w |}.
Definition with_db (w : World) (uri : string) (d : DB) : World := {| files := files w; dbs := <[ uri := d ]> (dbs w); vault := vault w; bucket := bucket w; calls := calls w |}.
Definition with_vault (w : World) (v : V) : World := {| files := files w; dbs := dbs w; vault := v; bucket := bucket w; calls := calls w |}.
Definition with_bucket (w : World) (b : B) : World := {| files := files w; dbs := dbs w; vault := vault w; bucket := b; calls := calls w |}.

Definition act (A : Type) : Type := World -> World * result BErr A.
Definition ret {A} (a : A) : act A := fun w => (w, Ok a).
Definition fail {A} (e : BErr) : act A := fun w => (w, Err e).
Definition bind {A C} (c : act A) (k : A -> act C) : act C := fun w =>
  let '(w, r) := c w in match r with Ok a => k a w | Err e => (w, Err e) | Panic => (w, Panic) end.
Definition naming {A} (what : string) (c : act A) : act A := fun w => let '(w, r) := c w in (w, map_err (At what) r).

#[local] Notation "'do!' x '<-' c ';' k" := (bind c (fun x => k)) (at level 10, x binder, c at level 100, k at level 200).

Definition Now : act Z := fun w => (tick w, Ok (time (calls w))).
Definition Fallible (e : BErr) : act unit := fun w => (tick w, if fails (calls w) then Err e else Ok tt).
Definition ReadFile (p : string) : act bytes := fun w =>
  (tick w, if fails (calls w) then Err (CannotRead p) else match files w !! p with Some raw => Ok raw | None => Err (NotFound p) end).
Definition WriteFile (p : string) (raw : bytes) : act unit := fun w =>
  if fails (calls w) then (tick (match torn (calls w) with Some x => with_files w (<[ p := x ]> (files w)) | None => w end), Err (CannotWrite p))
  else (tick (with_files w (<[ p := raw ]> (files w))), Ok tt).

(** [generateBackupID] *)
Definition generateBackupID : act string := do! t <- Now; ret ("backup-" +:+ show_int t).

Definition md5Hex (raw : bytes) : string := hex_encode (md5 raw).

(** ** Postgres *)

Definition dumpPath (r : RealPostgreSQLBackup) (id : string) : string := GoPath.Join [ pgDumpDir r; id +:+ ".pgdump" ].

Definition runPgDump (uri path : string) : act unit := fun w =>
  match dbs w !! uri with
  | None => (tick w, Err PgDumpFailed)
  | Some d =>
      let '(out, ok) := pgDump (calls w) d in
      (tick (match out with Some raw => with_files w (<[ path := raw ]> (files w)) | None => w end), if ok then Ok tt else Err PgDumpFailed)
  end.

Definition component (id source path : string) (size : Z) (sum : string) (start finish took : Z) (tags : gmap string string) : BackupMetadata :=
  {| ID := id; BackupType := BackupTypeFull; Status := BackupStatusCompleted; Source := source; Destination := path; Size := size; Checksum := sum;
     StartTime := start; EndTime := finish; Duration := took; ErrorMessage := ""; RetentionDays := 0; ExpiresAt := zeroTime; VerifiedAt := zeroTime;
     Tags := tags; BackupChain := [] |}.

Definition pgBackupFull (r : RealPostgreSQLBackup) : act BackupMetadata :=
  do! _ <- Fallible Mkdir;
  do! id <- generateBackupID;
  let path := dumpPath r id in
  do! start <- Now;
  do! _ <- runPgDump (ConnURI r) path;
  do! info <- naming "stat" (ReadFile path);
  do! raw <- naming "checksum" (ReadFile path);
  do! finish <- Now;
  do! since <- Now;
  ret (component id "postgres" path (len info) (md5Hex raw) start finish (since - start) {[ "method" := "pg_dump -Fc" ]}).

Definition retyped (m : BackupMetadata) (tags : gmap string string) : BackupMetadata :=
  {| ID := ID m; BackupType := BackupTypeIncremental; Status := Status m; Source := Source m; Destination := Destination m; Size := Size m; Checksum := Checksum m;
     StartTime := StartTime m; EndTime := EndTime m; Duration := Duration m; ErrorMessage := ErrorMessage m; RetentionDays := RetentionDays m; ExpiresAt := ExpiresAt m;
     VerifiedAt := VerifiedAt m; Tags := tags; BackupChain := BackupChain m |}.

Definition pgBackupIncremental (r : RealPostgreSQLBackup) : act BackupMetadata :=
  do! m <- pgBackupFull r;
  ret (retyped m (<[ "note" := "full logical dump, not a true WAL-based incremental -- see RealPostgreSQLBackup's doc comment" ]> (Tags m))).

Definition runPgRestore (uri path : string) (raw : bytes) : act unit := fun w =>
  match dbs w !! uri with
  | None => (tick w, Err PgRestoreFailed)
  | Some d => let '(d, ok) := pgRestore (calls w) raw d in (tick (with_db w uri d), if ok then Ok tt else Err PgRestoreFailed)
  end.

Definition pgRestoreFrom (r : RealPostgreSQLBackup) (backupID : string) : act unit :=
  let path := dumpPath r backupID in
  do! raw <- ReadFile path;
  runPgRestore (RestoreURI r) path raw.

Definition pgRestoreIncremental (r : RealPostgreSQLBackup) (backupID : string) : act unit := pgRestoreFrom r backupID.

(** ** Vault *)

Definition vaultDumpPath (dir id : string) : string := GoPath.Join [ dir; id +:+ ".vaultkv.json" ].

Definition runList (prefix path : string) : act (option (list (option string))) := fun w =>
  (tick w, match vlist (calls w) path (vault w) with None => Err (ListFailed prefix) | Some l => Ok l end).
Definition runRead (p path : string) : act (option J) := fun w =>
  (tick w, match vread (calls w) path (vault w) with None => Err (SecretReadFailed p) | Some s => Ok s end).
Definition runWrite (p path : string) (d : J) : act unit := fun w =>
  let '(v, ok) := vwrite (calls w) path d (vault w) in (tick (with_vault w v), if ok then Ok tt else Err (SecretWriteFailed p)).

Fixpoint endsInSlash (s : string) : bool :=
  match s with
  | EmptyString => false
  | String c EmptyString => Ascii.eqb c "/"
  | String _ t => endsInSlash t
  end.

(** The keys of one listing; [below] lists a directory. *)
Fixpoint listKeys (below : string -> act (list string)) (prefix : string) (keys : list (option string)) : act (list string) :=
  match keys with
  | [] => ret []
  | k :: keys =>
      let key := default "" k in
      let whole := prefix +:+ key in
      do! here <- (if endsInSlash key then below whole else ret [ whole ]);
      do! rest <- listKeys below prefix keys;
      ret (here ++ rest)
  end.

(** The fuel bounds how deep the tree is; running out of it is the stack
    running out. *)
Fixpoint listAllPaths (fuel : nat) (mount prefix : string) : act (list string) :=
  match fuel with
  | O => fun w => (w, Panic)
  | S fuel =>
      do! keys <- runList prefix (mount +:+ "/metadata/" +:+ prefix);
      match keys with
      | None => ret []
      | Some keys => listKeys (listAllPaths fuel mount) prefix keys
      end
  end.

Definition dataPath (mount p : string) : string := mount +:+ "/data/" +:+ p.

Fixpoint readSecrets (mount : string) (paths : list string) (acc : gmap string J) : act (gmap string J) :=
  match paths with
  | [] => ret acc
  | p :: paths =>
      do! s <- runRead p (dataPath mount p);
      readSecrets mount paths (match s with Some d => <[ p := d ]> acc | None => acc end)
  end.

Definition vaultBackupFull (fuel : nat) (b : VaultBackup) : act BackupMetadata :=
  match b with
  | NotConfigured => fail VaultNotConfigured
  | RealVault mount dir =>
      do! _ <- Fallible Mkdir;
      do! start <- Now;
      do! paths <- listAllPaths fuel mount "";
      do! secrets <- readSecrets mount paths ∅;
      do! id <- generateBackupID;
      let path := vaultDumpPath dir id in
      match encodeExport {| Mount := mount; Paths := secrets; Exported := start |} with
      | None => fail ExportNotEncoded
      | Some raw =>
          do! _ <- WriteFile path raw;
          do! finish <- Now;
          do! since <- Now;
          ret (component id "vault" path (len raw) (md5Hex raw) start finish (since - start)
                 (<[ "paths" := show_int (Z.of_nat (size secrets)) ]> {[ "method" := "kv-recursive-export" ]}))
      end
  end.

Definition vaultBackupIncremental (fuel : nat) (b : VaultBackup) : act BackupMetadata :=
  do! m <- vaultBackupFull fuel b;
  ret (retyped m (Tags m)).

(** The secrets in the order of the walk. *)
Fixpoint writeSecrets (mount : string) (l : list (string * J)) : act unit :=
  match l with
  | [] => ret tt
  | (p, d) :: l => if isObject d then do! _ <- runWrite p (dataPath mount p) d; writeSecrets mount l else writeSecrets mount l
  end.

Definition vaultRestore (b : VaultBackup) (backupID : string) : act unit :=
  match b with
  | NotConfigured => fail VaultNotConfigured
  | RealVault mount dir =>
      do! raw <- ReadFile (vaultDumpPath dir backupID);
      match decodeExport raw with
      | None => fail ExportInvalid
      | Some export => writeSecrets mount (walk (Paths export))
      end
  end.

Definition vaultRestoreIncremental (b : VaultBackup) (backupID : string) : act unit := vaultRestore b backupID.

(** ** The records on disk *)

Record FilesystemBackupStorage := { Dir : string }.

Definition metaPath (f : FilesystemBackupStorage) (id : string) : string := GoPath.Join [ Dir f; id +:+ ".meta.json" ].
Definition storedPath (f : FilesystemBackupStorage) (id : string) : string := GoPath.Join [ Dir f; id +:+ ".data" ].

Definition SaveMetadata (f : FilesystemBackupStorage) (m : BackupMetadata) : act unit :=
  do! _ <- Fallible Mkdir;
  match encodeMeta m with
  | None => fail RecordNotEncoded
  | Some raw => WriteFile (metaPath f (ID m)) raw
  end.

Definition StoreBackup (f : FilesystemBackupStorage) (id : string) (raw : bytes) : act unit :=
  do! _ <- Fallible Mkdir;
  WriteFile (storedPath f id) raw.

Definition GetBackup (f : FilesystemBackupStorage) (id : string) : act bytes := ReadFile (storedPath f id).

Definition Remove (p : string) : act unit := fun w =>
  if fails (calls w) then (tick w, Err (RemoveFailed p))
  else match files w !! p with
       | None => (tick w, Err (RemoveFailed p))
       | Some _ => (tick (with_files w (delete p (files w))), Ok tt)
       end.

Definition DeleteBackup (f : FilesystemBackupStorage) (id : string) : act unit := fun w =>
  let '(w, _) := Remove (storedPath f id) w in Remove (metaPath f id) w.

(** [os.ReadDir]: the names of the files of a directory, sorted *)
Definition nameIn (dir p : string) : option string :=
  match strip_prefix (GoPath.under dir) p with
  | Some n => if GoPath.contains (Ascii.eqb GoPath.slash) n || String.eqb n "" then None else Some n
  | None => None
  end.

Definition name_le (a b : string) : Prop := String.leb a b = true.
#[export] Instance name_le_dec a b : Decision (name_le a b).
Proof. unfold name_le; apply _. Defined.

Definition entries (dir : string) (fs : gmap string bytes) : list string := merge_sort name_le (omap (fun '(p, _) => nameIn dir p) (map_to_list fs)).

(** [filepath.Ext(name) == ".json"] *)
Fixpoint isJson (s : string) : bool := String.eqb s ".json" || match s with String _ t => isJson t | EmptyString => false end.

(** The records that can be read, in the order of their names. *)
Fixpoint readRecords (f : FilesystemBackupStorage) (names : list string) : act (list BackupMetadata) :=
  match names with
  | [] => ret []
  | n :: names =>
      if negb (isJson n) then readRecords f names
      else fun w =>
        let '(w, r) := ReadFile (GoPath.Join [ Dir f; n ]) w in
        match r with
        | Ok raw =>
            match decodeMeta raw with
            | Some m => bind (readRecords f names) (fun l => ret (m :: l)) w
            | None => readRecords f names w
            end
        | _ => readRecords f names w
        end
  end.

Definition starts_le (a b : BackupMetadata) : Prop := StartTime a <= StartTime b.
#[export] Instance starts_le_dec a b : Decision (starts_le a b).
Proof. unfold starts_le; apply _. Defined.

Definition ListBackups (f : FilesystemBackupStorage) : act (list BackupMetadata) := fun w =>
  bind (Fallible DirUnreadable) (fun _ =>
  bind (readRecords f (entries (Dir f) (files w))) (fun l =>
  ret (merge_sort starts_le l))) w.

(** [byID]: of two records with one id, the later stays *)
Fixpoint byID (l : list BackupMetadata) : gmap string BackupMetadata := match l with [] => ∅ | m :: l => let rest := byID l in match rest !! ID m with Some _ => rest | None => <[ ID m := m ]> rest end end.

Definition GetBackupChain (f : FilesystemBackupStorage) (backupID : string) : act (list BackupMetadata) :=
  do! all <- ListBackups f;
  let ids := byID all in
  match ids !! backupID with
  | None => fail (NoSuchBackup backupID)
  | Some target => ret (target :: omap (fun parent => ids !! parent) (BackupChain target))
  end.

(** ** The manager *)

Record BackupManager := { storage : FilesystemBackupStorage; vaultBackend : VaultBackup; postgres : RealPostgreSQLBackup; offsite : option Offsite.OffsiteStore }.

Definition set_status (m : BackupMetadata) (status msg : string) : BackupMetadata :=
  {| ID := ID m; BackupType := BackupType m; Status := status; Source := Source m; Destination := Destination m; Size := Size m; Checksum := Checksum m;
     StartTime := StartTime m; EndTime := EndTime m; Duration := Duration m; ErrorMessage := msg; RetentionDays := RetentionDays m; ExpiresAt := ExpiresAt m;
     VerifiedAt := VerifiedAt m; Tags := Tags m; BackupChain := BackupChain m |}.

Definition with_size (m : BackupMetadata) (n : Z) : BackupMetadata :=
  {| ID := ID m; BackupType := BackupType m; Status := Status m; Source := Source m; Destination := Destination m; Size := i64 (Size m + n); Checksum := Checksum m;
     StartTime := StartTime m; EndTime := EndTime m; Duration := Duration m; ErrorMessage := ErrorMessage m; RetentionDays := RetentionDays m; ExpiresAt := ExpiresAt m;
     VerifiedAt := VerifiedAt m; Tags := Tags m; BackupChain := BackupChain m |}.

Definition with_chain (m : BackupMetadata) (chain : list string) : BackupMetadata :=
  {| ID := ID m; BackupType := BackupType m; Status := Status m; Source := Source m; Destination := Destination m; Size := Size m; Checksum := Checksum m;
     StartTime := StartTime m; EndTime := EndTime m; Duration := Duration m; ErrorMessage := ErrorMessage m; RetentionDays := RetentionDays m; ExpiresAt := ExpiresAt m;
     VerifiedAt := VerifiedAt m; Tags := Tags m; BackupChain := chain |}.

Definition finished (m : BackupMetadata) (at_ days : Z) : BackupMetadata :=
  {| ID := ID m; BackupType := BackupType m; Status := BackupStatusCompleted; Source := Source m; Destination := Destination m; Size := Size m; Checksum := Checksum m;
     StartTime := StartTime m; EndTime := at_; Duration := at_ - StartTime m; ErrorMessage := ErrorMessage m; RetentionDays := days; ExpiresAt := ExpiresAt m;
     VerifiedAt := VerifiedAt m; Tags := Tags m; BackupChain := BackupChain m |}.

Definition verified (m : BackupMetadata) (sum : string) (at_ : Z) : BackupMetadata :=
  {| ID := ID m; BackupType := BackupType m; Status := BackupStatusCompleted; Source := Source m; Destination := Destination m; Size := Size m; Checksum := sum;
     StartTime := StartTime m; EndTime := EndTime m; Duration := Duration m; ErrorMessage := ErrorMessage m; RetentionDays := RetentionDays m; ExpiresAt := ExpiresAt m;
     VerifiedAt := at_; Tags := Tags m; BackupChain := BackupChain m |}.

Definition with_tags (m : BackupMetadata) (tags : gmap string string) : BackupMetadata :=
  {| ID := ID m; BackupType := BackupType m; Status := Status m; Source := Source m; Destination := Destination m; Size := Size m; Checksum := Checksum m;
     StartTime := StartTime m; EndTime := EndTime m; Duration := Duration m; ErrorMessage := ErrorMessage m; RetentionDays := RetentionDays m; ExpiresAt := ExpiresAt m;
     VerifiedAt := VerifiedAt m; Tags := tags; BackupChain := BackupChain m |}.

Definition started (id type : string) (start : Z) (chain : list string) : BackupMetadata :=
  {| ID := id; BackupType := type; Status := BackupStatusInProgress; Source := ""; Destination := ""; Size := 0; Checksum := "";
     StartTime := start; EndTime := zeroTime; Duration := 0; ErrorMessage := ""; RetentionDays := 0; ExpiresAt := zeroTime; VerifiedAt := zeroTime;
     Tags := ∅; BackupChain := chain |}.

(** A step that changes the record whether or not it succeeds. *)
Definition run : Type := World -> World * (BackupMetadata * result BErr unit).

Definition VerifyBackup (f : FilesystemBackupStorage) (m : BackupMetadata) : run := fun w =>
  let m := set_status m BackupStatusVerifying (ErrorMessage m) in
  let '(w, r) := GetBackup f (ID m) w in
  match r with
  | Err e => (w, (m, Err (At "retrieve" e)))
  | Panic => (w, (m, Panic))
  | Ok data =>
      let sum := md5Hex data in
      if negb (String.eqb (Checksum m) "") && negb (String.eqb (Checksum m) sum) then (w, (m, Err (ChecksumMismatch (Checksum m) sum)))
      else (tick w, (verified m sum (time (calls w)), Ok tt))
  end.

(** A step whose error ends the run and is recorded. *)
Definition orFailed {A} (m : BackupMetadata) (msg : BErr -> string) (c : act A) (k : A -> run) : run := fun w =>
  let '(w, r) := c w in
  match r with
  | Ok a => k a w
  | Err e => (w, (set_status m BackupStatusFailed (msg e), Err e))
  | Panic => (w, (m, Panic))
  end.

(** A file as the copy reads it. *)
Definition sourceAt (w : World) (n : nat) (path : string) : option Offsite.Source := (fun raw => {| Offsite.content := raw; Offsite.broken := fails n |}) <$> files w !! path.

(** [copyOffsite]: the tags of the parts that were put are kept also when a
    later one is not *)
Definition copyOffsite (o : Offsite.OffsiteStore) (m pg v : BackupMetadata) (manifest : bytes) : run := fun w =>
  let n := calls w in
  let '(b, (tags, r)) := Offsite.copyOffsite sha256 encodeSums o (ID m) (sourceAt w n (Destination pg)) (sourceAt w (S n) (Destination v))
                           (if fails (S (S n)) then None else Some manifest) (fails (S (S (S n)))) (nonces n) (Tags m) (bucket w) in
  (tick (tick (tick (tick (with_bucket w b)))), (with_tags m tags, map_err OffsiteFailed r)).

Definition ExecuteFullBackup (fuel : nat) (b : BackupManager) : run := fun w =>
  let id := "backup-" +:+ show_int (time (calls w)) in
  let start := time (calls (tick w)) in
  let w := tick (tick w) in
  let m := started id BackupTypeFull start [] in
  orFailed m (fun e => "PostgreSQL backup failed: " +:+ text e) (pgBackupFull (postgres b)) (fun pg =>
  let m := with_size m (Size pg) in
  orFailed m (fun e => "Vault backup failed: " +:+ text e) (vaultBackupFull fuel (vaultBackend b)) (fun v =>
  let m := with_chain (with_size m (Size v)) [ ID pg; ID v ] in
  match encodeManifest pg v with
  | None => fun w => (w, (set_status m BackupStatusFailed ("failed to build backup manifest: " +:+ text ManifestNotEncoded), Err ManifestNotEncoded))
  | Some manifest =>
      orFailed m (fun e => "failed to store backup manifest: " +:+ text e) (StoreBackup (storage b) (ID m) manifest) (fun _ w =>
      let m := finished m (time (calls w)) 30 in
      let '(w, (m, r)) := VerifyBackup (storage b) m (tick w) in
      match r with
      | Err e => (w, (set_status m BackupStatusFailed ("Backup verification failed: " +:+ text e), Err e))
      | Panic => (w, (m, Panic))
      | Ok _ =>
          match offsite b with
          | None => (w, (m, Ok tt))
          | Some o =>
              let '(w, (m, r)) := copyOffsite o m pg v manifest w in
              match r with
              | Err e => (w, (set_status m BackupStatusFailed ("the backup is complete locally but the off-site copy failed: " +:+ text e), Err e))
              | Panic => (w, (m, Panic))
              | Ok _ => (w, (m, Ok tt))
              end
          end
      end)
  end)) w.

Definition ExecuteIncrementalBackup (fuel : nat) (b : BackupManager) (previous : BackupMetadata) : run := fun w =>
  let id := "backup-" +:+ show_int (time (calls w)) in
  let start := time (calls (tick w)) in
  let w := tick (tick w) in
  let m := started id BackupTypeIncremental start [ ID previous ] in
  orFailed m (fun e => "Incremental PostgreSQL backup failed: " +:+ text e) (pgBackupIncremental (postgres b)) (fun pg =>
  let m := with_size m (Size pg) in
  orFailed m (fun e => "Incremental Vault backup failed: " +:+ text e) (vaultBackupIncremental fuel (vaultBackend b)) (fun v w =>
  let m := with_size m (Size v) in
  (tick w, (finished m (time (calls w)) 7, Ok tt)))) w.

Definition pointOf (m : BackupMetadata) : RestorePoint :=
  {| pointID := ID m; Timestamp := StartTime m; pointSource := Source m; pointType := BackupType m; RecoveryPoint := EndTime m;
     Verified := negb (VerifiedAt m =? zeroTime); EstimatedRTO := 15 * 60 * 1000000000 |}.

Definition ListRestorePoints (b : BackupManager) : act (list RestorePoint) :=
  do! l <- ListBackups (storage b);
  ret (pointOf <$> l).

(** The first full backup of the chain. *)
Fixpoint restoreFull (b : BackupManager) (chain : list BackupMetadata) : act unit :=
  match chain with
  | [] => ret tt
  | m :: chain =>
      if String.eqb (BackupType m) BackupTypeFull then
        match BackupChain m with
        | [ pg; v ] =>
            do! _ <- naming "failed to restore PostgreSQL" (pgRestoreFrom (postgres b) pg);
            naming "failed to restore Vault" (vaultRestore (vaultBackend b) v)
        | l => fail (NoComponents (ID m) (len l))
        end
      else restoreFull b chain
  end.

Fixpoint restoreIncrementals (b : BackupManager) (chain : list BackupMetadata) : act unit :=
  match chain with
  | [] => ret tt
  | m :: chain =>
      if String.eqb (BackupType m) BackupTypeIncremental || String.eqb (BackupType m) BackupTypeDifferential then
        do! _ <- naming "failed to restore incremental backup" (pgRestoreIncremental (postgres b) (ID m));
        restoreIncrementals b chain
      else restoreIncrementals b chain
  end.

Definition RestoreFromPoint (b : BackupManager) (point : RestorePoint) : act unit :=
  do! chain <- naming "failed to retrieve backup chain" (GetBackupChain (storage b) (pointID point));
  do! _ <- restoreFull b chain;
  restoreIncrementals b chain.

(** [FetchOffsite] into the files, each with the faults of its download. *)
Definition FetchOffsite (b : BackupManager) (backupID : string) (tags : gmap string string) (dir : string) (ft : string -> Offsite.Faults) : act (list (string * string)) := fun w =>
  let '(fs, r) := Offsite.FetchOffsite sha256 decodeSums (offsite b) backupID tags dir ft (bucket w) (files w) in
  (with_files w fs, map_err OffsiteFailed r).

(** ** The routes *)

Inductive Body : Type :=
| Message (error : string)
| Failure (what : string) (e : BErr)
| Meta (m : BackupMetadata)
| Points (l : list RestorePoint)
| Restored (id : string)
| Fetched (l : list (string * string)).

Record backupServer := { manager : BackupManager; stagingDir : string }.
Definition records (s : backupServer) : FilesystemBackupStorage := storage (manager s).

Definition route : Type := World -> World * option (Z * Body).
Definition answer (code : Z) (b : Body) : route := fun w => (w, Some (code, b)).

(** What an error becomes; a panic of the handler closes the connection. *)
Definition answering {A} (code : Z) (what : string) (c : act A) (k : A -> route) : route := fun w =>
  let '(w, r) := c w in
  match r with
  | Ok a => k a w
  | Err e => (w, Some (code, Failure what e))
  | Panic => (w, None)
  end.

Definition handleBackupFull (fuel : nat) (s : backupServer) (post : bool) : route :=
  if negb post then answer 405 (Message "method not allowed")
  else fun w =>
    let '(w, (m, r)) := ExecuteFullBackup fuel (manager s) w in
    match r with
    | Panic => (w, None)
    | Err e =>
        let w := if negb (String.eqb (ID m) "") then fst (SaveMetadata (records s) m w) else w in
        (w, Some (500, Failure "" e))
    | Ok _ => answering 500 "backup succeeded but saving metadata failed: " (SaveMetadata (records s) m) (fun _ => answer 200 (Meta m)) w
    end.

Definition handleBackupIncremental (fuel : nat) (s : backupServer) (post : bool) (req : option string) : route :=
  if negb post then answer 405 (Message "method not allowed")
  else match req with
  | None | Some "" => answer 400 (Message "previous_backup_id is required")
  | Some id =>
      answering 500 "" (ListBackups (records s)) (fun all =>
      match list_find (fun m => ID m = id) all with
      | None => answer 404 (Message "previous backup not found")
      | Some (_, previous) => fun w =>
          let '(w, (m, r)) := ExecuteIncrementalBackup fuel (manager s) previous w in
          match r with
          | Panic => (w, None)
          | Err e => (w, Some (500, Failure "" e))
          | Ok _ => answering 500 "backup succeeded but saving metadata failed: " (SaveMetadata (records s) m) (fun _ => answer 200 (Meta m)) w
          end
      end)
  end.

Definition handleRestore (s : backupServer) (post : bool) (req : option string) : route :=
  if negb post then answer 405 (Message "method not allowed")
  else match req with
  | None | Some "" => answer 400 (Message "restore_point_id is required")
  | Some id =>
      answering 500 "" (ListRestorePoints (manager s)) (fun points =>
      match list_find (fun p => pointID p = id) points with
      | None => answer 404 (Message "restore point not found")
      | Some (_, target) => answering 500 "" (RestoreFromPoint (manager s) target) (fun _ => answer 200 (Restored id))
      end)
  end.

Definition handleRestorePoints (s : backupServer) : route := answering 500 "" (ListRestorePoints (manager s)) (fun l => answer 200 (Points l)).

Record FetchRequest := { reqBackupID : string; reqTags : gmap string string; reqDir : string }.

(** The tags of the last record with the id. *)
Definition tagsOf (id : string) (l : list BackupMetadata) : gmap string string := foldl (fun t m => if String.eqb (ID m) id then Tags m else t) ∅ l.

Definition handleOffsiteFetch (s : backupServer) (post : bool) (req : option FetchRequest) (ft : string -> Offsite.Faults) : route :=
  if negb post then answer 405 (Message "method not allowed")
  else match req with
  | None => answer 400 (Message "backup_id is required")
  | Some req =>
      if String.eqb (reqBackupID req) "" then answer 400 (Message "backup_id is required")
      else match offsite (manager s) with
      | None => answer 503 (Message "no off-site store is configured on this deployment")
      | Some _ =>
          answering 500 "" (if bool_decide (reqTags req = ∅) then bind (ListBackups (records s)) (fun l => ret (tagsOf (reqBackupID req) l)) else ret (reqTags req)) (fun tags =>
          answering 502 "" (FetchOffsite (manager s) (reqBackupID req) tags (if String.eqb (reqDir req) "" then stagingDir s else reqDir req) ft) (fun l => answer 200 (Fetched l)))
      end
  end.

(** [requireToken]: what is answered instead of serving, if anything *)
Definition requireToken (hash : string -> bytes) (token : string) (allowUnauthenticated : bool) (path authorization : string) : option Z :=
  if String.eqb path "/health" then None
  else if String.eqb token "" then if allowUnauthenticated then None else Some 503
  else
    let presented := if has_prefix "Bearer " authorization then trim_prefix "Bearer " authorization else "" in
    if bool_decide (hash presented = hash token) then None else Some 401.
End Model.

(** ** Paths *)

Lemma under_cases d : GoPath.under d = "" \/ exists u, GoPath.under d = u +:+ String GoPath.slash "".
Proof.
  unfold GoPath.under; destruct (GoPath.components d) as [ | c l ], (has_prefix "/" d); [ right; now exists "" | now left | | ].
  - right; exists (String GoPath.slash (GoPath.join_slash (c :: l))); reflexivity.
  - right; exists (GoPath.join_slash (c :: l)); reflexivity.
Qed.

Lemma Join_name d a : GoPath.plain a -> GoPath.Join [ d; a ] = GoPath.under d +:+ a.
Proof.
  intros Ha; destruct (String.eqb_spec d "") as [ -> | Hd ].
  - change (GoPath.under "") with ""; rewrite sapp_nil; cbn [GoPath.Join String.eqb].
    assert (a <> "") as Hn by apply Ha; apply String.eqb_neq in Hn as ->.
    unfold GoPath.Clean, GoPath.components; cbn [GoPath.join_slash]; rewrite Offsite.plain_first, (GoPath.split_slash_single a) by (done || apply Ha).
    cbn [foldl]; now rewrite GoPath.clean_push_plain by done.
  - unfold GoPath.Join; replace (String.eqb d "") with false by (symmetry; now apply String.eqb_neq).
    change (GoPath.join_slash [ d; a ]) with (d +:+ String GoPath.slash a); unfold GoPath.Clean, GoPath.components; rewrite GoPath.has_prefix_slash_app by done.
    rewrite GoPath.split_slash_app, foldl_app, (GoPath.split_slash_single a) by apply Ha; cbn [foldl].
    rewrite GoPath.clean_push_plain by done; unfold GoPath.under, GoPath.components; cbn [rev]; set (st := rev (foldl _ _ _)); unfold GoPath.render.
    destruct st as [ | x st ]; [ now destruct (has_prefix "/" d) | ].
    rewrite GoPath.join_slash_snoc by done; destruct (has_prefix "/" d); cbn [app]; rewrite ?sapp_cons, !GoPath.sapp_assoc; reflexivity.
Qed.

(** Files with different names are different, whatever their directories. *)
Lemma Join_names d d' a b : GoPath.plain a -> GoPath.plain b -> GoPath.Join [ d; a ] = GoPath.Join [ d'; b ] -> a = b.
Proof.
  intros Ha Hb E; rewrite !Join_name in E by done; pose proof (under_cases d) as Hu; pose proof (under_cases d') as Hv.
  set (u := GoPath.under d) in *; set (v := GoPath.under d') in *.
  assert (L : forall u x, (u = "" \/ exists u', u = u' +:+ String GoPath.slash "") -> GoPath.plain x -> last (GoPath.split_slash (u +:+ x)) = Some x).
  { intros u0 x [ -> | [ u' -> ] ] Hx; [ rewrite sapp_nil, GoPath.split_slash_single by apply Hx; reflexivity | ].
    rewrite GoPath.sapp_assoc, sapp_cons, sapp_nil, GoPath.split_slash_app, (GoPath.split_slash_single x) by apply Hx; apply last_snoc. }
  pose proof (L u a Hu Ha) as La; rewrite E, (L v b Hv Hb) in La; congruence.
Qed.

Lemma ext_ne a s b t : String.length s = String.length t -> s <> t -> a +:+ s <> b +:+ t.
Proof.
  intros Hl Hn E; apply Hn; revert b E; induction a as [ | c a IH ]; intros b E.
  - destruct b as [ | d b ]; [ done | ]; apply (f_equal String.length) in E; rewrite !GoPath.sapp_length in E; cbn in E; lia.
  - destruct b as [ | d b ]; [ apply (f_equal String.length) in E; rewrite !GoPath.sapp_length in E; cbn in E; lia | ].
    rewrite !sapp_cons in E; injection E as -> E; eauto.
Qed.

(** The id of a backup and the names made of it. *)
Definition backupId (t : Z) : string := "backup-" +:+ show_int t.

Definition extensions : list string := [ ".pgdump"; ".vaultkv.json"; ".data"; ".meta.json" ].

Lemma backup_id_plain t : GoPath.plain (backupId t).
Proof.
  unfold backupId, GoPath.plain; split_and!; try discriminate.
  rewrite GoPath.contains_app, GoPath.show_int_no_slash; reflexivity.
Qed.

Lemma file_plain t e : e ∈ extensions -> GoPath.plain (backupId t +:+ e).
Proof.
  intros He; unfold GoPath.plain, backupId; split_and!; try discriminate.
  rewrite !GoPath.contains_app, GoPath.show_int_no_slash; cbn; unfold extensions in He; rewrite !elem_of_cons, elem_of_nil in He.
  destruct He as [ -> | [ -> | [ -> | [ -> | [] ] ] ] ]; reflexivity.
Qed.

Lemma ends_ne a b s1 s2 t1 t2 : String.length s2 = String.length t2 -> s2 <> t2 -> a +:+ (s1 +:+ s2) <> b +:+ (t1 +:+ t2).
Proof. intros Hl Hn; rewrite <- !GoPath.sapp_assoc; now apply ext_ne. Qed.

Lemma ext_inj a b e e' : e ∈ extensions -> e' ∈ extensions -> a +:+ e = b +:+ e' -> e = e'.
Proof.
  assert (D : forall a b, a +:+ ".pgdump" <> b +:+ ".data") by (intros x y; now apply (ends_ne x y ".p" "gdump" "" ".data")).
  assert (P : forall a b, a +:+ ".pgdump" <> b +:+ ".vaultkv.json") by (intros x y; now apply (ends_ne x y ".p" "gdump" ".vaultkv" ".json")).
  assert (Q : forall a b, a +:+ ".pgdump" <> b +:+ ".meta.json") by (intros x y; now apply (ends_ne x y ".p" "gdump" ".meta" ".json")).
  assert (R : forall a b, a +:+ ".data" <> b +:+ ".vaultkv.json") by (intros x y; now apply (ends_ne x y "" ".data" ".vaultkv" ".json")).
  assert (S : forall a b, a +:+ ".data" <> b +:+ ".meta.json") by (intros x y; now apply (ends_ne x y "" ".data" ".meta" ".json")).
  assert (T : forall a b, a +:+ ".vaultkv.json" <> b +:+ ".meta.json") by (intros x y; now apply (ends_ne x y ".va" "ultkv.json" "" ".meta.json")).
  unfold extensions; rewrite !elem_of_cons, !elem_of_nil; intros [ -> | [ -> | [ -> | [ -> | [] ] ] ] ] [ -> | [ -> | [ -> | [ -> | [] ] ] ] ] E; try done; exfalso.
  all: first [ exact (D _ _ E) | exact (P _ _ E) | exact (Q _ _ E) | exact (R _ _ E) | exact (S _ _ E) | exact (T _ _ E)
             | symmetry in E; first [ exact (D _ _ E) | exact (P _ _ E) | exact (Q _ _ E) | exact (R _ _ E) | exact (S _ _ E) | exact (T _ _ E) ] ].
Qed.

(** The files of backups are kept apart by their extensions. *)
Lemma files_apart d d' t t' e e' : e ∈ extensions -> e' ∈ extensions -> e <> e' -> GoPath.Join [ d; backupId t +:+ e ] <> GoPath.Join [ d'; backupId t' +:+ e' ].
Proof. intros He He' Hn E; apply Join_names in E; [ | now apply file_plain .. ]; now apply ext_inj in E. Qed.

(** ** What an operation leaves *)

Create HintDb quiet.

Section Facts.
Context {DB V J B : Type} {MA : Machine DB V J} {JS : Json J} {AE : Offsite.Aead} {OB : Offsite.Objects B}.
Context (md5 sha256 : bytes -> bytes) (encodeSums : Offsite.ChecksumRecord -> option bytes) (decodeSums : bytes -> option Offsite.ChecksumRecord) (text : BErr -> string).
Abbreviation world := (@World DB V B).
Abbreviation action A := (@act DB V B A).

Lemma act_bind_ok {A C} (c : action A) (k : A -> action C) w w' r : bind c k w = (w', Ok r) -> exists w1 a, c w = (w1, Ok a) /\ k a w1 = (w', Ok r).
Proof. unfold bind; destruct (c w) as [ w1 [ a | | ] ]; intros H; try discriminate; eauto. Qed.

Lemma naming_ok {A} what (c : action A) w w' r : naming what c w = (w', Ok r) -> c w = (w', Ok r).
Proof. unfold naming; destruct (c w) as [ w1 [ a | | ] ]; cbn; intros H; try discriminate; congruence. Qed.

(** Only the count of calls differs. *)
Definition same (w w' : world) : Prop := files w' = files w /\ dbs w' = dbs w /\ vault w' = vault w /\ bucket w' = bucket w.

#[export] Instance same_preorder : PreOrder same.
Proof. split; [ intros w; repeat split | intros a b c (A1 & A2 & A3 & A4) (B1 & B2 & B3 & B4); repeat split; congruence ]. Qed.

Lemma same_tick w : same w (tick w).
Proof. repeat split. Qed.

(** An action that changes nothing, however it ends. *)
Definition quiet {A} (c : action A) : Prop := forall w w' r, c w = (w', r) -> same w w'.

Lemma quiet_ret {A} (a : A) : quiet (ret a).
Proof. intros w w' r [= <- <-]; reflexivity. Qed.
Lemma quiet_act_fail {A} e : quiet (fail (A := A) e).
Proof. intros w w' r [= <- <-]; reflexivity. Qed.
Lemma quiet_panic {A} : quiet (fun w : world => (w, Panic) : world * result BErr A).
Proof. intros w w' r [= <- <-]; reflexivity. Qed.
Lemma quiet_now : quiet Now.
Proof. intros w w' r [= <- <-]; apply same_tick. Qed.
Lemma quiet_fallible e : quiet (Fallible e).
Proof. intros w w' r; unfold Fallible; intros [= <- <-]; apply same_tick. Qed.
Lemma quiet_act_read p : quiet (ReadFile p).
Proof. intros w w' r; unfold ReadFile; intros [= <- <-]; apply same_tick. Qed.
Lemma quiet_list p q : quiet (runList p q).
Proof. intros w w' r; unfold runList; intros [= <- <-]; apply same_tick. Qed.
Lemma quiet_secret p q : quiet (runRead p q).
Proof. intros w w' r; unfold runRead; intros [= <- <-]; apply same_tick. Qed.

Lemma quiet_act_bind {A C} (c : action A) (k : A -> action C) : quiet c -> (forall a, quiet (k a)) -> quiet (bind c k).
Proof.
  intros Hc Hk w w' r; unfold bind; destruct (c w) as [ w1 [ a | | ] ] eqn:E; intros H; apply Hc in E.
  - transitivity w1; [ done | now apply (Hk a _ _ _ H) ].
  - injection H as <- <-; done.
  - injection H as <- <-; done.
Qed.

Lemma quiet_naming {A} what (c : action A) : quiet c -> quiet (naming what c).
Proof. intros Hc w w' r; unfold naming; destruct (c w) as [ w1 r1 ] eqn:E; intros [= <- <-]; now apply Hc in E. Qed.

Hint Resolve quiet_ret quiet_act_fail quiet_panic quiet_now quiet_fallible quiet_act_read quiet_list quiet_secret quiet_naming : quiet.

Lemma quiet_id : quiet generateBackupID.
Proof. apply quiet_act_bind; auto with quiet. Qed.

Lemma quiet_listKeys below prefix keys : (forall p, quiet (below p)) -> quiet (listKeys below prefix keys).
Proof.
  intros Hb; induction keys as [ | k keys IH ]; cbn [listKeys]; [ auto with quiet | ].
  apply quiet_act_bind; [ destruct (endsInSlash _); auto with quiet | ]; intros here; apply quiet_act_bind; auto with quiet.
Qed.

Lemma quiet_listAll fuel mount prefix : quiet (listAllPaths fuel mount prefix).
Proof.
  revert prefix; induction fuel as [ | fuel IH ]; intros prefix; cbn [listAllPaths]; [ apply quiet_panic | ].
  apply quiet_act_bind; [ auto with quiet | ]; intros [ keys | ]; [ now apply quiet_listKeys | auto with quiet ].
Qed.

Lemma quiet_secrets mount paths acc : quiet (readSecrets mount paths acc).
Proof. revert acc; induction paths as [ | p paths IH ]; intros acc; cbn [readSecrets]; [ auto with quiet | ]; apply quiet_act_bind; auto with quiet. Qed.

Lemma quiet_records f names : quiet (readRecords f names).
Proof.
  induction names as [ | n names IH ]; cbn [readRecords]; [ auto with quiet | ]; destruct (negb (isJson n)); [ done | ].
  intros w w' r; destruct (ReadFile _ w) as [ w1 r1 ] eqn:E; apply quiet_act_read in E as S; intros H; transitivity w1; [ done | ].
  destruct r1 as [ raw | | ]; [ destruct (decodeMeta raw) | .. ]; try (now apply IH in H).
  revert H; apply quiet_act_bind; auto with quiet.
Qed.

Lemma quiet_listBackups f : quiet (ListBackups f).
Proof.
  intros w w' r; unfold ListBackups; apply quiet_act_bind; [ auto with quiet | ]; intros _; apply quiet_act_bind; [ apply quiet_records | auto with quiet ].
Qed.

Lemma quiet_chain f id : quiet (GetBackupChain f id).
Proof. apply quiet_act_bind; [ apply quiet_listBackups | ]; intros l; cbv zeta; destruct (byID l !! id); auto with quiet. Qed.

Lemma now_ok (w w' : world) t : Now w = (w', Ok t) -> w' = tick w /\ t = time (calls w).
Proof. now intros [= <- <-]. Qed.

Lemma read_ok p (w w' : world) raw : ReadFile p w = (w', Ok raw) -> w' = tick w /\ files w !! p = Some raw.
Proof. unfold ReadFile; destruct (fails (calls w)); [ discriminate | ]; destruct (files w !! p); intros [= <- <-]; done. Qed.

Lemma write_ok p raw (w w' : world) u : WriteFile p raw w = (w', Ok u) -> w' = tick (with_files w (<[ p := raw ]> (files w))).
Proof. unfold WriteFile; destruct (fails (calls w)); [ discriminate | ]; now intros [= <- _]. Qed.

Lemma id_ok (w w' : world) id : generateBackupID w = (w', Ok id) -> w' = tick w /\ id = backupId (time (calls w)).
Proof. intros (w1 & t & H1 & H2)%act_bind_ok; apply now_ok in H1 as [ -> -> ]; injection H2 as <- <-; done. Qed.

Ltac bind_inv H w a E := apply act_bind_ok in H as (w & a & E & H).
Ltac now_inv := match goal with E : Now _ = (_, Ok _) |- _ => apply now_ok in E as [ -> -> ] end.

(** The dump of the database: only its file is written. *)
Lemma pgBackupFull_ok r (w w' : world) m : pgBackupFull md5 r w = (w', Ok m) ->
  exists t n d out raw, ID m = backupId t /\ Destination m = dumpPath r (ID m) /\ Checksum m = md5Hex md5 raw /\
    dbs w !! ConnURI r = Some d /\ pgDump n d = (out, true) /\ (out = Some raw \/ out = None) /\
    files w' !! dumpPath r (ID m) = Some raw /\ (forall q, q <> dumpPath r (ID m) -> files w' !! q = files w !! q) /\
    dbs w' = dbs w /\ vault w' = vault w /\ bucket w' = bucket w.
Proof.
  unfold pgBackupFull; intros H; bind_inv H w1 u E1; bind_inv H w2 i E2; bind_inv H w3 start E3; bind_inv H w4 u2 E4.
  bind_inv H w5 info E5; bind_inv H w6 raw E6; bind_inv H w7 finish E7; bind_inv H w8 since E8; injection H as <- <-.
  apply quiet_fallible in E1 as (F1 & D1 & V1 & B1); apply id_ok in E2 as [ -> -> ]; repeat now_inv.
  apply naming_ok, read_ok in E6 as [ -> E6 ]; apply naming_ok, read_ok in E5 as [ -> E5 ].
  unfold runPgDump in E4; cbn [dbs tick] in E4; rewrite D1 in E4; destruct (dbs w !! ConnURI r) as [ d | ] eqn:Ed; [ | discriminate ].
  destruct (pgDump _ d) as [ out ok ] eqn:Ep; destruct ok; [ | discriminate ]; injection E4 as <-.
  cbn [tick files] in E6.
  exists (time (calls w1)), (calls (tick (tick w1))), d, out, raw; cbn [ID Destination Checksum component]; split_and!; try done.
  - destruct out as [ x | ]; [ left | now right ]; cbn in E6; rewrite lookup_insert_eq in E6; congruence.
  - intros q Hq; destruct out; cbn; [ rewrite lookup_insert_ne by done | ]; now rewrite F1.
  - destruct out; cbn; congruence.
  - destruct out; cbn; congruence.
  - destruct out; cbn; congruence.
Qed.

(** What the walk of the mount and the reads of its paths gave, in a Vault that
    stayed [v]; by what is documented of Vault these are all its secrets and
    nothing else ([secretsOf_all]). *)
Definition secretsOf (fuel : nat) (mount : string) (v : V) (secrets : gmap string J) : Prop :=
  exists paths (w w1 w2 w3 : world), vault w = v /\ vault w2 = v /\ listAllPaths fuel mount "" w = (w1, Ok paths) /\ readSecrets mount paths ∅ w2 = (w3, Ok secrets).

Lemma vaultBackupFull_ok fuel vb (w w' : world) m : vaultBackupFull md5 fuel vb w = (w', Ok m) ->
  exists mount dir t start secrets raw, vb = RealVault mount dir /\ ID m = backupId t /\ Destination m = vaultDumpPath dir (ID m) /\ Checksum m = md5Hex md5 raw /\
    secretsOf fuel mount (vault w) secrets /\ encodeExport {| Mount := mount; Paths := secrets; Exported := start |} = Some raw /\
    files w' !! vaultDumpPath dir (ID m) = Some raw /\ (forall q, q <> vaultDumpPath dir (ID m) -> files w' !! q = files w !! q) /\
    dbs w' = dbs w /\ vault w' = vault w /\ bucket w' = bucket w.
Proof.
  unfold vaultBackupFull; destruct vb as [ | mount dir ]; [ discriminate | ]; intros H.
  bind_inv H w1 u E1; bind_inv H w2 start E2; bind_inv H w3 paths E3; bind_inv H w4 secrets E4; bind_inv H w5 i E5.
  destruct (encodeExport _) as [ raw | ] eqn:Ee; [ | discriminate ].
  bind_inv H w6 u2 E6; bind_inv H w7 finish E7; bind_inv H w8 since E8; injection H as <- <-.
  assert (same w w2) as S2 by (transitivity w1; [ now apply quiet_fallible in E1 | now apply quiet_now in E2 ]).
  assert (same w w3) as S3 by (transitivity w2; [ done | now apply quiet_listAll in E3 ]).
  assert (same w w4) as S4 by (transitivity w3; [ done | now apply quiet_secrets in E4 ]).
  destruct S2 as (_ & _ & V2 & _), S3 as (_ & _ & V3 & _), S4 as (F4 & D4 & V4 & B4).
  apply id_ok in E5 as [ -> -> ]; apply write_ok in E6 as ->; repeat now_inv.
  exists mount, dir, (time (calls w4)), (time (calls w1)), secrets, raw; cbn [ID Destination Checksum component tick files dbs vault bucket with_files]; split_and!; try done.
  - now exists paths, (tick w1), w3, w3, w4.
  - apply lookup_insert_eq.
  - intros q Hq; rewrite lookup_insert_ne by done; now rewrite F4.
Qed.

Lemma orFailed_ok {A} m msg (c : action A) (k : A -> run) (w w' : world) m' : orFailed m msg c k w = (w', (m', Ok tt)) -> exists w1 a, c w = (w1, Ok a) /\ k a w1 = (w', (m', Ok tt)).
Proof. unfold orFailed; destruct (c w) as [ w1 [ a | | ] ]; intros H; try discriminate; eauto. Qed.

Lemma store_ok f i raw (w w' : world) u : StoreBackup f i raw w = (w', Ok u) ->
  files w' !! storedPath f i = Some raw /\ (forall q, q <> storedPath f i -> files w' !! q = files w !! q) /\ dbs w' = dbs w /\ vault w' = vault w /\ bucket w' = bucket w.
Proof.
  unfold StoreBackup; intros H; bind_inv H w1 u1 E1; apply quiet_fallible in E1 as (F1 & D1 & V1 & B1); apply write_ok in H as ->; cbn.
  split_and!; [ apply lookup_insert_eq | | done .. ]; intros q Hq; rewrite lookup_insert_ne by done; now rewrite F1.
Qed.

Lemma save_ok f m (w w' : world) u : SaveMetadata f m w = (w', Ok u) ->
  exists raw, encodeMeta m = Some raw /\ files w' !! metaPath f (ID m) = Some raw /\ (forall q, q <> metaPath f (ID m) -> files w' !! q = files w !! q) /\
    dbs w' = dbs w /\ vault w' = vault w /\ bucket w' = bucket w.
Proof.
  unfold SaveMetadata; intros H; bind_inv H w1 u1 E1; destruct (encodeMeta m) as [ raw | ]; [ | discriminate ].
  apply quiet_fallible in E1 as (F1 & D1 & V1 & B1); apply write_ok in H as ->; cbn; exists raw.
  split_and!; [ done | apply lookup_insert_eq | | done .. ]; intros q Hq; rewrite lookup_insert_ne by done; now rewrite F1.
Qed.

Lemma verify_ok f m (w w' : world) m' : VerifyBackup md5 f m w = (w', (m', Ok tt)) ->
  same w w' /\ exists raw at_, files w !! storedPath f (ID m) = Some raw /\ m' = verified (set_status m BackupStatusVerifying (ErrorMessage m)) (md5Hex md5 raw) at_.
Proof.
  unfold VerifyBackup; intros H; destruct (GetBackup _ _ w) as [ w1 [ raw | | ] ] eqn:E; try discriminate.
  destruct (negb _ && negb _); [ discriminate | ]; injection H as <- <-; apply read_ok in E as [ -> E ]; split; [ repeat split | ].
  now exists raw, (time (calls (tick w))).
Qed.

Section Kept.
Context {AL : Offsite.AeadLaws AE} {OL : Offsite.ObjectLaws OB}.
Hypothesis tag_last : Offsite.tag_says_last.
Hypothesis sums_back : forall rec raw, encodeSums rec = Some raw -> decodeSums raw = Some rec.
Hypothesis rand_fills : forall n name p, nonces n name = Some p -> len p = Offsite.prefixLen.

(** The copy of a backup whose dumps are where its components say. *)
Lemma manager_copy_ok o m pg v manifest dump export (w w' : world) m' : GoPath.plain (ID m) ->
  files w !! Destination pg = Some dump -> files w !! Destination v = Some export ->
  copyOffsite sha256 encodeSums o m pg v manifest w = (w', (m', Ok tt)) ->
  exists tags, m' = with_tags m tags /\ Offsite.copied sha256 decodeSums o (ID m') dump export manifest (Tags m') (bucket w') /\ files w' = files w /\ dbs w' = dbs w /\ vault w' = vault w.
Proof.
  intros Hi Hd He; unfold copyOffsite, sourceAt; rewrite Hd, He; cbn [fmap option_fmap option_map].
  destruct (Offsite.copyOffsite _ _ _ _ _ _ _ _ _ _ _) as [ b [ tags [ [] | | ] ] ] eqn:E; cbn [map_err]; intros H; try discriminate; injection H as <- <-.
  eapply Offsite.copyOffsite_ok in E as (p & vv & mm & Ep & Ev & Em & Hc); [ | done .. | apply rand_fills ].
  exists tags; split_and!; try done; cbn [bucket tick with_bucket ID Tags with_tags].
  destruct (fails (S (S (calls w)))); [ discriminate | ]; assert (p = dump) as -> by congruence; assert (vv = export) as -> by congruence; assert (mm = manifest) as -> by congruence; done.
Qed.

(** What a finished run stands for: the components [pg] and [v], the state they
    were taken from, and the files they and the manifest are in. *)
Record Kept (fuel : nat) (b : BackupManager) (m : BackupMetadata) (dbs0 : gmap string DB) (v0 : V) (w : world) (mount dir : string) (pg v : BackupMetadata) (dump export manifest : bytes) : Prop := {
  k_vault : vaultBackend b = RealVault mount dir;
  k_type : BackupType m = BackupTypeFull;
  k_status : Status m = BackupStatusCompleted;
  k_chain : BackupChain m = [ ID pg; ID v ];
  k_ids : exists t tp tv, ID m = backupId t /\ ID pg = backupId tp /\ ID v = backupId tv;
  k_dump : files w !! dumpPath (postgres b) (ID pg) = Some dump /\ Checksum pg = md5Hex md5 dump;
  k_export : files w !! vaultDumpPath dir (ID v) = Some export /\ Checksum v = md5Hex md5 export;
  k_manifest : files w !! storedPath (storage b) (ID m) = Some manifest /\ encodeManifest pg v = Some manifest /\ Checksum m = md5Hex md5 manifest;
  k_database : exists n d out, dbs0 !! ConnURI (postgres b) = Some d /\ pgDump n d = (out, true) /\ (out = Some dump \/ out = None);
  k_secrets : exists start secrets, secretsOf fuel mount v0 secrets /\ encodeExport {| Mount := mount; Paths := secrets; Exported := start |} = Some export;
  k_offsite : forall o, offsite b = Some o -> Offsite.copied sha256 decodeSums o (ID m) dump export manifest (Tags m) (bucket w)
}.

Ltac apart := unfold dumpPath, vaultDumpPath, storedPath, metaPath; repeat match goal with E : ID _ = _ |- _ => rewrite E end; apply files_apart; unfold extensions; rewrite ?elem_of_cons; auto; done.

Lemma full_ok fuel b (w w' : world) m : ExecuteFullBackup md5 sha256 encodeSums text fuel b w = (w', (m, Ok tt)) ->
  (dbs w' = dbs w /\ vault w' = vault w) /\ exists mount dir pg v dump export manifest, Kept fuel b m (dbs w) (vault w) w' mount dir pg v dump export manifest.
Proof.
  unfold ExecuteFullBackup; intros H; apply orFailed_ok in H as (w1 & pg & Ep & H); apply orFailed_ok in H as (w2 & v & Ev & H).
  destruct (encodeManifest pg v) as [ manifest | ] eqn:Em; [ | discriminate ]; apply orFailed_ok in H as (w3 & u & Es & H); cbv zeta in H.
  destruct (VerifyBackup _ _ _ _) as [ w4 [ m4 [ [] | | ] ] ] eqn:E4; try discriminate.
  apply pgBackupFull_ok in Ep as (tp & n & d & out & dump & Ip & Dp & Cp & Ed & Epd & Eo & Fp & Op & D1 & V1 & B1); cbn [dbs vault tick files] in *.
  apply vaultBackupFull_ok in Ev as (mount & dir & tv & start & secrets & export & Eb & Iv & Dv & Cv & Hs & Ee & Fv & Ov & D2 & V2 & B2).
  set (t := time (calls w)) in *; change ("backup-" +:+ show_int t) with (backupId t) in *.
  apply store_ok in Es as (F3 & O3 & D3 & V3 & B3); cbn [ID with_chain with_size started] in *.
  apply verify_ok in E4 as ((F4 & D4 & V4 & B4) & raw & at_ & F4' & ->); cbn [tick files dbs vault bucket ID finished with_chain with_size started] in *.
  assert (raw = manifest) as -> by congruence.
  assert (N1 : dumpPath (postgres b) (ID pg) <> vaultDumpPath dir (ID v)) by apart.
  assert (N2 : dumpPath (postgres b) (ID pg) <> storedPath (storage b) (backupId t)) by apart.
  assert (N3 : vaultDumpPath dir (ID v) <> storedPath (storage b) (backupId t)) by apart.
  assert (G1 : files w4 !! dumpPath (postgres b) (ID pg) = Some dump) by now rewrite F4, O3, Ov.
  assert (G2 : files w4 !! vaultDumpPath dir (ID v) = Some export) by now rewrite F4, O3.
  assert (G3 : files w4 !! storedPath (storage b) (backupId t) = Some manifest) by now rewrite F4.
  rewrite V1 in Hs; clear Fp Op Fv Ov F3 O3 F4'.
  assert (Base : forall wx mx, ID mx = backupId t -> BackupType mx = BackupTypeFull -> Status mx = BackupStatusCompleted -> BackupChain mx = [ ID pg; ID v ] -> Checksum mx = md5Hex md5 manifest ->
    files wx = files w4 -> (forall o, offsite b = Some o -> Offsite.copied sha256 decodeSums o (ID mx) dump export manifest (Tags mx) (bucket wx)) ->
    Kept fuel b mx (dbs w) (vault w) wx mount dir pg v dump export manifest).
  { intros wx mx Im Tm Sm Cm Km Fm Om; split; auto.
    - exists t, tp, tv; auto.
    - rewrite Fm; auto.
    - rewrite Fm; auto.
    - rewrite Fm, Im; auto.
    - exists n, d, out; auto.
    - exists start, secrets; auto. }
  destruct (offsite b) as [ o | ].
  - destruct (copyOffsite _ _ _ _ _ _ _ _) as [ w5 [ m5 [ [] | | ] ] ] eqn:Ec; try discriminate; injection H as <- <-.
    eapply (manager_copy_ok _ _ _ _ _ dump export) in Ec as (tags & -> & Hc & F5 & D5 & V5); [ | apply backup_id_plain | now rewrite Dp | now rewrite Dv ].
    split; [ split; [ rewrite D5, D4, D3, D2; exact D1 | rewrite V5, V4, V3, V2; exact V1 ] | ]; exists mount, dir, pg, v, dump, export, manifest; apply Base; [ reflexivity .. | exact F5 | ].
    intros o' Ho; injection Ho as <-; exact Hc.
  - injection H as <- <-; split; [ split; [ rewrite D4, D3, D2; exact D1 | rewrite V4, V3, V2; exact V1 ] | ]; exists mount, dir, pg, v, dump, export, manifest; apply Base; [ reflexivity .. | ].
    intros o' Ho; discriminate Ho.
Qed.

Lemma kept_saved fuel b m dbs0 v0 (w w' : world) mount dir pg v dump export manifest u : SaveMetadata (storage b) m w = (w', Ok u) ->
  Kept fuel b m dbs0 v0 w mount dir pg v dump export manifest -> Kept fuel b m dbs0 v0 w' mount dir pg v dump export manifest.
Proof.
  intros (raw & _ & _ & O & _ & _ & B')%save_ok K; destruct K as [ K1 K2 K3 K4 (t & tp & tv & I1 & I2 & I3) [ K6 C6 ] [ K7 C7 ] [ K8 C8 ] K9 K10 K11 ].
  assert (N1 : dumpPath (postgres b) (ID pg) <> metaPath (storage b) (ID m)) by apart.
  assert (N2 : vaultDumpPath dir (ID v) <> metaPath (storage b) (ID m)) by apart.
  assert (N3 : storedPath (storage b) (ID m) <> metaPath (storage b) (ID m)) by apart.
  split; auto.
  - exists t, tp, tv; auto.
  - rewrite O by exact N1; auto.
  - rewrite O by exact N2; auto.
  - rewrite O by exact N3; auto.
  - rewrite B'; auto.
Qed.

Lemma handleBackupFull_ok fuel s (w w' : world) m : handleBackupFull md5 sha256 encodeSums text fuel s true w = (w', Some (200, Meta m)) ->
  (dbs w' = dbs w /\ vault w' = vault w) /\ (exists raw, encodeMeta m = Some raw /\ files w' !! metaPath (records s) (ID m) = Some raw) /\
  exists mount dir pg v dump export manifest, Kept fuel (manager s) m (dbs w) (vault w) w' mount dir pg v dump export manifest.
Proof.
  unfold handleBackupFull; cbn [negb]; intros H; destruct (ExecuteFullBackup _ _ _ _ _ _ w) as [ w1 [ m1 [ [] | | ] ] ] eqn:E; try discriminate.
  unfold answering in H; destruct (SaveMetadata _ m1 w1) as [ w2 [ u | | ] ] eqn:Es; try discriminate; injection H as <- <-.
  apply full_ok in E as ([ D1 V1 ] & mount & dir & pg & v & dump & export & manifest & K).
  pose proof (save_ok _ _ _ _ _ Es) as (raw & Er & Fr & _ & D2 & V2 & _); split_and!; [ now rewrite D2, D1 | now rewrite V2, V1 | exists raw; auto | ].
  exists mount, dir, pg, v, dump, export, manifest; exact (kept_saved _ _ _ _ _ _ _ _ _ _ _ _ _ _ _ Es K).
Qed.
End Kept.
End Facts.

(** ** Vault *)

(** The first key of a path in a listing: up to its first slash, which stays. *)
Fixpoint firstKey (s : string) : string := match s with EmptyString => EmptyString | String c t => if Ascii.eqb c "/" then "/" else String c (firstKey t) end.
Fixpoint afterKey (s : string) : string := match s with EmptyString => EmptyString | String c t => if Ascii.eqb c "/" then t else afterKey t end.

Lemma key_split s : firstKey s +:+ afterKey s = s.
Proof.
  induction s as [ | c t IH ]; [ done | ]; cbn [firstKey afterKey]; destruct (Ascii.eqb_spec c "/") as [ -> | ]; [ done | ]; now rewrite sapp_cons, IH.
Qed.

Lemma key_cases s : endsInSlash (firstKey s) = true \/ (endsInSlash (firstKey s) = false /\ firstKey s = s).
Proof.
  induction s as [ | c t IH ]; [ now right | ]; cbn [firstKey]; destruct (Ascii.eqb_spec c "/") as [ -> | Hc ]; [ now left | ].
  destruct t as [ | c' t ]; [ right; split; [ cbn; now apply Ascii.eqb_neq | done ] | ].
  assert (E : endsInSlash (String c (firstKey (String c' t))) = endsInSlash (firstKey (String c' t))) by (cbn [firstKey]; destruct (Ascii.eqb c' "/"); reflexivity).
  destruct IH as [ H | [ H K ] ]; [ left; congruence | right; split; congruence ].
Qed.

(** What is documented of Vault: reading gives the secret, writing changes that
    secret alone, and a listing names the next part of every path below it.  A
    path of a secret does not end in a slash. *)
Class VaultLaws {DB V J : Type} (MA : Machine DB V J) (mount : string) := {
  secretAt : V -> string -> option J;
  read_secret n p v s : vread n p v = Some s -> s = secretAt v p;
  write_secret n p d v v' : vwrite n p d v = (v', true) -> secretAt v' p = Some d /\ forall q, q <> p -> secretAt v' q = secretAt v q;
  list_complete n pre v r rest : vlist n (mount +:+ "/metadata/" +:+ pre) v = Some r -> is_Some (secretAt v (dataPath mount (pre +:+ rest))) ->
    rest <> "" -> exists ks, r = Some ks /\ Some (firstKey rest) ∈ ks;
  secret_path v p : is_Some (secretAt v (dataPath mount p)) -> p <> "" /\ endsInSlash p = false
}.

Section Secrets.
Context {DB V J B : Type} {MA : Machine DB V J} (mount : string) {VL : VaultLaws MA mount}.
Abbreviation world := (@World DB V B).
Abbreviation action A := (@act DB V B A).

Lemma ends_app a b : b <> "" -> endsInSlash (a +:+ b) = endsInSlash b.
Proof.
  intros Hb; induction a as [ | c a IH ]; [ now rewrite sapp_nil | ]; rewrite sapp_cons; cbn [endsInSlash].
  destruct (a +:+ b) as [ | c' t ] eqn:E; [ | now rewrite IH ].
  apply (f_equal String.length) in E; rewrite GoPath.sapp_length in E; cbn in E; destruct b; [ done | cbn in E; lia ].
Qed.

Lemma listKeys_has (below : string -> action (list string)) prefix keys key (w w' : world) paths :
  (forall p, quiet (below p)) -> listKeys below prefix keys w = (w', Ok paths) -> Some key ∈ keys ->
  (endsInSlash key = false /\ prefix +:+ key ∈ paths) \/
  (endsInSlash key = true /\ exists w1 w2 sub, same w w1 /\ below (prefix +:+ key) w1 = (w2, Ok sub) /\ forall p, p ∈ sub -> p ∈ paths).
Proof.
  intros Hq; revert w paths; induction keys as [ | k keys IH ]; intros w paths H Hin; [ now apply elem_of_nil in Hin | ].
  cbn [listKeys] in H; apply act_bind_ok in H as (w1 & here & E1 & H); apply act_bind_ok in H as (w2 & rest & E2 & H); injection H as <- <-.
  assert (same w w1) as S1 by (destruct (endsInSlash (default "" k)); [ now apply Hq in E1 | now apply quiet_ret in E1 ]).
  apply elem_of_cons in Hin as [ <- | Hin ].
  - cbn [from_option] in E1; unfold id in E1; destruct (endsInSlash key) eqn:Es.
    + right; split; [ done | ]; exists w, w1, here; split_and!; [ reflexivity | exact E1 | ]; intros p Hp; apply elem_of_app; now left.
    + left; split; [ done | ]; injection E1 as <- <-; apply elem_of_app; left; now left.
  - destruct (IH _ _ E2 Hin) as [ [ Hs Hp ] | (Hs & wa & wb & sub & Sa & Eb & Hsub) ]; [ left | right ]; split; try done.
    + apply elem_of_app; now right.
    + exists wa, wb, sub; split_and!; [ now transitivity w1 | done | ]; intros p Hp; apply elem_of_app; right; auto.
Qed.

(** Every secret is found. *)
Lemma listAll_complete fuel pre rest (w w' : world) paths : listAllPaths fuel mount pre w = (w', Ok paths) ->
  is_Some (secretAt (vault w) (dataPath mount (pre +:+ rest))) -> rest <> "" -> pre +:+ rest ∈ paths.
Proof.
  revert pre rest w w' paths; induction fuel as [ | fuel IH ]; intros pre rest w w' paths H Hs Hr; [ discriminate | ].
  cbn [listAllPaths] in H; apply act_bind_ok in H as (w1 & keys & E1 & H).
  assert (Ev : vlist (calls w) (mount +:+ "/metadata/" +:+ pre) (vault w) = Some keys /\ vault w1 = vault w).
  { unfold runList in E1; destruct (vlist _ _ _); [ injection E1 as <- <-; done | discriminate ]. }
  destruct Ev as [ Ev V1 ]; destruct (list_complete _ _ _ _ _ Ev Hs Hr) as (ks & -> & Hin).
  apply (listKeys_has _ _ _ (firstKey rest) _ _ _ (fun p => quiet_listAll fuel mount p)) in H; [ | done ].
  destruct (secret_path _ _ Hs) as [ _ Hns ]; rewrite ends_app in Hns by done.
  destruct H as [ [ Hk Hp ] | (Hk & wa & wb & sub & (_ & _ & Va & _) & Es & Hsub) ].
  - destruct (key_cases rest) as [ K | [ _ K ] ]; [ congruence | now rewrite K in Hp ].
  - apply Hsub; assert (E : pre +:+ rest = (pre +:+ firstKey rest) +:+ afterKey rest) by now rewrite GoPath.sapp_assoc, key_split.
    rewrite E; apply (IH _ _ _ _ _ Es); [ now rewrite Va, V1, <- E | ].
    intros Ha; rewrite <- (key_split rest), Ha in Hns.
    destruct (key_cases rest) as [ K | [ K _ ] ]; [ | congruence ].
    assert (X : forall s, s +:+ "" = s) by (induction s as [ | c t IHs ]; [ done | now rewrite sapp_cons, IHs ]); rewrite X in Hns; congruence.
Qed.

Lemma readSecrets_ok paths acc (w w' : world) secrets : readSecrets mount paths acc w = (w', Ok secrets) ->
  (forall p d, acc !! p = Some d -> secretAt (vault w) (dataPath mount p) = Some d) ->
  (forall p d, secrets !! p = Some d -> secretAt (vault w) (dataPath mount p) = Some d) /\
  (forall p d, acc !! p = Some d \/ p ∈ paths /\ secretAt (vault w) (dataPath mount p) = Some d -> secrets !! p = Some d).
Proof.
  revert acc w; induction paths as [ | p paths IH ]; intros acc w H Hacc; cbn [readSecrets] in H.
  - injection H as <- <-; split; [ done | ]; intros q d [ Hq | [ Hq _ ] ]; [ done | now apply elem_of_nil in Hq ].
  - apply act_bind_ok in H as (w1 & s & E & H); unfold runRead in E; destruct (vread _ _ _) as [ s' | ] eqn:Er; [ | discriminate ]; injection E as <- ->.
    apply read_secret in Er; cbn [vault tick] in *.
    apply IH in H as [ H1 H2 ]; cbn [vault tick] in *.
    + split; [ done | ]; intros q d Hq; apply H2; destruct (decide (q = p)) as [ -> | Ne ].
      * assert (secretAt (vault w) (dataPath mount p) = Some d) as Hd by (destruct Hq as [ Hq | [ _ Hq ] ]; auto).
        left; rewrite Er, Hd; apply lookup_insert_eq.
      * destruct Hq as [ Hq | [ Hin Hd ] ]; [ left; destruct s; [ now rewrite lookup_insert_ne by done | done ] | right ].
        apply elem_of_cons in Hin as [ -> | Hin ]; done.
    + intros q d; destruct s as [ d' | ]; [ | auto ]; destruct (decide (q = p)) as [ -> | Ne ]; [ rewrite lookup_insert_eq; congruence | rewrite lookup_insert_ne by done; auto ].
Qed.

(** An export has the secrets of the mount and nothing else. *)
Lemma secretsOf_all fuel v secrets : secretsOf (B := B) fuel mount v secrets -> forall p d, secrets !! p = Some d <-> secretAt v (dataPath mount p) = Some d.
Proof.
  intros (paths & w & w1 & w2 & w3 & Hv & Hv2 & El & Er) p d; apply readSecrets_ok in Er as [ R1 R2 ]; [ rewrite Hv2 in *; split; [ auto | ] | intros q x Hq; now rewrite lookup_empty in Hq ].
  intros Hd; apply R2; right; split; [ | done ].
  assert (Hs : is_Some (secretAt v (dataPath mount p))) by eauto; destruct (secret_path _ _ Hs) as [ Hne _ ].
  rewrite <- Hv in Hs; now apply (listAll_complete _ "" p _ _ _ El) in Hs.
Qed.
End Secrets.

(** ** The listing *)

Section Listing.
Context {DB V J B : Type} {MA : Machine DB V J} {JS : Json J}.
Abbreviation world := (@World DB V B).

(** From here on no file operation fails. *)
Definition calm (w : world) : Prop := forall n, (calls w <= n)%nat -> fails n = false.

Lemma calm_later (w w' : world) : calm w -> (calls w <= calls w')%nat -> calm w'.
Proof. intros H Hl n Hn; apply H; lia. Qed.

Definition recordAt (f : FilesystemBackupStorage) (fs : gmap string bytes) (n : string) : option BackupMetadata :=
  if isJson n then fs !! GoPath.Join [ Dir f; n ] ≫= decodeMeta else None.

Definition recordsIn (f : FilesystemBackupStorage) (fs : gmap string bytes) : list BackupMetadata := omap (recordAt f fs) (entries (Dir f) fs).

(** A calm action ends well, changes nothing and counts. *)
Definition gives {A} (c : @act DB V B A) (w : world) (a : A) : Prop := exists w', c w = (w', Ok a) /\ same w w' /\ (calls w <= calls w')%nat.

Lemma gives_ret {A} (w : world) (a : A) : gives (ret a) w a.
Proof. exists w; split_and!; [ done | reflexivity | lia ]. Qed.

Lemma gives_bind {A C} (c : @act DB V B A) (k : A -> act C) (w : world) a r : calm w -> gives c w a ->
  (forall w', same w w' -> calm w' -> gives (k a) w' r) -> gives (bind c k) w r.
Proof.
  intros Hc (w1 & E1 & S1 & L1) Hk; destruct (Hk w1 S1 (calm_later _ _ Hc L1)) as (w2 & E2 & S2 & L2).
  exists w2; split_and!; [ unfold bind; now rewrite E1 | now transitivity w1 | lia ].
Qed.

Lemma gives_fallible e (w : world) : calm w -> gives (Fallible e) w tt.
Proof. intros Hc; exists (tick w); unfold Fallible; rewrite Hc by lia; split_and!; [ done | apply same_tick | cbn; lia ]. Qed.

Lemma gives_read p raw (w : world) : calm w -> files w !! p = Some raw -> gives (ReadFile p) w raw.
Proof. intros Hc Hp; exists (tick w); unfold ReadFile; rewrite Hc, Hp by lia; split_and!; [ done | apply same_tick | cbn; lia ]. Qed.

Lemma gives_records f names (w : world) : calm w -> gives (readRecords f names) w (omap (recordAt f (files w)) names).
Proof.
  revert w; induction names as [ | n names IH ]; intros w Hc; cbn [readRecords omap list_omap]; [ apply gives_ret | ].
  unfold recordAt at 1; destruct (isJson n); cbn [negb]; [ | now apply IH ].
  unfold ReadFile at 1; unfold gives; rewrite (Hc (calls w)) by lia.
  assert (Hc' : calm (tick w)) by (apply (calm_later w); [ done | cbn; lia ]).
  destruct (IH _ Hc') as (w1 & E1 & S1 & L1); cbn [files tick calls] in *.
  assert (S : same w w1) by (transitivity (tick w); [ apply same_tick | done ]).
  destruct (files w !! _) as [ raw | ]; cbn [mbind option_bind].
  - destruct (decodeMeta raw) as [ m | ]; [ exists w1; unfold bind; rewrite E1 | exists w1; rewrite E1 ]; split_and!; auto; lia.
  - exists w1; rewrite E1; split_and!; auto; lia.
Qed.

Lemma gives_list f (w : world) : calm w -> gives (ListBackups f) w (merge_sort starts_le (recordsIn f (files w))).
Proof.
  intros Hc; unfold ListBackups; unfold gives; change (gives (bind (Fallible DirUnreadable) (fun _ => bind (readRecords f (entries (Dir f) (files w))) (fun l => ret (merge_sort starts_le l)))) w (merge_sort starts_le (recordsIn f (files w)))).
  apply gives_bind with tt; [ done | now apply gives_fallible | ]; intros w1 (F1 & _) H1.
  apply gives_bind with (recordsIn f (files w)); [ done | | intros; apply gives_ret ].
  unfold recordsIn; rewrite <- F1; now apply gives_records.
Qed.

(** The file of a record is where the listing looks. *)
Lemma isJson_app a : isJson (a +:+ ".json") = true.
Proof. induction a as [ | c a IH ]; [ reflexivity | ]; rewrite sapp_cons; cbn [isJson]; rewrite IH; apply orb_true_r. Qed.

Lemma nameIn_Join dir n : GoPath.plain n -> nameIn dir (GoPath.Join [ dir; n ]) = Some n.
Proof.
  intros Hn; unfold nameIn; rewrite Join_name, strip_prefix_app by done; destruct Hn as (Hs & He & _); rewrite Hs; apply String.eqb_neq in He as ->; reflexivity.
Qed.

Lemma recorded f fs t raw m : fs !! metaPath f (backupId t) = Some raw -> decodeMeta raw = Some m -> m ∈ recordsIn f fs.
Proof.
  intros Hf Hd; unfold recordsIn; apply list_elem_of_omap; exists (backupId t +:+ ".meta.json").
  assert (Hp : GoPath.plain (backupId t +:+ ".meta.json")) by (apply file_plain; unfold extensions; rewrite !elem_of_cons; auto).
  split.
  - unfold entries; rewrite merge_sort_Permutation; apply list_elem_of_omap; exists (metaPath f (backupId t), raw); split; [ now apply elem_of_map_to_list | now apply nameIn_Join ].
  - unfold recordAt; change ".meta.json" with (".meta" +:+ ".json"); rewrite <- GoPath.sapp_assoc, isJson_app, GoPath.sapp_assoc; change (GoPath.Join [ Dir f; backupId t +:+ (".meta" +:+ ".json") ]) with (metaPath f (backupId t)); now rewrite Hf.
Qed.

(** Each record is in the file of its id. *)
Definition tidy (f : FilesystemBackupStorage) (fs : gmap string bytes) : Prop :=
  forall n raw m, n ∈ entries (Dir f) fs -> isJson n = true -> fs !! GoPath.Join [ Dir f; n ] = Some raw -> decodeMeta raw = Some m -> n = ID m +:+ ".meta.json".

Lemma tidy_record f fs m : tidy f fs -> m ∈ recordsIn f fs -> exists raw, fs !! metaPath f (ID m) = Some raw /\ decodeMeta raw = Some m.
Proof.
  intros Ht Hm; unfold recordsIn in Hm; apply list_elem_of_omap in Hm as (n & Hin & Hr); unfold recordAt in Hr; destruct (isJson n) eqn:Ej; [ | discriminate ].
  destruct (fs !! _) as [ raw | ] eqn:Ef; [ | discriminate ]; cbn in Hr; exists raw; split; [ | done ]; rewrite (Ht _ _ _ Hin Ej Ef Hr) in Ef; exact Ef.
Qed.

Lemma byID_in l i m : byID l !! i = Some m -> m ∈ l /\ ID m = i.
Proof.
  induction l as [ | x l IH ]; cbn [byID]; [ now rewrite lookup_empty | ]; cbv zeta; destruct (byID l !! ID x).
  - intros H; destruct (IH H); split; [ now right | done ].
  - destruct (decide (i = ID x)) as [ -> | Ne ]; [ rewrite lookup_insert_eq; intros [= ->]; split; [ now left | done ] | ].
    rewrite lookup_insert_ne by done; intros H; destruct (IH H); split; [ now right | done ].
Qed.

Lemma byID_some l m : m ∈ l -> is_Some (byID l !! ID m).
Proof.
  induction l as [ | x l IH ]; intros H; [ now apply elem_of_nil in H | ]; cbn [byID]; cbv zeta; destruct (byID l !! ID x) as [ y | ] eqn:E.
  - apply elem_of_cons in H as [ -> | H ]; [ eauto | auto ].
  - destruct (decide (ID m = ID x)) as [ -> | Ne ]; [ rewrite lookup_insert_eq; eauto | rewrite lookup_insert_ne by done ].
    apply elem_of_cons in H as [ -> | H ]; [ done | auto ].
Qed.

(** The chain of a full backup is itself: its components are not records. *)
Lemma gives_chain f (w : world) t raw m : calm w -> tidy f (files w) -> files w !! metaPath f (backupId t) = Some raw -> decodeMeta raw = Some m -> ID m = backupId t ->
  (forall i, i ∈ BackupChain m -> files w !! metaPath f i = None) -> gives (GetBackupChain f (ID m)) w [ m ].
Proof.
  intros Hc Ht Hf Hd Hi Hn; unfold GetBackupChain.
  apply gives_bind with (merge_sort starts_le (recordsIn f (files w))); [ done | now apply gives_list | ]; intros w1 _ _; cbv zeta; set (l := merge_sort _ _).
  assert (El : forall x, x ∈ l <-> x ∈ recordsIn f (files w)) by (intros x; unfold l; now rewrite merge_sort_Permutation).
  assert (Hm : m ∈ l) by (apply El; eapply recorded; eauto).
  destruct (byID_some _ _ Hm) as [ x Hx ]; rewrite Hx; destruct (byID_in _ _ _ Hx) as [ Hxl Hxi ].
  assert (x = m) as ->.
  { apply El, (tidy_record _ _ _ Ht) in Hxl as (raw' & Hf' & Hd'); rewrite Hxi, Hi in Hf'; congruence. }
  assert (omap (fun parent => byID l !! parent) (BackupChain m) = []) as ->; [ | apply gives_ret ].
  induction (BackupChain m) as [ | i is_ IH ]; [ done | ]; cbn [omap list_omap].
  destruct (byID l !! i) as [ y | ] eqn:Ey; [ | apply IH; intros j Hj; apply Hn; now right ].
  destruct (byID_in _ _ _ Ey) as [ Hy Hyi ]; apply El, (tidy_record _ _ _ Ht) in Hy as (raw' & Hf' & _); rewrite Hyi in Hf'; rewrite (Hn i) in Hf' by (now left); discriminate Hf'.
Qed.

Lemma gives_points b (w : world) : calm w -> gives (ListRestorePoints b) w (pointOf <$> merge_sort starts_le (recordsIn (storage b) (files w))).
Proof.
  intros Hc; unfold ListRestorePoints; apply gives_bind with (merge_sort starts_le (recordsIn (storage b) (files w))); [ done | now apply gives_list | ]; intros; apply gives_ret.
Qed.

(** The listing has the oldest backup first. *)
Lemma list_sorted f (w w' : world) l : ListBackups f w = (w', Ok l) -> StronglySorted starts_le l.
Proof.
  unfold ListBackups; intros H; apply act_bind_ok in H as (w1 & u & _ & H); apply act_bind_ok in H as (w2 & l0 & _ & H); injection H as _ <-.
  apply StronglySorted_merge_sort; [ intros a b c; unfold starts_le; lia | intros a b; unfold starts_le; lia ].
Qed.
End Listing.

(** ** Restoring *)

(** What is documented of the programs and of JSON.  [has t d]: the database [t]
    holds what was in [d].  [reread]: a value as it comes back from its text, its
    numbers as float64, so that one beyond 2^53 may be another. *)
Class MachineLaws {DB V J : Type} (MA : Machine DB V J) (JS : Json J) := {
  has : DB -> DB -> Prop;
  reread : J -> J;
  reread_object x : isObject (reread x) = isObject x;
  dump_written n d out : pgDump n d = (out, true) -> out <> None;
  dump_restores n n' d raw t t' : pgDump n d = (Some raw, true) -> pgRestore n' raw t = (t', true) -> has t' d;
  walk_all m : walk m ≡ₚ map_to_list m;
  meta_back m raw : encodeMeta m = Some raw -> decodeMeta raw = Some m;
  export_back e raw : encodeExport e = Some raw -> decodeExport raw = Some {| Mount := Mount e; Paths := reread <$> Paths e; Exported := Exported e |}
}.

Section Restoring.
Context {DB V J B : Type} {MA : Machine DB V J} {JS : Json J} (mount : string) {VL : VaultLaws MA mount} {ML : MachineLaws MA JS}.
Abbreviation world := (@World DB V B).

(** From here on nothing fails. *)
Definition steady (w : world) : Prop := forall n, (calls w <= n)%nat ->
  fails n = false /\ (forall raw t, snd (pgRestore n raw t) = true) /\ (forall p d v, p <> "" -> endsInSlash p = false -> snd (vwrite n (dataPath mount p) d v) = true).

Lemma steady_calm (w : world) : steady w -> calm w.
Proof. intros H n Hn; now apply H. Qed.

Lemma steady_later (w w' : world) : steady w -> (calls w <= calls w')%nat -> steady w'.
Proof. intros H Hl n Hn; apply H; lia. Qed.

Lemma dataPath_inj p q : dataPath mount p = dataPath mount q -> p = q.
Proof. unfold dataPath; intros E; apply GoPath.sapp_cancel_l in E; now apply GoPath.sapp_cancel_l in E. Qed.

Lemma writeSecrets_ok l (w : world) : steady w -> NoDup (fst <$> l) -> (forall p, p ∈ fst <$> l -> p <> "" /\ endsInSlash p = false) -> exists w', writeSecrets mount l w = (w', Ok tt) /\
  files w' = files w /\ dbs w' = dbs w /\ (calls w <= calls w')%nat /\
  (forall p d, (p, d) ∈ l -> isObject d = true -> secretAt (vault w') (dataPath mount p) = Some d) /\
  (forall q, (forall p, p ∈ fst <$> l -> q <> dataPath mount p) -> secretAt (vault w') q = secretAt (vault w) q).
Proof.
  revert w; induction l as [ | [ p d ] l IH ]; intros w Hs Hn Hp.
  { exists w; split_and!; try done; intros p d H; now apply elem_of_nil in H. }
  cbn in Hn, Hp; apply NoDup_cons in Hn as [ Hout Hn ]; cbn [writeSecrets].
  assert (Hp' : forall x, x ∈ fst <$> l -> x <> "" /\ endsInSlash x = false) by (intros x Hx; apply Hp; now right).
  destruct (Hp p) as [ P1 P2 ]; [ now left | ].
  assert (Hl : forall q, (forall x, x ∈ p :: (fst <$> l) -> q <> dataPath mount x) -> forall x, x ∈ fst <$> l -> q <> dataPath mount x) by (intros q H x Hx; apply H; now right).
  destruct (isObject d) eqn:Eo.
  - destruct (Hs (calls w)) as (_ & _ & Hw); [ lia | ]; specialize (Hw p d (vault w) P1 P2).
    unfold bind, runWrite; destruct (vwrite _ _ _ _) as [ v ok ] eqn:Ew; cbn in Hw; subst ok; apply write_secret in Ew as [ W1 W2 ].
    destruct (IH (tick (with_vault w v))) as (w' & E & F & D & L & R & O); [ apply (steady_later w); [ done | cbn; lia ] | done | done | ].
    exists w'; cbn [files dbs vault tick with_vault calls] in *; split_and!; try done; [ lia | | ].
    + intros p' d' [ [= -> ->] | Hin ]%elem_of_cons Hobj; [ | auto ].
      rewrite O; [ done | ]; intros x Hx Ex; apply dataPath_inj in Ex as ->; done.
    + intros q Hq; rewrite O by (now apply Hl); apply W2, Hq; now left.
  - destruct (IH w Hs Hn Hp') as (w' & E & F & D & L & R & O); exists w'; split_and!; try done.
    + intros p' d' [ [= -> ->] | Hin ]%elem_of_cons Hobj; [ congruence | auto ].
    + intros q Hq; now apply O, Hl.
Qed.

Lemma restoreFull_one b m chain (w : world) pg v : String.eqb (BackupType m) BackupTypeFull = true -> BackupChain m = [ pg; v ] -> restoreFull b (m :: chain) w =
  bind (naming "failed to restore PostgreSQL" (pgRestoreFrom (postgres b) pg)) (fun _ => naming "failed to restore Vault" (vaultRestore (vaultBackend b) v)) w.
Proof. intros Ht Hc; cbn [restoreFull]; now rewrite Ht, Hc. Qed.

Lemma pgRestore_ok r i dump (w : world) t0 : steady w -> files w !! dumpPath r i = Some dump -> dbs w !! RestoreURI r = Some t0 ->
  exists w' n t, pgRestoreFrom r i w = (w', Ok tt) /\ pgRestore n dump t0 = (t, true) /\ dbs w' = <[ RestoreURI r := t ]> (dbs w) /\
    files w' = files w /\ vault w' = vault w /\ (calls w <= calls w')%nat.
Proof.
  intros Hs Hf Hd; unfold pgRestoreFrom; cbv zeta; unfold bind.
  destruct (gives_read _ _ _ (steady_calm _ Hs) Hf) as (w1 & -> & (F1 & D1 & V1 & _) & L1); unfold runPgRestore; rewrite D1, Hd.
  destruct (Hs (calls w1) L1) as (_ & Hr & _); specialize (Hr dump t0); destruct (pgRestore (calls w1) dump t0) as [ t ok ] eqn:E; cbn in Hr; subst ok.
  eexists _, (calls w1), t; split_and!; [ reflexivity | done | | | | ]; cbn; [ now rewrite D1 | done | done | lia ].
Qed.

Lemma vaultRestore_ok dir i export e (w : world) : steady w -> (forall p d, Paths e !! p = Some d -> p <> "" /\ endsInSlash p = false) -> files w !! vaultDumpPath dir i = Some export -> decodeExport export = Some e ->
  exists w', vaultRestore (RealVault mount dir) i w = (w', Ok tt) /\ files w' = files w /\ dbs w' = dbs w /\ (calls w <= calls w')%nat /\
    forall p d, Paths e !! p = Some d -> isObject d = true -> secretAt (vault w') (dataPath mount p) = Some d.
Proof.
  intros Hs Hp Hf He; unfold vaultRestore, bind.
  destruct (gives_read _ _ _ (steady_calm _ Hs) Hf) as (w1 & -> & (F1 & D1 & V1 & _) & L1); rewrite He.
  destruct (writeSecrets_ok (walk (Paths e)) w1) as (w' & E & F & D & L & R & _).
  - now apply (steady_later w).
  - rewrite walk_all; apply NoDup_fst_map_to_list.
  - intros p; rewrite walk_all; intros ([ q d ] & -> & Hq)%list_elem_of_fmap; apply elem_of_map_to_list in Hq; exact (Hp _ _ Hq).
  - exists w'; split_and!; [ done | congruence | congruence | lia | ]; intros p d Hq; apply R; rewrite walk_all; now apply elem_of_map_to_list.
Qed.
End Restoring.

(** ** Theorems *)

Section Theorems.
Context {DB V J B : Type} {MA : Machine DB V J} {JS : Json J} {AE : Offsite.Aead} {OB : Offsite.Objects B} {AL : Offsite.AeadLaws AE} {OL : Offsite.ObjectLaws OB}.
Context (md5 sha256 : bytes -> bytes) (encodeSums : Offsite.ChecksumRecord -> option bytes) (decodeSums : bytes -> option Offsite.ChecksumRecord) (text : BErr -> string).
Abbreviation world := (@World DB V B).
Abbreviation backupFull := (handleBackupFull md5 sha256 encodeSums text).

(** C37.  A run that answers 200 is kept: its record is on disk as completed, and
    with it, under the ids the record names, the dump of the database as it was,
    the export of Vault and the manifest, each with the checksum that was
    noted; neither the database nor Vault was changed; and with an off-site
    store all three and their checksums are in the bucket, ready to be
    fetched. *)
Theorem completed_backup_is_kept fuel s (w w' : world) m :
  Offsite.tag_says_last -> (forall rec raw, encodeSums rec = Some raw -> decodeSums raw = Some rec) ->
  (forall n name p, nonces n name = Some p -> len p = Offsite.prefixLen) ->
  backupFull fuel s true w = (w', Some (200, Meta m)) ->
  (dbs w' = dbs w /\ vault w' = vault w) /\ (exists raw, encodeMeta m = Some raw /\ files w' !! metaPath (records s) (ID m) = Some raw) /\
  exists mount dir pg v dump export manifest, Kept md5 sha256 decodeSums fuel (manager s) m (dbs w) (vault w) w' mount dir pg v dump export manifest.
Proof. intros Tag Sums Rand H; exact (handleBackupFull_ok md5 sha256 encodeSums decodeSums text Tag Sums Rand _ _ _ _ _ H). Qed.

Lemma restore_kept (mount : string) {VL : VaultLaws MA mount} {ML : MachineLaws MA JS} fuel s m dbs0 v0 (w1 w2 : world) dir pg v dump export manifest raw t0 :
  Kept md5 sha256 decodeSums fuel (manager s) m dbs0 v0 w1 mount dir pg v dump export manifest -> encodeMeta m = Some raw -> files w1 !! metaPath (records s) (ID m) = Some raw ->
  (forall p x, files w1 !! p = Some x -> files w2 !! p = Some x) -> tidy (records s) (files w2) -> (forall i, i ∈ BackupChain m -> files w2 !! metaPath (records s) i = None) ->
  steady mount w2 -> dbs w2 !! RestoreURI (postgres (manager s)) = Some t0 ->
  exists w3 d t, handleRestore s true (Some (ID m)) w2 = (w3, Some (200, Restored (ID m))) /\ dbs0 !! ConnURI (postgres (manager s)) = Some d /\
    dbs w3 !! RestoreURI (postgres (manager s)) = Some t /\ has t d /\
    forall p x, secretAt v0 (dataPath mount p) = Some x -> isObject x = true -> secretAt (vault w3) (dataPath mount p) = Some (reread x).
Proof.
  intros K Er Hraw Hfiles Ht Hn Hs Hdb.
  destruct K as [ Kv Kt _ Kc (ti & _ & _ & Ki & _) [ Kd _ ] [ Ke _ ] _ (n & d & out & Kdb & Kp & Ko) (start & secrets & Ks & Kx) _ ].
  apply meta_back in Er as Dm; assert (out = Some dump) as -> by (destruct Ko as [ | -> ]; [ done | now apply dump_written in Kp ]).
  assert (Hsec : forall p x, secrets !! p = Some x <-> secretAt v0 (dataPath mount p) = Some x) by (eapply secretsOf_all; eauto).
  apply export_back in Kx as Dx; cbn in Dx.
  pose proof (Hfiles _ _ Hraw) as Hraw2; rewrite Ki in Hraw2.
  destruct (gives_points (manager s) w2 (steady_calm _ _ Hs)) as (w3 & E3 & (F3 & D3 & V3 & _) & L3).
  assert (S3 : steady mount w3) by now apply (steady_later _ w2).
  unfold handleRestore; cbn [negb].
  assert (Hne : exists c rest, ID m = String c rest) by (rewrite Ki; eexists _, _; reflexivity); destruct Hne as (c & rest & Hid); rewrite Hid; rewrite <- Hid; unfold answering at 1; rewrite E3.
  set (l := pointOf <$> _); destruct (list_find (fun p => pointID p = ID m) l) as [ [ j target ] | ] eqn:Ef.
  2: { exfalso; apply list_find_None in Ef; rewrite Forall_forall in Ef; apply (Ef (pointOf m)); [ | done ].
       unfold l; apply list_elem_of_fmap; exists m; split; [ done | ]; rewrite merge_sort_Permutation; eapply recorded; eauto. }
  apply list_find_Some in Ef as (_ & Etarget & _); unfold answering, RestoreFromPoint, bind at 1, naming; rewrite Etarget.
  destruct (gives_chain (records s) w3 ti raw m) as (w4 & E4 & (F4 & D4 & V4 & _) & L4); rewrite ?F3; [ now apply (steady_calm mount) | done .. | ].
  unfold records in E4; rewrite E4; cbn [map_err]; unfold bind at 1; rewrite (restoreFull_one _ _ _ _ (ID pg) (ID v)) by (rewrite ?Kt; done).
  assert (S4 : steady mount w4) by now apply (steady_later _ w3).
  destruct (pgRestore_ok mount (postgres (manager s)) (ID pg) dump w4 t0) as (w5 & k & t & E5 & R5 & D5 & F5 & V5 & L5); [ done | rewrite F4, F3; auto | now rewrite D4, D3 | ].
  assert (S5 : steady mount w5) by now apply (steady_later _ w4).
  destruct (vaultRestore_ok mount dir (ID v) export {| Mount := mount; Paths := reread <$> secrets; Exported := start |} w5) as (w6 & E6 & F6 & D6 & L6 & R6); [ done | | rewrite F5, F4, F3; auto | done | ].
  { cbn; intros p x Hx; apply lookup_fmap_Some in Hx as (y & _ & Hx); apply Hsec in Hx; eapply secret_path; eauto. }
  unfold bind, naming; rewrite E5; cbn [map_err]; rewrite Kv, E6; cbn [map_err restoreIncrementals]; rewrite Kt; cbn [orb String.eqb].
  exists w6, d, t; split_and!; [ reflexivity | done | rewrite D6, D5; apply lookup_insert_eq | eapply dump_restores; eauto | ].
  intros p x Hp Ho; apply R6; [ cbn; apply Hsec in Hp; rewrite lookup_fmap, Hp; done | now rewrite reread_object ].
Qed.

End Theorems.

(** ** A small deployment *)

Module Simple.
#[local] Existing Instances Offsite.Simple.aead Offsite.Simple.aead_laws Offsite.Simple.objects Offsite.Simple.object_laws Offsite.Simple.receipt_eq.

Definition goodPath (q : string) : bool := match strip_prefix "secret/data/" q with Some p => negb (String.eqb p "") && negb (endsInSlash p) | None => false end.

(** The keys below a prefix. *)
Definition below (pre : string) (v : gmap string Z) : list (option string) :=
  omap (fun '(k, _) => if goodPath k then match strip_prefix "secret/data/" k with
                                         | Some p => match strip_prefix pre p with Some rest => if String.eqb rest "" then None else Some (Some (firstKey rest)) | None => None end
                                         | None => None end
                       else None) (map_to_list v).

#[export] Instance machine : Machine Z (gmap string Z) Z := {|
  time n := 1000 + Z.of_nat n;
  fails n := false;
  torn n := None;
  pgDump n d := (Some [ d ], true);
  pgRestore n raw t := (default t (head raw), true);
  vlist n path v := Some (match strip_prefix "secret/metadata/" path with Some pre => Some (below pre v) | None => None end);
  vread n p v := Some (if goodPath p then v !! p else None);
  vwrite n p d v := if goodPath p then (<[ p := d ]> v, true) else (v, false);
  isObject d := true;
  walk m := map_to_list m;
  nonces n name := Some [ 1; 2; 3; 4; 5; 6; 7; 8 ]
|}.

#[export] Instance vault_laws : VaultLaws machine "secret".
Proof.
  refine {| secretAt v p := if goodPath p then v !! p else None |}.
  - intros n p v s; cbn; congruence.
  - intros n p d v v'; cbn; destruct (goodPath p) eqn:E; [ | discriminate ]; intros [= <-]; rewrite lookup_insert_eq; split; [ done | ].
    intros q Hq; now rewrite lookup_insert_ne by done.
  - intros n pre v r rest; cbn [vlist machine]; change ("secret" +:+ "/metadata/" +:+ pre) with ("secret/metadata/" +:+ pre); rewrite strip_prefix_app; intros [= <-] [ x Hx ] Hr.
    exists (below pre v); split; [ done | ]; destruct (goodPath _) eqn:Eg; [ | discriminate ]; unfold below; apply list_elem_of_omap.
    exists (dataPath "secret" (pre +:+ rest), x); split; [ now apply elem_of_map_to_list | ]; rewrite Eg.
    change (dataPath "secret" (pre +:+ rest)) with ("secret/data/" +:+ (pre +:+ rest)); rewrite !strip_prefix_app; apply String.eqb_neq in Hr as ->; reflexivity.
  - intros v p [ x Hx ]; change (dataPath "secret" p) with ("secret/data/" +:+ p) in Hx; unfold goodPath in Hx; rewrite strip_prefix_app in Hx.
    destruct (String.eqb_spec p "") as [ -> | ]; [ discriminate | ]; destruct (endsInSlash p); [ discriminate | done ].
Defined.

(** Texts are told apart by their first number. *)
#[export] Instance metadata_eq : EqDecision BackupMetadata.
Proof. solve_decision. Defined.

#[export] Instance metadata_countable : Countable BackupMetadata.
Proof.
  refine (inj_countable' (fun m => (ID m, BackupType m, Status m, Source m, Destination m, Size m, Checksum m, StartTime m, (EndTime m, Duration m, ErrorMessage m, RetentionDays m, ExpiresAt m, VerifiedAt m, Tags m, BackupChain m)))
    (fun '(a, b, c, d, e, f, g, h, (i, j, k, l, m, n, o, p)) => Build_BackupMetadata a b c d e f g h i j k l m n o p) _); now intros [].
Defined.

#[export] Instance json : Json Z := {|
  encodeExport e := Some [ Z.pos (encode (Mount e, Paths e, Exported e)) ];
  decodeExport raw := match raw with [ Z.pos x ] => (fun '(m, p, t) => {| Mount := m; Paths := p; Exported := t |}) <$> decode x | _ => None end;
  encodeMeta m := Some [ Z.pos (encode m) ];
  decodeMeta raw := match raw with [ Z.pos x ] => decode x | _ => None end;
  encodeManifest a b := Some [ Z.pos (encode (a, b)) ]
|}.

#[export] Instance machine_laws : MachineLaws machine json.
Proof.
  refine {| has t d := t = d; reread x := x |}.
  - done.
  - intros n d out [= <-]; done.
  - intros n n' d raw t t' [= <-] [= <-]; reflexivity.
  - done.
  - intros m raw [= <-]; cbn; apply decode_encode.
  - intros e raw [= <-]; cbn [decodeExport json]; rewrite decode_encode, map_fmap_id; destruct e; reflexivity.
Defined.

#[export] Instance receipt_countable : Countable Offsite.OffsiteReceipt.
Proof. refine (inj_countable' (fun r => (Offsite.Key r, Offsite.PlaintextSHA256 r, Offsite.PlaintextBytes r)) (fun '(a, b, c) => Offsite.Build_OffsiteReceipt a b c) _); now intros []. Defined.

Definition encodeSums (r : Offsite.ChecksumRecord) : option bytes := Some [ Z.pos (encode (Offsite.BackupID r, Offsite.Files r)) ].
Definition decodeSums (raw : bytes) : option Offsite.ChecksumRecord := match raw with [ Z.pos x ] => (fun '(i, f) => {| Offsite.BackupID := i; Offsite.Files := f |}) <$> decode x | _ => None end.

Lemma sums_back rec raw : encodeSums rec = Some raw -> decodeSums raw = Some rec.
Proof. intros [= <-]; cbn [decodeSums]; rewrite decode_encode; destruct rec; reflexivity. Qed.

Definition sha := Offsite.Simple.sha.

Definition server : backupServer := {|
  manager := {| storage := {| Dir := "/b/meta" |}; vaultBackend := RealVault "secret" "/b/vault";
                postgres := {| ConnURI := "db"; RestoreURI := "db"; pgDumpDir := "/b/postgres" |}; offsite := Some Offsite.Simple.store |};
  stagingDir := "/b/offsite-restore" |}.

Definition before : @World Z (gmap string Z) (gmap string bytes) := {| files := ∅; dbs := {[ "db" := 7 ]}; vault := <[ "secret/data/keys/a" := 3 ]> {[ "secret/data/b" := 4 ]}; bucket := ∅; calls := 0 |}.

Definition taken : @World Z (gmap string Z) (gmap string bytes) * option (Z * Body) := handleBackupFull sha sha encodeSums (fun _ => "failed") 5 server true before.
Definition takenMeta : BackupMetadata := match snd taken with Some (_, Meta m) => m | _ => started "" "" 0 [] end.

Lemma taken_ok : taken = (fst taken, Some (200, Meta takenMeta)).
Proof.
  assert (match snd taken with Some (c, Meta _) => c =? 200 | _ => false end = true) as H by (vm_compute; reflexivity).
  unfold takenMeta; destruct taken as [ w [ [ c [] ] | ] ]; cbn in *; try discriminate; b2p; now subst c.
Qed.

Lemma taken_chain : BackupChain takenMeta = [ "backup-1003"; "backup-1016" ].
Proof. vm_compute; reflexivity. Qed.

Lemma nonce_8 n name p : nonces n name = Some p -> len p = Offsite.prefixLen.
Proof. intros [= <-]; reflexivity. Qed.

Lemma completed_backup_is_kept_witness : Status takenMeta = "completed" /\
  (dbs (fst taken) = dbs before /\ vault (fst taken) = vault before) /\ (exists raw, encodeMeta takenMeta = Some raw /\ files (fst taken) !! metaPath (records server) (ID takenMeta) = Some raw) /\
  exists mount dir pg v dump export manifest, Kept sha sha decodeSums 5 (manager server) takenMeta (dbs before) (vault before) (fst taken) mount dir pg v dump export manifest.
Proof.
  split; [ vm_compute; reflexivity | ].
  apply (completed_backup_is_kept sha sha encodeSums decodeSums (fun _ => "failed") 5 server before (fst taken) takenMeta).
  - exact Offsite.Simple.tag_last.
  - exact sums_back.
  - exact nonce_8.
  - exact taken_ok.
Defined.

(** Everything but the files is lost. *)
Definition emptied (w : @World Z (gmap string Z) (gmap string bytes)) : @World Z (gmap string Z) (gmap string bytes) := {| files := files w; dbs := {[ "db" := 0 ]}; vault := ∅; bucket := ∅; calls := 100 |}.
Definition lost : @World Z (gmap string Z) (gmap string bytes) := emptied (fst taken).

Lemma emptied_files w : files (emptied w) = files w.
Proof. reflexivity. Qed.

Lemma lost_files : files lost = files (fst taken).
Proof. exact (emptied_files (fst taken)). Qed.

Lemma lost_tidy : tidy (records server) (files lost).
Proof.
  assert (entries "/b/meta" (files lost) = [ "backup-1000.data"; "backup-1000.meta.json" ]) as E by (vm_compute; reflexivity).
  assert (ID <$> (files lost !! "/b/meta/backup-1000.meta.json" ≫= decodeMeta) = Some "backup-1000") as I by (vm_compute; reflexivity).
  intros n raw m Hn Hj Hf Hd; change (Dir (records server)) with "/b/meta" in *; rewrite E in Hn; apply elem_of_cons in Hn as [ -> | Hn ]; [ discriminate Hj | ].
  apply list_elem_of_singleton in Hn as ->; change (GoPath.Join [ "/b/meta"; "backup-1000.meta.json" ]) with "/b/meta/backup-1000.meta.json" in Hf.
  rewrite Hf in I; cbn [mbind option_bind] in I; rewrite Hd in I; cbn in I; injection I as ->; reflexivity.
Qed.


(** An incremental backup is taken and recorded, but cannot be restored: its
    dump is under an id of its own that the record does not keep, and the restore
    looks for it under the id of the record.  The database has by then been put
    back to the backup before. *)
Definition changed : @World Z (gmap string Z) (gmap string bytes) := {| files := files (fst taken); dbs := {[ "db" := 8 ]}; vault := vault before; bucket := ∅; calls := 100 |}.
Definition more : @World Z (gmap string Z) (gmap string bytes) * option (Z * Body) := handleBackupIncremental sha (fun _ => "failed") 5 server true (Some (ID takenMeta)) changed.
Definition moreId : string := match snd more with Some (_, Meta m) => ID m | _ => "" end.

Theorem incremental_backup_cannot_be_restored :
  (fst <$> snd more) = Some 200 /\ dbs (fst more) !! "db" = Some 8 /\
  let '(w, r) := handleRestore server true (Some moreId) (fst more) in
  r = Some (500, Failure "" (At "failed to restore incremental backup" (NotFound (GoPath.Join [ "/b/postgres"; moreId +:+ ".pgdump" ])))) /\ dbs w !! "db" = Some 7.
Proof. vm_compute; split_and!; reflexivity. Qed.
End Simple.
End Backup.
