(* ===== verification/Recovery.v ===== *)
(** * Disaster recovery

    Models [services/backup/failover_postgres.go] (promoting the standby of
    another region) and [disaster_recovery.go] (plans, failovers, drills and the
    health check), with the routes of [cmd/backup-server/handlers.go] over them.

    The standby, the clock and the moment a request's context is done are
    parameters.  A failover runs in a goroutine of its own: it is a function from
    the state in which it starts, and the request that started it has the
    operation as it was registered.

    Shown here: a standby is promoted only if it is one and is not further
    behind than is allowed, or the loss was accepted; a failover reported
    completed has failed over every component it knows, that is, promoted the
    database; the wait for the promotion ends.  And what a drill and the health
    check take for the latest backup is the oldest. *)

From Stdlib Require Import ZArith Lia Ascii String.
From stdpp Require Import base list numbers strings gmap sorting.
From S2P Require Import Prelude GoStrings GoText GoPath BigFloat Offsite Backup.

Open Scope Z_scope.

Module Recovery.
#[local] Open Scope string_scope.
#[local] Open Scope list_scope.
#[local] Open Scope Z_scope.

Definition second : Z := 1000000000.

(** ** Promoting a standby *)

Record PostgresFailover := { StandbyDSN : string; MaxLag : Z; PromotionTimeout : Z; Force : bool }.

Record PostgresFailoverResult := { Promoted : bool; LagAtPromotion : Z; PromotionTime : Z; WasInRecovery : bool; WritableAfter : bool; ResultMessage : string }.

Inductive FErr : Type :=
| NoStandby | CannotOpen | Unreachable | RecoveryUnknown | LagUnknown | LagTooLong (lag limit : Z) | PromoteFailed
| NotConfirmed | StillInRecovery (timeout : Z) | WritesUnknown | ReadOnly (setting : string).

(** The standby at the [n]-th call: whether it answers, whether it is in
    recovery, the seconds since the last transaction it replayed (or null),
    what promoting it does, and [transaction_read_only].  [ctxDone]: the context
    of the caller is done.  [overflowed]: what a [float64] beyond [int64] becomes. *)
Class Standby (Srv : Type) := {
  clock : nat -> Z;
  ctxDone : nat -> bool;
  opens : string -> bool;
  ping : nat -> Srv -> bool;
  recovery : nat -> Srv -> option bool;
  lagSeconds : nat -> Srv -> option (option BigFloat.Float);
  pgPromote : nat -> Srv -> Srv * bool;
  readOnly : nat -> Srv -> option string;
  overflowed : Z
}.

Section Promotion.
Context {Srv : Type} {ST : Standby Srv}.

(** [time.Duration(seconds * float64(time.Second))] of what is not negative *)
Definition toDuration (s : BigFloat.Float) : Z :=
  let p := BigFloat.round 53 (BigFloat.mant s * second) (BigFloat.expo s) false in
  let v := Z.shiftl (BigFloat.mant p) (BigFloat.expo p) in
  if v <? two63 then v else overflowed.

Definition replicationLag (n : nat) (s : Srv) : option Z :=
  if ctxDone n then None
  else match lagSeconds n s with
       | None => None
       | Some None => Some 0
       | Some (Some f) => Some (if BigFloat.mant f <? 0 then 0 else toDuration f)
       end.

Definition limitOf (p : PostgresFailover) (rpo : Z) : Z := if MaxLag p =? 0 then rpo else MaxLag p.

Definition refuseForLag (p : PostgresFailover) (lag rpo : Z) : option FErr :=
  if Force p then None
  else
    let maxLag := limitOf p rpo in
    if (0 <? maxLag) && (maxLag <? lag) then Some (LagTooLong lag maxLag) else None.

Definition inRecovery (n : nat) (s : Srv) : option bool := if ctxDone n then None else recovery n s.

(** The wait for the end of recovery; a turn asks the standby and the clock. *)
Fixpoint awaitPromotion (fuel : nat) (timeout deadline : Z) (n : nat) (s : Srv) : nat * result FErr unit :=
  match fuel with
  | O => (n, Panic)
  | S fuel =>
      match inRecovery n s with
      | Some false => (S n, Ok tt)
      | None => if deadline <? clock (S n) then (n + 2, Err NotConfirmed)%nat else awaitPromotion fuel timeout deadline (n + 2) s
      | Some true => if deadline <? clock (S n) then (n + 2, Err (StillInRecovery timeout))%nat else awaitPromotion fuel timeout deadline (n + 2) s
      end
  end.

Definition timeoutOf (p : PostgresFailover) : Z := if PromotionTimeout p =? 0 then 60 * second else PromotionTimeout p.

(** The standby, the number of calls, the result and the error. *)
Definition Promote (fuel : nat) (p : PostgresFailover) (rpo : Z) (n : nat) (s : Srv) : Srv * nat * result FErr PostgresFailoverResult :=
  if String.eqb (StandbyDSN p) "" then (s, n, Err NoStandby)
  else if negb (opens (StandbyDSN p)) then (s, n, Err CannotOpen)
  else if ctxDone n || negb (ping n s) then (s, n + 1, Err Unreachable)%nat
  else
    match inRecovery (n + 1) s with
    | None => (s, n + 2, Err RecoveryUnknown)%nat
    | Some false =>
        (s, (n + 2)%nat, Ok {| Promoted := false; LagAtPromotion := 0; PromotionTime := 0; WasInRecovery := false; WritableAfter := true;
                         ResultMessage := "target is already a primary (not in recovery); nothing to promote" |})
    | Some true =>
        match replicationLag (n + 2) s with
        | None => (s, n + 3, Err LagUnknown)%nat
        | Some lag =>
            match refuseForLag p lag rpo with
            | Some e => (s, n + 3, Err e)%nat
            | None =>
                let start := clock (n + 3) in
                if ctxDone (n + 4) then (s, n + 5, Err PromoteFailed)%nat
                else
                  let '(s, ok) := pgPromote (n + 4) s in
                  if negb ok then (s, n + 5, Err PromoteFailed)%nat
                  else
                    let deadline := clock (n + 5) + timeoutOf p in
                    let '(m, r) := awaitPromotion fuel (timeoutOf p) deadline (n + 6) s in
                    match r with
                    | Err e => (s, m, Err e)
                    | Panic => (s, m, Panic)
                    | Ok _ =>
                        let took := clock m - start in
                        match (if ctxDone (m + 1) then None else readOnly (m + 1) s) with
                        | None => (s, m + 2, Err WritesUnknown)%nat
                        | Some setting =>
                            if String.eqb setting "off" then
                              (s, (m + 2)%nat, Ok {| Promoted := true; LagAtPromotion := lag; PromotionTime := took; WasInRecovery := true; WritableAfter := true; ResultMessage := "" |})
                            else (s, m + 2, Err (ReadOnly setting))%nat
                        end
                    end
            end
        end
    end.
End Promotion.

(** ** The coordinator *)

Definition FailoverStatusInitiated : string := "initiated".
Definition FailoverStatusInProgress : string := "in_progress".
Definition FailoverStatusCompleted : string := "completed".
Definition FailoverStatusFailed : string := "failed".

Record DisasterRecoveryPlan := {
  planID : string; planName : string; Description : string; PrimaryRegion : string; SecondaryRegion : string; planRTO : Z; planRPO : Z;
  BackupFrequency : Z; TestFrequency : Z; LastTest : Z; NextTest : Z; planStatus : string; planComponents : list string
}.

Record ComponentStatus := { compName : string; compStatus : string; FailoverTime : Z; compError : string }.

Record FailoverOperation := {
  opID : string; opStatus : string; TriggeredAt : Z; CompletedAt : Z; opDuration : Z; SourceRegion : string; TargetRegion : string;
  opRTO : Z; opRPO : Z; DataLoss : Z; opComponents : gmap string ComponentStatus; opError : string
}.

Inductive DErr : Type :=
| NoPlan (id : string) | NoOperation (id : string) | CannotList (e : Backup.BErr) | NoRestorePoints | RestoreTestFailed (e : Backup.BErr)
| CannotVerify (e : Backup.BErr) | NoBackups | ExceedsRPO | NotTested.

Section Coordinator.
Context {Srv : Type} {ST : Standby Srv}.
Context {DB V J B : Type} {MA : Backup.Machine DB V J} {JS : Backup.Json J}.
Context (text : FErr -> string) (showDuration : Z -> string).

(** [backupManager] and [postgresFailover] are fixed when the service starts. *)
Record State := {
  plans : gmap string DisasterRecoveryPlan; operations : gmap string FailoverOperation; componentErrors : gmap string string;
  standby : Srv; count : nat; world : @Backup.World DB V B
}.

Definition set_plan (st : State) (p : DisasterRecoveryPlan) : State :=
  {| plans := <[ planID p := p ]> (plans st); operations := operations st; componentErrors := componentErrors st; standby := standby st; count := count st; world := world st |}.
Definition set_op (st : State) (o : FailoverOperation) : State :=
  {| plans := plans st; operations := <[ opID o := o ]> (operations st); componentErrors := componentErrors st; standby := standby st; count := count st; world := world st |}.
Definition set_error (st : State) (c msg : string) : State :=
  {| plans := plans st; operations := operations st; componentErrors := <[ c := msg ]> (componentErrors st); standby := standby st; count := count st; world := world st |}.
Definition set_standby (st : State) (s : Srv) (n : nat) : State :=
  {| plans := plans st; operations := operations st; componentErrors := componentErrors st; standby := s; count := n; world := world st |}.
Definition set_world (st : State) (w : @Backup.World DB V B) : State :=
  {| plans := plans st; operations := operations st; componentErrors := componentErrors st; standby := standby st; count := count st; world := w |}.

(** [time.Now()] *)
Definition reading (st : State) : Z := clock (count st).
Definition ticked (st : State) : State := set_standby st (standby st) (S (count st)).

Definition orElse (v default : Z) : Z := if v =? 0 then default else v.

(** The id is drawn only for a plan without one. *)
Definition CreateDRPlan (plan : DisasterRecoveryPlan) (st : State) : State * DisasterRecoveryPlan :=
  let st1 := if String.eqb (planID plan) "" then ticked st else st in
  let id := if String.eqb (planID plan) "" then "drplan-" +:+ show_int (reading st) else planID plan in
  let every := orElse (TestFrequency plan) (7 * 24 * 3600 * second) in
  let plan := {| planID := id; planName := planName plan; Description := Description plan; PrimaryRegion := PrimaryRegion plan; SecondaryRegion := SecondaryRegion plan;
                 planRTO := orElse (planRTO plan) (4 * 3600 * second); planRPO := orElse (planRPO plan) (3600 * second);
                 BackupFrequency := orElse (BackupFrequency plan) (15 * 60 * second); TestFrequency := every;
                 LastTest := LastTest plan; NextTest := reading st1 + every; planStatus := "active"; planComponents := planComponents plan |} in
  (set_plan (ticked st1) plan, plan).

Definition GetDRPlan (id : string) (st : State) : result DErr DisasterRecoveryPlan :=
  match plans st !! id with Some p => Ok p | None => Err (NoPlan id) end.

Definition recordComponentError (c msg : string) (st : State) : State := set_error st c msg.
Definition componentError (c : string) (st : State) : string := default "" (componentErrors st !! c).

(** ** Components *)

Definition failoverPostgres (fuel : nat) (pf : option PostgresFailover) (rpo : Z) (st : State) : State * result FErr string :=
  match pf with
  | None => (recordComponentError "postgres" "no standby configured: set STANDBY_DATABASE_URL so the coordinator knows which replica to promote" st, Ok "failed")
  | Some p =>
      let '(s, n, r) := Promote fuel p rpo (count st) (standby st) in
      let st := set_standby st s n in
      match r with
      | Panic => (st, Panic)
      | Err e => (recordComponentError "postgres" (text e) st, Ok "failed")
      | Ok res =>
          if negb (WritableAfter res) then (recordComponentError "postgres" "promotion completed but the server is not accepting writes" st, Ok "failed")
          else
            let msg := if Promoted res then "promoted in " +:+ showDuration (PromotionTime res) +:+ "; replication lag at promotion was " +:+ showDuration (LagAtPromotion res) +:+ " (this is the failover's real RPO)"
                       else ResultMessage res in
            (recordComponentError "postgres" msg st, Ok "healthy")
      end
  end.

Definition failoverVault (st : State) : State * result FErr string :=
  (recordComponentError "vault" "not implemented: promoting a Vault secondary requires either Enterprise DR replication or an operator-driven restore-and-unseal of the secondary cluster; neither is wired up" st, Ok "failed").
Definition failoverAPIGateway (st : State) : State * result FErr string :=
  (recordComponentError "api-gateway" "not implemented: shifting traffic requires DNS or load-balancer updates (Route53/ALB) and cloud credentials this service does not hold" st, Ok "failed").
Definition failoverTemporal (st : State) : State * result FErr string :=
  (recordComponentError "temporal" "not implemented: after the database is promoted, Temporal's frontend and workers must be repointed and restarted by the orchestration layer (a Kubernetes rollout), which this service cannot perform" st, Ok "failed").

Definition failoverComponent (fuel : nat) (pf : option PostgresFailover) (component : string) (rpo : Z) (st : State) : State * result FErr string :=
  if String.eqb component "postgres" then failoverPostgres fuel pf rpo st
  else if String.eqb component "vault" then failoverVault st
  else if String.eqb component "api-gateway" then failoverAPIGateway st
  else if String.eqb component "temporal" then failoverTemporal st
  else (st, Ok "unknown").

(** ** Failover *)

Definition op_with (o : FailoverOperation) (status err : string) : FailoverOperation :=
  {| opID := opID o; opStatus := status; TriggeredAt := TriggeredAt o; CompletedAt := CompletedAt o; opDuration := opDuration o; SourceRegion := SourceRegion o; TargetRegion := TargetRegion o;
     opRTO := opRTO o; opRPO := opRPO o; DataLoss := DataLoss o; opComponents := opComponents o; opError := err |}.
Definition op_component (o : FailoverOperation) (c : ComponentStatus) : FailoverOperation :=
  {| opID := opID o; opStatus := opStatus o; TriggeredAt := TriggeredAt o; CompletedAt := CompletedAt o; opDuration := opDuration o; SourceRegion := SourceRegion o; TargetRegion := TargetRegion o;
     opRTO := opRTO o; opRPO := opRPO o; DataLoss := DataLoss o; opComponents := <[ compName c := c ]> (opComponents o); opError := opError o |}.

(** The seconds of a duration, cut; the code goes through [float64], which is
    exact below 2^22 seconds. *)
Definition op_completed (o : FailoverOperation) (at_ : Z) : FailoverOperation :=
  let took := at_ - TriggeredAt o in
  {| opID := opID o; opStatus := FailoverStatusCompleted; TriggeredAt := TriggeredAt o; CompletedAt := at_; opDuration := took; SourceRegion := SourceRegion o; TargetRegion := TargetRegion o;
     opRTO := opRTO o; opRPO := opRPO o; DataLoss := i64 (Z.quot took second * 1000 * 1024); opComponents := opComponents o; opError := opError o |}.

Definition rollbackFailover (o : FailoverOperation) : FailoverOperation :=
  op_with o FailoverStatusFailed (opError o +:+ "; rollback not implemented: component failover has no real backend to roll back").

Fixpoint failoverAll (fuel : nat) (pf : option PostgresFailover) (deadline rpo : Z) (components : list string) (o : FailoverOperation) (st : State) : State * result FErr FailoverOperation :=
  match components with
  | [] => (ticked st, Ok (op_completed o (reading st)))
  | c :: components =>
      if deadline <? reading st then (ticked st, Ok (op_with o FailoverStatusFailed "Failover exceeded RTO"))
      else
        let st := ticked st in
        let start := reading st in
        let '(st, r) := failoverComponent fuel pf c rpo (ticked st) in
        match r with
        | Panic => (st, Panic)
        | Err e => (st, Err e)
        | Ok status =>
            let took := reading st - start in
            let st := ticked st in
            let o := op_component o {| compName := c; compStatus := status; FailoverTime := took; compError := componentError c st |} in
            if String.eqb status "failed" then
              (st, Ok (rollbackFailover (op_with o FailoverStatusFailed ("Component " +:+ c +:+ " failed to failover: " +:+ componentError c st))))
            else failoverAll fuel pf deadline rpo components o st
        end
  end.

(** The goroutine; the operation it works on is the one that is registered. *)
Definition executeFailover (fuel : nat) (pf : option PostgresFailover) (o : FailoverOperation) (plan : DisasterRecoveryPlan) (st : State) : State * result FErr unit :=
  let o := op_with o FailoverStatusInProgress (opError o) in
  let deadline := reading st + opRTO o in
  let '(st, r) := failoverAll fuel pf deadline (planRPO plan) (planComponents plan) o (ticked st) in
  match r with
  | Ok o => (set_op st o, Ok tt)
  | Err e => (st, Err e)
  | Panic => (st, Panic)
  end.

(** The operation as it is registered, and the goroutine that is started. *)
Definition InitiateFailover (id : string) (st : State) : State * result DErr (FailoverOperation * DisasterRecoveryPlan) :=
  match plans st !! id with
  | None => (st, Err (NoPlan id))
  | Some plan =>
      let o := {| opID := "failover-" +:+ show_int (reading st); opStatus := FailoverStatusInitiated; TriggeredAt := reading (ticked st); CompletedAt := Backup.zeroTime; opDuration := 0;
                  SourceRegion := PrimaryRegion plan; TargetRegion := SecondaryRegion plan; opRTO := planRTO plan; opRPO := planRPO plan; DataLoss := 0; opComponents := ∅; opError := "" |} in
      (set_op (ticked (ticked st)) o, Ok (o, plan))
  end.

Definition GetFailoverOperation (id : string) (st : State) : result DErr FailoverOperation :=
  match operations st !! id with Some o => Ok o | None => Err (NoOperation id) end.

(** ** Drills and health *)

Definition testedPlan (p : DisasterRecoveryPlan) (last next : Z) : DisasterRecoveryPlan :=
  {| planID := planID p; planName := planName p; Description := Description p; PrimaryRegion := PrimaryRegion p; SecondaryRegion := SecondaryRegion p; planRTO := planRTO p; planRPO := planRPO p;
     BackupFrequency := BackupFrequency p; TestFrequency := TestFrequency p; LastTest := last; NextTest := next; planStatus := planStatus p; planComponents := planComponents p |}.

Definition TestDisasterRecovery (b : Backup.BackupManager) (id : string) (st : State) : State * result DErr FailoverOperation :=
  match GetDRPlan id st with
  | Err e => (st, Err e)
  | Panic => (st, Panic)
  | Ok plan =>
      let o := {| opID := "drtest-" +:+ show_int (reading st); opStatus := FailoverStatusInProgress; TriggeredAt := reading (ticked st); CompletedAt := Backup.zeroTime; opDuration := 0;
                  SourceRegion := PrimaryRegion plan; TargetRegion := SecondaryRegion plan; opRTO := 0; opRPO := 0; DataLoss := 0; opComponents := ∅; opError := "" |} in
      let st := ticked (ticked st) in
      let '(w, r) := Backup.ListRestorePoints b (world st) in
      let st := set_world st w in
      match r with
      | Err e => (st, Err (CannotList e))
      | Panic => (st, Panic)
      | Ok [] => (st, Err NoRestorePoints)
      | Ok (latestPoint :: _) =>
          let '(w, r) := Backup.RestoreFromPoint b latestPoint (world st) in
          let st := set_world st w in
          match r with
          | Err e => (st, Err (RestoreTestFailed e))
          | Panic => (st, Panic)
          | Ok _ =>
              let finish := reading st in
              let o := {| opID := opID o; opStatus := FailoverStatusCompleted; TriggeredAt := TriggeredAt o; CompletedAt := finish; opDuration := finish - TriggeredAt o; SourceRegion := SourceRegion o;
                          TargetRegion := TargetRegion o; opRTO := 0; opRPO := 0; DataLoss := 0; opComponents := ∅; opError := "" |} in
              let st := ticked st in
              (set_plan (ticked (ticked st)) (testedPlan plan (reading st) (reading (ticked st) + TestFrequency plan)), Ok o)
          end
      end
  end.

(** The state and, when there is one, the error that goes with it. *)
Definition HealthCheck (b : Backup.BackupManager) (id : string) (st : State) : State * (string * option DErr) :=
  match GetDRPlan id st with
  | Err e => (st, ("unknown", Some e))
  | Panic => (st, ("unknown", None))
  | Ok plan =>
      let '(w, r) := Backup.ListRestorePoints b (world st) in
      let st := set_world st w in
      match r with
      | Err e => (st, ("degraded", Some (CannotVerify e)))
      | Panic => (st, ("degraded", None))
      | Ok [] => (st, ("failed", Some NoBackups))
      | Ok (latestBackup :: _) =>
          if planRPO plan <? reading st - Backup.Timestamp latestBackup then (ticked st, ("degraded", Some ExceedsRPO))
          else
            let st := ticked st in
            if LastTest plan =? Backup.zeroTime then (st, ("untested", None))
            else if TestFrequency plan <? reading st - LastTest plan then (ticked st, ("warning", Some NotTested))
            else (ticked st, ("healthy", None))
      end
  end.

(** ** The routes *)

Inductive DBody : Type :=
| DMessage (error : string)
| DFailure (e : DErr)
| DPlan (p : DisasterRecoveryPlan)
| DOperation (o : FailoverOperation).

Definition handleCreateDRPlan (post : bool) (req : option DisasterRecoveryPlan) (st : State) : State * (Z * DBody) :=
  if negb post then (st, (405, DMessage "method not allowed"))
  else match req with
       | None => (st, (400, DMessage "invalid request"))
       | Some plan => let '(st, plan) := CreateDRPlan plan st in (st, (201, DPlan plan))
       end.

Definition handleTestDR (b : Backup.BackupManager) (post : bool) (req : option string) (st : State) : State * option (Z * DBody) :=
  if negb post then (st, Some (405, DMessage "method not allowed"))
  else match req with
       | None | Some "" => (st, Some (400, DMessage "plan_id is required"))
       | Some id =>
           let '(st, r) := TestDisasterRecovery b id st in
           (st, match r with Ok o => Some (200, DOperation o) | Err e => Some (500, DFailure e) | Panic => None end)
       end.

(** The answer, and the goroutine's operation and plan. *)
Definition handleInitiateFailover (post : bool) (req : option string) (st : State) : State * (Z * DBody) * option (FailoverOperation * DisasterRecoveryPlan) :=
  if negb post then (st, (405, DMessage "method not allowed"), None)
  else match req with
       | None | Some "" => (st, (400, DMessage "plan_id is required"), None)
       | Some id =>
           let '(st, r) := InitiateFailover id st in
           match r with
           | Ok (o, plan) => (st, (202, DOperation o), Some (o, plan))
           | Err e => (st, (500, DFailure e), None)
           | Panic => (st, (500, DMessage ""), None)
           end
       end.

Definition handleFailoverStatus (id : string) (st : State) : Z * DBody :=
  if String.eqb id "" then (400, DMessage "operation_id query param required")
  else match GetFailoverOperation id st with Ok o => (200, DOperation o) | Err e => (404, DFailure e) | Panic => (404, DMessage "") end.
End Coordinator.

(** ** The promotion *)

Section PromotionFacts.
Context {Srv : Type} {ST : Standby Srv}.

Lemma await_ok fuel timeout deadline n (s : Srv) m : awaitPromotion fuel timeout deadline n s = (m, Ok tt) -> exists k, (n <= k)%nat /\ m = S k /\ recovery k s = Some false.
Proof.
  revert n; induction fuel as [ | fuel IH ]; intros n; cbn [awaitPromotion]; [ discriminate | ].
  assert (Hgo : awaitPromotion fuel timeout deadline (n + 2) s = (m, Ok tt) -> exists k, (n <= k)%nat /\ m = S k /\ recovery k s = Some false)
    by (intros H; destruct (IH _ H) as (k & Hk & Hm); exists k; split; [ lia | done ]).
  destruct (inRecovery n s) as [ [] | ] eqn:E.
  - destruct (deadline <? _); [ discriminate | exact Hgo ].
  - intros [= <-]; exists n; unfold inRecovery in E; destruct (ctxDone n); [ discriminate | done ].
  - destruct (deadline <? _); [ discriminate | exact Hgo ].
Qed.

Lemma later_clock : (forall k, clock k < clock (S k)) -> forall n k, clock n + Z.of_nat k <= clock (n + k).
Proof.
  intros Hc n k; induction k as [ | k IH ]; [ rewrite Nat.add_0_r; lia | ]; rewrite Nat.add_succ_r; specialize (Hc (n + k)%nat); lia.
Qed.

(** Every turn that goes on has found the deadline still ahead. *)
Lemma await_ends fuel timeout deadline n (s : Srv) : (forall k, clock k < clock (S k)) -> deadline < clock n + Z.of_nat fuel -> (0 < fuel)%nat -> snd (awaitPromotion fuel timeout deadline n s) <> Panic.
Proof.
  intros Hc; revert n; induction fuel as [ | fuel IH ]; intros n Hf Hp; [ lia | ]; cbn [awaitPromotion].
  assert (Hgo : (deadline <? clock (S n)) = false -> snd (awaitPromotion fuel timeout deadline (n + 2) s) <> Panic).
  { intros Hd; b2p; pose proof (Hc n) as H1; pose proof (later_clock Hc n 2) as H2; apply IH; [ | ].
    - lia.
    - destruct fuel; [ | lia ]; cbn in Hf; lia. }
  destruct (inRecovery n s) as [ [] | ]; [ | discriminate | ]; (destruct (deadline <? clock (S n)) eqn:Ed; [ discriminate | now apply Hgo ]).
Qed.

(** [ns] nanoseconds are the seconds [f], to a nanosecond and one part in 2^53. *)
Definition near (f : BigFloat.Float) (ns : Z) : Prop :=
  let exact := BigFloat.mant f * 10 ^ 9 * 2 ^ Z.max 0 (BigFloat.expo f) in let scale := 2 ^ Z.max 0 (- BigFloat.expo f) in
  2 ^ 53 * Z.abs (ns * scale - exact) <= exact + 2 ^ 53 * scale.
(** More than 146 years. *)
Definition far (f : BigFloat.Float) : Prop :=
  2 ^ 62 * 2 ^ Z.max 0 (- BigFloat.expo f) <= BigFloat.mant f * 10 ^ 9 * 2 ^ Z.max 0 (BigFloat.expo f).

(** The lag a standby reports: nothing replayed yet, or replayed in the future,
    counts as none. *)
Definition reported (seconds : option BigFloat.Float) (lag : Z) : Prop :=
  match seconds with
  | None => lag = 0
  | Some f => BigFloat.mant f < 0 /\ lag = 0 \/ 0 <= BigFloat.mant f /\ (near f lag \/ far f)
  end.

(** When a standby may be promoted: by force, or with a lag within the limit that
    is configured, which is the recovery point objective when none is, and is no
    limit when it is not positive. *)
Definition acceptable (p : PostgresFailover) (rpo lag : Z) : Prop :=
  Force p = true \/ exists limit, (MaxLag p <> 0 /\ limit = MaxLag p \/ MaxLag p = 0 /\ limit = rpo) /\ (limit <= 0 \/ lag <= limit).

(** What may have been done to the standby. *)
Definition allowed (p : PostgresFailover) (rpo : Z) (n : nat) (s s' : Srv) (lag : Z) : Prop :=
  ctxDone (n + 1) = false /\ recovery (n + 1) s = Some true /\ (exists seconds, lagSeconds (n + 2) s = Some seconds /\ reported seconds lag) /\
  acceptable p rpo lag /\ s' = fst (pgPromote (n + 4) s).

(** It was seen out of recovery, and then writable, at the last calls before [m]. *)
Definition confirmed (n m : nat) (s' : Srv) : Prop :=
  exists k, (n + 6 <= k)%nat /\ m = (k + 3)%nat /\ recovery k s' = Some false /\ readOnly (k + 2) s' = Some "off".

Lemma rounded_near m : 0 <= m -> 2 ^ 53 * Z.abs (BigFloat.drop_round m (Z.max 0 (BigFloat.bits m - 53)) false * 2 ^ Z.max 0 (BigFloat.bits m - 53) - m) <= m.
Proof.
  intros H; destruct (Z.le_gt_cases (BigFloat.bits m) 53) as [ L | L ].
  { replace (Z.max 0 (BigFloat.bits m - 53)) with 0 by lia; unfold BigFloat.drop_round; cbn; lia. }
  replace (Z.max 0 (BigFloat.bits m - 53)) with (BigFloat.bits m - 53) by lia.
  pose proof (BigFloat.drop_round_error m (BigFloat.bits m - 53) ltac:(lia) H) as E.
  assert (0 < m) as Hm by (destruct (Z.eq_dec m 0) as [ -> | ]; [ cbn in L; lia | lia ]).
  pose proof (BigFloat.bits_spec m Hm) as [ B _ ].
  assert (2 ^ (BigFloat.bits m - 1) = 2 ^ 53 * 2 ^ (BigFloat.bits m - 53 - 1)) as E1 by (rewrite <- Z.pow_add_r by lia; f_equal; lia).
  lia.
Qed.

(** Cutting [a * 2 ^ (e + d)] to an integer. *)
Lemma shiftl_cut a e d : 0 <= a -> 0 <= d ->
  let v := Z.shiftl a (e + d) in v * 2 ^ Z.max 0 (- e) <= a * 2 ^ d * 2 ^ Z.max 0 e < (v + 1) * 2 ^ Z.max 0 (- e).
Proof.
  intros Ha Hd v; pose proof (BigFloat.pow2_pos (Z.max 0 (- e)) ltac:(lia)) as P.
  destruct (Z.le_gt_cases 0 (e + d)) as [ L | L ].
  - unfold v; rewrite Z.shiftl_mul_pow2 by lia.
    assert (2 ^ (e + d) * 2 ^ Z.max 0 (- e) = 2 ^ d * 2 ^ Z.max 0 e) as E by (rewrite <- !Z.pow_add_r by lia; f_equal; lia).
    rewrite <- Z.mul_assoc, E, Z.mul_add_distr_r, <- (Z.mul_assoc a (2 ^ (e + d))), E; lia.
  - unfold v; rewrite Z.shiftl_div_pow2 by lia; replace (Z.max 0 e) with 0 by lia; replace (Z.max 0 (- e)) with ((- (e + d)) + d) by lia.
    rewrite Z.pow_add_r by lia; pose proof (BigFloat.pow2_pos d Hd); pose proof (BigFloat.pow2_pos (- (e + d)) ltac:(lia)) as Q.
    pose proof (Z.div_mod a (2 ^ (- (e + d))) ltac:(lia)); pose proof (Z.mod_pos_bound a (2 ^ (- (e + d))) Q); nia.
Qed.

Lemma toDuration_near f : 0 <= BigFloat.mant f -> near f (toDuration f) \/ far f.
Proof.
  intros H; unfold toDuration, BigFloat.round, near, far; cbn [BigFloat.mant BigFloat.expo]; cbv zeta; set (m := BigFloat.mant f * second); set (e := BigFloat.expo f).
  change (BigFloat.mant f * 10 ^ 9) with m; assert (0 <= m) as Hm by (unfold m, second; lia).
  pose proof (rounded_near m Hm) as R; set (d := Z.max 0 (BigFloat.bits m - 53)) in *; set (a := BigFloat.drop_round m d false) in *.
  assert (0 <= d) as Hd by lia; assert (0 <= a) as Ha by (pose proof (BigFloat.pow2_pos d Hd); nia).
  pose proof (shiftl_cut a e d Ha Hd) as [ C1 C2 ]; set (v := Z.shiftl a (e + d)) in *.
  pose proof (BigFloat.pow2_pos (Z.max 0 (- e)) ltac:(lia)) as PA; pose proof (BigFloat.pow2_pos (Z.max 0 e) ltac:(lia)) as PB.
  set (A := 2 ^ Z.max 0 (- e)) in *; set (B := 2 ^ Z.max 0 e) in *; set (x := a * 2 ^ d) in *.
  assert (2 ^ 53 * Z.abs (x * B - m * B) <= m * B) as RB by (rewrite <- Z.mul_sub_distr_r, Z.abs_mul, (Z.abs_eq B) by lia; nia).
  remember (x * B) as xB eqn:HxB; remember (m * B) as mB eqn:HmB; clear HxB HmB R.
  destruct (v <? two63) eqn:V; b2p; [ left | right; unfold two63 in V; nia ].
  replace ((v + 1) * A) with (v * A + A) in C2 by ring; remember (v * A) as vA eqn:HvA; clear HvA; lia.
Qed.

Lemma Promote_cases fuel p rpo n (s s' : Srv) m r : Promote fuel p rpo n s = (s', m, r) ->
  (s' = s /\ forall res, r = Ok res -> Promoted res = false /\ WritableAfter res = true /\ recovery (n + 1) s = Some false) \/
  (exists lag, allowed p rpo n s s' lag /\
     forall res, r = Ok res -> Promoted res = true /\ WritableAfter res = true /\ LagAtPromotion res = lag /\ confirmed n m s').
Proof.
  unfold Promote; destruct (String.eqb _ ""); [ intros [= <- <- <-]; left; split; [ done | discriminate ] | ].
  destruct (negb (opens _)); [ intros [= <- <- <-]; left; split; [ done | discriminate ] | ].
  destruct (ctxDone n || _); [ intros [= <- <- <-]; left; split; [ done | discriminate ] | ].
  unfold inRecovery; destruct (ctxDone (n + 1)) eqn:E1; [ intros [= <- <- <-]; left; split; [ done | discriminate ] | ].
  destruct (recovery (n + 1) s) as [ [] | ] eqn:Er.
  2: { intros [= <- <- <-]; left; split; [ done | ]; intros res [= <-]; done. }
  2: { intros [= <- <- <-]; left; split; [ done | discriminate ]. }
  destruct (replicationLag (n + 2) s) as [ lag | ] eqn:El; [ | intros [= <- <- <-]; left; split; [ done | discriminate ] ].
  destruct (refuseForLag p lag rpo) eqn:Ef; [ intros [= <- <- <-]; left; split; [ done | discriminate ] | ].
  destruct (ctxDone (n + 4)); [ intros [= <- <- <-]; left; split; [ done | discriminate ] | ].
  destruct (pgPromote (n + 4) s) as [ s1 ok ] eqn:Ep; cbv zeta; intros H; right; exists lag.
  assert (Hs : s' = s1) by (destruct (negb ok); [ congruence | ]; destruct (awaitPromotion _ _ _ _ _) as [ k [ [] | | ] ]; [ | congruence .. ]; destruct (if ctxDone _ then _ else _) as [ x | ]; [ destruct (String.eqb x "off") | ]; congruence).
  split.
  - unfold allowed; rewrite Ep; split_and!; try done.
    + unfold replicationLag in El; destruct (ctxDone (n + 2)); [ discriminate | ]; destruct (lagSeconds (n + 2) s) as [ [ f | ] | ]; [ | injection El as <-; now exists None | discriminate ].
      exists (Some f); split; [ done | ]; cbn [reported]; destruct (BigFloat.mant f <? 0) eqn:Em; b2p; injection El as <-; [ now left | right; split; [ lia | now apply toDuration_near ] ].
    + unfold acceptable; unfold refuseForLag in Ef; destruct (Force p); [ now left | right ]; cbv zeta in Ef; destruct (_ && _) eqn:Eb; [ discriminate | ]; exists (limitOf p rpo).
      unfold limitOf in *; destruct (MaxLag p =? 0) eqn:E0; b2p; (split; [ auto | ]); apply andb_false_iff in Eb as [ Eb | Eb ]; b2p; [ left | right | left | right ]; lia.
  - clear Hs; intros res ->; destruct (negb ok); [ discriminate | ]; destruct (awaitPromotion _ _ _ _ _) as [ k [ [] | | ] ] eqn:Ea; try discriminate.
    destruct (if ctxDone (k + 1) then None else readOnly (k + 1) s1) as [ x | ] eqn:Ex; [ | discriminate ]; destruct (String.eqb_spec x "off") as [ -> | ]; [ | discriminate ].
    injection H as <- <- <-; cbn [Promoted WritableAfter LagAtPromotion]; split_and!; [ done .. | ]; destruct (await_ok _ _ _ _ _ _ Ea) as (j & Hj & -> & Hr); exists j; split_and!; [ lia | lia | exact Hr | ].
    replace (j + 2)%nat with (S j + 1)%nat by lia; destruct (ctxDone (S j + 1)); [ discriminate | done ].
Qed.

Lemma Promote_ends fuel p rpo n (s : Srv) : (forall k, clock k < clock (S k)) -> timeoutOf p < Z.of_nat fuel -> (0 < fuel)%nat -> snd (Promote fuel p rpo n s) <> Panic.
Proof.
  intros Hc Hf Hp; unfold Promote; destruct (String.eqb _ ""); [ discriminate | ]; destruct (negb (opens _)); [ discriminate | ]; destruct (ctxDone n || _); [ discriminate | ].
  destruct (inRecovery (n + 1) s) as [ [] | ]; [ | discriminate .. ]; destruct (replicationLag (n + 2) s) as [ lag | ]; [ | discriminate ].
  destruct (refuseForLag p lag rpo); [ discriminate | ]; destruct (ctxDone (n + 4)); [ discriminate | ]; destruct (pgPromote (n + 4) s) as [ s1 ok ]; destruct (negb ok); [ discriminate | ]; cbv zeta.
  pose proof (await_ends fuel (timeoutOf p) (clock (n + 5) + timeoutOf p) (n + 6) s1 Hc) as Ha.
  destruct (awaitPromotion _ _ _ _ _) as [ k [ [] | | ] ]; [ | discriminate | ].
  - destruct (if ctxDone _ then _ else _) as [ x | ]; [ destruct (String.eqb x "off") | ]; discriminate.
  - exfalso; apply Ha; [ | done | done ]; pose proof (Hc (n + 5)%nat) as H5; replace (S (n + 5)) with (n + 6)%nat in H5 by lia; lia.
Qed.
End PromotionFacts.

(** ** The failover *)

Section FailoverFacts.
Context {Srv : Type} {ST : Standby Srv}.
Context {DB V J B : Type} {MA : Backup.Machine DB V J} {JS : Backup.Json J}.
Context (text : FErr -> string) (showDuration : Z -> string).
Abbreviation state := (@State Srv DB V B).

(** What stands behind a component that did not fail, from the standby [s] at the
    call [n] to [s'] at [n']: for the database, the configured standby was a
    primary already, or it was promoted as it may be and seen writable; for a
    name the coordinator does not know, nothing at all. *)
Definition done_by (pf : option PostgresFailover) (rpo : Z) (c : string) (s : Srv) (n : nat) (s' : Srv) (n' : nat) : Prop :=
  c <> "vault" /\ c <> "api-gateway" /\ c <> "temporal" /\
  (c = "postgres" -> exists p, pf = Some p /\ (s' = s /\ recovery (n + 1) s = Some false \/ exists lag, allowed p rpo n s s' lag /\ confirmed n n' s')) /\
  (c <> "postgres" -> s' = s).

(** The components of a plan, one after the other. *)
Inductive done_all (pf : option PostgresFailover) (rpo : Z) : list string -> Srv -> nat -> Srv -> nat -> Prop :=
| done_none s n n' : (n <= n')%nat -> done_all pf rpo [] s n s n'
| done_next c cs s n n1 s1 n2 s' n' : (n <= n1)%nat -> done_by pf rpo c s n1 s1 n2 -> done_all pf rpo cs s1 n2 s' n' -> done_all pf rpo (c :: cs) s n s' n'.

Lemma done_earlier pf rpo cs s n m s' n' : (m <= n)%nat -> done_all pf rpo cs s n s' n' -> done_all pf rpo cs s m s' n'.
Proof. intros L H; destruct H as [ | c cs s n n1 s1 n2 s' n' N D A ]; [ constructor; lia | apply (done_next _ _ c cs s m n1 s1 n2); [ lia | done | done ] ]. Qed.

Lemma component_done fuel pf c rpo (st st' : state) status : failoverComponent text showDuration fuel pf c rpo st = (st', Ok status) -> status <> "failed" ->
  done_by pf rpo c (standby st) (count st) (standby st') (count st').
Proof.
  unfold failoverComponent, done_by; destruct (String.eqb_spec c "postgres") as [ -> | Np ].
  - unfold failoverPostgres; destruct pf as [ p | ]; [ | intros [= <- <-]; done ].
    destruct (Promote fuel p rpo (count st) (standby st)) as [ [ s n ] [ res | e | ] ] eqn:E; [ | intros [= <- <-]; done | discriminate ].
    destruct (WritableAfter res) eqn:Ew; cbn [negb]; [ | intros [= <- <-]; done ]; intros [= <- <-] _; cbn [standby count set_error set_standby recordComponentError]; split_and!; try done.
    intros _; exists p; split; [ done | ]; apply Promote_cases in E as [ [ -> Hr ] | (lag & Ha & Hr) ].
    + left; split; [ done | exact (proj2 (proj2 (Hr _ eq_refl))) ].
    + right; exists lag; split; [ done | exact (proj2 (proj2 (proj2 (Hr _ eq_refl)))) ].
  - destruct (String.eqb_spec c "vault") as [ -> | ]; [ intros [= <- <-]; done | ].
    destruct (String.eqb_spec c "api-gateway") as [ -> | ]; [ intros [= <- <-]; done | ].
    destruct (String.eqb_spec c "temporal") as [ -> | ]; [ intros [= <- <-]; done | ]; intros [= <- <-] _; done.
Qed.

Lemma all_done fuel pf deadline rpo cs o (st st' : state) o' : failoverAll text showDuration fuel pf deadline rpo cs o st = (st', Ok o') ->
  opID o' = opID o /\ (opStatus o' = FailoverStatusCompleted -> done_all pf rpo cs (standby st) (count st) (standby st') (count st')).
Proof.
  revert o st; induction cs as [ | c cs IH ]; intros o st; cbn [failoverAll]; [ intros [= <- <-]; split; [ done | intros _; constructor; cbn; lia ] | ].
  destruct (deadline <? _); [ intros [= <- <-]; split; [ done | discriminate ] | ].
  destruct (failoverComponent _ _ _ _ _ _ _) as [ st1 [ status | | ] ] eqn:E; try discriminate.
  destruct (String.eqb_spec status "failed") as [ -> | Ns ]; [ intros [= <- <-]; split; [ done | discriminate ] | ].
  intros H; apply IH in H as [ Ho Hd ]; split; [ exact Ho | ]; intros Hc; eapply done_next; [ | exact (component_done _ _ _ _ _ _ _ E Ns) | ]; [ cbn; lia | ].
  apply (done_earlier _ _ _ _ (S (count st1))); [ lia | exact (Hd Hc) ].
Qed.

Lemma all_ends fuel pf deadline rpo cs o (st : state) : (forall k, clock k < clock (S k)) -> (0 < fuel)%nat -> (forall p, pf = Some p -> timeoutOf p < Z.of_nat fuel) ->
  exists o', snd (failoverAll text showDuration fuel pf deadline rpo cs o st) = Ok o' /\ (opStatus o' = FailoverStatusCompleted \/ opStatus o' = FailoverStatusFailed).
Proof.
  intros Hc Hp Hf; revert o st; induction cs as [ | c cs IH ]; intros o st; cbn [failoverAll]; [ eexists; split; [ reflexivity | now left ] | ].
  destruct (deadline <? _); [ eexists; split; [ reflexivity | now right ] | ].
  assert (Hr : exists st1 status, failoverComponent text showDuration fuel pf c rpo (ticked (ticked st)) = (st1, Ok status)).
  { unfold failoverComponent; destruct (String.eqb c "postgres").
    - unfold failoverPostgres; destruct pf as [ p | ]; [ | eauto ].
      pose proof (Promote_ends fuel p rpo (count (ticked (ticked st))) (standby (ticked (ticked st))) Hc (Hf _ eq_refl) Hp) as HP.
      destruct (Promote _ _ _ _ _) as [ [ s n ] [ res | e | ] ]; [ destruct (negb _); eauto | eauto | done ].
    - repeat (destruct (String.eqb _ _); [ eexists _, _; reflexivity | ]); eauto. }
  destruct Hr as (st1 & status & ->); destruct (String.eqb status "failed"); [ eexists; split; [ reflexivity | now right ] | apply IH ].
Qed.
End FailoverFacts.

(** ** Theorems *)

(** C39.  A standby is promoted only when it may be: whatever the standby answers
    and whenever the context ends, [pg_promote] is run only on a server that
    said it was in recovery, whose measured lag is within the limit, or there is
    no limit, or the loss was accepted by force; otherwise the server is as it
    was.  A success without a promotion means that it was a primary already; one
    with a promotion means that it was seen out of recovery and writable
    afterwards, and reports the lag that was measured. *)
Theorem standby_promoted_within_limit {Srv : Type} (ST : Standby Srv) fuel p rpo n (s s' : Srv) m r :
  Promote fuel p rpo n s = (s', m, r) ->
  (s' = s /\ forall res, r = Ok res -> Promoted res = false /\ WritableAfter res = true /\ recovery (n + 1) s = Some false) \/
  (exists lag, allowed p rpo n s s' lag /\
     forall res, r = Ok res -> Promoted res = true /\ WritableAfter res = true /\ LagAtPromotion res = lag /\ confirmed n m s').
Proof. apply Promote_cases. Qed.

(** C40.  A failover ends and says what happened: as long as the clock advances, the
    run that is started for a plan ends, and the operation that is registered is
    then completed or failed.  Completed means that, from the standby as it was at
    the start of the run to the one it left, the plan has none of the components
    that cannot be failed over, and each time it has the database, the standby was
    at that point a primary already, and was left alone, or was promoted as it may
    be and seen writable; other names in the plan changed nothing. *)
Theorem failover_ends_and_reports {Srv DB V B : Type} (ST : Standby Srv) (text : FErr -> string) (showDuration : Z -> string) fuel pf o plan (st : @State Srv DB V B) :
  (forall k, clock k < clock (S k)) -> (0 < fuel)%nat -> (forall p, pf = Some p -> timeoutOf p < Z.of_nat fuel) ->
  exists st' o', executeFailover text showDuration fuel pf o plan st = (st', Ok tt) /\ operations st' !! opID o = Some o' /\
    (opStatus o' = FailoverStatusCompleted \/ opStatus o' = FailoverStatusFailed) /\
    (opStatus o' = FailoverStatusCompleted -> done_all pf (planRPO plan) (planComponents plan) (standby st) (count st) (standby st') (count st')).
Proof.
  intros Hc Hp Hf; unfold executeFailover; cbv zeta; set (o0 := op_with o _ _).
  destruct (all_ends text showDuration fuel pf (reading st + opRTO o0) (planRPO plan) (planComponents plan) o0 (ticked st) Hc Hp Hf) as (o' & E & Ho).
  destruct (failoverAll _ _ _ _ _ _ _ _ _) as [ st1 r ] eqn:Ea; cbn in E; subst r.
  apply all_done in Ea as [ Hid Hd ]; exists (set_op st1 o'), o'; split_and!; [ done | cbn; rewrite Hid; apply lookup_insert_eq | done | ].
  intros Hc'; apply (done_earlier _ _ _ _ (S (count st))); [ lia | exact (Hd Hc') ].
Qed.

(** ** A small deployment *)

Module Simple.
#[local] Existing Instances Offsite.Simple.aead Offsite.Simple.objects Backup.Simple.machine Backup.Simple.json.

#[export] Instance standby_ : Standby bool := {|
  clock n := 1000 + Z.of_nat n;
  ctxDone n := false;
  opens dsn := true;
  ping n s := true;
  recovery n s := Some s;
  lagSeconds n s := Some (Some {| BigFloat.mant := 3; BigFloat.expo := 0 |});
  pgPromote n s := (false, true);
  readOnly n s := Some (if s then "on" else "off");
  overflowed := 0
|}.

Definition failover : PostgresFailover := {| StandbyDSN := "standby"; MaxLag := 0; PromotionTimeout := 5; Force := false |}.

Lemma standby_promoted_within_limit_witness : lagSeconds 12 true = Some (Some {| BigFloat.mant := 3; BigFloat.expo := 0 |}) /\
  ((false = true /\ forall res, snd (Promote 10 failover (5 * second) 10 true) = Ok res -> Promoted res = false /\ WritableAfter res = true /\ recovery (10 + 1) true = Some false) \/
  (exists lag, allowed failover (5 * second) 10 true false lag /\
     forall res, snd (Promote 10 failover (5 * second) 10 true) = Ok res -> Promoted res = true /\ WritableAfter res = true /\ LagAtPromotion res = lag /\ confirmed 10 19 false)).
Proof.
  split; [ vm_compute; reflexivity | ].
  apply (standby_promoted_within_limit standby_ 10 failover (5 * second) 10 true false 19 (snd (Promote 10 failover (5 * second) 10 true))); vm_compute; reflexivity.
Defined.

Abbreviation store := (gmap string bytes).
Abbreviation world_ := (@Backup.World Z (gmap string Z) store).

Definition planOf (components : list string) : DisasterRecoveryPlan :=
  {| planID := "p"; planName := "plan"; Description := ""; PrimaryRegion := "a"; SecondaryRegion := "b"; planRTO := 1000; planRPO := 50; BackupFrequency := 10; TestFrequency := 1000;
     LastTest := Backup.zeroTime; NextTest := 0; planStatus := "active"; planComponents := components |}.

Definition at_ (plan : DisasterRecoveryPlan) (n : nat) (w : world_) : @State bool Z (gmap string Z) store :=
  {| plans := {[ "p" := plan ]}; operations := ∅; componentErrors := ∅; standby := true; count := n; world := w |}.

Definition op : FailoverOperation :=
  {| opID := "failover-1"; opStatus := FailoverStatusInitiated; TriggeredAt := 1000; CompletedAt := Backup.zeroTime; opDuration := 0; SourceRegion := "a"; TargetRegion := "b";
     opRTO := 1000; opRPO := 50; DataLoss := 0; opComponents := ∅; opError := "" |}.

Definition show (d : Z) : string := show_int d.
Definition said (e : FErr) : string := "failed".

Lemma failover_ends_and_reports_witness : timeoutOf failover = 5 /\
  exists st' o', executeFailover said show 10 (Some failover) op (planOf [ "postgres" ]) (at_ (planOf [ "postgres" ]) 0 Backup.Simple.before) = (st', Ok tt) /\ operations st' !! "failover-1" = Some o' /\
    (opStatus o' = FailoverStatusCompleted \/ opStatus o' = FailoverStatusFailed) /\
    (opStatus o' = FailoverStatusCompleted -> done_all (Some failover) 50 [ "postgres" ] true 0 (standby st') (count st')).
Proof.
  split; [ reflexivity | ].
  apply (failover_ends_and_reports standby_ said show 10 (Some failover) op (planOf [ "postgres" ]) (at_ (planOf [ "postgres" ]) 0 Backup.Simple.before)).
  - intros k; cbn [clock standby_]; lia.
  - lia.
  - intros p [= <-]; reflexivity.
Defined.

(** A component the coordinator does not know counts as failed over: a plan
    with a misspelt name is completed and nothing has been done. *)
Theorem misspelt_component_completes :
  let '(st, r) := executeFailover said show 10 (Some failover) op (planOf [ "postgresql" ]) (at_ (planOf [ "postgresql" ]) 0 Backup.Simple.before) in
  r = Ok tt /\ (opStatus <$> operations st !! "failover-1") = Some FailoverStatusCompleted /\ standby st = true.
Proof. vm_compute; split_and!; reflexivity. Qed.

(** Two backups, with different contents of the database, and then a third
    state. *)
Definition second_ : world_ := fst (Backup.handleBackupFull Backup.Simple.sha Backup.Simple.sha Backup.Simple.encodeSums (fun _ => "failed") 5 Backup.Simple.server true Backup.Simple.changed).
Definition third : world_ := {| Backup.files := Backup.files second_; Backup.dbs := {[ "db" := 9 ]}; Backup.vault := Backup.vault second_; Backup.bucket := ∅; Backup.calls := 130 |}.

(** A drill restores the oldest backup, and, where no other database is named to
    restore into, over the live one: the database had 9, the last backup 8, and
    it is left with 7. *)
Theorem drill_overwrites_with_the_oldest_backup :
  (Backup.StartTime <$> default [] (match snd (Backup.ListBackups (Backup.records Backup.Simple.server) third) with Ok l => Some l | _ => None end)) = [ 1001; 1101 ] /\
  let '(st, r) := TestDisasterRecovery (Backup.manager Backup.Simple.server) "p" (at_ (planOf []) 140 third) in
  match r with Ok o => opStatus o | _ => "" end = FailoverStatusCompleted /\ Backup.dbs third !! "db" = Some 9 /\ Backup.dbs (world st) !! "db" = Some 7.
Proof. vm_compute; split_and!; reflexivity. Qed.

(** The last backup is 39 old and the plan allows 50, but the first one is
    older, and it is that one the health check looks at. *)
Theorem fresh_backup_reported_stale :
  snd (HealthCheck (Backup.manager Backup.Simple.server) "p" (at_ (planOf []) 140 third)) = ("degraded", Some ExceedsRPO).
Proof. vm_compute; reflexivity. Qed.

(** The context of the request ends when its answer is written, and the failover
    it started is still using it. *)
Definition over_http : Standby bool := {|
  clock n := 1000 + Z.of_nat n; ctxDone n := true; opens dsn := true; ping n s := true; recovery n s := Some s; lagSeconds n s := Some None;
  pgPromote n s := (false, true); readOnly n s := Some (if s then "on" else "off"); overflowed := 0 |}.

Theorem failover_of_an_answered_request_fails :
  let '(st, r) := executeFailover (ST := over_http) said show 10 (Some failover) op (planOf [ "postgres" ]) (at_ (planOf [ "postgres" ]) 0 Backup.Simple.before) in
  r = Ok tt /\ (opStatus <$> operations st !! "failover-1") = Some FailoverStatusFailed /\ standby st = true.
Proof. vm_compute; split_and!; reflexivity. Qed.
End Simple.
End Recovery.
